(* ===== verification/_CoqProject ===== *)
-Q . S2P
Prelude.v
RbTree.v
RbRep.v
RbTreeProof.v
RbErase.v
OrdTree.v
RbTreeProps.v
Spinlock.v
Kmalloc.v
KmallocProof.v
Allocator.v
KmallocProps.v
Context.v
Sched.v
SchedProof.v
SchedInv.v
SchedState.v
SchedHandlers.v
SchedMigrate.v
SchedRun.v
SchedExample.v
SchedProps.v
Waitqueue.v
Bitmap.v
Mreclaim.v
Numa.v
Blkdev.v
Swap.v
SwapProof.v
SwapProps.v
Hugepage.v
HugepageProof.v
HugepageProps.v
CString.v
Kfmt.v
Rtc.v
TyCrypto.v
TyCryptoProof.v
Tykid.v
TyAudit.v
TyDeps.v
TyPolicy.v
TyManifest.v
FlatCrc.v
FlatFs.v
FlatAlloc.v
FlatSuper.v
FlatProps.v
FlatFile.v
FlatIO.v
FlatFileProps.v
FlatFindings.v
FlatHtree.v
FlatHtreeRel.v
FlatHtreeOps.v
FlatHtreeSpec.v
FlatHtreeProps.v
FlatJournal.v
FlatJournalProof.v
FlatJournalTheorems.v
Tmpfs.v
TmpfsFile.v
TmpfsProps.v
TmpfsNs.v
TmpfsWalk.v
TmpfsRel.v
TmpfsTree.v
TmpfsOps.v
TmpfsDir.v
TmpfsVfs.v
TmpfsNsProps.v
TmpfsLinks.v
TmpfsTheorems.v
Vfs.v
VfsRoute.v
VfsTmpfs.v
VfsProps.v
VfsTheorems.v
TyGate.v
TyGateProps.v
