(* ===== verification/Prelude.v ===== *)
(** * Kobalt: a verification development of the kernel's core subsystems

    Kobalt is an x86-64 kernel written in C.  This library models its core
    as Rocq functions and proves what the code guarantees.  Paths below are
    relative to src/src/.

    ** Parts of the program and the files that model them

    - Red-black tree (kern/rbtree.c, inc/rbtree.h): RbTree holds the pointer
      code over a heap of nodes; RbRep, RbTreeProof and RbErase relate the
      heap to trees and prove the two fix-up loops; RbTreeProps states the
      results.  OrdTree is the interface the scheduler uses (type classes
      [OrdTree] and [OrdTreeLaws]); the red-black tree is its instance.
    - Ticket spinlock (inc/spinlock.h): Spinlock, as functions for code that
      runs alone and as a step relation of many CPUs.
    - Kernel heap (mm/kmalloc.c): Kmalloc, KmallocProof, KmallocProps.
      Allocator is the interface the scheduler and swap use, discharged by
      the heap.
    - Context switch (arch/x86_64/sched.S): Context.
    - EEVDF scheduler (kern/sched.c): Sched holds every entry point; the
      invariant and its preservation are in SchedProof, SchedInv,
      SchedState, SchedHandlers and SchedMigrate; SchedRun is the transition system of calls; SchedExample
      has concrete runs; SchedProps has the results.
    - Wait queues (kern/waitqueue.c): Waitqueue, over the scheduler.
    - Page reclaim (mm/mreclaim.c): Mreclaim.  NUMA discovery (mm/numa.c):
      Numa.  Block devices (drivers/blkdev.c): Blkdev.
    - Swap (mm/swap.c): Swap, SwapProof, SwapProps over Blkdev, Allocator and
      Mreclaim.  Huge pages (mm/hugepage.c): Hugepage, HugepageProof,
      HugepageProps.  Bitmap is what their allocators share.
    - Strings, formatting and the clock (lib/kfmt.c, lib/string.c,
      kern/rtc.c): CString, Kfmt, Rtc.
    - TYKID cryptography (security/tykid/inc/tykid_crypto.h): TyCrypto,
      TyCryptoProof.  Its audit log (tykid_audit.c): TyAudit.
    - TYKID driver gate (security/tykid/src): Tykid holds the shared data,
      TyDeps the dependency graph of drivers and TyManifest the manifests
      (tykid_registry.c), TyPolicy the access policies (tykid_policy.c),
      TyGate the gate itself (tykid_gate.c, tykid_core.c, tykid_selector.c,
      the scan of tykid_registry.c, the file readers of
      tykid_kobalt_glue.c), over the virtual file system; TyGateProps has
      the results and runs of a small machine.
    - FlatFS (fs/flatfs): FlatCrc holds byte memories and checksums
      (flatfs_crc.c); FlatFs holds superblock, allocator, freelist, inodes,
      inline files, files and the integrity check; FlatAlloc, FlatSuper,
      FlatFile and FlatIO prove their layers; FlatProps and FlatFileProps
      have the results and FlatFindings runs that go wrong.
    - FlatFS directories (flatfs_hash.c, flatfs_dir.c): FlatHtree holds the
      code; FlatHtreeRel relates the blocks to maps, FlatHtreeOps
      and FlatHtreeSpec prove the operations, FlatHtreeProps
      has the results.
    - FlatFS journal (flatfs_journal.c, _tx.c, _commit.c, _recovery.c):
      FlatJournal holds the code, FlatJournalProof the log, the
      stores of a commit, replay and recovery, FlatJournalTheorems the
      results.
    - tmpfs (fs/tmpfs, fs/vfs/tmpfs_vfs.c): Tmpfs, TmpfsFile and TmpfsProps
      are its files, over the Allocator interface.  TmpfsNs holds inode
      table, directories, superblock, paths and the driver; TmpfsWalk is
      about linked lists and names, TmpfsRel says which block belongs to
      what, TmpfsTree is the abstract name space, TmpfsOps, TmpfsDir
      and TmpfsVfs prove the operations, TmpfsNsProps puts them
      in sequence, TmpfsLinks counts links, TmpfsTheorems has the results.
    - Virtual file system (fs/vfs/vfs.c): Vfs, for drivers over any state;
      VfsRoute is routing; VfsTmpfs has tmpfs as a driver and the meaning of
      the calls; VfsProps proves them and VfsTheorems has the results.

    ** How code is represented

    C integers are [Z] with the wrap-around of their width written out
    ([u8] to [u64], [s32], [s64] below).  Pointers are [Z], NULL is 0.
    Structures reached by pointer live in maps from addresses (red-black
    nodes, threads) or in word and byte memories (the heap, page tables, the
    FlatFS volume), so aliasing is that of the code.  A fault or an endless
    spin is [None]; error codes are values.  Handlers take the state and
    return it; code that CPUs interleave inside is a step relation.
    Functions that come from outside the kernel core, such as drivers,
    shrinkers, ACPI lookup and CPUID, are parameters; what is assumed of
    them is stated as named hypotheses, each with an instance.

    ** What the theorems show

    - Tree: insertion and erasure keep order and balance, fault nowhere and
      touch no foreign cell; iteration is complete; search is logarithmic.
    - Lock: the ticket lock refines a FIFO queue; mutual exclusion and
      progress follow, for fewer than 2^16 CPUs.
    - Heap: live blocks are apart and in the pool in every reachable state;
      requests fail only when memory is exhausted; freed memory is reused.
    - Scheduler: every call returns and refines an abstract thread pool; the
      queues hold exactly the ready threads; the choice of the next thread is
      EEVDF; virtual time is monotone; ticks are work conserving.
    - Context, wait queues: registers survive a round trip; every waiter is
      woken.
    - Reclaim, NUMA: accounting stays in range; discovery is total and gives
      valid nodes for every table.
    - Swap: a store of pages, whatever the drivers answer.  Huge pages:
      mapping and unmapping change exactly the translations they should.
    - Cryptography: streaming BLAKE2s, HMAC, ChaCha20 and SipHash equal
      their one-shot definitions, and reproduce published vectors.
    - Strings: block moves, bounded copies, comparison; the formatter writes
      the specified text and stays in its buffer; printing and reading
      numbers are inverse.  Audit log: records are complete, in order and
      exported; a replaced record is noticed unless a tag is forged.
    - Driver gate: manifests are read back as written; the dependency sort
      orders every acyclic graph and reports every cycle; any calls of the
      gate move drivers along a life cycle, in which blocked drivers stay
      blocked and only drivers whose file had the right MAC become active;
      the integrity check is exact on a file it opens; the policy allows
      what the device of a driver covers and nothing else, up to collisions
      of the hash cache.
    - tmpfs: a file refines an array of bytes, out-of-memory included; a
      mounted instance refines a name space of numbered nodes; an unmount
      gives back all memory; link counts are exact.
    - Virtual file system: routing is by longest mount point; with tmpfs
      behind it, calls on paths and descriptors refine the name space with
      positions, and what is written is read back.
    - FlatFS: the superblock survives a damaged byte; the block allocator
      refines a set of free blocks; inodes and files read back as written
      and do not disturb each other; directories refine maps from names;
      the journal refines a list of committed transactions, recovery brings
      back exactly those of the log, and a crash at any store of a commit
      is described.
    - Theorems that end in a wrong state record defects: a huge request that
      wraps the heap, threads lost or run twice, a lost wake-up, wrapped
      device bounds, double frees, a file whose truncation shares its
      blocks, a name entered twice, a transaction torn by a crash, an open
      file freed by its unlink, drivers failed for the order of loading or
      blocked although intact, a revocation forgotten.

    ** Bounds and fuel

    Loops over pointer structures take fuel from the size of the structure
    (the heap of tree cells, the list of threads, the entries and inodes of
    tmpfs, the bytes of a path); loops over arrays and tables are structural
    in their length.  FlatFS and tmpfs reads and writes
    take one iteration per touched block, [len / 4096 + 2] at most; the
    journal's replay one per log block between head and tail; the gate's
    check of a driver file one per 4096 bytes.  The
    theorems show that these are enough: no call that meets its conditions
    runs out.  Interleavings are unbounded.

    ** Not modelled

    Vendored libraries (lwIP, BearSSL, uACPI, FatFs, the Intel network
    drivers); device drivers, sound, interrupt controllers, SMP bring-up,
    frequency and idle control, whose effect is on hardware registers; the
    rest of TYKID (threat scan, watchdog, sandbox, attestation, IOMMU,
    initialisation); the system call layer, procfs, sysfs and devfs; the
    B-tree, inode cache, handoff and path walking of FlatFS; the
    shell.  Inside the modelled parts, console output is left
    out, and memory ordering weaker than sequential consistency is not
    represented. *)

From stdpp Require Import base gmap list.
From Stdlib Require Import ZArith Lia.

#[global] Open Scope Z_scope.

Declare Scope kobalt_scope.
Delimit Scope kobalt_scope with K.

(** ** Machine-width integers

    C integers are [Z] values kept in range by explicit wrap-around:
    [u64 z] is the value of a [uint64_t] expression whose exact result is
    [z]; [s64] and [s32] are the two's-complement signed readings. *)

Definition u8 (z : Z) : Z := z mod 2 ^ 8.
Definition u16 (z : Z) : Z := z mod 2 ^ 16.
Definition u32 (z : Z) : Z := z mod 2 ^ 32.
Definition u64 (z : Z) : Z := z mod 2 ^ 64.
Definition s32 (z : Z) : Z := (z + 2 ^ 31) mod 2 ^ 32 - 2 ^ 31.
Definition s64 (z : Z) : Z := (z + 2 ^ 63) mod 2 ^ 64 - 2 ^ 63.

(** [lia] with division and modulo by constants turned into equations. *)
Ltac zlia := Z.to_euclidean_division_equations; lia.

Create HintDb kobalt.

Lemma u64_small z : 0 <= z < 2 ^ 64 -> u64 z = z.
Proof. intros; apply Z.mod_small; lia. Qed.

(** ** Arrays and memories as total functions *)

Definition upd {A} (f : Z -> A) (i : Z) (v : A) : Z -> A :=
  fun j => if j =? i then v else f j.

Definition nupd {A} (f : nat -> A) (i : nat) (v : A) : nat -> A :=
  fun j => if Nat.eqb j i then v else f j.

Lemma upd_eq {A} (f : Z -> A) i v : upd f i v i = v.
Proof. unfold upd. by rewrite Z.eqb_refl. Qed.

Lemma upd_ne {A} (f : Z -> A) i j v : j <> i -> upd f i v j = f j.
Proof. unfold upd. intros H. by rewrite (proj2 (Z.eqb_neq _ _) H). Qed.

Lemma nupd_eq {A} (f : nat -> A) i v : nupd f i v i = v.
Proof. unfold nupd. by rewrite Nat.eqb_refl. Qed.

Lemma nupd_ne {A} (f : nat -> A) i j v : j <> i -> nupd f i v j = f j.
Proof. unfold nupd. intros H. by rewrite (proj2 (Nat.eqb_neq _ _) H). Qed.

(** ** Lists *)

Lemma filter_ne `{EqDecision A} (x : A) (l : list A) : x ∉ l -> filter (fun y => y <> x) l = l.
Proof.
  induction l as [|y l IH]; [done|]. rewrite not_elem_of_cons. intros [Hy Hl].
  rewrite filter_cons_True by done. by rewrite IH.
Qed.

Lemma filter_ne_mid `{EqDecision A} (x : A) (l1 l2 : list A) :
  NoDup (l1 ++ x :: l2) -> filter (fun y => y <> x) (l1 ++ x :: l2) = l1 ++ l2.
Proof.
  intros (_ & Hd & [Hn _]%NoDup_cons)%NoDup_app. rewrite filter_app, filter_cons_False by tauto.
  rewrite !filter_ne; [done|done|]. intros Hx. apply (Hd x); [done|]. by left.
Qed.

(** ** Bit fields *)

Lemma testbit_small b n k : 0 <= b < 2 ^ n -> n <= k -> 0 <= n -> Z.testbit b k = false.
Proof.
  intros Hb Hk Hn. destruct (Z.eq_dec b 0) as [->|Hne]; [apply Z.bits_0|].
  apply Z.bits_above_log2; [lia|]. apply Z.lt_le_trans with n; [|lia]. apply Z.log2_lt_pow2; lia.
Qed.

Lemma land_shift_small a b n : 0 <= n -> 0 <= b < 2 ^ n -> Z.land (Z.shiftl a n) b = 0.
Proof.
  intros Hn Hb. apply Z.bits_inj'. intros k Hk. rewrite Z.land_spec, Z.bits_0.
  destruct (Z.lt_ge_cases k n); [rewrite Z.shiftl_spec_low by lia; done|].
  rewrite (testbit_small b n) by lia. apply andb_false_r.
Qed.

(** A field shifted above another one. *)
Lemma lor_shift a b n : 0 <= n -> 0 <= b < 2 ^ n -> Z.lor (Z.shiftl a n) b = a * 2 ^ n + b.
Proof.
  intros Hn Hb. rewrite <- Z.shiftl_mul_pow2 by done. symmetry. apply Z.add_nocarry_lor. by apply land_shift_small.
Qed.

Lemma land_mask a n : 0 <= n -> Z.land a (2 ^ n - 1) = a mod 2 ^ n.
Proof. intros Hn. rewrite <- Z.land_ones by done. f_equal. rewrite Z.ones_equiv. lia. Qed.
