(* ===== verification/RbTree.v ===== *)
(** * The intrusive red-black tree of the kernel (kern/rbtree.c, inc/rbtree.h)

    The tree is intrusive: a node lives inside the object it orders, so the
    model is a heap from addresses to [struct rb_node] values and every
    operation reads and writes that heap through pointers.  A dereference of
    an address the heap does not hold is a fault, the value [None].  The
    parent pointer and the colour share one word, [__pc]: bit 0 is the colour
    (1 is black), the other bits are the parent, which is why nodes must be at
    even addresses.

    Loops carry fuel; the exported operations take [S (S (size heap))], which
    the theorems of RbTreeProof show to be enough. *)

From stdpp Require Import base gmap list.
From Stdlib Require Import ZArith Lia.
From S2P Require Import Prelude.

Record rb_node := RbNode { rb_pc : Z; rb_left : Z; rb_right : Z }.

Record rb_state := RbState { rb_heap : gmap Z rb_node; rb_root : Z }.

(** The macros of inc/rbtree.h. *)
Definition rb_parent (n : rb_node) : Z := Z.land (rb_pc n) (Z.lnot 1).
Definition rb_is_red (n : rb_node) : bool := Z.land (rb_pc n) 1 =? 0.
Definition rb_is_black (n : rb_node) : bool := negb (Z.land (rb_pc n) 1 =? 0).

Definition node_set_black (n : rb_node) : rb_node :=
  RbNode (Z.lor (rb_pc n) 1) (rb_left n) (rb_right n).
Definition node_set_red (n : rb_node) : rb_node :=
  RbNode (Z.land (rb_pc n) (Z.lnot 1)) (rb_left n) (rb_right n).
Definition node_set_left (p : Z) (n : rb_node) : rb_node :=
  RbNode (rb_pc n) p (rb_right n).
Definition node_set_right (p : Z) (n : rb_node) : rb_node :=
  RbNode (rb_pc n) (rb_left n) p.
Definition node_set_parent (p : Z) (n : rb_node) : rb_node :=
  RbNode (Z.lor (Z.land (rb_pc n) 1) p) (rb_left n) (rb_right n).
(** [w->__pc = (w->__pc & ~1UL) | (v->__pc & 1)] *)
Definition node_copy_color (v w : rb_node) : rb_node :=
  RbNode (Z.lor (Z.land (rb_pc w) (Z.lnot 1)) (Z.land (rb_pc v) 1))
         (rb_left w) (rb_right w).

(** Reading a node and updating one in place; both fault off the heap. *)
Definition load (s : rb_state) (p : Z) : option rb_node := rb_heap s !! p.

Definition update (s : rb_state) (p : Z) (f : rb_node -> rb_node) : option rb_state :=
  n ← load s p; Some (RbState (<[p := f n]> (rb_heap s)) (rb_root s)).

Definition set_root (s : rb_state) (p : Z) : rb_state := RbState (rb_heap s) p.

Definition rb_set_black (s : rb_state) (p : Z) : option rb_state := update s p node_set_black.
Definition rb_set_red (s : rb_state) (p : Z) : option rb_state := update s p node_set_red.

Definition set_parent (s : rb_state) (n p : Z) : option rb_state :=
  update s n (node_set_parent p).

(** [if (n) set_parent(n, p)] *)
Definition set_parent_opt (s : rb_state) (n p : Z) : option rb_state :=
  if n =? 0 then Some s else set_parent s n p.

Definition rotate_left (s : rb_state) (x : Z) : option rb_state :=
  nx ← load s x;
  let y := rb_right nx in
  ny ← load s y;
  let yl := rb_left ny in
  let xp := rb_parent nx in
  s ← update s y (node_set_left x);
  s ← update s x (node_set_right yl);
  s ← set_parent_opt s yl x;
  s ← set_parent s x y;
  s ← set_parent s y xp;
  if xp =? 0 then Some (set_root s y)
  else nxp ← load s xp;
       if rb_left nxp =? x then update s xp (node_set_left y)
       else update s xp (node_set_right y).

Definition rotate_right (s : rb_state) (x : Z) : option rb_state :=
  nx ← load s x;
  let y := rb_left nx in
  ny ← load s y;
  let yr := rb_right ny in
  let xp := rb_parent nx in
  s ← update s y (node_set_right x);
  s ← update s x (node_set_left yr);
  s ← set_parent_opt s yr x;
  s ← set_parent s x y;
  s ← set_parent s y xp;
  if xp =? 0 then Some (set_root s y)
  else nxp ← load s xp;
       if rb_right nxp =? x then update s xp (node_set_right y)
       else update s xp (node_set_left y).

(** [u && rb_is_red(u)] and [!w || rb_is_black(w)] *)
Definition nonnull_red (s : rb_state) (u : Z) : option bool :=
  if u =? 0 then Some false else n ← load s u; Some (rb_is_red n).
Definition null_or_black (s : rb_state) (w : Z) : option bool :=
  if w =? 0 then Some true else n ← load s w; Some (rb_is_black n).

(** The two halves of the [for (;;)] body of insert_fixup, with [u] the uncle:
    the answer [Some z] is [continue] with that [z], [None] is [break]. *)
Definition insert_fixup_left (s : rb_state) (z p g : Z) (np ng : rb_node) :
    option (rb_state * option Z) :=
  let u := rb_right ng in
  ured ← nonnull_red s u;
  if (ured : bool) then
    s ← rb_set_black s p; s ← rb_set_black s u; s ← rb_set_red s g;
    Some (s, Some g)
  else
    '(s, p, g) ← (if z =? rb_right np then
                    s ← rotate_left s p;
                    let z := p in
                    nz ← load s z; let p := rb_parent nz in
                    np ← load s p; Some (s, p, rb_parent np)
                  else Some (s, p, g));
    s ← rb_set_black s p; s ← rb_set_red s g;
    s ← rotate_right s g;
    Some (s, None).

Definition insert_fixup_right (s : rb_state) (z p g : Z) (np ng : rb_node) :
    option (rb_state * option Z) :=
  let u := rb_left ng in
  ured ← nonnull_red s u;
  if (ured : bool) then
    s ← rb_set_black s p; s ← rb_set_black s u; s ← rb_set_red s g;
    Some (s, Some g)
  else
    '(s, p, g) ← (if z =? rb_left np then
                    s ← rotate_right s p;
                    let z := p in
                    nz ← load s z; let p := rb_parent nz in
                    np ← load s p; Some (s, p, rb_parent np)
                  else Some (s, p, g));
    s ← rb_set_black s p; s ← rb_set_red s g;
    s ← rotate_left s g;
    Some (s, None).

Definition insert_fixup_body (s : rb_state) (z : Z) : option (rb_state * option Z) :=
  nz ← load s z;
  let p := rb_parent nz in
  if p =? 0 then Some (s, None) else
  np ← load s p;
  if rb_is_black np then Some (s, None) else
  let g := rb_parent np in
  if g =? 0 then Some (s, None) else
  ng ← load s g;
  if p =? rb_left ng then insert_fixup_left s z p g np ng
  else insert_fixup_right s z p g np ng.

Fixpoint insert_fixup_loop (fuel : nat) (s : rb_state) (z : Z) : option rb_state :=
  match fuel with
  | O => None
  | S fuel =>
      '(s, next) ← insert_fixup_body s z;
      match next with
      | Some z => insert_fixup_loop fuel s z
      | None => Some s
      end
  end.

Definition insert_fixup (fuel : nat) (s : rb_state) (z : Z) : option rb_state :=
  s ← insert_fixup_loop fuel s z;
  rb_set_black s (rb_root s).

(** The descent of rb_insert.  [link] is the address of the pointer the new
    node will be stored in: the root word, or the left or right word of
    [parent]. *)
Inductive link_t := LRoot | LLeft (p : Z) | LRight (p : Z).

Definition read_link (s : rb_state) (l : link_t) : option Z :=
  match l with
  | LRoot => Some (rb_root s)
  | LLeft p => n ← load s p; Some (rb_left n)
  | LRight p => n ← load s p; Some (rb_right n)
  end.

Definition write_link (s : rb_state) (l : link_t) (v : Z) : option rb_state :=
  match l with
  | LRoot => Some (set_root s v)
  | LLeft p => update s p (node_set_left v)
  | LRight p => update s p (node_set_right v)
  end.

Fixpoint insert_descend (fuel : nat) (s : rb_state) (cmp : Z -> Z -> Z) (node : Z)
    (link : link_t) (parent : Z) : option (link_t * Z) :=
  match fuel with
  | O => None
  | S fuel =>
      v ← read_link s link;
      if v =? 0 then Some (link, parent)
      else insert_descend fuel s cmp node
             (if cmp node v <? 0 then LLeft v else LRight v) v
  end.

Definition loop_fuel (s : rb_state) : nat := S (S (size (rb_heap s))).

Definition rb_insert (cmp : Z -> Z -> Z) (s : rb_state) (node : Z) : option rb_state :=
  '(link, parent) ← insert_descend (loop_fuel s) s cmp node LRoot 0;
  s ← update s node (fun _ => RbNode parent 0 0);
  s ← write_link s link node;
  insert_fixup (loop_fuel s) s node.

Definition transplant (s : rb_state) (u v : Z) : option rb_state :=
  nu ← load s u;
  let up := rb_parent nu in
  s ← (if up =? 0 then Some (set_root s v)
       else nup ← load s up;
            if rb_left nup =? u then update s up (node_set_left v)
            else update s up (node_set_right v));
  set_parent_opt s v up.

(** The two halves of the [while] body of delete_fixup, [x] the left or the
    right child of [xp]; the answer is the next [x] and [xp]. *)
Definition delete_fixup_left (s : rb_state) (xp : Z) (nxp : rb_node) :
    option (rb_state * Z * Z) :=
  let w := rb_right nxp in
  nw ← load s w;
  '(s, w) ← (if rb_is_red nw then
               s ← rb_set_black s w; s ← rb_set_red s xp;
               s ← rotate_left s xp;
               nxp ← load s xp; Some (s, rb_right nxp)
             else Some (s, w));
  nw ← load s w;
  bl ← null_or_black s (rb_left nw);
  br ← null_or_black s (rb_right nw);
  if (bl : bool) && (br : bool) then
    s ← rb_set_red s w;
    nx ← load s xp; Some (s, xp, rb_parent nx)
  else
    '(s, w) ← (if br : bool then
                 s ← (if rb_left nw =? 0 then Some s else rb_set_black s (rb_left nw));
                 s ← rb_set_red s w;
                 s ← rotate_right s w;
                 nxp ← load s xp; Some (s, rb_right nxp)
               else Some (s, w));
    nxp ← load s xp;
    s ← update s w (node_copy_color nxp);
    s ← rb_set_black s xp;
    nw ← load s w;
    s ← (if rb_right nw =? 0 then Some s else rb_set_black s (rb_right nw));
    s ← rotate_left s xp;
    Some (s, rb_root s, 0).

Definition delete_fixup_right (s : rb_state) (xp : Z) (nxp : rb_node) :
    option (rb_state * Z * Z) :=
  let w := rb_left nxp in
  nw ← load s w;
  '(s, w) ← (if rb_is_red nw then
               s ← rb_set_black s w; s ← rb_set_red s xp;
               s ← rotate_right s xp;
               nxp ← load s xp; Some (s, rb_left nxp)
             else Some (s, w));
  nw ← load s w;
  br ← null_or_black s (rb_right nw);
  bl ← null_or_black s (rb_left nw);
  if (br : bool) && (bl : bool) then
    s ← rb_set_red s w;
    nx ← load s xp; Some (s, xp, rb_parent nx)
  else
    '(s, w) ← (if bl : bool then
                 s ← (if rb_right nw =? 0 then Some s else rb_set_black s (rb_right nw));
                 s ← rb_set_red s w;
                 s ← rotate_left s w;
                 nxp ← load s xp; Some (s, rb_left nxp)
               else Some (s, w));
    nxp ← load s xp;
    s ← update s w (node_copy_color nxp);
    s ← rb_set_black s xp;
    nw ← load s w;
    s ← (if rb_left nw =? 0 then Some s else rb_set_black s (rb_left nw));
    s ← rotate_right s xp;
    Some (s, rb_root s, 0).

Definition delete_fixup_body (s : rb_state) (x xp : Z) : option (rb_state * Z * Z) :=
  nxp ← load s xp;
  if x =? rb_left nxp then delete_fixup_left s xp nxp
  else delete_fixup_right s xp nxp.

Fixpoint delete_fixup (fuel : nat) (s : rb_state) (x xp : Z) : option rb_state :=
  match fuel with
  | O => None
  | S fuel =>
      go ← (if x =? rb_root s then Some false else null_or_black s x);
      if (go : bool) then
        '(s, x, xp) ← delete_fixup_body s x xp;
        delete_fixup fuel s x xp
      else if x =? 0 then Some s else rb_set_black s x
  end.

(** [while (y->left) y = y->left] *)
Fixpoint leftmost (fuel : nat) (s : rb_state) (y : Z) : option Z :=
  match fuel with
  | O => None
  | S fuel =>
      ny ← load s y;
      if rb_left ny =? 0 then Some y else leftmost fuel s (rb_left ny)
  end.

Definition rb_erase (s : rb_state) (z : Z) : option rb_state :=
  nz ← load s z;
  '(s, x, xp, orig_black) ←
    (if rb_left nz =? 0 then
       s' ← transplant s z (rb_right nz);
       Some (s', rb_right nz, rb_parent nz, rb_is_black nz)
     else if rb_right nz =? 0 then
       s' ← transplant s z (rb_left nz);
       Some (s', rb_left nz, rb_parent nz, rb_is_black nz)
     else
       y ← leftmost (loop_fuel s) s (rb_right nz);
       ny ← load s y;
       let x := rb_right ny in
       '(s, xp) ← (if rb_parent ny =? z then Some (s, y)
                   else
                     s ← transplant s y (rb_right ny);
                     nz ← load s z;
                     s ← update s y (node_set_right (rb_right nz));
                     s ← set_parent s (rb_right nz) y;
                     Some (s, rb_parent ny));
       s ← transplant s z y;
       nz ← load s z;
       s ← update s y (node_set_left (rb_left nz));
       s ← set_parent s (rb_left nz) y;
       nz ← load s z;
       s ← update s y (node_copy_color nz);
       Some (s, x, xp, rb_is_black ny));
  if (orig_black : bool) then delete_fixup (loop_fuel s) s x xp else Some s.

Definition rb_first (s : rb_state) : option Z :=
  if rb_root s =? 0 then Some 0 else leftmost (loop_fuel s) s (rb_root s).

(** [while (p && n == p->right) { n = p; p = rb_parent(n); }  return p;] *)
Fixpoint climb (fuel : nat) (s : rb_state) (n p : Z) : option Z :=
  match fuel with
  | O => None
  | S fuel =>
      if p =? 0 then Some 0 else
      np ← load s p;
      if n =? rb_right np then climb fuel s p (rb_parent np) else Some p
  end.

Definition rb_next (s : rb_state) (n : Z) : option Z :=
  nn ← load s n;
  if negb (rb_right nn =? 0) then leftmost (loop_fuel s) s (rb_right nn)
  else climb (loop_fuel s) s n (rb_parent nn).
