(* ===== verification/RbRep.v ===== *)
(** * Heap representation of the red-black tree

    The abstraction of a heap-allocated tree is an inductive [tree] whose
    leaves are NULL and whose nodes carry the address of the C node.  [rep]
    says that a heap holds a tree under a given parent; a zipper (a list of
    [frame]s, innermost first) describes the position the fix-up loops are at,
    so that every rotation is a local step.  The lemmas of this file say what
    the pointer operations of RbTree do to a represented tree, and that they
    leave every other address of the heap alone. *)

From stdpp Require Import base gmap list.
From Stdlib Require Import ZArith Lia.
From S2P Require Import Prelude RbTree.

(** ** The packed parent/colour word *)

Definition pack (par : Z) (black : bool) : Z := par + Z.b2z black.

Lemma even_twice p : Z.even p = true -> exists q, p = 2 * q.
Proof. intros H. apply Z.even_spec in H. destruct H as [q ->]. by exists q. Qed.

Lemma land_1_mod a : Z.land a 1 = a mod 2.
Proof. change 1 with (Z.ones 1). rewrite Z.land_ones by lia. done. Qed.

Lemma land_lnot1 a : Z.land a (Z.lnot 1) = 2 * (a / 2).
Proof.
  rewrite <- Z.ldiff_land. change 1 with (Z.ones 1).
  rewrite Z.ldiff_ones_r by lia.
  rewrite Z.shiftl_mul_pow2, Z.shiftr_div_pow2 by lia.
  change (2 ^ 1) with 2. apply Z.mul_comm.
Qed.

Lemma lor_bit_even b p : Z.even p = true -> Z.lor (Z.b2z b) p = p + Z.b2z b.
Proof.
  intros [q ->]%even_twice.
  rewrite <- Z.add_nocarry_lor; [lia|].
  destruct b; simpl; [|done].
  rewrite Z.land_comm, land_1_mod, Z.mul_comm. apply Z.mod_mul. lia.
Qed.

Lemma pack_div par c : Z.even par = true -> pack par c / 2 = par / 2.
Proof.
  intros [q ->]%even_twice. unfold pack. destruct c; cbn [Z.b2z]; zlia.
Qed.

Lemma pack_mod par c : Z.even par = true -> pack par c mod 2 = Z.b2z c.
Proof.
  intros [q ->]%even_twice. unfold pack. destruct c; cbn [Z.b2z]; zlia.
Qed.

Lemma even_half par : Z.even par = true -> 2 * (par / 2) = par.
Proof. intros [q ->]%even_twice. zlia. Qed.

Section packed.
Context (par : Z) (c : bool) (l r : Z) (Hpar : Z.even par = true).

Lemma parent_pack : rb_parent (RbNode (pack par c) l r) = par.
Proof. unfold rb_parent; simpl. by rewrite land_lnot1, pack_div, even_half. Qed.

Lemma is_black_pack : rb_is_black (RbNode (pack par c) l r) = c.
Proof. unfold rb_is_black; simpl. rewrite land_1_mod, pack_mod by done. by destruct c. Qed.

Lemma is_red_pack : rb_is_red (RbNode (pack par c) l r) = negb c.
Proof. unfold rb_is_red; simpl. rewrite land_1_mod, pack_mod by done. by destruct c. Qed.

Lemma set_black_pack :
  node_set_black (RbNode (pack par c) l r) = RbNode (pack par true) l r.
Proof.
  unfold node_set_black; simpl. f_equal.
  rewrite <- (even_half par Hpar) at 1. unfold pack.
  pose proof (lor_bit_even true par Hpar) as H1. simpl in H1.
  rewrite Z.lor_comm. rewrite (even_half par Hpar).
  rewrite <- (lor_bit_even c par Hpar), Z.lor_assoc.
  destruct c; simpl; apply H1.
Qed.

Lemma set_red_pack :
  node_set_red (RbNode (pack par c) l r) = RbNode (pack par false) l r.
Proof.
  unfold node_set_red; simpl. f_equal.
  rewrite land_lnot1, pack_div, even_half by done. unfold pack; simpl; lia.
Qed.

Lemma set_parent_pack p :
  Z.even p = true ->
  node_set_parent p (RbNode (pack par c) l r) = RbNode (pack p c) l r.
Proof.
  intros Hp. unfold node_set_parent; simpl. f_equal.
  rewrite land_1_mod, pack_mod by done. by apply lor_bit_even.
Qed.

Lemma copy_color_pack par' c' l' r' :
  Z.even par' = true ->
  node_copy_color (RbNode (pack par' c') l' r') (RbNode (pack par c) l r)
    = RbNode (pack par c') l r.
Proof.
  intros Hp. unfold node_copy_color; simpl. f_equal.
  rewrite land_lnot1, land_1_mod, pack_mod, pack_div, even_half by done.
  rewrite Z.lor_comm. by apply lor_bit_even.
Qed.
End packed.

(** ** Trees, contexts and their heap representation *)

Inductive tree := E | T (black : bool) (l : tree) (x : Z) (r : tree).

Definition ptr (t : tree) : Z := match t with E => 0 | T _ _ x _ => x end.

Fixpoint inorder (t : tree) : list Z :=
  match t with E => [] | T _ l x r => inorder l ++ x :: inorder r end.

(** Nodes are at even, non-null addresses. *)
Definition addr_ok (x : Z) : Prop := x <> 0 /\ Z.even x = true.

Fixpoint rep (h : gmap Z rb_node) (par : Z) (t : tree) : Prop :=
  match t with
  | E => True
  | T c l x r =>
      addr_ok x /\ h !! x = Some (RbNode (pack par c) (ptr l) (ptr r)) /\
      rep h x l /\ rep h x r
  end.

(** A frame is a node with a hole for one of its children. *)
Record frame := Frame { f_left : bool; f_black : bool; f_x : Z; f_sib : tree }.

Definition plug1 (f : frame) (t : tree) : tree :=
  if f_left f then T (f_black f) t (f_x f) (f_sib f)
  else T (f_black f) (f_sib f) (f_x f) t.

Fixpoint plug (fs : list frame) (t : tree) : tree :=
  match fs with [] => t | f :: fs => plug fs (plug1 f t) end.

Definition hole_par (fs : list frame) : Z :=
  match fs with [] => 0 | f :: _ => f_x f end.

Fixpoint ctx_addrs (fs : list frame) : list Z :=
  match fs with [] => [] | f :: fs => f_x f :: inorder (f_sib f) ++ ctx_addrs fs end.

Definition frame_node (par : Z) (f : frame) (p : Z) : rb_node :=
  if f_left f then RbNode (pack par (f_black f)) p (ptr (f_sib f))
  else RbNode (pack par (f_black f)) (ptr (f_sib f)) p.

Fixpoint rep_ctx (h : gmap Z rb_node) (fs : list frame) (p : Z) : Prop :=
  match fs with
  | [] => True
  | f :: fs =>
      addr_ok (f_x f) /\ h !! f_x f = Some (frame_node (hole_par fs) f p) /\
      rep h (f_x f) (f_sib f) /\ rep_ctx h fs (f_x f)
  end.

(** The whole state, seen from the position [fs]. *)
Definition repz (s : rb_state) (fs : list frame) (t : tree) : Prop :=
  rep_ctx (rb_heap s) fs (ptr t) /\ rep (rb_heap s) (hole_par fs) t /\
  rb_root s = ptr (plug fs t) /\ NoDup (ctx_addrs fs ++ inorder t).

Definition same_off (L : list Z) (h h' : gmap Z rb_node) : Prop :=
  forall a, a ∉ L -> h' !! a = h !! a.

#[export] Instance same_off_proper : Proper ((≡ₚ) ==> (=) ==> (=) ==> iff) same_off.
Proof. intros L L' HL h ? <- h' ? <-. unfold same_off. by setoid_rewrite HL. Qed.

(** Splitting [NoDup] and [∉] facts into atomic ones. *)
Definition disj (l k : list Z) : Prop := forall a, a ∈ l -> a ∈ k -> False.

Lemma nodup_app_disj (l k : list Z) : NoDup (l ++ k) <-> NoDup l /\ disj l k /\ NoDup k.
Proof. rewrite NoDup_app. unfold disj, not. done. Qed.

Lemma disj_app_l l1 l2 k : disj (l1 ++ l2) k <-> disj l1 k /\ disj l2 k.
Proof. unfold disj. setoid_rewrite elem_of_app. naive_solver. Qed.

Lemma disj_app_r l k1 k2 : disj l (k1 ++ k2) <-> disj l k1 /\ disj l k2.
Proof. unfold disj. setoid_rewrite elem_of_app. naive_solver. Qed.

Lemma disj_cons_l x l k : disj (x :: l) k <-> (x ∉ k) /\ disj l k.
Proof. unfold disj. setoid_rewrite elem_of_cons. naive_solver. Qed.

Lemma disj_cons_r x l k : disj l (x :: k) <-> (x ∉ l) /\ disj l k.
Proof. unfold disj. setoid_rewrite elem_of_cons. naive_solver. Qed.

Ltac list_facts :=
  repeat match goal with
  | H : NoDup (_ ++ _) |- _ => apply nodup_app_disj in H as (? & ? & ?)
  | H : NoDup (_ :: _) |- _ => apply NoDup_cons in H as [? ?]
  | H : disj (_ ++ _) _ |- _ => apply disj_app_l in H as [? ?]
  | H : disj _ (_ ++ _) |- _ => apply disj_app_r in H as [? ?]
  | H : disj (_ :: _) _ |- _ => apply disj_cons_l in H as [? ?]
  | H : disj _ (_ :: _) |- _ => apply disj_cons_r in H as [? ?]
  | H : disj [] _ |- _ => clear H
  | H : disj _ [] |- _ => clear H
  | H : _ ∉ _ ++ _ |- _ => apply not_elem_of_app in H as [? ?]
  | H : _ ∉ _ :: _ |- _ => apply not_elem_of_cons in H as [? ?]
  | H : _ ∉ [] |- _ => clear H
  | H : addr_ok _ |- _ => destruct H as [? ?]
  | H : _ /\ _ |- _ => destruct H
  end.

(** [x <> a] from the atomic facts, where [a] belongs to some list. *)
Ltac apart :=
  first
    [ congruence
    | let E := fresh in intro E; subst;
      match goal with
      | H : ?a ∈ ?l, H' : ?a ∉ ?l |- _ => exact (H' H)
      | H : ?a ∈ ?l, H' : ?a ∈ ?k, D : disj ?l ?k |- _ => exact (D a H H')
      | H : ?a ∈ ?l, H' : ?a ∈ ?k, D : disj ?k ?l |- _ => exact (D a H' H)
      end ].

Lemma rep_ext h h' par t :
  (forall a, a ∈ inorder t -> h' !! a = h !! a) -> rep h par t -> rep h' par t.
Proof.
  revert par. induction t as [|c l IHl x r IHr]; intros par Hext; [done|].
  simpl in *. intros (Hx & Hn & Hl & Hr).
  split; [done|]. split; [rewrite Hext; [done|set_solver]|].
  split; [apply IHl|apply IHr]; try done; intros; apply Hext; set_solver.
Qed.

Lemma rep_ctx_ext h h' fs p :
  (forall a, a ∈ ctx_addrs fs -> h' !! a = h !! a) -> rep_ctx h fs p -> rep_ctx h' fs p.
Proof.
  revert p. induction fs as [|f fs IH]; intros p Hext; [done|].
  simpl in *. intros (Hx & Hn & Hs & Hc).
  split; [done|]. split; [rewrite Hext; [done|set_solver]|].
  split; [eapply rep_ext; [|done]|apply IH; [|done]];
    intros; apply Hext; set_solver.
Qed.

Lemma rep_ptr h par t : rep h par t -> Z.even (ptr t) = true.
Proof. destruct t; simpl; [done|]. by intros ([? ?] & ?). Qed.

Lemma rep_ctx_par h fs p : rep_ctx h fs p -> Z.even (hole_par fs) = true.
Proof. destruct fs; simpl; [done|]. by intros ([? ?] & ?). Qed.

Lemma ptr_in t : t = E /\ ptr t = 0 \/ ptr t ∈ inorder t.
Proof. destruct t; simpl; [by left|]. right. set_solver. Qed.

Lemma rep_reparent h par par' t :
  rep h par t -> NoDup (inorder t) ->
  rep (match t with
       | E => h
       | T c l x r => <[x := RbNode (pack par' c) (ptr l) (ptr r)]> h
       end) par' t.
Proof.
  destruct t as [|c l x r]; [done|]. simpl. intros (Hx & Hn & Hl & Hr) Hnd.
  list_facts. split; [done|]. split; [by rewrite lookup_insert_eq|].
  split; (eapply rep_ext; [|done]); intros a Ha; rewrite lookup_insert_ne by apart; done.
Qed.

Lemma ptr_plug_cons f fs t t' : ptr (plug (f :: fs) t) = ptr (plug (f :: fs) t').
Proof.
  revert f t t'. induction fs as [|g fs IH]; intros f t t'; simpl.
  - unfold plug1. by destruct (f_left f).
  - apply (IH g).
Qed.

Lemma update_eq s p n f :
  rb_heap s !! p = Some n ->
  update s p f = Some (RbState (<[p := f n]> (rb_heap s)) (rb_root s)).
Proof. intros H. unfold update, load. by rewrite H. Qed.

(** ** Rotations *)

(** Solving a lookup through a stack of insertions. *)
Ltac heap_lookup :=
  cbn [rb_heap rb_root];
  repeat first [ rewrite lookup_insert_eq | rewrite lookup_insert_ne by congruence ];
  first [ reflexivity | eassumption ].

Ltac heap_step :=
  cbn [rb_heap rb_root mbind option_bind rb_left rb_right];
  first
    [ erewrite update_eq by heap_lookup
    | unfold set_parent; erewrite update_eq by heap_lookup
    | unfold rb_set_black; erewrite update_eq by heap_lookup
    | unfold rb_set_red; erewrite update_eq by heap_lookup ];
  cbn [rb_heap rb_root mbind option_bind rb_left rb_right
       node_set_left node_set_right].

(** The last lines of rotate_left, rotate_right and transplant: the parent (or
    the root word) is made to point to [y] where it pointed to [x]. *)
Definition relink_left (s : rb_state) (xp x y : Z) : option rb_state :=
  if xp =? 0 then Some (set_root s y)
  else nxp ← load s xp;
       if rb_left nxp =? x then update s xp (node_set_left y)
       else update s xp (node_set_right y).

Definition relink_right (s : rb_state) (xp x y : Z) : option rb_state :=
  if xp =? 0 then Some (set_root s y)
  else nxp ← load s xp;
       if rb_right nxp =? x then update s xp (node_set_right y)
       else update s xp (node_set_left y).

(** The only node a relinking writes. *)
Definition par_addr (fs : list frame) : list Z :=
  match fs with [] => [] | f :: _ => [f_x f] end.

Definition relinked (s s' : rb_state) (fs : list frame) (y : Z) : Prop :=
  rep_ctx (rb_heap s') fs y /\
  same_off (par_addr fs) (rb_heap s) (rb_heap s') /\
  rb_root s' = match fs with [] => y | _ => rb_root s end.

Lemma relink_frame s f fs x y :
  rep_ctx (rb_heap s) (f :: fs) x -> NoDup (ctx_addrs (f :: fs)) ->
  relinked s (RbState (<[f_x f := frame_node (hole_par fs) f y]> (rb_heap s)) (rb_root s))
    (f :: fs) y.
Proof.
  simpl. intros (Hok & Hn & Hs & Hc) Hnd. list_facts.
  split; [|split; [|done]]; simpl.
  - split; [by split|]. split; [by rewrite lookup_insert_eq|]. split.
    + eapply rep_ext; [|done]. intros a Ha. by rewrite lookup_insert_ne by apart.
    + eapply rep_ctx_ext; [|done]. intros a Ha. by rewrite lookup_insert_ne by apart.
  - intros a Ha. list_facts. by rewrite lookup_insert_ne by apart.
Qed.

Lemma sib_ptr_ne f fs x :
  x <> 0 -> x ∉ ctx_addrs (f :: fs) -> ptr (f_sib f) <> x.
Proof.
  simpl. intros H0 Hx Heq. subst x. destruct (ptr_in (f_sib f)) as [[_ ?]|?]; set_solver.
Qed.

Lemma relink_left_spec s fs x y :
  rep_ctx (rb_heap s) fs x -> x <> 0 -> x ∉ ctx_addrs fs -> NoDup (ctx_addrs fs) ->
  exists s', relink_left s (hole_par fs) x y = Some s' /\ relinked s s' fs y.
Proof.
  intros Hc Hx Hin Hnd. unfold relink_left. destruct fs as [|f fs].
  { simpl. eexists. split; [reflexivity|]. by split. }
  pose proof (sib_ptr_ne _ _ _ Hx Hin) as Hsib.
  pose proof (relink_frame s f fs x y Hc Hnd) as Hr.
  simpl in Hc. destruct Hc as ([Hf0 _] & Hn & _). simpl hole_par.
  rewrite (proj2 (Z.eqb_neq _ _) Hf0).
  unfold load. rewrite Hn. cbn [mbind option_bind].
  eexists. split; [|exact Hr].
  unfold frame_node in *. destruct (f_left f); cbn [rb_left rb_right].
  - rewrite Z.eqb_refl. by erewrite update_eq by exact Hn.
  - rewrite (proj2 (Z.eqb_neq _ _) Hsib). by erewrite update_eq by exact Hn.
Qed.

Lemma relink_right_spec s fs x y :
  rep_ctx (rb_heap s) fs x -> x <> 0 -> x ∉ ctx_addrs fs -> NoDup (ctx_addrs fs) ->
  exists s', relink_right s (hole_par fs) x y = Some s' /\ relinked s s' fs y.
Proof.
  intros Hc Hx Hin Hnd. unfold relink_right. destruct fs as [|f fs].
  { simpl. eexists. split; [reflexivity|]. by split. }
  pose proof (sib_ptr_ne _ _ _ Hx Hin) as Hsib.
  pose proof (relink_frame s f fs x y Hc Hnd) as Hr.
  simpl in Hc. destruct Hc as ([Hf0 _] & Hn & _). simpl hole_par.
  rewrite (proj2 (Z.eqb_neq _ _) Hf0).
  unfold load. rewrite Hn. cbn [mbind option_bind].
  eexists. split; [|exact Hr].
  unfold frame_node in *. destruct (f_left f); cbn [rb_left rb_right].
  - rewrite (proj2 (Z.eqb_neq _ _) Hsib). by erewrite update_eq by exact Hn.
  - rewrite Z.eqb_refl. by erewrite update_eq by exact Hn.
Qed.

Lemma same_off_par fs h h' : same_off (par_addr fs) h h' -> same_off (ctx_addrs fs) h h'.
Proof. intros H a Ha. apply H. destruct fs; simpl in *; set_solver. Qed.

(** Putting a represented subtree back under a relinked context. *)
Lemma repz_relinked s s1 s' fs (t t' : tree) :
  relinked s1 s' fs (ptr t') ->
  same_off (inorder t) (rb_heap s) (rb_heap s1) ->
  rb_root s1 = rb_root s -> rb_root s = ptr (plug fs t) ->
  rep (rb_heap s1) (hole_par fs) t' ->
  NoDup (ctx_addrs fs ++ inorder t) -> inorder t' ≡ₚ inorder t ->
  repz s' fs t' /\ same_off (ctx_addrs fs ++ inorder t) (rb_heap s) (rb_heap s').
Proof.
  intros (Hc & Hoff%same_off_par & Hr) Hoff1 Hr1 Hroot Hrep Hnd Hp. split; [split; [done|split; [|split]]|].
  - eapply rep_ext; [|exact Hrep]. intros a Ha. apply Hoff.
    apply NoDup_app in Hnd as (_ & Hd & _). intros Hin. apply (Hd a Hin).
    by rewrite <- Hp.
  - rewrite Hr. destruct fs as [|f fs]; [done|].
    rewrite Hr1, Hroot. apply ptr_plug_cons.
  - by rewrite Hp.
  - intros a [Ha1 Ha2]%not_elem_of_app. rewrite Hoff, Hoff1; done.
Qed.

Lemma eqb_ne_false a b : a <> b -> (a =? b) = false.
Proof. apply Z.eqb_neq. Qed.

(** Closing the representation goals of a rotation: every subtree agrees with
    the old heap off the nodes that were written. *)
Ltac keep_rep :=
  (eapply rep_ext; [|eassumption]);
  intros ? ?; cbn [rb_heap]; rewrite ?lookup_insert_ne by apart; done.

Ltac rep_node :=
  split; [by split|]; split; [cbn [rb_heap]; heap_lookup|].

(** A hypothesis [list_facts] should leave alone. *)
Definition keep (P : Prop) : Prop := P.

Lemma disj_ctx fs (t : tree) : NoDup (ctx_addrs fs ++ inorder t) -> disj (ctx_addrs fs) (inorder t).
Proof. by intros (? & ? & ?)%nodup_app_disj. Qed.

Lemma rep_ctx_off h h' fs p (t : tree) :
  same_off (inorder t) h h' -> NoDup (ctx_addrs fs ++ inorder t) ->
  rep_ctx h fs p -> rep_ctx h' fs p.
Proof.
  intros Hoff Hnd. apply rep_ctx_ext. intros a Ha. apply Hoff.
  intros Hin. exact (disj_ctx _ _ Hnd a Ha Hin).
Qed.

Lemma rotate_left_spec s fs c a x c2 b y d :
  repz s fs (T c a x (T c2 b y d)) ->
  exists s', rotate_left s x = Some s' /\
    repz s' fs (T c2 (T c a x b) y d) /\
    same_off (ctx_addrs fs ++ inorder (T c a x (T c2 b y d))) (rb_heap s) (rb_heap s').
Proof.
  intros (Hctx & Hrep & Hroot & Hnd). pose proof (rep_ctx_par _ _ _ Hctx) as Hpe.
  assert (Hk : keep (NoDup _)) by exact Hnd.
  simpl in Hrep. destruct Hrep as (Hx & Hnx & Ha & Hy & Hny & Hb & Hd).
  simpl in Hnd. list_facts.
  unfold rotate_left, load. rewrite Hnx. cbn [mbind option_bind rb_right].
  simpl ptr. rewrite Hny. cbn [mbind option_bind rb_left].
  rewrite parent_pack by done.
  heap_step. heap_step.
  assert (exists s1, (s0 ← set_parent_opt
       (RbState (<[x:=RbNode (pack (hole_par fs) c) (ptr a) (ptr b)]>
          (<[y:=RbNode (pack x c2) x (ptr d)]> (rb_heap s))) (rb_root s)) (ptr b) x;
     s0 ← set_parent s0 x y; set_parent s0 y (hole_par fs)) = Some s1 /\
     rb_root s1 = rb_root s /\
     same_off (inorder (T c a x (T c2 b y d))) (rb_heap s) (rb_heap s1) /\
     rep (rb_heap s1) (hole_par fs) (T c2 (T c a x b) y d)) as (s1 & Hs1 & Hr1 & Hoff1 & Hrep1).
  { destruct b as [|cb bl z br]; simpl ptr.
    - unfold set_parent_opt; simpl (0 =? 0). do 2 heap_step.
      eexists. split; [reflexivity|]. split; [done|]. split.
      + intros p Hp. simpl in Hp. list_facts. cbn [rb_heap].
        by rewrite !lookup_insert_ne.
      + simpl. rewrite !set_parent_pack by done.
        rep_node. split; [rep_node; split; [keep_rep|done]|keep_rep].
    - simpl in Hb. destruct Hb as (Hz & Hnz & Hbl & Hbr). simpl in *. list_facts.
      
      unfold set_parent_opt. rewrite eqb_ne_false by done. do 3 heap_step.
      eexists. split; [reflexivity|]. split; [done|]. split.
      + intros p Hp. simpl in Hp. list_facts. cbn [rb_heap].
        by rewrite !lookup_insert_ne.
      + simpl. rewrite !set_parent_pack by done.
        rep_node. split; [|keep_rep].
        rep_node. split; [keep_rep|].
        rep_node. split; keep_rep. }
  destruct (relink_left_spec s1 fs x y) as (s' & Hs' & Hrl); [|done..|].
  { eapply rep_ctx_off; [exact Hoff1|exact Hk|exact Hctx]. }
  exists s'. split.
  { destruct (set_parent_opt _ _ _) as [s2|]; simpl in Hs1 |- *; [|done].
    destruct (set_parent s2 x y) as [s3|]; simpl in Hs1 |- *; [|done].
    rewrite Hs1. exact Hs'. }
  eapply repz_relinked; try done. simpl. solve_Permutation.
Qed.

(** ** Mirror symmetry

    The two halves of every operation are mirror images: running one half on
    the mirrored heap is the mirror of running the other.  The specifications
    of the right-hand halves follow from the left-hand ones. *)

Definition mir_node (n : rb_node) : rb_node := RbNode (rb_pc n) (rb_right n) (rb_left n).
Definition mir (s : rb_state) : rb_state := RbState (mir_node <$> rb_heap s) (rb_root s).

Fixpoint mirt (t : tree) : tree :=
  match t with E => E | T c l x r => T c (mirt r) x (mirt l) end.
Definition mirf (f : frame) : frame :=
  Frame (negb (f_left f)) (f_black f) (f_x f) (mirt (f_sib f)).

Lemma mir_node_inv n : mir_node (mir_node n) = n.
Proof. by destruct n. Qed.

Lemma mir_inv s : mir (mir s) = s.
Proof.
  destruct s as [h r]. unfold mir; simpl. f_equal.
  rewrite <- map_fmap_compose. transitivity (id <$> h); [|apply map_fmap_id].
  apply map_fmap_ext. intros. apply mir_node_inv.
Qed.

Lemma mirt_inv t : mirt (mirt t) = t.
Proof. induction t; simpl; congruence. Qed.

Lemma ptr_mirt t : ptr (mirt t) = ptr t.
Proof. by destruct t. Qed.

Lemma inorder_mirt t : inorder (mirt t) = rev (inorder t).
Proof.
  induction t as [|c l IHl x r IHr]; simpl; [done|].
  rewrite rev_app_distr, IHl, IHr. simpl. by rewrite <- app_assoc.
Qed.

Lemma inorder_mirt_perm t : inorder (mirt t) ≡ₚ inorder t.
Proof. rewrite inorder_mirt. symmetry. apply Permutation_rev. Qed.

Lemma mirf_inv f : mirf (mirf f) = f.
Proof. destruct f. unfold mirf; simpl. by rewrite negb_involutive, mirt_inv. Qed.

Lemma mirfs_inv fs : map mirf (map mirf fs) = fs.
Proof. rewrite map_map. rewrite <- (map_id fs) at 2. apply map_ext, mirf_inv. Qed.

Lemma ctx_addrs_mirf fs : ctx_addrs (map mirf fs) ≡ₚ ctx_addrs fs.
Proof. induction fs as [|f fs IH]; simpl; [done|]. by rewrite IH, inorder_mirt_perm. Qed.

Lemma hole_par_mirf fs : hole_par (map mirf fs) = hole_par fs.
Proof. by destruct fs. Qed.

Lemma plug_mir fs t : plug (map mirf fs) (mirt t) = mirt (plug fs t).
Proof.
  revert t. induction fs as [|f fs IH]; intros t; simpl; [done|].
  rewrite <- IH. f_equal. unfold plug1; simpl. by destruct (f_left f).
Qed.

Lemma rep_mir h par t : rep h par t -> rep (mir_node <$> h) par (mirt t).
Proof.
  revert par. induction t as [|c l IHl x r IHr]; intros par; simpl; [done|].
  intros (Hx & Hn & Hl & Hr). rewrite lookup_fmap, Hn, !ptr_mirt. auto.
Qed.

Lemma rep_ctx_mir h fs p : rep_ctx h fs p -> rep_ctx (mir_node <$> h) (map mirf fs) p.
Proof.
  revert p. induction fs as [|f fs IH]; intros p; simpl; [done|].
  intros (Hx & Hn & Hs & Hc). rewrite lookup_fmap, Hn, hole_par_mirf.
  split; [done|]. split.
  - unfold frame_node, mirf; simpl. rewrite ptr_mirt. by destruct (f_left f).
  - split; [by apply rep_mir|by apply IH].
Qed.

Lemma repz_mir s fs t : repz s fs t -> repz (mir s) (map mirf fs) (mirt t).
Proof.
  intros (Hc & Hr & Hroot & Hnd). unfold repz.
  rewrite ptr_mirt, hole_par_mirf, plug_mir, ptr_mirt, ctx_addrs_mirf, inorder_mirt_perm.
  split; [by apply rep_ctx_mir|]. split; [by apply rep_mir|]. done.
Qed.

Lemma same_off_mir L L' h h' :
  L ≡ₚ L' -> same_off L h h' -> same_off L' (mir_node <$> h) (mir_node <$> h').
Proof. intros HL Ho a Ha. rewrite !lookup_fmap, Ho; [done|]. by rewrite HL. Qed.

Lemma load_mir s p : load (mir s) p = mir_node <$> load s p.
Proof. apply lookup_fmap. Qed.

Lemma update_mir s p f f' :
  (forall n, f' (mir_node n) = mir_node (f n)) ->
  update (mir s) p f' = mir <$> update s p f.
Proof.
  intros Hf. unfold update. rewrite load_mir. destruct (load s p) as [n|]; simpl; [|done].
  unfold mir; simpl. by rewrite fmap_insert, Hf.
Qed.

Lemma set_parent_mir s n p : set_parent (mir s) n p = mir <$> set_parent s n p.
Proof. by apply update_mir. Qed.

Lemma set_parent_opt_mir s n p : set_parent_opt (mir s) n p = mir <$> set_parent_opt s n p.
Proof. unfold set_parent_opt. destruct (n =? 0); [done|]. apply set_parent_mir. Qed.

Lemma set_left_mir s n p :
  update (mir s) n (node_set_left p) = mir <$> update s n (node_set_right p).
Proof. by apply update_mir. Qed.

Lemma set_right_mir s n p :
  update (mir s) n (node_set_right p) = mir <$> update s n (node_set_left p).
Proof. by apply update_mir. Qed.

Lemma set_black_mir s n : rb_set_black (mir s) n = mir <$> rb_set_black s n.
Proof. by apply update_mir. Qed.

Lemma set_red_mir s n : rb_set_red (mir s) n = mir <$> rb_set_red s n.
Proof. by apply update_mir. Qed.

Lemma parent_mir n : rb_parent (mir_node n) = rb_parent n.
Proof. done. Qed.

Lemma bind_mir {A B} (m : option A) (g : A -> A) (k : A -> option B) :
  (g <$> m) ≫= k = m ≫= (fun a => k (g a)).
Proof. by destruct m. Qed.

Lemma fmap_bind_mir {A B C} (m : option A) (k : A -> option B) (g : B -> C) :
  g <$> (m ≫= k) = m ≫= (fun a => g <$> k a).
Proof. by destruct m. Qed.

Lemma bind_cong {A B} (m : option A) (k k' : A -> option B) :
  (forall a, k a = k' a) -> m ≫= k = m ≫= k'.
Proof. intros H. destruct m; simpl; auto. Qed.

Lemma rotate_mir s x : rotate_right (mir s) x = mir <$> rotate_left s x.
Proof.
  unfold rotate_right, rotate_left. rewrite load_mir, bind_mir, fmap_bind_mir.
  apply bind_cong. intros nx. simpl. rewrite load_mir, bind_mir, fmap_bind_mir.
  apply bind_cong. intros ny. simpl. rewrite set_right_mir, bind_mir, fmap_bind_mir.
  apply bind_cong. intros s1. rewrite set_left_mir, bind_mir, fmap_bind_mir.
  apply bind_cong. intros s2. rewrite set_parent_opt_mir, bind_mir, fmap_bind_mir.
  apply bind_cong. intros s3. rewrite set_parent_mir, bind_mir, fmap_bind_mir.
  apply bind_cong. intros s4. rewrite set_parent_mir, bind_mir, fmap_bind_mir.
  apply bind_cong. intros s5. rewrite parent_mir.
  destruct (_ =? 0); [done|]. rewrite load_mir, bind_mir, fmap_bind_mir.
  apply bind_cong. intros nxp. simpl.
  destruct (_ =? x); [apply set_right_mir|apply set_left_mir].
Qed.

Lemma rotate_right_spec s fs c a x c2 b y d :
  repz s fs (T c (T c2 a y b) x d) ->
  exists s', rotate_right s x = Some s' /\
    repz s' fs (T c2 a y (T c b x d)) /\
    same_off (ctx_addrs fs ++ inorder (T c (T c2 a y b) x d)) (rb_heap s) (rb_heap s').
Proof.
  intros H. apply repz_mir in H as Hm. simpl in Hm.
  apply rotate_left_spec in Hm as (s' & Hs' & Hz & Hoff).
  exists (mir s'). split; [|split].
  - rewrite <- (mir_inv s), rotate_mir, Hs'. done.
  - apply repz_mir in Hz. by rewrite mirfs_inv in Hz; simpl in Hz; rewrite !mirt_inv in Hz.
  - rewrite <- (mir_inv s). eapply same_off_mir; [|exact Hoff].
    rewrite ctx_addrs_mirf. simpl. rewrite !inorder_mirt_perm. solve_Permutation.
Qed.

(** ** Moving the zipper and recolouring *)

Lemma nodup_perm (l k : list Z) : l ≡ₚ k -> NoDup l -> NoDup k.
Proof. by intros ->. Qed.

Lemma repz_up s f fs t : repz s (f :: fs) t <-> repz s fs (plug1 f t).
Proof.
  unfold repz. simpl. unfold plug1, frame_node. destruct (f_left f); simpl; split.
  all: intros (Hc & Hr & Hroot & Hnd);
    split; [by destruct_and!|split; [by destruct_and!|split; [done|]]].
  all: revert Hnd; apply nodup_perm; solve_Permutation.
Qed.

Lemma repz_load s fs c l x r :
  repz s fs (T c l x r) -> load s x = Some (RbNode (pack (hole_par fs) c) (ptr l) (ptr r)).
Proof. intros (_ & Hr & _). simpl in Hr. apply Hr. Qed.

Lemma repz_addr s fs c l x r : repz s fs (T c l x r) -> addr_ok x.
Proof. intros (_ & Hr & _). simpl in Hr. apply Hr. Qed.

Lemma repz_par s fs t : repz s fs t -> Z.even (hole_par fs) = true.
Proof. intros (Hc & _). by eapply rep_ctx_par. Qed.

Lemma repz_set_node s fs c c' l x r f :
  repz s fs (T c l x r) ->
  f (RbNode (pack (hole_par fs) c) (ptr l) (ptr r))
    = RbNode (pack (hole_par fs) c') (ptr l) (ptr r) ->
  exists s', update s x f = Some s' /\ repz s' fs (T c' l x r) /\
    same_off [x] (rb_heap s) (rb_heap s') /\ rb_root s' = rb_root s.
Proof.
  intros H Hf. pose proof (repz_load _ _ _ _ _ _ H) as Hn.
  erewrite update_eq by exact Hn. rewrite Hf. eexists. split; [reflexivity|].
  destruct H as (Hc & Hr & Hroot & Hnd). assert (Hk : keep (NoDup _)) by exact Hnd.
  simpl in Hr, Hnd. destruct Hr as (Hx & _ & Hl & Hrr). list_facts.
  split; [|split; [|done]].
  - split; [|split; [|split]].
    + eapply rep_ctx_ext; [|exact Hc]. intros a Ha. cbn [rb_heap].
      by rewrite lookup_insert_ne by apart.
    + simpl. rep_node. split; keep_rep.
    + cbn [rb_root]. rewrite Hroot. destruct fs; [done|]. apply ptr_plug_cons.
    + exact Hk.
  - intros a Ha. list_facts. cbn [rb_heap]. by rewrite lookup_insert_ne by apart.
Qed.

Lemma repz_set_black s fs c l x r :
  repz s fs (T c l x r) ->
  exists s', rb_set_black s x = Some s' /\ repz s' fs (T true l x r) /\
    same_off [x] (rb_heap s) (rb_heap s') /\ rb_root s' = rb_root s.
Proof. intros H. apply (repz_set_node _ _ _ _ _ _ _ _ H), set_black_pack. by eapply repz_par. Qed.

Lemma repz_set_red s fs c l x r :
  repz s fs (T c l x r) ->
  exists s', rb_set_red s x = Some s' /\ repz s' fs (T false l x r) /\
    same_off [x] (rb_heap s) (rb_heap s') /\ rb_root s' = rb_root s.
Proof. intros H. apply (repz_set_node _ _ _ _ _ _ _ _ H), set_red_pack. by eapply repz_par. Qed.

Lemma repz_copy_color s fs c l x r par' c' l' r' :
  repz s fs (T c l x r) -> Z.even par' = true ->
  exists s', update s x (node_copy_color (RbNode (pack par' c') l' r')) = Some s' /\
    repz s' fs (T c' l x r) /\
    same_off [x] (rb_heap s) (rb_heap s') /\ rb_root s' = rb_root s.
Proof.
  intros H Hp. apply (repz_set_node _ _ _ _ _ _ _ _ H), copy_color_pack; [|done].
  by eapply repz_par.
Qed.

Definition is_red (t : tree) : bool := match t with T false _ _ _ => true | _ => false end.

Lemma nonnull_red_rep s par t :
  rep (rb_heap s) par t -> Z.even par = true -> nonnull_red s (ptr t) = Some (is_red t).
Proof.
  unfold nonnull_red, load. destruct t as [|c l x r]; simpl; [done|].
  intros ([Hx _] & Hn & _) Hp. rewrite eqb_ne_false by done. rewrite Hn. simpl.
  rewrite is_red_pack by done. by destruct c.
Qed.

Lemma null_or_black_rep s par t :
  rep (rb_heap s) par t -> Z.even par = true -> null_or_black s (ptr t) = Some (negb (is_red t)).
Proof.
  unfold null_or_black, load. destruct t as [|c l x r]; simpl; [done|].
  intros ([Hx _] & Hn & _) Hp. rewrite eqb_ne_false by done. rewrite Hn. simpl.
  rewrite is_black_pack by done. by destruct c.
Qed.

Lemma same_off_trans L h1 h2 h3 : same_off L h1 h2 -> same_off L h2 h3 -> same_off L h1 h3.
Proof. intros H1 H2 a Ha. rewrite H2, H1; done. Qed.

Lemma same_off_mono L L' h h' : L ⊆ L' -> same_off L h h' -> same_off L' h h'.
Proof. intros HL H a Ha. apply H. intros Hin. apply Ha, HL, Hin. Qed.

Lemma same_off_refl L h : same_off L h h.
Proof. done. Qed.
