(* ===== verification/RbTreeProof.v ===== *)
(** * Correctness of the red-black tree operations

    Functional descriptions of the two fix-up loops on zippers, the proof that
    the pointer code follows them without faulting, the red-black invariant,
    and the specifications of the exported operations in terms of the in-order
    sequence of node addresses. *)

From stdpp Require Import base gmap list.
From Stdlib Require Import ZArith Lia.
From S2P Require Import Prelude RbTree RbRep.

(** [at_pos A s0 s fs t]: state [s] holds the tree seen from position [fs],
    its nodes are exactly [A], and off [A] the heap is that of [s0]. *)
Definition at_pos (A : list Z) (s0 s : rb_state) (fs : list frame) (t : tree) : Prop :=
  repz s fs t /\ ctx_addrs fs ++ inorder t ≡ₚ A /\ same_off A (rb_heap s0) (rb_heap s).

Section at_pos.
Context {A : list Z} {s0 : rb_state}.

Lemma at_up s f fs t : at_pos A s0 s (f :: fs) t <-> at_pos A s0 s fs (plug1 f t).
Proof.
  unfold at_pos. rewrite repz_up.
  assert (ctx_addrs (f :: fs) ++ inorder t ≡ₚ ctx_addrs fs ++ inorder (plug1 f t)) as ->;
    [|done].
  simpl. unfold plug1. destruct (f_left f); simpl; solve_Permutation.
Qed.

Lemma at_down_l s fs c l x r :
  at_pos A s0 s fs (T c l x r) <-> at_pos A s0 s (Frame true c x r :: fs) l.
Proof. by rewrite at_up. Qed.

Lemma at_down_r s fs c l x r :
  at_pos A s0 s fs (T c l x r) <-> at_pos A s0 s (Frame false c x l :: fs) r.
Proof. by rewrite at_up. Qed.

Lemma at_write s s' fs t t' L :
  at_pos A s0 s fs t -> repz s' fs t' -> inorder t' ≡ₚ inorder t ->
  same_off L (rb_heap s) (rb_heap s') -> L ⊆ ctx_addrs fs ++ inorder t ->
  at_pos A s0 s' fs t'.
Proof.
  intros (H & HA & Hoff) H' Hp Hoff' HL. split; [done|]. rewrite Hp. split; [done|].
  eapply same_off_trans; [exact Hoff|]. eapply same_off_mono; [|exact Hoff'].
  by rewrite <- HA.
Qed.

Lemma at_load s fs c l x r :
  at_pos A s0 s fs (T c l x r) ->
  load s x = Some (RbNode (pack (hole_par fs) c) (ptr l) (ptr r)).
Proof. intros (H & _). by eapply repz_load. Qed.

Lemma at_addr s fs c l x r : at_pos A s0 s fs (T c l x r) -> addr_ok x.
Proof. intros (H & _). by eapply repz_addr. Qed.

Lemma at_par s fs t : at_pos A s0 s fs t -> Z.even (hole_par fs) = true.
Proof. intros (H & _). by eapply repz_par. Qed.

Lemma at_rep s fs t : at_pos A s0 s fs t -> rep (rb_heap s) (hole_par fs) t.
Proof. by intros ((_ & H & _) & _). Qed.

Lemma at_root s fs t : at_pos A s0 s fs t -> rb_root s = ptr (plug fs t).
Proof. by intros ((_ & _ & H & _) & _). Qed.

Lemma at_rotl s fs c a x c2 b y d :
  at_pos A s0 s fs (T c a x (T c2 b y d)) ->
  exists s', rotate_left s x = Some s' /\ at_pos A s0 s' fs (T c2 (T c a x b) y d).
Proof.
  intros H. destruct (rotate_left_spec _ _ _ _ _ _ _ _ _ (proj1 H)) as (s' & Hs & Hz & Ho).
  exists s'. split; [done|]. eapply at_write; [exact H|exact Hz| |exact Ho|done].
  simpl. solve_Permutation.
Qed.

Lemma at_rotr s fs c a x c2 b y d :
  at_pos A s0 s fs (T c (T c2 a y b) x d) ->
  exists s', rotate_right s x = Some s' /\ at_pos A s0 s' fs (T c2 a y (T c b x d)).
Proof.
  intros H. destruct (rotate_right_spec _ _ _ _ _ _ _ _ _ (proj1 H)) as (s' & Hs & Hz & Ho).
  exists s'. split; [done|]. eapply at_write; [exact H|exact Hz| |exact Ho|done].
  simpl. solve_Permutation.
Qed.

Lemma node_in fs c l x r : [x] ⊆ ctx_addrs fs ++ inorder (T c l x r).
Proof. intros a. rewrite list_elem_of_singleton. intros ->. simpl. set_solver. Qed.

Lemma at_black s fs c l x r :
  at_pos A s0 s fs (T c l x r) ->
  exists s', rb_set_black s x = Some s' /\ at_pos A s0 s' fs (T true l x r).
Proof.
  intros H. destruct (repz_set_black _ _ _ _ _ _ (proj1 H)) as (s' & Hs & Hz & Ho & _).
  exists s'. split; [done|]. eapply at_write; [exact H|exact Hz|done|exact Ho|apply node_in].
Qed.

Lemma at_red s fs c l x r :
  at_pos A s0 s fs (T c l x r) ->
  exists s', rb_set_red s x = Some s' /\ at_pos A s0 s' fs (T false l x r).
Proof.
  intros H. destruct (repz_set_red _ _ _ _ _ _ (proj1 H)) as (s' & Hs & Hz & Ho & _).
  exists s'. split; [done|]. eapply at_write; [exact H|exact Hz|done|exact Ho|apply node_in].
Qed.

Lemma at_copy s fs c l x r par' c' l' r' :
  at_pos A s0 s fs (T c l x r) -> Z.even par' = true ->
  exists s', update s x (node_copy_color (RbNode (pack par' c') l' r')) = Some s' /\
    at_pos A s0 s' fs (T c' l x r).
Proof.
  intros H Hp.
  destruct (repz_copy_color _ _ _ _ _ _ par' c' l' r' (proj1 H) Hp) as (s' & Hs & Hz & Ho & _).
  exists s'. split; [done|]. eapply at_write; [exact H|exact Hz|done|exact Ho|apply node_in].
Qed.
End at_pos.

(** ** Insertion fix-up *)

Definition blacken (t : tree) : tree :=
  match t with E => E | T _ l x r => T true l x r end.

Definition f_set_black (b : bool) (f : frame) : frame := Frame (f_left f) b (f_x f) (f_sib f).

(** The subtree rooted at the grandparent after the last pass, [z] = T false l z r
    below the red frame [fp] below [fg]. *)
Definition ins_rotated (fp fg : frame) (l : tree) (z : Z) (r : tree) : tree :=
  let p := f_x fp in let g := f_x fg in let u := f_sib fg in let s := f_sib fp in
  match f_left fg, f_left fp with
  | true, true => T true (T false l z r) p (T false s g u)
  | true, false => T true (T (f_black fp) s p l) z (T false r g u)
  | false, false => T true (T false u g s) p (T false l z r)
  | false, true => T true (T false u g l) z (T (f_black fp) r p s)
  end.

Definition ins_recolored (fp fg : frame) (t : tree) : tree :=
  plug1 (Frame (f_left fg) false (f_x fg) (blacken (f_sib fg)))
        (plug1 (f_set_black true fp) t).

(** The whole loop, up to the final blackening of the root. *)
Fixpoint ins_fix (fs : list frame) (l : tree) (z : Z) (r : tree) : tree :=
  match fs with
  | fp :: fg :: fs' =>
      if f_black fp then plug fs (T false l z r)
      else if is_red (f_sib fg) then
        match ins_recolored fp fg (T false l z r) with
        | T _ l' z' r' => ins_fix fs' l' z' r'
        | E => E
        end
      else plug fs' (ins_rotated fp fg l z r)
  | _ => plug fs (T false l z r)
  end.

(** Running one pointer operation whose effect is the lemma [lem], and moving
    up one frame. *)
Tactic Notation "run" hyp(H) uconstr(lem) :=
  let s := fresh "s" in let Hs := fresh "Hs" in
  apply lem in H as (s & Hs & H); simpl in Hs, H;
  cbn [mbind option_bind]; rewrite Hs; clear Hs; cbn [mbind option_bind].

Ltac zup H := rewrite at_up in H; cbn [plug1 f_left f_black f_x f_sib] in H.

Lemma at_mir A s0 s fs t :
  at_pos A s0 s fs t -> at_pos A (mir s0) (mir s) (map mirf fs) (mirt t).
Proof.
  intros (H & HA & Ho). split; [by apply repz_mir|]. split.
  - by rewrite ctx_addrs_mirf, inorder_mirt_perm.
  - simpl. eapply same_off_mir; [|exact Ho]. done.
Qed.

Lemma at_unmir A s0 s fs t :
  at_pos A (mir s0) s (map mirf fs) (mirt t) -> at_pos A s0 (mir s) fs t.
Proof. intros H. apply at_mir in H. by rewrite mir_inv, mirfs_inv, mirt_inv in H. Qed.

Lemma rotate_mir' s x : rotate_left (mir s) x = mir <$> rotate_right s x.
Proof.
  rewrite <- (mir_inv s) at 2. rewrite rotate_mir.
  destruct (rotate_left (mir s) x); simpl; by rewrite ?mir_inv.
Qed.

Lemma copy_color_mir s p n :
  update (mir s) p (node_copy_color (mir_node n)) = mir <$> update s p (node_copy_color n).
Proof. by apply update_mir. Qed.

Lemma nonnull_red_mir s u : nonnull_red (mir s) u = nonnull_red s u.
Proof.
  unfold nonnull_red. destruct (u =? 0); [done|]. rewrite load_mir. by destruct (load s u).
Qed.

Lemma null_or_black_mir s u : null_or_black (mir s) u = null_or_black s u.
Proof.
  unfold null_or_black. destruct (u =? 0); [done|]. rewrite load_mir. by destruct (load s u).
Qed.

(** Pushing [mir] through one bind of a mirrored computation. *)
Ltac mir_head m :=
  lazymatch m with
  | load (mir ?s) ?p => rewrite (load_mir s p)
  | rotate_right (mir ?s) ?p => rewrite (rotate_mir s p)
  | rotate_left (mir ?s) ?p => rewrite (rotate_mir' s p)
  | rb_set_black (mir ?s) ?p => rewrite (set_black_mir s p)
  | rb_set_red (mir ?s) ?p => rewrite (set_red_mir s p)
  | nonnull_red (mir ?s) ?p => rewrite (nonnull_red_mir s p)
  | null_or_black (mir ?s) ?p => rewrite (null_or_black_mir s p)
  | update (mir ?s) ?p (node_copy_color (mir_node ?n)) => rewrite (copy_color_mir s p n)
  end.

Ltac mir_bind :=
  cbn [mir_node rb_left rb_right rb_pc];
  rewrite ?fmap_bind_mir;
  match goal with |- ?m ≫= _ = _ => mir_head m end;
  rewrite ?bind_mir; apply bind_cong; intros ?; cbn beta.

Definition mir_fst {B} (r : rb_state * B) : rb_state * B := (mir r.1, r.2).

Section insert_fixup.
Context {A : list Z} {s0 : rb_state}.

Lemma insert_fixup_left_spec s fp bg g u fs l z r :
  at_pos A s0 s (fp :: Frame true bg g u :: fs) (T false l z r) ->
  exists s',
    insert_fixup_left s z (f_x fp) g (frame_node g fp z)
      (RbNode (pack (hole_par fs) bg) (f_x fp) (ptr u))
    = Some (s', if is_red u then Some g else None) /\
    at_pos A s0 s' fs
      (if is_red u then ins_recolored fp (Frame true bg g u) (T false l z r)
       else ins_rotated fp (Frame true bg g u) l z r).
Proof.
  intros H. pose proof H as Hu.
  rewrite !at_up in Hu. unfold plug1 in Hu at 1; simpl in Hu.
  pose proof (at_addr _ _ _ _ _ _ H) as Hz.
  assert (Hsz : f_left fp = true -> ptr (f_sib fp) <> z).
  { intros Hl Heq. destruct H as ((_ & _ & _ & Hnd) & _). simpl in Hnd.
    destruct (ptr_in (f_sib fp)) as [[_ Hp]|Hp]; rewrite Heq in Hp.
    - by destruct Hz.
    - list_facts. eauto. }
  pose proof (proj1 (at_down_r _ _ _ _ _ _) Hu) as Hur.
  unfold insert_fixup_left. cbn [rb_right].
  rewrite (nonnull_red_rep _ _ _ (at_rep _ _ _ Hur) (at_par _ _ _ Hur)).
  cbn [mbind option_bind]. clear Hur.
  destruct (is_red u) eqn:Hred.
  - destruct u as [|[] ul ux ur]; try done. simpl ptr.
    destruct fp as [lp bp p sb]. cbn [f_x].
    assert (exists s', rb_set_black s p = Some s' /\
      at_pos A s0 s' (Frame true bg g (T false ul ux ur) :: fs)
        (plug1 (Frame lp true p sb) (T false l z r))) as (s1 & Hs1 & H1).
    { rewrite at_up in H. destruct lp; by apply at_black in H as (s1 & Hs1 & H1); exists s1. }
    rewrite Hs1. clear H. zup H1. rewrite at_down_r in H1.
    run H1 at_black. zup H1. run H1 at_red. by eexists.
  - clear Hu. destruct fp as [[] bp p sb]; simpl in *.
    + rewrite eqb_ne_false by (apply not_eq_sym; auto). cbn [mbind option_bind].
      zup H. run H at_black. zup H. run H at_red. run H at_rotr. by eexists.
    + rewrite Z.eqb_refl. zup H. run H at_rotl.
      pose proof (at_par _ _ _ H) as Hge. simpl in Hge.
      pose proof H as Hd. rewrite at_down_l in Hd. rewrite (at_load _ _ _ _ _ _ Hd).
      cbn [mbind option_bind]. rewrite parent_pack by (simpl; apply Hz). cbn [hole_par f_x].
      rewrite (at_load _ _ _ _ _ _ H). cbn [mbind option_bind].
      rewrite parent_pack by done. cbn [hole_par f_x].
      run H at_black. zup H. run H at_red. run H at_rotr. by eexists.
Qed.

Lemma insert_fixup_mir s z p g np ng :
  insert_fixup_right (mir s) z p g (mir_node np) (mir_node ng)
    = mir_fst <$> insert_fixup_left s z p g np ng.
Proof.
  unfold insert_fixup_left, insert_fixup_right. simpl. mir_bind.
  destruct a; [by repeat mir_bind|].
  destruct (z =? rb_right np); simpl; [|by repeat mir_bind].
  rewrite rotate_mir, bind_mir.
  destruct (rotate_left s p) as [s1|]; simpl; [|done].
  rewrite load_mir. destruct (load s1 p) as [n|]; simpl; [|done].
  rewrite parent_mir, load_mir. destruct (load s1 (rb_parent n)) as [n'|]; simpl; [|done].
  rewrite parent_mir. by repeat mir_bind.
Qed.

Lemma is_red_mirt t : is_red (mirt t) = is_red t.
Proof. by destruct t. Qed.

Lemma plug1_mirf f t : mirt (plug1 f t) = plug1 (mirf f) (mirt t).
Proof. unfold plug1. simpl. by destruct (f_left f). Qed.

Lemma ins_recolored_mir fp fg t :
  ins_recolored (mirf fp) (mirf fg) (mirt t) = mirt (ins_recolored fp fg t).
Proof.
  unfold ins_recolored. rewrite !plug1_mirf. f_equal. unfold mirf. simpl. f_equal.
  by destruct (f_sib fg).
Qed.

Lemma ins_rotated_mir fp fg l z r :
  ins_rotated (mirf fp) (mirf fg) (mirt r) z (mirt l) = mirt (ins_rotated fp fg l z r).
Proof. unfold ins_rotated; simpl. by destruct (f_left fg), (f_left fp). Qed.

Lemma frame_node_mir par f p : mir_node (frame_node par f p) = frame_node par (mirf f) p.
Proof.
  unfold frame_node, mir_node; simpl. rewrite ptr_mirt. by destruct (f_left f).
Qed.
End insert_fixup.

Section insert_fixup_loop.
Context {A : list Z} {s0 : rb_state}.

Lemma insert_fixup_right_spec s fp bg g u fs l z r :
  at_pos A s0 s (fp :: Frame false bg g u :: fs) (T false l z r) ->
  exists s',
    insert_fixup_right s z (f_x fp) g (frame_node g fp z)
      (RbNode (pack (hole_par fs) bg) (ptr u) (f_x fp))
    = Some (s', if is_red u then Some g else None) /\
    at_pos A s0 s' fs
      (if is_red u then ins_recolored fp (Frame false bg g u) (T false l z r)
       else ins_rotated fp (Frame false bg g u) l z r).
Proof.
  intros H. apply at_mir in H. simpl in H. unfold mirf in H at 2. simpl in H.
  apply insert_fixup_left_spec in H as (s' & Hs' & H).
  rewrite is_red_mirt, hole_par_mirf in *. exists (mir s'). split.
  - pose proof (insert_fixup_mir (mir s) z (f_x fp) g (frame_node g (mirf fp) z)
      (RbNode (pack (hole_par fs) bg) (f_x fp) (ptr u))) as Hm.
    rewrite mir_inv, frame_node_mir, mirf_inv in Hm. unfold mir_node in Hm. simpl in Hm.
    rewrite Hm. rewrite ptr_mirt in Hs'. simpl in Hs'. by rewrite Hs'.
  - apply at_unmir. revert H. destruct (is_red u).
    + rewrite <- ins_recolored_mir. done.
    + rewrite <- ins_rotated_mir. done.
Qed.

Lemma insert_fixup_body_spec s fp fg fs l z r :
  at_pos A s0 s (fp :: fg :: fs) (T false l z r) -> f_black fp = false ->
  exists s',
    insert_fixup_body s z = Some (s', if is_red (f_sib fg) then Some (f_x fg) else None) /\
    at_pos A s0 s' fs
      (if is_red (f_sib fg) then ins_recolored fp fg (T false l z r)
       else ins_rotated fp fg l z r).
Proof.
  intros H Hb. unfold insert_fixup_body.
  rewrite (at_load _ _ _ _ _ _ H). cbn [mbind option_bind hole_par].
  destruct (proj1 (proj1 H)) as ([Hp0 Hpe] & Hp & Hps & [Hg0 Hge] & Hg & _).
  simpl in Hp. rewrite parent_pack, eqb_ne_false by done.
  unfold load. cbn [f_x]. rewrite Hp. cbn [mbind option_bind].
  assert (rb_is_black (frame_node (f_x fg) fp z) = false) as ->.
  { unfold frame_node. destruct (f_left fp); rewrite is_black_pack by done; done. }
  assert (rb_parent (frame_node (f_x fg) fp z) = f_x fg) as ->.
  { unfold frame_node. destruct (f_left fp); by rewrite parent_pack. }
  rewrite eqb_ne_false by done. rewrite Hg. cbn [mbind option_bind].
  destruct fg as [[] bg g u]; unfold frame_node at 1; cbn [rb_left f_left f_black f_x f_sib].
  - rewrite Z.eqb_refl. by apply insert_fixup_left_spec.
  - rewrite eqb_ne_false; [by apply insert_fixup_right_spec|].
    destruct (proj1 H) as (_ & _ & _ & Hnd). simpl in Hnd.
    destruct (ptr_in u) as [[_ ->]|Hin]; [done|].
    intros Heq. rewrite <- Heq in Hin. list_facts. set_solver.
Qed.

Lemma at_plug s fs t : at_pos A s0 s fs t <-> at_pos A s0 s [] (plug fs t).
Proof.
  revert t. induction fs as [|f fs IH]; intros t; simpl; [done|]. by rewrite at_up, IH.
Qed.

(** The loop stops at once at the root, below the root, and below a black
    parent. *)
Lemma insert_fixup_body_stop s fs l z r :
  at_pos A s0 s fs (T false l z r) ->
  match fs with fp :: _ :: _ => f_black fp = true | _ => True end ->
  insert_fixup_body s z = Some (s, None).
Proof.
  intros H Hb. unfold insert_fixup_body.
  rewrite (at_load _ _ _ _ _ _ H). cbn [mbind option_bind].
  rewrite parent_pack by apply (at_par _ _ _ H).
  destruct fs as [|fp fs]; [done|]. cbn [hole_par f_x].
  destruct (proj1 (proj1 H)) as ([Hp0 Hpe] & Hp & _ & Hc). simpl in Hp.
  pose proof (rep_ctx_par _ _ _ Hc) as He.
  rewrite eqb_ne_false by done. unfold load. rewrite Hp. cbn [mbind option_bind].
  assert (rb_is_black (frame_node (hole_par fs) fp z) = f_black fp
               /\ rb_parent (frame_node (hole_par fs) fp z) = hole_par fs) as [-> ->].
  { unfold frame_node. destruct (f_left fp); by rewrite is_black_pack, parent_pack. }
  destruct (f_black fp); [done|]. destruct fs; [done|]. discriminate.
Qed.

Lemma ins_recolored_node fp fg t :
  exists l r, ins_recolored fp fg t = T false l (f_x fg) r.
Proof. unfold ins_recolored, plug1. simpl. destruct (f_left fg); eauto. Qed.

Lemma insert_fixup_loop_spec fuel s fs l z r :
  at_pos A s0 s fs (T false l z r) -> (length fs < fuel)%nat ->
  exists s', insert_fixup_loop fuel s z = Some s' /\ at_pos A s0 s' [] (ins_fix fs l z r).
Proof.
  revert s fs l z r. induction fuel as [|fuel IH]; intros s fs l z r H Hf; [lia|].
  assert (Hstop : match fs with fp :: _ :: _ => f_black fp = true | _ => True end ->
    exists s', insert_fixup_loop (S fuel) s z = Some s' /\
      at_pos A s0 s' [] (plug fs (T false l z r))).
  { intros Hs. simpl. rewrite (insert_fixup_body_stop _ _ _ _ _ H Hs). simpl.
    exists s. split; [done|]. by rewrite <- at_plug. }
  destruct fs as [|fp [|fg fs]]; [by apply Hstop..|].
  simpl ins_fix. destruct (f_black fp) eqn:Hb; [by apply Hstop|]. clear Hstop.
  destruct (insert_fixup_body_spec _ _ _ _ _ _ _ H Hb) as (s' & Hs' & H').
  simpl insert_fixup_loop. rewrite Hs'. cbn [mbind option_bind].
  destruct (is_red (f_sib fg)).
  - destruct (ins_recolored_node fp fg (T false l z r)) as (l' & r' & Heq).
    rewrite Heq in *. apply (IH _ _ _ _ _ H'). simpl in Hf. lia.
  - exists s'. split; [done|]. by rewrite <- at_plug.
Qed.

(** Every node on the path to the hole is a distinct heap cell, so the depth
    is at most the size of the heap. *)
Lemma at_in_dom s fs t a :
  at_pos A s0 s fs t -> a ∈ ctx_addrs fs ++ inorder t -> a ∈ dom (rb_heap s).
Proof.
  rewrite at_plug. intros H Hin.
  assert (a ∈ inorder (plug fs t)) as Ha.
  { clear H. revert t Hin. induction fs as [|f fs IH]; intros t; simpl; [done|].
    intros Hin. apply IH. unfold plug1. destruct (f_left f); simpl; set_solver. }
  destruct H as ((_ & Hr & _) & _). revert Hr Ha. generalize (plug fs t). clear.
  intros t. generalize (hole_par []). induction t as [|c l IHl x r IHr]; simpl; [set_solver|].
  intros par (_ & Hn & Hl & Hr). rewrite elem_of_app, elem_of_cons.
  intros [?|[->|?]]; [eauto| |eauto]. by eapply elem_of_dom_2.
Qed.

Lemma at_depth s fs t : at_pos A s0 s fs t -> (length fs <= size (rb_heap s))%nat.
Proof.
  intros H. transitivity (length (ctx_addrs fs)).
  { clear H. induction fs as [|f fs IH]; simpl; [done|]. rewrite length_app. lia. }
  rewrite <- size_dom. destruct (proj1 H) as (_ & _ & _ & Hnd%NoDup_app).
  rewrite <- (size_list_to_set (C := gset Z)) by apply Hnd.
  apply subseteq_size. intros a. rewrite elem_of_list_to_set. intros Ha.
  eapply at_in_dom; [exact H|]. set_solver.
Qed.

Lemma insert_fixup_spec s fs l z r :
  at_pos A s0 s fs (T false l z r) ->
  exists s', insert_fixup (loop_fuel s) s z = Some s' /\
    at_pos A s0 s' [] (blacken (ins_fix fs l z r)).
Proof.
  intros H. pose proof (at_depth _ _ _ H) as Hd.
  destruct (insert_fixup_loop_spec (loop_fuel s) _ _ _ _ _ H) as (s' & Hs' & H').
  { unfold loop_fuel. lia. }
  unfold insert_fixup. rewrite Hs'. cbn [mbind option_bind].
  rewrite (at_root _ _ _ H'). simpl. destruct (ins_fix fs l z r) as [|c l' x' r'] eqn:Heq.
  - exfalso. 
    destruct H as ((_ & _ & _ & _) & HA & _), H' as (_ & HA' & _).
    rewrite <- HA' in HA. simpl in HA. 
    destruct (ctx_addrs fs); [simpl in HA; destruct (inorder l)|]; by apply Permutation_nil_r in HA.
  - by apply at_black in H'.
Qed.
End insert_fixup_loop.

(** ** The red-black invariant *)

(** [RB t c n]: no red node has a red child, every path to a leaf has [n]
    black nodes, and the root is black ([c = true]) or red. *)
Inductive RB : tree -> bool -> nat -> Prop :=
| RB_E : RB E true 0
| RB_black l x r c1 c2 n : RB l c1 n -> RB r c2 n -> RB (T true l x r) true (S n)
| RB_red l x r n : RB l true n -> RB r true n -> RB (T false l x r) false n.

(** [RBC fs b n]: plugging a tree of black height [n] gives a red-black tree
    with a black root, provided that tree is black when [b] asks for it. *)
Inductive RBC : list frame -> bool -> nat -> Prop :=
| RBC_nil n : RBC [] true n
| RBC_black lf x sib fs b c n :
    RB sib c n -> RBC fs b (S n) -> RBC (Frame lf true x sib :: fs) false n
| RBC_red lf x sib fs n :
    RB sib true n -> RBC fs false n -> RBC (Frame lf false x sib :: fs) true n.

#[export] Hint Constructors RB RBC : kobalt.

Lemma RB_plug fs b n t c :
  RBC fs b n -> RB t c n -> (b = true -> c = true) -> exists m, RB (plug fs t) true m.
Proof.
  intros H. revert t c. induction H as [n|lf x sib fs b c' n Hs Hc IH|lf x sib fs n Hs Hc IH];
    intros t c Ht Hb; simpl.
  - rewrite Hb in Ht by done. eauto.
  - unfold plug1; simpl. destruct lf; eapply IH; eauto with kobalt.
  - rewrite Hb in Ht by done. unfold plug1; simpl.
    destruct lf; (eapply IH; [eauto with kobalt|done]).
Qed.

Lemma RB_blacken t c n : RB t c n -> exists m, RB (blacken t) true m.
Proof. destruct 1; simpl; eauto with kobalt. Qed.

Lemma RB_is_red t c n : RB t c n -> is_red t = negb c.
Proof. by destruct 1. Qed.

Ltac rb_inv :=
  repeat match goal with
  | H : RB E _ _ |- _ => inversion H; clear H; subst
  | H : RB (T _ _ _ _) _ _ |- _ => inversion H; clear H; subst
  | H : RBC (_ :: _) _ _ |- _ => inversion H; clear H; subst
  end.

Lemma RB_recolored fp fg fs b t n :
  RBC (fp :: fg :: fs) b n -> RB t false n -> f_black fp = false ->
  is_red (f_sib fg) = true ->
  RB (ins_recolored fp fg t) false (S n) /\ exists b', RBC fs b' (S n).
Proof.
  intros HC Ht Hb Hr. destruct fp as [lp bp p sp], fg as [lg bg g u].
  simpl in *; subst. rb_inv. rewrite (RB_is_red _ _ _ ltac:(eassumption)) in Hr.
  destruct c; [done|]. destruct u as [|[] ul ux ur]; rb_inv.
  split; [|eauto]. unfold ins_recolored, plug1; simpl.
  destruct lg, lp; simpl; eauto with kobalt.
Qed.

Lemma RB_rotated fp fg fs b l z r n :
  RBC (fp :: fg :: fs) b n -> RB l true n -> RB r true n -> f_black fp = false ->
  is_red (f_sib fg) = false ->
  RB (ins_rotated fp fg l z r) true (S n) /\ exists b', RBC fs b' (S n).
Proof.
  intros HC Hl Hrr Hb Hr. destruct fp as [lp bp p sp], fg as [lg bg g u].
  simpl in *; subst. rb_inv. rewrite (RB_is_red _ _ _ ltac:(eassumption)) in Hr.
  destruct c; [|done]. split; [|eauto]. unfold ins_rotated; simpl.
  destruct lg, lp; eauto with kobalt.
Qed.

Lemma RBC_head_red f fs b n : RBC (f :: fs) b n -> b = negb (f_black f).
Proof. by inversion 1. Qed.

Lemma RB_ins_fix k fs b n l z r :
  (length fs < k)%nat -> RBC fs b n -> RB l true n -> RB r true n ->
  exists m, RB (blacken (ins_fix fs l z r)) true m.
Proof.
  revert fs b n l z r. induction k as [|k IH]; intros fs b n l z r Hk HC Hl Hr; [lia|].
  assert (Hstop : b = false -> exists m, RB (blacken (plug fs (T false l z r))) true m).
  { intros ->. destruct (RB_plug _ _ _ (T false l z r) false HC) as [m Hm];
      [eauto with kobalt|done|]. by eapply RB_blacken. }
  destruct fs as [|fp [|fg fs]].
  - simpl. eauto with kobalt.
  - apply Hstop. inversion HC as [|lf x sib fs' b' c' n' Hs HC'|lf x sib fs' n' Hs HC']; subst; [done|].
    inversion HC'.
  - pose proof (RBC_head_red _ _ _ _ HC) as Hb. simpl.
    destruct (f_black fp) eqn:Hfp; [by apply Hstop|].
    destruct (is_red (f_sib fg)) eqn:Hu.
    + destruct (RB_recolored _ _ _ _ (T false l z r) _ HC) as [HR [b' HC']];
        [eauto with kobalt|done..|].
      destruct (ins_recolored_node fp fg (T false l z r)) as (l' & r' & Heq).
      rewrite Heq in *. rb_inv. eapply IH; eauto. simpl in Hk. lia.
    + destruct (RB_rotated _ _ _ _ _ z _ _ HC Hl Hr Hfp Hu) as [HR [b' HC']].
      destruct (RB_plug _ _ _ _ _ HC' HR) as [m Hm]; [done|]. by eapply RB_blacken.
Qed.

(** ** In-order sequences *)

Ltac app_norm := simpl; repeat (rewrite <- app_assoc; simpl); reflexivity.

Fixpoint ctx_pre (fs : list frame) : list Z :=
  match fs with
  | [] => []
  | f :: fs => ctx_pre fs ++ (if f_left f then [] else inorder (f_sib f) ++ [f_x f])
  end.
Fixpoint ctx_post (fs : list frame) : list Z :=
  match fs with
  | [] => []
  | f :: fs => (if f_left f then f_x f :: inorder (f_sib f) else []) ++ ctx_post fs
  end.

Lemma inorder_plug fs t : inorder (plug fs t) = ctx_pre fs ++ inorder t ++ ctx_post fs.
Proof.
  revert t. induction fs as [|f fs IH]; intros t; simpl; [by rewrite app_nil_r|].
  rewrite IH. unfold plug1. destruct (f_left f); simpl; by rewrite <- ?app_assoc.
Qed.

Lemma inorder_blacken t : inorder (blacken t) = inorder t.
Proof. by destruct t. Qed.

Lemma inorder_ins_rotated fp fg l z r :
  inorder (ins_rotated fp fg l z r) = inorder (plug [fp; fg] (T false l z r)).
Proof.
  simpl. unfold ins_rotated, plug1.
  destruct (f_left fg), (f_left fp); app_norm.
Qed.

Lemma inorder_ins_recolored fp fg t :
  inorder (ins_recolored fp fg t) = inorder (plug [fp; fg] t).
Proof.
  simpl. unfold ins_recolored, f_set_black, plug1; simpl.
  destruct (f_left fg), (f_left fp); simpl; by rewrite ?inorder_blacken.
Qed.

Lemma inorder_ins_fix k fs l z r :
  (length fs < k)%nat -> inorder (ins_fix fs l z r) = inorder (plug fs (T false l z r)).
Proof.
  revert fs l z r. induction k as [|k IH]; intros fs l z r Hk; [lia|].
  destruct fs as [|fp [|fg fs]]; [done..|]. simpl ins_fix.
  destruct (f_black fp); [done|].
  change (plug (fp :: fg :: fs) (T false l z r))
    with (plug fs (plug [fp; fg] (T false l z r))).
  destruct (is_red (f_sib fg)).
  - destruct (ins_recolored_node fp fg (T false l z r)) as (l' & r' & Heq).
    rewrite Heq, IH by (simpl in Hk; lia). rewrite <- Heq.
    rewrite (inorder_plug fs), (inorder_plug fs (plug _ _)). by rewrite inorder_ins_recolored.
  - rewrite (inorder_plug fs), (inorder_plug fs (plug _ _)). by rewrite inorder_ins_rotated.
Qed.

(** ** Insertion *)

Definition link_of (fs : list frame) : link_t :=
  match fs with
  | [] => LRoot
  | f :: _ => if f_left f then LLeft (f_x f) else LRight (f_x f)
  end.

(** The position rb_insert descends to. *)
Fixpoint descend (cmp : Z -> Z -> Z) (node : Z) (t : tree) (fs : list frame) : list frame :=
  match t with
  | E => fs
  | T c l x r =>
      if cmp node x <? 0 then descend cmp node l (Frame true c x r :: fs)
      else descend cmp node r (Frame false c x l :: fs)
  end.

Lemma plug_descend cmp node t fs : plug (descend cmp node t fs) E = plug fs t.
Proof.
  revert fs. induction t as [|c l IHl x r IHr]; intros fs; simpl; [done|].
  destruct (_ <? 0); [by rewrite IHl|by rewrite IHr].
Qed.

Lemma read_link_of s fs t : repz s fs t -> read_link s (link_of fs) = Some (ptr t).
Proof.
  intros (Hc & _ & Hroot & _). destruct fs as [|f fs]; simpl; [by rewrite Hroot|].
  simpl in Hc. destruct Hc as (_ & Hn & _). unfold frame_node in Hn.
  destruct (f_left f); simpl; unfold load; by rewrite Hn.
Qed.

Fixpoint height (t : tree) : nat :=
  match t with E => 0 | T _ l _ r => S (height l `max` height r) end.

Lemma height_le t : (height t <= length (inorder t))%nat.
Proof. induction t; simpl; [done|]. rewrite length_app. simpl. lia. Qed.

Lemma repz_size s fs t :
  repz s fs t -> (length (ctx_addrs fs ++ inorder t) <= size (rb_heap s))%nat.
Proof.
  intros H. destruct (H) as (_ & _ & _ & Hnd). rewrite <- size_dom.
  rewrite <- (size_list_to_set (C := gset Z)) by apply Hnd.
  apply subseteq_size. intros a. rewrite elem_of_list_to_set.
  apply (at_in_dom (A := ctx_addrs fs ++ inorder t) (s0 := s)). by split.
Qed.

Lemma repz_height s fs t : repz s fs t -> (height t <= size (rb_heap s))%nat.
Proof.
  intros H%repz_size. rewrite length_app in H. pose proof (height_le t). lia.
Qed.

Lemma insert_descend_spec cmp node fuel s t fs :
  repz s fs t -> (height t < fuel)%nat ->
  insert_descend fuel s cmp node (link_of fs) (hole_par fs)
    = Some (link_of (descend cmp node t fs), hole_par (descend cmp node t fs)).
Proof.
  revert fs fuel. induction t as [|c l IHl x r IHr]; intros fs fuel H Hf;
    (destruct fuel as [|fuel]; [lia|]); cbn [insert_descend]; rewrite (read_link_of _ _ _ H);
    cbn [mbind option_bind ptr]; [done|].
  rewrite eqb_ne_false by apply (repz_addr _ _ _ _ _ _ H). cbn [descend height] in *.
  destruct (cmp node x <? 0).
  - apply (IHl (Frame true c x r :: fs)); [by rewrite repz_up|lia].
  - apply (IHr (Frame false c x l :: fs)); [by rewrite repz_up|lia].
Qed.

(** Storing the fresh node in the hole. *)
Lemma attach_spec s fs node n :
  repz s fs E -> addr_ok node -> node ∉ ctx_addrs fs -> rb_heap s !! node = Some n ->
  exists s', (s ← update s node (fun _ => RbNode (hole_par fs) 0 0);
              write_link s (link_of fs) node) = Some s' /\
    repz s' fs (T false E node E) /\
    same_off (node :: ctx_addrs fs) (rb_heap s) (rb_heap s').
Proof.
  intros (Hc & _ & Hroot & Hnd) Hok Hin Hn. simpl in Hnd. rewrite app_nil_r in Hnd.
  erewrite update_eq by exact Hn. cbn [mbind option_bind].
  set (s1 := RbState _ _).
  assert (Hc1 : rep_ctx (rb_heap s1) fs 0).
  { eapply rep_ctx_ext; [|exact Hc]. intros a Ha. simpl. rewrite lookup_insert_ne; set_solver. }
  assert (Hp : RbNode (hole_par fs) 0 0 = RbNode (pack (hole_par fs) false) 0 0).
  { unfold pack. simpl. f_equal. lia. }
  destruct fs as [|f fs].
  - eexists. split; [reflexivity|]. split.
    + split; [done|]. split; [|split; [done|]]; simpl.
      * split; [done|]. by rewrite lookup_insert_eq.
      * apply NoDup_singleton.
    + intros a Ha. simpl. rewrite lookup_insert_ne; set_solver.
  - pose proof (relink_frame s1 f fs 0 node Hc1 Hnd) as (Hrc & Hoff%same_off_par & Hr).
    exists (RbState (<[f_x f := frame_node (hole_par fs) f node]> (rb_heap s1)) (rb_root s1)).
    split.
    { simpl in Hc1. destruct Hc1 as (_ & Hf & _). unfold frame_node in *. simpl link_of.
      destruct (f_left f); cbn [write_link]; erewrite update_eq by exact Hf; reflexivity. }
    split.
    + split; [done|]. split; [|split].
      * split; [done|]. split; [|done]. cbn [rb_heap].
        rewrite lookup_insert_ne by set_solver. unfold s1; cbn [rb_heap].
        by rewrite lookup_insert_eq, Hp.
      * simpl rb_root. rewrite Hroot. apply ptr_plug_cons.
      * apply NoDup_app. split; [done|]. split; [|apply NoDup_singleton]. simpl. set_solver.
    + intros a Ha. transitivity (rb_heap s1 !! a); [apply Hoff; set_solver|].
      simpl. rewrite lookup_insert_ne; set_solver.
Qed.

Lemma RBC_descend cmp node t c fs b n :
  RBC fs b n -> RB t c n -> (b = true -> c = true) ->
  exists b', RBC (descend cmp node t fs) b' 0.
Proof.
  intros HC H. revert fs b HC.
  induction H as [|l x r c1 c2 n Hl IHl Hr IHr|l x r n Hl IHl Hr IHr];
    intros fs b HC Hb; simpl; [eauto|..].
  - destruct (_ <? 0); [eapply IHl|eapply IHr]; eauto with kobalt; done.
  - destruct b; [by specialize (Hb eq_refl)|].
    destruct (_ <? 0); [eapply IHl|eapply IHr]; eauto with kobalt.
Qed.

(** Every node of [l1] is not above the new one and every node of [l2] is. *)
Definition splits (cmp : Z -> Z -> Z) (node : Z) (l1 l2 : list Z) : Prop :=
  Forall (fun x => 0 <= cmp node x) l1 /\ Forall (fun x => cmp node x < 0) l2.

Lemma splits_middle cmp node p x q l1 l2 :
  p ++ x :: q = l1 ++ l2 -> splits cmp node l1 l2 ->
  if cmp node x <? 0
  then exists k, p = l1 ++ k /\ l2 = k ++ x :: q
  else exists k, q = k ++ l2 /\ l1 = p ++ x :: k.
Proof.
  intros Heq [H1 H2]. apply app_eq_app in Heq as [k [[-> Hk]|[-> Hk]]].
  - rewrite Hk in H2. apply Forall_app in H2 as [_ H2]. inversion H2; subst.
    destruct (Z.ltb_spec (cmp node x) 0); [eauto|lia].
  - destruct k as [|y k]; simplify_eq/=.
    + inversion H2; subst. destruct (Z.ltb_spec (cmp node x) 0); [|lia].
      exists []. by rewrite !app_nil_r.
    + apply Forall_app in H1 as [_ H1]. inversion H1; subst.
      destruct (Z.ltb_spec (cmp node y) 0); [lia|]. eauto.
Qed.

Lemma inorder_descend cmp node t fs l1 l2 c :
  inorder t = l1 ++ l2 -> splits cmp node l1 l2 ->
  inorder (plug (descend cmp node t fs) (T c E node E))
    = ctx_pre fs ++ l1 ++ node :: l2 ++ ctx_post fs.
Proof.
  revert fs l1 l2. induction t as [|c' l IHl x r IHr]; intros fs l1 l2 Heq Hs; simpl in *.
  - symmetry in Heq. apply app_nil in Heq as [-> ->]. by rewrite inorder_plug.
  - pose proof (splits_middle _ _ _ _ _ _ _ Heq Hs) as Hm. destruct Hs as [H1 H2].
    destruct (cmp node x <? 0); destruct Hm as (k & Hk & ->).
    + rewrite (IHl _ _ _ Hk); [simpl; rewrite app_nil_r; app_norm|].
      split; [done|]. by apply Forall_app in H2 as [? _].
    + rewrite (IHr _ _ _ Hk); [app_norm|].
      split; [|done]. apply Forall_app in H1 as [_ H1]. by inversion H1.
Qed.

(** The abstract state: a red-black tree whose in-order sequence of node
    addresses is [l]. *)
Definition rbt (s : rb_state) (l : list Z) : Prop :=
  exists t n, repz s [] t /\ RB t true n /\ inorder t = l.

Lemma ctx_addrs_perm fs t : ctx_addrs fs ++ inorder t ≡ₚ inorder (plug fs t).
Proof.
  revert t. induction fs as [|f fs IH]; intros t; simpl; [done|].
  rewrite <- IH. unfold plug1. destruct (f_left f); simpl; solve_Permutation.
Qed.

Lemma repz_plug s fs t : repz s fs t <-> repz s [] (plug fs t).
Proof.
  revert t. induction fs as [|f fs IH]; intros t; simpl; [done|]. by rewrite repz_up, IH.
Qed.

Lemma rb_insert_spec cmp s node n l1 l2 :
  rbt s (l1 ++ l2) -> splits cmp node l1 l2 ->
  addr_ok node -> node ∉ l1 ++ l2 -> rb_heap s !! node = Some n ->
  exists s', rb_insert cmp s node = Some s' /\ rbt s' (l1 ++ node :: l2) /\
    same_off (l1 ++ node :: l2) (rb_heap s) (rb_heap s').
Proof.
  intros (t & k & Hz & HR & Hl) Hs Hok Hin Hn.
  pose proof (repz_height _ _ _ Hz) as Hh.
  pose proof (insert_descend_spec cmp node (loop_fuel s) s t [] Hz) as Hd.
  unfold rb_insert. cbn [link_of hole_par] in Hd. rewrite Hd by (unfold loop_fuel; lia). clear Hd.
  cbn [mbind option_bind].
  pose proof (inorder_descend cmp node t [] l1 l2 false Hl Hs) as Hio.
  destruct (RBC_descend cmp node t true [] true k (RBC_nil _) HR) as [b HC]; [done|].
  pose proof (plug_descend cmp node t []) as Hp. simpl in Hp, Hio. rewrite app_nil_r in Hio.
  set (fs := descend cmp node t []) in *.
  assert (Hc : ctx_addrs fs ≡ₚ l1 ++ l2).
  { rewrite <- Hl, <- Hp, <- ctx_addrs_perm. simpl. by rewrite app_nil_r. }
  assert (HzE : repz s fs E) by (rewrite repz_plug, Hp; done).
  destruct (attach_spec s fs node n HzE Hok) as (s1 & Hs1 & Hz1 & Ho1); [by rewrite Hc|done|].
  destruct (update s node _) as [s1'|]; cbn [mbind option_bind] in *; [|done].
  rewrite Hs1. cbn [mbind option_bind].
  destruct (insert_fixup_spec (A := l1 ++ node :: l2) (s0 := s) s1 fs E node E) as (s' & Hs' & H').
  { split; [done|]. split.
    - rewrite Hc. simpl. solve_Permutation.
    - eapply same_off_mono; [|exact Ho1]. rewrite Hc. set_solver. }
  exists s'. split; [done|]. destruct H' as (Hz' & _ & Ho').
  split; [|exact Ho'].
  destruct (RB_ins_fix (S (length fs)) fs b 0 E node E) as [m Hm]; eauto with kobalt.
  eexists _, m. split; [exact Hz'|]. split; [done|].
  rewrite inorder_blacken. by rewrite (inorder_ins_fix (S (length fs))) by lia.
Qed.
