(* ===== verification/RbErase.v ===== *)
(** * Erasure, minimum and successor in the red-black tree

    The deletion fix-up loop restores the red-black invariant of a tree with a
    subtree whose black height is one short; rb_erase is unlinking followed by
    that loop.  rb_first and rb_next are the head of the in-order sequence and
    the successor in it. *)

From stdpp Require Import base gmap list.
From Stdlib Require Import ZArith Lia.
From S2P Require Import Prelude RbTree RbRep RbTreeProof.

(** ** The deletion fix-up *)

(** The loop runs while the subtree at the hole is black; each pass shortens
    the path or leaves a red subtree. *)
Definition measure (fs : list frame) (t : tree) : nat :=
  (length fs + if is_red t then 0 else 1)%nat.

(** A subtree one black node short of [S n]: black of height [n], or red and
    then of height [S n] once blackened. *)
Definition short (t : tree) (n : nat) : Prop :=
  if is_red t then RB (blacken t) true (S n) else RB t true n.

(** One pass ends at a position where the subtree is still one black node
    short, of a tree with the same in-order sequence. *)
Definition fix_step (A : list Z) (s0 : rb_state) (io : list Z) (m : nat)
    (res : option (rb_state * Z * Z)) : Prop :=
  exists s' fs' t' b' n',
    res = Some (s', ptr t', hole_par fs') /\ at_pos A s0 s' fs' t' /\
    RBC fs' b' (S n') /\ short t' n' /\ inorder (plug fs' t') = io /\
    (measure fs' t' <= m)%nat.

(** The left half of the body: the last recolouring and rotation, and what
    runs after the sibling has been made black. *)
Definition del_last_left (s : rb_state) (xp w : Z) : option (rb_state * Z * Z) :=
  nxp ← load s xp;
  s ← update s w (node_copy_color nxp);
  s ← rb_set_black s xp;
  nw ← load s w;
  s ← (if rb_right nw =? 0 then Some s else rb_set_black s (rb_right nw));
  s ← rotate_left s xp;
  Some (s, rb_root s, 0).

Definition del_tail_left (s : rb_state) (xp w : Z) : option (rb_state * Z * Z) :=
  nw ← load s w;
  bl ← null_or_black s (rb_left nw);
  br ← null_or_black s (rb_right nw);
  if (bl : bool) && (br : bool) then
    s ← rb_set_red s w;
    nx ← load s xp; Some (s, xp, rb_parent nx)
  else
    '(s, w) ← (if br : bool then
                 s ← (if rb_left nw =? 0 then Some s else rb_set_black s (rb_left nw));
                 s ← rb_set_red s w;
                 s ← rotate_right s w;
                 nxp ← load s xp; Some (s, rb_right nxp)
               else Some (s, w));
    del_last_left s xp w.

Lemma delete_fixup_left_tail s xp nxp :
  delete_fixup_left s xp nxp =
    (nw ← load s (rb_right nxp);
     if rb_is_red nw then
       s ← rb_set_black s (rb_right nxp); s ← rb_set_red s xp;
       s ← rotate_left s xp;
       nxp ← load s xp; del_tail_left s xp (rb_right nxp)
     else del_tail_left s xp (rb_right nxp)).
Proof.
  unfold delete_fixup_left. apply bind_cong. intros nw.
  destruct (rb_is_red nw); [|done].
  by repeat (match goal with |- (?m ≫= _) ≫= _ = _ => destruct m; simpl; [|done] end).
Qed.

Lemma RB_black_node t n : RB t true (S n) -> exists a w b ca cb,
  t = T true a w b /\ RB a ca n /\ RB b cb n.
Proof. inversion 1; subst. eauto 10. Qed.

Section delete_fixup.
Context {A : list Z} {s0 : rb_state}.

Lemma del_last_left_spec s fs t bxp xp bw a w b1 y b2 :
  at_pos A s0 s fs (T bxp t xp (T bw a w (T false b1 y b2))) ->
  exists s', del_last_left s xp w = Some (s', rb_root s', 0) /\
    at_pos A s0 s' fs (T bxp (T true t xp a) w (T true b1 y b2)).
Proof.
  intros H. pose proof (at_par _ _ _ H) as Hp.
  unfold del_last_left. rewrite (at_load _ _ _ _ _ _ H). cbn [mbind option_bind].
  rewrite at_down_r in H.
  destruct (at_copy _ _ _ _ _ _ _ bxp (ptr t) w H Hp) as (s1 & Hs1 & H1).
  simpl ptr. rewrite Hs1. clear H. zup H1. run H1 at_black.
  rewrite at_down_r in H1. rewrite (at_load _ _ _ _ _ _ H1). cbn [mbind option_bind ptr].
  rewrite at_down_r in H1. cbn [rb_right].
  rewrite eqb_ne_false by apply (at_addr _ _ _ _ _ _ H1).
  run H1 at_black. zup H1. zup H1. run H1 at_rotl. by eexists.
Qed.

Lemma fix_step_done s fs t c b n m res io :
  at_pos A s0 s fs t -> RBC fs b n -> RB t c n -> (b = true -> c = true) ->
  inorder (plug fs t) = io -> res = Some (s, rb_root s, 0) -> (1 <= m)%nat ->
  fix_step A s0 io m res.
Proof.
  intros H HC HR Hb Hio -> Hm. destruct (RB_plug _ _ _ _ _ HC HR Hb) as [k Hk].
  rewrite (at_root _ _ _ H). rewrite at_plug in H.
  eexists s, [], _, true, k. split; [reflexivity|]. split; [exact H|].
  split; [constructor|]. split; [unfold short; by rewrite (RB_is_red _ _ _ Hk)|].
  split; [done|].
  unfold measure. simpl. by destruct (is_red _); lia.
Qed.

Lemma del_tail_left_spec s fs b n t bxp xp a w c :
  at_pos A s0 s (Frame true bxp xp (T true a w c) :: fs) t ->
  RBC (Frame true bxp xp (T true a w c) :: fs) b (S n) -> RB t true n ->
  fix_step A s0 (inorder (plug fs (T bxp t xp (T true a w c))))
    (1 `max` (length fs + if bxp then 1 else 0)) (del_tail_left s xp w).
Proof.
  intros H HC HR.
  assert (exists ca cc, RB a ca n /\ RB c cc n) as (ca & cc & Ha & Hc).
  { inversion HC; subst; rb_inv; eauto. }
  assert (exists b', RBC fs b' (if bxp then S (S n) else S n) /\ (bxp = false -> b' = false))
    as (b' & HC' & Hb').
  { inversion HC; subst; eexists; (split; [eassumption|done]). }
  clear HC. zup H. pose proof (at_par _ _ _ H) as Hpe.
  rewrite at_down_r in H. unfold del_tail_left.
  rewrite (at_load _ _ _ _ _ _ H). cbn [mbind option_bind rb_left rb_right].
  pose proof (at_rep _ _ _ H) as (Hw & _ & Hra & Hrc).
  rewrite (null_or_black_rep _ _ _ Hra), (null_or_black_rep _ _ _ Hrc) by apply Hw.
  cbn [mbind option_bind]. rewrite (RB_is_red _ _ _ Ha), (RB_is_red _ _ _ Hc).
  destruct cc; simpl negb; [destruct ca; simpl negb; cbn [andb]|rewrite andb_false_r].
  - run H at_red. zup H. rewrite (at_load _ _ _ _ _ _ H). cbn [mbind option_bind].
    rewrite parent_pack by done.
    exists s1, fs, (T bxp t xp (T false a w c)), b', (if bxp then S n else n).
    split; [reflexivity|]. split; [exact H|].
    split; [by destruct bxp|]. split; [destruct bxp; unfold short; simpl; eauto with kobalt|].
    split; [by rewrite !inorder_plug|]. unfold measure. destruct bxp; simpl; lia.
  - destruct a as [|[] a1 y a2]; rb_inv. cbn [ptr].
    rewrite at_down_l in H. rewrite eqb_ne_false by apply (at_addr _ _ _ _ _ _ H).
    run H at_black. zup H. run H at_red. run H at_rotr. zup H.
    rewrite (at_load _ _ _ _ _ _ H). cbn [mbind option_bind rb_right ptr].
    apply del_last_left_spec in H as (s' & Hs' & H).
    eapply (fix_step_done s' fs _ bxp); [exact H|exact HC'| | |  |exact Hs'|lia].
    + destruct bxp; eauto with kobalt.
    + destruct bxp; [done|]. by rewrite Hb'.
    + rewrite !inorder_plug. app_norm.
  - destruct c as [|[] c1 y c2]; rb_inv. cbn [mbind option_bind].
    zup H. apply del_last_left_spec in H as (s' & Hs' & H).
    eapply (fix_step_done s' fs _ bxp); [exact H|exact HC'| | |  |exact Hs'|lia].
    + destruct bxp; eauto with kobalt.
    + destruct bxp; [done|]. by rewrite Hb'.
    + rewrite !inorder_plug. app_norm.
Qed.

Lemma delete_fixup_left_spec s fs b n t bxp xp sib :
  at_pos A s0 s (Frame true bxp xp sib :: fs) t ->
  RBC (Frame true bxp xp sib :: fs) b (S n) -> RB t true n ->
  fix_step A s0 (inorder (plug fs (T bxp t xp sib))) (S (length fs))
    (delete_fixup_left s xp (RbNode (pack (hole_par fs) bxp) (ptr t) (ptr sib))).
Proof.
  intros H HC HR. rewrite delete_fixup_left_tail. cbn [rb_right].
  assert (Hxe : Z.even xp = true) by apply (at_par _ _ _ H).
  pose proof H as Hs. zup Hs. rewrite at_down_r in Hs.
  destruct sib as [|[] a w c]; [inversion HC; subst; rb_inv|..]; cbn [ptr];
    rewrite (at_load _ _ _ _ _ _ Hs); cbn [mbind option_bind]; rewrite is_red_pack by done;
    simpl negb.
  - destruct (del_tail_left_spec _ _ _ _ _ _ _ _ _ _ H HC HR)
      as (s' & fs' & t' & b' & n' & Hr & Hp & HC' & HS & Hio & Hm).
    exists s', fs', t', b', n'. split_and!; try done. destruct bxp; lia.
  - clear H. rename Hs into H. run H at_black. zup H. run H at_red. run H at_rotl.
    rewrite at_down_l in H. rewrite (at_load _ _ _ _ _ _ H). cbn [mbind option_bind rb_right].
    rewrite at_down_l in H. inversion HC; subst; rb_inv.
    destruct (RB_black_node a n) as (a1 & w' & a2 & c1 & c2 & -> & H1 & H2); [done|].
    destruct (del_tail_left_spec _ _ true n _ _ _ _ _ _ H)
      as (s' & fs' & t' & b' & n' & Hr & Hp & HC' & HS & Hio & Hm); [eauto with kobalt|done|].
    exists s', fs', t', b', n'. split_and!; try done; [|simpl in Hm; lia].
    rewrite Hio. simpl plug. rewrite !inorder_plug. app_norm.
Qed.

(** *** The right half, by symmetry *)

Lemma left_mir n : rb_left (mir_node n) = rb_right n.
Proof. done. Qed.
Lemma right_mir n : rb_right (mir_node n) = rb_left n.
Proof. done. Qed.
Lemma is_red_mir n : rb_is_red (mir_node n) = rb_is_red n.
Proof. done. Qed.

(** Running both sides of a mirror equation in lockstep. *)
Ltac mir_step t :=
  lazymatch t with
  | ?m ≫= _ => mir_step m
  | load (mir ?s) ?p => rewrite (load_mir s p); destruct (load s p)
  | rotate_right (mir ?s) ?p => rewrite (rotate_mir s p); destruct (rotate_left s p)
  | rotate_left (mir ?s) ?p => rewrite (rotate_mir' s p); destruct (rotate_right s p)
  | rb_set_black (mir ?s) ?p => rewrite (set_black_mir s p); destruct (rb_set_black s p)
  | rb_set_red (mir ?s) ?p => rewrite (set_red_mir s p); destruct (rb_set_red s p)
  | null_or_black (mir ?s) ?p =>
      rewrite (null_or_black_mir s p); destruct (null_or_black s p)
  | update (mir ?s) ?p (node_copy_color (mir_node ?n)) =>
      rewrite (copy_color_mir s p n); destruct (update s p (node_copy_color n))
  | (if ?b then _ else _) => destruct b
  end.

Ltac mir_go :=
  repeat (rewrite ?parent_mir, ?left_mir, ?right_mir, ?is_red_mir;
    try match goal with |- ?t = _ => mir_step t end;
    cbn [mbind option_bind fmap option_fmap option_map];
    try reflexivity).

Definition mir_fst3 (r : rb_state * Z * Z) : rb_state * Z * Z := (mir r.1.1, r.1.2, r.2).

Lemma delete_fixup_mir s xp nxp :
  delete_fixup_right (mir s) xp (mir_node nxp) = mir_fst3 <$> delete_fixup_left s xp nxp.
Proof.
  unfold delete_fixup_left, delete_fixup_right. mir_go.
Qed.
End delete_fixup.

Lemma RB_mirt t c n : RB t c n -> RB (mirt t) c n.
Proof. induction 1; simpl; eauto with kobalt. Qed.

Lemma RBC_mirf fs b n : RBC fs b n -> RBC (map mirf fs) b n.
Proof. induction 1; simpl; unfold mirf; simpl; eauto using RB_mirt with kobalt. Qed.

Lemma short_mirt t n : short t n -> short (mirt t) n.
Proof.
  unfold short. rewrite is_red_mirt. destruct (is_red t); [|apply RB_mirt].
  replace (blacken (mirt t)) with (mirt (blacken t)) by by destruct t. apply RB_mirt.
Qed.

Lemma fix_step_mir A s0 io m res :
  fix_step A (mir s0) io m res -> fix_step A s0 (rev io) m (mir_fst3 <$> res).
Proof.
  intros (s' & fs' & t' & b' & n' & -> & Hp & HC & HS & Hio & Hm).
  exists (mir s'), (map mirf fs'), (mirt t'), b', n'.
  rewrite ptr_mirt, hole_par_mirf, plug_mir, inorder_mirt, Hio. split_and!; try done.
  - apply at_mir in Hp. by rewrite mir_inv in Hp.
  - by apply RBC_mirf.
  - by apply short_mirt.
  - unfold measure. by rewrite length_map, is_red_mirt.
Qed.

Section delete_loop.
Context {A : list Z} {s0 : rb_state}.

Lemma delete_fixup_right_spec s fs b n t bxp xp sib :
  at_pos A s0 s (Frame false bxp xp sib :: fs) t ->
  RBC (Frame false bxp xp sib :: fs) b (S n) -> RB t true n ->
  fix_step A s0 (inorder (plug fs (T bxp sib xp t))) (S (length fs))
    (delete_fixup_right s xp (RbNode (pack (hole_par fs) bxp) (ptr sib) (ptr t))).
Proof.
  intros H HC HR. apply at_mir in H. apply RBC_mirf in HC. apply RB_mirt in HR.
  cbn [map] in *. unfold mirf in H at 1, HC at 1. simpl in H, HC.
  pose proof (delete_fixup_left_spec _ _ _ _ _ _ _ _ H HC HR) as Hf.
  apply fix_step_mir in Hf. rewrite <- delete_fixup_mir, mir_inv in Hf.
  change (T bxp (mirt t) xp (mirt sib)) with (mirt (T bxp sib xp t)) in Hf.
  rewrite plug_mir, inorder_mirt, rev_involutive, length_map, hole_par_mirf, !ptr_mirt in Hf.
  exact Hf.
Qed.

Lemma delete_fixup_body_spec s f fs b n t :
  at_pos A s0 s (f :: fs) t -> RBC (f :: fs) b (S n) -> RB t true n ->
  fix_step A s0 (inorder (plug (f :: fs) t)) (S (length fs))
    (delete_fixup_body s (ptr t) (f_x f)).
Proof.
  intros H HC HR. unfold delete_fixup_body. pose proof H as Hu. zup Hu.
  destruct f as [[] bxp xp sib]; cbn [plug1 f_left f_black f_x f_sib plug] in *;
    rewrite (at_load _ _ _ _ _ _ Hu); cbn [mbind option_bind rb_left].
  - rewrite Z.eqb_refl. by eapply delete_fixup_left_spec.
  - rewrite eqb_ne_false; [by eapply delete_fixup_right_spec|].
    assert (sib <> E) as Hne by (intros ->; inversion HC; subst; rb_inv).
    destruct (proj1 Hu) as (_ & (_ & _ & Hs & _) & _ & Hnd). simpl in Hnd.
    destruct sib as [|cs sl sx sr]; [done|]. simpl in Hs, Hnd |- *. list_facts.
    destruct (ptr_in t) as [[_ ->]|Hin]; [done|]. intros Heq. rewrite Heq in Hin.
    eauto.
Qed.

(** At the root the hole is the root; elsewhere it is not. *)
Lemma at_is_root s fs t :
  at_pos A s0 s fs t -> (ptr t =? rb_root s) = match fs with [] => true | _ => false end.
Proof.
  intros H. rewrite (at_root _ _ _ H). destruct fs as [|f fs]; [apply Z.eqb_refl|].
  apply eqb_ne_false. intros Heq.
  destruct (proj1 (proj1 (at_plug _ _ _) H)) as (_ & Hr & _).
  destruct (proj1 H) as (_ & _ & _ & Hnd).
  assert (ptr (plug (f :: fs) t) ∈ ctx_addrs (f :: fs)) as Hin.
  { clear. revert f t. induction fs as [|g fs IH]; intros f t.
    - simpl. unfold plug1. destruct (f_left f); set_solver.
    - change (plug (f :: g :: fs) t) with (plug (g :: fs) (plug1 f t)).
      specialize (IH g (plug1 f t)). simpl in *. set_solver. }
  rewrite <- Heq in Hin. apply nodup_app_disj in Hnd as (_ & Hd & _).
  destruct (ptr_in t) as [[_ H0]|Ht]; [|by eapply Hd].
  rewrite H0 in Heq. destruct (plug (f :: fs) t) eqn:Hpl.
  - assert (f_x f ∈ inorder (plug (f :: fs) t)) as Hf.
    { rewrite <- ctx_addrs_perm. set_solver. }
    rewrite Hpl in Hf. simpl in Hf. set_solver.
  - simpl in Hr, Heq. destruct Hr as ([? _] & _). congruence.
Qed.

Lemma delete_fixup_spec fuel s fs b n t :
  at_pos A s0 s fs t -> RBC fs b (S n) -> short t n -> (measure fs t < fuel)%nat ->
  exists s' t' k, delete_fixup fuel s (ptr t) (hole_par fs) = Some s' /\
    at_pos A s0 s' [] t' /\ RB t' true k /\ inorder t' = inorder (plug fs t).
Proof.
  revert s fs b n t. induction fuel as [|fuel IH]; intros s fs b n t H HC HS Hm; [lia|].
  cbn [delete_fixup]. rewrite (at_is_root _ _ _ H).
  rewrite (null_or_black_rep _ _ _ (at_rep _ _ _ H) (at_par _ _ _ H)).
  unfold short in HS. destruct (is_red t) eqn:Hred.
  - replace (if match fs with [] => true | _ => false end then Some false else Some (negb true))
      with (Some false) by by destruct fs.
    cbn [mbind option_bind]. destruct t as [|[] l x r]; try done. cbn [ptr].
    rewrite eqb_ne_false by apply (at_addr _ _ _ _ _ _ H).
    apply at_black in H as (s' & Hs' & H). rewrite at_plug in H.
    destruct (RB_plug _ _ _ _ _ HC HS) as [k Hk]; [done|].
    eexists s', _, k. split; [done|]. split; [exact H|]. split; [exact Hk|].
    by rewrite !inorder_plug.
  - destruct fs as [|f fs]; cbn [mbind option_bind negb].
    + destruct t as [|c l x r]; cbn [ptr].
      * exists s, E, n. by split_and!.
      * rewrite eqb_ne_false by apply (at_addr _ _ _ _ _ _ H).
        apply at_black in H as (s' & Hs' & H). destruct c; [|done].
        exists s', (T true l x r), n. by split_and!.
    + destruct (delete_fixup_body_spec _ _ _ _ _ _ H HC HS)
        as (s' & fs' & t' & b' & n' & Hr & Hp & HC' & HS' & Hio & Hm').
      cbn [hole_par]. rewrite Hr. cbn [mbind option_bind].
      destruct (IH s' fs' b' n' t' Hp HC' HS') as (s2 & t2 & k & H2 & Hp2 & Hk & Hio2).
      { unfold measure in Hm at 1. rewrite Hred in Hm. simpl in Hm. lia. }
      exists s2, t2, k. by rewrite Hio2, Hio.
Qed.
End delete_loop.

(** ** Unlinking *)

Lemma set_parent_opt_spec s p0 p t :
  rep (rb_heap s) p0 t -> Z.even p0 = true -> Z.even p = true -> NoDup (inorder t) ->
  exists s', set_parent_opt s (ptr t) p = Some s' /\ rep (rb_heap s') p t /\
    same_off (inorder t) (rb_heap s) (rb_heap s') /\ rb_root s' = rb_root s.
Proof.
  intros Hr H0 Hp Hnd. unfold set_parent_opt. destruct t as [|c l x r].
  { exists s. by split_and!. }
  pose proof (rep_reparent _ _ p _ Hr Hnd) as Hr'. destruct Hr as ([Hx _] & Hn & _).
  cbn [ptr]. rewrite eqb_ne_false by done. unfold set_parent. erewrite update_eq by exact Hn.
  rewrite set_parent_pack by done. eexists. split; [reflexivity|]. split; [exact Hr'|].
  split; [|done]. intros a Ha. simpl in *. rewrite lookup_insert_ne; set_solver.
Qed.

Lemma transplant_spec s fs u nu t p0 X :
  rep_ctx (rb_heap s) fs u -> u <> 0 -> u ∉ ctx_addrs fs ->
  load s u = Some nu -> rb_parent nu = hole_par fs ->
  rep (rb_heap s) p0 t -> Z.even p0 = true ->
  NoDup (ctx_addrs fs ++ inorder t) -> rb_root s = ptr (plug fs X) ->
  exists s', transplant s u (ptr t) = Some s' /\ repz s' fs t /\
    same_off (par_addr fs ++ inorder t) (rb_heap s) (rb_heap s').
Proof.
  intros Hc Hu Hin Hn Hp Hr H0 Hnd HX. assert (Hk : keep (NoDup _)) by exact Hnd.
  apply nodup_app_disj in Hnd as (Hnc & Hd & Hnt).
  unfold transplant. rewrite Hn. cbn [mbind option_bind]. rewrite Hp.
  fold (relink_left s (hole_par fs) u (ptr t)).
  destruct (relink_left_spec s fs u (ptr t) Hc Hu Hin Hnc) as (s1 & Hs1 & Hrc & Ho & Hroot).
  rewrite Hs1. cbn [mbind option_bind].
  destruct (set_parent_opt_spec s1 p0 (hole_par fs) t) as (s2 & Hs2 & Hr2 & Ho2 & Hroot2).
  { eapply rep_ext; [|exact Hr]. intros a Ha. apply (same_off_par _ _ _ Ho). intros Ha'. by eapply Hd. }
  { done. } { by eapply rep_ctx_par. } { done. }
  exists s2. split; [done|]. split.
  - split; [|split; [done|split; [|done]]].
    + eapply rep_ctx_ext; [|exact Hrc]. intros a Ha. apply Ho2. intros Ha'. by eapply Hd.
    + rewrite Hroot2, Hroot. destruct fs; [done|]. rewrite HX. apply ptr_plug_cons.
  - intros a [Ha1 Ha2]%not_elem_of_app. by rewrite Ho2, Ho.
Qed.

(** Hanging the left subtree of the erased node under its successor. *)
Lemma graft_left_spec s fs cy y r' z l :
  repz s fs (T cy E y r') -> rep (rb_heap s) z l -> Z.even z = true -> ptr l <> 0 ->
  NoDup (ctx_addrs fs ++ inorder l ++ y :: inorder r') ->
  exists s', (s ← update s y (node_set_left (ptr l)); set_parent s (ptr l) y) = Some s' /\
    repz s' fs (T cy l y r') /\ same_off (y :: inorder l) (rb_heap s) (rb_heap s').
Proof.
  intros H Hl Hz Hl0 Hnd. pose proof (repz_load _ _ _ _ _ _ H) as Hn.
  pose proof (repz_addr _ _ _ _ _ _ H) as Hy. simpl in Hn.
  destruct H as (Hc & Hr & Hroot & _). simpl in Hr. destruct Hr as (_ & _ & _ & Hr).
  assert (Hk : keep (NoDup _)) by exact Hnd. list_facts.
  erewrite update_eq by exact Hn. cbn [mbind option_bind]. set (s1 := RbState _ _).
  destruct (set_parent_opt_spec s1 z y l) as (s2 & Hs2 & Hr2 & Ho2 & Hroot2); [|done..|].
  { eapply rep_ext; [|exact Hl]. intros a Ha. simpl. rewrite lookup_insert_ne by apart. done. }
  unfold set_parent_opt in Hs2. rewrite eqb_ne_false in Hs2 by done.
  exists s2. split; [done|].
  assert (Hoff : same_off (y :: inorder l) (rb_heap s) (rb_heap s2)).
  { intros a Ha. list_facts. rewrite Ho2 by done. simpl. by rewrite lookup_insert_ne by congruence. }
  split; [|done]. split; [|split; [|split; [|done]]].
  - eapply rep_ctx_ext; [|exact Hc]. intros a Ha. apply Hoff. set_solver.
  - simpl. split; [done|]. split; [|split; [done|]].
    + rewrite Ho2 by done. simpl. by rewrite lookup_insert_eq.
    + eapply rep_ext; [|exact Hr]. intros a Ha. apply Hoff. set_solver.
  - rewrite Hroot2. simpl. rewrite Hroot. destruct fs; [done|]. apply ptr_plug_cons.
Qed.

(** ** The leftmost node *)

Lemma plug_app gs fs t : plug (gs ++ fs) t = plug fs (plug gs t).
Proof. revert t. induction gs as [|g gs IH]; intros t; simpl; [done|]. apply IH. Qed.

Lemma leftmost_spec s par t fuel :
  rep (rb_heap s) par t -> t <> E -> (height t <= fuel)%nat ->
  exists gs c y r, t = plug gs (T c E y r) /\ ctx_pre gs = [] /\
    leftmost fuel s (ptr t) = Some y.
Proof.
  revert par fuel. induction t as [|c l IHl x r IHr]; intros par fuel Hr Hne Hf; [done|].
  simpl in Hf. destruct fuel as [|fuel]; [lia|]. simpl in Hr. destruct Hr as (_ & Hn & Hl & _).
  cbn [ptr leftmost]. unfold load. rewrite Hn. cbn [mbind option_bind rb_left].
  destruct l as [|cl ll xl rl].
  { exists [], c, x, r. done. }
  destruct (IHl x fuel Hl) as (gs & c' & y & r' & Heq & Hpre & Hlm); [done|lia|].
  simpl in Hl. rewrite eqb_ne_false by (cbn [ptr]; apply Hl).
  exists (gs ++ [Frame true c x r]), c', y, r'. rewrite plug_app, <- Heq. split_and!; try done.
  clear -Hpre. induction gs as [|g gs IH]; simpl in *; [done|].
  apply app_nil in Hpre as [Hp ->]. by rewrite IH.
Qed.

(** ** Positions inside a red-black tree *)

Lemma RB_unplug gs fs b n t c :
  RBC fs b n -> RB (plug gs t) c n -> (b = true -> c = true) ->
  exists b' n' c', RBC (gs ++ fs) b' n' /\ RB t c' n' /\ (b' = true -> c' = true).
Proof.
  revert t. induction gs as [|g gs IH]; intros t HC HR Hb; simpl in *; [eauto 10|].
  destruct (IH _ HC HR Hb) as (b' & n' & c' & HC' & HR' & Hb').
  destruct g as [lf bg x sib]. unfold plug1 in HR'; simpl in HR'.
  assert (bg = false -> b' = false) as Hbg.
  { intros ->. destruct b'; [|done]. destruct lf; inversion HR'; subst; by specialize (Hb' eq_refl). }
  destruct lf; inversion HR'; subst;
    try (rewrite (Hbg eq_refl) in HC'; eexists true, _, true; by eauto with kobalt);
    eexists false, _, _; (split; [eauto with kobalt|]); by split; [eassumption|].
Qed.

Lemma RBC_rename gs lf c x y sib fs b n :
  RBC (gs ++ Frame lf c x sib :: fs) b n -> RBC (gs ++ Frame lf c y sib :: fs) b n.
Proof.
  revert b n. induction gs as [|g gs IH]; intros b n H; simpl in *; inversion H; subst;
    eauto with kobalt.
Qed.

Lemma find_node t z : z ∈ inorder t -> exists fs c l r, t = plug fs (T c l z r).
Proof.
  induction t as [|c l IHl x r IHr]; simpl; [set_solver|].
  rewrite elem_of_app, elem_of_cons. intros [Hin|[->|Hin]].
  - destruct (IHl Hin) as (fs & c' & l' & r' & ->).
    exists (fs ++ [Frame true c x r]), c', l', r'. by rewrite plug_app.
  - by exists [], c, l, r.
  - destruct (IHr Hin) as (fs & c' & l' & r' & ->).
    exists (fs ++ [Frame false c x l]), c', l', r'. by rewrite plug_app.
Qed.

Lemma nodup_split (l1 l2 k1 k2 : list Z) z :
  NoDup (l1 ++ z :: l2) -> l1 ++ z :: l2 = k1 ++ z :: k2 -> l1 = k1 /\ l2 = k2.
Proof.
  intros Hnd Heq.
  assert (z ∉ l1) as Hz1.
  { list_facts. done. }
  rewrite Heq in Hnd. assert (z ∉ k1) as Hz2 by (list_facts; done). clear Hnd.
  revert k1 Heq Hz2. induction l1 as [|a l1 IH]; intros [|b k1] Heq Hz2; simplify_eq/=.
  - done.
  - set_solver.
  - set_solver.
  - destruct (IH ltac:(set_solver) k1) as [-> ->]; [done|set_solver|done].
Qed.

(** Removing a node with at most one child [x], from a position of a red-black
    tree: nothing is short when the node was red, and the child is one black
    node short otherwise. *)
Lemma RB_removed ps b n c y x :
  RBC ps b n -> (RB (T c E y x) c n \/ RB (T c x y E) c n) -> (b = true -> c = true) ->
  if c then exists m, n = S m /\ short x m else exists m, RB (plug ps x) true m.
Proof.
  intros HC HR Hb.
  assert (if c then exists m cx, n = S m /\ RB x cx m else RB x true n) as H.
  { destruct HR as [HR|HR]; inversion HR; subst; eauto. }
  destruct c; [|by eapply RB_plug].
  destruct H as (m & cx & -> & Hx). exists m. split; [done|]. unfold short.
  rewrite (RB_is_red _ _ _ Hx). destruct cx; simpl; [done|].
  inversion Hx; subst. simpl. eauto with kobalt.
Qed.

(** ** rb_erase *)

(** The two halves of the branch for a node with two children: taking the
    successor [y] out of its place, and putting it in the place of [z]. *)
Definition detach_succ (s : rb_state) (z y : Z) (ny : rb_node) : option (rb_state * Z) :=
  if rb_parent ny =? z then Some (s, y)
  else
    s ← transplant s y (rb_right ny);
    nz ← load s z;
    s ← update s y (node_set_right (rb_right nz));
    s ← set_parent s (rb_right nz) y;
    Some (s, rb_parent ny).

Definition replace_by (s : rb_state) (z y : Z) : option rb_state :=
  s ← transplant s z y;
  nz ← load s z;
  s ← update s y (node_set_left (rb_left nz));
  s ← set_parent s (rb_left nz) y;
  nz ← load s z;
  update s y (node_copy_color nz).

Lemma hole_par_app gs fs : hole_par (gs ++ fs) = match gs with [] => hole_par fs | g :: _ => f_x g end.
Proof. by destruct gs. Qed.

Lemma ctx_addrs_app gs fs : ctx_addrs (gs ++ fs) = ctx_addrs gs ++ ctx_addrs fs.
Proof. induction gs as [|g gs IH]; simpl; [done|]. by rewrite IH, <- app_assoc. Qed.

Lemma rep_nonnull h par t a : rep h par t -> a ∈ inorder t -> ptr t <> 0.
Proof. destruct t; simpl; [set_solver|]. by intros ([? _] & _). Qed.

Lemma detach_succ_spec s fs c l z gs cy y yr :
  repz s fs (T c l z (plug gs (T cy E y yr))) ->
  exists s1 p0, detach_succ s z y (RbNode (pack (hole_par (gs ++ [Frame false c z l])) cy) 0 (ptr yr))
      = Some (s1, hole_par (gs ++ [Frame false c y l])) /\
    rep (rb_heap s1) p0 (T cy E y (plug gs yr)) /\ Z.even p0 = true /\
    rb_root s1 = rb_root s /\
    same_off (y :: inorder (plug gs yr)) (rb_heap s) (rb_heap s1).
Proof.
  intros H%(proj2 (repz_up s (Frame false c z l) fs _)).
  rewrite repz_plug, <- plug_app, <- repz_plug in H.
  pose proof (repz_par _ _ _ H) as Hpe. pose proof (repz_addr _ _ _ _ _ _ H) as Hy.
  pose proof (repz_load _ _ _ _ _ _ H) as Hny. simpl in Hny.
  unfold detach_succ. rewrite !hole_par_app in *.
  destruct gs as [|g gs]; cbn [hole_par f_x] in *; rewrite parent_pack by done.
  - rewrite Z.eqb_refl. exists s, z. destruct H as (_ & Hr & _ & _). by split_and!.
  - remember ((g :: gs) ++ Frame false c z l :: fs) as ps eqn:Hps.
    destruct H as (Hc & Hr & Hroot & Hnd). assert (Hk : keep (NoDup _)) by exact Hnd.
    assert (Hgz : f_x g <> z).
    { rewrite Hps, ctx_addrs_app in Hnd. simpl in Hnd. list_facts. congruence. }
    rewrite eqb_ne_false by done. simpl in Hr. destruct Hr as (_ & _ & _ & Hyr).
    simpl in Hnd. list_facts. cbn [rb_right].
    destruct (transplant_spec s ps y (RbNode (pack (f_x g) cy) 0 (ptr yr)) yr y (T cy E y yr))
      as (s1 & Hs1 & Hz1 & Ho1); [done|done|done|done|by rewrite parent_pack, Hps|done|done| |done|].
    { by apply nodup_app_disj. }
    rewrite Hs1. cbn [mbind option_bind].
    assert (Hin : f_x g ∈ inorder (plug (g :: gs) yr)).
    { rewrite <- ctx_addrs_perm. set_solver. }
    assert (Hyin : inorder yr ⊆ inorder (plug (g :: gs) yr)).
    { intros a. rewrite <- ctx_addrs_perm. set_solver. }
    rewrite Hps, repz_plug, plug_app, <- repz_plug in Hz1.
    destruct (Hz1) as (Hc1 & Hr1 & Hroot1 & Hnd1). set (r' := plug (g :: gs) yr) in *.
    assert (Hup : repz s1 fs (T c l z r')) by by apply (repz_up s1 (Frame false c z l)).
    rewrite (repz_load _ _ _ _ _ _ Hup). cbn [mbind option_bind rb_right].
    assert (Hyr' : y ∉ inorder r').
    { unfold r'. rewrite <- ctx_addrs_perm. rewrite Hps, ctx_addrs_app in H0. set_solver. }
    assert (Hny1 : rb_heap s1 !! y = Some (RbNode (pack (f_x g) cy) 0 (ptr yr))).
    { rewrite Ho1; [exact Hny|]. rewrite Hps in *. simpl in *. set_solver. }
    erewrite update_eq by exact Hny1. cbn [mbind option_bind]. set (s2 := RbState _ _).
    destruct (set_parent_opt_spec s2 z y r') as (s3 & Hs3 & Hr3 & Ho3 & Hroot3).
    { eapply rep_ext; [|exact Hr1]. intros a Ha. simpl. rewrite lookup_insert_ne; congruence. }
    { apply (repz_par _ _ _ Hz1). } { done. } { simpl in Hnd1. by list_facts. }
    assert (Hr0 : ptr r' <> 0) by by eapply rep_nonnull.
    unfold set_parent_opt in Hs3. rewrite eqb_ne_false in Hs3 by done. rewrite Hs3.
    exists s3, (f_x g). split; [done|]. split; [|split; [done|split]].
    + split; [done|]. split; [|done]. rewrite Ho3 by done. simpl. by rewrite lookup_insert_eq.
    + rewrite Hroot3. simpl. rewrite Hroot1, Hroot, Hps, plug_app. simpl plug.
      destruct fs; [done|]. apply ptr_plug_cons.
    + intros a Ha. list_facts. rewrite Ho3 by done. simpl. rewrite lookup_insert_ne by congruence.
      apply Ho1. rewrite Hps. simpl. set_solver.
Qed.

Lemma replace_by_spec s fs c l z rz cy y r' p0 X :
  rep_ctx (rb_heap s) fs z -> addr_ok z -> z ∉ (ctx_addrs fs ++ inorder (T c l y r')) ->
  load s z = Some (RbNode (pack (hole_par fs) c) (ptr l) rz) ->
  rep (rb_heap s) z l -> ptr l <> 0 -> rep (rb_heap s) p0 (T cy E y r') -> Z.even p0 = true ->
  NoDup (ctx_addrs fs ++ inorder (T c l y r')) -> rb_root s = ptr (plug fs X) ->
  exists s', replace_by s z y = Some s' /\ repz s' fs (T c l y r') /\
    same_off (ctx_addrs fs ++ inorder (T c l y r')) (rb_heap s) (rb_heap s').
Proof.
  intros Hc [Hz0 Hze] Hz Hnz Hl Hl0 Hr Hp0 Hnd HX.
  pose proof (rep_ctx_par _ _ _ Hc) as Hpe. assert (Hk : keep (NoDup _)) by exact Hnd.
  simpl in Hz, Hnd. apply not_elem_of_app in Hz as [Hzc Hz].
  destruct (transplant_spec s fs z _ (T cy E y r') p0 X Hc Hz0 Hzc Hnz)
    as (s1 & Hs1 & Hz1 & Ho1); [by apply parent_pack|done|done| |done|].
  { revert Hnd. simpl. clear. intros Hnd. list_facts. apply nodup_app_disj. split_and!; try done.
    - apply disj_cons_r. done.
    - by apply NoDup_cons. }
  assert (Hlc : forall a, a ∈ z :: inorder l -> a ∉ par_addr fs ++ inorder (T cy E y r')).
  { intros a Ha Hin. clear -Hnd Hz Hzc Ha Hin.
    assert (a ∈ ctx_addrs fs ++ y :: inorder r') as Hin'.
    { destruct fs; simpl in *; set_solver. }
    list_facts. clear Hin. apply elem_of_app in Hin' as [Hin|Hin]; set_solver. }
  unfold replace_by. cbn [ptr] in Hs1. rewrite Hs1. cbn [mbind option_bind].
  assert (Hnz1 : load s1 z = load s z).
  { unfold load. apply Ho1, Hlc. set_solver. }
  rewrite Hnz1, Hnz. cbn [mbind option_bind rb_left].
  destruct (graft_left_spec s1 fs cy y r' z l Hz1) as (s2 & Hs2 & Hz2 & Ho2); [|done..|].
  { eapply rep_ext; [|exact Hl]. intros a Ha. apply Ho1, Hlc. set_solver. }
  destruct (update s1 y _) as [s1'|]; cbn [mbind option_bind] in *; [|done].
  rewrite Hs2. cbn [mbind option_bind].
  assert (Hnz2 : load s2 z = load s z).
  { rewrite <- Hnz1. apply Ho2. simpl in Hz. set_solver. }
  rewrite Hnz2, Hnz. cbn [mbind option_bind].
  destruct (repz_copy_color _ _ _ _ _ _ (hole_par fs) c (ptr l) rz Hz2 Hpe)
    as (s3 & Hs3 & Hz3 & Ho3 & _).
  exists s3. split; [done|]. split; [done|].
  intros a Ha. simpl in Ha. list_facts. rewrite Ho3, Ho2, Ho1; [done|..].
  all: destruct fs; simpl in *; set_solver.
Qed.

(** What the part of rb_erase before the fix-up leaves. *)
Definition unlinked (s : rb_state) (io : list Z) (res : option (rb_state * Z * Z * bool)) : Prop :=
  exists s1 ps x cy,
    res = Some (s1, ptr x, hole_par ps, cy) /\ repz s1 ps x /\
    same_off (ctx_addrs ps ++ inorder x) (rb_heap s) (rb_heap s1) /\
    inorder (plug ps x) = io /\
    (if cy then exists b m, RBC ps b (S m) /\ short x m else exists m, RB (plug ps x) true m).

Lemma unlinked_one s fs c z x n b pz rz :
  rep_ctx (rb_heap s) fs z -> addr_ok z -> z ∉ ctx_addrs fs ->
  load s z = Some pz -> pz = RbNode (pack (hole_par fs) c) (rz.1) (rz.2) ->
  rep (rb_heap s) z x -> NoDup (ctx_addrs fs ++ inorder x) ->
  (exists X, rb_root s = ptr (plug fs X)) ->
  RBC fs b n -> (RB (T c E z x) c n \/ RB (T c x z E) c n) -> (b = true -> c = true) ->
  unlinked s (ctx_pre fs ++ inorder x ++ ctx_post fs)
    (s' ← transplant s z (ptr x); Some (s', ptr x, rb_parent pz, rb_is_black pz)).
Proof.
  intros Hc [Hz0 Hze] Hz Hn -> Hx Hnd [X HX] HC HR Hb.
  pose proof (rep_ctx_par _ _ _ Hc) as Hpe.
  rewrite parent_pack, is_black_pack by done.
  destruct (transplant_spec s fs z _ x z X Hc Hz0 Hz Hn) as (s1 & Hs1 & Hz1 & Ho1);
    [by apply parent_pack|done..|].
  rewrite Hs1. cbn [mbind option_bind].
  exists s1, fs, x, c. split; [done|]. split; [done|]. split; [|split; [apply inorder_plug|]].
  - eapply same_off_mono; [|exact Ho1]. destruct fs; simpl; set_solver.
  - pose proof (RB_removed _ _ _ _ _ _ HC HR Hb) as Hrm. destruct c; [|done].
    destruct Hrm as (m & -> & Hs). eauto.
Qed.

Lemma RB_whole fs c l z r n :
  RB (plug fs (T c l z r)) true n ->
  exists b m, RBC fs b m /\ RB (T c l z r) c m /\ (b = true -> c = true).
Proof.
  intros HR.
  destruct (RB_unplug fs [] true n _ true (RBC_nil _) HR) as (b & m & c' & HC & HR' & Hb); [done|].
  rewrite app_nil_r in HC. assert (c' = c) as -> by by inversion HR'. eauto.
Qed.

Lemma unlinked_two s fs c l z r n nz :
  repz s fs (T c l z r) -> RB (plug fs (T c l z r)) true n -> l <> E -> r <> E ->
  nz = RbNode (pack (hole_par fs) c) (ptr l) (ptr r) ->
  unlinked s (ctx_pre fs ++ (inorder l ++ inorder r) ++ ctx_post fs)
    (y ← leftmost (loop_fuel s) s (rb_right nz);
     ny ← load s y;
     '(s, xp) ← detach_succ s z y ny;
     s ← replace_by s z y;
     Some (s, rb_right ny, xp, rb_is_black ny)).
Proof.
  intros H HR Hl0 Hr0 ->. pose proof (repz_load _ _ _ _ _ _ H) as Hnz.
  pose proof (repz_addr _ _ _ _ _ _ H) as Hz. pose proof (repz_height _ _ _ H) as Hh.
  destruct (H) as (Hc & (_ & _ & Hl & Hr) & Hroot & Hnd). cbn [rb_right].
  destruct (leftmost_spec s z r (loop_fuel s) Hr Hr0) as (gs & cy & y & yr & -> & Hpre & Hlm).
  { simpl in Hh. unfold loop_fuel. lia. }
  rewrite Hlm. cbn [mbind option_bind].
  assert (Hy : repz s (gs ++ Frame false c z l :: fs) (T cy E y yr)).
  { rewrite repz_plug, plug_app, <- repz_plug. by apply repz_up. }
  rewrite (repz_load _ _ _ _ _ _ Hy). cbn [mbind option_bind].
  destruct (detach_succ_spec _ _ _ _ _ _ _ _ _ H) as (s1 & p0 & Hs1 & Hr1 & Hp0 & Hroot1 & Ho1).
  replace (hole_par (gs ++ Frame false c z l :: fs))
    with (hole_par (gs ++ [Frame false c z l])) by by destruct gs.
  change (ptr E) with 0. rewrite Hs1. cbn [mbind option_bind rb_right].
  assert (Hio : inorder (plug gs (T cy E y yr)) = y :: inorder (plug gs yr)).
  { by rewrite !inorder_plug, Hpre. }
  simpl in Hnd. rewrite Hio in Hnd. set (r' := plug gs yr) in *.
  assert (Hoff : forall a, a ∈ ctx_addrs fs ++ inorder l ++ [z] -> rb_heap s1 !! a = rb_heap s !! a).
  { intros a Ha. apply Ho1. intros Hin. clear -Ha Hin Hnd.
    list_facts. apply elem_of_cons in Hin as [->|Hin]; set_solver. }
  destruct (replace_by_spec s1 fs c l z (ptr (plug gs (T cy E y yr))) cy y r' p0
              (T c l z (plug gs (T cy E y yr)))) as (s2 & Hs2 & Hz2 & Ho2); [|done|..].
  { eapply rep_ctx_ext; [|exact Hc]. intros a Ha. apply Hoff. set_solver. }
  { clear -Hnd. simpl. list_facts. set_solver. }
  { unfold load. rewrite Hoff; [exact Hnz|]. set_solver. }
  { eapply rep_ext; [|exact Hl]. intros a Ha. apply Hoff. set_solver. }
  { destruct l; [done|]. apply Hl. }
  { exact Hr1. } { done. }
  { eapply sublist_NoDup; [exact Hnd|]. simpl.
    do 2 (apply sublist_app; [done|]). by apply sublist_cons. }
  { by rewrite Hroot1. }
  rewrite Hs2. cbn [mbind option_bind]. clear Hoff Hs1 Hs2 Hlm.
  rewrite is_black_pack by (apply (repz_par _ _ _ Hy) || by destruct gs; apply (repz_par _ _ _ Hy)).
  assert (Hz3 : repz s2 (gs ++ Frame false c y l :: fs) yr).
  { rewrite repz_plug, plug_app, <- repz_plug. by apply repz_up. }
  exists s2, (gs ++ Frame false c y l :: fs), yr, cy. split; [by destruct gs|].
  split; [done|]. rewrite ctx_addrs_perm. split; [|split].
  - rewrite plug_app. simpl plug. fold r'. rewrite <- ctx_addrs_perm.
    eapply same_off_trans; [|exact Ho2]. eapply same_off_mono; [|exact Ho1].
    simpl. set_solver.
  - rewrite plug_app. simpl plug. fold r'. rewrite inorder_plug. simpl. rewrite Hio. app_norm.
  - assert (HR' : RB (plug (gs ++ Frame false c z l :: fs) (T cy E y yr)) true n).
    { by rewrite plug_app. }
    destruct (RB_whole _ _ _ _ _ _ HR') as (b & m & HC & HRy & Hb).
    apply (RBC_rename _ _ _ _ y) in HC.
    pose proof (RB_removed _ _ _ _ _ _ HC (or_introl HRy) Hb) as Hrm. destruct cy; [|done].
    destruct Hrm as (k & -> & Hs). eauto.
Qed.

Lemma nodup_drop_mid (k l r : list Z) z :
  NoDup (k ++ l ++ z :: r) -> (z ∉ k) /\ NoDup (k ++ l ++ r).
Proof.
  intros Hnd. split; [list_facts; done|]. eapply sublist_NoDup; [exact Hnd|].
  do 2 (apply sublist_app; [done|]). by apply sublist_cons.
Qed.

Lemma rb_erase_unlink s fs c l z r n :
  repz s fs (T c l z r) -> RB (plug fs (T c l z r)) true n ->
  exists res, unlinked s (ctx_pre fs ++ (inorder l ++ inorder r) ++ ctx_post fs) res /\
    rb_erase s z = ('(s, x, xp, orig_black) ← res;
      if (orig_black : bool) then delete_fixup (loop_fuel s) s x xp else Some s).
Proof.
  intros H HR. pose proof (repz_load _ _ _ _ _ _ H) as Hnz.
  pose proof (repz_addr _ _ _ _ _ _ H) as Hz.
  destruct (RB_whole _ _ _ _ _ _ HR) as (b & m & HC & HRz & Hb).
  destruct (H) as (Hc & (_ & _ & Hl & Hr) & Hroot & Hnd).
  cbn [inorder] in Hnd. apply nodup_drop_mid in Hnd as [Hzc Hnd].
  unfold rb_erase. rewrite Hnz. cbn [mbind option_bind rb_left rb_right].
  destruct l as [|cl ll xl rl]; [|destruct r as [|cr lr xr rr]].
  - eexists. split; [|reflexivity].
    by eapply (unlinked_one s fs c z r m b _ (_, _)); eauto.
  - simpl in Hl. cbn [ptr]. rewrite eqb_ne_false by apply Hl.
    eexists. split; [|reflexivity]. rewrite !app_nil_r in *.
    by eapply (unlinked_one s fs c z (T cl ll xl rl) m b _ (_, _)); eauto.
  - eexists. split; [by eapply (unlinked_two _ _ _ _ _ _ _ _ H HR)|].
    cbn [rb_right ptr]. simpl in Hl, Hr. rewrite !eqb_ne_false by (apply Hl || apply Hr).
    f_equal. apply bind_cong. intros y. apply bind_cong. intros ny.
    apply bind_cong. intros [s1 xp]. unfold replace_by.
    by repeat (rewrite option_bind_assoc; apply bind_cong; intros ?; simpl).
Qed.

Lemma rb_erase_spec s l1 z l2 :
  rbt s (l1 ++ z :: l2) ->
  exists s', rb_erase s z = Some s' /\ rbt s' (l1 ++ l2) /\
    same_off (l1 ++ l2) (rb_heap s) (rb_heap s').
Proof.
  intros (t & n & Hz & HR & Hl).
  destruct (find_node t z) as (fs & c & l & r & ->); [rewrite Hl; set_solver|].
  assert (Hsplit : l1 = ctx_pre fs ++ inorder l /\ l2 = inorder r ++ ctx_post fs).
  { apply (nodup_split _ _ _ _ z).
    - rewrite <- Hl. by destruct Hz as (_ & _ & _ & Hnd).
    - rewrite <- Hl, inorder_plug. app_norm. }
  destruct Hsplit as [-> ->]. rewrite <- repz_plug in Hz.
  destruct (rb_erase_unlink _ _ _ _ _ _ _ Hz HR)
    as (res & (s1 & ps & x & cy & -> & Hz1 & Ho1 & Hio & Hrb) & ->).
  rewrite <- !app_assoc in *. cbn [mbind option_bind]. destruct cy.
  - destruct Hrb as (b & m & HC & Hs).
    assert (Hat : at_pos (inorder (plug ps x)) s s1 ps x).
    { split; [done|]. rewrite <- ctx_addrs_perm. by split. }
    destruct (delete_fixup_spec (loop_fuel s1) _ _ _ _ _ Hat HC Hs)
      as (s2 & t' & k & Hs2 & Hat2 & HR2 & Hio2).
    { pose proof (at_depth _ _ _ Hat). unfold measure, loop_fuel. destruct (is_red x); lia. }
    exists s2. split; [done|]. destruct Hat2 as (Hz2 & _ & Ho2). rewrite <- Hio.
    split; [|done]. exists t', k. by rewrite Hio2.
  - destruct Hrb as [m Hm]. exists s1. split; [done|]. rewrite <- Hio. split; [|by rewrite <- ctx_addrs_perm].
    exists (plug ps x), m. by rewrite <- repz_plug.
Qed.

(** ** rb_first and rb_next *)

Lemma rb_first_spec s l : rbt s l -> rb_first s = Some (hd 0 l).
Proof.
  intros (t & n & Hz & HR & <-). unfold rb_first.
  pose proof (repz_height _ _ _ Hz) as Hh. destruct (Hz) as (_ & Hr & Hroot & _).
  simpl in Hroot. rewrite Hroot. destruct t as [|c l x r]; [done|].
  cbn [ptr]. rewrite eqb_ne_false by apply (repz_addr _ _ _ _ _ _ Hz).
  destruct (leftmost_spec s 0 (T c l x r) (loop_fuel s) Hr) as (gs & c' & y & r' & Heq & Hp & Hlm).
  { done. } { unfold loop_fuel. lia. }
  cbn [ptr] in Hlm. rewrite Hlm, Heq, inorder_plug, Hp. done.
Qed.

Lemma climb_spec s fs t fuel :
  repz s fs t -> (length fs < fuel)%nat -> t <> E ->
  climb fuel s (ptr t) (hole_par fs) = Some (hd 0 (ctx_post fs)).
Proof.
  revert fs t. induction fuel as [|fuel IH]; intros fs t H Hf Ht; [lia|].
  cbn [climb]. destruct fs as [|f fs]; [done|]. cbn [hole_par].
  pose proof H as Hup. apply repz_up in Hup. pose proof (repz_par _ _ _ Hup) as Hpe.
  destruct f as [lf bf x sib]. cbn [f_x].
  assert (Hx : addr_ok x).
  { destruct lf; by apply repz_addr in Hup. }
  rewrite eqb_ne_false by apply Hx. unfold plug1 in Hup; simpl in Hup. simpl in Hf.
  destruct lf; rewrite (repz_load _ _ _ _ _ _ Hup); cbn [mbind option_bind rb_right].
  - rewrite eqb_ne_false; [done|]. destruct (H) as (_ & Hr & _ & Hnd).
    destruct t as [|ct lt xt rt]; [done|]. simpl in Hr, Hnd |- *. list_facts.
    destruct (ptr_in sib) as [[_ ->]|Hin]; [done|]. intros ->. by eauto.
  - rewrite Z.eqb_refl, parent_pack by done. 
    apply (IH _ _ Hup); [lia|done].
Qed.

Lemma rb_next_spec s l1 x l2 :
  rbt s (l1 ++ x :: l2) -> rb_next s x = Some (hd 0 l2).
Proof.
  intros (t & n & Hz & HR & Hl).
  destruct (find_node t x) as (fs & c & l & r & ->); [rewrite Hl; set_solver|].
  assert (l2 = inorder r ++ ctx_post fs) as ->.
  { apply (nodup_split l1 l2 (ctx_pre fs ++ inorder l) _ x).
    - rewrite <- Hl. by destruct Hz as (_ & _ & _ & Hnd).
    - rewrite <- Hl, inorder_plug. app_norm. }
  rewrite <- repz_plug in Hz. unfold rb_next. rewrite (repz_load _ _ _ _ _ _ Hz).
  cbn [mbind option_bind rb_right]. destruct (Hz) as (_ & (_ & _ & _ & Hr) & _ & _).
  destruct r as [|cr lr xr rr]; cbn [ptr].
  - rewrite parent_pack by apply (repz_par _ _ _ Hz). simpl negb. cbn iota.
    rewrite (climb_spec s fs _ _ Hz); [done| |done].
    assert (at_pos (ctx_addrs fs ++ inorder (T c l x E)) s s fs (T c l x E)) as Hat by done.
    apply at_depth in Hat. unfold loop_fuel. lia.
  - rewrite eqb_ne_false by (simpl in Hr; apply Hr). simpl negb. cbn iota.
    destruct (leftmost_spec s x (T cr lr xr rr) (loop_fuel s) Hr)
      as (gs & c' & y & r' & Heq & Hp & Hlm); [done| |].
    { apply repz_height in Hz. simpl in Hz. unfold loop_fuel. simpl. lia. }
    cbn [ptr] in Hlm. rewrite Hlm, Heq, inorder_plug, Hp. done.
Qed.
