(* ===== verification/OrdTree.v ===== *)
(** * The ordered-tree interface

    What the scheduler needs of a search tree: an intrusive, order-preserving
    container whose nodes live in caller-provided cells, several trees sharing
    one heap of cells.  [OrdTree] lists the operations, [OrdTreeLaws] what they
    promise about the in-order sequence each root represents and about the
    trees they do not touch.  The scheduler is proved against these classes and
    the red-black tree discharges them. *)

From stdpp Require Import base gmap list.
From Stdlib Require Import ZArith Lia Sorted.
From S2P Require Import Prelude RbTree RbRep RbTreeProof RbErase.

(** ** Comparison functions *)

(** A C comparison function that is a total preorder. *)
Class Comparator (cmp : Z -> Z -> Z) : Prop := {
  cmp_asym x y : cmp x y < 0 -> 0 <= cmp y x;
  cmp_lt_le x y z : cmp x y < 0 -> 0 <= cmp z y -> cmp x z < 0;
  cmp_le_trans x y z : 0 <= cmp y x -> 0 <= cmp z y -> 0 <= cmp z x;
}.

(** No element is below an earlier one. *)
Definition ordered (cmp : Z -> Z -> Z) (l : list Z) : Prop :=
  StronglySorted (fun a b => 0 <= cmp b a) l.

Lemma ordered_app cmp l1 l2 :
  ordered cmp (l1 ++ l2) <->
  ordered cmp l1 /\ ordered cmp l2 /\ (forall a b, a ∈ l1 -> b ∈ l2 -> 0 <= cmp b a).
Proof.
  unfold ordered. induction l1 as [|x l1 IH]; simpl.
  - split; [intros H; split_and!; [constructor|done|set_solver]|by intros (_ & ? & _)].
  - split.
    + intros H. apply StronglySorted_inv in H as [H Hx]. apply IH in H as (H1 & H2 & H3).
      apply Forall_app in Hx as [Hx1 Hx2]. split_and!; [by constructor|done|].
      rewrite Forall_forall in Hx2. intros a b. rewrite elem_of_cons. naive_solver.
    + intros (H1 & H2 & H3). apply StronglySorted_inv in H1 as [H1 Hx]. constructor.
      * apply IH. split_and!; [done|done|]. intros; apply H3; set_solver.
      * apply Forall_app. split; [done|]. apply Forall_forall. intros; apply H3; set_solver.
Qed.

Lemma ordered_splits cmp `{!Comparator cmp} node l :
  ordered cmp l ->
  exists l1 l2, l = l1 ++ l2 /\ splits cmp node l1 l2 /\ ordered cmp (l1 ++ node :: l2).
Proof.
  induction l as [|x l IH]; intros H.
  - exists [], []. split_and!; try done; repeat constructor.
  - apply StronglySorted_inv in H as [H Hx].
    destruct (Z.ltb_spec (cmp node x) 0) as [Hlt|Hge].
    + exists [], (x :: l). split; [done|].
      assert (Forall (fun y => cmp node y < 0) (x :: l)) as Hall.
      { constructor; [done|]. eapply Forall_impl; [exact Hx|]. intros y Hy. simpl in Hy.
        by eapply cmp_lt_le. }
      split; [by split|]. simpl. constructor; [by constructor|].
      eapply Forall_impl; [exact Hall|]. intros y Hy. by apply cmp_asym.
    + destruct (IH H) as (l1 & l2 & -> & [Hs1 Hs2] & Ho). exists (x :: l1), l2.
      split; [done|]. split; [split; [by constructor|done]|]. simpl. constructor; [done|].
      apply Forall_app in Hx as [Hx1 Hx2]. apply Forall_app. split; [done|]. by constructor.
Qed.

Lemma ordered_remove cmp l1 x l2 : ordered cmp (l1 ++ x :: l2) -> ordered cmp (l1 ++ l2).
Proof.
  rewrite !ordered_app. intros (H1 & H2 & H3). apply StronglySorted_inv in H2 as [H2 _].
  split_and!; [done|done|]. intros; apply H3; set_solver.
Qed.

(** ** The interface *)

Class OrdTree (H : Type) := {
  ot_insert : (Z -> Z -> Z) -> H -> Z -> Z -> option (H * Z);
  ot_erase : H -> Z -> Z -> option (H * Z);
  ot_first : H -> Z -> option Z;
  ot_next : H -> Z -> option Z;
  ot_last : H -> Z -> option Z;
  ot_new : H -> Z -> H;
  ot_drop : H -> Z -> H;
  ot_addr : Z -> Prop;
  ot_cell : H -> Z -> Prop;
  ot_rep : H -> Z -> list Z -> Prop;
}.

(** [ot_frame L h h']: going from [h] to [h'] only the trees over nodes of [L]
    may have changed. *)
Definition ot_frame `{OrdTree H} (L : list Z) (h h' : H) : Prop :=
  (forall a, ot_cell h' a <-> ot_cell h a) /\
  (forall r l, ot_rep h r l -> disj l L -> ot_rep h' r l).

Class OrdTreeLaws (H : Type) `{OrdTree H} : Prop := {
  ot_rep_empty h : ot_rep h 0 [];
  ot_rep_nodup h r l : ot_rep h r l -> NoDup l;
  ot_rep_cell h r l a : ot_rep h r l -> a ∈ l -> ot_cell h a /\ ot_addr a /\ a <> 0;
  ot_insert_law cmp h r l1 l2 n :
    ot_rep h r (l1 ++ l2) -> splits cmp n l1 l2 -> ot_addr n -> ot_cell h n ->
    n ∉ l1 ++ l2 ->
    exists h' r', ot_insert cmp h r n = Some (h', r') /\
      ot_rep h' r' (l1 ++ n :: l2) /\ ot_frame (l1 ++ n :: l2) h h';
  ot_erase_law h r l1 n l2 :
    ot_rep h r (l1 ++ n :: l2) ->
    exists h' r', ot_erase h r n = Some (h', r') /\
      ot_rep h' r' (l1 ++ l2) /\ ot_frame (l1 ++ l2) h h';
  ot_first_law h r l : ot_rep h r l -> ot_first h r = Some (hd 0 l);
  ot_next_law h r l1 n l2 : ot_rep h r (l1 ++ n :: l2) -> ot_next h n = Some (hd 0 l2);
  ot_last_law h r l : ot_rep h r l -> ot_last h r = Some (List.last l 0);
  ot_new_cell h n a : ot_cell (ot_new h n) a <-> a = n \/ ot_cell h a;
  ot_new_law h n r l : ot_rep h r l -> n ∉ l -> ot_rep (ot_new h n) r l;
  ot_drop_cell h n a : ot_cell (ot_drop h n) a <-> a <> n /\ ot_cell h a;
  ot_drop_law h n r l : ot_rep h r l -> n ∉ l -> ot_rep (ot_drop h n) r l;
}.

(** ** The red-black tree is an ordered tree *)

(** [n = root; while (n && n->right) n = n->right;] (kern/sched.c) *)
Fixpoint rightmost (fuel : nat) (s : rb_state) (n : Z) : option Z :=
  match fuel with
  | O => None
  | S fuel =>
      if n =? 0 then Some 0 else
      nn ← load s n;
      if rb_right nn =? 0 then Some n else rightmost fuel s (rb_right nn)
  end.

Definition rb_last (s : rb_state) : option Z := rightmost (loop_fuel s) s (rb_root s).

Definition rb_pair (o : option rb_state) : option (gmap Z rb_node * Z) :=
  s ← o; Some (rb_heap s, rb_root s).

#[export] Instance rb_ord_tree : OrdTree (gmap Z rb_node) := {
  ot_insert cmp h r n := rb_pair (rb_insert cmp (RbState h r) n);
  ot_erase h r n := rb_pair (rb_erase (RbState h r) n);
  ot_first h r := rb_first (RbState h r);
  ot_next h n := rb_next (RbState h 0) n;
  ot_last h r := rb_last (RbState h r);
  ot_new h n := <[n := RbNode 0 0 0]> h;
  ot_drop h n := delete n h;
  ot_addr := addr_ok;
  ot_cell h a := is_Some (h !! a);
  ot_rep h r l := rbt (RbState h r) l;
}.

Lemma rbt_ext s s' l :
  rbt s l -> rb_root s' = rb_root s ->
  (forall a, a ∈ l -> rb_heap s' !! a = rb_heap s !! a) -> rbt s' l.
Proof.
  intros (t & n & (Hc & Hr & Hroot & Hnd) & HR & <-) Hr' Hext. exists t, n. split; [|done].
  split; [done|]. split; [|split; [by rewrite Hr'|done]].
  eapply rep_ext; [|exact Hr]. done.
Qed.

Lemma rbt_cell s l a : rbt s l -> a ∈ l -> is_Some (rb_heap s !! a) /\ addr_ok a.
Proof.
  intros (t & n & (_ & Hr & _ & _) & _ & <-). simpl in Hr. revert Hr. generalize 0.
  induction t as [|c l IHl x r IHr]; simpl; [set_solver|].
  intros p (Hx & Hn & Hl & Hr). rewrite elem_of_app, elem_of_cons.
  intros [?|[->|?]]; eauto.
Qed.

Lemma rbt_nodup s l : rbt s l -> NoDup l.
Proof. intros (t & n & (_ & _ & _ & Hnd) & _ & <-). exact Hnd. Qed.

Lemma last_app_cons (l k : list Z) x : List.last (l ++ x :: k) 0 = List.last (x :: k) 0.
Proof. induction l as [|a l IH]; [done|]. simpl app. rewrite <- IH. by destruct l. Qed.

Lemma rb_last_spec s l : rbt s l -> rb_last s = Some (List.last l 0).
Proof.
  intros (t & n & Hz & _ & <-). pose proof (repz_height _ _ _ Hz) as Hh.
  destruct (Hz) as (_ & Hr & Hroot & _). unfold rb_last. simpl in Hroot. rewrite Hroot.
  assert (Hf : (height t < loop_fuel s)%nat) by (unfold loop_fuel; lia).
  revert Hf Hr. clear. generalize (loop_fuel s), (hole_par []).
  intros fuel. revert fuel. induction t as [|c l IHl x r IHr]; intros fuel p Hf Hr;
    (destruct fuel as [|fuel]; [simpl in Hf; lia|]); [done|].
  cbn [ptr rightmost inorder]. simpl in Hr, Hf. destruct Hr as ([Hx _] & Hn & _ & Hr).
  rewrite eqb_ne_false by done. unfold load. rewrite Hn. cbn [mbind option_bind rb_right].
  destruct r as [|cr lr xr rr].
  - simpl. by rewrite last_last.
  - rewrite eqb_ne_false by (simpl in Hr; apply Hr).
    rewrite (IHr _ x) by (try done; lia).
    f_equal. simpl inorder. rewrite (last_app_cons (inorder l)).
    by rewrite app_comm_cons, !last_app_cons.
Qed.

(** rb_next reads no root word. *)
Lemma rb_next_root h r r' n : rb_next (RbState h r) n = rb_next (RbState h r') n.
Proof.
  unfold rb_next. apply bind_cong. intros nn. change (loop_fuel (RbState h r'))
    with (loop_fuel (RbState h r)). generalize (loop_fuel (RbState h r)). intros fuel.
  destruct (negb _).
  - generalize (rb_right nn). induction fuel as [|fuel IH]; intros y; simpl; [done|].
    apply bind_cong. intros ny. by rewrite IH.
  - generalize n, (rb_parent nn). induction fuel as [|fuel IH]; intros m p; simpl; [done|].
    destruct (p =? 0); [done|]. apply bind_cong. intros np. by rewrite IH.
Qed.

Lemma rbt_frame h h' r' l L :
  rbt (RbState h' r') l -> same_off l h h' ->
  (forall a, a ∈ l -> is_Some (h !! a)) -> l ⊆ L -> ot_frame L h h'.
Proof.
  intros Hr Ho Hc HL. split.
  - intros a. simpl. destruct (decide (a ∈ l)) as [Ha|Ha]; [|by rewrite Ho].
    pose proof (proj1 (rbt_cell _ _ _ Hr Ha)). split; auto.
  - intros r k Hk Hd. simpl in *. eapply rbt_ext; [exact Hk|done|]. simpl.
    intros a Ha. apply Ho. intros Hin. eapply Hd; [exact Ha|]. by apply HL.
Qed.

#[export] Instance rb_ord_tree_laws : OrdTreeLaws (gmap Z rb_node).
Proof.
  split; simpl.
  - intros h. exists E, 0%nat. split; [|split; [constructor|done]].
    by split_and!; try done; constructor.
  - intros h r l. apply rbt_nodup.
  - intros h r l a Hr Ha. destruct (rbt_cell _ _ _ Hr Ha) as [? ?].
    split_and!; [done|done|]. by destruct H0.
  - intros cmp h r l1 l2 n Hr Hs Ha [nn Hn] Hin.
    destruct (rb_insert_spec _ _ _ _ _ _ Hr Hs Ha Hin Hn) as (s' & Hs' & Hr' & Ho).
    rewrite Hs'. exists (rb_heap s'), (rb_root s'). split; [done|]. destruct s' as [h' r'].
    split; [done|]. eapply rbt_frame; [done|done| |done].
    intros a. rewrite elem_of_app, elem_of_cons. intros [?|[->|?]]; [|by eexists|].
    all: eapply (rbt_cell (RbState h r)); [exact Hr|set_solver].
  - intros h r l1 n l2 Hr. destruct (rb_erase_spec _ _ _ _ Hr) as (s' & Hs' & Hr' & Ho).
    rewrite Hs'. exists (rb_heap s'), (rb_root s'). split; [done|]. destruct s' as [h' r'].
    split; [done|]. eapply rbt_frame; [done|done| |done].
    intros a Ha. eapply (rbt_cell (RbState h r)); [exact Hr|]. set_solver.
  - intros h r l. apply rb_first_spec.
  - intros h r l1 n l2 Hr. rewrite (rb_next_root h 0 r). by eapply rb_next_spec.
  - intros h r l. apply rb_last_spec.
  - intros h n a. destruct (decide (a = n)) as [->|Hne].
    + rewrite lookup_insert_eq. naive_solver.
    + rewrite lookup_insert_ne by done. naive_solver.
  - intros h n r l Hr Hn. eapply rbt_ext; [exact Hr|done|]. simpl. intros a Ha.
    apply lookup_insert_ne. by intros <-.
  - intros h n a. destruct (decide (a = n)) as [->|Hne].
    + rewrite lookup_delete_eq. split; [by intros [? ?]|naive_solver].
    + rewrite lookup_delete_ne by done. naive_solver.
  - intros h n r l Hr Hn. eapply rbt_ext; [exact Hr|done|]. simpl. intros a Ha.
    apply lookup_delete_ne. by intros <-.
Qed.
