(* ===== verification/RbTreeProps.v ===== *)
(** * What the red-black tree guarantees

    The specifications of the exported operations of kern/rbtree.c, stated for
    an arbitrary comparison function that is a total preorder: insertion and
    erasure never fault, keep the red-black shape and the order of the
    in-order sequence and touch no cell outside the tree; the
    rb_first / rb_next loop visits the nodes once each in order; the search
    path is logarithmic. *)

From stdpp Require Import base gmap list.
From Stdlib Require Import ZArith Lia Sorted.
From S2P Require Import Prelude RbTree RbRep RbTreeProof RbErase OrdTree.

(** The loop [for (n = rb_first(root); n; n = rb_next(n))], collecting the
    nodes it visits. *)
Fixpoint rb_walk_from (fuel : nat) (s : rb_state) (n : Z) : option (list Z) :=
  match fuel with
  | O => None
  | S fuel =>
      if n =? 0 then Some [] else
      n' ← rb_next s n;
      l ← rb_walk_from fuel s n';
      Some (n :: l)
  end.

Definition rb_walk (s : rb_state) : option (list Z) :=
  n ← rb_first s; rb_walk_from (S (size (rb_heap s))) s n.

Lemma rb_walk_from_spec s fuel l1 l2 :
  rbt s (l1 ++ l2) -> (length l2 < fuel)%nat ->
  rb_walk_from fuel s (hd 0 l2) = Some l2.
Proof.
  revert l1 l2. induction fuel as [|fuel IH]; intros l1 l2 Hr Hf; [lia|].
  destruct l2 as [|x l2]; [done|]. cbn [hd rb_walk_from].
  destruct (rbt_cell _ _ x Hr) as [_ [Hx _]]; [set_solver|].
  rewrite eqb_ne_false, (rb_next_spec _ _ _ _ Hr) by done. cbn [mbind option_bind].
  rewrite (IH (l1 ++ [x]) l2); [done| |simpl in Hf; lia]. by rewrite <- app_assoc.
Qed.

Lemma rbt_size s l : rbt s l -> (length l <= size (rb_heap s))%nat.
Proof. intros (t & n & Hz & _ & <-). by apply repz_size in Hz. Qed.

(** Black height against size, and height against black height. *)
Lemma RB_size t c n : RB t c n -> (2 ^ n <= S (length (inorder t)))%nat.
Proof.
  induction 1; simpl; rewrite ?length_app; simpl; lia.
Qed.

Lemma RB_height t c n : RB t c n -> (height t <= 2 * n + if c then 0 else 1)%nat.
Proof. induction 1 as [|? ? ? [] [] ? ? ? ? ?|]; simpl in *; lia. Qed.

Lemma rb_path_length s fs t n k :
  repz s fs t -> RB t true n -> (S (length (inorder t)) * S (length (inorder t)) < 2 ^ k)%nat ->
  (height t < k)%nat.
Proof.
  intros _ HR Hk. pose proof (RB_size _ _ _ HR) as Hs. pose proof (RB_height _ _ _ HR) as Hh.
  simpl in Hh. assert (2 ^ (n + n) < 2 ^ k)%nat as Hlt.
  { rewrite Nat.pow_add_r. eapply Nat.le_lt_trans; [|exact Hk]. by apply Nat.mul_le_mono. }
  apply Nat.pow_lt_mono_r_iff in Hlt; lia.
Qed.

(** C1. rb_insert on a tree that holds [l] in comparison order, given a fresh
    node at an even address, does not fault, and leaves a red-black tree that
    holds [l] and the node in comparison order; no cell outside the tree and
    the node is written. *)
Theorem rb_insert_correct cmp `{!Comparator cmp} s node l :
  rbt s l -> ordered cmp l -> addr_ok node -> node ∉ l -> is_Some (rb_heap s !! node) ->
  exists s' l', rb_insert cmp s node = Some s' /\ rbt s' l' /\ ordered cmp l' /\
    l' ≡ₚ node :: l /\ same_off (node :: l) (rb_heap s) (rb_heap s').
Proof.
  intros Hr Ho Ha Hin [n Hn].
  destruct (ordered_splits cmp node l Ho) as (l1 & l2 & -> & Hs & Ho').
  destruct (rb_insert_spec _ _ _ _ _ _ Hr Hs Ha Hin Hn) as (s' & Hs' & Hr' & Hoff).
  exists s', (l1 ++ node :: l2). split_and!; try done; [by rewrite Permutation_middle|].
  by rewrite Permutation_middle.
Qed.

(** C2. rb_erase of a node the tree holds does not fault, leaves a red-black
    tree that holds the other nodes in the same sequence, and writes no cell
    outside the remaining tree: the erased node itself keeps its contents. *)
Theorem rb_erase_correct s l z :
  rbt s l -> z ∈ l ->
  exists s' l1 l2, l = l1 ++ z :: l2 /\ rb_erase s z = Some s' /\ rbt s' (l1 ++ l2) /\
    same_off (l1 ++ l2) (rb_heap s) (rb_heap s').
Proof.
  intros Hr (l1 & l2 & ->)%list_elem_of_split.
  destruct (rb_erase_spec _ _ _ _ Hr) as (s' & Hs' & Hr' & Ho). by exists s', l1, l2.
Qed.

(** C36. The loop over rb_first and rb_next terminates and visits every node of
    the tree exactly once, in the in-order sequence. *)
Theorem rb_walk_correct s l : rbt s l -> rb_walk s = Some l.
Proof.
  intros Hr. unfold rb_walk. rewrite (rb_first_spec _ _ Hr). cbn [mbind option_bind].
  apply (rb_walk_from_spec s _ [] l Hr). apply rbt_size in Hr. lia.
Qed.

(** C37. The search loop of rb_insert is logarithmic: [k] iterations are enough
    on a tree of [m] nodes as soon as [(m+1)^2 < 2^k]. *)
Theorem rb_insert_descend_log cmp s node l k :
  rbt s l -> (S (length l) * S (length l) < 2 ^ k)%nat ->
  is_Some (insert_descend k s cmp node LRoot 0).
Proof.
  intros (t & n & Hz & HR & <-) Hk.
  pose proof (rb_path_length _ _ _ _ _ Hz HR Hk) as Hh.
  pose proof (insert_descend_spec cmp node k s t [] Hz Hh) as Hd.
  cbn [link_of hole_par] in Hd. rewrite Hd. by eexists.
Qed.

(** ** Witnesses *)

(** The tree with the single node 32, and a free cell at 16. *)
Definition wit_state : rb_state :=
  RbState (<[32 := RbNode 1 0 0]> (<[16 := RbNode 7 7 7]> ∅)) 32.

Lemma wit_rbt : rbt wit_state [32].
Proof.
  exists (T true E 32 E), 1%nat. split; [|split; [|done]].
  - split; [done|]. split; [|split; [done|apply NoDup_singleton]].
    split; [done|]. by split.
  - apply (RB_black E 32 E true true 0); constructor.
Qed.

#[export] Instance wit_cmp : Comparator Z.sub.
Proof. split; intros; lia. Qed.

Lemma rb_insert_correct_witness :
  exists s' l', rb_insert Z.sub wit_state 16 = Some s' /\ rbt s' l' /\ ordered Z.sub l' /\
    l' ≡ₚ 16 :: [32] /\ same_off (16 :: [32]) (rb_heap wit_state) (rb_heap s').
Proof.
  apply (rb_insert_correct Z.sub wit_state 16 [32] wit_rbt).
  - repeat constructor.
  - by split.
  - set_solver.
  - vm_compute. by eexists.
Defined.

Lemma rb_erase_correct_witness :
  exists s' l1 l2, [32] = l1 ++ 32 :: l2 /\ rb_erase wit_state 32 = Some s' /\
    rbt s' (l1 ++ l2) /\ same_off (l1 ++ l2) (rb_heap wit_state) (rb_heap s').
Proof. apply (rb_erase_correct wit_state [32] 32 wit_rbt). set_solver. Defined.

Lemma rb_walk_correct_witness : rb_walk wit_state = Some [32].
Proof. exact (rb_walk_correct wit_state [32] wit_rbt). Defined.

Lemma rb_insert_descend_log_witness :
  is_Some (insert_descend 3 wit_state Z.sub 16 LRoot 0).
Proof. apply (rb_insert_descend_log Z.sub wit_state 16 [32] 3 wit_rbt). simpl. lia. Defined.
