(* ===== verification/Spinlock.v ===== *)
(** * The ticket spinlock (inc/spinlock.h)

    The lock is a union of one 32-bit word and two 16-bit counters.  The
    functions of the header are modelled twice: as functions on the lock word
    for code that runs alone, where a lock that is taken spins for ever
    ([None]); and as a step relation of any number of CPUs, each of which is
    inside one of the functions, one memory access per step.  The step relation
    is shown to refine a FIFO queue lock, which gives mutual exclusion. *)

From stdpp Require Import base gmap list.
From Stdlib Require Import ZArith Lia.
From S2P Require Import Prelude.

Record spinlock := Spinlock { now_serving : Z; next_ticket : Z }.

#[export] Instance spinlock_eq_dec : EqDecision spinlock.
Proof. solve_decision. Defined.

(** The [raw] view of the union, little endian. *)
Definition lock_raw (l : spinlock) : Z := now_serving l + 65536 * next_ticket l.

Definition spinlock_init : spinlock := Spinlock 0 0.

(** [lock xaddw]: the old value of next_ticket, and the lock with it bumped. *)
Definition take_ticket (l : spinlock) : Z * spinlock :=
  (next_ticket l, Spinlock (now_serving l) (u16 (next_ticket l + 1))).

Definition spin_unlock (l : spinlock) : spinlock :=
  Spinlock (u16 (now_serving l + 1)) (next_ticket l).

(** The compare-and-swap of spin_trylock on the word [l], for the value [old]
    that was read before it. *)
Definition trylock_cas (old l : spinlock) : bool * spinlock :=
  let new_val := Spinlock (now_serving old) (u16 (next_ticket old + 1)) in
  if lock_raw l =? lock_raw old then (true, new_val) else (false, l).

(** Run by one CPU alone. *)
Definition spin_lock (l : spinlock) : option spinlock :=
  let '(ticket, l) := take_ticket l in
  if now_serving l =? ticket then Some l else None.

Definition spin_trylock (l : spinlock) : bool * spinlock :=
  let old := l in
  if negb (now_serving old =? next_ticket old) then (false, l) else trylock_cas old l.

(** With the processor's interrupt flag: the lock, the new flag and the saved
    one. *)
Definition spin_lock_irqsave (l : spinlock) (intr : bool) : option (spinlock * bool * bool) :=
  l ← spin_lock l; Some (l, false, intr).

Definition spin_unlock_irqrestore (l : spinlock) (flags : bool) : spinlock * bool :=
  (spin_unlock l, flags).

Definition spin_is_locked (l : spinlock) : bool := negb (now_serving l =? next_ticket l).

Definition lock_ok (l : spinlock) : Prop :=
  0 <= now_serving l < 65536 /\ 0 <= next_ticket l < 65536.

Definition lock_free (l : spinlock) : Prop := lock_ok l /\ now_serving l = next_ticket l.

(** ** Several CPUs *)

Inductive pc :=
| PIdle                        (* outside the lock functions *)
| PWait (ticket : Z)           (* spin_lock: spinning on now_serving *)
| PTry (old : spinlock)        (* spin_trylock: raw has been read *)
| PHold.                       (* the lock is held *)

Record config := Config { c_lock : spinlock; c_pc : list pc }.

(** What a step shows outside: a CPU draws a ticket, finds its ticket served,
    releases the lock, or takes it by spin_trylock; the other accesses are
    silent. *)
Inductive event :=
| ETicket (i : nat)
| EEnter (i : nat)
| ERelease (i : nat)
| ETry (i : nat).

Inductive lstep : config -> option event -> config -> Prop :=
| StepTake l ps i ticket l' :
    ps !! i = Some PIdle -> take_ticket l = (ticket, l') ->
    lstep (Config l ps) (Some (ETicket i)) (Config l' (<[i := PWait ticket]> ps))
| StepSpin l ps i ticket :
    ps !! i = Some (PWait ticket) -> now_serving l <> ticket ->
    lstep (Config l ps) None (Config l ps)
| StepEnter l ps i ticket :
    ps !! i = Some (PWait ticket) -> now_serving l = ticket ->
    lstep (Config l ps) (Some (EEnter i)) (Config l (<[i := PHold]> ps))
| StepUnlock l ps i :
    ps !! i = Some PHold ->
    lstep (Config l ps) (Some (ERelease i)) (Config (spin_unlock l) (<[i := PIdle]> ps))
| StepTryRead l ps i :
    ps !! i = Some PIdle ->
    lstep (Config l ps) None (Config l (<[i := PTry l]> ps))
| StepTryBusy l ps i old :
    ps !! i = Some (PTry old) -> now_serving old <> next_ticket old ->
    lstep (Config l ps) None (Config l (<[i := PIdle]> ps))
| StepTryCas l ps i old b l' :
    ps !! i = Some (PTry old) -> now_serving old = next_ticket old ->
    trylock_cas old l = (b, l') ->
    lstep (Config l ps) (if b then Some (ETry i) else None)
      (Config l' (<[i := if b then PHold else PIdle]> ps)).

(** A step, whatever it shows. *)
Definition step (c c' : config) : Prop := exists e, lstep c e c'.

(** The runs, with the events they show in order. *)
Inductive lrun : config -> list event -> config -> Prop :=
| lrun_nil c : lrun c [] c
| lrun_snoc c tr c' e c'' :
    lrun c tr c' -> lstep c' e c'' -> lrun c (tr ++ option_list e) c''.

(** ** The abstract lock: a FIFO queue of CPUs, whose head may hold the lock *)

Record queue_lock := QueueLock { q_cpus : list nat; q_held : bool }.

(** What the abstract lock does on an event; [None] is an event that a FIFO
    lock does not allow. *)
Definition queue_event (q : queue_lock) (e : event) : option queue_lock :=
  match e with
  | ETicket i =>
      if decide (i ∈ q_cpus q) then None else Some (QueueLock (q_cpus q ++ [i]) (q_held q))
  | EEnter i =>
      if decide (head (q_cpus q) = Some i) then
        if q_held q then None else Some (QueueLock (q_cpus q) true)
      else None
  | ERelease i =>
      if decide (head (q_cpus q) = Some i) then
        if q_held q then Some (QueueLock (tail (q_cpus q)) false) else None
      else None
  | ETry i => match q_cpus q with [] => Some (QueueLock [i] true) | _ => None end
  end.

Definition queue_run (q : queue_lock) (tr : list event) : option queue_lock :=
  foldl (fun q e => q ← q; queue_event q e) (Some q) tr.

(** The CPUs that have asked for the lock, and those that have been given it,
    in order. *)
Definition asked (tr : list event) : list nat :=
  omap (fun e => match e with ETicket i | ETry i => Some i | _ => None end) tr.

Definition granted (tr : list event) : list nat :=
  omap (fun e => match e with EEnter i | ETry i => Some i | _ => None end) tr.

(** The CPUs of the queue that do not hold the lock. *)
Definition waiting (q : queue_lock) : list nat :=
  if q_held q then tail (q_cpus q) else q_cpus q.

(** The program counter of the CPU at position [k] of the queue. *)
Definition queued_pc (l : spinlock) (h : bool) (k : nat) : pc :=
  match k with
  | O => if h then PHold else PWait (now_serving l)
  | _ => PWait (u16 (now_serving l + Z.of_nat k))
  end.

Definition outside (p : pc) : Prop :=
  match p with PIdle => True | PTry old => lock_ok old | _ => False end.

Record lock_rel (c : config) (q : queue_lock) : Prop := {
  lr_ok : lock_ok (c_lock c);
  lr_few : Z.of_nat (length (c_pc c)) < 65536;
  lr_nodup : NoDup (q_cpus q);
  lr_next : next_ticket (c_lock c) = u16 (now_serving (c_lock c) + Z.of_nat (length (q_cpus q)));
  lr_queued k i : q_cpus q !! k = Some i -> c_pc c !! i = Some (queued_pc (c_lock c) (q_held q) k);
  lr_outside i p : c_pc c !! i = Some p -> i ∉ q_cpus q -> outside p;
  lr_empty : q_cpus q = [] -> q_held q = false;
}.

Lemma u16_range a : 0 <= u16 a < 65536.
Proof. unfold u16. apply Z.mod_pos_bound. lia. Qed.

Lemma u16_small a : 0 <= a < 65536 -> u16 a = a.
Proof. intros. unfold u16. by apply Z.mod_small. Qed.

(** Fewer than 2^16 tickets are out, so the current one is not given twice. *)
Lemma ticket_now a k :
  0 <= a < 65536 -> Z.of_nat k < 65536 -> a = u16 (a + Z.of_nat k) -> k = 0%nat.
Proof. unfold u16. intros Ha Hk H. zlia. Qed.

Lemma u16_succ a b : u16 (u16 a + b) = u16 (a + b).
Proof. unfold u16. apply Z.add_mod_idemp_l. lia. Qed.

(** The queue holds distinct CPU numbers, so it is shorter than 2^16. *)
Lemma queue_short c q : lock_rel c q -> Z.of_nat (length (q_cpus q)) < 65536.
Proof.
  intros H. pose proof (lr_few _ _ H). assert (length (q_cpus q) <= length (c_pc c))%nat; [|lia].
  transitivity (length (seq 0 (length (c_pc c)))); [|by rewrite length_seq].
  apply submseteq_length, NoDup_submseteq; [apply (lr_nodup _ _ H)|].
  intros i [k Hk]%list_elem_of_lookup. apply (lr_queued _ _ H) in Hk.
  apply elem_of_seq. apply lookup_lt_Some in Hk. lia.
Qed.

Lemma lock_ok_unlock l : lock_ok l -> lock_ok (spin_unlock l).
Proof. intros [_ ?]. split; [apply u16_range|done]. Qed.

Lemma raw_inj l l' : lock_ok l -> lock_ok l' -> lock_raw l = lock_raw l' -> l = l'.
Proof.
  destruct l as [a b], l' as [a' b']. unfold lock_ok, lock_raw. simpl.
  intros [? ?] [? ?] ?. f_equal; lia.
Qed.

Lemma queued_not_outside l h k : ~ outside (queued_pc l h k).
Proof. destruct k; [destruct h|]; simpl; tauto. Qed.

(** A CPU inside the queue is where its program counter says. *)
Lemma in_queue c q i p :
  lock_rel c q -> c_pc c !! i = Some p -> ~ outside p ->
  exists k, q_cpus q !! k = Some i /\ p = queued_pc (c_lock c) (q_held q) k /\
    Z.of_nat k < 65536.
Proof.
  intros H Hi Hp. destruct (decide (i ∈ q_cpus q)) as [Hin|Hin].
  - apply list_elem_of_lookup in Hin as [k Hk]. exists k. split; [done|].
    pose proof (lr_queued _ _ H _ _ Hk). split; [congruence|].
    apply lookup_lt_Some in Hk. pose proof (queue_short _ _ H). lia.
  - by destruct (Hp (lr_outside _ _ H _ _ Hi Hin)).
Qed.

Lemma not_in_queue c q i p :
  lock_rel c q -> c_pc c !! i = Some p -> outside p -> i ∉ q_cpus q.
Proof.
  intros H Hi Hp [k Hk]%list_elem_of_lookup. apply (lr_queued _ _ H) in Hk.
  rewrite Hi in Hk. injection Hk as ->. by eapply queued_not_outside.
Qed.

(** The CPU that may enter, or that holds the lock, is the head of the queue. *)
Lemma at_head c q i p :
  lock_rel c q -> c_pc c !! i = Some p -> p = PHold \/ p = PWait (now_serving (c_lock c)) ->
  exists q', q_cpus q = i :: q' /\ (p = PHold <-> q_held q = true).
Proof.
  intros H Hi Hp.
  destruct (in_queue _ _ _ _ H Hi) as (k & Hk & Heq & Hlt); [destruct Hp as [->| ->]; simpl; tauto|].
  destruct k as [|k].
  - destruct (q_cpus q) as [|j q'] eqn:Hq; simplify_eq/=. exists q'. split; [done|].
    destruct (q_held q); naive_solver.
  - exfalso. simpl in Heq. destruct Hp as [->| ->]; [done|]. injection Heq as Heq.
    apply ticket_now in Heq; [done|apply (lr_ok _ _ H)|lia].
Qed.

Lemma lock_rel_outside c q l i p p' :
  lock_rel c q -> c_pc c !! i = Some p -> outside p -> outside p' -> l = c_lock c ->
  lock_rel (Config l (<[i := p']> (c_pc c))) q.
Proof.
  intros H Hi Hp Hp' ->. pose proof (not_in_queue _ _ _ _ H Hi Hp) as Hin.
  destruct H as [Hok Hfew Hnd Hnext Hq Ho He]. split; simpl; try done.
  - by rewrite length_insert.
  - intros k j Hk. rewrite list_lookup_insert_ne; [by apply Hq|].
    intros ->. apply Hin. by eapply list_elem_of_lookup_2.
  - intros j p1. destruct (decide (i = j)) as [->|Hne].
    + rewrite list_lookup_insert_eq by (by eapply lookup_lt_Some). naive_solver.
    + rewrite list_lookup_insert_ne by done. apply Ho.
Qed.

Lemma rel_take l ps q i :
  lock_rel (Config l ps) q -> ps !! i = Some PIdle ->
  lock_rel (Config (take_ticket l).2 (<[i := PWait (next_ticket l)]> ps))
    (QueueLock (q_cpus q ++ [i]) (q_held q)).
Proof.
  intros H Hi. pose proof (not_in_queue _ _ _ _ H Hi I) as Hin.
  pose proof (lookup_lt_Some _ _ _ Hi) as Hlt.
  destruct H as [[Hok1 Hok2] Hfew Hnd Hnext Hq Ho He]; simpl in *. split; simpl.
  - split; [done|apply u16_range].
  - by rewrite length_insert.
  - apply NoDup_app. split_and!; [done| |apply NoDup_singleton]. set_solver.
  - rewrite Hnext, u16_succ, length_app. simpl. f_equal. lia.
  - intros k j [Hk|[Hge Hk]]%lookup_app_Some.
    + rewrite list_lookup_insert_ne; [by apply Hq|]. intros ->. apply Hin.
      by eapply list_elem_of_lookup_2.
    + apply list_lookup_singleton_Some in Hk as [Hk ->].
      rewrite list_lookup_insert_eq by done. rewrite Hnext.
      replace k with (length (q_cpus q)) by lia.
      destruct (q_cpus q) as [|j0 q0] eqn:Heq; simpl; [|done].
      rewrite He, Z.add_0_r, u16_small by done. done.
  - intros j p. destruct (decide (i = j)) as [->|Hne]; [set_solver|].
    rewrite list_lookup_insert_ne by done. intros Hp Hj. apply (Ho j p Hp). set_solver.
  - by intros [_ ?]%app_nil.
Qed.

Lemma rel_enter l ps q i :
  lock_rel (Config l ps) (QueueLock (i :: q) false) -> (i < length ps)%nat ->
  lock_rel (Config l (<[i := PHold]> ps)) (QueueLock (i :: q) true).
Proof.
  intros H Hlt. destruct H as [Hok Hfew Hnd Hnext Hq Ho He]; simpl in *. split; simpl; try done.
  - by rewrite length_insert.
  - intros [|k] j Hk; simplify_eq/=.
    + by rewrite list_lookup_insert_eq.
    + rewrite list_lookup_insert_ne; [apply (Hq (S k) j Hk)|]. intros ->.
      apply NoDup_cons in Hnd as [Hnd _]. apply Hnd. by eapply list_elem_of_lookup_2.
  - intros j p. destruct (decide (i = j)) as [->|Hne]; [set_solver|].
    rewrite list_lookup_insert_ne by done. apply Ho.
Qed.

Lemma rel_unlock l ps q i :
  lock_rel (Config l ps) (QueueLock (i :: q) true) -> (i < length ps)%nat ->
  lock_rel (Config (spin_unlock l) (<[i := PIdle]> ps)) (QueueLock q false).
Proof.
  intros H Hlt. destruct H as [Hok Hfew Hnd Hnext Hq Ho He]; simpl in *.
  apply NoDup_cons in Hnd as [Hni Hnd]. split; simpl; try done.
  - by apply lock_ok_unlock.
  - by rewrite length_insert.
  - rewrite Hnext, u16_succ. f_equal. lia.
  - intros k j Hk. rewrite list_lookup_insert_ne.
    + rewrite (Hq (S k) j Hk). simpl. do 2 f_equal. destruct k; simpl; [|f_equal].
      * f_equal.
      * rewrite u16_succ. f_equal. lia.
    + intros ->. apply Hni. by eapply list_elem_of_lookup_2.
  - intros j p. destruct (decide (i = j)) as [->|Hne].
    + rewrite list_lookup_insert_eq by done. intros [= <-] _. done.
    + rewrite list_lookup_insert_ne by done. intros Hp Hj. apply (Ho j p Hp). set_solver.
Qed.

Lemma rel_try l ps q i old :
  lock_rel (Config l ps) q -> ps !! i = Some (PTry old) ->
  now_serving old = next_ticket old -> lock_raw l = lock_raw old ->
  q = QueueLock [] false /\
  lock_rel (Config (Spinlock (now_serving old) (u16 (next_ticket old + 1))) (<[i := PHold]> ps))
    (QueueLock [i] true).
Proof.
  intros H Hi Heq Hraw. pose proof (queue_short _ _ H) as Hs.
  destruct (decide (i ∈ q_cpus q)) as [Hin|Hin].
  { apply list_elem_of_lookup in Hin as [k Hk]. apply (lr_queued _ _ H) in Hk.
    simpl in Hk. rewrite Hi in Hk. destruct k; [by destruct (q_held q)|done]. }
  assert (old = l) as ->.
  { symmetry. apply raw_inj; [apply H| |done]. apply (lr_outside _ _ H _ _ Hi Hin). }
  assert (q_cpus q = []) as Hq0.
  { pose proof (lr_next _ _ H) as Hn. simpl in Hn. rewrite <- Heq in Hn.
    apply ticket_now in Hn; [|apply (lr_ok _ _ H)|done]. by destruct (q_cpus q). }
  split; [destruct q as [qs h]; simpl in *; subst; f_equal; by apply (lr_empty _ _ H)|].
  pose proof (lookup_lt_Some _ _ _ Hi) as Hlt.
  destruct H as [[Hok1 Hok2] Hfew Hnd Hnext Hq Ho He]; simpl in *. split; simpl; try done.
  - split; [done|apply u16_range].
  - by rewrite length_insert.
  - apply NoDup_singleton.
  - rewrite Heq. f_equal.
  - intros k j [-> ->]%list_lookup_singleton_Some. by rewrite list_lookup_insert_eq.
  - intros j p. destruct (decide (i = j)) as [->|Hne]; [set_solver|].
    rewrite list_lookup_insert_ne by done. intros Hp _. apply (Ho j p Hp). rewrite Hq0. set_solver.
Qed.

(** The queue after the event of a step, if it shows one. *)
Definition queue_opt (q : queue_lock) (e : option event) : option queue_lock :=
  match e with Some e => queue_event q e | None => Some q end.

Lemma try_outside c q i old :
  lock_rel c q -> c_pc c !! i = Some (PTry old) -> outside (PTry old).
Proof.
  intros H Hi. destruct (decide (i ∈ q_cpus q)) as [Hin|Hin]; [|by apply (lr_outside _ _ H _ _ Hi)].
  apply list_elem_of_lookup in Hin as [k Hk]. apply (lr_queued _ _ H) in Hk.
  rewrite Hi in Hk. destruct k; [by destruct (q_held q)|done].
Qed.

Lemma lock_rel_step c e c' q :
  lock_rel c q -> lstep c e c' -> exists q', queue_opt q e = Some q' /\ lock_rel c' q'.
Proof.
  intros H Hs. destruct Hs as [l ps i ticket l' Hi Ht|l ps i ticket Hi Hn|l ps i ticket Hi Hn
    |l ps i Hi|l ps i Hi|l ps i old Hi Hn|l ps i old b l' Hi Hn Hc]; simpl.
  - injection Ht as <- <-. eexists. split; [|by apply rel_take].
    rewrite decide_False; [done|]. apply (not_in_queue _ _ _ _ H Hi I).
  - eauto.
  - destruct (at_head _ _ _ _ H Hi) as (q' & Hq & Hh); [right; by subst|].
    destruct q as [qs h]; simpl in *; subst. destruct h; [naive_solver|].
    rewrite decide_True by done. eexists. split; [done|].
    apply rel_enter; [done|]. by eapply lookup_lt_Some.
  - destruct (at_head _ _ _ _ H Hi) as (q' & Hq & Hh); [by left|].
    destruct q as [qs h]; simpl in *; subst. destruct h; [|naive_solver].
    rewrite decide_True by done. eexists. split; [done|].
    apply rel_unlock; [done|]. by eapply lookup_lt_Some.
  - exists q. split; [done|].
    apply (lock_rel_outside (Config l ps) q l i PIdle); try done. apply H.
  - exists q. split; [done|].
    apply (lock_rel_outside (Config l ps) q l i (PTry old)); try done.
    by apply (try_outside _ _ _ _ H Hi).
  - unfold trylock_cas in Hc. destruct (Z.eqb_spec (lock_raw l) (lock_raw old)) as [Hr|Hr];
      injection Hc as <- <-; simpl.
    + destruct (rel_try _ _ _ _ _ H Hi Hn Hr) as [-> Hrel]. eauto.
    + exists q. split; [done|].
      apply (lock_rel_outside (Config l ps) q l i (PTry old)); try done.
      by apply (try_outside _ _ _ _ H Hi).
Qed.

Lemma queue_run_snoc q tr e q1 q2 :
  queue_run q tr = Some q1 -> queue_opt q1 e = Some q2 ->
  queue_run q (tr ++ option_list e) = Some q2.
Proof.
  intros H1 H2. destruct e as [e|]; simpl in *; [|rewrite app_nil_r; congruence].
  unfold queue_run in *. by rewrite foldl_snoc, H1.
Qed.

(** Who has asked has been granted the lock or is waiting, in order. *)
Lemma queue_event_order q e q' :
  (q_cpus q = [] -> q_held q = false) -> queue_event q e = Some q' ->
  asked [e] = [] /\ granted [e] ++ waiting q' = waiting q \/
  waiting q' = waiting q ++ asked [e] /\ granted [e] = [] \/
  waiting q = [] /\ waiting q' = [] /\ granted [e] = asked [e].
Proof.
  destruct q as [qs h]. unfold waiting. intros He H.
  destruct e as [i|i|i|i]; simpl in *; repeat case_decide; simplify_eq/=.
  - right. left. split; [|done]. destruct h, qs; simpl; try done. by specialize (He eq_refl).
  - destruct h; simplify_eq/=. left. by destruct qs; simplify_eq/=.
  - destruct h; simplify_eq/=. by left.
  - destruct qs; simplify_eq/=. rewrite He by done. auto.
Qed.

(** [n] CPUs outside an initialised lock. *)
Definition init_config (n : nat) : config := Config spinlock_init (replicate n PIdle).

Lemma lock_rel_init n : Z.of_nat n < 65536 -> lock_rel (init_config n) (QueueLock [] false).
Proof.
  intros Hn. split; simpl; try done.
  - by rewrite length_replicate.
  - constructor.
  - intros i p Hp _. apply lookup_replicate in Hp as [-> _]. done.
Qed.

Lemma lock_rel_run n tr c :
  Z.of_nat n < 65536 -> lrun (init_config n) tr c ->
  exists q, queue_run (QueueLock [] false) tr = Some q /\ lock_rel c q /\
    asked tr = granted tr ++ waiting q.
Proof.
  intros Hn Hs. remember (init_config n) as c0 eqn:Hc0.
  induction Hs as [|c tr c' e c'' _ IH Hs]; subst.
  { exists (QueueLock [] false). split_and!; [done|by apply lock_rel_init|done]. }
  destruct (IH eq_refl) as (q & Hq & H & Ho).
  destruct (lock_rel_step _ _ _ _ H Hs) as (q' & Hq' & H'). exists q'.
  split_and!; [by eapply queue_run_snoc|done|].
  unfold asked, granted in *. rewrite !omap_app, Ho.
  destruct e as [e|]; simplify_eq/=; [|by rewrite !app_nil_r].
  destruct (queue_event_order q e q' (lr_empty _ _ H) Hq') as [[H1 H2]|[[H1 H2]|(H1 & H2 & H3)]];
    unfold asked, granted in *; simpl in *.
  - by rewrite H1, app_nil_r, <- H2, <- (assoc_L (++)).
  - by rewrite H2, H1, app_nil_r, (assoc_L (++)).
  - by rewrite H1, H2, H3, !app_nil_r.
Qed.

Lemma step_lrun c c' : rtc step c c' -> exists tr, lrun c tr c'.
Proof.
  revert c'. apply rtc_ind_r; [eexists; constructor|].
  intros c' c'' _ [e Hs] [tr IH]. eexists. by eapply lrun_snoc.
Qed.

Lemma lock_rel_reachable n c :
  Z.of_nat n < 65536 -> rtc step (init_config n) c -> exists q, lock_rel c q.
Proof.
  intros Hn [tr Hs]%step_lrun. destruct (lock_rel_run _ _ _ Hn Hs) as (q & _ & H & _). eauto.
Qed.

(** ** Run alone *)

Lemma spin_lock_free l : lock_free l -> exists l', spin_lock l = Some l' /\ lock_free (spin_unlock l').
Proof.
  intros [[Ho1 Ho2] Heq]. unfold spin_lock. simpl. rewrite (proj2 (Z.eqb_eq _ _) Heq).
  eexists. split; [reflexivity|]. unfold spin_unlock. simpl. split.
  - split; apply u16_range.
  - simpl. by rewrite Heq.
Qed.

Lemma spin_trylock_free l :
  lock_free l -> exists l', spin_trylock l = (true, l') /\ lock_free (spin_unlock l').
Proof.
  intros [[Ho1 Ho2] Heq]. unfold spin_trylock, trylock_cas. rewrite Z.eqb_refl.
  rewrite (proj2 (Z.eqb_eq _ _) Heq). simpl. eexists. split; [reflexivity|]. split.
  - split; apply u16_range.
  - simpl. by rewrite Heq.
Qed.

(** ** The properties *)

(** C5. The ticket lock implements a FIFO queue lock.  Of every run of fewer
    than 2^16 CPUs inside spin_lock, spin_unlock and spin_trylock, the sequence
    of events (a CPU draws its ticket, sees its ticket served, unlocks, takes
    the lock by trylock) is one the abstract lock accepts: a CPU that draws a
    ticket goes to the end of the queue, only the head enters and only when
    the lock is not held, only the holder leaves, and trylock succeeds on an
    empty queue alone.  At every point the CPUs that asked for the lock are, in
    the order they asked, those it was granted to and then those that wait; the
    CPU that holds it is the head of a held queue and the CPUs that spin are
    the waiting ones. *)
Theorem spinlock_refines_queue n tr c :
  Z.of_nat n < 65536 -> lrun (init_config n) tr c ->
  exists q, queue_run (QueueLock [] false) tr = Some q /\
    asked tr = granted tr ++ waiting q /\
    (forall i, c_pc c !! i = Some PHold <-> q_held q = true /\ head (q_cpus q) = Some i) /\
    (forall i, (exists t, c_pc c !! i = Some (PWait t)) <-> i ∈ waiting q).
Proof.
  intros Hn Hs. destruct (lock_rel_run _ _ _ Hn Hs) as (q & Hr & H & Ho). exists q.
  split; [done|]. split; [done|]. unfold waiting.
  split; intros i; split.
  - intros Hi. destruct (at_head _ _ _ _ H Hi (or_introl eq_refl)) as (q' & Hq & Hh).
    rewrite Hq. naive_solver.
  - intros [Hh Hd]. destruct (q_cpus q) as [|j q'] eqn:Hq; simplify_eq/=.
    pose proof (lr_queued _ _ H 0 i) as Hi. rewrite Hq, Hh in Hi. by apply Hi.
  - intros [t Ht]. destruct (in_queue _ _ _ _ H Ht) as (k & Hk & Heq & _); [simpl; tauto|].
    destruct k as [|k], (q_held q), (q_cpus q) as [|j q']; simplify_eq/=; try set_solver.
    + by eapply list_elem_of_lookup_2.
    + apply elem_of_cons. right. by eapply list_elem_of_lookup_2.
  - intros Hi. destruct (q_held q) eqn:Hh.
    + destruct (q_cpus q) as [|j q'] eqn:Hq; simpl in Hi; [set_solver|].
      apply list_elem_of_lookup in Hi as [k Hk].
      pose proof (lr_queued _ _ H (S k) i) as Hi. rewrite Hq in Hi. rewrite (Hi Hk). simpl. eauto.
    + apply list_elem_of_lookup in Hi as [k Hk].
      rewrite (lr_queued _ _ H _ _ Hk), Hh. destruct k; simpl; eauto.
Qed.

(** Mutual exclusion: with fewer than 2^16 CPUs, in every state reachable
    from an initialised lock at most one CPU holds it. *)
Theorem spinlock_mutual_exclusion n c i j :
  Z.of_nat n < 65536 -> rtc step (init_config n) c ->
  c_pc c !! i = Some PHold -> c_pc c !! j = Some PHold -> i = j.
Proof.
  intros Hn Hs Hi Hj. destruct (lock_rel_reachable _ _ Hn Hs) as [q H].
  destruct (at_head _ _ _ _ H Hi (or_introl eq_refl)) as (q1 & Hq1 & _).
  destruct (at_head _ _ _ _ H Hj (or_introl eq_refl)) as (q2 & Hq2 & _). congruence.
Qed.

(** C32. No deadlock: in every reachable state in which some CPU waits and none
    holds the lock, exactly one waiting CPU passes its next test of
    now_serving. *)
Theorem spinlock_progress n c i t :
  Z.of_nat n < 65536 -> rtc step (init_config n) c ->
  c_pc c !! i = Some (PWait t) -> (forall j, c_pc c !! j <> Some PHold) ->
  exists j, c_pc c !! j = Some (PWait (now_serving (c_lock c))) /\
    forall k, c_pc c !! k = Some (PWait (now_serving (c_lock c))) -> k = j.
Proof.
  intros Hn Hs Hi Hno. destruct (lock_rel_reachable _ _ Hn Hs) as [q H].
  destruct (in_queue _ _ _ _ H Hi) as (k & Hk & _ & _); [simpl; tauto|].
  destruct (q_cpus q) as [|j q'] eqn:Hq; [done|]. exists j.
  pose proof (lr_queued _ _ H 0%nat j) as Hj. rewrite Hq in Hj. specialize (Hj eq_refl).
  simpl in Hj. destruct (q_held q); [by destruct (Hno j)|]. split; [done|].
  intros k' Hk'. destruct (at_head _ _ _ _ H Hk' (or_intror eq_refl)) as (q2 & Hq2 & _). congruence.
Qed.

(** CPU 0 takes a ticket and enters while CPU 1 takes the next one. *)
Definition wit_held : config := Config (Spinlock 0 2) [PHold; PWait 1].

Lemma wit_held_run : lrun (init_config 2) [ETicket 0; ETicket 1; EEnter 0] wit_held.
Proof.
  apply (lrun_snoc _ [ETicket 0; ETicket 1] (Config (Spinlock 0 2) [PWait 0; PWait 1])
    (Some (EEnter 0))); [|by apply (StepEnter (Spinlock 0 2) [PWait 0; PWait 1] 0 0)].
  apply (lrun_snoc _ [ETicket 0] (Config (Spinlock 0 1) [PWait 0; PIdle]) (Some (ETicket 1)));
    [|by apply (StepTake (Spinlock 0 1) [PWait 0; PIdle] 1 1)].
  apply (lrun_snoc _ [] (init_config 2) (Some (ETicket 0))); [constructor|].
  by apply (StepTake spinlock_init [PIdle; PIdle] 0 0).
Qed.

Lemma wit_held_reachable : rtc step (init_config 2) wit_held.
Proof.
  eapply rtc_l; [eexists; apply (StepTake spinlock_init [PIdle; PIdle] 0 0); reflexivity|].
  eapply rtc_l; [eexists; apply (StepTake (Spinlock 0 1) [PWait 0; PIdle] 1 1); reflexivity|].
  eapply rtc_l; [eexists; apply (StepEnter (Spinlock 0 2) [PWait 0; PWait 1] 0 0); reflexivity|].
  apply rtc_refl.
Qed.

Lemma spinlock_refines_queue_witness :
  exists q, queue_run (QueueLock [] false) [ETicket 0; ETicket 1; EEnter 0] = Some q /\
    asked [ETicket 0; ETicket 1; EEnter 0] = granted [ETicket 0; ETicket 1; EEnter 0] ++ waiting q /\
    (forall i, c_pc wit_held !! i = Some PHold <-> q_held q = true /\ head (q_cpus q) = Some i) /\
    (forall i, (exists t, c_pc wit_held !! i = Some (PWait t)) <-> i ∈ waiting q).
Proof. apply (spinlock_refines_queue 2); [done|apply wit_held_run]. Defined.

Lemma spinlock_mutual_exclusion_witness :
  rtc step (init_config 2) wit_held /\ c_pc wit_held !! 0%nat = Some PHold /\
  forall j, c_pc wit_held !! j = Some PHold -> j = 0%nat.
Proof.
  split; [exact wit_held_reachable|]. split; [reflexivity|]. intros j Hj.
  apply (spinlock_mutual_exclusion 2 wit_held j 0); [done|apply wit_held_reachable|exact Hj|done].
Defined.

Lemma spinlock_progress_witness :
  exists j, c_pc (Config (Spinlock 0 1) [PWait 0; PIdle]) !! j = Some (PWait 0) /\
    forall k, c_pc (Config (Spinlock 0 1) [PWait 0; PIdle]) !! k = Some (PWait 0) -> k = j.
Proof.
  apply (spinlock_progress 2 (Config (Spinlock 0 1) [PWait 0; PIdle]) 0 0).
  - done.
  - eapply rtc_l; [eexists; apply (StepTake spinlock_init [PIdle; PIdle] 0 0); reflexivity|apply rtc_refl].
  - done.
  - intros [|[|j]]; done.
Defined.
