(* ===== verification/Kmalloc.v ===== *)
(** * The kernel heap (mm/kmalloc.c, inc/kmalloc.h)

    A 16 MB pool is divided evenly over the NUMA nodes; each node's part holds
    nine slab caches of fixed-size objects, free objects linked through their
    first word, and a bump region for everything else.  [slab_owner] maps every
    16-byte granule of the pool to the cache or bump region it belongs to, which
    is how kfree finds the cache of a pointer.

    The memory is the map from an address to the word stored there, of which
    the allocator itself reads and writes only the links of free objects.  The
    address of the pool is an argument.  Taking a node lock that is set spins
    for ever and is [None]. *)

From stdpp Require Import base gmap list.
From Stdlib Require Import ZArith Lia.
From S2P Require Import Prelude.

Definition HEAP_POOL_SIZE : Z := 16 * 1024 * 1024.
Definition KMALLOC_MIN_SIZE : Z := 16.
Definition KMALLOC_NUM_CACHES : nat := 9.
Definition NUMA_MAX_NODES : nat := 8.
Definition OWNER_BUMP : Z := 15.
Definition OWNER_INVALID : Z := 255.
Definition BASE_SLAB_TOTAL : Z := 557056.

Definition cache_sizes : list Z := [16; 32; 64; 128; 256; 512; 1024; 2048; 4096].
Definition base_quota : list Z := [1024; 512; 512; 256; 256; 128; 64; 64; 32].

Record kmem_cache := KmemCache {
  obj_size : Z; freelist : Z; total : Z; free_count : Z; cbase : Z
}.

Record kheap := KHeap {
  k_mem : Z -> Z;                        (* *(void ** )p *)
  slab_owner : Z -> Z;
  caches : nat -> nat -> kmem_cache;
  bump_ptr : nat -> Z;
  bump_end : nat -> Z;
  node_lock : nat -> bool;
  node_base : nat -> Z;
  node_size : nat -> Z;
  active_nodes : nat;
}.

Definition with_mem (s : kheap) (m : Z -> Z) : kheap :=
  KHeap m (slab_owner s) (caches s) (bump_ptr s) (bump_end s) (node_lock s)
    (node_base s) (node_size s) (active_nodes s).
Definition with_owner (s : kheap) (o : Z -> Z) : kheap :=
  KHeap (k_mem s) o (caches s) (bump_ptr s) (bump_end s) (node_lock s)
    (node_base s) (node_size s) (active_nodes s).
Definition with_cache (s : kheap) (n ci : nat) (c : kmem_cache) : kheap :=
  KHeap (k_mem s) (slab_owner s) (nupd (caches s) n (nupd (caches s n) ci c)) (bump_ptr s)
    (bump_end s) (node_lock s) (node_base s) (node_size s) (active_nodes s).
Definition with_bump (s : kheap) (n : nat) (p e : Z) : kheap :=
  KHeap (k_mem s) (slab_owner s) (caches s) (nupd (bump_ptr s) n p) (nupd (bump_end s) n e)
    (node_lock s) (node_base s) (node_size s) (active_nodes s).
Definition with_lock (s : kheap) (n : nat) (b : bool) : kheap :=
  KHeap (k_mem s) (slab_owner s) (caches s) (bump_ptr s) (bump_end s)
    (nupd (node_lock s) n b) (node_base s) (node_size s) (active_nodes s).
Definition with_node (s : kheap) (n : nat) (base size : Z) : kheap :=
  KHeap (k_mem s) (slab_owner s) (caches s) (bump_ptr s) (bump_end s) (node_lock s)
    (nupd (node_base s) n base) (nupd (node_size s) n size) (active_nodes s).
Definition with_active (s : kheap) (n : nat) : kheap :=
  KHeap (k_mem s) (slab_owner s) (caches s) (bump_ptr s) (bump_end s) (node_lock s)
    (node_base s) (node_size s) n.

Definition nlock (s : kheap) (n : nat) : option kheap :=
  if node_lock s n then None else Some (with_lock s n true).
Definition nunlock (s : kheap) (n : nat) : kheap := with_lock s n false.

Definition cache_size (ci : nat) : Z := nth ci cache_sizes 0.
Definition quota (ci : nat) : Z := nth ci base_quota 0.

(** The first class whose objects are large enough, or KMALLOC_NUM_CACHES. *)
Fixpoint cidx_from (sizes : list Z) (i : nat) (sz : Z) : nat :=
  match sizes with
  | [] => i
  | c :: sizes => if sz <=? c then i else cidx_from sizes (S i) sz
  end.
Definition cidx_for (sz : Z) : nat := cidx_from cache_sizes 0 sz.

Definition node_quota (ci : nat) (pool_sz : Z) : Z :=
  let target := u64 (pool_sz * 3) / 4 in
  let q := u64 (quota ci * target) / BASE_SLAB_TOTAL in
  let q := if quota ci <? q then quota ci else q in
  if q =? 0 then 1 else q.

(** [for (j = nobj; j-- > 0; ) { *(void ** )obj = next; next = obj; }] *)
Fixpoint link_objs (j : nat) (start obj_sz : Z) (m : Z -> Z) (next : Z) : (Z -> Z) * Z :=
  match j with
  | O => (m, next)
  | S j =>
      let obj := start + Z.of_nat j * obj_sz in
      link_objs j start obj_sz (upd m obj next) obj
  end.

(** [for (g = first; g < last; g++) slab_owner[g] = tag;] *)
Definition tag_range (o : Z -> Z) (first last tag : Z) : Z -> Z :=
  fun g => if (first <=? g) && (g <? last) then tag else o g.

Definition owner_tag (nid : nat) (ci : Z) : Z := u8 (Z.lor (Z.shiftl (Z.of_nat nid) 4) ci).

Section kmalloc.
Context (heap_pool : Z).

(** One iteration of the loop over the size classes of init_node. *)
Definition init_cache (nid : nat) (base psz : Z) (so : kheap * Z) (ci : nat) : kheap * Z :=
  let '(s, off) := so in
  let obj_sz := cache_size ci in
  let nobj := node_quota ci psz in
  let region := u64 (obj_sz * nobj) in
  let '(m, next) := link_objs (Z.to_nat nobj) (base + off) obj_sz (k_mem s) 0 in
  let s := with_mem s m in
  let s := with_cache s nid ci (KmemCache obj_sz next nobj nobj (base + off)) in
  let first := (base + off - heap_pool) / KMALLOC_MIN_SIZE in
  let ngran := region / KMALLOC_MIN_SIZE in
  let s := with_owner s (tag_range (slab_owner s) first (first + ngran)
                           (owner_tag nid (Z.of_nat ci))) in
  (s, off + region).

Definition init_node (s : kheap) (nid : nat) (base psz : Z) : kheap :=
  let s := with_node s nid base psz in
  let '(s, off) := fold_left (init_cache nid base psz) (seq 0 KMALLOC_NUM_CACHES) (s, 0) in
  let bstart := (base + off - heap_pool) / KMALLOC_MIN_SIZE in
  let bend := (base + psz - heap_pool) / KMALLOC_MIN_SIZE in
  let s := with_owner s (tag_range (slab_owner s) bstart bend (owner_tag nid OWNER_BUMP)) in
  with_bump s nid (base + off) (base + psz).

(** [node_count] is the value of numa_node_count(). *)
Definition kmalloc_init (s : kheap) (node_count : Z) : kheap :=
  let s := with_owner s (fun _ => OWNER_INVALID) in
  let s := fold_left (fun s i => with_lock s i false) (seq 0 NUMA_MAX_NODES) s in
  let active := if (node_count =? 0) || (Z.of_nat NUMA_MAX_NODES <? node_count)
                then 1 else node_count in
  let s := with_active s (Z.to_nat active) in
  let per_node := HEAP_POOL_SIZE / active in
  fold_left (fun s n => init_node s n (heap_pool + Z.of_nat n * per_node) per_node)
    (seq 0 (Z.to_nat active)) s.

Definition fl_valid (p : Z) : bool := (heap_pool <=? p) && (p <? heap_pool + HEAP_POOL_SIZE).

Definition set_freelist (c : kmem_cache) (f n : Z) : kmem_cache :=
  KmemCache (obj_size c) f (total c) n (cbase c).

Definition alloc_from_node (ci nid : nat) (s : kheap) : kheap * Z :=
  let c := caches s nid ci in
  if freelist c =? 0 then (s, 0) else
  if negb (fl_valid (freelist c)) then (with_cache s nid ci (set_freelist c 0 0), 0) else
  let obj := freelist c in
  (with_cache s nid ci (set_freelist c (k_mem s obj) (u64 (free_count c - 1))), obj).

Definition bump_alloc (sz : Z) (nid : nat) (s : kheap) : kheap * Z :=
  let a := Z.land (u64 (bump_ptr s nid + 63)) (u64 (Z.lnot 63)) in
  if bump_end s nid <? u64 (a + sz) then (s, 0)
  else (with_bump s nid (u64 (a + sz)) (bump_end s nid), a).

(** One attempt on a node under its lock. *)
Definition locked (f : nat -> kheap -> kheap * Z) (n : nat) (s : kheap) : option (kheap * Z) :=
  s ← nlock s n;
  let '(s, p) := f n s in
  Some (nunlock s n, p).

(** The preferred node first, then the loop over the others: both halves of
    kmalloc_node have this shape. *)
Fixpoint try_others (f : nat -> kheap -> kheap * Z) (node : nat) (ns : list nat) (s : kheap) :
    option (kheap * Z) :=
  match ns with
  | [] => Some (s, 0)
  | n :: ns =>
      if Nat.eqb n node then try_others f node ns s else
      '(s, p) ← locked f n s;
      if negb (p =? 0) then Some (s, p) else try_others f node ns s
  end.

Definition try_nodes (f : nat -> kheap -> kheap * Z) (node : nat) (s : kheap) :
    option (kheap * Z) :=
  '(s, p) ← locked f node s;
  if negb (p =? 0) then Some (s, p) else try_others f node (seq 0 (active_nodes s)) s.

Definition kmalloc_node (s : kheap) (sz node : Z) : option (kheap * Z) :=
  if sz =? 0 then Some (s, 0) else
  let node := if Z.of_nat (active_nodes s) <=? node then O else Z.to_nat node in
  let ci := cidx_for sz in
  '(s, p) ← (if (ci <? KMALLOC_NUM_CACHES)%nat then try_nodes (alloc_from_node ci) node s
             else Some (s, 0));
  if negb (p =? 0) then Some (s, p) else try_nodes (bump_alloc sz) node s.

(** [current_node] is the value of numa_current_node(). *)
Definition kmalloc (s : kheap) (sz current_node : Z) : option (kheap * Z) :=
  kmalloc_node s sz current_node.

Definition kfree (s : kheap) (p : Z) : option kheap :=
  if p =? 0 then Some s else
  if negb (fl_valid p) then Some s else
  let ow := slab_owner s ((p - heap_pool) / KMALLOC_MIN_SIZE) in
  let nid := Z.shiftr ow 4 in
  let ci := Z.land ow 15 in
  if (ow =? OWNER_INVALID) || (ci =? OWNER_BUMP) || (Z.of_nat (active_nodes s) <=? nid)
  then Some s else
  let nid := Z.to_nat nid in
  let ci := Z.to_nat ci in
  let c := caches s nid ci in
  if negb (u64 (p - cbase c) mod obj_size c =? 0) then Some s else
  s ← nlock s nid;
  let c := caches s nid ci in
  if total c <=? free_count c then Some (nunlock s nid) else
  let s := with_mem s (upd (k_mem s) p (freelist c)) in
  let s := with_cache s nid ci (set_freelist c p (u64 (free_count c + 1))) in
  Some (nunlock s nid).

Definition kmalloc_stats_node (s : kheap) (node ci : Z) : Z * Z :=
  if (Z.of_nat (active_nodes s) <=? node) || (Z.of_nat KMALLOC_NUM_CACHES <=? ci) then (0, 0)
  else let c := caches s (Z.to_nat node) (Z.to_nat ci) in (total c, free_count c).

Definition kmalloc_stats (s : kheap) (ci : Z) : Z * Z := kmalloc_stats_node s 0 ci.

End kmalloc.
