(* ===== verification/KmallocProof.v ===== *)
(** * Correctness of the kernel heap

    The layout of the pool, the invariant that ties the free lists and the
    bump pointers to the set of live blocks, and the proof that kmalloc_init
    establishes it and kmalloc, kfree and stores of the clients into their own
    blocks preserve it. *)

From stdpp Require Import base gmap list.
From Stdlib Require Import ZArith Lia.
From S2P Require Import Prelude Kmalloc.

(** ** Layout *)

(** Offset of a size class in a node's part of the pool; the tenth entry is the
    start of the bump region. *)
Definition cls_off (ci : nat) : Z :=
  nth ci [0; 16384; 32768; 65536; 98304; 163840; 229376; 294912; 425984; 557056] 0.

Definition per_node (active : nat) : Z := HEAP_POOL_SIZE / Z.of_nat active.

Lemma cls_off_S ci : (ci < 9)%nat -> cls_off (S ci) = cls_off ci + cache_size ci * quota ci.
Proof. intros H. do 9 (destruct ci as [|ci]; [done|]). lia. Qed.

Lemma cls_facts ci : (ci < 9)%nat ->
  0 <= cls_off ci /\ cls_off ci mod 16 = 0 /\ 16 <= cache_size ci <= 4096 /\
  cache_size ci mod 16 = 0 /\ 0 < quota ci <= 1024 /\ cls_off (S ci) <= 557056.
Proof. intros H. do 9 (destruct ci as [|ci]; [by vm_compute|]). lia. Qed.

Lemma cls_off_mono ci ci' : (ci < ci' <= 9)%nat -> cls_off (S ci) <= cls_off ci'.
Proof.
  intros [Hlt Hle]. induction ci' as [|c IH]; [lia|].
  destruct (decide (ci = c)) as [->|Hne]; [lia|].
  rewrite (cls_off_S c) by lia. destruct (cls_facts c) as (_ & _ & ? & _ & ? & _); [lia|].
  etransitivity; [apply IH; lia|]. nia.
Qed.

Lemma per_facts active : (1 <= active <= 8)%nat ->
  2097152 <= per_node active /\ Z.of_nat active * per_node active <= HEAP_POOL_SIZE.
Proof.
  intros H. unfold per_node, HEAP_POOL_SIZE.
  do 9 (destruct active as [|active]; [try lia; by vm_compute|]). lia.
Qed.

(** Every class gets its base quota: the pool is large enough for eight nodes. *)
Lemma node_quota_eq active ci : (1 <= active <= 8)%nat -> (ci < 9)%nat ->
  node_quota ci (per_node active) = quota ci.
Proof.
  intros Ha Hc.
  assert (forallb (fun a => forallb (fun c => node_quota c (per_node a) =? quota c) (seq 0 9))
            (seq 1 8) = true) as Hall by by vm_compute.
  rewrite forallb_forall in Hall. specialize (Hall active).
  rewrite forallb_forall in Hall. apply Z.eqb_eq, Hall; apply in_seq; lia.
Qed.

(** ** Free lists *)

Fixpoint chain (m : Z -> Z) (p : Z) (l : list Z) : Prop :=
  match l with [] => p = 0 | x :: l => p = x /\ x <> 0 /\ chain m (m x) l end.

Lemma chain_ext m m' p l : (forall x, x ∈ l -> m' x = m x) -> chain m p l -> chain m' p l.
Proof.
  revert p. induction l as [|x l IH]; intros p H; simpl; [done|]. intros (-> & Hx & Hc).
  split_and!; [done|done|]. rewrite H by set_solver. apply IH; [|done]. intros; apply H; set_solver.
Qed.

Definition obj_list (j : nat) (start sz : Z) : list Z :=
  (fun i => start + Z.of_nat i * sz) <$> seq 0 j.

Lemma elem_obj_list a j start sz :
  a ∈ obj_list j start sz <-> exists i, (i < j)%nat /\ a = start + Z.of_nat i * sz.
Proof. unfold obj_list. rewrite list_elem_of_fmap. setoid_rewrite elem_of_seq. naive_solver lia. Qed.

Lemma obj_list_S j start sz :
  obj_list (S j) start sz = obj_list j start sz ++ [start + Z.of_nat j * sz].
Proof. unfold obj_list. rewrite seq_S, fmap_app. done. Qed.

Lemma obj_list_nodup j start sz : 0 < sz -> NoDup (obj_list j start sz).
Proof.
  intros Hs. apply NoDup_fmap_2_strong; [|apply NoDup_seq]. intros x y _ _ H. nia.
Qed.

(** The linking loop makes a list of all objects, in address order, and writes
    only their first words. *)
Lemma link_objs_spec j start sz m next l :
  0 < start -> 0 < sz -> chain m next l ->
  (forall x, x ∈ l -> x ∉ obj_list j start sz) ->
  let r := link_objs j start sz m next in
  chain r.1 r.2 (obj_list j start sz ++ l) /\
  (forall a, a ∉ obj_list j start sz -> r.1 a = m a).
Proof.
  intros Hst Hsz. revert m next l. induction j as [|j IH]; intros m next l Hc Hd; [done|].
  rewrite obj_list_S in *. cbn [link_objs]. set (obj := start + Z.of_nat j * sz) in *.
  assert (Hnin : obj ∉ obj_list j start sz).
  { rewrite elem_obj_list. intros (i & Hi & Heq). unfold obj in Heq. nia. }
  destruct (IH (upd m obj next) obj (obj :: l)) as [H1 H2].
  - simpl. split_and!; [done|unfold obj; nia|]. rewrite upd_eq.
    eapply chain_ext; [|exact Hc]. intros x Hx. apply upd_ne. intros ->.
    apply (Hd obj Hx). set_solver.
  - intros x [->|Hx]%elem_of_cons; [done|]. specialize (Hd x Hx). set_solver.
  - rewrite <- app_assoc. split; [exact H1|]. intros a Ha. rewrite H2 by set_solver.
    apply upd_ne. set_solver.
Qed.

(** ** Slots and the invariant *)

Section heap.
Context (heap_pool : Z).

(** The pool is page aligned, not at 0 and inside the address space. *)
Definition pool_ok : Prop :=
  0 < heap_pool /\ heap_pool mod 4096 = 0 /\ heap_pool + HEAP_POOL_SIZE < 2 ^ 63.

Context (Hpool : pool_ok) (active : nat) (Hactive : (1 <= active <= 8)%nat).

Definition node_lo (n : nat) : Z := heap_pool + Z.of_nat n * per_node active.
Definition cls_lo (n ci : nat) : Z := node_lo n + cls_off ci.
Definition slot (n ci : nat) (j : Z) : Z := cls_lo n ci + j * cache_size ci.
Definition is_slot (n ci : nat) (p : Z) : Prop :=
  exists j, 0 <= j < quota ci /\ p = slot n ci j.
Definition slots (n ci : nat) : list Z :=
  obj_list (Z.to_nat (quota ci)) (cls_lo n ci) (cache_size ci).

Lemma elem_slots n ci p : p ∈ slots n ci <-> is_slot n ci p.
Proof.
  unfold slots, is_slot, slot. rewrite elem_obj_list. split.
  - intros (i & Hi & ->). exists (Z.of_nat i). split; [lia|done].
  - intros (j & Hj & ->). exists (Z.to_nat j). split; [lia|]. f_equal. f_equal. lia.
Qed.

Lemma node_lo_S n : node_lo (S n) = node_lo n + per_node active.
Proof. unfold node_lo. lia. Qed.

Lemma node_lo_mono n n' : (n < n')%nat -> node_lo n + per_node active <= node_lo n'.
Proof.
  intros H. unfold node_lo. destruct (per_facts active Hactive). nia.
Qed.

Lemma node_bounds n : (n < active)%nat ->
  heap_pool <= node_lo n /\ node_lo n + per_node active <= heap_pool + HEAP_POOL_SIZE.
Proof.
  intros H. unfold node_lo. destruct (per_facts active Hactive). nia.
Qed.

(** A slot lies in its class's region. *)
Lemma slot_bounds n ci p : (ci < 9)%nat -> is_slot n ci p ->
  cls_lo n ci <= p /\ p + cache_size ci <= cls_lo n (S ci).
Proof.
  intros Hci (j & Hj & ->). unfold slot, cls_lo. rewrite cls_off_S by done.
  destruct (cls_facts ci Hci) as (_ & _ & ? & _ & ? & _). nia.
Qed.

Lemma cls_bounds n ci : (ci < 9)%nat ->
  node_lo n <= cls_lo n ci /\ cls_lo n (S ci) <= node_lo n + 557056.
Proof. intros H. unfold cls_lo. destruct (cls_facts ci H) as (? & _ & _ & _ & _ & ?). lia. Qed.

(** Regions of different classes or nodes are apart, in the order of init. *)
Definition before (n ci n' ci' : nat) : Prop := (n < n' \/ n = n' /\ ci < ci')%nat.

Lemma region_before n ci n' ci' :
  before n ci n' ci' -> (ci < 9)%nat -> (ci' <= 9)%nat -> cls_lo n (S ci) <= cls_lo n' ci'.
Proof.
  intros [Hn|[-> Hc]] Hci Hci'.
  - pose proof (node_lo_mono n n' Hn). destruct (per_facts active Hactive).
    destruct (cls_bounds n ci Hci) as [_ ?]. unfold cls_lo at 2.
    destruct (decide (ci' < 9)%nat) as [H9|H9].
    + destruct (cls_facts ci' H9). lia.
    + replace ci' with 9%nat by lia. change (cls_off 9) with 557056. lia.
  - unfold cls_lo. pose proof (cls_off_mono ci ci'). lia.
Qed.

Lemma slot_apart n ci p n' ci' p' :
  is_slot n ci p -> is_slot n' ci' p' -> (ci < 9)%nat -> (ci' < 9)%nat ->
  (n, ci) <> (n', ci') -> p + cache_size ci <= p' \/ p' + cache_size ci' <= p.
Proof.
  intros Hp Hp' Hci Hci' Hne.
  destruct (slot_bounds _ _ _ Hci Hp), (slot_bounds _ _ _ Hci' Hp').
  assert (before n ci n' ci' \/ before n' ci' n ci) as [Hb|Hb].
  { unfold before. destruct (decide (n = n')) as [->|]; [|lia].
    destruct (decide (ci = ci')) as [->|]; [done|lia]. }
  - left. pose proof (region_before _ _ _ _ Hb Hci ltac:(lia)). lia.
  - right. pose proof (region_before _ _ _ _ Hb Hci' ltac:(lia)). lia.
Qed.

Lemma slot_inj n ci p p' :
  is_slot n ci p -> is_slot n ci p' -> (ci < 9)%nat -> p <> p' ->
  p + cache_size ci <= p' \/ p' + cache_size ci <= p.
Proof.
  intros (j & Hj & ->) (j' & Hj' & ->) Hci Hne. unfold slot in *.
  destruct (cls_facts ci Hci) as (_ & _ & ? & _). 
  assert (j <> j') by congruence. nia.
Qed.

Lemma slot_unique n ci n' ci' p :
  is_slot n ci p -> is_slot n' ci' p -> (ci < 9)%nat -> (ci' < 9)%nat -> n = n' /\ ci = ci'.
Proof.
  intros Hp Hp' Hci Hci'. destruct (decide ((n, ci) = (n', ci'))) as [H|H]; [by simplify_eq|].
  destruct (cls_facts ci Hci) as (_ & _ & ? & _), (cls_facts ci' Hci') as (_ & _ & ? & _).
  destruct (slot_apart _ _ _ _ _ _ Hp Hp' Hci Hci' H); lia.
Qed.

Lemma slot_in_pool n ci p : (n < active)%nat -> (ci < 9)%nat -> is_slot n ci p ->
  heap_pool <= p /\ p + cache_size ci <= heap_pool + HEAP_POOL_SIZE.
Proof.
  intros Hn Hci Hp. destruct (slot_bounds _ _ _ Hci Hp), (cls_bounds n ci Hci), (node_bounds n Hn).
  destruct (per_facts active Hactive). lia.
Qed.

(** ** Granules *)

Definition gran (p : Z) : Z := (p - heap_pool) / KMALLOC_MIN_SIZE.

Lemma gran_lt p q : p + 16 <= q -> gran p < gran q.
Proof. unfold gran, KMALLOC_MIN_SIZE. zlia. Qed.

Lemma gran_le p q : p <= q -> gran p <= gran q.
Proof. unfold gran, KMALLOC_MIN_SIZE. zlia. Qed.

Lemma gran_add p k : k mod 16 = 0 -> gran (p + k) = gran p + k / 16.
Proof. unfold gran, KMALLOC_MIN_SIZE. intros. zlia. Qed.

Lemma gran_slot n ci p : (ci < 9)%nat -> is_slot n ci p ->
  gran (cls_lo n ci) <= gran p < gran (cls_lo n (S ci)).
Proof.
  intros Hci Hp. destruct (slot_bounds _ _ _ Hci Hp). destruct (cls_facts ci Hci) as (_ & _ & ? & _).
  split; [by apply gran_le|]. apply gran_lt. lia.
Qed.

Lemma owner_tag_eq n c : (n < 8)%nat -> 0 <= c < 16 -> owner_tag n c = 16 * Z.of_nat n + c.
Proof.
  intros Hn Hc. unfold owner_tag. rewrite Z.shiftl_mul_pow2 by lia.
  change (2 ^ 4) with 16.
  assert (Z.lor (Z.of_nat n * 16) c = Z.of_nat n * 16 + c) as ->.
  { symmetry. apply Z.add_nocarry_lor. change 16 with (2 ^ 4). apply Z.bits_inj'. intros k Hk.
    rewrite Z.land_spec, Z.bits_0. destruct (Z.ltb_spec k 4).
    - by rewrite Z.mul_pow2_bits_low.
    - assert (Z.testbit c k = false) as ->; [|apply andb_false_r].
      destruct (Z.eq_dec c 0) as [->|]; [apply Z.bits_0|].
      apply Z.bits_above_log2; [lia|]. apply Z.log2_lt_pow2; [lia|].
      apply Z.lt_le_trans with (2 ^ 4); [lia|]. apply Z.pow_le_mono_r; lia. }
  unfold u8. rewrite Z.mod_small; lia.
Qed.

(** ** Initialisation *)

(** The state once every class before class [ci] of node [n] is set up. *)
Record init_ok (s : kheap) (n ci : nat) : Prop := {
  io_cache n' ci' : before n' ci' n ci -> (ci' < 9)%nat ->
    caches s n' ci' = KmemCache (cache_size ci') (slot n' ci' 0) (quota ci') (quota ci') (slot n' ci' 0) /\
    chain (k_mem s) (slot n' ci' 0) (slots n' ci') /\
    (forall p, is_slot n' ci' p -> slab_owner s (gran p) = owner_tag n' (Z.of_nat ci'));
  io_bump n' : (n' < n)%nat ->
    bump_ptr s n' = cls_lo n' 9 /\ bump_end s n' = node_lo (S n') /\
    (forall g, gran (cls_lo n' 9) <= g < gran (node_lo (S n')) ->
       slab_owner s g = owner_tag n' OWNER_BUMP);
  io_lock n' : (n' < 8)%nat -> node_lock s n' = false;
  io_active : active_nodes s = active;
}.

Lemma slots_hd n ci : (ci < 9)%nat -> exists l, slots n ci = slot n ci 0 :: l.
Proof.
  intros Hci. destruct (cls_facts ci Hci) as (_ & _ & _ & _ & Hq & _). unfold slots.
  destruct (Z.to_nat (quota ci)) as [|q] eqn:Heq; [lia|]. eexists.
  unfold obj_list. cbn [seq fmap list_fmap]. f_equal.
Qed.

Lemma tag_range_out o f l t g : ~ (f <= g < l) -> tag_range o f l t g = o g.
Proof.
  intros H. unfold tag_range.
  destruct (Z.leb_spec f g), (Z.ltb_spec g l); simpl; try done. lia.
Qed.

Lemma tag_range_in o f l t g : f <= g < l -> tag_range o f l t g = t.
Proof.
  intros H. unfold tag_range. destruct (Z.leb_spec f g), (Z.ltb_spec g l); simpl; lia.
Qed.

Lemma nupd2_ne {A} (f : nat -> nat -> A) n ci c n' ci' :
  (n, ci) <> (n', ci') -> nupd f n (nupd (f n) ci c) n' ci' = f n' ci'.
Proof.
  intros H. destruct (decide (n' = n)) as [->|Hn]; [|by rewrite nupd_ne].
  rewrite nupd_eq, nupd_ne; [done|]. congruence.
Qed.

Lemma nupd2_eq {A} (f : nat -> nat -> A) n ci c : nupd f n (nupd (f n) ci c) n ci = c.
Proof. by rewrite !nupd_eq. Qed.

Lemma before_ne n ci n' ci' : before n ci n' ci' -> (n', ci') <> (n, ci).
Proof. unfold before. intros H Heq. simplify_eq. lia. Qed.

Lemma before_S n ci n' ci' : before n ci n' (S ci') -> before n ci n' ci' \/ n = n' /\ ci = ci'.
Proof. unfold before. lia. Qed.

Lemma init_cache_ok s n ci : (n < active)%nat -> (ci < 9)%nat -> init_ok s n ci ->
  exists s', init_cache heap_pool n (node_lo n) (per_node active) (s, cls_off ci) ci
    = (s', cls_off (S ci)) /\ init_ok s' n (S ci).
Proof.
  intros Hn Hci H. unfold init_cache. rewrite node_quota_eq by done.
  destruct (cls_facts ci Hci) as (Ho & Hom & Hsz & Hsm & Hq & Hoff).
  destruct (cls_bounds n ci Hci), (node_bounds n Hn).
  fold (cls_lo n ci) (gran (cls_lo n ci)).
  assert (u64 (cache_size ci * quota ci) = cache_size ci * quota ci) as ->.
  { apply u64_small. nia. }
  destruct (link_objs_spec (Z.to_nat (quota ci)) (cls_lo n ci) (cache_size ci) (k_mem s) 0 [])
    as [Hch Hmem]; [destruct Hpool; lia|lia|done|set_solver|].
  fold (slots n ci) in Hch, Hmem. rewrite app_nil_r in Hch.
  destruct (link_objs _ _ _ _ _) as [m next]. simpl in Hch, Hmem.
  eexists. split; [f_equal; by rewrite cls_off_S|].
  assert (next = slot n ci 0) as ->.
  { destruct (slots_hd n ci Hci) as [l Hl]. rewrite Hl in Hch. by destruct Hch. }
  assert (Hgr : gran (cls_lo n ci) + cache_size ci * quota ci / KMALLOC_MIN_SIZE
                = gran (cls_lo n (S ci))).
  { unfold cls_lo. rewrite cls_off_S, Z.add_assoc by done. rewrite (gran_add (node_lo n + cls_off ci)); [done|].
    by rewrite Z.mul_mod, Hsm by lia. }
  rewrite Hgr. split; simpl.
  - intros n' ci' Hb Hci'. apply before_S in Hb as [Hb|[-> ->]].
    + destruct (io_cache _ _ _ H _ _ Hb Hci') as (Hc & Hch' & Hown).
      rewrite nupd2_ne by by apply before_ne. split; [done|]. split.
      * eapply chain_ext; [|exact Hch']. intros x Hx. apply Hmem. intros Hx'.
        apply elem_slots in Hx, Hx'. destruct (slot_unique _ _ _ _ _ Hx Hx' Hci' Hci) as [-> ->].
        unfold before in Hb. lia.
      * intros p Hp. rewrite tag_range_out; [by apply Hown|].
        pose proof (gran_slot _ _ _ Hci' Hp). pose proof (region_before _ _ _ _ Hb Hci' ltac:(lia)) as Hr.
        apply gran_le in Hr. lia.
    + rewrite !nupd_eq. split; [|split].
      * f_equal; unfold slot; lia.
      * done.
      * intros p Hp. rewrite tag_range_in; [done|]. by apply gran_slot.
  - intros n' Hn'. destruct (io_bump _ _ _ H _ Hn') as (Hb1 & Hb2 & Hown).
    split_and!; [done|done|]. intros g Hg. rewrite tag_range_out; [by apply Hown|].
    assert (node_lo (S n') <= cls_lo n ci) as Hle.
    { rewrite node_lo_S. pose proof (node_lo_mono n' n Hn'). lia. }
    apply gran_le in Hle. lia.
  - apply H.
  - apply H.
Qed.

Lemma init_caches_ok s n k : (n < active)%nat -> (k <= 9)%nat -> init_ok s n (9 - k) ->
  exists s', fold_left (init_cache heap_pool n (node_lo n) (per_node active))
    (seq (9 - k) k) (s, cls_off (9 - k)) = (s', cls_off 9) /\ init_ok s' n 9.
Proof.
  intros Hn. revert s. induction k as [|k IH]; intros s Hk H.
  { rewrite Nat.sub_0_r in *. by exists s. }
  destruct (init_cache_ok s n (9 - S k) Hn) as (s1 & Hs1 & H1); [lia|done|].
  cbn [seq fold_left]. rewrite Hs1. replace (S (9 - S k)) with (9 - k)%nat in * by lia.
  apply IH; [lia|done].
Qed.

Lemma init_node_ok s n : (n < active)%nat -> init_ok s n 0 ->
  init_ok (init_node heap_pool s n (node_lo n) (per_node active)) (S n) 0.
Proof.
  intros Hn H. unfold init_node.
  destruct (init_caches_ok (with_node s n (node_lo n) (per_node active)) n 9 Hn) as (s1 & Hs1 & H1);
    [done|by split; apply H|].
  change (9 - 9)%nat with 0%nat in Hs1. change (cls_off 0) with 0 in Hs1.
  unfold KMALLOC_NUM_CACHES. rewrite Hs1.
  fold (cls_lo n 9). rewrite <- node_lo_S. fold (gran (cls_lo n 9)) (gran (node_lo (S n))).
  destruct (per_facts active Hactive). split; simpl.
  - intros n' ci' Hb Hci'. assert (before n' ci' n 9) as Hb' by (unfold before in *; lia).
    destruct (io_cache _ _ _ H1 _ _ Hb' Hci') as (Hc & Hch & Hown). split_and!; [done|done|].
    intros p Hp. rewrite tag_range_out; [by apply Hown|].
    pose proof (gran_slot _ _ _ Hci' Hp). pose proof (region_before _ _ _ _ Hb' Hci' ltac:(lia)) as Hr.
    apply gran_le in Hr. lia.
  - intros n' Hn'. destruct (decide (n' = n)) as [->|Hne].
    + rewrite !nupd_eq. split_and!; [done|done|]. intros g Hg. by apply tag_range_in.
    + destruct (io_bump _ _ _ H1 n') as (Hb1 & Hb2 & Hown); [lia|]. rewrite !nupd_ne by done.
      split_and!; [done|done|]. intros g Hg. rewrite tag_range_out; [by apply Hown|].
      assert (node_lo (S n') <= cls_lo n 9) as Hle.
      { rewrite node_lo_S. pose proof (node_lo_mono n' n ltac:(lia)).
        destruct (cls_bounds n 8) as [? _]; [lia|]. unfold cls_lo.
        change (cls_off 9) with 557056. lia. }
      apply gran_le in Hle. lia.
  - apply H1.
  - apply H1.
Qed.

Lemma init_nodes_ok s k : (k <= active)%nat -> init_ok s (active - k) 0 ->
  init_ok (fold_left (fun s n => init_node heap_pool s n (node_lo n) (per_node active))
    (seq (active - k) k) s) active 0.
Proof.
  revert s. induction k as [|k IH]; intros s Hk H.
  { by rewrite Nat.sub_0_r in H. }
  cbn [seq fold_left]. replace (S (active - S k)) with (active - k)%nat by lia.
  apply IH; [lia|]. replace (active - k)%nat with (S (active - S k)) by lia.
  apply init_node_ok; [lia|done].
Qed.

Lemma kmalloc_init_ok s : init_ok (kmalloc_init heap_pool s (Z.of_nat active)) active 0.
Proof.
  unfold kmalloc_init.
  assert ((Z.of_nat active =? 0) || (Z.of_nat NUMA_MAX_NODES <? Z.of_nat active) = false) as ->.
  { apply orb_false_intro; [apply Z.eqb_neq; lia|apply Z.ltb_ge; unfold NUMA_MAX_NODES; lia]. }
  rewrite Nat2Z.id. change (HEAP_POOL_SIZE / Z.of_nat active) with (per_node active).
  rewrite <- (Nat.sub_diag active) at 1. apply init_nodes_ok; [done|]. rewrite Nat.sub_diag.
  split; simpl.
  - intros n' ci' Hb. unfold before in Hb. lia.
  - intros n' Hn'. lia.
  - intros n' Hn'. do 8 (destruct n' as [|n']; [done|]). lia.
  - done.
Qed.

(** ** The heap invariant *)

(** [live] maps the address of every block handed out and not freed to its
    size. *)
Definition cache_ok (s : kheap) (live : gmap Z Z) (n ci : nat) : Prop :=
  let c := caches s n ci in
  obj_size c = cache_size ci /\ total c = quota ci /\ cbase c = slot n ci 0 /\
  exists fl, chain (k_mem s) (freelist c) fl /\ NoDup fl /\
    free_count c = Z.of_nat (length fl) /\
    (forall p, p ∈ fl -> is_slot n ci p /\ live !! p = None) /\
    (forall p, is_slot n ci p -> p ∈ fl \/ live !! p = Some (cache_size ci)).

(** A list of different objects of a cache is no longer than the cache. *)
Lemma free_objects_bound n ci fl :
  (ci < 9)%nat -> NoDup fl -> (forall p, p ∈ fl -> is_slot n ci p) -> Z.of_nat (length fl) <= quota ci.
Proof.
  intros Hci Hnd Hfl. destruct (cls_facts ci Hci) as (_ & _ & _ & _ & Hq & _).
  assert (length fl <= length (slots n ci))%nat as Hle.
  { apply submseteq_length, NoDup_submseteq; [done|]. intros p Hp. by apply elem_slots, Hfl. }
  unfold slots, obj_list in Hle. rewrite length_fmap, length_seq in Hle. lia.
Qed.

Definition slab_block (p sz : Z) : Prop :=
  exists n ci, (n < active)%nat /\ (ci < 9)%nat /\ is_slot n ci p /\ sz = cache_size ci.

Definition bump_block (s : kheap) (p sz : Z) : Prop :=
  exists n, (n < active)%nat /\ cls_lo n 9 <= p /\ p + sz <= bump_ptr s n /\ p mod 64 = 0.

Definition apart_blocks (p sz p' sz' : Z) : Prop := p + sz <= p' \/ p' + sz' <= p.

Record kcore (s : kheap) (live : gmap Z Z) : Prop := {
  kc_active : active_nodes s = active;
  kc_cache n ci : (n < active)%nat -> (ci < 9)%nat -> cache_ok s live n ci;
  kc_bump n : (n < active)%nat ->
    cls_lo n 9 <= bump_ptr s n <= node_lo (S n) /\ bump_end s n = node_lo (S n);
  kc_owner n ci p : (n < active)%nat -> (ci < 9)%nat -> is_slot n ci p ->
    slab_owner s (gran p) = owner_tag n (Z.of_nat ci);
  kc_owner_bump n g : (n < active)%nat -> gran (cls_lo n 9) <= g < gran (node_lo (S n)) ->
    slab_owner s g = owner_tag n OWNER_BUMP;
  kc_live p sz : live !! p = Some sz -> 0 < sz /\ (slab_block p sz \/ bump_block s p sz);
  kc_apart p sz p' sz' : live !! p = Some sz -> live !! p' = Some sz' -> p <> p' ->
    apart_blocks p sz p' sz';
}.

Definition unlocked (s : kheap) : Prop := forall n, (n < 8)%nat -> node_lock s n = false.

Definition kinv (s : kheap) (live : gmap Z Z) : Prop := kcore s live /\ unlocked s.

Lemma cls_lo_9 n : cls_lo n 9 = node_lo n + 557056.
Proof. done. Qed.

Lemma bump_region n : (n < active)%nat -> cls_lo n 9 <= node_lo (S n).
Proof. intros. rewrite node_lo_S, cls_lo_9. destruct (per_facts active Hactive). lia. Qed.

Lemma init_kinv s : init_ok s active 0 -> kinv s ∅.
Proof.
  intros H. split; [split|intros n Hn; by apply (io_lock _ _ _ H)].
  - apply H.
  - intros n ci Hn Hci. destruct (io_cache _ _ _ H n ci) as (Hc & Hch & _);
      [unfold before; lia|done|]. unfold cache_ok. rewrite Hc. simpl. split_and!; [done..|].
    exists (slots n ci). destruct (cls_facts ci Hci) as (_ & _ & Hsz & _ & Hq & _).
    split_and!; [done| | | |].
    + apply obj_list_nodup. lia.
    + unfold slots, obj_list. rewrite length_fmap, length_seq. lia.
    + intros p Hp%elem_slots. done.
    + intros p Hp%elem_slots. by left.
  - intros n Hn. destruct (io_bump _ _ _ H n Hn) as (-> & -> & _). pose proof (bump_region n Hn). lia.
  - intros n ci p Hn Hci. apply (io_cache _ _ _ H n ci); [unfold before; lia|done].
  - intros n g Hn. by apply (io_bump _ _ _ H n Hn).
  - intros p sz. by rewrite lookup_empty.
  - intros p sz p' sz'. by rewrite lookup_empty.
Qed.

Lemma kcore_with_lock s live n b : kcore s live -> kcore (with_lock s n b) live.
Proof. intros H. split; apply H. Qed.

(** A slab slot and a bump block never overlap. *)
Lemma slot_bump_apart n ci p n' q sz :
  (n < active)%nat -> (ci < 9)%nat -> is_slot n ci p -> cls_lo n' 9 <= q -> q + sz <= node_lo (S n') ->
  0 < sz -> apart_blocks p (cache_size ci) q sz.
Proof.
  intros Hn Hci Hp H1 H2 Hsz. destruct (slot_bounds _ _ _ Hci Hp).
  destruct (cls_bounds n ci Hci). rewrite node_lo_S in H2. rewrite cls_lo_9 in H1.
  unfold apart_blocks. destruct (decide (n <= n')%nat) as [Hle|Hgt].
  - left. destruct (decide (n = n')) as [->|Hne]; [lia|].
    pose proof (node_lo_mono n n' ltac:(lia)). destruct (per_facts active Hactive). lia.
  - right. pose proof (node_lo_mono n' n ltac:(lia)). lia.
Qed.

(** The result of a request for [sz] bytes on state [s]. *)
Definition alloc_out (s : kheap) (live : gmap Z Z) (sz : Z) (s' : kheap) (p : Z) : Prop :=
  p = 0 /\ s' = s \/
  p <> 0 /\ exists b, sz <= b /\ live !! p = None /\ kcore s' (<[p := b]> live).

(** Adding a block that is apart from the live ones. *)
Lemma live_insert_apart (live : gmap Z Z) p b :
  (forall q sz q' sz', live !! q = Some sz -> live !! q' = Some sz' -> q <> q' ->
     apart_blocks q sz q' sz') ->
  (forall q sz, live !! q = Some sz -> apart_blocks p b q sz) ->
  forall q sz q' sz', <[p := b]> live !! q = Some sz -> <[p := b]> live !! q' = Some sz' ->
    q <> q' -> apart_blocks q sz q' sz'.
Proof.
  intros H1 H2 q sz q' sz' Hq Hq' Hne. unfold apart_blocks in *.
  destruct (decide (q = p)) as [->|Hq1], (decide (q' = p)) as [->|Hq2]; [done|..].
  - rewrite lookup_insert_eq in Hq. rewrite lookup_insert_ne in Hq' by done. simplify_eq. eauto.
  - rewrite lookup_insert_eq in Hq'. rewrite lookup_insert_ne in Hq by done. simplify_eq.
    specialize (H2 _ _ Hq). tauto.
  - rewrite lookup_insert_ne in Hq, Hq' by done. eauto.
Qed.

Lemma chain_in_nonzero m p l x : chain m p l -> x ∈ l -> x <> 0.
Proof.
  revert p. induction l as [|y l IH]; intros p; simpl; [set_solver|].
  intros (_ & Hy & Hc) [->|Hx]%elem_of_cons; eauto.
Qed.

Lemma alloc_from_node_spec s live n ci sz :
  kcore s live -> (n < active)%nat -> (ci < 9)%nat -> sz <= cache_size ci ->
  let r := alloc_from_node heap_pool ci n s in
  node_lock r.1 = node_lock s /\ alloc_out s live sz r.1 r.2 /\
  (r.2 = 0 <-> free_count (caches s n ci) = 0).
Proof.
  intros H Hn Hci Hsz. pose proof (kc_cache _ _ H n ci Hn Hci) as (Ho & Ht & Hb & fl & Hch & Hnd & Hfc & Hfl & Hall).
  unfold alloc_from_node. destruct fl as [|x fl]; simpl in Hch.
  { rewrite Hch. simpl. split; [done|]. split; [by left|]. done. }
  destruct Hch as (Hx & Hx0 & Hch). rewrite Hx, (proj2 (Z.eqb_neq _ _) Hx0).
  destruct (Hfl x) as [Hslot Hlive]; [set_solver|].
  destruct (slot_in_pool n ci x Hn Hci Hslot). destruct (cls_facts ci Hci) as (_ & _ & Hcs & _ & Hq & _).
  assert (fl_valid heap_pool x = true) as ->.
  { unfold fl_valid. apply andb_true_intro. split; [apply Z.leb_le|apply Z.ltb_lt]; lia. }
  cbn [negb]. cbv zeta. cbn [fst snd]. split; [done|]. split; [|].
  2: { split; [done|]. rewrite Hfc. simpl. lia. }
  right. split; [done|]. exists (cache_size ci). split; [done|]. split; [done|].
  apply NoDup_cons in Hnd as [Hxfl Hnd].
  assert (Hlen : u64 (free_count (caches s n ci) - 1) = Z.of_nat (length fl)).
  { pose proof (free_objects_bound n ci (x :: fl) Hci ltac:(by constructor) ltac:(intros; by apply Hfl)) as Hle.
    rewrite Hfc. simpl length in *. rewrite u64_small; lia. }
  split; simpl; try apply H.
  - intros n' ci' Hn' Hci'. destruct (decide ((n, ci) = (n', ci'))) as [Heq|Hne].
    + injection Heq as <- <-. unfold cache_ok. simpl. rewrite nupd2_eq. simpl. split_and!; [done..|].
      exists fl. split_and!; [done|done|done| |].
      * intros p Hp. destruct (Hfl p) as [? ?]; [set_solver|]. split; [done|].
        rewrite lookup_insert_ne; [done|]. by intros ->.
      * intros p Hp. destruct (decide (p = x)) as [->|Hpx].
        { right. by rewrite lookup_insert_eq. }
        rewrite lookup_insert_ne by done. destruct (Hall p Hp); set_solver.
    + unfold cache_ok. simpl. rewrite nupd2_ne by done.
      destruct (kc_cache _ _ H n' ci' Hn' Hci') as (? & ? & ? & fl' & ? & ? & ? & Hfl' & Hall').
      split_and!; [done..|]. exists fl'.
      assert (forall p, is_slot n' ci' p -> p <> x) as Hpx.
      { intros p Hp ->. destruct (slot_unique _ _ _ _ _ Hslot Hp Hci Hci'). congruence. }
      split_and!; [done|done|done| |].
      * intros p Hp. destruct (Hfl' p Hp) as [Hs ?]. split; [done|].
        rewrite lookup_insert_ne; [done|]. apply not_eq_sym. by apply Hpx.
      * intros p Hp. rewrite lookup_insert_ne by (apply not_eq_sym; by apply Hpx). by apply Hall'.
  - intros p b. destruct (decide (p = x)) as [->|Hpx].
    + rewrite lookup_insert_eq. intros [= <-]. split; [lia|]. left. by exists n, ci.
    + rewrite lookup_insert_ne by done. intros Hp. by apply (kc_live _ _ H).
  - apply live_insert_apart; [apply (kc_apart _ _ H)|]. intros q b Hlq.
    destruct (kc_live _ _ H _ _ Hlq) as [Hb0 [(n' & ci' & Hn' & Hci' & Hs' & ->)|(n' & Hn' & Hl1 & Hl2 & _)]].
    + destruct (decide ((n, ci) = (n', ci'))) as [Heq|Hne].
      * injection Heq as <- <-. apply (slot_inj n ci); try done. congruence.
      * by apply (slot_apart n ci x n' ci' q).
    + apply (slot_bump_apart n ci x n'); try done.
      destruct (kc_bump _ _ H n' Hn'). lia.
Qed.

(** Rounding up to a multiple of 64. *)
Lemma align64 a : 0 <= a < 2 ^ 63 ->
  let r := Z.land (u64 (a + 63)) (u64 (Z.lnot 63)) in a <= r < a + 64 /\ r mod 64 = 0.
Proof.
  intros Ha. rewrite (u64_small (a + 63)) by lia.
  assert (Z.land (a + 63) (u64 (Z.lnot 63)) = 64 * ((a + 63) / 64)) as ->; [|simpl; zlia].
  transitivity (Z.shiftl (Z.shiftr (a + 63) 6) 6);
    [|by rewrite Z.shiftl_mul_pow2, Z.shiftr_div_pow2, Z.mul_comm by lia].
  apply Z.bits_inj'. intros k Hk. rewrite Z.land_spec, Z.shiftl_spec by lia.
  unfold u64. rewrite Z.testbit_mod_pow2, Z.lnot_spec by lia.
  change 63 with (Z.ones 6) at 2. rewrite Z.testbit_ones_nonneg by lia.
  destruct (Z.ltb_spec k 6); simpl.
  - rewrite andb_false_r, andb_false_r. symmetry. apply Z.testbit_neg_r. lia.
  - rewrite Z.shiftr_spec by lia. replace (k - 6 + 6) with k by lia. rewrite andb_true_r.
    destruct (Z.ltb_spec k 64); [by rewrite andb_true_r|]. rewrite andb_false_r. symmetry.
    apply Z.bits_above_log2; [lia|]. apply Z.log2_lt_pow2; [lia|].
    apply Z.lt_le_trans with (2 ^ 64); [lia|]. apply Z.pow_le_mono_r; lia.
Qed.

Lemma bump_alloc_spec s live n sz :
  kcore s live -> (n < active)%nat -> 0 < sz < 2 ^ 62 ->
  let r := bump_alloc sz n s in
  node_lock r.1 = node_lock s /\ alloc_out s live sz r.1 r.2.
Proof.
  intros H Hn Hsz. unfold bump_alloc. destruct (kc_bump _ _ H n Hn) as [Hbp Hbe].
  destruct (node_bounds n Hn). rewrite node_lo_S in Hbp. destruct Hpool as (Hp0 & _ & Hp63).
  rewrite cls_lo_9 in Hbp. destruct (align64 (bump_ptr s n)) as [Ha Ham]; [lia|].
  set (a := Z.land _ _) in *. rewrite (u64_small (a + sz)) by lia.
  rewrite Hbe. destruct (Z.ltb_spec (node_lo (S n)) (a + sz)) as [Hlt|Hge]; simpl.
  { split; [done|]. by left. }
  split; [done|]. right. split; [lia|]. exists sz. split; [done|].
  assert (Hnew : forall q b, live !! q = Some b -> apart_blocks a sz q b).
  { intros q b Hq. destruct (kc_live _ _ H _ _ Hq) as [Hb [(n' & ci' & Hn' & Hci' & Hs & ->)|(n' & Hn' & Hl1 & Hl2 & _)]].
    - assert (apart_blocks q (cache_size ci') a sz) as Hap; [|unfold apart_blocks in *; tauto].
      apply (slot_bump_apart n' ci' q n); try done; [|lia]. rewrite cls_lo_9. lia.
    - unfold apart_blocks. destruct (kc_bump _ _ H n' Hn') as [Hb' _]. rewrite cls_lo_9 in *.
      rewrite node_lo_S in *.
      destruct (decide (n = n')) as [->|Hne]; [lia|].
      destruct (decide (n < n')%nat) as [Hlt|Hgt].
      + pose proof (node_lo_mono n n' Hlt). lia.
      + pose proof (node_lo_mono n' n ltac:(lia)). lia. }
  assert (Hnone : live !! a = None).
  { destruct (live !! a) as [b|] eqn:Hlb; [|done]. specialize (Hnew a b Hlb).
    destruct (kc_live _ _ H _ _ Hlb) as [Hb0 _]. unfold apart_blocks in Hnew. lia. }
  split; [done|].
  assert (Hslot : forall n' ci' p, (n' < active)%nat -> (ci' < 9)%nat -> is_slot n' ci' p -> p <> a).
  { intros n' ci' p Hn' Hci' Hp ->. destruct (cls_facts ci' Hci') as (_ & _ & ? & _).
    assert (apart_blocks a (cache_size ci') a sz) as Hap; [|unfold apart_blocks in *; lia].
    apply (slot_bump_apart n' ci' a n); try done; [|lia]. rewrite cls_lo_9. lia. }
  split; simpl; try apply H.
  - intros n' ci' Hn' Hci'. destruct (kc_cache _ _ H n' ci' Hn' Hci') as (? & ? & ? & fl & ? & ? & ? & Hfl & Hall).
    unfold cache_ok. simpl. split_and!; [done..|]. exists fl. split_and!; [done..| |].
    + intros p Hp. destruct (Hfl p Hp) as [Hs ?]. split; [done|].
      rewrite lookup_insert_ne; [done|]. apply not_eq_sym. by eapply Hslot.
    + intros p Hp. rewrite lookup_insert_ne by (apply not_eq_sym; by eapply Hslot). by apply Hall.
  - intros n' Hn'. destruct (decide (n' = n)) as [->|Hne].
    + rewrite !nupd_eq, cls_lo_9. lia.
    + rewrite !nupd_ne by done. by apply (kc_bump _ _ H).
  - intros p b. destruct (decide (p = a)) as [->|Hpa].
    + rewrite lookup_insert_eq. intros [= <-]. split; [lia|]. right. exists n. simpl.
      rewrite nupd_eq, cls_lo_9. split_and!; [done|lia|lia|done].
    + rewrite lookup_insert_ne by done. intros Hp.
      destruct (kc_live _ _ H _ _ Hp) as [? [?|(n' & Hn' & Hl1 & Hl2 & Hl3)]];
        split; try done; [by left|].
      right. exists n'. simpl. destruct (decide (n' = n)) as [->|Hne].
      * rewrite nupd_eq. split_and!; [done|done|lia|done].
      * by rewrite nupd_ne by done.
  - apply live_insert_apart; [apply (kc_apart _ _ H)|done].
Qed.

(** ** The loops over the nodes *)

(** [same_core s s']: equal up to the lock words. *)
Definition same_core (s s' : kheap) : Prop := exists lk, s' = KHeap (k_mem s) (slab_owner s)
  (caches s) (bump_ptr s) (bump_end s) lk (node_base s) (node_size s) (active_nodes s).

(** What both allocators promise on one node. *)
Definition node_alloc (f : nat -> kheap -> kheap * Z) (sz : Z) : Prop :=
  (forall s live n, kcore s live -> (n < active)%nat ->
     node_lock (f n s).1 = node_lock s /\ alloc_out s live sz (f n s).1 (f n s).2) /\
  (forall s s' n, same_core s s' -> (f n s').2 = (f n s).2).

Lemma same_core_kcore s s' live : same_core s s' -> kcore s live -> kcore s' live.
Proof. intros [lk ->] H. split; apply H. Qed.

Lemma same_core_refl s : same_core s s.
Proof. exists (node_lock s). by destruct s. Qed.

Lemma same_core_trans s1 s2 s3 : same_core s1 s2 -> same_core s2 s3 -> same_core s1 s3.
Proof. intros [lk ->] [lk' ->]. by exists lk'. Qed.

Lemma same_core_lock s n b : same_core s (with_lock s n b).
Proof. by eexists. Qed.

Lemma alloc_from_node_ok ci sz : (ci < 9)%nat -> sz <= cache_size ci ->
  node_alloc (alloc_from_node heap_pool ci) sz.
Proof.
  intros Hci Hsz. split.
  - intros s live n H Hn. destruct (alloc_from_node_spec s live n ci sz H Hn Hci Hsz) as (? & ? & _).
    done.
  - intros s s' n [lk ->]. unfold alloc_from_node. simpl.
    destruct (freelist _ =? 0); [done|]. by destruct (negb _).
Qed.

Lemma bump_alloc_ok sz : 0 < sz < 2 ^ 62 -> node_alloc (bump_alloc sz) sz.
Proof.
  intros Hsz. split.
  - intros s live n H Hn. by apply bump_alloc_spec.
  - intros s s' n [lk ->]. unfold bump_alloc. simpl. by destruct (_ <? _).
Qed.

(** The outcome of a search over the nodes in [ns]. *)
Definition search_out (f : nat -> kheap -> kheap * Z) (ns : nat -> Prop) (s : kheap)
    (live : gmap Z Z) (sz : Z) (res : option (kheap * Z)) : Prop :=
  exists s' p, res = Some (s', p) /\ unlocked s' /\
    (p = 0 /\ same_core s s' /\ (forall n, ns n -> (f n s).2 = 0) \/
     p <> 0 /\ exists b, sz <= b /\ live !! p = None /\ kcore s' (<[p := b]> live)).

Lemma locked_spec f sz s live n :
  node_alloc f sz -> kinv s live -> (n < active)%nat ->
  search_out f (fun m => m = n) s live sz (locked f n s).
Proof.
  intros [Hf1 Hf2] [H Hl] Hn. unfold locked, nlock. rewrite (Hl n) by lia.
  cbn [mbind option_bind].
  destruct (Hf1 _ _ n (kcore_with_lock s live n true H) Hn) as [Hlk Ho].
  pose proof (Hf2 _ _ n (same_core_lock s n true)) as Hr.
  destruct (f n (with_lock s n true)) as [s1 p]. simpl in Hlk, Ho, Hr.
  exists (nunlock s1 n), p. split; [done|]. split.
  { intros m Hm. simpl. rewrite Hlk. destruct (decide (m = n)) as [->|Hne]; [by rewrite nupd_eq|].
    rewrite nupd_ne by done. simpl. rewrite nupd_ne by done. by apply Hl. }
  destruct Ho as [[-> ->]|(Hp & b & Hb & Hlive & Hk)].
  - left. split; [done|]. split; [by eexists|]. by intros m ->.
  - right. split; [done|]. exists b. split_and!; try done. by apply kcore_with_lock.
Qed.

Lemma try_others_spec f sz s live node ns :
  node_alloc f sz -> kinv s live -> Forall (fun n => n < active)%nat ns ->
  search_out f (fun m => m ∈ ns /\ m <> node) s live sz (try_others f node ns s).
Proof.
  intros Hf. revert s. induction ns as [|n ns IH]; intros s H Hns; cbn [try_others].
  { exists s, 0. split; [done|]. split; [apply H|]. left. split; [done|].
    split; [apply same_core_refl|set_solver]. }
  apply Forall_cons in Hns as [Hn Hns]. destruct (Nat.eqb_spec n node) as [->|Hne].
  { destruct (IH s H Hns) as (s' & p & Hs & Hl & Ho). exists s', p. split; [done|]. split; [done|].
    destruct Ho as [(? & ? & Ho)|Ho]; [left|by right]. split_and!; [done..|].
    intros m [Hm Hmn]. apply Ho. set_solver. }
  destruct (locked_spec f sz s live n Hf H Hn) as (s1 & p & -> & Hl1 & Ho1).
  cbn [mbind option_bind]. destruct Ho1 as [(-> & Hc & Hz)|(Hp & Hr)].
  - cbn [Z.eqb negb]. destruct (IH s1) as (s' & p' & Hs & Hl & Ho); [|done|].
    { split; [|done]. eapply same_core_kcore; [exact Hc|apply H]. }
    exists s', p'. split; [done|]. split; [done|].
    destruct Ho as [(? & ? & Ho)|Ho]; [left|by right].
    split; [done|]. split; [by eapply same_core_trans|].
    intros m [[->|Hm]%elem_of_cons Hmn]; [by apply Hz|].
    rewrite <- (proj2 Hf _ _ m Hc). by apply Ho.
  - rewrite (proj2 (Z.eqb_neq _ _) Hp). cbn [negb]. exists s1, p. split; [done|].
    split; [done|]. by right.
Qed.

Lemma try_nodes_spec f sz s live node :
  node_alloc f sz -> kinv s live -> (node < active)%nat ->
  search_out f (fun m => m < active)%nat s live sz (try_nodes f node s).
Proof.
  intros Hf H Hn. unfold try_nodes.
  destruct (locked_spec f sz s live node Hf H Hn) as (s1 & p & -> & Hl1 & Ho1).
  cbn [mbind option_bind]. destruct Ho1 as [(-> & Hc & Hz)|(Hp & Hr)].
  - cbn [Z.eqb negb]. assert (H1 : kinv s1 live).
    { split; [|done]. eapply same_core_kcore; [exact Hc|apply H]. }
    rewrite (kc_active _ _ (proj1 H1)).
    destruct (try_others_spec f sz s1 live node (seq 0 active) Hf H1) as (s' & p' & Hs & Hl & Ho).
    { apply Forall_forall. intros m Hm%elem_of_seq. lia. }
    exists s', p'. split; [done|]. split; [done|]. destruct Ho as [(? & ? & Ho)|Ho]; [left|by right].
    split; [done|]. split; [by eapply same_core_trans|]. intros m Hm.
    destruct (decide (m = node)) as [->|Hne]; [by apply Hz|].
    rewrite <- (proj2 Hf _ _ m Hc). apply Ho. split; [|done]. apply elem_of_seq. lia.
  - rewrite (proj2 (Z.eqb_neq _ _) Hp). cbn [negb]. exists s1, p. split; [done|].
    split; [done|]. by right.
Qed.

(** ** kmalloc *)

Lemma cidx_for_spec sz :
  (cidx_for sz <= 9)%nat /\ ((cidx_for sz < 9)%nat -> sz <= cache_size (cidx_for sz)) /\
  (sz <= 4096 -> (cidx_for sz < 9)%nat).
Proof.
  unfold cidx_for, cache_size, cache_sizes. cbn [cidx_from].
  repeat (match goal with |- context [sz <=? ?k] => destruct (Z.leb_spec sz k) end;
          [cbn [nth]; split_and!; intros; lia|]).
  split_and!; intros; lia.
Qed.

Lemma kmalloc_node_spec s live sz node :
  kinv s live -> 0 <= node -> 0 < sz < 2 ^ 62 ->
  exists s' p, kmalloc_node heap_pool s sz node = Some (s', p) /\ unlocked s' /\
    (p = 0 /\ same_core s s' /\
       ((cidx_for sz < 9)%nat -> forall n, (n < active)%nat -> free_count (caches s n (cidx_for sz)) = 0) /\
       (forall n, (n < active)%nat -> (bump_alloc sz n s).2 = 0) \/
     p <> 0 /\ exists b, sz <= b /\ live !! p = None /\ kcore s' (<[p := b]> live)).
Proof.
  intros H Hnode Hsz. unfold kmalloc_node. rewrite (proj2 (Z.eqb_neq sz 0)) by lia.
  set (nd := if _ <=? node then _ else _).
  assert (Hnd : (nd < active)%nat).
  { unfold nd. rewrite (kc_active _ _ (proj1 H)).
    destruct (Z.leb_spec (Z.of_nat active) node); lia. }
  destruct (cidx_for_spec sz) as (_ & Hci & _). unfold KMALLOC_NUM_CACHES.
  assert (Hslab : search_out (fun n s' => if (cidx_for sz <? 9)%nat
      then alloc_from_node heap_pool (cidx_for sz) n s' else (s', 0)) (fun m => m < active)%nat s live sz
    (if (cidx_for sz <? 9)%nat then try_nodes (alloc_from_node heap_pool (cidx_for sz)) nd s
     else Some (s, 0))).
  { destruct (Nat.ltb_spec (cidx_for sz) 9) as [Hlt|Hge].
    - apply try_nodes_spec; [|done|done]. by apply alloc_from_node_ok; [|apply Hci].
    - exists s, 0. split; [done|]. split; [apply H|]. left. split; [done|].
      split; [apply same_core_refl|done]. }
  destruct Hslab as (s1 & p & -> & Hl & Ho). cbn [mbind option_bind].
  destruct Ho as [(-> & Hc & Hz)|(Hp & Hr)].
  - cbn [Z.eqb negb]. assert (H1 : kinv s1 live).
    { split; [|done]. eapply same_core_kcore; [exact Hc|apply H]. }
    pose proof (bump_alloc_ok sz Hsz) as Hf.
    destruct (try_nodes_spec _ _ _ _ nd Hf H1 Hnd) as (s2 & p & -> & Hl2 & Ho).
    exists s2, p. split; [done|]. split; [done|].
    destruct Ho as [(-> & Hc2 & Hz2)|Hr]; [left|by right].
    split; [done|]. split; [by eapply same_core_trans|]. split.
    + intros Hlt n Hn. specialize (Hz n Hn). rewrite (proj2 (Nat.ltb_lt _ _) Hlt) in Hz.
      apply (alloc_from_node_spec s live n (cidx_for sz) sz (proj1 H) Hn Hlt (Hci Hlt)). done.
    + intros n Hn. rewrite <- (proj2 Hf _ _ n Hc). by apply Hz2.
  - rewrite (proj2 (Z.eqb_neq _ _) Hp). cbn [negb]. exists s1, p. split; [done|]. split; [done|].
    by right.
Qed.

(** ** kfree *)

Lemma tag_decode n c : (n < 8)%nat -> 0 <= c < 16 ->
  Z.shiftr (owner_tag n c) 4 = Z.of_nat n /\ Z.land (owner_tag n c) 15 = c /\
  (c < 15 -> owner_tag n c <> OWNER_INVALID).
Proof.
  intros Hn Hc. rewrite owner_tag_eq by done. split_and!.
  - rewrite Z.shiftr_div_pow2 by lia. change (2 ^ 4) with 16. zlia.
  - change 15 with (Z.ones 4). rewrite Z.land_ones by lia. change (2 ^ 4) with 16. zlia.
  - unfold OWNER_INVALID. lia.
Qed.

(** Freeing a live object puts it at the head of its free list. *)
Lemma kcore_free s live n ci p :
  kcore s live -> (n < active)%nat -> (ci < 9)%nat -> is_slot n ci p ->
  live !! p = Some (cache_size ci) ->
  let c := caches s n ci in
  free_count c < total c /\
  kcore (with_cache (with_mem s (upd (k_mem s) p (freelist c))) n ci
           (set_freelist c p (u64 (free_count c + 1)))) (delete p live).
Proof.
  intros H Hn Hci Hp Hlive. cbv zeta.
  destruct (kc_cache _ _ H n ci Hn Hci) as (Ho & Ht & Hb & fl & Hch & Hnd & Hfc & Hfl & Hall).
  destruct (cls_facts ci Hci) as (_ & _ & Hsz & _ & Hq & _).
  assert (Hpfl : p ∉ fl) by (intros Hin; destruct (Hfl p Hin); congruence).
  assert (Hlen : free_count (caches s n ci) < quota ci).
  { assert (Hle : Z.of_nat (length (p :: fl)) <= quota ci).
    { apply (free_objects_bound n); [done|by constructor|]. intros q [->|Hq']%elem_of_cons; [done|by apply Hfl]. }
    simpl length in Hle. lia. }
  split; [by rewrite Ht|].
  assert (Hp0 : p <> 0).
  { destruct (slot_in_pool n ci p Hn Hci Hp). destruct Hpool. lia. }
  split; simpl; try apply H.
  - intros n' ci' Hn' Hci'. destruct (decide ((n, ci) = (n', ci'))) as [Heq|Hne].
    + injection Heq as <- <-. unfold cache_ok. simpl. rewrite nupd2_eq. simpl.
      split_and!; [done..|]. exists (p :: fl). split_and!.
      * simpl. split_and!; [done|done|]. rewrite upd_eq. eapply chain_ext; [|exact Hch].
        intros x Hx. apply upd_ne. by intros ->.
      * by constructor.
      * rewrite Hfc. simpl length. rewrite u64_small; lia.
      * intros q [->|Hq']%elem_of_cons; [split; [done|apply lookup_delete_eq]|].
        destruct (Hfl q Hq') as [? ?]. split; [done|]. rewrite lookup_delete_ne; [done|]. by intros ->.
      * intros q Hq'. destruct (decide (q = p)) as [->|Hqp]; [set_solver|].
        rewrite lookup_delete_ne by done. destruct (Hall q Hq'); set_solver.
    + unfold cache_ok. simpl. rewrite nupd2_ne by done.
      destruct (kc_cache _ _ H n' ci' Hn' Hci') as (? & ? & ? & fl' & Hch' & ? & ? & Hfl' & Hall').
      split_and!; [done..|]. exists fl'.
      assert (forall q, is_slot n' ci' q -> q <> p) as Hqp.
      { intros q Hq' ->. destruct (slot_unique _ _ _ _ _ Hp Hq' Hci Hci'). congruence. }
      split_and!; [|done|done| |].
      * eapply chain_ext; [|exact Hch']. intros x Hx. apply upd_ne. apply Hqp. by apply Hfl'.
      * intros q Hq'. destruct (Hfl' q Hq'). split; [done|].
        rewrite lookup_delete_ne; [done|]. apply not_eq_sym. by apply Hqp.
      * intros q Hq'. rewrite lookup_delete_ne by (apply not_eq_sym; by apply Hqp). by apply Hall'.
  - intros q b [_ Hq']%lookup_delete_Some. by apply (kc_live _ _ H).
  - intros q b q' b' [_ Hq1]%lookup_delete_Some [_ Hq2]%lookup_delete_Some. by apply (kc_apart _ _ H).
Qed.

Lemma kfree_slab_spec s live n ci p :
  kinv s live -> (n < active)%nat -> (ci < 9)%nat -> is_slot n ci p ->
  live !! p = Some (cache_size ci) ->
  exists s', kfree heap_pool s p = Some s' /\ kinv s' (delete p live) /\
    freelist (caches s' n ci) = p /\
    free_count (caches s' n ci) = free_count (caches s n ci) + 1.
Proof.
  intros [H Hl] Hn Hci Hp Hlive. unfold kfree.
  destruct (slot_in_pool n ci p Hn Hci Hp). destruct Hpool as (Hp0 & _ & _).
  destruct (cls_facts ci Hci) as (_ & _ & Hsz & _ & Hq & _).
  rewrite (proj2 (Z.eqb_neq p 0)) by lia.
  assert (fl_valid heap_pool p = true) as ->.
  { unfold fl_valid. apply andb_true_intro. split; [apply Z.leb_le|apply Z.ltb_lt]; lia. }
  cbn [negb]. fold (gran p). rewrite (kc_owner _ _ H n ci p Hn Hci Hp).
  destruct (tag_decode n (Z.of_nat ci)) as (-> & -> & Hinv); [lia|lia|].
  rewrite (proj2 (Z.eqb_neq _ _) (Hinv ltac:(lia))), (proj2 (Z.eqb_neq (Z.of_nat ci) OWNER_BUMP))
    by (unfold OWNER_BUMP; lia).
  rewrite (kc_active _ _ H), (proj2 (Z.leb_gt (Z.of_nat active) (Z.of_nat n))) by lia.
  cbn [orb]. rewrite !Nat2Z.id.
  destruct (kc_cache _ _ H n ci Hn Hci) as (Ho & Ht & Hb & fl & _ & _ & Hfc & _).
  rewrite Ho, Hb. assert (u64 (p - slot n ci 0) mod cache_size ci = 0) as ->.
  { destruct Hp as (j & Hj & ->). unfold slot. rewrite u64_small by nia.
    replace (_ - _) with (j * cache_size ci) by lia. apply Z.mod_mul. lia. }
  cbn [Z.eqb negb]. unfold nlock. rewrite (Hl n) by lia. cbn [mbind option_bind].
  pose proof (kcore_free (with_lock s n true) live n ci p (kcore_with_lock _ _ _ _ H) Hn Hci Hp Hlive)
    as [Hlt Hk].
  simpl caches. rewrite (proj2 (Z.leb_gt _ _)) by exact Hlt.
  eexists. split; [reflexivity|]. split; [split; [by apply kcore_with_lock|]|].
  - intros m Hm. simpl. destruct (decide (m = n)) as [->|Hne]; [by rewrite nupd_eq|].
    rewrite !nupd_ne by done. by apply Hl.
  - simpl. rewrite nupd2_eq. simpl. split; [done|]. simpl in Hlt. rewrite u64_small; lia.
Qed.

(** The last bytes of a node's part can share a granule with the next node's
    first cache; no pointer there is a multiple of the object size away from it. *)
Lemma node_end_mod n : (n < active)%nat ->
  let x := (Z.of_nat (S n) * per_node active) mod 64 in 1 <= x < 16 -> (S n < active)%nat.
Proof.
  intros Hn. cbv zeta.
  assert (forallb (fun a => forallb (fun m => (Nat.ltb (S m) a)
      || (let x := (Z.of_nat (S m) * per_node a) mod 64 in (x =? 0) || (16 <=? x))) (seq 0 a))
      (seq 1 8) = true) as Hall by by vm_compute.
  rewrite forallb_forall in Hall. specialize (Hall active). rewrite in_seq in Hall.
  specialize (Hall ltac:(lia)). rewrite forallb_forall in Hall. specialize (Hall n).
  rewrite in_seq in Hall. specialize (Hall ltac:(lia)).
  apply orb_true_iff in Hall as [Hlt|Hx]; [by apply Nat.ltb_lt in Hlt|].
  apply orb_true_iff in Hx as [Hx|Hx]; [apply Z.eqb_eq in Hx|apply Z.leb_le in Hx]; lia.
Qed.

(** Pointers into a bump region are never returned to a cache. *)
Lemma kfree_bump_spec s live p sz :
  kinv s live -> 0 < sz -> bump_block s p sz -> kfree heap_pool s p = Some s.
Proof.
  intros [H _] Hsz (n & Hn & H1 & H2 & Hal). unfold kfree. destruct (p =? 0); [done|].
  destruct (negb (fl_valid heap_pool p)); [done|]. fold (gran p).
  destruct (kc_bump _ _ H n Hn) as [[_ Hbe] _].
  destruct (Z.lt_ge_cases (gran p) (gran (node_lo (S n)))) as [Hlt|Hge].
  { rewrite (kc_owner_bump _ _ H n (gran p) Hn (conj (gran_le _ _ H1) Hlt)).
    destruct (tag_decode n OWNER_BUMP) as (_ & -> & _); [lia|done|].
    by rewrite Z.eqb_refl, orb_true_r. }
  assert (Hx : exists x, 1 <= x < 16 /\ p = node_lo (S n) - x /\
    (Z.of_nat (S n) * per_node active) mod 64 = x).
  { exists (node_lo (S n) - p). destruct Hpool as (_ & Hpm & _). unfold gran, KMALLOC_MIN_SIZE in Hge.
    unfold node_lo in *. zlia. }
  destruct Hx as (x & Hx & Hp & Hmod).
  pose proof (node_end_mod n Hn ltac:(by rewrite Hmod)) as Hn1.
  assert (Hg : gran p = gran (slot (S n) 0 0)).
  { apply Z.le_antisymm; [apply gran_le|].
    - unfold slot, cls_lo. change (cls_off 0) with 0. lia.
    - unfold slot, cls_lo. change (cls_off 0) with 0. by rewrite Z.mul_0_l, !Z.add_0_r. }
  assert (Hs0 : is_slot (S n) 0 (slot (S n) 0 0)) by (exists 0; done).
  rewrite Hg, (kc_owner _ _ H (S n) 0 _ Hn1 ltac:(lia) Hs0).
  destruct (tag_decode (S n) (Z.of_nat 0)) as (-> & -> & _); [lia|done|].
  destruct (_ || _); [done|]. rewrite Nat2Z.id. change (Z.to_nat (Z.of_nat 0)) with 0%nat.
  destruct (kc_cache _ _ H (S n) 0 Hn1 ltac:(lia)) as (-> & _ & -> & _).
  assert (u64 (p - slot (S n) 0 0) mod cache_size 0 <> 0) as Hne.
  { unfold slot, cls_lo, u64. change (cls_off 0) with 0. change (cache_size 0) with 16.
    subst p. zlia. }
  by rewrite (proj2 (Z.eqb_neq _ _) Hne).
Qed.

(** ** Stores of clients into their blocks *)

Lemma free_not_live s live n ci p q sz :
  kcore s live -> (n < active)%nat -> (ci < 9)%nat -> is_slot n ci p -> live !! p = None ->
  live !! q = Some sz -> ~ (q <= p < q + sz).
Proof.
  intros H Hn Hci Hp Hnone Hq. destruct (cls_facts ci Hci) as (_ & _ & Hsz & _).
  assert (apart_blocks p (cache_size ci) q sz) as Hap; [|unfold apart_blocks in Hap; lia].
  destruct (kc_live _ _ H _ _ Hq) as [Hb [(n' & ci' & Hn' & Hci' & Hs & ->)|(n' & Hn' & H1 & H2 & _)]].
  - destruct (decide ((n, ci) = (n', ci'))) as [Heq|Hne].
    + injection Heq as <- <-. apply (slot_inj n ci); try done. congruence.
    + by apply (slot_apart n ci p n' ci' q).
  - apply (slot_bump_apart n ci p n'); try done. destruct (kc_bump _ _ H n' Hn'). lia.
Qed.

Lemma kcore_store s live q sz a v :
  kcore s live -> live !! q = Some sz -> q <= a < q + sz ->
  kcore (with_mem s (upd (k_mem s) a v)) live.
Proof.
  intros H Hq Ha. split; try apply H. intros n ci Hn Hci.
  destruct (kc_cache _ _ H n ci Hn Hci) as (? & ? & ? & fl & Hch & ? & ? & Hfl & Hall).
  unfold cache_ok. simpl. split_and!; [done..|]. exists fl. split_and!; [|done..].
  eapply chain_ext; [|exact Hch]. intros x Hx. apply upd_ne. intros ->.
  destruct (Hfl _ Hx) as [Hs Hn0]. by eapply free_not_live.
Qed.

(** ** Where live blocks are *)

Lemma live_in_pool s live p b :
  kcore s live -> live !! p = Some b ->
  heap_pool <= p /\ p + b <= heap_pool + HEAP_POOL_SIZE.
Proof.
  intros Hk Hl. destruct (kc_live _ _ Hk _ _ Hl)
    as [Hb0 [(n & ci & Hn & Hci & Hs & ->)|(n & Hn & H1 & H2 & _)]].
  - by apply (slot_in_pool n ci).
  - destruct (kc_bump _ _ Hk n Hn) as [Hb _]. destruct (node_bounds n Hn).
    rewrite node_lo_S in Hb. rewrite cls_lo_9 in *. lia.
Qed.

Lemma live_aligned s live p b :
  per_node active mod 16 = 0 -> kcore s live -> live !! p = Some b -> p mod 16 = 0.
Proof.
  intros Hper Hk Hb. destruct Hpool as (_ & Hpm & _).
  destruct (kc_live _ _ Hk _ _ Hb)
    as [_ [(n & ci & _ & Hci & (j & _ & ->) & _)|(n & _ & _ & _ & H64)]]; [|zlia].
  destruct (cls_facts ci Hci) as (_ & Ho & _ & Hc & _).
  unfold slot, cls_lo, node_lo. apply Z.mod_divide in Hper, Ho, Hc; [|lia..].
  assert ((16 | heap_pool)) as Hd by (apply Z.mod_divide; [lia|zlia]).
  apply Z.mod_divide; [lia|]. repeat apply Z.divide_add_r; try done; by apply Z.divide_mul_r.
Qed.
End heap.
