(* ===== verification/Allocator.v ===== *)
(** * The allocator interface

    What the rest of the kernel relies on when it calls kmalloc and kfree, and
    the proof that the kernel heap provides it.  [al_inv st live] says that the
    heap state is sound and that [live] are addresses of blocks in use, not
    that there are no others.  Over any allocator, [ledger_allocator] also
    keeps the exact set of blocks that were handed out and not freed; a client
    proved against the interface is leak-free when its ledger says so. *)

From stdpp Require Import base gmap list.
From Stdlib Require Import ZArith Lia.
From S2P Require Import Prelude Kmalloc KmallocProof.

Class Allocator (St : Type) := {
  al_alloc : St -> Z -> option (St * Z);
  al_free : St -> Z -> option St;
  al_pool : Z -> Prop;
  al_inv : St -> gset Z -> Prop;
}.

Class AllocatorLaws (St : Type) `{Allocator St} : Prop := {
  al_alloc_law st live sz : al_inv st live -> 0 < sz < 2 ^ 62 ->
    exists st' p, al_alloc st sz = Some (st', p) /\
      (p = 0 /\ al_inv st' live \/
       p <> 0 /\ Z.even p = true /\ al_pool p /\ (p ∉ live) /\ al_inv st' ({[p]} ∪ live));
  al_free_law st live p : al_inv st live -> p ∈ live ->
    exists st', al_free st p = Some st' /\ al_inv st' (live ∖ {[p]});
}.

(** ** The kernel heap, seen from one CPU *)

Section kernel_heap.
Context (heap_pool : Z) (Hpool : pool_ok heap_pool) (active : nat)
  (Hactive : active = 1%nat \/ active = 2%nat \/ active = 4%nat \/ active = 8%nat)
  (node : Z) (Hnode : 0 <= node).

Definition heap_inv (s : kheap) (live : gset Z) : Prop :=
  exists blocks, kinv heap_pool active s blocks /\ live ⊆ dom blocks.

Definition kheap_allocator : Allocator kheap := {|
  al_alloc s sz := kmalloc heap_pool s sz node;
  al_free := kfree heap_pool;
  al_pool p := heap_pool <= p < heap_pool + HEAP_POOL_SIZE;
  al_inv := heap_inv;
|}.

Lemma active_range : (1 <= active <= 8)%nat.
Proof. lia. Qed.

Lemma per_aligned : per_node active mod 16 = 0.
Proof. by destruct Hactive as [->|[->|[->| ->]]]; vm_compute. Qed.

Lemma kheap_allocator_laws : @AllocatorLaws kheap kheap_allocator.
Proof.
  split; simpl.
  - intros s live sz (blocks & Hk & Hsub) Hsz.
    destruct (kmalloc_node_spec _ Hpool _ active_range s blocks sz node Hk Hnode Hsz)
      as (s' & p & Hm & Hl & Ho).
    exists s', p. split; [done|]. destruct Ho as [(-> & Hc & _)|(Hp & b & _ & Hnone & Hk')].
    + left. split; [done|]. exists blocks. split; [|done]. split; [|done].
      eapply same_core_kcore; [exact Hc|apply Hk].
    + right. assert (Hlk : <[p := b]> blocks !! p = Some b) by apply lookup_insert_eq.
      split; [done|]. pose proof (live_aligned _ Hpool _ active_range _ _ _ _ per_aligned Hk' Hlk) as Hal.
      destruct (live_in_pool _ _ active_range _ _ _ _ Hk' Hlk).
      destruct (kc_live _ _ _ _ Hk' _ _ Hlk) as [Hb0 _].
      split_and!; [|lia|lia| |].
      * apply Z.even_spec. exists (p / 2). zlia.
      * intros Hin. apply Hsub, elem_of_dom in Hin as [? ?]. congruence.
      * exists (<[p := b]> blocks). split; [done|]. rewrite dom_insert. set_solver.
  - intros s live p (blocks & Hk & Hsub) Hin.
    pose proof Hin as Hd. apply Hsub, elem_of_dom in Hd as [b Hb].
    destruct (kc_live _ _ _ _ (proj1 Hk) _ _ Hb) as [Hb0 [(n & ci & Hn & Hci & Hs & ->)|Hbump]].
    + destruct (kfree_slab_spec _ Hpool _ active_range _ _ _ _ _ Hk Hn Hci Hs Hb) as (s' & Hs' & Hk' & _).
      exists s'. split; [done|]. exists (delete p blocks). split; [done|].
      rewrite dom_delete. set_solver.
    + exists s. split; [by eapply kfree_bump_spec; eauto using active_range|].
      exists blocks. split; [done|]. set_solver.
Qed.
End kernel_heap.

(** ** A ledger over an allocator *)

Section ledger.
Context {St : Type} `{AllocatorLaws St}.

(** The second component is the set of blocks that al_alloc has returned and
    al_free has not been given since. *)
Definition ledger_allocator : Allocator (St * gset Z) := {|
  al_alloc l sz := '(st, p) ← al_alloc (fst l) sz; Some ((st, if p =? 0 then snd l else {[p]} ∪ snd l), p);
  al_free l p := st ← al_free (fst l) p; Some (st, snd l ∖ {[p]});
  al_pool := al_pool;
  al_inv l live := al_inv (fst l) live /\ snd l = live;
|}.

Lemma ledger_allocator_laws : @AllocatorLaws (St * gset Z) ledger_allocator.
Proof.
  split; simpl.
  - intros [st out] live sz [Hinv Hout] Hsz; simpl in *. subst out.
    destruct (al_alloc_law st live sz Hinv Hsz) as (st' & p & -> & Hp). eexists _, p. split; [done|]. simpl.
    destruct Hp as [[-> Hinv']|(Hp0 & He & Hpool & Hn & Hinv')]; [by left|right].
    by rewrite (proj2 (Z.eqb_neq _ _) Hp0).
  - intros [st out] live p [Hinv Hout] Hp; simpl in *. subst out.
    destruct (al_free_law st live p Hinv Hp) as (st' & -> & Hinv'). by eexists.
Qed.
End ledger.
