(* ===== verification/KmallocProps.v ===== *)
(** * What the kernel heap guarantees

    Runs of clients that allocate, free and write their blocks; the heap keeps
    the blocks apart and inside the pool, refuses only when it is exhausted,
    and reuses what is freed.  Two theorems record where the code falls short:
    the pointers of a pool split over three nodes are not aligned, and a huge
    request moves the bump pointer backwards. *)

From stdpp Require Import base gmap list.
From Stdlib Require Import ZArith Lia.
From S2P Require Import Prelude Kmalloc KmallocProof.

Section props.
Context (heap_pool : Z).

(** [blocks] maps the address of each block in use to the requested size. *)
Inductive kstep : kheap * gmap Z Z -> kheap * gmap Z Z -> Prop :=
| KAlloc s blocks sz node s' p :
    0 <= node -> 0 < sz < 2 ^ 62 -> kmalloc_node heap_pool s sz node = Some (s', p) ->
    kstep (s, blocks) (s', if p =? 0 then blocks else <[p := sz]> blocks)
| KFree s blocks p sz s' :
    blocks !! p = Some sz -> kfree heap_pool s p = Some s' ->
    kstep (s, blocks) (s', delete p blocks)
| KStore s blocks p sz a v :
    blocks !! p = Some sz -> p <= a < p + sz ->
    kstep (s, blocks) (with_mem s (upd (k_mem s) a v), blocks).

(** Every block in use is a live block of the heap, at least as large. *)
Definition run_ok (active : nat) (s : kheap) (blocks : gmap Z Z) : Prop :=
  exists live, kinv heap_pool active s live /\
    forall p sz, blocks !! p = Some sz -> 0 < sz /\ exists b, live !! p = Some b /\ sz <= b.

Lemma run_ok_step active c c' :
  pool_ok heap_pool -> (1 <= active <= 8)%nat -> kstep c c' ->
  run_ok active c.1 c.2 -> run_ok active c'.1 c'.2.
Proof.
  intros Hp Ha Hs (live & Hk & Hb).
  destruct Hs as [s blocks sz node s' p Hn Hsz Hm|s blocks p sz s' Hbp Hf|s blocks p sz a v Hbp Hr];
    simpl in *.
  - destruct (kmalloc_node_spec _ Hp _ Ha s live sz node Hk Hn Hsz) as (s1 & p1 & Hm1 & Hl & Ho).
    rewrite Hm in Hm1. injection Hm1 as <- <-. destruct Ho as [(-> & Hc & _)|(Hp0 & b & Hge & Hnone & Hk')].
    + exists live. split; [|done]. split; [|done]. by eapply same_core_kcore; [|apply Hk].
    + rewrite (proj2 (Z.eqb_neq _ _) Hp0). exists (<[p := b]> live). split; [done|].
      intros q z. destruct (decide (q = p)) as [->|Hqp].
      * rewrite !lookup_insert_eq. intros [= <-]. split; [lia|]. eauto.
      * rewrite !lookup_insert_ne by done. apply Hb.
  - destruct (Hb _ _ Hbp) as (Hsz & b & Hlive & Hle).
    destruct (kc_live _ _ _ _ (proj1 Hk) _ _ Hlive) as [Hb0 [(n & ci & Hn & Hci & Hs & ->)|Hbump]].
    + destruct (kfree_slab_spec _ Hp _ Ha _ _ _ _ _ Hk Hn Hci Hs Hlive) as (s1 & Hs1 & Hk1 & _).
      rewrite Hf in Hs1. injection Hs1 as <-. exists (delete p live). split; [done|].
      intros q z [Hqp Hq]%lookup_delete_Some. rewrite lookup_delete_ne by done. by apply Hb.
    + rewrite (kfree_bump_spec _ Hp _ Ha _ _ _ _ Hk Hb0 Hbump) in Hf. injection Hf as <-.
      exists live. split; [done|]. intros q z [_ Hq]%lookup_delete_Some. by apply Hb.
  - destruct (Hb _ _ Hbp) as (Hsz & b & Hlive & Hle). exists live. split; [|done].
    split; [|apply Hk]. apply (kcore_store _ _ Ha _ _ p b); [apply Hk|done|lia].
Qed.

Lemma run_ok_init active s0 :
  pool_ok heap_pool -> (1 <= active <= 8)%nat ->
  run_ok active (kmalloc_init heap_pool s0 (Z.of_nat active)) ∅.
Proof.
  intros Hp Ha. exists ∅. split; [|intros p sz; by rewrite lookup_empty].
  by apply init_kinv, kmalloc_init_ok.
Qed.

Lemma run_ok_reachable active s0 c :
  pool_ok heap_pool -> (1 <= active <= 8)%nat ->
  rtc kstep (kmalloc_init heap_pool s0 (Z.of_nat active), ∅) c -> run_ok active c.1 c.2.
Proof.
  intros Hp Ha Hs. pose proof (run_ok_init active s0 Hp Ha) as H. revert H.
  change (run_ok active (kmalloc_init heap_pool s0 (Z.of_nat active)) ∅) with
    (run_ok active (kmalloc_init heap_pool s0 (Z.of_nat active), ∅ : gmap Z Z).1
      (kmalloc_init heap_pool s0 (Z.of_nat active), ∅ : gmap Z Z).2).
  induction Hs as [c|c c' c'' Hs _ IH]; intros H; [done|]. apply IH. by eapply run_ok_step.
Qed.


(** C34. A request of at most 4096 bytes returns, and it is refused only when no
    node has a free object of the size class and bump_alloc fails on every
    node; a refusal leaves the heap as it was. *)
Theorem kmalloc_complete active s0 s blocks sz node :
  pool_ok heap_pool -> (1 <= active <= 8)%nat ->
  rtc kstep (kmalloc_init heap_pool s0 (Z.of_nat active), ∅) (s, blocks) ->
  0 <= node -> 0 < sz <= 4096 ->
  exists s' p, kmalloc_node heap_pool s sz node = Some (s', p) /\
    (p = 0 -> same_core s s' /\
       forall n, (n < active)%nat ->
         free_count (caches s n (cidx_for sz)) = 0 /\ (bump_alloc sz n s).2 = 0).
Proof.
  intros Hp Ha Hs Hn Hsz. apply run_ok_reachable in Hs as (live & Hk & _); [|done|done].
  destruct (kmalloc_node_spec _ Hp _ Ha s live sz node Hk Hn ltac:(lia)) as (s' & p & Hm & _ & Ho).
  exists s', p. split; [done|]. intros ->. destruct Ho as [(_ & Hc & Hf & Hb)|(Hp0 & _)]; [|done].
  split; [done|]. intros n Hna. split; [|by apply Hb]. apply Hf; [|done].
  destruct (cidx_for_spec _ Ha sz) as (_ & _ & H). apply H. lia.
Qed.

(** The head of the free list of the right class of the asked node is what
    kmalloc_node returns, and it leaves one free object fewer. *)
Lemma kmalloc_node_head active s n ci sz p :
  (1 <= active <= 8)%nat -> 0 < heap_pool -> active_nodes s = active -> unlocked s -> (n < active)%nat ->
  (ci < 9)%nat -> cidx_for sz = ci -> sz <> 0 -> freelist (caches s n ci) = p ->
  heap_pool <= p < heap_pool + HEAP_POOL_SIZE ->
  exists s', kmalloc_node heap_pool s sz (Z.of_nat n) = Some (s', p) /\
    free_count (caches s' n ci) = u64 (free_count (caches s n ci) - 1).
Proof.
  intros Ha Hp0 Hact Hl Hn Hci Hcidx Hsz Hfl Hp. unfold kmalloc_node.
  rewrite (proj2 (Z.eqb_neq _ _) Hsz), Hact, (proj2 (Z.leb_gt (Z.of_nat active) _)) by lia.
  rewrite Nat2Z.id, Hcidx, (proj2 (Nat.ltb_lt ci KMALLOC_NUM_CACHES)) by (unfold KMALLOC_NUM_CACHES; lia).
  unfold try_nodes, locked, nlock. rewrite (Hl n) by lia. cbn [mbind option_bind].
  unfold alloc_from_node. simpl. rewrite Hfl, (proj2 (Z.eqb_neq p 0)) by lia.
  assert (fl_valid heap_pool p = true) as ->.
  { unfold fl_valid. apply andb_true_intro. split; [apply Z.leb_le|apply Z.ltb_lt]; lia. }
  cbn [negb]. cbn [mbind option_bind]. rewrite (proj2 (Z.eqb_neq p 0)) by lia.
  cbn [negb mbind option_bind]. rewrite (proj2 (Z.eqb_neq p 0)) by lia. eexists. split; [done|].
  simpl. by rewrite nupd2_eq.
Qed.

(** Freeing an object of a cache and asking the same node for an object of
    its class gives the same address back: freed memory is reused. *)
Theorem kfree_kmalloc_reuse active s0 s blocks p sz n ci :
  pool_ok heap_pool -> (1 <= active <= 8)%nat ->
  rtc kstep (kmalloc_init heap_pool s0 (Z.of_nat active), ∅) (s, blocks) ->
  blocks !! p = Some sz -> (n < active)%nat -> (ci < 9)%nat -> is_slot heap_pool active n ci p ->
  exists s1 s2, kfree heap_pool s p = Some s1 /\
    kmalloc_node heap_pool s1 (cache_size ci) (Z.of_nat n) = Some (s2, p).
Proof.
  intros Hp Ha Hs Hb Hn Hci Hslot. apply run_ok_reachable in Hs as (live & Hk & Hl); [|done|done].
  destruct (Hl _ _ Hb) as (Hsz & b & Hlive & _).
  assert (b = cache_size ci) as ->.
  { destruct (kc_cache _ _ _ _ (proj1 Hk) n ci Hn Hci) as (_ & _ & _ & fl & _ & _ & _ & Hfl & Hall).
    destruct (Hall p Hslot) as [Hin|Hin]; [|congruence]. destruct (Hfl p Hin). congruence. }
  destruct (kfree_slab_spec _ Hp _ Ha _ _ _ _ _ Hk Hn Hci Hslot Hlive)
    as (s1 & Hs1 & [Hk1 Hl1] & Hfl & _).
  exists s1. destruct (slot_in_pool _ _ Ha n ci p Hn Hci Hslot) as [Hlo Hhi].
  destruct (cls_facts ci Hci) as (_ & _ & Hcs & _). destruct Hp as (Hp0 & _ & _).
  assert (Hcidx : cidx_for (cache_size ci) = ci).
  { clear -Hci. do 9 (destruct ci as [|ci]; [done|]). lia. }
  destruct (kmalloc_node_head active s1 n ci (cache_size ci) p) as (s2 & Hs2 & _); try done; try lia;
    [by apply Hk1|]. by exists s2.
Qed.

(** With one, two, four or eight nodes every block is 16-byte aligned. *)
Theorem kmalloc_aligned active s0 s blocks p sz :
  pool_ok heap_pool -> active = 1%nat \/ active = 2%nat \/ active = 4%nat \/ active = 8%nat ->
  rtc kstep (kmalloc_init heap_pool s0 (Z.of_nat active), ∅) (s, blocks) ->
  blocks !! p = Some sz -> p mod 16 = 0.
Proof.
  intros Hp Ha Hs Hb. assert (Ha8 : (1 <= active <= 8)%nat) by lia.
  assert (Hper : per_node active mod 16 = 0) by (destruct Ha as [->|[->|[->| ->]]]; by vm_compute).
  apply run_ok_reachable in Hs as (live & Hk & Hl); [|done|done].
  destruct (Hl _ _ Hb) as (Hsz & b & Hlive & _).
  by eapply live_aligned; [exact Hp|exact Ha8|exact Hper|apply Hk|exact Hlive].
Qed.

(** A pool split over three nodes is not cut at granule boundaries, and the
    first 16-byte object of the second node is at an odd address: it cannot
    hold a red-black tree node, whose parent word needs bit 0. *)
Theorem kmalloc_three_nodes_odd s0 :
  pool_ok heap_pool ->
  exists s' p, kmalloc_node heap_pool (kmalloc_init heap_pool s0 3) 16 1 = Some (s', p) /\
    p <> 0 /\ p mod 2 = 1.
Proof.
  intros Hp. pose proof (kmalloc_init_ok _ Hp 3 ltac:(lia) s0) as H.
  change (Z.of_nat 3) with 3 in H. revert H. generalize (kmalloc_init heap_pool s0 3). intros s H.
  destruct (io_cache _ _ _ _ _ H 1 0) as (Hc & _ & _); [unfold before; lia|lia|].
  assert (Hs : slot heap_pool 3 1 0 0 = heap_pool + 5592405).
  { unfold slot, cls_lo, node_lo. change (per_node 3) with 5592405. change (cls_off 0) with 0. lia. }
  destruct Hp as (Hp0 & Hpm & _).
  destruct (kmalloc_node_head 3 s 1 0 16 (heap_pool + 5592405)) as (s' & Hs' & _);
    [lia|done|apply H| |lia|lia|done|lia|by rewrite Hc|unfold HEAP_POOL_SIZE; lia|].
  - intros n Hn. by apply (io_lock _ _ _ _ _ H).
  - exists s', (heap_pool + 5592405). split; [done|]. split; [lia|]. zlia.
Qed.

(** The bounds test of bump_alloc adds the size to the pointer without an
    overflow check: a request of 2^64 - 557056 bytes succeeds and moves the
    bump pointer back to the start of the slab caches. *)
Theorem kmalloc_huge_request_wraps s0 :
  pool_ok heap_pool ->
  exists s' p, kmalloc_node heap_pool (kmalloc_init heap_pool s0 1) (2 ^ 64 - 557056) 0 = Some (s', p) /\
    p <> 0 /\ bump_ptr s' 0%nat <= heap_pool + 63.
Proof.
  intros Hp. pose proof (kmalloc_init_ok _ Hp 1 ltac:(lia) s0) as H.
  change (Z.of_nat 1) with 1 in H. revert H. generalize (kmalloc_init heap_pool s0 1). intros s H.
  destruct (io_bump _ _ _ _ _ H 0%nat) as (Hb1 & Hb2 & _); [lia|].
  destruct Hp as (Hp0 & Hpm & Hp63). unfold kmalloc_node. cbn [Z.eqb].
  rewrite (io_active _ _ _ _ _ H). change (cidx_for (2 ^ 64 - 557056)) with 9%nat.
  change (if Z.of_nat 1 <=? 0 then 0%nat else Z.to_nat 0) with 0%nat.
  change (9 <? KMALLOC_NUM_CACHES)%nat with false.
  cbn [mbind option_bind Z.eqb negb]. unfold try_nodes, locked, nlock.
  rewrite (io_lock _ _ _ _ _ H 0%nat) by lia. cbn [mbind option_bind].
  unfold bump_alloc. simpl bump_ptr. simpl bump_end. rewrite Hb1, Hb2.
  rewrite (node_lo_S _ 1), cls_lo_9 by lia. unfold node_lo. change (per_node 1) with HEAP_POOL_SIZE.
  rewrite Z.mul_0_l, Z.add_0_r.
  destruct (align64 1 ltac:(lia) (heap_pool + 557056)) as [Ha _]; [unfold HEAP_POOL_SIZE in *; lia|].
  set (a := Z.land _ _) in *.
  assert (u64 (a + (2 ^ 64 - 557056)) = a - 557056) as ->.
  { unfold u64. replace (a + (2 ^ 64 - 557056)) with (a - 557056 + 1 * 2 ^ 64) by lia.
    rewrite Z.mod_add by lia. apply Z.mod_small. unfold HEAP_POOL_SIZE in *. lia. }
  rewrite (proj2 (Z.ltb_ge _ _)) by (unfold HEAP_POOL_SIZE; lia).
  cbn [mbind option_bind]. rewrite (proj2 (Z.eqb_neq a 0)) by lia. cbn [negb].
  eexists _, a. split; [reflexivity|]. split; [lia|]. simpl. rewrite nupd_eq. lia.
Qed.
End props.

(** ** Witnesses: a pool at 1 MB, one node, one 16-byte object in use *)

Definition wit_heap : kheap :=
  KHeap (fun _ => 0) (fun _ => 0) (fun _ _ => KmemCache 0 0 0 0 0) (fun _ => 0) (fun _ => 0)
    (fun _ => true) (fun _ => 0) (fun _ => 0) 0.

Lemma wit_pool : pool_ok 1048576.
Proof. by vm_compute. Qed.

Lemma wit_run : exists s,
  rtc (kstep 1048576) (kmalloc_init 1048576 wit_heap (Z.of_nat 1), ∅) (s, {[1048576 := 10]}).
Proof.
  pose proof (kmalloc_init_ok _ wit_pool 1 ltac:(lia) wit_heap) as H. revert H.
  generalize (kmalloc_init 1048576 wit_heap (Z.of_nat 1)). intros s H.
  destruct (io_cache _ _ _ _ _ H 0 0) as (Hc & _ & _); [unfold before; lia|lia|].
  destruct (kmalloc_node_head 1048576 1 s 0 0 10 1048576) as (s' & Hs' & _);
    [lia|done|apply H| |lia|lia|done|lia|by rewrite Hc|unfold HEAP_POOL_SIZE; lia|].
  { intros n Hn. by apply (io_lock _ _ _ _ _ H). }
  exists s'. eapply rtc_l; [|apply rtc_refl]. apply (KAlloc _ _ _ 10 0 s' 1048576); [lia|lia|done].
Qed.


Lemma kmalloc_complete_witness : exists s s' p,
  kmalloc_node 1048576 s 100 0 = Some (s', p) /\
  (p = 0 -> same_core s s' /\ forall n, (n < 1)%nat ->
     free_count (caches s n (cidx_for 100)) = 0 /\ (bump_alloc 100 n s).2 = 0).
Proof.
  destruct wit_run as [s Hs]. exists s.
  apply (kmalloc_complete 1048576 1 wit_heap s {[1048576 := 10]} 100 0 wit_pool ltac:(lia) Hs); lia.
Defined.

Lemma kfree_kmalloc_reuse_witness : exists s s1 s2,
  kfree 1048576 s 1048576 = Some s1 /\
  kmalloc_node 1048576 s1 (cache_size 0) (Z.of_nat 0) = Some (s2, 1048576).
Proof.
  destruct wit_run as [s Hs]. exists s.
  apply (kfree_kmalloc_reuse 1048576 1 wit_heap s {[1048576 := 10]} 1048576 10 0 0 wit_pool ltac:(lia) Hs).
  - apply lookup_singleton_eq.
  - lia.
  - lia.
  - exists 0. by vm_compute.
Defined.

Lemma kmalloc_aligned_witness : exists s,
  rtc (kstep 1048576) (kmalloc_init 1048576 wit_heap (Z.of_nat 1), ∅) (s, {[1048576 := 10]}) /\ 1048576 mod 16 = 0.
Proof.
  destruct wit_run as [s Hs]. exists s. split; [exact Hs|].
  apply (kmalloc_aligned 1048576 1 wit_heap s {[1048576 := 10]} 1048576 10 wit_pool (or_introl eq_refl) Hs).
  apply lookup_singleton_eq.
Defined.

Lemma kmalloc_three_nodes_odd_witness : exists s' p,
  kmalloc_node 1048576 (kmalloc_init 1048576 wit_heap 3) 16 1 = Some (s', p) /\ p <> 0 /\ p mod 2 = 1.
Proof. apply (kmalloc_three_nodes_odd 1048576 wit_heap wit_pool). Defined.

Lemma kmalloc_huge_request_wraps_witness : exists s' p,
  kmalloc_node 1048576 (kmalloc_init 1048576 wit_heap 1) (2 ^ 64 - 557056) 0 = Some (s', p) /\
  p <> 0 /\ bump_ptr s' 0%nat <= 1048576 + 63.
Proof. apply (kmalloc_huge_request_wraps 1048576 wit_heap wit_pool). Defined.
