(* ===== verification/Context.v ===== *)
(** * Context switching (arch/x86_64/sched.S, frame_init of kern/sched.c)

    The processor's stack pointer, the callee-saved registers and the
    instruction pointer over a memory of 64-bit words.  A thread that switches
    away resumes with the registers it had, and a thread that never ran starts
    in sched_thread_enter with its function and argument. *)

From stdpp Require Import base list.
From Stdlib Require Import ZArith Lia.
From S2P Require Import Prelude.

Record cpu := Cpu {
  rsp : Z; rip : Z; rdi : Z;
  rbx : Z; rbp : Z; r12 : Z; r13 : Z; r14 : Z; r15 : Z;
  intr : bool;                              (* the interrupt flag *)
  tss_rsp0 : Z;
  mem : Z -> Z;                             (* the word at an address *)
}.

Definition set_rsp (v : Z) (c : cpu) : cpu :=
  Cpu v (rip c) (rdi c) (rbx c) (rbp c) (r12 c) (r13 c) (r14 c) (r15 c) (intr c) (tss_rsp0 c) (mem c).
Definition set_rip (v : Z) (c : cpu) : cpu :=
  Cpu (rsp c) v (rdi c) (rbx c) (rbp c) (r12 c) (r13 c) (r14 c) (r15 c) (intr c) (tss_rsp0 c) (mem c).
Definition set_mem (m : Z -> Z) (c : cpu) : cpu :=
  Cpu (rsp c) (rip c) (rdi c) (rbx c) (rbp c) (r12 c) (r13 c) (r14 c) (r15 c) (intr c) (tss_rsp0 c) m.

Definition push (v : Z) (c : cpu) : cpu :=
  set_mem (upd (mem c) (rsp c - 8) v) (set_rsp (rsp c - 8) c).

(** [call f]: the return address is pushed. *)
Definition call (ret f : Z) (c : cpu) : cpu := set_rip f (push ret c).

(** The six pops of the callee-saved registers and the return. *)
Definition pop_frame (c : cpu) : cpu :=
  let m := mem c in let sp := rsp c in
  Cpu (sp + 56) (m (sp + 48)) (rdi c)
    (m (sp + 40)) (m (sp + 32)) (m (sp + 24)) (m (sp + 16)) (m (sp + 8)) (m sp)
    (intr c) (tss_rsp0 c) m.

Definition THREAD_KERNEL_RSP : Z := 0.
Definition THREAD_KSTACK_TOP : Z := 8.

(** gdt_tss_set_rsp0 is called on the new stack: it leaves the return address
    below the stack pointer and sets the stack for the next entry from user
    mode. *)
Definition tss_call (ret next : Z) (c : cpu) : cpu :=
  let top := mem c (next + THREAD_KSTACK_TOP) in
  let c' := call ret 0 (push next c) in
  Cpu (rsp c) (rip c) top (rbx c) (rbp c) (r12 c) (r13 c) (r14 c) (r15 c) (intr c) top (mem c').

(** sched_context_switch(prev, next), entered with the return address on the
    stack; [ret] is the address after the call of gdt_tss_set_rsp0. *)
Definition sched_context_switch (ret prev next : Z) (c : cpu) : cpu :=
  let c := push (rbx c) c in
  let c := push (rbp c) c in
  let c := push (r12 c) c in
  let c := push (r13 c) c in
  let c := push (r14 c) c in
  let c := push (r15 c) c in
  let c := set_mem (upd (mem c) (prev + THREAD_KERNEL_RSP) (rsp c)) c in
  let c := set_rsp (mem c (next + THREAD_KERNEL_RSP)) c in
  pop_frame (tss_call ret next c).

(** sched_thread_enter up to the call of the thread's function. *)
Definition sched_thread_enter (ret : Z) (c : cpu) : cpu :=
  let c := Cpu (rsp c) (rip c) (r12 c) (rbx c) (rbp c) (r12 c) (r13 c) (r14 c) (r15 c) true (tss_rsp0 c) (mem c) in
  call ret (rbx c) c.

(** frame_init(t, fn, arg): the frame is written below kstack_top and its
    address stored as kernel_rsp. *)
Definition frame_init (enter t fn arg : Z) (m : Z -> Z) : Z -> Z :=
  let sp := m (t + THREAD_KSTACK_TOP) in
  let m := upd m (sp - 8) enter in
  let m := upd m (sp - 16) fn in
  let m := upd m (sp - 24) 0 in
  let m := upd m (sp - 32) arg in
  let m := upd m (sp - 40) 0 in
  let m := upd m (sp - 48) 0 in
  let m := upd m (sp - 56) 0 in
  upd m (t + THREAD_KERNEL_RSP) (sp - 56).

(** The words from [a] up to [a + 8 * n]. *)
Definition same_words (a : Z) (n : nat) (m m' : Z -> Z) : Prop :=
  forall k, (k < n)%nat -> m' (a + 8 * Z.of_nat k) = m (a + 8 * Z.of_nat k).

(** A structure of two words at [t] and the stack words [lo] up to [hi] do not
    overlap. *)
Definition apart (t lo hi : Z) : Prop := t + 16 <= lo \/ hi <= t.

Lemma upd_at {A} (f : Z -> A) i j v : j = i -> upd f i v j = v.
Proof. intros ->. apply upd_eq. Qed.

Ltac words := repeat ((rewrite upd_at by lia) || (rewrite upd_ne by lia)).

(** The frame a switch leaves. *)
Lemma switch_saves ret prev next c k :
  prev <> next -> apart prev (rsp c - 64) (rsp c + 8) ->
  (forall a, rsp c - 48 <= a < rsp c + 8 -> a < mem c (next + 0) - 16 \/ mem c (next + 0) <= a) ->
  (prev < mem c (next + 0) - 16 \/ mem c (next + 0) <= prev) ->
  apart next (rsp c - 64) (rsp c + 8) ->
  let c' := sched_context_switch ret prev next c in
  mem c' prev = rsp c - 48 /\
  (0 <= k < 7 -> mem c' (rsp c - 48 + 8 * k) =
     if k =? 0 then r15 c else if k =? 1 then r14 c else if k =? 2 then r13 c else if k =? 3 then r12 c
     else if k =? 4 then rbp c else if k =? 5 then rbx c else mem c (rsp c)).
Proof.
  intros Hne Hp Hs Hsp Hn. unfold apart in *. cbn -[upd Z.mul Z.eqb]. unfold THREAD_KERNEL_RSP.
  rewrite !Z.add_0_r in *.
  assert (Hrsp : upd (upd (upd (upd (upd (upd (upd (mem c) (rsp c - 8) (rbx c)) (rsp c - 8 - 8) (rbp c))
     (rsp c - 8 - 8 - 8) (r12 c)) (rsp c - 8 - 8 - 8 - 8) (r13 c)) (rsp c - 8 - 8 - 8 - 8 - 8) (r14 c))
     (rsp c - 8 - 8 - 8 - 8 - 8 - 8) (r15 c)) prev (rsp c - 8 - 8 - 8 - 8 - 8 - 8) next = mem c next) by (words; done).
  rewrite Hrsp. split.
  - words. lia.
  - intros Hk. assert (Ha : rsp c - 48 <= rsp c - 48 + 8 * k < rsp c + 8) by lia.
    destruct (Hs _ Ha) as [Hlt|Hge]; (rewrite upd_ne by lia); (rewrite upd_ne by lia); (rewrite upd_ne by lia).
    all: assert (k = 0 \/ k = 1 \/ k = 2 \/ k = 3 \/ k = 4 \/ k = 5 \/ k = 6) as Hc by lia.
    all: destruct Hc as [->|[->|[->|[->|[->|[->| ->]]]]]]; simpl; words; try done; f_equal; lia.
Qed.

(** What the memory holds decides where a switch to [next] continues. *)
Lemma switch_enters ret prev next c sp fr :
  prev <> next -> apart prev (rsp c - 48) (rsp c) -> apart next (rsp c - 48) (rsp c) ->
  mem c next = sp -> apart prev sp (sp + 56) -> (rsp c <= sp \/ sp + 56 <= rsp c - 48) ->
  length fr = 7%nat -> (forall k v, fr !! k = Some v -> mem c (sp + 8 * Z.of_nat k) = v) ->
  let c' := sched_context_switch ret prev next c in
  [r15 c'; r14 c'; r13 c'; r12 c'; rbp c'; rbx c'; rip c'] = fr /\ rsp c' = sp + 56.
Proof.
  intros Hne Hp Hn Hsp Hps Hst Hlen Hfr.
  destruct fr as [|v0 [|v1 [|v2 [|v3 [|v4 [|v5 [|v6 [|]]]]]]]]; try discriminate Hlen.
  unfold apart in *. cbn -[upd Z.mul Z.eqb]. unfold THREAD_KERNEL_RSP. rewrite !Z.add_0_r.
  assert (Hrsp : upd (upd (upd (upd (upd (upd (upd (mem c) (rsp c - 8) (rbx c)) (rsp c - 8 - 8) (rbp c))
     (rsp c - 8 - 8 - 8) (r12 c)) (rsp c - 8 - 8 - 8 - 8) (r13 c)) (rsp c - 8 - 8 - 8 - 8 - 8) (r14 c))
     (rsp c - 8 - 8 - 8 - 8 - 8 - 8) (r15 c)) prev (rsp c - 8 - 8 - 8 - 8 - 8 - 8) next = sp) by (words; done).
  rewrite Hrsp. split; [|done].
  pose proof (Hfr 0%nat _ eq_refl) as <-. pose proof (Hfr 1%nat _ eq_refl) as <-.
  pose proof (Hfr 2%nat _ eq_refl) as <-. pose proof (Hfr 3%nat _ eq_refl) as <-.
  pose proof (Hfr 4%nat _ eq_refl) as <-. pose proof (Hfr 5%nat _ eq_refl) as <-.
  pose proof (Hfr 6%nat _ eq_refl) as <-. words. simpl. by rewrite Z.add_0_r.
Qed.

(** A thread [prev] that switches away and is switched back to, possibly
    on another CPU, by a thread [other], resumes where it called
    sched_context_switch with its callee-saved registers and stack pointer,
    provided nobody wrote its frame and its saved stack pointer meanwhile. *)
Theorem context_switch_roundtrip ret ret' prev next other c c2 :
  prev <> next -> apart prev (rsp c - 64) (rsp c + 8) -> apart next (rsp c - 64) (rsp c + 8) ->
  (forall a, rsp c - 48 <= a < rsp c + 8 -> a < mem c next - 16 \/ mem c next <= a) ->
  (prev < mem c next - 16 \/ mem c next <= prev) ->
  (* meanwhile *)
  mem c2 prev = mem (sched_context_switch ret prev next c) prev ->
  same_words (rsp c - 48) 7 (mem (sched_context_switch ret prev next c)) (mem c2) ->
  (* back *)
  other <> prev -> apart other (rsp c2 - 48) (rsp c2) -> apart prev (rsp c2 - 48) (rsp c2) ->
  apart other (rsp c - 48) (rsp c + 8) -> (rsp c2 <= rsp c - 48 \/ rsp c + 8 <= rsp c2 - 48) ->
  let c' := sched_context_switch ret' other prev c2 in
  (rbx c', rbp c', r12 c', r13 c', r14 c', r15 c') = (rbx c, rbp c, r12 c, r13 c, r14 c, r15 c) /\
  rip c' = mem c (rsp c) /\ rsp c' = rsp c + 8.
Proof.
  intros Hne Hp Hn Hs Hsp Hm Hw Hone Ho Hp2 Hof Hst. cbv zeta.
  assert (Hsv : forall k, mem (sched_context_switch ret prev next c) prev = rsp c - 48 /\
    (0 <= k < 7 -> mem (sched_context_switch ret prev next c) (rsp c - 48 + 8 * k) =
     if k =? 0 then r15 c else if k =? 1 then r14 c else if k =? 2 then r13 c else if k =? 3 then r12 c
     else if k =? 4 then rbp c else if k =? 5 then rbx c else mem c (rsp c))).
  { intros k. apply switch_saves; rewrite ?Z.add_0_r; done. }
  destruct (Hsv 0) as [Hrsp _].
  destruct (switch_enters ret' other prev c2 (rsp c - 48)
              [r15 c; r14 c; r13 c; r12 c; rbp c; rbx c; mem c (rsp c)]) as [Hregs Hrsp']; try done.
  - congruence.
  - by replace (rsp c - 48 + 56) with (rsp c + 8) by lia.
  - lia.
  - intros k v Hk. pose proof (lookup_lt_Some _ _ _ Hk) as Hk7. simpl in Hk7.
    rewrite (Hw k Hk7). rewrite (proj2 (Hsv (Z.of_nat k))) by lia.
    do 7 (destruct k as [|k]; [by injection Hk as <-|]). lia.
  - cbv zeta in Hregs, Hrsp'. generalize dependent (sched_context_switch ret' other prev c2). intros c' Hregs Hrsp'.
    injection Hregs as -> -> -> -> -> -> ->. split; [done|]. split; [done|]. rewrite Hrsp'. lia.
Qed.

(** The first switch to a thread set up by frame_init runs its function
    with its argument, with interrupts on and the stack at its top. *)
Theorem thread_starts_in_fn enter t fn arg m ret ret' prev c :
  let top := m (t + THREAD_KSTACK_TOP) in
  prev <> t -> apart t (top - 56) top -> apart prev (top - 56) top ->
  mem c = frame_init enter t fn arg m ->
  apart prev (rsp c - 48) (rsp c) -> apart t (rsp c - 48) (rsp c) ->
  (rsp c <= top - 56 \/ top <= rsp c - 48) ->
  let c1 := sched_context_switch ret prev t c in
  let c2 := sched_thread_enter ret' c1 in
  rip c1 = enter /\ rsp c1 = top /\ rip c2 = fn /\ rdi c2 = arg /\ intr c2 = true.
Proof.
  intros top Hne Ht Hp Hm Hpc Htc Hst. cbv zeta.
  assert (Hfr : forall k v, [0; 0; 0; arg; 0; fn; enter] !! k = Some v -> mem c (top - 56 + 8 * Z.of_nat k) = v).
  { intros k v Hk. rewrite Hm. unfold frame_init, THREAD_KERNEL_RSP. fold top. unfold apart in *.
    do 7 (destruct k as [|k]; [injection Hk as <-; simpl; words; done|]). done. }
  assert (Hsp : mem c t = top - 56).
  { rewrite Hm. unfold frame_init, THREAD_KERNEL_RSP. fold top. rewrite Z.add_0_r. apply upd_eq. }
  destruct (switch_enters ret prev t c (top - 56) [0; 0; 0; arg; 0; fn; enter]) as [Hregs Hrsp]; try done.
  - by replace (top - 56 + 56) with top by lia.
  - lia.
  - cbv zeta in Hregs, Hrsp. generalize dependent (sched_context_switch ret prev t c). intros c' Hregs Hrsp.
    injection Hregs as _ _ _ Hr12 _ Hrbx Hrip. split; [done|]. split; [lia|]. simpl. split_and!; done.
Qed.

(** ** Witnesses *)

Definition wit_cpu (m : Z -> Z) : cpu := Cpu 8000 0 0 1 2 3 4 5 6 false 0 m.
Definition wit_mem : Z -> Z := upd (upd (upd (fun _ => 0) 8000 77) 200 4000) 208 5000.

Definition wit_back (m : Z -> Z) : cpu := Cpu 6000 0 0 0 0 0 0 0 0 false 0 m.

Lemma wit_back_rsp m : rsp (wit_back m) = 6000.
Proof. reflexivity. Qed.

Lemma wit_back_mem m : mem (wit_back m) = m.
Proof. reflexivity. Qed.

Lemma context_switch_roundtrip_witness :
  let c' := sched_context_switch 9 300 100 (wit_back (mem (sched_context_switch 9 100 200 (wit_cpu wit_mem)))) in
  (rbx c', rbp c', r12 c', r13 c', r14 c', r15 c') = (1, 2, 3, 4, 5, 6) /\ rip c' = 77 /\ rsp c' = 8008.
Proof.
  apply (context_switch_roundtrip 9 9 100 200 300 (wit_cpu wit_mem)); unfold apart;
    rewrite ?wit_back_rsp, ?wit_back_mem;
    change (mem (wit_cpu wit_mem) 200) with 4000; change (rsp (wit_cpu wit_mem)) with 8000; try lia.
  intros k _. reflexivity.
Defined.

Definition wit_start : Z -> Z := upd (fun _ => 0) 208 5000.

Lemma thread_starts_in_fn_witness :
  let c2 := sched_thread_enter 9 (sched_context_switch 9 100 200 (wit_cpu (frame_init 70 200 71 72 wit_start))) in
  rip c2 = 71 /\ rdi c2 = 72 /\ intr c2 = true.
Proof.
  cbv zeta.
  assert (Hx := thread_starts_in_fn 70 200 71 72 wit_start 9 9 100 (wit_cpu (frame_init 70 200 71 72 wit_start))).
  change (wit_start (200 + THREAD_KSTACK_TOP)) with 5000 in Hx. cbv zeta in Hx. unfold apart in Hx.
  change (rsp (wit_cpu (frame_init 70 200 71 72 wit_start))) with 8000 in Hx.
  apply Hx; (lia || reflexivity).
Defined.
