(* ===== verification/Sched.v ===== *)
(** * The EEVDF scheduler (kern/sched.c, inc/sched.h, inc/runqueue.h)

    One state holds the thread structures, the cells of the tree nodes embedded
    in them, the heap the threads are allocated from and the run queue of each
    CPU.  Handlers run on the CPU given as an argument (cpu_id()) with
    interrupts off, as functions to [option]: [None] is a dereference of a
    structure that does not exist, or a spin on a lock that is never released.
    What a handler asks of the hardware (inter-processor interrupts, the timer,
    the task state segment, the AMX unit and the context switch itself) is
    recorded in a trace.

    The context switch resumes the next thread: at the end of its own do_switch
    if it was suspended there, with the run queue it was using then ([resume]),
    or at the start of its function if it never ran.

    The tree and the heap are used through their interfaces. *)

From stdpp Require Import base gmap list.
From Stdlib Require Import ZArith Lia Sorted.
From S2P Require Import Prelude RbTreeProof OrdTree Spinlock Allocator.

Inductive thread_state := THREAD_READY | THREAD_RUNNING | THREAD_BLOCKED | THREAD_ZOMBIE.

#[export] Instance thread_state_eq_dec : EqDecision thread_state.
Proof. solve_decision. Defined.

Record thread := Thread {
  th_rsp : Z; th_kstack_top : Z;
  vruntime : Z; vstart : Z; vdeadline : Z;
  tid : Z; th_cpu : Z; state : thread_state;
  slice : Z; weight : Z; inv_weight : Z;
  th_name : Z; kstack_base : Z; kstack_size : Z;
  wq_next : Z; fault_fn : Z; list_next : Z;
  th_frame : list Z;                     (* the words frame_init pushed, from th_rsp up *)
}.

(** offsetof(sched_thread_t, rb), sizeof(sched_thread_t) *)
Definition RB_OFF : Z := 128.
Definition THREAD_SIZE : Z := 184.
Definition rb_of (t : Z) : Z := t + RB_OFF.
Definition rb_entry (n : Z) : Z := n - RB_OFF.

Definition NICE_0_LOAD : Z := 1024.
Definition WEIGHT_DEFAULT : Z := NICE_0_LOAD.
Definition SLICE_VTIME : Z := 5.
Definition SCHED_KSTACK_SIZE : Z := 16384.
Definition SCHED_DEFAULT_QUANTUM : Z := 5.
Definition SCHED_MAX_CPUS : nat := 16.
Definition SCHED_IPI_VECTOR : Z := 238.
Definition HRTIMER_MIN_NS : Z := 50000.
Definition INT64_MAX : Z := 2 ^ 63 - 1.
Definition UINT32_MAX : Z := 2 ^ 32 - 1.
Definition IDLE_STACK_SZ : Z := 8192.

Record runqueue := Runqueue {
  rq_lock : spinlock; rq_tree : Z; min_vruntime : Z; nr_running : Z;
  current : Z; idle : Z; corpse : Z;
}.

Definition zero_rq : runqueue := Runqueue spinlock_init 0 0 0 0 0 0.
Definition zero_thread : thread :=
  Thread 0 0 0 0 0 0 0 THREAD_READY 0 0 0 0 0 0 0 0 0 [].

Inductive event :=
| EvIpi (cpu vector : Z)
| EvArm (ns : Z)
| EvTssRsp0 (rsp : Z)
| EvAmxOut (t : Z) | EvAmxIn (t : Z) | EvAmxFree (t : Z)
| EvSetGate (vector : Z)
| EvFaultFn (fn t : Z)
| EvEoi | EvKsshTick (ticks : Z)
| EvSwitch (prev next : Z).

(** ** Field updates *)

Definition set_vruntime (v : Z) (t : thread) : thread :=
  Thread (th_rsp t) (th_kstack_top t) v (vstart t) (vdeadline t) (tid t) (th_cpu t) (state t)
    (slice t) (weight t) (inv_weight t) (th_name t) (kstack_base t) (kstack_size t) (wq_next t)
    (fault_fn t) (list_next t) (th_frame t).
Definition set_vstart (v : Z) (t : thread) : thread :=
  Thread (th_rsp t) (th_kstack_top t) (vruntime t) v (vdeadline t) (tid t) (th_cpu t) (state t)
    (slice t) (weight t) (inv_weight t) (th_name t) (kstack_base t) (kstack_size t) (wq_next t)
    (fault_fn t) (list_next t) (th_frame t).
Definition set_vdeadline (v : Z) (t : thread) : thread :=
  Thread (th_rsp t) (th_kstack_top t) (vruntime t) (vstart t) v (tid t) (th_cpu t) (state t)
    (slice t) (weight t) (inv_weight t) (th_name t) (kstack_base t) (kstack_size t) (wq_next t)
    (fault_fn t) (list_next t) (th_frame t).
Definition set_cpu (c : Z) (t : thread) : thread :=
  Thread (th_rsp t) (th_kstack_top t) (vruntime t) (vstart t) (vdeadline t) (tid t) c (state t)
    (slice t) (weight t) (inv_weight t) (th_name t) (kstack_base t) (kstack_size t) (wq_next t)
    (fault_fn t) (list_next t) (th_frame t).
Definition set_state (st : thread_state) (t : thread) : thread :=
  Thread (th_rsp t) (th_kstack_top t) (vruntime t) (vstart t) (vdeadline t) (tid t) (th_cpu t) st
    (slice t) (weight t) (inv_weight t) (th_name t) (kstack_base t) (kstack_size t) (wq_next t)
    (fault_fn t) (list_next t) (th_frame t).
Definition set_weights (w iw : Z) (t : thread) : thread :=
  Thread (th_rsp t) (th_kstack_top t) (vruntime t) (vstart t) (vdeadline t) (tid t) (th_cpu t)
    (state t) (slice t) w iw (th_name t) (kstack_base t) (kstack_size t) (wq_next t)
    (fault_fn t) (list_next t) (th_frame t).
Definition set_list_next (n : Z) (t : thread) : thread :=
  Thread (th_rsp t) (th_kstack_top t) (vruntime t) (vstart t) (vdeadline t) (tid t) (th_cpu t)
    (state t) (slice t) (weight t) (inv_weight t) (th_name t) (kstack_base t) (kstack_size t)
    (wq_next t) (fault_fn t) n (th_frame t).
Definition set_wq_next (n : Z) (t : thread) : thread :=
  Thread (th_rsp t) (th_kstack_top t) (vruntime t) (vstart t) (vdeadline t) (tid t) (th_cpu t)
    (state t) (slice t) (weight t) (inv_weight t) (th_name t) (kstack_base t) (kstack_size t)
    n (fault_fn t) (list_next t) (th_frame t).

Definition rq_set_lock (l : spinlock) (r : runqueue) : runqueue :=
  Runqueue l (rq_tree r) (min_vruntime r) (nr_running r) (current r) (idle r) (corpse r).
Definition rq_set_tree (p n : Z) (r : runqueue) : runqueue :=
  Runqueue (rq_lock r) p (min_vruntime r) n (current r) (idle r) (corpse r).
Definition rq_set_min (v : Z) (r : runqueue) : runqueue :=
  Runqueue (rq_lock r) (rq_tree r) v (nr_running r) (current r) (idle r) (corpse r).
Definition rq_set_current (t : Z) (r : runqueue) : runqueue :=
  Runqueue (rq_lock r) (rq_tree r) (min_vruntime r) (nr_running r) t (idle r) (corpse r).
Definition rq_set_idle (t : Z) (r : runqueue) : runqueue :=
  Runqueue (rq_lock r) (rq_tree r) (min_vruntime r) (nr_running r) (current r) t (corpse r).
Definition rq_set_corpse (t : Z) (r : runqueue) : runqueue :=
  Runqueue (rq_lock r) (rq_tree r) (min_vruntime r) (nr_running r) (current r) (idle r) t.

(** ** Pure parts *)

Definition slice_ms (w : Z) : Z :=
  let ms := u64 (SLICE_VTIME * w) / NICE_0_LOAD in if ms =? 0 then 1 else ms.

(** The comparison of two threads by virtual deadline, then by thread id. *)
Definition cmp_threads (ta tb : thread) : Z :=
  if negb (vdeadline ta =? vdeadline tb) then (if vdeadline ta <? vdeadline tb then -1 else 1)
  else if tid ta <? tid tb then -1 else if tid tb <? tid ta then 1 else 0.

(** The stack frame of a thread that never ran: the registers
    sched_context_switch pops (r15, r14, r13, r12, rbp, rbx) and the return
    address sched_thread_enter. *)
Definition frame_init (enter fn arg : Z) (t : thread) : thread :=
  Thread (th_kstack_top t - 56) (th_kstack_top t) (vruntime t) (vstart t) (vdeadline t) (tid t)
    (th_cpu t) (state t) (slice t) (weight t) (inv_weight t) (th_name t) (kstack_base t)
    (kstack_size t) (wq_next t) (fault_fn t) (list_next t) [0; 0; 0; arg; 0; fn; enter].

(** The table of sched_set_priority. *)
Definition ptw : list Z :=
  [88761; 71755; 56483; 46273; 36291; 29154; 23254; 18705; 14949; 11916;
   9548; 7620; 6100; 4904; 3906; 3121; 2501; 1991; 1586; 1277;
   1024; 820; 655; 526; 423; 335; 272; 215; 172; 137;
   110; 87; 70; 56; 45; 36; 29; 23; 18; 15].

Definition prio_weight (prio : Z) : Z :=
  let prio := if prio <? -20 then -20 else prio in
  let prio := if 19 <? prio then 19 else prio in
  nth (Z.to_nat (prio + 20)) ptw 0.

Section sched.
Context {H A : Type} `{OrdTree H} `{Allocator A}.

(** Addresses fixed by the linker: the boot thread and its name, the idle
    threads with their names and stacks, and the code of new threads. *)
Context (boot_thread boot_name : Z) (idle_threads idle_names idle_stacks : nat -> Z)
  (sched_thread_enter idle_fn : Z).

Record sched := Sched {
  threads : gmap Z thread;
  nodes : H;
  heap : A;
  rqs : nat -> runqueue;
  g_tlist : Z; g_tlist_lock : spinlock;
  next_tid : Z; sched_up : bool; g_sched_ticks : Z;
  resume : gmap Z nat;
  trace : list event;
}.

Definition with_threads (s : sched) (m : gmap Z thread) : sched :=
  Sched m (nodes s) (heap s) (rqs s) (g_tlist s) (g_tlist_lock s) (next_tid s) (sched_up s)
    (g_sched_ticks s) (resume s) (trace s).
Definition with_nodes (s : sched) (h : H) : sched :=
  Sched (threads s) h (heap s) (rqs s) (g_tlist s) (g_tlist_lock s) (next_tid s) (sched_up s)
    (g_sched_ticks s) (resume s) (trace s).
Definition with_heap (s : sched) (h : A) : sched :=
  Sched (threads s) (nodes s) h (rqs s) (g_tlist s) (g_tlist_lock s) (next_tid s) (sched_up s)
    (g_sched_ticks s) (resume s) (trace s).
Definition with_rqs (s : sched) (r : nat -> runqueue) : sched :=
  Sched (threads s) (nodes s) (heap s) r (g_tlist s) (g_tlist_lock s) (next_tid s) (sched_up s)
    (g_sched_ticks s) (resume s) (trace s).
Definition with_tlist (s : sched) (p : Z) (l : spinlock) : sched :=
  Sched (threads s) (nodes s) (heap s) (rqs s) p l (next_tid s) (sched_up s)
    (g_sched_ticks s) (resume s) (trace s).
Definition with_tid (s : sched) (n : Z) : sched :=
  Sched (threads s) (nodes s) (heap s) (rqs s) (g_tlist s) (g_tlist_lock s) n (sched_up s)
    (g_sched_ticks s) (resume s) (trace s).
Definition with_up (s : sched) (b : bool) : sched :=
  Sched (threads s) (nodes s) (heap s) (rqs s) (g_tlist s) (g_tlist_lock s) (next_tid s) b
    (g_sched_ticks s) (resume s) (trace s).
Definition with_ticks (s : sched) (n : Z) : sched :=
  Sched (threads s) (nodes s) (heap s) (rqs s) (g_tlist s) (g_tlist_lock s) (next_tid s)
    (sched_up s) n (resume s) (trace s).
Definition with_resume (s : sched) (m : gmap Z nat) : sched :=
  Sched (threads s) (nodes s) (heap s) (rqs s) (g_tlist s) (g_tlist_lock s) (next_tid s)
    (sched_up s) (g_sched_ticks s) m (trace s).
Definition emit (s : sched) (e : event) : sched :=
  Sched (threads s) (nodes s) (heap s) (rqs s) (g_tlist s) (g_tlist_lock s) (next_tid s)
    (sched_up s) (g_sched_ticks s) (resume s) (e :: trace s).

Definition rq_upd (s : sched) (c : nat) (f : runqueue -> runqueue) : sched :=
  with_rqs s (nupd (rqs s) c (f (rqs s c))).

Definition th_upd (s : sched) (t : Z) (f : thread -> thread) : option sched :=
  th ← threads s !! t; Some (with_threads s (<[t := f th]> (threads s))).

(** A thread structure set up by frame_init: nothing is suspended on its
    stack. *)
Definition start_frame (s : sched) (t : Z) (th : thread) : sched :=
  with_resume (with_threads s (<[t := th]> (threads s))) (delete t (resume s)).

Definition rq_spin_lock (s : sched) (c : nat) : option sched :=
  l ← spin_lock (rq_lock (rqs s c)); Some (rq_upd s c (rq_set_lock l)).
Definition rq_spin_unlock (s : sched) (c : nat) : sched :=
  rq_upd s c (fun r => rq_set_lock (spin_unlock (rq_lock r)) r).

(** ** The global thread list *)

Definition alloc_tid (s : sched) : Z * sched := (next_tid s, with_tid s (u32 (next_tid s + 1))).

Definition tlist_add (s : sched) (t : Z) : option sched :=
  l ← spin_lock (g_tlist_lock s);
  s ← th_upd s t (set_list_next (g_tlist s));
  Some (with_tlist s t (spin_unlock l)).

(** [sched_thread_t **p]: the address of the list head or of a list_next. *)
Inductive tlink := TlHead | TlNext (t : Z).

Definition tl_read (s : sched) (p : tlink) : option Z :=
  match p with
  | TlHead => Some (g_tlist s)
  | TlNext t => th ← threads s !! t; Some (list_next th)
  end.

(** [while ( *p && *p != t) p = &( *p)->list_next;] *)
Fixpoint tl_find (fuel : nat) (s : sched) (p : tlink) (t : Z) : option (tlink * Z) :=
  match fuel with
  | O => None
  | S fuel =>
      v ← tl_read s p;
      if (v =? 0) || (v =? t) then Some (p, v) else tl_find fuel s (TlNext v) t
  end.

Definition tlist_remove (s : sched) (t : Z) : option sched :=
  l ← spin_lock (g_tlist_lock s);
  '(p, v) ← tl_find (S (size (threads s))) s TlHead t;
  s ← (if v =? 0 then Some s else
       th ← threads s !! t;
       match p with
       | TlHead => Some (with_tlist s (list_next th) (g_tlist_lock s))
       | TlNext q => th_upd s q (set_list_next (list_next th))
       end);
  Some (with_tlist s (g_tlist s) (spin_unlock l)).

(** ** Run queues *)

(** The tree only holds nodes of existing threads; elsewhere the comparison
    reads a zero structure. *)
Definition thread_at (ths : gmap Z thread) (t : Z) : thread := default zero_thread (ths !! t).

Definition thread_cmp (ths : gmap Z thread) (a b : Z) : Z :=
  cmp_threads (thread_at ths (rb_entry a)) (thread_at ths (rb_entry b)).

Definition rq_insert (s : sched) (c : nat) (t : Z) : option sched :=
  '(h, r) ← ot_insert (thread_cmp (threads s)) (nodes s) (rq_tree (rqs s c)) (rb_of t);
  Some (rq_upd (with_nodes s h) c (fun rq => rq_set_tree r (u32 (nr_running rq + 1)) rq)).

Definition rq_remove (s : sched) (c : nat) (t : Z) : option sched :=
  '(h, r) ← ot_erase (nodes s) (rq_tree (rqs s c)) (rb_of t);
  Some (rq_upd (with_nodes s h) c (fun rq => rq_set_tree r (u32 (nr_running rq - 1)) rq)).

(** The body of a loop [for (n = rb_first(..); n; n = rb_next(n))] that carries
    a value and may stop early. *)
Fixpoint tree_loop {B} (fuel : nat) (s : sched) (n : Z) (f : thread -> Z -> B -> B + B) (b : B) :
    option B :=
  match fuel with
  | O => None
  | S fuel =>
      if n =? 0 then Some b else
      th ← threads s !! rb_entry n;
      match f th (rb_entry n) b with
      | inl b => Some b                                  (* return *)
      | inr b => n ← ot_next (nodes s) n; tree_loop fuel s n f b
      end
  end.

Definition for_tree {B} (s : sched) (c : nat) (f : thread -> Z -> B -> B + B) (b : B) : option B :=
  n ← ot_first (nodes s) (rq_tree (rqs s c));
  tree_loop (S (size (threads s))) s n f b.

Definition rq_min_vr (s : sched) (c : nat) : option Z :=
  let rq := rqs s c in
  min ← (if negb (current rq =? 0) && negb (current rq =? idle rq)
         then th ← threads s !! current rq; Some (vruntime th)
         else Some INT64_MAX);
  min ← for_tree s c (fun th _ min => inr (if vruntime th <? min then vruntime th else min)) min;
  Some (if min =? INT64_MAX then min_vruntime rq else min).

Definition enqueue (s : sched) (c : nat) (t : Z) : option sched :=
  mvr ← rq_min_vr s c;
  let s := if min_vruntime (rqs s c) <? mvr then rq_upd s c (rq_set_min mvr) else s in
  let mv := min_vruntime (rqs s c) in
  s ← th_upd s t (fun th =>
        let vs := if mv <? vruntime th then vruntime th else mv in
        set_state THREAD_READY (set_vdeadline (s64 (vs + SLICE_VTIME)) (set_vstart vs th)));
  rq_insert s c t.

Definition pick_next (s : sched) (c : nat) : option Z :=
  let rq := rqs s c in
  if nr_running rq =? 0 then Some (idle rq) else
  let mvr := min_vruntime rq in
  r ← for_tree s c (fun th t r => if vstart th <=? mvr then inl (Some t) else inr r) None;
  match r with
  | Some t => Some t
  | None =>
      best ← for_tree s c (fun th t (best : option (Z * thread)) =>
        match best with
        | None => inr (Some (t, th))
        | Some (_, tb) =>
            if (vruntime th <? vruntime tb) || ((vruntime th =? vruntime tb) && (tid th <? tid tb))
            then inr (Some (t, th)) else inr best
        end) None;
      match best with Some (t, _) => Some t | None => Some (idle rq) end
  end.

(** do_switch up to the context switch: the run queue lock is released here. *)
Definition do_switch_commit (s : sched) (c : nat) (prev next : Z) : option sched :=
  s ← th_upd s next (fun th => set_cpu (Z.of_nat c) (set_state THREAD_RUNNING th));
  let s := rq_upd s c (rq_set_current next) in
  let s := rq_spin_unlock s c in
  let s := emit (emit s (EvAmxOut prev)) (EvAmxIn next) in
  th ← threads s !! next;
  Some (emit (emit s (EvTssRsp0 (th_kstack_top th))) (EvArm (u64 (slice_ms (weight th) * 1000000)))).

(** The end of do_switch, run by the thread that is resumed: [c] is the run
    queue it was suspended with. *)
Definition reap (s : sched) (c : nat) : option sched :=
  let dead := corpse (rqs s c) in
  if dead =? 0 then Some s else
  let s := rq_upd s c (rq_set_corpse 0) in
  th ← threads s !! dead;
  s ← (if kstack_base th =? 0 then Some s
       else h ← al_free (heap s) (kstack_base th); Some (with_heap s h));
  h ← al_free (heap s) dead;
  let s := with_heap s h in
  Some (with_nodes (with_threads s (delete dead (threads s))) (ot_drop (nodes s) (rb_of dead))).

(** sched_context_switch: [prev] is suspended at the end of its do_switch and
    [next] continues, on its own stack. *)
Definition context_switch (s : sched) (c : nat) (prev next : Z) : option sched :=
  th ← threads s !! next;
  let s := emit (emit s (EvSwitch prev next)) (EvTssRsp0 (th_kstack_top th)) in
  let at_next := resume s !! next in
  let s := with_resume s (<[prev := c]> (delete next (resume s))) in
  match at_next with Some c' => reap s c' | None => Some s end.

Definition do_switch (s : sched) (c : nat) (prev next : Z) : option sched :=
  s ← do_switch_commit s c prev next;
  context_switch s c prev next.

(** ** Load balancing *)

(** The busiest other online CPU with more than one queued thread. *)
Fixpoint busiest (cpus : list nat) (s : sched) (dst : nat) (src : option nat) (max_nr : Z) :
    option nat :=
  match cpus with
  | [] => src
  | i :: cpus =>
      if Nat.eqb i dst || (idle (rqs s i) =? 0) then busiest cpus s dst src max_nr
      else if max_nr <? nr_running (rqs s i) then busiest cpus s dst (Some i) (nr_running (rqs s i))
      else busiest cpus s dst src max_nr
  end.

Definition requeue (s : sched) (dst : nat) (t : Z) (f : thread -> thread) : option sched :=
  let mv := min_vruntime (rqs s dst) in
  s ← th_upd s t (fun th =>
        let vs := if mv <? vruntime th then vruntime th else mv in
        f (set_vdeadline (s64 (vs + SLICE_VTIME)) (set_vstart vs (set_cpu (Z.of_nat dst) th))));
  rq_insert s dst t.

Definition load_balance (s : sched) (dst : nat) : option sched :=
  match busiest (seq 0 SCHED_MAX_CPUS) s dst None 1 with
  | None => Some s
  | Some src =>
      let lo := if (dst <? src)%nat then dst else src in
      let hi := if (dst <? src)%nat then src else dst in
      let '(ok, l) := spin_trylock (rq_lock (rqs s lo)) in
      let s := rq_upd s lo (rq_set_lock l) in
      if negb ok then Some s else
      let '(ok, l) := spin_trylock (rq_lock (rqs s hi)) in
      let s := rq_upd s hi (rq_set_lock l) in
      if negb ok then Some (rq_spin_unlock s lo) else
      s ← (if 1 <? nr_running (rqs s src) then
             n ← ot_last (nodes s) (rq_tree (rqs s src));
             if n =? 0 then Some s else
             let t := rb_entry n in
             s ← rq_remove s src t;
             requeue s dst t (set_state THREAD_READY)
           else Some s);
      Some (rq_spin_unlock (rq_spin_unlock s hi) lo)
  end.

(** One pass of the idle loop after the processor wakes up: [now] is
    (uint32_t)apic_timer_uptime_ms(), the answer the new last_balance. *)
Definition idle_pass (s : sched) (cpu : nat) (now last_balance : Z) : option (sched * Z) :=
  if 16 <=? u32 (now - last_balance)
  then s ← load_balance s cpu; Some (s, now)
  else Some (s, last_balance).

(** ** Start-up *)

Definition init_idle (s : sched) (cpu : nat) : sched :=
  let t := idle_threads cpu in
  let '(id, s) := alloc_tid s in
  let th := Thread 0 (idle_stacks cpu + IDLE_STACK_SZ) 0 0 0 id (Z.of_nat cpu) THREAD_READY
              SCHED_DEFAULT_QUANTUM WEIGHT_DEFAULT (NICE_0_LOAD / WEIGHT_DEFAULT)
              (idle_names (if (cpu <? SCHED_MAX_CPUS)%nat then cpu else O)) 0 0 0 0 0 [] in
  let s := start_frame s t (frame_init sched_thread_enter idle_fn 0 th) in
  let s := with_nodes s (ot_new (nodes s) (rb_of t)) in
  rq_upd s cpu (rq_set_idle t).

Definition sched_init (s : sched) (bsp_stack_top : Z) : option sched :=
  let s := with_rqs s (fun _ => zero_rq) in
  let '(id, s) := alloc_tid s in
  let boot := Thread 0 bsp_stack_top 0 0 SLICE_VTIME id 0 THREAD_RUNNING
                SCHED_DEFAULT_QUANTUM WEIGHT_DEFAULT (NICE_0_LOAD / WEIGHT_DEFAULT)
                boot_name 0 0 0 0 0 [] in
  let s := with_threads s (<[boot_thread := boot]> (threads s)) in
  let s := with_nodes s (ot_new (nodes s) (rb_of boot_thread)) in
  let s := rq_upd s 0 (rq_set_current boot_thread) in
  s ← tlist_add s boot_thread;
  let s := init_idle s 0 in
  s ← tlist_add s (idle_threads 0);
  let s := emit (emit s (EvTssRsp0 bsp_stack_top)) (EvSetGate SCHED_IPI_VECTOR) in
  Some (with_up s true).

Definition sched_ap_init (s : sched) (cpu : nat) : option sched :=
  let s := rq_upd s cpu (fun _ => zero_rq) in
  let s := init_idle s cpu in
  s ← tlist_add s (idle_threads cpu);
  let t := idle (rqs s cpu) in
  s ← th_upd s t (set_state THREAD_RUNNING);
  let s := rq_upd s cpu (rq_set_current t) in
  th ← threads s !! t;
  Some (emit (emit s (EvTssRsp0 (th_kstack_top th))) (EvSetGate SCHED_IPI_VECTOR)).

(** ** Threads *)

(** The online CPU with the fewest queued threads, or UINT32_MAX. *)
Fixpoint least_loaded (cpus : list nat) (s : sched) (best_cpu : option nat) (best_nr : Z) : option nat :=
  match cpus with
  | [] => best_cpu
  | i :: cpus =>
      if idle (rqs s i) =? 0 then least_loaded cpus s best_cpu best_nr
      else if nr_running (rqs s i) <? best_nr then least_loaded cpus s (Some i) (nr_running (rqs s i))
      else least_loaded cpus s best_cpu best_nr
  end.

Definition sched_thread_create (s : sched) (cpu : nat) (name fn arg w : Z) : option (sched * Z) :=
  let w := if w =? 0 then WEIGHT_DEFAULT else w in
  '(h, kstack) ← al_alloc (heap s) SCHED_KSTACK_SIZE;
  let s := with_heap s h in
  if kstack =? 0 then Some (s, 0) else
  '(h, t) ← al_alloc (heap s) THREAD_SIZE;
  let s := with_heap s h in
  if t =? 0 then h ← al_free (heap s) kstack; Some (with_heap s h, 0) else
  let '(id, s) := alloc_tid s in
  let best := least_loaded (seq 0 SCHED_MAX_CPUS) s None UINT32_MAX in
  let best_cpu := default 0%nat best in
  let th := Thread 0 (kstack + SCHED_KSTACK_SIZE) 0 0 0 id (Z.of_nat best_cpu) THREAD_READY
              SCHED_DEFAULT_QUANTUM w (NICE_0_LOAD / w) name kstack SCHED_KSTACK_SIZE 0 0 0 [] in
  let s := start_frame s t (frame_init sched_thread_enter fn arg th) in
  let s := with_nodes s (ot_new (nodes s) (rb_of t)) in
  s ← rq_spin_lock s best_cpu;
  s ← enqueue s best_cpu t;
  let s := rq_spin_unlock s best_cpu in
  s ← tlist_add s t;
  let s := if Nat.eqb best_cpu cpu then s
           else emit s (EvIpi (Z.of_nat best_cpu) SCHED_IPI_VECTOR) in
  Some (s, t).

Definition sched_thread_exit (s : sched) (cpu : nat) : option sched :=
  s ← rq_spin_lock s cpu;
  let dying := current (rqs s cpu) in
  s ← th_upd s dying (set_state THREAD_ZOMBIE);
  next ← pick_next s cpu;
  th ← threads s !! dying;
  s ← (if kstack_base th =? 0 then Some s else
       s ← tlist_remove s dying;
       Some (rq_upd (emit s (EvAmxFree dying)) cpu (rq_set_corpse dying)));
  s ← (if next =? idle (rqs s cpu) then Some s else rq_remove s cpu next);
  do_switch s cpu dying next.

(** The thread's fault handler, if any, is called first. *)
Definition sched_kill_current (s : sched) (cpu : nat) : option sched :=
  th ← threads s !! current (rqs s cpu);
  let s := if fault_fn th =? 0 then s else emit s (EvFaultFn (fault_fn th) (current (rqs s cpu))) in
  sched_thread_exit s cpu.

Definition sched_yield (s : sched) (cpu : nat) : option sched :=
  s ← rq_spin_lock s cpu;
  let cur := current (rqs s cpu) in
  next ← pick_next s cpu;
  if (next =? idle (rqs s cpu)) || (next =? cur) then
    s ← th_upd s cur (fun th => set_vdeadline (s64 (vruntime th + SLICE_VTIME)) th);
    Some (rq_spin_unlock s cpu)
  else
    s ← th_upd s cur (fun th => set_vruntime (vdeadline th) th);
    s ← enqueue s cpu cur;
    s ← rq_remove s cpu next;
    do_switch s cpu cur next.

Definition sched_block (s : sched) (cpu : nat) : option sched :=
  s ← rq_spin_lock s cpu;
  let cur := current (rqs s cpu) in
  next ← pick_next s cpu;
  s ← th_upd s cur (set_state THREAD_BLOCKED);
  s ← (if next =? idle (rqs s cpu) then Some s else rq_remove s cpu next);
  do_switch s cpu cur next.

Definition sched_unblock (s : sched) (cpu : nat) (t : Z) : option sched :=
  if t =? 0 then Some s else
  th ← threads s !! t;
  if negb (bool_decide (state th = THREAD_BLOCKED)) then Some s else
  let c := Z.to_nat (th_cpu th) in
  s ← rq_spin_lock s c;
  th ← threads s !! t;
  s ← (if bool_decide (state th = THREAD_BLOCKED) then enqueue s c t else Some s);
  let target_idle := current (rqs s c) =? idle (rqs s c) in
  let s := rq_spin_unlock s c in
  th ← threads s !! t;
  Some (if target_idle then
          if th_cpu th =? Z.of_nat cpu then emit s (EvArm HRTIMER_MIN_NS)
          else emit s (EvIpi (th_cpu th) SCHED_IPI_VECTOR)
        else s).

Definition sched_current (s : sched) (cpu : nat) : Z := current (rqs s cpu).

(** [if (mvr > rq->min_vruntime) rq->min_vruntime = mvr;] *)
Definition raise_min (s : sched) (c : nat) : option sched :=
  mvr ← rq_min_vr s c;
  Some (if min_vruntime (rqs s c) <? mvr then rq_upd s c (rq_set_min mvr) else s).

Definition sched_tick (s : sched) (cpu : nat) : option sched :=
  if negb (sched_up s) then Some s else
  s ← rq_spin_lock s cpu;
  let cur := current (rqs s cpu) in
  if cur =? 0 then Some (rq_spin_unlock s cpu) else
  let s := with_ticks s (u64 (g_sched_ticks s + 1)) in
  s ← th_upd s cur (fun th => set_vruntime (vdeadline th) th);
  let idl := idle (rqs s cpu) in
  s ← (if cur =? idl then Some s else raise_min s cpu);
  if cur =? idl then
    next ← pick_next s cpu;
    if negb (next =? idl) then
      s ← th_upd s idl (set_state THREAD_READY);
      s ← rq_remove s cpu next;
      do_switch s cpu idl next
    else Some (emit (rq_spin_unlock s cpu) (EvArm (u64 (slice_ms WEIGHT_DEFAULT * 1000000))))
  else
    next ← pick_next s cpu;
    if next =? idl then
      s ← th_upd s cur (fun th => set_vdeadline (s64 (vruntime th + SLICE_VTIME)) th);
      let s := rq_spin_unlock s cpu in
      th ← threads s !! cur;
      Some (emit s (EvArm (u64 (slice_ms (weight th) * 1000000))))
    else
      s ← enqueue s cpu cur;
      s ← rq_remove s cpu next;
      do_switch s cpu cur next.

(** The handler of the scheduler's interrupt; [ticks] is apic_timer_ticks(). *)
Definition sched_ipi_c_handler (s : sched) (cpu : nat) (ticks : Z) : option sched :=
  let s := emit s EvEoi in
  let s := if sched_up s then emit s (EvKsshTick ticks) else s in
  sched_tick s cpu.

Definition sched_tick_count (s : sched) : Z := g_sched_ticks s.

(** ** Walking the thread list *)

Fixpoint tl_count (fuel : nat) (s : sched) (t n : Z) : option Z :=
  match fuel with
  | O => None
  | S fuel =>
      if t =? 0 then Some n else
      th ← threads s !! t; tl_count fuel s (list_next th) (u32 (n + 1))
  end.

Definition sched_thread_count (s : sched) : option (sched * Z) :=
  l ← spin_lock (g_tlist_lock s);
  r ← tl_count (S (size (threads s))) s (g_tlist s) 0;
  Some (with_tlist s (g_tlist s) (spin_unlock l), r).

Fixpoint tl_nth (fuel : nat) (s : sched) (t idx : Z) : option Z :=
  match fuel with
  | O => None
  | S fuel =>
      if (t =? 0) || (idx <=? 0) then Some t else
      th ← threads s !! t; tl_nth fuel s (list_next th) (idx - 1)
  end.

Definition sched_get_thread (s : sched) (idx : Z) : option (sched * Z) :=
  l ← spin_lock (g_tlist_lock s);
  r ← tl_nth (S (size (threads s))) s (g_tlist s) idx;
  Some (with_tlist s (g_tlist s) (spin_unlock l), r).

Fixpoint tl_by_tid (fuel : nat) (s : sched) (t id : Z) : option Z :=
  match fuel with
  | O => None
  | S fuel =>
      if t =? 0 then Some 0 else
      th ← threads s !! t;
      if tid th =? id then Some t else tl_by_tid fuel s (list_next th) id
  end.

Definition sched_get_thread_by_tid (s : sched) (id : Z) : option (sched * Z) :=
  l ← spin_lock (g_tlist_lock s);
  r ← tl_by_tid (S (size (threads s))) s (g_tlist s) id;
  Some (with_tlist s (g_tlist s) (spin_unlock l), r).

Definition sched_thread_get_tid (s : sched) (t : Z) : option Z := tid <$> threads s !! t.
Definition sched_thread_get_name (s : sched) (t : Z) : option Z := th_name <$> threads s !! t.
Definition sched_thread_get_state (s : sched) (t : Z) : option Z :=
  th ← threads s !! t;
  Some (match state th with
        | THREAD_READY => 0 | THREAD_RUNNING => 1 | THREAD_BLOCKED => 2 | THREAD_ZOMBIE => 3
        end).

Definition sched_thread_signal (s : sched) (cpu : nat) (t sig : Z) : option sched :=
  if t =? 0 then Some s else
  th ← threads s !! t;
  if bool_decide (state th = THREAD_BLOCKED) then sched_unblock s cpu t else Some s.

Definition sched_set_priority (s : sched) (t prio : Z) : option sched :=
  if t =? 0 then Some s else
  let w := prio_weight prio in
  th_upd s t (set_weights w (NICE_0_LOAD / w)).

Definition sched_migrate (s : sched) (t : Z) (cpu : Z) : option sched :=
  if (t =? 0) || (Z.of_nat SCHED_MAX_CPUS <=? cpu) || (idle (rqs s (Z.to_nat cpu)) =? 0)
  then Some s else
  th ← threads s !! t;
  let src := Z.to_nat (th_cpu th) in
  let dst := Z.to_nat cpu in
  if Nat.eqb src dst then Some s else
  let lo := if (src <? dst)%nat then src else dst in
  let hi := if (src <? dst)%nat then dst else src in
  s ← rq_spin_lock s lo;
  s ← rq_spin_lock s hi;
  th ← threads s !! t;
  s ← (if bool_decide (state th = THREAD_READY) then
         s ← rq_remove s src t;
         requeue s dst t (fun th => th)
       else th_upd s t (set_cpu cpu));
  Some (rq_spin_unlock (rq_spin_unlock s hi) lo).

End sched.
