(* ===== verification/SchedProof.v ===== *)
(** * The scheduler's invariant

    [placed] says where every thread is: a thread that is READY is in the queue
    of its CPU (idle threads excepted), a RUNNING thread runs on its CPU, and the
    trees, counters and cells agree with that.  The lemmas of this file say how
    the building blocks of the handlers move threads between these places. *)

From stdpp Require Import base gmap list.
From Stdlib Require Import ZArith Lia Sorted.
From S2P Require Import Prelude RbRep RbTreeProof OrdTree Spinlock Allocator Sched.

(** The comparison is the lexicographic order of deadline and id. *)
Lemma cmp_threads_lt ta tb :
  cmp_threads ta tb < 0 <->
  vdeadline ta < vdeadline tb \/ vdeadline ta = vdeadline tb /\ tid ta < tid tb.
Proof.
  unfold cmp_threads. destruct (Z.eqb_spec (vdeadline ta) (vdeadline tb)); simpl.
  - destruct (Z.ltb_spec (tid ta) (tid tb)); [lia|]. destruct (Z.ltb_spec (tid tb) (tid ta)); lia.
  - destruct (Z.ltb_spec (vdeadline ta) (vdeadline tb)); lia.
Qed.

#[export] Instance thread_cmp_ok ths : Comparator (thread_cmp ths).
Proof.
  split; intros *; rewrite ?(Z.le_ngt 0); unfold thread_cmp; rewrite !cmp_threads_lt; lia.
Qed.

Lemma rb_of_entry t : rb_entry (rb_of t) = t.
Proof. unfold rb_entry, rb_of. lia. Qed.

#[export] Instance rb_of_inj : Inj (=) (=) rb_of.
Proof. intros x y. unfold rb_of. lia. Qed.

Lemma elem_rb_of t (l : list Z) : rb_of t ∈ rb_of <$> l <-> t ∈ l.
Proof. rewrite list_elem_of_fmap. split; [intros (y & Hy & ?)|eauto]. by apply rb_of_inj in Hy as ->. Qed.

(** The order of a list of nodes depends on the threads in it only. *)
Lemma ordered_ext ths ths' l :
  (forall t, t ∈ l -> vdeadline (thread_at ths' t) = vdeadline (thread_at ths t) /\
                      tid (thread_at ths' t) = tid (thread_at ths t)) ->
  ordered (thread_cmp ths) (rb_of <$> l) -> ordered (thread_cmp ths') (rb_of <$> l).
Proof.
  unfold ordered. induction l as [|x l IH]; intros Hext; simpl; [by constructor|].
  intros [Ho Hx]%StronglySorted_inv. constructor.
  - apply IH; [|done]. intros t Ht. apply Hext. set_solver.
  - rewrite Forall_fmap in Hx |- *. rewrite Forall_forall in Hx |- *. intros t Ht.
    specialize (Hx t Ht). simpl in *. unfold thread_cmp, cmp_threads in *. rewrite !rb_of_entry in *.
    destruct (Hext x) as [-> ->]; [set_solver|]. destruct (Hext t) as [-> ->]; [set_solver|]. done.
Qed.

(** ** Loops over a queue *)

(** A loop that may return early, on a list. *)
Fixpoint loop_list {B} (ths : gmap Z thread) (f : thread -> Z -> B -> B + B) (l : list Z) (b : B) : B :=
  match l with
  | [] => b
  | t :: l => match f (thread_at ths t) t b with inl b => b | inr b => loop_list ths f l b end
  end.

Section proof.
Context {H A : Type} `{OrdTreeLaws H} `{AllocatorLaws A}.
Context (boot_thread : Z) (idle_threads : nat -> Z).

Abbreviation sched := (@sched H A).

Definition is_idle (t : Z) : Prop := exists c, (c < 16)%nat /\ t = idle_threads c.

#[global] Instance is_idle_dec t : Decision (is_idle t).
Proof.
  destruct (decide (Exists (fun c => t = idle_threads c) (seq 0 16))) as [He|Hn].
  - left. apply Exists_exists in He as (c & Hc%elem_of_seq & ->). exists c. split; [lia|done].
  - right. intros (c & Hc & ->). apply Hn, Exists_exists. exists c. rewrite elem_of_seq. lia.
Qed.

Definition online (s : sched) (c : nat) : Prop := idle (rqs s c) <> 0.

(** The queues: [Q c] are the threads queued on CPU [c], earliest deadline
    first. *)
Record queues (s : sched) (Q : nat -> list Z) : Prop := {
  q_rep c : (c < 16)%nat -> ot_rep (nodes s) (rq_tree (rqs s c)) (rb_of <$> Q c);
  q_ord c : (c < 16)%nat -> ordered (thread_cmp (threads s)) (rb_of <$> Q c);
  q_nr c : (c < 16)%nat -> nr_running (rqs s c) = Z.of_nat (length (Q c));
  q_thr c t : (c < 16)%nat -> t ∈ Q c ->
    exists th, threads s !! t = Some th /\ state th = THREAD_READY /\
      th_cpu th = Z.of_nat c /\ ~ is_idle t;
  q_cell t : t ∈ dom (threads s) -> ot_cell (nodes s) (rb_of t) /\ ot_addr (rb_of t);
  q_size : Z.of_nat (size (threads s)) < UINT32_MAX;
}.

(** Where a thread in a given state is: [R c] is the thread running on [c] and
    [e] a READY thread on its way to a CPU. *)
Definition place (Q : nat -> list Z) (R : nat -> option Z) (e : option Z) (t : Z) (th : thread) : Prop :=
  match state th with
  | THREAD_READY => is_idle t \/ t ∈ Q (Z.to_nat (th_cpu th)) \/ e = Some t
  | THREAD_RUNNING => R (Z.to_nat (th_cpu th)) = Some t
  | THREAD_BLOCKED | THREAD_ZOMBIE => ~ is_idle t
  end.

Record placed (s : sched) (Q : nat -> list Z) (R : nat -> option Z) (e : option Z) : Prop := {
  p_q : queues s Q;
  p_thr t th : threads s !! t = Some th ->
    place Q R e t th /\ 0 <= th_cpu th < 16 /\ online s (Z.to_nat (th_cpu th)) /\
    (is_idle t -> t = idle_threads (Z.to_nat (th_cpu th)));
  p_run c t : R c = Some t ->
    exists th, threads s !! t = Some th /\ state th = THREAD_RUNNING /\ th_cpu th = Z.of_nat c;
  p_idle c : (c < 16)%nat -> online s c ->
    idle (rqs s c) = idle_threads c /\ exists th, threads s !! idle_threads c = Some th;
  p_extra t : e = Some t -> exists th, threads s !! t = Some th /\ state th = THREAD_READY /\
    ~ is_idle t /\ t ∉ Q (Z.to_nat (th_cpu th));
}.

(** ** Facts about queues *)

Section queue_facts.
Context {s : sched} {Q : nat -> list Z} (Hq : queues s Q).

Lemma queue_nodup c : (c < 16)%nat -> NoDup (Q c).
Proof. intros Hc. eapply NoDup_fmap_1, ot_rep_nodup, (q_rep _ _ Hq c Hc). Qed.

Lemma queue_length c : (c < 16)%nat -> (length (Q c) <= size (threads s))%nat.
Proof.
  intros Hc. rewrite <- size_dom, <- (size_list_to_set (C := gset Z)) by by apply queue_nodup.
  apply subseteq_size. intros t. rewrite elem_of_list_to_set. intros Ht.
  destruct (q_thr _ _ Hq c t Hc Ht) as (th & Hth & _). by eapply elem_of_dom_2.
Qed.

Lemma queues_apart c c' : (c < 16)%nat -> (c' < 16)%nat -> c <> c' -> disj (rb_of <$> Q c) (rb_of <$> Q c').
Proof.
  intros Hc Hc' Hne a (t & -> & Ht)%list_elem_of_fmap (t' & Heq & Ht')%list_elem_of_fmap.
  apply rb_of_inj in Heq as <-. destruct (q_thr _ _ Hq c t Hc Ht) as (th & Hth & _ & Hcpu & _).
  destruct (q_thr _ _ Hq c' t Hc' Ht') as (th' & Hth' & _ & Hcpu' & _).
  rewrite Hth in Hth'. injection Hth' as <-. lia.
Qed.

Lemma queue_at c t : (c < 16)%nat -> t ∈ Q c -> threads s !! t = Some (thread_at (threads s) t).
Proof. intros Hc Ht. destruct (q_thr _ _ Hq c t Hc Ht) as (th & Hth & _). unfold thread_at. by rewrite Hth. Qed.

Lemma tree_loop_spec {B} c (f : thread -> Z -> B -> B + B) fuel l1 l2 b :
  (c < 16)%nat -> Q c = l1 ++ l2 -> (length l2 < fuel)%nat ->
  tree_loop fuel s (hd 0 (rb_of <$> l2)) f b = Some (loop_list (threads s) f l2 b).
Proof.
  intros Hc. revert l1 l2 b. induction fuel as [|fuel IH]; intros l1 l2 b Heq Hf; [lia|].
  cbn [tree_loop]. destruct l2 as [|t l2]; [done|]. cbn [fmap list_fmap hd loop_list].
  pose proof (q_rep _ _ Hq c Hc) as Hr. rewrite Heq, fmap_app in Hr. cbn [fmap list_fmap] in Hr.
  destruct (ot_rep_cell _ _ _ (rb_of t) Hr) as (_ & _ & Hn0); [set_solver|].
  rewrite (proj2 (Z.eqb_neq _ _) Hn0), rb_of_entry.
  rewrite (queue_at c t Hc) by (rewrite Heq; set_solver). cbn [mbind option_bind].
  destruct (f _ t b) as [b'|b']; [done|].
  rewrite (ot_next_law _ _ _ _ _ Hr). cbn [mbind option_bind].
  apply (IH (l1 ++ [t])); [by rewrite <- app_assoc|simpl in Hf; lia].
Qed.

Lemma for_tree_spec {B} c (f : thread -> Z -> B -> B + B) b :
  (c < 16)%nat -> for_tree s c f b = Some (loop_list (threads s) f (Q c) b).
Proof.
  intros Hc. unfold for_tree. rewrite (ot_first_law _ _ _ (q_rep _ _ Hq c Hc)).
  cbn [mbind option_bind]. apply (tree_loop_spec c f _ [] (Q c)); [done|done|].
  pose proof (queue_length c Hc). lia.
Qed.
End queue_facts.

(** ** Moving threads *)

(** States that differ in nothing [placed] looks at. *)
Definition same_place (s s' : sched) : Prop :=
  threads s' = threads s /\ nodes s' = nodes s /\
  forall c, rq_tree (rqs s' c) = rq_tree (rqs s c) /\ nr_running (rqs s' c) = nr_running (rqs s c) /\
            idle (rqs s' c) = idle (rqs s c).

Lemma same_place_refl s : same_place s s.
Proof. by split. Qed.

Lemma same_place_trans s1 s2 s3 : same_place s1 s2 -> same_place s2 s3 -> same_place s1 s3.
Proof.
  intros (Ht1 & Hn1 & Hr1) (Ht2 & Hn2 & Hr2). split_and!; [congruence|congruence|]. intros c.
  destruct (Hr1 c) as (<- & <- & <-), (Hr2 c) as (<- & <- & <-). done.
Qed.

Lemma queues_same s s' Q : same_place s s' -> queues s Q -> queues s' Q.
Proof.
  intros (Ht & Hn & Hr) Hq.
  split; rewrite ?Ht, ?Hn; try apply Hq; intros c Hc; destruct (Hr c) as (Hr1 & Hr2 & _); rewrite ?Hr1, ?Hr2; by apply Hq.
Qed.

Lemma placed_same s s' Q R e : same_place s s' -> placed s Q R e -> placed s' Q R e.
Proof.
  intros Hs [Hq Ht Hrun Hi He]. pose proof (queues_same _ _ _ Hs Hq) as Hq'.
  destruct Hs as (Hth & Hn & Hr).
  assert (Hon : forall c, online s' c <-> online s c).
  { intros c. unfold online. by destruct (Hr c) as (_ & _ & ->). }
  split; rewrite ?Hth; try done.
  - intros t th Hl. rewrite Hon. by apply Ht.
  - intros c Hc Ho. destruct (Hr c) as (_ & _ & ->). apply Hi; [done|]. by apply Hon.
Qed.

Lemma rq_upd_same s c f :
  (forall r, rq_tree (f r) = rq_tree r /\ nr_running (f r) = nr_running r /\ idle (f r) = idle r) ->
  same_place s (rq_upd s c f).
Proof.
  intros Hf. split_and!; [done|done|]. intros c'. simpl. unfold nupd.
  destruct (Nat.eqb_spec c' c) as [->|]; [apply Hf|done].
Qed.

Lemma not_queued_elsewhere s Q c c' t th :
  queues s Q -> (c' < 16)%nat -> threads s !! t = Some th -> th_cpu th = Z.of_nat c -> c <> c' -> t ∉ Q c'.
Proof.
  intros Hq Hc' Hth Hcpu Hne Hin. destruct (q_thr _ _ Hq c' t Hc' Hin) as (th' & Hth' & _ & Hcpu' & _).
  rewrite Hth in Hth'. injection Hth' as <-. lia.
Qed.

Lemma rq_insert_spec s Q c t th :
  queues s Q -> (c < 16)%nat -> threads s !! t = Some th -> state th = THREAD_READY ->
  th_cpu th = Z.of_nat c -> ~ is_idle t -> t ∉ Q c ->
  exists h r l1 l2, Q c = l1 ++ l2 /\
    let s' := rq_upd (with_nodes s h) c (fun rq => rq_set_tree r (u32 (nr_running rq + 1)) rq) in
    rq_insert s c t = Some s' /\ queues s' (nupd Q c (l1 ++ t :: l2)).
Proof.
  intros Hq Hc Hth Hst Hcpu Hni Hnin.
  destruct (ordered_splits (thread_cmp (threads s)) (rb_of t) _ (q_ord _ _ Hq c Hc))
    as (k1 & k2 & Heq & Hsp & Ho).
  apply fmap_app_inv in Heq as (l1 & l2 & -> & -> & HQ).
  pose proof (q_rep _ _ Hq c Hc) as Hr. rewrite HQ, fmap_app in Hr.
  destruct (q_cell _ _ Hq t) as [Hcell Haddr]; [by eapply elem_of_dom_2|].
  destruct (ot_insert_law _ _ _ _ _ (rb_of t) Hr Hsp Haddr Hcell) as (h & r & Hins & Hr' & Hcells & Hfr).
  { rewrite <- fmap_app, elem_rb_of, <- HQ. done. }
  exists h, r, l1, l2. split; [done|]. cbv zeta. split.
  { unfold rq_insert. rewrite Hins. done. }
  pose proof (queue_length Hq c Hc) as Hlen. pose proof (q_size _ _ Hq) as Hsz.
  assert (Hnew : rb_of <$> (l1 ++ t :: l2) = (rb_of <$> l1) ++ rb_of t :: (rb_of <$> l2)) by by rewrite fmap_app.
  split; simpl.
  - intros c' Hc'. destruct (decide (c' = c)) as [->|Hne].
    + rewrite !nupd_eq. simpl. by rewrite Hnew.
    + rewrite !nupd_ne by done. apply Hfr; [by apply (q_rep _ _ Hq)|].
      rewrite <- Hnew. intros a Ha. rewrite fmap_app, elem_of_app, fmap_cons, elem_of_cons.
      intros Hb. pose proof (queues_apart Hq c' c Hc' Hc Hne a Ha) as Hd.
      rewrite HQ, fmap_app in Hd. destruct Hb as [?|[->|?]]; [set_solver| |set_solver].
      apply (proj1 (elem_rb_of _ _)) in Ha.
      exact (not_queued_elsewhere _ _ _ _ _ _ Hq Hc' Hth Hcpu (not_eq_sym Hne) Ha).
  - intros c' Hc'. destruct (decide (c' = c)) as [->|Hne].
    + rewrite nupd_eq. by rewrite Hnew.
    + rewrite nupd_ne by done. by apply (q_ord _ _ Hq).
  - intros c' Hc'. destruct (decide (c' = c)) as [->|Hne].
    + rewrite !nupd_eq. simpl. rewrite (q_nr _ _ Hq c Hc), HQ, !length_app. simpl.
      rewrite HQ, length_app in Hlen. unfold u32, UINT32_MAX in *. rewrite Z.mod_small; lia.
    + rewrite !nupd_ne by done. by apply (q_nr _ _ Hq).
  - intros c' t' Hc'. destruct (decide (c' = c)) as [->|Hne].
    + rewrite nupd_eq, elem_of_app, elem_of_cons. intros Ht'.
      destruct (decide (t' = t)) as [->|Htt]; [eauto 10|]. apply (q_thr _ _ Hq c t' Hc).
      rewrite HQ. set_solver.
    + rewrite nupd_ne by done. by apply (q_thr _ _ Hq).
  - intros t' Ht'. rewrite Hcells. by apply (q_cell _ _ Hq).
  - apply (q_size _ _ Hq).
Qed.

Lemma rq_remove_spec s Q c t :
  queues s Q -> (c < 16)%nat -> t ∈ Q c ->
  exists h r l1 l2, Q c = l1 ++ t :: l2 /\
    let s' := rq_upd (with_nodes s h) c (fun rq => rq_set_tree r (u32 (nr_running rq - 1)) rq) in
    rq_remove s c t = Some s' /\ queues s' (nupd Q c (l1 ++ l2)).
Proof.
  intros Hq Hc (l1 & l2 & HQ)%list_elem_of_split.
  pose proof (q_rep _ _ Hq c Hc) as Hr. rewrite HQ, fmap_app in Hr. cbn [fmap list_fmap] in Hr.
  destruct (ot_erase_law _ _ _ _ _ Hr) as (h & r & Her & Hr' & Hcells & Hfr).
  exists h, r, l1, l2. split; [done|]. cbv zeta. split.
  { unfold rq_remove. rewrite Her. done. }
  pose proof (queue_length Hq c Hc) as Hlen. pose proof (q_size _ _ Hq) as Hsz.
  split; simpl.
  - intros c' Hc'. destruct (decide (c' = c)) as [->|Hne].
    + rewrite !nupd_eq. simpl. by rewrite fmap_app.
    + rewrite !nupd_ne by done. apply Hfr; [by apply (q_rep _ _ Hq)|].
      intros a Ha Hb. pose proof (queues_apart Hq c' c Hc' Hc Hne a Ha) as Hd. apply Hd.
      rewrite HQ, fmap_app. set_solver.
  - intros c' Hc'. destruct (decide (c' = c)) as [->|Hne].
    + rewrite nupd_eq, fmap_app. apply (ordered_remove _ _ (rb_of t)).
      pose proof (q_ord _ _ Hq c Hc) as Ho. rewrite HQ, fmap_app in Ho. done.
    + rewrite nupd_ne by done. by apply (q_ord _ _ Hq).
  - intros c' Hc'. destruct (decide (c' = c)) as [->|Hne].
    + rewrite !nupd_eq. simpl. rewrite (q_nr _ _ Hq c Hc), HQ, !length_app. simpl.
      rewrite HQ, length_app in Hlen. simpl in Hlen. unfold u32, UINT32_MAX in *.
      rewrite Z.mod_small; lia.
    + rewrite !nupd_ne by done. by apply (q_nr _ _ Hq).
  - intros c' t' Hc'. destruct (decide (c' = c)) as [->|Hne].
    + rewrite nupd_eq. intros Ht'. apply (q_thr _ _ Hq c t' Hc). rewrite HQ. set_solver.
    + rewrite nupd_ne by done. by apply (q_thr _ _ Hq).
  - intros t' Ht'. rewrite Hcells. by apply (q_cell _ _ Hq).
  - apply (q_size _ _ Hq).
Qed.

(** Writing a thread that is in no queue, or not its key. *)
Lemma queues_thread s Q t th th' :
  queues s Q -> threads s !! t = Some th ->
  (forall c, (c < 16)%nat -> t ∈ Q c ->
     state th' = state th /\ th_cpu th' = th_cpu th /\ vdeadline th' = vdeadline th /\ tid th' = tid th) ->
  queues (with_threads s (<[t := th']> (threads s))) Q.
Proof.
  intros Hq Hth Hsame. split; simpl; try apply Hq.
  - intros c Hc. eapply ordered_ext; [|by apply (q_ord _ _ Hq)]. intros t' Ht'.
    unfold thread_at. destruct (decide (t' = t)) as [->|Hne]; [|by rewrite lookup_insert_ne].
    rewrite lookup_insert_eq, Hth. simpl. destruct (Hsame c Hc Ht') as (_ & _ & ? & ?). done.
  - intros c t' Hc Ht'. destruct (q_thr _ _ Hq c t' Hc Ht') as (th0 & Hth0 & Hs0 & Hc0 & Hi0).
    destruct (decide (t' = t)) as [->|Hne].
    + rewrite lookup_insert_eq. rewrite Hth in Hth0. injection Hth0 as <-.
      destruct (Hsame c Hc Ht') as (? & ? & _ & _). exists th'. split_and!; congruence.
    + rewrite lookup_insert_ne by done. eauto.
  - intros t' Ht'. apply (q_cell _ _ Hq). rewrite dom_insert in Ht'.
    apply elem_of_dom_2 in Hth. set_solver.
  - rewrite map_size_insert_Some by eauto. apply Hq.
Qed.

(** ** Where threads are *)

Lemma not_queued s Q R e t th :
  placed s Q R e -> threads s !! t = Some th ->
  state th <> THREAD_READY \/ is_idle t \/ e = Some t ->
  forall c, (c < 16)%nat -> t ∉ Q c.
Proof.
  intros Hp Hth Hor c Hc Hin.
  destruct (q_thr _ _ (p_q _ _ _ _ Hp) c t Hc Hin) as (th0 & Hth0 & Hs & Hcpu & Hi).
  rewrite Hth in Hth0. injection Hth0 as <-. destruct Hor as [?|[?|He]]; [done|done|].
  destruct (p_extra _ _ _ _ Hp t He) as (th0 & Hth0 & _ & _ & Hnin).
  rewrite Hth in Hth0. injection Hth0 as <-. by rewrite Hcpu, Nat2Z.id in Hnin.
Qed.

(** A thread outside the queues is rewritten; only its own place changes. *)
Lemma placed_upd s Q R e t th th' R' e' :
  placed s Q R e -> threads s !! t = Some th ->
  (forall c, (c < 16)%nat -> t ∉ Q c) ->
  0 <= th_cpu th' < 16 -> online s (Z.to_nat (th_cpu th')) ->
  (is_idle t -> t = idle_threads (Z.to_nat (th_cpu th'))) ->
  place Q R' e' t th' ->
  (forall c t', t' <> t -> R' c = Some t' <-> R c = Some t') ->
  (forall t', t' <> t -> e' = Some t' <-> e = Some t') ->
  (forall c, R' c = Some t -> state th' = THREAD_RUNNING /\ th_cpu th' = Z.of_nat c) ->
  (e' = Some t -> state th' = THREAD_READY /\ ~ is_idle t) ->
  placed (with_threads s (<[t := th']> (threads s))) Q R' e'.
Proof.
  intros [Hq Ht Hrun Hi He] Hth Hnin Hcpu Hon Hidle Hpl HR Hee HRt Het.
  split; simpl.
  - eapply queues_thread; [done|done|]. intros c Hc Hin. by apply Hnin in Hin.
  - intros t' th0. destruct (decide (t' = t)) as [->|Hne].
    + rewrite lookup_insert_eq. by intros [= <-].
    + rewrite lookup_insert_ne by done. intros Hth0. destruct (Ht t' th0 Hth0) as (Hp0 & ?).
      split; [|done]. unfold place in *. destruct (state th0); try done.
      * rewrite Hee by done. done.
      * rewrite HR by done. done.
  - intros c t' Hr. destruct (decide (t' = t)) as [->|Hne].
    + rewrite lookup_insert_eq. eauto.
    + rewrite lookup_insert_ne by done. apply Hrun. by apply HR.
  - intros c Hc Ho. destruct (Hi c Hc Ho) as [? [th0 ?]]. split; [done|].
    destruct (decide (idle_threads c = t)) as [->|Hne]; [rewrite lookup_insert_eq; eauto|].
    rewrite lookup_insert_ne by done. eauto.
  - intros t' Ht'. destruct (decide (t' = t)) as [->|Hne].
    + rewrite lookup_insert_eq. exists th'. destruct (Het Ht'). split_and!; try done.
      apply Hnin. lia.
    + rewrite lookup_insert_ne by done. apply He. by apply Hee.
Qed.

(** Fields the scheduler does not sort or place by. *)
Lemma placed_quiet s Q R e t th th' :
  placed s Q R e -> threads s !! t = Some th ->
  state th' = state th -> th_cpu th' = th_cpu th ->
  (state th <> THREAD_RUNNING -> vdeadline th' = vdeadline th /\ tid th' = tid th) ->
  placed (with_threads s (<[t := th']> (threads s))) Q R e.
Proof.
  intros Hp Hth Hs Hc Hkey. pose proof Hp as [Hq Ht Hrun Hi He]. split; simpl.
  - eapply queues_thread; [done|done|]. intros c Hc' Hin. split; [done|]. split; [done|].
    apply Hkey. destruct (q_thr _ _ Hq c t Hc' Hin) as (th0 & Hth0 & Hs0 & _).
    rewrite Hth in Hth0. injection Hth0 as <-. by rewrite Hs0.
  - intros t' th0. destruct (decide (t' = t)) as [->|Hne].
    + rewrite lookup_insert_eq. intros [= <-]. specialize (Ht _ _ Hth). unfold place in *. by rewrite Hs, Hc.
    + rewrite lookup_insert_ne by done. apply Ht.
  - intros c t' Hr. destruct (Hrun c t' Hr) as (th0 & Hth0 & Hs0 & Hc0).
    destruct (decide (t' = t)) as [->|Hne]; [|rewrite lookup_insert_ne by done; eauto].
    rewrite lookup_insert_eq. rewrite Hth in Hth0. injection Hth0 as <-. exists th'. by rewrite Hs, Hc.
  - intros c Hc' Ho. destruct (Hi c Hc' Ho) as [? [th0 ?]]. split; [done|].
    destruct (decide (idle_threads c = t)) as [->|Hne]; [rewrite lookup_insert_eq; eauto|].
    rewrite lookup_insert_ne by done. eauto.
  - intros t' Ht'. destruct (He t' Ht') as (th0 & Hth0 & Hs0 & ? & Hn).
    destruct (decide (t' = t)) as [->|Hne]; [|rewrite lookup_insert_ne by done; eauto].
    rewrite lookup_insert_eq. rewrite Hth in Hth0. injection Hth0 as <-. exists th'. by rewrite Hs, Hc.
Qed.

(** The thread running on [c] stops. *)
Lemma placed_stop s Q R c t th th' e' :
  placed s Q R None -> R c = Some t -> threads s !! t = Some th -> th_cpu th' = th_cpu th ->
  match state th' with
  | THREAD_READY => e' = if decide (is_idle t) then None else Some t
  | THREAD_RUNNING => False
  | _ => ~ is_idle t /\ e' = None
  end ->
  placed (with_threads s (<[t := th']> (threads s))) Q (nupd R c None) e'.
Proof.
  intros Hp HR Hth Hcpu Hst. destruct (p_run _ _ _ _ Hp c t HR) as (th0 & Hth0 & Hs & Hc).
  rewrite Hth in Hth0. injection Hth0 as <-.
  destruct (p_thr _ _ _ _ Hp t th Hth) as (_ & Hr & Ho & Hi).
  eapply placed_upd; try done; rewrite ?Hcpu; try done.
  - eapply not_queued; [done|done|]. left. by rewrite Hs.
  - unfold place. destruct (state th') eqn:Hs'; try done; try tauto.
    destruct (decide (is_idle t)); [by left|]. right. by right.
  - intros c' t' Hne. destruct (decide (c' = c)) as [->|Hcc]; [|by rewrite nupd_ne].
    rewrite nupd_eq, HR. naive_solver.
  - intros t' Hne. split; [|done]. destruct (state th'); try naive_solver.
    subst e'. case_decide; naive_solver.
  - intros c'. destruct (decide (c' = c)) as [->|Hcc]; [by rewrite nupd_eq|].
    rewrite nupd_ne by done. intros HR'. destruct (p_run _ _ _ _ Hp c' t HR') as (th0 & Hth0 & _ & Hc').
    rewrite Hth in Hth0. injection Hth0 as <-. lia.
  - intros He. destruct (state th') eqn:Hs'; try naive_solver. subst e'. case_decide; naive_solver.
Qed.

(** A thread that waits is made ready, on its way to a queue. *)
Lemma placed_wake s Q R t th th' :
  placed s Q R None -> threads s !! t = Some th -> state th = THREAD_BLOCKED ->
  state th' = THREAD_READY -> th_cpu th' = th_cpu th ->
  placed (with_threads s (<[t := th']> (threads s))) Q R (Some t).
Proof.
  intros Hp Hth Hs Hs' Hcpu. destruct (p_thr _ _ _ _ Hp t th Hth) as (Hpl & Hr & Ho & Hi).
  unfold place in Hpl. rewrite Hs in Hpl.
  eapply placed_upd; try done; rewrite ?Hcpu; try done.
  - eapply not_queued; [done|done|]. left. by rewrite Hs.
  - unfold place. rewrite Hs'. by right; right.
  - intros t' Hne. naive_solver.
  - intros c HR. destruct (p_run _ _ _ _ Hp c t HR) as (th0 & Hth0 & Hs0 & _). congruence.
Qed.

(** A thread on its way, or the idle thread, is put on a CPU. *)
Lemma placed_run s Q R c e t th th' :
  placed s Q R e -> (c < 16)%nat -> online s c -> R c = None -> threads s !! t = Some th ->
  e = Some t \/ (e = None /\ t = idle_threads c /\ state th = THREAD_READY) ->
  state th' = THREAD_RUNNING -> th_cpu th' = Z.of_nat c ->
  placed (with_threads s (<[t := th']> (threads s))) Q (nupd R c (Some t)) None.
Proof.
  intros Hp Hc Hon HR Hth He Hs' Hcpu.
  assert (Hready : state th = THREAD_READY).
  { destruct He as [He|(_ & _ & ?)]; [|done].
    destruct (p_extra _ _ _ _ Hp t He) as (th0 & Hth0 & ? & _). congruence. }
  eapply placed_upd; try done; rewrite ?Hcpu, ?Nat2Z.id; try done.
  - eapply not_queued; [done|done|]. destruct He as [?|(_ & -> & _)]; [by right; right|].
    right; left. by exists c.
  - lia.
  - intros Hid. destruct He as [He|(_ & -> & _)]; [|done].
    by destruct (p_extra _ _ _ _ Hp t He) as (? & _ & _ & ? & _).
  - unfold place. by rewrite Hs', Hcpu, Nat2Z.id, nupd_eq.
  - intros c' t' Hne. destruct (decide (c' = c)) as [->|Hcc]; [|by rewrite nupd_ne].
    rewrite nupd_eq, HR. naive_solver.
  - intros t' Hne. naive_solver.
  - intros c'. destruct (decide (c' = c)) as [->|Hcc]; [done|].
    rewrite nupd_ne by done. intros HR'. destruct (p_run _ _ _ _ Hp c' t HR') as (th0 & Hth0 & ? & _).
    congruence.
Qed.

(** Everything but the threads, the trees and the clock. *)
Record env_same (s s' : sched) : Prop := {
  e_heap : heap s' = heap s;
  e_tlist : g_tlist s' = g_tlist s;
  e_tlock : g_tlist_lock s' = g_tlist_lock s;
  e_resume : resume s' = resume s;
  e_up : sched_up s' = sched_up s;
  e_rq c : rq_lock (rqs s' c) = rq_lock (rqs s c) /\ current (rqs s' c) = current (rqs s c) /\
           idle (rqs s' c) = idle (rqs s c) /\ corpse (rqs s' c) = corpse (rqs s c);
  e_min c : min_vruntime (rqs s c) <= min_vruntime (rqs s' c);
}.

Lemma env_refl s : env_same s s.
Proof. by split. Qed.

Lemma env_trans s1 s2 s3 : env_same s1 s2 -> env_same s2 s3 -> env_same s1 s3.
Proof.
  intros [He1 Ht1 Hk1 Hr1 Hu1 Hq1 Hm1] [He2 Ht2 Hk2 Hr2 Hu2 Hq2 Hm2].
  split; try congruence; intros c.
  - destruct (Hq1 c) as (<- & <- & <- & <-), (Hq2 c) as (<- & <- & <- & <-). done.
  - specialize (Hm1 c). specialize (Hm2 c). lia.
Qed.

Lemma env_rq s c f :
  rq_lock (f (rqs s c)) = rq_lock (rqs s c) -> current (f (rqs s c)) = current (rqs s c) ->
  idle (f (rqs s c)) = idle (rqs s c) -> corpse (f (rqs s c)) = corpse (rqs s c) ->
  min_vruntime (rqs s c) <= min_vruntime (f (rqs s c)) ->
  env_same s (rq_upd s c f).
Proof.
  intros H4 H5 H6 H7 H8. split; try done; intros c'; simpl; unfold nupd;
    destruct (Nat.eqb_spec c' c) as [->|]; try done.
Qed.

Lemma env_threads s m : env_same s (with_threads s m).
Proof. by split. Qed.

Lemma env_online s s' c : env_same s s' -> online s' c <-> online s c.
Proof. intros He. unfold online. by destruct (e_rq _ _ He c) as (_ & _ & -> & _). Qed.

Lemma placed_insert s Q R c t th :
  placed s Q R (Some t) -> (c < 16)%nat -> threads s !! t = Some th -> th_cpu th = Z.of_nat c ->
  exists s' l1 l2, rq_insert s c t = Some s' /\ Q c = l1 ++ l2 /\ threads s' = threads s /\
    env_same s s' /\ placed s' (nupd Q c (l1 ++ t :: l2)) R None.
Proof.
  intros Hp Hc Hth Hcpu.
  destruct (p_extra _ _ _ _ Hp t eq_refl) as (th0 & Hth0 & Hs & Hi & Hnin).
  rewrite Hth in Hth0. injection Hth0 as <-. rewrite Hcpu, Nat2Z.id in Hnin.
  destruct (rq_insert_spec s Q c t th (p_q _ _ _ _ Hp) Hc Hth Hs Hcpu Hi Hnin)
    as (h & r & l1 & l2 & HQ & Hins & Hq'). eexists _, l1, l2. split; [exact Hins|].
  assert (Henv : env_same s (rq_upd (with_nodes s h) c (fun rq => rq_set_tree r (u32 (nr_running rq + 1)) rq)))
    by (split; try done; intros c'; simpl; unfold nupd; by destruct (Nat.eqb_spec c' c) as [->|]).
  split_and!; try done. split; simpl; try done.
  - intros t' th' Hth'. destruct (p_thr _ _ _ _ Hp t' th' Hth') as (Hpl & Hr & Ho & Hi').
    split; [|split; [done|split; [by apply (env_online _ _ _ Henv)|done]]].
    unfold place in *. destruct (state th'); try done.
    destruct Hpl as [?|[Hin|He]]; [by left| |].
    + right; left. unfold nupd. destruct (Nat.eqb_spec (Z.to_nat (th_cpu th')) c) as [Heq|]; [|done].
      rewrite Heq, HQ in Hin. set_solver.
    + injection He as <-. rewrite Hth in Hth'. injection Hth' as <-. right; left.
      rewrite Hcpu, Nat2Z.id, nupd_eq. set_solver.
  - apply (p_run _ _ _ _ Hp).
  - intros c' Hc' Ho. rewrite (env_online _ _ _ Henv) in Ho.
    destruct (p_idle _ _ _ _ Hp c' Hc' Ho) as [Hid ?]. split; [|done].
    destruct (e_rq _ _ Henv c') as (_ & _ & He & _). simpl in He. by rewrite He.
Qed.

Lemma placed_remove s Q R c t :
  placed s Q R None -> (c < 16)%nat -> t ∈ Q c ->
  exists s' l1 l2, rq_remove s c t = Some s' /\ Q c = l1 ++ t :: l2 /\ threads s' = threads s /\
    env_same s s' /\ placed s' (nupd Q c (l1 ++ l2)) R (Some t).
Proof.
  intros Hp Hc Hin.
  destruct (rq_remove_spec s Q c t (p_q _ _ _ _ Hp) Hc Hin) as (h & r & l1 & l2 & HQ & Hrm & Hq').
  eexists _, l1, l2. split; [exact Hrm|].
  assert (Henv : env_same s (rq_upd (with_nodes s h) c (fun rq => rq_set_tree r (u32 (nr_running rq - 1)) rq)))
    by (split; try done; intros c'; simpl; unfold nupd; by destruct (Nat.eqb_spec c' c) as [->|]).
  destruct (q_thr _ _ (p_q _ _ _ _ Hp) c t Hc Hin) as (th & Hth & Hs & Hcpu & Hi).
  assert (Hnin : t ∉ l1 ++ l2).
  { pose proof (queue_nodup (p_q _ _ _ _ Hp) c Hc) as Hnd. rewrite HQ in Hnd.
    apply NoDup_app in Hnd as (_ & Hd & [Hnd _]%NoDup_cons). set_solver. }
  split_and!; try done. split; simpl; try done.
  - intros t' th' Hth'. destruct (p_thr _ _ _ _ Hp t' th' Hth') as (Hpl & Hr & Ho & Hi').
    split; [|split; [done|split; [by apply (env_online _ _ _ Henv)|done]]].
    unfold place in *. destruct (state th'); try done.
    destruct Hpl as [?|[Hin'|?]]; [by left| |done]. destruct (decide (t' = t)) as [->|Hne]; [by right; right|].
    right; left. unfold nupd. destruct (Nat.eqb_spec (Z.to_nat (th_cpu th')) c) as [Heq|]; [|done].
    rewrite Heq, HQ in Hin'. set_solver.
  - apply (p_run _ _ _ _ Hp).
  - intros c' Hc' Ho. rewrite (env_online _ _ _ Henv) in Ho.
    destruct (p_idle _ _ _ _ Hp c' Hc' Ho) as [Hid ?]. split; [|done].
    destruct (e_rq _ _ Henv c') as (_ & _ & He & _). simpl in He. by rewrite He.
  - intros t' [= <-]. exists th. split_and!; try done. by rewrite Hcpu, Nat2Z.id, nupd_eq.
Qed.
End proof.
