(* ===== verification/SchedInv.v ===== *)
(** * Choosing and queueing threads

    What the loops of pick_next and rq_min_vr compute, and what enqueue does to
    a thread and its queue. *)

From stdpp Require Import base gmap list.
From Stdlib Require Import ZArith Lia Sorted.
From S2P Require Import Prelude RbRep RbTreeProof OrdTree Spinlock Allocator Sched SchedProof.

(** ** The choice of pick_next *)

(** Less virtual time consumed, or the same and an older thread. *)
Definition behind (ths : gmap Z thread) (a b : Z) : Prop :=
  vruntime (thread_at ths a) < vruntime (thread_at ths b) \/
  vruntime (thread_at ths a) = vruntime (thread_at ths b) /\ tid (thread_at ths a) <= tid (thread_at ths b).

(** [next] is the first thread of the queue, which is in deadline order, that
    is eligible at virtual time [mvr]; the one furthest behind when none is;
    the idle thread when the queue is empty. *)
Definition pick_ok (ths : gmap Z thread) (mvr : Z) (q : list Z) (idl next : Z) : Prop :=
  (q = [] /\ next = idl) \/
  (exists l1 l2, q = l1 ++ next :: l2 /\ vstart (thread_at ths next) <= mvr /\
     forall x, x ∈ l1 -> mvr < vstart (thread_at ths x)) \/
  (next ∈ q /\ (forall x, x ∈ q -> mvr < vstart (thread_at ths x)) /\
     forall x, x ∈ q -> behind ths next x).

Lemma loop_first ths mvr l :
  match loop_list ths (fun th t r => if vstart th <=? mvr then inl (Some t) else inr r) l None with
  | Some t => exists l1 l2, l = l1 ++ t :: l2 /\ vstart (thread_at ths t) <= mvr /\
                forall x, x ∈ l1 -> mvr < vstart (thread_at ths x)
  | None => forall x, x ∈ l -> mvr < vstart (thread_at ths x)
  end.
Proof.
  induction l as [|t l IH]; simpl; [set_solver|].
  destruct (Z.leb_spec (vstart (thread_at ths t)) mvr) as [Hle|Hgt].
  { exists [], l. split; [done|]. split; [done|set_solver]. }
  destruct (loop_list _ _ l None) as [t'|].
  - destruct IH as (l1 & l2 & -> & Hle & Hl1). exists (t :: l1), l2. split; [done|]. split; [done|].
    intros x [->|Hx]%elem_of_cons; [done|auto].
  - intros x [->|Hx]%elem_of_cons; [done|auto].
Qed.

Definition better (th : thread) (t : Z) (best : option (Z * thread)) : option (Z * thread) + option (Z * thread) :=
  match best with
  | None => inr (Some (t, th))
  | Some (_, tb) =>
      if (vruntime th <? vruntime tb) || ((vruntime th =? vruntime tb) && (tid th <? tid tb))
      then inr (Some (t, th)) else inr best
  end.

Lemma behind_trans ths a b c : behind ths a b -> behind ths b c -> behind ths a c.
Proof. unfold behind. lia. Qed.

Lemma loop_best ths l b :
  exists t, loop_list ths better l (Some (b, thread_at ths b)) = Some (t, thread_at ths t) /\
    t ∈ b :: l /\ forall x, x ∈ b :: l -> behind ths t x.
Proof.
  revert b. induction l as [|x l IH]; intros b; simpl.
  { exists b. split; [done|]. split; [set_solver|]. intros x ->%list_elem_of_singleton. right. lia. }
  set (lt := (vruntime (thread_at ths x) <? vruntime (thread_at ths b)) || _).
  assert (Hlt : if lt then behind ths x b else behind ths b x).
  { subst lt. unfold behind.
    destruct (Z.ltb_spec (vruntime (thread_at ths x)) (vruntime (thread_at ths b))); simpl; [lia|].
    destruct (Z.eqb_spec (vruntime (thread_at ths x)) (vruntime (thread_at ths b))); simpl; [|lia].
    destruct (Z.ltb_spec (tid (thread_at ths x)) (tid (thread_at ths b))); lia. }
  destruct lt.
  - destruct (IH x) as (t & -> & Hin & Hb). exists t. split; [done|]. split; [set_solver|].
    intros y Hy. apply elem_of_cons in Hy as [->|Hy]; [|by apply Hb].
    apply (behind_trans _ _ x); [apply Hb; set_solver|done].
  - destruct (IH b) as (t & -> & Hin & Hb). exists t. split; [done|]. split; [set_solver|].
    intros y Hy. apply elem_of_cons in Hy as [->|[->|Hy]%elem_of_cons]; [apply Hb; set_solver| |apply Hb; set_solver].
    apply (behind_trans _ _ b); [apply Hb; set_solver|done].
Qed.

Definition eligible (mvr : Z) (th : thread) (t : Z) (r : option Z) : option Z + option Z :=
  if vstart th <=? mvr then inl (Some t) else inr r.

(** The choice as a function of the queue. *)
Definition pick_list (ths : gmap Z thread) (mvr : Z) (q : list Z) (idl : Z) : Z :=
  match loop_list ths (eligible mvr) q None with
  | Some t => t
  | None => match loop_list ths better q None with Some (t, _) => t | None => idl end
  end.

Lemma pick_list_ok ths mvr q idl : pick_ok ths mvr q idl (pick_list ths mvr q idl).
Proof.
  unfold pick_list. pose proof (loop_first ths mvr q) as Hf.
  change (fun (th : thread) (t : Z) (r : option Z) => _) with (eligible mvr) in Hf.
  destruct (loop_list ths (eligible mvr) q None) as [t|]; [by right; left|].
  destruct q as [|t0 l]; [by left|]. cbn [loop_list better].
  destruct (loop_best ths l t0) as (t & -> & Hin & Hb). by right; right.
Qed.

Lemma loop_list_ext {B} ths ths' (f : thread -> Z -> B -> B + B) q b :
  (forall t, t ∈ q -> thread_at ths' t = thread_at ths t) -> loop_list ths' f q b = loop_list ths f q b.
Proof.
  revert b. induction q as [|t q IH]; intros b Hext; [done|]. simpl. rewrite Hext by set_solver.
  destruct (f _ t b); [done|]. apply IH. set_solver.
Qed.

Lemma pick_list_ext ths ths' mvr q idl :
  (forall t, t ∈ q -> thread_at ths' t = thread_at ths t) ->
  pick_list ths' mvr q idl = pick_list ths mvr q idl.
Proof. intros Hext. unfold pick_list. by rewrite !(loop_list_ext ths ths'). Qed.

Lemma pick_ok_in ths mvr q idl next : pick_ok ths mvr q idl next -> (q = [] /\ next = idl) \/ next ∈ q.
Proof. intros [?|[(l1 & l2 & -> & _)|(? & _)]]; [by left|right; set_solver|by right]. Qed.

Section inv.
Context {H A : Type} `{OrdTreeLaws H} `{AllocatorLaws A}.
Context (idle_threads : nat -> Z).

Abbreviation sched := (@sched H A).
Abbreviation queues := (queues idle_threads).
Abbreviation placed := (placed idle_threads).
Abbreviation is_idle := (is_idle idle_threads).

(** pick_next computes that choice, in any number of CPUs' trees. *)
Lemma pick_next_list (s : sched) Q c :
  queues s Q -> (c < 16)%nat ->
  pick_next s c = Some (pick_list (threads s) (min_vruntime (rqs s c)) (Q c) (idle (rqs s c))).
Proof.
  intros Hq Hc. unfold pick_next. rewrite (q_nr _ _ _ Hq c Hc).
  destruct (Q c) as [|t0 l] eqn:HQ; [done|].
  cbn [length]. rewrite (proj2 (Z.eqb_neq _ 0)) by lia.
  rewrite !(for_tree_spec _ Hq) by done. cbn [mbind option_bind]. rewrite HQ. unfold pick_list.
  change (fun (th : thread) (t : Z) (best : option (Z * thread)) => _) with better.
  change (fun (th : thread) (t : Z) (r : option Z) => _) with (eligible (min_vruntime (rqs s c))).
  destruct (loop_list _ (eligible _) _ _) as [t|]; [done|].
  by destruct (loop_list _ better _ _) as [[t ?]|].
Qed.

(** The running thread of a CPU can be read. *)
Definition cur_ok (s : sched) (c : nat) : Prop :=
  current (rqs s c) <> 0 -> current (rqs s c) <> idle (rqs s c) -> is_Some (threads s !! current (rqs s c)).

Lemma rq_min_vr_total (s : sched) Q c :
  queues s Q -> (c < 16)%nat -> cur_ok s c -> exists v, rq_min_vr s c = Some v.
Proof.
  intros Hq Hc Hcur. unfold rq_min_vr.
  destruct (Z.eqb_spec (current (rqs s c)) 0); simpl;
    [|destruct (Z.eqb_spec (current (rqs s c)) (idle (rqs s c))); simpl].
  3: destruct Hcur as [th ->]; [done|done|]; cbn [mbind option_bind].
  all: rewrite (for_tree_spec _ Hq) by done; cbn [mbind option_bind]; by eexists.
Qed.

Lemma raise_min_spec (s : sched) Q c :
  queues s Q -> (c < 16)%nat -> cur_ok s c ->
  exists s', raise_min s c = Some s' /\ threads s' = threads s /\ env_same s s' /\ same_place s s'.
Proof.
  intros Hq Hc Hcur. unfold raise_min. destruct (rq_min_vr_total s Q c Hq Hc Hcur) as (v & ->).
  cbn [mbind option_bind]. eexists. split; [done|].
  destruct (Z.ltb_spec (min_vruntime (rqs s c)) v).
  - split; [done|]. split; [apply env_rq; try done; simpl; lia|]. by apply rq_upd_same.
  - by split_and!.
Qed.

(** What enqueue writes in the thread, [mv] being the queue's virtual time. *)
Definition enqueued (mv : Z) (th : thread) : thread :=
  let vs := if mv <? vruntime th then vruntime th else mv in
  set_state THREAD_READY (set_vdeadline (s64 (vs + SLICE_VTIME)) (set_vstart vs th)).

Lemma enqueue_raise (s : sched) c t :
  enqueue s c t =
  (s ← raise_min s c;
   s ← th_upd s t (enqueued (min_vruntime (rqs s c)));
   rq_insert s c t).
Proof. unfold enqueue, raise_min. destruct (rq_min_vr s c); done. Qed.

Lemma enqueue_spec (s : sched) Q R c t th :
  queues s Q -> (c < 16)%nat -> threads s !! t = Some th -> th_cpu th = Z.of_nat c -> cur_ok s c ->
  (forall th', state th' = THREAD_READY -> th_cpu th' = th_cpu th ->
     placed (with_threads s (<[t := th']> (threads s))) Q R (Some t)) ->
  exists s' l1 l2, enqueue s c t = Some s' /\ Q c = l1 ++ l2 /\
    threads s' = <[t := enqueued (min_vruntime (rqs s' c)) th]> (threads s) /\
    env_same s s' /\ placed s' (nupd Q c (l1 ++ t :: l2)) R None.
Proof.
  intros Hq Hc Hth Hcpu Hcur Hpl. rewrite enqueue_raise.
  destruct (raise_min_spec s Q c Hq Hc Hcur) as (s1 & -> & Ht1 & He1 & Hs1).
  cbn [mbind option_bind]. unfold th_upd. rewrite Ht1, Hth. cbn [mbind option_bind].
  set (th' := enqueued (min_vruntime (rqs s1 c)) th). set (s2 := with_threads s1 _).
  assert (Hp2 : placed s2 Q R (Some t)).
  { eapply placed_same; [|apply (Hpl th'); done].
    destruct Hs1 as (_ & Hn & Hr). split; [done|]. split; [done|]. exact Hr. }
  destruct (placed_insert _ s2 Q R c t th' Hp2 Hc) as (s3 & l1 & l2 & Hins & HQ & Ht3 & He3 & Hp3).
  { simpl. by rewrite lookup_insert_eq. } { done. }
  exists s3, l1, l2. split; [done|]. split; [done|].
  assert (Hmin : min_vruntime (rqs s3 c) = min_vruntime (rqs s1 c)).
  { unfold rq_insert in Hins. destruct (ot_insert _ _ _ _) as [[h r]|]; [|done].
    cbn [mbind option_bind] in Hins. injection Hins as <-. simpl. by rewrite nupd_eq. }
  split; [rewrite Ht3, Hmin; done|]. split; [|done].
  eapply env_trans; [exact He1|]. eapply env_trans; [apply env_threads|exact He3].
Qed.
End inv.
