(* ===== verification/SchedState.v ===== *)
(** * The rest of the scheduler's invariant

    Locks, the global thread list, the memory of the threads, the corpses and
    the suspended contexts: [rest] and [listed]; and how taking a lock, changing
    the list, reaping and switching contexts change them. *)

From stdpp Require Import base gmap list relations.
From Stdlib Require Import ZArith Lia Sorted.
From S2P Require Import Prelude RbRep RbTreeProof OrdTree Spinlock Allocator Sched SchedProof SchedInv.

(** ** Locks *)

Definition lock_held (l : spinlock) : Prop := lock_ok l /\ next_ticket l = u16 (now_serving l + 1).

Lemma spin_lock_held l : lock_free l -> exists l', spin_lock l = Some l' /\ lock_held l'.
Proof.
  intros [[Hs Hn] Heq]. unfold spin_lock, take_ticket. simpl. rewrite Heq, Z.eqb_refl.
  eexists. split; [done|]. split; [split; simpl; [lia|apply u16_range]|simpl; congruence].
Qed.

Lemma spin_trylock_held l :
  lock_free l -> exists l', spin_trylock l = (true, l') /\ lock_held l'.
Proof.
  intros [[Hs Hn] Heq]. unfold spin_trylock, trylock_cas. rewrite Heq, Z.eqb_refl. simpl.
  rewrite Z.eqb_refl. eexists. split; [done|]. split; [split; simpl; [lia|apply u16_range]|simpl; congruence].
Qed.

Lemma spin_unlock_free l : lock_held l -> lock_free (spin_unlock l).
Proof.
  intros [[Hs Hn] Heq]. split; [|simpl; congruence]. split; simpl; [apply u16_range|done].
Qed.

(** ** What the list and the memory depend on *)

Record info := Info { i_kstack : Z; i_next : Z; i_zombie : bool }.

Definition info_of (th : thread) : info :=
  Info (kstack_base th) (list_next th) (bool_decide (state th = THREAD_ZOMBIE)).

(** Waiting to be freed. *)
Definition reapable (i : info) : Prop := i_zombie i = true /\ i_kstack i <> 0.

(** The list from [p] on. *)
Fixpoint tchain (m : gmap Z info) (p : Z) (L : list Z) : Prop :=
  match L with
  | [] => p = 0
  | t :: L => p = t /\ exists i, m !! t = Some i /\ tchain m (i_next i) L
  end.

Lemma tchain_ext m m' p L :
  (forall t, t ∈ L -> i_next <$> m' !! t = i_next <$> m !! t) -> tchain m p L -> tchain m' p L.
Proof.
  revert p. induction L as [|t L IH]; intros p Hext; [done|]. intros [-> (i & Hi & Hc)].
  split; [done|]. pose proof (Hext t ltac:(set_solver)) as Ht. rewrite Hi in Ht.
  destruct (m' !! t) as [i'|] eqn:Hi'; [|done]. exists i'. split; [done|]. injection Ht as ->.
  apply IH; [|done]. intros t' Ht'. apply Hext. set_solver.
Qed.

Lemma tchain_dom m p L t : tchain m p L -> t ∈ L -> is_Some (m !! t).
Proof.
  revert p. induction L as [|x L IH]; intros p; simpl; [set_solver|].
  intros [-> (i & Hi & Hc)] [->|Ht]%elem_of_cons; [by eexists|by eapply IH].
Qed.

(** Unlinking the head, or an element from its predecessor. *)
Lemma tchain_unlink m p l1 t l2 i :
  tchain m p (l1 ++ t :: l2) -> NoDup (l1 ++ t :: l2) -> m !! t = Some i ->
  match last l1 with
  | None => tchain m (i_next i) l2
  | Some q => exists iq, m !! q = Some iq /\
      tchain (<[q := Info (i_kstack iq) (i_next i) (i_zombie iq)]> m) p (l1 ++ l2)
  end.
Proof.
  revert p. induction l1 as [|x l1 IH]; intros p Hc Hnd Hi.
  - destruct Hc as [-> (i' & Hi' & Hc)]. rewrite Hi in Hi'. injection Hi' as <-. done.
  - destruct Hc as [-> (ix & Hix & Hc)]. apply NoDup_cons in Hnd as [Hx Hnd].
    specialize (IH _ Hc Hnd Hi). rewrite last_cons. destruct (last l1) as [q|] eqn:Hl.
    + destruct IH as (iq & Hiq & Hc'). exists iq. split; [done|]. simpl. split; [done|].
      exists ix. split; [|done]. rewrite lookup_insert_ne; [done|]. intros <-.
      apply last_Some in Hl as [l' ->]. set_solver.
    + apply last_None in Hl as ->. simpl in *. exists ix. split; [done|]. split; [done|].
      eexists. rewrite lookup_insert_eq. split; [done|]. simpl.
      eapply tchain_ext; [|exact IH]. intros y Hy. rewrite lookup_insert_ne; [done|]. set_solver.
Qed.

(** Addresses fixed by the linker are apart from the heap and fit for nodes. *)
Class Layout {H A : Type} `{OrdTree H} `{Allocator A} (boot_thread : Z) (idle_threads : nat -> Z) : Prop := {
  lay_inj c c' : (c < 16)%nat -> (c' < 16)%nat -> idle_threads c = idle_threads c' -> c = c';
  lay_boot : ~ is_idle idle_threads boot_thread;
  lay_static t : is_idle idle_threads t \/ t = boot_thread ->
    t <> 0 /\ ~ al_pool t /\ ot_addr (rb_of t);
  lay_heap t : al_pool t -> t <> 0 -> Z.even t = true -> ot_addr (rb_of t);
}.

Section state.
Context {H A : Type} `{OrdTreeLaws H} `{AllocatorLaws A}.
Context (boot_thread : Z) (idle_threads : nat -> Z) {Hlay : Layout boot_thread idle_threads}.

Abbreviation sched := (@sched H A).
Abbreviation queues := (queues idle_threads).
Abbreviation placed := (placed idle_threads).
Abbreviation is_idle := (is_idle idle_threads).

Definition static (t : Z) : Prop := is_idle t \/ t = boot_thread.

Definition infos (s : sched) : gmap Z info := info_of <$> threads s.

Record rest (s : sched) (L : list Z) (live : gset Z) (held : nat -> bool) : Prop := {
  r_off c : (c < 16)%nat -> ~ online s c -> current (rqs s c) = 0;
  r_lock c : (c < 16)%nat ->
    if held c then lock_held (rq_lock (rqs s c)) else lock_free (rq_lock (rqs s c));
  r_tlock : lock_free (g_tlist_lock s);
  r_list : tchain (infos s) (g_tlist s) L;
  r_nodup : NoDup L;
  r_heap : al_inv (heap s) live;
  r_pool p : p ∈ live -> al_pool p;
  r_thr t i : infos s !! t = Some i ->
    t <> 0 /\ (i_kstack i = 0 /\ static t \/
               i_kstack i <> 0 /\ t ∈ live /\ i_kstack i ∈ live /\ al_pool t);
  r_kst t1 i1 t2 i2 : infos s !! t1 = Some i1 -> infos s !! t2 = Some i2 -> i_kstack i1 <> 0 ->
    (t2 ∈ live -> i_kstack i1 <> t2) /\ (i_kstack i1 = i_kstack i2 -> t1 = t2);
  r_corpse c : (c < 16)%nat -> corpse (rqs s c) <> 0 ->
    exists i, infos s !! corpse (rqs s c) = Some i /\ reapable i;
  r_corpse_inj c c' : (c < 16)%nat -> (c' < 16)%nat -> corpse (rqs s c) <> 0 ->
    corpse (rqs s c) = corpse (rqs s c') -> c = c';
  r_resume t c : resume s !! t = Some c -> (c < 16)%nat;
}.

(** The list holds the threads that are not waiting to be freed. *)
Definition listed (s : sched) (L : list Z) : Prop :=
  forall t, t ∈ L <-> exists i, infos s !! t = Some i /\ ~ reapable i.

Lemma infos_lookup s t th : threads s !! t = Some th -> infos s !! t = Some (info_of th).
Proof. intros Hth. unfold infos. by rewrite lookup_fmap, Hth. Qed.

Lemma infos_inv s t i : infos s !! t = Some i -> exists th, threads s !! t = Some th /\ i = info_of th.
Proof. unfold infos. rewrite lookup_fmap. destruct (threads s !! t); naive_solver. Qed.

Lemma infos_upd s t th th' :
  threads s !! t = Some th -> info_of th' = info_of th ->
  info_of <$> <[t := th']> (threads s) = infos s.
Proof.
  intros Hth Hi. rewrite fmap_insert, Hi. apply insert_id. by apply infos_lookup.
Qed.

Lemma rest_same s s' L live held :
  rest s L live held -> env_same s s' -> infos s' = infos s -> rest s' L live held.
Proof.
  intros Hr He Hi. destruct He as [He1 He2 He3 He4 _ He5 _].
  split; rewrite ?Hi, ?He1, ?He2, ?He3, ?He4; try apply Hr.
  - intros c Hc. destruct (He5 c) as (_ & -> & Hid & _). unfold online. rewrite Hid. by apply Hr.
  - intros c Hc. destruct (He5 c) as (-> & _). by apply Hr.
  - intros c Hc. destruct (He5 c) as (_ & _ & _ & ->). by apply Hr.
  - intros c c' Hc Hc'. destruct (He5 c) as (_ & _ & _ & ->), (He5 c') as (_ & _ & _ & ->). by apply Hr.
Qed.

Lemma listed_same s s' L : listed s L -> infos s' = infos s -> listed s' L.
Proof. intros Hl Hi. unfold listed. by rewrite Hi. Qed.

(** States that differ in run queue locks only. *)
Record unlocked_same (s s' : sched) : Prop := {
  u_threads : threads s' = threads s;
  u_place : same_place s s';
  u_cur c : current (rqs s' c) = current (rqs s c);
  u_min c : min_vruntime (rqs s' c) = min_vruntime (rqs s c);
  u_up : sched_up s' = sched_up s;
  u_ticks : g_sched_ticks s' = g_sched_ticks s;
}.

Lemma set_lock_same s c f : unlocked_same s (rq_upd s c (fun r => rq_set_lock (f r) r)).
Proof.
  split; try done; [by apply rq_upd_same| |]; intros c'; simpl; unfold nupd;
    by destruct (Nat.eqb_spec c' c) as [->|].
Qed.

Lemma rest_set_lock s L live held c f b :
  rest s L live held ->
  (if b : bool then lock_held (f (rqs s c)) else lock_free (f (rqs s c))) ->
  rest (rq_upd s c (fun r => rq_set_lock (f r) r)) L live (nupd held c b).
Proof.
  intros Hr Hf.
  split; try apply Hr; simpl.
  - intros c' Hc'. unfold online. simpl. unfold nupd.
    destruct (Nat.eqb_spec c' c) as [->|]; [apply (r_off _ _ _ _ Hr c Hc')|by apply Hr].
  - intros c' Hc'. unfold nupd. destruct (Nat.eqb_spec c' c) as [->|]; [done|by apply Hr].
  - intros c' Hc'. unfold nupd. destruct (Nat.eqb_spec c' c) as [->|]; by apply Hr.
  - intros c1 c2 Hc1 Hc2. unfold nupd.
    destruct (Nat.eqb_spec c1 c) as [->|], (Nat.eqb_spec c2 c) as [->|]; by apply Hr.
Qed.

Lemma rq_lock_spec s L live held c :
  rest s L live held -> (c < 16)%nat -> held c = false ->
  exists s', rq_spin_lock s c = Some s' /\ rest s' L live (nupd held c true) /\
    unlocked_same s s' /\ infos s' = infos s.
Proof.
  intros Hr Hc Hh. pose proof (r_lock _ _ _ _ Hr c Hc) as Hl. rewrite Hh in Hl.
  destruct (spin_lock_held _ Hl) as (l' & Hl' & Hheld). unfold rq_spin_lock. rewrite Hl'.
  cbn [mbind option_bind]. eexists. split; [done|].
  split; [exact (rest_set_lock s L live held c (fun _ => l') true Hr Hheld)|].
  split; [exact (set_lock_same s c (fun _ => l'))|done].
Qed.

Lemma rq_unlock_spec s L live held c :
  rest s L live held -> (c < 16)%nat -> held c = true ->
  rest (rq_spin_unlock s c) L live (nupd held c false) /\ unlocked_same s (rq_spin_unlock s c) /\
  infos (rq_spin_unlock s c) = infos s.
Proof.
  intros Hr Hc Hh. pose proof (r_lock _ _ _ _ Hr c Hc) as Hl. rewrite Hh in Hl.
  split; [|split; [apply set_lock_same|done]].
  apply (rest_set_lock s L live held c (fun r => spin_unlock (rq_lock r)) false Hr).
  by apply spin_unlock_free.
Qed.

(** ** The thread list *)

Definition unlink (i : info) : Z * bool := (i_kstack i, i_zombie i).

(** Links may change and threads may die. *)
Lemma rest_list s s' L L' live held :
  rest s L live held -> heap s' = heap s -> rqs s' = rqs s -> resume s' = resume s ->
  lock_free (g_tlist_lock s') -> tchain (infos s') (g_tlist s') L' -> NoDup L' ->
  (forall t, i_kstack <$> infos s' !! t = i_kstack <$> infos s !! t) ->
  (forall t i i', infos s !! t = Some i -> infos s' !! t = Some i' -> i_zombie i = true -> i_zombie i' = true) ->
  rest s' L' live held.
Proof.
  intros Hr Hh Hq Hre Hl Hc Hnd Hk Hz.
  assert (Hi : forall t i', infos s' !! t = Some i' ->
    exists i, infos s !! t = Some i /\ i_kstack i = i_kstack i').
  { intros t i' Hi'. specialize (Hk t). rewrite Hi' in Hk.
    destruct (infos s !! t) as [i|]; [|done]. injection Hk as ?. eauto. }
  split; rewrite ?Hh, ?Hq, ?Hre; try done; try apply Hr.
  - unfold online. rewrite Hq. apply Hr.
  - intros t i' Hi'. destruct (Hi t i' Hi') as (i & Hii & <-). by apply (r_thr _ _ _ _ Hr).
  - intros t1 i1 t2 i2 H1' H2'. destruct (Hi _ _ H1') as (j1 & Hj1 & <-).
    destruct (Hi _ _ H2') as (j2 & Hj2 & <-). by apply (r_kst _ _ _ _ Hr).
  - intros c Hc' Hne. destruct (r_corpse _ _ _ _ Hr c Hc' Hne) as (i & Hii & [Hzi Hki]).
    specialize (Hk (corpse (rqs s c))). rewrite Hii in Hk.
    destruct (infos s' !! _) as [i'|] eqn:Hi'; [|done]. injection Hk as Hk'.
    exists i'. split; [done|]. split; [by eapply Hz|congruence].
Qed.

Lemma unlink_kstack (m m' : gmap Z info) :
  (forall t, unlink <$> m' !! t = unlink <$> m !! t) ->
  forall t, i_kstack <$> m' !! t = i_kstack <$> m !! t.
Proof. intros Hu t. specialize (Hu t). destruct (m !! t), (m' !! t); try done. injection Hu as ??. simpl. by f_equal. Qed.

Lemma unlink_zombie (m m' : gmap Z info) :
  (forall t, unlink <$> m' !! t = unlink <$> m !! t) ->
  forall t i i', m !! t = Some i -> m' !! t = Some i' -> i_zombie i = true -> i_zombie i' = true.
Proof. intros Hu t i i' Hi Hi'. specialize (Hu t). rewrite Hi, Hi' in Hu. injection Hu as ??. congruence. Qed.

Lemma rest_zombie s L live held t th :
  rest s L live held -> threads s !! t = Some th ->
  rest (with_threads s (<[t := set_state THREAD_ZOMBIE th]> (threads s))) L live held.
Proof.
  intros Hr Hth. eapply rest_list; try done; try apply Hr; unfold infos; simpl.
  - eapply tchain_ext; [|apply (r_list _ _ _ _ Hr)]. intros x Hx. rewrite fmap_insert.
    destruct (decide (x = t)) as [->|Hne]; [|by rewrite lookup_insert_ne].
    rewrite lookup_insert_eq, (infos_lookup _ _ _ Hth). done.
  - intros x. rewrite fmap_insert. destruct (decide (x = t)) as [->|Hne]; [|by rewrite lookup_insert_ne].
    rewrite lookup_insert_eq, lookup_fmap, Hth. done.
  - intros x i i'. rewrite fmap_insert. destruct (decide (x = t)) as [->|Hne].
    + rewrite lookup_insert_eq. by intros _ [= <-].
    + rewrite lookup_insert_ne by done. congruence.
Qed.

Lemma rest_set_corpse s L live held c d i :
  rest s L live held -> infos s !! d = Some i -> reapable i ->
  (forall c', (c' < 16)%nat -> corpse (rqs s c') <> d) ->
  rest (rq_upd s c (rq_set_corpse d)) L live held.
Proof.
  intros Hr Hi Hre Hd. split; try apply Hr; simpl.
  - intros c' Hc'. unfold online. simpl. unfold nupd.
    destruct (Nat.eqb_spec c' c) as [->|]; by apply (r_off _ _ _ _ Hr).
  - intros c' Hc'. unfold nupd. destruct (Nat.eqb_spec c' c) as [->|]; by apply (r_lock _ _ _ _ Hr).
  - intros c' Hc'. unfold nupd. destruct (Nat.eqb_spec c' c) as [->|]; [eauto|by apply (r_corpse _ _ _ _ Hr)].
  - intros c1 c2 Hc1 Hc2. unfold nupd.
    destruct (Nat.eqb_spec c1 c) as [->|], (Nat.eqb_spec c2 c) as [->|]; simpl; try done.
    + intros _ Heq. by destruct (Hd c2).
    + intros _ Heq. by destruct (Hd c1).
    + by apply (r_corpse_inj _ _ _ _ Hr).
Qed.

Lemma tlist_add_spec s L live held t th :
  rest s L live held -> threads s !! t = Some th -> t ∉ L ->
  exists s' l, tlist_add s t = Some s' /\
    s' = with_tlist (with_threads s (<[t := set_list_next (g_tlist s) th]> (threads s))) t l /\
    rest s' (t :: L) live held /\
    forall x, unlink <$> infos s' !! x = unlink <$> infos s !! x.
Proof.
  intros Hr Hth Hnin. destruct (spin_lock_held _ (r_tlock _ _ _ _ Hr)) as (l & Hl & Hheld).
  unfold tlist_add. rewrite Hl. cbn [mbind option_bind]. unfold th_upd. rewrite Hth.
  cbn [mbind option_bind]. eexists _, _. split; [done|]. split; [done|].
  assert (Hinf : forall x, unlink <$> (info_of <$> <[t := set_list_next (g_tlist s) th]> (threads s)) !! x =
    unlink <$> infos s !! x).
  { intros x. unfold infos. rewrite !lookup_fmap. destruct (decide (x = t)) as [->|Hne].
    - by rewrite lookup_insert_eq, Hth.
    - by rewrite lookup_insert_ne. }
  split; [|exact Hinf].
  eapply rest_list; try done; [by apply spin_unlock_free| | |by apply unlink_kstack|by apply unlink_zombie].
  - simpl. split; [done|]. eexists. unfold infos. simpl. rewrite fmap_insert, lookup_insert_eq.
    split; [done|]. simpl. eapply tchain_ext; [|apply (r_list _ _ _ _ Hr)]. intros x Hx.
    rewrite lookup_insert_ne; [done|]. by intros ->.
  - apply NoDup_cons. split; [done|apply Hr].
Qed.

Lemma tl_find_spec s t l1 l2 link v fuel :
  tl_read s link = Some v -> tchain (infos s) v (l1 ++ t :: l2) -> NoDup (l1 ++ t :: l2) ->
  (forall x, x ∈ l1 -> x <> 0) -> (length l1 < fuel)%nat ->
  tl_find fuel s link t = Some (match last l1 with None => link | Some q => TlNext q end, t).
Proof.
  revert link v fuel. induction l1 as [|x l1 IH]; intros link v [|fuel] Hrd Hc Hnd Hnz Hf;
    simpl in Hf; [lia| |lia|]; cbn [tl_find]; rewrite Hrd; cbn [mbind option_bind];
    destruct Hc as [-> (i & Hi & Hc)].
  - by rewrite Z.eqb_refl, orb_true_r.
  - apply NoDup_cons in Hnd as [Hx Hnd].
    rewrite (proj2 (Z.eqb_neq x 0)) by (apply Hnz; set_solver).
    rewrite (proj2 (Z.eqb_neq x t)) by set_solver. simpl.
    destruct (infos_inv _ _ _ Hi) as (th & Hth & ->).
    rewrite (IH (TlNext x) (list_next th) fuel); try done; [|simpl; by rewrite Hth|set_solver|lia].
    rewrite last_cons. by destruct (last l1).
Qed.

Lemma list_length s L live held : rest s L live held -> (length L <= size (threads s))%nat.
Proof.
  intros Hr. rewrite <- size_dom, <- (size_list_to_set (C := gset Z)) by apply Hr.
  apply subseteq_size. intros t. rewrite elem_of_list_to_set. intros Ht.
  destruct (tchain_dom _ _ _ _ (r_list _ _ _ _ Hr) Ht) as [i Hi].
  destruct (infos_inv _ _ _ Hi) as (th & Hth & _). by eapply elem_of_dom_2.
Qed.

(** At most one list_next is rewritten. *)
Definition relinks (m m' : gmap Z thread) : Prop :=
  m' = m \/ exists q thq n, m !! q = Some thq /\ m' = <[q := set_list_next n thq]> m.

(** tlist_remove unlinks the thread and writes at most one list_next. *)
Lemma tlist_remove_spec s L live held t th :
  rest s L live held -> threads s !! t = Some th -> t ∈ L ->
  exists s' p l m, tlist_remove s t = Some s' /\ s' = with_tlist (with_threads s m) p l /\
    relinks (threads s) m /\
    rest s' (filter (fun x => x <> t) L) live held /\
    forall x, unlink <$> infos s' !! x = unlink <$> infos s !! x.
Proof.
  intros Hr Hth (l1 & l2 & HL)%list_elem_of_split. pose proof (r_nodup _ _ _ _ Hr) as Hnd.
  destruct (spin_lock_held _ (r_tlock _ _ _ _ Hr)) as (l & Hl & Hheld).
  pose proof (r_list _ _ _ _ Hr) as Hc. rewrite HL in Hc, Hnd.
  pose proof (list_length _ _ _ _ Hr) as Hlen. rewrite HL, length_app in Hlen.
  assert (Hnz : forall x, x ∈ l1 ++ t :: l2 -> x <> 0).
  { intros x Hx. destruct (tchain_dom _ _ _ _ Hc Hx) as [i Hi]. by apply (r_thr _ _ _ _ Hr x i). }
  assert (HL' : filter (fun x => x <> t) L = l1 ++ l2).
  { rewrite HL. by apply filter_ne_mid. }
  assert (Hnd' : NoDup (l1 ++ l2)).
  { rewrite <- HL'. apply NoDup_filter. by rewrite HL. }
  unfold tlist_remove. rewrite Hl. cbn [mbind option_bind].
  rewrite (tl_find_spec s t l1 l2 TlHead (g_tlist s)); try done;
    [|intros x Hx; apply Hnz; set_solver|lia].
  cbn [mbind option_bind]. rewrite (proj2 (Z.eqb_neq t 0)) by (apply Hnz; set_solver). rewrite Hth.
  cbn [mbind option_bind].
  pose proof (tchain_unlink _ _ _ _ _ _ Hc Hnd (infos_lookup _ _ _ Hth)) as Hun. rewrite HL'.
  destruct (last l1) as [q|] eqn:Hlast.
  - destruct Hun as (iq & Hiq & Hun). destruct (infos_inv _ _ _ Hiq) as (thq & Hthq & ->).
    unfold th_upd. rewrite Hthq. cbn [mbind option_bind].
    eexists _, _, _, _. split; [done|]. split; [done|]. split; [right; eauto|].
    assert (Hinf : forall x, unlink <$> (info_of <$> <[q := set_list_next (list_next th) thq]> (threads s)) !! x =
      unlink <$> infos s !! x).
    { intros x. unfold infos. rewrite !lookup_fmap. destruct (decide (x = q)) as [->|Hne].
      - by rewrite lookup_insert_eq, Hthq.
      - by rewrite lookup_insert_ne. }
    split; [|exact Hinf].
    eapply rest_list; try done; [by apply spin_unlock_free| |by apply unlink_kstack|by apply unlink_zombie].
    unfold infos. simpl. rewrite fmap_insert. exact Hun.
  - apply last_None in Hlast as ->. simpl in Hun.
    eexists _, _, _, (threads s). split; [done|]. split; [by destruct s|]. split; [by left|].
    split; [|done]. eapply rest_list; try done; [by apply spin_unlock_free|by apply unlink_zombie].
Qed.

(** ** Creating and freeing threads *)

Lemma queues_new (s : sched) Q t th :
  queues s Q -> threads s !! t = None -> ot_addr (rb_of t) ->
  Z.of_nat (size (threads s)) + 1 < UINT32_MAX ->
  queues (with_nodes (with_threads s (<[t := th]> (threads s))) (ot_new (nodes s) (rb_of t))) Q.
Proof.
  intros Hq Hnone Haddr Hsz.
  assert (Hnin : forall c, (c < 16)%nat -> t ∉ Q c).
  { intros c Hc Hin. destruct (q_thr _ _ _ Hq c t Hc Hin) as (th0 & Hth0 & _). congruence. }
  split; simpl.
  - intros c Hc. apply ot_new_law; [by apply (q_rep _ _ _ Hq)|]. rewrite elem_rb_of. by apply Hnin.
  - intros c Hc. eapply ordered_ext; [|by apply (q_ord _ _ _ Hq)]. intros t' Ht'.
    unfold thread_at. rewrite lookup_insert_ne; [done|]. intros <-. by eapply Hnin.
  - apply Hq.
  - intros c t' Hc Ht'. rewrite lookup_insert_ne; [by apply (q_thr _ _ _ Hq)|].
    intros <-. by eapply Hnin.
  - intros t'. rewrite dom_insert, elem_of_union, elem_of_singleton, ot_new_cell.
    intros [->|Ht']; [by split; [left|]|]. destruct (q_cell _ _ _ Hq t' Ht'). by split; [right|].
  - rewrite map_size_insert_None by done. lia.
Qed.

(** A new thread on its way to a queue. *)
Lemma placed_new (s : sched) Q R t th :
  placed s Q R None -> threads s !! t = None -> ot_addr (rb_of t) ->
  Z.of_nat (size (threads s)) + 1 < UINT32_MAX ->
  state th = THREAD_READY -> ~ is_idle t -> 0 <= th_cpu th < 16 -> online s (Z.to_nat (th_cpu th)) ->
  placed (with_nodes (with_threads s (<[t := th]> (threads s))) (ot_new (nodes s) (rb_of t))) Q R (Some t).
Proof.
  intros [Hq Ht Hrun Hi He] Hnone Haddr Hsz Hs Hni Hcpu Hon. split; simpl.
  - by apply queues_new.
  - intros t' th' Hth'. destruct (decide (t' = t)) as [->|Hne].
    + rewrite lookup_insert_eq in Hth'. injection Hth' as <-. unfold place. rewrite Hs.
      split; [by right; right|]. split; [done|]. split; [done|]. done.
    + rewrite lookup_insert_ne in Hth' by done. destruct (Ht t' th' Hth') as (Hpl & ?). split; [|done].
      unfold place in *. destruct (state th'); try done. naive_solver.
  - intros c t' Hr. destruct (Hrun c t' Hr) as (th0 & Hth0 & ?). rewrite lookup_insert_ne by congruence. eauto.
  - intros c Hc Ho. destruct (Hi c Hc Ho) as [? [th0 ?]]. split; [done|].
    rewrite lookup_insert_ne by congruence. eauto.
  - intros t' [= <-]. rewrite lookup_insert_eq. exists th. split_and!; try done.
    intros Hin. destruct (q_thr _ _ _ Hq (Z.to_nat (th_cpu th)) t ltac:(lia) Hin) as (th0 & Hth0 & _). congruence.
Qed.

(** A dead thread goes away. *)
Lemma placed_del (s : sched) Q R t th :
  placed s Q R None -> threads s !! t = Some th -> state th = THREAD_ZOMBIE ->
  placed (with_nodes (with_threads s (delete t (threads s))) (ot_drop (nodes s) (rb_of t))) Q R None.
Proof.
  intros Hp Hth Hs. pose proof Hp as [Hq Ht Hrun Hi He].
  assert (Hnin : forall c, (c < 16)%nat -> t ∉ Q c).
  { eapply not_queued; [done|done|]. left. by rewrite Hs. }
  destruct (Ht t th Hth) as (Hpl & _). unfold place in Hpl. rewrite Hs in Hpl.
  split; simpl; try done.
  - split; simpl.
    + intros c Hc. apply ot_drop_law; [by apply (q_rep _ _ _ Hq)|]. rewrite elem_rb_of. by apply Hnin.
    + intros c Hc. eapply ordered_ext; [|by apply (q_ord _ _ _ Hq)]. intros t' Ht'.
      unfold thread_at. rewrite lookup_delete_ne; [done|]. intros <-. by eapply Hnin.
    + apply Hq.
    + intros c t' Hc Ht'. rewrite lookup_delete_ne; [by apply (q_thr _ _ _ Hq)|].
      intros <-. by eapply Hnin.
    + intros t'. rewrite dom_delete, elem_of_difference, elem_of_singleton, ot_drop_cell.
      intros [Ht' Hne]. destruct (q_cell _ _ _ Hq t' Ht'). split; [|done]. split; [|done].
      by intros ?%rb_of_inj.
    + pose proof (q_size _ _ _ Hq). rewrite map_size_delete, Hth. lia.
  - intros t' th' [Hne Hth']%lookup_delete_Some. by apply Ht.
  - intros c t' Hr. destruct (Hrun c t' Hr) as (th0 & Hth0 & Hs0 & Hc0).
    exists th0. rewrite lookup_delete_ne by congruence. done.
  - intros c Hc Ho. destruct (Hi c Hc Ho) as [? [th0 ?]]. split; [done|].
    rewrite lookup_delete_ne; [eauto|]. intros ->. apply Hpl. by exists c.
Qed.

(** States with the same running threads, idle threads and clocks. *)
Record running_same (s s' : sched) : Prop := {
  n_cur c : current (rqs s' c) = current (rqs s c);
  n_idle c : idle (rqs s' c) = idle (rqs s c);
  n_min c : min_vruntime (rqs s' c) = min_vruntime (rqs s c);
  n_up : sched_up s' = sched_up s;
}.

(** The threads that are left when at most one dead thread is freed. *)
Definition reaped (m m' : gmap Z thread) : Prop :=
  m' = m \/ exists d th, m !! d = Some th /\ state th = THREAD_ZOMBIE /\ m' = delete d m.

Lemma infos_delete s t : info_of <$> delete t (threads s) = delete t (infos s).
Proof. apply fmap_delete. Qed.

Lemma reap_spec s Q R L live held c :
  placed s Q R None -> rest s L live held -> listed s L -> (c < 16)%nat ->
  exists s' live', reap s c = Some s' /\ placed s' Q R None /\ rest s' L live' held /\ listed s' L /\
    running_same s s' /\ reaped (threads s) (threads s').
Proof.
  intros Hp Hr Hl Hc. unfold reap. destruct (Z.eqb_spec (corpse (rqs s c)) 0) as [H0'|Hd].
  { exists s, live. split; [done|]. split_and!; try done. by left. }
  destruct (r_corpse _ _ _ _ Hr c Hc Hd) as (i & Hi & Hz & Hk).
  destruct (infos_inv _ _ _ Hi) as (th & Hth & ->). simpl in Hz, Hk. apply bool_decide_eq_true in Hz.
  set (d := corpse (rqs s c)) in *. cbn zeta. cbn [threads rq_upd with_rqs].
  rewrite Hth. cbn [mbind option_bind]. rewrite (proj2 (Z.eqb_neq _ _) Hk). cbn [heap rq_upd with_rqs].
  destruct (r_thr _ _ _ _ Hr d _ Hi) as [Hd0 [[? _]|(_ & Hdl & Hkl & _)]]; [done|].
  destruct (al_free_law _ _ _ (r_heap _ _ _ _ Hr) Hkl) as (h1 & Hf1 & Hinv1).
  simpl in Hf1. rewrite Hf1. cbn [mbind option_bind heap with_heap].
  destruct (r_kst _ _ _ _ Hr d _ d _ Hi Hi Hk) as [Hkd _]. specialize (Hkd Hdl). simpl in Hkd.
  destruct (al_free_law _ _ d Hinv1) as (h2 & Hf2 & Hinv2); [set_solver|].
  rewrite Hf2. cbn [mbind option_bind].
  eexists _, (live ∖ {[i_kstack (info_of th)]} ∖ {[d]}). split; [done|].
  split; [|split; [|split; [|split]]].
  - eapply placed_same; [|exact (placed_del s Q R d th Hp Hth Hz)].
    split; [done|]. split; [done|]. intros c'. simpl. unfold nupd. by destruct (Nat.eqb_spec c' c) as [->|].
  - assert (Hinf : forall t i, delete d (infos s) !! t = Some i -> t <> d /\ infos s !! t = Some i).
    { intros t i' [? ?]%lookup_delete_Some. by split; [apply not_eq_sym|]. }
    split; simpl; try apply Hr; unfold infos; simpl; rewrite ?infos_delete.
    + intros c' Hc'. unfold online. simpl. unfold nupd. destruct (Nat.eqb_spec c' c) as [->|]; by apply Hr.
    + intros c' Hc'. unfold nupd. destruct (Nat.eqb_spec c' c) as [->|]; by apply (r_lock _ _ _ _ Hr).
    + eapply tchain_ext; [|apply (r_list _ _ _ _ Hr)]. intros t Ht. rewrite lookup_delete_ne; [done|].
      intros <-. apply Hl in Ht as (i' & Hi' & Hnr). rewrite Hi in Hi'. injection Hi' as <-. apply Hnr.
      split; [|done]. simpl. by apply bool_decide_eq_true.
    + exact Hinv2.
    + intros p Hpl. apply (r_pool _ _ _ _ Hr). set_solver.
    + intros t i' [Hne Hi']%Hinf. destruct (r_thr _ _ _ _ Hr t i' Hi') as [Ht0 [?|(Hk' & Htl & Hkl' & Hpool)]];
        (split; [done|]); [by left|right].
      destruct (r_kst _ _ _ _ Hr d _ t _ Hi Hi' Hk) as [Hx Hy].
      destruct (r_kst _ _ _ _ Hr t _ d _ Hi' Hi Hk') as [Hx' _].
      split_and!; try done; rewrite !elem_of_difference, !not_elem_of_singleton; split_and!; try done.
      * intros Heq. by apply Hx.
      * intros Heq. symmetry in Heq. by apply Hne, eq_sym, Hy.
      * intros Heq. by apply Hx'.
    + intros t1 i1 t2 i2 [_ Hi1]%Hinf [_ Hi2]%Hinf Hk1.
      destruct (r_kst _ _ _ _ Hr t1 i1 t2 i2 Hi1 Hi2 Hk1) as [Hx Hy]. split; [|done].
      intros Ht2. apply Hx. set_solver.
    + intros c' Hc'. unfold nupd. destruct (Nat.eqb_spec c' c) as [->|Hcc]; [done|]. intros Hc0.
      destruct (r_corpse _ _ _ _ Hr c' Hc' Hc0) as (i' & Hi' & ?). exists i'. split; [|done].
      rewrite lookup_delete_ne; [done|]. intros Heq. by apply Hcc, eq_sym, (r_corpse_inj _ _ _ _ Hr c c').
    + intros c1 c2 Hc1 Hc2. unfold nupd.
      destruct (Nat.eqb_spec c1 c) as [->|], (Nat.eqb_spec c2 c) as [->|]; simpl; try done. by apply Hr.
  - intros t. unfold infos. simpl. rewrite infos_delete, (Hl t). split.
    + intros (i' & Hi' & Hnr). exists i'. split; [|done]. rewrite lookup_delete_ne; [done|].
      intros <-. rewrite Hi in Hi'. injection Hi' as <-. apply Hnr. split; [|done]. simpl.
      by apply bool_decide_eq_true.
    + intros (i' & [_ Hi']%lookup_delete_Some & Hnr). eauto.
  - split; try done; intros c'; simpl; unfold nupd; by destruct (Nat.eqb_spec c' c) as [->|].
  - right. exists d, th. done.
Qed.

(** Relinking the thread list moves no thread. *)
Lemma placed_relink (s : sched) Q R e m p l :
  placed s Q R e -> relinks (threads s) m -> placed (with_tlist (with_threads s m) p l) Q R e.
Proof.
  intros Hp Hm. eapply (placed_same _ (with_threads s m)); [by split|].
  destruct Hm as [->|(q & thq & n & Hq & ->)]; [by destruct s|]. by eapply placed_quiet.
Qed.

(** ** Walking the list *)

Lemma tl_count_spec s L p fuel n :
  tchain (infos s) p L -> (forall x, x ∈ L -> x <> 0) -> (length L < fuel)%nat -> 0 <= n < 2 ^ 32 ->
  tl_count fuel s p n = Some (u32 (n + Z.of_nat (length L))).
Proof.
  revert p n fuel. induction L as [|t L IH]; intros p n [|fuel] Hc Hnz Hf Hn; simpl in Hf; try lia; cbn [tl_count].
  - simpl in Hc. subst p. simpl. unfold u32. rewrite Z.mod_small by lia. f_equal. lia.
  - destruct Hc as [-> (i & Hi & Hc)]. rewrite (proj2 (Z.eqb_neq t 0)) by (apply Hnz; set_solver).
    destruct (infos_inv _ _ _ Hi) as (th & -> & ->). cbn [mbind option_bind].
    rewrite (IH (list_next th)); [|done|set_solver|lia|unfold u32; apply Z.mod_pos_bound; lia].
    f_equal. unfold u32. rewrite Zplus_mod_idemp_l. f_equal. simpl. lia.
Qed.

Lemma tl_nth_spec s L p fuel idx :
  tchain (infos s) p L -> (forall x, x ∈ L -> x <> 0) -> (length L < fuel)%nat -> 0 <= idx ->
  tl_nth fuel s p idx = Some (nth (Z.to_nat idx) L 0).
Proof.
  revert p idx fuel. induction L as [|t L IH]; intros p idx [|fuel] Hc Hnz Hf Hn; simpl in Hf; try lia; cbn [tl_nth].
  - simpl in Hc. subst p. simpl. by destruct (Z.to_nat idx).
  - destruct Hc as [-> (i & Hi & Hc)]. rewrite (proj2 (Z.eqb_neq t 0)) by (apply Hnz; set_solver). cbn [orb].
    destruct (Z.leb_spec idx 0) as [Hle|Hgt]; [by replace idx with 0 by lia|].
    destruct (infos_inv _ _ _ Hi) as (th & -> & ->). cbn [mbind option_bind].
    rewrite (IH (list_next th)); [|done|set_solver|lia|lia].
    replace (Z.to_nat idx) with (S (Z.to_nat (idx - 1))) by lia. done.
Qed.

(** The first thread of [L] with the id, or NULL. *)
Definition first_tid (s : sched) (id : Z) (L : list Z) : Z :=
  default 0 (head (filter (fun t => tid (thread_at (threads s) t) = id) L)).

Lemma tl_by_tid_spec s L p fuel id :
  tchain (infos s) p L -> (forall x, x ∈ L -> x <> 0) -> (length L < fuel)%nat ->
  tl_by_tid fuel s p id = Some (first_tid s id L).
Proof.
  unfold first_tid.
  revert p fuel. induction L as [|t L IH]; intros p [|fuel] Hc Hnz Hf; simpl in Hf; try lia; cbn [tl_by_tid].
  - simpl in Hc. by subst p.
  - destruct Hc as [-> (i & Hi & Hc)]. rewrite (proj2 (Z.eqb_neq t 0)) by (apply Hnz; set_solver).
    destruct (infos_inv _ _ _ Hi) as (th & Hth & ->). rewrite Hth. cbn [mbind option_bind].
    assert (Hat : thread_at (threads s) t = th) by (unfold thread_at; by rewrite Hth).
    destruct (Z.eqb_spec (tid th) id) as [He|Hne].
    + by rewrite filter_cons_True by by rewrite Hat.
    + rewrite filter_cons_False by by rewrite Hat. apply IH; [done|set_solver|lia].
Qed.

Lemma walks_spec s L live held :
  rest s L live held ->
  exists l, spin_lock (g_tlist_lock s) = Some l /\
    tl_count (S (size (threads s))) s (g_tlist s) 0 = Some (u32 (Z.of_nat (length L))) /\
    (forall idx, 0 <= idx -> tl_nth (S (size (threads s))) s (g_tlist s) idx = Some (nth (Z.to_nat idx) L 0)) /\
    (forall id, tl_by_tid (S (size (threads s))) s (g_tlist s) id = Some (first_tid s id L)).
Proof.
  intros Hr. destruct (spin_lock_held _ (r_tlock _ _ _ _ Hr)) as (l & Hl & _). exists l. split; [done|].
  pose proof (list_length _ _ _ _ Hr) as Hlen. pose proof (r_list _ _ _ _ Hr) as Hc.
  assert (Hnz : forall x, x ∈ L -> x <> 0).
  { intros x Hx. destruct (tchain_dom _ _ _ _ Hc Hx) as [i Hi]. by apply (r_thr _ _ _ _ Hr x i). }
  split; [|split].
  - rewrite (tl_count_spec s L) by (done || lia). done.
  - intros idx Hi. by apply tl_nth_spec; [| |lia|].
  - intros id. apply tl_by_tid_spec; [done|done|lia].
Qed.
End state.

(** * Well-formed scheduler states

    [wf] joins [placed], [rest] and [listed] for a state in which no handler is
    running; this file proves what switching threads does to it. *)

Section wf.
Context {H A : Type} `{OrdTreeLaws H} `{AllocatorLaws A}.
Context (boot_thread : Z) (idle_threads : nat -> Z) {Hlay : Layout boot_thread idle_threads}.

Abbreviation sched := (@sched H A).
Abbreviation queues := (queues idle_threads).
Abbreviation placed := (placed idle_threads).
Abbreviation is_idle := (is_idle idle_threads).
Abbreviation rest := (rest boot_thread idle_threads).

Lemma rest_ext (s : sched) L live held held' :
  rest s L live held -> (forall c, held c = held' c) -> rest s L live held'.
Proof. intros Hr He. split; try apply Hr. intros c Hc. rewrite <- He. by apply Hr. Qed.

Lemma placed_ext (s : sched) Q R R' e :
  placed s Q R e -> (forall c, R c = R' c) -> placed s Q R' e.
Proof.
  intros [Hq Ht Hrun Hi He] HR. split; try done.
  - intros t th Hth. destruct (Ht t th Hth) as (Hpl & ?). split; [|done].
    unfold place in *. by rewrite <- HR.
  - intros c t. rewrite <- HR. apply Hrun.
Qed.

Lemma rest_set_current (s : sched) L live held c n :
  rest s L live held -> (c < 16)%nat -> online s c -> rest (rq_upd s c (rq_set_current n)) L live held.
Proof.
  intros Hr Hc Hon. split; try apply Hr; simpl.
  - intros c' Hc'. unfold online in *. simpl. unfold nupd.
    destruct (Nat.eqb_spec c' c) as [->|]; [simpl; tauto|by apply Hr].
  - intros c' Hc'. unfold nupd. destruct (Nat.eqb_spec c' c) as [->|]; by apply (r_lock _ _ _ _ _ _ Hr).
  - intros c' Hc'. unfold nupd. destruct (Nat.eqb_spec c' c) as [->|]; by apply (r_corpse _ _ _ _ _ _ Hr).
  - intros c1 c2 Hc1 Hc2. unfold nupd.
    destruct (Nat.eqb_spec c1 c) as [->|], (Nat.eqb_spec c2 c) as [->|]; by apply (r_corpse_inj _ _ _ _ _ _ Hr).
Qed.

Lemma rest_resume (s : sched) L live held m :
  rest s L live held -> (forall t c, m !! t = Some c -> (c < 16)%nat) -> rest (with_resume s m) L live held.
Proof. intros Hr Hm. split; try apply Hr. apply Hm. Qed.

Lemma resume_switch (m : gmap Z nat) prev next c :
  (c < 16)%nat -> (forall t c, m !! t = Some c -> (c < 16)%nat) ->
  forall t c', <[prev := c]> (delete next m) !! t = Some c' -> (c' < 16)%nat.
Proof.
  intros Hc Hm t c'. destruct (decide (t = prev)) as [->|Hne]; [rewrite lookup_insert_eq; congruence|].
  rewrite lookup_insert_ne by done. intros [_ Ht]%lookup_delete_Some. by eapply Hm.
Qed.

(** ** Switching threads *)

Definition to_cpu (c : nat) (th : thread) : thread := set_cpu (Z.of_nat c) (set_state THREAD_RUNNING th).

(** From [s] to [s'] the CPU [c] was given to [next]. *)
Record switched (s s' : sched) (c : nat) (next : Z) : Prop := {
  sw_cur c' : current (rqs s' c') = nupd (fun c' => current (rqs s c')) c next c';
  sw_idle c' : idle (rqs s' c') = idle (rqs s c');
  sw_min c' : min_vruntime (rqs s c') <= min_vruntime (rqs s' c');
  sw_up : sched_up s' = sched_up s;
  sw_thr : exists th, threads s !! next = Some th /\ state th = THREAD_READY /\
             reaped (<[next := to_cpu c th]> (threads s)) (threads s');
}.

Lemma do_switch_spec (s : sched) Q R e L live held c prev next th :
  placed s Q R e -> rest s L live held -> listed s L -> (c < 16)%nat -> online s c ->
  R c = None -> held c = true -> threads s !! next = Some th ->
  e = Some next \/ (e = None /\ next = idle_threads c /\ state th = THREAD_READY) ->
  exists s' live', do_switch s c prev next = Some s' /\
    placed s' Q (nupd R c (Some next)) None /\ rest s' L live' (nupd held c false) /\ listed s' L /\
    switched s s' c next.
Proof.
  intros Hp Hr Hl Hc Hon HR Hh Hth He.
  assert (Hs : state th = THREAD_READY).
  { destruct He as [->|(_ & _ & ?)]; [|done].
    destruct (p_extra _ _ _ _ _ Hp next eq_refl) as (th0 & Hth0 & ? & _). congruence. }
  unfold do_switch, do_switch_commit, th_upd. rewrite Hth. cbn [mbind option_bind].
  set (th' := set_cpu _ _). set (s1 := with_threads s _).
  assert (Hp1 : placed s1 Q (nupd R c (Some next)) None) by by eapply placed_run.
  assert (Hi1 : infos s1 = infos s).
  { eapply infos_upd; [done|]. unfold info_of. simpl. by rewrite Hs. }
  assert (Hr1 : rest s1 L live held) by (eapply rest_same; [done|apply env_threads|done]).
  set (s2 := rq_upd s1 c (rq_set_current next)).
  assert (Hr2 : rest s2 L live held) by by apply rest_set_current.
  destruct (rq_unlock_spec _ _ s2 L live held c Hr2 Hc Hh) as (Hr3 & Hu3 & Hi3).
  set (s3 := rq_spin_unlock s2 c) in *.
  assert (Ht3 : threads s3 !! next = Some th') by apply lookup_insert_eq.
  cbn [threads emit]. rewrite Ht3. cbn [mbind option_bind]. unfold context_switch.
  cbn [threads emit]. rewrite Ht3. cbn [mbind option_bind].
  set (s4 := emit (emit _ (EvSwitch _ _)) _). set (s5 := with_resume s4 _).
  assert (Hp5 : placed s5 Q (nupd R c (Some next)) None).
  { eapply placed_same; [|exact Hp1]. split; [done|]. split; [done|]. intros c'.
    destruct (u_place _ _ Hu3) as (_ & _ & Hu). destruct (Hu c') as (Hu1 & Hu2 & Hu4).
    simpl in *. rewrite Hu1, Hu2, Hu4. unfold nupd. by destruct (Nat.eqb_spec c' c) as [->|]. }
  assert (Hr5 : rest s5 L live (nupd held c false)).
  { apply rest_resume; [|apply resume_switch; [done|apply (r_resume _ _ _ _ _ _ Hr)]].
    eapply rest_same; [exact Hr3| |done]. by split. }
  assert (Hl5 : listed s5 L) by (eapply listed_same; [exact Hl|exact Hi1]).
  assert (Hsw : forall s', running_same s5 s' -> reaped (threads s5) (threads s') -> switched s s' c next).
  { intros s' [Hn1 Hn2 Hn3 Hn4] Hre. split.
    - intros c'. rewrite Hn1. simpl. rewrite nupd_eq. unfold nupd. simpl.
      destruct (Nat.eqb_spec c' c) as [->|]; done.
    - intros c'. rewrite Hn2. simpl. rewrite nupd_eq. unfold nupd. by destruct (Nat.eqb_spec c' c) as [->|].
    - intros c'. rewrite Hn3. simpl. rewrite nupd_eq. unfold nupd. by destruct (Nat.eqb_spec c' c) as [->|].
    - by rewrite Hn4.
    - exists th. done. }
  cbn [resume emit s4]. change (resume s3) with (resume s).
  destruct (resume s !! next) as [c'|] eqn:Hres.
  - pose proof (r_resume _ _ _ _ _ _ Hr _ _ Hres) as Hc'.
    destruct (reap_spec _ _ s5 Q _ L live _ c' Hp5 Hr5 Hl5 Hc') as (s' & live' & Hre & Hp' & Hr' & Hl' & Hn & Hd).
    exists s', live'. eauto 10.
  - exists s5, live. split; [done|]. split_and!; try done. apply Hsw; [by split|by left].
Qed.

(** The idle thread of a CPU that runs nothing is ready. *)
Lemma idle_ready (s : sched) Q R e c :
  placed s Q R e -> (c < 16)%nat -> online s c -> R c = None ->
  exists th, threads s !! idle_threads c = Some th /\ state th = THREAD_READY /\ th_cpu th = Z.of_nat c.
Proof.
  intros Hp Hc Hon HR. destruct (p_idle _ _ _ _ _ Hp c Hc Hon) as [_ [th Hth]].
  destruct (p_thr _ _ _ _ _ Hp _ _ Hth) as (Hpl & Hcpu & _ & Hi).
  assert (Hid : is_idle (idle_threads c)) by by exists c.
  specialize (Hi Hid). apply (lay_inj (idle_threads := idle_threads)) in Hi; [|done|lia].
  exists th. split; [done|]. split; [|lia]. unfold place in Hpl.
  destruct (state th); try done. rewrite <- Hi in Hpl. congruence.
Qed.

Lemma queued_not_idle (s : sched) Q R e c t :
  placed s Q R e -> (c < 16)%nat -> online s c -> t ∈ Q c -> t <> idle (rqs s c).
Proof.
  intros Hp Hc Hon Ht. destruct (q_thr _ _ _ (p_q _ _ _ _ _ Hp) c t Hc Ht) as (_ & _ & _ & _ & Hi).
  destruct (p_idle _ _ _ _ _ Hp c Hc Hon) as [-> _]. intros ->. apply Hi. by exists c.
Qed.

(** CPU [c], which runs nothing, is given to the thread pick_next chose. *)
Definition take_next (s : sched) (c : nat) (prev next : Z) : option sched :=
  s ← (if next =? idle (rqs s c) then Some s else rq_remove s c next);
  do_switch s c prev next.

Lemma switch_spec (s : sched) Q R L live held c prev next :
  placed s Q R None -> rest s L live held -> listed s L -> (c < 16)%nat -> online s c ->
  R c = None -> held c = true ->
  (Q c = [] /\ next = idle_threads c) \/ next ∈ Q c ->
  exists s' Q' live', take_next s c prev next = Some s' /\
    placed s' Q' (nupd R c (Some next)) None /\ rest s' L live' (nupd held c false) /\ listed s' L /\
    switched s s' c next.
Proof.
  intros Hp Hr Hl Hc Hon HR Hh Hn. unfold take_next. destruct Hn as [[HQ ->]|Hin].
  - destruct (idle_ready _ _ _ _ _ Hp Hc Hon HR) as (th & Hth & Hs & _).
    destruct (p_idle _ _ _ _ _ Hp c Hc Hon) as [-> _]. rewrite Z.eqb_refl. cbn [mbind option_bind].
    destruct (do_switch_spec s Q R None L live held c prev _ th Hp Hr Hl Hc Hon HR Hh Hth) as (s' & live' & ?);
      [by right|]. by exists s', Q, live'.
  - rewrite (proj2 (Z.eqb_neq _ _) (queued_not_idle _ _ _ _ _ _ Hp Hc Hon Hin)).
    destruct (placed_remove _ s Q R c next Hp Hc Hin) as (s1 & l1 & l2 & -> & HQ & Ht1 & He1 & Hp1).
    cbn [mbind option_bind]. destruct (q_thr _ _ _ (p_q _ _ _ _ _ Hp) c next Hc Hin) as (th & Hth & Hs & _).
    destruct (do_switch_spec s1 _ R (Some next) L live held c prev next th Hp1) as
      (s' & live' & Hsw & Hp' & Hr' & Hl' & [Hs1 Hs2 Hs3 Hs4 Hs5]); try done.
    + eapply rest_same; [done|done|]. unfold infos. by rewrite Ht1.
    + eapply listed_same; [done|]. unfold infos. by rewrite Ht1.
    + by apply (env_online _ _ _ He1).
    + by rewrite Ht1.
    + by left.
    + eexists s', _, live'. split; [done|]. split; [exact Hp'|]. split_and!; try done.
      destruct He1 as [_ _ _ _ Hup Hrq Hmin]. split.
      * intros c'. rewrite Hs1. unfold nupd. destruct (Nat.eqb_spec c' c) as [->|]; [done|]. by apply Hrq.
      * intros c'. rewrite Hs2. by apply Hrq.
      * intros c'. specialize (Hs3 c'). specialize (Hmin c'). lia.
      * congruence.
      * by rewrite Ht1 in Hs5.
Qed.

(** ** Well-formed states *)

Definition running (s : sched) (c : nat) : option Z :=
  if (c <? 16)%nat && negb (idle (rqs s c) =? 0) then Some (current (rqs s c)) else None.

Definition wf (s : sched) : Prop :=
  exists Q R L live, placed s Q R None /\ rest s L live (fun _ => false) /\ listed s L /\
    forall c, R c = running s c.

Lemma running_online s c : (c < 16)%nat -> online s c -> running s c = Some (current (rqs s c)).
Proof.
  intros Hc Hon. unfold running, online in *. rewrite (proj2 (Nat.ltb_lt _ _) Hc).
  by rewrite (proj2 (Z.eqb_neq _ _) Hon).
Qed.

Lemma wf_switched (s s' : sched) Q R L live held c next :
  placed s' Q (nupd R c (Some next)) None -> rest s' L live (nupd held c false) -> listed s' L ->
  switched s s' c next -> (c < 16)%nat -> online s c ->
  (forall c', c' <> c -> R c' = running s c') -> (forall c', c' <> c -> held c' = false) -> wf s'.
Proof.
  intros Hp Hr Hl [Hs1 Hs2 _ _ _] Hc Hon HR Hh. exists Q, (nupd R c (Some next)), L, live.
  split; [done|]. split.
  { eapply rest_ext; [done|]. intros c'. unfold nupd. destruct (Nat.eqb_spec c' c); auto. }
  split; [done|]. intros c'. unfold running. rewrite Hs1, Hs2. unfold nupd.
  destruct (Nat.eqb_spec c' c) as [->|Hne]; [|by rewrite HR].
  rewrite (proj2 (Nat.ltb_lt _ _) Hc). unfold online in Hon. by rewrite (proj2 (Z.eqb_neq _ _) Hon).
Qed.

(** ** The abstract scheduler: a pool of threads on CPUs *)

Definition pool (s : sched) : gmap Z (thread_state * Z) :=
  (fun th => (state th, th_cpu th)) <$> threads s.

(** What the calls of the scheduler may do to a pool.  No thread is READY on
    [c] but its idle thread: *)
Definition nothing_ready (c : nat) (p : gmap Z (thread_state * Z)) : Prop :=
  forall t, p !! t = Some (THREAD_READY, Z.of_nat c) -> t = idle_threads c.

(** CPU [c] passes from the thread that runs there, which is left in state
    [st], to a READY thread of [c]; to the idle thread only if no other is
    READY there. *)
Inductive a_switch (c : nat) (st : thread_state) (p : gmap Z (thread_state * Z)) :
    gmap Z (thread_state * Z) -> Prop :=
| ASwitch prev next :
    p !! prev = Some (THREAD_RUNNING, Z.of_nat c) ->
    p !! next = Some (THREAD_READY, Z.of_nat c) ->
    (next = idle_threads c -> nothing_ready c p) ->
    a_switch c st p (<[next := (THREAD_RUNNING, Z.of_nat c)]> (<[prev := (st, Z.of_nat c)]> p)).

(** The memory of at most one thread that has exited is freed. *)
Inductive a_reap (p : gmap Z (thread_state * Z)) : gmap Z (thread_state * Z) -> Prop :=
| AKeep : a_reap p p
| AFree t c : p !! t = Some (THREAD_ZOMBIE, c) -> a_reap p (delete t p).

Definition a_give_up (c : nat) (st : thread_state) (p p' : gmap Z (thread_state * Z)) : Prop :=
  exists p1, a_switch c st p p1 /\ a_reap p1 p'.

(** The running thread keeps [c] only if nothing else is READY there. *)
Definition a_resched (c : nat) (p p' : gmap Z (thread_state * Z)) : Prop :=
  (p' = p /\ nothing_ready c p) \/ a_give_up c THREAD_READY p p'.

Definition a_wake (t : Z) (p p' : gmap Z (thread_state * Z)) : Prop :=
  p' = match p !! t with
       | Some (THREAD_BLOCKED, c) => <[t := (THREAD_READY, c)]> p
       | _ => p
       end.

(** A thread is moved to [cpu] if that CPU is online. *)
Definition a_move (t cpu : Z) (p p' : gmap Z (thread_state * Z)) : Prop :=
  p' = match p !! t with
       | Some (st, _) =>
           if decide (cpu < 16 /\ is_Some (p !! idle_threads (Z.to_nat cpu)))
           then <[t := (st, cpu)]> p else p
       | None => p
       end.

(** CPU [c] takes a READY thread from a CPU that has another one. *)
Definition a_pull (c : nat) (p p' : gmap Z (thread_state * Z)) : Prop :=
  p' = p \/
  exists t t' src, t <> t' /\ src <> Z.of_nat c /\ ~ is_idle t /\ ~ is_idle t' /\
    p !! t = Some (THREAD_READY, src) /\ p !! t' = Some (THREAD_READY, src) /\
    p' = <[t := (THREAD_READY, Z.of_nat c)]> p.

(** A thread that was not there is READY on an online CPU. *)
Definition a_new (p p' : gmap Z (thread_state * Z)) : Prop :=
  p' = p \/
  exists t c, p !! t = None /\ (c < 16)%nat /\ is_Some (p !! idle_threads c) /\
    p' = <[t := (THREAD_READY, Z.of_nat c)]> p.

Definition a_online (c : nat) (p p' : gmap Z (thread_state * Z)) : Prop :=
  p !! idle_threads c = None /\ p' = <[idle_threads c := (THREAD_RUNNING, Z.of_nat c)]> p.

Definition a_none (p p' : gmap Z (thread_state * Z)) : Prop := p' = p.

Lemma pool_lookup s t th : threads s !! t = Some th -> pool s !! t = Some (state th, th_cpu th).
Proof. intros Hth. unfold pool. by rewrite lookup_fmap, Hth. Qed.

Lemma pool_same s s' : threads s' = threads s -> pool s' = pool s.
Proof. unfold pool. by intros ->. Qed.

Lemma pool_reaped m s' : reaped m (threads s') ->
  a_reap ((fun th => (state th, th_cpu th)) <$> m) (pool s').
Proof.
  unfold pool. intros [->|(d & th & Hth & Hz & ->)]; [apply AKeep|].
  rewrite fmap_delete. apply (AFree _ _ (th_cpu th)).
  by rewrite lookup_fmap, Hth, <- Hz.
Qed.

(** Stopping [prev] and then switching is one abstract switch. *)
Lemma pool_switch p (s s' : sched) c prev st next :
  p !! prev = Some (THREAD_RUNNING, Z.of_nat c) ->
  pool s = <[prev := (st, Z.of_nat c)]> p -> prev <> next ->
  pool s !! next = Some (THREAD_READY, Z.of_nat c) ->
  (next = idle_threads c -> nothing_ready c p) ->
  switched s s' c next -> a_give_up c st p (pool s').
Proof.
  intros Hprev Hpool Hne Hnext Hidle [_ _ _ _ (th & Hth & _ & Hre)].
  eexists. split; [|by apply pool_reaped]. rewrite fmap_insert. change (_ <$> threads s) with (pool s).
  rewrite Hpool in Hnext |- *. rewrite lookup_insert_ne in Hnext by done. by apply ASwitch.
Qed.

(** With an empty queue nothing is READY on [c] but the idle thread. *)
Lemma queue_nothing_ready (s : sched) Q R c :
  placed s Q R None -> Q c = [] -> nothing_ready c (pool s).
Proof.
  intros Hp HQ t Ht. unfold pool in Ht. rewrite lookup_fmap in Ht.
  destruct (threads s !! t) as [th|] eqn:Hth; [|done]. injection Ht as Hs1 Hs2.
  destruct (p_thr _ _ _ _ _ Hp t th Hth) as (Hpl & _ & _ & Hti).
  unfold place in Hpl. rewrite Hs1, Hs2, Nat2Z.id, HQ in Hpl. rewrite Hs2, Nat2Z.id in Hti.
  destruct Hpl as [?|[Hin|?]]; [by apply Hti|set_solver|done].
Qed.

(** A CPU is online if its idle thread exists. *)
Lemma online_pool (s : sched) Q R e c :
  placed s Q R e -> (c < 16)%nat -> online s c <-> is_Some (pool s !! idle_threads c).
Proof.
  intros Hp Hc. unfold pool. rewrite lookup_fmap, fmap_is_Some. split.
  - intros Hon. by apply (p_idle _ _ _ _ _ Hp c Hc Hon).
  - intros [th Hth]. destruct (p_thr _ _ _ _ _ Hp _ _ Hth) as (_ & Hr & Hon & Hi).
    assert (Hid : is_idle (idle_threads c)) by by exists c.
    specialize (Hi Hid). apply (lay_inj (idle_threads := idle_threads)) in Hi; [by subst c|done|lia].
Qed.
End wf.
