(* ===== verification/SchedHandlers.v ===== *)
(** * The scheduler's handlers

    Each entry point of kern/sched.c, run in a well-formed state under the
    conditions its callers meet, returns, leaves a well-formed state and does
    to the pool of threads what the abstract scheduler says of that call. *)

From stdpp Require Import base gmap list relations.
From Stdlib Require Import ZArith Lia Sorted.
From S2P Require Import Prelude RbRep RbTreeProof OrdTree Spinlock Allocator Sched SchedProof SchedInv SchedState.

Section handlers.
Context {H A : Type} `{OrdTreeLaws H} `{AllocatorLaws A}.
Context (boot_thread : Z) (idle_threads : nat -> Z) {Hlay : Layout boot_thread idle_threads}.

Abbreviation sched := (@sched H A).
Abbreviation queues := (queues idle_threads).
Abbreviation placed := (placed idle_threads).
Abbreviation is_idle := (is_idle idle_threads).
Abbreviation rest := (rest boot_thread idle_threads).
Abbreviation wf := (wf boot_thread idle_threads).
Abbreviation a_give_up := (a_give_up idle_threads).
Abbreviation a_resched := (a_resched idle_threads).

(** A handler that does [op] to the pool. *)
Record handled (op : gmap Z (thread_state * Z) -> gmap Z (thread_state * Z) -> Prop) (s s' : sched) : Prop := {
  h_wf : wf s';
  h_pool : op (pool s) (pool s');
  h_min c : min_vruntime (rqs s c) <= min_vruntime (rqs s' c);
  h_idle c : idle (rqs s' c) = idle (rqs s c);
  h_up : sched_up s' = sched_up s;
}.

Lemma handled_mono (op op' : _ -> _ -> Prop) s s' :
  handled op s s' -> (op (pool s) (pool s') -> op' (pool s) (pool s')) -> handled op' s s'.
Proof. intros [?????] Hop. split; auto. Qed.

Definition one (c : nat) : nat -> bool := nupd (fun _ => false) c true.

(** The state a handler works on: the lock of [c] is taken. *)
Record entered (s : sched) (c : nat) (Q : nat -> list Z) (R : nat -> option Z) (L : list Z) (live : gset Z) : Prop := {
  en_placed : placed s Q R None;
  en_rest : rest s L live (one c);
  en_listed : listed s L;
  en_run c' : R c' = running s c';
}.

Lemma running_place (s s' : sched) c : same_place s s' -> current (rqs s' c) = current (rqs s c) -> running s' c = running s c.
Proof. intros (_ & _ & Hi) Hc. unfold running. destruct (Hi c) as (_ & _ & ->). by rewrite Hc. Qed.

Lemma enter (s : sched) c :
  wf s -> (c < 16)%nat ->
  exists s1 Q R L live, rq_spin_lock s c = Some s1 /\ entered s1 c Q R L live /\ unlocked_same s s1 /\
    queues s Q.
Proof.
  intros (Q & R & L & live & Hp & Hr & Hl & HR) Hc.
  destruct (rq_lock_spec _ _ s L live _ c Hr Hc eq_refl) as (s1 & Hlk & Hr1 & Hu & Hi).
  exists s1, Q, R, L, live. split; [done|]. split; [|split; [done|apply Hp]]. split.
  - eapply placed_same; [apply Hu|done].
  - done.
  - by eapply listed_same.
  - intros c'. rewrite HR. symmetry. apply running_place; [apply Hu|by rewrite (u_cur _ _ Hu)].
Qed.

Lemma unlocked_idle (s s1 : sched) c : unlocked_same s s1 -> idle (rqs s1 c) = idle (rqs s c).
Proof. intros Hu. destruct (u_place _ _ Hu) as (_ & _ & Hx). apply Hx. Qed.

Lemma unlocked_online (s s1 : sched) c : unlocked_same s s1 -> online s1 c <-> online s c.
Proof. intros Hu. unfold online. destruct (u_place _ _ Hu) as (_ & _ & Hi). by destruct (Hi c) as (_ & _ & ->). Qed.

(** Leaving without a switch. *)
Lemma leave (op : _ -> _ -> Prop) (s s1 : sched) c Q R L live :
  entered s1 c Q R L live -> (c < 16)%nat -> op (pool s) (pool s1) ->
  (forall c, min_vruntime (rqs s c) <= min_vruntime (rqs s1 c)) ->
  (forall c, idle (rqs s1 c) = idle (rqs s c)) -> sched_up s1 = sched_up s ->
  handled op s (rq_spin_unlock s1 c).
Proof.
  intros [Hp Hr Hl HR] Hc Hpool Hmin Hid Hup.
  destruct (rq_unlock_spec _ _ s1 L live (one c) c Hr Hc) as (Hr' & Hu & Hi); [by unfold one; rewrite nupd_eq|].
  split.
  - exists Q, R, L, live. split; [eapply placed_same; [apply Hu|done]|]. split.
    { eapply rest_ext; [done|]. intros c'. unfold one, nupd. by destruct (Nat.eqb_spec c' c). }
    split; [by eapply listed_same|]. intros c'. rewrite HR. symmetry.
    apply running_place; [apply Hu|by rewrite (u_cur _ _ Hu)].
  - by rewrite (pool_same _ _ (u_threads _ _ Hu)).
  - intros c'. by rewrite (u_min _ _ Hu).
  - intros c'. destruct (u_place _ _ Hu) as (_ & _ & Hx). destruct (Hx c') as (_ & _ & ->). by rewrite Hid.
  - by rewrite (u_up _ _ Hu).
Qed.

(** The running thread of an online CPU. *)
Lemma current_thread (s : sched) Q R e c :
  placed s Q R e -> R c = running s c -> (c < 16)%nat -> online s c ->
  R c = Some (current (rqs s c)) /\
  exists th, threads s !! current (rqs s c) = Some th /\ state th = THREAD_RUNNING /\ th_cpu th = Z.of_nat c.
Proof.
  intros Hp HR Hc Hon. rewrite running_online in HR by done. split; [done|].
  by apply (p_run _ _ _ _ _ Hp).
Qed.

(** [prev] was stopped; [next] takes its CPU. *)
Lemma finish_switch (s0 s : sched) Q R L live c prev st next :
  placed s Q R None -> rest s L live (one c) -> listed s L -> (c < 16)%nat -> online s c ->
  R c = None -> (forall c', c' <> c -> R c' = running s c') ->
  (Q c = [] /\ next = idle_threads c) \/ next ∈ Q c ->
  pool s0 !! prev = Some (THREAD_RUNNING, Z.of_nat c) ->
  pool s = <[prev := (st, Z.of_nat c)]> (pool s0) -> prev <> next ->
  (forall c, min_vruntime (rqs s0 c) <= min_vruntime (rqs s c)) ->
  (forall c, idle (rqs s c) = idle (rqs s0 c)) -> sched_up s = sched_up s0 ->
  exists s', take_next s c prev next = Some s' /\ handled (a_give_up c st) s0 s' /\ switched s s' c next.
Proof.
  intros Hp Hr Hl Hc Hon HR HR' Hn Hprev Hpool Hne Hmin Hid Hup.
  destruct (switch_spec boot_thread idle_threads s Q R L live (one c) c prev next Hp Hr Hl Hc Hon HR)
    as (s' & Q' & live' & Hsw & Hp' & Hr' & Hl' & Hs); [by unfold one; rewrite nupd_eq|done|].
  exists s'. split; [done|]. split; [|done].
  assert (Hnext : pool s !! next = Some (THREAD_READY, Z.of_nat c)).
  { destruct Hn as [[_ ->]|Hin].
    - destruct (idle_ready boot_thread _ _ _ _ _ _ Hp Hc Hon HR) as (th & Hth & <- & <-). by apply pool_lookup.
    - destruct (q_thr _ _ _ (p_q _ _ _ _ _ Hp) c next Hc Hin) as (th & Hth & <- & <- & _). by apply pool_lookup. }
  split.
  - eapply wf_switched; try done. intros c' Hcc. unfold one; by rewrite nupd_ne.
  - eapply (pool_switch idle_threads (pool s0) s s' c prev st next); try done.
    intros -> t Ht. assert (t <> prev) by congruence. destruct Hn as [[HQ _]|Hin].
    + apply (queue_nothing_ready _ _ s Q _ c Hp HQ). by rewrite Hpool, lookup_insert_ne.
    + destruct (q_thr _ _ _ (p_q _ _ _ _ _ Hp) c _ Hc Hin) as (_ & _ & _ & _ & Hi). destruct Hi. by exists c.
  - intros c'. pose proof (sw_min _ _ _ _ Hs c'). specialize (Hmin c'). lia.
  - intros c'. by rewrite (sw_idle _ _ _ _ Hs), Hid.
  - by rewrite (sw_up _ _ _ _ Hs).
Qed.

(** ** Giving up the CPU *)

Lemma pick_same (s s' : sched) Q c :
  queues s Q -> queues s' Q -> (c < 16)%nat -> min_vruntime (rqs s' c) = min_vruntime (rqs s c) ->
  idle (rqs s' c) = idle (rqs s c) ->
  (forall t, t ∈ Q c -> threads s' !! t = threads s !! t) -> pick_next s' c = pick_next s c.
Proof.
  intros Hq Hq' Hc Hm Hi Ht. rewrite (pick_next_list _ s Q c), (pick_next_list _ s' Q c) by done.
  rewrite Hm, Hi. f_equal. apply pick_list_ext. intros t Hin. unfold thread_at. by rewrite Ht.
Qed.

(** What pick_next finds for CPU [c]: the idle thread, or a queued one. *)
Lemma pick_cases (s : sched) Q R e c :
  placed s Q R e -> (c < 16)%nat -> online s c ->
  exists next, pick_next s c = Some next /\
    next = pick_list (threads s) (min_vruntime (rqs s c)) (Q c) (idle (rqs s c)) /\
    ((Q c = [] /\ next = idle_threads c /\ next = idle (rqs s c)) \/ (next ∈ Q c /\ next <> idle (rqs s c))).
Proof.
  intros Hp Hc Hon. eexists. split; [apply (pick_next_list _ s Q c (p_q _ _ _ _ _ Hp) Hc)|].
  split; [done|]. set (next := pick_list _ _ _ _).
  destruct (pick_ok_in _ _ _ _ _ (pick_list_ok (threads s) (min_vruntime (rqs s c)) (Q c) (idle (rqs s c))))
    as [[HQ Heq]|Hin].
  - left. destruct (p_idle _ _ _ _ _ Hp c Hc Hon) as [<- _]. done.
  - right. split; [done|]. by eapply queued_not_idle.
Qed.

Lemma cur_not_idle (s : sched) Q R e c :
  placed s Q R e -> R c = running s c -> (c < 16)%nat -> online s c ->
  current (rqs s c) <> idle (rqs s c) -> ~ is_idle (current (rqs s c)).
Proof.
  intros Hp HR Hc Hon Hne Hid.
  destruct (current_thread _ _ _ _ _ Hp HR Hc Hon) as (_ & th & Hth & _ & Hcpu).
  destruct (p_thr _ _ _ _ _ Hp _ _ Hth) as (_ & _ & _ & Hi). specialize (Hi Hid).
  rewrite Hcpu, Nat2Z.id in Hi. destruct (p_idle _ _ _ _ _ Hp c Hc Hon) as [Hx _]. congruence.
Qed.

Lemma sched_block_spec (s : sched) c :
  wf s -> (c < 16)%nat -> online s c -> current (rqs s c) <> idle (rqs s c) ->
  exists s' next th thn, sched_block s c = Some s' /\ handled (a_give_up c THREAD_BLOCKED) s s' /\
    pick_next s c = Some next /\ current (rqs s' c) = next /\
    threads s !! current (rqs s c) = Some th /\ threads s !! next = Some thn /\ state thn = THREAD_READY /\
    reaped (<[next := to_cpu c thn]> (<[current (rqs s c) := set_state THREAD_BLOCKED th]> (threads s))) (threads s').
Proof.
  intros Hwf Hc Hon Hni. destruct (enter s c Hwf Hc) as (s1 & Q & R & L & live & Hlk & [Hp Hr Hl HR] & Hu & Hq0).
  unfold sched_block. rewrite Hlk. cbn [mbind option_bind].
  assert (Hon1 : online s1 c) by by apply (unlocked_online _ _ _ Hu).
  destruct (pick_cases s1 Q R None c Hp Hc Hon1) as (next & Hn & _ & Hcase). rewrite Hn. cbn [mbind option_bind].
  destruct (current_thread s1 Q R None c Hp (HR c) Hc Hon1) as (HRc & th & Hth & Hs & Hcpu).
  assert (Hni1 : ~ is_idle (current (rqs s1 c))).
  { eapply cur_not_idle; try done. by rewrite (u_cur _ _ Hu), (unlocked_idle _ _ _ Hu). }
  unfold th_upd. rewrite Hth. cbn [mbind option_bind].
  set (th' := set_state THREAD_BLOCKED th). set (s2 := with_threads s1 _).
  assert (Hp2 : placed s2 Q (nupd R c None) None).
  { eapply (placed_stop _ s1 Q R c _ th th' None); try done. }
  assert (Hi2 : infos s2 = infos s1).
  { eapply infos_upd; [done|]. unfold info_of. simpl. by rewrite Hs. }
  destruct (finish_switch s s2 Q (nupd R c None) L live c (current (rqs s1 c)) THREAD_BLOCKED next)
    as (s' & Ht & Hh & Hsw); try done.
  - eapply rest_same; [done|apply env_threads|done].
  - by eapply listed_same.
  - by rewrite nupd_eq.
  - intros c' Hcc. rewrite nupd_ne by done. apply HR.
  - naive_solver.
  - rewrite <- (pool_same s s1 (u_threads _ _ Hu)). rewrite <- Hs, <- Hcpu. by apply pool_lookup.
  - rewrite <- (pool_same s s1 (u_threads _ _ Hu)). unfold pool. simpl. by rewrite fmap_insert, <- Hcpu.
  - intros Heq. destruct Hcase as [(_ & Hx & _)|[Hin _]].
    + apply Hni1. rewrite Heq, Hx. by exists c.
    + eapply (not_queued _ s1 Q R None _ th Hp Hth); [left; by rewrite Hs|exact Hc|by rewrite Heq].
  - intros c'. simpl. by rewrite (u_min _ _ Hu).
  - intros c'. exact (unlocked_idle s s1 c' Hu).
  - apply Hu.
  - assert (Hne : next <> current (rqs s1 c)).
    { destruct Hcase as [(_ & -> & _)|[Hin _]]; [intros Heq; apply Hni1; rewrite <- Heq; by exists c|].
      intros Heq. eapply (not_queued _ s1 Q R None _ th Hp Hth); [left; by rewrite Hs|exact Hc|by rewrite <- Heq]. }
    destruct (sw_thr _ _ _ _ Hsw) as (thn & Hthn & Hsn & Hre). simpl in Hthn.
    rewrite lookup_insert_ne in Hthn by done. rewrite (u_cur _ _ Hu), (u_threads _ _ Hu) in *.
    exists s', next, th, thn. split; [exact Ht|]. split; [done|]. split.
    { rewrite <- Hn. symmetry. apply (pick_same s s1 Q); try done; try apply Hu; [apply Hp|].
      intros t _. by rewrite (u_threads _ _ Hu). }
    split; [by rewrite (sw_cur _ _ _ _ Hsw), nupd_eq|]. split; [done|]. split; [done|]. split; [done|].
    unfold s2 in Hre. simpl in Hre. rewrite (u_threads _ _ Hu), (u_cur _ _ Hu) in Hre. exact Hre.
Qed.

(** The list after the death of [t]. *)
Lemma listed_death (s1 s : sched) L t th :
  listed s1 L -> threads s1 !! t = Some th -> state th <> THREAD_ZOMBIE ->
  (forall x, unlink <$> infos s !! x = unlink <$> <[t := info_of (set_state THREAD_ZOMBIE th)]> (infos s1) !! x) ->
  listed s (if kstack_base th =? 0 then L else filter (fun x => x <> t) L).
Proof.
  intros Hl Hth Hs Hu x. specialize (Hu x). destruct (decide (x = t)) as [->|Hne].
  - rewrite lookup_insert_eq in Hu. destruct (infos s !! t) as [i|] eqn:Hi; [|done].
    injection Hu as Hk Hz. destruct (Z.eqb_spec (kstack_base th) 0) as [Hk0|Hk0].
    + rewrite (Hl t). split; intros _.
      * exists i. split; [done|]. intros [_ Hk']. congruence.
      * exists (info_of th). split; [by apply infos_lookup|]. intros [Hz' _]. by apply bool_decide_eq_true in Hz'.
    + rewrite list_elem_of_filter. split; [by intros [? _]|]. intros (i' & [= <-] & Hnr). destruct Hnr.
      split; congruence.
  - rewrite lookup_insert_ne in Hu by done.
    assert (Heq : x ∈ (if kstack_base th =? 0 then L else filter (fun x => x <> t) L) <-> x ∈ L).
    { destruct (kstack_base th =? 0); [done|]. rewrite list_elem_of_filter. tauto. }
    rewrite Heq, (Hl x). destruct (infos s !! x) as [i|], (infos s1 !! x) as [i1|]; try done.
    injection Hu as Hk Hz. split; intros (i' & [= <-] & Hnr); eexists; (split; [done|]);
      intros [Hx Hy]; apply Hnr; split; congruence.
Qed.

Lemma pool_relink (s : sched) m : relinks (threads s) m -> pool (with_threads s m) = pool s.
Proof.
  intros [->|(q & thq & n & Hq & ->)]; [done|]. unfold pool. simpl. rewrite fmap_insert. simpl.
  apply insert_id. by rewrite lookup_fmap, Hq.
Qed.

(** The bookkeeping of sched_thread_exit between the death and the switch. *)
Definition bury (s : sched) (c : nat) (dying : Z) : option sched :=
  th ← threads s !! dying;
  if kstack_base th =? 0 then Some s else
  s ← tlist_remove s dying;
  Some (rq_upd (emit s (EvAmxFree dying)) c (rq_set_corpse dying)).

Lemma bury_spec (s1 : sched) Q R L live c dying th :
  let s2 := with_threads s1 (<[dying := set_state THREAD_ZOMBIE th]> (threads s1)) in
  placed s2 Q R None -> rest s1 L live (one c) -> listed s1 L -> (c < 16)%nat ->
  threads s1 !! dying = Some th -> state th = THREAD_RUNNING ->
  exists s3 L', bury s2 c dying = Some s3 /\ placed s3 Q R None /\ rest s3 L' live (one c) /\ listed s3 L' /\
    pool s3 = pool s2 /\
    (forall c', current (rqs s3 c') = current (rqs s1 c') /\ idle (rqs s3 c') = idle (rqs s1 c') /\
                min_vruntime (rqs s3 c') = min_vruntime (rqs s1 c')) /\ sched_up s3 = sched_up s1.
Proof.
  intros s2 Hp Hr Hl Hc Hth Hs. unfold bury. subst s2. cbn [threads with_threads].
  rewrite lookup_insert_eq. cbn [mbind option_bind kstack_base set_state].
  set (th' := set_state THREAD_ZOMBIE th). set (s2 := with_threads s1 _) in *.
  assert (Hr2 : rest s2 L live (one c)) by by apply rest_zombie.
  assert (Hd : listed s1 L -> forall s : sched, (forall x, unlink <$> infos s !! x =
      unlink <$> <[dying := info_of th']> (infos s1) !! x) ->
    listed s (if kstack_base th =? 0 then L else filter (fun x => x <> dying) L)).
  { intros Hl' s Hu. eapply listed_death; try done. by rewrite Hs. }
  assert (Hi2 : infos s2 = <[dying := info_of th']> (infos s1)) by apply fmap_insert.
  destruct (Z.eqb_spec (kstack_base th) 0) as [Hk|Hk].
  { exists s2, L. split; [done|]. split_and!; try done. apply Hd; [done|]. by rewrite Hi2. }
  assert (HdL : dying ∈ L).
  { apply Hl. exists (info_of th). split; [by apply infos_lookup|]. intros [Hz _].
    apply bool_decide_eq_true in Hz. congruence. }
  destruct (tlist_remove_spec _ _ s2 L live (one c) dying th' Hr2) as (s3 & p & l & m & Hrm & -> & Hm & Hr3 & Hu3);
    [apply lookup_insert_eq|done|].
  rewrite Hrm. cbn [mbind option_bind]. eexists _, _. split; [done|].
  assert (Hi3 : exists i, infos (with_tlist (with_threads s2 m) p l) !! dying = Some i /\ reapable i).
  { specialize (Hu3 dying). rewrite Hi2, lookup_insert_eq in Hu3.
    destruct (infos _ !! dying) as [i|]; [|done]. injection Hu3 as Hk' Hz'. exists i. split; [done|].
    split; [done|]. congruence. }
  destruct Hi3 as (i & Hi & Hreap). split; [|split; [|split; [|split; [|split]]]].
  - eapply placed_same; [|exact (placed_relink _ s2 Q R None m p l Hp Hm)].
    eapply same_place_trans; [|apply rq_upd_same; done]. done.
  - eapply rest_set_corpse; [eapply rest_same; [exact Hr3| |done]; done|exact Hi|done|].
    intros c' Hc' Heq. simpl in Heq. assert (Hd0 : dying <> 0) by by apply (r_thr _ _ _ _ _ _ Hr dying _ (infos_lookup _ _ _ Hth)).
    destruct (r_corpse _ _ _ _ _ _ Hr c' Hc') as (i' & Hi' & [Hz _]); [congruence|].
    rewrite Heq, (infos_lookup _ _ _ Hth) in Hi'. injection Hi' as <-. apply bool_decide_eq_true in Hz. congruence.
  - apply Hd; [done|]. intros x. rewrite <- Hi2. apply Hu3.
  - exact (pool_relink s2 m Hm).
  - intros c'. simpl. unfold nupd. by destruct (Nat.eqb_spec c' c) as [->|].
  - done.
Qed.

Lemma exit_bury (s : sched) c :
  sched_thread_exit s c =
  (s ← rq_spin_lock s c;
   let dying := current (rqs s c) in
   s ← th_upd s dying (set_state THREAD_ZOMBIE);
   next ← pick_next s c;
   s ← bury s c dying;
   take_next s c dying next).
Proof.
  unfold sched_thread_exit, bury. destruct (rq_spin_lock s c) as [s1|]; [|done]. cbn [mbind option_bind].
  destruct (th_upd s1 _ _) as [s2|]; [|done]. cbn [mbind option_bind].
  destruct (pick_next s2 c) as [next|]; [|done]. cbn [mbind option_bind].
  destruct (threads s2 !! _) as [th|]; [|done]. cbn [mbind option_bind].
  destruct (kstack_base th =? 0); [done|]. by destruct (tlist_remove s2 _).
Qed.

Lemma sched_thread_exit_spec (s : sched) c :
  wf s -> (c < 16)%nat -> online s c -> current (rqs s c) <> idle (rqs s c) ->
  exists s' next, sched_thread_exit s c = Some s' /\ handled (a_give_up c THREAD_ZOMBIE) s s' /\
    pick_next s c = Some next /\ current (rqs s' c) = next.
Proof.
  intros Hwf Hc Hon Hni. destruct (enter s c Hwf Hc) as (s1 & Q & R & L & live & Hlk & [Hp Hr Hl HR] & Hu & Hq0).
  rewrite exit_bury, Hlk. cbn [mbind option_bind].
  assert (Hon1 : online s1 c) by by apply (unlocked_online _ _ _ Hu).
  destruct (pick_cases s1 Q R None c Hp Hc Hon1) as (next & Hn & _ & Hcase).
  destruct (current_thread s1 Q R None c Hp (HR c) Hc Hon1) as (HRc & th & Hth & Hs & Hcpu).
  assert (Hni1 : ~ is_idle (current (rqs s1 c))).
  { eapply cur_not_idle; try done. by rewrite (u_cur _ _ Hu), (unlocked_idle _ _ _ Hu). }
  set (cur := current (rqs s1 c)) in *. unfold th_upd. rewrite Hth. cbn [mbind option_bind].
  set (th' := set_state THREAD_ZOMBIE th). set (s2 := with_threads s1 _).
  assert (Hp2 : placed s2 Q (nupd R c None) None) by by eapply (placed_stop _ s1 Q R c _ th th' None).
  assert (Hnc : forall c', (c' < 16)%nat -> cur ∉ Q c').
  { apply (not_queued _ s1 Q R None _ th Hp Hth). left. by rewrite Hs. }
  rewrite (pick_same s1 s2 Q); try done; [|apply Hp|apply Hp2|].
  2: { intros t Hin. simpl. rewrite lookup_insert_ne; [done|]. intros <-. by apply (Hnc c). }
  rewrite Hn. cbn [mbind option_bind].
  destruct (bury_spec s1 Q _ L live c cur th Hp2 Hr Hl Hc Hth Hs)
    as (s3 & L' & Hb & Hp3 & Hr3 & Hl3 & Hpool3 & Hrq3 & Hup3).
  change (bury s2 c cur = Some s3) in Hb. rewrite Hb. cbn [mbind option_bind].
  destruct (finish_switch s s3 Q (nupd R c None) L' live c cur THREAD_ZOMBIE next)
    as (s' & Ht & Hh & Hsw); try done.
  - unfold online. by destruct (Hrq3 c) as (_ & -> & _).
  - by rewrite nupd_eq.
  - intros c' Hcc. rewrite nupd_ne, HR by done. unfold running. by destruct (Hrq3 c') as (-> & -> & _).
  - naive_solver.
  - rewrite <- (pool_same s s1 (u_threads _ _ Hu)). rewrite <- Hs, <- Hcpu. by apply pool_lookup.
  - rewrite <- (pool_same s s1 (u_threads _ _ Hu)), Hpool3. unfold pool. simpl. by rewrite fmap_insert, <- Hcpu.
  - intros Heq. destruct Hcase as [(_ & Hx & _)|[Hin _]].
    + apply Hni1. rewrite Heq, Hx. by exists c.
    + apply (Hnc c Hc). by rewrite Heq.
  - intros c'. destruct (Hrq3 c') as (_ & _ & ->). by rewrite (u_min _ _ Hu).
  - intros c'. destruct (Hrq3 c') as (_ & -> & _). by apply unlocked_idle.
  - rewrite Hup3. apply Hu.
  - exists s', next. split; [exact Ht|]. split; [done|]. split; [|by rewrite (sw_cur _ _ _ _ Hsw), nupd_eq].
    rewrite <- Hn. symmetry. apply (pick_same s s1 Q); try done; try apply Hu; [apply Hp|].
    intros t _. by rewrite (u_threads _ _ Hu).
Qed.
End handlers.

(** * The handlers that queue threads

    sched_yield, sched_tick, sched_unblock and what changes a thread in place:
    the running thread goes back to its queue, a waiting thread to the queue of
    its CPU. *)

Section queueing.
Context {H A : Type} `{OrdTreeLaws H} `{AllocatorLaws A}.
Context (boot_thread : Z) (idle_threads : nat -> Z) {Hlay : Layout boot_thread idle_threads}.

Abbreviation sched := (@sched H A).
Abbreviation queues := (queues idle_threads).
Abbreviation placed := (placed idle_threads).
Abbreviation is_idle := (is_idle idle_threads).
Abbreviation rest := (rest boot_thread idle_threads).
Abbreviation wf := (wf boot_thread idle_threads).
Abbreviation a_give_up := (a_give_up idle_threads).
Abbreviation a_resched := (a_resched idle_threads).
Abbreviation entered := (entered boot_thread idle_threads).
Abbreviation handled := (handled boot_thread idle_threads).

Lemma th_upd_some (s : sched) t f th :
  threads s !! t = Some th -> th_upd s t f = Some (with_threads s (<[t := f th]> (threads s))).
Proof. intros Hth. unfold th_upd. by rewrite Hth. Qed.

(** Between two points of a handler: the running threads and the pool are the
    same and virtual time has not gone back. *)
Record during (s s' : sched) : Prop := {
  d_pool : pool s' = pool s;
  d_cur c : current (rqs s' c) = current (rqs s c);
  d_idle c : idle (rqs s' c) = idle (rqs s c);
  d_min c : min_vruntime (rqs s c) <= min_vruntime (rqs s' c);
  d_up : sched_up s' = sched_up s;
}.

Lemma during_trans s1 s2 s3 : during s1 s2 -> during s2 s3 -> during s1 s3.
Proof.
  intros [D1 D2 D3 D4 D5] [E1 E2 E3 E4 E5].
  split; try congruence; intros c; specialize (D4 c); specialize (E4 c); lia.
Qed.

Lemma unlocked_during s s' : unlocked_same s s' -> during s s'.
Proof.
  intros Hu. split; try apply Hu.
  - apply pool_same, Hu.
  - intros c. by rewrite (u_min _ _ Hu).
Qed.

Lemma env_during s s' : env_same s s' -> pool s' = pool s -> during s s'.
Proof. intros [_ _ _ _ Hu Hq Hm] Hp. split; try done; intros c; destruct (Hq c) as (_ & ? & ? & _); done. Qed.

Lemma leave_during (op : _ -> _ -> Prop) (s s1 : sched) c Q R L live :
  entered s1 c Q R L live -> (c < 16)%nat -> during s s1 -> op (pool s) (pool s) ->
  handled op s (rq_spin_unlock s1 c).
Proof.
  intros He Hc [D1 D2 D3 D4 D5] Hop. eapply leave; try done. by rewrite D1.
Qed.

(** The running thread stays when no other is READY. *)
Lemma leave_alone (s s1 : sched) c Q R L live :
  entered s1 c Q R L live -> (c < 16)%nat -> during s s1 -> Q c = [] ->
  handled (a_resched c) s (rq_spin_unlock s1 c).
Proof.
  intros He Hc Hd HQ. eapply leave_during; try done. left. split; [done|].
  rewrite <- (d_pool _ _ Hd). apply (queue_nothing_ready boot_thread _ s1 Q R c); [apply He|done].
Qed.

Lemma running_during s s' c : during s s' -> running s' c = running s c.
Proof. intros [_ D2 D3 _ _]. unfold running. by rewrite D2, D3. Qed.

(** Writing fields that do not place the thread. *)
Lemma entered_quiet (s : sched) c Q R L live t th th' :
  entered s c Q R L live -> threads s !! t = Some th ->
  state th' = state th -> th_cpu th' = th_cpu th -> info_of th' = info_of th ->
  (state th <> THREAD_RUNNING -> vdeadline th' = vdeadline th /\ tid th' = tid th) ->
  entered (with_threads s (<[t := th']> (threads s))) c Q R L live /\
  during s (with_threads s (<[t := th']> (threads s))).
Proof.
  intros [Hp Hr Hl HR] Hth Hs Hc Hi Hk.
  assert (Hinf : infos (with_threads s (<[t := th']> (threads s))) = infos s) by by eapply infos_upd.
  split.
  - split; [by eapply placed_quiet|eapply rest_same; [done|apply env_threads|done]|by eapply listed_same|done].
  - split; try done. unfold pool. simpl. rewrite fmap_insert. apply insert_id.
    by rewrite lookup_fmap, Hth, Hs, Hc.
Qed.

Lemma entered_env (s s' : sched) c Q R L live :
  entered s c Q R L live -> env_same s s' -> same_place s s' -> entered s' c Q R L live /\ during s s'.
Proof.
  intros [Hp Hr Hl HR] He Hs.
  assert (Hinf : infos s' = infos s) by (unfold infos; by destruct Hs as [-> _]).
  assert (Hd : during s s') by (apply env_during; [done|]; unfold pool; by destruct Hs as [-> _]).
  split; [|done]. split.
  - by eapply placed_same.
  - by eapply rest_same.
  - by eapply listed_same.
  - intros c'. by rewrite (running_during s s').
Qed.

(** The running thread goes back to the queue and [next] takes the CPU. *)
Lemma requeue_switch (s0 s : sched) c Q R L live next :
  entered s c Q R L live -> during s0 s -> (c < 16)%nat -> online s c ->
  current (rqs s c) <> idle (rqs s c) -> next ∈ Q c ->
  exists s', (s1 ← enqueue s c (current (rqs s c)); s1 ← rq_remove s1 c next;
              do_switch s1 c (current (rqs s c)) next) = Some s' /\
    handled (a_give_up c THREAD_READY) s0 s' /\ current (rqs s' c) = next.
Proof.
  intros [Hp Hr Hl HR] Hd Hc Hon Hni Hin.
  destruct (current_thread _ s Q R None c Hp (HR c) Hc Hon) as (HRc & th & Hth & Hs & Hcpu).
  assert (Hidle : ~ is_idle (current (rqs s c))) by by eapply cur_not_idle.
  set (cur := current (rqs s c)) in *.
  assert (Hnc : forall c', (c' < 16)%nat -> cur ∉ Q c').
  { apply (not_queued _ s Q R None _ th Hp Hth). left. by rewrite Hs. }
  destruct (enqueue_spec _ s Q (nupd R c None) c cur th (p_q _ _ _ _ _ Hp) Hc Hth Hcpu)
    as (s1 & l1 & l2 & -> & HQ & Ht1 & He1 & Hp1).
  { intros _ _. unfold cur in *. by rewrite Hth. }
  { intros th' Hs' Hc'. eapply placed_stop; try done. rewrite Hs'. by rewrite decide_False. }
  cbn [mbind option_bind].
  assert (Hi1 : infos s1 = infos s).
  { unfold infos. rewrite Ht1. eapply infos_upd; [done|]. unfold info_of. simpl. by rewrite Hs. }
  assert (Hrq1 : forall c', current (rqs s1 c') = current (rqs s c') /\ idle (rqs s1 c') = idle (rqs s c')).
  { intros c'. by destruct (e_rq _ _ He1 c') as (_ & ? & ? & _). }
  assert (Hin1 : next ∈ nupd Q c (l1 ++ cur :: l2) c) by (rewrite nupd_eq; rewrite HQ in Hin; set_solver).
  assert (Hon1 : online s1 c) by by apply (env_online _ _ _ He1).
  destruct (finish_switch _ _ s0 s1 _ (nupd R c None) L live c cur THREAD_READY next Hp1)
    as (s' & Ht & Hh & Hsw); try done.
  - by eapply rest_same.
  - by eapply listed_same.
  - by rewrite nupd_eq.
  - intros c' Hcc. rewrite nupd_ne, HR by done. unfold running. by destruct (Hrq1 c') as [-> ->].
  - by right.
  - rewrite <- (d_pool _ _ Hd), <- Hs, <- Hcpu. by apply pool_lookup.
  - rewrite <- (d_pool _ _ Hd). unfold pool. rewrite Ht1, fmap_insert. simpl. by rewrite Hcpu.
  - intros Heq. apply (Hnc c Hc). by rewrite Heq.
  - intros c'. pose proof (d_min _ _ Hd c'). pose proof (e_min _ _ He1 c'). lia.
  - intros c'. destruct (Hrq1 c') as [_ ->]. apply Hd.
  - rewrite (e_up _ _ He1). apply Hd.
  - exists s'. split; [|split; [done|by rewrite (sw_cur _ _ _ _ Hsw), nupd_eq]]. unfold take_next in Ht.
    by rewrite (proj2 (Z.eqb_neq _ _) (queued_not_idle _ _ _ _ _ _ _ Hp1 Hc Hon1 Hin1)) in Ht.
Qed.

Lemma sched_yield_spec (s : sched) c :
  wf s -> (c < 16)%nat -> online s c -> current (rqs s c) <> idle (rqs s c) ->
  exists s' next, sched_yield s c = Some s' /\ handled (a_resched c) s s' /\ pick_next s c = Some next /\
    current (rqs s' c) = (if next =? idle (rqs s c) then current (rqs s c) else next).
Proof.
  intros Hwf Hc Hon Hni. destruct (enter _ _ s c Hwf Hc) as (s1 & Q & R & L & live & Hlk & He & Hu & Hq0).
  pose proof He as [Hp Hr Hl HR]. unfold sched_yield. rewrite Hlk. cbn [mbind option_bind].
  assert (Hon1 : online s1 c) by by apply (unlocked_online _ _ _ Hu).
  pose proof (unlocked_during _ _ Hu) as Hd.
  destruct (pick_cases _ s1 Q R None c Hp Hc Hon1) as (next & Hn & _ & Hcase). rewrite Hn.
  assert (Hpick : pick_next s c = Some next).
  { rewrite <- Hn. symmetry. apply (pick_same idle_threads s s1 Q); try done; try apply Hu; [apply Hp|].
    intros t _. by rewrite (u_threads _ _ Hu). }
  cbn [mbind option_bind].
  destruct (current_thread _ s1 Q R None c Hp (HR c) Hc Hon1) as (HRc & th & Hth & Hs & Hcpu).
  unfold th_upd. rewrite Hth. cbn [mbind option_bind].
  rewrite <- (d_cur _ _ Hd c), <- (d_idle _ _ Hd c) in Hni.
  destruct Hcase as [(HQ & _ & Hx)|[Hin Hx]].
  - rewrite (proj2 (Z.eqb_eq _ _) Hx). cbn [orb].
    destruct (entered_quiet s1 c Q R L live _ th (set_vdeadline (s64 (vruntime th + SLICE_VTIME)) th) He Hth)
      as [He2 Hd2]; try done.
    eexists _, next. split; [done|]. split; [eapply leave_alone; [done|done|by eapply during_trans|done]|].
    split; [done|]. rewrite <- (d_idle _ _ Hd c), (proj2 (Z.eqb_eq _ _) Hx).
    simpl. rewrite nupd_eq. simpl. apply Hd.
  - rewrite (proj2 (Z.eqb_neq _ _) Hx). cbn [orb].
    assert (Hnc : next <> current (rqs s1 c)).
    { intros ->. eapply (not_queued _ s1 Q R None _ th Hp Hth); [left; by rewrite Hs|exact Hc|exact Hin]. }
    rewrite (proj2 (Z.eqb_neq _ _) Hnc).
    destruct (entered_quiet s1 c Q R L live _ th (set_vruntime (vdeadline th) th) He Hth) as [He2 Hd2]; try done.
    destruct (requeue_switch s _ c Q R L live next He2) as (s' & Hsw & Hh & Hcur); try done;
      [by eapply during_trans|].
    exists s', next. split; [exact Hsw|]. split; [eapply handled_mono; [done|by right]|]. split; [done|].
    by rewrite <- (d_idle _ _ Hd c), (proj2 (Z.eqb_neq _ _) Hx).
Qed.

(** ** The tick *)

Lemma emit_handled op (s s' : sched) e : handled op s s' -> handled op s (emit s' e).
Proof.
  intros [(Q & R & L & live & Hp & Hr & Hl & HR) Hpool Hm Hi Hu]. split; try done.
  exists Q, R, L, live. split; [by eapply (placed_same _ s')|].
  split; [by eapply (rest_same _ _ s'); [| |done]|done].
Qed.

(** The idle thread gives its CPU to [next]. *)
Lemma idle_switch (s0 s : sched) c Q R L live next :
  entered s c Q R L live -> during s0 s -> (c < 16)%nat -> online s c ->
  current (rqs s c) = idle (rqs s c) -> next ∈ Q c ->
  exists s', (s1 ← th_upd s (idle (rqs s c)) (set_state THREAD_READY); s1 ← rq_remove s1 c next;
              do_switch s1 c (idle (rqs s c)) next) = Some s' /\
    handled (a_give_up c THREAD_READY) s0 s' /\ current (rqs s' c) = next.
Proof.
  intros [Hp Hr Hl HR] Hd Hc Hon Hcur Hin.
  destruct (current_thread _ s Q R None c Hp (HR c) Hc Hon) as (HRc & th & Hth & Hs & Hcpu).
  rewrite Hcur in *. destruct (p_idle _ _ _ _ _ Hp c Hc Hon) as [Hid _].
  assert (Hidle : is_idle (idle (rqs s c))) by (rewrite Hid; by exists c).
  pose proof (queued_not_idle _ _ _ _ _ _ _ Hp Hc Hon Hin) as Hni.
  unfold th_upd. rewrite Hth. cbn [mbind option_bind]. set (s1 := with_threads s _).
  assert (Hp1 : placed s1 Q (nupd R c None) None).
  { eapply (placed_stop _ s Q R c _ th (set_state THREAD_READY th)); try done. simpl. by rewrite decide_True. }
  assert (Hi1 : infos s1 = infos s).
  { eapply infos_upd; [done|]. unfold info_of. simpl. by rewrite Hs. }
  destruct (finish_switch _ _ s0 s1 Q (nupd R c None) L live c (idle (rqs s c)) THREAD_READY next Hp1)
    as (s' & Ht & Hh & Hsw); try done.
  - eapply rest_same; [done|apply env_threads|done].
  - by eapply listed_same.
  - by rewrite nupd_eq.
  - intros c' Hcc. rewrite nupd_ne by done. apply HR.
  - by right.
  - rewrite <- (d_pool _ _ Hd), <- Hs, <- Hcpu. by apply pool_lookup.
  - rewrite <- (d_pool _ _ Hd). unfold pool. simpl. by rewrite fmap_insert, <- Hcpu.
  - intros c'. apply Hd.
  - intros c'. apply Hd.
  - apply Hd.
  - exists s'. split; [|split; [done|by rewrite (sw_cur _ _ _ _ Hsw), nupd_eq]]. unfold take_next in Ht. simpl in Ht. by rewrite (proj2 (Z.eqb_neq _ _) Hni) in Ht.
Qed.

(** No other thread is ready on [c]. *)
Definition starved_idle (s : sched) (c : nat) : Prop :=
  current (rqs s c) = idle (rqs s c) ->
  forall t th, threads s !! t = Some th -> state th = THREAD_READY -> th_cpu th <> Z.of_nat c.

Lemma not_starved (s : sched) Q R c :
  placed s Q R None -> R c = running s c -> (c < 16)%nat -> online s c -> Q c = [] -> starved_idle s c.
Proof.
  intros Hp HR Hc Hon HQ Hcur t th Hth Hs Hcpu.
  destruct (p_thr _ _ _ _ _ Hp t th Hth) as (Hpl & _ & _ & Hi). unfold place in Hpl.
  rewrite Hs, Hcpu, Nat2Z.id, HQ in Hpl. rewrite Hcpu, Nat2Z.id in Hi.
  destruct (p_idle _ _ _ _ _ Hp c Hc Hon) as [Hid _].
  destruct (current_thread _ s Q R None c Hp HR Hc Hon) as (_ & thc & Hthc & Hsc & _).
  destruct Hpl as [Ht|[?|?]]; [|set_solver|done]. rewrite Hcur, Hid, <- (Hi Ht) in Hthc. congruence.
Qed.

Lemma unlock_starved (s : sched) c c' : starved_idle s c -> starved_idle (rq_spin_unlock s c') c.
Proof.
  unfold starved_idle. simpl. unfold nupd. destruct (Nat.eqb_spec c c') as [->|]; done.
Qed.

Lemma handled_starved op (s0 s' : sched) c next :
  handled op s0 s' -> next <> idle (rqs s0 c) -> current (rqs s' c) = next -> starved_idle s' c.
Proof. intros Hh Hn Hcur Hx. rewrite (h_idle _ _ _ _ _ Hh) in Hx. congruence. Qed.

Lemma offline_empty (s : sched) Q R c :
  placed s Q R None -> (c < 16)%nat -> ~ online s c -> Q c = [].
Proof.
  intros Hp Hc Hoff. destruct (Q c) as [|t l] eqn:HQ; [done|].
  destruct (q_thr _ _ _ (p_q _ _ _ _ _ Hp) c t Hc) as (th & Hth & _ & Hcpu & _); [rewrite HQ; set_solver|].
  destruct (p_thr _ _ _ _ _ Hp t th Hth) as (_ & _ & Hon & _). by rewrite Hcpu, Nat2Z.id in Hon.
Qed.

(** sched_tick after the running thread was charged. *)
Definition tick_charged (s : sched) (cpu : nat) : option sched :=
  let cur := current (rqs s cpu) in
  let idl := idle (rqs s cpu) in
  s ← (if cur =? idl then Some s else raise_min s cpu);
  if cur =? idl then
    next ← pick_next s cpu;
    if negb (next =? idl) then
      s ← th_upd s idl (set_state THREAD_READY);
      s ← rq_remove s cpu next;
      do_switch s cpu idl next
    else Some (emit (rq_spin_unlock s cpu) (EvArm (u64 (slice_ms WEIGHT_DEFAULT * 1000000))))
  else
    next ← pick_next s cpu;
    if next =? idl then
      s ← th_upd s cur (fun th => set_vdeadline (s64 (vruntime th + SLICE_VTIME)) th);
      let s := rq_spin_unlock s cpu in
      th ← threads s !! cur;
      Some (emit s (EvArm (u64 (slice_ms (weight th) * 1000000))))
    else
      s ← enqueue s cpu cur;
      s ← rq_remove s cpu next;
      do_switch s cpu cur next.

Lemma tick_charged_idle (s0 s : sched) c Q R L live :
  entered s c Q R L live -> during s0 s -> (c < 16)%nat -> online s c ->
  current (rqs s c) = idle (rqs s c) ->
  exists s', tick_charged s c = Some s' /\ handled (a_resched c) s0 s' /\ starved_idle s' c.
Proof.
  intros He Hd Hc Hon Hcur. pose proof He as [Hp Hr Hl HR]. unfold tick_charged.
  rewrite Hcur, Z.eqb_refl. cbn [mbind option_bind].
  destruct (pick_cases _ s Q R None c Hp Hc Hon) as (next & Hn & _ & Hcase). rewrite Hn. cbn [mbind option_bind].
  destruct Hcase as [(HQ & _ & Hx)|[Hin Hx]].
  - rewrite (proj2 (Z.eqb_eq _ _) Hx). cbn [negb]. eexists. split; [done|].
    split; [by eapply emit_handled, leave_alone|].
    eapply (unlock_starved s), not_starved; try done.
  - rewrite (proj2 (Z.eqb_neq _ _) Hx). cbn [negb].
    destruct (idle_switch s0 s c Q R L live next He Hd Hc Hon Hcur Hin) as (s' & Hsw & Hh & Hcur').
    exists s'. split; [exact Hsw|]. split; [eapply handled_mono; [done|by right]|]. eapply handled_starved; try done.
    by rewrite <- (d_idle _ _ Hd).
Qed.

Lemma tick_charged_busy (s0 s : sched) c Q R L live :
  entered s c Q R L live -> during s0 s -> (c < 16)%nat -> online s c ->
  current (rqs s c) <> idle (rqs s c) ->
  exists s', tick_charged s c = Some s' /\ handled (a_resched c) s0 s' /\ starved_idle s' c.
Proof.
  intros He Hd Hc Hon Hcur. pose proof He as [Hp Hr Hl HR]. unfold tick_charged.
  rewrite (proj2 (Z.eqb_neq _ _) Hcur).
  destruct (current_thread _ s Q R None c Hp (HR c) Hc Hon) as (HRc & th & Hth & Hs & Hcpu).
  destruct (raise_min_spec _ s Q c (p_q _ _ _ _ _ Hp) Hc) as (s1 & -> & Ht1 & He1 & Hs1).
  { intros _ _. by rewrite Hth. }
  cbn [mbind option_bind]. destruct (entered_env s s1 c Q R L live He He1 Hs1) as [He2 Hd2].
  assert (Hon1 : online s1 c) by by apply (env_online _ _ _ He1).
  destruct (pick_cases _ s1 Q R None c (en_placed _ _ _ _ _ _ _ _ He2) Hc Hon1) as (next & Hn & _ & Hcase).
  rewrite Hn. cbn [mbind option_bind]. rewrite <- (d_idle _ _ Hd2 c), <- (d_cur _ _ Hd2 c) in *.
  assert (Hd02 : during s0 s1) by by eapply during_trans.
  destruct Hcase as [(HQ & _ & Hx)|[Hin Hx]].
  - rewrite (proj2 (Z.eqb_eq _ _) Hx). unfold th_upd. rewrite Ht1, Hth. cbn [mbind option_bind].
    cbn [threads rq_spin_unlock rq_upd with_rqs with_threads]. rewrite lookup_insert_eq. cbn [mbind option_bind].
    eexists. split; [done|]. rewrite <- Ht1 in Hth.
    destruct (entered_quiet s1 c Q R L live _ th (set_vdeadline (s64 (vruntime th + SLICE_VTIME)) th) He2 Hth)
      as [He3 Hd3]; try done. rewrite Ht1 in *.
    split; [by eapply emit_handled, leave_alone; [| |eapply during_trans|]|].
    intros Hx'. simpl in Hx'. rewrite nupd_eq in Hx'. done.
  - rewrite (proj2 (Z.eqb_neq _ _) Hx).
    destruct (requeue_switch s0 s1 c Q R L live next He2 Hd02 Hc Hon1 Hcur Hin) as (s' & Hsw & Hh & Hcur').
    exists s'. split; [exact Hsw|]. split; [eapply handled_mono; [done|by right]|]. eapply handled_starved; try done.
    by rewrite <- (d_idle _ _ Hd02).
Qed.

Lemma sched_tick_spec (s : sched) c :
  wf s -> (c < 16)%nat -> sched_up s = true ->
  exists s', sched_tick s c = Some s' /\ handled (a_resched c) s s' /\ (online s c -> starved_idle s' c).
Proof.
  intros Hwf Hc Hup. unfold sched_tick. rewrite Hup. cbn [negb].
  destruct (enter _ _ s c Hwf Hc) as (s1 & Q & R & L & live & Hlk & He & Hu & Hq0). rewrite Hlk.
  cbn [mbind option_bind]. pose proof (unlocked_during _ _ Hu) as Hd.
  destruct (Z.eqb_spec (current (rqs s1 c)) 0) as [Hc0|Hc0].
  { assert (Hoff : ~ online s1 c).
    { intros Hon. destruct He as [Hp Hr _ HR].
      destruct (current_thread _ s1 Q R None c Hp (HR c) Hc Hon) as (_ & th & Hth & _).
      rewrite Hc0 in Hth. destruct (r_thr _ _ _ _ _ _ Hr 0 _ (infos_lookup _ _ _ Hth)); done. }
    eexists. split; [done|]. split; [|intros Hon; by apply (unlocked_online _ _ _ Hu) in Hon].
    eapply leave_alone; try done. by eapply offline_empty; [apply He|..]. }
  assert (Hon1 : online s1 c).
  { destruct (decide (idle (rqs s1 c) = 0)) as [Hoff|]; [|done].
    destruct He as [_ Hr _ _]. destruct Hc0. apply (r_off _ _ _ _ _ _ Hr); [done|]. intros Hn. by apply Hn. }
  destruct (entered_env s1 (with_ticks s1 (u64 (g_sched_ticks s1 + 1))) c Q R L live He) as [He2 Hd2]; [done|done|].
  destruct (current_thread _ s1 Q R None c (en_placed _ _ _ _ _ _ _ _ He) (en_run _ _ _ _ _ _ _ _ He c) Hc Hon1)
    as (_ & th & Hth & Hs & Hcpu).
  rewrite (th_upd_some (with_ticks s1 _) _ _ th Hth). cbn [mbind option_bind].
  destruct (entered_quiet _ c Q R L live _ th (set_vruntime (vdeadline th) th) He2 Hth) as [He3 Hd3]; try done.
  set (s3 := with_threads (with_ticks s1 _) _) in *.
  assert (Hd03 : during s s3) by (eapply during_trans; [exact Hd|]; by eapply during_trans).
  destruct (decide (current (rqs s3 c) = idle (rqs s3 c))) as [Hci|Hci].
  - destruct (tick_charged_idle s s3 c Q R L live He3 Hd03 Hc Hon1 Hci) as (s' & Ht & Hh & Hst).
    exists s'. split; [exact Ht|]. done.
  - destruct (tick_charged_busy s s3 c Q R L live He3 Hd03 Hc Hon1 Hci) as (s' & Ht & Hh & Hst).
    exists s'. split; [exact Ht|]. done.
Qed.

(** ** Waking threads *)

Lemma handled_refl (op : _ -> _ -> Prop) (s : sched) : wf s -> op (pool s) (pool s) -> handled op s s.
Proof. by intros Hwf Hop; split. Qed.

Lemma no_null_thread (s : sched) : wf s -> pool s !! 0 = None.
Proof.
  intros (Q & R & L & live & _ & Hr & _). unfold pool. rewrite lookup_fmap.
  destruct (threads s !! 0) as [th|] eqn:Hth; [|done].
  destruct (r_thr _ _ _ _ _ _ Hr 0 _ (infos_lookup _ _ _ Hth)); done.
Qed.

Lemma online_cur_ok (s : sched) Q R e c :
  placed s Q R e -> R c = running s c -> (c < 16)%nat -> online s c -> cur_ok s c.
Proof.
  intros Hp HR Hc Hon _ _.
  destruct (current_thread _ s Q R e c Hp HR Hc Hon) as (_ & th & -> & _). by eexists.
Qed.

(** A thread whose wake-up or creation is under way is queued. *)
Lemma enqueue_leave (op : _ -> _ -> Prop) (s0 s : sched) c Q R L live t th :
  placed s Q R None \/ placed s Q R (Some t) -> rest s L live (one c) -> listed s L ->
  (forall c', R c' = running s c') -> (c < 16)%nat -> online s c ->
  threads s !! t = Some th -> th_cpu th = Z.of_nat c -> state th <> THREAD_ZOMBIE ->
  (forall th', state th' = THREAD_READY -> th_cpu th' = th_cpu th ->
     placed (with_threads s (<[t := th']> (threads s))) Q R (Some t)) ->
  op (pool s0) (<[t := (THREAD_READY, Z.of_nat c)]> (pool s)) ->
  (forall c, min_vruntime (rqs s0 c) <= min_vruntime (rqs s c)) ->
  (forall c, idle (rqs s c) = idle (rqs s0 c)) -> sched_up s = sched_up s0 ->
  exists s' mv, enqueue s c t = Some s' /\ handled op s0 (rq_spin_unlock s' c) /\
    threads s' = <[t := enqueued mv th]> (threads s) /\ env_same s s' /\
    exists Q', entered s' c Q' R L live.
Proof.
  intros Hp Hr Hl HR Hc Hon Hth Hcpu Hz Hpl Hpool Hmin Hid Hup.
  assert (Hq : queues s Q /\ cur_ok s c).
  { destruct Hp as [Hp|Hp]; (split; [apply Hp|by eapply online_cur_ok]). }
  destruct Hq as [Hq Hcok].
  destruct (enqueue_spec _ s Q R c t th Hq Hc Hth Hcpu Hcok Hpl) as (s1 & l1 & l2 & Henq & HQ & Ht1 & He1 & Hp1).
  assert (Hi1 : infos s1 = infos s).
  { unfold infos. rewrite Ht1. eapply infos_upd; [done|]. unfold info_of. simpl.
    rewrite !bool_decide_eq_false_2; done. }
  assert (Hen : entered s1 c (nupd Q c (l1 ++ t :: l2)) R L live).
  { split; [done|by eapply rest_same|by eapply listed_same|].
    intros c'. rewrite HR. unfold running. by destruct (e_rq _ _ He1 c') as (_ & -> & -> & _). }
  exists s1, (min_vruntime (rqs s1 c)). split; [done|]. split; [|eauto].
  eapply leave; [exact Hen|done| | | |].
  - unfold pool. rewrite Ht1, fmap_insert. simpl. by rewrite Hcpu.
  - intros c'. specialize (Hmin c'). pose proof (e_min _ _ He1 c'). lia.
  - intros c'. rewrite <- Hid. by destruct (e_rq _ _ He1 c') as (_ & _ & -> & _).
  - by rewrite (e_up _ _ He1).
Qed.

Lemma sched_unblock_spec (s : sched) cpu t :
  wf s -> (t <> 0 -> is_Some (threads s !! t)) ->
  exists s', sched_unblock s cpu t = Some s' /\ handled (a_wake t) s s' /\
    (forall th, t <> 0 -> threads s !! t = Some th -> state th = THREAD_BLOCKED ->
       exists mv, threads s' = <[t := enqueued mv th]> (threads s)).
Proof.
  intros Hwf Ht. unfold sched_unblock. destruct (Z.eqb_spec t 0) as [->|Ht0].
  { exists s. split; [done|]. split; [|done]. apply handled_refl; [done|].
    unfold a_wake. by rewrite no_null_thread. }
  destruct (Ht Ht0) as [th Hth]. rewrite Hth. cbn [mbind option_bind].
  pose proof (pool_lookup _ _ _ Hth) as Hpt.
  destruct (decide (state th = THREAD_BLOCKED)) as [Hs|Hs].
  2: { rewrite bool_decide_eq_false_2 by done. exists s. split; [done|].
       split; [|intros th0 _ [= <-]; done]. apply handled_refl; [done|].
       unfold a_wake. rewrite Hpt. by destruct (state th). }
  rewrite bool_decide_eq_true_2 by done. cbn [negb].
  assert (Hcpu : 0 <= th_cpu th < 16 /\ online s (Z.to_nat (th_cpu th))).
  { destruct Hwf as (Q & R & L & live & Hp & _). destruct (p_thr _ _ _ _ _ Hp t th Hth) as (_ & ? & ? & _). done. }
  destruct Hcpu as [Hcpu Hon]. set (c := Z.to_nat (th_cpu th)) in *.
  assert (Hc : (c < 16)%nat) by lia. assert (Hthc : th_cpu th = Z.of_nat c) by lia.
  destruct (enter _ _ s c Hwf Hc) as (s1 & Q & R & L & live & -> & [Hp Hr Hl HR] & Hu & _).
  cbn [mbind option_bind]. pose proof (unlocked_during _ _ Hu) as Hd.
  assert (Hth1 : threads s1 !! t = Some th) by by rewrite (u_threads _ _ Hu).
  rewrite Hth1. cbn [mbind option_bind]. rewrite bool_decide_eq_true_2 by done.
  destruct (enqueue_leave (a_wake t) s s1 c Q R L live t th) as (s2 & mv & -> & Hh & Ht2 & He2 & _); try done.
  - by left.
  - by apply (unlocked_online _ _ _ Hu).
  - by rewrite Hs.
  - intros th' Hs' Hc'. by eapply placed_wake.
  - rewrite (d_pool _ _ Hd). unfold a_wake. by rewrite Hpt, Hs, Hthc.
  - apply Hd.
  - apply Hd.
  - apply Hd.
  - cbn [mbind option_bind]. cbn [threads rq_spin_unlock rq_upd with_rqs]. rewrite Ht2, lookup_insert_eq.
    cbn [mbind option_bind]. eexists. split; [done|]. split.
    { destruct (_ =? idle _); [|done]. destruct (_ =? Z.of_nat cpu); by apply emit_handled. }
    intros th0 _ [= <-] _. exists mv.
    destruct (_ =? idle _); [destruct (_ =? Z.of_nat cpu)|]; simpl; by rewrite Ht2, (u_threads _ _ Hu).
Qed.

(** ** Priorities *)

Lemma wf_quiet (s : sched) t th th' :
  wf s -> threads s !! t = Some th ->
  state th' = state th -> th_cpu th' = th_cpu th -> info_of th' = info_of th ->
  vdeadline th' = vdeadline th -> tid th' = tid th ->
  handled a_none s (with_threads s (<[t := th']> (threads s))).
Proof.
  intros (Q & R & L & live & Hp & Hr & Hl & HR) Hth Hs Hc Hi Hv Ht.
  assert (Hinf : infos (with_threads s (<[t := th']> (threads s))) = infos s) by by eapply infos_upd.
  split; try done.
  - exists Q, R, L, live. split; [by eapply placed_quiet|].
    split; [eapply rest_same; [done|apply env_threads|done]|]. split; [by eapply listed_same|done].
  - unfold a_none, pool. simpl. rewrite fmap_insert. apply insert_id. by rewrite lookup_fmap, Hth, Hs, Hc.
Qed.

Lemma sched_set_priority_spec (s : sched) t prio :
  wf s -> (t <> 0 -> is_Some (threads s !! t)) ->
  exists s', sched_set_priority s t prio = Some s' /\ handled a_none s s'.
Proof.
  intros Hwf Ht. unfold sched_set_priority. destruct (Z.eqb_spec t 0) as [->|Ht0].
  { exists s. split; [done|by apply handled_refl]. }
  destruct (Ht Ht0) as [th Hth]. rewrite (th_upd_some _ _ _ th Hth). eexists. split; [done|].
  by eapply wf_quiet.
Qed.
End queueing.
