(* ===== verification/SchedMigrate.v ===== *)
(** * Moving threads between CPUs

    sched_migrate and load_balance take the locks of two run queues in the
    order of their CPUs and move a queued thread from one tree to the other. *)

From stdpp Require Import base gmap list relations.
From Stdlib Require Import ZArith Lia Sorted.
From S2P Require Import Prelude RbRep RbTreeProof OrdTree Spinlock Allocator Sched SchedProof SchedInv SchedState SchedHandlers.

Section migrate.
Context {H A : Type} `{OrdTreeLaws H} `{AllocatorLaws A}.
Context (boot_thread : Z) (idle_threads : nat -> Z) {Hlay : Layout boot_thread idle_threads}.

Abbreviation sched := (@sched H A).
Abbreviation queues := (queues idle_threads).
Abbreviation placed := (placed idle_threads).
Abbreviation is_idle := (is_idle idle_threads).
Abbreviation rest := (rest boot_thread idle_threads).
Abbreviation wf := (wf boot_thread idle_threads).
Abbreviation a_move := (a_move idle_threads).
Abbreviation a_pull := (a_pull idle_threads).
Abbreviation a_new := (a_new idle_threads).
Abbreviation a_online := (a_online idle_threads).
Abbreviation handled := (handled boot_thread idle_threads).

Definition two (lo hi : nat) : nat -> bool := nupd (nupd (fun _ => false) lo true) hi true.

(** The state with the locks of [lo] and [hi] taken. *)
Record entered2 (s : sched) (lo hi : nat) (Q : nat -> list Z) (R : nat -> option Z) (L : list Z) (live : gset Z) : Prop := {
  e2_placed : placed s Q R None;
  e2_rest : rest s L live (two lo hi);
  e2_listed : listed s L;
  e2_run c' : R c' = running s c';
}.

(** Leaving with the locks released in the opposite order. *)
Lemma leave2 (op : _ -> _ -> Prop) (s s1 : sched) lo hi Q R L live :
  entered2 s1 lo hi Q R L live -> (lo < 16)%nat -> (hi < 16)%nat -> lo <> hi ->
  op (pool s) (pool s1) ->
  (forall c, min_vruntime (rqs s c) <= min_vruntime (rqs s1 c)) ->
  (forall c, idle (rqs s1 c) = idle (rqs s c)) -> sched_up s1 = sched_up s ->
  handled op s (rq_spin_unlock (rq_spin_unlock s1 hi) lo).
Proof.
  intros [Hp Hr Hl HR] Hlo Hhi Hne Hpool Hmin Hid Hup.
  destruct (rq_unlock_spec _ _ s1 L live (two lo hi) hi Hr Hhi) as (Hr' & Hu & Hi);
    [by unfold two; rewrite nupd_eq|].
  pose proof (unlocked_during _ _ Hu) as Hd.
  eapply (leave _ _ op s (rq_spin_unlock s1 hi) lo Q R L live); [|done| | | |].
  - split.
    + eapply placed_same; [apply Hu|done].
    + eapply rest_ext; [done|]. intros c. unfold two, one, nupd.
      destruct (Nat.eqb_spec c hi) as [->|]; [|done]. by destruct (Nat.eqb_spec hi lo).
    + by eapply listed_same.
    + intros c. by rewrite (running_during s1).
  - by rewrite (d_pool _ _ Hd).
  - intros c. pose proof (d_min _ _ Hd c). specialize (Hmin c). lia.
  - intros c. by rewrite (d_idle _ _ Hd), Hid.
  - by rewrite (d_up _ _ Hd).
Qed.

(** A READY thread is moved from the queue of [src] to that of [dst]. *)
Lemma move_spec (s : sched) Q R c1 c2 t src dst f :
  placed s Q R None -> (src < 16)%nat -> (dst < 16)%nat -> src <> dst -> online s dst -> t ∈ Q src ->
  (forall th, state th = THREAD_READY -> state (f th) = THREAD_READY /\ th_cpu (f th) = th_cpu th /\
     info_of (f th) = info_of th) ->
  c1 = src -> c2 = dst ->
  exists s' l1 l2 k1 k2,
    (s1 ← rq_remove s c1 t; requeue s1 c2 t f) = Some s' /\
    Q src = l1 ++ t :: l2 /\ Q dst = k1 ++ k2 /\
    placed s' (nupd (nupd Q src (l1 ++ l2)) dst (k1 ++ t :: k2)) R None /\
    env_same s s' /\ infos s' = infos s /\
    pool s' = <[t := (THREAD_READY, Z.of_nat dst)]> (pool s).
Proof.
  intros Hp Hsrc Hdst Hne Hon Hin Hf -> ->.
  destruct (q_thr _ _ _ (p_q _ _ _ _ _ Hp) src t Hsrc Hin) as (th & Hth & Hs & Hcpu & Hni).
  destruct (placed_remove _ s Q R src t Hp Hsrc Hin) as (s1 & l1 & l2 & -> & HQ & Ht1 & He1 & Hp1).
  cbn [mbind option_bind]. unfold requeue.
  assert (Hth1 : threads s1 !! t = Some th) by by rewrite Ht1.
  rewrite (th_upd_some s1 _ _ th Hth1). cbn [mbind option_bind].
  match goal with |- context [<[t := f ?x]> _] => set (th0 := x) end.
  destruct (Hf th0 Hs) as (Hs' & Hc' & Hi'). set (s2 := with_threads s1 _).
  assert (Hon1 : online s1 dst) by by apply (env_online _ _ _ He1).
  assert (Hp2 : placed s2 (nupd Q src (l1 ++ l2)) R (Some t)).
  { eapply placed_upd; try done; rewrite ?Hc'; simpl; rewrite ?Nat2Z.id; try done.
    - eapply not_queued; [done|done|]. by right; right.
    - lia.
    - unfold place. rewrite Hs'. by right; right.
    - intros c Hr. destruct (p_run _ _ _ _ _ Hp c t Hr) as (th' & Hth' & ? & _). congruence. }
  destruct (placed_insert _ s2 _ R dst t (f th0) Hp2 Hdst) as (s3 & k1 & k2 & Hins & HQd & Ht3 & He3 & Hp3).
  { apply lookup_insert_eq. } { by rewrite Hc'. }
  rewrite nupd_ne in HQd by done. exists s3, l1, l2, k1, k2. split; [exact Hins|].
  split; [done|]. split; [done|]. split; [done|].
  split; [eapply env_trans; [exact He1|]; eapply env_trans; [apply env_threads|exact He3]|].
  split.
  - unfold infos. rewrite Ht3. simpl. rewrite Ht1. eapply infos_upd; [done|]. by rewrite Hi'.
  - unfold pool. rewrite Ht3. simpl. rewrite fmap_insert, Ht1, Hs', Hc'. done.
Qed.

Lemma moved_entered (s s' : sched) lo hi Q Q' R L live :
  entered2 s lo hi Q R L live -> placed s' Q' R None -> env_same s s' -> infos s' = infos s ->
  entered2 s' lo hi Q' R L live.
Proof.
  intros [Hp Hr Hl HR] Hp' He Hi. split; [done|by eapply rest_same|by eapply listed_same|].
  intros c. rewrite HR. unfold running. by destruct (e_rq _ _ He c) as (_ & -> & -> & _).
Qed.

(** ** sched_migrate *)

Lemma enter2 (s : sched) lo hi :
  wf s -> (lo < 16)%nat -> (hi < 16)%nat -> lo <> hi ->
  exists s1 s2 Q R L live, rq_spin_lock s lo = Some s1 /\ rq_spin_lock s1 hi = Some s2 /\
    entered2 s2 lo hi Q R L live /\ unlocked_same s s1 /\ unlocked_same s1 s2.
Proof.
  intros Hwf Hlo Hhi Hne.
  destruct (enter _ _ s lo Hwf Hlo) as (s1 & Q & R & L & live & Hlk & [Hp Hr Hl HR] & Hu & _).
  destruct (rq_lock_spec _ _ s1 L live _ hi Hr Hhi) as (s2 & Hlk2 & Hr2 & Hu2 & Hi2).
  { unfold one. by rewrite nupd_ne by done. }
  exists s1, s2, Q, R, L, live. split; [done|]. split; [done|]. split; [|done]. split.
  - eapply placed_same; [apply Hu2|done].
  - done.
  - by eapply listed_same.
  - intros c. rewrite HR. symmetry. by apply running_during, unlocked_during.
Qed.

(** The calls of sched_migrate that change nothing. *)
Lemma move_nowhere (s : sched) t cpu :
  wf s -> 0 <= cpu ->
  t = 0 \/ 16 <= cpu \/ ~ online s (Z.to_nat cpu) \/
    (exists th, threads s !! t = Some th /\ th_cpu th = cpu) ->
  handled (a_move t cpu) s s.
Proof.
  intros Hwf Hcpu Hcase. apply handled_refl; [done|]. unfold SchedState.a_move.
  destruct Hcase as [->|[Hbig|[Hoff|(th & Hth & Heq)]]].
  - by rewrite (no_null_thread _ _ s Hwf).
  - destruct (pool s !! t) as [[]|]; [|done]. by rewrite decide_False by lia.
  - destruct (pool s !! t) as [[]|]; [|done]. rewrite decide_False; [done|]. intros [Hlt Hi]. apply Hoff.
    destruct Hwf as (Q & R & L & live & Hp & _). apply (online_pool boot_thread _ s Q R None _ Hp); [lia|done].
  - rewrite (pool_lookup _ _ _ Hth). destruct (decide _); [|done]. symmetry. apply insert_id.
    by rewrite (pool_lookup _ _ _ Hth), Heq.
Qed.

Lemma sched_migrate_spec (s : sched) t cpu :
  wf s -> 0 <= cpu ->
  (t <> 0 -> exists th, threads s !! t = Some th /\ state th <> THREAD_RUNNING /\ ~ is_idle t) ->
  exists s', sched_migrate s t cpu = Some s' /\ handled (a_move t cpu) s s'.
Proof.
  intros Hwf Hcpu Ht. unfold sched_migrate. pose proof (move_nowhere s t cpu Hwf Hcpu) as Hstay.
  destruct (Z.eqb_spec t 0) as [->|Ht0]; [exists s; split; [done|]; apply Hstay; by left|]. cbn [orb].
  destruct (Z.leb_spec (Z.of_nat SCHED_MAX_CPUS) cpu) as [|Hlt];
    [exists s; split; [done|]; apply Hstay; right; by left|].
  unfold SCHED_MAX_CPUS in Hlt. cbn [orb]. set (dst := Z.to_nat cpu) in *.
  destruct (Z.eqb_spec (idle (rqs s dst)) 0) as [Hi0|Hon].
  { exists s. split; [done|]. apply Hstay. right; right; left. intros Ho. by apply Ho. }
  destruct (Ht Ht0) as (th & Hth & Hrun & Hni). rewrite Hth. cbn [mbind option_bind].
  set (src := Z.to_nat (th_cpu th)).
  assert (Hsrc : (src < 16)%nat /\ th_cpu th = Z.of_nat src).
  { destruct Hwf as (Q & R & L & live & Hp & _). destruct (p_thr _ _ _ _ _ Hp t th Hth) as (_ & ? & _). lia. }
  destruct Hsrc as [Hsrc Hthc].
  destruct (Nat.eqb_spec src dst) as [Heq|Hne].
  { exists s. split; [done|]. apply Hstay. right; right; right. exists th. split; [done|]. lia. }
  assert (Hdst : (dst < 16)%nat) by lia.
  assert (Hmove : forall st, pool s !! t = Some (st, th_cpu th) -> a_move t cpu (pool s) (<[t := (st, cpu)]> (pool s))).
  { intros st Hst. unfold SchedState.a_move. rewrite Hst, decide_True; [done|]. split; [lia|].
    destruct Hwf as (Q & R & L & live & Hp & _). by apply (online_pool boot_thread _ s Q R None _ Hp). }
  set (lo := if (src <? dst)%nat then src else dst). set (hi := if (src <? dst)%nat then dst else src).
  assert (Hlh : (lo < 16)%nat /\ (hi < 16)%nat /\ lo <> hi) by (subst lo hi; destruct (src <? dst)%nat; lia).
  destruct Hlh as (Hlo & Hhi & Hlh).
  destruct (enter2 s lo hi Hwf Hlo Hhi Hlh) as (s1 & s2 & Q & R & L & live & -> & Hlk2 & He & Hu1 & Hu2).
  cbn [mbind option_bind]. rewrite Hlk2. cbn [mbind option_bind].
  assert (Hd : during s s2) by (eapply during_trans; by apply unlocked_during).
  assert (Hth2 : threads s2 !! t = Some th) by by rewrite (u_threads _ _ Hu2), (u_threads _ _ Hu1).
  assert (Hon2 : online s2 dst) by (unfold online; by rewrite (d_idle _ _ Hd)).
  rewrite Hth2. cbn [mbind option_bind]. pose proof He as [Hp Hr Hl HR].
  destruct (p_thr _ _ _ _ _ Hp t th Hth2) as (Hpl & _ & _ & _). unfold place in Hpl.
  assert (Hpt : pool s2 !! t = Some (state th, th_cpu th)) by by apply pool_lookup.
  destruct (decide (state th = THREAD_READY)) as [Hs|Hs].
  - rewrite bool_decide_eq_true_2 by done. rewrite Hs in Hpl.
    assert (Hin : t ∈ Q src) by naive_solver.
    destruct (move_spec s2 Q R src dst t src dst (fun th => th)) as (s3 & l1 & l2 & k1 & k2 & Hmv & _ & _ & Hp3 & He3 & Hi3 & Hpool3);
      try done. rewrite Hmv. cbn [mbind option_bind]. eexists. split; [done|].
    eapply leave2; try done; [by eapply moved_entered| | | |].
    + rewrite Hpool3, (d_pool _ _ Hd) in *. replace (Z.of_nat dst) with cpu by lia. apply Hmove. by rewrite Hpt, Hs.
    + intros c. pose proof (d_min _ _ Hd c). pose proof (e_min _ _ He3 c). lia.
    + intros c. destruct (e_rq _ _ He3 c) as (_ & _ & -> & _). apply Hd.
    + rewrite (e_up _ _ He3). apply Hd.
  - rewrite bool_decide_eq_false_2 by done.
    rewrite (th_upd_some s2 _ _ th Hth2). cbn [mbind option_bind]. eexists. split; [done|].
    set (s3 := with_threads s2 _).
    assert (Hp3 : placed s3 Q R None).
    { eapply placed_upd; try done; simpl; fold dst; try done.
      - eapply not_queued; [done|done|by left].
      - unfold place. simpl. destruct (state th); try done.
      - intros c Hrc. destruct (p_run _ _ _ _ _ Hp c t Hrc) as (th' & Hth' & ? & _). congruence. }
    assert (Hi3 : infos s3 = infos s2) by by eapply infos_upd.
    eapply leave2; try apply Hd; try done; [eapply moved_entered; try done; apply env_threads|].
    rewrite (d_pool _ _ Hd) in Hpt. replace (pool s3) with (<[t := (state th, cpu)]> (pool s)); [by apply Hmove|].
    rewrite <- (d_pool _ _ Hd). unfold pool at 2. simpl. by rewrite fmap_insert.
Qed.

(** ** load_balance *)

(** [src] is a busiest online CPU other than [dst] among [cpus], and has more
    than [m] queued threads. *)
Lemma busiest_spec (s : sched) dst cpus src m :
  match busiest cpus s dst src m with
  | None => src = None /\ forall i, i ∈ cpus -> i <> dst -> online s i -> nr_running (rqs s i) <= m
  | Some b =>
      (Some b = src /\ (forall i, i ∈ cpus -> i <> dst -> online s i -> nr_running (rqs s i) <= m)) \/
      (b ∈ cpus /\ b <> dst /\ online s b /\ m < nr_running (rqs s b) /\
       forall i, i ∈ cpus -> i <> dst -> online s i -> nr_running (rqs s i) <= nr_running (rqs s b))
  end.
Proof.
  revert src m. induction cpus as [|i cpus IH]; intros src m; simpl.
  { destruct src; [left|]; (split; [done|set_solver]). }
  destruct (Nat.eqb_spec i dst) as [->|Hid]; cbn [orb].
  { specialize (IH src m). destruct (busiest cpus s dst src m) as [b|]; [|set_solver].
    destruct IH as [?|?]; [left|right]; set_solver. }
  destruct (Z.eqb_spec (idle (rqs s i)) 0) as [Hoff|Hon].
  { assert (Hno : ~ online s i) by (unfold online; tauto).
    specialize (IH src m). destruct (busiest cpus s dst src m) as [b|]; [|set_solver].
    destruct IH as [?|?]; [left|right]; set_solver. }
  destruct (Z.ltb_spec m (nr_running (rqs s i))) as [Hlt|Hge].
  - specialize (IH (Some i) (nr_running (rqs s i))).
    destruct (busiest cpus s dst (Some i) _) as [b|]; [|naive_solver]. right.
    destruct IH as [([= ->] & Hall)|(Hb & Hbd & Hbo & Hbm & Hall)].
    + split_and!; try done; [set_solver|]. intros j [->|Hj]%elem_of_cons; [lia|auto].
    + split_and!; try done; [set_solver|lia|]. intros j [->|Hj]%elem_of_cons; [lia|auto].
  - specialize (IH src m). destruct (busiest cpus s dst src m) as [b|].
    + destruct IH as [(? & Hall)|(Hb & Hbd & Hbo & Hbm & Hall)]; [left|right].
      * split; [done|]. intros j [->|Hj]%elem_of_cons; [done|auto].
      * split_and!; try done; [set_solver|]. intros j [->|Hj]%elem_of_cons; [lia|auto].
    + destruct IH as [? Hall]. split; [done|]. intros j [->|Hj]%elem_of_cons; [done|auto].
Qed.

(** The last of a queue of two or more threads, and another one. *)
Lemma queue_pair (s : sched) Q src l t :
  queues s Q -> (src < 16)%nat -> Q src = l ++ [t] -> 1 < Z.of_nat (length (Q src)) ->
  exists t', t <> t' /\ ~ is_idle t /\ ~ is_idle t' /\
    pool s !! t = Some (THREAD_READY, Z.of_nat src) /\ pool s !! t' = Some (THREAD_READY, Z.of_nat src).
Proof.
  intros Hq Hsrc HQ Hlen. pose proof (queue_nodup _ Hq src Hsrc) as Hnd.
  assert (Hin : forall x, x ∈ Q src -> ~ is_idle x /\ pool s !! x = Some (THREAD_READY, Z.of_nat src)).
  { intros x Hx. destruct (q_thr _ _ _ Hq src x Hsrc Hx) as (th & Hth & <- & <- & ?).
    split; [done|]. by apply pool_lookup. }
  rewrite HQ in *. rewrite length_app in Hlen. destruct l as [|t' l]; simpl in *; [lia|].
  destruct (Hin t) as [??]; [set_solver|]. destruct (Hin t') as [??]; [set_solver|].
  exists t'. split; [|done]. intros <-. apply NoDup_cons in Hnd as [Hnd _]. set_solver.
Qed.

Lemma try_enter2 (s : sched) lo hi :
  wf s -> (lo < 16)%nat -> (hi < 16)%nat -> lo <> hi ->
  exists l1 l2, let s1 := rq_upd s lo (rq_set_lock l1) in let s2 := rq_upd s1 hi (rq_set_lock l2) in
    spin_trylock (rq_lock (rqs s lo)) = (true, l1) /\ spin_trylock (rq_lock (rqs s1 hi)) = (true, l2) /\
    unlocked_same s s1 /\ unlocked_same s1 s2 /\
    exists Q R L live, entered2 s2 lo hi Q R L live.
Proof.
  intros (Q & R & L & live & Hp & Hr & Hl & HR) Hlo Hhi Hne.
  destruct (spin_trylock_held _ (r_lock _ _ _ _ _ _ Hr lo Hlo)) as (l1 & Htl1 & Hh1).
  pose proof (rest_set_lock _ _ s L live _ lo (fun _ => l1) true Hr Hh1) as Hr1.
  pose proof (r_lock _ _ _ _ _ _ Hr1 hi Hhi) as Hl1. rewrite nupd_ne in Hl1 by done.
  destruct (spin_trylock_held _ Hl1) as (l2 & Htl2 & Hh2).
  pose proof (rest_set_lock _ _ _ L live _ hi (fun _ => l2) true Hr1 Hh2) as Hr2.
  pose proof (set_lock_same s lo (fun _ => l1)) as Hu1.
  pose proof (set_lock_same (rq_upd s lo (rq_set_lock l1)) hi (fun _ => l2)) as Hu2.
  exists l1, l2. cbv zeta. split; [done|]. split; [done|]. split; [done|]. split; [done|].
  exists Q, R, L, live. split.
  - eapply placed_same; [apply Hu2|]. eapply placed_same; [apply Hu1|done].
  - exact Hr2.
  - done.
  - intros c. rewrite HR. symmetry.
    etransitivity; [exact (running_during _ _ c (unlocked_during _ _ Hu2))|].
    exact (running_during _ _ c (unlocked_during _ _ Hu1)).
Qed.

(** Balancing towards [dst] does nothing, or moves one thread from a busiest
    CPU. *)
Definition balanced (s s' : sched) (dst : nat) : Prop :=
  (s' = s /\ forall i, (i < 16)%nat -> i <> dst -> online s i -> nr_running (rqs s i) <= 1) \/
  exists src, (src < 16)%nat /\ src <> dst /\ online s src /\ 1 < nr_running (rqs s src) /\
    (forall i, (i < 16)%nat -> i <> dst -> online s i -> nr_running (rqs s i) <= nr_running (rqs s src)) /\
    nr_running (rqs s' src) = nr_running (rqs s src) - 1 /\
    nr_running (rqs s' dst) = nr_running (rqs s dst) + 1 /\
    forall c, (c < 16)%nat -> c <> src -> c <> dst -> nr_running (rqs s' c) = nr_running (rqs s c).

Lemma load_balance_spec (s : sched) dst :
  wf s -> (dst < 16)%nat -> online s dst ->
  exists s', load_balance s dst = Some s' /\ handled (a_pull dst) s s' /\ balanced s s' dst.
Proof.
  intros Hwf Hdst Hon. unfold load_balance.
  assert (Hin16 : forall i, (i < 16)%nat -> i ∈ seq 0 SCHED_MAX_CPUS).
  { intros i Hi. apply elem_of_seq. unfold SCHED_MAX_CPUS. lia. }
  pose proof (busiest_spec s dst (seq 0 SCHED_MAX_CPUS) None 1) as Hb.
  destruct (busiest _ s dst None 1) as [src|].
  2: { destruct Hb as [_ Hall]. exists s. split; [done|]. split; [by apply handled_refl; [|left]|]. left. auto. }
  destruct Hb as [[? _]|(Hsrc & Hne & Hons & Hnr & Hmax)]; [done|]. pose proof Hnr as Hnr0.
  apply elem_of_seq in Hsrc. assert (Hs16 : (src < 16)%nat) by (unfold SCHED_MAX_CPUS in Hsrc; lia).
  set (lo := if (dst <? src)%nat then dst else src). set (hi := if (dst <? src)%nat then src else dst).
  assert (Hlh : (lo < 16)%nat /\ (hi < 16)%nat /\ lo <> hi) by (subst lo hi; destruct (dst <? src)%nat; lia).
  destruct Hlh as (Hlo & Hhi & Hlh).
  destruct (try_enter2 s lo hi Hwf Hlo Hhi Hlh) as (l1 & l2 & Htl1 & Htl2 & Hu1 & Hu2 & Q & R & L & live & He).
  rewrite Htl1. cbn [negb]. rewrite Htl2. cbn [negb]. set (s2 := rq_upd _ hi _) in *.
  assert (Hd : during s s2) by (eapply during_trans; by apply unlocked_during).
  assert (Hnrs : forall c, nr_running (rqs s2 c) = nr_running (rqs s c)).
  { intros c. destruct (u_place _ _ Hu2) as (_ & _ & Hx), (u_place _ _ Hu1) as (_ & _ & Hy).
    destruct (Hx c) as (_ & -> & _). by destruct (Hy c) as (_ & -> & _). }
  pose proof He as [Hp Hr Hl HR]. pose proof (p_q _ _ _ _ _ Hp) as Hq.
  rewrite Hnrs, (proj2 (Z.ltb_lt _ _) Hnr).
  rewrite (ot_last_law _ _ _ (q_rep _ _ _ Hq src Hs16)). cbn [mbind option_bind].
  rewrite <- Hnrs, (q_nr _ _ _ Hq src Hs16) in Hnr.
  destruct (exists_last (l := Q src)) as (l0 & t & HQs); [intros Hnil; rewrite Hnil in Hnr; done|].
  assert (Hin : t ∈ Q src) by (rewrite HQs; set_solver).
  rewrite HQs, fmap_app. cbn [fmap list_fmap]. rewrite List.last_last.
  destruct (ot_rep_cell _ _ _ (rb_of t) (q_rep _ _ _ Hq src Hs16)) as (_ & _ & Hn0); [by apply elem_rb_of|].
  rewrite (proj2 (Z.eqb_neq _ _) Hn0), rb_of_entry.
  destruct (move_spec s2 Q R src dst t src dst (set_state THREAD_READY))
    as (s3 & a1 & a2 & k1 & k2 & Hmv & HQ1 & HQ2 & Hp3 & He3 & Hi3 & Hpool3); try done.
  { unfold online. by rewrite (d_idle _ _ Hd). }
  { intros th Hs. split; [done|]. split; [done|]. unfold info_of. simpl. by rewrite Hs. }
  rewrite Hmv. cbn [mbind option_bind]. eexists. split; [done|]. split.
  - eapply leave2; try done; [by eapply moved_entered| | | |].
    + rewrite Hpool3, <- (d_pool _ _ Hd). right.
      destruct (queue_pair s2 Q src l0 t Hq Hs16 HQs Hnr) as (t' & ? & ? & ? & ? & ?).
      exists t, t', (Z.of_nat src). split; [done|]. split; [lia|]. done.
    + intros c. pose proof (d_min _ _ Hd c). pose proof (e_min _ _ He3 c). lia.
    + intros c. destruct (e_rq _ _ He3 c) as (_ & _ & -> & _). apply Hd.
    + rewrite (e_up _ _ He3). apply Hd.
  - set (s4 := rq_spin_unlock _ lo).
    assert (Hnr4 : forall c, nr_running (rqs s4 c) = nr_running (rqs s3 c)).
    { intros c. simpl. unfold nupd. destruct (Nat.eqb_spec c lo) as [->|]; simpl;
        [destruct (Nat.eqb_spec lo hi) as [->|]|destruct (Nat.eqb_spec c hi) as [->|]]; done. }
    pose proof (p_q _ _ _ _ _ Hp3) as Hq3.
    assert (Hlen : forall c, (c < 16)%nat -> nr_running (rqs s4 c) =
      Z.of_nat (length (nupd (nupd Q src (a1 ++ a2)) dst (k1 ++ t :: k2) c))).
    { intros c Hc. by rewrite Hnr4, (q_nr _ _ _ Hq3). }
    right. exists src. split; [done|]. split; [done|]. split; [done|]. split; [done|]. split; [auto|]. split_and!.
    + rewrite Hlen by done. rewrite nupd_ne, nupd_eq by done. rewrite <- Hnrs, (q_nr _ _ _ Hq) by done.
      rewrite HQ1, !length_app. simpl. lia.
    + rewrite Hlen by done. rewrite nupd_eq. rewrite <- Hnrs, (q_nr _ _ _ Hq) by done.
      rewrite HQ2, !length_app. simpl. lia.
    + intros c Hc Hc1 Hc2. rewrite Hlen by done. rewrite !nupd_ne by done.
      by rewrite <- Hnrs, (q_nr _ _ _ Hq).
Qed.
End migrate.

(** * Creating threads and bringing CPUs up

    sched_thread_create, sched_init and sched_ap_init. *)

Section life.
Context {H A : Type} `{OrdTreeLaws H} `{AllocatorLaws A}.
Context (boot_thread : Z) (idle_threads : nat -> Z) {Hlay : Layout boot_thread idle_threads}.
Context (sched_thread_enter : Z).

Abbreviation sched := (@sched H A).
Abbreviation queues := (queues idle_threads).
Abbreviation placed := (placed idle_threads).
Abbreviation is_idle := (is_idle idle_threads).
Abbreviation rest := (rest boot_thread idle_threads).
Abbreviation static := (static boot_thread idle_threads).
Abbreviation wf := (wf boot_thread idle_threads).
Abbreviation a_move := (a_move idle_threads).
Abbreviation a_pull := (a_pull idle_threads).
Abbreviation a_new := (a_new idle_threads).
Abbreviation a_online := (a_online idle_threads).
Abbreviation handled := (handled boot_thread idle_threads).

Lemma static_not_live (s : sched) L live held t :
  rest s L live held -> al_pool t -> t ∉ live -> infos s !! t = None.
Proof.
  intros Hr Hpool Hnl. destruct (infos s !! t) as [i|] eqn:Hi; [|done].
  destruct (r_thr _ _ _ _ _ _ Hr t i Hi) as [_ [[_ Hst]|(_ & ? & _)]]; [|done].
  by destruct (lay_static (boot_thread := boot_thread) (idle_threads := idle_threads) t Hst) as (_ & ? & _).
Qed.

Lemma rest_alloc (s : sched) L live held h p :
  rest s L live held -> al_inv h ({[p]} ∪ live) -> al_pool p -> p ∉ live ->
  rest (with_heap s h) L ({[p]} ∪ live) held.
Proof.
  intros Hr Hinv Hpool Hnl. split; try apply Hr; try done.
  - intros x [->%elem_of_singleton|?]%elem_of_union; [done|by apply (r_pool _ _ _ _ _ _ Hr)].
  - intros t i Hi. destruct (r_thr _ _ _ _ _ _ Hr t i Hi) as [? [?|(? & ? & ? & ?)]]; (split; [done|]);
      [by left|right; set_solver].
  - intros t1 i1 t2 i2 Hi1 Hi2 Hk. destruct (r_kst _ _ _ _ _ _ Hr t1 i1 t2 i2 Hi1 Hi2 Hk) as [Hx Hy].
    split; [|done]. intros [->%elem_of_singleton|?]%elem_of_union; [|auto].
    pose proof (static_not_live s L live held p Hr Hpool Hnl) as Hno. unfold infos in *. simpl in *. congruence.
Qed.

Lemma rest_heap (s : sched) L live held h :
  rest s L live held -> al_inv h live -> rest (with_heap s h) L live held.
Proof. intros Hr Hinv. split; try apply Hr; done. Qed.

(** A thread structure on two fresh blocks. *)
Lemma rest_new (s : sched) L live held t k th :
  rest s L ({[t]} ∪ ({[k]} ∪ live)) held -> threads s !! t = None -> t <> 0 -> al_pool t ->
  k ∉ live -> t ∉ {[k]} ∪ live -> kstack_base th = k -> k <> 0 -> state th <> THREAD_ZOMBIE ->
  (forall x i, infos s !! x = Some i -> i_kstack i <> 0 -> x ∈ live /\ i_kstack i ∈ live) ->
  (forall x, x ∈ dom (threads s) -> x <> k) ->
  rest (with_nodes (start_frame s t th) (ot_new (nodes s) (rb_of t))) L ({[t]} ∪ ({[k]} ∪ live)) held.
Proof.
  intros Hr Hnone Ht0 Hpool Hk Htn Hthk Hk0 Hz Hold Hdk.
  assert (Hinf : infos (with_nodes (start_frame s t th) (ot_new (nodes s) (rb_of t))) =
                 <[t := info_of th]> (infos s)) by (unfold infos; simpl; apply fmap_insert).
  assert (Hno : infos s !! t = None) by (unfold infos; by rewrite lookup_fmap, Hnone).
  split; try apply Hr; rewrite ?Hinf.
  - eapply tchain_ext; [|apply (r_list _ _ _ _ _ _ Hr)]. intros x Hx. rewrite lookup_insert_ne; [done|].
    intros <-. destruct (tchain_dom _ _ _ _ (r_list _ _ _ _ _ _ Hr) Hx) as [i Hi]. congruence.
  - intros x i. destruct (decide (x = t)) as [->|Hne].
    + rewrite lookup_insert_eq. intros [= <-]. split; [done|]. right. simpl. rewrite Hthk. set_solver.
    + rewrite lookup_insert_ne by done. apply (r_thr _ _ _ _ _ _ Hr).
  - intros t1 i1 t2 i2. destruct (decide (t1 = t)) as [->|H1n], (decide (t2 = t)) as [->|H2n];
      rewrite ?lookup_insert_eq, ?lookup_insert_ne by done.
    + intros [= <-] [= <-] _. simpl. rewrite Hthk. split; [|done]. intros _ ->. set_solver.
    + intros [= <-] Hi2 _. simpl. rewrite Hthk. split.
      * intros _ Heq. destruct (infos_inv _ _ _ Hi2) as (th2 & Hth2 & _).
        apply (Hdk t2); [by eapply elem_of_dom_2|done].
      * intros Heq. destruct (Hold t2 i2 Hi2) as [_ Hin]; [congruence|]. by rewrite <- Heq in Hin.
    + intros Hi1 [= <-] Hk1. destruct (Hold t1 i1 Hi1 Hk1) as [_ Hin]. simpl. rewrite Hthk. split.
      * intros _ Heq. rewrite Heq in Hin. set_solver.
      * intros Heq. by rewrite Heq in Hin.
    + intros Hi1 Hi2 Hk1. by apply (r_kst _ _ _ _ _ _ Hr).
  - intros c Hc Hco. destruct (r_corpse _ _ _ _ _ _ Hr c Hc Hco) as (i & Hi & Hre). exists i. split; [|done].
    rewrite lookup_insert_ne; [done|]. intros Heq. simpl in *. congruence.
  - intros x c Hx. simpl in Hx. apply lookup_delete_Some in Hx as [_ Hx]. by eapply (r_resume _ _ _ _ _ _ Hr).
Qed.

(** [least_loaded] finds an online CPU with the shortest queue. *)
Lemma least_loaded_spec (s : sched) cpus best m :
  match least_loaded cpus s best m with
  | None => best = None /\ forall i, i ∈ cpus -> online s i -> m <= nr_running (rqs s i)
  | Some b =>
      (Some b = best /\ (forall i, i ∈ cpus -> online s i -> m <= nr_running (rqs s i))) \/
      (b ∈ cpus /\ online s b /\ nr_running (rqs s b) < m /\
       forall i, i ∈ cpus -> online s i -> nr_running (rqs s b) <= nr_running (rqs s i))
  end.
Proof.
  revert best m. induction cpus as [|i cpus IH]; intros best m; simpl.
  { destruct best; [left|]; (split; [done|set_solver]). }
  destruct (Z.eqb_spec (idle (rqs s i)) 0) as [Hoff|Hon].
  { assert (Hno : ~ online s i) by (unfold online; tauto).
    specialize (IH best m). destruct (least_loaded cpus s best m) as [b|]; [|set_solver].
    destruct IH as [?|?]; [left|right]; set_solver. }
  destruct (Z.ltb_spec (nr_running (rqs s i)) m) as [Hlt|Hge].
  - specialize (IH (Some i) (nr_running (rqs s i))).
    destruct (least_loaded cpus s (Some i) _) as [b|]; [|naive_solver]. right.
    destruct IH as [([= ->] & Hall)|(Hb & Hbo & Hbm & Hall)].
    + split_and!; try done; [set_solver|]. intros j [->|Hj]%elem_of_cons; [lia|auto].
    + split_and!; try done; [set_solver|lia|]. intros j [->|Hj]%elem_of_cons; [lia|auto].
  - specialize (IH best m). destruct (least_loaded cpus s best m) as [b|].
    + destruct IH as [(? & Hall)|(Hb & Hbo & Hbm & Hall)]; [left|right].
      * split; [done|]. intros j [->|Hj]%elem_of_cons; [done|auto].
      * split_and!; try done; [set_solver|]. intros j [->|Hj]%elem_of_cons; [lia|auto].
    + destruct IH as [? Hall]. split; [done|]. intros j [->|Hj]%elem_of_cons; [done|auto].
Qed.

Abbreviation sched_thread_create := (sched_thread_create sched_thread_enter).

Lemma wf_heap (s : sched) Q R L live h :
  placed s Q R None -> rest s L live (fun _ => false) -> listed s L -> (forall c, R c = running s c) ->
  al_inv h live -> handled a_none s (with_heap s h).
Proof.
  intros Hp Hr Hl HR Hinv. split; try done. exists Q, R, L, live.
  split; [by eapply (placed_same _ s)|]. split; [by apply rest_heap|]. done.
Qed.

(** The new thread once its memory is there: it goes to the CPU [c] and then
    to the list. *)
Lemma start_thread (s : sched) Q R L live c t th :
  placed s Q R (Some t) -> rest s L live (fun _ => false) ->
  (forall x, x ∈ L <-> x <> t /\ exists i, infos s !! x = Some i /\ ~ reapable i) ->
  (forall c', R c' = running s c') -> (c < 16)%nat -> online s c ->
  threads s !! t = Some th -> th_cpu th = Z.of_nat c -> state th = THREAD_READY ->
  exists s', (s1 ← rq_spin_lock s c; s1 ← enqueue s1 c t; tlist_add (rq_spin_unlock s1 c) t) = Some s' /\
    wf s' /\ pool s' = pool s /\
    (forall c, min_vruntime (rqs s c) <= min_vruntime (rqs s' c)) /\
    (forall c, idle (rqs s' c) = idle (rqs s c)) /\ sched_up s' = sched_up s.
Proof.
  intros Hp Hr Hl HR Hc Hon Hth Hcpu Hs.
  destruct (rq_lock_spec _ _ s L live _ c Hr Hc eq_refl) as (s1 & -> & Hr1 & Hu1 & Hi1).
  cbn [mbind option_bind]. pose proof (unlocked_during _ _ Hu1) as Hd1.
  assert (Hp1 : placed s1 Q R (Some t)) by (eapply placed_same; [apply Hu1|done]).
  assert (Hth1 : threads s1 !! t = Some th) by by rewrite (u_threads _ _ Hu1).
  assert (Hon1 : online s1 c) by by apply (unlocked_online _ _ _ Hu1).
  assert (HR1 : forall c', R c' = running s1 c') by (intros c'; by rewrite (running_during s s1)).
  destruct (enqueue_spec _ s1 Q R c t th (p_q _ _ _ _ _ Hp1) Hc Hth1 Hcpu) as (s2 & l1 & l2 & -> & HQ & Ht2 & He2 & Hp2).
  { by eapply online_cur_ok. }
  { intros th' Hs' Hc'. destruct (p_thr _ _ _ _ _ Hp1 t th Hth1) as (_ & Hrg & Hon' & Hi').
    destruct (p_extra _ _ _ _ _ Hp1 t eq_refl) as (_ & _ & _ & Hni & _).
    eapply placed_upd; try done; rewrite ?Hc'; try done.
    - eapply not_queued; [done|done|]. by right; right.
    - unfold place. rewrite Hs'. by right; right.
    - intros c' Hrc. destruct (p_run _ _ _ _ _ Hp1 c' t Hrc) as (th0 & Hth0 & ? & _). congruence. }
  cbn [mbind option_bind].
  assert (Hi2 : infos s2 = infos s1).
  { unfold infos. rewrite Ht2. eapply infos_upd; [done|]. unfold info_of. simpl. by rewrite Hs. }
  assert (Hr2 : rest s2 L live (one c)) by by eapply rest_same.
  destruct (rq_unlock_spec _ _ s2 L live _ c Hr2 Hc) as (Hr3 & Hu3 & Hi3); [by unfold one; rewrite nupd_eq|].
  set (s3 := rq_spin_unlock s2 c) in *. pose proof (unlocked_during _ _ Hu3) as Hd3.
  assert (Hr3' : rest s3 L live (fun _ => false)).
  { eapply rest_ext; [done|]. intros c'. unfold one, nupd. by destruct (Nat.eqb_spec c' c). }
  assert (Hinf : infos s3 = infos s) by (rewrite Hi3, Hi2; exact Hi1).
  assert (Hth3 : threads s3 !! t = Some (enqueued (min_vruntime (rqs s2 c)) th)).
  { rewrite (u_threads _ _ Hu3), Ht2. apply lookup_insert_eq. }
  destruct (tlist_add_spec _ _ s3 L live _ t _ Hr3' Hth3) as (s4 & l & -> & -> & Hr4 & Hu4).
  { rewrite Hl. tauto. }
  assert (Hpool3 : pool s3 = pool s).
  { rewrite (d_pool _ _ Hd3). unfold pool. rewrite Ht2, fmap_insert. simpl. rewrite Hcpu.
    change (_ <$> threads s1) with (pool s1). rewrite (d_pool _ _ Hd1). apply insert_id.
    rewrite <- Hs, <- Hcpu. by apply pool_lookup. }
  assert (Hcur : forall c', running s3 c' = running s c').
  { intros c'. rewrite (running_during s2 s3), <- HR by done. rewrite HR1. unfold running.
    by destruct (e_rq _ _ He2 c') as (_ & -> & -> & _). }
  eexists. split; [done|]. split; [|split; [|split; [|split]]].
  - eexists _, R, (t :: L), live. split.
    { eapply placed_relink; [eapply placed_same; [apply Hu3|exact Hp2]|]. right. eauto. }
    split; [done|]. split; [|intros c'; rewrite HR; symmetry; apply Hcur].
    intros x. rewrite elem_of_cons, Hl. specialize (Hu4 x). rewrite Hinf in Hu4. split.
    + intros Hx. assert (exists i, infos s !! x = Some i /\ ~ reapable i) as (i & Hi & Hnr).
      { destruct Hx as [->|[_ ?]]; [|done]. exists (info_of th). split; [by apply infos_lookup|].
        intros [Hz _]. apply bool_decide_eq_true in Hz. congruence. }
      rewrite Hi in Hu4. destruct (infos _ !! x) as [i'|] in Hu4 |- *; [|done]. injection Hu4 as Hk Hz.
      exists i'. split; [done|]. intros [? ?]. apply Hnr. split; congruence.
    + intros (i' & Hi' & Hnr). destruct (decide (x = t)) as [->|Hne]; [by left|right]. split; [done|].
      rewrite Hi' in Hu4. destruct (infos s !! x) as [i|]; [|done]. injection Hu4 as Hk Hz.
      exists i. split; [done|]. intros [? ?]. apply Hnr. split; congruence.
  - rewrite <- Hpool3. apply (pool_relink s3). right. eauto.
  - intros c'. change (min_vruntime (rqs s c') <= min_vruntime (rqs s3 c')).
    pose proof (d_min _ _ Hd1 c'). pose proof (e_min _ _ He2 c'). pose proof (d_min _ _ Hd3 c'). lia.
  - intros c'. change (idle (rqs s3 c') = idle (rqs s c')). rewrite (d_idle _ _ Hd3).
    destruct (e_rq _ _ He2 c') as (_ & _ & -> & _). apply Hd1.
  - change (sched_up s3 = sched_up s). rewrite (d_up _ _ Hd3), (e_up _ _ He2). apply Hd1.
Qed.

(** The CPU sched_thread_create chooses. *)
Definition shortest (s : sched) (b : nat) : Prop :=
  (b < 16)%nat /\ online s b /\
  forall i, (i < 16)%nat -> online s i -> nr_running (rqs s b) <= nr_running (rqs s i).

Lemma best_cpu_spec (s : sched) Q c0 :
  queues s Q -> (c0 < 16)%nat -> online s c0 ->
  exists b, least_loaded (seq 0 SCHED_MAX_CPUS) s None UINT32_MAX = Some b /\ shortest s b.
Proof.
  intros Hq Hc0 Hon. pose proof (least_loaded_spec s (seq 0 SCHED_MAX_CPUS) None UINT32_MAX) as Hb.
  assert (Hin : forall i, (i < 16)%nat -> i ∈ seq 0 SCHED_MAX_CPUS).
  { intros i Hi. apply elem_of_seq. unfold SCHED_MAX_CPUS. lia. }
  destruct (least_loaded _ s None UINT32_MAX) as [b|].
  - destruct Hb as [[? _]|(Hb & Hbo & _ & Hall)]; [done|]. exists b. split; [done|].
    apply elem_of_seq in Hb. unfold SCHED_MAX_CPUS in Hb. split; [lia|]. split; [done|]. auto.
  - destruct Hb as [_ Hall]. specialize (Hall c0 (Hin c0 Hc0) Hon).
    rewrite (q_nr _ _ _ Hq c0 Hc0) in Hall. pose proof (queue_length _ Hq c0 Hc0).
    pose proof (q_size _ _ _ Hq). lia.
Qed.

Lemma least_loaded_rqs (s s' : sched) cpus b m :
  rqs s' = rqs s -> least_loaded cpus s' b m = least_loaded cpus s b m.
Proof.
  intros Hq. revert b m. induction cpus as [|i cpus IH]; intros b m; simpl; [done|]. by rewrite Hq, !IH.
Qed.

Lemma emit_wf (s : sched) e : wf s -> wf (emit s e).
Proof. intros Hwf. apply (h_wf _ _ a_none s), emit_handled. by apply handled_refl. Qed.

Lemma sched_thread_create_spec (s : sched) cpu name fn arg w c0 :
  wf s -> (c0 < 16)%nat -> online s c0 -> Z.of_nat (size (threads s)) + 1 < UINT32_MAX ->
  exists s' t, sched_thread_create s cpu name fn arg w = Some (s', t) /\ handled a_new s s' /\
    (t <> 0 -> exists b, shortest s b /\ pool s !! t = None /\
       pool s' = <[t := (THREAD_READY, Z.of_nat b)]> (pool s)).
Proof.
  intros Hwf Hc0 Hon Hsz. pose proof Hwf as (Q & R & L & live & Hp & Hr & Hl & HR).
  unfold Sched.sched_thread_create.
  destruct (al_alloc_law _ _ SCHED_KSTACK_SIZE (r_heap _ _ _ _ _ _ Hr)) as (h1 & k & Ha1 & Ho1);
    [unfold SCHED_KSTACK_SIZE; lia|]. rewrite Ha1. cbn [mbind option_bind].
  destruct Ho1 as [[-> Hinv1]|(Hk0 & _ & Hkp & Hkn & Hinv1)].
  { exists (with_heap s h1), 0. split; [done|]. split; [|done].
    eapply handled_mono; [by eapply wf_heap|by left]. }
  rewrite (proj2 (Z.eqb_neq _ _) Hk0). cbn [heap with_heap].
  destruct (al_alloc_law _ _ THREAD_SIZE Hinv1) as (h2 & t & Ha2 & Ho2); [unfold THREAD_SIZE; lia|].
  rewrite Ha2. cbn [mbind option_bind].
  destruct Ho2 as [[-> Hinv2]|(Ht0 & Hte & Htp & Htn & Hinv2)].
  { cbn [Z.eqb heap with_heap]. destruct (al_free_law _ _ k Hinv2) as (h3 & -> & Hinv3); [set_solver|].
    cbn [mbind option_bind]. eexists _, 0. split; [done|]. split; [|done].
    replace (({[k]} ∪ live) ∖ {[k]}) with live in Hinv3 by set_solver.
    eapply handled_mono; [exact (wf_heap s Q R L live h3 Hp Hr Hl HR Hinv3)|by left]. }
  rewrite (proj2 (Z.eqb_neq _ _) Ht0). unfold alloc_tid. cbn [next_tid with_heap].
  destruct (best_cpu_spec s Q c0 (p_q _ _ _ _ _ Hp) Hc0 Hon) as (b & Hb & Hsh).
  set (s0 := with_tid (with_heap (with_heap s h1) h2) _).
  rewrite (least_loaded_rqs s s0), Hb by done. change (default 0%nat (Some b)) with b. match goal with |- context [start_frame s0 t ?x] => set (th := x) end.
  set (s9 := with_nodes (start_frame s0 t th) _).
  assert (Hr0 : rest s0 L ({[t]} ∪ ({[k]} ∪ live)) (fun _ => false)).
  { eapply (rest_same _ _ (with_heap (with_heap s h1) h2)); [|done|done].
    apply rest_alloc; [apply rest_alloc; done|done|done|done]. }
  assert (Hnone : threads s !! t = None).
  { assert (Htl : t ∉ live) by (clear - Htn; set_solver).
    pose proof (static_not_live s L live _ t Hr Htp Htl) as Hno. unfold infos in Hno.
    rewrite lookup_fmap in Hno. by destruct (threads s !! t). }
  destruct Hsh as (Hb16 & Hbo & Hball).
  assert (Hp0 : placed s9 Q R (Some t)).
  { eapply (placed_same _ (with_nodes (with_threads s (<[t := th]> (threads s))) (ot_new (nodes s) (rb_of t))));
      [done|]. apply placed_new; try done.
    - by apply (lay_heap (boot_thread := boot_thread) (idle_threads := idle_threads)).
    - intros Hid. destruct (lay_static (boot_thread := boot_thread) (idle_threads := idle_threads) t) as (_ & ? & _);
        [by left|done].
    - simpl. lia.
    - simpl. by rewrite Nat2Z.id. }
  assert (Hr1 : rest s9 L ({[t]} ∪ ({[k]} ∪ live)) (fun _ => false)).
  { apply (rest_new s0 L live _ t k th); try done.
    - intros x i Hi Hki. destruct (r_thr _ _ _ _ _ _ Hr x i Hi) as [_ [[? _]|(_ & ? & ? & _)]]; done.
    - intros x Hx ->. apply elem_of_dom in Hx as [thx Hthx].
      pose proof (static_not_live s L live _ k Hr Hkp Hkn) as Hno. unfold infos in Hno.
      rewrite lookup_fmap in Hno. simpl in Hthx. by rewrite Hthx in Hno. }
  destruct (start_thread s9 Q R L _ b t th Hp0 Hr1) as (s' & Hst & Hwf' & Hpool & Hmin & Hid & Hup); try done.
  - intros x. rewrite (Hl x). unfold infos. simpl. rewrite fmap_insert.
    destruct (decide (x = t)) as [->|Hne].
    + rewrite lookup_fmap, Hnone. split; [by intros (? & ? & _)|by intros [? _]].
    + rewrite lookup_insert_ne by done. tauto.
  - simpl. apply lookup_insert_eq.
  - exists (if Nat.eqb b cpu then s' else emit s' (EvIpi (Z.of_nat b) SCHED_IPI_VECTOR)), t.
    assert (Hpool' : pool s' = <[t := (THREAD_READY, Z.of_nat b)]> (pool s)).
    { rewrite Hpool. unfold pool. simpl. by rewrite fmap_insert. }
    assert (Hpn : pool s !! t = None) by (unfold pool; by rewrite lookup_fmap, Hnone).
    split.
    { destruct (rq_spin_lock _ b) as [s1|]; [|done]. cbn [mbind option_bind] in Hst |- *.
      destruct (enqueue s1 b t) as [s2|]; [|done]. cbn [mbind option_bind] in Hst |- *.
      rewrite Hst. done. }
    assert (Hh : handled a_new s s').
    { split; [done| |exact Hmin|exact Hid|exact Hup]. rewrite Hpool'. right. exists t, b.
      split; [done|]. split; [done|]. split; [by apply (online_pool boot_thread _ s Q R None _ Hp)|done]. }
    split; [destruct (Nat.eqb b cpu); [done|by apply emit_handled]|].
    intros _. exists b. split; [done|]. split; [done|]. by destruct (Nat.eqb b cpu).
Qed.

(** ** A CPU comes online *)

Context (idle_names idle_stacks : nat -> Z) (idle_fn : Z).

Abbreviation init_idle := (init_idle idle_threads idle_names idle_stacks sched_thread_enter idle_fn).
Abbreviation sched_ap_init := (sched_ap_init idle_threads idle_names idle_stacks sched_thread_enter idle_fn).

Lemma offline_unused (s : sched) Q R c :
  placed s Q R None -> (c < 16)%nat -> ~ online s c ->
  Q c = [] /\ threads s !! idle_threads c = None /\
  forall t th, threads s !! t = Some th -> th_cpu th <> Z.of_nat c.
Proof.
  intros Hp Hc Hoff.
  assert (Hno : forall t th, threads s !! t = Some th -> th_cpu th <> Z.of_nat c).
  { intros t th Hth Hcpu. destruct (p_thr _ _ _ _ _ Hp t th Hth) as (_ & _ & Hon & _).
    by rewrite Hcpu, Nat2Z.id in Hon. }
  split; [|split; [|done]].
  - by eapply offline_empty.
  - destruct (threads s !! idle_threads c) as [th|] eqn:Hth; [|done].
    destruct (p_thr _ _ _ _ _ Hp _ _ Hth) as (_ & Hr & _ & Hi). pose proof (Hno _ _ Hth) as Hx.
    assert (Hid : is_idle (idle_threads c)) by by exists c.
    specialize (Hi Hid). apply (lay_inj (idle_threads := idle_threads)) in Hi; lia.
Qed.

Lemma placed_online (s : sched) Q R c th m :
  placed s Q R None -> (c < 16)%nat -> ~ online s c -> R c = None ->
  Z.of_nat (size (threads s)) + 1 < UINT32_MAX ->
  state th = THREAD_READY -> th_cpu th = Z.of_nat c ->
  placed (rq_upd (with_nodes (with_threads s (<[idle_threads c := th]> (threads s)))
                    (ot_new (nodes s) (rb_of (idle_threads c)))) c
            (fun _ => Runqueue spinlock_init 0 m 0 0 (idle_threads c) 0)) Q R None.
Proof.
  intros Hp Hc Hoff HRc Hsz Hs Hcpu. destruct (offline_unused s Q R c Hp Hc Hoff) as (HQ & Hnone & Hno).
  assert (Hid : is_idle (idle_threads c)) by by exists c.
  destruct (lay_static (boot_thread := boot_thread) (idle_threads := idle_threads) (idle_threads c)) as (Hi0 & _ & Haddr);
    [by left|].
  pose proof (queues_new _ s Q (idle_threads c) th (p_q _ _ _ _ _ Hp) Hnone Haddr Hsz) as Hq.
  set (s1 := with_nodes _ _) in *.
  assert (Hon : forall c', online (rq_upd s1 c (fun _ => Runqueue spinlock_init 0 m 0 0 (idle_threads c) 0)) c' <->
    c' = c \/ online s c').
  { intros c'. unfold online. simpl. unfold nupd. destruct (Nat.eqb_spec c' c) as [->|]; simpl; tauto. }
  split.
  - split; try apply Hq; simpl; unfold nupd; intros c' Hc'; destruct (Nat.eqb_spec c' c) as [->|];
      simpl; try (by apply Hq); rewrite HQ; [apply ot_rep_empty|done].
  - intros t th'. simpl. rewrite Hon. destruct (decide (t = idle_threads c)) as [->|Hne].
    + rewrite lookup_insert_eq. intros [= <-]. unfold place. rewrite Hs, Hcpu, Nat2Z.id.
      split; [by left|]. split; [lia|]. split; [by left|done].
    + rewrite lookup_insert_ne by done. intros Hth. destruct (p_thr _ _ _ _ _ Hp t th' Hth) as (? & ? & ? & ?).
      split; [done|]. split; [done|]. split; [by right|done].
  - intros c' t Hr. destruct (p_run _ _ _ _ _ Hp c' t Hr) as (th' & Hth' & ?). exists th'.
    simpl. rewrite lookup_insert_ne by congruence. done.
  - intros c' Hc' Ho. simpl. unfold nupd. destruct (Nat.eqb_spec c' c) as [->|Hcc].
    + rewrite lookup_insert_eq. eauto.
    + apply Hon in Ho as [?|Ho]; [done|]. destruct (p_idle _ _ _ _ _ Hp c' Hc' Ho) as [? [th' Hth']].
      split; [done|]. rewrite lookup_insert_ne by congruence. eauto.
  - done.
Qed.

Lemma rest_online (s : sched) L live c th m :
  rest s L live (fun _ => false) -> (c < 16)%nat -> threads s !! idle_threads c = None ->
  kstack_base th = 0 -> state th <> THREAD_ZOMBIE ->
  rest (rq_upd (with_nodes (start_frame s (idle_threads c) th)
                    (ot_new (nodes s) (rb_of (idle_threads c)))) c
            (fun _ => Runqueue spinlock_init 0 m 0 0 (idle_threads c) 0)) L live (fun _ => false).
Proof.
  intros Hr Hc Hnone Hk Hz.
  assert (Hst : static (idle_threads c)) by (left; by exists c).
  destruct (lay_static (boot_thread := boot_thread) (idle_threads := idle_threads) _ Hst) as (Hi0 & Hnp & _).
  set (s' := rq_upd _ _ _).
  assert (Hinf : infos s' = <[idle_threads c := info_of th]> (infos s)) by (unfold infos; simpl; apply fmap_insert).
  assert (Hno : infos s !! idle_threads c = None) by (unfold infos; by rewrite lookup_fmap, Hnone).
  split; try apply Hr; rewrite ?Hinf.
  - intros c' Hc'. unfold online. simpl. unfold nupd. destruct (Nat.eqb_spec c' c) as [->|]; [done|by apply Hr].
  - intros c' Hc'. simpl. unfold nupd. destruct (Nat.eqb_spec c' c) as [->|]; [done|by apply (r_lock _ _ _ _ _ _ Hr)].
  - eapply tchain_ext; [|apply (r_list _ _ _ _ _ _ Hr)]. intros x Hx. rewrite lookup_insert_ne; [done|].
    intros <-. destruct (tchain_dom _ _ _ _ (r_list _ _ _ _ _ _ Hr) Hx) as [i Hi]. congruence.
  - intros x i. destruct (decide (x = idle_threads c)) as [->|Hne].
    + rewrite lookup_insert_eq. intros [= <-]. split; [done|]. left. done.
    + rewrite lookup_insert_ne by done. apply (r_thr _ _ _ _ _ _ Hr).
  - intros t1 i1 t2 i2. destruct (decide (t1 = idle_threads c)) as [->|H1n].
    { rewrite lookup_insert_eq. intros [= <-] _ Hk1. done. }
    rewrite lookup_insert_ne by done. intros Hi1. destruct (decide (t2 = idle_threads c)) as [->|H2n].
    + rewrite lookup_insert_eq. intros [= <-] Hk1. split.
      * intros Hin. by apply (r_pool _ _ _ _ _ _ Hr) in Hin.
      * simpl. congruence.
    + rewrite lookup_insert_ne by done. intros Hi2 Hk1. by apply (r_kst _ _ _ _ _ _ Hr).
  - intros c' Hc'. simpl. unfold nupd. destruct (Nat.eqb_spec c' c) as [->|]; [done|]. intros Hco.
    destruct (r_corpse _ _ _ _ _ _ Hr c' Hc' Hco) as (i & Hi & Hre). exists i. split; [|done].
    rewrite lookup_insert_ne; [done|]. intros Heq. simpl in *. congruence.
  - intros c1 c2 Hc1 Hc2. simpl. unfold nupd.
    destruct (Nat.eqb_spec c1 c) as [->|], (Nat.eqb_spec c2 c) as [->|]; try done; by apply (r_corpse_inj _ _ _ _ _ _ Hr).
  - intros x c' Hx. simpl in Hx. apply lookup_delete_Some in Hx as [_ Hx]. by eapply (r_resume _ _ _ _ _ _ Hr).
Qed.

(** The idle thread init_idle builds. *)
Definition idle_thread (id : Z) (c : nat) : thread :=
  frame_init sched_thread_enter idle_fn 0
    (Thread 0 (idle_stacks c + IDLE_STACK_SZ) 0 0 0 id (Z.of_nat c) THREAD_READY
       SCHED_DEFAULT_QUANTUM WEIGHT_DEFAULT (NICE_0_LOAD / WEIGHT_DEFAULT)
       (idle_names (if (c <? SCHED_MAX_CPUS)%nat then c else O)) 0 0 0 0 0 []).

Lemma listed_cons (s s' : sched) L t i :
  listed s L -> infos s !! t = None -> infos s' !! t = Some i -> ~ reapable i ->
  (forall x, x <> t -> unlink <$> infos s' !! x = unlink <$> infos s !! x) -> listed s' (t :: L).
Proof.
  intros Hl Hno Hi Hnr Hu x. rewrite elem_of_cons, (Hl x). destruct (decide (x = t)) as [->|Hne].
  { split; [eauto|by left]. }
  specialize (Hu x Hne). destruct (infos s !! x) as [j|], (infos s' !! x) as [j'|]; try done.
  - injection Hu as Hk Hz. split.
    + intros [?|(j0 & [= <-] & Hx)]; [done|]. exists j'. split; [done|]. intros [? ?]. apply Hx. split; congruence.
    + intros (j0 & [= <-] & Hx). right. exists j. split; [done|]. intros [? ?]. apply Hx. split; congruence.
  - naive_solver.
Qed.

Lemma sched_ap_init_spec (s : sched) c :
  wf s -> (c < 16)%nat -> ~ online s c -> Z.of_nat (size (threads s)) + 1 < UINT32_MAX ->
  exists s', sched_ap_init s c = Some s' /\ wf s' /\ a_online c (pool s) (pool s') /\
    online s' c /\ current (rqs s' c) = idle (rqs s' c) /\ sched_up s' = sched_up s /\
    (forall c', c' <> c -> rqs s' c' = rqs s c').
Proof.
  intros (Q & R & L & live & Hp & Hr & Hl & HR) Hc Hoff Hsz.
  destruct (offline_unused s Q R c Hp Hc Hoff) as (HQ & Hnone & _).
  assert (HRc : R c = None).
  { rewrite HR. unfold running, online in *. destruct (Z.eqb_spec (idle (rqs s c)) 0); [|done].
    by rewrite andb_false_r. }
  set (t := idle_threads c) in *. set (th := idle_thread (next_tid s) c).
  pose proof (placed_online s Q R c th 0 Hp Hc Hoff HRc Hsz eq_refl eq_refl) as Hp1.
  pose proof (rest_online s L live c th 0 Hr Hc Hnone eq_refl ltac:(done)) as Hr1. fold t in Hp1, Hr1.
  unfold Sched.sched_ap_init. fold t. set (s2 := init_idle _ c).
  assert (Hrq2 : forall c', rqs s2 c' = nupd (rqs s) c (Runqueue spinlock_init 0 0 0 0 t 0) c').
  { intros c'. simpl. rewrite nupd_eq. unfold nupd. by destruct (Nat.eqb_spec c' c) as [->|]. }
  assert (Hp2 : placed s2 Q R None).
  { eapply placed_same; [|exact Hp1]. split; [done|]. split; [done|]. intros c'. by rewrite Hrq2. }
  assert (Hr2 : rest s2 L live (fun _ => false)).
  { eapply rest_same; [exact Hr1| |done]. split; try done; intros c'; by rewrite Hrq2. }
  assert (Hth2 : threads s2 !! t = Some th) by apply lookup_insert_eq.
  assert (Hno : infos s !! t = None) by (unfold infos; by rewrite lookup_fmap, Hnone).
  destruct (tlist_add_spec _ _ s2 L live _ t th Hr2 Hth2) as (s3 & l & Hadd & -> & Hr3 & Hu3).
  { intros Hin. apply Hl in Hin as (i & Hi & _). congruence. }
  rewrite Hadd. cbn [mbind option_bind]. set (th3 := set_list_next (g_tlist s2) th) in *.
  set (s3 := with_tlist _ t l) in *.
  assert (Hid3 : idle (rqs s3 c) = t) by (change (idle (rqs s2 c) = t); by rewrite Hrq2, nupd_eq).
  rewrite Hid3. assert (Hth3 : threads s3 !! t = Some th3) by apply lookup_insert_eq.
  rewrite (th_upd_some s3 _ _ th3 Hth3). cbn [mbind option_bind]. set (s4 := with_threads s3 _).
  assert (Hp3 : placed s3 Q R None) by (apply placed_relink; [done|]; right; eauto).
  assert (Hon3 : online s3 c).
  { unfold online. rewrite Hid3. destruct (p_idle _ _ _ _ _ Hp3 c Hc) as [Hx _].
    - unfold online. rewrite Hid3. apply (lay_static (boot_thread := boot_thread) (idle_threads := idle_threads)).
      left. by exists c.
    - apply (lay_static (boot_thread := boot_thread) (idle_threads := idle_threads)). left. by exists c. }
  assert (Hp4 : placed s4 Q (nupd R c (Some t)) None).
  { eapply placed_run; try done. by right. }
  assert (Hi4 : infos s4 = infos s3) by by eapply infos_upd.
  assert (Hr4 : rest s4 (t :: L) live (fun _ => false)).
  { eapply rest_same; [done|apply env_threads|done]. }
  cbn [threads rq_upd with_rqs s4 with_threads]. rewrite lookup_insert_eq. cbn [mbind option_bind].
  set (s5 := rq_upd s4 c (rq_set_current t)).
  assert (Hr5 : rest s5 (t :: L) live (fun _ => false)) by by apply rest_set_current.
  assert (Hrq5 : forall c', rqs s5 c' = nupd (rqs s) c (Runqueue spinlock_init 0 0 0 t t 0) c').
  { intros c'. change (rqs s5 c') with (nupd (rqs s2) c (rq_set_current t (rqs s2 c)) c').
    unfold nupd. rewrite !Hrq2, nupd_eq. unfold nupd. by destruct (Nat.eqb_spec c' c) as [->|]. }
  eexists. split; [done|]. split; [|split; [|split; [|split; [|split]]]].
  - do 2 apply emit_wf. exists Q, (nupd R c (Some t)), (t :: L), live.
    split; [eapply placed_same; [|exact Hp4]; by apply rq_upd_same|]. split; [done|]. split.
    + eapply (listed_cons s _ L t (info_of th3)); try done; [| |].
      * rewrite (Hi4 : infos s5 = infos s3). by apply infos_lookup.
      * intros [? _]. done.
      * intros x Hx. rewrite (Hi4 : infos s5 = infos s3), Hu3. unfold infos. simpl.
        by rewrite fmap_insert, lookup_insert_ne.
    + intros c'. unfold running. rewrite Hrq5. unfold nupd. destruct (Nat.eqb_spec c' c) as [->|]; [|apply HR].
      simpl. rewrite (proj2 (Nat.ltb_lt _ _) Hc). unfold online in Hon3. rewrite Hid3 in Hon3.
      by rewrite (proj2 (Z.eqb_neq _ _) Hon3).
  - assert (Hpool : pool s5 = <[t := (THREAD_RUNNING, Z.of_nat c)]> (pool s)).
    { unfold pool. simpl. by rewrite !fmap_insert, !insert_insert_eq. }
    split; [|exact Hpool]. unfold pool. fold t. by rewrite lookup_fmap, Hnone.
  - unfold online. simpl. rewrite nupd_eq. simpl. rewrite !nupd_eq. simpl. unfold online in Hon3. by rewrite Hid3 in Hon3.
  - change (current (rqs s5 c) = idle (rqs s5 c)). by rewrite Hrq5, nupd_eq.
  - done.
  - intros c' Hne. change (rqs s5 c' = rqs s c'). by rewrite Hrq5, nupd_ne.
Qed.

(** ** Start-up *)

Context (boot_name : Z).

Abbreviation sched_init := (sched_init boot_thread boot_name idle_threads idle_names idle_stacks sched_thread_enter idle_fn).

(** The state the kernel image starts with: nothing is in any list, and the
    scheduler owns no memory yet. *)
Definition pristine (s : sched) : Prop :=
  threads s = ∅ /\ resume s = ∅ /\ g_tlist s = 0 /\ lock_free (g_tlist_lock s) /\ al_inv (heap s) ∅.

Section start.
Context (s s' : sched) (b i : thread).
Context (Hth : threads s' = <[idle_threads 0%nat := i]> (<[boot_thread := b]> ∅)).
Context (Hb : state b = THREAD_RUNNING /\ th_cpu b = 0 /\ kstack_base b = 0 /\ list_next b = 0).
Context (Hi : state i = THREAD_READY /\ th_cpu i = 0 /\ kstack_base i = 0 /\ list_next i = boot_thread).
Context (Hrq : forall c, rqs s' c =
  if Nat.eqb c 0 then Runqueue spinlock_init 0 0 0 boot_thread (idle_threads 0%nat) 0 else zero_rq).

Lemma start_cases t th : threads s' !! t = Some th -> (t = idle_threads 0%nat /\ th = i) \/ (t = boot_thread /\ th = b).
Proof.
  rewrite Hth. destruct (decide (t = idle_threads 0%nat)) as [->|Hne].
  - rewrite lookup_insert_eq. intros [= <-]. by left.
  - rewrite lookup_insert_ne by done. destruct (decide (t = boot_thread)) as [->|Hnb].
    + rewrite lookup_insert_eq. intros [= <-]. by right.
    + by rewrite lookup_insert_ne.
Qed.

Lemma start_ne : idle_threads 0%nat <> boot_thread.
Proof. intros Heq. apply (lay_boot (idle_threads := idle_threads)). rewrite <- Heq. exists 0%nat. split; [lia|done]. Qed.

Lemma start_static t th : threads s' !! t = Some th -> static t.
Proof. intros [[-> _]|[-> _]]%start_cases; [left; exists 0%nat; split; [lia|done]|by right]. Qed.

Lemma start_boot : threads s' !! boot_thread = Some b.
Proof. pose proof start_ne. rewrite Hth, lookup_insert_ne, lookup_insert_eq by done. done. Qed.

Lemma start_idle : threads s' !! idle_threads 0%nat = Some i.
Proof. by rewrite Hth, lookup_insert_eq. Qed.

Lemma start_placed :
  (forall t, t = boot_thread \/ t = idle_threads 0%nat -> ot_cell (nodes s') (rb_of t)) ->
  placed s' (fun _ => []) (running s') None.
Proof.
  intros Hcell.
  assert (Hon : forall c, online s' c <-> c = 0%nat).
  { intros c. unfold online. rewrite Hrq. destruct (Nat.eqb_spec c 0) as [->|]; simpl; [|tauto].
    split; [done|]. intros _. apply (lay_static (boot_thread := boot_thread) (idle_threads := idle_threads)).
    left. exists 0%nat. split; [lia|done]. }
  split.
  - split; simpl.
    + intros c Hc. rewrite Hrq. destruct (Nat.eqb c 0); simpl; apply ot_rep_empty.
    + constructor.
    + intros c Hc. rewrite Hrq. by destruct (Nat.eqb c 0).
    + set_solver.
    + intros t [th Ht]%elem_of_dom. split.
      * apply Hcell. destruct (start_cases t th Ht) as [[? _]|[? _]]; tauto.
      * apply (lay_static (boot_thread := boot_thread) (idle_threads := idle_threads)). by eapply start_static.
    + rewrite Hth. rewrite map_size_insert_None, map_size_insert_None, map_size_empty;
        [unfold UINT32_MAX; lia|done|]. rewrite lookup_insert_ne by (apply not_eq_sym, start_ne). done.
  - intros t th Ht. unfold place. rewrite Hon.
    destruct (start_cases t th Ht) as [[-> ->]|[-> ->]].
    + destruct Hi as (-> & -> & _). split; [left; exists 0%nat; split; [lia|done]|]. done.
    + destruct Hb as (-> & -> & _). split; [|split; [done|split; [done|]]].
      * rewrite running_online; [by rewrite Hrq|lia|by apply Hon].
      * intros Hid. by apply (lay_boot (idle_threads := idle_threads)) in Hid.
  - intros c t. unfold running. rewrite Hrq. destruct (Nat.eqb_spec c 0) as [->|Hne]; simpl.
    + destruct (negb _); simpl; [|done]. intros [= <-]. exists b. destruct Hb as (? & ? & _).
      split; [apply start_boot|]. by split.
    + by rewrite andb_false_r.
  - intros c Hc Ho%Hon. subst c. rewrite Hrq. split; [done|]. exists i. apply start_idle.
  - done.
Qed.

Lemma start_infos t j : infos s' !! t = Some j ->
  static t /\ i_kstack j = 0.
Proof.
  intros (th & Ht & ->)%infos_inv. split; [by eapply start_static|]. simpl.
  destruct (start_cases t th Ht) as [[_ ->]|[_ ->]]; tauto.
Qed.

Lemma start_rest :
  resume s' = ∅ -> g_tlist s' = idle_threads 0%nat -> lock_free (g_tlist_lock s') -> al_inv (heap s') ∅ ->
  rest s' [idle_threads 0%nat; boot_thread] ∅ (fun _ => false) /\ listed s' [idle_threads 0%nat; boot_thread].
Proof.
  intros Hres Htl Hlk Hinv. split.
  - split; try done.
    + intros c Hc. unfold online. rewrite Hrq. destruct (Nat.eqb_spec c 0) as [->|]; simpl; [|done].
      intros Hn. destruct Hn. apply (lay_static (boot_thread := boot_thread) (idle_threads := idle_threads)).
      left. exists 0%nat. split; [lia|done].
    + intros c Hc. rewrite Hrq. by destruct (Nat.eqb c 0).
    + simpl. split; [done|]. eexists. split; [apply infos_lookup, start_idle|]. split; [apply Hi|].
      eexists. split; [apply infos_lookup, start_boot|]. apply Hb.
    + apply NoDup_cons. split; [|apply NoDup_singleton]. rewrite list_elem_of_singleton. apply start_ne.
    + intros t j Hj. destruct (start_infos t j Hj) as [Hst Hk]. split; [|by left].
      by apply (lay_static (boot_thread := boot_thread) (idle_threads := idle_threads)).
    + intros t1 j1 t2 j2 H1j _ Hk. destruct (start_infos t1 j1 H1j). done.
    + intros c Hc. rewrite Hrq. by destruct (Nat.eqb c 0).
    + intros c c' Hc Hc'. rewrite Hrq. by destruct (Nat.eqb c 0).
    + intros t c. by rewrite Hres, lookup_empty.
  - intros t. rewrite !elem_of_cons, elem_of_nil. split.
    + assert (Hnr : forall th, kstack_base th = 0 -> ~ reapable (info_of th)) by (intros th Hk [_ ?]; done).
      intros [->|[->|?]]; [exists (info_of i)|exists (info_of b)|done];
        (split; [apply infos_lookup|apply Hnr; tauto]); [apply start_idle|apply start_boot].
    + intros (j & (th & Ht & _)%infos_inv & _). destruct (start_cases t th Ht) as [[-> _]|[-> _]]; tauto.
Qed.
End start.

Lemma tlist_add_eq (s : sched) t l th :
  spin_lock (g_tlist_lock s) = Some l -> threads s !! t = Some th ->
  tlist_add s t = Some (with_tlist (with_threads s (<[t := set_list_next (g_tlist s) th]> (threads s)))
                          t (spin_unlock l)).
Proof. intros Hl Hth. unfold tlist_add. rewrite Hl. cbn [mbind option_bind]. unfold th_upd. by rewrite Hth. Qed.

(** Adding a thread to the list of a state given by its fields. *)
Lemma tlist_add_fields (s : sched) t th :
  lock_free (g_tlist_lock s) -> threads s !! t = Some th ->
  exists s', tlist_add s t = Some s' /\ threads s' = <[t := set_list_next (g_tlist s) th]> (threads s) /\
    rqs s' = rqs s /\ nodes s' = nodes s /\ heap s' = heap s /\ resume s' = resume s /\
    g_tlist s' = t /\ lock_free (g_tlist_lock s').
Proof.
  intros Hl Hth. destruct (spin_lock_held _ Hl) as (l & Hl' & Hh).
  eexists. split; [exact (tlist_add_eq s t l th Hl' Hth)|]. split_and!; try done. by apply spin_unlock_free.
Qed.

Lemma sched_init_spec (s : sched) bsp_stack_top :
  pristine s ->
  exists s', sched_init s bsp_stack_top = Some s' /\ wf s' /\ online s' 0 /\ sched_up s' = true /\
    current (rqs s' 0%nat) = boot_thread /\
    pool s' = <[idle_threads 0%nat := (THREAD_READY, 0)]> {[ boot_thread := (THREAD_RUNNING, 0) ]}.
Proof.
  intros (Hth & Hres & Htl & Hlk & Hinv). unfold Sched.sched_init, alloc_tid.
  match goal with |- context [tlist_add ?x boot_thread] => set (s1 := x) end.
  match goal with _ := context [<[boot_thread := ?x]> _] |- _ => set (b0 := x) in s1 end.
  destruct (tlist_add_fields s1 boot_thread b0 Hlk) as (s2 & -> & Ht2 & Hq2 & Hn2 & Hh2 & Hr2 & Hg2 & Hl2);
    [apply lookup_insert_eq|].
  assert (Ht2' : threads s2 = <[boot_thread := set_list_next 0 b0]> ∅).
  { rewrite Ht2. simpl. by rewrite insert_insert_eq, Hth, Htl. }
  assert (Hc2 : ot_cell (nodes s2) (rb_of boot_thread)) by (rewrite Hn2; apply ot_new_cell; by left).
  assert (Hq2' : forall c, rqs s2 c = if Nat.eqb c 0 then rq_set_current boot_thread zero_rq else zero_rq).
  { intros c. rewrite Hq2. simpl. unfold nupd. by destruct (Nat.eqb_spec c 0) as [->|]. }
  set (b := set_list_next 0 b0) in *.
  assert (Hb : state b = THREAD_RUNNING /\ th_cpu b = 0 /\ kstack_base b = 0 /\ list_next b = 0) by done.
  simpl in Hh2, Hr2. cbn [mbind option_bind]. clear Ht2 Hq2 Hn2. clearbody b s1. clear b0.
  set (s3 := init_idle s2 0). set (i0 := idle_thread (next_tid s2) 0).
  assert (Ht3 : threads s3 = <[idle_threads 0%nat := i0]> (threads s2)) by done.
  destruct (tlist_add_fields s3 (idle_threads 0%nat) i0 Hl2) as (s4 & -> & Ht4 & Hq4 & Hn4 & Hh4 & Hr4 & Hg4 & Hl4);
    [rewrite Ht3; apply lookup_insert_eq|]. cbn [mbind option_bind].
  set (i := set_list_next boot_thread i0).
  assert (Hi : state i = THREAD_READY /\ th_cpu i = 0 /\ kstack_base i = 0 /\ list_next i = boot_thread) by done.
  assert (Ht4' : threads s4 = <[idle_threads 0%nat := i]> (<[boot_thread := b]> ∅)).
  { change (g_tlist s3) with (g_tlist s2) in Ht4. by rewrite Ht4, Ht3, insert_insert_eq, Ht2', Hg2. }
  assert (Hq4' : forall c, rqs s4 c =
    if Nat.eqb c 0 then Runqueue spinlock_init 0 0 0 boot_thread (idle_threads 0%nat) 0 else zero_rq).
  { intros c. rewrite Hq4. change (rqs s3 c) with (nupd (rqs s2) 0 (rq_set_idle (idle_threads 0%nat) (rqs s2 0%nat)) c).
    unfold nupd. rewrite !Hq2'. by destruct (Nat.eqb_spec c 0) as [->|]. }
  assert (Hc4 : forall t, t = boot_thread \/ t = idle_threads 0%nat -> ot_cell (nodes s4) (rb_of t)).
  { intros t Ht. rewrite Hn4. apply ot_new_cell. destruct Ht as [->| ->]; [by right|by left]. }
  assert (Hr4' : resume s4 = ∅).
  { rewrite Hr4. change (resume s3) with (delete (idle_threads 0%nat) (resume s2)). rewrite Hr2, Hres. apply delete_empty. }
  assert (Hh4' : al_inv (heap s4) ∅) by (rewrite Hh4; change (heap s3) with (heap s2); by rewrite Hh2).
  clear Hn4 Hq4 Hr4 Hh4 Ht4 Ht3 Hc2. clearbody s3 i i0.
  destruct (start_rest s4 b i Ht4' Hb Hi Hq4' Hr4' Hg4 Hl4 Hh4') as [Hr Hl].
  pose proof (start_placed s4 b i Ht4' Hb Hi Hq4' Hc4) as Hp.
  eexists. split; [done|]. split; [|split; [|split; [done|split]]].
  - eexists _, _, _, _. split; [eapply (placed_same _ s4); [done|exact Hp]|].
    split; [|split; [exact Hl|done]]. split; apply Hr.
  - unfold online. simpl. rewrite Hq4'. simpl.
    apply (lay_static (boot_thread := boot_thread) (idle_threads := idle_threads)). left. exists 0%nat. split; [lia|done].
  - simpl. by rewrite Hq4'.
  - unfold pool. simpl. rewrite Ht4', !fmap_insert, fmap_empty.
    destruct Hb as (-> & -> & _), Hi as (-> & -> & _). done.
Qed.
End life.
