(* ===== verification/SchedRun.v ===== *)
(** * Runs of the scheduler

    The calls the rest of the kernel makes into kern/sched.c, under the
    conditions they are made in, as a transition system from sched_init on.
    Every call that is enabled returns, keeps the state well formed and does
    to the pool of threads what the abstract scheduler says of it. *)

From stdpp Require Import base gmap list relations.
From Stdlib Require Import ZArith Lia Sorted.
From S2P Require Import Prelude RbRep RbTreeProof OrdTree Spinlock Allocator Sched SchedProof SchedInv SchedState SchedHandlers SchedMigrate.

Inductive call :=
| CallTick (c : nat) (ticks : Z)                 (* sched_ipi_c_handler on CPU c *)
| CallYield (c : nat) | CallBlock (c : nat) | CallExit (c : nat) | CallKill (c : nat)
| CallUnblock (c : nat) (t : Z) | CallSignal (c : nat) (t sig : Z)
| CallPriority (t prio : Z) | CallMigrate (t cpu : Z)
| CallIdle (c : nat) (now last : Z)              (* a pass of the idle loop of c *)
| CallCreate (c : nat) (name fn arg w : Z)
| CallApInit (c : nat).

Section run.
Context {H A : Type} `{OrdTreeLaws H} `{AllocatorLaws A}.
Context (boot_thread : Z) (idle_threads : nat -> Z) {Hlay : Layout boot_thread idle_threads}.
Context (boot_name : Z) (idle_names idle_stacks : nat -> Z) (sched_thread_enter idle_fn : Z).

Abbreviation sched := (@sched H A).
Abbreviation wf := (wf boot_thread idle_threads).
Abbreviation handled := (handled boot_thread idle_threads).
Abbreviation sched_thread_create := (sched_thread_create sched_thread_enter).
Abbreviation sched_ap_init := (sched_ap_init idle_threads idle_names idle_stacks sched_thread_enter idle_fn).
Abbreviation sched_init := (sched_init boot_thread boot_name idle_threads idle_names idle_stacks sched_thread_enter idle_fn).

Definition known (s : sched) (t : Z) : Prop := t <> 0 -> is_Some (threads s !! t).

(** A thread, not the idle thread, runs on [c]. *)
Definition in_thread (s : sched) (c : nat) : Prop :=
  (c < 16)%nat /\ online s c /\ current (rqs s c) <> idle (rqs s c).

Definition room (s : sched) : Prop := Z.of_nat (size (threads s)) + 1 < UINT32_MAX.

(** When a call may be made.  Most of this is what sched.c asserts by using the
    current thread or by its arguments being threads.  For sched_migrate it is
    a restriction: neither it nor its caller, the migrate command of the shell,
    checks that the thread is not running and not an idle thread. *)
Definition enabled (s : sched) (k : call) : Prop :=
  match k with
  | CallTick c _ => (c < 16)%nat
  | CallYield c | CallBlock c | CallExit c | CallKill c => in_thread s c
  | CallUnblock _ t | CallSignal _ t _ | CallPriority t _ => known s t
  | CallMigrate t cpu => 0 <= cpu /\ (t <> 0 -> exists th, threads s !! t = Some th /\
      state th <> THREAD_RUNNING /\ ~ is_idle idle_threads t)
  | CallIdle c _ _ => (c < 16)%nat /\ online s c
  | CallCreate _ _ _ _ _ => room s
  | CallApInit c => (c < 16)%nat /\ ~ online s c /\ room s
  end.

Definition exec (s : sched) (k : call) : option sched :=
  match k with
  | CallTick c ticks => sched_ipi_c_handler s c ticks
  | CallYield c => sched_yield s c
  | CallBlock c => sched_block s c
  | CallExit c => sched_thread_exit s c
  | CallKill c => sched_kill_current s c
  | CallUnblock c t => sched_unblock s c t
  | CallSignal c t sig => sched_thread_signal s c t sig
  | CallPriority t prio => sched_set_priority s t prio
  | CallMigrate t cpu => sched_migrate s t cpu
  | CallIdle c now last => fst <$> idle_pass s c now last
  | CallCreate c name fn arg w => fst <$> sched_thread_create s c name fn arg w
  | CallApInit c => sched_ap_init s c
  end.

(** Besides the calls, other parts of the kernel use the heap, and wait queues
    link threads by their own field. *)
Inductive sstep (s : sched) : sched -> Prop :=
| SCall k s' : enabled s k -> exec s k = Some s' -> sstep s s'
| SHeap h : (forall live, al_inv (heap s) live -> al_inv h live) -> sstep s (with_heap s h)
| SLink t th n : threads s !! t = Some th -> sstep s (with_threads s (<[t := set_wq_next n th]> (threads s))).

Definition reachable (s : sched) : Prop :=
  exists s0 top s1, pristine s0 /\ sched_init s0 top = Some s1 /\ rtc sstep s1 s.

Definition good (s : sched) : Prop := wf s /\ online s 0 /\ sched_up s = true.

(** What a call does to the states and the CPUs of the threads. *)
Definition acall (k : call) (p p' : gmap Z (thread_state * Z)) : Prop :=
  match k with
  | CallTick c _ | CallYield c => a_resched idle_threads c p p'
  | CallBlock c => a_give_up idle_threads c THREAD_BLOCKED p p'
  | CallExit c | CallKill c => a_give_up idle_threads c THREAD_ZOMBIE p p'
  | CallUnblock _ t | CallSignal _ t _ => a_wake t p p'
  | CallPriority _ _ => a_none p p'
  | CallMigrate t cpu => a_move idle_threads t cpu p p'
  | CallIdle c _ _ => a_pull idle_threads c p p'
  | CallCreate _ _ _ _ _ => a_new idle_threads p p'
  | CallApInit c => a_online idle_threads c p p'
  end.

(** What a call leaves. *)
Record ran (s s' : sched) : Prop := {
  ran_good : good s';
  ran_min c : online s c -> min_vruntime (rqs s c) <= min_vruntime (rqs s' c);
  ran_online c : online s c -> online s' c;
}.

Lemma handled_ran op s s' : good s -> handled op s s' -> ran s s'.
Proof.
  intros (_ & Hon & Hup) [Hwf _ Hmin Hid Hu].
  assert (forall c, online s c -> online s' c) by (intros c; unfold online; by rewrite Hid).
  split; try done. split; [done|]. split; [auto|by rewrite Hu].
Qed.

Lemma exec_total (s : sched) k :
  good s -> enabled s k -> exists s', exec s k = Some s' /\ ran s s' /\ acall k (pool s) (pool s').
Proof.
  intros Hg He. pose proof Hg as (Hwf & Hon & Hup).
  assert (Hran : forall s', handled (acall k) s s' -> ran s s' /\ acall k (pool s) (pool s')).
  { intros s' Hh. split; [by eapply handled_ran|apply Hh]. }
  destruct k as [c ticks|c|c|c|c|c t|c t sig|t prio|t cpu|c now last|c name fn arg w|c]; simpl in He |- *.
  - unfold sched_ipi_c_handler. cbn [sched_up emit]. rewrite Hup.
    destruct (sched_tick_spec boot_thread idle_threads (emit (emit s EvEoi) (EvKsshTick ticks)) c) as (s' & -> & Hh & _);
      [by do 2 apply emit_wf|done|done|]. exists s'. split; [done|]. apply Hran. by destruct Hh.
  - destruct He as (Hc & Ho & Hn). destruct (sched_yield_spec _ _ s c Hwf Hc Ho Hn) as (s' & next & ? & Hh & _). eauto.
  - destruct He as (Hc & Ho & Hn). destruct (sched_block_spec _ _ s c Hwf Hc Ho Hn) as (s' & next & th & thn & ? & Hh & _). eauto.
  - destruct He as (Hc & Ho & Hn). destruct (sched_thread_exit_spec _ _ s c Hwf Hc Ho Hn) as (s' & next & ? & Hh & _). eauto.
  - destruct He as (Hc & Ho & Hn). unfold sched_kill_current.
    pose proof Hwf as (Q & R & L & live & Hp & _ & _ & HR).
    destruct (current_thread _ s Q R None c Hp (HR c) Hc Ho) as (_ & th & -> & _). cbn [mbind option_bind].
    destruct (fault_fn th =? 0).
    + destruct (sched_thread_exit_spec _ _ s c Hwf Hc Ho Hn) as (s' & next & ? & Hh & _). eauto.
    + destruct (sched_thread_exit_spec boot_thread idle_threads (emit s (EvFaultFn (fault_fn th) (current (rqs s c)))) c)
        as (s' & next & ? & Hh & _); [by apply emit_wf|done..|].
      exists s'. split; [done|]. apply Hran. by destruct Hh.
  - destruct (sched_unblock_spec _ _ s c t Hwf He) as (s' & ? & Hh & _). eauto.
  - unfold sched_thread_signal. destruct (Z.eqb_spec t 0) as [->|Ht0].
    { exists s. split; [done|]. apply Hran, handled_refl; [done|]. simpl. unfold a_wake.
      by rewrite (no_null_thread _ _ s Hwf). }
    destruct (He Ht0) as [th Hth]. rewrite Hth. cbn [mbind option_bind].
    destruct (bool_decide_reflect (state th = THREAD_BLOCKED)) as [Hb|Hb].
    2: { exists s. split; [done|]. apply Hran, handled_refl; [done|]. simpl. unfold a_wake.
         rewrite (pool_lookup _ _ _ Hth). by destruct (state th). }
    destruct (sched_unblock_spec _ _ s c t Hwf He) as (s' & ? & Hh & _). eauto.
  - destruct (sched_set_priority_spec _ _ s t prio Hwf He) as (s' & ? & Hh). eauto.
  - destruct He as [Hcpu Ht]. destruct (sched_migrate_spec _ _ s t cpu Hwf Hcpu Ht) as (s' & ? & Hh). eauto.
  - destruct He as [Hc Ho]. unfold idle_pass. destruct (16 <=? u32 (now - last)); simpl.
    + destruct (load_balance_spec _ _ s c Hwf Hc Ho) as (s' & -> & Hh & _). eauto.
    + exists s. split; [done|]. apply Hran, handled_refl; [done|by left].
  - destruct (sched_thread_create_spec boot_thread idle_threads sched_thread_enter s c name fn arg w 0 Hwf)
      as (s' & t & -> & Hh & _); [lia|done|done|]. eauto.
  - destruct He as (Hc & Hoff & Hrm).
    destruct (sched_ap_init_spec boot_thread idle_threads sched_thread_enter idle_names idle_stacks idle_fn s c Hwf Hc Hoff Hrm)
      as (s' & -> & Hwf' & Hpool & Hon' & _ & Hup' & Hrq). exists s'. split; [done|].
    assert (Hne : forall c', online s c' -> c' <> c) by (intros c' Ho ->; done).
    assert (Honl : forall c', online s c' -> online s' c').
    { intros c' Ho. unfold online. by rewrite Hrq by by apply Hne. }
    split; [|done]. split; [|intros c' Ho; by rewrite Hrq by by apply Hne|done].
    split; [done|]. split; [auto|by rewrite Hup'].
Qed.

Lemma sstep_ran s s' : good s -> sstep s s' -> ran s s'.
Proof.
  intros Hg [k s'' He Hx|h Hh|t th n Hth].
  - destruct (exec_total s k Hg He) as (s2 & Hx2 & Hr & _). rewrite Hx in Hx2. by injection Hx2 as <-.
  - apply (handled_ran a_none); [done|]. destruct Hg as ((Q & R & L & live & Hp & Hr & Hl & HR) & _).
    apply (wf_heap _ _ s Q R L live); try done. apply Hh, Hr.
  - apply (handled_ran a_none); [done|]. by eapply wf_quiet; [apply Hg|done..].
Qed.

Lemma reachable_good s : reachable s -> good s.
Proof.
  intros (s0 & top & s1 & Hpr & Hinit & Hrun).
  destruct (sched_init_spec boot_thread idle_threads sched_thread_enter idle_names idle_stacks idle_fn boot_name s0 top Hpr)
    as (s1' & Hinit' & Hwf & Hon & Hup & _).
  rewrite Hinit in Hinit'. injection Hinit' as <-.
  assert (Hg : good s1) by done. clear Hpr Hinit Hwf Hon Hup.
  induction Hrun as [s1|s1 s2 s3 Hs _ IH]; [done|]. apply IH. by eapply ran_good, sstep_ran.
Qed.

(** ** Executable runs *)

Definition enabledb (s : sched) (k : call) : bool :=
  let in_thread c := (c <? 16)%nat && negb (idle (rqs s c) =? 0) && negb (current (rqs s c) =? idle (rqs s c)) in
  let known t := (t =? 0) || bool_decide (is_Some (threads s !! t)) in
  let room := Z.of_nat (size (threads s)) + 1 <? UINT32_MAX in
  match k with
  | CallTick c _ => (c <? 16)%nat
  | CallYield c | CallBlock c | CallExit c | CallKill c => in_thread c
  | CallUnblock _ t | CallSignal _ t _ | CallPriority t _ => known t
  | CallMigrate t cpu => (0 <=? cpu) && ((t =? 0) ||
      match threads s !! t with
      | Some th => negb (bool_decide (state th = THREAD_RUNNING)) && negb (bool_decide (is_idle idle_threads t))
      | None => false
      end)
  | CallIdle c _ _ => (c <? 16)%nat && negb (idle (rqs s c) =? 0)
  | CallCreate _ _ _ _ _ => room
  | CallApInit c => (c <? 16)%nat && (idle (rqs s c) =? 0) && room
  end.

Lemma enabledb_sound (s : sched) k : enabledb s k = true -> enabled s k.
Proof.
  destruct k; simpl; unfold in_thread, known, room, online;
    rewrite ?andb_true_iff, ?orb_true_iff, ?negb_true_iff, ?Nat.ltb_lt, ?Z.eqb_eq, ?Z.eqb_neq, ?Z.leb_le, ?Z.ltb_lt,
      ?bool_decide_eq_true; try tauto.
  intros [Hc [->|Ht]]; (split; [done|]); [done|]. intros _.
  destruct (threads s !! t) as [th|]; [|done].
  rewrite andb_true_iff, !negb_true_iff, !bool_decide_eq_false in Ht. eauto.
Qed.

(** A sequence of calls, each of which is enabled. *)
Fixpoint play (s : sched) (l : list call) : option sched :=
  match l with
  | [] => Some s
  | k :: l => if enabledb s k then s ← exec s k; play s l else None
  end.

Lemma play_reachable s s' l : reachable s -> play s l = Some s' -> reachable s'.
Proof.
  revert s. induction l as [|k l IH]; intros s Hr; simpl; [by intros [= <-]|].
  destruct (enabledb s k) eqn:He; [|done]. destruct (exec s k) as [s1|] eqn:Hx; [|done]. cbn [mbind option_bind].
  apply IH. destruct Hr as (s0 & top & s2 & Hp & Hi & Hs). exists s0, top, s2. split; [done|]. split; [done|].
  eapply rtc_r; [done|]. eapply SCall; [|done]. by apply enabledb_sound.
Qed.
End run.
