(* ===== verification/SchedExample.v ===== *)
(** * A small kernel to run

    The scheduler with the red-black tree and an allocator that never reuses
    memory, started by sched_init: runs of it are evaluated to give concrete
    reachable states, and three of them show where kern/sched.c goes wrong. *)

From stdpp Require Import base gmap list relations.
From Stdlib Require Import ZArith Lia.
From S2P Require Import Prelude RbTree RbRep RbTreeProof OrdTree Spinlock Allocator Sched SchedProof SchedInv SchedState SchedHandlers SchedMigrate SchedRun.

Definition ex_base : Z := 1048576.

#[export] Instance bump_allocator : Allocator Z := {
  al_alloc st sz := Some (st + 16 * ((sz + 15) / 16), st);
  al_free st p := Some st;
  al_pool p := ex_base <= p;
  al_inv st live := ex_base <= st /\ Z.even st = true /\ forall p, p ∈ live -> p < st;
}.

#[export] Instance bump_allocator_laws : AllocatorLaws Z.
Proof.
  unfold ex_base. split; simpl.
  - intros st live sz (Hb & He & Hl) Hsz. eexists _, _. split; [done|]. right.
    assert (0 < (sz + 15) / 16) by zlia. unfold ex_base in *.
    split_and!; try done; try lia.
    + intros Hin. apply Hl in Hin. lia.
    + rewrite Z.even_add, Z.even_mul, He. done.
    + intros p [->%elem_of_singleton|Hp]%elem_of_union; [lia|]. apply Hl in Hp. lia.
  - intros st live p (Hb & He & Hl) Hp. eexists. split; [done|]. split_and!; try done.
    intros q [Hq _]%elem_of_difference. by apply Hl.
Qed.

Definition ex_boot : Z := 2048.
Definition ex_idle (c : nat) : Z := 4096 + 256 * Z.of_nat c.

#[export] Instance ex_layout : Layout (H := gmap Z rb_node) (A := Z) ex_boot ex_idle.
Proof.
  unfold ex_boot, ex_idle. split.
  - intros c c' _ _. lia.
  - intros (c & Hc & Heq). lia.
  - intros t Ht. simpl. unfold addr_ok, rb_of, RB_OFF, ex_base.
    destruct Ht as [(c & Hc & ->)| ->]; (split; [lia|]); (split; [lia|]); (split; [lia|]); [|done].
    apply Z.even_spec. exists (2048 + 128 * Z.of_nat c + 64). lia.
  - intros t Hlo Ht He. simpl in *. unfold addr_ok, rb_of, RB_OFF. unfold ex_base in Hlo. split; [lia|].
    rewrite Z.even_add, He. done.
Qed.

Abbreviation ex_state := (sched (H := gmap Z rb_node) (A := Z)).
Definition ex_zero : nat -> Z := fun _ => 0.
Abbreviation ex_reachable := (reachable (H := gmap Z rb_node) (A := Z) ex_boot ex_idle 0 ex_zero ex_zero 0 0).
Abbreviation ex_play := (play (H := gmap Z rb_node) (A := Z) ex_idle ex_zero ex_zero 0 0).

Definition ex_pristine : ex_state :=
  Sched ∅ ∅ ex_base (fun _ => zero_rq) 0 spinlock_init 1 false 0 ∅ [].

Definition ex_start : option ex_state := sched_init ex_boot 0 ex_idle ex_zero ex_zero 0 0 ex_pristine 0.

Lemma ex_pristine_ok : pristine ex_pristine.
Proof. by split_and!. Qed.

(** States reached from the start by playing calls. *)
Definition ex_run (l : list call) : option ex_state := s ← ex_start; ex_play s l.

Lemma ex_run_reachable l s : ex_run l = Some s -> ex_reachable s.
Proof.
  unfold ex_run. destruct ex_start as [s1|] eqn:Hs; [|done]. cbn [mbind option_bind].
  apply play_reachable. exists ex_pristine, 0, s1. split; [apply ex_pristine_ok|]. split; [exact Hs|apply rtc_refl].
Qed.

(** ** Where the scheduler goes wrong *)

(** The thread created first exits to a thread that never ran, which exits to
    the idle thread; then the boot thread is resumed and reaps. *)
Definition leak_run : list call :=
  [CallCreate 0 0 1 0 0; CallCreate 0 0 1 0 0; CallBlock 0; CallExit 0; CallExit 0;
   CallUnblock 0 ex_boot; CallTick 0 0; CallTick 0 0].

Definition leaked : Z := ex_base + 16384.

Definition no_corpse (s : ex_state) (d : Z) : bool :=
  forallb (fun c => negb (corpse (rqs s c) =? d)) (seq 0 16).

Lemma leak_eval :
  (s ← ex_run leak_run; th ← threads s !! leaked;
   Some (bool_decide (state th = THREAD_ZOMBIE), negb (kstack_base th =? 0), current (rqs s 0%nat),
         no_corpse s leaked))
  = Some (true, true, ex_boot, true).
Proof. by vm_compute. Qed.

(** A dead thread is freed only by a thread that resumes in do_switch; a
    thread that runs for the first time does not look at the corpse, and the
    next exit overwrites it.  In a reachable state, after the boot thread has
    resumed and reaped, a dead thread's memory is still allocated and no run
    queue refers to it any more. *)
Theorem exit_loses_corpse :
  exists (s : ex_state) th, ex_reachable s /\ current (rqs s 0%nat) = ex_boot /\
    threads s !! leaked = Some th /\ state th = THREAD_ZOMBIE /\ kstack_base th <> 0 /\
    forall c, (c < 16)%nat -> corpse (rqs s c) <> leaked.
Proof.
  pose proof leak_eval as He. apply bind_Some in He as (s & Hs & He).
  apply bind_Some in He as (th & Hth & He).
  injection He as Hz Hk Hcur Hc. exists s, th. split; [by eapply ex_run_reachable|]. split; [done|].
  split; [done|]. split; [by apply bool_decide_eq_true in Hz|].
  split; [by apply negb_true_iff, Z.eqb_neq in Hk|]. intros c Hc16.
  unfold no_corpse in Hc. rewrite forallb_forall in Hc. specialize (Hc c). rewrite negb_true_iff, Z.eqb_neq in Hc. apply Hc, in_seq. lia.
Qed.

(** Two CPUs, a second thread queued on the first. *)
Definition migrate_run : list call := [CallApInit 1; CallCreate 0 0 1 0 0].

Lemma migrate_eval :
  (s ← ex_run migrate_run; th ← threads s !! ex_boot;
   s1 ← sched_migrate s ex_boot 1; s2 ← sched_tick s1 0; s3 ← sched_migrate s2 ex_boot 0;
   Some (bool_decide (state th = THREAD_RUNNING), nr_running (rqs s 1%nat), nr_running (rqs s3 1%nat)))
  = Some (true, 0, UINT32_MAX).
Proof. by vm_compute. Qed.

(** sched_migrate of a RUNNING thread only rewrites its CPU field: the
    next tick queues the thread on the CPU it ran on, and a second migration
    erases it from the tree of a CPU that does not hold it.  From a reachable
    state this wraps the empty queue's counter to 2^32 - 1. *)
Theorem migrate_running_corrupts :
  exists (s s1 s2 s3 : ex_state) th, ex_reachable s /\
    threads s !! ex_boot = Some th /\ state th = THREAD_RUNNING /\
    sched_migrate s ex_boot 1 = Some s1 /\ sched_tick s1 0 = Some s2 /\ sched_migrate s2 ex_boot 0 = Some s3 /\
    nr_running (rqs s 1%nat) = 0 /\ nr_running (rqs s3 1%nat) = UINT32_MAX.
Proof.
  pose proof migrate_eval as He. apply bind_Some in He as (s & Hs & He).
  apply bind_Some in He as (th & Hth & He). apply bind_Some in He as (s1 & H1 & He).
  apply bind_Some in He as (s2 & H2 & He). apply bind_Some in He as (s3 & H3 & He).
  injection He as Hst Hn0 Hn1. apply bool_decide_eq_true in Hst. exists s, s1, s2, s3, th.
  split; [by eapply ex_run_reachable|]. repeat (split; [assumption|]). assumption.
Qed.

(** sched_yield up to the release of the lock in do_switch: the threads to
    switch between, if it switches. *)
Definition yield_commit {H A} `{OrdTree H} `{Allocator A} (s : sched (H := H) (A := A)) (cpu : nat) :
    option (sched (H := H) (A := A) * option (Z * Z)) :=
  s ← rq_spin_lock s cpu;
  let cur := current (rqs s cpu) in
  next ← pick_next s cpu;
  if (next =? idle (rqs s cpu)) || (next =? cur) then
    s ← th_upd s cur (fun th => set_vdeadline (s64 (vruntime th + SLICE_VTIME)) th);
    Some (rq_spin_unlock s cpu, None)
  else
    s ← th_upd s cur (fun th => set_vruntime (vdeadline th) th);
    s ← enqueue s cpu cur;
    s ← rq_remove s cpu next;
    s ← do_switch_commit s cpu cur next;
    Some (s, Some (cur, next)).

Lemma yield_split {H A} `{OrdTree H} `{Allocator A} (s : sched (H := H) (A := A)) cpu :
  sched_yield s cpu =
  ('(s, sw) ← yield_commit s cpu;
   match sw with Some (prev, next) => context_switch s cpu prev next | None => Some s end).
Proof.
  unfold sched_yield, yield_commit. destruct (rq_spin_lock s cpu) as [s1|]; [|done]. cbn [mbind option_bind].
  destruct (pick_next s1 cpu) as [next|]; [|done]. cbn [mbind option_bind].
  destruct (_ || _); [by destruct (th_upd s1 _ _)|].
  destruct (th_upd s1 _ _) as [s2|]; [|done]. cbn [mbind option_bind].
  destruct (enqueue s2 _ _) as [s3|]; [|done]. cbn [mbind option_bind].
  destruct (rq_remove s3 _ _) as [s4|]; [|done]. cbn [mbind option_bind]. unfold do_switch.
  by destruct (do_switch_commit s4 _ _ _).
Qed.

(** Two threads queued on the first CPU, and an idle second CPU. *)
Definition race_run : list call := [CallCreate 0 0 1 0 0; CallCreate 0 0 1 0 0; CallApInit 1].

Lemma race_eval :
  (s ← ex_run race_run; p ← yield_commit s 0; s2 ← load_balance p.1 1; s3 ← sched_tick s2 1;
   th ← threads s3 !! ex_boot;
   Some (option_map fst p.2, current (rqs s3 1%nat), bool_decide (state th = THREAD_RUNNING), th_rsp th,
         bool_decide (resume s3 !! ex_boot = None)))
  = Some (Some ex_boot, ex_boot, true, 0, true).
Proof. by vm_compute. Qed.

(** do_switch releases the run queue lock before sched_context_switch saves
    the registers of the thread it leaves.  In a reachable state the boot thread
    yields on CPU 0 and is queued; before its context is saved, CPU 1 takes it
    from that queue by load_balance and switches to it in its tick, although
    its stack pointer was never stored: two CPUs execute the same thread. *)
Theorem switch_races_with_balance :
  exists (s s1 s2 s3 : ex_state) next th, ex_reachable s /\
    yield_commit s 0 = Some (s1, Some (ex_boot, next)) /\
    load_balance s1 1 = Some s2 /\ sched_tick s2 1 = Some s3 /\
    threads s3 !! ex_boot = Some th /\ state th = THREAD_RUNNING /\ current (rqs s3 1%nat) = ex_boot /\
    resume s3 !! ex_boot = None /\ th_rsp th = 0.
Proof.
  pose proof race_eval as He. apply bind_Some in He as (s & Hs & He).
  apply bind_Some in He as ([s1 sw] & H1 & He). apply bind_Some in He as (s2 & H2 & He).
  apply bind_Some in He as (s3 & H3 & He). apply bind_Some in He as (th & Hth & He).
  injection He as Hsw Hcur Hst Hrsp Hres. destruct sw as [[prev next]|]; [|done]. injection Hsw as ->.
  apply bool_decide_eq_true in Hst, Hres. exists s, s1, s2, s3, next, th.
  split; [by eapply ex_run_reachable|]. repeat (split; [assumption|]). assumption.
Qed.
