(* ===== verification/SchedProps.v ===== *)
(** * What the scheduler guarantees

    Theorems about every state the scheduler reaches from sched_init, for any
    ordered tree and any allocator that keep their promises, with the
    red-black tree and the kernel heap as the instance the witnesses use. *)

From stdpp Require Import base gmap list relations.
From Stdlib Require Import ZArith Lia Sorted.
From S2P Require Import Prelude RbTree RbRep RbTreeProof OrdTree Spinlock Kmalloc KmallocProof KmallocProps Allocator Sched SchedProof SchedInv SchedState SchedHandlers SchedMigrate SchedRun SchedExample.

Section props.
Context {H A : Type} `{OrdTreeLaws H} `{AllocatorLaws A}.
Context (boot_thread : Z) (idle_threads : nat -> Z) {Hlay : Layout boot_thread idle_threads}.
Context (boot_name : Z) (idle_names idle_stacks : nat -> Z) (sched_thread_enter idle_fn : Z).

Abbreviation sched := (@sched H A).
Abbreviation reachable := (reachable boot_thread idle_threads boot_name idle_names idle_stacks sched_thread_enter idle_fn).
Abbreviation enabled := (enabled idle_threads).
Abbreviation exec := (exec idle_threads idle_names idle_stacks sched_thread_enter idle_fn).
Abbreviation sstep := (sstep idle_threads idle_names idle_stacks sched_thread_enter idle_fn).
Abbreviation good := (good boot_thread idle_threads).

Lemma reach_good (s : sched) : reachable s -> good s.
Proof. intros Hr. by eapply reachable_good. Qed.

Lemma reach_step (s s' : sched) : reachable s -> sstep s s' -> reachable s'.
Proof.
  intros (s0 & top & s1 & Hp & Hi & Hr) Hs. exists s0, top, s1. split; [done|]. split; [done|].
  by eapply rtc_r.
Qed.



(** In every reachable state a thread is RUNNING exactly if it is the
    current thread of an online CPU, and that CPU is the one it records; so no
    thread runs on two CPUs and no CPU runs two threads. *)
Theorem sched_running_exact (s : sched) t th :
  reachable s -> threads s !! t = Some th ->
  (state th = THREAD_RUNNING <-> exists c, (c < 16)%nat /\ online s c /\ current (rqs s c) = t) /\
  (forall c, (c < 16)%nat -> online s c -> current (rqs s c) = t -> th_cpu th = Z.of_nat c).
Proof.
  intros Hr Hth. destruct (reach_good s Hr) as ((Q & R & L & live & Hp & _ & _ & HR) & _).
  assert (Hcur : forall c, (c < 16)%nat -> online s c -> current (rqs s c) = t ->
    state th = THREAD_RUNNING /\ th_cpu th = Z.of_nat c).
  { intros c Hc Hon Hx. destruct (current_thread _ s Q R None c Hp (HR c) Hc Hon) as (_ & th' & Hth' & ? & ?).
    rewrite Hx, Hth in Hth'. by injection Hth' as <-. }
  split; [split|].
  - intros Hs. destruct (p_thr _ _ _ _ _ Hp t th Hth) as (Hpl & Hrg & Hon & _). unfold place in Hpl.
    rewrite Hs, HR in Hpl. exists (Z.to_nat (th_cpu th)). split; [lia|]. split; [done|].
    rewrite running_online in Hpl by (done || lia). by injection Hpl.
  - intros (c & Hc & Hon & Hx). by apply (Hcur c).
  - intros c Hc Hon Hx. by apply Hcur.
Qed.


(** C33. pick_next chooses by earliest eligible virtual deadline: among the
    READY threads [q] of the CPU, in deadline order, the first whose start time
    is not after the queue's virtual time; if there is none, the one that has
    consumed least virtual time, oldest first; if [q] is empty, the idle
    thread. *)
Theorem pick_next_eevdf (s : sched) c :
  reachable s -> (c < 16)%nat ->
  exists q next, ordered (thread_cmp (threads s)) (rb_of <$> q) /\
    (forall t, t ∈ q <-> exists th, threads s !! t = Some th /\ state th = THREAD_READY /\
                          th_cpu th = Z.of_nat c /\ ~ is_idle idle_threads t) /\
    pick_next s c = Some next /\
    pick_ok (threads s) (min_vruntime (rqs s c)) q (idle (rqs s c)) next.
Proof.
  intros Hr Hc. destruct (reach_good s Hr) as ((Q & R & L & live & Hp & _ & _ & HR) & _).
  pose proof (p_q _ _ _ _ _ Hp) as Hq. eexists (Q c), _.
  split; [by apply (q_ord _ _ _ Hq)|]. split; [|split; [by apply (pick_next_list _ _ _ _ Hq)|apply pick_list_ok]].
  intros t. split; [by apply (q_thr _ _ _ Hq)|]. intros (th & Hth & Hs & Hcpu & Hni).
  destruct (p_thr _ _ _ _ _ Hp t th Hth) as (Hpl & _). unfold place in Hpl.
  rewrite Hs, Hcpu, Nat2Z.id in Hpl. naive_solver.
Qed.

(** The virtual time of an online CPU never goes back. *)
Theorem sched_virtual_time_monotone (s s' : sched) c :
  reachable s -> rtc sstep s s' -> online s c ->
  online s' c /\ min_vruntime (rqs s c) <= min_vruntime (rqs s' c).
Proof.
  intros Hr Hs. pose proof (reach_good s Hr) as Hg. clear Hr.
  induction Hs as [s|s s1 s2 Hs _ IH]; intros Hon; [split; [done|lia]|].
  destruct (sstep_ran _ _ _ _ _ _ s s1 Hg Hs) as [Hg1 Hm Ho].
  destruct (IH Hg1 (Ho c Hon)) as [? ?]. split; [done|]. specialize (Hm c Hon). lia.
Qed.

(** A tick leaves no CPU idle while it has work: if CPU [c] runs its idle
    thread after a tick, no thread is READY on it. *)
Theorem sched_tick_work_conserving (s s' : sched) c t th :
  reachable s -> (c < 16)%nat -> online s c -> sched_tick s c = Some s' ->
  current (rqs s' c) = idle (rqs s' c) ->
  threads s' !! t = Some th -> state th = THREAD_READY -> th_cpu th <> Z.of_nat c.
Proof.
  intros Hr Hc Hon Ht Hcur Hth Hs. destruct (reach_good s Hr) as (Hwf & _ & Hup).
  destruct (sched_tick_spec _ _ s c Hwf Hc Hup) as (s2 & Ht2 & _ & Hst). rewrite Ht in Ht2. injection Ht2 as <-.
  by eapply (Hst Hon).
Qed.

(** A new thread is READY on an online CPU with the shortest queue, and
    nothing else changes state or CPU. *)
Theorem sched_create_least_loaded (s s' : sched) cpu name fn arg w t :
  reachable s -> room s -> sched_thread_create sched_thread_enter s cpu name fn arg w = Some (s', t) -> t <> 0 ->
  exists b, shortest s b /\ pool s !! t = None /\
    pool s' = <[t := (THREAD_READY, Z.of_nat b)]> (pool s).
Proof.
  intros Hr Hrm Hc Ht. destruct (reach_good s Hr) as (Hwf & Hon & _).
  destruct (sched_thread_create_spec _ _ sched_thread_enter s cpu name fn arg w 0 Hwf ltac:(lia) Hon Hrm) as (s2 & t2 & Hc2 & _ & Hx).
  rewrite Hc in Hc2. injection Hc2 as <- <-. by apply Hx.
Qed.

(** load_balance does nothing when no other online CPU has two queued
    threads; otherwise it moves one thread from a busiest such CPU. *)
Theorem load_balance_moves_one (s s' : sched) dst :
  reachable s -> (dst < 16)%nat -> online s dst -> load_balance s dst = Some s' -> balanced s s' dst.
Proof.
  intros Hr Hd Hon Hb. destruct (reach_good s Hr) as (Hwf & _).
  destruct (load_balance_spec _ _ s dst Hwf Hd Hon) as (s2 & Hb2 & _ & Hbal). rewrite Hb in Hb2.
  by injection Hb2 as <-.
Qed.

(** Every thread with a stack of its own, and its stack, are blocks of the
    heap in use, and these blocks are all different. *)
Theorem sched_memory_apart (s : sched) :
  reachable s ->
  exists live, al_inv (heap s) live /\
    forall t th, threads s !! t = Some th -> kstack_base th <> 0 ->
      t ∈ live /\ kstack_base th ∈ live /\
      forall t' th', threads s !! t' = Some th' -> kstack_base th' <> 0 ->
        kstack_base th <> t' /\ (t <> t' -> kstack_base th <> kstack_base th').
Proof.
  intros Hr. destruct (reach_good s Hr) as ((Q & R & L & live & _ & Hrest & _ & _) & _).
  exists live. split; [apply Hrest|]. intros t th Hth Hk. pose proof (infos_lookup _ _ _ Hth) as Hi.
  destruct (r_thr _ _ _ _ _ _ Hrest t _ Hi) as [_ [[? _]|(_ & Htl & Hkl & _)]]; [done|].
  split; [done|]. split; [done|]. intros t' th' Hth' Hk'. pose proof (infos_lookup _ _ _ Hth') as Hi'.
  destruct (r_thr _ _ _ _ _ _ Hrest t' _ Hi') as [_ [[? _]|(_ & Htl' & _)]]; [done|].
  destruct (r_kst _ _ _ _ _ _ Hrest t _ t' _ Hi Hi' Hk) as [Hx Hy]. split; [by apply Hx|]. intros Hne Heq. by apply Hne, Hy.
Qed.

(** The thread list holds exactly the threads that are not waiting to be
    freed, each once; the walks over it terminate, sched_thread_count counts
    it, sched_get_thread indexes it and sched_get_thread_by_tid searches it. *)
Theorem sched_list_exact (s : sched) :
  reachable s ->
  exists L, NoDup L /\
    (forall t, t ∈ L <-> exists th, threads s !! t = Some th /\ ~ (state th = THREAD_ZOMBIE /\ kstack_base th <> 0)) /\
    snd <$> sched_thread_count s = Some (u32 (Z.of_nat (length L))) /\
    (forall idx, 0 <= idx -> snd <$> sched_get_thread s idx = Some (nth (Z.to_nat idx) L 0)) /\
    (forall id, snd <$> sched_get_thread_by_tid s id = Some (first_tid s id L)).
Proof.
  intros Hr. destruct (reach_good s Hr) as ((Q & R & L & live & _ & Hrest & Hl & _) & _).
  destruct (walks_spec _ _ s L live _ Hrest) as (l & Hlk & Hcnt & Hnth & Htid).
  exists L. split; [apply Hrest|]. split; [|split; [|split]].
  - intros t. rewrite (Hl t). split.
    + intros (i & (th & Hth & ->)%infos_inv & Hnr). exists th. split; [done|]. intros [Hz Hk]. apply Hnr.
      split; [|done]. by apply bool_decide_eq_true.
    + intros (th & Hth & Hnr). exists (info_of th). split; [by apply infos_lookup|]. intros [Hz Hk]. apply Hnr.
      split; [|done]. by apply bool_decide_eq_true in Hz.
  - unfold sched_thread_count. rewrite Hlk. cbn [mbind option_bind]. by rewrite Hcnt.
  - intros idx Hi. unfold sched_get_thread. rewrite Hlk. cbn [mbind option_bind]. by rewrite Hnth.
  - intros id. unfold sched_get_thread_by_tid. rewrite Hlk. cbn [mbind option_bind]. by rewrite Htid.
Qed.
End props.

(** ** An instance: the red-black tree and the kernel heap *)

Definition wit_base : Z := 1048576.
#[local] Instance wit_alloc : Allocator kheap := kheap_allocator wit_base 1 0.
#[local] Instance wit_alloc_laws : AllocatorLaws kheap.
Proof. apply kheap_allocator_laws; [exact wit_pool|by left|lia]. Qed.

Definition wit_boot : Z := 2048.
Definition wit_idle (c : nat) : Z := 4096 + 256 * Z.of_nat c.

#[local] Instance wit_layout : Layout (H := gmap Z rb_node) (A := kheap) wit_boot wit_idle.
Proof.
  unfold wit_boot, wit_idle. split.
  - intros c c' _ _. lia.
  - intros (c & Hc & Heq). lia.
  - intros t Ht. simpl. unfold addr_ok, rb_of, RB_OFF, wit_base.
    destruct Ht as [(c & Hc & ->)| ->]; (split; [lia|]); (split; [lia|]); (split; [lia|]); [|done].
    apply Z.even_spec. exists (2048 + 128 * Z.of_nat c + 64). lia.
  - intros t [Hlo _] Ht He. simpl. unfold addr_ok, rb_of, RB_OFF. unfold wit_base in Hlo. split; [lia|].
    rewrite Z.even_add, He. done.
Qed.

Definition wit_sched : sched (H := gmap Z rb_node) (A := kheap) :=
  Sched ∅ ∅ (kmalloc_init wit_base wit_heap 1) (fun _ => zero_rq) 0 spinlock_init 1 false 0 ∅ [].

Abbreviation wit_reachable := (reachable wit_boot wit_idle 0 (fun _ => 0) (fun _ => 0) 0 0).

Lemma wit_reach : exists s : sched (H := gmap Z rb_node) (A := kheap),
  wit_reachable s /\ online s 0 /\ current (rqs s 0%nat) = wit_boot /\
  pool s = <[wit_idle 0 := (THREAD_READY, 0)]> {[ wit_boot := (THREAD_RUNNING, 0) ]}.
Proof.
  assert (Hp : pristine wit_sched).
  { split; [done|]. split; [done|]. split; [done|]. split; [done|]. exists ∅. split; [|done].
    apply init_kinv; [lia|]. apply (kmalloc_init_ok wit_base wit_pool 1). lia. }
  destruct (sched_init_spec wit_boot wit_idle 0 (fun _ => 0) (fun _ => 0) 0 0 wit_sched 0 Hp)
    as (s & Hi & _ & Hon & _ & Hcur & Hpool).
  exists s. split; [|done]. exists wit_sched, 0, s. split; [done|]. split; [exact Hi|apply rtc_refl].
Qed.

Abbreviation wit_exec := (exec (H := gmap Z rb_node) (A := kheap) wit_idle (fun _ => 0) (fun _ => 0) 0 0).


(** ** Witnesses on the small kernel *)

Lemma ex_wit_run l (P : ex_state -> bool) :
  (s ← ex_run l; Some (P s)) = Some true -> exists s, ex_run l = Some s /\ ex_reachable s /\ P s = true.
Proof.
  intros (s & Hs & [= Hp])%bind_Some. exists s. split; [done|]. split; [by eapply ex_run_reachable|done].
Qed.

Abbreviation ex_exec := (exec (H := gmap Z rb_node) (A := Z) ex_idle ex_zero ex_zero 0 0).
Abbreviation ex_sstep := (sstep (H := gmap Z rb_node) (A := Z) ex_idle ex_zero ex_zero 0 0).

(** Two threads queued behind the boot thread, a second CPU idle. *)
Definition busy : list call := race_run.


Lemma sched_running_exact_witness : exists (s : ex_state) th, threads s !! ex_boot = Some th /\
  (state th = THREAD_RUNNING <-> exists c, (c < 16)%nat /\ online s c /\ current (rqs s c) = ex_boot) /\
  (forall c, (c < 16)%nat -> online s c -> current (rqs s c) = ex_boot -> th_cpu th = Z.of_nat c).
Proof.
  destruct (ex_wit_run busy (fun s => bool_decide (is_Some (threads s !! ex_boot)))) as (s & _ & Hr & Hx); [by vm_compute|].
  apply bool_decide_eq_true in Hx as [th Hth]. exists s, th. split; [exact Hth|].
  apply (sched_running_exact ex_boot ex_idle 0 ex_zero ex_zero 0 0 s ex_boot th Hr Hth).
Defined.


Lemma pick_next_eevdf_witness : exists (s : ex_state) q next,
  nr_running (rqs s 0%nat) = 2 /\ pick_next s 0 = Some next /\
  pick_ok (threads s) (min_vruntime (rqs s 0%nat)) q (idle (rqs s 0%nat)) next.
Proof.
  destruct (ex_wit_run busy (fun s => nr_running (rqs s 0%nat) =? 2)) as (s & _ & Hr & Hx); [by vm_compute|].
  destruct (pick_next_eevdf ex_boot ex_idle 0 ex_zero ex_zero 0 0 s 0 Hr ltac:(lia)) as (q & next & _ & _ & Hn & Hp).
  apply Z.eqb_eq in Hx. exists s, q, next. split; [exact Hx|]. split; [exact Hn|exact Hp].
Defined.

Lemma sched_virtual_time_monotone_witness : exists s s' : ex_state, rtc ex_sstep s s' /\
  online s' 0 /\ min_vruntime (rqs s 0%nat) <= min_vruntime (rqs s' 0%nat).
Proof.
  destruct (ex_wit_run busy (fun s => negb (idle (rqs s 0%nat) =? 0) &&
    match ex_exec s (CallTick 0 0) with Some s' => true | None => false end))
    as (s & _ & Hr & [Hon Hx]%andb_true_iff); [by vm_compute|].
  destruct (ex_exec s (CallTick 0 0)) as [s'|] eqn:Hs; [|discriminate Hx]. exists s, s'.
  apply negb_true_iff, Z.eqb_neq in Hon.
  assert (Hstep : rtc ex_sstep s s').
  { apply rtc_once. apply (SCall _ _ _ _ _ s (CallTick 0 0)); [simpl; lia|exact Hs]. }
  split; [exact Hstep|].
  apply (sched_virtual_time_monotone ex_boot ex_idle 0 ex_zero ex_zero 0 0 s s' 0 Hr Hstep Hon).
Defined.

(** The boot thread blocks with nothing else to run. *)
Lemma sched_tick_work_conserving_witness : exists (s' : ex_state) th,
  current (rqs s' 0%nat) = idle (rqs s' 0%nat) /\ threads s' !! ex_boot = Some th /\
  (state th = THREAD_READY -> th_cpu th <> Z.of_nat 0).
Proof.
  destruct (ex_wit_run [CallBlock 0] (fun s => negb (idle (rqs s 0%nat) =? 0) &&
    match sched_tick s 0 with
    | Some s' => (current (rqs s' 0%nat) =? idle (rqs s' 0%nat)) && bool_decide (is_Some (threads s' !! ex_boot))
    | None => false end))
    as (s & _ & Hr & [Hon Hx]%andb_true_iff); [by vm_compute|].
  destruct (sched_tick s 0) as [s'|] eqn:Hs; [|discriminate Hx].
  apply andb_true_iff in Hx as [Hcur Hth]. apply Z.eqb_eq in Hcur. apply bool_decide_eq_true in Hth as [th Hth].
  apply negb_true_iff, Z.eqb_neq in Hon. exists s', th. split; [exact Hcur|]. split; [exact Hth|]. intros Hready.
  apply (sched_tick_work_conserving ex_boot ex_idle 0 ex_zero ex_zero 0 0 s s' 0 ex_boot th Hr ltac:(lia) Hon Hs Hcur Hth Hready).
Defined.

Lemma sched_create_least_loaded_witness : exists (s s' : ex_state) t b,
  sched_thread_create 0 s 0 0 1 0 0 = Some (s', t) /\ shortest s b /\ pool s !! t = None /\
  pool s' = <[t := (THREAD_READY, Z.of_nat b)]> (pool s).
Proof.
  destruct (ex_wit_run busy (fun s => (Z.of_nat (size (threads s)) + 1 <? UINT32_MAX) &&
    match sched_thread_create 0 s 0 0 1 0 0 with Some (s', t) => negb (t =? 0) | None => false end))
    as (s & _ & Hr & [Hrm Hx]%andb_true_iff); [by vm_compute|].
  destruct (sched_thread_create 0 s 0 0 1 0 0) as [[s' t]|] eqn:Hs; [|discriminate Hx].
  apply negb_true_iff, Z.eqb_neq in Hx. apply Z.ltb_lt in Hrm. exists s, s', t.
  destruct (sched_create_least_loaded ex_boot ex_idle 0 ex_zero ex_zero 0 0 s s' 0 0 1 0 0 t Hr Hrm Hs Hx) as (b & Hb).
  exists b. split; [exact Hs|exact Hb].
Defined.

Lemma load_balance_moves_one_witness : exists s s' : ex_state,
  load_balance s 1 = Some s' /\ nr_running (rqs s' 1%nat) = 1 /\ balanced s s' 1.
Proof.
  destruct (ex_wit_run busy (fun s => negb (idle (rqs s 1%nat) =? 0) &&
    match load_balance s 1 with Some s' => nr_running (rqs s' 1%nat) =? 1 | None => false end))
    as (s & _ & Hr & [Hon Hx]%andb_true_iff); [by vm_compute|].
  destruct (load_balance s 1) as [s'|] eqn:Hs; [|discriminate Hx].
  apply negb_true_iff, Z.eqb_neq in Hon. apply Z.eqb_eq in Hx. exists s, s'. split; [exact Hs|]. split; [exact Hx|].
  apply (load_balance_moves_one ex_boot ex_idle 0 ex_zero ex_zero 0 0 s s' 1 Hr ltac:(lia) Hon Hs).
Defined.

Lemma sched_memory_apart_witness : exists (s : ex_state) live,
  size (threads s) = 5%nat /\ al_inv (heap s) live /\
  forall t th, threads s !! t = Some th -> kstack_base th <> 0 -> t ∈ live /\ kstack_base th ∈ live.
Proof.
  destruct (ex_wit_run busy (fun s => bool_decide (size (threads s) = 5%nat))) as (s & _ & Hr & Hx); [by vm_compute|].
  apply bool_decide_eq_true in Hx.
  destruct (sched_memory_apart ex_boot ex_idle 0 ex_zero ex_zero 0 0 s Hr) as (live & Hinv & Hl).
  exists s, live. split; [exact Hx|]. split; [exact Hinv|]. intros t th Hth Hk.
  destruct (Hl t th Hth Hk) as (? & ? & _). done.
Defined.

Lemma sched_list_exact_witness : exists (s : ex_state) (L : list Z),
  snd <$> sched_thread_count s = Some 5 /\ snd <$> sched_thread_count s = Some (u32 (Z.of_nat (length L))).
Proof.
  destruct (ex_wit_run busy (fun s => match sched_thread_count s with Some (_, n) => n =? 5 | None => false end))
    as (s & _ & Hr & Hx); [by vm_compute|].
  destruct (sched_list_exact ex_boot ex_idle 0 ex_zero ex_zero 0 0 s Hr) as (L & _ & _ & Hc & _).
  exists s, L. split; [|exact Hc]. destruct (sched_thread_count s) as [[s' n]|]; [|discriminate Hx].
  apply Z.eqb_eq in Hx as ->. reflexivity.
Defined.
