(* ===== verification/Waitqueue.v ===== *)
(** * Wait queues (kern/waitqueue.c)

    A wait queue is a spinlock and a list of blocked threads linked by their
    wq_next field.  The operations are modelled over the scheduler's state; a
    waiter is woken with the scheduler's own sched_unblock.  The theorems say
    that the queue holds exactly the threads that wait, and that wq_wake_all
    makes all of them ready; a run shows the wakeup that is lost when a waker
    runs between the release of the queue's lock and sched_block.  The saved
    interrupt flag is not part of the state. *)

From stdpp Require Import base gmap list relations.
From Stdlib Require Import ZArith Lia.
From S2P Require Import Prelude RbTree RbRep RbTreeProof OrdTree Spinlock Allocator Sched SchedProof SchedInv SchedState SchedHandlers SchedMigrate SchedRun SchedExample.

Record wait_queue := WaitQueue { wq_lock : spinlock; wq_head : Z }.

Definition WAIT_QUEUE_INIT : wait_queue := WaitQueue spinlock_init 0.

Section waitqueue.
Context {H A : Type} `{OrdTree H} `{Allocator A}.
Abbreviation sched := (@sched H A).

(** wq_wait up to the release of the queue's lock. *)
Definition wq_link (s : sched) (wq : wait_queue) (cpu : nat) : option (sched * wait_queue) :=
  l ← spin_lock (wq_lock wq);
  let cur := sched_current s cpu in
  s ← th_upd s cur (set_wq_next (wq_head wq));
  Some (s, WaitQueue (spin_unlock l) cur).

Definition wq_wait (s : sched) (wq : wait_queue) (cpu : nat) : option (sched * wait_queue) :=
  '(s, wq) ← wq_link s wq cpu;
  s ← sched_block s cpu;
  Some (s, wq).

Definition wq_wake_one (s : sched) (wq : wait_queue) (cpu : nat) : option (sched * wait_queue) :=
  l ← spin_lock (wq_lock wq);
  let t := wq_head wq in
  if t =? 0 then Some (s, WaitQueue (spin_unlock l) 0) else
  th ← threads s !! t;
  let wq := WaitQueue (spin_unlock l) (wq_next th) in
  s ← th_upd s t (set_wq_next 0);
  s ← sched_unblock s cpu t;
  Some (s, wq).

(** [while (list)] of wq_wake_all. *)
Fixpoint wake_list (fuel : nat) (s : sched) (cpu : nat) (p : Z) : option sched :=
  match fuel with
  | O => None
  | S f =>
    if p =? 0 then Some s else
    th ← threads s !! p;
    let next := wq_next th in
    s ← th_upd s p (set_wq_next 0);
    s ← sched_unblock s cpu p;
    wake_list f s cpu next
  end.

Definition wq_wake_all (s : sched) (wq : wait_queue) (cpu : nat) : option (sched * wait_queue) :=
  l ← spin_lock (wq_lock wq);
  let list := wq_head wq in
  s ← wake_list (S (size (threads s))) s cpu list;
  Some (s, WaitQueue (spin_unlock l) 0).

(** [W] are the blocked threads linked from [p]. *)
Fixpoint wchain (m : gmap Z thread) (p : Z) (W : list Z) : Prop :=
  match W with
  | [] => p = 0
  | t :: W => p = t /\ t <> 0 /\ exists th, m !! t = Some th /\ state th = THREAD_BLOCKED /\ wchain m (wq_next th) W
  end.

Definition waits (s : sched) (wq : wait_queue) (W : list Z) : Prop :=
  lock_free (wq_lock wq) /\ NoDup W /\ wchain (threads s) (wq_head wq) W.

Lemma wchain_ext m m' p W : (forall t, t ∈ W -> m' !! t = m !! t) -> wchain m p W -> wchain m' p W.
Proof.
  revert p. induction W as [|t W IH]; intros p Heq; simpl; [done|].
  intros (-> & Ht0 & th & Hth & Hs & Hc). split; [done|]. split; [done|]. exists th.
  split; [by rewrite Heq by set_solver|]. split; [done|]. apply IH; [|done]. intros x Hx. apply Heq. set_solver.
Qed.

Lemma wchain_blocked m p W t : wchain m p W -> t ∈ W -> exists th, m !! t = Some th /\ state th = THREAD_BLOCKED.
Proof.
  revert p. induction W as [|x W IH]; intros p; simpl; [set_solver|].
  intros (-> & _ & th & Hth & Hs & Hc) [->|Hin]%elem_of_cons; [by exists th|]. by eapply IH.
Qed.

Lemma wchain_size m p W : wchain m p W -> NoDup W -> (length W <= size m)%nat.
Proof.
  intros Hc Hnd. rewrite <- (size_list_to_set (C := gset Z) W Hnd), <- size_dom.
  apply subseteq_size. intros t Ht. apply elem_of_list_to_set in Ht. apply elem_of_dom.
  destruct (wchain_blocked _ _ _ _ Hc Ht) as (th & -> & _). by eexists.
Qed.
End waitqueue.

Section waiting.
Context {H A : Type} `{OrdTreeLaws H} `{AllocatorLaws A}.
Context (boot_thread : Z) (idle_threads : nat -> Z) {Hlay : Layout boot_thread idle_threads}.
Context (boot_name : Z) (idle_names idle_stacks : nat -> Z) (sched_thread_enter idle_fn : Z).

Abbreviation sched := (@sched H A).
Abbreviation good := (good boot_thread idle_threads).
Abbreviation sstep := (sstep idle_threads idle_names idle_stacks sched_thread_enter idle_fn).
Abbreviation reachable := (reachable boot_thread idle_threads boot_name idle_names idle_stacks sched_thread_enter idle_fn).

Lemma link_good (s : sched) t th n :
  good s -> threads s !! t = Some th -> good (with_threads s (<[t := set_wq_next n th]> (threads s))).
Proof.
  intros Hg Hth. eapply ran_good, (sstep_ran boot_thread idle_threads idle_names idle_stacks sched_thread_enter idle_fn s).
  - done.
  - by constructor.
Qed.

Lemma reach_steps (s s' : sched) : reachable s -> rtc sstep s s' -> reachable s'.
Proof.
  intros (s0 & top & s1 & Hp & Hi & Hr) Hs. exists s0, top, s1. split; [done|]. split; [done|].
  by etransitivity.
Qed.

(** Waking a waiter that was taken off its queue. *)
Lemma wake_step (s : sched) cpu t th :
  good s -> t <> 0 -> threads s !! t = Some th -> state th = THREAD_BLOCKED ->
  exists s1 s2 mv, th_upd s t (set_wq_next 0) = Some s1 /\ sched_unblock s1 cpu t = Some s2 /\
    rtc sstep s s2 /\ good s2 /\ threads s2 = <[t := enqueued mv (set_wq_next 0 th)]> (threads s).
Proof.
  intros Hg Ht0 Hth Hs. eexists. rewrite (th_upd_some _ _ _ th Hth). pose proof (link_good s t th 0 Hg Hth) as Hg1.
  set (s1 := with_threads s _) in *.
  assert (Hth1 : threads s1 !! t = Some (set_wq_next 0 th)) by apply lookup_insert_eq.
  destruct (sched_unblock_spec boot_thread idle_threads s1 cpu t) as (s2 & Hu & Hh & Hmv);
    [apply Hg1|intros _; by eexists|].
  destruct (Hmv _ Ht0 Hth1 Hs) as [mv Hmv']. exists s2, mv. split; [done|]. split; [done|]. split.
  { apply (rtc_l _ _ s1); [by constructor|]. apply rtc_once.
    apply (SCall _ _ _ _ _ _ (CallUnblock cpu t)); [|done]. intros _. by eexists. }
  split; [exact (ran_good _ _ _ _ (handled_ran _ _ _ _ _ Hg1 Hh))|].
  rewrite Hmv'. unfold s1. simpl. by rewrite insert_insert_eq.
Qed.

Lemma wake_list_spec W : forall fuel (s : sched) cpu p,
  good s -> NoDup W -> wchain (threads s) p W -> (length W < fuel)%nat ->
  exists s', wake_list fuel s cpu p = Some s' /\ rtc sstep s s' /\ good s' /\
    (forall t, t ∈ W -> exists th, threads s' !! t = Some th /\ state th = THREAD_READY) /\
    (forall t, t ∉ W -> threads s' !! t = threads s !! t).
Proof.
  induction W as [|t W IH]; intros [|fuel] s cpu p Hg Hnd Hc Hf; simpl in *; try lia.
  { subst p. exists s. split; [done|]. split; [apply rtc_refl|]. split; [done|]. split; [set_solver|done]. }
  destruct Hc as (-> & Ht0 & th & Hth & Hs & Hc). rewrite (proj2 (Z.eqb_neq _ _) Ht0), Hth. cbn [mbind option_bind].
  apply NoDup_cons in Hnd as [Hni Hnd].
  destruct (wake_step s cpu t th Hg Ht0 Hth Hs) as (s1 & s2 & mv & -> & Hun & Hr & Hg2 & Hm).
  cbn [mbind option_bind]. rewrite Hun. cbn [mbind option_bind].
  destruct (IH fuel s2 cpu (wq_next th) Hg2 Hnd) as (s' & Hw & Hr' & Hg' & Hin & Hout); [|lia|].
  { eapply wchain_ext; [|done]. intros x Hx. rewrite Hm. apply lookup_insert_ne. by intros ->. }
  exists s'. split; [done|]. split; [by etransitivity|]. split; [done|]. split.
  - intros x [->|Hx]%elem_of_cons; [|by apply Hin]. rewrite Hout, Hm by done. rewrite lookup_insert_eq. by eexists.
  - intros x [Hx1 Hx2]%not_elem_of_cons. rewrite Hout, Hm by done. by apply lookup_insert_ne.
Qed.

Lemma wq_wait_spec (s : sched) wq W c :
  good s -> in_thread s c -> waits s wq W ->
  exists s' wq', wq_wait s wq c = Some (s', wq') /\ rtc sstep s s' /\ good s' /\
    waits s' wq' (sched_current s c :: W).
Proof.
  intros Hg (Hc & Hon & Hni) (Hlk & Hnd & Hch). unfold wq_wait, wq_link, sched_current.
  destruct (spin_lock_free _ Hlk) as (l & -> & Hun). cbn [mbind option_bind].
  set (cur := current (rqs s c)) in *.
  pose proof Hg as ((Q & R & L & live & Hp & Hr & Hl & HR) & _).
  destruct (current_thread _ s Q R None c Hp (HR c) Hc Hon) as (_ & th & Hth & Hst & _). fold cur in Hth.
  destruct (r_thr _ _ _ _ _ _ Hr cur (info_of th)) as [Hcur0 _]; [by apply infos_lookup|].
  rewrite (th_upd_some _ _ _ th Hth). cbn [mbind option_bind].
  pose proof (link_good s cur th (wq_head wq) Hg Hth) as Hg1. set (s1 := with_threads s _) in *.
  destruct (sched_block_spec boot_thread idle_threads s1 c) as (s2 & next & th1 & thn & Hb & Hh & _ & _ & Hth1 & Hthn & Hrdy & Hre);
    [apply Hg1|done..|].
  rewrite Hb. cbn [mbind option_bind]. exists s2, (WaitQueue (spin_unlock l) cur). split; [done|]. split.
  { apply (rtc_l _ _ s1); [by constructor|]. apply rtc_once. by apply (SCall _ _ _ _ _ _ (CallBlock c)). }
  split; [exact (ran_good _ _ _ _ (handled_ran _ _ _ _ _ Hg1 Hh))|].
  change (current (rqs s1 c)) with cur in *. unfold s1 in Hth1, Hthn, Hre. cbn [threads with_threads] in Hth1, Hthn, Hre.
  rewrite lookup_insert_eq in Hth1. injection Hth1 as <-.
  assert (Hnc : next <> cur). { intros ->. rewrite lookup_insert_eq in Hthn. injection Hthn as <-. simpl in Hrdy. congruence. }
  rewrite lookup_insert_ne in Hthn by done.
  assert (Hblk : forall t thx, t <> cur -> threads s !! t = Some thx -> state thx = THREAD_BLOCKED ->
    threads s2 !! t = Some thx).
  { intros t thx Htc Htx Hbx. assert (t <> next) by (intros ->; congruence).
    destruct Hre as [->|(d & thd & Hd & Hz & ->)]; [|rewrite lookup_delete_ne];
      rewrite ?lookup_insert_ne by done; try done.
    intros ->. rewrite !lookup_insert_ne in Hd by done. congruence. }
  assert (HcW : cur ∉ W).
  { intros Hin. destruct (wchain_blocked _ _ _ _ Hch Hin) as (thx & Hx & Hbx). congruence. }
  split; [done|]. split; [by apply NoDup_cons|]. simpl. split; [done|]. split; [done|].
  exists (set_state THREAD_BLOCKED (set_wq_next (wq_head wq) th)). split; [|split; [done|]].
  - destruct Hre as [->|(d & thd & Hd & Hz & ->)]; [|rewrite lookup_delete_ne];
      rewrite ?(lookup_insert_ne _ next) by done; rewrite ?lookup_insert_eq; try done.
    intros ->. rewrite lookup_insert_ne, lookup_insert_eq in Hd by done. injection Hd as <-. done.
  - eapply wchain_ext; [|done]. intros t Hin. destruct (wchain_blocked _ _ _ _ Hch Hin) as (thx & Hx & Hbx).
    rewrite Hx. apply Hblk; [by intros ->|done..].
Qed.

Lemma wq_wake_one_spec (s : sched) wq t W c :
  good s -> waits s wq (t :: W) ->
  exists s' wq', wq_wake_one s wq c = Some (s', wq') /\ rtc sstep s s' /\ waits s' wq' W /\
    exists th, threads s' !! t = Some th /\ state th = THREAD_READY.
Proof.
  intros Hg (Hlk & Hnd & Hhd & Ht0 & th & Hth & Hs & Hc). unfold wq_wake_one.
  destruct (spin_lock_free _ Hlk) as (l & -> & Hun). cbn [mbind option_bind].
  rewrite Hhd, (proj2 (Z.eqb_neq _ _) Ht0), Hth. cbn [mbind option_bind].
  apply NoDup_cons in Hnd as [Hni Hnd].
  destruct (wake_step s c t th Hg Ht0 Hth Hs) as (s1 & s2 & mv & -> & Hub & Hr & _ & Hm).
  cbn [mbind option_bind]. rewrite Hub. cbn [mbind option_bind]. eexists _, _. split; [done|]. split; [done|].
  split; [|rewrite Hm, lookup_insert_eq; by eexists]. split; [done|]. split; [done|].
  eapply wchain_ext; [|done]. intros x Hx. rewrite Hm. apply lookup_insert_ne. by intros ->.
Qed.

(** wq_wake_all makes every waiter of the queue ready, touches no other
    thread and leaves the queue empty; it returns in every reachable state. *)
Theorem wq_wake_all_ready (s : sched) wq W cpu :
  reachable s -> waits s wq W ->
  exists s' wq', wq_wake_all s wq cpu = Some (s', wq') /\ reachable s' /\ waits s' wq' [] /\
    (forall t, t ∈ W -> exists th, threads s' !! t = Some th /\ state th = THREAD_READY) /\
    (forall t, t ∉ W -> threads s' !! t = threads s !! t).
Proof.
  intros Hre (Hlk & Hnd & Hc). pose proof (reachable_good _ _ _ _ _ _ _ s Hre) as Hg. unfold wq_wake_all.
  destruct (spin_lock_free _ Hlk) as (l & -> & Hun). cbn [mbind option_bind].
  pose proof (wchain_size _ _ _ Hc Hnd) as Hsz.
  destruct (wake_list_spec W (S (size (threads s))) s cpu (wq_head wq) Hg Hnd Hc) as (s' & -> & Hr & _ & Hin & Hout);
    [lia|]. cbn [mbind option_bind]. eexists _, _. split; [done|]. split; [by eapply reach_steps|].
  split; [|done]. split; [done|]. split; [constructor|done].
Qed.

(** wq_wait puts the running thread at the head of the queue and blocks
    it, keeping the other waiters; the next wq_wake_one, on any CPU, makes that
    thread ready and leaves the others waiting. *)
Theorem wq_wait_wake_one (s : sched) wq W c c' :
  reachable s -> in_thread s c -> waits s wq W ->
  exists s1 wq1 s2 wq2, wq_wait s wq c = Some (s1, wq1) /\ waits s1 wq1 (sched_current s c :: W) /\ reachable s1 /\
    wq_wake_one s1 wq1 c' = Some (s2, wq2) /\ waits s2 wq2 W /\ reachable s2 /\
    exists th, threads s2 !! sched_current s c = Some th /\ state th = THREAD_READY.
Proof.
  intros Hre Hin Hw. pose proof (reachable_good _ _ _ _ _ _ _ s Hre) as Hg.
  destruct (wq_wait_spec s wq W c Hg Hin Hw) as (s1 & wq1 & Hq & Hr & Hg1 & Hw1).
  destruct (wq_wake_one_spec s1 wq1 _ W c' Hg1 Hw1) as (s2 & wq2 & Hq2 & Hr2 & Hw2 & Hth).
  pose proof (reach_steps _ _ Hre Hr) as Hre1. exists s1, wq1, s2, wq2. split; [done|]. split; [done|]. split; [done|].
  split; [done|]. split; [done|]. split; [by eapply reach_steps|done].
Qed.
End waiting.

(** ** Runs of the small kernel *)

(** A second thread runs beside the boot thread. *)
Definition wq_run : list call := [CallCreate 0 0 1 0 0].

Lemma waits_init {H A} `{OrdTree H} `{Allocator A} (s : sched (H := H) (A := A)) : waits s WAIT_QUEUE_INIT [].
Proof. split; [by split|]. split; [constructor|done]. Qed.

Lemma wq_ready : exists s : ex_state, ex_reachable s /\ in_thread s 0 /\ sched_current s 0 = ex_boot.
Proof.
  assert (He : (s ← ex_run wq_run; Some (enabledb ex_idle s (CallBlock 0), sched_current s 0)) = Some (true, ex_boot))
    by by vm_compute.
  apply bind_Some in He as (s & Hs & He). injection He as He Hc. exists s. split; [by eapply ex_run_reachable|].
  split; [|done]. exact (enabledb_sound ex_idle ex_zero ex_zero s (CallBlock 0) He).
Qed.

Lemma wq_wait_wake_one_witness : exists (s s1 : ex_state) wq1 th,
  wq_wait s WAIT_QUEUE_INIT 0 = Some (s1, wq1) /\ waits s1 wq1 [ex_boot] /\
  exists s2 wq2, wq_wake_one s1 wq1 1 = Some (s2, wq2) /\ threads s2 !! ex_boot = Some th /\ state th = THREAD_READY.
Proof.
  destruct wq_ready as (s & Hr & Hin & Hcur).
  destruct (wq_wait_wake_one ex_boot ex_idle 0 ex_zero ex_zero 0 0 s WAIT_QUEUE_INIT [] 0 1 Hr Hin (waits_init s))
    as (s1 & wq1 & s2 & wq2 & Hw & Hw1 & _ & Hk & _ & _ & th & Hth & Hs). rewrite Hcur in Hw1, Hth.
  exists s, s1, wq1, th. split; [exact Hw|]. split; [exact Hw1|]. exists s2, wq2. auto.
Defined.

Lemma wq_wake_all_ready_witness : exists (s s' : ex_state) wq wq' th,
  waits s wq [ex_boot] /\ wq_wake_all s wq 0 = Some (s', wq') /\ threads s' !! ex_boot = Some th /\ state th = THREAD_READY.
Proof.
  destruct wq_ready as (s & Hr & Hin & Hcur).
  destruct (wq_wait_spec ex_boot ex_idle ex_zero ex_zero 0 0 s WAIT_QUEUE_INIT [] 0
    (reachable_good _ _ _ _ _ _ _ s Hr) Hin (waits_init s)) as (s1 & wq1 & _ & Hr1 & _ & Hw1). rewrite Hcur in Hw1.
  destruct (wq_wake_all_ready ex_boot ex_idle 0 ex_zero ex_zero 0 0 s1 wq1 [ex_boot] 0
    (reach_steps _ _ _ _ _ _ _ s s1 Hr Hr1) Hw1) as (s2 & wq2 & Hk & _ & _ & Hth & _).
  destruct (Hth ex_boot) as (th & Ht & Hs); [by left|]. exists s1, s2, wq1, wq2, th. auto.
Defined.

Lemma lost_eval :
  (s ← ex_run wq_run; '(s1, wq1) ← wq_link s WAIT_QUEUE_INIT 0; '(s2, wq2) ← wq_wake_one s1 wq1 1;
   s3 ← sched_block s2 0; th ← threads s3 !! ex_boot;
   Some (sched_current s 0, wq_head wq2, bool_decide (state th = THREAD_BLOCKED))) = Some (ex_boot, 0, true).
Proof. by vm_compute. Qed.

(** wq_wait releases the queue's lock before sched_block marks the thread
    blocked.  A wq_wake_one in between takes the thread off the queue, but
    sched_unblock ignores it because it still runs; the thread then blocks and
    is on no queue: the wakeup is lost. *)
Theorem wq_lost_wakeup :
  exists (s s1 s2 s3 : ex_state) wq1 wq2 th, ex_reachable s /\ sched_current s 0 = ex_boot /\
    wq_link s WAIT_QUEUE_INIT 0 = Some (s1, wq1) /\ wq_wake_one s1 wq1 1 = Some (s2, wq2) /\
    sched_block s2 0 = Some s3 /\
    threads s3 !! ex_boot = Some th /\ state th = THREAD_BLOCKED /\ wq_head wq2 = 0.
Proof.
  pose proof lost_eval as He. apply bind_Some in He as (s & Hs & He).
  apply bind_Some in He as ([s1 wq1] & H1 & He). apply bind_Some in He as ([s2 wq2] & H2 & He).
  apply bind_Some in He as (s3 & H3 & He). apply bind_Some in He as (th & Hth & He).
  injection He as Hcur Hh Hst. apply bool_decide_eq_true in Hst. exists s, s1, s2, s3, wq1, wq2, th.
  split; [by eapply ex_run_reachable|]. repeat (split; [assumption|]). assumption.
Qed.
