(* ===== verification/Bitmap.v ===== *)
(** * Bitmaps of 64-bit words

    Allocation bitmaps as mm/swap.c and mm/hugepage.c keep them: bit [i mod 64]
    of word [i / 64] is set when entry [i] is in use.  The scan of one word, the
    updates and the number of free entries, with what the two allocators share. *)

From stdpp Require Import base list list_numbers.
From Stdlib Require Import ZArith Lia.
From S2P Require Import Prelude.
Local Open Scope Z.

Definition BITMAP_WORDS (n : Z) : Z := (n + 63) / 64.
Definition ALL_ONES : Z := 2 ^ 64 - 1.

Definition bit_used (bm : Z -> Z) (i : Z) : bool := Z.testbit (bm (i / 64)) (i mod 64).
Definition set_bit (w b : Z) : Z := Z.lor w (Z.shiftl 1 b).
Definition clear_bit (w b : Z) : Z := Z.land w (Z.lnot (Z.shiftl 1 b)).
Definition bm_set (bm : Z -> Z) (i : Z) : Z -> Z := upd bm (i / 64) (set_bit (bm (i / 64)) (i mod 64)).
Definition bm_clear (bm : Z -> Z) (i : Z) : Z -> Z := upd bm (i / 64) (clear_bit (bm (i / 64)) (i mod 64)).

(** The loop over the bits of the word whose first entry is [base], for a
    bitmap of [n] entries: a clear bit, an index past the end, or neither. *)
Inductive scan := Found (b : Z) | Over | Full.

Fixpoint scan_word (fuel : nat) (b word base n : Z) : scan :=
  match fuel with
  | O => Full
  | S f =>
    if n <=? base + b then Over
    else if negb (Z.testbit word b) then Found b
    else scan_word f (b + 1) word base n
  end.

Definition words_ok (bm : Z -> Z) : Prop := forall w, 0 <= bm w < 2 ^ 64.

(** The number of free entries below [n]. *)
Definition nfree (bm : Z -> Z) (n : Z) : Z :=
  Z.of_nat (length (filter (fun i => bit_used bm i = false) (seqZ 0 n))).

Lemma testbit_set w b j : 0 <= b -> Z.testbit (set_bit w b) j = Z.testbit w j || (j =? b).
Proof.
  intros Hb. unfold set_bit. rewrite Z.lor_spec. f_equal.
  destruct (Z.ltb_spec j 0); [rewrite Z.testbit_neg_r by lia; symmetry; apply Z.eqb_neq; lia|].
  rewrite Z.shiftl_1_l, Z.pow2_bits_eqb by done. by rewrite Z.eqb_sym.
Qed.

Lemma testbit_clear w b j : 0 <= b -> Z.testbit (clear_bit w b) j = Z.testbit w j && negb (j =? b).
Proof.
  intros Hb. unfold clear_bit. rewrite Z.land_spec.
  destruct (Z.ltb_spec j 0); [by rewrite !Z.testbit_neg_r by lia|].
  rewrite Z.lnot_spec, Z.shiftl_1_l, Z.pow2_bits_eqb by done. by rewrite Z.eqb_sym.
Qed.

Lemma bits_range w : 0 <= w -> (forall j, 64 <= j -> Z.testbit w j = false) -> w < 2 ^ 64.
Proof.
  intros H0 Hj. destruct (Z.eq_dec w 0) as [->|Hw]; [done|].
  apply Z.log2_lt_pow2; [lia|]. destruct (Z.lt_ge_cases (Z.log2 w) 64) as [?|Hge]; [done|].
  specialize (Hj _ Hge). rewrite Z.bit_log2 in Hj by lia. done.
Qed.

Lemma high_bits w j : 0 <= w < 2 ^ 64 -> 64 <= j -> Z.testbit w j = false.
Proof.
  intros Hw Hj. destruct (Z.eq_dec w 0) as [->|Hne]; [apply Z.bits_0|].
  apply Z.bits_above_log2; [lia|]. apply Z.lt_le_trans with 64; [|lia]. apply Z.log2_lt_pow2; lia.
Qed.

Lemma set_bit_range w b : 0 <= w < 2 ^ 64 -> 0 <= b < 64 -> 0 <= set_bit w b < 2 ^ 64.
Proof.
  intros Hw Hb. assert (0 <= set_bit w b).
  { apply Z.lor_nonneg. split; [lia|]. apply Z.shiftl_nonneg. lia. }
  split; [done|]. apply bits_range; [done|]. intros j Hj. rewrite testbit_set by lia.
  rewrite high_bits by lia. apply Z.eqb_neq. lia.
Qed.

Lemma clear_bit_range w b : 0 <= w < 2 ^ 64 -> 0 <= b -> 0 <= clear_bit w b < 2 ^ 64.
Proof.
  intros Hw Hb. assert (0 <= clear_bit w b) by (apply Z.land_nonneg; lia).
  split; [done|]. apply bits_range; [done|]. intros j Hj. rewrite testbit_clear by lia. by rewrite high_bits by lia.
Qed.

Lemma div_mod_64 i : 0 <= i -> i = 64 * (i / 64) + i mod 64 /\ 0 <= i mod 64 < 64 /\ 0 <= i / 64.
Proof. intros Hi. zlia. Qed.

Lemma index_eq i j : i / 64 = j / 64 -> i mod 64 = j mod 64 -> i = j.
Proof. zlia. Qed.

Lemma bit_used_set bm i j : bit_used (bm_set bm i) j = bit_used bm j || (j =? i).
Proof.
  unfold bit_used, bm_set. destruct (decide (j / 64 = i / 64)) as [Heq|Hne].
  - rewrite Heq, upd_eq, testbit_set by zlia. f_equal.
    destruct (Z.eqb_spec (j mod 64) (i mod 64)), (Z.eqb_spec j i); try done; subst; try done. destruct n. by apply index_eq.
  - rewrite upd_ne by done. destruct (Z.eqb_spec j i); [by subst|]. by rewrite orb_false_r.
Qed.

Lemma bit_used_clear bm i j : bit_used (bm_clear bm i) j = bit_used bm j && negb (j =? i).
Proof.
  unfold bit_used, bm_clear. destruct (decide (j / 64 = i / 64)) as [Heq|Hne].
  - rewrite Heq, upd_eq, testbit_clear by zlia. f_equal. f_equal.
    destruct (Z.eqb_spec (j mod 64) (i mod 64)), (Z.eqb_spec j i); try done; subst; try done. destruct n. by apply index_eq.
  - rewrite upd_ne by done. destruct (Z.eqb_spec j i); [by subst|]. by rewrite andb_true_r.
Qed.

Lemma words_ok_set bm i : words_ok bm -> words_ok (bm_set bm i).
Proof.
  intros Hw w. unfold bm_set, upd. destruct (w =? i / 64); [|apply Hw].
  apply set_bit_range; [apply Hw|zlia].
Qed.

Lemma words_ok_clear bm i : words_ok bm -> words_ok (bm_clear bm i).
Proof.
  intros Hw w. unfold bm_clear, upd. destruct (w =? i / 64); [|apply Hw].
  apply clear_bit_range; [apply Hw|zlia].
Qed.

(** ** Counting *)

Lemma filter_iff_on {A} (P Q : A -> Prop) `{!forall x, Decision (P x), !forall x, Decision (Q x)} (l : list A) :
  (forall x, x ∈ l -> P x <-> Q x) -> filter P l = filter Q l.
Proof.
  induction l as [|x l IH]; [done|]. intros Heq. rewrite !filter_cons, IH by (intros; apply Heq; by right).
  specialize (Heq x ltac:(by left)). destruct (decide (P x)), (decide (Q x)); tauto.
Qed.

Lemma filter_true {A} (l : list A) : filter (fun _ => True) l = l.
Proof. induction l as [|x l IH]; [done|]. rewrite filter_cons_True by done. by rewrite IH. Qed.

Lemma filter_flip {A} (P Q : A -> Prop) `{!forall x, Decision (P x), !forall x, Decision (Q x)} (l : list A) i :
  NoDup l -> i ∈ l -> P i -> ~ Q i -> (forall j, j <> i -> P j <-> Q j) ->
  length (filter P l) = S (length (filter Q l)).
Proof.
  intros Hnd Hin HP HQ Heq. apply list_elem_of_split in Hin as (l1 & l2 & ->).
  apply NoDup_app in Hnd as (_ & Hd & [Hn _]%NoDup_cons). rewrite !filter_app, !length_app.
  rewrite filter_cons_True, filter_cons_False by done. simpl.
  rewrite (filter_iff_on P Q l1), (filter_iff_on P Q l2); [lia| |].
  - intros j Hj. apply Heq. by intros ->.
  - intros j Hj. apply Heq. intros ->. apply (Hd i); [done|by left].
Qed.

Lemma nfree_set bm n i : 0 <= i < n -> bit_used bm i = false -> nfree (bm_set bm i) n = nfree bm n - 1.
Proof.
  intros Hi Hu. unfold nfree. enough (length (filter (fun j => bit_used bm j = false) (seqZ 0 n)) =
    S (length (filter (fun j => bit_used (bm_set bm i) j = false) (seqZ 0 n)))) by lia.
  apply (filter_flip _ _ _ i); [apply NoDup_seqZ|apply elem_of_seqZ; lia|done| |].
  - rewrite bit_used_set, Z.eqb_refl. by rewrite orb_true_r.
  - intros j Hj. by rewrite bit_used_set, (proj2 (Z.eqb_neq _ _) Hj), orb_false_r.
Qed.

Lemma nfree_clear bm n i : 0 <= i < n -> bit_used bm i = true -> nfree (bm_clear bm i) n = nfree bm n + 1.
Proof.
  intros Hi Hu. unfold nfree. enough (length (filter (fun j => bit_used (bm_clear bm i) j = false) (seqZ 0 n)) =
    S (length (filter (fun j => bit_used bm j = false) (seqZ 0 n)))) by lia.
  apply (filter_flip _ _ _ i); [apply NoDup_seqZ|apply elem_of_seqZ; lia| |by rewrite Hu|].
  - rewrite bit_used_clear, Z.eqb_refl. by rewrite andb_false_r.
  - intros j Hj. by rewrite bit_used_clear, (proj2 (Z.eqb_neq _ _) Hj), andb_true_r.
Qed.

Lemma nfree_clear_free bm n i : bit_used bm i = false -> nfree (bm_clear bm i) n = nfree bm n.
Proof.
  intros Hu. unfold nfree. f_equal. f_equal. apply list_filter_iff. intros j. rewrite bit_used_clear.
  destruct (Z.eqb_spec j i) as [->|]; [rewrite Hu|rewrite andb_true_r]; done.
Qed.

Lemma nfree_range bm n : 0 <= n -> 0 <= nfree bm n <= n.
Proof.
  intros Hn. unfold nfree. pose proof (sublist_length _ _ (sublist_filter (fun i => bit_used bm i = false) (seqZ 0 n))) as Hl.
  rewrite length_seqZ in Hl. lia.
Qed.

Lemma nfree_zero bm n : 0 <= n -> (forall w, bm w = 0) -> nfree bm n = n.
Proof.
  intros Hn Hz. unfold nfree. rewrite (filter_iff_on _ (fun _ => True)).
  - rewrite filter_true, length_seqZ. lia.
  - intros i _. unfold bit_used. rewrite Hz. by rewrite Z.bits_0.
Qed.

Lemma nfree_pos bm n : 0 < nfree bm n -> exists i, 0 <= i < n /\ bit_used bm i = false.
Proof.
  unfold nfree. intros Hp. destruct (filter _ _) as [|i l] eqn:Hf; [simpl in Hp; lia|].
  assert (Hin : i ∈ filter (fun i => bit_used bm i = false) (seqZ 0 n)) by (rewrite Hf; by left).
  apply list_elem_of_filter in Hin as [Hu Hin]. apply elem_of_seqZ in Hin. exists i. split; [lia|done].
Qed.

(** ** Scanning *)

Lemma scan_word_found fuel : forall b word base n r,
  scan_word fuel b word base n = Found r -> b <= r < b + Z.of_nat fuel /\ base + r < n /\ Z.testbit word r = false.
Proof.
  induction fuel as [|f IH]; intros b word base n r; simpl; [done|].
  destruct (Z.leb_spec n (base + b)); [done|]. destruct (Z.testbit word b) eqn:Ht; simpl.
  - intros (? & ? & ?)%IH. split; [lia|done].
  - intros [= ->]. split; [lia|]. split; [lia|done].
Qed.

Lemma scan_word_none fuel : forall b word base n,
  (scan_word fuel b word base n = Over \/ scan_word fuel b word base n = Full) ->
  forall j, b <= j < b + Z.of_nat fuel -> base + j < n -> Z.testbit word j = true.
Proof.
  induction fuel as [|f IH]; intros b word base n; simpl; [lia|].
  destruct (Z.leb_spec n (base + b)); [lia|]. destruct (Z.testbit word b) eqn:Ht; simpl; [|intros [?|?]; done].
  intros Hs j Hj Hn. destruct (decide (j = b)) as [->|]; [done|]. apply (IH (b + 1) word base n Hs); lia.
Qed.

Lemma scan_word_over fuel : forall b word base n,
  scan_word fuel b word base n = Over -> n < base + b + Z.of_nat fuel.
Proof.
  induction fuel as [|f IH]; intros b word base n; simpl; [done|].
  destruct (Z.leb_spec n (base + b)); [lia|]. destruct (negb _); [done|]. intros Hs%IH. lia.
Qed.

Lemma all_ones_bits b : 0 <= b < 64 -> Z.testbit ALL_ONES b = true.
Proof. intros Hb. unfold ALL_ONES. change (2 ^ 64 - 1) with (Z.ones 64). apply Z.ones_spec_low. lia. Qed.

Lemma bit_used_word bm w b : 0 <= b < 64 -> bit_used bm (w * 64 + b) = Z.testbit (bm w) b.
Proof. intros Hb. unfold bit_used. f_equal; [f_equal|]; zlia. Qed.

(** A word with no free entry: full, or scanned in vain. *)
Lemma word_used bm w n :
  bm w = ALL_ONES \/ scan_word 64 0 (bm w) (w * 64) n = Over \/ scan_word 64 0 (bm w) (w * 64) n = Full ->
  forall i, i / 64 = w -> i < n -> bit_used bm i = true.
Proof.
  intros Hw i Hi Hn. assert (Hb : 0 <= i mod 64 < 64) by zlia. unfold bit_used. rewrite Hi.
  destruct Hw as [->|Hs]; [by apply all_ones_bits|].
  eapply (scan_word_none 64 0); [exact Hs|lia|]. zlia.
Qed.
