(* ===== verification/Mreclaim.v ===== *)
(** * Page reclaim (mm/mreclaim.c)

    The accounting of free pages, the watermarks, the table of shrinkers and a
    pass of the kswapd thread.  Shrinkers are functions other modules register;
    what they do is a parameter over a state of their own. *)

From stdpp Require Import base list sets.
From Stdlib Require Import ZArith Lia.
From S2P Require Import Prelude Spinlock.

Definition DEFAULT_TOTAL_PAGES : Z := 256 * 1024.
Definition DEFAULT_HIGH_FRAC : Z := 15.
Definition DEFAULT_LOW_FRAC : Z := 10.
Definition DEFAULT_MIN_FRAC : Z := 5.
Definition MRECLAIM_MAX_SHRINKERS : nat := 16.

Inductive mem_pressure := MEM_PRESSURE_NONE | MEM_PRESSURE_LOW | MEM_PRESSURE_MEDIUM | MEM_PRESSURE_CRITICAL.

#[export] Instance mem_pressure_eq : EqDecision mem_pressure.
Proof. solve_decision. Defined.

Record mreclaim := Mreclaim {
  mr_lock : spinlock;
  g_free_pg : Z; g_total_pg : Z;
  g_wm_high : Z; g_wm_low : Z; g_wm_min : Z;
  g_nshrinkers : nat; g_shrinkers : nat -> Z;
}.

(** The static initialisers. *)
Definition mreclaim_start : mreclaim :=
  Mreclaim spinlock_init 0 DEFAULT_TOTAL_PAGES 0 0 0 0 (fun _ => 0).

Definition mr_set_lock (l : spinlock) (m : mreclaim) : mreclaim :=
  Mreclaim l (g_free_pg m) (g_total_pg m) (g_wm_high m) (g_wm_low m) (g_wm_min m) (g_nshrinkers m) (g_shrinkers m).
Definition set_pages (free total : Z) (m : mreclaim) : mreclaim :=
  Mreclaim (mr_lock m) free total (g_wm_high m) (g_wm_low m) (g_wm_min m) (g_nshrinkers m) (g_shrinkers m).
Definition set_wm (high low min : Z) (m : mreclaim) : mreclaim :=
  Mreclaim (mr_lock m) (g_free_pg m) (g_total_pg m) high low min (g_nshrinkers m) (g_shrinkers m).
Definition set_shrinkers (n : nat) (f : nat -> Z) (m : mreclaim) : mreclaim :=
  Mreclaim (mr_lock m) (g_free_pg m) (g_total_pg m) (g_wm_high m) (g_wm_low m) (g_wm_min m) n f.

(** [k] between spin_lock_irqsave and spin_unlock_irqrestore. *)
Definition mr_locked {B} (m : mreclaim) (k : mreclaim -> mreclaim * B) : option (mreclaim * B) :=
  l ← spin_lock (mr_lock m);
  let '(m, r) := k (mr_set_lock l m) in
  Some (mr_set_lock (spin_unlock (mr_lock m)) m, r).

Definition recalc_watermarks (m : mreclaim) : mreclaim :=
  set_wm (u64 (g_total_pg m * DEFAULT_HIGH_FRAC) / 100) (u64 (g_total_pg m * DEFAULT_LOW_FRAC) / 100)
         (u64 (g_total_pg m * DEFAULT_MIN_FRAC) / 100) m.

Definition pressure_nolock (m : mreclaim) : mem_pressure :=
  let f := g_free_pg m in
  if g_wm_high m <=? f then MEM_PRESSURE_NONE
  else if g_wm_low m <=? f then MEM_PRESSURE_LOW
  else if g_wm_min m <=? f then MEM_PRESSURE_MEDIUM
  else MEM_PRESSURE_CRITICAL.

Definition mreclaim_pressure (m : mreclaim) : mem_pressure := pressure_nolock m.

Definition mreclaim_register_shrinker (m : mreclaim) (fn : Z) : option (mreclaim * Z) :=
  mr_locked m (fun m =>
    if (MRECLAIM_MAX_SHRINKERS <=? g_nshrinkers m)%nat then (m, -1)
    else (set_shrinkers (S (g_nshrinkers m)) (nupd (g_shrinkers m) (g_nshrinkers m) fn) m, 0)).

(** The loop of mreclaim_unregister_shrinker, from index [i] on. *)
Fixpoint drop_shrinker (fuel i : nat) (fn : Z) (m : mreclaim) : mreclaim :=
  match fuel with
  | O => m
  | S f =>
    if g_shrinkers m i =? fn then
      let n := pred (g_nshrinkers m) in
      set_shrinkers n (nupd (nupd (g_shrinkers m) i (g_shrinkers m n)) n 0) m
    else drop_shrinker f (S i) fn m
  end.

Definition mreclaim_unregister_shrinker (m : mreclaim) (fn : Z) : option (mreclaim * unit) :=
  mr_locked m (fun m => (drop_shrinker (g_nshrinkers m) 0 fn m, tt)).

Definition mreclaim_set_watermarks (m : mreclaim) (high low min : Z) : option (mreclaim * unit) :=
  mr_locked m (fun m => (set_wm high low min m, tt)).

Definition mreclaim_account_alloc (m : mreclaim) (pages : Z) : option (mreclaim * unit) :=
  mr_locked m (fun m =>
    (set_pages (if pages <=? g_free_pg m then g_free_pg m - pages else 0) (g_total_pg m) m, tt)).

Definition mreclaim_account_free (m : mreclaim) (pages : Z) : option (mreclaim * unit) :=
  mr_locked m (fun m =>
    let f := u64 (g_free_pg m + pages) in
    (set_pages (if g_total_pg m <? f then g_total_pg m else f) (g_total_pg m) m, tt)).

Definition mreclaim_free_pages (m : mreclaim) : Z := g_free_pg m.
Definition mreclaim_total_pages (m : mreclaim) : Z := g_total_pg m.

Definition mreclaim_set_total (m : mreclaim) (total_pages : Z) : option (mreclaim * unit) :=
  mr_locked m (fun m => (recalc_watermarks (set_pages total_pages total_pages m), tt)).

(** mreclaim_init, but for the creation of the kswapd thread. *)
Definition mreclaim_init (m : mreclaim) : mreclaim :=
  let m := recalc_watermarks m in set_pages (g_total_pg m) (g_total_pg m) m.

Section shrinkers.
(** Calling the shrinker [fn] with a target and the pressure. *)
Context {E : Type} (shrink : Z -> Z -> mem_pressure -> E -> Z * E).

Fixpoint run_shrinkers (fuel i : nat) (m : mreclaim) (lvl : mem_pressure) (target freed : Z) (e : E) : Z * E :=
  match fuel with
  | O => (freed, e)
  | S f =>
    if target <=? freed then (freed, e)
    else if g_shrinkers m i =? 0 then run_shrinkers f (S i) m lvl target freed e
    else let '(n, e) := shrink (g_shrinkers m i) (target - freed) lvl e in
         run_shrinkers f (S i) m lvl target (u64 (freed + n)) e
  end.

Definition mreclaim_run (m : mreclaim) (target : Z) (e : E) : Z * E :=
  run_shrinkers (g_nshrinkers m) 0 m (mreclaim_pressure m) target 0 e.

(** A pass of kswapd after its sleep: what was asked for and freed, whether it
    warns; [None] when there was nothing to do. *)
Definition kswapd_target (m : mreclaim) (p : mem_pressure) : Z :=
  match p with
  | MEM_PRESSURE_LOW => u64 (g_wm_high m - g_free_pg m)
  | MEM_PRESSURE_MEDIUM => u64 (g_wm_high m - g_free_pg m + g_wm_low m)
  | MEM_PRESSURE_CRITICAL => u64 (g_wm_high m - g_free_pg m + g_total_pg m / 10)
  | MEM_PRESSURE_NONE => 0
  end.

Definition kswapd (m : mreclaim) (e : E) : option (Z * Z * bool) * E :=
  let p := mreclaim_pressure m in
  if bool_decide (p = MEM_PRESSURE_NONE) then (None, e)
  else
    let target := kswapd_target m p in
    if target =? 0 then (None, e)
    else let '(freed, e) := mreclaim_run m target e in
         (Some (target, freed, bool_decide (p = MEM_PRESSURE_CRITICAL) && (freed <? target / 2)), e).
End shrinkers.

(** ** Accounting and the table of shrinkers *)

Inductive mr_op :=
| OpRegister (fn : Z) | OpUnregister (fn : Z) | OpWatermarks (high low min : Z)
| OpAlloc (pages : Z) | OpFree (pages : Z) | OpTotal (pages : Z).

Definition mr_exec (m : mreclaim) (op : mr_op) : option mreclaim :=
  match op with
  | OpRegister fn => fst <$> mreclaim_register_shrinker m fn
  | OpUnregister fn => fst <$> mreclaim_unregister_shrinker m fn
  | OpWatermarks high low min => fst <$> mreclaim_set_watermarks m high low min
  | OpAlloc pages => fst <$> mreclaim_account_alloc m pages
  | OpFree pages => fst <$> mreclaim_account_free m pages
  | OpTotal pages => fst <$> mreclaim_set_total m pages
  end.

Fixpoint mr_run (m : mreclaim) (ops : list mr_op) : option mreclaim :=
  match ops with [] => Some m | op :: ops => m ← mr_exec m op; mr_run m ops end.

(** The arguments are size_t values. *)
Definition op_ok (op : mr_op) : Prop :=
  match op with
  | OpAlloc n | OpFree n | OpTotal n => 0 <= n < 2 ^ 64
  | _ => True
  end.

Definition registered (m : mreclaim) : list Z := g_shrinkers m <$> seq 0 (g_nshrinkers m).

(** What the operations do to the registered shrinkers and the free pages. *)
Definition op_spec (op : mr_op) (m m' : mreclaim) : Prop :=
  match op with
  | OpRegister fn => registered m' = (if (g_nshrinkers m <? 16)%nat then registered m ++ [fn] else registered m)
  | OpUnregister fn =>
      (fn ∈ registered m -> registered m ≡ₚ fn :: registered m') /\ ((fn ∉ registered m) -> registered m' = registered m)
  | _ => registered m' = registered m
  end /\
  match op with
  | OpAlloc n => g_free_pg m' = Z.max 0 (g_free_pg m - n)
  | OpFree n => g_free_pg m + n < 2 ^ 64 -> g_free_pg m' = Z.min (g_total_pg m) (g_free_pg m + n)
  | OpTotal n => g_free_pg m' = n
  | _ => g_free_pg m' = g_free_pg m
  end.

Record mr_ok (m : mreclaim) : Prop := {
  mo_lock : lock_free (mr_lock m);
  mo_free : 0 <= g_free_pg m <= g_total_pg m;
  mo_total : g_total_pg m < 2 ^ 64;
  mo_n : (g_nshrinkers m <= 16)%nat;
}.

Lemma fmap_ext_seq {A} (f g : nat -> A) i n :
  (forall j, (i <= j < i + n)%nat -> f j = g j) -> f <$> seq i n = g <$> seq i n.
Proof. intros Heq. apply list_fmap_ext. intros k j Hj. apply Heq. apply lookup_seq in Hj. lia. Qed.

Lemma drop_shrinker_spec fuel : forall i fn m,
  (i + fuel = g_nshrinkers m)%nat ->
  let m' := drop_shrinker fuel i fn m in
  mr_lock m' = mr_lock m /\ g_free_pg m' = g_free_pg m /\ g_total_pg m' = g_total_pg m /\
  (g_nshrinkers m' <= g_nshrinkers m)%nat /\
  (fn ∈ g_shrinkers m <$> seq i fuel -> registered m ≡ₚ fn :: registered m') /\
  ((fn ∉ g_shrinkers m <$> seq i fuel) -> m' = m).
Proof.
  induction fuel as [|f IH]; intros i fn m Hn; simpl; [set_solver|].
  destruct (Z.eqb_spec (g_shrinkers m i) fn) as [Heq|Hne].
  - simpl. split_and!; try done; [lia| |set_solver]. intros _. unfold registered. simpl.
    set (n := pred (g_nshrinkers m)). assert (HN : g_nshrinkers m = S n) by (unfold n; lia).
    rewrite HN, seq_S, fmap_app. simpl.
    destruct (decide (i = n)) as [->|Hin].
    + rewrite Heq, Permutation_app_comm. simpl. apply Permutation_cons; [done|].
      erewrite fmap_ext_seq; [done|]. intros j Hj. rewrite !nupd_ne by lia. done.
    + assert (Hsp : seq 0 n = seq 0 i ++ i :: seq (S i) (n - S i)).
      { transitivity (seq 0 (i + S (n - S i))); [f_equal; lia|apply seq_app]. }
      rewrite Hsp, !fmap_app, !fmap_cons. rewrite (nupd_ne _ _ i) by lia. rewrite nupd_eq, Heq.
      rewrite (fmap_ext_seq (nupd (nupd _ _ _) _ _) (g_shrinkers m) 0 i), (fmap_ext_seq (nupd (nupd _ _ _) _ _) (g_shrinkers m) (S i)).
      * rewrite <- app_assoc. simpl. rewrite <- Permutation_middle. apply Permutation_cons; [done|].
        apply Permutation_app_head. by rewrite Permutation_app_comm.
      * intros j Hj. rewrite !nupd_ne by lia. done.
      * intros j Hj. rewrite !nupd_ne by lia. done.
  - destruct (IH (S i) fn m ltac:(lia)) as (H1 & H2 & H3 & H4 & H5 & H6). split_and!; try done.
    + intros [->|?]%elem_of_cons; [done|auto].
    + intros [_ ?]%not_elem_of_cons. auto.
Qed.

Lemma mr_locked_some {B} m (k : mreclaim -> mreclaim * B) :
  lock_free (mr_lock m) -> (forall m, mr_lock (fst (k m)) = mr_lock m) ->
  exists l l', mr_locked m k = Some (mr_set_lock l' (fst (k (mr_set_lock l m))), snd (k (mr_set_lock l m))) /\ lock_free l'.
Proof.
  intros Hf Hk. destruct (spin_lock_free _ Hf) as (l & Hl & Hu). exists l, (spin_unlock l). unfold mr_locked. rewrite Hl.
  cbn [mbind option_bind]. specialize (Hk (mr_set_lock l m)). destruct (k (mr_set_lock l m)) as [m' r]. simpl in *.
  by rewrite Hk.
Qed.

(** Runs the body of the locked section in the goal. *)
Ltac enter_locked m :=
  match goal with
  | |- context [mr_locked m ?k] =>
      let l := fresh "l" in let l' := fresh "l'" in let Hl' := fresh "Hl'" in
      destruct (mr_locked_some m k) as (l & l' & -> & Hl'); [assumption|try done|]
  end.

Lemma mr_exec_spec m op :
  mr_ok m -> op_ok op -> exists m', mr_exec m op = Some m' /\ mr_ok m' /\ op_spec op m m'.
Proof.
  intros [Hl Hf Ht Hn] Ho. destruct op as [fn|fn|high low min|n|n|n]; simpl in *.
  - unfold mreclaim_register_shrinker.
    enter_locked m.
    { intros x. cbv beta. by destruct (_ <=? _)%nat. }
    cbn [fmap option_fmap option_map fst snd]. change MRECLAIM_MAX_SHRINKERS with 16%nat. unfold op_spec.
    cbn [g_nshrinkers mr_set_lock].
    destruct (Nat.leb_spec 16 (g_nshrinkers m)), (Nat.ltb_spec (g_nshrinkers m) 16); try lia; cbn [fst snd].
    + eexists. split; [done|]. split; [by split|]. by split.
    + eexists. split; [done|]. split; [split; simpl; try done; lia|]. split; [|done]. unfold registered.
      cbn [g_nshrinkers g_shrinkers mr_set_lock set_shrinkers]. rewrite seq_S, fmap_app. simpl. rewrite nupd_eq. f_equal. apply fmap_ext_seq. intros j Hj. apply nupd_ne. lia.
  - unfold mreclaim_unregister_shrinker.
    pose proof (fun x => drop_shrinker_spec (g_nshrinkers x) 0 fn x eq_refl) as Hd.
    enter_locked m.
    { intros x. simpl. apply Hd. }
    cbn [fmap option_fmap option_map fst snd]. specialize (Hd (mr_set_lock l m)).
    destruct Hd as (H1 & H2 & H3 & H4 & H5 & H6). simpl in *. eexists. split; [done|]. split.
    { split; simpl; try done; [by rewrite H2, H3|by rewrite H3|lia]. }
    split; [|done]. split; [exact H5|]. intros Hni. rewrite H6; done.
  - unfold mreclaim_set_watermarks. enter_locked m.
    eexists. split; [done|]. split; [by split|]. by split.
  - unfold mreclaim_account_alloc. enter_locked m.
    eexists. split; [done|]. simpl. split; [split; simpl; try done|split; [done|simpl]];
      destruct (Z.leb_spec n (g_free_pg m)); lia.
  - unfold mreclaim_account_free. enter_locked m.
    eexists. split; [done|]. simpl. assert (0 <= u64 (g_free_pg m + n)) by (unfold u64; zlia).
    split; [split; simpl; try done|split; [done|simpl]].
    + destruct (Z.ltb_spec (g_total_pg m) (u64 (g_free_pg m + n))); lia.
    + intros Hw. rewrite u64_small by lia. destruct (Z.ltb_spec (g_total_pg m) (g_free_pg m + n)); lia.
  - unfold mreclaim_set_total. enter_locked m.
    eexists. split; [done|]. split; [split; simpl; try done; lia|]. by split.
Qed.

Lemma mr_run_ok ops : forall m, mr_ok m -> Forall op_ok ops -> exists m', mr_run m ops = Some m' /\ mr_ok m'.
Proof.
  induction ops as [|op ops IH]; intros m Hm Ho; simpl; [by exists m|].
  apply Forall_cons in Ho as [Ho Hos]. destruct (mr_exec_spec m op Hm Ho) as (m1 & -> & Hm1 & _).
  cbn [mbind option_bind]. by apply IH.
Qed.

(** From mreclaim_init on, every sequence of calls returns and keeps the
    number of free pages between zero and the total; the next call changes the
    registered shrinkers and the free pages as its name says: a shrinker is
    appended, or one occurrence of it dropped, and page counts saturate. *)
Theorem mreclaim_accounting ops :
  Forall op_ok ops ->
  exists m, mr_run (mreclaim_init mreclaim_start) ops = Some m /\ 0 <= g_free_pg m <= g_total_pg m /\
    forall op, op_ok op -> exists m', mr_exec m op = Some m' /\ op_spec op m m'.
Proof.
  intros Ho. destruct (mr_run_ok ops (mreclaim_init mreclaim_start)) as (m & Hr & Hm); [|done|].
  { split; [by split|vm_compute; by split|vm_compute; reflexivity|vm_compute; lia]. }
  exists m. split; [done|]. split; [apply Hm|]. intros op Hop.
  destruct (mr_exec_spec m op Hm Hop) as (m' & ? & _ & ?). eauto.
Qed.

Lemma mreclaim_accounting_witness :
  exists m, mr_run (mreclaim_init mreclaim_start) [OpRegister 4096; OpAlloc 100] = Some m /\ 0 <= g_free_pg m <= g_total_pg m.
Proof.
  destruct (mreclaim_accounting [OpRegister 4096; OpAlloc 100]) as (m & Hm & Hf & _).
  - repeat constructor; vm_compute; by split || done.
  - exists m. split; [exact Hm|exact Hf].
Defined.

(** ** kswapd *)

Section kswapd.
Context {E : Type} (shrink : Z -> Z -> mem_pressure -> E -> Z * E).

(** The shrinker calls, recorded. *)
Definition logged (fn target : Z) (lvl : mem_pressure) (e : E * list Z) : Z * (E * list Z) :=
  let '(n, e') := shrink fn target lvl e.1 in (n, (e', e.2 ++ [fn])).

Lemma run_shrinkers_spec fuel : forall i m lvl target freed e log,
  (forall fn t lvl e, 0 <= t -> 0 <= fst (shrink fn t lvl e) <= t) -> target < 2 ^ 64 -> 0 <= freed <= target ->
  let '(freed', (e', log')) := run_shrinkers logged fuel i m lvl target freed (e, log) in
  run_shrinkers shrink fuel i m lvl target freed e = (freed', e') /\ freed <= freed' <= target /\
  (freed' < target -> log' = log ++ filter (fun fn => fn <> 0) (g_shrinkers m <$> seq i fuel)).
Proof.
  induction fuel as [|f IH]; intros i m lvl target freed e log Hs Ht Hf; simpl.
  { split; [done|]. split; [lia|]. by rewrite app_nil_r. }
  destruct (Z.leb_spec target freed); [split; [done|]; split; lia|].
  destruct (Z.eqb_spec (g_shrinkers m i) 0) as [Hz|Hz].
  { rewrite filter_cons_False by (intros Hn; by apply Hn). by apply IH. }
  rewrite filter_cons_True by done. unfold logged at 1. cbn [fst snd].
  specialize (Hs (g_shrinkers m i) (target - freed) lvl e ltac:(lia)) as Hle.
  destruct (shrink (g_shrinkers m i) (target - freed) lvl e) as [n e1]. simpl in Hle.
  rewrite u64_small by lia.
  specialize (IH (S i) m lvl target (freed + n) e1 (log ++ [g_shrinkers m i]) Hs Ht ltac:(lia)).
  destruct (run_shrinkers logged f (S i) m lvl target (freed + n) _) as [freed' [e' log']].
  destruct IH as (H1 & H2 & H3). split; [done|]. split; [lia|]. intros Hlt. rewrite H3 by done. by rewrite <- app_assoc.
Qed.

(** Under pressure a pass of kswapd asks the shrinkers for at least the
    pages missing to the high watermark, never counts more than it asked for,
    and stops short of the target only after every registered shrinker was
    asked, in the order of the table. *)
Theorem kswapd_asks_all m e :
  mr_ok m -> 0 <= g_wm_low m -> g_wm_high m + g_wm_low m < 2 ^ 64 -> g_wm_high m + g_total_pg m / 10 < 2 ^ 64 ->
  (forall fn t lvl e, 0 <= t -> 0 <= fst (shrink fn t lvl e) <= t) -> g_free_pg m < g_wm_high m ->
  exists target freed warn e' log, kswapd logged m (e, []) = (Some (target, freed, warn), (e', log)) /\
    kswapd shrink m e = (Some (target, freed, warn), e') /\
    g_wm_high m - g_free_pg m <= target /\ 0 <= freed <= target /\
    (freed < target -> log = filter (fun fn => fn <> 0) (registered m)).
Proof.
  intros [Hl Hf Ht Hn] Hlow Hw1 Hw2 Hs Hp. unfold kswapd, mreclaim_pressure.
  set (p := pressure_nolock m). assert (Hpn : p <> MEM_PRESSURE_NONE).
  { unfold p, pressure_nolock. destruct (Z.leb_spec (g_wm_high m) (g_free_pg m)); [lia|].
    by repeat destruct (_ <=? _). }
  rewrite bool_decide_eq_false_2 by done. set (target := kswapd_target m p).
  assert (Htg : g_wm_high m - g_free_pg m <= target < 2 ^ 64).
  { assert (0 <= g_total_pg m / 10) by zlia. assert (0 <= g_wm_high m - g_free_pg m < 2 ^ 64) by lia.
    unfold target, kswapd_target. destruct p; try done; rewrite u64_small; lia. }
  rewrite (proj2 (Z.eqb_neq target 0)) by lia. unfold mreclaim_run.
  pose proof (run_shrinkers_spec (g_nshrinkers m) 0 m (mreclaim_pressure m) target 0 e [] Hs) as Hr.
  destruct (run_shrinkers logged _ _ _ _ _ _ _) as [freed [e' log]].
  destruct Hr as (Hr & Hfr & Hlog); [lia|lia|]. rewrite Hr. eexists target, freed, _, e', log.
  split; [done|]. split; [done|]. split; [lia|]. split; [lia|done].
Qed.
End kswapd.

(** Two shrinkers that give back half of what they are asked for. *)
Definition wit_mr : mreclaim := Mreclaim spinlock_init 20 1000 150 100 50 2 (fun i => 64 + Z.of_nat i).

Lemma kswapd_asks_all_witness :
  kswapd (fun _ t _ n => (t / 2, n + 1)) wit_mr 0 = (Some (230, 172, false), 2) /\
  150 - 20 <= 230 /\ 172 <= 230.
Proof.
  destruct (kswapd_asks_all (fun _ t _ n => (t / 2, n + 1)) wit_mr 0) as (t & f & w & e & log & _ & Hk & Ht & Hf & _).
  - split; [by split|vm_compute; by split|vm_compute; reflexivity|vm_compute; lia].
  - vm_compute. discriminate.
  - vm_compute. reflexivity.
  - vm_compute. reflexivity.
  - intros fn t lvl e Ht. simpl. zlia.
  - vm_compute. reflexivity.
  - vm_compute in Hk. injection Hk as <- <- <- <-. split; [reflexivity|]. split; [exact Ht|exact (proj2 Hf)].
Defined.
