(* ===== verification/Numa.v ===== *)
(** * NUMA topology (mm/numa.c)

    Parsing the ACPI SRAT table, given as the bytes in memory, into the nodes
    and the map from local APIC ids to nodes.  The theorems hold for every
    table, well formed or not: the loops terminate, the nodes are at most eight
    with distinct proximity domains, every CPU gets an existing node, and the
    node of a listed CPU is that of its last enabled entry. *)

From stdpp Require Import base list sets.
From Stdlib Require Import ZArith Lia.
From S2P Require Import Prelude.

Definition NUMA_MAX_NODES : Z := 8.
Definition NUMA_NODE_NONE : Z := 255.
Definition SRAT_TYPE_CPU : Z := 0.
Definition SRAT_TYPE_MEM : Z := 1.
Definition SRAT_TYPE_X2APIC : Z := 2.
Definition ACPI_SDT_HDR_SIZE : Z := 36.

Record numa_node := NumaNode { prox_domain : Z; mem_base : Z; mem_len : Z }.

Record numa := Numa { g_numa_nodes : Z -> numa_node; g_numa_node_count : Z; g_apic_to_node : Z -> Z }.

Definition numa_zero : numa := Numa (fun _ => NumaNode 0 0 0) 0 (fun _ => 0).

Definition set_node (s : numa) (i : Z) (n : numa_node) : numa :=
  Numa (upd (g_numa_nodes s) i n) (g_numa_node_count s) (g_apic_to_node s).
Definition set_apic (s : numa) (a n : Z) : numa :=
  Numa (g_numa_nodes s) (g_numa_node_count s) (upd (g_apic_to_node s) a n).

Section tables.
(** The bytes in memory. *)
Context (byte : Z -> Z).

Definition rd32 (p : Z) : Z :=
  Z.lor (Z.lor (Z.lor (byte p) (Z.shiftl (byte (p + 1)) 8)) (Z.shiftl (byte (p + 2)) 16)) (Z.shiftl (byte (p + 3)) 24).

(** [for (i = 0; i < g_numa_node_count; i++) if (... == prox) return i;] *)
Fixpoint find_node (fuel : nat) (i : Z) (s : numa) (prox : Z) : option Z :=
  match fuel with
  | O => None
  | S f => if prox_domain (g_numa_nodes s i) =? prox then Some i else find_node f (i + 1) s prox
  end.

Definition prox_to_node (s : numa) (prox : Z) : Z * numa :=
  match find_node (Z.to_nat (g_numa_node_count s)) 0 s prox with
  | Some i => (i, s)
  | None =>
    if NUMA_MAX_NODES <=? g_numa_node_count s then (0, s)
    else
      let idx := g_numa_node_count s in
      (idx, Numa (upd (g_numa_nodes s) idx (NumaNode prox 0 0)) (idx + 1) (g_apic_to_node s))
  end.

Definition fallback_single_node (s : numa) : numa :=
  Numa (upd (g_numa_nodes s) 0 (NumaNode 0 0 (2 ^ 64 - 1))) 1 (fun _ => 0).

(** A loop over the entries between [q] and [e]; the entry's length is its
    second byte. *)
Fixpoint for_entries (fuel : nat) (q e : Z) (body : numa -> Z -> numa) (s : numa) : option numa :=
  match fuel with
  | O => None
  | S f =>
    if negb (q <? e) then Some s
    else if (byte (q + 1) <? 2) || (e <? q + byte (q + 1)) then Some s
    else for_entries f (q + byte (q + 1)) e body (body s q)
  end.

Definition enabled_flag (flags : Z) : bool := negb (Z.land flags 1 =? 0).

(** srat_mem_t: prox_domain at 2, base at 8, length at 16, flags at 28. *)
Definition mem_entry (s : numa) (q : Z) : numa :=
  if (byte q =? SRAT_TYPE_MEM) && enabled_flag (rd32 (q + 28)) then
    let '(nid, s) := prox_to_node s (rd32 (q + 2)) in
    let base := Z.lor (Z.shiftl (rd32 (q + 12)) 32) (rd32 (q + 8)) in
    let mlen := Z.lor (Z.shiftl (rd32 (q + 20)) 32) (rd32 (q + 16)) in
    if mem_len (g_numa_nodes s nid) <? mlen
    then set_node s nid (NumaNode (prox_domain (g_numa_nodes s nid)) base mlen)
    else s
  else s.

(** srat_cpu_t: prox_lo at 2, apic_id at 3, flags at 4, prox_hi at 9;
    srat_x2apic_t: prox_domain at 4, x2apic_id at 8, flags at 12. *)
Definition cpu_prox (q : Z) : option (Z * Z) :=
  if byte q =? SRAT_TYPE_CPU then
    if enabled_flag (rd32 (q + 4)) then
      Some (byte (q + 3), Z.lor (Z.lor (Z.lor (Z.shiftl (byte (q + 11)) 24) (Z.shiftl (byte (q + 10)) 16))
                                       (Z.shiftl (byte (q + 9)) 8)) (byte (q + 2)))
    else None
  else if byte q =? SRAT_TYPE_X2APIC then
    if enabled_flag (rd32 (q + 12)) && (rd32 (q + 8) <? 256) then Some (rd32 (q + 8), rd32 (q + 4)) else None
  else None.

Definition cpu_entry (s : numa) (q : Z) : numa :=
  match cpu_prox q with
  | Some (apic, prox) => let '(nid, s) := prox_to_node s prox in set_apic s apic (u8 nid)
  | None => s
  end.

(** [hdr] is what acpi_find_table returned for SRAT. *)
Definition numa_init (s : numa) (hdr : option Z) : option numa :=
  let s := Numa (fun _ => NumaNode 0 0 0) (g_numa_node_count s) (fun _ => NUMA_NODE_NONE) in
  match hdr with
  | None => Some (fallback_single_node s)
  | Some hdr =>
    let length := rd32 (hdr + 4) in
    let p := hdr + ACPI_SDT_HDR_SIZE + 12 in
    let e := hdr + length in
    s ← for_entries (S (Z.to_nat length)) p e mem_entry s;
    s ← for_entries (S (Z.to_nat length)) p e cpu_entry s;
    Some (if g_numa_node_count s =? 0 then fallback_single_node s else s)
  end.

Definition numa_node_count (s : numa) : Z :=
  if g_numa_node_count s =? 0 then 1 else g_numa_node_count s.

Definition numa_node_of_apic (s : numa) (apic_id : Z) : Z :=
  let n := g_apic_to_node s apic_id in if n =? NUMA_NODE_NONE then 0 else n.

(** [gs_base] is the GS base register, [gs_apic] the word at %gs:12. *)
Definition numa_current_node (s : numa) (gs_base gs_apic : Z) : Z :=
  if gs_base =? 0 then 0 else numa_node_of_apic s (u8 gs_apic).

(** ** Invariants *)

Record numa_ok (s : numa) : Prop := {
  no_count : 0 <= g_numa_node_count s <= NUMA_MAX_NODES;
  no_inj i j : 0 <= i < g_numa_node_count s -> 0 <= j < g_numa_node_count s ->
    prox_domain (g_numa_nodes s i) = prox_domain (g_numa_nodes s j) -> i = j;
  no_apic a : g_apic_to_node s a = NUMA_NODE_NONE \/ 0 <= g_apic_to_node s a < g_numa_node_count s;
}.

(** Nodes are only added. *)
Record extends (s s' : numa) : Prop := {
  ex_count : g_numa_node_count s <= g_numa_node_count s';
  ex_prox i : 0 <= i < g_numa_node_count s -> prox_domain (g_numa_nodes s' i) = prox_domain (g_numa_nodes s i);
}.

Lemma extends_refl s : extends s s.
Proof. by split. Qed.

Lemma extends_trans s1 s2 s3 : extends s1 s2 -> extends s2 s3 -> extends s1 s3.
Proof. intros [A1 B1] [A2 B2]. split; [lia|]. intros i Hi. rewrite B2, B1 by lia. done. Qed.

Lemma find_node_spec fuel : forall i s prox,
  match find_node fuel i s prox with
  | Some j => i <= j < i + Z.of_nat fuel /\ prox_domain (g_numa_nodes s j) = prox
  | None => forall j, i <= j < i + Z.of_nat fuel -> prox_domain (g_numa_nodes s j) <> prox
  end.
Proof.
  induction fuel as [|f IH]; intros i s prox; simpl; [lia|].
  destruct (Z.eqb_spec (prox_domain (g_numa_nodes s i)) prox) as [Heq|Hne]; [split; [lia|done]|].
  specialize (IH (i + 1) s prox). destruct (find_node f (i + 1) s prox); [split; [lia|apply IH]|].
  intros j Hj. destruct (decide (j = i)) as [->|]; [done|]. apply IH. lia.
Qed.

(** Node [n] stands for domain [prox], or no node does and the table is full. *)
Definition node_for (s : numa) (n prox : Z) : Prop :=
  prox_domain (g_numa_nodes s n) = prox \/
  n = 0 /\ g_numa_node_count s = NUMA_MAX_NODES /\
  forall j, 0 <= j < g_numa_node_count s -> prox_domain (g_numa_nodes s j) <> prox.

Lemma node_for_extends s s' n prox :
  extends s s' -> numa_ok s' -> 0 <= n < g_numa_node_count s -> node_for s n prox -> node_for s' n prox.
Proof.
  intros [Hc Hp] Hok Hn [Hx|(Hz & Hf & Hno)]; [left; by rewrite Hp|].
  pose proof (no_count _ Hok) as Hm. right. split; [done|]. split; [lia|]. intros j Hj. rewrite Hp by lia. apply Hno. lia.
Qed.

Lemma prox_to_node_spec s prox n s' :
  numa_ok s -> prox_to_node s prox = (n, s') ->
  numa_ok s' /\ extends s s' /\ 0 <= n < g_numa_node_count s' /\ node_for s' n prox /\
  g_apic_to_node s' = g_apic_to_node s.
Proof.
  intros [Hc Hi Ha]. unfold prox_to_node, NUMA_MAX_NODES in *.
  pose proof (find_node_spec (Z.to_nat (g_numa_node_count s)) 0 s prox) as Hf.
  destruct (find_node _ 0 s prox) as [j|].
  - intros [= <- <-]. split; [by split|]. split; [apply extends_refl|]. split; [lia|]. split; [left; apply Hf|done].
  - destruct (Z.leb_spec 8 (g_numa_node_count s)); intros [= <- <-].
    + split; [by split|]. split; [apply extends_refl|]. split; [lia|]. split; [|done].
      right. unfold NUMA_MAX_NODES. split; [done|]. split; [lia|]. intros j Hj. apply Hf. lia.
    + split; [split; simpl|split; [split; simpl|split; [simpl; lia|split; [left; simpl; by rewrite upd_eq|done]]]].
      * unfold NUMA_MAX_NODES. lia.
      * intros i j Hi' Hj'. unfold upd.
        destruct (Z.eqb_spec i (g_numa_node_count s)), (Z.eqb_spec j (g_numa_node_count s)); simpl; try lia.
        -- intros Heq. destruct (Hf j); [lia|done].
        -- intros Heq. destruct (Hf i); [lia|done].
        -- intros Heq. apply Hi; [lia|lia|done].
      * intros a. destruct (Ha a); [by left|right; lia].
      * lia.
      * intros i Hi'. rewrite upd_ne by lia. done.
Qed.

Lemma mem_entry_spec s q :
  numa_ok s -> numa_ok (mem_entry s q) /\ extends s (mem_entry s q) /\
  g_apic_to_node (mem_entry s q) = g_apic_to_node s.
Proof.
  intros Hok. unfold mem_entry. destruct (_ && _); [|split; [done|split; [apply extends_refl|done]]].
  destruct (prox_to_node s (rd32 (q + 2))) as [n s1] eqn:Hp.
  destruct (prox_to_node_spec _ _ _ _ Hok Hp) as (Hok1 & Hex & Hn & _ & Hap).
  destruct (_ <? _); [|by split].
  set (s2 := set_node s1 n _).
  assert (Hpr : forall i, prox_domain (g_numa_nodes s2 i) = prox_domain (g_numa_nodes s1 i)).
  { intros i. simpl. unfold upd. destruct (Z.eqb_spec i n) as [->|]; done. }
  split; [|split; [|done]].
  - destruct Hok1 as [Hc Hi Ha]. split; [exact Hc| |exact Ha]. intros i j. rewrite !Hpr. apply Hi.
  - destruct Hex as [Hc Hx]. split; [exact Hc|]. intros i Hi. rewrite Hpr. by apply Hx.
Qed.

Lemma cpu_entry_spec s q :
  numa_ok s -> numa_ok (cpu_entry s q) /\ extends s (cpu_entry s q) /\
  match cpu_prox q with
  | Some (a, prox) => node_for (cpu_entry s q) (g_apic_to_node (cpu_entry s q) a) prox /\
      0 <= g_apic_to_node (cpu_entry s q) a < g_numa_node_count (cpu_entry s q)
  | None => True
  end /\
  forall a, (forall prox, cpu_prox q <> Some (a, prox)) -> g_apic_to_node (cpu_entry s q) a = g_apic_to_node s a.
Proof.
  intros Hok. unfold cpu_entry. destruct (cpu_prox q) as [[a prox]|] eqn:Hq.
  2: { split; [done|]. split; [apply extends_refl|done]. }
  destruct (prox_to_node s prox) as [n s1] eqn:Hp.
  destruct (prox_to_node_spec _ _ _ _ Hok Hp) as (Hok1 & Hex & Hn & Hnf & Hap).
  assert (Hu : u8 n = n). { pose proof (no_count _ Hok1). unfold NUMA_MAX_NODES, u8 in *. apply Z.mod_small. lia. }
  rewrite Hu. split; [|split; [by destruct Hex|split]].
  - destruct Hok1 as [Hc Hi Ha]. split; [done|done|]. intros a'. simpl. unfold upd. destruct (Z.eqb_spec a' a); auto.
  - simpl. rewrite upd_eq. split; [exact Hnf|done].
  - intros a' Hne. simpl. rewrite upd_ne, Hap; [done|]. intros ->. by apply (Hne prox).
Qed.

(** ** The loops *)

(** The entries a loop visits. *)
Fixpoint entries (fuel : nat) (q e : Z) : list Z :=
  match fuel with
  | O => []
  | S f =>
    if negb (q <? e) then [] else if (byte (q + 1) <? 2) || (e <? q + byte (q + 1)) then []
    else q :: entries f (q + byte (q + 1)) e
  end.

Lemma for_entries_fold body fuel : forall q e s,
  Z.max 0 (e - q) < Z.of_nat fuel -> for_entries fuel q e body s = Some (foldl body s (entries fuel q e)).
Proof.
  induction fuel as [|f IH]; intros q e s Hf; simpl.
  - lia.
  - destruct (Z.ltb_spec q e); simpl; [|done].
    destruct (Z.ltb_spec (byte (q + 1)) 2); simpl; [done|]. destruct (Z.ltb_spec e (q + byte (q + 1))); [done|].
    simpl. apply IH. lia.
Qed.

(** The entries of the table at [hdr]. *)
Definition srat_entries (hdr : Z) : list Z :=
  let length := rd32 (hdr + 4) in entries (S (Z.to_nat length)) (hdr + ACPI_SDT_HDR_SIZE + 12) (hdr + length).

Lemma fold_mem l : forall s, numa_ok s -> numa_ok (foldl mem_entry s l).
Proof. induction l as [|q l IH]; intros s Hs; simpl; [done|]. apply IH. by apply mem_entry_spec. Qed.

Lemma fold_cpu l : forall s, numa_ok s -> numa_ok (foldl cpu_entry s l) /\ extends s (foldl cpu_entry s l).
Proof.
  induction l as [|q l IH]; intros s Hs; simpl; [split; [done|apply extends_refl]|].
  destruct (cpu_entry_spec s q Hs) as (Hok & Hex & _). destruct (IH _ Hok) as [H1 H2].
  split; [done|]. by eapply extends_trans.
Qed.

Lemma fold_cpu_other l a : forall s, numa_ok s ->
  (forall q prox, q ∈ l -> cpu_prox q <> Some (a, prox)) -> g_apic_to_node (foldl cpu_entry s l) a = g_apic_to_node s a.
Proof.
  induction l as [|q l IH]; intros s Hs Hno; simpl; [done|].
  destruct (cpu_entry_spec s q Hs) as (Hok & _ & _ & Ho). rewrite IH; [apply Ho| |]; try done.
  - intros prox. apply Hno. by left.
  - intros q' prox Hq'. apply Hno. by right.
Qed.

Lemma fallback_ok s : numa_ok (fallback_single_node s).
Proof.
  split; simpl.
  - unfold NUMA_MAX_NODES. lia.
  - intros i j Hi Hj _. lia.
  - intros a. right. lia.
Qed.

Lemma rd32_nonneg p : (forall q, 0 <= byte q) -> 0 <= rd32 p.
Proof. intros Hb. unfold rd32. rewrite !Z.lor_nonneg, !Z.shiftl_nonneg. auto. Qed.

Lemma numa_init_eq s hdr :
  (forall q, 0 <= byte q) ->
  let s0 := Numa (fun _ => NumaNode 0 0 0) (g_numa_node_count s) (fun _ => NUMA_NODE_NONE) in
  let s1 := foldl cpu_entry (foldl mem_entry s0 (srat_entries hdr)) (srat_entries hdr) in
  numa_init s (Some hdr) = Some (if g_numa_node_count s1 =? 0 then fallback_single_node s1 else s1).
Proof.
  intros Hb. pose proof (rd32_nonneg (hdr + 4) Hb). unfold numa_init. cbv zeta.
  rewrite !for_entries_fold by (unfold ACPI_SDT_HDR_SIZE; lia). cbn [mbind option_bind].
  by rewrite for_entries_fold by (unfold ACPI_SDT_HDR_SIZE; lia).
Qed.
End tables.

Lemma numa_zero_ok : numa_ok (Numa (fun _ => NumaNode 0 0 0) (g_numa_node_count numa_zero) (fun _ => NUMA_NODE_NONE)).
Proof. split; simpl; [unfold NUMA_MAX_NODES|intros|intros; left]; lia || done. Qed.

Lemma numa_init_ok byte hdr :
  (forall q, 0 <= byte q) ->
  exists s, numa_init byte numa_zero hdr = Some s /\ numa_ok s /\ 0 < g_numa_node_count s.
Proof.
  intros Hb. destruct hdr as [hdr|].
  - rewrite numa_init_eq by done. eexists. split; [reflexivity|].
    set (s1 := foldl _ _ _). assert (Hok : numa_ok s1).
    { apply fold_cpu, fold_mem, numa_zero_ok. }
    destruct (Z.eqb_spec (g_numa_node_count s1) 0); [split; [apply fallback_ok|done]|].
    split; [done|]. pose proof (no_count _ Hok). lia.
  - eexists. split; [reflexivity|]. split; [apply fallback_ok|done].
Qed.

(** C38. For every memory contents and whether or not there is an SRAT table,
    numa_init terminates with between one and eight nodes of distinct proximity
    domains, and every local APIC id and every CPU belongs to one of them. *)
Theorem numa_nodes_valid byte hdr :
  (forall q, 0 <= byte q) ->
  exists s, numa_init byte numa_zero hdr = Some s /\
    1 <= numa_node_count s <= NUMA_MAX_NODES /\
    (forall i j, 0 <= i < numa_node_count s -> 0 <= j < numa_node_count s ->
       prox_domain (g_numa_nodes s i) = prox_domain (g_numa_nodes s j) -> i = j) /\
    (forall a, 0 <= numa_node_of_apic s a < numa_node_count s) /\
    (forall gs a, 0 <= numa_current_node s gs a < numa_node_count s).
Proof.
  intros Hb. destruct (numa_init_ok byte hdr Hb) as (s & Hs & [Hc Hi Ha] & Hp). exists s. split; [done|].
  assert (Hn : numa_node_count s = g_numa_node_count s).
  { unfold numa_node_count. by rewrite (proj2 (Z.eqb_neq _ _)) by lia. }
  rewrite Hn. assert (Hap : forall a, 0 <= numa_node_of_apic s a < g_numa_node_count s).
  { intros a. unfold numa_node_of_apic, NUMA_NODE_NONE in *.
    destruct (Z.eqb_spec (g_apic_to_node s a) 255); [lia|]. destruct (Ha a); [done|lia]. }
  split; [lia|]. split; [done|]. split; [done|]. intros gs a. unfold numa_current_node.
  destruct (gs =? 0); [lia|apply Hap].
Qed.

(** The node of a CPU is that of the last enabled SRAT entry of its local
    APIC id: a node of that entry's proximity domain, or node 0 when eight
    other domains were found first. *)
Theorem numa_node_of_listed byte hdr l1 q l2 a prox :
  (forall p, 0 <= byte p) -> srat_entries byte hdr = l1 ++ q :: l2 -> cpu_prox byte q = Some (a, prox) ->
  (forall q' prox', q' ∈ l2 -> cpu_prox byte q' <> Some (a, prox')) ->
  exists s, numa_init byte numa_zero (Some hdr) = Some s /\ node_for s (numa_node_of_apic s a) prox.
Proof.
  intros Hb Hl Hq Hlast. rewrite numa_init_eq by done. eexists. split; [reflexivity|].
  set (s2 := foldl (cpu_entry byte) _ _). set (m := foldl (mem_entry byte) _ _) in *.
  assert (Hs2 : s2 = foldl (cpu_entry byte) (cpu_entry byte (foldl (cpu_entry byte) m l1) q) l2).
  { unfold s2. by rewrite Hl, foldl_app. }
  set (s0 := foldl (cpu_entry byte) m l1) in *.
  assert (Hok0 : numa_ok s0) by apply fold_cpu, fold_mem, numa_zero_ok.
  destruct (cpu_entry_spec byte s0 q Hok0) as (Hok1 & _ & Hx & _). rewrite Hq in Hx. destruct Hx as [Hnf Hr].
  set (s1 := cpu_entry byte s0 q) in *. destruct (fold_cpu byte l2 s1 Hok1) as [Hok2 Hex].
  pose proof (fold_cpu_other byte l2 a s1 Hok1 Hlast) as Ha. rewrite <- Hs2 in *.
  pose proof (no_count _ Hok2) as Hc2. pose proof (ex_count _ _ Hex) as Hc.
  rewrite (proj2 (Z.eqb_neq _ _)) by lia. unfold numa_node_of_apic. rewrite Ha.
  unfold NUMA_MAX_NODES, NUMA_NODE_NONE in *. rewrite (proj2 (Z.eqb_neq _ _)) by lia. by eapply node_for_extends.
Qed.

(** A table of 64 bytes at address 0 with one CPU entry: APIC id 7, domain 5. *)
Definition wit_srat (p : Z) : Z :=
  if p =? 4 then 64 else if p =? 49 then 16 else if p =? 50 then 5 else if p =? 51 then 7 else if p =? 52 then 1 else 0.

Lemma wit_srat_nonneg p : 0 <= wit_srat p.
Proof. unfold wit_srat. repeat destruct (_ =? _); lia. Qed.

Lemma numa_nodes_valid_witness :
  exists s, numa_init wit_srat numa_zero (Some 0) = Some s /\ 1 <= numa_node_count s <= 8.
Proof.
  destruct (numa_nodes_valid wit_srat (Some 0) wit_srat_nonneg) as (s & Hs & Hc & _).
  exists s. split; [exact Hs|exact Hc].
Defined.

Lemma numa_node_of_listed_witness :
  exists s, numa_init wit_srat numa_zero (Some 0) = Some s /\ node_for s (numa_node_of_apic s 7) 5.
Proof.
  apply (numa_node_of_listed wit_srat 0 [] 48 [] 7 5); [exact wit_srat_nonneg|by vm_compute|by vm_compute|].
  intros q' prox' Hin. by apply elem_of_nil in Hin.
Defined.
