(* ===== verification/Blkdev.v ===== *)
(** * The block device layer (drivers/blkdev.c)

    The table of registered devices and the checked read and write calls.  The
    drivers behind the function pointers are an interface: what a driver
    promises is that a successful read returns the sectors, and a successful
    write changes exactly the sectors written. *)

From stdpp Require Import base list list_numbers sets.
From Stdlib Require Import ZArith Lia.
From S2P Require Import Prelude.

Definition BLKDEV_MAX : Z := 16.
Definition BLKDEV_NAME_MAX : Z := 32.

(** The drivers' state, and calls through the pointers [fn] with their context. *)
Class BlockDriver (D : Type) := {
  drv_read : Z -> Z -> Z -> Z -> D -> Z * list Z * D;
  drv_write : Z -> Z -> Z -> Z -> list Z -> D -> Z * D;
  (** The sector [lba] of the device behind a context. *)
  drv_sector : D -> Z -> Z -> list Z;
}.

Definition sectors {D} `{BlockDriver D} (d : D) (ctx lba count : Z) : list Z :=
  flat_map (fun i => drv_sector d ctx (lba + i)) (seqZ 0 count).

Class BlockDriverLaws (D : Type) `{BlockDriver D} : Prop := {
  drv_read_ok fn ctx lba count d data d' :
    drv_read fn ctx lba count d = (0, data, d') -> data = sectors d ctx lba count;
  drv_read_frame fn ctx lba count d rc data d' :
    drv_read fn ctx lba count d = (rc, data, d') -> forall c l, drv_sector d' c l = drv_sector d c l;
  drv_write_ok fn ctx lba count data d d' :
    drv_write fn ctx lba count data d = (0, d') -> sectors d' ctx lba count = data;
  (** A write that fails may leave anything in the sectors it was asked for. *)
  drv_write_frame fn ctx lba count data d rc d' :
    drv_write fn ctx lba count data d = (rc, d') ->
    forall c l, (c <> ctx \/ l < lba \/ lba + count <= l) -> drv_sector d' c l = drv_sector d c l;
}.

(** A C string is the list of its characters. *)
Record blkdev := Blkdev {
  bd_name : list Z; bd_ctx : Z; bd_read : Z; bd_write : Z;
  bd_num_sectors : Z; bd_sector_size : Z; bd_valid : bool;
}.

Definition no_blkdev : blkdev := Blkdev [] 0 0 0 0 0 false.

(** [blk_events] records the calls of the hotplug callback. *)
Record blkdevs := Blkdevs {
  g_blkdev_table : Z -> blkdev; g_blkdev_count : Z; s_hotplug_cb : Z; blk_events : list (Z * Z);
}.

Definition blkdev_start : blkdevs := Blkdevs (fun _ => no_blkdev) 0 0 [].

Definition blkdev_strncpy (src : list Z) (n : Z) : list Z := take (Z.to_nat (n - 1)) src.

Definition blkdev_register (t : blkdevs) (name : option (list Z)) (ctx read write num_sectors sector_size : Z) :
    blkdevs * Z :=
  match name with
  | None => (t, -1)
  | Some name =>
    if (read =? 0) || (write =? 0) then (t, -1)
    else if sector_size =? 0 then (t, -1)
    else if BLKDEV_MAX <=? g_blkdev_count t then (t, -1)
    else
      let idx := g_blkdev_count t in
      let dev := Blkdev (blkdev_strncpy name BLKDEV_NAME_MAX) ctx read write num_sectors sector_size true in
      (Blkdevs (upd (g_blkdev_table t) idx dev) (idx + 1) (s_hotplug_cb t)
         (if s_hotplug_cb t =? 0 then blk_events t else (idx, 1) :: blk_events t), idx)
  end.

Definition blkdev_get (t : blkdevs) (index : Z) : option blkdev :=
  let index := u32 index in
  if BLKDEV_MAX <=? index then None
  else if negb (bd_valid (g_blkdev_table t index)) then None
  else Some (g_blkdev_table t index).

Definition blkdev_count (t : blkdevs) : Z := g_blkdev_count t.

(** The loop of blkdev_set_hotplug_cb from [i] on. *)
Fixpoint announce (fuel : nat) (i : Z) (t : blkdevs) : list (Z * Z) :=
  match fuel with
  | O => []
  | S f => announce f (i + 1) t ++ (if bd_valid (g_blkdev_table t i) then [(i, 1)] else [])
  end.

(** [None]: a call through a null pointer. *)
Definition blkdev_set_hotplug_cb (t : blkdevs) (cb : Z) : option blkdevs :=
  let evs := announce (Z.to_nat (g_blkdev_count t)) 0 t in
  if (cb =? 0) && negb (bool_decide (evs = [])) then None
  else Some (Blkdevs (g_blkdev_table t) (g_blkdev_count t) cb (evs ++ blk_events t)).

Inductive blkdev_type := BLKDEV_TYPE_UNKNOWN | BLKDEV_TYPE_AHCI | BLKDEV_TYPE_NVME | BLKDEV_TYPE_VIRTIO | BLKDEV_TYPE_USB_MSC.

Record blkdev_info := BlkdevInfo {
  bi_type : blkdev_type; bi_slot : Z; bi_total_sectors : Z; bi_sector_size : Z; bi_phys_sector_size : Z; bi_model : list Z;
}.

Definition is_digit (c : Z) : bool := (48 <=? c) && (c <=? 57).

(** Accumulates the decimal digits in an int. *)
Fixpoint digits (s : list Z) (slot : Z) : Z :=
  match s with
  | c :: s => if is_digit c then digits s (s32 (slot * 10 + (c - 48))) else slot
  | [] => slot
  end.

Fixpoint skip_nondigits (s : list Z) : list Z :=
  match s with c :: s' => if is_digit c then s else skip_nondigits s' | [] => [] end.

Definition has_prefix (pre s : list Z) : bool := bool_decide (take (length pre) s = pre).

Definition blkdev_get_info (t : blkdevs) (idx : Z) : option blkdev_info :=
  if (idx <? 0) || (g_blkdev_count t <=? idx) then None
  else
    let d := g_blkdev_table t idx in
    if negb (bd_valid d) then None
    else
      let n := bd_name d in
      let type :=
        if has_prefix [97; 104; 99; 105] n then BLKDEV_TYPE_AHCI
        else if has_prefix [110; 118; 109; 101] n then BLKDEV_TYPE_NVME
        else if has_prefix [118; 98; 108; 107] n then BLKDEV_TYPE_VIRTIO
        else BLKDEV_TYPE_UNKNOWN in
      Some (BlkdevInfo type (digits (skip_nondigits n) 0) (bd_num_sectors d) (bd_sector_size d) (bd_sector_size d)
              (blkdev_strncpy (bd_name d) 40)).

Section io.
Context {D : Type} `{BlockDriver D}.

(** The checks common to blkdev_read and blkdev_write; [fn] is the pointer the
    call goes through. *)
Definition io_ok (dev : option blkdev) (fn : blkdev -> Z) (lba count buf : Z) : option blkdev :=
  match dev with
  | None => None
  | Some dev =>
    if negb (bd_valid dev) || (fn dev =? 0) then None
    else if (count =? 0) || (buf =? 0) then None
    else if bd_num_sectors dev <? u64 (lba + count) then None
    else Some dev
  end.

(** The result, what is stored at [buf] (if the driver is called), the drivers. *)
Definition blkdev_read (dev : option blkdev) (lba count buf : Z) (d : D) : Z * option (list Z) * D :=
  match io_ok dev bd_read lba count buf with
  | None => (-1, None, d)
  | Some dev => let '(rc, data, d) := drv_read (bd_read dev) (bd_ctx dev) lba count d in (rc, Some data, d)
  end.

Definition blkdev_write (dev : option blkdev) (lba count buf : Z) (data : list Z) (d : D) : Z * D :=
  match io_ok dev bd_write lba count buf with
  | None => (-1, d)
  | Some dev => drv_write (bd_write dev) (bd_ctx dev) lba count data d
  end.
End io.

Lemma io_ok_bounds dev fn lba count buf dev' :
  io_ok dev fn lba count buf = Some dev' -> dev = Some dev' /\ bd_valid dev' = true /\ fn dev' <> 0 /\ count <> 0 /\
    (lba + count < 2 ^ 64 -> 0 <= lba + count -> lba + count <= bd_num_sectors dev').
Proof.
  unfold io_ok. destruct dev as [dev|]; [|done]. destruct (bd_valid dev) eqn:Hv; [|done]. simpl.
  destruct (Z.eqb_spec (fn dev) 0); [done|]. destruct (Z.eqb_spec count 0); [done|]. destruct (buf =? 0); [done|]. simpl.
  destruct (Z.ltb_spec (bd_num_sectors dev) (u64 (lba + count))); [done|]. intros [= <-].
  split; [done|]. split; [done|]. split; [done|]. split; [done|]. intros ? ?. rewrite u64_small in * by lia. lia.
Qed.

(** The first [g_blkdev_count] entries are the valid ones. *)
Record table_ok (t : blkdevs) : Prop := {
  to_count : 0 <= g_blkdev_count t <= BLKDEV_MAX;
  to_valid i : bd_valid (g_blkdev_table t i) = true <-> 0 <= i < g_blkdev_count t;
}.

Lemma blkdev_start_ok : table_ok blkdev_start.
Proof. split; simpl; [unfold BLKDEV_MAX; lia|]. intros i. split; [done|lia]. Qed.

Lemma blkdev_get_valid t i :
  table_ok t -> 0 <= i < g_blkdev_count t -> blkdev_get t i = Some (g_blkdev_table t i).
Proof.
  intros [Hc Hv] Hi. unfold blkdev_get, u32, BLKDEV_MAX in *. rewrite Z.mod_small by lia.
  destruct (Z.leb_spec 16 i); [lia|]. by rewrite (proj2 (Hv i)) by lia.
Qed.

(** Registering either fails and changes nothing, or adds one device, found
    under the index returned, and keeps every other one. *)
Lemma blkdev_register_spec t name ctx read write n sz t' r :
  table_ok t -> blkdev_register t name ctx read write n sz = (t', r) ->
  (r = -1 /\ t' = t) \/
  (r = g_blkdev_count t /\ table_ok t' /\ g_blkdev_count t' = r + 1 /\
   (exists nm, name = Some nm /\ blkdev_get t' r = Some (Blkdev (take 31 nm) ctx read write n sz true)) /\
   forall i, 0 <= i < r -> blkdev_get t' i = blkdev_get t i).
Proof.
  intros Hok. pose proof Hok as [Hc Hv]. unfold blkdev_register. destruct name as [nm|]; [|intros [= <- <-]; by left].
  destruct (_ || _); [intros [= <- <-]; by left|]. destruct (sz =? 0); [intros [= <- <-]; by left|].
  destruct (Z.leb_spec BLKDEV_MAX (g_blkdev_count t)); [intros [= <- <-]; by left|]. intros [= <- <-]. right.
  set (t' := Blkdevs _ _ _ _). assert (Hok' : table_ok t').
  { split; simpl; [lia|]. intros i. unfold upd. destruct (Z.eqb_spec i (g_blkdev_count t)); simpl; [lia|]. rewrite Hv. lia. }
  split; [done|]. split; [done|]. split; [done|]. split.
  - exists nm. split; [done|]. rewrite blkdev_get_valid; [|done|simpl; lia]. simpl. by rewrite upd_eq.
  - intros i Hi. rewrite !blkdev_get_valid; [|done|lia|done|simpl; lia]. simpl. by rewrite upd_ne by lia.
Qed.

(** The check [lba + count > num_sectors] is computed in 64 bits: on a
    device of 100 sectors, a transfer of 8 sectors at sector 2^64 - 4 passes it
    and reaches the driver. *)
Theorem blkdev_bound_wraps {D} `{BlockDriver D} (d : D) fn ctx :
  fn <> 0 ->
  let dev := Blkdev [] ctx fn fn 100 512 true in
  blkdev_read (Some dev) (2 ^ 64 - 4) 8 1 d =
    (let '(rc, data, d) := drv_read fn ctx (2 ^ 64 - 4) 8 d in (rc, Some data, d)).
Proof.
  intros Hf dev. unfold blkdev_read, io_ok. cbn [dev bd_valid bd_read bd_num_sectors bd_ctx negb orb].
  by rewrite (proj2 (Z.eqb_neq _ _) Hf).
Qed.

(** ** A disk in memory *)

(** One device per context, sectors of 512 bytes; a transfer of the wrong size
    fails. *)
#[export] Instance ram_disk : BlockDriver (Z -> Z -> list Z) := {
  drv_read fn ctx lba count d := (0, flat_map (fun i => d ctx (lba + i)) (seqZ 0 count), d);
  drv_write fn ctx lba count data d :=
    if Z.of_nat (length data) =? count * 512 then
      (0, fun c l => if (c =? ctx) && (lba <=? l) && (l <? lba + count)
                     then take 512 (drop (512 * Z.to_nat (l - lba)) data) else d c l)
    else (-1, d);
  drv_sector d := d;
}.

Lemma flat_map_chunks (data : list Z) (g : Z -> list Z) : forall (n : nat) k,
  length data = (512 * n)%nat -> (forall i, k <= i < k + Z.of_nat n -> g i = take 512 (drop (512 * Z.to_nat (i - k)) data)) ->
  flat_map g (seqZ k (Z.of_nat n)) = data.
Proof.
  intros n. revert data. induction n as [|n IH]; intros data k Hlen Hg.
  - simpl. symmetry. apply length_zero_iff_nil. lia.
  - rewrite seqZ_cons by lia. simpl. rewrite Hg by lia. rewrite Z.sub_diag. simpl. rewrite drop_0.
    replace (Z.pred (Z.of_nat (S n))) with (Z.of_nat n) by lia.
    rewrite (IH (drop 512 data)); [apply take_drop|rewrite length_drop; lia|].
    intros i Hi. rewrite Hg by lia. rewrite drop_drop. do 2 f_equal. lia.
Qed.

#[export] Instance ram_disk_laws : BlockDriverLaws (Z -> Z -> list Z).
Proof.
  split; simpl.
  - by intros fn ctx lba count d data d' [= <- <-].
  - by intros fn ctx lba count d rc data d' [= <- <- <-].
  - intros fn ctx lba count data d d'. destruct (Z.eqb_spec (Z.of_nat (length data)) (count * 512)); [|done].
    intros [= <-]. unfold sectors. simpl. replace count with (Z.of_nat (Z.to_nat count)) by lia.
    apply flat_map_chunks; [lia|]. intros i Hi. rewrite Z.eqb_refl.
    rewrite (proj2 (Z.leb_le _ _)), (proj2 (Z.ltb_lt _ _)) by lia. simpl. do 2 f_equal. lia.
  - intros fn ctx lba count data d rc d'. destruct (Z.eqb_spec (Z.of_nat (length data)) (count * 512)); intros [= <- <-]; [|done].
    intros c l Hcl. destruct (Z.eqb_spec c ctx), (Z.leb_spec lba l), (Z.ltb_spec l (lba + count)); simpl; done || lia.
Qed.

Lemma blkdev_bound_wraps_witness :
  blkdev_read (Some (Blkdev [] 0 1 1 100 512 true)) (2 ^ 64 - 4) 8 1 (fun _ _ => [7]) =
  (0, Some (replicate 8 7), fun _ _ => [7]).
Proof. exact (blkdev_bound_wraps (fun _ _ => [7]) 1 0 ltac:(discriminate)). Defined.
