(* ===== verification/Swap.v ===== *)
(** * Swap space (mm/swap.c)

    Swap devices with a bitmap of slots each, over the block device layer, the
    kernel heap and the page accounting.  The contents of a kmalloc'd bitmap are
    kept per block address; a page of memory is the list of its bytes. *)

From stdpp Require Import base gmap list list_numbers.
From Stdlib Require Import ZArith Lia.
From S2P Require Import Prelude Spinlock Allocator Bitmap Mreclaim Blkdev.

Definition SWAP_SLOT_NONE : Z := 2 ^ 64 - 1.
Definition SWAP_MAX_DEVS : Z := 4.
Definition SWAP_PAGE_SIZE : Z := 4096.
Definition SECTORS_PER_PAGE : Z := SWAP_PAGE_SIZE / 512.
Definition SWAP_PTE_DEV_SHIFT : Z := 1.
Definition SWAP_PTE_DEV_MASK : Z := 7.
Definition SWAP_PTE_SLOT_SHIFT : Z := 12.

Record swap_dev := SwapDev {
  sd_blkdev : Z; sd_start : Z; sd_nslots : Z; sd_free : Z; sd_bitmap : Z; sd_hint : Z; sd_active : bool;
}.

Definition no_swap_dev : swap_dev := SwapDev 0 0 0 0 0 0 false.

Definition swap_encode_pte (dev_idx slot_off : Z) : Z :=
  Z.lor (Z.lor (u64 (Z.shiftl slot_off SWAP_PTE_SLOT_SHIFT))
               (Z.shiftl (Z.land dev_idx SWAP_PTE_DEV_MASK) SWAP_PTE_DEV_SHIFT)) 0.

(** The device and the slot, or [None] for -1. *)
Definition swap_decode_pte (pte : Z) : option (Z * Z) :=
  if negb (Z.land pte 1 =? 0) then None
  else Some (Z.land (Z.shiftr pte SWAP_PTE_DEV_SHIFT) SWAP_PTE_DEV_MASK, Z.shiftr pte SWAP_PTE_SLOT_SHIFT).

Section swap.
Context {A D : Type} `{Allocator A} `{BlockDriver D}.

Record swap := Swap {
  g_devs : Z -> swap_dev; g_ndevs : Z; sw_lock : spinlock; g_active : bool;
  g_total_slots : Z; g_free_slots : Z;
  sw_heap : A; sw_words : gmap Z (Z -> Z);
  sw_blk : blkdevs; sw_drv : D;
  sw_mem : Z -> list Z; sw_reclaim : mreclaim;
}.

Definition sw_set_lock (l : spinlock) (s : swap) : swap :=
  Swap (g_devs s) (g_ndevs s) l (g_active s) (g_total_slots s) (g_free_slots s) (sw_heap s) (sw_words s)
    (sw_blk s) (sw_drv s) (sw_mem s) (sw_reclaim s).
Definition set_dev (i : Z) (d : swap_dev) (s : swap) : swap :=
  Swap (upd (g_devs s) i d) (g_ndevs s) (sw_lock s) (g_active s) (g_total_slots s) (g_free_slots s) (sw_heap s)
    (sw_words s) (sw_blk s) (sw_drv s) (sw_mem s) (sw_reclaim s).
Definition set_ndevs (n : Z) (s : swap) : swap :=
  Swap (g_devs s) n (sw_lock s) (g_active s) (g_total_slots s) (g_free_slots s) (sw_heap s) (sw_words s)
    (sw_blk s) (sw_drv s) (sw_mem s) (sw_reclaim s).
Definition set_slots (a : bool) (t f : Z) (s : swap) : swap :=
  Swap (g_devs s) (g_ndevs s) (sw_lock s) a t f (sw_heap s) (sw_words s) (sw_blk s) (sw_drv s) (sw_mem s) (sw_reclaim s).
Definition sw_set_heap (h : A) (w : gmap Z (Z -> Z)) (s : swap) : swap :=
  Swap (g_devs s) (g_ndevs s) (sw_lock s) (g_active s) (g_total_slots s) (g_free_slots s) h w
    (sw_blk s) (sw_drv s) (sw_mem s) (sw_reclaim s).
Definition set_drv (d : D) (s : swap) : swap :=
  Swap (g_devs s) (g_ndevs s) (sw_lock s) (g_active s) (g_total_slots s) (g_free_slots s) (sw_heap s) (sw_words s)
    (sw_blk s) d (sw_mem s) (sw_reclaim s).
Definition set_mem (m : Z -> list Z) (s : swap) : swap :=
  Swap (g_devs s) (g_ndevs s) (sw_lock s) (g_active s) (g_total_slots s) (g_free_slots s) (sw_heap s) (sw_words s)
    (sw_blk s) (sw_drv s) m (sw_reclaim s).
Definition set_reclaim (r : mreclaim) (s : swap) : swap :=
  Swap (g_devs s) (g_ndevs s) (sw_lock s) (g_active s) (g_total_slots s) (g_free_slots s) (sw_heap s) (sw_words s)
    (sw_blk s) (sw_drv s) (sw_mem s) r.

(** [k] between spin_lock_irqsave and spin_unlock_irqrestore. *)
Definition sw_locked {B} (s : swap) (k : swap -> option (swap * B)) : option (swap * B) :=
  l ← spin_lock (sw_lock s);
  '(s, r) ← k (sw_set_lock l s);
  Some (sw_set_lock (spin_unlock (sw_lock s)) s, r).

(** The loop of slot_alloc_dev over the words, from the hint around. *)
Fixpoint scan_words (fuel : nat) (wi words start : Z) (bm : Z -> Z) (n : Z) : option Z :=
  match fuel with
  | O => None
  | S f =>
    let w := (wi + start) mod words in
    if bm w =? ALL_ONES then scan_words f (wi + 1) words start bm n
    else match scan_word 64 0 (bm w) (w * 64) n with
         | Found b => Some (w * 64 + b)
         | _ => scan_words f (wi + 1) words start bm n
         end
  end.

Definition slot_alloc_dev (s : swap) (dev_idx : Z) : option (swap * Z) :=
  let dev := g_devs s dev_idx in
  if negb (sd_active dev) || (sd_free dev =? 0) || (sd_bitmap dev =? 0) then Some (s, SWAP_SLOT_NONE)
  else
    bm ← sw_words s !! sd_bitmap dev;
    let words := BITMAP_WORDS (sd_nslots dev) in
    let start := sd_hint dev / 64 in
    match scan_words (Z.to_nat words) 0 words start bm (sd_nslots dev) with
    | None => Some (s, SWAP_SLOT_NONE)
    | Some idx =>
      let s := sw_set_heap (sw_heap s) (<[sd_bitmap dev := bm_set bm idx]> (sw_words s)) s in
      let s := set_dev dev_idx (SwapDev (sd_blkdev dev) (sd_start dev) (sd_nslots dev) (sd_free dev - 1) (sd_bitmap dev)
                                  ((idx + 1) mod sd_nslots dev) (sd_active dev)) s in
      Some (s, swap_encode_pte dev_idx idx)
    end.

(** [for (i = 0; i < g_ndevs; i++)] of swap_alloc_slot. *)
Fixpoint alloc_from (fuel : nat) (i : Z) (s : swap) : option (swap * Z) :=
  match fuel with
  | O => Some (s, SWAP_SLOT_NONE)
  | S f =>
    '(s, slot) ← slot_alloc_dev s i;
    if negb (slot =? SWAP_SLOT_NONE)
    then Some (set_slots (g_active s) (g_total_slots s) (u64 (g_free_slots s - 1)) s, slot)
    else alloc_from f (i + 1) s
  end.

Definition swap_alloc_slot (s : swap) : option (swap * Z) :=
  sw_locked s (fun s => alloc_from (Z.to_nat (g_ndevs s)) 0 s).

(** The decoding and the checks at the start of the operations on a slot. *)
Definition slot_dev (s : swap) (slot : Z) : option (Z * Z) :=
  match swap_decode_pte slot with
  | None => None
  | Some (dev_idx, slot_off) =>
    if g_ndevs s <=? dev_idx then None
    else if negb (sd_active (g_devs s dev_idx)) || (sd_nslots (g_devs s dev_idx) <=? slot_off) then None
    else Some (dev_idx, slot_off)
  end.

Definition swap_free_slot (s : swap) (slot : Z) : option swap :=
  match slot_dev s slot with
  | None => Some s
  | Some (dev_idx, slot_off) =>
    fst <$> sw_locked s (fun s =>
      let dev := g_devs s dev_idx in
      bm ← sw_words s !! sd_bitmap dev;
      let s := sw_set_heap (sw_heap s) (<[sd_bitmap dev := bm_clear bm slot_off]> (sw_words s)) s in
      let s := set_dev dev_idx (SwapDev (sd_blkdev dev) (sd_start dev) (sd_nslots dev) (u64 (sd_free dev + 1))
                                  (sd_bitmap dev) (sd_hint dev) (sd_active dev)) s in
      Some (set_slots (g_active s) (g_total_slots s) (u64 (g_free_slots s + 1)) s, tt))
  end.

Definition slot_lba (s : swap) (dev_idx slot_off : Z) : Z :=
  u64 (sd_start (g_devs s dev_idx) + u64 (slot_off * SECTORS_PER_PAGE)).

(** [page] is the address of the page. *)
Definition swap_write_page (s : swap) (slot page : Z) : swap * Z :=
  match slot_dev s slot with
  | None => (s, -1)
  | Some (dev_idx, slot_off) =>
    let '(rc, d) := blkdev_write (blkdev_get (sw_blk s) (sd_blkdev (g_devs s dev_idx))) (slot_lba s dev_idx slot_off)
                      SECTORS_PER_PAGE page (sw_mem s page) (sw_drv s) in
    (set_drv d s, rc)
  end.

Definition swap_read_page (s : swap) (slot page : Z) : swap * Z :=
  match slot_dev s slot with
  | None => (s, -1)
  | Some (dev_idx, slot_off) =>
    let '(rc, data, d) := blkdev_read (blkdev_get (sw_blk s) (sd_blkdev (g_devs s dev_idx))) (slot_lba s dev_idx slot_off)
                            SECTORS_PER_PAGE page (sw_drv s) in
    let s := set_drv d s in
    (match data with Some data => set_mem (upd (sw_mem s) page data) s | None => s end, rc)
  end.

(** The result and, when it is 0, the entry for the page table. *)
Definition swap_out_page (s : swap) (phys : Z) : option (swap * (Z * Z)) :=
  if negb (g_active s) || (g_free_slots s =? 0) then Some (s, (-1, 0))
  else
    '(s, slot) ← swap_alloc_slot s;
    if slot =? SWAP_SLOT_NONE then Some (s, (-1, 0))
    else
      let '(s, rc) := swap_write_page s slot phys in
      if negb (rc =? 0) then s ← swap_free_slot s slot; Some (s, (-1, 0))
      else
        '(r, _) ← mreclaim_account_free (sw_reclaim s) 1;
        Some (set_reclaim r s, (0, slot)).

Definition swap_in_page (s : swap) (swap_pte : Z) : option (swap * (Z * Z)) :=
  if negb (g_active s) then Some (s, (-1, 0))
  else
    '(h, page) ← al_alloc (sw_heap s) SWAP_PAGE_SIZE;
    let s := sw_set_heap h (sw_words s) s in
    if page =? 0 then Some (s, (-1, 0))
    else
      let '(s, rc) := swap_read_page s swap_pte page in
      if negb (rc =? 0) then h ← al_free (sw_heap s) page; Some (sw_set_heap h (sw_words s) s, (-1, 0))
      else
        s ← swap_free_slot s swap_pte;
        '(r, _) ← mreclaim_account_alloc (sw_reclaim s) 1;
        Some (set_reclaim r s, (0, page)).

Definition swap_add_dev (s : swap) (blkdev_idx start_lba nslots : Z) : option (swap * Z) :=
  sw_locked s (fun s =>
    if SWAP_MAX_DEVS <=? g_ndevs s then Some (s, -1)
    else
      let bm_bytes := u64 (u64 (nslots + 63) / 64 * 8) in
      '(h, bm) ← al_alloc (sw_heap s) bm_bytes;
      if bm =? 0 then Some (sw_set_heap h (sw_words s) s, -1)
      else
        let s := sw_set_heap h (<[bm := fun _ => 0]> (sw_words s)) s in
        let idx := g_ndevs s in
        let s := set_ndevs (idx + 1) (set_dev idx (SwapDev blkdev_idx start_lba nslots nslots bm 0 true) s) in
        Some (set_slots true (u64 (g_total_slots s + nslots)) (u64 (g_free_slots s + nslots)) s, idx)).

Definition swap_remove_dev (s : swap) (dev_idx : Z) : option (swap * Z) :=
  sw_locked s (fun s =>
    if (dev_idx <? 0) || (g_ndevs s <=? dev_idx) || negb (sd_active (g_devs s dev_idx)) then Some (s, -1)
    else
      let dev := g_devs s dev_idx in
      let total := u64 (g_total_slots s - sd_nslots dev) in
      let s := set_slots (0 <? total) total (u64 (g_free_slots s - sd_free dev)) s in
      s ← (if sd_bitmap dev =? 0 then Some s
           else h ← al_free (sw_heap s) (sd_bitmap dev); Some (sw_set_heap h (delete (sd_bitmap dev) (sw_words s)) s));
      Some (set_dev dev_idx (SwapDev (sd_blkdev dev) (sd_start dev) (sd_nslots dev) (sd_free dev) 0 (sd_hint dev) false) s, 0)).

Definition swap_active (s : swap) : bool := g_active s.
Definition swap_total_slots (s : swap) : Z := g_total_slots s.
Definition swap_free_slots (s : swap) : Z := g_free_slots s.

(** swap_init, of a device of the table. *)
Definition swap_init_dev (d : swap_dev) : swap_dev :=
  SwapDev (sd_blkdev d) (sd_start d) (sd_nslots d) (sd_free d) 0 (sd_hint d) false.

Definition swap_init (s : swap) : swap :=
  set_dev 3 (swap_init_dev (g_devs s 3)) (set_dev 2 (swap_init_dev (g_devs s 2))
    (set_dev 1 (swap_init_dev (g_devs s 1)) (set_dev 0 (swap_init_dev (g_devs s 0)) s))).
End swap.
