(* ===== verification/SwapProof.v ===== *)
(** * Swap space: invariant and lemmas

    The bitmaps agree with the counters, an allocated slot was free, and the
    swap devices form a store of pages. *)

From stdpp Require Import base gmap list list_numbers.
From Stdlib Require Import ZArith Lia.
From S2P Require Import Prelude Spinlock Allocator Bitmap Mreclaim Blkdev Swap.

(** ** Swap entries *)

Lemma swap_encode_val i off : 0 <= i < 8 -> 0 <= off < 2 ^ 52 -> swap_encode_pte i off = off * 4096 + i * 2.
Proof.
  intros Hi Hoff. unfold swap_encode_pte, SWAP_PTE_SLOT_SHIFT, SWAP_PTE_DEV_SHIFT, SWAP_PTE_DEV_MASK.
  rewrite Z.lor_0_r. rewrite u64_small by (rewrite Z.shiftl_mul_pow2; lia).
  change 7 with (2 ^ 3 - 1). rewrite land_mask, Z.mod_small, (Z.shiftl_mul_pow2 i) by lia. rewrite lor_shift by lia. lia.
Qed.

Lemma swap_decode_val pte :
  0 <= pte -> swap_decode_pte pte = if pte mod 2 =? 0 then Some (pte / 2 mod 8, pte / 4096) else None.
Proof.
  intros Hp. unfold swap_decode_pte, SWAP_PTE_SLOT_SHIFT, SWAP_PTE_DEV_SHIFT, SWAP_PTE_DEV_MASK.
  change 7 with (2 ^ 3 - 1). change (Z.land pte 1) with (Z.land pte (2 ^ 1 - 1)).
  rewrite !land_mask, !Z.shiftr_div_pow2 by lia. change (2 ^ 1) with 2. change (2 ^ 12) with 4096. change (2 ^ 3) with 8.
  by destruct (pte mod 2 =? 0).
Qed.

Lemma swap_decode_encode i off :
  0 <= i < 8 -> 0 <= off < 2 ^ 52 -> swap_decode_pte (swap_encode_pte i off) = Some (i, off).
Proof.
  intros Hi Hoff. rewrite swap_encode_val by done. rewrite swap_decode_val by lia.
  replace ((off * 4096 + i * 2) mod 2) with 0 by zlia. simpl. do 2 f_equal; zlia.
Qed.

Lemma swap_encode_inj i off i' off' :
  0 <= i < 8 -> 0 <= off < 2 ^ 52 -> 0 <= i' < 8 -> 0 <= off' < 2 ^ 52 ->
  swap_encode_pte i off = swap_encode_pte i' off' -> i = i' /\ off = off'.
Proof. intros Hi Ho Hi' Ho'. rewrite !swap_encode_val by done. lia. Qed.

Lemma swap_encode_some i off : 0 <= i < 8 -> 0 <= off < 2 ^ 52 -> swap_encode_pte i off <> SWAP_SLOT_NONE.
Proof. intros Hi Ho. rewrite swap_encode_val by done. unfold SWAP_SLOT_NONE. zlia. Qed.

(** ** Finding a free slot *)

Lemma scan_words_found fuel : forall wi words start bm n idx,
  0 < words -> scan_words fuel wi words start bm n = Some idx -> 0 <= idx < n /\ bit_used bm idx = false.
Proof.
  induction fuel as [|f IH]; intros wi words start bm n idx Hw; cbn [scan_words]; [done|].
  assert (0 <= (wi + start) mod words) by (apply Z.mod_pos_bound; lia). set (w := (wi + start) mod words) in *.
  destruct (bm w =? ALL_ONES); [by apply IH|].
  destruct (scan_word 64 0 (bm w) (w * 64) n) as [b| |] eqn:Hs; [|by apply IH..].
  intros [= <-]. destruct (scan_word_found _ _ _ _ _ _ Hs) as (Hb & Hn & Ht). split; [lia|].
  by rewrite bit_used_word by lia.
Qed.

Lemma scan_words_none fuel : forall wi words start bm n,
  scan_words fuel wi words start bm n = None ->
  forall i k, wi <= k < wi + Z.of_nat fuel -> i / 64 = (k + start) mod words -> i < n -> bit_used bm i = true.
Proof.
  induction fuel as [|f IH]; intros wi words start bm n; cbn [scan_words]; [lia|].
  set (w := (wi + start) mod words) in *. intros Hs i k Hk Hi Hn.
  assert (Hrest : scan_words f (wi + 1) words start bm n = None /\
    (bm w = ALL_ONES \/ scan_word 64 0 (bm w) (w * 64) n = Over \/ scan_word 64 0 (bm w) (w * 64) n = Full)).
  { destruct (Z.eqb_spec (bm w) ALL_ONES); [by auto|]. destruct (scan_word 64 0 (bm w) (w * 64) n); by auto. }
  destruct Hrest as [Hr Hw]. destruct (decide (k = wi)) as [->|]; [by apply (word_used bm w n)|].
  apply (IH (wi + 1) words start bm n Hr i k); [lia|done..].
Qed.

(** Every word is visited, wherever the scan starts. *)
Lemma scan_words_complete n start bm :
  0 < n -> scan_words (Z.to_nat (BITMAP_WORDS n)) 0 (BITMAP_WORDS n) start bm n = None -> nfree bm n = 0.
Proof.
  intros Hn Hs. set (words := BITMAP_WORDS n) in *. assert (Hw : 0 < words) by (unfold words, BITMAP_WORDS; zlia).
  pose proof (nfree_range bm n ltac:(lia)). destruct (Z.eq_dec (nfree bm n) 0) as [?|Hnz]; [done|].
  destruct (nfree_pos bm n ltac:(lia)) as (i & Hi & Hu).
  assert (Hiw : 0 <= i / 64 < words) by (unfold words, BITMAP_WORDS; zlia).
  assert (Ht : bit_used bm i = true); [|congruence].
  apply (scan_words_none _ _ _ _ _ _ Hs i ((i / 64 - start) mod words)); [|rewrite Z.add_mod_idemp_l by lia|lia].
  - pose proof (Z.mod_pos_bound (i / 64 - start) words Hw). lia.
  - replace (i / 64 - start + start) with (i / 64) by lia. by rewrite Z.mod_small by lia.
Qed.

Section swap_proof.
Context {A D : Type} `{AllocatorLaws A} `{BlockDriverLaws D}.
Abbreviation swap := (@swap A D).

(** ** The invariant *)

Definition sum4 (f : Z -> Z) : Z := f 0 + f 1 + f 2 + f 3.

Definition free_of (d : swap_dev) : Z := if sd_active d then sd_free d else 0.
Definition slots_of (d : swap_dev) : Z := if sd_active d then sd_nslots d else 0.

Record dev_ok (words : gmap Z (Z -> Z)) (live : gset Z) (d : swap_dev) (bm : Z -> Z) : Prop := {
  do_slots : 0 < sd_nslots d < 2 ^ 52;
  do_words : words !! sd_bitmap d = Some bm;
  do_range : words_ok bm;
  do_free : sd_free d = nfree bm (sd_nslots d);
  do_bitmap : sd_bitmap d <> 0;
  do_live : sd_bitmap d ∈ live;
  do_hint : 0 <= sd_hint d;
  do_start : 0 <= sd_start d;
  do_end : sd_start d + 8 * sd_nslots d < 2 ^ 64;
}.

(** The sectors of two devices do not overlap. *)
Definition apart (t : blkdevs) (d d' : swap_dev) : Prop :=
  forall b b', blkdev_get t (sd_blkdev d) = Some b -> blkdev_get t (sd_blkdev d') = Some b' ->
    bd_ctx b <> bd_ctx b' \/ sd_start d + 8 * sd_nslots d <= sd_start d' \/ sd_start d' + 8 * sd_nslots d' <= sd_start d.

Definition in_use (s : swap) (i : Z) : Prop := 0 <= i < g_ndevs s /\ sd_active (g_devs s i) = true.

Record swap_ok (s : swap) (live : gset Z) : Prop := {
  so_reclaim : mr_ok (sw_reclaim s);
  so_n : 0 <= g_ndevs s <= SWAP_MAX_DEVS;
  so_dev i : in_use s i -> exists bm, dev_ok (sw_words s) live (g_devs s i) bm;
  so_inj i j : in_use s i -> in_use s j -> sd_bitmap (g_devs s i) = sd_bitmap (g_devs s j) -> i = j;
  so_apart i j : in_use s i -> in_use s j -> i <> j -> apart (sw_blk s) (g_devs s i) (g_devs s j);
  so_off i : g_ndevs s <= i -> sd_active (g_devs s i) = false;
  so_free : g_free_slots s = sum4 (fun i => free_of (g_devs s i));
  so_total : g_total_slots s = sum4 (fun i => slots_of (g_devs s i));
  so_active : g_active s = (0 <? g_total_slots s);
  so_heap : al_inv (sw_heap s) live;
}.

Lemma in_use_range s live i : swap_ok s live -> in_use s i -> 0 <= i < 4.
Proof. intros Hok [Hi _]. pose proof (so_n _ _ Hok). unfold SWAP_MAX_DEVS in *. lia. Qed.

Lemma sum4_upd (f : swap_dev -> Z) (g : Z -> swap_dev) i d :
  0 <= i < 4 -> sum4 (fun j => f (upd g i d j)) = sum4 (fun j => f (g j)) - f (g i) + f d.
Proof.
  intros Hi. unfold sum4. assert (Hc : i = 0 \/ i = 1 \/ i = 2 \/ i = 3) by lia.
  destruct Hc as [->|[->|[->| ->]]]; unfold upd; simpl; lia.
Qed.

Lemma dev_counts s live i : swap_ok s live -> in_use s i -> 0 <= sd_free (g_devs s i) <= sd_nslots (g_devs s i).
Proof.
  intros Hok Hi. destruct (so_dev _ _ Hok i Hi) as (bm & Hd). rewrite (do_free _ _ _ _ Hd).
  apply nfree_range. pose proof (do_slots _ _ _ _ Hd). lia.
Qed.

Lemma active_in_use s live i : swap_ok s live -> 0 <= i -> sd_active (g_devs s i) = true -> in_use s i.
Proof.
  intros Hok Hi Ha. split; [|done]. destruct (Z.lt_ge_cases i (g_ndevs s)) as [?|Hge]; [lia|].
  rewrite (so_off _ _ Hok i Hge) in Ha. done.
Qed.

Lemma free_of_bounds s live i : swap_ok s live -> 0 <= i ->
  0 <= free_of (g_devs s i) <= slots_of (g_devs s i) /\ 0 <= slots_of (g_devs s i) < 2 ^ 52.
Proof.
  intros Hok Hi. unfold free_of, slots_of. destruct (sd_active (g_devs s i)) eqn:Ha; [|lia].
  pose proof (active_in_use s live i Hok Hi Ha) as Hu. destruct (so_dev _ _ Hok i Hu) as (bm & Hd).
  pose proof (do_slots _ _ _ _ Hd). pose proof (dev_counts s live i Hok Hu). lia.
Qed.

Lemma counts_bounds s live : swap_ok s live -> 0 <= g_free_slots s <= g_total_slots s /\ g_total_slots s < 2 ^ 54.
Proof.
  intros Hok. rewrite (so_free _ _ Hok), (so_total _ _ Hok). unfold sum4.
  pose proof (free_of_bounds s live 0 Hok). pose proof (free_of_bounds s live 1 Hok).
  pose proof (free_of_bounds s live 2 Hok). pose proof (free_of_bounds s live 3 Hok). lia.
Qed.

(** The free slots left when the bitmap of device [i] becomes [bm]. *)
Definition remap (s : swap) (i : Z) (bm : Z -> Z) (hint : Z) : swap :=
  let d := g_devs s i in
  let n := nfree bm (sd_nslots d) in
  set_slots (g_active s) (g_total_slots s) (g_free_slots s - sd_free d + n)
    (set_dev i (SwapDev (sd_blkdev d) (sd_start d) (sd_nslots d) n (sd_bitmap d) hint (sd_active d))
      (sw_set_heap (sw_heap s) (<[sd_bitmap d := bm]> (sw_words s)) s)).

Lemma remap_ok s live i bm hint :
  swap_ok s live -> in_use s i -> words_ok bm -> 0 <= hint -> swap_ok (remap s i bm hint) live.
Proof.
  intros Hok Hi Hw Hh. pose proof (in_use_range _ _ _ Hok Hi) as Hr. pose proof Hi as [Hi0 Ha].
  assert (Hu : forall j, in_use (remap s i bm hint) j <-> in_use s j).
  { intros j. unfold in_use. simpl. unfold upd. destruct (Z.eqb_spec j i) as [->|]; simpl; [by rewrite Ha|done]. }
  assert (Hdev : forall j, sd_blkdev (g_devs (remap s i bm hint) j) = sd_blkdev (g_devs s j) /\
    sd_start (g_devs (remap s i bm hint) j) = sd_start (g_devs s j) /\
    sd_nslots (g_devs (remap s i bm hint) j) = sd_nslots (g_devs s j) /\
    sd_bitmap (g_devs (remap s i bm hint) j) = sd_bitmap (g_devs s j)).
  { intros j. simpl. unfold upd. by destruct (Z.eqb_spec j i) as [->|]. }
  destruct Hok as [K2 K3 K4 K5 K6 K7 K8 K9 K10 K11]. split; try done.
  - intros j Hj%Hu. destruct (K4 j Hj) as (bmj & Hd). simpl. unfold upd. destruct (Z.eqb_spec j i) as [->|Hne].
    + exists bm. destruct Hd. split; simpl; try done. apply lookup_insert_eq.
    + exists bmj. destruct Hd. split; simpl; try done. rewrite lookup_insert_ne; [done|]. intros Heq.
      apply Hne. symmetry. by apply K5.
  - intros j k Hj%Hu Hk%Hu. destruct (Hdev j) as (_ & _ & _ & ->), (Hdev k) as (_ & _ & _ & ->). by apply K5.
  - intros j k Hj%Hu Hk%Hu Hne b b'. destruct (Hdev j) as (-> & -> & -> & _), (Hdev k) as (-> & -> & -> & _).
    by apply K6.
  - intros j Hj. simpl in *. rewrite upd_ne by lia. by apply K7.
  - simpl. rewrite K8, (sum4_upd free_of) by done. unfold free_of. simpl. rewrite Ha. lia.
  - simpl. rewrite K9, (sum4_upd slots_of) by done. unfold slots_of. simpl. rewrite Ha. lia.
Qed.

Lemma lock_ok_swap s live l : swap_ok s live -> swap_ok (sw_set_lock l s) live.
Proof. by intros [K2 K3 K4 K5 K6 K7 K8 K9 K10 K11]; split. Qed.

(** ** Allocating and freeing slots *)

Definition took (s s' : swap) (slot : Z) : Prop :=
  exists i bm idx hint, in_use s i /\ sw_words s !! sd_bitmap (g_devs s i) = Some bm /\
    0 <= idx < sd_nslots (g_devs s i) /\ bit_used bm idx = false /\ 0 <= hint /\
    slot = swap_encode_pte i idx /\ s' = remap s i (bm_set bm idx) hint.

Lemma slot_alloc_dev_spec s live i :
  swap_ok s live -> 0 <= i ->
  exists s' slot, slot_alloc_dev s i = Some (s', slot) /\
    ((free_of (g_devs s i) = 0 /\ s' = s /\ slot = SWAP_SLOT_NONE) \/
     (slot <> SWAP_SLOT_NONE /\
      took s (set_slots (g_active s') (g_total_slots s') (u64 (g_free_slots s' - 1)) s') slot)).
Proof.
  intros Hok Hi. unfold slot_alloc_dev, free_of. destruct (sd_active (g_devs s i)) eqn:Ha; simpl; [|by eauto 10].
  pose proof (active_in_use s live i Hok Hi Ha) as Hu. pose proof (in_use_range _ _ _ Hok Hu) as Hr.
  destruct (so_dev _ _ Hok i Hu) as (bm & [D1 D2 D3 D4 D5 D6 D7 D8 D9]).
  destruct (Z.eqb_spec (sd_free (g_devs s i)) 0) as [Hz|Hz]; simpl; [by eauto 10|].
  rewrite (proj2 (Z.eqb_neq _ _) D5), D2. cbn [mbind option_bind].
  destruct (scan_words _ _ _ _ _ _) as [idx|] eqn:Hs.
  2: { apply scan_words_complete in Hs; [|lia]. rewrite D4 in Hz. done. }
  assert (Hbw : 0 < BITMAP_WORDS (sd_nslots (g_devs s i))) by (unfold BITMAP_WORDS; zlia).
  destruct (scan_words_found _ _ _ _ _ _ _ Hbw Hs) as [Hidx Hfree].
  eexists _, _. split; [done|]. right. split; [apply swap_encode_some; lia|].
  exists i, bm, idx, ((idx + 1) mod sd_nslots (g_devs s i)).
  split; [done|]. split; [done|]. split; [done|]. split; [done|]. split; [apply Z.mod_pos_bound; lia|]. split; [done|].
  pose proof (counts_bounds _ _ Hok) as Hc. pose proof (dev_counts _ _ i Hok Hu) as Hdc.
  assert (Hf1 : 1 <= g_free_slots s).
  { rewrite (so_free _ _ Hok). pose proof (sum4_upd free_of (g_devs s) i no_swap_dev Hr) as Hsum. unfold free_of at 3 4 in Hsum. 
    rewrite Ha in Hsum. simpl in Hsum.
    assert (0 <= sum4 (fun j => free_of (upd (g_devs s) i no_swap_dev j))); [|lia].
    unfold sum4, upd. pose proof (free_of_bounds s live 0 Hok). pose proof (free_of_bounds s live 1 Hok).
    pose proof (free_of_bounds s live 2 Hok). pose proof (free_of_bounds s live 3 Hok).
    repeat match goal with |- context [if ?b then _ else _] => destruct b end; change (free_of no_swap_dev) with 0; lia. }
  unfold remap. rewrite nfree_set, <- D4 by done. simpl. rewrite u64_small by lia.
  replace (g_free_slots s - sd_free (g_devs s i) + (sd_free (g_devs s i) - 1)) with (g_free_slots s - 1) by lia. by rewrite Ha.
Qed.

Lemma alloc_from_spec fuel : forall s live i,
  swap_ok s live -> 0 <= i -> i + Z.of_nat fuel = g_ndevs s ->
  exists s' slot, alloc_from fuel i s = Some (s', slot) /\
    ((slot = SWAP_SLOT_NONE /\ s' = s /\ forall j, i <= j < g_ndevs s -> free_of (g_devs s j) = 0) \/
     (slot <> SWAP_SLOT_NONE /\ took s s' slot)).
Proof.
  induction fuel as [|f IH]; intros s live i Hok Hi Hn; cbn [alloc_from].
  { eexists _, _. split; [done|]. left. split; [done|]. split; [done|]. lia. }
  destruct (slot_alloc_dev_spec s live i Hok Hi) as (s1 & slot & -> & Hc). cbn [mbind option_bind].
  destruct Hc as [(Hz & -> & ->)|[Hne Ht]].
  - rewrite Z.eqb_refl. simpl. destruct (IH s live (i + 1) Hok ltac:(lia) ltac:(lia)) as (s' & slot & -> & Hc).
    eexists _, _. split; [done|]. destruct Hc as [(-> & -> & Hall)|?]; [left|by right].
    split; [done|]. split; [done|]. intros j Hj. destruct (decide (j = i)) as [->|]; [done|]. apply Hall. lia.
  - rewrite (proj2 (Z.eqb_neq _ _) Hne). simpl. eexists _, _. split; [done|]. by right.
Qed.

Lemma swap_alloc_slot_spec s live :
  swap_ok s live -> lock_free (sw_lock s) ->
  exists s' slot l, swap_alloc_slot s = Some (sw_set_lock l s', slot) /\ lock_free l /\
    ((slot = SWAP_SLOT_NONE /\ s' = s /\ g_free_slots s = 0) \/
     (slot <> SWAP_SLOT_NONE /\ took s s' slot)).
Proof.
  intros Hok Hl. unfold swap_alloc_slot, sw_locked. destruct (spin_lock_free _ Hl) as (l & -> & Hun).
  cbn [mbind option_bind]. pose proof (lock_ok_swap s live l Hok) as Hok'. pose proof (so_n _ _ Hok) as Hn.
  destruct (alloc_from_spec (Z.to_nat (g_ndevs s)) _ _ 0 Hok' ltac:(lia)) as (s' & slot & Hx & Hc); [simpl; lia|].
  change (g_ndevs (sw_set_lock l s)) with (g_ndevs s). rewrite Hx. cbn [mbind option_bind]. destruct Hc as [(-> & -> & Hall)|(Hne & i & bm & idx & hint & Hu & Hw & Hix & Hf & Hh & Hs & ->)].
  - exists s, SWAP_SLOT_NONE, (spin_unlock l). split; [done|]. split; [done|]. left. split; [done|]. split; [done|].
    rewrite (so_free _ _ Hok). unfold sum4. simpl in Hall.
    assert (Hz : forall j, 0 <= j -> free_of (g_devs s j) = 0).
    { intros j Hj. destruct (Z.lt_ge_cases j (g_ndevs s)); [apply Hall; lia|]. unfold free_of.
      by rewrite (so_off _ _ Hok). }
    rewrite !Hz by lia. done.
  - exists (remap s i (bm_set bm idx) hint), slot, (spin_unlock l). split; [done|]. split; [done|]. right.
    split; [done|]. exists i, bm, idx, hint. done.
Qed.

Lemma slot_dev_encode s live i off :
  swap_ok s live -> in_use s i -> 0 <= off < sd_nslots (g_devs s i) ->
  slot_dev s (swap_encode_pte i off) = Some (i, off).
Proof.
  intros Hok Hu Hoff. pose proof (in_use_range _ _ _ Hok Hu) as Hr. destruct (so_dev _ _ Hok i Hu) as (bm & Hd).
  pose proof (do_slots _ _ _ _ Hd). unfold slot_dev. rewrite swap_decode_encode by lia. destruct Hu as [Hi Ha].
  destruct (Z.leb_spec (g_ndevs s) i); [lia|]. rewrite Ha. simpl.
  destruct (Z.leb_spec (sd_nslots (g_devs s i)) off); [lia|done].
Qed.

Lemma swap_free_slot_spec s live i off bm :
  swap_ok s live -> lock_free (sw_lock s) -> in_use s i -> 0 <= off < sd_nslots (g_devs s i) ->
  sw_words s !! sd_bitmap (g_devs s i) = Some bm -> bit_used bm off = true ->
  exists l, lock_free l /\
    swap_free_slot s (swap_encode_pte i off) = Some (sw_set_lock l (remap s i (bm_clear bm off) (sd_hint (g_devs s i)))).
Proof.
  intros Hok Hl Hu Hoff Hbm Hbit. unfold swap_free_slot. rewrite (slot_dev_encode s live i off Hok Hu Hoff).
  unfold sw_locked. destruct (spin_lock_free _ Hl) as (l & -> & Hun). exists (spin_unlock l). split; [done|].
  cbn [mbind option_bind]. simpl. rewrite Hbm. cbn [mbind option_bind fmap option_fmap option_map fst].
  destruct (so_dev _ _ Hok i Hu) as (bm' & [D1 D2 D3 D4 D5 D6 D7 D8 D9]). rewrite Hbm in D2. injection D2 as <-.
  pose proof (nfree_range (bm_clear bm off) (sd_nslots (g_devs s i)) ltac:(lia)) as Hrange.
  pose proof (counts_bounds s live Hok) as Hc. unfold remap. rewrite nfree_clear, <- D4 in * by done. simpl.
  rewrite !u64_small by lia.
  replace (g_free_slots s - sd_free (g_devs s i) + (sd_free (g_devs s i) + 1)) with (g_free_slots s + 1) by lia. done.
Qed.

(** ** The store of pages *)

Definition stored (s : swap) (slot : Z) (page : list Z) : Prop :=
  exists i off bm b, slot = swap_encode_pte i off /\ in_use s i /\ 0 <= off < sd_nslots (g_devs s i) /\
    sw_words s !! sd_bitmap (g_devs s i) = Some bm /\ bit_used bm off = true /\
    blkdev_get (sw_blk s) (sd_blkdev (g_devs s i)) = Some b /\
    sectors (sw_drv s) (bd_ctx b) (sd_start (g_devs s i) + 8 * off) 8 = page.

Definition holds (s : swap) (M : gmap Z (list Z)) : Prop := forall slot page, M !! slot = Some page -> stored s slot page.

Lemma stored_lock s l slot page : stored s slot page -> stored (sw_set_lock l s) slot page.
Proof. done. Qed.

Lemma stored_remap s live i bm bm' hint slot page :
  swap_ok s live -> in_use s i -> sw_words s !! sd_bitmap (g_devs s i) = Some bm ->
  (forall off, 0 <= off < sd_nslots (g_devs s i) -> slot = swap_encode_pte i off -> bit_used bm' off = bit_used bm off) ->
  stored s slot page -> stored (remap s i bm' hint) slot page.
Proof.
  intros Hok Hu Hbm Hbits (j & off & bmj & b & -> & Huj & Hoff & Hbmj & Hused & Hb & Hsec).
  exists j, off. unfold in_use. simpl. unfold upd. destruct (Z.eqb_spec j i) as [->|Hne]; simpl.
  - exists bm', b. rewrite Hbm in Hbmj. injection Hbmj as <-. destruct Hu.
    split_and!; try done; try lia; [apply lookup_insert_eq|]. rewrite Hbits by done. done.
  - exists bmj, b. destruct Huj. split_and!; try done; try lia. rewrite lookup_insert_ne; [done|]. intros Heq. apply Hne.
    symmetry. by apply (so_inj _ _ Hok).
Qed.

(** A free slot holds nothing. *)
Lemma stored_not_free s live i bm off page :
  swap_ok s live -> in_use s i -> 0 <= off < sd_nslots (g_devs s i) ->
  sw_words s !! sd_bitmap (g_devs s i) = Some bm -> bit_used bm off = false ->
  ~ stored s (swap_encode_pte i off) page.
Proof.
  intros Hok Hu Hoff Hbm Hfree (j & off' & bm' & b & Heq & Huj & Hoff' & Hbm' & Hused & _).
  pose proof (in_use_range _ _ _ Hok Hu). pose proof (in_use_range _ _ _ Hok Huj).
  destruct (so_dev _ _ Hok i Hu) as (? & Hd). pose proof (do_slots _ _ _ _ Hd).
  destruct (so_dev _ _ Hok j Huj) as (? & Hdj). pose proof (do_slots _ _ _ _ Hdj).
  apply swap_encode_inj in Heq as [<- <-]; [|lia..]. congruence.
Qed.

Lemma sectors_frame (d d' : D) ctx lba n :
  (forall l, lba <= l < lba + n -> drv_sector d' ctx l = drv_sector d ctx l) -> sectors d' ctx lba n = sectors d ctx lba n.
Proof.
  intros Heq. unfold sectors. assert (Hs : forall i, i ∈ seqZ 0 n -> 0 <= i < n) by (intros i Hi; apply elem_of_seqZ in Hi; lia).
  revert Hs. generalize (seqZ 0 n). intros l. induction l as [|i l IH]; intros Hs; [done|]. simpl.
  rewrite Heq, IH; [done| |].
  - intros j Hj. apply Hs. by right.
  - specialize (Hs i ltac:(by left)). lia.
Qed.

(** Changing the sectors of one slot only. *)
Lemma stored_drv s live i off d slot page :
  swap_ok s live -> in_use s i -> 0 <= off < sd_nslots (g_devs s i) ->
  (forall b, blkdev_get (sw_blk s) (sd_blkdev (g_devs s i)) = Some b -> forall c l,
     (c <> bd_ctx b \/ l < sd_start (g_devs s i) + 8 * off \/ sd_start (g_devs s i) + 8 * off + 8 <= l) ->
     drv_sector d c l = drv_sector (sw_drv s) c l) ->
  (blkdev_get (sw_blk s) (sd_blkdev (g_devs s i)) = None -> d = sw_drv s) ->
  slot <> swap_encode_pte i off -> stored s slot page -> stored (set_drv d s) slot page.
Proof.
  intros Hok Hu Hoff Hfr Hno Hne (j & off' & bm' & b & -> & Huj & Hoff' & Hbm' & Hused & Hb & Hsec).
  exists j, off', bm', b. do 6 (split; [done|]). rewrite <- Hsec. apply sectors_frame. intros l Hl.
  destruct (blkdev_get (sw_blk s) (sd_blkdev (g_devs s i))) as [bi|] eqn:Hbi; [|by rewrite Hno].
  apply (Hfr bi eq_refl). destruct (decide (j = i)) as [->|Hji].
  - right. assert (off' <> off) by congruence. lia.
  - pose proof (so_apart _ _ Hok j i Huj Hu Hji b bi Hb Hbi) as Hap. destruct Hap as [?|Hap]; [by left|]. right. lia.
Qed.

(** ** The state around the slots *)

Lemma ok_drv s live d : swap_ok s live -> swap_ok (set_drv d s) live.
Proof. by intros [K2 K3 K4 K5 K6 K7 K8 K9 K10 K11]; split. Qed.

Lemma ok_mem s live m : swap_ok s live -> swap_ok (set_mem m s) live.
Proof. by intros [K2 K3 K4 K5 K6 K7 K8 K9 K10 K11]; split. Qed.

Lemma ok_reclaim s live r : swap_ok s live -> mr_ok r -> swap_ok (set_reclaim r s) live.
Proof. by intros [K2 K3 K4 K5 K6 K7 K8 K9 K10 K11] Hr; split. Qed.

Lemma ok_heap s live h live' :
  swap_ok s live -> al_inv h live' -> live ⊆ live' -> swap_ok (sw_set_heap h (sw_words s) s) live'.
Proof.
  intros [K2 K3 K4 K5 K6 K7 K8 K9 K10 K11] Hh Hsub; split; try done.
  intros i Hi. destruct (K4 i Hi) as (bm & [D1 D2 D3 D4 D5 D6 D7 D8 D9]). exists bm. split; try done. by apply Hsub.
Qed.

Lemma slot_lba_val s live i off :
  swap_ok s live -> in_use s i -> 0 <= off < sd_nslots (g_devs s i) ->
  slot_lba s i off = sd_start (g_devs s i) + 8 * off.
Proof.
  intros Hok Hu Hoff. destruct (so_dev _ _ Hok i Hu) as (bm & [D1 D2 D3 D4 D5 D6 D7 D8 D9]).
  unfold slot_lba. change SECTORS_PER_PAGE with 8.
  rewrite (u64_small (off * 8)) by lia. rewrite u64_small by lia. lia.
Qed.

(** What a transfer may do to the drivers: nothing outside the slot. *)
Definition only_slot (s : swap) (i off : Z) (d : D) : Prop :=
  (forall b, blkdev_get (sw_blk s) (sd_blkdev (g_devs s i)) = Some b -> forall c l,
     (c <> bd_ctx b \/ l < sd_start (g_devs s i) + 8 * off \/ sd_start (g_devs s i) + 8 * off + 8 <= l) ->
     drv_sector d c l = drv_sector (sw_drv s) c l) /\
  (blkdev_get (sw_blk s) (sd_blkdev (g_devs s i)) = None -> d = sw_drv s).

Lemma swap_write_page_spec s live i off page :
  swap_ok s live -> in_use s i -> 0 <= off < sd_nslots (g_devs s i) ->
  exists d rc, swap_write_page s (swap_encode_pte i off) page = (set_drv d s, rc) /\ only_slot s i off d /\
    (rc = 0 -> exists b, blkdev_get (sw_blk s) (sd_blkdev (g_devs s i)) = Some b /\
       sectors d (bd_ctx b) (sd_start (g_devs s i) + 8 * off) 8 = sw_mem s page).
Proof.
  intros Hok Hu Hoff. unfold swap_write_page. rewrite (slot_dev_encode s live i off Hok Hu Hoff).
  rewrite (slot_lba_val s live i off Hok Hu Hoff). change SECTORS_PER_PAGE with 8. unfold blkdev_write.
  destruct (io_ok _ _ _ _ _) as [b|] eqn:Hio.
  - apply io_ok_bounds in Hio as (Hb & _). destruct (drv_write _ _ _ _ _ _) as [rc d] eqn:Hw.
    exists d, rc. split; [done|]. split; [split|].
    + intros b' Hb'. rewrite Hb in Hb'. injection Hb' as <-. intros c l Hcl. by eapply drv_write_frame.
    + by rewrite Hb.
    + intros ->. exists b. split; [done|]. by eapply drv_write_ok.
  - exists (sw_drv s), (-1). split; [done|]. split; [by split|done].
Qed.

Lemma swap_read_page_spec s live i off page :
  swap_ok s live -> in_use s i -> 0 <= off < sd_nslots (g_devs s i) ->
  exists d m rc, swap_read_page s (swap_encode_pte i off) page = (set_mem m (set_drv d s), rc) /\
    (forall c l, drv_sector d c l = drv_sector (sw_drv s) c l) /\
    (forall q, q <> page -> m q = sw_mem s q) /\
    (rc = 0 -> forall b, blkdev_get (sw_blk s) (sd_blkdev (g_devs s i)) = Some b ->
       m page = sectors (sw_drv s) (bd_ctx b) (sd_start (g_devs s i) + 8 * off) 8).
Proof.
  intros Hok Hu Hoff. unfold swap_read_page. rewrite (slot_dev_encode s live i off Hok Hu Hoff).
  rewrite (slot_lba_val s live i off Hok Hu Hoff). change SECTORS_PER_PAGE with 8. unfold blkdev_read.
  destruct (io_ok _ _ _ _ _) as [b|] eqn:Hio.
  - apply io_ok_bounds in Hio as (Hb & _). destruct (drv_read _ _ _ _ _) as [[rc data] d] eqn:Hr.
    exists d, (upd (sw_mem s) page data), rc. split; [done|]. split; [intros c l; by eapply drv_read_frame|]. split.
    + intros q Hq. by apply upd_ne.
    + intros -> b' Hb'. rewrite Hb in Hb'. injection Hb' as <-. rewrite upd_eq. by eapply drv_read_ok.
  - exists (sw_drv s), (sw_mem s), (-1). by destruct s.
Qed.

(** What the operations on a page return is what the device answers. *)
Lemma swap_write_page_rc s live i off page :
  swap_ok s live -> in_use s i -> 0 <= off < sd_nslots (g_devs s i) ->
  snd (swap_write_page s (swap_encode_pte i off) page) =
  fst (blkdev_write (blkdev_get (sw_blk s) (sd_blkdev (g_devs s i))) (slot_lba s i off) SECTORS_PER_PAGE page
         (sw_mem s page) (sw_drv s)).
Proof.
  intros Hok Hu Hoff. unfold swap_write_page. rewrite (slot_dev_encode s live i off Hok Hu Hoff).
  by destruct (blkdev_write _ _ _ _ _ _).
Qed.

Lemma swap_read_page_rc s live i off page :
  swap_ok s live -> in_use s i -> 0 <= off < sd_nslots (g_devs s i) ->
  snd (swap_read_page s (swap_encode_pte i off) page) =
  fst (fst (blkdev_read (blkdev_get (sw_blk s) (sd_blkdev (g_devs s i))) (slot_lba s i off) SECTORS_PER_PAGE page
         (sw_drv s))).
Proof.
  intros Hok Hu Hoff. unfold swap_read_page. rewrite (slot_dev_encode s live i off Hok Hu Hoff).
  by destruct (blkdev_read _ _ _ _ _) as [[? []] ?].
Qed.

Lemma account_spec r op : mr_ok r -> op_ok op -> exists r', mr_exec r op = Some r' /\ mr_ok r'.
Proof. intros Hr Ho. destruct (mr_exec_spec r op Hr Ho) as (r' & ? & ? & _). eauto. Qed.

(** Freeing the slot [i], [off]. *)
Lemma free_holds s live i off bm M :
  swap_ok s live -> lock_free (sw_lock s) -> in_use s i -> 0 <= off < sd_nslots (g_devs s i) ->
  sw_words s !! sd_bitmap (g_devs s i) = Some bm -> bit_used bm off = true -> holds s M ->
  exists s', swap_free_slot s (swap_encode_pte i off) = Some s' /\ swap_ok s' live /\ lock_free (sw_lock s') /\
    holds s' (delete (swap_encode_pte i off) M) /\ sw_mem s' = sw_mem s /\ sw_reclaim s' = sw_reclaim s /\
    sw_heap s' = sw_heap s.
Proof.
  intros Hok Hl Hu Hoff Hbm Hbit HM. destruct (swap_free_slot_spec s live i off bm) as (l & Hlf & ->); try done.
  destruct (so_dev _ _ Hok i Hu) as (bm' & [D1 D2 D3 D4 D5 D6 D7 D8 D9]). rewrite Hbm in D2. injection D2 as <-.
  eexists. split; [done|]. split; [apply lock_ok_swap, remap_ok; try done; by apply words_ok_clear|]. split; [done|].
  split; [|done]. intros slot page [Hne Hp]%lookup_delete_Some. apply stored_lock.
  apply (stored_remap s live i bm); try done; [|by apply HM].
  intros off' Hoff' ->. rewrite bit_used_clear. destruct (Z.eqb_spec off' off) as [->|]; [done|]. by rewrite andb_true_r.
Qed.
End swap_proof.
