(* ===== verification/SwapProps.v ===== *)
(** * What swap space guarantees

    Every call on a sound swap state returns, keeps it sound and does to the
    store of pages what the abstract specification says: swapping out adds a
    page under a fresh entry, swapping in takes exactly that page back. *)

From stdpp Require Import base gmap list list_numbers.
From Stdlib Require Import ZArith Lia.
From S2P Require Import Prelude Spinlock Allocator Bitmap Mreclaim Blkdev Swap SwapProof SchedExample.

Inductive swap_call :=
| SwapOut (phys : Z) | SwapIn (slot : Z) | SwapFree (slot : Z)
| SwapAdd (blkdev_idx start_lba nslots : Z) | SwapRemove (dev_idx : Z).

(** The device of a swap entry. *)
Definition pte_dev (slot : Z) : option Z := fst <$> swap_decode_pte slot.

Section props.
Context {A D : Type} `{AllocatorLaws A} `{BlockDriverLaws D}.
Abbreviation swap := (@swap A D).

Definition exec_swap (s : swap) (k : swap_call) : option (swap * (Z * Z)) :=
  match k with
  | SwapOut phys => swap_out_page s phys
  | SwapIn slot => swap_in_page s slot
  | SwapFree slot => s ← swap_free_slot s slot; Some (s, (0, 0))
  | SwapAdd b lba n => '(s, r) ← swap_add_dev s b lba n; Some (s, (r, 0))
  | SwapRemove i => '(s, r) ← swap_remove_dev s i; Some (s, (r, 0))
  end.

(** What the callers have to keep to, since the code does not check it: entries
    they swap in or free are of pages they swapped out and have not swapped in
    or freed since, and a device is added with sectors of its own. *)
Definition swap_pre (s : swap) (M : gmap Z (list Z)) (k : swap_call) : Prop :=
  match k with
  | SwapOut _ | SwapRemove _ => True
  | SwapIn slot | SwapFree slot => is_Some (M !! slot)
  | SwapAdd b lba n => 0 < n < 2 ^ 52 /\ 0 <= lba /\ lba + 8 * n < 2 ^ 64 /\
      forall i, in_use s i -> apart (sw_blk s) (g_devs s i) (SwapDev b lba n n 0 0 true)
  end.

Definition out_of_memory (s : swap) (sz : Z) : Prop := exists h, al_alloc (sw_heap s) sz = Some (h, 0).

(** The reasons for which a call may fail: no free slot, no memory, an error of
    the block device, no room in the table, no such device. *)
Definition fail_cause (s : swap) (k : swap_call) : Prop :=
  match k with
  | SwapOut phys => g_free_slots s = 0 \/
      exists i off, in_use s i /\ 0 <= off < sd_nslots (g_devs s i) /\
        fst (blkdev_write (blkdev_get (sw_blk s) (sd_blkdev (g_devs s i))) (slot_lba s i off) SECTORS_PER_PAGE phys
               (sw_mem s phys) (sw_drv s)) <> 0
  | SwapIn slot => out_of_memory s SWAP_PAGE_SIZE \/
      exists i off p, slot = swap_encode_pte i off /\ in_use s i /\
        fst (fst (blkdev_read (blkdev_get (sw_blk s) (sd_blkdev (g_devs s i))) (slot_lba s i off) SECTORS_PER_PAGE p
                    (sw_drv s))) <> 0
  | SwapFree _ => False
  | SwapAdd _ _ n => g_ndevs s = SWAP_MAX_DEVS \/ out_of_memory s ((n + 63) / 64 * 8)
  | SwapRemove i => ~ in_use s i
  end.

(** The abstract store: a call in state [s] with its result and value, and the
    memory [m'] afterwards. *)
Inductive store_step (s : swap) (m' : Z -> list Z) : swap_call -> Z -> Z -> gmap Z (list Z) -> gmap Z (list Z) -> Prop :=
| StOut phys slot M : M !! slot = None -> (forall q, m' q = sw_mem s q) ->
    store_step s m' (SwapOut phys) 0 slot M (<[slot := sw_mem s phys]> M)
| StIn slot page p M : M !! slot = Some page -> m' p = page -> p <> 0 -> (forall q, q <> p -> m' q = sw_mem s q) ->
    store_step s m' (SwapIn slot) 0 p M (delete slot M)
| StFree slot M : (forall q, m' q = sw_mem s q) -> store_step s m' (SwapFree slot) 0 0 M (delete slot M)
| StAdd b lba n M : g_ndevs s < SWAP_MAX_DEVS -> (forall q, m' q = sw_mem s q) ->
    store_step s m' (SwapAdd b lba n) (g_ndevs s) 0 M M
| StRemove i M : in_use s i -> (forall q, m' q = sw_mem s q) ->
    store_step s m' (SwapRemove i) 0 0 M (filter (fun e => pte_dev e.1 <> Some i) M)
| StFail k v p M : fail_cause s k -> (forall q, q <> p -> m' q = sw_mem s q) -> store_step s m' k (-1) v M M.

Lemma no_free (s : swap) live :
  swap_ok s live -> negb (g_active s) || (g_free_slots s =? 0) = true -> g_free_slots s = 0.
Proof.
  intros Hok [Ha|Hf]%orb_true_iff; [|by apply Z.eqb_eq].
  rewrite (so_active _ _ Hok), negb_true_iff, Z.ltb_ge in Ha. pose proof (counts_bounds _ _ Hok). lia.
Qed.

(** A swap device in use has slots, so swap is active. *)
Lemma used_active (s : swap) live i : swap_ok s live -> in_use s i -> g_active s = true.
Proof.
  intros Hok Hu. rewrite (so_active _ _ Hok). apply Z.ltb_lt. rewrite (so_total _ _ Hok).
  pose proof (in_use_range _ _ _ Hok Hu) as Hr. destruct (so_dev _ _ Hok i Hu) as (bm & Hd).
  pose proof (do_slots _ _ _ _ Hd) as Hn.
  assert (Hi : slots_of (g_devs s i) = sd_nslots (g_devs s i)) by (destruct Hu as [_ Ha]; unfold slots_of; by rewrite Ha).
  assert (Hj : forall j, 0 <= j -> 0 <= slots_of (g_devs s j)).
  { intros j Hj. pose proof (free_of_bounds s live j Hok Hj). lia. }
  pose proof (Hj 0 ltac:(lia)). pose proof (Hj 1 ltac:(lia)). pose proof (Hj 2 ltac:(lia)). pose proof (Hj 3 ltac:(lia)).
  unfold sum4. assert (Hc : i = 0 \/ i = 1 \/ i = 2 \/ i = 3) by lia. destruct Hc as [->|[->|[->| ->]]]; lia.
Qed.

Lemma out_spec (s : swap) live M phys :
  swap_ok s live -> lock_free (sw_lock s) -> holds s M ->
  exists s' r v, swap_out_page s phys = Some (s', (r, v)) /\ swap_ok s' live /\ lock_free (sw_lock s') /\
    sw_mem s' = sw_mem s /\
    (r = -1 /\ holds s' M /\ fail_cause s (SwapOut phys) \/
     r = 0 /\ M !! v = None /\ holds s' (<[v := sw_mem s phys]> M)).
Proof.
  intros Hok Hl HM. unfold swap_out_page. destruct (_ || _) eqn:Hnone.
  { eexists _, _, _. split; [done|]. do 3 (split; [done|]). left. do 2 (split; [done|]). left. by eapply no_free. }
  destruct (swap_alloc_slot_spec s live Hok Hl) as (s1 & slot & l & -> & Hlf & Hc). cbn [mbind option_bind].
  destruct Hc as [(-> & -> & Hz)|(Hne & i & bm & off & hint & Hu & Hbm & Hoff & Hbit & Hh & -> & ->)].
  { rewrite Z.eqb_refl. eexists _, _, _. split; [done|]. split; [by apply lock_ok_swap|].
    do 2 (split; [done|]). left. split; [done|]. split; [done|by left]. }
  rewrite (proj2 (Z.eqb_neq _ _) Hne). set (s1 := sw_set_lock l _).
  destruct (so_dev _ _ Hok i Hu) as (bm' & [D1 D2 D3 D4 D5 D6 D7 D8 D9]). rewrite Hbm in D2. injection D2 as <-.
  assert (Hok1 : swap_ok s1 live) by (apply lock_ok_swap, remap_ok; try done; by apply words_ok_set).
  assert (Hfresh : M !! swap_encode_pte i off = None).
  { destruct (M !! _) as [page|] eqn:Hp; [|done]. apply HM in Hp. by eapply stored_not_free in Hp. }
  assert (Hst : forall slot page, M !! slot = Some page -> stored s1 slot page).
  { intros slot page Hp. apply stored_lock, (stored_remap s live i bm); try done; [|by apply HM].
    intros off' _ ->. rewrite bit_used_set. destruct (Z.eqb_spec off' off) as [->|]; [congruence|]. by rewrite orb_false_r. }
  assert (Hu1 : in_use s1 i). { destruct Hu as [? Ha]. split; [done|]. simpl. by rewrite upd_eq. }
  assert (Hdev : g_devs s1 i = SwapDev (sd_blkdev (g_devs s i)) (sd_start (g_devs s i)) (sd_nslots (g_devs s i))
    (nfree (bm_set bm off) (sd_nslots (g_devs s i))) (sd_bitmap (g_devs s i)) hint (sd_active (g_devs s i))) by apply upd_eq.
  assert (Hoff1 : 0 <= off < sd_nslots (g_devs s1 i)) by by rewrite Hdev.
  assert (Hbm1 : sw_words s1 !! sd_bitmap (g_devs s1 i) = Some (bm_set bm off)) by (rewrite Hdev; apply lookup_insert_eq).
  assert (Hbit1 : bit_used (bm_set bm off) off = true) by (rewrite bit_used_set, Z.eqb_refl; apply orb_true_r).
  pose proof (swap_write_page_rc s1 live i off phys Hok1 Hu1 Hoff1) as Hrc1.
  destruct (swap_write_page_spec s1 live i off phys Hok1 Hu1 Hoff1) as (d & rc & Hwr & [Hfr Hno] & Hok0).
  rewrite Hwr in Hrc1 |- *.
  assert (Hst2 : holds (set_drv d s1) M).
  { intros slot page Hp. eapply (stored_drv s1 live i off); try done; [congruence|by apply Hst]. }
  destruct (Z.eqb_spec rc 0) as [->|Hrc]; simpl.
  - destruct (account_spec (sw_reclaim s) (OpFree 1)) as (r & Hr & Hmr); [apply Hok|simpl; lia|]. simpl in Hr.
    destruct (mreclaim_account_free (sw_reclaim s) 1) as [[r' []]|]; [|done]. injection Hr as ->.
    cbn [mbind option_bind]. eexists _, _, _. split; [done|]. split; [by apply ok_reclaim; [apply ok_drv|]|].
    split; [done|]. split; [done|]. right. split; [done|]. split; [done|].
    intros slot page [[<- <-]|[Hns Hp]]%lookup_insert_Some; [|by apply Hst2].
    destruct (Hok0 eq_refl) as (b & Hb & Hsec). exists i, off, (bm_set bm off), b. done.
  - destruct (free_holds (set_drv d s1) live i off (bm_set bm off) M) as (s2 & -> & Hok2 & Hl2 & HM2 & Hm2 & _); try done.
    { by apply ok_drv. }
    cbn [mbind option_bind]. eexists _, _, _. split; [done|]. split; [done|]. split; [done|].
    split; [by rewrite Hm2|]. left. split; [done|]. split; [by rewrite delete_id in HM2|].
    right. exists i, off. split; [done|]. split; [done|].
    unfold slot_lba in *. rewrite Hdev in Hrc1. simpl in Hrc1. by rewrite <- Hrc1.
Qed.

(** Reading changes neither sectors nor slots. *)
Lemma stored_read (s : swap) d m slot page :
  (forall c l, drv_sector d c l = drv_sector (sw_drv s) c l) -> stored s slot page -> stored (set_mem m (set_drv d s)) slot page.
Proof.
  intros Hd (i & off & bm & b & He & Hu & Hoff & Hbm & Hbit & Hb & Hsec). exists i, off, bm, b.
  do 6 (split; [done|]). rewrite <- Hsec. apply sectors_frame. intros l _. apply Hd.
Qed.

Lemma in_spec (s : swap) live M slot page :
  swap_ok s live -> lock_free (sw_lock s) -> holds s M -> M !! slot = Some page ->
  exists s' r v live', swap_in_page s slot = Some (s', (r, v)) /\ swap_ok s' live' /\ lock_free (sw_lock s') /\
    (r = -1 /\ holds s' M /\ fail_cause s (SwapIn slot) /\ (exists p, forall q, q <> p -> sw_mem s' q = sw_mem s q) \/
     r = 0 /\ v <> 0 /\ sw_mem s' v = page /\ holds s' (delete slot M) /\ forall q, q <> v -> sw_mem s' q = sw_mem s q).
Proof.
  intros Hok Hl HM Hp. unfold swap_in_page.
  assert (g_active s = true) as ->.
  { destruct (HM slot page Hp) as (i & off & bm & b & _ & Hu & _). by eapply used_active. }
  cbn [negb].
  destruct (al_alloc_law (sw_heap s) live SWAP_PAGE_SIZE (so_heap _ _ Hok)) as (h & p & Hal & Ha); [by unfold SWAP_PAGE_SIZE|].
  rewrite Hal. cbn [mbind option_bind]. destruct Ha as [[-> Hh]|(Hp0 & _ & _ & Hpl & Hh)].
  { simpl. eexists _, _, _, live. split; [done|]. split; [by eapply ok_heap|]. split; [done|]. left.
    split; [done|]. split; [done|]. split; [left; by exists h|]. by exists 0. }
  rewrite (proj2 (Z.eqb_neq _ _) Hp0). set (s1 := sw_set_heap h _ s).
  assert (Hok1 : swap_ok s1 ({[p]} ∪ live)) by (eapply ok_heap; [done|done|set_solver]).
  destruct (HM slot page Hp) as (i & off & bm & b & -> & Hu & Hoff & Hbm & Hbit & Hb & Hsec).
  pose proof (swap_read_page_rc s1 ({[p]} ∪ live) i off p Hok1 Hu Hoff) as Hrc1.
  destruct (swap_read_page_spec s1 ({[p]} ∪ live) i off p Hok1 Hu Hoff) as (d & m & rc & Hrp & Hd & Hm & Hrd).
  rewrite Hrp in Hrc1 |- *.
  assert (Hok2 : swap_ok (set_mem m (set_drv d s1)) ({[p]} ∪ live)) by by apply ok_mem, ok_drv.
  assert (HM2 : holds (set_mem m (set_drv d s1)) M).
  { intros slot' page' Hp'. apply stored_read; [done|]. by apply HM. }
  destruct (Z.eqb_spec rc 0) as [->|Hrc]; simpl.
  - destruct (free_holds (set_mem m (set_drv d s1)) ({[p]} ∪ live) i off bm M) as (s2 & -> & Hok3 & Hl3 & HM3 & Hm3 & Hr3 & _); try done.
    cbn [mbind option_bind].
    destruct (account_spec (sw_reclaim s) (OpAlloc 1)) as (r & Hr & Hmr); [apply Hok|simpl; lia|]. simpl in Hr.
    rewrite Hr3. simpl. destruct (mreclaim_account_alloc (sw_reclaim s) 1) as [[r' []]|]; [|done]. injection Hr as ->.
    cbn [mbind option_bind]. eexists _, _, _, _. split; [done|]. split; [by apply ok_reclaim|]. split; [done|].
    right. split; [done|]. split; [done|]. simpl. rewrite Hm3. simpl. split; [|by split].
    rewrite (Hrd eq_refl b Hb). exact Hsec.
  - destruct (al_free_law h ({[p]} ∪ live) p) as (h' & Hf & Hh'); [done|set_solver|]. rewrite Hf. cbn [mbind option_bind].
    assert (Hlive : ({[p]} ∪ live) ∖ {[p]} = live) by set_solver. rewrite Hlive in Hh'.
    assert (Hok3 : swap_ok (set_mem m (set_drv d s)) live) by by apply ok_mem, ok_drv.
    pose proof (ok_heap _ _ _ _ Hok3 Hh' ltac:(done)) as Hok4.
    eexists _, _, _, live. split; [done|]. split; [exact Hok4|]. split; [done|]. left. split; [done|].
    split; [intros slot' page' Hp'; exact (HM2 slot' page' Hp')|]. split; [|exists p; exact Hm].
    right. exists i, off, p. split; [done|]. split; [done|]. simpl in Hrc1. unfold slot_lba in *. simpl in Hrc1. by rewrite <- Hrc1.
Qed.

Lemma free_spec (s : swap) live M slot :
  swap_ok s live -> lock_free (sw_lock s) -> holds s M -> is_Some (M !! slot) ->
  exists s', swap_free_slot s slot = Some s' /\ swap_ok s' live /\ lock_free (sw_lock s') /\
    holds s' (delete slot M) /\ sw_mem s' = sw_mem s.
Proof.
  intros Hok Hl HM [page Hp]. destruct (HM slot page Hp) as (i & off & bm & b & -> & Hu & Hoff & Hbm & Hbit & _).
  destruct (free_holds s live i off bm M) as (s' & ? & ? & ? & ? & ? & _); try done. eauto 10.
Qed.

Lemma new_dev_ok (s : swap) live h b lba n p l :
  swap_ok s live -> g_ndevs s < 4 -> 0 < n < 2 ^ 52 -> 0 <= lba -> lba + 8 * n < 2 ^ 64 ->
  (forall i, in_use s i -> apart (sw_blk s) (g_devs s i) (SwapDev b lba n n 0 0 true)) ->
  p <> 0 -> (p ∉ live) -> al_inv h ({[p]} ∪ live) ->
  let s1 := set_slots true (g_total_slots s + n) (g_free_slots s + n)
              (set_ndevs (g_ndevs s + 1) (set_dev (g_ndevs s) (SwapDev b lba n n p 0 true)
                (sw_set_heap h (<[p := fun _ => 0]> (sw_words s)) (sw_set_lock l s)))) in
  swap_ok s1 ({[p]} ∪ live).
Proof.
  intros Hok Hn4 Hn Hlba Hend Hap Hp0 Hpl Hh s1. pose proof (counts_bounds _ _ Hok) as Hcnt.
  pose proof (so_off _ _ Hok (g_ndevs s) ltac:(lia)) as Hoff.
  assert (Hu : forall i, in_use s1 i -> i = g_ndevs s \/ i <> g_ndevs s /\ in_use s i).
  { intros i [Hi Ha]. destruct (decide (i = g_ndevs s)) as [->|Hne]; [by left|]. right. split; [done|].
    simpl in Hi, Ha. rewrite upd_ne in Ha by done. split; [lia|done]. }
  assert (Hnew : g_devs s1 (g_ndevs s) = SwapDev b lba n n p 0 true) by apply upd_eq.
  assert (Hold : forall i, i <> g_ndevs s -> g_devs s1 i = g_devs s i) by (intros i Hi; by apply upd_ne).
  assert (Hbm : forall i, in_use s i -> sd_bitmap (g_devs s i) ∈ live).
  { intros i Hi. destruct (so_dev _ _ Hok i Hi) as (bm & Hd). by apply (do_live _ _ _ _ Hd). }
  pose proof Hok as [K2 K3 K4 K5 K6 K7 K8 K9 K10 K11]. unfold SWAP_MAX_DEVS in *. split; try done.
  - simpl. unfold SWAP_MAX_DEVS. lia.
  - intros i [->|[Hne Hi]]%Hu.
    + rewrite Hnew. exists (fun _ => 0). split; cbn [sd_nslots sd_bitmap sd_free sd_hint sd_start]; try assumption.
      * apply lookup_insert_eq.
      * intros w. lia.
      * by rewrite nfree_zero by (done || lia).
      * clear. set_solver.
      * lia.
    + rewrite Hold by done. destruct (K4 i Hi) as (bm & [D1 D2 D3 D4 D5 D6 D7 D8 D9]). exists bm.
      split; try assumption; [|clear -D6; set_solver]. simpl. rewrite lookup_insert_ne; [done|]. intros ->.
      by apply Hpl, Hbm.
  - intros i j [->|[Hne Hi]]%Hu [->|[Hnej Hj]]%Hu; rewrite ?Hnew, ?Hold by done; simpl; try done.
    + intros ->. destruct Hpl. by apply Hbm.
    + intros <-. destruct Hpl. by apply Hbm.
    + by apply K5.
  - intros i j [->|[Hne Hi]]%Hu [->|[Hnej Hj]]%Hu Hij; rewrite ?Hnew, ?Hold by done; try done.
    + intros c c' Hc Hc'. destruct (Hap j Hj c' c Hc' Hc) as [?|?]; simpl in *; [left; congruence|right; lia].
    + intros c c' Hc Hc'. by apply (Hap i Hi c c').
    + by apply K6.
  - intros i Hi. simpl in Hi. rewrite Hold by lia. apply K7. lia.
  - assert (Hz : free_of (g_devs s (g_ndevs s)) = 0) by (unfold free_of; by rewrite Hoff).
    simpl. rewrite (sum4_upd free_of) by lia. rewrite K8, Hz. unfold free_of. simpl. lia.
  - assert (Hz : slots_of (g_devs s (g_ndevs s)) = 0) by (unfold slots_of; by rewrite Hoff).
    simpl. rewrite (sum4_upd slots_of) by lia. rewrite K9, Hz. unfold slots_of. simpl. lia.
  - simpl. symmetry. apply Z.ltb_lt. lia.
Qed.

Lemma add_spec (s : swap) live M b lba n :
  swap_ok s live -> lock_free (sw_lock s) -> holds s M -> swap_pre s M (SwapAdd b lba n) ->
  exists s' r live', swap_add_dev s b lba n = Some (s', r) /\ swap_ok s' live' /\ lock_free (sw_lock s') /\
    holds s' M /\ sw_mem s' = sw_mem s /\
    (r = -1 /\ fail_cause s (SwapAdd b lba n) \/ r = g_ndevs s /\ g_ndevs s < SWAP_MAX_DEVS).
Proof.
  intros Hok Hl HM (Hn & Hlba & Hend & Hap). unfold swap_add_dev, sw_locked.
  destruct (spin_lock_free _ Hl) as (l & -> & Hun). cbn [mbind option_bind]. pose proof (so_n _ _ Hok) as HN.
  destruct (Z.leb_spec SWAP_MAX_DEVS (g_ndevs (sw_set_lock l s))) as [Hfull|Hroom]; simpl in *.
  { eexists _, _, live. split; [done|]. split; [by do 2 apply lock_ok_swap|]. do 3 (split; [done|]).
    left. split; [done|]. left. lia. }
  assert (Hbytes : 0 < (n + 63) / 64 * 8 < 2 ^ 62) by (clear -Hn; zlia).
  rewrite (u64_small (n + 63)), (u64_small ((n + 63) / 64 * 8)) by lia.
  destruct (al_alloc_law (sw_heap s) live ((n + 63) / 64 * 8) (so_heap _ _ Hok) Hbytes) as (h & p & Hal & Ha).
  rewrite Hal. cbn [mbind option_bind]. destruct Ha as [[-> Hh]|(Hp0 & _ & _ & Hpl & Hh)].
  { simpl. eexists _, _, live. split; [done|]. split.
    - apply lock_ok_swap. by apply (ok_heap _ live h live (lock_ok_swap s live l Hok)).
    - do 3 (split; [done|]). left. split; [done|]. right. by exists h. }
  rewrite (proj2 (Z.eqb_neq _ _) Hp0). cbn [mbind option_bind]. pose proof (counts_bounds _ _ Hok) as Hcnt.
  simpl. rewrite !u64_small by lia. unfold SWAP_MAX_DEVS in *.
  eexists _, _, ({[p]} ∪ live). split; [done|]. split.
  { apply lock_ok_swap. by apply new_dev_ok. }
  split; [done|]. split; [|split; [done|by right]].
  intros slot page Hp. destruct (HM slot page Hp) as (i & off & bm & bd & -> & Hu & Hoff & Hbm & Hbit & Hb & Hsec).
  pose proof Hu as [Hi Ha]. exists i, off, bm, bd. unfold in_use. simpl. rewrite !upd_ne by lia.
  split; [done|]. split; [split; [lia|done]|]. split; [done|]. split; [|done].
  rewrite lookup_insert_ne; [done|]. intros ->. apply Hpl. destruct (so_dev _ _ Hok i Hu) as (bm' & Hd).
  by apply (do_live _ _ _ _ Hd).
Qed.

Lemma removed_ok (s : swap) live h i l :
  swap_ok s live -> in_use s i -> al_inv h (live ∖ {[sd_bitmap (g_devs s i)]}) ->
  let d := g_devs s i in
  let total := g_total_slots s - sd_nslots d in
  swap_ok (set_dev i (SwapDev (sd_blkdev d) (sd_start d) (sd_nslots d) (sd_free d) 0 (sd_hint d) false)
            (sw_set_heap h (delete (sd_bitmap d) (sw_words s))
              (set_slots (0 <? total) total (g_free_slots s - sd_free d) (sw_set_lock l s))))
    (live ∖ {[sd_bitmap d]}).
Proof.
  intros Hok Hu Hh d total. pose proof (in_use_range _ _ _ Hok Hu) as Hr. set (s1 := set_dev i _ _).
  assert (Hus : forall j, in_use s1 j -> j <> i /\ in_use s j).
  { intros j [Hj Ha]. simpl in Hj, Ha. unfold upd in Ha. destruct (Z.eqb_spec j i); [done|]. by split. }
  assert (Hold : forall j, j <> i -> g_devs s1 j = g_devs s j) by (intros j Hj; by apply upd_ne).
  pose proof Hok as [K2 K3 K4 K5 K6 K7 K8 K9 K10 K11]. pose proof Hu as [Hi Ha]. split; try done.
  - intros j [Hne Hj]%Hus. rewrite Hold by done. destruct (K4 j Hj) as (bm & [D1 D2 D3 D4 D5 D6 D7 D8 D9]).
    assert (Hbne : sd_bitmap d <> sd_bitmap (g_devs s j)) by (intros Heq; apply Hne; symmetry; by apply K5).
    exists bm. split; try assumption; [|clear -D6 Hbne; set_solver]. simpl. by rewrite lookup_delete_ne.
  - intros j k [Hne Hj]%Hus [Hnk Hk]%Hus. rewrite !Hold by done. by apply K5.
  - intros j k [Hne Hj]%Hus [Hnk Hk]%Hus. rewrite !Hold by done. by apply K6.
  - intros j Hj. simpl in Hj. rewrite Hold by lia. by apply K7.
  - assert (Hf : free_of (g_devs s i) = sd_free d) by (unfold free_of; by rewrite Ha).
    simpl. rewrite (sum4_upd free_of) by done. rewrite K8, Hf. unfold free_of. simpl. lia.
  - assert (Hf : slots_of (g_devs s i) = sd_nslots d) by (unfold slots_of; by rewrite Ha).
    simpl. unfold total. rewrite (sum4_upd slots_of) by done. rewrite K9, Hf. unfold slots_of. simpl. lia.
Qed.

Lemma pte_dev_encode i off : 0 <= i < 8 -> 0 <= off < 2 ^ 52 -> pte_dev (swap_encode_pte i off) = Some i.
Proof. intros Hi Ho. unfold pte_dev. by rewrite swap_decode_encode. Qed.

Lemma remove_spec (s : swap) live M i :
  swap_ok s live -> lock_free (sw_lock s) -> holds s M ->
  exists s' r live', swap_remove_dev s i = Some (s', r) /\ swap_ok s' live' /\ lock_free (sw_lock s') /\
    sw_mem s' = sw_mem s /\
    (r = -1 /\ holds s' M /\ ~ in_use s i \/ r = 0 /\ in_use s i /\ holds s' (filter (fun e => pte_dev e.1 <> Some i) M)).
Proof.
  intros Hok Hl HM. unfold swap_remove_dev, sw_locked. destruct (spin_lock_free _ Hl) as (l & -> & Hun).
  cbn [mbind option_bind]. destruct (_ || _) eqn:Hchk; simpl in Hchk.
  { eexists _, _, live. split; [done|]. split; [by do 2 apply lock_ok_swap|]. do 2 (split; [done|]). left.
    do 2 (split; [done|]). intros [Hi Ha]. rewrite Ha in Hchk. cbn [negb] in Hchk. lia. }
  apply orb_false_iff in Hchk as [[Hi0 HiN]%orb_false_iff Ha]. apply Z.ltb_ge in Hi0. apply Z.leb_gt in HiN.
  apply negb_false_iff in Ha. assert (Hu : in_use s i) by by split.
  pose proof (in_use_range _ _ _ Hok Hu) as Hr. destruct (so_dev _ _ Hok i Hu) as (bm & [D1 D2 D3 D4 D5 D6 D7 D8 D9]).
  cbn [g_devs sw_set_lock]. rewrite (proj2 (Z.eqb_neq _ _) D5). simpl.
  destruct (al_free_law (sw_heap s) live _ (so_heap _ _ Hok) D6) as (h & -> & Hh). cbn [mbind option_bind].
  pose proof (free_of_bounds s live i Hok Hi0) as [Hb1 Hb2]. pose proof (counts_bounds s live Hok) as Hc.
  assert (Hle : sd_nslots (g_devs s i) <= g_total_slots s /\ sd_free (g_devs s i) <= g_free_slots s).
  { rewrite (so_free _ _ Hok), (so_total _ _ Hok).
    pose proof (sum4_upd free_of (g_devs s) i no_swap_dev Hr) as Hs1. pose proof (sum4_upd slots_of (g_devs s) i no_swap_dev Hr) as Hs2.
    assert (Hn : forall j, 0 <= j -> 0 <= free_of (upd (g_devs s) i no_swap_dev j) /\ 0 <= slots_of (upd (g_devs s) i no_swap_dev j)).
    { intros j Hj. unfold upd. destruct (j =? i); [done|]. pose proof (free_of_bounds s live j Hok Hj). lia. }
    unfold sum4 in Hs1, Hs2 |- *. pose proof (Hn 0). pose proof (Hn 1). pose proof (Hn 2). pose proof (Hn 3).
    unfold free_of, slots_of in Hb1, Hb2. rewrite Ha in Hb1, Hb2.
    assert (free_of (g_devs s i) = sd_free (g_devs s i)) by (unfold free_of; by rewrite Ha).
    assert (slots_of (g_devs s i) = sd_nslots (g_devs s i)) by (unfold slots_of; by rewrite Ha).
    change (free_of no_swap_dev) with 0 in *. change (slots_of no_swap_dev) with 0 in *. lia. }
  unfold free_of, slots_of in Hb1, Hb2. rewrite Ha in Hb1, Hb2. rewrite !u64_small by lia.
  eexists _, _, (live ∖ {[sd_bitmap (g_devs s i)]}). split; [done|]. split; [by apply lock_ok_swap, removed_ok|].
  split; [done|]. split; [done|]. right. split; [done|]. split; [done|]. intros slot page [Hp Hdev]%map_lookup_filter_Some.
  destruct (HM slot page Hp) as (j & off & bmj & bd & -> & Huj & Hoff & Hbm & Hbit & Hb & Hsec).
  pose proof (in_use_range _ _ _ Hok Huj) as Hrj. destruct (so_dev _ _ Hok j Huj) as (bm' & Hd).
  pose proof (do_slots _ _ _ _ Hd). simpl in Hdev. rewrite pte_dev_encode in Hdev by lia.
  assert (Hji : j <> i) by congruence. exists j, off, bmj, bd. unfold in_use. simpl. rewrite !upd_ne by done.
  split; [done|]. split; [done|]. split; [done|]. split; [|done]. rewrite lookup_delete_ne; [done|].
  intros Heq. apply Hji. symmetry. by apply (so_inj _ _ Hok).
Qed.


(** swap_out_page finds a slot whenever one is free: with an active device
    it fails only if no slot is free or the device reports an error. *)
Theorem swap_alloc_complete (s : swap) live :
  swap_ok s live -> lock_free (sw_lock s) -> g_free_slots s <> 0 ->
  exists s' i off, swap_alloc_slot s = Some (s', swap_encode_pte i off) /\
    in_use s i /\ 0 <= off < sd_nslots (g_devs s i) /\ g_free_slots s' = g_free_slots s - 1 /\
    exists bm, sw_words s !! sd_bitmap (g_devs s i) = Some bm /\ bit_used bm off = false.
Proof.
  intros Hok Hl Hf. destruct (swap_alloc_slot_spec s live Hok Hl) as (s' & slot & l & Hx & _ & Hc).
  destruct Hc as [(_ & _ & Hz)|(_ & i & bm & off & hint & Hu & Hbm & Hoff & Hbit & _ & -> & ->)]; [done|].
  destruct (so_dev _ _ Hok i Hu) as (bm' & [D1 D2 D3 D4 D5 D6 D7 D8 D9]). rewrite Hbm in D2. injection D2 as <-.
  eexists _, i, off. split; [exact Hx|]. split; [done|]. split; [done|]. split; [|by exists bm].
  simpl. rewrite nfree_set by done. lia.
Qed.
End props.

(** ** A small machine: a disk in memory of 1000 sectors *)

Abbreviation ex_swap := (@swap Z (Z -> Z -> list Z)).

Definition ex_disk : blkdevs := fst (blkdev_register blkdev_start (Some []) 1 1 1 1000 512).

Definition swap_start : ex_swap :=
  Swap (fun _ => no_swap_dev) 0 spinlock_init false 0 0 ex_base ∅ ex_disk (fun _ _ => [])
    (fun _ => replicate 4096 0) (mreclaim_init mreclaim_start).

Lemma swap_start_ok : swap_ok swap_start ∅.
Proof.
  split; simpl; try done.
  - split; [by split|vm_compute; by split|vm_compute; reflexivity|vm_compute; lia].
  - by intros i [? ?].
  - by intros i j [? ?].
  - by intros i j [? ?].
Qed.

Lemma swap_start_free : lock_free (sw_lock swap_start).
Proof. by split. Qed.

Lemma swap_start_pre : swap_pre swap_start ∅ (SwapAdd 0 0 64).
Proof. split; [lia|]. split; [lia|]. split; [lia|]. by intros i [? ?]. Qed.

Lemma holds_none (s : ex_swap) : holds s ∅.
Proof. intros slot page Hp. by rewrite lookup_empty in Hp. Qed.

(** The machine with a swap device of 64 slots. *)
Lemma swap_one_dev : exists (s : ex_swap) live,
  swap_add_dev swap_start 0 0 64 = Some (s, 0) /\ swap_ok s live /\ lock_free (sw_lock s) /\ g_free_slots s = 64.
Proof.
  destruct (add_spec swap_start ∅ ∅ 0 0 64 swap_start_ok swap_start_free (holds_none _) swap_start_pre)
    as (s & r & live & Hx & Hok & Hl & _).
  assert (Hv : (fun p => (snd p, g_free_slots (fst p))) <$> swap_add_dev swap_start 0 0 64 = Some (0, 64)) by by vm_compute.
  rewrite Hx in Hv. injection Hv as -> Hf. by exists s, live.
Qed.


Lemma swap_alloc_complete_witness : exists (s s' : ex_swap) i off,
  swap_alloc_slot s = Some (s', swap_encode_pte i off) /\ g_free_slots s' = g_free_slots s - 1.
Proof.
  destruct swap_one_dev as (s & live & _ & Hok & Hl & Hf).
  destruct (swap_alloc_complete s live Hok Hl ltac:(lia)) as (s' & i & off & Hx & _ & _ & Hn & _).
  exists s, s', i, off. split; [exact Hx|exact Hn].
Defined.

(** swap_free_slot does not look at the bitmap: freeing a slot twice, on a
    device of 64 slots, leaves more free slots than there are. *)
Theorem swap_double_free :
  exists (s1 s2 s3 s4 : ex_swap) slot,
    swap_add_dev swap_start 0 0 64 = Some (s1, 0) /\ swap_alloc_slot s1 = Some (s2, slot) /\
    swap_free_slot s2 slot = Some s3 /\ swap_free_slot s3 slot = Some s4 /\
    sd_nslots (g_devs s4 0) = 64 /\ sd_free (g_devs s4 0) = 65 /\ g_total_slots s4 = 64 /\ g_free_slots s4 = 65.
Proof.
  assert (He : ('(s1, r) ← swap_add_dev swap_start 0 0 64; '(s2, slot) ← swap_alloc_slot s1; s3 ← swap_free_slot s2 slot;
    s4 ← swap_free_slot s3 slot;
    Some (r, sd_nslots (g_devs s4 0), sd_free (g_devs s4 0), g_total_slots s4, g_free_slots s4)) = Some (0, 64, 65, 64, 65))
    by by vm_compute.
  apply bind_Some in He as ([s1 r] & H1 & He). apply bind_Some in He as ([s2 slot] & H2 & He).
  apply bind_Some in He as (s3 & H3 & He). apply bind_Some in He as (s4 & H4 & He). injection He as -> Hn Hf Ht Hg.
  exists s1, s2, s3, s4, slot. repeat (split; [assumption|]). assumption.
Qed.
