(* ===== verification/Hugepage.v ===== *)
(** * Huge pages (mm/hugepage.c)

    The pools of 2 MiB and 1 GiB frames, and the mapping and unmapping of huge
    pages in x86-64 page tables.  Physical memory is a function from the address
    of a 64-bit word to its value; tables are reached by their physical address,
    as pt_virt does. *)

From stdpp Require Import base gmap list.
From Stdlib Require Import ZArith Lia.
From S2P Require Import Prelude Spinlock Allocator Bitmap.

Definition HP_2M_POOL_BASE : Z := 805306368.        (* 0x30000000 *)
Definition HP_2M_POOL_COUNT : Z := 64.
Definition HP_1G_POOL_BASE : Z := 4294967296.       (* 0x100000000 *)
Definition HP_1G_POOL_COUNT : Z := 4.
Definition HP_2M_SIZE : Z := 2 ^ 21.
Definition HP_1G_SIZE : Z := 2 ^ 30.
Definition HP_2M_MASK : Z := HP_2M_SIZE - 1.
Definition HP_1G_MASK : Z := HP_1G_SIZE - 1.

Definition PTE_PRESENT : Z := 2 ^ 0.
Definition PTE_RW : Z := 2 ^ 1.
Definition PTE_USER : Z := 2 ^ 2.
Definition PTE_PWT : Z := 2 ^ 3.
Definition PTE_PCD : Z := 2 ^ 4.
Definition PTE_PS : Z := 2 ^ 7.
Definition PTE_GLOBAL : Z := 2 ^ 8.
Definition PTE_NX : Z := 2 ^ 63.
Definition PTE_PHYS_MASK : Z := 4503599627366400.   (* 0x000FFFFFFFFFF000 *)

Definition PML4_IDX (v : Z) : Z := Z.land (Z.shiftr v 39) 511.
Definition PDP_IDX (v : Z) : Z := Z.land (Z.shiftr v 30) 511.
Definition PD_IDX (v : Z) : Z := Z.land (Z.shiftr v 21) 511.

Inductive hp_order := HP_ORDER_2M | HP_ORDER_1G.

#[export] Instance hp_order_eq : EqDecision hp_order.
Proof. solve_decision. Defined.

(** [flag x m]: [x & m]. *)
Definition flag (x m : Z) : bool := negb (Z.land x m =? 0).

(** The words of bitmap_alloc, from [w] on. *)
Fixpoint bitmap_scan (fuel : nat) (w : Z) (bm : Z -> Z) (n : Z) : option Z :=
  match fuel with
  | O => None
  | S f =>
    if bm w =? ALL_ONES then bitmap_scan f (w + 1) bm n
    else match scan_word 64 0 (bm w) (w * 64) n with
         | Found b => Some (w * 64 + b)
         | Over => None
         | Full => bitmap_scan f (w + 1) bm n
         end
  end.

Definition bitmap_alloc (bm : Z -> Z) (n : Z) : option ((Z -> Z) * Z) :=
  idx ← bitmap_scan (Z.to_nat (BITMAP_WORDS n)) 0 bm n; Some (bm_set bm idx, idx).

Definition bitmap_free (bm : Z -> Z) (idx : Z) : Z -> Z := bm_clear bm idx.

Definition HP_FLAG_RW : Z := 1.
Definition HP_FLAG_USER : Z := 2.
Definition HP_FLAG_NX : Z := 4.
Definition HP_FLAG_GLOBAL : Z := 8.
Definition HP_FLAG_WC : Z := 16.
Definition HP_FLAG_UC : Z := 32.

Definition hp_flags_to_pte (fl : Z) : Z :=
  let pte := Z.lor PTE_PRESENT PTE_PS in
  let pte := if flag fl HP_FLAG_RW then Z.lor pte PTE_RW else pte in
  let pte := if flag fl HP_FLAG_USER then Z.lor pte PTE_USER else pte in
  let pte := if flag fl HP_FLAG_GLOBAL then Z.lor pte PTE_GLOBAL else pte in
  let pte := if flag fl HP_FLAG_NX then Z.lor pte PTE_NX else pte in
  let pte := if flag fl HP_FLAG_WC then Z.land (Z.lor pte PTE_PWT) (Z.lnot PTE_PCD) else pte in
  if flag fl HP_FLAG_UC then Z.lor pte (Z.lor PTE_PWT PTE_PCD) else pte.

Section hugepage.
Context {A : Type} `{Allocator A}.

Record hugepages := Hugepages {
  g_2m_bitmap : Z -> Z; g_1g_bitmap : Z -> Z; g_2m_free : Z; g_1g_free : Z;
  g_pdpe1gb : bool; hp_lock : spinlock;
  hp_heap : A; hp_mem : Z -> Z; invlpgs : list Z;
}.

Definition hp_set_lock (l : spinlock) (s : hugepages) : hugepages :=
  Hugepages (g_2m_bitmap s) (g_1g_bitmap s) (g_2m_free s) (g_1g_free s) (g_pdpe1gb s) l (hp_heap s) (hp_mem s) (invlpgs s).
Definition set_2m (bm : Z -> Z) (n : Z) (s : hugepages) : hugepages :=
  Hugepages bm (g_1g_bitmap s) n (g_1g_free s) (g_pdpe1gb s) (hp_lock s) (hp_heap s) (hp_mem s) (invlpgs s).
Definition set_1g (bm : Z -> Z) (n : Z) (s : hugepages) : hugepages :=
  Hugepages (g_2m_bitmap s) bm (g_2m_free s) n (g_pdpe1gb s) (hp_lock s) (hp_heap s) (hp_mem s) (invlpgs s).
Definition set_words (h : A) (m : Z -> Z) (s : hugepages) : hugepages :=
  Hugepages (g_2m_bitmap s) (g_1g_bitmap s) (g_2m_free s) (g_1g_free s) (g_pdpe1gb s) (hp_lock s) h m (invlpgs s).
Definition invlpg (va : Z) (s : hugepages) : hugepages :=
  Hugepages (g_2m_bitmap s) (g_1g_bitmap s) (g_2m_free s) (g_1g_free s) (g_pdpe1gb s) (hp_lock s) (hp_heap s) (hp_mem s)
    (va :: invlpgs s).

Definition hp_locked {B} (s : hugepages) (k : hugepages -> hugepages * B) : option (hugepages * B) :=
  l ← spin_lock (hp_lock s);
  let '(s, r) := k (hp_set_lock l s) in
  Some (hp_set_lock (spin_unlock (hp_lock s)) s, r).

Definition hugepage_alloc (s : hugepages) (order : hp_order) : option (hugepages * Z) :=
  hp_locked s (fun s =>
    match order with
    | HP_ORDER_2M =>
      if g_2m_free s =? 0 then (s, 0)
      else match bitmap_alloc (g_2m_bitmap s) HP_2M_POOL_COUNT with
           | None => (s, 0)
           | Some (bm, idx) => (set_2m bm (g_2m_free s - 1) s, HP_2M_POOL_BASE + idx * HP_2M_SIZE)
           end
    | HP_ORDER_1G =>
      if negb (g_pdpe1gb s) || (g_1g_free s =? 0) then (s, 0)
      else match bitmap_alloc (g_1g_bitmap s) HP_1G_POOL_COUNT with
           | None => (s, 0)
           | Some (bm, idx) => (set_1g bm (g_1g_free s - 1) s, HP_1G_POOL_BASE + idx * HP_1G_SIZE)
           end
    end).

Definition hugepage_free (s : hugepages) (phys : Z) (order : hp_order) : option (hugepages * unit) :=
  hp_locked s (fun s =>
    (match order with
     | HP_ORDER_2M =>
       if phys <? HP_2M_POOL_BASE then s
       else let idx := (phys - HP_2M_POOL_BASE) / HP_2M_SIZE in
            if HP_2M_POOL_COUNT <=? idx then s
            else set_2m (bitmap_free (g_2m_bitmap s) idx) (u64 (g_2m_free s + 1)) s
     | HP_ORDER_1G =>
       if negb (g_pdpe1gb s) || (phys <? HP_1G_POOL_BASE) then s
       else let idx := (phys - HP_1G_POOL_BASE) / HP_1G_SIZE in
            if HP_1G_POOL_COUNT <=? idx then s
            else set_1g (bitmap_free (g_1g_bitmap s) idx) (u64 (g_1g_free s + 1)) s
     end, tt)).

(** [for (i = 0; i < 512; i++) tbl[i] = 0;] *)
Definition zero_table (m : Z -> Z) (p : Z) : Z -> Z :=
  fun a => if (p <=? a) && (a <? p + 4096) && ((a - p) mod 8 =? 0) then 0 else m a.

(** The table below entry [idx] of [parent], made if there is none; 0 on
    failure. *)
Definition ensure_table (s : hugepages) (parent idx : Z) : option (hugepages * Z) :=
  let e := hp_mem s (parent + 8 * idx) in
  if flag e PTE_PRESENT then
    if flag e PTE_PS then Some (s, 0) else Some (s, Z.land e PTE_PHYS_MASK)
  else
    '(h, p) ← al_alloc (hp_heap s) 4096;
    if p =? 0 then Some (set_words h (hp_mem s) s, 0)
    else
      let m := zero_table (hp_mem s) p in
      let m := upd m (parent + 8 * idx) (Z.lor (Z.lor (Z.lor p PTE_PRESENT) PTE_RW) PTE_USER) in
      Some (set_words h m s, p).

Definition hugepage_map_cr3 (s : hugepages) (cr3 virt phys : Z) (order : hp_order) (flags : Z) : option (hugepages * Z) :=
  let virt := Z.land virt (Z.lnot (match order with HP_ORDER_2M => HP_2M_MASK | HP_ORDER_1G => HP_1G_MASK end)) in
  let pml4 := Z.land cr3 PTE_PHYS_MASK in
  '(s, pdp) ← ensure_table s pml4 (PML4_IDX virt);
  if pdp =? 0 then Some (s, -1)
  else
    let di := PDP_IDX virt in
    match order with
    | HP_ORDER_1G =>
      if negb (g_pdpe1gb s) then Some (s, -1)
      else
        let s := set_words (hp_heap s) (upd (hp_mem s) (pdp + 8 * di)
                   (Z.lor (Z.land phys (Z.lnot HP_1G_MASK)) (hp_flags_to_pte flags))) s in
        Some (invlpg virt s, 0)
    | HP_ORDER_2M =>
      '(s, pd) ← ensure_table s pdp di;
      if pd =? 0 then Some (s, -1)
      else
        let s := set_words (hp_heap s) (upd (hp_mem s) (pd + 8 * PD_IDX virt)
                   (Z.lor (Z.land phys (Z.lnot HP_2M_MASK)) (hp_flags_to_pte flags))) s in
        Some (invlpg virt s, 0)
    end.

(** [cr3] is the value of the register. *)
Definition hugepage_map (s : hugepages) (cr3 virt phys : Z) (order : hp_order) (flags : Z) : option (hugepages * Z) :=
  hugepage_map_cr3 s cr3 virt phys order flags.

Definition hugepage_unmap (s : hugepages) (cr3 virt : Z) (order : hp_order) : hugepages * Z :=
  let pml4 := Z.land cr3 PTE_PHYS_MASK in
  let e4 := hp_mem s (pml4 + 8 * PML4_IDX virt) in
  if negb (flag e4 PTE_PRESENT) then (s, -1)
  else
    let pdp := Z.land e4 PTE_PHYS_MASK in
    let a3 := pdp + 8 * PDP_IDX virt in
    if negb (flag (hp_mem s a3) PTE_PRESENT) then (s, -1)
    else match order with
    | HP_ORDER_1G => (invlpg virt (set_words (hp_heap s) (upd (hp_mem s) a3 0) s), 0)
    | HP_ORDER_2M =>
      let pd := Z.land (hp_mem s a3) PTE_PHYS_MASK in
      let a2 := pd + 8 * PD_IDX virt in
      if negb (flag (hp_mem s a2) PTE_PRESENT) then (s, -1)
      else (invlpg virt (set_words (hp_heap s) (upd (hp_mem s) a2 0) s), 0)
    end.

Definition hugepage_available (s : hugepages) (order : hp_order) : bool :=
  match order with HP_ORDER_1G => g_pdpe1gb s | HP_ORDER_2M => true end.

Definition hugepage_free_count (s : hugepages) (order : hp_order) : Z :=
  match order with HP_ORDER_2M => g_2m_free s | HP_ORDER_1G => g_1g_free s end.

Definition hugepage_total_count (order : hp_order) : Z :=
  match order with HP_ORDER_2M => HP_2M_POOL_COUNT | HP_ORDER_1G => HP_1G_POOL_COUNT end.

Definition hugepage_pdpe1gb_supported (s : hugepages) : bool := g_pdpe1gb s.

(** Bit 26 of EDX of CPUID leaf 0x80000001. *)
Definition detect_pdpe1gb (edx : Z) : bool := negb (Z.land (Z.shiftr edx 26) 1 =? 0).

Definition hugepage_init (s : hugepages) (edx : Z) : hugepages :=
  let gb := detect_pdpe1gb edx in
  Hugepages (upd (g_2m_bitmap s) 0 0) (if gb then upd (g_1g_bitmap s) 0 0 else g_1g_bitmap s)
    HP_2M_POOL_COUNT (if gb then HP_1G_POOL_COUNT else g_1g_free s) gb (hp_lock s) (hp_heap s) (hp_mem s) (invlpgs s).
End hugepage.
