(* ===== verification/HugepageProof.v ===== *)
(** * Huge pages: the pools and the page tables

    A reference page walk, as the x86-64 architecture defines it, and what
    mapping and unmapping do to the translation it computes. *)

From stdpp Require Import base gmap list list_numbers.
From Stdlib Require Import ZArith Lia.
From S2P Require Import Prelude Spinlock Allocator Bitmap Hugepage.

(** ** Entries *)

(** The frame address in an entry: bits [n] to 51. *)
Definition frame (n e : Z) : Z := e mod 2 ^ 52 / 2 ^ n * 2 ^ n.
Definition present (e : Z) : bool := Z.testbit e 0.
Definition large (e : Z) : bool := Z.testbit e 7.

Lemma flag_testbit x k : 0 <= k -> flag x (2 ^ k) = Z.testbit x k.
Proof.
  intros Hk. unfold flag. destruct (Z.testbit x k) eqn:Ht.
  - apply negb_true_iff, Z.eqb_neq. intros Hz. assert (Hb : Z.testbit (Z.land x (2 ^ k)) k = false) by by rewrite Hz, Z.bits_0.
    rewrite Z.land_spec, Ht, Z.pow2_bits_true in Hb by done. done.
  - apply negb_false_iff, Z.eqb_eq. apply Z.bits_inj'. intros j Hj. rewrite Z.land_spec, Z.bits_0, Z.pow2_bits_eqb by done.
    destruct (Z.eqb_spec k j) as [->|]; [by rewrite Ht|apply andb_false_r].
Qed.

Lemma testbit_frame n e k : 0 <= n <= 52 -> 0 <= k ->
  Z.testbit (frame n e) k = (n <=? k) && (k <? 52) && Z.testbit e k.
Proof.
  intros Hn Hk. unfold frame. rewrite <- Z.shiftl_mul_pow2, <- Z.shiftr_div_pow2 by lia.
  destruct (Z.leb_spec n k); simpl; [|by rewrite Z.shiftl_spec_low].
  rewrite Z.shiftl_spec, Z.shiftr_spec by lia. replace (k - n + n) with k by lia.
  destruct (Z.ltb_spec k 52); simpl; [by rewrite Z.mod_pow2_bits_low|by rewrite Z.mod_pow2_bits_high by lia].
Qed.

Lemma frame_ext n x y : 0 <= n <= 52 -> (forall k, n <= k < 52 -> Z.testbit x k = Z.testbit y k) -> frame n x = frame n y.
Proof.
  intros Hn Heq. apply Z.bits_inj'. intros k Hk. rewrite !testbit_frame by done.
  destruct (Z.leb_spec n k), (Z.ltb_spec k 52); simpl; try done. apply Heq. lia.
Qed.

Lemma phys_mask e : Z.land e PTE_PHYS_MASK = frame 12 e.
Proof.
  assert (Hm : PTE_PHYS_MASK = frame 12 (Z.ones 52)) by by vm_compute. rewrite Hm.
  apply Z.bits_inj'. intros k Hk. rewrite Z.land_spec, !testbit_frame by lia.
  destruct (Z.leb_spec 12 k), (Z.ltb_spec k 52); simpl; try apply andb_false_r. rewrite Z.ones_spec_low by lia. apply andb_true_r.
Qed.

Lemma frame_aligned n a : 0 <= n -> 0 <= a < 2 ^ 52 -> a mod 2 ^ n = 0 -> frame n a = a.
Proof.
  intros Hn Ha Hm. unfold frame. rewrite (Z.mod_small a) by done.
  pose proof (Z.div_mod a (2 ^ n) ltac:(apply Z.pow_nonzero; lia)). lia.
Qed.

Lemma frame_range n e : 0 <= n -> 0 <= frame n e < 2 ^ 52 /\ frame n e mod 2 ^ n = 0.
Proof.
  intros Hn. unfold frame. pose proof (Z.mod_pos_bound e (2 ^ 52) ltac:(lia)) as He.
  assert (Hp : 0 < 2 ^ n) by (apply Z.pow_pos_nonneg; lia).
  pose proof (Z.div_mod (e mod 2 ^ 52) (2 ^ n) ltac:(lia)) as Hd. pose proof (Z.mod_pos_bound (e mod 2 ^ 52) (2 ^ n) Hp).
  assert (0 <= e mod 2 ^ 52 / 2 ^ n) by (apply Z.div_pos; lia). split; [nia|]. apply Z.mod_mul. lia.
Qed.

Lemma clear_low a n : 0 <= n -> Z.land a (Z.lnot (2 ^ n - 1)) = a / 2 ^ n * 2 ^ n.
Proof.
  intros Hn. rewrite <- Z.shiftl_mul_pow2, <- Z.shiftr_div_pow2 by done. apply Z.bits_inj'. intros k Hk.
  rewrite Z.land_spec, Z.lnot_spec by done. replace (2 ^ n - 1) with (Z.ones n) by (rewrite Z.ones_equiv; lia).
  destruct (Z.lt_ge_cases k n).
  - rewrite Z.ones_spec_low, Z.shiftl_spec_low by lia. apply andb_false_r.
  - rewrite Z.ones_spec_high, Z.shiftl_spec, Z.shiftr_spec by lia. replace (k - n + n) with k by lia. apply andb_true_r.
Qed.

(** The bits hp_flags_to_pte sets: below 9, or bit 63. *)
Lemma flags_bits fl : let f := hp_flags_to_pte fl in
  Z.testbit f 0 = true /\ Z.testbit f 7 = true /\ forall k, 9 <= k < 63 -> Z.testbit f k = false.
Proof.
  unfold hp_flags_to_pte. generalize (flag fl HP_FLAG_RW) (flag fl HP_FLAG_USER) (flag fl HP_FLAG_GLOBAL) (flag fl HP_FLAG_NX)
    (flag fl HP_FLAG_WC) (flag fl HP_FLAG_UC). intros rw us gl nx wc uc. cbv zeta.
  match goal with |- Z.testbit ?f 0 = _ /\ _ => set (pte := f) end.
  assert (Hp : Z.testbit pte 0 = true /\ Z.testbit pte 7 = true /\ pte mod 2 ^ 63 < 2 ^ 9).
  { by unfold pte; destruct rw, us, gl, nx, wc, uc; vm_compute. }
  destruct Hp as (H0 & H7 & Hlow). split; [done|]. split; [done|]. intros k Hk.
  rewrite <- (Z.mod_pow2_bits_low pte 63 k) by lia.
  pose proof (Z.mod_pos_bound pte (2 ^ 63) ltac:(lia)). apply (testbit_small _ 9); lia.
Qed.

(** The entry of a huge page of [2 ^ n] bytes. *)
Lemma leaf_entry n phys fl : 9 <= n <= 52 ->
  let e := Z.lor (Z.land phys (Z.lnot (2 ^ n - 1))) (hp_flags_to_pte fl) in
  present e = true /\ large e = true /\ frame n e = frame n phys.
Proof.
  intros Hn e. destruct (flags_bits fl) as (H0 & H7 & Hk). unfold present, large, e.
  rewrite !Z.lor_spec, H0, H7, !orb_true_r. split; [done|]. split; [done|]. apply frame_ext; [lia|].
  intros k Hkn. rewrite Z.lor_spec, Hk by lia. rewrite orb_false_r, Z.land_spec, Z.lnot_spec by lia.
  replace (2 ^ n - 1) with (Z.ones n) by (rewrite Z.ones_equiv; lia). rewrite Z.ones_spec_high by lia. apply andb_true_r.
Qed.

(** The entry of a table at an aligned address. *)
Lemma table_entry p : 0 <= p < 2 ^ 52 -> p mod 4096 = 0 ->
  let e := Z.lor (Z.lor (Z.lor p PTE_PRESENT) PTE_RW) PTE_USER in
  present e = true /\ large e = false /\ frame 12 e = p.
Proof.
  intros Hp Ha e. assert (He : e = p + 7).
  { unfold e. rewrite <- !Z.lor_assoc. change (Z.lor PTE_PRESENT (Z.lor PTE_RW PTE_USER)) with 7.
    replace p with (Z.shiftl (p / 2 ^ 12) 12) by (rewrite Z.shiftl_mul_pow2 by lia; change (2 ^ 12) with 4096; zlia).
    rewrite lor_shift by lia. rewrite Z.shiftl_mul_pow2 by lia. lia. }
  rewrite He. unfold present, large. split; [|split].
  - rewrite Z.bit0_odd, <- Z.negb_even, Z.even_add. replace (Z.even p) with true; [done|]. symmetry. apply Z.even_spec.
    exists (p / 2). zlia.
  - rewrite Z.testbit_false by lia. change (2 ^ 7) with 128. zlia.
  - unfold frame. change (2 ^ 12) with 4096. rewrite (Z.mod_small (p + 7)) by zlia. zlia.
Qed.

(** ** The page walk *)

(** The frame found for the indices [idxs] from the table at [a] on, with the
    size of its page (as a power of two). *)
Fixpoint walk (mem : Z -> Z) (a : Z) (idxs : list Z) : option (Z * Z) :=
  match idxs with
  | [] => None
  | i :: rest =>
    let e := mem (a + 8 * i) in
    if negb (present e) then None
    else match rest with
         | [] => Some (frame 12 e, 12)
         | _ =>
           if large e then
             if (length rest =? 3)%nat then None
             else let n := 12 + 9 * Z.of_nat (length rest) in Some (frame n e, n)
           else walk mem (frame 12 e) rest
         end
  end.

(** The indices of a virtual address. *)
Definition path (v : Z) : list Z := [v / 2 ^ 39 mod 512; v / 2 ^ 30 mod 512; v / 2 ^ 21 mod 512; v / 2 ^ 12 mod 512].

Definition translate (mem : Z -> Z) (root v : Z) : option Z :=
  '(f, n) ← walk mem root (path v); Some (f + v mod 2 ^ n).

(** [T] gives the tables in use, each with the indices that lead to it. *)
Record tables_ok (mem : Z -> Z) (root : Z) (T : gmap Z (list Z)) : Prop := {
  tk_root : T !! root = Some [];
  tk_addr a q : T !! a = Some q -> 0 <= a < 2 ^ 52 /\ a mod 4096 = 0 /\ (length q <= 3)%nat;
  tk_next a q i : T !! a = Some q -> (length q < 3)%nat -> 0 <= i < 512 ->
    present (mem (a + 8 * i)) = true -> large (mem (a + 8 * i)) = false ->
    T !! frame 12 (mem (a + 8 * i)) = Some (q ++ [i]);
}.

Lemma entry_inj a b i j :
  a mod 4096 = 0 -> b mod 4096 = 0 -> 0 <= i < 512 -> 0 <= j < 512 -> a + 8 * i = b + 8 * j -> a = b /\ i = j.
Proof. intros. zlia. Qed.

(** A walk does not see a change of an entry that is not on its path. *)
Lemma walk_frame mem mem' root T b j qb : forall idxs a q,
  tables_ok mem root T -> T !! b = Some qb -> 0 <= j < 512 ->
  (forall x, x <> b + 8 * j -> (forall a' q' i, T !! a' = Some q' -> 0 <= i < 512 -> x = a' + 8 * i -> mem' x = mem x)) ->
  T !! a = Some q -> (length q + length idxs = 4)%nat -> Forall (fun i => 0 <= i < 512) idxs ->
  (forall suf, q ++ idxs <> (qb ++ [j]) ++ suf) -> walk mem' a idxs = walk mem a idxs.
Proof.
  induction idxs as [|i rest IH]; intros a q Hok Hb Hj Hm Ha Hlen Hi Hne; [done|]. cbn [walk].
  apply Forall_cons in Hi as [Hi0 Hi]. destruct (tk_addr _ _ _ Hok a q Ha) as (_ & Haa & _).
  destruct (tk_addr _ _ _ Hok b qb Hb) as (_ & Hba & _).
  assert (Hx : a + 8 * i <> b + 8 * j).
  { intros Heq. apply entry_inj in Heq as [-> ->]; [|done..]. rewrite Ha in Hb. injection Hb as ->.
    apply (Hne rest). by rewrite <- app_assoc. }
  rewrite (Hm _ Hx a q i Ha Hi0 eq_refl). destruct (present (mem (a + 8 * i))) eqn:Hp; simpl; [|done].
  destruct rest as [|k rest]; [done|]. destruct (large (mem (a + 8 * i))) eqn:Hl; [done|].
  apply (IH _ (q ++ [i])); try done.
  - apply (tk_next _ _ _ Hok); try done. simpl in Hlen. lia.
  - rewrite length_app. simpl in *. lia.
  - intros suf. rewrite <- app_assoc. apply Hne.
Qed.

(** Along the tables, the walk reads the entry a path leads to. *)
Lemma walk_step mem a i rest :
  present (mem (a + 8 * i)) = true -> large (mem (a + 8 * i)) = false -> rest <> [] ->
  walk mem a (i :: rest) = walk mem (frame 12 (mem (a + 8 * i))) rest.
Proof. intros Hp Hl Hr. cbn [walk]. rewrite Hp, Hl. by destruct rest. Qed.

Lemma walk_absent mem a i rest : present (mem (a + 8 * i)) = false -> walk mem a (i :: rest) = None.
Proof. intros Hp. cbn [walk]. by rewrite Hp. Qed.

Lemma walk_leaf mem a i rest :
  present (mem (a + 8 * i)) = true -> large (mem (a + 8 * i)) = true -> (1 <= length rest <= 2)%nat ->
  walk mem a (i :: rest) = Some (frame (12 + 9 * Z.of_nat (length rest)) (mem (a + 8 * i)), 12 + 9 * Z.of_nat (length rest)).
Proof.
  intros Hp Hl Hr. cbn [walk]. rewrite Hp, Hl. destruct rest as [|k [|k' [|]]]; simpl in *; try lia; done.
Qed.

Lemma path_range v : Forall (fun i => 0 <= i < 512) (path v).
Proof. repeat constructor; apply Z.mod_pos_bound; lia. Qed.

(** [reaches mem a q b]: the entries [q] from table [a] on lead to table [b]. *)
Fixpoint reaches (mem : Z -> Z) (a : Z) (q : list Z) (b : Z) : Prop :=
  match q with
  | [] => a = b
  | i :: q => present (mem (a + 8 * i)) = true /\ large (mem (a + 8 * i)) = false /\
              reaches mem (frame 12 (mem (a + 8 * i))) q b
  end.

Lemma walk_reaches mem b q : forall a rest, reaches mem a q b -> rest <> [] -> walk mem a (q ++ rest) = walk mem b rest.
Proof.
  induction q as [|i q IH]; intros a rest; simpl; [by intros ->|]. intros (Hp & Hl & Hr) Hne.
  rewrite <- (IH _ rest Hr Hne). apply walk_step; [done|done|]. by destruct q.
Qed.

Lemma reaches_app mem b c i q : forall a,
  reaches mem a q b -> present (mem (b + 8 * i)) = true -> large (mem (b + 8 * i)) = false ->
  frame 12 (mem (b + 8 * i)) = c -> reaches mem a (q ++ [i]) c.
Proof. induction q as [|j q IH]; intros a; simpl; [by intros -> ? ? ?|]. intros (? & ? & ?) ? ? ?. eauto. Qed.

(** The tables stay reachable when an entry below them changes. *)
Lemma reaches_frame mem mem' root T b j qb c : forall q a qa,
  tables_ok mem root T -> T !! b = Some qb -> 0 <= j < 512 ->
  (forall x, x <> b + 8 * j -> (forall a' q' i, T !! a' = Some q' -> 0 <= i < 512 -> x = a' + 8 * i -> mem' x = mem x)) ->
  T !! a = Some qa -> (length qa + length q <= length qb)%nat -> (length qb <= 3)%nat ->
  Forall (fun i => 0 <= i < 512) q -> reaches mem a q c -> reaches mem' a q c.
Proof.
  induction q as [|i q IH]; intros a qa Hok Hb Hj Hm Ha Hlen Hqb Hi; simpl; [done|]. intros (Hp & Hl & Hr).
  apply Forall_cons in Hi as [Hi0 Hi]. destruct (tk_addr _ _ _ Hok a qa Ha) as (_ & Haa & _).
  destruct (tk_addr _ _ _ Hok b qb Hb) as (_ & Hba & _). simpl in Hlen.
  assert (Hx : a + 8 * i <> b + 8 * j).
  { intros Heq. apply entry_inj in Heq as [-> ->]; [|done..]. rewrite Ha in Hb. injection Hb as ->. lia. }
  rewrite (Hm _ Hx a qa i Ha Hi0 eq_refl). split; [done|]. split; [done|].
  apply (IH _ (qa ++ [i])); try done.
  - apply (tk_next _ _ _ Hok); try done. lia.
  - rewrite length_app. simpl. lia.
Qed.

(** ** Making tables *)

Section mapping.
Context {A : Type} `{AllocatorLaws A}.
Abbreviation hugepages := (@hugepages A).

(** The next [n] blocks of a page from the heap [h] are on page boundaries,
    within the physical address space. *)
Fixpoint aligned_allocs (n : nat) (h : A) : Prop :=
  match n with
  | O => True
  | S n => forall h' p, al_alloc h 4096 = Some (h', p) -> 0 <= p < 2 ^ 52 /\ p mod 4096 = 0 /\ aligned_allocs n h'
  end.

Lemma aligned_fewer n h : aligned_allocs (S n) h -> aligned_allocs n h.
Proof.
  revert h. induction n as [|n IH]; intros h Ha; [done|]. intros h' p Hp.
  destruct (Ha h' p Hp) as (? & ? & ?). auto.
Qed.

Record pt_inv (s : hugepages) (root : Z) (T : gmap Z (list Z)) (live : gset Z) : Prop := {
  pi_tables : tables_ok (hp_mem s) root T;
  pi_heap : al_inv (hp_heap s) live;
  pi_own a : is_Some (T !! a) -> a ∈ live \/ ~ al_pool a;
}.

Lemma zero_table_in m p i : 0 <= i < 512 -> zero_table m p (p + 8 * i) = 0.
Proof.
  intros Hi. unfold zero_table. rewrite (proj2 (Z.leb_le _ _)), (proj2 (Z.ltb_lt _ _)) by lia. simpl.
  replace ((p + 8 * i - p) mod 8) with 0 by zlia. done.
Qed.

Lemma zero_table_out m p a i :
  p mod 4096 = 0 -> a mod 4096 = 0 -> a <> p -> 0 <= i < 512 -> zero_table m p (a + 8 * i) = m (a + 8 * i).
Proof.
  intros Hp Ha Hne Hi. unfold zero_table. destruct (Z.leb_spec p (a + 8 * i)), (Z.ltb_spec (a + 8 * i) (p + 4096)); simpl; try done.
  zlia.
Qed.

Definition new_table (m : Z -> Z) (parent idx p : Z) : Z -> Z :=
  upd (zero_table m p) (parent + 8 * idx) (Z.lor (Z.lor (Z.lor p PTE_PRESENT) PTE_RW) PTE_USER).

Lemma new_table_ok m root T parent idx p q :
  tables_ok m root T -> T !! parent = Some q -> (length q < 3)%nat -> 0 <= idx < 512 ->
  T !! p = None -> 0 <= p < 2 ^ 52 -> p mod 4096 = 0 ->
  tables_ok (new_table m parent idx p) root (<[p := q ++ [idx]]> T) /\
  (forall a q' i, T !! a = Some q' -> 0 <= i < 512 -> a + 8 * i <> parent + 8 * idx ->
     new_table m parent idx p (a + 8 * i) = m (a + 8 * i)).
Proof.
  intros Hok Hpar Hq Hidx Hp Hr Ha. destruct (table_entry p Hr Ha) as (Hpr & Hla & Hfr).
  assert (Hpa : parent mod 4096 = 0) by apply (tk_addr _ _ _ Hok parent q Hpar).
  assert (Hframe : forall a q' i, T !! a = Some q' -> 0 <= i < 512 -> a + 8 * i <> parent + 8 * idx ->
     new_table m parent idx p (a + 8 * i) = m (a + 8 * i)).
  { intros a q' i Ht Hi Hne. unfold new_table. rewrite upd_ne by done.
    apply zero_table_out; try done; [apply (tk_addr _ _ _ Hok a q' Ht)|congruence]. }
  split; [split|exact Hframe].
  - rewrite lookup_insert_ne; [apply Hok|]. intros ->. pose proof (tk_root _ _ _ Hok). congruence.
  - intros a q' [[<- <-]|[Hne Ht]]%lookup_insert_Some; [|by apply (tk_addr _ _ _ Hok)].
    split; [done|]. split; [done|]. rewrite length_app. simpl. lia.
  - intros a q' i [[<- <-]|[Hne Ht]]%lookup_insert_Some Hlen Hi.
    + intros Hpres. exfalso. revert Hpres. unfold new_table. rewrite upd_ne, zero_table_in by (done || (intros Heq; apply entry_inj in Heq as [-> _]; [congruence|done..])).
      done.
    + destruct (decide (a + 8 * i = parent + 8 * idx)) as [Heq|Hx].
      * apply entry_inj in Heq as [-> ->]; try done; [|apply (tk_addr _ _ _ Hok a q' Ht)].
        unfold new_table. rewrite upd_eq. intros _ _. rewrite Hfr. rewrite Hpar in Ht. injection Ht as ->. apply lookup_insert_eq.
      * rewrite (Hframe a q' i Ht Hi Hx). intros Hp1 Hl1. pose proof (tk_next _ _ _ Hok a q' i Ht Hlen Hi Hp1 Hl1) as Hn.
        rewrite lookup_insert_ne; [done|]. intros Heq. congruence.
Qed.

Lemma new_table_walk m root T parent idx p q v :
  tables_ok m root T -> T !! parent = Some q -> (length q < 3)%nat -> 0 <= idx < 512 ->
  T !! p = None -> 0 <= p < 2 ^ 52 -> p mod 4096 = 0 -> Forall (fun i => 0 <= i < 512) q ->
  reaches m root q parent -> present (m (parent + 8 * idx)) = false ->
  walk (new_table m parent idx p) root (path v) = walk m root (path v).
Proof.
  intros Hok Hpar Hq Hidx Hp Hr Ha HqF Hre Habs. destruct (new_table_ok m root T parent idx p q) as [Hok' Hfr]; try done.
  destruct (table_entry p Hr Ha) as (Hpr & Hla & Hft). pose proof (tk_root _ _ _ Hok) as Hroot.
  assert (Hfr' : forall x, x <> parent + 8 * idx -> forall a' q' i, T !! a' = Some q' -> 0 <= i < 512 -> x = a' + 8 * i ->
    new_table m parent idx p x = m x) by (intros x Hx a' q' i Ht Hi ->; by apply (Hfr a' q')).
  destruct (decide (take (length (q ++ [idx])) (path v) = q ++ [idx])) as [Hpre|Hnpre].
  - rewrite <- (take_drop (length (q ++ [idx])) (path v)), Hpre, <- app_assoc. simpl.
    set (rest := drop _ _). assert (Hrest : rest <> []).
    { intros Hnil. apply (f_equal length) in Hnil. unfold rest in Hnil. rewrite length_drop, length_app in Hnil. simpl in Hnil. lia. }
    rewrite (walk_reaches m parent) by done. rewrite (walk_absent m parent) by done.
    rewrite (walk_reaches _ parent); [|apply (reaches_frame m _ root T parent idx q parent q root []); try done; simpl; lia|done].
    assert (He : new_table m parent idx p (parent + 8 * idx) = Z.lor (Z.lor (Z.lor p PTE_PRESENT) PTE_RW) PTE_USER) by apply upd_eq.
    rewrite walk_step by by rewrite ?He. rewrite He, Hft. assert (HF : Forall (fun i => 0 <= i < 512) rest) by apply Forall_drop, path_range.
    destruct rest as [|k rest']; [done|]. apply Forall_cons in HF as [Hk _].
    apply walk_absent. unfold new_table. rewrite upd_ne, zero_table_in; [done|done|].
    intros Heq. apply entry_inj in Heq as [-> _]; try done; [congruence|apply (tk_addr _ _ _ Hok parent q Hpar)].
  - apply (walk_frame m _ root T parent idx q (path v) root []); try done; [apply path_range|].
    intros suf Heq. simpl in Heq. apply Hnpre. change (path v = (q ++ [idx]) ++ suf) in Heq. rewrite Heq. apply take_app_length.
Qed.

Lemma flag_present e : flag e PTE_PRESENT = present e.
Proof. apply (flag_testbit e 0). lia. Qed.
Lemma flag_large e : flag e PTE_PS = large e.
Proof. apply (flag_testbit e 7). lia. Qed.

(** The parts of the state page tables do not concern. *)
Definition same_pools (s s' : hugepages) : Prop :=
  g_2m_bitmap s' = g_2m_bitmap s /\ g_1g_bitmap s' = g_1g_bitmap s /\ g_2m_free s' = g_2m_free s /\
  g_1g_free s' = g_1g_free s /\ g_pdpe1gb s' = g_pdpe1gb s /\ hp_lock s' = hp_lock s.

Lemma ensure_table_spec n (s : hugepages) root T live parent idx q :
  aligned_allocs (S n) (hp_heap s) -> pt_inv s root T live -> T !! parent = Some q -> (length q < 3)%nat -> 0 <= idx < 512 ->
  Forall (fun i => 0 <= i < 512) q -> reaches (hp_mem s) root q parent ->
  exists s' p T' live', ensure_table s parent idx = Some (s', p) /\ aligned_allocs n (hp_heap s') /\
    pt_inv s' root T' live' /\ same_pools s s' /\
    (forall v, walk (hp_mem s') root (path v) = walk (hp_mem s) root (path v)) /\
    (p <> 0 -> T' !! p = Some (q ++ [idx]) /\ reaches (hp_mem s') root (q ++ [idx]) p).
Proof.
  intros Haligned [Hok Hh Hown] Hpar Hq Hidx HqF Hre. pose proof (aligned_fewer _ _ Haligned). unfold ensure_table. rewrite flag_present, flag_large, phys_mask.
  set (e := hp_mem s (parent + 8 * idx)). destruct (present e) eqn:Hp.
  - destruct (large e) eqn:Hl.
    + exists s, 0, T, live. done.
    + exists s, (frame 12 e), T, live. do 5 (split; [done|]). intros _. split.
      * by apply (tk_next _ _ _ Hok parent q idx).
      * by apply (reaches_app _ parent).
  - destruct (al_alloc_law (hp_heap s) live 4096 Hh ltac:(lia)) as (h & p & Hal & Hc). rewrite Hal. cbn [mbind option_bind].
    destruct (Haligned _ _ Hal) as (Hr & Ha & Hmore). destruct Hc as [[-> Hh']|(Hp0 & _ & Hpool & Hpl & Hh')].
    + simpl. exists (set_words h (hp_mem s) s), 0, T, live. split; [done|]. split; [done|]. split; [by split|]. done.
    + rewrite (proj2 (Z.eqb_neq _ _) Hp0). assert (HpT : T !! p = None).
      { destruct (T !! p) eqn:Ht; [|done]. destruct (Hown p ltac:(by eexists)); done. }
      destruct (new_table_ok (hp_mem s) root T parent idx p q) as [Hok' Hfr]; try done.
      destruct (table_entry p Hr Ha) as (Hpr & Hla & Hft).
      exists (set_words h (new_table (hp_mem s) parent idx p) s), p, (<[p := q ++ [idx]]> T), ({[p]} ∪ live).
      split; [done|]. split; [done|]. split; [split; [done|done|]|split; [done|split]].
      * intros a [q' [[<- <-]|[Hne Ht]]%lookup_insert_Some]; [left; clear; set_solver|].
        destruct (Hown a ltac:(by eexists)); [left; clear -H1 H2; set_solver|by right].
      * intros v. by apply (new_table_walk (hp_mem s) root T parent idx p q v).
      * intros _. split; [apply lookup_insert_eq|]. simpl.
        assert (He : new_table (hp_mem s) parent idx p (parent + 8 * idx) = Z.lor (Z.lor (Z.lor p PTE_PRESENT) PTE_RW) PTE_USER)
          by apply upd_eq.
        apply (reaches_app _ parent); [|by rewrite He..].
        apply (reaches_frame (hp_mem s) _ root T parent idx q parent q root []); try done; [|apply (tk_root _ _ _ Hok)|simpl; lia].
        intros x Hx a' q' i Ht Hi ->. by apply (Hfr a' q').
Qed.

(** ** Writing a leaf *)

Lemma set_leaf_walk m root T b j q e v :
  tables_ok m root T -> T !! b = Some q -> 0 <= j < 512 -> Forall (fun i => 0 <= i < 512) q ->
  (1 <= length q <= 2)%nat -> reaches m root q b ->
  walk (upd m (b + 8 * j) e) root (path v) =
    (if decide (take (S (length q)) (path v) = q ++ [j]) then
       if present e then
         if large e then
           let n := 12 + 9 * (3 - Z.of_nat (length q)) in Some (frame n e, n)
         else walk (upd m (b + 8 * j) e) (frame 12 e) (drop (S (length q)) (path v))
       else None
     else walk m root (path v)).
Proof.
  intros Hok Hb Hj HqF Hq Hre. pose proof (tk_root _ _ _ Hok) as Hroot.
  assert (Hfr : forall x, x <> b + 8 * j -> forall a' q' i, T !! a' = Some q' -> 0 <= i < 512 -> x = a' + 8 * i ->
    upd m (b + 8 * j) e x = m x) by (intros x Hx a' q' i _ _ _; by apply upd_ne).
  destruct (decide _) as [Hpre|Hnpre].
  - rewrite <- (take_drop (S (length q)) (path v)) at 1. rewrite Hpre, <- app_assoc. simpl ([j] ++ _).
    set (rest := drop _ _). assert (Hrl : length rest = (3 - length q)%nat) by (unfold rest; rewrite length_drop; simpl; lia).
    rewrite (walk_reaches _ b); [|apply (reaches_frame m _ root T b j q b q root []); try done; simpl; lia|done].
    assert (He : upd m (b + 8 * j) e (b + 8 * j) = e) by apply upd_eq.
    destruct (present e) eqn:Hp; [|apply walk_absent; by rewrite He].
    destruct (large e) eqn:Hl.
    + rewrite walk_leaf by (rewrite ?He; done || lia). rewrite He, Hrl. cbv zeta. do 3 f_equal; lia.
    + rewrite walk_step; [by rewrite He|by rewrite He|by rewrite He|]. intros Hn. rewrite Hn in Hrl. simpl in Hrl. lia.
  - apply (walk_frame m _ root T b j q (path v) root []); try done; [apply path_range|].
    intros suf Heq. apply Hnpre. change (path v = (q ++ [j]) ++ suf) in Heq. rewrite Heq.
    replace (S (length q)) with (length (q ++ [j])) by (rewrite length_app; simpl; lia). apply take_app_length.
Qed.

Lemma set_leaf_ok m root T b j q e :
  tables_ok m root T -> T !! b = Some q -> 0 <= j < 512 -> (present e = true -> large e = true) ->
  tables_ok (upd m (b + 8 * j) e) root T.
Proof.
  intros Hok Hb Hj He. split; [apply Hok|apply (tk_addr _ _ _ Hok)|]. intros a q' i Ha Hq' Hi.
  destruct (decide (a + 8 * i = b + 8 * j)) as [Heq|Hne].
  - rewrite Heq, upd_eq. intros Hp Hl. rewrite He in Hl; done.
  - rewrite upd_ne by done. by apply (tk_next _ _ _ Hok).
Qed.
End mapping.

(** ** The pools *)

Lemma bitmap_scan_found fuel : forall w bm n idx,
  0 <= w -> bitmap_scan fuel w bm n = Some idx -> 0 <= idx < n /\ bit_used bm idx = false.
Proof.
  induction fuel as [|f IH]; intros w bm n idx Hw; cbn [bitmap_scan]; [done|].
  destruct (bm w =? ALL_ONES); [apply IH; lia|].
  destruct (scan_word 64 0 (bm w) (w * 64) n) as [b| |] eqn:Hs; [|done|apply IH; lia].
  intros [= <-]. destruct (scan_word_found _ _ _ _ _ _ Hs) as (Hb & Hn & Ht). split; [lia|]. by rewrite bit_used_word by lia.
Qed.

Lemma bitmap_scan_none fuel : forall w bm n,
  bitmap_scan fuel w bm n = None -> forall i, w <= i / 64 < w + Z.of_nat fuel -> i < n -> bit_used bm i = true.
Proof.
  induction fuel as [|f IH]; intros w bm n; cbn [bitmap_scan]; [lia|]. intros Hs i Hi Hn.
  destruct (decide (i / 64 = w)) as [Hw|Hw].
  - apply (word_used bm w n); [|done|done]. destruct (Z.eqb_spec (bm w) ALL_ONES); [by left|].
    destruct (scan_word 64 0 (bm w) (w * 64) n); by auto.
  - destruct (Z.eqb_spec (bm w) ALL_ONES); [apply (IH (w + 1) bm n Hs i); lia|].
    destruct (scan_word 64 0 (bm w) (w * 64) n) eqn:Hsw; [done| |apply (IH (w + 1) bm n Hs i); lia].
    apply scan_word_over in Hsw. zlia.
Qed.

Lemma bitmap_alloc_spec bm n :
  0 < n -> match bitmap_alloc bm n with
           | Some (bm', idx) => 0 <= idx < n /\ bit_used bm idx = false /\ bm' = bm_set bm idx
           | None => nfree bm n = 0
           end.
Proof.
  intros Hn. unfold bitmap_alloc. destruct (bitmap_scan _ 0 bm n) as [idx|] eqn:Hs; cbn [mbind option_bind].
  - destruct (bitmap_scan_found _ 0 bm n idx ltac:(lia) Hs). done.
  - destruct (Z.eq_dec (nfree bm n) 0) as [?|Hnz]; [done|]. pose proof (nfree_range bm n ltac:(lia)).
    destruct (nfree_pos bm n ltac:(lia)) as (i & Hi & Hu).
    rewrite (bitmap_scan_none _ 0 bm n Hs i) in Hu; [done| |lia]. unfold BITMAP_WORDS. zlia.
Qed.
