(* ===== verification/HugepageProps.v ===== *)
(** * What huge pages guarantee *)

From stdpp Require Import base gmap list list_numbers.
From Stdlib Require Import ZArith Lia.
From S2P Require Import Prelude Spinlock Kmalloc KmallocProof KmallocProps Allocator Bitmap Hugepage HugepageProof SchedExample.

Definition order_shift (order : hp_order) : Z := match order with HP_ORDER_2M => 21 | HP_ORDER_1G => 30 end.

Section props.
Context {A : Type} `{AllocatorLaws A}.
Abbreviation hugepages := (@hugepages A).

Lemma idx_mod v n : 0 <= n -> Z.land (Z.shiftr v n) 511 = v / 2 ^ n mod 512.
Proof. intros Hn. change 511 with (2 ^ 9 - 1). rewrite land_mask, Z.shiftr_div_pow2 by lia. done. Qed.

(** The indices of the rounded address are those of the address. *)
Lemma round_div v n m : 0 <= n <= m -> v / 2 ^ n * 2 ^ n / 2 ^ m = v / 2 ^ m.
Proof.
  intros Hnm. replace m with (n + (m - n)) by lia. rewrite Z.pow_add_r by lia.
  assert (0 < 2 ^ n) by (apply Z.pow_pos_nonneg; lia). assert (0 < 2 ^ (m - n)) by (apply Z.pow_pos_nonneg; lia).
  rewrite <- !Z.div_div by lia. by rewrite Z.div_mul by lia.
Qed.

Lemma same_path_2m v w : 0 <= v < 2 ^ 48 -> 0 <= w < 2 ^ 48 ->
  take 3 (path v) = take 3 (path w) <-> v / 2 ^ 21 = w / 2 ^ 21.
Proof.
  intros Hv Hw. unfold path. cbn [take]. split.
  - intros [= E1 E2 E3]. change (2 ^ 39) with (2 ^ 21 * 2 ^ 18) in *. change (2 ^ 30) with (2 ^ 21 * 2 ^ 9) in *.
    rewrite <- !Z.div_div in E1, E2 by lia.
    assert (0 <= v / 2 ^ 21 < 2 ^ 27) by zlia. assert (0 <= w / 2 ^ 21 < 2 ^ 27) by zlia.
    set (x := v / 2 ^ 21) in *. set (y := w / 2 ^ 21) in *. clearbody x y. clear Hv Hw v w. zlia.
  - intros Heq. change (2 ^ 39) with (2 ^ 21 * 2 ^ 18). change (2 ^ 30) with (2 ^ 21 * 2 ^ 9).
    rewrite <- !Z.div_div by lia. by rewrite Heq.
Qed.

Lemma same_path_1g v w : 0 <= v < 2 ^ 48 -> 0 <= w < 2 ^ 48 ->
  take 2 (path v) = take 2 (path w) <-> v / 2 ^ 30 = w / 2 ^ 30.
Proof.
  intros Hv Hw. unfold path. cbn [take]. split.
  - intros [= E1 E2]. change (2 ^ 39) with (2 ^ 30 * 2 ^ 9) in *. rewrite <- !Z.div_div in E1 by lia.
    assert (0 <= v / 2 ^ 30 < 2 ^ 18) by zlia. assert (0 <= w / 2 ^ 30 < 2 ^ 18) by zlia.
    set (x := v / 2 ^ 30) in *. set (y := w / 2 ^ 30) in *. clearbody x y. clear Hv Hw v w. zlia.
  - intros Heq. change (2 ^ 39) with (2 ^ 30 * 2 ^ 9). rewrite <- !Z.div_div by lia. by rewrite Heq.
Qed.

Lemma translate_walk m m' root v : walk m' root (path v) = walk m root (path v) -> translate m' root v = translate m root v.
Proof. intros Hw. unfold translate. by rewrite Hw. Qed.

Lemma idx_range v n : 0 <= v / 2 ^ n mod 512 < 512.
Proof. apply Z.mod_pos_bound. lia. Qed.

(** The translation after a leaf for the page of [virt] was written. *)
Lemma leaf_translate m root T b q j order virt phys flags :
  tables_ok m root T -> T !! b = Some q -> reaches m root q b ->
  q ++ [j] = take (S (length q)) (path virt) -> order_shift order = 12 + 9 * (3 - Z.of_nat (length q)) -> 0 <= virt < 2 ^ 48 ->
  let e := Z.lor (Z.land phys (Z.lnot (2 ^ order_shift order - 1))) (hp_flags_to_pte flags) in
  tables_ok (upd m (b + 8 * j) e) root T /\
  forall v, 0 <= v < 2 ^ 48 -> translate (upd m (b + 8 * j) e) root v =
    if v / 2 ^ order_shift order =? virt / 2 ^ order_shift order
    then Some (frame (order_shift order) phys + v mod 2 ^ order_shift order) else translate m root v.
Proof.
  intros Hok Hb Hre Hq Hsh Hvirt e. set (n := order_shift order) in *.
  assert (Hn : 9 <= n <= 52) by (unfold n; destruct order; simpl; lia).
  destruct (leaf_entry n phys flags Hn) as (Hp & Hl & Hf). fold e in Hp, Hl, Hf.
  assert (Hlen : (1 <= length q <= 2)%nat) by (unfold n in Hsh; destruct order; simpl in Hsh; lia).
  assert (HF : Forall (fun i => 0 <= i < 512) (q ++ [j])) by (rewrite Hq; apply Forall_take, path_range).
  apply Forall_app in HF as [HqF HjF]. apply Forall_cons in HjF as [Hj _].
  split; [by eapply set_leaf_ok|]. intros v Hv. unfold translate.
  rewrite (set_leaf_walk m root T b j q e v Hok Hb Hj HqF Hlen Hre). cbv zeta. rewrite Hp, Hl, <- Hsh, Hf, Hq.
  assert (Heq : take (S (length q)) (path v) = take (S (length q)) (path virt) <-> v / 2 ^ n = virt / 2 ^ n).
  { unfold n in *. destruct order; simpl in Hsh; cbn [order_shift].
    - replace (S (length q)) with 3%nat by lia. by apply same_path_2m.
    - replace (S (length q)) with 2%nat by lia. by apply same_path_1g. }
  destruct (decide _) as [Hd|Hd]; rewrite Heq in Hd.
  - rewrite (proj2 (Z.eqb_eq _ _) Hd). done.
  - rewrite (proj2 (Z.eqb_neq _ _) Hd). done.
Qed.

Lemma pt_inv_words (s : hugepages) root T live m va :
  pt_inv s root T live -> tables_ok m root T -> pt_inv (invlpg va (set_words (hp_heap s) m s)) root T live.
Proof. intros [Hok Hh Ho] Hm. by split. Qed.


(** ** Unmapping *)

Lemma clear_translate m root T b q j order virt :
  tables_ok m root T -> T !! b = Some q -> reaches m root q b ->
  q ++ [j] = take (S (length q)) (path virt) -> order_shift order = 12 + 9 * (3 - Z.of_nat (length q)) -> 0 <= virt < 2 ^ 48 ->
  tables_ok (upd m (b + 8 * j) 0) root T /\
  forall v, 0 <= v < 2 ^ 48 -> translate (upd m (b + 8 * j) 0) root v =
    if v / 2 ^ order_shift order =? virt / 2 ^ order_shift order then None else translate m root v.
Proof.
  intros Hok Hb Hre Hq Hsh Hvirt. set (n := order_shift order) in *.
  assert (Hlen : (1 <= length q <= 2)%nat) by (unfold n in Hsh; destruct order; simpl in Hsh; lia).
  assert (HF : Forall (fun i => 0 <= i < 512) (q ++ [j])) by (rewrite Hq; apply Forall_take, path_range).
  apply Forall_app in HF as [HqF HjF]. apply Forall_cons in HjF as [Hj _].
  split; [by eapply set_leaf_ok|]. intros v Hv. unfold translate.
  rewrite (set_leaf_walk m root T b j q 0 v Hok Hb Hj HqF Hlen Hre). simpl (present 0). rewrite Hq.
  assert (Heq : take (S (length q)) (path v) = take (S (length q)) (path virt) <-> v / 2 ^ n = virt / 2 ^ n).
  { unfold n in *. destruct order; simpl in Hsh; cbn [order_shift].
    - replace (S (length q)) with 3%nat by lia. by apply same_path_2m.
    - replace (S (length q)) with 2%nat by lia. by apply same_path_1g. }
  destruct (decide _) as [Hd|Hd]; rewrite Heq in Hd.
  - by rewrite (proj2 (Z.eqb_eq _ _) Hd).
  - by rewrite (proj2 (Z.eqb_neq _ _) Hd).
Qed.

(** The entries above the page of [virt]. *)
Definition pml4_entry (s : hugepages) (root virt : Z) : Z := hp_mem s (root + 8 * (virt / 2 ^ 39 mod 512)).
Definition pdp_entry (s : hugepages) (root virt : Z) : Z :=
  hp_mem s (frame 12 (pml4_entry s root virt) + 8 * (virt / 2 ^ 30 mod 512)).

(** Unmapping a huge page whose upper entries are tables: hugepage_unmap
    either finds nothing and changes nothing, or afterwards no address of the
    page translates and every other address translates as before. *)
Theorem hugepage_unmap_translates (s : hugepages) T live cr3 virt order :
  pt_inv s (frame 12 cr3) T live -> 0 <= virt < 2 ^ 48 ->
  large (pml4_entry s (frame 12 cr3) virt) = false ->
  (order = HP_ORDER_2M -> large (pdp_entry s (frame 12 cr3) virt) = false) ->
  let root := frame 12 cr3 in
  let n := order_shift order in
  exists s' r, hugepage_unmap s cr3 virt order = (s', r) /\ pt_inv s' root T live /\
    ((r = 0 /\ forall v, 0 <= v < 2 ^ 48 -> translate (hp_mem s') root v =
        if v / 2 ^ n =? virt / 2 ^ n then None else translate (hp_mem s) root v) \/
     (r = -1 /\ s' = s)).
Proof.
  intros Hinv Hv Hl4 Hl3 root n. pose proof (pi_tables _ _ _ _ Hinv) as Hok. pose proof (tk_root _ _ _ Hok) as Hroot.
  unfold hugepage_unmap. rewrite !phys_mask, !flag_present. unfold PML4_IDX, PDP_IDX, PD_IDX. rewrite !idx_mod by lia.
  fold root. fold (pml4_entry s root virt). fold (pdp_entry s root virt). fold root in Hl4, Hl3, Hok, Hroot.
  destruct (present (pml4_entry s root virt)) eqn:Hp4; simpl; [|by eauto 10].
  destruct (present (pdp_entry s root virt)) eqn:Hp3; simpl; [|by eauto 10].
  pose proof (tk_next _ _ _ Hok root [] _ Hroot ltac:(simpl; lia) (idx_range virt 39) Hp4 Hl4) as HT3. simpl in HT3.
  assert (Hre3 : reaches (hp_mem s) root [virt / 2 ^ 39 mod 512] (frame 12 (pml4_entry s root virt))) by by split.
  destruct order; simpl in n.
  - pose proof (tk_next _ _ _ Hok _ _ _ HT3 ltac:(simpl; lia) (idx_range virt 30) Hp3 (Hl3 eq_refl)) as HT2. simpl in HT2.
    pose proof (reaches_app (hp_mem s) _ _ _ _ root Hre3 Hp3 (Hl3 eq_refl) eq_refl) as Hre2. simpl in Hre2.
    fold (pdp_entry s root virt) in HT2, Hre2.
    set (pd := frame 12 (pdp_entry s root virt)) in *.
    destruct (present (hp_mem s (pd + 8 * (virt / 2 ^ 21 mod 512)))); simpl; [|by eauto 10].
    destruct (clear_translate (hp_mem s) root T pd _ (virt / 2 ^ 21 mod 512) HP_ORDER_2M virt Hok HT2 Hre2)
      as [Hok' Htr]; [done|done|done|].
    eexists _, 0. split; [done|]. split; [by apply pt_inv_words|]. left. split; [done|exact Htr].
  - destruct (clear_translate (hp_mem s) root T _ _ (virt / 2 ^ 30 mod 512) HP_ORDER_1G virt Hok HT3 Hre3)
      as [Hok' Htr]; [done|done|done|].
    eexists _, 0. split; [done|]. split; [by apply pt_inv_words|]. left. split; [done|exact Htr].
Qed.
End props.

(** ** The pools of frames *)

Section pools.
Context {A : Type} `{Allocator A}.
Abbreviation hugepages := (@hugepages A).

Definition pool_base (order : hp_order) : Z := match order with HP_ORDER_2M => HP_2M_POOL_BASE | HP_ORDER_1G => HP_1G_POOL_BASE end.
Definition pool_bitmap (s : hugepages) (order : hp_order) : Z -> Z :=
  match order with HP_ORDER_2M => g_2m_bitmap s | HP_ORDER_1G => g_1g_bitmap s end.
Definition supported (s : hugepages) (order : hp_order) : bool := hugepage_available s order.

(** The frame at [phys] is handed out. *)
Definition frame_used (s : hugepages) (order : hp_order) (phys : Z) : bool :=
  bit_used (pool_bitmap s order) ((phys - pool_base order) / 2 ^ order_shift order).

(** A frame of the pool: aligned, and one of its [hugepage_total_count]. *)
Definition in_pool (order : hp_order) (phys : Z) : Prop :=
  phys mod 2 ^ order_shift order = 0 /\
  pool_base order <= phys < pool_base order + hugepage_total_count order * 2 ^ order_shift order.

Record pools_ok (s : hugepages) : Prop := {
  po_lock : lock_free (hp_lock s);
  po_words order : words_ok (pool_bitmap s order);
  po_free order : supported s order = true ->
    hugepage_free_count s order = nfree (pool_bitmap s order) (hugepage_total_count order);
}.

Definition set_pool (order : hp_order) (bm : Z -> Z) (n : Z) (s : hugepages) : hugepages :=
  match order with HP_ORDER_2M => set_2m bm n s | HP_ORDER_1G => set_1g bm n s end.

Lemma total_pos order : 0 < hugepage_total_count order < 2 ^ 10.
Proof. by destruct order. Qed.

Lemma pool_index order idx : (pool_base order + idx * 2 ^ order_shift order - pool_base order) / 2 ^ order_shift order = idx.
Proof. replace (_ - pool_base order) with (idx * 2 ^ order_shift order) by lia. apply Z.div_mul. by destruct order. Qed.

Lemma pool_addr order idx : 0 <= idx < hugepage_total_count order -> in_pool order (pool_base order + idx * 2 ^ order_shift order).
Proof.
  intros Hi. assert (Hp : 0 < 2 ^ order_shift order) by by destruct order. split; [|nia].
  rewrite Z.mod_add by lia. by destruct order.
Qed.

Lemma set_pool_ok s order bm l :
  pools_ok s -> words_ok bm -> lock_free l -> pools_ok (hp_set_lock l (set_pool order bm (nfree bm (hugepage_total_count order)) s)).
Proof.
  intros [Hl Hw Hf] Hbm Hlf. split; [by destruct order| |].
  - intros o. pose proof (Hw o) as Ho. by destruct o, order.
  - intros o Hs. assert (Hs' : supported s o = true) by by destruct o, order. pose proof (Hf o Hs') as Ho. by destruct o, order.
Qed.

Lemma alloc_eq s order :
  hugepage_alloc s order =
  (l ← spin_lock (hp_lock s);
   let s1 := hp_set_lock l s in
   let '(s2, r) :=
     (if negb (supported s order) || (hugepage_free_count s order =? 0) then (s1, 0)
      else match bitmap_alloc (pool_bitmap s order) (hugepage_total_count order) with
           | None => (s1, 0)
           | Some (bm, idx) => (set_pool order bm (hugepage_free_count s order - 1) s1, pool_base order + idx * 2 ^ order_shift order)
           end) in
   Some (hp_set_lock (spin_unlock (hp_lock s2)) s2, r)).
Proof. unfold hugepage_alloc, hp_locked. destruct order; [done|]. by destruct (spin_lock (hp_lock s)). Qed.

Lemma free_eq s order phys :
  in_pool order phys -> supported s order = true ->
  hugepage_free s phys order =
  (l ← spin_lock (hp_lock s);
   let s2 := set_pool order (bm_clear (pool_bitmap s order) ((phys - pool_base order) / 2 ^ order_shift order))
               (u64 (hugepage_free_count s order + 1)) (hp_set_lock l s) in
   Some (hp_set_lock (spin_unlock (hp_lock s2)) s2, tt)).
Proof.
  intros [_ Hr] Hs. assert (Hp : 0 < 2 ^ order_shift order) by by destruct order.
  assert (Hi : (phys - pool_base order) / 2 ^ order_shift order < hugepage_total_count order) by (apply Z.div_lt_upper_bound; lia).
  unfold hugepage_free, hp_locked. destruct (spin_lock (hp_lock s)); [|done]. cbn [mbind option_bind].
  destruct order; cbn [pool_base order_shift hugepage_total_count] in *.
  - rewrite (proj2 (Z.ltb_ge phys HP_2M_POOL_BASE)) by lia. change HP_2M_SIZE with (2 ^ 21).
    by rewrite (proj2 (Z.leb_gt HP_2M_POOL_COUNT _) Hi).
  - cbn [supported hugepage_available] in Hs. simpl g_pdpe1gb. rewrite Hs.
    rewrite (proj2 (Z.ltb_ge phys HP_1G_POOL_BASE)) by lia. change HP_1G_SIZE with (2 ^ 30). simpl orb.
    by rewrite (proj2 (Z.leb_gt HP_1G_POOL_COUNT _) Hi).
Qed.

Lemma used_set s order bm n l o p :
  frame_used (hp_set_lock l (set_pool order bm n s)) o p =
  if decide (o = order) then bit_used bm ((p - pool_base o) / 2 ^ order_shift o) else frame_used s o p.
Proof. by destruct o, order. Qed.

(** Frames are told apart by their index. *)
Lemma index_inj order p p' : in_pool order p -> in_pool order p' ->
  (p - pool_base order) / 2 ^ order_shift order = (p' - pool_base order) / 2 ^ order_shift order -> p = p'.
Proof. unfold in_pool. destruct order; unfold pool_base, order_shift, HP_2M_POOL_BASE, HP_1G_POOL_BASE; zlia. Qed.

(** A frame hugepage_alloc hands out is an aligned frame of its pool that
    was free, and the only one whose state changes; it fails only when the order
    is not supported or no frame is free; freeing the frame restores the pool. *)
Theorem hugepage_alloc_fresh s order :
  pools_ok s ->
  exists s' r, hugepage_alloc s order = Some (s', r) /\ pools_ok s' /\
    ((r = 0 /\ (supported s order = false \/ hugepage_free_count s order = 0) /\ forall o p, frame_used s' o p = frame_used s o p) \/
     (in_pool order r /\ frame_used s order r = false /\ frame_used s' order r = true /\
      (forall o p, in_pool o p -> (o, p) <> (order, r) -> frame_used s' o p = frame_used s o p) /\
      exists s'', hugepage_free s' r order = Some (s'', tt) /\ pools_ok s'' /\ forall o p, in_pool o p -> frame_used s'' o p = frame_used s o p)).
Proof.
  intros Hok. rewrite alloc_eq. pose proof Hok as [Hl Hw Hf]. destruct (spin_lock_free _ Hl) as (l & -> & Hun).
  cbn [mbind option_bind]. pose proof (total_pos order) as Ht.
  assert (Hsame : forall k, lock_free k -> pools_ok (hp_set_lock k (hp_set_lock l s))) by (intros k Hk; by split).
  destruct (supported s order) eqn:Hs; simpl.
  2: { eexists _, 0. split; [done|]. split; [by apply Hsame|]. left. by auto. }
  destruct (Z.eqb_spec (hugepage_free_count s order) 0) as [Hz|Hz]; simpl.
  { eexists _, 0. split; [done|]. split; [by apply Hsame|]. left. by auto. }
  pose proof (bitmap_alloc_spec (pool_bitmap s order) (hugepage_total_count order) ltac:(lia)) as Ha.
  destruct (bitmap_alloc _ _) as [[bm idx]|]; [|by rewrite <- Hf in Ha]. destruct Ha as (Hi & Hu & ->).
  set (bm := bm_set (pool_bitmap s order) idx). set (r := pool_base order + idx * 2 ^ order_shift order).
  pose proof (pool_addr order idx Hi) as Hr. fold r in Hr. rewrite (Hf order Hs), <- (nfree_set _ _ idx Hi Hu). fold bm.
  assert (Hlk : hp_lock (set_pool order bm (nfree bm (hugepage_total_count order)) (hp_set_lock l s)) = l) by by destruct order.
  rewrite Hlk. eexists _, r. split; [done|].
  assert (Hok1 : pools_ok (hp_set_lock (spin_unlock l) (set_pool order bm (nfree bm (hugepage_total_count order)) (hp_set_lock l s)))).
  { replace (hp_set_lock (spin_unlock l) _) with (hp_set_lock (spin_unlock l) (set_pool order bm (nfree bm (hugepage_total_count order)) s)) by by destruct order.
    apply set_pool_ok; [done|by apply words_ok_set|done]. }
  split; [done|]. right. set (s1 := hp_set_lock (spin_unlock l) _) in *.
  assert (Hix : (r - pool_base order) / 2 ^ order_shift order = idx) by apply pool_index.
  assert (Hu1 : forall o p, frame_used s1 o p = if decide (o = order) then bit_used bm ((p - pool_base o) / 2 ^ order_shift o) else frame_used s o p).
  { intros o p. unfold s1. rewrite used_set. by destruct (decide (o = order)). }
  split; [done|]. split; [unfold frame_used; by rewrite Hix|]. split.
  { rewrite Hu1, decide_True, Hix by done. unfold bm. rewrite bit_used_set, Z.eqb_refl. apply orb_true_r. }
  split.
  { intros o p Hp Hne. rewrite Hu1. destruct (decide (o = order)) as [->|]; [|done]. unfold bm. rewrite bit_used_set.
    rewrite (proj2 (Z.eqb_neq _ _)); [by rewrite orb_false_r|]. intros Heq. apply Hne. f_equal.
    apply (index_inj order); [done|done|]. by rewrite Hix. }
  assert (Hs1 : supported s1 order = true) by (revert Hs; clear; by destruct order).
  rewrite (free_eq s1 order r Hr Hs1). destruct (spin_lock_free (hp_lock s1) (po_lock _ Hok1)) as (l' & -> & Hun').
  cbn [mbind option_bind]. assert (Hbm1 : pool_bitmap s1 order = bm) by by destruct order.
  pose proof (nfree_range (bm_clear bm idx) (hugepage_total_count order) ltac:(lia)) as Hrg.
  assert (Hub : bit_used bm idx = true) by (unfold bm; rewrite bit_used_set, Z.eqb_refl; apply orb_true_r).
  rewrite nfree_clear in Hrg by done. rewrite Hix, Hbm1, (po_free _ Hok1 order Hs1), Hbm1, u64_small by lia.
  rewrite <- (nfree_clear bm _ idx) by done. eexists. split; [done|]. split.
  - match goal with |- pools_ok (hp_set_lock ?k ?x) => replace (hp_set_lock k x) with
      (hp_set_lock (spin_unlock l') (set_pool order (bm_clear bm idx) (nfree (bm_clear bm idx) (hugepage_total_count order)) s1)) by by destruct order end.
    apply set_pool_ok; [done|by apply words_ok_clear, words_ok_set|done].
  - intros o p Hp. rewrite used_set. destruct (decide (o = order)) as [->|Hne]; [|change (frame_used (hp_set_lock l' s1) o p) with (frame_used s1 o p); by rewrite Hu1, decide_False].
    rewrite bit_used_clear. unfold bm, frame_used. rewrite bit_used_set.
    destruct (Z.eqb_spec ((p - pool_base order) / 2 ^ order_shift order) idx) as [->|]; [by rewrite Hu, andb_false_r|].
    by rewrite orb_false_r, andb_true_r.
Qed.
End pools.

(** ** The kernel heap *)

(** An object of the cache of 4096 bytes starts on a page boundary. *)
Lemma page_slot_aligned heap_pool active n p :
  pool_ok heap_pool -> heap_pool + HEAP_POOL_SIZE < 2 ^ 52 ->
  active = 1%nat \/ active = 2%nat \/ active = 4%nat \/ active = 8%nat -> (n < active)%nat ->
  is_slot heap_pool active n 8 p ->
  0 <= p < 2 ^ 52 /\ p mod 4096 = 0 /\ heap_pool <= p < heap_pool + HEAP_POOL_SIZE.
Proof.
  intros (Hp0 & Hpm & _) Hend Hact Hn (j & Hj & ->). unfold slot, cls_lo, node_lo in *.
  change (cls_off 8) with 425984. change (cache_size 8) with 4096. change (quota 8) with 32 in Hj.
  assert (Hper : exists m, per_node active = 4096 * m /\ 512 <= m /\ Z.of_nat active * m = 4096).
  { destruct Hact as [->|[->|[->| ->]]]; [exists 4096|exists 2048|exists 1024|exists 512]; done. }
  destruct Hper as (m & -> & Hm & Hmul). unfold HEAP_POOL_SIZE in *. split_and!; try nia.
  replace (heap_pool + Z.of_nat n * (4096 * m) + 425984 + j * 4096) with (heap_pool + (Z.of_nat n * m + 104 + j) * 4096) by lia.
  by rewrite Z.mod_add.
Qed.

(** While the node's cache of pages has [k] free objects, the next [k] pages
    from kmalloc are on page boundaries. *)
Lemma kernel_pages_aligned heap_pool active n k : forall s live,
  pool_ok heap_pool -> heap_pool + HEAP_POOL_SIZE < 2 ^ 52 ->
  active = 1%nat \/ active = 2%nat \/ active = 4%nat \/ active = 8%nat -> (n < active)%nat ->
  kinv heap_pool active s live -> Z.of_nat k <= free_count (caches s n 8) ->
  aligned_allocs (H := kheap_allocator heap_pool active (Z.of_nat n)) k s.
Proof.
  induction k as [|k IH]; intros s live Hp Hend Hact Hn Hk Hf; [done|]. cbn [aligned_allocs].
  assert (Ha : (1 <= active <= 8)%nat) by lia.
  destruct (kc_cache _ _ _ _ (proj1 Hk) n 8 Hn ltac:(lia)) as (_ & _ & _ & fl & Hch & Hnd & Hfc & Hfl & _).
  destruct fl as [|p fl]; [rewrite Hfc in Hf; cbn [length] in Hf; lia|]. destruct Hch as [Hhd _].
  destruct (Hfl p) as [Hslot _]; [set_solver|].
  destruct (page_slot_aligned _ _ _ _ Hp Hend Hact Hn Hslot) as (Hr & Hal & Hin).
  destruct (kmalloc_node_head heap_pool active s n 8 4096 p) as (s' & Hs' & Hfc'); try done; try lia; try apply Hk; try apply Hp.
  destruct (kmalloc_node_spec _ Hp _ Ha s live 4096 (Z.of_nat n) Hk) as (s2 & p2 & Hs2 & Hl2 & Ho); [lia|lia|].
  rewrite Hs' in Hs2. injection Hs2 as <- <-. intros h' q Hq. cbn [al_alloc kheap_allocator] in Hq. unfold kmalloc in Hq.
  rewrite Hs' in Hq. injection Hq as <- <-. split; [done|]. split; [done|].
  destruct Ho as [(-> & _)|(_ & b & _ & _ & Hk')]; [destruct Hp; lia|].
  apply (IH s' (<[p := b]> live)); try done.
  pose proof (free_objects_bound heap_pool active Ha n 8 (p :: fl) ltac:(lia) Hnd ltac:(intros; by apply Hfl)) as Hle.
  change (quota 8) with 32 in Hle. rewrite Hfc', Hfc in *. cbn [length] in *. rewrite u64_small; lia.
Qed.

(** ** A small machine *)

(** An allocator of whole pages below 2^51. *)
Record page_heap := PageHeap { ph_next : Z }.

#[local] Instance page_allocator : Allocator page_heap := {
  al_alloc st sz :=
    if (ph_next st <? 2 ^ 51) && (sz <? 2 ^ 50) then Some (PageHeap (ph_next st + 4096 * ((sz + 4095) / 4096)), ph_next st)
    else Some (st, 0);
  al_free st p := Some st;
  al_pool p := ex_base <= p;
  al_inv st live := ex_base <= ph_next st /\ ph_next st mod 4096 = 0 /\ forall p, p ∈ live -> p < ph_next st;
}.

#[local] Instance page_allocator_laws : AllocatorLaws page_heap.
Proof.
  unfold ex_base. split; simpl.
  - intros [st] live sz (Hb & He & Hl) Hsz. simpl in *. destruct (_ && _); [|by eauto 10].
    eexists _, _. split; [done|]. right. assert (0 < (sz + 4095) / 4096) by zlia. unfold ex_base in *. simpl.
    split_and!; try lia.
    + apply Z.even_spec. exists (st / 2). zlia.
    + intros Hin. apply Hl in Hin. lia.
    + zlia.
    + intros p [->%elem_of_singleton|Hp]%elem_of_union; [lia|]. apply Hl in Hp. lia.
  - intros [st] live p (Hb & He & Hl) Hp. eexists. split; [done|]. split_and!; try done.
    intros q [Hq _]%elem_of_difference. by apply Hl.
Qed.

Lemma pages_aligned n : forall h : page_heap, ex_base <= ph_next h -> ph_next h mod 4096 = 0 -> aligned_allocs n h.
Proof.
  unfold ex_base. induction n as [|n IH]; intros h Hb He; [done|]. cbn [aligned_allocs]. simpl. intros h' p.
  destruct (Z.ltb_spec (ph_next h) (2 ^ 51)); simpl; intros [= <- <-].
  - split; [lia|]. split; [done|]. apply IH; cbn [ph_next]; change (4096 * ((4096 + 4095) / 4096)) with 4096; [lia|zlia].
  - split; [lia|]. split; [done|]. by apply IH.
Qed.

(** An empty page table at 4096. *)
Definition hp_start : @hugepages page_heap :=
  hugepage_init (Hugepages (fun _ => 0) (fun _ => 0) 0 0 false spinlock_init (PageHeap ex_base) (fun _ => 0) []) (2 ^ 26).

Lemma hp_start_ok : pt_inv hp_start (frame 12 4096) {[ 4096 := [] ]} ∅.
Proof.
  split.
  - split; [by vm_compute| |].
    + intros a q [<- <-]%lookup_singleton_Some. split; [lia|]. split; [done|]. simpl. lia.
    + intros a q i [<- <-]%lookup_singleton_Some _ _ Hp. done.
  - split; [done|]. split; [done|]. intros p Hp. by apply elem_of_empty in Hp.
  - intros a [q [<- <-]%lookup_singleton_Some]. right. simpl. unfold ex_base. lia.
Qed.


Lemma hugepage_unmap_translates_witness :
  exists s' r, hugepage_unmap hp_start 4096 (2 ^ 40) HP_ORDER_2M = (s', r) /\ r = -1 /\ s' = hp_start.
Proof.
  destruct (hugepage_unmap_translates hp_start {[ 4096 := [] ]} ∅ 4096 (2 ^ 40) HP_ORDER_2M hp_start_ok ltac:(lia)
    ltac:(by vm_compute) ltac:(by vm_compute)) as (s' & r & Hu & _ & Hr). exists s', r. split; [exact Hu|].
  destruct Hr as [[-> _]|Hr]; [|exact Hr]. discriminate (f_equal snd Hu).
Defined.

Lemma hp_start_pools : pools_ok hp_start.
Proof.
  split; [by split| |].
  - intros [] w; simpl; unfold upd; by destruct (w =? 0).
  - intros [] _; by vm_compute.
Qed.

Lemma hugepage_alloc_fresh_witness :
  exists s' r, hugepage_alloc hp_start HP_ORDER_1G = Some (s', r) /\ pools_ok s'.
Proof.
  destruct (hugepage_alloc_fresh hp_start HP_ORDER_1G hp_start_pools) as (s' & r & Ha & Hok & _).
  exists s', r. split; [exact Ha|exact Hok].
Defined.

(** ** Where it goes wrong *)

(** A word of data in the frame at 4 GiB. *)
Definition hp_data : @hugepages page_heap :=
  set_words (PageHeap ex_base) (fun a => if a =? HP_1G_POOL_BASE then 3 else 0) hp_start.

(** hugepage_unmap does not look at the page-size bit: unmapping a 2 MiB
    page inside a 1 GiB page takes the mapped frame for a page directory and
    clears a word of its contents; it reports success and the address stays
    mapped. *)
Theorem hugepage_unmap_clobbers :
  exists s1 s2, hugepage_map_cr3 hp_data 4096 0 HP_1G_POOL_BASE HP_ORDER_1G 1 = Some (s1, 0) /\
    hugepage_unmap s1 4096 0 HP_ORDER_2M = (s2, 0) /\
    hp_mem s1 HP_1G_POOL_BASE = 3 /\ hp_mem s2 HP_1G_POOL_BASE = 0 /\
    translate (hp_mem s2) 4096 0 = Some HP_1G_POOL_BASE.
Proof.
  assert (He : ('(s1, r) ← hugepage_map_cr3 hp_data 4096 0 HP_1G_POOL_BASE HP_ORDER_1G 1;
    let '(s2, r2) := hugepage_unmap s1 4096 0 HP_ORDER_2M in
    Some (r, r2, hp_mem s1 HP_1G_POOL_BASE, hp_mem s2 HP_1G_POOL_BASE, translate (hp_mem s2) 4096 0)) =
    Some (0, 0, 3, 0, Some HP_1G_POOL_BASE)) by by vm_compute.
  apply bind_Some in He as ([s1 r] & H1 & He). destruct (hugepage_unmap s1 4096 0 HP_ORDER_2M) as [s2 r2] eqn:H2.
  injection He as -> -> Hm1 Hm2 Ht. exists s1, s2. repeat (split; [assumption|]). assumption.
Qed.

(** The same machine with a heap that aligns its blocks to 64 bytes only, as
    kmalloc does outside its caches. *)
Definition hp_unaligned : @hugepages Z :=
  Hugepages (fun _ => 0) (fun _ => 0) 64 4 true spinlock_init (ex_base + 64) (fun _ => 0) [].

(** ensure_table stores the address of a kmalloc'd table in an entry, whose
    low twelve bits are not part of the address: with a table that is not on a
    page boundary hugepage_map_cr3 reports success and the page does not
    translate. *)
Theorem hugepage_map_needs_alignment :
  exists s', hugepage_map_cr3 hp_unaligned 4096 (2 ^ 40) HP_2M_POOL_BASE HP_ORDER_2M 1 = Some (s', 0) /\
    translate (hp_mem s') 4096 (2 ^ 40) = None.
Proof.
  assert (He : ('(s1, r) ← hugepage_map_cr3 hp_unaligned 4096 (2 ^ 40) HP_2M_POOL_BASE HP_ORDER_2M 1;
    Some (r, translate (hp_mem s1) 4096 (2 ^ 40))) = Some (0, None)) by by vm_compute.
  apply bind_Some in He as ([s1 r] & H1 & He). injection He as -> Ht. exists s1. split; assumption.
Qed.
