(* ===== verification/CString.v ===== *)
(** * Memory and string functions (lib/kfmt.c, lib/string.c)

    The byte loops of the C library part, over a memory that is a function
    from addresses to bytes.  Objects do not wrap around the address space,
    so addresses are plain integers.  A scan for a terminating zero takes
    fuel; running out of it is [None], and the theorems give a bound that
    is enough for every string in memory.  The theorems compare each
    function with what it is to do to the memory as a whole, overlapping
    operands and truncation included. *)

From stdpp Require Import base list.
From Stdlib Require Import ZArith Lia.
From S2P Require Import Prelude.

Abbreviation memory := (Z -> Z).

(** ** Block operations *)

Fixpoint memcpy_loop (n : nat) (m : memory) (d s : Z) : memory :=
  match n with O => m | S n => memcpy_loop n (upd m d (m s)) (d + 1) (s + 1) end.

Definition memcpy (m : memory) (dest src n : Z) : memory := memcpy_loop (Z.to_nat n) m dest src.

Fixpoint memset_loop (n : nat) (m : memory) (p c : Z) : memory :=
  match n with O => m | S n => memset_loop n (upd m p (u8 c)) (p + 1) c end.

Definition memset (m : memory) (s c n : Z) : memory := memset_loop (Z.to_nat n) m s c.

(** The loop that runs down from the end. *)
Fixpoint memmove_down (n : nat) (m : memory) (d s : Z) : memory :=
  match n with O => m | S n => memmove_down n (upd m (d - 1) (m (s - 1))) (d - 1) (s - 1) end.

Definition memmove (m : memory) (dst src n : Z) : memory :=
  if (dst =? src) || (n =? 0) then m
  else if dst <? src then memcpy_loop (Z.to_nat n) m dst src
  else memmove_down (Z.to_nat n) m (dst + n) (src + n).

Fixpoint memcmp (n : nat) (m : memory) (p1 p2 : Z) : Z :=
  match n with
  | O => 0
  | S n => if negb (m p1 =? m p2) then m p1 - m p2 else memcmp n m (p1 + 1) (p2 + 1)
  end.

Fixpoint memchr (n : nat) (m : memory) (p c : Z) : Z :=
  match n with O => 0 | S n => if m p =? u8 c then p else memchr n m (p + 1) c end.

(** ** Strings *)

(** [len] counts up from the given value. *)
Fixpoint strlen_from (fuel : nat) (m : memory) (s len : Z) : option Z :=
  match fuel with
  | O => None
  | S fuel => if m (s + len) =? 0 then Some len else strlen_from fuel m s (len + 1)
  end.

Definition strlen (fuel : nat) (m : memory) (s : Z) : option Z := strlen_from fuel m s 0.

Fixpoint strnlen_from (n : nat) (m : memory) (s len : Z) : Z :=
  match n with O => len | S n => if m (s + len) =? 0 then len else strnlen_from n m s (len + 1) end.

Definition strnlen (m : memory) (s maxlen : Z) : Z := strnlen_from (Z.to_nat maxlen) m s 0.

Fixpoint strcmp (fuel : nat) (m : memory) (s1 s2 : Z) : option Z :=
  match fuel with
  | O => None
  | S fuel => if negb (m s1 =? 0) && (m s1 =? m s2) then strcmp fuel m (s1 + 1) (s2 + 1)
              else Some (m s1 - m s2)
  end.

Fixpoint strncmp (n : nat) (m : memory) (s1 s2 : Z) : Z :=
  match n with
  | O => 0
  | S n => if negb (m s1 =? m s2) then m s1 - m s2
           else if m s1 =? 0 then 0 else strncmp n m (s1 + 1) (s2 + 1)
  end.

Definition strlcpy (fuel : nat) (m : memory) (dest src size : Z) : option (memory * Z) :=
  len ← strlen fuel m src;
  Some (if 0 <? size then
          let copy_len := if len <? size - 1 then len else size - 1 in
          (upd (memcpy m dest src copy_len) (dest + copy_len) 0, len)
        else (m, len)).

Definition strlcat (fuel : nat) (m : memory) (dest src size : Z) : option (memory * Z) :=
  let dlen := strnlen m dest size in
  slen ← strlen fuel m src;
  Some (if dlen =? size then (m, u64 (size + slen))
        else let copy := if slen <? size - dlen - 1 then slen else size - dlen - 1 in
             (upd (memcpy m (dest + dlen) src copy) (dest + dlen + copy) 0, u64 (dlen + slen))).

(** [while (n && ( *d++ = *src++ )) n--]: the memory, [d] and the [n] left. *)
Fixpoint strncpy_copy (n : nat) (m : memory) (d src : Z) : memory * Z * nat :=
  match n with
  | O => (m, d, O)
  | S n' => let m := upd m d (m src) in
            if m d =? 0 then (m, d + 1, n) else strncpy_copy n' m (d + 1) (src + 1)
  end.

Definition strncpy (m : memory) (dest src n : Z) : memory :=
  let '(m, d, n) := strncpy_copy (Z.to_nat n) m dest src in memset_loop n m d 0.

(** ** Numbers *)

Definition is_space (c : Z) : bool := (c =? 32) || ((9 <=? c) && (c <=? 13)).
Definition is_digit (c : Z) : bool := (48 <=? c) && (c <=? 57).

Fixpoint skip_spaces (fuel : nat) (m : memory) (s : Z) : option Z :=
  match fuel with O => None | S fuel => if is_space (m s) then skip_spaces fuel m (s + 1) else Some s end.

Fixpoint atoi_digits (fuel : nat) (m : memory) (s res : Z) : option Z :=
  match fuel with
  | O => None
  | S fuel => if is_digit (m s) then atoi_digits fuel m (s + 1) (s32 (res * 10 + (m s - 48))) else Some res
  end.

Definition atoi (fuel : nat) (m : memory) (s : Z) : option Z :=
  s ← skip_spaces fuel m s;
  let '(sign, s) := if m s =? 45 then (-1, s + 1) else if m s =? 43 then (1, s + 1) else (1, s) in
  res ← atoi_digits fuel m s 0;
  Some (s32 (res * sign)).

Definition abs (j : Z) : Z := if j <? 0 then s32 (- j) else j.

(** ** Block operations against the memory as a whole *)

(** [m] with [n] bytes of [m0] from [s] put at [d]. *)
Definition moved (m0 m : memory) (d s n : Z) : memory :=
  fun i => if (d <=? i) && (i <? d + n) then m0 (s + (i - d)) else m i.

(** Case analysis on [moved] and [upd] at a point. *)
Ltac at_point :=
  unfold moved, upd in *;
  repeat match goal with
  | |- context [?a <=? ?b] => destruct (Z.leb_spec a b)
  | |- context [?a <? ?b] => destruct (Z.ltb_spec a b)
  | |- context [?a =? ?b] => destruct (Z.eqb_spec a b)
  end; cbn [andb orb]; try lia; try done; try (f_equal; lia).

Lemma memcpy_loop_spec n : forall m d s, d <= s \/ s + Z.of_nat n <= d ->
  forall i, memcpy_loop n m d s i = moved m m d s (Z.of_nat n) i.
Proof.
  induction n as [|n IH]; intros m d s H i; cbn [memcpy_loop]; [at_point|].
  rewrite IH by lia. at_point.
Qed.

Lemma memmove_down_spec n : forall m d s, s <= d \/ d <= s - Z.of_nat n ->
  forall i, memmove_down n m d s i = moved m m (d - Z.of_nat n) (s - Z.of_nat n) (Z.of_nat n) i.
Proof.
  induction n as [|n IH]; intros m d s H i; cbn [memmove_down]; [at_point|].
  rewrite IH by lia. at_point.
Qed.

Lemma memset_loop_spec n : forall m p c i,
  memset_loop n m p c i = if (p <=? i) && (i <? p + Z.of_nat n) then u8 c else m i.
Proof.
  induction n as [|n IH]; intros m p c i; cbn [memset_loop]; [at_point|]. rewrite IH. at_point.
Qed.

(** [memmove] moves the bytes the source held before the call, for every
    overlap of the two ranges. *)
Theorem memmove_correct m dst src n i : 0 <= n -> memmove m dst src n i = moved m m dst src n i.
Proof.
  intros Hn. unfold memmove. destruct (Z.eqb_spec dst src) as [->|]; cbn [orb]; [at_point|].
  destruct (Z.eqb_spec n 0) as [->|]; [at_point|].
  destruct (Z.ltb_spec dst src); [rewrite memcpy_loop_spec by lia|rewrite memmove_down_spec by lia]; at_point.
Qed.

Lemma memmove_correct_witness : memmove (fun a => a) 3 1 4 5 = 3 /\ memmove (fun a => a) 1 3 4 2 = 4.
Proof. split; [rewrite (memmove_correct _ 3 1 4 5)|rewrite (memmove_correct _ 1 3 4 2)]; (lia || reflexivity). Defined.

(** ** Strings in memory *)

Fixpoint cstr (m : memory) (a : Z) (l : list Z) : Prop :=
  match l with [] => m a = 0 | c :: l => m a = c /\ 0 < c < 256 /\ cstr m (a + 1) l end.

Lemma cstr_ext m m' l : forall a, (forall i, a <= i <= a + Z.of_nat (length l) -> m' i = m i) -> cstr m a l -> cstr m' a l.
Proof.
  induction l as [|c l IH]; intros a H; cbn [cstr length] in *; [intros; rewrite H; [done|lia]|].
  intros (H1 & H2 & H3). split_and!; [rewrite H by lia; done|lia|lia|]. apply IH; [|done]. intros. apply H. lia.
Qed.

Lemma cstr_nth m l : forall a k, cstr m a l -> 0 <= k < Z.of_nat (length l) -> m (a + k) = nth (Z.to_nat k) l 0 /\ 0 < m (a + k) < 256.
Proof.
  induction l as [|c l IH]; intros a k H Hk; cbn [length cstr] in *; [lia|]. destruct H as (H1 & H2 & H3).
  destruct (Z.eq_dec k 0) as [->|]; [rewrite Z.add_0_r, H1; done|].
  destruct (IH (a + 1) (k - 1) H3 ltac:(lia)) as [E1 E2]. replace (a + 1 + (k - 1)) with (a + k) in * by lia.
  replace (Z.to_nat k) with (S (Z.to_nat (k - 1))) by lia. done.
Qed.

Lemma cstr_end m l : forall a, cstr m a l -> m (a + Z.of_nat (length l)) = 0.
Proof.
  induction l as [|c l IH]; intros a H; cbn [length cstr] in *; [by rewrite Z.add_0_r|]. destruct H as (_ & _ & H).
  apply IH in H. rewrite <- H. f_equal. lia.
Qed.

(** A string is given by its bytes and its end. *)
Lemma cstr_intro m l : forall a, (forall k, 0 <= k < Z.of_nat (length l) -> m (a + k) = nth (Z.to_nat k) l 0) ->
  Forall (fun c => 0 < c < 256) l -> m (a + Z.of_nat (length l)) = 0 -> cstr m a l.
Proof.
  induction l as [|c l IH]; intros a H Hc He; cbn [length cstr] in *; [by rewrite Z.add_0_r in He|].
  apply Forall_cons in Hc as [Hc Hl]. pose proof (H 0 ltac:(lia)) as H0. rewrite Z.add_0_r in H0. split_and!; [done|lia|lia|].
  apply IH; [|done|rewrite <- He; f_equal; lia]. intros k Hk. specialize (H (k + 1) ltac:(lia)).
  replace (a + 1 + k) with (a + (k + 1)) by lia. rewrite H. by replace (Z.to_nat (k + 1)) with (S (Z.to_nat k)) by lia.
Qed.

Lemma cstr_bytes m l : forall a, cstr m a l -> Forall (fun c => 0 < c < 256) l.
Proof. induction l as [|c l IH]; intros a H; cbn [cstr] in H; constructor; [lia|]. by eapply IH, H. Qed.

Lemma strlen_from_spec m s l : cstr m s l -> forall fuel k, 0 <= k <= Z.of_nat (length l) ->
  Z.of_nat (length l) - k < Z.of_nat fuel -> strlen_from fuel m s k = Some (Z.of_nat (length l)).
Proof.
  intros H fuel. induction fuel as [|fuel IH]; intros k Hk Hf; [lia|]. cbn [strlen_from].
  destruct (Z.eq_dec k (Z.of_nat (length l))) as [->|]; [by rewrite (cstr_end m l s H)|].
  destruct (cstr_nth m l s k H ltac:(lia)). rewrite (proj2 (Z.eqb_neq _ _)) by lia. apply IH; lia.
Qed.

Lemma strlen_spec fuel m s l : cstr m s l -> (length l < fuel)%nat -> strlen fuel m s = Some (Z.of_nat (length l)).
Proof. intros H Hf. apply strlen_from_spec; [done|lia|lia]. Qed.

Lemma strnlen_from_spec m s l : cstr m s l -> forall n k, 0 <= k <= Z.of_nat (length l) ->
  strnlen_from n m s k = Z.min (k + Z.of_nat n) (Z.of_nat (length l)).
Proof.
  intros H n. induction n as [|n IH]; intros k Hk; cbn [strnlen_from]; [lia|].
  destruct (Z.eq_dec k (Z.of_nat (length l))) as [->|]; [rewrite (cstr_end m l s H); cbn; lia|].
  destruct (cstr_nth m l s k H ltac:(lia)). rewrite (proj2 (Z.eqb_neq _ _)) by lia. rewrite IH; lia.
Qed.

(** Appending [n] bytes of the string at [src] to the bytes [p] at [dest],
    and a terminator. *)
Lemma append_string m dest src (p l : list Z) n :
  (forall k, 0 <= k < Z.of_nat (length p) -> m (dest + k) = nth (Z.to_nat k) p 0) -> Forall (fun c => 0 < c < 256) p ->
  cstr m src l -> 0 <= n <= Z.of_nat (length l) ->
  dest + Z.of_nat (length p) + n < src \/ src + Z.of_nat (length l) < dest ->
  let e := dest + Z.of_nat (length p) in
  let m' := upd (memcpy m e src n) (e + n) 0 in
  cstr m' dest (p ++ take (Z.to_nat n) l) /\ forall i, i < e \/ e + n < i -> m' i = m i.
Proof.
  intros Hp Hb Hl Hn Hdis e m'. set (q := take (Z.to_nat n) l).
  assert (Hq : length q = Z.to_nat n) by (unfold q; rewrite length_take; lia).
  assert (Hm : forall i, m' i = if i =? e + n then 0 else moved m m e src n i).
  { intros i. unfold m', memcpy, upd. destruct (i =? e + n); [done|].
    rewrite memcpy_loop_spec by lia. by replace (Z.of_nat (Z.to_nat n)) with n by lia. }
  split.
  - apply cstr_intro.
    + intros k Hk. rewrite length_app, Hq in Hk. rewrite Hm, (proj2 (Z.eqb_neq _ _)) by lia. unfold moved.
      destruct (Z.ltb_spec k (Z.of_nat (length p))).
      * rewrite (proj2 (Z.leb_gt _ _)) by lia. cbn [andb]. rewrite Hp by lia. rewrite app_nth1 by lia. done.
      * rewrite (proj2 (Z.leb_le _ _)), (proj2 (Z.ltb_lt _ _)) by lia. cbn [andb].
        replace (src + (dest + k - e)) with (src + (k - Z.of_nat (length p))) by lia.
        destruct (cstr_nth m l src (k - Z.of_nat (length p)) Hl ltac:(lia)) as [-> _].
        rewrite app_nth2 by lia. unfold q. rewrite nth_firstn, (proj2 (Nat.ltb_lt _ _)) by lia. f_equal. lia.
    + apply Forall_app. split; [done|]. apply Forall_take. by apply (cstr_bytes m l src).
    + rewrite length_app, Hq. rewrite Hm, (proj2 (Z.eqb_eq _ _)); [done|]. lia.
  - intros i Hi. rewrite Hm, (proj2 (Z.eqb_neq _ _)) by lia. unfold moved.
    destruct (Z.leb_spec e i), (Z.ltb_spec i (e + n)); cbn [andb]; (done || lia).
Qed.

(** [strlcpy] truncates to the buffer and terminates: the destination holds
    as much of the source as fits, nothing outside the buffer is written and
    the result is the length of the whole source. *)
Theorem strlcpy_correct m dest src size l fuel :
  cstr m src l -> (length l < fuel)%nat -> 0 < size ->
  dest + size <= src \/ src + Z.of_nat (length l) < dest ->
  exists m', strlcpy fuel m dest src size = Some (m', Z.of_nat (length l)) /\
    cstr m' dest (take (Z.to_nat (size - 1)) l) /\ forall i, i < dest \/ dest + size <= i -> m' i = m i.
Proof.
  intros H Hf Hs Hd. unfold strlcpy. rewrite (strlen_spec fuel m src l H Hf). cbn [mbind option_bind].
  rewrite (proj2 (Z.ltb_lt _ _)) by lia. eexists. split; [reflexivity|].
  set (n := if _ <? _ then _ else _). assert (Hn : n = Z.min (Z.of_nat (length l)) (size - 1))
    by (unfold n; destruct (Z.ltb_spec (Z.of_nat (length l)) (size - 1)); lia). clearbody n.
  destruct (append_string m dest src [] l n) as [H1 H2]; [cbn; lia|constructor|done|lia|cbn; lia|].
  cbn [length] in H1, H2. rewrite Z.add_0_r in H1, H2. split; [|intros i Hi; apply H2; lia].
  cbn [app] in H1. destruct (Z.le_gt_cases (size - 1) (Z.of_nat (length l))).
  - by replace (size - 1) with n by lia.
  - rewrite firstn_all2 in H1 |- * by lia. done.
Qed.

Lemma strlcpy_correct_witness :
  let m := fun a => if a =? 100 then 97 else if a =? 101 then 98 else if a =? 102 then 99 else 0 in
  exists m', strlcpy 8 m 0 100 3 = Some (m', 3) /\ cstr m' 0 [97; 98].
Proof.
  intros m. destruct (strlcpy_correct m 0 100 3 [97; 98; 99] 8) as (m' & E & H & _).
  - cbn. repeat split; lia.
  - cbn. lia.
  - lia.
  - lia.
  - exists m'. split; [exact E|exact H].
Defined.

(** [strlcat] appends what fits and terminates. *)
Theorem strlcat_correct m dest src size d l fuel :
  cstr m dest d -> cstr m src l -> (length l < fuel)%nat -> Z.of_nat (length d) < size < 2 ^ 63 -> Z.of_nat (length l) < 2 ^ 63 ->
  dest + size <= src \/ src + Z.of_nat (length l) < dest ->
  exists m', strlcat fuel m dest src size = Some (m', Z.of_nat (length d) + Z.of_nat (length l)) /\
    cstr m' dest (take (Z.to_nat (size - 1)) (d ++ l)) /\ forall i, i < dest \/ dest + size <= i -> m' i = m i.
Proof.
  intros Hd Hl Hf Hs Hl63 Hdis. unfold strlcat, strnlen. rewrite (strnlen_from_spec m dest d Hd) by lia.
  rewrite (strlen_spec fuel m src l Hl Hf). cbn [mbind option_bind].
  replace (Z.min (0 + Z.of_nat (Z.to_nat size)) (Z.of_nat (length d))) with (Z.of_nat (length d)) by lia.
  rewrite (proj2 (Z.eqb_neq _ _)) by lia. rewrite u64_small by lia. eexists. split; [reflexivity|].
  set (n := if _ <? _ then _ else _). assert (Hn : n = Z.min (Z.of_nat (length l)) (size - Z.of_nat (length d) - 1))
    by (unfold n; destruct (Z.ltb_spec (Z.of_nat (length l)) (size - Z.of_nat (length d) - 1)); lia). clearbody n.
  destruct (append_string m dest src d l n) as [H1 H2]; [|by apply (cstr_bytes m d dest)|done|lia|lia|].
  { intros k Hk. by apply (cstr_nth m d dest k Hd). }
  split; [|intros i Hi; apply H2; lia]. rewrite take_app, (firstn_all2 (n := Z.to_nat (size - 1)) d) by lia.
  destruct (Z.le_gt_cases (size - Z.of_nat (length d) - 1) (Z.of_nat (length l))).
  - by replace (Z.to_nat (size - 1) - length d)%nat with (Z.to_nat n) by lia.
  - rewrite firstn_all2 in H1 |- * by lia. done.
Qed.

Lemma strlcat_correct_witness :
  let m := fun a => if a =? 0 then 120 else if a =? 100 then 97 else if a =? 101 then 98 else 0 in
  exists m', strlcat 8 m 0 100 3 = Some (m', 3) /\ cstr m' 0 [120; 97].
Proof.
  intros m. destruct (strlcat_correct m 0 100 3 [120] [97; 98] 8) as (m' & E & H & _).
  - cbn. repeat split; lia.
  - cbn. repeat split; lia.
  - cbn. lia.
  - cbn. lia.
  - cbn. lia.
  - lia.
  - exists m'. split; [exact E|exact H].
Defined.

(** ** Comparison *)

(** Lexicographic order of byte strings. *)
Fixpoint lex_cmp (x y : list Z) : comparison :=
  match x, y with
  | [], [] => Eq | [], _ => Lt | _, [] => Gt
  | a :: x, b :: y => match a ?= b with Eq => lex_cmp x y | c => c end
  end.

Lemma lex_cmp_eq x : forall y, lex_cmp x y = Eq <-> x = y.
Proof.
  induction x as [|a x IH]; intros [|b y]; cbn [lex_cmp]; try done.
  destruct (Z.compare_spec a b) as [->| |]; [rewrite IH; split; [by intros ->|by intros [= ->]]|..];
    split; intros E; try discriminate E; injection E; lia.
Qed.

(** [strcmp] terminates on strings and orders them lexicographically, byte
    by byte as unsigned values; zero means equal. *)
Theorem strcmp_order m a b x y fuel :
  cstr m a x -> cstr m b y -> (length x < fuel)%nat ->
  exists r, strcmp fuel m a b = Some r /\ (r ?= 0) = lex_cmp x y /\ (r = 0 <-> x = y).
Proof.
  intros Hx Hy Hf. assert (H : exists r, strcmp fuel m a b = Some r /\ (r ?= 0) = lex_cmp x y).
  { revert a b x y Hx Hy Hf. induction fuel as [|fuel IH]; intros a b x y Hx Hy Hf; [lia|].
    cbn [strcmp]. destruct x as [|c x]; cbn [cstr length] in *.
    - rewrite Hx. cbn [Z.eqb negb andb]. eexists. split; [reflexivity|].
      destruct y as [|d y]; cbn [cstr lex_cmp] in *; [by rewrite Hy|]. apply Z.compare_lt_iff. lia.
    - destruct Hx as (Ec & Hc & Hx). rewrite Ec, (proj2 (Z.eqb_neq c 0)) by lia. cbn [negb andb].
      destruct y as [|d y]; cbn [cstr lex_cmp] in *.
      + rewrite Hy, (proj2 (Z.eqb_neq c 0)) by lia. eexists. split; [reflexivity|]. apply Z.compare_gt_iff. lia.
      + destruct Hy as (Ed & Hd & Hy). rewrite Ed. destruct (Z.eqb_spec c d) as [->|Hne].
        * rewrite Z.compare_refl. apply IH; [done|done|lia].
        * eexists. split; [reflexivity|]. destruct (Z.compare_spec c d); [lia|apply Z.compare_lt_iff; lia|apply Z.compare_gt_iff; lia]. }
  destruct H as (r & E & Ec). exists r. split_and!; [done|done|]. rewrite <- lex_cmp_eq, <- Ec, Z.compare_eq_iff. done.
Qed.

Lemma strcmp_order_witness :
  let m := fun a => if a =? 0 then 97 else if a =? 10 then 97 else if a =? 11 then 98 else 0 in
  exists r, strcmp 8 m 0 10 = Some r /\ (r ?= 0) = Lt.
Proof.
  intros m. destruct (strcmp_order m 0 10 [97] [97; 98] 8) as (r & E & H & _).
  - cbn. repeat split; lia.
  - cbn. repeat split; lia.
  - cbn. lia.
  - exists r. split; [exact E|exact H].
Defined.

(** ** The copy that overruns *)

(** [strncpy] with a source shorter than [n] writes [n + 1] bytes: the
    terminator is stored without being counted, and [n] minus the length
    more zeros follow. *)
Theorem strncpy_overruns m dest src n l :
  cstr m src l -> Z.of_nat (length l) < n -> dest + n < src \/ src + Z.of_nat (length l) < dest ->
  strncpy m dest src n (dest + n) = 0.
Proof.
  intros H Hn Hd. unfold strncpy.
  assert (E : forall l d s m k, cstr m s l -> (length l < k)%nat -> d + Z.of_nat k < s \/ s + Z.of_nat (length l) < d ->
    exists m', strncpy_copy k m d s = (m', d + Z.of_nat (length l) + 1, (k - length l)%nat)).
  { clear. induction l as [|c l IH]; intros d s m k H Hk Hd; (destruct k as [|k]; [lia|]); cbn [strncpy_copy cstr length] in *.
    - rewrite upd_eq, H. cbn. eexists. f_equal. f_equal. lia.
    - destruct H as (E & Hc & H). rewrite upd_eq, E, (proj2 (Z.eqb_neq _ _)) by lia.
      destruct (IH (d + 1) (s + 1) (upd m d c) k) as (m' & ->); [|lia|lia|exists m'; do 2 f_equal; lia].
      apply cstr_ext with m; [|done]. intros i Hi. apply upd_ne. lia. }
  destruct (E l dest src m (Z.to_nat n) H ltac:(lia) ltac:(lia)) as (m' & ->).
  rewrite memset_loop_spec. rewrite (proj2 (Z.leb_le _ _)), (proj2 (Z.ltb_lt _ _)) by lia. done.
Qed.

Lemma strncpy_overruns_witness : strncpy (fun a => if a =? 4 then 77 else if a =? 100 then 97 else 0) 0 100 4 4 = 0.
Proof. apply (strncpy_overruns _ 0 100 4 [97]); [cbn; repeat split; lia|cbn; lia|lia]. Defined.
