(* ===== verification/Kfmt.v ===== *)
(** * Formatted output (lib/kfmt.c)

    [kfmt_vcore], behind [ksnprintf], [snprintf], [vsnprintf] and [kprintf],
    and the log lines built with it.  A format is the bytes of a C string
    with its terminator: reading past them is [None], as are an argument of
    the wrong type or a missing one and a width that overflows an [int].
    The buffer is a memory of its own, from index 0.

    The theorems compare the code with a grammar of formats ([item]) and the
    text each format stands for, and show that the buffer never gets more
    than its size. *)

From stdpp Require Import base list.
From Stdlib Require Import ZArith Lia.
From S2P Require Import Prelude CString.

(** ** The formatter *)

(** What [va_arg] takes: an integer as it was passed, or a string. *)
Inductive arg := AInt (z : Z) | AStr (s : option (list Z)).

(** Length modifiers: none, [l], [ll], [z]. *)
Inductive len_mod := LNone | LL | LLL | LZ.

Definition INT_MAX : Z := 2 ^ 31 - 1.

(** The buffer and [pos]. *)
Record out := Out { o_buf : memory; o_pos : Z }.

Definition put (o : out) (c : Z) : out := Out (upd (o_buf o) (o_pos o) c) (o_pos o + 1).

(** [if (pos < n - 1) buf[pos++] = c] *)
Definition put1 (n : Z) (o : out) (c : Z) : out := if o_pos o <? n - 1 then put o c else o.

(** [while (padding-- > 0 && pos < n - 1) buf[pos++] = c] *)
Fixpoint pad_loop (padding : nat) (n c : Z) (o : out) : out :=
  match padding with O => o | S k => if o_pos o <? n - 1 then pad_loop k n c (put o c) else o end.

(** [for (i = 0; i < len && pos < n - 1; i++) buf[pos++] = s[i]] *)
Fixpoint copy_loop (s : list Z) (n : Z) (o : out) : out :=
  match s with [] => o | c :: s => if o_pos o <? n - 1 then copy_loop s n (put o c) else o end.

(** [tmp]: the digits of [val], least significant first. *)
Definition digit_char (upper : bool) (d : Z) : Z := if d <? 10 then 48 + d else (if upper then 65 else 97) + (d - 10).

Fixpoint digits_loop (fuel : nat) (base : Z) (upper : bool) (val : Z) : list Z :=
  match fuel with
  | O => []
  | S fuel => if 0 <? val then digit_char upper (val mod base) :: digits_loop fuel base upper (val / base) else []
  end.

Definition digits (base : Z) (upper : bool) (val : Z) : list Z :=
  if val =? 0 then [48] else digits_loop 64 base upper val.

Definition va_unsigned (md : len_mod) (z : Z) : Z := match md with LNone => u32 z | _ => u64 z end.
Definition va_signed (md : len_mod) (z : Z) : Z := match md with LNone => s32 z | _ => s64 z end.

Definition pad_n (width : Z) (len : nat) : nat := Z.to_nat (width - s32 (Z.of_nat len)).

Definition null_text : list Z := [40; 110; 117; 108; 108; 41].

Definition conv_s (n : Z) (la : bool) (width : Z) (s : option (list Z)) (o : out) : out :=
  let s := default null_text s in
  let padding := pad_n width (length s) in
  let o := if la then o else pad_loop padding n 32 o in
  let o := copy_loop s n o in
  if la then pad_loop padding n 32 o else o.

Definition conv_x (n : Z) (la zp : bool) (width : Z) (upper : bool) (val : Z) (o : out) : out :=
  let tmp := digits 16 upper val in
  let pad_ch := if zp && negb la then 48 else 32 in
  let padding := pad_n width (length tmp) in
  let o := if la then o else pad_loop padding n pad_ch o in
  let o := copy_loop (rev tmp) n o in
  if la then pad_loop padding n 32 o else o.

Definition conv_d (n : Z) (la zp : bool) (width : Z) (neg : bool) (val : Z) (o : out) : out :=
  let tmp := digits 10 false val in
  let pad_ch := if zp && negb la then 48 else 32 in
  let padding := pad_n width (length tmp + (if neg then 1 else 0)) in
  let o := if negb la && negb zp then pad_loop padding n pad_ch o else o in
  let o := if neg then put1 n o 45 else o in
  let o := if negb la && zp then pad_loop padding n pad_ch o else o in
  let o := copy_loop (rev tmp) n o in
  if la then pad_loop padding n 32 o else o.

Definition conv_p (n : Z) (pval : Z) (o : out) : out :=
  let o := put1 n (put1 n o 48) 120 in
  let tmp := digits 16 false pval in
  copy_loop (rev tmp) n (pad_loop (pad_n 16 (length tmp)) n 48 o).

(** One conversion: the remaining arguments and the output. *)
Definition convert (n : Z) (la zp : bool) (width : Z) (md : len_mod) (c : Z) (args : list arg) (o : out)
  : option (list arg * out) :=
  if c =? 115 then
    match args with AStr s :: args => Some (args, conv_s n la width s o) | _ => None end
  else if (c =? 120) || (c =? 88) then
    match args with AInt z :: args => Some (args, conv_x n la zp width (c =? 88) (va_unsigned md z) o) | _ => None end
  else if (c =? 100) || (c =? 105) then
    match args with
    | AInt z :: args => let sv := va_signed md z in
                        Some (args, conv_d n la zp width (sv <? 0) (if sv <? 0 then u64 (- sv) else sv) o)
    | _ => None
    end
  else if c =? 117 then
    match args with AInt z :: args => Some (args, conv_d n la zp width false (va_unsigned md z) o) | _ => None end
  else if c =? 99 then
    if o_pos o <? n - 1 then
      match args with AInt z :: args => Some (args, put o (u8 z)) | _ => None end
    else Some (args, o)
  else if c =? 112 then
    match args with AInt z :: args => Some (args, conv_p n (u64 z) o) | _ => None end
  else if c =? 37 then Some (args, put1 n o 37)
  else Some (args, o).

(** The flags, width and length modifier after [%]. *)
Fixpoint parse_flags (f : list Z) (la zp : bool) : option (list Z * bool * bool) :=
  match f with
  | [] => None
  | c :: f' => if c =? 45 then parse_flags f' true zp else if c =? 48 then parse_flags f' la true else Some (f, la, zp)
  end.

Fixpoint parse_width (f : list Z) (width : Z) : option (list Z * Z) :=
  match f with
  | [] => None
  | c :: f' => if is_digit c then
                 let w := width * 10 + (c - 48) in if INT_MAX <? w then None else parse_width f' w
               else Some (f, width)
  end.

Definition parse_len (f : list Z) : option (list Z * len_mod) :=
  match f with
  | [] => None
  | c :: f' => if c =? 108 then
                 match f' with [] => None | c :: f'' => if c =? 108 then Some (f'', LLL) else Some (f', LL) end
               else if c =? 122 then Some (f', LZ) else Some (f, LNone)
  end.

Fixpoint vcore_loop (fuel : nat) (n : Z) (f : list Z) (args : list arg) (o : out) : option out :=
  match fuel with
  | O => None
  | S fuel =>
    c ← head f;
    if (c =? 0) || negb (o_pos o <? n - 1) then Some o
    else if negb (c =? 37) then vcore_loop fuel n (tail f) args (put o c)
    else
      '(f, la, zp) ← parse_flags (tail f) false false;
      '(f, width) ← parse_width f 0;
      '(f, md) ← parse_len f;
      c ← head f;
      '(args, o) ← convert n la zp width md c args o;
      vcore_loop fuel n (tail f) args o
  end.

Definition kfmt_vcore (buf : memory) (n : Z) (fmt : list Z) (args : list arg) : option (memory * Z) :=
  if n =? 0 then Some (buf, 0) else
  o ← vcore_loop (S (length fmt)) n fmt args (Out buf 0);
  Some (upd (o_buf o) (o_pos o) 0, s32 (o_pos o)).

Definition ksnprintf (buf : memory) (n : Z) (fmt : list Z) (args : list arg) : option (memory * Z) :=
  kfmt_vcore buf n fmt args.

(** [kprintf]: the text handed to [kputs], through a static buffer. *)
Definition KPRINTF_BUFSZ : Z := 256.

Definition kprintf (buf : memory) (fmt : list Z) (args : list arg) : option (memory * Z) :=
  kfmt_vcore buf KPRINTF_BUFSZ fmt args.

(** ** Digits *)

(** The number that a list of decimal digits, most significant first,
    stands for. *)
Fixpoint dec_value (acc : Z) (l : list Z) : Z :=
  match l with [] => acc | c :: l => dec_value (acc * 10 + (c - 48)) l end.

Lemma dec_value_app acc l l' : dec_value acc (l ++ l') = dec_value (dec_value acc l) l'.
Proof. revert acc. induction l as [|c l IH]; intros acc; cbn; [done|apply IH]. Qed.

Lemma digits_loop_value fuel : forall v, 0 <= v < 2 ^ Z.of_nat fuel ->
  dec_value 0 (rev (digits_loop fuel 10 false v)) = v.
Proof.
  induction fuel as [|fuel IH]; intros v Hv; [cbn in Hv |- *; lia|]. cbn [digits_loop].
  destruct (Z.ltb_spec 0 v); [|cbn; lia]. cbn [rev]. rewrite dec_value_app. cbn [dec_value].
  rewrite Nat2Z.inj_succ, Z.pow_succ_r in Hv by lia. rewrite IH by zlia.
  unfold digit_char. rewrite (proj2 (Z.ltb_lt _ _)) by (apply Z.mod_pos_bound; lia). zlia.
Qed.

Lemma digits_loop_digit fuel : forall v, Forall (fun c => is_digit c = true) (digits_loop fuel 10 false v).
Proof.
  induction fuel as [|fuel IH]; intros v; cbn [digits_loop]; [constructor|]. destruct (0 <? v); constructor; [|apply IH].
  unfold digit_char. assert (0 <= v mod 10 < 10) by (apply Z.mod_pos_bound; lia).
  rewrite (proj2 (Z.ltb_lt _ _)) by lia. unfold is_digit.
  rewrite (proj2 (Z.leb_le _ _)), (proj2 (Z.leb_le _ _)) by lia. done.
Qed.

(** The decimal digits of a 64-bit number, most significant first. *)
Definition dec (v : Z) : list Z := rev (digits 10 false v).

Lemma dec_spec v : 0 <= v < 2 ^ 64 -> dec_value 0 (dec v) = v /\ Forall (fun c => is_digit c = true) (dec v).
Proof.
  intros Hv. unfold dec, digits. destruct (Z.eqb_spec v 0) as [->|]; [split; [done|repeat constructor]|].
  split; [by apply digits_loop_value|]. apply Forall_rev, digits_loop_digit.
Qed.

(** The digits fit the code's temporary arrays. *)
Lemma digits_loop_length base upper k fuel : forall v, 1 < base -> v < base ^ Z.of_nat k -> (length (digits_loop fuel base upper v) <= k)%nat.
Proof.
  revert k. induction fuel as [|fuel IH]; intros k v Hb Hv; cbn [digits_loop length]; [lia|].
  destruct (Z.ltb_spec 0 v); cbn [length]; [|lia]. destruct k as [|k]; [cbn in Hv; lia|].
  rewrite Nat2Z.inj_succ, Z.pow_succ_r in Hv by lia.
  assert (v / base < base ^ Z.of_nat k) by (apply Z.div_lt_upper_bound; lia). specialize (IH k (v / base) Hb H0). lia.
Qed.

Lemma digits_fit v upper : 0 <= v < 2 ^ 64 -> (length (digits 10 false v) <= 20)%nat /\ (length (digits 16 upper v) <= 16)%nat.
Proof.
  intros Hv. unfold digits. destruct (v =? 0); [cbn; lia|].
  split; apply digits_loop_length; try lia; change (Z.of_nat 20) with 20; change (Z.of_nat 16) with 16; lia.
Qed.

(** ** Formats and their text *)

Inductive conv := CStr | CHex (upper : bool) | CDec | CInt | CUns | CChar | CPtr | CPercent.

Inductive item := Lit (c : Z) | Conv (la zp : bool) (width : Z) (md : len_mod) (k : conv).

Definition conv_char (k : conv) : Z :=
  match k with CStr => 115 | CHex u => if u then 88 else 120 | CDec => 100 | CInt => 105 | CUns => 117 | CChar => 99 | CPtr => 112
             | CPercent => 37 end.

Definition mod_text (md : len_mod) : list Z := match md with LNone => [] | LL => [108] | LLL => [108; 108] | LZ => [122] end.

(** The concrete syntax of a format. *)
Definition item_text (it : item) : list Z :=
  match it with
  | Lit c => [c]
  | Conv la zp w md k =>
      37 :: (if la then [45] else []) ++ (if zp then [48] else []) ++ (if w =? 0 then [] else dec w) ++ mod_text md ++ [conv_char k]
  end.

Definition item_ok (it : item) : Prop :=
  match it with Lit c => 0 < c < 256 /\ c <> 37 | Conv _ _ w _ _ => 0 <= w <= INT_MAX end.

Definition spaces (k : nat) : list Z := replicate k 32.

(** [body] in a field of [width]: to the left, or to the right behind
    blanks, or behind zeros that follow the sign. *)
Definition field (la zp : bool) (width : Z) (sign body : list Z) : list Z :=
  let gap := Z.to_nat (width - Z.of_nat (length sign + length body)) in
  if la then sign ++ body ++ spaces gap
  else if zp then sign ++ replicate gap 48 ++ body
  else spaces gap ++ sign ++ body.

(** The text of one conversion and the arguments left. *)
Definition conv_text (la zp : bool) (width : Z) (md : len_mod) (k : conv) (args : list arg) : option (list Z * list arg) :=
  match k, args with
  | CPercent, args => Some ([37], args)
  | CStr, AStr s :: args => Some (field la false width [] (default null_text s), args)
  | CHex u, AInt z :: args => Some (field la zp width [] (rev (digits 16 u (va_unsigned md z))), args)
  | CUns, AInt z :: args => Some (field la zp width [] (dec (va_unsigned md z)), args)
  | CDec, AInt z :: args | CInt, AInt z :: args =>
      let v := va_signed md z in
      Some (field la zp width (if v <? 0 then [45] else []) (dec (Z.abs v)), args)
  | CChar, AInt z :: args => Some ([u8 z], args)
  | CPtr, AInt z :: args => Some ([48; 120] ++ field false true 16 [] (rev (digits 16 false (u64 z))), args)
  | _, _ => None
  end.

Fixpoint text (items : list item) (args : list arg) : option (list Z) :=
  match items with
  | [] => Some []
  | Lit c :: items => t ← text items args; Some (c :: t)
  | Conv la zp w md k :: items => '(t, args) ← conv_text la zp w md k args; t' ← text items args; Some (t ++ t')
  end.

Definition fmt_of (items : list item) : list Z := concat (map item_text items) ++ [0].

(** Strings short enough for an [int] length. *)
Definition arg_ok (a : arg) : Prop := match a with AStr (Some s) => Z.of_nat (length s) <= INT_MAX | _ => True end.

(** ** The output buffer *)

(** [o] holds as much of [t] as fits in [n] bytes with a terminator, over
    the buffer [b]. *)
Record filled (n : Z) (b : memory) (t : list Z) (o : out) : Prop := {
  fi_pos : o_pos o = Z.min (Z.of_nat (length t)) (n - 1);
  fi_bytes : forall k, 0 <= k < o_pos o -> o_buf o k = nth (Z.to_nat k) t 0;
  fi_rest : forall i, i < 0 \/ o_pos o <= i -> o_buf o i = b i }.

Section Fill.
Context (n : Z) (b : memory) (Hn : 0 < n).

Lemma filled_full t u o : filled n b t o -> n - 1 <= o_pos o -> filled n b (t ++ u) o.
Proof using Hn.
  intros [E1 E2 E3] H. constructor; [rewrite length_app; lia| |done].
  intros k Hk. rewrite E2 by done. by rewrite app_nth1 by lia.
Qed.

Lemma filled_put t c o : filled n b t o -> o_pos o < n - 1 -> filled n b (t ++ [c]) (put o c).
Proof using Hn.
  intros [E1 E2 E3] H. constructor; unfold put; cbn [o_pos o_buf].
  - rewrite length_app. cbn. lia.
  - intros k Hk. destruct (Z.eq_dec k (o_pos o)) as [->|].
    + rewrite upd_eq. replace (Z.to_nat (o_pos o)) with (length t) by lia. by rewrite nth_middle.
    + rewrite upd_ne by done. rewrite E2 by lia. by rewrite app_nth1 by lia.
  - intros i Hi. rewrite upd_ne by lia. apply E3. lia.
Qed.

Lemma filled_put1 t c o : filled n b t o -> filled n b (t ++ [c]) (put1 n o c).
Proof using Hn.
  intros H. unfold put1. destruct (Z.ltb_spec (o_pos o) (n - 1)); [by apply filled_put|by apply filled_full].
Qed.

Lemma filled_copy l : forall t o, filled n b t o -> filled n b (t ++ l) (copy_loop l n o).
Proof using Hn.
  induction l as [|c l IH]; intros t o H; cbn [copy_loop]; [by rewrite app_nil_r|].
  destruct (Z.ltb_spec (o_pos o) (n - 1)); [|by apply filled_full].
  change (t ++ c :: l) with (t ++ [c] ++ l). rewrite app_assoc. apply IH. by apply filled_put.
Qed.

Lemma filled_pad c k : forall t o, filled n b t o -> filled n b (t ++ replicate k c) (pad_loop k n c o).
Proof using Hn.
  induction k as [|k IH]; intros t o H; cbn [pad_loop replicate]; [by rewrite app_nil_r|].
  destruct (Z.ltb_spec (o_pos o) (n - 1)); [|by apply filled_full].
  change (t ++ c :: replicate k c) with (t ++ [c] ++ replicate k c). rewrite app_assoc. apply IH. by apply filled_put.
Qed.
End Fill.

#[export] Hint Resolve filled_put1 filled_copy filled_pad : kobalt.

(** ** Conversions *)

Lemma pad_n_eq width len : Z.of_nat len <= INT_MAX -> pad_n width len = Z.to_nat (width - Z.of_nat len).
Proof. intros H. unfold pad_n, s32, INT_MAX in *. do 2 f_equal. zlia. Qed.

Lemma va_unsigned_range md z : 0 <= va_unsigned md z < 2 ^ 64.
Proof. unfold va_unsigned, u32, u64. destruct md; zlia. Qed.

Lemma va_signed_range md z : - 2 ^ 63 <= va_signed md z < 2 ^ 63.
Proof. unfold va_signed, s32, s64. destruct md; zlia. Qed.

Section Convert.
Context (n : Z) (b : memory) (Hn : 0 < n) (t : list Z) (o : out) (H : filled n b t o).

Lemma conv_s_filled la width s : arg_ok (AStr s) ->
  filled n b (t ++ field la false width [] (default null_text s)) (conv_s n la width s o).
Proof using Hn H.
  intros Hs. unfold conv_s, field, spaces. cbn [length app Nat.add].
  assert (Z.of_nat (length (default null_text s)) <= INT_MAX) by (destruct s; [done|by vm_compute]).
  rewrite pad_n_eq by done. destruct la; rewrite app_assoc; auto with kobalt.
Qed.

Lemma conv_x_filled la zp width u v : 0 <= v < 2 ^ 64 ->
  filled n b (t ++ field la zp width [] (rev (digits 16 u v))) (conv_x n la zp width u v o).
Proof using Hn H.
  intros Hv. destruct (digits_fit v u Hv) as [_ Hl]. unfold conv_x, field, spaces. cbn [length app Nat.add].
  rewrite length_rev, pad_n_eq by (unfold INT_MAX; lia).
  destruct la; [|destruct zp; cbn [negb andb]]; rewrite app_assoc; auto with kobalt.
Qed.

Lemma conv_d_filled la zp width (neg : bool) v : 0 <= v < 2 ^ 64 ->
  filled n b (t ++ field la zp width (if neg then [45] else []) (dec v)) (conv_d n la zp width neg v o).
Proof using Hn H.
  intros Hv. destruct (digits_fit v false Hv) as [Hl _]. unfold conv_d, field, dec, spaces. rewrite length_rev.
  rewrite pad_n_eq by (unfold INT_MAX; destruct neg; lia).
  rewrite Nat.add_comm. replace (if neg then 1%nat else 0%nat) with (length (if neg then [45] else [])) by by destruct neg.
  destruct la, zp, neg; cbn [negb andb]; rewrite ?app_nil_l, ?app_assoc; auto 6 with kobalt.
Qed.

Lemma conv_p_filled v : 0 <= v < 2 ^ 64 ->
  filled n b (t ++ [48; 120] ++ field false true 16 [] (rev (digits 16 false v))) (conv_p n v o).
Proof using Hn H.
  intros Hv. destruct (digits_fit v false Hv) as [_ Hl]. unfold conv_p, field, spaces. cbn [length Nat.add].
  rewrite length_rev, pad_n_eq by (unfold INT_MAX; lia). cbn [app].
  change (t ++ 48 :: 120 :: ?l) with (t ++ [48] ++ [120] ++ l). rewrite !app_assoc. auto 6 with kobalt.
Qed.

Lemma convert_filled la zp width md k args u args' :
  o_pos o < n - 1 -> Forall arg_ok args -> conv_text la zp width md k args = Some (u, args') ->
  exists o', convert n la zp width md (conv_char k) args o = Some (args', o') /\ filled n b (t ++ u) o' /\ Forall arg_ok args'.
Proof using Hn H.
  intros Hp Ha E. unfold convert. pose proof (va_unsigned_range md) as Ru. pose proof (va_signed_range md) as Rs.
  destruct k as [|up| | | | | |]; cbn [conv_text conv_char] in *; try (destruct args as [|[z|s] args]; [done|..]; try done);
    injection E as <- <-; cbn [Z.eqb Pos.eqb orb].
  - eexists. split; [reflexivity|]. apply Forall_cons in Ha as [Ha1 Ha2]. split; [by apply conv_s_filled|done].
  - apply Forall_cons in Ha as [_ Ha]. destruct up; eexists; (split; [reflexivity|]); (split; [by apply conv_x_filled|done]).
  - apply Forall_cons in Ha as [_ Ha]. eexists. split; [reflexivity|]. split; [|done]. specialize (Rs z).
    destruct (Z.ltb_spec (va_signed md z) 0).
    + rewrite u64_small by lia. rewrite Z.abs_neq by lia. apply (conv_d_filled la zp width true). lia.
    + rewrite Z.abs_eq by lia. apply (conv_d_filled la zp width false). lia.
  - apply Forall_cons in Ha as [_ Ha]. eexists. split; [reflexivity|]. split; [|done]. specialize (Rs z).
    destruct (Z.ltb_spec (va_signed md z) 0).
    + rewrite u64_small by lia. rewrite Z.abs_neq by lia. apply (conv_d_filled la zp width true). lia.
    + rewrite Z.abs_eq by lia. apply (conv_d_filled la zp width false). lia.
  - apply Forall_cons in Ha as [_ Ha]. eexists. split; [reflexivity|]. split; [|done].
    by apply (conv_d_filled la zp width false).
  - apply Forall_cons in Ha as [_ Ha]. rewrite (proj2 (Z.ltb_lt _ _)) by lia. eexists. split; [reflexivity|].
    split; [by apply filled_put|done].
  - apply Forall_cons in Ha as [_ Ha]. eexists. split; [reflexivity|]. split; [apply conv_p_filled; unfold u64; zlia|done].
  - eexists. split; [reflexivity|]. split; [auto with kobalt|done].
Qed.
End Convert.

(** ** Parsing *)

Lemma digits_loop_last fuel : forall v, 0 < v < 2 ^ Z.of_nat fuel ->
  exists c l, rev (digits_loop fuel 10 false v) = c :: l /\ c <> 48.
Proof.
  induction fuel as [|fuel IH]; intros v Hv; [cbn in Hv; lia|]. cbn [digits_loop].
  rewrite (proj2 (Z.ltb_lt _ _)) by lia. cbn [rev]. rewrite Nat2Z.inj_succ, Z.pow_succ_r in Hv by lia.
  destruct (Z.eq_dec (v / 10) 0) as [E|E].
  - rewrite E. exists (digit_char false (v mod 10)), []. split; [by destruct fuel|]. unfold digit_char.
    rewrite (proj2 (Z.ltb_lt _ _)) by (apply Z.mod_pos_bound; lia). zlia.
  - destruct (IH (v / 10)) as (c & l & -> & Hc); [zlia|]. eexists c, _. split; [reflexivity|done].
Qed.

Lemma dec_head v : 0 < v < 2 ^ 64 -> exists c l, dec v = c :: l /\ c <> 48.
Proof.
  intros Hv. unfold dec, digits. rewrite (proj2 (Z.eqb_neq _ _)) by lia. by apply digits_loop_last.
Qed.

Lemma dec_value_ge l : forall acc, Forall (fun c => is_digit c = true) l -> 0 <= acc -> acc <= dec_value acc l.
Proof.
  induction l as [|c l IH]; intros acc Hl Ha; cbn [dec_value]; [lia|]. apply Forall_cons in Hl as [Hc Hl].
  unfold is_digit in Hc. apply andb_prop in Hc as [H1%Z.leb_le H2%Z.leb_le]. specialize (IH (acc * 10 + (c - 48)) Hl ltac:(lia)). lia.
Qed.

Lemma parse_width_spec l rest : forall w, Forall (fun c => is_digit c = true) l -> 0 <= w -> dec_value w l <= INT_MAX ->
  (exists c r, rest = c :: r /\ is_digit c = false) -> parse_width (l ++ rest) w = Some (rest, dec_value w l).
Proof.
  induction l as [|c l IH]; intros w Hl Hw Hv Hr; cbn [app parse_width dec_value] in *.
  - destruct Hr as (c & r & -> & Hc). cbn [parse_width]. by rewrite Hc.
  - apply Forall_cons in Hl as [Hc Hl]. rewrite Hc. unfold is_digit in Hc. apply andb_prop in Hc as [H1%Z.leb_le H2%Z.leb_le].
    pose proof (dec_value_ge l (w * 10 + (c - 48)) Hl ltac:(lia)). rewrite (proj2 (Z.ltb_ge _ _)) by lia. apply IH; [done|lia|done|done].
Qed.

Lemma parse_flags_spec (la zp : bool) rest : (exists c r, rest = c :: r /\ c <> 45 /\ c <> 48) ->
  parse_flags ((if la then [45] else []) ++ (if zp then [48] else []) ++ rest) false false = Some (rest, la, zp).
Proof.
  intros (c & r & -> & H1 & H2). destruct la, zp; cbn [app parse_flags Z.eqb Pos.eqb];
    by rewrite (proj2 (Z.eqb_neq _ _) H1), (proj2 (Z.eqb_neq _ _) H2).
Qed.

Lemma parse_len_spec md k rest : parse_len (mod_text md ++ conv_char k :: rest) = Some (conv_char k :: rest, md).
Proof. destruct md, k as [|[]| | | | | |]; reflexivity. Qed.

(** The text of a modifier and a conversion starts neither with a flag nor
    with a digit. *)
Lemma mod_head md k rest : exists c r, mod_text md ++ conv_char k :: rest = c :: r /\ is_digit c = false /\ c <> 45 /\ c <> 48.
Proof. destruct md, k as [|[]| | | | | |]; (eexists _, _; split; [reflexivity|done]). Qed.

Lemma parse_directive la zp w md k rest : 0 <= w <= INT_MAX ->
  exists f2 f3, parse_flags (tail (item_text (Conv la zp w md k) ++ rest)) false false = Some (f2, la, zp) /\
    parse_width f2 0 = Some (f3, w) /\ parse_len f3 = Some (conv_char k :: rest, md).
Proof.
  intros Hw. cbn [item_text app tail]. destruct (mod_head md k rest) as (c & r & Em & Hd & H1 & H2).
  set (ws := if w =? 0 then nil (A := Z) else dec w). set (f3 := mod_text md ++ conv_char k :: rest).
  assert (Hws : Forall (fun c => is_digit c = true) ws /\ dec_value 0 ws = w).
  { unfold ws. destruct (Z.eqb_spec w 0) as [->|]; [done|]. destruct (dec_spec w); [unfold INT_MAX in *; lia|done]. }
  destruct Hws as [Hf Hv]. exists (ws ++ f3), f3. split_and!.
  - rewrite <- !app_assoc. cbn [app]. fold f3. apply parse_flags_spec. unfold ws.
    destruct (Z.eqb_spec w 0) as [->|]; [by exists c, r|].
    destruct (dec_head w) as (c' & l & E & Hc'); [unfold INT_MAX in *; lia|]. rewrite E. exists c', (l ++ f3).
    split_and!; [done| |done]. intros ->. unfold ws in Hf. rewrite E in Hf. by inversion Hf.
  - rewrite (parse_width_spec ws f3); [by rewrite Hv|done|lia|lia|by exists c, r].
  - apply parse_len_spec.
Qed.

(** ** The whole formatter *)

Lemma vcore_filled n b (Hn : 0 < n) items : Forall item_ok items -> forall fuel args u t o,
  (length items < fuel)%nat -> Forall arg_ok args -> text items args = Some u -> filled n b t o ->
  exists o', vcore_loop fuel n (fmt_of items) args o = Some o' /\ filled n b (t ++ u) o'.
Proof.
  induction 1 as [|it items Hit Hits IH]; intros fuel args u t o Hf Ha Ht H; (destruct fuel as [|fuel]; [cbn in Hf; lia|]).
  { injection Ht as <-. exists o. split; [done|]. by rewrite app_nil_r. }
  assert (Hsplit : fmt_of (it :: items) = item_text it ++ fmt_of items) by (unfold fmt_of; cbn; by rewrite app_assoc).
  rewrite Hsplit. destruct (Z.ltb_spec (o_pos o) (n - 1)) as [Hp|Hp].
  2:{ exists o. split; [|by apply filled_full]. cbn [vcore_loop].
      destruct it as [c|]; cbn [item_text app head mbind option_bind]; rewrite (proj2 (Z.ltb_ge _ _)) by lia; by rewrite orb_true_r. }
  cbn [length] in Hf. destruct it as [c|la zp w md k].
  - destruct Hit as [Hc Hc37]. cbn [text] in Ht. destruct (text items args) as [u'|] eqn:Eu; [|done]. injection Ht as <-.
    cbn [vcore_loop item_text app head tail mbind option_bind].
    rewrite (proj2 (Z.eqb_neq c 0)), (proj2 (Z.ltb_lt _ _)), (proj2 (Z.eqb_neq c 37)) by lia. cbn [negb orb].
    destruct (IH fuel args u' (t ++ [c]) (put o c)) as (o' & E & F); [lia|done|done|by apply filled_put|].
    exists o'. split; [done|]. by rewrite <- app_assoc in F.
  - cbn [text] in Ht. destruct (conv_text la zp w md k args) as [[u1 args']|] eqn:Ec; [|done]. cbn [mbind option_bind] in Ht.
    destruct (text items args') as [u2|] eqn:Eu; [|done]. injection Ht as <-.
    destruct (parse_directive la zp w md k (fmt_of items) Hit) as (f2 & f3 & E1 & E2 & E3).
    destruct (convert_filled n b Hn t o H la zp w md k args u1 args' Hp Ha Ec) as (o1 & E4 & F1 & Ha').
    destruct (IH fuel args' u2 (t ++ u1) o1) as (o' & E & F); [lia|done|done|done|].
    exists o'. split; [|by rewrite <- app_assoc in F]. change (item_text (Conv la zp w md k) ++ fmt_of items)
      with (37 :: tail (item_text (Conv la zp w md k) ++ fmt_of items)).
    cbn [vcore_loop head mbind option_bind]. rewrite (proj2 (Z.ltb_lt _ _)) by lia. cbn [Z.eqb Pos.eqb negb orb].
    change (tail (37 :: ?l)) with l. rewrite E1. cbn [mbind option_bind]. rewrite E2. cbn [mbind option_bind]. rewrite E3.
    cbn [mbind option_bind head tail]. rewrite E4. cbn [mbind option_bind]. exact E.
Qed.

Lemma fmt_of_length items : (length items < length (fmt_of items))%nat.
Proof.
  unfold fmt_of. rewrite length_app. cbn [length]. induction items as [|it items IH]; [cbn; lia|].
  cbn [map concat length]. rewrite length_app. destruct it; cbn [item_text length]; lia.
Qed.

Lemma kfmt_spec (buf : memory) (n : Z) (items : list item) (args : list arg) (t : list Z) :
  0 < n <= 2 ^ 31 -> Forall item_ok items -> Forall arg_ok args -> text items args = Some t ->
  let len := Z.min (Z.of_nat (length t)) (n - 1) in
  exists buf', kfmt_vcore buf n (fmt_of items) args = Some (buf', len) /\
    (forall k, 0 <= k < len -> buf' k = nth (Z.to_nat k) t 0) /\ buf' len = 0 /\
    (forall i, i < 0 \/ len < i -> buf' i = buf i).
Proof.
  intros Hn Hi Ha Ht len. unfold kfmt_vcore. rewrite (proj2 (Z.eqb_neq _ _)) by lia.
  destruct (vcore_filled n buf ltac:(lia) items Hi (S (length (fmt_of items))) args t [] (Out buf 0)) as (o & -> & [F1 F2 F3]);
    [pose proof (fmt_of_length items); lia|done|done|constructor; cbn; [lia|lia|done]|].
  cbn [mbind option_bind app] in *. fold len in F1. rewrite F1 in *.
  exists (upd (o_buf o) len 0). split; [|split; [|split]].
  - do 2 f_equal. unfold s32. rewrite Z.mod_small by lia. lia.
  - intros k Hk. rewrite upd_ne by lia. by apply F2.
  - apply upd_eq.
  - intros i Hi'. rewrite upd_ne by lia. apply F3. lia.
Qed.

(** C31. The formatter returns on every well-formed format whose arguments match.
    The buffer then holds the text cut to [n - 1] bytes and a terminator,
    the result is the number of bytes before it, and no byte outside the
    [n] bytes of the buffer, nor behind the terminator, is written. *)
Theorem kfmt_correct (buf : memory) (n : Z) (items : list item) (args : list arg) (t : list Z) :
  0 < n <= 2 ^ 31 -> Forall item_ok items -> Forall arg_ok args -> text items args = Some t ->
  let len := Z.min (Z.of_nat (length t)) (n - 1) in
  exists buf', kfmt_vcore buf n (fmt_of items) args = Some (buf', len) /\
    (forall k, 0 <= k < len -> buf' k = nth (Z.to_nat k) t 0) /\ buf' len = 0 /\
    (forall i, i < 0 \/ len < i -> buf' i = buf i).
Proof. apply kfmt_spec. Qed.

(** ["x=%-4d|%08x"] *)
Definition sample : list item := [Lit 120; Lit 61; Conv true false 4 LNone CDec; Lit 124; Conv false true 8 LL (CHex false)].

Lemma kfmt_correct_witness :
  exists buf', kfmt_vcore (fun _ => 7) 64 (fmt_of sample) [AInt (-42); AInt 0xBEEF] = Some (buf', 15) /\
    buf' 2 = 45 /\ buf' 15 = 0 /\ buf' 16 = 7.
Proof.
  destruct (kfmt_correct (fun _ => 7) 64 sample [AInt (-42); AInt 0xBEEF]
    [120; 61; 45; 52; 50; 32; 124; 48; 48; 48; 48; 98; 101; 101; 102]) as (buf' & E & H1 & H2 & H3).
  - lia.
  - repeat constructor; cbn; unfold INT_MAX; lia.
  - repeat constructor.
  - reflexivity.
  - exists buf'. split; [exact E|]. split; [apply (H1 2); cbn; lia|]. split; [exact H2|apply H3; cbn; lia].
Defined.

(** ** Printing and reading numbers *)

Lemma atoi_digits_spec m l : forall s res fuel,
  (forall k, 0 <= k < Z.of_nat (length l) -> m (s + k) = nth (Z.to_nat k) l 0) -> is_digit (m (s + Z.of_nat (length l))) = false ->
  Forall (fun c => is_digit c = true) l -> 0 <= res -> dec_value res l <= INT_MAX -> (length l < fuel)%nat ->
  atoi_digits fuel m s res = Some (dec_value res l).
Proof.
  induction l as [|c l IH]; intros s res fuel Hm He Hd Hr Hv Hf; (destruct fuel as [|fuel]; [cbn in Hf; lia|]);
    cbn [atoi_digits dec_value length] in *.
  - rewrite Z.add_0_r in He. by rewrite He.
  - apply Forall_cons in Hd as [Hc Hd]. pose proof (Hm 0 ltac:(lia)) as H0. rewrite Z.add_0_r in H0. change (Z.to_nat 0) with 0%nat in H0. cbn in H0.
    rewrite H0, Hc. unfold is_digit in Hc. apply andb_prop in Hc as [H1%Z.leb_le H2%Z.leb_le].
    pose proof (dec_value_ge l (res * 10 + (c - 48)) Hd ltac:(lia)).
    replace (s32 (res * 10 + (c - 48))) with (res * 10 + (c - 48)) by (unfold s32, INT_MAX in *; rewrite Z.mod_small; lia).
    apply IH; [| |done|lia|done|lia].
    + intros k Hk. specialize (Hm (k + 1) ltac:(lia)). replace (s + 1 + k) with (s + (k + 1)) by lia. rewrite Hm.
      by replace (Z.to_nat (k + 1)) with (S (Z.to_nat k)) by lia.
    + rewrite <- He. do 2 f_equal. lia.
Qed.

(** A number at [s], with or without a sign, in front of a byte that is no
    digit. *)
Lemma atoi_spec m (neg : bool) v fuel : 0 <= v <= INT_MAX ->
  (forall k, 0 <= k < Z.of_nat (length (if neg then 45 :: dec v else dec v)) ->
     m k = nth (Z.to_nat k) (if neg then 45 :: dec v else dec v) 0) ->
  m (Z.of_nat (length (if neg then 45 :: dec v else dec v))) = 0 -> (20 < fuel)%nat ->
  atoi fuel m 0 = Some (if neg then - v else v).
Proof.
  intros Hv Hm He Hf. destruct (dec_spec v) as [Ev Ed]; [unfold INT_MAX in *; lia|].
  assert (Hl : (length (dec v) <= 20)%nat) by (unfold dec; rewrite length_rev; apply (digits_fit v false); unfold INT_MAX in *; lia).
  assert (Hne : exists c l, dec v = c :: l /\ is_digit c = true).
  { destruct (dec v) as [|c l] eqn:E; [|exists c, l; by inversion Ed].
    exfalso. unfold dec, digits in E. destruct (Z.eqb_spec v 0); [done|].
    destruct (digits_loop_last 64 v) as (c & l & E' & _); [unfold INT_MAX in *; lia|]. congruence. }
  destruct Hne as (c & l & Ec & Hc). pose proof Hc as Hc'. unfold is_digit in Hc'. apply andb_prop in Hc' as [C1%Z.leb_le C2%Z.leb_le].
  unfold atoi. destruct fuel as [|fuel]; [lia|]. cbn [skip_spaces].
  assert (H0 : m 0 = if neg then 45 else c).
  { rewrite Hm by (destruct neg; rewrite Ec; cbn [length]; lia). destruct neg; [done|]. by rewrite Ec. }
  rewrite H0. assert (is_space (if neg then 45 else c) = false) as ->.
  { destruct neg; [done|]. unfold is_space. rewrite (proj2 (Z.eqb_neq _ _)), (proj2 (Z.leb_gt c 13)) by lia. by rewrite andb_false_r. }
  cbn [mbind option_bind]. rewrite H0. destruct neg.
  - cbn [Z.eqb Pos.eqb length] in *. change (0 + 1) with 1. rewrite (atoi_digits_spec m (dec v) 1 0 (S fuel)).
    + cbn [mbind option_bind]. rewrite Ev. unfold s32, INT_MAX in *. f_equal. rewrite Z.mod_small; lia.
    + intros k Hk. rewrite Hm by lia. by replace (Z.to_nat (1 + k)) with (S (Z.to_nat k)) by lia.
    + replace (1 + Z.of_nat (length (dec v))) with (Z.of_nat (S (length (dec v)))) by lia. by rewrite He.
    + done.
    + lia.
    + lia.
    + lia.
  - rewrite (proj2 (Z.eqb_neq c 45)), (proj2 (Z.eqb_neq c 43)) by lia. rewrite (atoi_digits_spec m (dec v) 0 0 (S fuel)).
    + cbn [mbind option_bind]. rewrite Ev. unfold s32, INT_MAX in *. f_equal. rewrite Z.mod_small; lia.
    + intros k Hk. rewrite Z.add_0_l. by apply Hm.
    + by rewrite Z.add_0_l, He.
    + done.
    + lia.
    + lia.
    + lia.
Qed.

(** Reading back what was printed: [ksnprintf] of an [int] with [%d] into a
    buffer of at least 22 bytes, followed by [atoi], is the identity. *)
Theorem print_atoi_roundtrip (buf : memory) (n v : Z) (fuel : nat) :
  22 <= n <= 2 ^ 31 -> - INT_MAX <= v <= INT_MAX -> (20 < fuel)%nat ->
  exists buf' len, ksnprintf buf n (fmt_of [Conv false false 0 LNone CDec]) [AInt v] = Some (buf', len) /\
    atoi fuel buf' 0 = Some v.
Proof.
  intros Hn Hv Hf. assert (Es : s32 v = v) by (unfold s32, INT_MAX in *; rewrite Z.mod_small; lia).
  set (t := if v <? 0 then 45 :: dec (Z.abs v) else dec (Z.abs v)).
  assert (Ht : text [Conv false false 0 LNone CDec] [AInt v] = Some t).
  { cbn [text conv_text va_signed mbind option_bind]. rewrite Es. unfold field, t. f_equal. rewrite app_nil_r.
    replace (Z.to_nat (0 - _)) with 0%nat by lia. cbn [spaces replicate app]. by destruct (v <? 0). }
  assert (Hl : (length (dec (Z.abs v)) <= 20)%nat) by (unfold dec; rewrite length_rev; apply (digits_fit _ false); unfold INT_MAX in *; lia).
  assert (Hlt : Z.min (Z.of_nat (length t)) (n - 1) = Z.of_nat (length t)) by (unfold t; destruct (v <? 0); cbn [length]; lia).
  destruct (kfmt_spec buf n [Conv false false 0 LNone CDec] [AInt v] t) as (buf' & E & H1 & H2 & _);
    [lia|repeat constructor; unfold INT_MAX; lia|by repeat constructor|done|].
  cbv zeta in *. rewrite Hlt in *. exists buf', (Z.of_nat (length t)). split; [exact E|].
  rewrite (atoi_spec buf' (v <? 0) (Z.abs v) fuel); [|lia|exact H1|exact H2|done].
  f_equal. destruct (Z.ltb_spec v 0); lia.
Qed.

Lemma print_atoi_roundtrip_witness :
  exists buf' len, ksnprintf (fun _ => 0) 32 (fmt_of [Conv false false 0 LNone CDec]) [AInt (-2026)] = Some (buf', len) /\
    atoi 40 buf' 0 = Some (-2026).
Proof. apply (print_atoi_roundtrip (fun _ => 0) 32 (-2026) 40); [lia|unfold INT_MAX; lia|lia]. Defined.

(** ** Formats that run past their end *)

(** A format whose last byte is a lone [%] makes the loop step over the
    terminator and read on. *)
Theorem trailing_percent_overreads (buf : memory) : kfmt_vcore buf 64 [97; 37; 0] [] = None.
Proof. reflexivity. Qed.

(** ** Log lines *)

(** A store into [char line[96]]; outside the array is [None]. *)
Definition line_set (line : memory) (i c : Z) : option memory :=
  if (0 <=? i) && (i <? 96) then Some (upd line i c) else None.

Fixpoint line_put (line : memory) (n : Z) (l : list Z) : option (memory * Z) :=
  match l with [] => Some (line, n) | c :: l => line ← line_set line n c; line_put line (n + 1) l end.

(** The detail, cut to 36 bytes and two dots when it is longer than 38. *)
Definition shorten (detail : list Z) : list Z :=
  if (38 <? length detail)%nat then take 36 detail ++ [46; 46] else detail.

(** ["  %-28s "] *)
Definition head_fmt : list item := [Lit 32; Lit 32; Conv true false 28 LNone CStr; Lit 32].

(** [klog_colored] up to the terminator of [line]. *)
Definition klog_line (line : memory) (sys detail : list Z) : option memory :=
  '(line, n) ← ksnprintf line 96 (fmt_of head_fmt) [AStr (Some sys)];
  '(line, n) ← line_put line n (shorten detail);
  '(line, n) ← line_put line n (replicate (Z.to_nat (70 - n)) 32);
  line_set line n 0.

(** ["  %-28s %s"] *)
Definition status_fmt : list item := [Lit 32; Lit 32; Conv true false 28 LNone CStr; Lit 32; Conv false false 0 LNone CStr].

(** [klog_status]: the copy of the tag stops at index 92. *)
Definition klog_status (line : memory) (subsys detail tag : list Z) : option memory :=
  '(line, n) ← ksnprintf line 96 (fmt_of status_fmt) [AStr (Some subsys); AStr (Some (shorten detail))];
  '(line, n) ← line_put line n (replicate (Z.to_nat (70 - n)) 32);
  '(line, n) ← line_put line n [91; 32];
  '(line, n) ← line_put line n (take (Z.to_nat (92 - n)) tag);
  '(line, n) ← line_put line n [93; 32; 10];
  line_set line n 0.

Definition holds (line : memory) (t : list Z) : Prop := forall k, 0 <= k < Z.of_nat (length t) -> line k = nth (Z.to_nat k) t 0.

Lemma line_put_holds l : forall line t, holds line t -> Z.of_nat (length t + length l) <= 96 ->
  exists line', line_put line (Z.of_nat (length t)) l = Some (line', Z.of_nat (length (t ++ l))) /\ holds line' (t ++ l).
Proof.
  induction l as [|c l IH]; intros line t H Hl; cbn [line_put length] in *.
  - exists line. rewrite app_nil_r. done.
  - unfold line_set. rewrite (proj2 (Z.leb_le _ _)), (proj2 (Z.ltb_lt _ _)) by lia. cbn [andb mbind option_bind].
    destruct (IH (upd line (Z.of_nat (length t)) c) (t ++ [c])) as (line' & E & H').
    + intros k Hk. rewrite length_app in Hk. cbn [length] in Hk. destruct (Z.eq_dec k (Z.of_nat (length t))) as [->|].
      * by rewrite upd_eq, Nat2Z.id, nth_middle.
      * rewrite upd_ne by done. rewrite H by lia. by rewrite app_nth1 by lia.
    + rewrite length_app. cbn. lia.
    + rewrite length_app in E. cbn [length] in E. replace (Z.of_nat (length t) + 1) with (Z.of_nat (length t + 1)) by lia.
      exists line'. rewrite <- app_assoc in H', E. done.
Qed.

(** The line that [klog_ok] and its siblings print before the badge. *)
Definition klog_text (sys detail : list Z) : list Z :=
  let t := [32; 32] ++ field true false 28 [] sys ++ [32] ++ shorten detail in
  t ++ spaces (Z.to_nat (70 - Z.of_nat (length t))).

Lemma shorten_length detail : (length (shorten detail) <= 38)%nat.
Proof.
  unfold shorten. destruct (Nat.ltb_spec 38 (length detail)); [|lia]. rewrite length_app, length_take. cbn [length]. lia.
Qed.

(** For a subsystem name of at most 54 bytes, whatever the detail, the log
    functions stay inside their 96-byte line, which holds the name in its
    column, the shortened detail and blanks up to column 70. *)
Theorem klog_line_fits (line : memory) (sys detail : list Z) :
  (length sys <= 54)%nat ->
  exists line', klog_line line sys detail = Some line' /\ holds line' (klog_text sys detail) /\
    line' (Z.of_nat (length (klog_text sys detail))) = 0.
Proof.
  intros Hs. set (p := [32; 32] ++ field true false 28 [] sys ++ [32]).
  assert (Hf : (length (field true false 28 [] sys) <= 54)%nat).
  { unfold field, spaces. cbn [app length]. rewrite length_app, length_replicate. lia. }
  assert (Hp : (length p <= 57)%nat) by (unfold p; rewrite !length_app; cbn [length]; lia).
  destruct (kfmt_spec line 96 head_fmt [AStr (Some sys)] p) as (l1 & E1 & H1 & _).
  { lia. } { repeat constructor; unfold INT_MAX; lia. } { repeat constructor. cbn. unfold INT_MAX. lia. } { reflexivity. }
  cbv zeta in *. replace (Z.min (Z.of_nat (length p)) (96 - 1)) with (Z.of_nat (length p)) in * by lia.
  unfold klog_line, ksnprintf. rewrite E1. cbn [mbind option_bind]. pose proof (shorten_length detail) as Hd.
  destruct (line_put_holds (shorten detail) l1 p H1) as (l2 & E2 & H2); [lia|]. rewrite E2. cbn [mbind option_bind].
  set (t := p ++ shorten detail) in *. assert (Ht : (length t <= 95)%nat) by (unfold t; rewrite length_app; lia).
  destruct (line_put_holds (replicate (Z.to_nat (70 - Z.of_nat (length t))) 32) l2 t H2) as (l3 & E3 & H3);
    [rewrite length_replicate; lia|]. rewrite E3. cbn [mbind option_bind]. unfold line_set.
  assert (Ek : t ++ replicate (Z.to_nat (70 - Z.of_nat (length t))) 32 = klog_text sys detail).
  { unfold klog_text. fold (spaces (Z.to_nat (70 - Z.of_nat (length t)))). unfold t, p. by rewrite <- !app_assoc. }
  rewrite Ek in *. assert (Hk : (length (klog_text sys detail) <= 95)%nat) by (rewrite <- Ek, length_app, length_replicate; lia).
  rewrite (proj2 (Z.leb_le _ _)), (proj2 (Z.ltb_lt _ _)) by lia. cbn [andb]. eexists. split; [reflexivity|].
  split; [|apply upd_eq]. intros k Hk'. rewrite upd_ne by lia. by apply H3.
Qed.

Lemma klog_line_fits_witness : exists line', klog_line (fun _ => 0) [116; 121; 107; 105; 100] [111; 107] = Some line' /\ line' 70 = 0.
Proof.
  destruct (klog_line_fits (fun _ => 0) [116; 121; 107; 105; 100] [111; 107]) as (line' & E & _ & Hz).
  - cbn. lia.
  - exists line'. split; [exact E|exact Hz].
Defined.

(** A longer name overruns the array: 60 bytes, with a full detail. *)
Theorem klog_line_overflows (line : memory) : klog_line line (replicate 60 97) (replicate 38 98) = None.
Proof. by vm_compute. Qed.
