(* ===== verification/Rtc.v ===== *)
(** * The real-time clock (kern/rtc.c)

    Reading the CMOS clock and printing a time stamp.  The clock is a
    device: its registers as they stand at each access are a parameter, and
    every access advances the access count.  A clock that never leaves its
    update cycle spins for ever, which is [None].

    The theorems say that a time the clock holds steadily is read back in
    each of its four encodings, 12 o'clock of the 12-hour ones excepted,
    which is read wrongly; and what the printed stamp is. *)

From stdpp Require Import base list.
From Stdlib Require Import ZArith Lia.
From S2P Require Import Prelude CString.

Record rtc_time_t := RTC { t_sec : Z; t_min : Z; t_hour : Z; t_mday : Z; t_mon : Z; t_year : Z }.

Section Clock.
(** Register [reg] at the [k]-th access. *)
Context (cmos : nat -> Z -> Z).

Definition cmos_read (k : nat) (reg : Z) : Z * nat := (u8 (cmos k (Z.land reg 0x7F)), S k).

Fixpoint wait_not_updating (fuel k : nat) : option nat :=
  match fuel with
  | O => None
  | S fuel => let '(a, k) := cmos_read k 0x0A in
              if Z.land a 0x80 =? 0 then Some k else wait_not_updating fuel k
  end.

Definition bcd2bin (v : Z) : Z := u8 (Z.shiftr v 4 * 10 + Z.land v 0x0F).

Definition rtc_read (fuel k : nat) : option (rtc_time_t * nat) :=
  k ← wait_not_updating fuel k;
  let '(sec, k) := cmos_read k 0x00 in
  let '(min, k) := cmos_read k 0x02 in
  let '(hour, k) := cmos_read k 0x04 in
  let '(mday, k) := cmos_read k 0x07 in
  let '(mon, k) := cmos_read k 0x08 in
  let '(yr, k) := cmos_read k 0x09 in
  let '(cent, k) := cmos_read k 0x32 in
  let '(regb, k) := cmos_read k 0x0B in
  let '(sec, min, hour, mday, mon, yr, cent) :=
    if Z.land regb 0x04 =? 0 then
      (bcd2bin sec, bcd2bin min, Z.lor (bcd2bin (Z.land hour 0x7F)) (Z.land hour 0x80),
       bcd2bin mday, bcd2bin mon, bcd2bin yr, bcd2bin cent)
    else (sec, min, hour, mday, mon, yr, cent) in
  let hour := if (Z.land regb 0x02 =? 0) && negb (Z.land hour 0x80 =? 0)
              then u8 ((Z.land hour 0x7F + 12) mod 24) else Z.land hour 0x7F in
  let year := if (0 <? cent) && (cent <=? 99) then u16 (cent * 100 + yr)
              else u16 ((if yr <? 70 then 2000 else 1900) + yr) in
  Some (RTC sec min hour mday mon year, k).
End Clock.

(** ** Printing *)

(** [do { *--p = '0' + v % 10; v /= 10; } while (--w > 0)], [w >= 1]. *)
Fixpoint u2s_loop (w : nat) (m : memory) (p v : Z) : memory :=
  match w with O => m | S w => u2s_loop w (upd m (p - 1) (48 + v mod 10)) (p - 1) (v / 10) end.

Definition u2s (m : memory) (p v : Z) (w : nat) : memory :=
  let p := p + Z.of_nat w in u2s_loop w (upd m p 0) p v.

(** The copy out of [tmp], at most [k] bytes. *)
Fixpoint fmt_copy (k : nat) (tmp buf : memory) (i : Z) : memory * Z :=
  match k with O => (buf, i) | S k => if tmp i =? 0 then (buf, i) else fmt_copy k tmp (upd buf i (tmp i)) (i + 1) end.

Definition rtc_fmt (t : rtc_time_t) (buf : memory) (n : Z) : memory :=
  if n <? 20 then (if n =? 0 then buf else upd buf 0 0) else
  let tmp := u2s (fun _ => 0) 0 (t_year t) 4 in
  let tmp := upd tmp 4 45 in
  let tmp := u2s tmp 5 (t_mon t) 2 in
  let tmp := upd tmp 7 45 in
  let tmp := u2s tmp 8 (t_mday t) 2 in
  let tmp := upd tmp 10 32 in
  let tmp := u2s tmp 11 (t_hour t) 2 in
  let tmp := upd tmp 13 58 in
  let tmp := u2s tmp 14 (t_min t) 2 in
  let tmp := upd tmp 16 58 in
  let tmp := u2s tmp 17 (t_sec t) 2 in
  let tmp := upd tmp 19 0 in
  let '(buf, i) := fmt_copy (Z.to_nat (n - 1)) tmp buf 0 in
  upd buf i 0.

(** ** Reading *)

Record time_ok (t : rtc_time_t) : Prop := {
  to_sec : 0 <= t_sec t < 60; to_min : 0 <= t_min t < 60; to_hour : 0 <= t_hour t < 24;
  to_mday : 1 <= t_mday t <= 31; to_mon : 1 <= t_mon t <= 12; to_year : 100 <= t_year t <= 9999 }.

(** How the clock stores a number, in binary or as two decimal digits. *)
Definition enc (bin : bool) (v : Z) : Z := if bin then v else v / 10 * 16 + v mod 10.

(** How it stores an hour: 12-hour clocks count 12, 1, ..., 11 and set bit 7
    in the afternoon. *)
Definition enc_hour (bin h24 : bool) (h : Z) : Z :=
  if h24 then enc bin h
  else enc bin (if h mod 12 =? 0 then 12 else h mod 12) + (if h <? 12 then 0 else 128).

Definition reg_b (bin h24 : bool) : Z := (if bin then 4 else 0) + (if h24 then 2 else 0).

(** The registers of a clock at rest that shows [t]. *)
Definition shows (bin h24 : bool) (t : rtc_time_t) (reg : Z) : Z :=
  if reg =? 0x00 then enc bin (t_sec t) else if reg =? 0x02 then enc bin (t_min t)
  else if reg =? 0x04 then enc_hour bin h24 (t_hour t) else if reg =? 0x07 then enc bin (t_mday t)
  else if reg =? 0x08 then enc bin (t_mon t) else if reg =? 0x09 then enc bin (t_year t mod 100)
  else if reg =? 0x32 then enc bin (t_year t / 100) else if reg =? 0x0B then reg_b bin h24 else 0.

(** A property of the numbers below [n], checked one by one. *)
Lemma below_check (P : Z -> bool) (n : nat) : forallb (fun k => P (Z.of_nat k)) (seq 0 n) = true ->
  forall v, 0 <= v < Z.of_nat n -> P v = true.
Proof.
  intros H v Hv. rewrite forallb_forall in H. specialize (H (Z.to_nat v)). rewrite Z2Nat.id in H by lia.
  apply H, in_seq. lia.
Qed.

Lemma enc_bcd v : 0 <= v < 100 -> bcd2bin (u8 (enc false v)) = v /\ u8 (enc true v) = v.
Proof.
  intros Hv. pose proof (below_check (fun v => (bcd2bin (u8 (enc false v)) =? v) && (u8 (enc true v) =? v)) 100 eq_refl v Hv) as H.
  apply andb_prop in H as [H1 H2]. lia.
Qed.

(** The hour of the code, from the register. *)
Definition dec_hour (bin h24 : bool) (r : Z) : Z :=
  let h := if bin then r else Z.lor (bcd2bin (Z.land r 0x7F)) (Z.land r 0x80) in
  if negb h24 && negb (Z.land h 0x80 =? 0) then u8 ((Z.land h 0x7F + 12) mod 24) else Z.land h 0x7F.

Lemma enc_hour_dec bin h24 h : 0 <= h < 24 -> h24 = true \/ h mod 12 <> 0 -> dec_hour bin h24 (u8 (enc_hour bin h24 h)) = h.
Proof.
  intros Hh Hx.
  assert (H : (h24 || negb (h mod 12 =? 0)) && negb (dec_hour bin h24 (u8 (enc_hour bin h24 h)) =? h) = false).
  { apply negb_true_iff, (below_check (fun h => negb ((h24 || negb (h mod 12 =? 0)) && negb (dec_hour bin h24 (u8 (enc_hour bin h24 h)) =? h))) 24);
      [|done]. destruct bin, h24; by vm_compute. }
  destruct (Z.eqb_spec (dec_hour bin h24 (u8 (enc_hour bin h24 h))) h) as [|Hne]; [done|]. exfalso. cbn [negb] in H.
  rewrite andb_true_r in H. apply orb_false_iff in H as [-> H]. apply negb_false_iff, Z.eqb_eq in H. by destruct Hx.
Qed.

Lemma wait_ready cmos fuel k j : (forall i, (i < j)%nat -> Z.land (u8 (cmos (k + i)%nat 0x0A)) 0x80 <> 0) ->
  Z.land (u8 (cmos (k + j)%nat 0x0A)) 0x80 = 0 -> (j < fuel)%nat -> wait_not_updating cmos fuel k = Some (k + S j)%nat.
Proof.
  revert k fuel. induction j as [|j IH]; intros k fuel Hb He Hf; (destruct fuel as [|fuel]; [lia|]);
    cbn [wait_not_updating cmos_read]; change (Z.land 0x0A 0x7F) with 0x0A.
  - rewrite Nat.add_0_r in He. rewrite He. f_equal. lia.
  - pose proof (Hb 0%nat ltac:(lia)) as H0. rewrite Nat.add_0_r in H0. rewrite (proj2 (Z.eqb_neq _ _)) by done.
    rewrite (IH (S k)); [f_equal; lia| | |lia].
    + intros i Hi. replace (S k + i)%nat with (k + S i)%nat by lia. apply Hb. lia.
    + by replace (S k + j)%nat with (k + S j)%nat by lia.
Qed.

(** A clock that is busy for [j] accesses and then shows the time [t] is
    read as [t], in binary or decimal, 24-hour or 12-hour mode, except at 12
    o'clock of the 12-hour modes. *)
Theorem rtc_read_correct (cmos : nat -> Z -> Z) (bin h24 : bool) (t : rtc_time_t) (fuel k j : nat) :
  time_ok t -> h24 = true \/ t_hour t mod 12 <> 0 ->
  (forall i, (i < j)%nat -> Z.land (u8 (cmos (k + i)%nat 0x0A)) 0x80 <> 0) ->
  (forall i reg, (k + j <= i)%nat -> cmos i reg = shows bin h24 t reg) -> (j < fuel)%nat ->
  rtc_read cmos fuel k = Some (t, (k + j + 9)%nat).
Proof.
  intros Ht Hh Hb Hs Hf. unfold rtc_read.
  rewrite (wait_ready cmos fuel k j Hb) by (done || by rewrite Hs by lia). cbn [mbind option_bind].
  unfold cmos_read. rewrite !Hs by lia. set (sh := shows bin h24 t).
  destruct t as [sec mi hour mday mon year], Ht as [T1 T2 T3 T4 T5 T6]. cbn [t_sec t_min t_hour t_mday t_mon t_year] in *.
  change (sh (Z.land 0 127)) with (enc bin sec). change (sh (Z.land 2 127)) with (enc bin mi).
  change (sh (Z.land 4 127)) with (enc_hour bin h24 hour). change (sh (Z.land 7 127)) with (enc bin mday).
  change (sh (Z.land 8 127)) with (enc bin mon). change (sh (Z.land 9 127)) with (enc bin (year mod 100)).
  change (sh (Z.land 50 127)) with (enc bin (year / 100)). change (sh (Z.land 11 127)) with (reg_b bin h24). clear sh.
  assert (Hyr : 0 <= year mod 100 < 100) by (apply Z.mod_pos_bound; lia). assert (Hc : 1 <= year / 100 <= 99) by zlia.
  assert (Hy : u16 (year / 100 * 100 + year mod 100) = year) by (unfold u16; rewrite Z.mod_small; zlia).
  pose proof (enc_hour_dec bin h24 hour T3 Hh) as Eh. unfold dec_hour in Eh.
  destruct (enc_bcd sec ltac:(lia)) as [B1 C1], (enc_bcd mi ltac:(lia)) as [B2 C2], (enc_bcd mday ltac:(lia)) as [B3 C3],
    (enc_bcd mon ltac:(lia)) as [B4 C4], (enc_bcd _ Hyr) as [B5 C5], (enc_bcd (year / 100) ltac:(lia)) as [B6 C6].
  replace (k + j + 9)%nat with (S (S (S (S (S (S (S (S (k + S j)))))))))%nat by lia.
  assert (R4 : (Z.land (u8 (reg_b bin h24)) 4 =? 0) = negb bin) by (by destruct bin, h24).
  assert (R2 : (Z.land (u8 (reg_b bin h24)) 2 =? 0) = negb h24) by (by destruct bin, h24).
  rewrite R4, R2. destruct bin; cbn [negb] in *; rewrite Eh;
    [rewrite C1, C2, C3, C4, C5, C6|rewrite B1, B2, B3, B4, B5, B6];
    rewrite (proj2 (Z.ltb_lt 0 _)), (proj2 (Z.leb_le _ 99)) by lia; cbn [andb]; by rewrite Hy.
Qed.

Definition launch : rtc_time_t := RTC 56 34 15 16 11 2026.

Lemma rtc_read_correct_witness : rtc_read (fun i => if (i <? 2)%nat then (fun _ => 0x80) else shows false false launch) 5 0 = Some (launch, 11%nat).
Proof.
  apply (rtc_read_correct (fun i => if (i <? 2)%nat then (fun _ => 0x80) else shows false false launch) false false launch 5 0 2).
  - constructor; cbn; lia.
  - right. cbn. discriminate.
  - intros [|[|i]] Hi; [discriminate|discriminate|lia].
  - intros [|[|i]] reg Hi; [lia|lia|reflexivity].
  - lia.
Defined.

(** In the 12-hour modes noon is read as midnight and midnight as noon. *)
Theorem rtc_twelve_swapped (bin : bool) (k : nat) :
  (exists t k', rtc_read (fun _ => shows bin false (RTC 0 0 12 1 1 2026)) 1 k = Some (t, k') /\ t_hour t = 0) /\
  (exists t k', rtc_read (fun _ => shows bin false (RTC 0 0 0 1 1 2026)) 1 k = Some (t, k') /\ t_hour t = 12).
Proof. destruct bin; split; eexists _, _; (split; [vm_compute; reflexivity|reflexivity]). Qed.

(** ** The time stamp *)

Definition two (v : Z) : list Z := [48 + v / 10 mod 10; 48 + v mod 10].

(** [YYYY-MM-DD HH:MM:SS] *)
Definition stamp (t : rtc_time_t) : list Z :=
  two (t_year t / 100) ++ two (t_year t) ++ [45] ++ two (t_mon t) ++ [45] ++ two (t_mday t) ++ [32] ++
  two (t_hour t) ++ [58] ++ two (t_min t) ++ [58] ++ two (t_sec t).

Lemma fmt_copy_spec tmp l : forall k buf i, cstr tmp i l -> (length l <= k)%nat ->
  exists buf', fmt_copy k tmp buf i = (buf', i + Z.of_nat (length l)) /\
    (forall j, i <= j < i + Z.of_nat (length l) -> buf' j = tmp j) /\
    (forall j, j < i \/ i + Z.of_nat (length l) <= j -> buf' j = buf j).
Proof.
  induction l as [|c l IH]; intros k buf i H Hk; cbn [cstr length] in *.
  - exists buf. rewrite Z.add_0_r. split_and!; [destruct k; cbn [fmt_copy]; [done|by rewrite H]|lia|done].
  - destruct k as [|k]; [lia|]. cbn [fmt_copy]. destruct H as (H0 & Hc & H). rewrite H0, (proj2 (Z.eqb_neq c 0)) by lia.
    destruct (IH k (upd buf i c) (i + 1) H ltac:(lia)) as (buf' & E & H1 & H2). rewrite E.
    exists buf'. split_and!; [f_equal; lia| |].
    + intros j Hj. destruct (Z.eq_dec j i) as [->|]; [rewrite H2, upd_eq by lia; done|]. apply H1. lia.
    + intros j Hj. rewrite H2 by lia. apply upd_ne. lia.
Qed.

(** [rtc_fmt] prints the stamp and a terminator into a buffer of at least 20
    bytes and writes nothing behind it; a smaller buffer gets the empty
    string, and an empty one nothing. *)
Theorem rtc_fmt_correct (t : rtc_time_t) (buf : memory) (n : Z) : 0 <= n ->
  (20 <= n -> cstr (rtc_fmt t buf n) 0 (stamp t) /\ forall i, i < 0 \/ 20 <= i -> rtc_fmt t buf n i = buf i) /\
  (n < 20 -> (0 < n -> rtc_fmt t buf n 0 = 0) /\ forall i, i <> 0 \/ n = 0 -> rtc_fmt t buf n i = buf i).
Proof.
  intros Hn. split; intros H20; unfold rtc_fmt.
  - rewrite (proj2 (Z.ltb_ge _ _)) by lia. set (tmp := upd (u2s _ 17 _ 2) 19 0).
    assert (Hd : forall v, 0 < 48 + v mod 10 < 256) by (intros v; pose proof (Z.mod_pos_bound v 10); lia).
    assert (Hc : cstr tmp 0 (stamp t)).
    { unfold stamp, two. cbn [app cstr]. split_and!; try apply Hd; try lia; try reflexivity.
      - unfold tmp, u2s. cbn. by rewrite !Z.div_div by lia.
      - unfold tmp, u2s. cbn. by rewrite !Z.div_div by lia. }
    destruct (fmt_copy_spec tmp (stamp t) (Z.to_nat (n - 1)) buf 0 Hc) as (buf' & -> & H1 & H2); [cbn; lia|].
    change (0 + Z.of_nat (length (stamp t))) with 19 in *. split.
    + apply (cstr_ext tmp); [|done]. change (Z.of_nat (length (stamp t))) with 19. intros i Hi.
      destruct (Z.eq_dec i 19) as [->|]; [by rewrite upd_eq|]. rewrite upd_ne by done. apply H1. lia.
    + intros i Hi. rewrite upd_ne by lia. apply H2. lia.
  - rewrite (proj2 (Z.ltb_lt _ _)) by lia. destruct (Z.eqb_spec n 0) as [->|]; [split; [lia|done]|].
    split; [intros; apply upd_eq|]. intros i Hi. apply upd_ne. lia.
Qed.

Lemma rtc_fmt_correct_witness : cstr (rtc_fmt launch (fun _ => 7) 32) 0 (stamp launch) /\
  stamp launch = [50; 48; 50; 54; 45; 49; 49; 45; 49; 54; 32; 49; 53; 58; 51; 52; 58; 53; 54].
Proof. split; [apply (rtc_fmt_correct launch (fun _ => 7) 32); lia|reflexivity]. Defined.
