(* ===== verification/TyCrypto.v ===== *)
(** * The kernel's cryptographic primitives (security/tykid/inc/tykid_crypto.h)

    SipHash-2-4 and its 128-bit variant, BLAKE2s with its streaming
    interface, HMAC-BLAKE2s, the ChaCha20 keystream generator, xoshiro256**
    and the entropy pool built from it.  Byte buffers are lists of [Z] in
    [0, 256); a pointer advanced by the code is the list with a prefix
    dropped.  The streaming structures are records with the fields of the
    source ([ty_blake2s_ctx_t], [ty_chacha20_ctx_t], [ty_entropy_pool_t]).
    Zeroing of dead stack buffers is not observable and is left out. *)

From stdpp Require Import base list.
From Stdlib Require Import ZArith Lia.
From S2P Require Import Prelude.

(** ** Words and bytes (tykid_internal.h) *)

Definition byte_at (p : list Z) (i : nat) : Z := nth i p 0.

Definition ty_rotl32 (v n : Z) : Z := Z.lor (u32 (Z.shiftl v n)) (Z.shiftr v (32 - n)).

Definition ty_rotr32 (v n : Z) : Z := Z.lor (Z.shiftr v n) (u32 (Z.shiftl v (32 - n))).

Definition ty_rotl64 (v n : Z) : Z := Z.lor (u64 (Z.shiftl v n)) (Z.shiftr v (64 - n)).

Definition ty_get_u32le (p : list Z) : Z :=
  Z.lor (Z.lor (Z.lor (byte_at p 0) (Z.shiftl (byte_at p 1) 8)) (Z.shiftl (byte_at p 2) 16))
        (Z.shiftl (byte_at p 3) 24).

Definition ty_put_u32le (v : Z) : list Z :=
  [u8 v; u8 (Z.shiftr v 8); u8 (Z.shiftr v 16); u8 (Z.shiftr v 24)].

Definition ty_get_u64le (p : list Z) : Z :=
  Z.lor (ty_get_u32le p) (Z.shiftl (ty_get_u32le (drop 4 p)) 32).

Definition ty_put_u64le (v : Z) : list Z :=
  ty_put_u32le (u32 v) ++ ty_put_u32le (u32 (Z.shiftr v 32)).

(** ** SipHash *)

Definition SIPHASH_MAGIC_0 : Z := 0x736f6d6570736575.
Definition SIPHASH_MAGIC_1 : Z := 0x646f72616e646f6d.
Definition SIPHASH_MAGIC_2 : Z := 0x6c7967656e657261.
Definition SIPHASH_MAGIC_3 : Z := 0x7465646279746573.

Record sipstate := SS { sv0 : Z; sv1 : Z; sv2 : Z; sv3 : Z }.

Definition SIPROUND (s : sipstate) : sipstate :=
  let '(SS v0 v1 v2 v3) := s in
  let v0 := u64 (v0 + v1) in let v1 := ty_rotl64 v1 13 in
  let v1 := Z.lxor v1 v0 in let v0 := ty_rotl64 v0 32 in
  let v2 := u64 (v2 + v3) in let v3 := ty_rotl64 v3 16 in
  let v3 := Z.lxor v3 v2 in
  let v0 := u64 (v0 + v3) in let v3 := ty_rotl64 v3 21 in
  let v3 := Z.lxor v3 v0 in
  let v2 := u64 (v2 + v1) in let v1 := ty_rotl64 v1 17 in
  let v1 := Z.lxor v1 v2 in let v2 := ty_rotl64 v2 32 in
  SS v0 v1 v2 v3.

(** One message word: xor into v3, two rounds, xor into v0. *)
Definition sip_word (s : sipstate) (m : Z) : sipstate :=
  let s1 := SS (sv0 s) (sv1 s) (sv2 s) (Z.lxor (sv3 s) m) in
  let s2 := SIPROUND (SIPROUND s1) in
  SS (Z.lxor (sv0 s2) m) (sv1 s2) (sv2 s2) (sv3 s2).

(** The loop over the whole 8-byte blocks; [p] is the advancing pointer. *)
Fixpoint sip_blocks (blocks : nat) (s : sipstate) (p : list Z) : sipstate * list Z :=
  match blocks with
  | O => (s, p)
  | S b => sip_blocks b (sip_word s (ty_get_u64le p)) (drop 8 p)
  end.

(** The switch on the remaining bytes, fall-through written out. *)
Definition sip_last (len : Z) (p : list Z) : Z :=
  let last := Z.shiftl (Z.land len 255) 56 in
  match Z.land len 7 with
  | 7 => Z.lor (Z.lor (Z.lor (Z.lor last (Z.shiftl (byte_at p 6) 48)) (Z.shiftl (byte_at p 5) 40))
                      (Z.shiftl (byte_at p 4) 32)) (ty_get_u32le p)
  | 6 => Z.lor (Z.lor (Z.lor last (Z.shiftl (byte_at p 5) 40)) (Z.shiftl (byte_at p 4) 32)) (ty_get_u32le p)
  | 5 => Z.lor (Z.lor last (Z.shiftl (byte_at p 4) 32)) (ty_get_u32le p)
  | 4 => Z.lor last (ty_get_u32le p)
  | 3 => Z.lor (Z.lor (Z.lor last (Z.shiftl (byte_at p 2) 16)) (Z.shiftl (byte_at p 1) 8)) (byte_at p 0)
  | 2 => Z.lor (Z.lor last (Z.shiftl (byte_at p 1) 8)) (byte_at p 0)
  | 1 => Z.lor last (byte_at p 0)
  | _ => last
  end.

Definition sip_key (key16 : list Z) : sipstate :=
  let k0 := ty_get_u64le key16 in
  let k1 := ty_get_u64le (drop 8 key16) in
  SS (Z.lxor k0 SIPHASH_MAGIC_0) (Z.lxor k1 SIPHASH_MAGIC_1)
     (Z.lxor k0 SIPHASH_MAGIC_2) (Z.lxor k1 SIPHASH_MAGIC_3).

Definition sip_rounds4 (s : sipstate) : sipstate := SIPROUND (SIPROUND (SIPROUND (SIPROUND s))).

Definition sip_fold (s : sipstate) : Z :=
  Z.lxor (Z.lxor (Z.lxor (sv0 s) (sv1 s)) (sv2 s)) (sv3 s).

Definition ty_siphash24 (key16 data : list Z) : Z :=
  let len := Z.of_nat (length data) in
  let '(s, p) := sip_blocks (Z.to_nat (Z.shiftr len 3)) (sip_key key16) data in
  let s := sip_word s (sip_last len p) in
  sip_fold (sip_rounds4 (SS (sv0 s) (sv1 s) (Z.lxor (sv2 s) 255) (sv3 s))).

Definition ty_siphash128_pub (key16 data : list Z) : list Z :=
  let len := Z.of_nat (length data) in
  let k := sip_key key16 in
  let '(s, p) := sip_blocks (Z.to_nat (Z.shiftr len 3))
                            (SS (sv0 k) (Z.lxor (sv1 k) 0xEE) (sv2 k) (sv3 k)) data in
  let s := sip_word s (sip_last len p) in
  let s := sip_rounds4 (SS (sv0 s) (sv1 s) (Z.lxor (sv2 s) 0xEE) (sv3 s)) in
  let lo := sip_fold s in
  let s := sip_rounds4 (SS (sv0 s) (Z.lxor (sv1 s) 0xDD) (sv2 s) (sv3 s)) in
  ty_put_u64le lo ++ ty_put_u64le (sip_fold s).

(** ** BLAKE2s *)

Definition BLAKE2S_BLOCKBYTES : nat := 64.
Definition BLAKE2S_OUTBYTES : nat := 32.

Definition BLAKE2S_IV : list Z :=
  [0x6A09E667; 0xBB67AE85; 0x3C6EF372; 0xA54FF53A;
   0x510E527F; 0x9B05688C; 0x1F83D9AB; 0x5BE0CD19].

Definition BLAKE2S_SIGMA : list (list nat) :=
  [[ 0; 1; 2; 3; 4; 5; 6; 7; 8; 9;10;11;12;13;14;15];
   [14;10; 4; 8; 9;15;13; 6; 1;12; 0; 2;11; 7; 5; 3];
   [11; 8;12; 0; 5; 2;15;13;10;14; 3; 6; 7; 1; 9; 4];
   [ 7; 9; 3; 1;13;12;11;14; 2; 6; 5;10; 4; 0;15; 8];
   [ 9; 0; 5; 7; 2; 4;10;15;14; 1;11;12; 6; 8; 3;13];
   [ 2;12; 6;10; 0;11; 8; 3; 4;13; 7; 5;15;14; 1; 9];
   [12; 5; 1;15;14;13; 4;10; 0; 7; 6; 3; 9; 2; 8;11];
   [13;11; 7;14;12; 1; 3; 9; 5; 0;15; 4; 8; 6; 2;10];
   [ 6;15;14; 9;11; 3; 0; 8;12; 2;13; 7; 1; 4;10; 5];
   [10; 2; 8; 4; 7; 6; 1; 5;15;11; 9;14; 3;12;13; 0]]%nat.

Record ty_blake2s_ctx_t := B2S {
  b_h : list Z; b_t0 : Z; b_t1 : Z; b_f0 : Z; b_f1 : Z;
  b_buf : list Z; b_buflen : nat; b_outlen : Z }.

Definition B2S_G (r i : nat) (a b c d : nat) (m v : list Z) : list Z :=
  let sg j := byte_at m (nth j (nth r BLAKE2S_SIGMA []) 0%nat) in
  let va := byte_at v a in let vb := byte_at v b in
  let vc := byte_at v c in let vd := byte_at v d in
  let va := u32 (va + vb + sg (2 * i + 0)%nat) in
  let vd := ty_rotr32 (Z.lxor vd va) 16 in
  let vc := u32 (vc + vd) in
  let vb := ty_rotr32 (Z.lxor vb vc) 12 in
  let va := u32 (va + vb + sg (2 * i + 1)%nat) in
  let vd := ty_rotr32 (Z.lxor vd va) 8 in
  let vc := u32 (vc + vd) in
  let vb := ty_rotr32 (Z.lxor vb vc) 7 in
  <[d := vd]> (<[c := vc]> (<[b := vb]> (<[a := va]> v))).

Definition b2s_round (m : list Z) (v : list Z) (r : nat) : list Z :=
  let v := B2S_G r 0 0 4 8 12 m v in
  let v := B2S_G r 1 1 5 9 13 m v in
  let v := B2S_G r 2 2 6 10 14 m v in
  let v := B2S_G r 3 3 7 11 15 m v in
  let v := B2S_G r 4 0 5 10 15 m v in
  let v := B2S_G r 5 1 6 11 12 m v in
  let v := B2S_G r 6 2 7 8 13 m v in
  B2S_G r 7 3 4 9 14 m v.

(** [blake2s_compress] writes only the chaining value [h]. *)
Definition blake2s_compress (S : ty_blake2s_ctx_t) (block : list Z) : ty_blake2s_ctx_t :=
  let m := map (fun i => ty_get_u32le (drop (i * 4) block)) (seq 0 16) in
  let iv i := byte_at BLAKE2S_IV i in
  let v := b_h S ++ [iv 0%nat; iv 1%nat; iv 2%nat; iv 3%nat;
                     Z.lxor (b_t0 S) (iv 4%nat); Z.lxor (b_t1 S) (iv 5%nat);
                     Z.lxor (b_f0 S) (iv 6%nat); Z.lxor (b_f1 S) (iv 7%nat)] in
  let v := fold_left (b2s_round m) (seq 0 10) v in
  let h := map (fun i => Z.lxor (byte_at (b_h S) i) (Z.lxor (byte_at v i) (byte_at v (i + 8)))) (seq 0 8) in
  B2S h (b_t0 S) (b_t1 S) (b_f0 S) (b_f1 S) (b_buf S) (b_buflen S) (b_outlen S).

(** [memcpy(buf + at, src, |src|)]. *)
Definition splice (buf : list Z) (at_ : nat) (src : list Z) : list Z :=
  take at_ buf ++ src ++ drop (at_ + length src) buf.

(** One iteration of the loop of [ty_blake2s_update] on a non-empty input:
    the new context and the input that is left. *)
Definition b2s_update_step (S : ty_blake2s_ctx_t) (inp : list Z) : ty_blake2s_ctx_t * list Z :=
  let left := b_buflen S in
  let fill := (BLAKE2S_BLOCKBYTES - left)%nat in
  if (fill <? length inp)%nat then
    let buf := splice (b_buf S) left (take fill inp) in
    let t0 := u32 (b_t0 S + Z.of_nat BLAKE2S_BLOCKBYTES) in
    let t1 := if t0 <? Z.of_nat BLAKE2S_BLOCKBYTES then u32 (b_t1 S + 1) else b_t1 S in
    (blake2s_compress (B2S (b_h S) t0 t1 (b_f0 S) (b_f1 S) buf 0 (b_outlen S)) buf, drop fill inp)
  else
    (B2S (b_h S) (b_t0 S) (b_t1 S) (b_f0 S) (b_f1 S) (splice (b_buf S) left inp)
         (left + length inp) (b_outlen S), []).

(** The loop; [None] when the fuel runs out. *)
Fixpoint b2s_update_loop (fuel : nat) (S : ty_blake2s_ctx_t) (inp : list Z) : option ty_blake2s_ctx_t :=
  match inp, fuel with
  | [], _ => Some S
  | _, O => None
  | _, Datatypes.S fuel => let '(S', inp') := b2s_update_step S inp in b2s_update_loop fuel S' inp'
  end.

Definition ty_blake2s_update (S : ty_blake2s_ctx_t) (inp : list Z) : option ty_blake2s_ctx_t :=
  b2s_update_loop (length inp + 1) S inp.

Definition ty_blake2s_init (key : list Z) (outlen : Z) : option ty_blake2s_ctx_t :=
  let klen := Z.of_nat (length key) in
  let param0 := Z.lor (Z.lor (Z.lor outlen (Z.shiftl klen 8)) (Z.shiftl 1 16)) (Z.shiftl 1 24) in
  let h := <[0%nat := Z.lxor (byte_at BLAKE2S_IV 0) param0]> BLAKE2S_IV in
  let S := B2S h 0 0 0 0 (replicate 64 0) 0 outlen in
  if 0 <? klen then
    ty_blake2s_update S (splice (replicate 64 0) 0 key)
  else Some S.

(** [ty_blake2s_final] writes (outlen + 3) / 4 words to the output. *)
Definition ty_blake2s_final (S : ty_blake2s_ctx_t) : list Z :=
  let t0 := u32 (b_t0 S + Z.of_nat (b_buflen S)) in
  let t1 := if t0 <? Z.of_nat (b_buflen S) then u32 (b_t1 S + 1) else b_t1 S in
  let buf := take (b_buflen S) (b_buf S) ++ replicate (64 - b_buflen S) 0 in
  let S' := blake2s_compress (B2S (b_h S) t0 t1 0xFFFFFFFF (b_f1 S) buf (b_buflen S) (b_outlen S)) buf in
  concat (map (fun i => ty_put_u32le (byte_at (b_h S') i)) (seq 0 (Z.to_nat ((b_outlen S + 3) / 4)))).

(** ** HMAC-BLAKE2s *)

(** One unkeyed hash over the pieces [xs]: init, an update each, final. *)
Fixpoint b2s_updates (S : ty_blake2s_ctx_t) (xs : list (list Z)) : option ty_blake2s_ctx_t :=
  match xs with
  | [] => Some S
  | x :: xs => S ← ty_blake2s_update S x; b2s_updates S xs
  end.

Definition b2s_hash (outlen : Z) (xs : list (list Z)) : option (list Z) :=
  S ← ty_blake2s_init [] outlen; S ← b2s_updates S xs; Some (ty_blake2s_final S).

Definition ty_hmac_blake2s (key msg : list Z) : option (list Z) :=
  ikey ← (if (64 <? length key)%nat then
            tmp ← b2s_hash 32 [key]; Some (tmp ++ replicate 32 0)
          else Some (key ++ replicate (64 - length key) 0));
  let okey := map (fun b => Z.lxor b 0x5C) ikey in
  let ikey := map (fun b => Z.lxor b 0x36) ikey in
  inner ← b2s_hash 32 [ikey; msg];
  b2s_hash 32 [okey; inner].

(** ** ChaCha20 *)

(** "expand 32-byte k" *)
Definition CHACHA20_SIGMA : list Z :=
  [0x65;0x78;0x70;0x61;0x6e;0x64;0x20;0x33;0x32;0x2d;0x62;0x79;0x74;0x65;0x20;0x6b].

Definition chacha20_qr (ia ib ic id_ : nat) (x : list Z) : list Z :=
  let a := byte_at x ia in let b := byte_at x ib in
  let c := byte_at x ic in let d := byte_at x id_ in
  let a := u32 (a + b) in let d := ty_rotl32 (Z.lxor d a) 16 in
  let c := u32 (c + d) in let b := ty_rotl32 (Z.lxor b c) 12 in
  let a := u32 (a + b) in let d := ty_rotl32 (Z.lxor d a) 8 in
  let c := u32 (c + d) in let b := ty_rotl32 (Z.lxor b c) 7 in
  <[id_ := d]> (<[ic := c]> (<[ib := b]> (<[ia := a]> x))).

Definition chacha20_double (x : list Z) : list Z :=
  let x := chacha20_qr 0 4 8 12 x in
  let x := chacha20_qr 1 5 9 13 x in
  let x := chacha20_qr 2 6 10 14 x in
  let x := chacha20_qr 3 7 11 15 x in
  let x := chacha20_qr 0 5 10 15 x in
  let x := chacha20_qr 1 6 11 12 x in
  let x := chacha20_qr 2 7 8 13 x in
  chacha20_qr 3 4 9 14 x.

Definition chacha20_block (inp : list Z) : list Z :=
  let x := Nat.iter 10 chacha20_double inp in
  map (fun i => u32 (byte_at x i + byte_at inp i)) (seq 0 16).

Record ty_chacha20_ctx_t := CC { c_state : list Z; c_keystream : list Z; c_pos : nat }.

Definition ty_chacha20_init (key nonce : list Z) : ty_chacha20_ctx_t :=
  CC (map (fun i => ty_get_u32le (drop (i * 4) CHACHA20_SIGMA)) (seq 0 4)
      ++ map (fun i => ty_get_u32le (drop (i * 4) key)) (seq 0 8)
      ++ [0; 0; ty_get_u32le nonce; ty_get_u32le (drop 4 nonce)])
     (replicate 64 0) 64.

(** The refill at the head of the loop body. *)
Definition chacha20_refill (c : ty_chacha20_ctx_t) : ty_chacha20_ctx_t :=
  if (64 <=? c_pos c)%nat then
    let ks := concat (map ty_put_u32le (chacha20_block (c_state c))) in
    let s12 := u32 (byte_at (c_state c) 12 + 1) in
    let st := <[12%nat := s12]> (c_state c) in
    let st := if s12 =? 0 then <[13%nat := u32 (byte_at st 13 + 1)]> st else st in
    CC st ks 0
  else c.

Fixpoint ty_chacha20_fill (c : ty_chacha20_ctx_t) (len : nat) : ty_chacha20_ctx_t * list Z :=
  match len with
  | O => (c, [])
  | S n =>
    let c := chacha20_refill c in
    let b := byte_at (c_keystream c) (c_pos c) in
    let '(c', out) := ty_chacha20_fill (CC (c_state c) (c_keystream c) (c_pos c + 1)) n in
    (c', b :: out)
  end.

(** ** The entropy pool *)

(** xoshiro256**: the result and the four state words. *)
Definition xoshiro256ss (s0 s1 s2 s3 : Z) : Z * (Z * Z * Z * Z) :=
  let result := u64 (ty_rotl64 (u64 (s1 * 5)) 7 * 9) in
  let t := u64 (Z.shiftl s1 17) in
  let s2 := Z.lxor s2 s0 in let s3 := Z.lxor s3 s1 in
  let s1 := Z.lxor s1 s2 in let s0 := Z.lxor s0 s3 in
  let s2 := Z.lxor s2 t in
  let s3 := ty_rotl64 s3 45 in
  (result, (s0, s1, s2, s3)).

Record ty_entropy_pool_t := EP { ep_state : list Z; ep_counter : Z; ep_epoch : Z; ep_seeded : bool }.

Definition TYKID_ENTROPY_POOL_BYTES : nat := 64.

(** [raw] is what the entropy callback wrote and [got] the count it
    returned; [seal] is the build constant [__TYKID_KOBALT_EXPECTED]. *)
Definition ty_entropy_seed (has_fn : bool) (got : Z) (raw : list Z) (seal token : Z)
  : option ty_entropy_pool_t :=
  if negb has_fn then None else
  if got <? 32 then None else
  let raw := zip_with Z.lxor raw (ty_put_u64le seal ++ ty_put_u64le token ++ replicate 48 0) in
  let sipk := take 16 raw in
  let lane i :=
    let x := Z.lxor (ty_siphash24 sipk (take 8 (drop (i * 8) raw)))
                    (ty_siphash24 sipk (take 8 (drop ((i + 4) * 8) raw))) in
    if x =? 0 then Z.lxor seal (Z.of_nat i) else x in
  let lo := map lane (seq 0 4) in
  let hi := map (fun i => Z.lxor (ty_rotl64 (byte_at lo i) 37) (byte_at lo i)) (seq 0 4) in
  Some (EP (lo ++ hi) 0 (Z.lxor token seal) true).

Definition ty_entropy_u64 (p : ty_entropy_pool_t) : Z * ty_entropy_pool_t :=
  let s i := byte_at (ep_state p) i in
  let '(r0, (a0, a1, a2, a3)) := xoshiro256ss (s 0%nat) (s 1%nat) (s 2%nat) (s 3%nat) in
  let '(r1, (b0, b1, b2, b3)) := xoshiro256ss (s 4%nat) (s 5%nat) (s 6%nat) (s 7%nat) in
  let ctr := u64 (ep_counter p + 1) in
  (Z.lxor (Z.lxor r0 (ty_rotl64 r1 31)) (ty_rotl64 (u64 (ctr * ep_epoch p)) 17),
   EP [a0; a1; a2; a3; b0; b1; b2; b3] ctr (ep_epoch p) (ep_seeded p)).

(** Whole words first, then the low bytes of one more word. *)
Fixpoint entropy_words (n : nat) (p : ty_entropy_pool_t) : list Z * ty_entropy_pool_t :=
  match n with
  | O => ([], p)
  | S n =>
    let '(v, p) := ty_entropy_u64 p in
    let '(out, p) := entropy_words n p in
    (ty_put_u64le v ++ out, p)
  end.

Definition ty_entropy_fill (p : ty_entropy_pool_t) (len : nat) : list Z * ty_entropy_pool_t :=
  let '(out, p) := entropy_words (len / 8) p in
  let rem := (len mod 8)%nat in
  if (0 <? rem)%nat then
    let '(v, p) := ty_entropy_u64 p in
    (out ++ map (fun i => Z.land (Z.shiftr v (8 * Z.of_nat i)) 255) (seq 0 rem), p)
  else (out, p).

(** "TYKID-HMAC-KEY\001" and "TYKID-SESS-KEY\002" *)
Definition label_a : list Z := [84;89;75;73;68;45;72;77;65;67;45;75;69;89;1].
Definition label_b : list Z := [84;89;75;73;68;45;83;69;83;83;45;75;69;89;2].

(** The keys the gate context receives, its generator and the pool after. *)
Record session_keys := SK {
  sk_hmac_key : list Z; sk_session_key : list Z;
  sk_csprng : ty_chacha20_ctx_t; sk_pool : ty_entropy_pool_t }.

Definition ty_derive_session_keys (boot_token : Z) (p : ty_entropy_pool_t) : option session_keys :=
  let salt := ty_put_u64le boot_token in
  let '(ikm, p) := ty_entropy_fill p 32 in
  prk ← ty_hmac_blake2s salt ikm;
  hk ← ty_hmac_blake2s prk label_a;
  sk ← ty_hmac_blake2s prk label_b;
  let '(n, p) := ty_entropy_u64 p in
  Some (SK hk sk (ty_chacha20_init sk (ty_put_u64le n)) p).
