(* ===== verification/TyCryptoProof.v ===== *)
(** * The cryptographic primitives against their specifications

    BLAKE2s, HMAC, ChaCha20 and SipHash of TyCrypto.v compared with
    one-shot reference definitions that know nothing of buffers, fill
    levels or fall-through switches: RFC 7693's block sequence, RFC 2104's
    nested hash, the keystream as a function of the byte index, and SipHash
    as a fold over the words of the padded message. *)

From stdpp Require Import base list.
From Stdlib Require Import ZArith Lia.
From S2P Require Import Prelude TyCrypto.

(** ** The two-word byte counter *)

Lemma carry_spec N b :
  0 <= N -> 0 <= b < 2 ^ 32 ->
  u32 (u32 N + b) = u32 (N + b) /\
  (if u32 (N + b) <? b then u32 (u32 (N / 2 ^ 32) + 1) else u32 (N / 2 ^ 32)) = u32 ((N + b) / 2 ^ 32).
Proof.
  intros HN Hb. unfold u32. split; [by rewrite Zplus_mod_idemp_l|].
  set (q := N / 2 ^ 32). set (r := N mod 2 ^ 32).
  assert (HNr : N = 2 ^ 32 * q + r) by (apply Z.div_mod; lia).
  assert (Hr : 0 <= r < 2 ^ 32) by (apply Z.mod_pos_bound; lia).
  clearbody q r. subst N.
  replace (2 ^ 32 * q + r + b) with ((r + b) + q * 2 ^ 32) by lia.
  rewrite Z_mod_plus_full, Z.div_add by lia.
  destruct (Z.ltb_spec ((r + b) mod 2 ^ 32) b) as [Hc|Hc].
  - assert ((r + b) / 2 ^ 32 = 1) as -> by zlia.
    rewrite Zplus_mod_idemp_l. f_equal. lia.
  - assert ((r + b) / 2 ^ 32 = 0) as -> by zlia. f_equal; lia.
Qed.

(** ** BLAKE2s: RFC 7693

    Written from the RFC and not from the code: the initial words are
    computed from square roots of primes, the message schedule is read off
    the rows' hexadecimal digits, the mixing function updates the work vector
    one assignment at a time, and the block words, the counter and the digest
    are arithmetic on base 256 and base [2 ^ 32]. *)

(** Section 2.6: the first 32 bits of the fractional parts of the square
    roots of the first eight primes. *)
Definition rfc_iv : list Z := map (fun p => Z.sqrt (p * 2 ^ 64) mod 2 ^ 32) [2; 3; 5; 7; 11; 13; 17; 19].

(** Section 2.7: entry [i] of row [r] is hexadecimal digit [i] of the row,
    the most significant first. *)
Definition rfc_sigma_rows : list Z :=
  [0x0123456789ABCDEF; 0xEA489FD61C02B753; 0xB8C052FDAE367194; 0x7931DCBE265A40F8; 0x905724AFE1BC683D;
   0x2C6A0B834D75FE19; 0xC51FED4A0763928B; 0xDB7EC13950F4862A; 0x6FE9B308C2D714A5; 0xA2847615FB9E3CD0].

Definition rfc_sigma (r i : nat) : nat :=
  Z.to_nat (nth r rfc_sigma_rows 0 / 16 ^ (15 - Z.of_nat i) mod 16).

(** Section 2.3: rotation of a 32-bit word to the right. *)
Definition rfc_rotr (x n : Z) : Z := Z.lor (x / 2 ^ n) (x * 2 ^ (32 - n) mod 2 ^ 32).

(** Section 3.1: the mixing function on entries [a], [b], [c], [d] of the
    work vector, two rounds of the same four assignments. *)
Definition rfc_mix (v : list Z) (a b c d : nat) (x s t : Z) : list Z :=
  let v := <[a := (nth a v 0 + nth b v 0 + x) mod 2 ^ 32]> v in
  let v := <[d := rfc_rotr (Z.lxor (nth d v 0) (nth a v 0)) s]> v in
  let v := <[c := (nth c v 0 + nth d v 0) mod 2 ^ 32]> v in
  <[b := rfc_rotr (Z.lxor (nth b v 0) (nth c v 0)) t]> v.

Definition rfc_G (v : list Z) (a b c d : nat) (x y : Z) : list Z :=
  rfc_mix (rfc_mix v a b c d x 16 12) a b c d y 8 7.

(** The four columns and the four diagonals of the work vector. *)
Definition rfc_lanes : list (nat * nat * nat * nat) :=
  [(0, 4, 8, 12); (1, 5, 9, 13); (2, 6, 10, 14); (3, 7, 11, 15);
   (0, 5, 10, 15); (1, 6, 11, 12); (2, 7, 8, 13); (3, 4, 9, 14)]%nat.

Definition rfc_round (m : nat -> Z) (v : list Z) (r : nat) : list Z :=
  foldl (fun v '(i, (a, b, c, d)) => rfc_G v a b c d (m (rfc_sigma r (2 * i))) (m (rfc_sigma r (2 * i + 1))))
        v (zip (seq 0 8) rfc_lanes).

(** Word [i] of a block, little-endian. *)
Definition rfc_word (block : list Z) (i : nat) : Z :=
  foldr (fun b acc => Z.lor b (acc * 256)) 0 (take 4 (drop (4 * i) block)).

(** Section 3.2: the chaining value after one block, at byte count [t], for
    the last block or an earlier one. *)
Definition rfc_F (h : list Z) (t : Z) (last : bool) (block : list Z) : list Z :=
  let iv i := nth i rfc_iv 0 in
  let v := h ++ [iv 0%nat; iv 1%nat; iv 2%nat; iv 3%nat;
                 Z.lxor (iv 4%nat) (t mod 2 ^ 32); Z.lxor (iv 5%nat) (t / 2 ^ 32 mod 2 ^ 32);
                 if last then Z.lxor (iv 6%nat) (2 ^ 32 - 1) else iv 6%nat; iv 7%nat] in
  let v := foldl (rfc_round (rfc_word block)) v (seq 0 10) in
  imap (fun i x => Z.lxor (Z.lxor x (nth i v 0)) (nth (i + 8) v 0)) h.

(** The chaining value after the first [k] blocks of [m]. *)
Fixpoint ref_h (h0 m : list Z) (k : nat) : list Z :=
  match k with
  | O => h0
  | S k => rfc_F (ref_h h0 m k) (64 * (Z.of_nat k + 1)) false (take 64 (drop (64 * k) m))
  end.

(** Section 2.5: the initial words with the parameter block (digest length,
    key length, fanout and depth one) in the first. *)
Definition ref_init (klen outlen : Z) : list Z :=
  match rfc_iv with
  | iv0 :: ivs => Z.lxor iv0 (Z.lor 0x01010000 (Z.lor (klen * 256) outlen)) :: ivs
  | [] => []
  end.

(** Section 3.3, the digest of [m]: every block but the last at its byte
    count, the last one padded with zeros, counted exactly and flagged; the
    bytes of the chaining value, [outlen] of them rounded up to a whole
    word. *)
Definition ref_digest (h0 : list Z) (outlen : Z) (m : list Z) : list Z :=
  let k := ((length m - 1) / 64)%nat in
  let last := drop (64 * k) m in
  let h := rfc_F (ref_h h0 m k) (Z.of_nat (length m)) true (last ++ replicate (64 - length last) 0) in
  map (fun j => nth (j / 4) h 0 / 256 ^ Z.of_nat (j mod 4) mod 256) (seq 0 (4 * Z.to_nat ((outlen + 3) / 4))).

Definition blake2s_ref (m : list Z) : list Z := ref_digest (ref_init 0 32) 32 m.

(** *** The code's compression is the RFC's *)

Lemma rotr_rfc x n : 0 <= n <= 32 -> ty_rotr32 x n = rfc_rotr x n.
Proof.
  intros Hn. unfold ty_rotr32, rfc_rotr, u32. by rewrite Z.shiftr_div_pow2, Z.shiftl_mul_pow2 by lia.
Qed.

Lemma iv_rfc : BLAKE2S_IV = rfc_iv.
Proof. by vm_compute. Qed.

Lemma sigma_rfc : forall r i, (r < 10)%nat -> (i < 16)%nat -> nth i (nth r BLAKE2S_SIGMA []) 0%nat = rfc_sigma r i.
Proof.
  assert (H : forallb (fun r => forallb (fun i => nth i (nth r BLAKE2S_SIGMA []) 0 =? rfc_sigma r i)%nat (seq 0 16))
                (seq 0 10) = true) by by vm_compute.
  intros r i Hr Hi. rewrite forallb_forall in H. specialize (H r (proj2 (in_seq _ _ _) (conj (Nat.le_0_l r) Hr))).
  rewrite forallb_forall in H. apply Nat.eqb_eq, H, in_seq. lia.
Qed.

Lemma word_rfc block i : ty_get_u32le (drop (i * 4) block) = rfc_word block i.
Proof.
  unfold ty_get_u32le, rfc_word, byte_at. rewrite (Nat.mul_comm 4 i).
  destruct (drop (i * 4) block) as [|b0 [|b1 [|b2 [|b3 bs]]]]; cbn [nth take foldr];
    rewrite ?Z.shiftl_0_l, ?Z.lor_0_r; try done;
    rewrite ?Z.shiftl_lor, <- ?Z.shiftl_mul_pow2 by lia.
  all: change 256 with (2 ^ 8); rewrite <- ?Z.shiftl_mul_pow2 by lia;
    rewrite ?Z.shiftl_lor, ?Z.shiftl_shiftl, ?Z.shiftl_0_l, ?Z.lor_0_r, ?Z.lor_assoc by lia; done.
Qed.

Lemma length_rfc_mix v a b c d x s t : length (rfc_mix v a b c d x s t) = length v.
Proof. unfold rfc_mix. by rewrite !length_insert. Qed.

Lemma length_rfc_G v a b c d x y : length (rfc_G v a b c d x y) = length v.
Proof. unfold rfc_G. by rewrite !length_rfc_mix. Qed.

Lemma length_rfc_round m v r : length (rfc_round m v r) = length v.
Proof. unfold rfc_round. cbn [zip_with seq rfc_lanes foldl]. by rewrite !length_rfc_G. Qed.

(** The code mixes on four locals and stores them at the end. *)
Definition half_mix (va vb vc vd x s t : Z) : Z * Z * Z * Z :=
  let va := (va + vb + x) mod 2 ^ 32 in
  let vd := rfc_rotr (Z.lxor vd va) s in
  let vc := (vc + vd) mod 2 ^ 32 in
  let vb := rfc_rotr (Z.lxor vb vc) t in
  (va, vb, vc, vd).

Definition store4 (v : list Z) (a b c d : nat) (q : Z * Z * Z * Z) : list Z :=
  let '(va, vb, vc, vd) := q in <[d := vd]> (<[c := vc]> (<[b := vb]> (<[a := va]> v))).

Ltac lane_cases i Hi :=
  do 8 (destruct i as [|i]; [injection Hi as <- <- <- <-; cbv beta iota zeta delta [nth insert list_insert]; reflexivity|]);
  discriminate.

Lemma mix_store v a b c d x s t i : length v = 16%nat -> rfc_lanes !! i = Some (a, b, c, d) ->
  rfc_mix v a b c d x s t = store4 v a b c d (half_mix (nth a v 0) (nth b v 0) (nth c v 0) (nth d v 0) x s t).
Proof.
  intros Hv Hi. do 17 (destruct v as [|? v]; try discriminate). unfold rfc_mix, store4, half_mix. lane_cases i Hi.
Qed.

Lemma store4_mix v a b c d q y s t i : length v = 16%nat -> rfc_lanes !! i = Some (a, b, c, d) ->
  rfc_mix (store4 v a b c d q) a b c d y s t
  = store4 v a b c d (let '(va, vb, vc, vd) := q in half_mix va vb vc vd y s t).
Proof.
  intros Hv Hi. destruct q as [[[va vb] vc] vd]. rewrite (mix_store _ a b c d y s t i); [|by unfold store4; rewrite !length_insert|done].
  unfold store4.
  do 17 (destruct v as [|? v]; try discriminate). lane_cases i Hi.
Qed.

Lemma G_rfc r i a b c d m v :
  length v = 16%nat -> (r < 10)%nat -> rfc_lanes !! i = Some (a, b, c, d) ->
  B2S_G r i a b c d m v = rfc_G v a b c d (byte_at m (rfc_sigma r (2 * i))) (byte_at m (rfc_sigma r (2 * i + 1))).
Proof.
  intros Hv Hr Hi. assert (Hi8 : (i < 8)%nat) by apply (lookup_lt_Some _ _ _ Hi).
  unfold rfc_G. rewrite (mix_store v a b c d _ 16 12 i Hv Hi), (store4_mix v a b c d _ _ 8 7 i Hv Hi).
  unfold B2S_G. rewrite !sigma_rfc, !rotr_rfc by lia. rewrite Nat.add_0_r. reflexivity.
Qed.

Lemma rfc_sigma_lt r i : (rfc_sigma r i < 16)%nat.
Proof. unfold rfc_sigma. pose proof (Z.mod_pos_bound (nth r rfc_sigma_rows 0 / 16 ^ (15 - Z.of_nat i)) 16). lia. Qed.

(** Two step functions that agree under an invariant fold alike. *)
Lemma fold_same {A B} (f g : A -> B -> A) (I : A -> Prop) (Q : B -> Prop) v rs :
  (forall v r, I v -> Q r -> f v r = g v r /\ I (g v r)) ->
  I v -> Forall Q rs -> fold_left f rs v = foldl g v rs.
Proof.
  intros H Hv Hrs. revert v Hv. induction Hrs as [|r rs Hr _ IH]; intros v Hv; [done|].
  cbn. destruct (H v r Hv Hr) as [-> Hg]. by apply IH.
Qed.

Section rounds.
  Variables (m : list Z) (w : nat -> Z).
  Hypothesis Hw : forall i, (i < 16)%nat -> byte_at m i = w i.

Lemma round_rfc v r : length v = 16%nat -> (r < 10)%nat -> b2s_round m v r = rfc_round w v r.
Proof.
  intros Hv Hr. unfold b2s_round, rfc_round. cbn [zip_with seq rfc_lanes foldl].
  rewrite (G_rfc r 0), (G_rfc r 1), (G_rfc r 2), (G_rfc r 3), (G_rfc r 4), (G_rfc r 5), (G_rfc r 6), (G_rfc r 7);
    rewrite ?length_rfc_G; try done.
  by rewrite !Hw by apply rfc_sigma_lt.
Qed.

Lemma rounds_rfc v rs :
  length v = 16%nat -> Forall (fun r => r < 10)%nat rs ->
  fold_left (b2s_round m) rs v = foldl (rfc_round w) v rs.
Proof.
  apply (fold_same _ _ (fun v => length v = 16%nat)). intros u r Hu Hr. split; [by apply round_rfc|]. by rewrite length_rfc_round.
Qed.
End rounds.

Lemma compress_rfc h t last f block :
  length h = 8%nat -> f = (if last : bool then 0xFFFFFFFF else 0) ->
  b_h (blake2s_compress (B2S h (u32 t) (u32 (t / 2 ^ 32)) f 0 [] 0 0) block) = rfc_F h t last block.
Proof.
  intros Hh ->. unfold blake2s_compress. cbn [b_h b_t0 b_t1 b_f0 b_f1]. cbv zeta.
  rewrite iv_rfc. rewrite (rounds_rfc _ (rfc_word block)).
  - unfold rfc_F. rewrite (Z.lxor_comm (u32 t)), (Z.lxor_comm (u32 (t / _))), Z.lxor_0_l.
    change (byte_at rfc_iv) with (fun i => nth i rfc_iv 0). cbv beta. unfold u32.
    replace (Z.lxor (if last then 4294967295 else 0) (nth 6 rfc_iv 0))
      with (if last then Z.lxor (nth 6 rfc_iv 0) (2 ^ 32 - 1) else nth 6 rfc_iv 0)
      by (destruct last; by rewrite ?Z.lxor_0_l, 1?Z.lxor_comm).
    generalize (foldl (rfc_round (rfc_word block))
      (h ++ [nth 0 rfc_iv 0; nth 1 rfc_iv 0; nth 2 rfc_iv 0; nth 3 rfc_iv 0;
             Z.lxor (nth 4 rfc_iv 0) (t mod 2 ^ 32); Z.lxor (nth 5 rfc_iv 0) (t / 2 ^ 32 mod 2 ^ 32);
             if last then Z.lxor (nth 6 rfc_iv 0) (2 ^ 32 - 1) else nth 6 rfc_iv 0; nth 7 rfc_iv 0]) (seq 0 10)).
    intros v. do 9 (destruct h as [|? h]; try discriminate). cbn. unfold byte_at. cbn. by rewrite !Z.lxor_assoc.
  - intros i Hi. rewrite <- word_rfc. unfold byte_at.
    rewrite (nth_indep _ _ (ty_get_u32le (drop (0 * 4) block))) by (by rewrite length_map, length_seq).
    rewrite (map_nth (fun i => ty_get_u32le (drop (i * 4) block))), seq_nth by done. done.
  - rewrite length_app, Hh. done.
  - apply Forall_forall. intros r Hr. apply elem_of_seq in Hr. lia.
Qed.

Lemma length_rfc_F h t last block : length (rfc_F h t last block) = length h.
Proof. unfold rfc_F. by rewrite length_imap. Qed.

Lemma length_ref_h h0 m k : length (ref_h h0 m k) = length h0.
Proof. induction k as [|k IH]; [done|]. cbn [ref_h]. by rewrite length_rfc_F. Qed.

(** The code stores the digest a word at a time. *)
Lemma words_bytes h n :
  concat (map (fun i => ty_put_u32le (byte_at h i)) (seq 0 n))
  = map (fun j => nth (j / 4) h 0 / 256 ^ Z.of_nat (j mod 4) mod 256) (seq 0 (4 * n)).
Proof.
  induction n as [|n IH]; [done|]. rewrite seq_S, map_app, concat_app, IH.
  replace (4 * S n)%nat with (4 * n + 4)%nat by lia. rewrite seq_app, map_app. f_equal.
  rewrite !Nat.add_0_l. cbn [map concat seq app]. rewrite app_nil_r. unfold ty_put_u32le, byte_at, u8.
  assert (E : forall j, (j < 4)%nat -> ((4 * n + j) / 4 = n /\ (4 * n + j) mod 4 = j)%nat).
  { intros j Hj. rewrite (Nat.mul_comm 4 n), Nat.div_add_l, Nat.div_small, Nat.add_0_r by lia.
    split; [done|]. rewrite Nat.add_comm, Nat.Div0.mod_add. by apply Nat.mod_small. }
  replace (S (4 * n)) with (4 * n + 1)%nat by lia. replace (S (4 * n + 1)) with (4 * n + 2)%nat by lia.
  replace (S (4 * n + 2)) with (4 * n + 3)%nat by lia.
  destruct (E 0%nat ltac:(lia)) as [D0 M0]. rewrite Nat.add_0_r in D0, M0.
  destruct (E 1%nat ltac:(lia)) as [-> ->], (E 2%nat ltac:(lia)) as [-> ->], (E 3%nat ltac:(lia)) as [-> ->].
  rewrite D0, M0, !Z.shiftr_div_pow2 by lia. rewrite Z.div_1_r. done.
Qed.

Lemma compress_h_ctx h t0 t1 f0 f1 buf n o blk :
  b_h (blake2s_compress (B2S h t0 t1 f0 f1 buf n o) blk) = b_h (blake2s_compress (B2S h t0 t1 f0 f1 [] 0 0) blk).
Proof. reflexivity. Qed.

Lemma compress_ctx h t0 t1 f0 f1 buf n o blk :
  blake2s_compress (B2S h t0 t1 f0 f1 buf n o) blk
  = B2S (b_h (blake2s_compress (B2S h t0 t1 f0 f1 [] 0 0) blk)) t0 t1 f0 f1 buf n o.
Proof. reflexivity. Qed.

Lemma ref_h_S h0 m k :
  ref_h h0 m (S k) = rfc_F (ref_h h0 m k) (64 * (Z.of_nat k + 1)) false (take 64 (drop (64 * k) m)).
Proof. reflexivity. Qed.

Lemma ref_h_app h0 m x k : (64 * k <= length m)%nat -> ref_h h0 (m ++ x) k = ref_h h0 m k.
Proof.
  induction k as [|k IH]; intros Hk; [done|]. rewrite !ref_h_S.
  rewrite IH by lia. rewrite drop_app_le by lia.
  rewrite take_app_le; [done|]. rewrite length_drop. lia.
Qed.

#[local] Opaque blake2s_compress rfc_F.

(** ** BLAKE2s: what a streaming context stands for *)

(** The context has absorbed [k] blocks of [m] and holds the rest of [m] in
    its buffer. *)
Record b2s_repr (h0 : list Z) (o : Z) (k : nat) (m : list Z) (S : ty_blake2s_ctx_t) : Prop := {
  br_h0 : length h0 = 8%nat;
  br_h : b_h S = ref_h h0 m k;
  br_t0 : b_t0 S = u32 (64 * Z.of_nat k);
  br_t1 : b_t1 S = u32 (64 * Z.of_nat k / 2 ^ 32);
  br_f0 : b_f0 S = 0;
  br_f1 : b_f1 S = 0;
  br_buf : length (b_buf S) = 64%nat;
  br_len : (length m = 64 * k + b_buflen S)%nat;
  br_le : (b_buflen S <= 64)%nat;
  br_take : take (b_buflen S) (b_buf S) = drop (64 * k) m;
  br_out : b_outlen S = o }.

(** The last block is never compressed early. *)
Definition b2s_normal (k : nat) (S : ty_blake2s_ctx_t) : Prop := k = 0%nat \/ (0 < b_buflen S)%nat.

Lemma length_splice buf n src : (n + length src <= length buf)%nat -> length (splice buf n src) = length buf.
Proof. intros. unfold splice. rewrite !length_app, length_take, length_drop. lia. Qed.

Lemma take_splice buf n src :
  (n + length src <= length buf)%nat -> take (n + length src) (splice buf n src) = take n buf ++ src.
Proof.
  intros. unfold splice. rewrite app_assoc. rewrite take_app_length'; [done|].
  rewrite length_app, length_take. lia.
Qed.

(** The branch that fills the buffer and compresses it. *)
Lemma update_step_full h0 o k m S inp :
  b2s_repr h0 o k m S -> (64 - b_buflen S < length inp)%nat ->
  let fill := (64 - b_buflen S)%nat in
  exists S', b2s_update_step S inp = (S', drop fill inp) /\
    b2s_repr h0 o (k + 1) (m ++ take fill inp) S' /\ b_buflen S' = 0%nat.
Proof.
  intros R Hlt fill. subst fill. destruct R as [Hh0 Hh Ht0 Ht1 Hf0 Hf1 Hb Hl Hle Htk Ho].
  destruct S as [h t0 t1 f0 f1 buf n o']. cbn [b_h b_t0 b_t1 b_f0 b_f1 b_buf b_buflen b_outlen] in *. subst h t0 t1 f0 f1 o'.
  set (fill := (64 - n)%nat) in *.
  assert (Htf : length (take fill inp) = fill) by (rewrite length_take; lia).
  unfold b2s_update_step. cbn [b_buflen b_buf b_t0 b_t1 b_h b_f0 b_f1 b_outlen].
  change (BLAKE2S_BLOCKBYTES) with 64%nat. fold fill.
  rewrite (proj2 (Nat.ltb_lt fill _) Hlt).
  destruct (carry_spec (64 * Z.of_nat k) 64) as [E0 E1]; [lia|lia|].
  change (Z.of_nat 64) with 64. rewrite E0, E1.
  eexists. split; [reflexivity|]. rewrite compress_ctx. split; [|done].
  assert (Hblk : splice buf n (take fill inp) = drop (64 * k) (m ++ take fill inp)).
  { rewrite drop_app_le by lia. rewrite <- Htk. rewrite <- take_splice by (rewrite Htf; lia).
    symmetry. apply take_ge. rewrite length_splice by (rewrite Htf; lia). rewrite Htf. lia. }
  replace (64 * Z.of_nat k + 64) with (64 * (Z.of_nat k + 1)) by lia.
  constructor; cbn [b_h b_t0 b_t1 b_f0 b_f1 b_buf b_buflen b_outlen]; try done.
  - rewrite Nat.add_1_r, ref_h_S. rewrite ref_h_app by lia.
    rewrite <- (compress_rfc _ _ false 0), <- Hblk by (by rewrite ?length_ref_h). rewrite (take_ge (splice _ _ _)) by (rewrite length_splice by (rewrite Htf; lia); lia). done.
  - f_equal. lia.
  - f_equal. lia.
  - rewrite length_splice by (rewrite Htf; lia). done.
  - rewrite length_app, Htf. lia.
  - lia.
  - rewrite drop_ge; [done|]. rewrite length_app, Htf. lia.
Qed.

(** The branch that only buffers. *)
Lemma update_step_part h0 o k m S inp :
  b2s_repr h0 o k m S -> inp <> [] -> (length inp <= 64 - b_buflen S)%nat ->
  exists S', b2s_update_step S inp = (S', []) /\ b2s_repr h0 o k (m ++ inp) S' /\ b2s_normal k S'.
Proof.
  intros R Hne Hle'. destruct R as [Hh0 Hh Ht0 Ht1 Hf0 Hf1 Hb Hl Hle Htk Ho].
  destruct S as [h t0 t1 f0 f1 buf n o']. cbn [b_h b_t0 b_t1 b_f0 b_f1 b_buf b_buflen b_outlen] in *.
  unfold b2s_update_step. cbn [b_buflen b_buf b_t0 b_t1 b_h b_f0 b_f1 b_outlen].
  change (BLAKE2S_BLOCKBYTES) with 64%nat.
  rewrite (proj2 (Nat.ltb_ge _ _)) by lia.
  eexists. split; [reflexivity|]. split.
  - constructor; cbn [b_h b_t0 b_t1 b_f0 b_f1 b_buf b_buflen b_outlen]; try done.
    + rewrite ref_h_app by lia. done.
    + rewrite length_splice by lia. done.
    + rewrite length_app. lia.
    + lia.
    + rewrite take_splice by lia. rewrite drop_app_le by lia. by rewrite Htk.
  - right. cbn. destruct inp; [done|]. cbn. lia.
Qed.

Lemma update_loop_spec h0 o fuel : forall k m S inp,
  b2s_repr h0 o k m S -> (inp <> [] \/ b2s_normal k S) ->
  (length inp + (if (b_buflen S =? 64)%nat then 1 else 0) <= fuel)%nat ->
  exists k' S', b2s_update_loop fuel S inp = Some S' /\ b2s_repr h0 o k' (m ++ inp) S' /\ b2s_normal k' S'.
Proof.
  induction fuel as [|fuel IH]; intros k m S inp R Hn Hf.
  { destruct inp; [|cbn in Hf; lia]. cbn. exists k, S. rewrite app_nil_r. destruct Hn as [[]|?]; done. }
  destruct inp as [|b inp0].
  { cbn. exists k, S. rewrite app_nil_r. destruct Hn as [[]|?]; done. }
  set (inp := b :: inp0) in *. change (b2s_update_loop (Datatypes.S fuel) S inp)
    with (let '(S', inp') := b2s_update_step S inp in b2s_update_loop fuel S' inp').
  destruct (Nat.lt_ge_cases (64 - b_buflen S) (length inp)) as [Hlt|Hge].
  - destruct (update_step_full _ _ _ _ _ inp R Hlt) as (S' & -> & R' & Hz).
    pose proof (br_le _ _ _ _ _ R) as Hle.
    destruct (IH _ _ S' (drop (64 - b_buflen S) inp) R') as (k' & S'' & HS & R'' & Hn').
    + left. intros E. apply (f_equal length) in E. rewrite length_drop in E. cbn [length] in E. lia.
    + rewrite Hz, length_drop. cbn [Nat.eqb]. destruct (Nat.eqb_spec (b_buflen S) 64); lia.
    + exists k', S''. rewrite <- app_assoc, take_drop in R''. done.
  - destruct (update_step_part _ _ _ _ _ inp R) as (S' & -> & R' & Hn'); [done|lia|].
    exists k, S'. destruct fuel; done.
Qed.

(** Updating a context with [x] appends [x] to the message it stands for. *)
Lemma blake2s_update_spec h0 o k m S x :
  b2s_repr h0 o k m S -> b2s_normal k S ->
  exists k' S', ty_blake2s_update S x = Some S' /\ b2s_repr h0 o k' (m ++ x) S' /\ b2s_normal k' S'.
Proof.
  intros R Hn. apply update_loop_spec with k; [done|by right|].
  destruct (b_buflen S =? 64)%nat; lia.
Qed.

Lemma blake2s_final_spec h0 o k m S :
  b2s_repr h0 o k m S -> b2s_normal k S -> ty_blake2s_final S = ref_digest h0 o m.
Proof.
  intros R Hn. destruct R as [Hh0 Hh Ht0 Ht1 Hf0 Hf1 Hb Hl Hle Htk Ho].
  destruct S as [h t0 t1 f0 f1 buf n o']. cbn [b_h b_t0 b_t1 b_f0 b_f1 b_buf b_buflen b_outlen] in *. subst h t0 t1 f0 f1 o'.
  assert (Hk : ((length m - 1) / 64 = k)%nat).
  { destruct Hn as [->|Hp]; cbn [b_buflen] in *.
    - apply Nat.div_small. lia.
    - symmetry. apply Nat.div_unique with (n - 1)%nat; lia. }
  unfold ref_digest. cbv zeta. rewrite Hk, <- Htk.
  unfold ty_blake2s_final. cbn [b_buflen b_buf b_t0 b_t1 b_h b_f0 b_f1 b_outlen].
  destruct (carry_spec (64 * Z.of_nat k) (Z.of_nat n)) as [E0 E1]; [lia|lia|].
  rewrite E0, E1, compress_ctx. cbn [b_h b_outlen].
  rewrite length_take, Nat.min_l by lia.
  rewrite words_bytes. replace (64 * Z.of_nat k + Z.of_nat n) with (Z.of_nat (length m)) by lia.
  rewrite (compress_rfc _ _ true) by (by rewrite ?length_ref_h). done.
Qed.

(** The code's parameter word in the first initial word. *)
Lemma init_rfc klen o :
  <[0%nat := Z.lxor (byte_at BLAKE2S_IV 0)
       (Z.lor (Z.lor (Z.lor o (Z.shiftl klen 8)) (Z.shiftl 1 16)) (Z.shiftl 1 24))]> BLAKE2S_IV = ref_init klen o.
Proof.
  rewrite iv_rfc. unfold ref_init. destruct rfc_iv as [|iv0 ivs] eqn:E; [done|].
  cbn [insert list_insert byte_at nth]. do 2 f_equal. rewrite Z.shiftl_mul_pow2 by lia.
  rewrite <- !Z.lor_assoc. change (Z.lor (Z.shiftl 1 16) (Z.shiftl 1 24)) with 0x01010000.
  rewrite Z.lor_assoc, Z.lor_comm, (Z.lor_comm o). done.
Qed.

(** A context just initialised stands for the empty message. *)
Lemma fresh_repr klen o :
  b2s_repr (ref_init klen o) o 0 [] (B2S (ref_init klen o) 0 0 0 0 (replicate 64 0) 0 o).
Proof. constructor; try done. cbn. lia. Qed.

(** A fresh unkeyed context stands for the empty message. *)
Lemma blake2s_init_spec o :
  exists S, ty_blake2s_init [] o = Some S /\ b2s_repr (ref_init 0 o) o 0 [] S /\ b2s_normal 0 S.
Proof.
  unfold ty_blake2s_init. cbv zeta. rewrite init_rfc.
  eexists. split; [reflexivity|]. split; [apply fresh_repr|by left].
Qed.

Lemma blake2s_updates_spec h0 o xs : forall k m S,
  b2s_repr h0 o k m S -> b2s_normal k S ->
  exists k' S', b2s_updates S xs = Some S' /\ b2s_repr h0 o k' (m ++ concat xs) S' /\ b2s_normal k' S'.
Proof.
  induction xs as [|x xs IH]; intros k m S R Hn; cbn [b2s_updates concat].
  { exists k, S. by rewrite app_nil_r. }
  destruct (blake2s_update_spec _ _ _ _ _ x R Hn) as (k1 & S1 & E & R1 & Hn1). rewrite E. cbn [mbind option_bind].
  destruct (IH _ _ _ R1 Hn1) as (k2 & S2 & E2 & R2 & Hn2). exists k2, S2. by rewrite app_assoc.
Qed.

Lemma b2s_hash_spec o xs : b2s_hash o xs = Some (ref_digest (ref_init 0 o) o (concat xs)).
Proof.
  unfold b2s_hash. destruct (blake2s_init_spec o) as (S0 & -> & R0 & N0). cbn [mbind option_bind].
  destruct (blake2s_updates_spec _ _ xs _ _ _ R0 N0) as (k & S1 & -> & R1 & N1). cbn [mbind option_bind].
  f_equal. by eapply blake2s_final_spec.
Qed.

(** ** ChaCha20: the keystream as a function of the byte index *)

(** The input block number [n] of the stream: the 64-bit counter is split
    over words 12 and 13. *)
Definition cc_words (key nonce : list Z) (n : Z) : list Z :=
  map (fun i => ty_get_u32le (drop (i * 4) CHACHA20_SIGMA)) (seq 0 4)
  ++ map (fun i => ty_get_u32le (drop (i * 4) key)) (seq 0 8)
  ++ [u32 n; u32 (n / 2 ^ 32); ty_get_u32le nonce; ty_get_u32le (drop 4 nonce)].

Definition cc_keyblock (key nonce : list Z) (n : Z) : list Z :=
  concat (map ty_put_u32le (chacha20_block (cc_words key nonce n))).

Definition cc_stream (key nonce : list Z) (i : nat) : Z :=
  byte_at (cc_keyblock key nonce (Z.of_nat (i / 64))) (i mod 64).

(** A context that has delivered [n] bytes: [b] blocks have been generated
    and [c_pos] bytes of the last one are used up. *)
Definition cc_repr (key nonce : list Z) (n : nat) (c : ty_chacha20_ctx_t) : Prop :=
  exists b : nat,
    c_state c = cc_words key nonce (Z.of_nat b) /\ (n + 64 = 64 * b + c_pos c)%nat /\ (c_pos c <= 64)%nat /\
    ((c_pos c < 64)%nat -> c_keystream c = cc_keyblock key nonce (Z.of_nat b - 1)).

#[local] Opaque chacha20_block.

Lemma cc_words_next key nonce n :
  0 <= n ->
  let s12 := u32 (byte_at (cc_words key nonce n) 12 + 1) in
  let st := <[12%nat := s12]> (cc_words key nonce n) in
  (if s12 =? 0 then <[13%nat := u32 (byte_at st 13 + 1)]> st else st) = cc_words key nonce (n + 1).
Proof.
  intros Hn. destruct (carry_spec n 1) as [E0 E1]; [lia|lia|].
  cbv zeta. change (byte_at (cc_words key nonce n) 12) with (u32 n). rewrite E0.
  change (byte_at (<[12%nat := u32 (n + 1)]> (cc_words key nonce n)) 13) with (u32 (n / 2 ^ 32)).
  assert (Hc : (u32 (n + 1) =? 0) = (u32 (n + 1) <? 1)).
  { pose proof (Z.mod_pos_bound (n + 1) (2 ^ 32)). unfold u32 in *.
    destruct (Z.eqb_spec ((n + 1) mod 2 ^ 32) 0), (Z.ltb_spec ((n + 1) mod 2 ^ 32) 1); lia. }
  rewrite Hc. unfold cc_words at 3. rewrite <- E1. by destruct (_ <? 1).
Qed.

Lemma cc_repr_refill key nonce n c :
  cc_repr key nonce n c ->
  cc_repr key nonce n (chacha20_refill c) /\ (c_pos (chacha20_refill c) < 64)%nat.
Proof.
  intros (b & Hst & Hn & Hp & Hks). unfold chacha20_refill.
  destruct (Nat.leb_spec 64 (c_pos c)) as [Hge|Hlt].
  - split; [|cbn; lia]. rewrite Hst. rewrite cc_words_next by lia.
    exists (b + 1)%nat. cbn [c_state c_pos c_keystream]. split_and!; [|lia|lia|].
    + f_equal. lia.
    + intros _. by replace (Z.of_nat (b + 1) - 1) with (Z.of_nat b) by lia.
  - split; [|done]. by exists b.
Qed.

Lemma cc_repr_byte key nonce n c :
  cc_repr key nonce n c -> (c_pos c < 64)%nat ->
  byte_at (c_keystream c) (c_pos c) = cc_stream key nonce n /\
  cc_repr key nonce (n + 1) (CC (c_state c) (c_keystream c) (c_pos c + 1)).
Proof.
  intros (b & Hst & Hn & Hp & Hks) Hlt. split.
  - rewrite Hks by done. unfold cc_stream.
    assert (n / 64 = b - 1)%nat as -> by (symmetry; apply Nat.div_unique with (c_pos c); lia).
    assert (n mod 64 = c_pos c)%nat as -> by (symmetry; apply Nat.mod_unique with (b - 1)%nat; lia).
    by replace (Z.of_nat (b - 1)) with (Z.of_nat b - 1) by lia.
  - exists b. cbn [c_state c_pos c_keystream]. split_and!; [done|lia|lia|]. intros _. by apply Hks.
Qed.

Lemma chacha20_fill_spec key nonce len : forall n c,
  cc_repr key nonce n c ->
  exists c', ty_chacha20_fill c len = (c', map (cc_stream key nonce) (seq n len)) /\
             cc_repr key nonce (n + len) c'.
Proof.
  induction len as [|len IH]; intros n c R; cbn [ty_chacha20_fill].
  { exists c. by rewrite Nat.add_0_r. }
  destruct (cc_repr_refill _ _ _ _ R) as [R1 Hp].
  destruct (cc_repr_byte _ _ _ _ R1 Hp) as [Hb R2].
  destruct (IH _ _ R2) as (c' & -> & R'). exists c'. rewrite Hb.
  cbn [seq map]. rewrite Nat.add_1_r in *. split; [done|]. by replace (n + S len)%nat with (S n + len)%nat by lia.
Qed.

Lemma chacha20_init_repr key nonce : cc_repr key nonce 0 (ty_chacha20_init key nonce).
Proof. exists 0%nat. split_and!; [reflexivity|reflexivity|reflexivity|]. cbn. lia. Qed.

(** ** SipHash as a fold over the words of the padded message *)

(** Zero padding up to seven bytes, then the length byte. *)
Definition sip_pad (data : list Z) : list Z :=
  data ++ replicate (7 - length data mod 8) 0 ++ [Z.of_nat (length data) mod 256].

Fixpoint le_words (n : nat) (p : list Z) : list Z :=
  match n with O => [] | S n => ty_get_u64le p :: le_words n (drop 8 p) end.

Definition siphash_ref (key16 data : list Z) : Z :=
  let s := fold_left sip_word (le_words (length data / 8 + 1) (sip_pad data)) (sip_key key16) in
  sip_fold (sip_rounds4 (SS (sv0 s) (sv1 s) (Z.lxor (sv2 s) 255) (sv3 s))).

#[local] Opaque sip_word.

Lemma byte_at_app_l p q i : (i < length p)%nat -> byte_at (p ++ q) i = byte_at p i.
Proof. intros. unfold byte_at. by rewrite app_nth1. Qed.

Lemma get_u32le_app p q : (4 <= length p)%nat -> ty_get_u32le (p ++ q) = ty_get_u32le p.
Proof. intros. unfold ty_get_u32le. by rewrite !byte_at_app_l by lia. Qed.

Lemma get_u64le_app p q : (8 <= length p)%nat -> ty_get_u64le (p ++ q) = ty_get_u64le p.
Proof.
  intros. unfold ty_get_u64le. rewrite drop_app_le by lia.
  rewrite !get_u32le_app; [done| |lia]. rewrite length_drop. lia.
Qed.

(** The loop over whole words stops where the padding starts. *)
Lemma sip_blocks_fold q n : forall s p,
  (8 * n <= length p)%nat ->
  fold_left sip_word (le_words (n + 1) (p ++ q)) s
  = (let '(s', p') := sip_blocks n s p in sip_word s' (ty_get_u64le (p' ++ q))).
Proof.
  induction n as [|n IH]; intros s p Hp; [done|].
  cbn [sip_blocks]. change (le_words (S n + 1) (p ++ q)) with (ty_get_u64le (p ++ q) :: le_words (n + 1) (drop 8 (p ++ q))).
  cbn [fold_left]. rewrite get_u64le_app by lia. rewrite drop_app_le by lia.
  rewrite IH; [done|]. rewrite length_drop. lia.
Qed.

Lemma sip_blocks_rest n : forall s p, snd (sip_blocks n s p) = drop (8 * n) p.
Proof.
  induction n as [|n IH]; intros s p; [done|]. cbn [sip_blocks]. rewrite IH, drop_drop. f_equal. lia.
Qed.

(** The switch builds the little-endian word of the padded tail. *)
Lemma sip_last_word len p :
  0 <= len -> length p = Z.to_nat (len mod 8) ->
  ty_get_u64le (p ++ replicate (7 - length p) 0 ++ [len mod 256]) = sip_last len p.
Proof.
  intros Hlen Hp. unfold sip_last.
  change (Z.land len 7) with (Z.land len (2 ^ 3 - 1)). change (Z.land len 255) with (Z.land len (2 ^ 8 - 1)).
  rewrite !land_mask by lia.
  change (2 ^ 3) with 8. change (2 ^ 8) with 256.
  pose proof (Z.mod_pos_bound len 8 ltac:(lia)) as Hb. set (w := len mod 256). clearbody w.
  assert (Hc : forall a b, Z.shiftl (Z.lor a b) 32 = Z.lor (Z.shiftl a 32) (Z.shiftl b 32)) by (intros; apply Z.shiftl_lor).
  assert (Hn : (length p <= 7)%nat) by lia.
  assert (Hr : len mod 8 = Z.of_nat (length p)) by lia. rewrite Hr. clear Hp Hb Hr Hlen.
  do 8 (destruct p as [|? p]; [
    cbv [length Z.of_nat Pos.of_succ_nat Pos.succ Nat.sub replicate app];
    unfold ty_get_u64le, ty_get_u32le, byte_at; cbn [drop nth];
    rewrite ?Hc, ?Z.shiftl_shiftl, ?Z.shiftl_0_l by lia; cbv [Z.add Pos.add Pos.succ Pos.add_carry];
    apply Z.bits_inj'; intros k _; rewrite !Z.lor_spec, ?Z.bits_0, ?orb_false_r;
    repeat match goal with |- context [Z.testbit ?a k] => destruct (Z.testbit a k) end; reflexivity|]).
  cbn [length] in Hn. lia.
Qed.

Lemma siphash_spec key data : ty_siphash24 key data = siphash_ref key data.
Proof.
  set (n := (length data / 8)%nat).
  assert (Hd : (length data = 8 * n + length data mod 8)%nat) by (apply Nat.div_mod; lia).
  assert (Hb : Z.to_nat (Z.shiftr (Z.of_nat (length data)) 3) = n).
  { rewrite Z.shiftr_div_pow2 by lia. change (2 ^ 3) with (Z.of_nat 8). rewrite <- Nat2Z.inj_div. lia. }
  unfold siphash_ref. cbv zeta. fold n. unfold sip_pad. rewrite sip_blocks_fold by lia.
  unfold ty_siphash24. cbv zeta. rewrite Hb.
  pose proof (sip_blocks_rest n (sip_key key) data) as Hrest.
  destruct (sip_blocks n (sip_key key) data) as [s p]. cbn [snd] in Hrest.
  assert (Hp : length p = (length data mod 8)%nat) by (subst p; rewrite length_drop; lia).
  rewrite <- sip_last_word.
  - by rewrite Hp.
  - lia.
  - rewrite Hp. change 8 with (Z.of_nat 8). rewrite <- Nat2Z.inj_mod. lia.
Qed.

(** ** SipHash returns a 64-bit word *)

Abbreviation w64 z := (0 <= z < 2 ^ 64).

Lemma w64_bits z : 0 <= z -> (z < 2 ^ 64 <-> Z.log2 z < 64).
Proof. intros Hz. destruct (Z.eq_dec z 0) as [->|]; [done|]. rewrite (Z.log2_lt_pow2 z 64); [done|lia]. Qed.

Lemma w64_lxor a b : w64 a -> w64 b -> w64 (Z.lxor a b).
Proof.
  intros [Ha Ha'%w64_bits] [Hb Hb'%w64_bits]; [|done..].
  assert (0 <= Z.lxor a b) by (apply Z.lxor_nonneg; lia). split; [done|]. apply w64_bits; [done|].
  pose proof (Z.log2_lxor a b Ha Hb). lia.
Qed.

Lemma w64_lor a b : w64 a -> w64 b -> w64 (Z.lor a b).
Proof.
  intros [Ha Ha'%w64_bits] [Hb Hb'%w64_bits]; [|done..].
  assert (0 <= Z.lor a b) by (apply Z.lor_nonneg; lia). split; [done|]. apply w64_bits; [done|].
  rewrite Z.log2_lor by lia. lia.
Qed.

Lemma w64_u64 z : w64 (u64 z).
Proof. apply Z.mod_pos_bound. lia. Qed.

Lemma w64_shiftr z n : w64 z -> 0 <= n -> w64 (Z.shiftr z n).
Proof.
  intros [H0 H1] Hn. rewrite Z.shiftr_div_pow2 by done. assert (0 < 2 ^ n) by (apply Z.pow_pos_nonneg; lia).
  split; [apply Z.div_pos; lia|]. apply Z.le_lt_trans with z; [|done]. apply Z.div_le_upper_bound; nia.
Qed.

Lemma w64_rotl v n : w64 v -> n <= 64 -> w64 (ty_rotl64 v n).
Proof. intros Hv Hn. apply w64_lor; [apply w64_u64|]. apply w64_shiftr; [done|lia]. Qed.

Definition byte_list (l : list Z) : Prop := Forall (fun b => 0 <= b < 256) l.

Lemma byte_at_range p i : byte_list p -> 0 <= byte_at p i < 256.
Proof.
  intros Hp. unfold byte_at. destruct (nth_in_or_default i p 0) as [Hin|E]; [|rewrite E; lia].
  unfold byte_list in Hp. rewrite Forall_forall in Hp. apply Hp. by apply list_elem_of_In.
Qed.

Lemma byte_list_drop n p : byte_list p -> byte_list (drop n p).
Proof. apply Forall_drop. Qed.

Lemma get_u32le_range p : byte_list p -> 0 <= ty_get_u32le p < 2 ^ 32.
Proof.
  intros Hp. unfold ty_get_u32le.
  pose proof (byte_at_range p 0 Hp). pose proof (byte_at_range p 1 Hp).
  pose proof (byte_at_range p 2 Hp). pose proof (byte_at_range p 3 Hp).
  rewrite (Z.lor_comm (Z.lor _ _) (Z.shiftl _ 24)), (Z.lor_comm (Z.lor _ _) (Z.shiftl _ 16)), (Z.lor_comm _ (Z.shiftl _ 8)).
  rewrite (lor_shift _ _ 8) by lia. rewrite (lor_shift _ _ 16) by lia. rewrite (lor_shift _ _ 24) by lia. lia.
Qed.

Lemma get_u64le_range p : byte_list p -> w64 (ty_get_u64le p).
Proof.
  intros Hp. unfold ty_get_u64le. pose proof (get_u32le_range p Hp).
  pose proof (get_u32le_range _ (byte_list_drop 4 p Hp)).
  rewrite Z.lor_comm, lor_shift by lia. lia.
Qed.

Definition sip_ok (s : sipstate) : Prop := w64 (sv0 s) /\ w64 (sv1 s) /\ w64 (sv2 s) /\ w64 (sv3 s).

#[local] Ltac split4 := refine (conj _ (conj _ (conj _ _))).

Lemma SIPROUND_ok s : sip_ok s -> sip_ok (SIPROUND s).
Proof.
  destruct s as [v0 v1 v2 v3]. unfold sip_ok. cbn [sv0 sv1 sv2 sv3]. intros (H0 & H1 & H2 & H3).
  unfold SIPROUND. cbv zeta. cbn [sv0 sv1 sv2 sv3].
  split4; repeat first [assumption | apply w64_lxor | apply w64_u64 | apply w64_rotl; [|lia]].
Qed.
#[local] Transparent sip_word.

Lemma sip_word_ok s m : sip_ok s -> w64 m -> sip_ok (sip_word s m).
Proof.
  intros Hs Hm. unfold sip_word. cbv zeta.
  assert (H1 : sip_ok (SIPROUND (SIPROUND (SS (sv0 s) (sv1 s) (sv2 s) (Z.lxor (sv3 s) m))))).
  { apply SIPROUND_ok, SIPROUND_ok. destruct Hs as (? & ? & ? & ?). unfold sip_ok. cbn [sv0 sv1 sv2 sv3].
    split4; try assumption. by apply w64_lxor. }
  revert H1. generalize (SIPROUND (SIPROUND (SS (sv0 s) (sv1 s) (sv2 s) (Z.lxor (sv3 s) m)))).
  intros s2 (? & ? & ? & ?). unfold sip_ok. cbn [sv0 sv1 sv2 sv3]. split4; try assumption. by apply w64_lxor.
Qed.
#[local] Opaque sip_word.

Lemma sip_words_ok l : forall s, sip_ok s -> Forall (fun m => w64 m) l -> sip_ok (fold_left sip_word l s).
Proof.
  induction l as [|m l IH]; intros s Hs Hl; [done|]. inversion_clear Hl. cbn [fold_left]. apply IH; [|done].
  by apply sip_word_ok.
Qed.

Lemma le_words_ok n : forall p, byte_list p -> Forall (fun m => w64 m) (le_words n p).
Proof.
  induction n as [|n IH]; intros p Hp; cbn [le_words]; constructor; [by apply get_u64le_range|].
  apply IH. by apply byte_list_drop.
Qed.

Lemma siphash_range key data : byte_list key -> byte_list data -> w64 (ty_siphash24 key data).
Proof.
  intros Hk Hd. rewrite siphash_spec. unfold siphash_ref. cbv zeta.
  assert (Hs : sip_ok (fold_left sip_word (le_words (length data / 8 + 1) (sip_pad data)) (sip_key key))).
  { apply sip_words_ok.
    - pose proof (get_u64le_range key Hk). pose proof (get_u64le_range _ (byte_list_drop 8 key Hk)).
      unfold sip_ok, sip_key. cbn [sv0 sv1 sv2 sv3].
      split4; apply w64_lxor; try assumption; unfold SIPHASH_MAGIC_0, SIPHASH_MAGIC_1, SIPHASH_MAGIC_2, SIPHASH_MAGIC_3; lia.
    - apply le_words_ok. unfold sip_pad. apply Forall_app. split; [done|]. apply Forall_app. split.
      + apply Forall_replicate. lia.
      + constructor; [|constructor]. apply Z.mod_pos_bound. lia. }
  revert Hs. generalize (fold_left sip_word (le_words (length data / 8 + 1) (sip_pad data)) (sip_key key)).
  intros s (H0 & H1 & H2 & H3). unfold sip_rounds4.
  assert (Hf : sip_ok (SIPROUND (SIPROUND (SIPROUND (SIPROUND (SS (sv0 s) (sv1 s) (Z.lxor (sv2 s) 255) (sv3 s))))))).
  { do 4 apply SIPROUND_ok. unfold sip_ok. cbn [sv0 sv1 sv2 sv3]. split4; try assumption.
    apply w64_lxor; [done|lia]. }
  revert Hf. generalize (SIPROUND (SIPROUND (SIPROUND (SIPROUND (SS (sv0 s) (sv1 s) (Z.lxor (sv2 s) 255) (sv3 s)))))).
  intros s2 (? & ? & ? & ?). unfold sip_fold. by repeat apply w64_lxor.
Qed.

(** ** Properties *)

(** C28. BLAKE2s is independent of how the message is cut: feeding any
    sequence of chunks to a fresh context and finalising always returns, and
    returns the digest of the concatenation as RFC 7693 defines it, with the
    two-word byte counter carried correctly at every length. *)
Theorem blake2s_streaming (o : Z) (xs : list (list Z)) :
  b2s_hash o xs = Some (ref_digest (ref_init 0 o) o (concat xs)).
Proof. apply b2s_hash_spec. Qed.

(** The key block of RFC 2104: long keys are hashed, short ones padded. *)
Definition hmac_key_block (key : list Z) : list Z :=
  if (64 <? length key)%nat then blake2s_ref key ++ replicate 32 0
  else key ++ replicate (64 - length key) 0.

Lemma hmac_spec (key msg : list Z) :
  ty_hmac_blake2s key msg
  = Some (let k0 := hmac_key_block key in
          blake2s_ref (map (fun b => Z.lxor b 0x5C) k0
                       ++ blake2s_ref (map (fun b => Z.lxor b 0x36) k0 ++ msg))).
Proof.
  assert (Hk : (if (64 <? length key)%nat then
                  tmp ← b2s_hash 32 [key]; Some (tmp ++ replicate 32 0)
                else Some (key ++ replicate (64 - length key) 0)) = Some (hmac_key_block key)).
  { unfold hmac_key_block. destruct (64 <? length key)%nat; [|done].
    rewrite b2s_hash_spec. cbn [mbind option_bind concat]. by rewrite app_nil_r. }
  unfold ty_hmac_blake2s. rewrite Hk. cbn [mbind option_bind]. cbv zeta.
  rewrite b2s_hash_spec. cbn [mbind option_bind]. rewrite b2s_hash_spec. cbn [concat]. by rewrite !app_nil_r.
Qed.

(** HMAC-BLAKE2s is the nested construction of RFC 2104 over the
    reference digest, for every key length and message, and always returns. *)
Theorem hmac_blake2s_correct (key msg : list Z) :
  ty_hmac_blake2s key msg
  = Some (let k0 := hmac_key_block key in
          blake2s_ref (map (fun b => Z.lxor b 0x5C) k0
                       ++ blake2s_ref (map (fun b => Z.lxor b 0x36) k0 ++ msg))).
Proof. apply hmac_spec. Qed.

(** The generator delivers one keystream however it is asked for it:
    filling [a] bytes and then [b] bytes from a fresh context gives the
    first [a + b] bytes of the ChaCha20 stream, byte [i] taken from block
    [i / 64] under the 64-bit counter held in words 12 and 13. *)
Theorem chacha20_fill_stream (key nonce : list Z) (a b : nat) :
  let '(c1, x) := ty_chacha20_fill (ty_chacha20_init key nonce) a in
  let '(_, y) := ty_chacha20_fill c1 b in
  x ++ y = map (cc_stream key nonce) (seq 0 (a + b)).
Proof.
  destruct (chacha20_fill_spec key nonce a _ _ (chacha20_init_repr key nonce)) as (c1 & -> & R1).
  destruct (chacha20_fill_spec key nonce b _ _ R1) as (c2 & -> & _).
  rewrite seq_app, map_app. done.
Qed.

(** SipHash-2-4 with its word loop and fall-through switch is the fold
    of the compression function over the little-endian words of the message
    padded with zeros and its length byte. *)
Theorem siphash24_padded (key data : list Z) : ty_siphash24 key data = siphash_ref key data.
Proof. apply siphash_spec. Qed.

(** Published test vectors: SipHash-2-4 of 0..14 under key 0..15, the
    128-bit variant of the empty string, BLAKE2s-256 of "abc", and the first
    bytes of the ChaCha20 stream under the zero key. *)
Definition bytes_upto (n : nat) : list Z := map Z.of_nat (seq 0 n).

(** The primitives reproduce their published test vectors. *)
Theorem crypto_test_vectors :
  ty_siphash24 (bytes_upto 16) (bytes_upto 15) = 0xa129ca6149be45e5 /\
  ty_siphash128_pub (bytes_upto 16) [] = [0xa3;0x81;0x7f;0x04;0xba;0x25;0xa8;0xe6;0x6d;0xf6;0x72;0x14;0xc7;0x55;0x02;0x93] /\
  take 8 <$> b2s_hash 32 [[0x61; 0x62; 0x63]] = Some [0x50;0x8c;0x5e;0x8c;0x32;0x7c;0x14;0xe2] /\
  snd (ty_chacha20_fill (ty_chacha20_init (replicate 32 0) (replicate 8 0)) 8)
  = [0x76;0xb8;0xe0;0xad;0xa0;0xf1;0x3d;0x90].
Proof. vm_compute. done. Qed.
