(* ===== verification/Tykid.v ===== *)
(** * TYKID: data shared by the gate's parts

    Status codes, driver states and flags, the descriptors of drivers and
    devices, and the functions on strings and bytes.  C strings are the bytes before the
    terminator; the arrays of a descriptor are the lists of their used
    entries.

    Sources: security/tykid/inc/tykid.h, security/tykid/inc/tykid_internal.h. *)

From stdpp Require Import base list.
From Stdlib Require Import ZArith Lia.
From S2P Require Import Prelude.

(** ** Status codes *)

Definition TYKID_OK : Z := 0.
Definition TYKID_ERR_GENERIC : Z := -1.
Definition TYKID_ERR_SEAL_BROKEN : Z := -2.
Definition TYKID_ERR_NO_DRIVER : Z := -4.
Definition TYKID_ERR_DRIVER_CORRUPT : Z := -5.
Definition TYKID_ERR_PATH : Z := -8.
Definition TYKID_ERR_PERM : Z := -9.
Definition TYKID_ERR_CYCLE : Z := -10.
Definition TYKID_ERR_TIMEOUT : Z := -11.
Definition TYKID_ERR_ALREADY_LOADED : Z := -12.
Definition TYKID_ERR_BLACKLIST : Z := -14.
Definition TYKID_ERR_THREAT_BLOCKED : Z := -16.
Definition TYKID_ERR_NOT_ESSENTIAL : Z := -17.

(** ** Limits *)

Definition TYKID_MAX_DRIVERS : Z := 128.
Definition TYKID_MAX_DEPS : Z := 16.
Definition TYKID_MAX_PATH : Z := 256.
Definition TYKID_MAX_NAME : Z := 64.
Definition TYKID_HMAC_DIGEST_BYTES : Z := 32.

(** ** Drivers and devices *)

Inductive tykid_drv_state_t :=
| TYKID_DRV_STATE_ABSENT
| TYKID_DRV_STATE_PENDING
| TYKID_DRV_STATE_LOADING
| TYKID_DRV_STATE_ACTIVE
| TYKID_DRV_STATE_FAILED
| TYKID_DRV_STATE_SUSPENDED
| TYKID_DRV_STATE_UNLOADED
| TYKID_DRV_STATE_BLOCKED
| TYKID_DRV_STATE_SKIPPED.

#[export] Instance drv_state_eq_dec : EqDecision tykid_drv_state_t.
Proof. solve_decision. Defined.

Definition TYKID_DRV_STATE_REGISTERED : tykid_drv_state_t := TYKID_DRV_STATE_PENDING.

Definition TY_THREAT_NONE : Z := 0.
Definition TY_THREAT_SUSPICIOUS : Z := 1.
Definition TY_THREAT_UNSIGNED : Z := 2.
Definition TY_THREAT_RUBBISH : Z := 3.
Definition TY_THREAT_TAMPERED : Z := 4.
Definition TY_THREAT_UNKNOWN : Z := 5.
Definition TY_THREAT_MALWARE : Z := 6.
Definition TY_THREAT_REVOKED : Z := 7.
Definition TY_THREAT_BLOCK_THRESHOLD : Z := TY_THREAT_RUBBISH.

Definition TYKID_DRV_FLAG_LAZY : Z := 0x2.
Definition TYKID_DRV_FLAG_SINGLETON : Z := 0x4.
Definition TYKID_DRV_FLAG_VERIFIED : Z := 0x8.
Definition TYKID_DRV_FLAG_BLACKLISTED : Z := 0x10.
Definition TYKID_DRV_FLAG_FALLBACK : Z := 0x20.
Definition TYKID_DRV_FLAG_EXCLUSIVE : Z := 0x40.

Definition TYKID_HW_UNKNOWN : Z := 0.

Record tykid_hw_device_t := DEV {
  vendor_id : Z; device_id : Z; class_code : Z; ty_class : Z; dev_irq : Z; mmio_base : Z; mmio_size : Z }.

Record tykid_driver_desc_t := DRV {
  dr_name : list Z; dr_path : list Z; hw_classes : list Z; vendor_mask : Z; device_mask : Z; dr_flags : Z;
  version_major : Z; version_minor : Z; dr_deps : list Z; dr_priority : Z; dr_hmac : list Z;
  dr_state : tykid_drv_state_t; threat_class : Z; load_timestamp : Z; base_vaddr : Z;
  cert_der : list Z; sig_der : list Z }.

(** [flags & bit] *)
Definition has_flag (d : tykid_driver_desc_t) (bit : Z) : bool := negb (Z.land (dr_flags d) bit =? 0).

(** ** Strings *)

Fixpoint ty_strncmp (a b : list Z) (n : nat) : Z :=
  match n with
  | O => 0
  | S n => if negb (hd 0 a =? hd 0 b) then hd 0 a - hd 0 b
           else if hd 0 a =? 0 then 0 else ty_strncmp (tl a) (tl b) n
  end.

(** What the destination holds after [ty_strncpy(dst, src, n)]. *)
Definition ty_strncpy (src : list Z) (n : Z) : list Z := take (Z.to_nat (n - 1)) src.

Definition ty_memeq (a b : list Z) (n : nat) : bool :=
  fold_left (fun diff i => Z.lor diff (Z.lxor (nth i a 0) (nth i b 0))) (seq 0 n) 0 =? 0.

(** ** Lemmas *)

Lemma memeq_refl a n : ty_memeq a a n = true.
Proof.
  unfold ty_memeq. apply Z.eqb_eq. generalize (seq 0 n). intros l. induction l as [|i l IH]; [done|].
  cbn [fold_left]. rewrite Z.lxor_nilpotent. exact IH.
Qed.

Lemma memeq_nth a b n : ty_memeq a b n = true -> forall i, (i < n)%nat -> nth i a 0 = nth i b 0.
Proof.
  unfold ty_memeq. intros H i Hi. apply Z.eqb_eq in H. assert (Hin : In i (seq 0 n)) by (apply in_seq; lia).
  set (f := fun (d : Z) (i : nat) => Z.lor d (Z.lxor (nth i a 0) (nth i b 0))) in *.
  assert (Hz : forall l acc, fold_left f l acc = 0 -> acc = 0).
  { clear. induction l as [|j l IH]; intros acc H; cbn [fold_left] in H; [done|]. apply IH in H. unfold f in H. by apply Z.lor_eq_0_iff in H as [? _]. }
  assert (Hl : forall l acc, fold_left f l acc = 0 -> In i l -> nth i a 0 = nth i b 0).
  { clear - Hz. induction l as [|j l IH]; intros acc H Hin; [done|]. cbn [fold_left] in H. destruct Hin as [->|Hin]; [|by apply (IH _ H)].
    apply Hz in H. unfold f in H. apply Z.lor_eq_0_iff in H as [_ H]. by apply Z.lxor_eq. }
  by apply (Hl _ _ H).
Qed.

(** A C string has no zero byte. *)
Definition cstring (s : list Z) : Prop := Forall (fun c => 0 < c < 256) s.

Lemma cstring_hd s : cstring s -> (hd 0 s =? 0) = bool_decide (s = []).
Proof. intros Hs. destruct Hs as [|c s Hc Hs]; [done|]. cbn [hd]. rewrite bool_decide_false by done. lia. Qed.

Lemma strncmp_eq n : forall a b, cstring a -> cstring b -> (length a < n)%nat -> (length b < n)%nat ->
  ty_strncmp a b n = 0 <-> a = b.
Proof.
  induction n as [|n IH]; intros a b Ha Hb La Lb; [lia|]. cbn [ty_strncmp].
  destruct Ha as [|x a Hx Ha], Hb as [|y b Hy Hb]; cbn [hd tl length] in *.
  - done.
  - rewrite (proj2 (Z.eqb_neq 0 y)) by lia. cbn [negb]. split; [lia|done].
  - rewrite (proj2 (Z.eqb_neq x 0)) by lia. cbn [negb]. split; [lia|done].
  - destruct (Z.eqb_spec x y) as [->|Hne]; cbn [negb]; [|split; [lia|congruence]].
    rewrite (proj2 (Z.eqb_neq y 0)) by lia. rewrite IH by (done || lia). split; congruence.
Qed.

Lemma strncpy_fits s n : Z.of_nat (length s) < n -> ty_strncpy s n = s.
Proof. intros H. apply take_ge. lia. Qed.
