(* ===== verification/TyAudit.v ===== *)
(** * The audit log of TYKID (security/tykid/src/tykid_audit.c)

    A ring of 512 records of 64 bytes.  Each record carries the hash of the
    record before it and a truncated HMAC of its own first 56 bytes.  An
    append holds [g_audit_lock] and is one step of the model.  Verification
    and export take no lock in the code; the model has them run with no append
    in between.  Time stamps are arguments, and the records
    handed to [kobalt_log_critical] are kept in order in [forwarded].

    The theorems: after any sequence of events the ring holds the last 512
    records of the log in order, the chain verifies, and the export returns
    what was asked for; and an altered record that still verifies is a
    forgery of the HMAC and a collision of the hash. *)

From stdpp Require Import base list.
From Stdlib Require Import ZArith Lia.
From S2P Require Import Prelude TyCrypto TyCryptoProof Tykid.

#[local] Opaque ty_hmac_blake2s ty_siphash24.

Definition AEV_INIT_OK : Z := 1.
Definition AEV_SEAL_OK : Z := 0x10.
Definition AEV_SEAL_BROKEN : Z := 0x11.
Definition AEV_DRV_HMAC_FAIL : Z := 0x34.
Definition AEV_WDT_SWEEP_OK : Z := 0x61.
Definition AEV_WDT_SWEEP_FAIL : Z := 0x62.
Definition AEV_LOG_TAMPER : Z := 0x81.

Definition AUDIT_FLAG_NONE : Z := 0.
Definition AUDIT_FLAG_CRITICAL : Z := 1.
Definition AUDIT_FLAG_WRAP : Z := 2.
Definition AUDIT_FLAG_CHAIN_OK : Z := 4.

Definition TY_AUDIT_RING_COUNT : Z := 512.
Definition TY_AUDIT_RING_MASK : Z := TY_AUDIT_RING_COUNT - 1.

Record ty_audit_record_t := REC {
  r_seq : Z; r_event : Z; r_timestamp : Z; r_driver : Z; r_detail_len : Z; r_flags : Z;
  r_detail : list Z; r_prev : list Z; r_hmac : list Z }.

Definition put_u16le (v : Z) : list Z := [u8 v; u8 (Z.shiftr v 8)].

(** The first 56 bytes of the packed record, and all 64. *)
Definition rec_head (r : ty_audit_record_t) : list Z :=
  ty_put_u32le (r_seq r) ++ ty_put_u32le (r_event r) ++ ty_put_u64le (r_timestamp r) ++ ty_put_u32le (r_driver r) ++
  put_u16le (r_detail_len r) ++ put_u16le (r_flags r) ++ r_detail r ++ r_prev r.

Definition rec_bytes (r : ty_audit_record_t) : list Z := rec_head r ++ r_hmac r.

Record ty_audit_ring_t := RING {
  ring : Z -> ty_audit_record_t; head : Z; total_written : Z; wrap_count : Z; last_hash : list Z; chain_epoch : Z;
  initialised : bool; forwarded : list ty_audit_record_t }.

(** The two keys of the gate context. *)
Record keys := KEYS { hmac_key : list Z; session_key : list Z }.

Definition ty_siphash128 (key data : list Z) : list Z :=
  ty_put_u64le (ty_siphash24 (take 16 key) data) ++ ty_put_u64le (ty_siphash24 (take 16 (drop 8 key)) data).

Definition ty_audit_record_hmac (k : keys) (r : ty_audit_record_t) : option (list Z) :=
  digest ← ty_hmac_blake2s (hmac_key k) (rec_head r); Some (take 8 digest).

(** [detail] is [None] for a null pointer. *)
Definition ty_audit_append (k : keys) (st : ty_audit_ring_t) (event driver_id flags : Z) (detail : option (list Z))
    (detail_len timestamp : Z) : option ty_audit_ring_t :=
  if negb (initialised st) then Some st else
  let pos := Z.land (head st) TY_AUDIT_RING_MASK in
  let wrap := (0 <? head st) && (pos =? 0) in
  let old := ring st pos in
  let fwd := if wrap && negb (Z.land (r_flags old) AUDIT_FLAG_CRITICAL =? 0) then forwarded st ++ [old] else forwarded st in
  let fl := if wrap then Z.lor flags AUDIT_FLAG_WRAP else flags in
  let clen := if detail_len <? 16 then detail_len else 16 in
  let det := match detail with
             | Some d => if clen =? 0 then replicate 16 0
                         else take (Z.to_nat clen) d ++ drop (Z.to_nat clen) (r_detail old)
             | None => replicate 16 0
             end in
  let fl := if 0 <? total_written st then Z.lor fl AUDIT_FLAG_CHAIN_OK else fl in
  let rec := REC (total_written st) event timestamp driver_id clen fl det (last_hash st) (r_hmac old) in
  mac ← ty_audit_record_hmac k rec;
  let rec := REC (total_written st) event timestamp driver_id clen fl det (last_hash st) mac in
  Some (RING (upd (ring st) pos rec) (u32 (head st + 1)) (u32 (total_written st + 1))
             (if wrap then u32 (wrap_count st + 1) else wrap_count st)
             (ty_siphash128 (session_key k) (rec_bytes rec)) (u64 (chain_epoch st + 1)) true
             (if Z.land flags AUDIT_FLAG_CRITICAL =? 0 then fwd else fwd ++ [rec])).

Definition zero_rec : ty_audit_record_t := REC 0 0 0 0 0 0 (replicate 16 0) (replicate 16 0) (replicate 8 0).

Definition ty_audit_init (k : keys) (fwd : list ty_audit_record_t) (timestamp : Z) : option ty_audit_ring_t :=
  ty_audit_append k (RING (fun _ => zero_rec) 0 0 0 (replicate 16 0) 0 true fwd) AEV_INIT_OK 0xFFFFFFFF AUDIT_FLAG_NONE None 0 timestamp.

(** [count] and [start] of the two readers. *)
Definition ring_count (st : ty_audit_ring_t) : Z :=
  if total_written st <? TY_AUDIT_RING_COUNT then total_written st else TY_AUDIT_RING_COUNT.
Definition ring_start (st : ty_audit_ring_t) : Z := if TY_AUDIT_RING_COUNT <=? total_written st then head st else 0.

Definition ring_at (st : ty_audit_ring_t) (i : nat) : ty_audit_record_t :=
  ring st (Z.land (u32 (ring_start st + Z.of_nat i)) TY_AUDIT_RING_MASK).

(** The loop of [ty_audit_verify_chain]: the number of errors. *)
Fixpoint verify_loop (n i : nat) (k : keys) (st : ty_audit_ring_t) (prev : list Z) (first : bool) (errors : Z) : option Z :=
  match n with
  | O => Some errors
  | S n =>
    let rec := ring_at st i in
    expected ← ty_audit_record_hmac k rec;
    let errors := if ty_memeq (r_hmac rec) expected 8 then errors else errors + 1 in
    let errors := if negb first && negb (ty_memeq (r_prev rec) prev 16) then errors + 1 else errors in
    verify_loop n (S i) k st (ty_siphash128 (session_key k) (rec_bytes rec)) false errors
  end.

(** The status is [true] for [TYKID_OK] and [false] for
    [TYKID_ERR_DRIVER_CORRUPT]. *)
Definition ty_audit_verify_chain (k : keys) (st : ty_audit_ring_t) (timestamp : Z) : option (bool * ty_audit_ring_t) :=
  if negb (initialised st) || (total_written st =? 0) then Some (true, st) else
  errors ← verify_loop (Z.to_nat (ring_count st)) 0 k st (replicate 16 0) true 0;
  if errors =? 0 then Some (true, st)
  else st ← ty_audit_append k st AEV_LOG_TAMPER 0xFFFFFFFF AUDIT_FLAG_CRITICAL None 0 timestamp; Some (false, st).

Fixpoint export_loop (n i : nat) (st : ty_audit_ring_t) (start_seq : Z) (cap : nat) : list ty_audit_record_t :=
  match n, cap with
  | O, _ | _, O => []
  | S n', S cap' =>
    let rec := ring_at st i in
    if start_seq <=? r_seq rec then rec :: export_loop n' (S i) st start_seq cap' else export_loop n' (S i) st start_seq cap
  end.

(** [seal] is the result of [tykid_verify_seal]; the buffer is not null. *)
Definition tykid_audit_export (st : ty_audit_ring_t) (seal start_seq cap : Z) : Z + list ty_audit_record_t :=
  if cap =? 0 then inl TYKID_ERR_GENERIC else
  if negb (seal =? TYKID_OK) then inl seal else
  inr (export_loop (Z.to_nat (ring_count st)) 0 st start_seq (Z.to_nat cap)).

Definition ty_audit_driver_event (k : keys) (st : ty_audit_ring_t) (event drv_id : Z) (name : list Z) (timestamp : Z) : option ty_audit_ring_t :=
  let nlen := if (16 <? length name)%nat then 16%nat else length name in
  let detail := take nlen name ++ replicate (16 - nlen) 0 in
  let fl := if AEV_DRV_HMAC_FAIL <=? event then AUDIT_FLAG_CRITICAL else AUDIT_FLAG_NONE in
  ty_audit_append k st event drv_id fl (Some detail) (Z.of_nat nlen) timestamp.

Definition ty_audit_seal_event (k : keys) (st : ty_audit_ring_t) (broken : bool) (timestamp : Z) : option ty_audit_ring_t :=
  ty_audit_append k st (if broken then AEV_SEAL_BROKEN else AEV_SEAL_OK) 0xFFFFFFFF
    (if broken then AUDIT_FLAG_CRITICAL else AUDIT_FLAG_NONE) None 0 timestamp.

Definition ty_audit_wdt_event (k : keys) (st : ty_audit_ring_t) (ok : bool) (n timestamp : Z) : option ty_audit_ring_t :=
  ty_audit_append k st (if ok then AEV_WDT_SWEEP_OK else AEV_WDT_SWEEP_FAIL) 0xFFFFFFFF
    (if ok then AUDIT_FLAG_NONE else AUDIT_FLAG_CRITICAL) (Some (ty_put_u64le n)) 8 timestamp.

(** ** The log as a list *)

Definition rec_hash (k : keys) (r : ty_audit_record_t) : list Z := ty_siphash128 (session_key k) (rec_bytes r).

(** Every record carries a valid HMAC, its position and the hash of the one
    before it. *)
Definition linked (k : keys) (L : list ty_audit_record_t) : Prop :=
  forall i r, L !! i = Some r ->
    ty_audit_record_hmac k r = Some (r_hmac r) /\ r_seq r = Z.of_nat i /\
    r_prev r = match i with O => replicate 16 0 | S j => default [] (rec_hash k <$> L !! j) end.

(** The ring holds the last 512 records of [L]. *)
Record holds_log (k : keys) (L : list ty_audit_record_t) (st : ty_audit_ring_t) : Prop := {
  hl_init : initialised st = true;
  hl_size : Z.of_nat (length L) < 2 ^ 32;
  hl_head : head st = Z.of_nat (length L);
  hl_total : total_written st = Z.of_nat (length L);
  hl_ring : forall i r, L !! i = Some r -> Z.of_nat (length L) - 512 <= Z.of_nat i -> ring st (Z.of_nat i mod 512) = r;
  hl_last : last_hash st = match last L with Some r => rec_hash k r | None => replicate 16 0 end;
  hl_linked : linked k L }.

Lemma mask_mod x : 0 <= x -> Z.land x TY_AUDIT_RING_MASK = x mod 512.
Proof. intros. change TY_AUDIT_RING_MASK with (Z.ones 9). by rewrite Z.land_ones. Qed.

Lemma record_hmac_some k r : exists mac, ty_audit_record_hmac k r = Some mac /\
  forall r', rec_head r' = rec_head r -> ty_audit_record_hmac k r' = Some mac.
Proof.
  unfold ty_audit_record_hmac. rewrite hmac_spec. eexists. split; [reflexivity|]. intros r' ->. by rewrite hmac_spec.
Qed.

Lemma last_lookup_S {A} (L : list A) j : length L = S j -> last L = L !! j.
Proof. intros H. rewrite last_lookup, H. done. Qed.

(** An event appends one record with the event's fields. *)
Lemma append_log k L st event driver flags detail dlen ts :
  holds_log k L st -> Z.of_nat (length L) + 1 < 2 ^ 32 ->
  exists st' r, ty_audit_append k st event driver flags detail dlen ts = Some st' /\ holds_log k (L ++ [r]) st' /\
    r_event r = event /\ r_driver r = driver /\ r_timestamp r = ts /\
    (Z.land flags AUDIT_FLAG_CRITICAL <> 0 -> last (forwarded st') = Some r).
Proof.
  intros [H1 H2 H3 H4 H5 H6 H7] Hn. unfold ty_audit_append. rewrite H1. cbn [negb].
  set (pos := Z.land (head st) TY_AUDIT_RING_MASK). assert (Hpos : pos = Z.of_nat (length L) mod 512) by (unfold pos; rewrite H3; apply mask_mod; lia).
  set (fl := if 0 <? total_written st then _ else _). set (det := match detail with Some _ => _ | None => _ end).
  set (clen := if dlen <? 16 then dlen else 16). set (fwd := if _ && negb (_ =? 0) then _ else forwarded st).
  set (r0 := REC (total_written st) event ts driver clen fl det (last_hash st) (r_hmac (ring st pos))).
  destruct (record_hmac_some k r0) as (mac & -> & Hmac). cbn [mbind option_bind].
  set (r := REC (total_written st) event ts driver clen fl det (last_hash st) mac).
  assert (Hr : ty_audit_record_hmac k r = Some (r_hmac r)) by (apply Hmac; reflexivity). eexists _, r. split; [reflexivity|].
  split; [|split; [done|split; [done|split; [done|]]]].
  2:{ intros Hc. cbn [forwarded]. rewrite (proj2 (Z.eqb_neq _ _) Hc). apply last_snoc. }
  constructor; cbn [initialised head total_written ring last_hash]; rewrite ?length_app; cbn [length].
  - done.
  - lia.
  - rewrite H3. unfold u32. rewrite Z.mod_small by lia. lia.
  - rewrite H4. unfold u32. rewrite Z.mod_small by lia. lia.
  - intros i x Hi Hlo. destruct (decide (i = length L)) as [->|Hne].
    + rewrite lookup_app_r, Nat.sub_diag in Hi by lia. injection Hi as <-. rewrite Hpos. apply upd_eq.
    + assert (i < length L)%nat by (apply lookup_lt_Some in Hi; rewrite length_app in Hi; cbn in Hi; lia).
      rewrite lookup_app_l in Hi by lia. rewrite upd_ne; [apply H5; [done|lia]|]. rewrite Hpos. intros E.
      assert (Hd : (Z.of_nat (length L) - Z.of_nat i) mod 512 = 0) by (rewrite Zminus_mod, E, Z.sub_diag; done).
      apply Z.mod_divide in Hd as [q Hq]; [|done]. nia.
  - by rewrite last_snoc.
  - intros i x Hi. destruct (decide (i = length L)) as [->|Hne].
    + rewrite lookup_app_r, Nat.sub_diag in Hi by lia. injection Hi as <-. split_and!; [done|done|]. change (r_prev r) with (last_hash st). rewrite H6.
      destruct (length L) as [|j] eqn:El; [by destruct L|]. rewrite (last_lookup_S L j El).
      rewrite lookup_app_l by lia. destruct (lookup_lt_is_Some_2 L j) as [y ->]; [lia|done].
    + assert (i < length L)%nat by (apply lookup_lt_Some in Hi; rewrite length_app in Hi; cbn in Hi; lia).
      rewrite lookup_app_l in Hi by lia. destruct (H7 i x Hi) as (E1 & E2 & E3). split_and!; [done|done|]. rewrite E3.
      destruct i as [|j]; [done|]. by rewrite lookup_app_l by lia.
Qed.

(** ** Reading the ring *)

Lemma ring_at_log k L st i : holds_log k L st -> (i < Nat.min (length L) 512)%nat ->
  L !! (length L - Nat.min (length L) 512 + i)%nat = Some (ring_at st i).
Proof.
  intros [H1 H2 H3 H4 H5 H6 H7] Hi. set (j := (length L - Nat.min (length L) 512 + i)%nat).
  destruct (lookup_lt_is_Some_2 L j) as [r Hr]; [unfold j; lia|]. rewrite Hr. f_equal.
  rewrite <- (H5 j r Hr) by (unfold j; lia). unfold ring_at, ring_start. rewrite H3, H4, mask_mod by (unfold u32; apply Z.mod_pos_bound; lia).
  f_equal. unfold u32, TY_AUDIT_RING_COUNT. rewrite Z.mod_mod_divide by (exists (2 ^ 23); reflexivity).
  destruct (Z.leb_spec 512 (Z.of_nat (length L))); unfold j.
  - replace (Z.of_nat (length L - Nat.min (length L) 512 + i)) with (Z.of_nat (length L) + Z.of_nat i + (-1) * 512) by lia.
    by rewrite Z_mod_plus_full.
  - f_equal. lia.
Qed.

Lemma ring_count_log k L st : holds_log k L st -> Z.to_nat (ring_count st) = Nat.min (length L) 512.
Proof.
  intros H. unfold ring_count. rewrite (hl_total _ _ _ H). unfold TY_AUDIT_RING_COUNT.
  destruct (Z.ltb_spec (Z.of_nat (length L)) 512); lia.
Qed.

(** The verification loop finds nothing in a linked log. *)
Lemma verify_loop_log k L st : holds_log k L st -> forall n i prev first,
  (n + i = Nat.min (length L) 512)%nat -> (i = 0%nat /\ first = true \/ first = false /\
    exists j, (length L - Nat.min (length L) 512 + i = S j)%nat /\ prev = default [] (rec_hash k <$> L !! j)) ->
  verify_loop n i k st prev first 0 = Some 0.
Proof.
  intros H n. induction n as [|n IH]; intros i prev first Hn Hf; [done|]. cbn [verify_loop].
  pose proof (ring_at_log k L st i H ltac:(lia)) as Hr. destruct (hl_linked _ _ _ H _ _ Hr) as (E1 & _ & E3).
  rewrite E1. cbn [mbind option_bind]. rewrite memeq_refl.
  assert (negb first && negb (ty_memeq (r_prev (ring_at st i)) prev 16) = false) as ->.
  { destruct Hf as [[-> ->]|[-> (j & Hj & ->)]]; [done|]. rewrite Hj in E3. rewrite E3. by rewrite memeq_refl. }
  apply IH; [lia|]. right. split; [done|]. eexists. split; [rewrite <- plus_n_Sm; reflexivity|]. rewrite Hr. done.
Qed.

Lemma export_loop_log k L st start : holds_log k L st -> forall n i cap, (n + i = Nat.min (length L) 512)%nat ->
  export_loop n i st start cap
  = take cap (filter (fun r => start <= r_seq r) (drop (length L - Nat.min (length L) 512 + i) L)).
Proof.
  intros H n. induction n as [|n IH]; intros i cap Hn; cbn [export_loop].
  - rewrite drop_ge by lia. by destruct cap.
  - pose proof (ring_at_log k L st i H ltac:(lia)) as Hr. rewrite (drop_S _ _ _ Hr). rewrite filter_cons.
    destruct cap as [|cap]; [done|]. destruct (Z.leb_spec start (r_seq (ring_at st i))).
    + rewrite decide_True by done. cbn [take]. f_equal. rewrite IH by lia. by rewrite <- plus_n_Sm.
    + rewrite decide_False by lia. rewrite IH by lia. by rewrite <- plus_n_Sm.
Qed.

(** ** Runs of the log *)

Record event := EV { e_code : Z; e_driver : Z; e_flags : Z; e_detail : option (list Z); e_len : Z; e_time : Z }.

Fixpoint log_events (k : keys) (st : ty_audit_ring_t) (es : list event) : option ty_audit_ring_t :=
  match es with
  | [] => Some st
  | e :: es => st ← ty_audit_append k st (e_code e) (e_driver e) (e_flags e) (e_detail e) (e_len e) (e_time e); log_events k st es
  end.

(** Records that stand for events. *)
Definition recorded (e : event) (r : ty_audit_record_t) : Prop :=
  r_event r = e_code e /\ r_driver r = e_driver e /\ r_timestamp r = e_time e.

Lemma log_events_log k es : forall L st, holds_log k L st -> Z.of_nat (length L + length es) < 2 ^ 32 ->
  exists st' R, log_events k st es = Some st' /\ holds_log k (L ++ R) st' /\ Forall2 recorded es R.
Proof.
  induction es as [|e es IH]; intros L st H Hn; cbn [log_events length] in *.
  - exists st, []. rewrite app_nil_r. split_and!; [done|done|constructor].
  - destruct (append_log k L st (e_code e) (e_driver e) (e_flags e) (e_detail e) (e_len e) (e_time e) H ltac:(lia))
      as (st1 & r & -> & H1 & E1 & E2 & E3 & _). cbn [mbind option_bind].
    destruct (IH (L ++ [r]) st1 H1) as (st' & R & E & H' & F); [rewrite length_app; cbn; lia|].
    exists st', (r :: R). rewrite <- app_assoc in H'. split_and!; [done|done|]. by constructor.
Qed.

Lemma init_log k fwd ts : exists st r, ty_audit_init k fwd ts = Some st /\ holds_log k [r] st /\ r_event r = AEV_INIT_OK.
Proof.
  destruct (append_log k [] (RING (fun _ => zero_rec) 0 0 0 (replicate 16 0) 0 true fwd) AEV_INIT_OK 0xFFFFFFFF AUDIT_FLAG_NONE None 0 ts)
    as (st & r & E & H & Er & _); [|cbn; lia|by exists st, r].
  constructor; try done; intros i r Hi; destruct i; done.
Qed.

(** C29. The audit log.  After [ty_audit_init] and any sequence of events, fewer
    than 2^32 - 1, there is one record per event in order, [ty_audit_verify_chain]
    accepts the ring and leaves it alone, and [tykid_audit_export] returns,
    up to its capacity, the records from the wanted sequence number on among
    the last 512, wrapped around or not. *)
Theorem audit_log_correct (k : keys) (fwd : list ty_audit_record_t) (ts : Z) (es : list event) :
  Z.of_nat (length es) < 2 ^ 32 - 1 ->
  exists st0 st r0 R, ty_audit_init k fwd ts = Some st0 /\ log_events k st0 es = Some st /\
    r_event r0 = AEV_INIT_OK /\ Forall2 recorded es R /\
    (forall i r, (r0 :: R) !! i = Some r -> r_seq r = Z.of_nat i) /\
    (forall now, ty_audit_verify_chain k st now = Some (true, st)) /\
    (forall start cap, 0 < cap -> tykid_audit_export st TYKID_OK start cap
       = inr (take (Z.to_nat cap) (filter (fun r => start <= r_seq r) (drop (S (length es) - 512) (r0 :: R))))).
Proof.
  intros Hn. destruct (init_log k fwd ts) as (st0 & r0 & E0 & H0 & Er).
  destruct (log_events_log k es [r0] st0 H0) as (st & R & E & H & F); [cbn; lia|]. cbn [app] in H.
  exists st0, st, r0, R. split_and!; [done|done|done|done|..].
  - intros i r Hi. by destruct (hl_linked _ _ _ H i r Hi) as (_ & ? & _).
  - intros now. unfold ty_audit_verify_chain. rewrite (hl_init _ _ _ H). cbn [negb orb].
    destruct (total_written st =? 0); [done|]. rewrite (ring_count_log k _ st H).
    rewrite (verify_loop_log k (r0 :: R) st H) by (lia || by left). done.
  - intros start cap Hc. unfold tykid_audit_export. rewrite (proj2 (Z.eqb_neq _ _)) by lia. cbn [Z.eqb TYKID_OK negb].
    rewrite (ring_count_log k _ st H), (export_loop_log k _ st start H) by lia. apply Forall2_length in F. do 4 f_equal.
    cbn [length]. lia.
Qed.

Lemma audit_log_correct_witness :
  let k := KEYS (replicate 32 1) (replicate 32 2) in
  exists st0 st, ty_audit_init k [] 7 = Some st0 /\ log_events k st0 [EV 0x30 5 0 None 0 8] = Some st /\
    ty_audit_verify_chain k st 9 = Some (true, st).
Proof.
  intros k. destruct (audit_log_correct k [] 7 [EV 0x30 5 0 None 0 8]) as (st0 & st & r0 & R & E0 & E & _ & _ & _ & V & _).
  - cbn. lia.
  - exists st0, st. split; [exact E0|]. split; [exact E|]. apply V.
Defined.

(** ** Altered records *)

Lemma verify_loop_S n i k st prev first err :
  verify_loop (S n) i k st prev first err
  = match ty_audit_record_hmac k (ring_at st i) with
    | Some expected =>
        verify_loop n (S i) k st (rec_hash k (ring_at st i)) false
          ((if ty_memeq (r_hmac (ring_at st i)) expected 8 then err else err + 1) +
           (if negb first && negb (ty_memeq (r_prev (ring_at st i)) prev 16) then 1 else 0))
    | None => None
    end.
Proof.
  cbn [verify_loop]. destruct (ty_audit_record_hmac k (ring_at st i)) as [e|]; [|done]. cbn [mbind option_bind]. unfold rec_hash.
  f_equal. destruct (negb first && negb (ty_memeq (r_prev (ring_at st i)) prev 16)); [done|]. by rewrite Z.add_0_r.
Qed.

(** What an error count of zero says. *)
Lemma verify_loop_zero k st n : forall i prev first err, 0 <= err -> verify_loop n i k st prev first err = Some 0 ->
  err = 0 /\ forall j, (i <= j < i + n)%nat ->
    (exists mac, ty_audit_record_hmac k (ring_at st j) = Some mac /\ ty_memeq (r_hmac (ring_at st j)) mac 8 = true) /\
    ((j = i /\ first = true) \/ ty_memeq (r_prev (ring_at st j)) (if decide (j = i) then prev else rec_hash k (ring_at st (pred j))) 16 = true).
Proof.
  induction n as [|n IH]; intros i prev first err He H; [injection H as ->; split; [done|lia]|].
  rewrite verify_loop_S in H. destruct (ty_audit_record_hmac k (ring_at st i)) as [mac|] eqn:Em; [|done].
  apply IH in H as [E H].
  2:{ destruct (ty_memeq (r_hmac (ring_at st i)) mac 8), (negb first && _); lia. }
  destruct (ty_memeq (r_hmac (ring_at st i)) mac 8) eqn:Em8; [|destruct (negb first && _); lia].
  destruct (negb first && negb (ty_memeq (r_prev (ring_at st i)) prev 16)) eqn:Ep; [lia|]. split; [lia|].
  intros j Hj. destruct (decide (j = i)) as [->|Hne].
  - split; [exists mac; exact (conj Em Em8)|]. destruct first; [left; exact (conj eq_refl eq_refl)|right].
    apply andb_false_iff in Ep as [Ef|Ep]; [discriminate Ef|]. by apply negb_false_iff in Ep.
  - destruct (H j ltac:(lia)) as [H1 H2]. split; [done|]. right. destruct H2 as [[-> Hff]|H2]; [done|].
    destruct (decide (j = S i)) as [->|]; [cbn [pred]; exact H2|exact H2].
Qed.

Definition with_record (st : ty_audit_ring_t) (i : nat) (r : ty_audit_record_t) : ty_audit_ring_t :=
  RING (upd (ring st) (Z.land (u32 (ring_start st + Z.of_nat i)) TY_AUDIT_RING_MASK) r) (head st) (total_written st)
       (wrap_count st) (last_hash st) (chain_epoch st) (initialised st) (forwarded st).

Lemma ring_at_altered st i j r : (i < 512)%nat -> (j < 512)%nat ->
  ring_at (with_record st i r) j = if decide (j = i) then r else ring_at st j.
Proof.
  intros Hi Hj. unfold ring_at, with_record, ring_start at 1. cbn [ring total_written head]. fold (ring_start st).
  destruct (decide (j = i)) as [->|Hne]; [apply upd_eq|]. apply upd_ne.
  rewrite !mask_mod by (unfold u32; apply Z.mod_pos_bound; lia). unfold u32.
  rewrite !Z.mod_mod_divide by (exists (2 ^ 23); reflexivity). intros E.
  assert (Hd : (Z.of_nat j - Z.of_nat i) mod 512 = 0).
  { replace (Z.of_nat j - Z.of_nat i) with (ring_start st + Z.of_nat j - (ring_start st + Z.of_nat i)) by lia.
    rewrite Zminus_mod, E, Z.sub_diag. done. }
  apply Z.mod_divide in Hd as [q Hq]; [|done]. nia.
Qed.

(** C30. Altering a stored record is noticed.  If the ring still verifies after
    the [i]-th record it holds was replaced by any other, then the tag of
    the new record is the HMAC of its contents under the secret key, and,
    unless it is the last record, its keyed hash collides with that of the
    record it replaced. *)
Theorem audit_tamper_evident (k : keys) (L : list ty_audit_record_t) (st : ty_audit_ring_t) (i : nat) (r : ty_audit_record_t) (now : Z) :
  holds_log k L st -> (i < Nat.min (length L) 512)%nat ->
  fst <$> ty_audit_verify_chain k (with_record st i r) now = Some true ->
  (exists mac, ty_audit_record_hmac k r = Some mac /\ forall j, (j < 8)%nat -> nth j (r_hmac r) 0 = nth j mac 0) /\
  ((S i < Nat.min (length L) 512)%nat -> forall j, (j < 16)%nat -> nth j (rec_hash k r) 0 = nth j (rec_hash k (ring_at st i)) 0).
Proof.
  intros H Hi Hv. unfold ty_audit_verify_chain in Hv.
  assert (Et : total_written (with_record st i r) = Z.of_nat (length L)) by apply (hl_total _ _ _ H).
  rewrite Et in Hv. assert (Ei : initialised (with_record st i r) = true) by apply (hl_init _ _ _ H). rewrite Ei in Hv.
  rewrite (proj2 (Z.eqb_neq _ _)) in Hv by lia. cbn [negb orb] in Hv.
  assert (Ec : Z.to_nat (ring_count (with_record st i r)) = Nat.min (length L) 512) by (rewrite <- (ring_count_log k L st H); done).
  rewrite Ec in Hv. destruct (verify_loop _ 0 k _ _ true 0) as [e|] eqn:El; [|done]. cbn [mbind option_bind] in Hv.
  destruct (Z.eqb_spec e 0) as [->|].
  2:{ destruct (ty_audit_append _ _ _ _ _ _ _ _) as [s2|]; done. }
  apply verify_loop_zero in El as [_ Hz]; [|lia]. split.
  - destruct (Hz i ltac:(lia)) as [(mac & Em & Eq) _]. rewrite ring_at_altered, decide_True in Em, Eq by (done || lia).
    exists mac. split; [done|]. by apply memeq_nth.
  - intros HS j Hj. destruct (Hz (S i) ltac:(lia)) as [_ [[? _]|Hp]]; [done|].
    rewrite decide_False in Hp by done. cbn [pred] in Hp.
    rewrite !ring_at_altered in Hp by lia. rewrite decide_False, decide_True in Hp by (done || lia).
    rewrite <- (memeq_nth _ _ _ Hp j Hj).
    pose proof (ring_at_log k L st (S i) H ltac:(lia)) as Hr. destruct (hl_linked _ _ _ H _ _ Hr) as (_ & _ & E).
    rewrite <- plus_n_Sm in E. rewrite (ring_at_log k L st i H) in E by lia. cbn in E. by rewrite E.
Qed.

Lemma audit_tamper_evident_witness :
  let k := KEYS (replicate 32 1) (replicate 32 2) in
  exists st r, ty_audit_init k [] 7 = Some st /\ ring_at st 0 = r /\
    exists mac, ty_audit_record_hmac k r = Some mac /\ forall j, (j < 8)%nat -> nth j (r_hmac r) 0 = nth j mac 0.
Proof.
  intros k. destruct (init_log k [] 7) as (st & r & E & H & _).
  pose proof (ring_at_log k [r] st 0 H ltac:(cbn; lia)) as Hr. cbn in Hr. injection Hr as Hr. exists st, r.
  split; [exact E|]. split; [by rewrite <- Hr|].
  refine (proj1 (audit_tamper_evident k [r] st 0 r 9 H ltac:(cbn; lia) _)).
  unfold ty_audit_verify_chain. change (initialised (with_record st 0 r)) with (initialised st). rewrite (hl_init _ _ _ H). cbn [negb orb].
  change (total_written (with_record st 0 r)) with (total_written st). rewrite (hl_total _ _ _ H). cbn [length Z.of_nat Z.eqb].
  change (ring_count (with_record st 0 r)) with (ring_count st). rewrite (ring_count_log k _ st H). cbn [length Nat.min verify_loop].
  rewrite ring_at_altered, decide_True by (done || lia).
  destruct (hl_linked _ _ _ H 0%nat r eq_refl) as (Em & _). rewrite Em. cbn [mbind option_bind]. by rewrite memeq_refl.
Defined.
