(* ===== verification/TyDeps.v ===== *)
(** * TYKID: the dependency graph of drivers

    [ty_dep_graph_add] records that driver [u] needs driver [v];
    [ty_dep_graph_toposort] is Kahn's algorithm followed by a reversal.
    The adjacency matrix has two 64-bit words a row.

    Sources: security/tykid/src/tykid_registry.c,
    security/tykid/inc/tykid_internal.h. *)

From stdpp Require Import base list relations.
From Stdlib Require Import ZArith Lia.
From S2P Require Import Prelude Tykid.

(** [topo] is the used part of the array. *)
Record ty_dep_graph_t := DG { adj : Z -> Z -> Z; in_degree : Z -> Z; topo : list Z; node_count : Z }.

Definition zero_graph (n : Z) : ty_dep_graph_t := DG (fun _ _ => 0) (fun _ => 0) [] n.

(** [adj[u][v >> 6] & (1 << (v & 63))] *)
Definition adj_bit (g : ty_dep_graph_t) (u v : Z) : bool :=
  negb (Z.land (adj g u (Z.shiftr v 6)) (Z.shiftl 1 (Z.land v 63)) =? 0).

Definition ty_dep_graph_add (g : ty_dep_graph_t) (u v : Z) : Z * ty_dep_graph_t :=
  if (node_count g <=? u) || (node_count g <=? v) then (TYKID_ERR_GENERIC, g) else
  if adj_bit g u v then (TYKID_OK, g) else
  let w := Z.shiftr v 6 in
  (TYKID_OK, DG (upd (adj g) u (upd (adj g u) w (Z.lor (adj g u w) (Z.shiftl 1 (Z.land v 63)))))
                (upd (in_degree g) u (u8 (in_degree g u + 1))) (topo g) (node_count g)).

(** [queue[qtail++] = i]; [None] is a store past the array. *)
Definition push (q : list Z) (i : Z) : option (list Z) :=
  if TYKID_MAX_DRIVERS <=? Z.of_nat (length q) then None else Some (q ++ [i]).

(** The drivers that need nothing, from [i] on. *)
Fixpoint queue_init (n : nat) (i : Z) (in_deg : Z -> Z) (q : list Z) : option (list Z) :=
  match n with
  | O => Some q
  | S n => q ← (if in_deg i =? 0 then push q i else Some q); queue_init n (i + 1) in_deg q
  end.

(** The inner loop: [u] is done. *)
Fixpoint relax (n : nat) (v : Z) (g : ty_dep_graph_t) (u : Z) (in_deg : Z -> Z) (q : list Z) : option ((Z -> Z) * list Z) :=
  match n with
  | O => Some (in_deg, q)
  | S n =>
    if adj_bit g v u then
      let in_deg := upd in_deg v (u8 (in_deg v - 1)) in
      q ← (if in_deg v =? 0 then push q v else Some q);
      relax n (v + 1) g u in_deg q
    else relax n (v + 1) g u in_deg q
  end.

(** [while (qhead < qtail)]: one round per queued driver, so at most 128. *)
Fixpoint kahn (fuel : nat) (g : ty_dep_graph_t) (qhead : nat) (in_deg : Z -> Z) (q : list Z) : option (list Z) :=
  match q !! qhead with
  | None => Some q
  | Some u =>
    match fuel with
    | O => None
    | S fuel =>
      '(in_deg, q) ← relax (Z.to_nat (node_count g)) 0 g u in_deg q;
      kahn fuel g (S qhead) in_deg q
    end
  end.

(** [tmp = t[i]; t[i] = t[n-1-i]; t[n-1-i] = tmp] for [i < n / 2] *)
Fixpoint swap_ends (k i : nat) (t : list Z) : list Z :=
  match k with
  | O => t
  | S k =>
    let j := (length t - 1 - i)%nat in
    swap_ends k (S i) (<[j := nth i t 0]> (<[i := nth j t 0]> t))
  end.

(** Every queued driver is copied to [topo] in the order of the queue. *)
Definition ty_dep_graph_toposort (g : ty_dep_graph_t) : option (Z * ty_dep_graph_t) :=
  q ← queue_init (Z.to_nat (node_count g)) 0 (in_degree g) [];
  t ← kahn (Z.to_nat TYKID_MAX_DRIVERS) g 0 (in_degree g) q;
  let g := DG (adj g) (in_degree g) t (node_count g) in
  if negb (Z.of_nat (length t) =? node_count g) then Some (TYKID_ERR_CYCLE, g) else
  Some (TYKID_OK, DG (adj g) (in_degree g) (swap_ends (length t / 2) 0 t) (node_count g)).

(** ** Bits of the matrix *)

Lemma land_bit x b : 0 <= b -> negb (Z.land x (Z.shiftl 1 b) =? 0) = Z.testbit x b.
Proof.
  intros Hb. rewrite Z.shiftl_1_l. destruct (Z.testbit x b) eqn:E.
  - apply negb_true_iff, Z.eqb_neq. intros H. assert (Z.testbit (Z.land x (2 ^ b)) b = true) as T.
    { by rewrite Z.land_spec, E, Z.pow2_bits_true. }
    by rewrite H, Z.bits_0 in T.
  - apply negb_false_iff, Z.eqb_eq, Z.bits_inj'. intros k Hk. rewrite Z.land_spec, Z.bits_0.
    destruct (Z.eq_dec b k) as [->|Hne]; [by rewrite E|]. rewrite Z.pow2_bits_false by done. apply andb_false_r.
Qed.

Lemma word_bit v : 0 <= v -> v = 64 * Z.shiftr v 6 + Z.land v 63 /\ 0 <= Z.land v 63.
Proof. intros Hv. change 63 with (2 ^ 6 - 1). rewrite land_mask, Z.shiftr_div_pow2 by lia. zlia. Qed.

Lemma adj_bit_testbit g u v : 0 <= v -> adj_bit g u v = Z.testbit (adj g u (Z.shiftr v 6)) (Z.land v 63).
Proof. intros Hv. apply land_bit, word_bit, Hv. Qed.

Section Graph.
Implicit Types (g : ty_dep_graph_t) (q t P : list Z).

Abbreviation nodes g := (seqZ 0 (node_count g)).
Abbreviation in_range g v := (0 <= v < node_count g).

(** [u] needs [v]. *)
Definition needs g (u v : Z) : Prop := in_range g u /\ in_range g v /\ adj_bit g u v = true.

#[local] Instance needs_dec g u v : Decision (needs g u v).
Proof. apply _. Defined.

(** What [v] needs outside [P]. *)
Definition pending g P (v : Z) : list Z := filter (fun w => needs g v w /\ w ∉ P) (nodes g).

Record graph_ok g : Prop := {
  go_count : 0 <= node_count g <= 128;
  go_degree : forall v, in_range g v -> in_degree g v = Z.of_nat (length (pending g [] v)) }.

Lemma elem_pending g P v w : w ∈ pending g P v <-> needs g v w /\ w ∉ P.
Proof. unfold pending. rewrite list_elem_of_filter, elem_of_seqZ. unfold needs. naive_solver lia. Qed.

Lemma NoDup_pending g P v : NoDup (pending g P v).
Proof. apply NoDup_filter, NoDup_seqZ. Qed.

Lemma pending_len g P v : Z.of_nat (length (pending g P v)) <= Z.max 0 (node_count g).
Proof.
  unfold pending. pose proof (length_filter (fun w => needs g v w /\ w ∉ P) (nodes g)). rewrite length_seqZ in *. lia.
Qed.

(** One element more. *)
Lemma filter_add {A} (Q Q' : A -> Prop) `{!forall x, Decision (Q x), !forall x, Decision (Q' x)} (l : list A) u :
  NoDup l -> u ∈ l -> ~ Q u -> (forall x, x ∈ l -> Q' x <-> Q x \/ x = u) -> length (filter Q' l) = S (length (filter Q l)).
Proof.
  intros Hd Hu HQ Hx. assert (E : filter Q' l ≡ₚ u :: filter Q l); [|by rewrite E].
  apply NoDup_Permutation; [by apply NoDup_filter|apply NoDup_cons; split; [|by apply NoDup_filter]|].
  - rewrite list_elem_of_filter. naive_solver.
  - intros x. rewrite elem_of_cons, !list_elem_of_filter. naive_solver.
Qed.

Lemma filter_same {A} (Q Q' : A -> Prop) `{!forall x, Decision (Q x), !forall x, Decision (Q' x)} (l : list A) :
  (forall x, x ∈ l -> Q' x <-> Q x) -> filter Q' l = filter Q l.
Proof.
  intros Hx. induction l as [|y l IH]; [done|]. rewrite !filter_cons, IH by (intros z Hz; apply Hx; by right).
  assert (Hy : Q' y <-> Q y) by (apply Hx; by left). destruct (decide (Q' y)), (decide (Q y)); tauto || done.
Qed.

Lemma zero_graph_ok n : 0 <= n <= 128 -> graph_ok (zero_graph n).
Proof.
  intros Hn. constructor; [done|]. intros v Hv. assert (E : pending (zero_graph n) [] v = []); [|by rewrite E].
  apply elem_of_nil_inv. intros w (Hw & _)%elem_pending. destruct Hw as (_ & _ & Hw). by unfold adj_bit in Hw.
Qed.

Lemma add_bit g u v u' v' : 0 <= v -> 0 <= v' -> in_range g u -> in_range g v ->
  adj_bit (snd (ty_dep_graph_add g u v)) u' v' = adj_bit g u' v' || (bool_decide (u' = u /\ v' = v)).
Proof.
  intros Hv Hv' Hu Hvr. unfold ty_dep_graph_add. rewrite (proj2 (Z.leb_gt _ _)) by lia. rewrite (proj2 (Z.leb_gt _ v)) by lia. cbn [orb].
  destruct (adj_bit g u v) eqn:E; cbn [snd].
  { destruct (decide (u' = u /\ v' = v)) as [[-> ->]|Hne]; [by rewrite E|]. rewrite bool_decide_false by done. by rewrite orb_false_r. }
  rewrite !adj_bit_testbit by done. cbn [adj]. destruct (Z.eq_dec u' u) as [->|Hne]; [|].
  2: { rewrite upd_ne by done. rewrite bool_decide_false by tauto. by rewrite orb_false_r. }
  rewrite upd_eq. destruct (word_bit v Hv) as [Ev Bv], (word_bit v' Hv') as [Ev' Bv'].
  destruct (Z.eq_dec (Z.shiftr v' 6) (Z.shiftr v 6)) as [Ew|Hw].
  - rewrite Ew, upd_eq, Z.lor_spec, Z.shiftl_1_l, Z.pow2_bits_eqb by done. f_equal.
    destruct (Z.eqb_spec (Z.land v 63) (Z.land v' 63)); [rewrite bool_decide_true by lia|rewrite bool_decide_false by naive_solver]; done.
  - rewrite upd_ne by done. rewrite bool_decide_false by naive_solver. by rewrite orb_false_r.
Qed.
Lemma add_ok g u v : graph_ok g -> 0 <= u -> 0 <= v -> graph_ok (snd (ty_dep_graph_add g u v)).
Proof.
  intros [Hn Hdeg] Hu Hv. destruct (decide (in_range g u /\ in_range g v)) as [[Hur Hvr]|Hout].
  2: { unfold ty_dep_graph_add. replace ((node_count g <=? u) || (node_count g <=? v)) with true by lia. done. }
  assert (En : node_count (snd (ty_dep_graph_add g u v)) = node_count g) by (unfold ty_dep_graph_add; by repeat case_match).
  assert (Hneed : forall x y, needs (snd (ty_dep_graph_add g u v)) x y <-> needs g x y \/ (x = u /\ y = v)).
  { intros x y. unfold needs. rewrite En. destruct (decide (0 <= y)) as [Hy|]; [|naive_solver lia]. rewrite add_bit by done.
    rewrite orb_true_iff, bool_decide_eq_true. naive_solver lia. }
  constructor; rewrite En; [done|]. intros x Hx. unfold pending. rewrite En. destruct (decide (x = u /\ ~ needs g u v)) as [[-> Hnew]|Hold].
  - rewrite (filter_add (fun w => needs g u w /\ w ∉ []) _ _ v); [|apply NoDup_seqZ|by apply elem_of_seqZ; lia|tauto|].
    + fold (pending g [] u). unfold ty_dep_graph_add. replace ((node_count g <=? u) || (node_count g <=? v)) with false by lia.
      destruct (adj_bit g u v) eqn:E; [by destruct Hnew|]. cbn [snd in_degree]. rewrite upd_eq, Hdeg by done. unfold u8.
      pose proof (pending_len g [] u). rewrite Z.mod_small by lia. lia.
    + intros w _. rewrite Hneed. split; [intros [[?|[_ ->]] ?]; auto|]. intros [[? ?]| ->]; split; try tauto; apply not_elem_of_nil.
  - transitivity (in_degree g x).
    + unfold ty_dep_graph_add. repeat case_match; cbn [snd in_degree]; try done.
      rewrite upd_ne; [done|]. intros ->. destruct Hold. split; [done|]. intros (_ & _ & Hb). congruence.
    + rewrite (Hdeg x Hx). f_equal. f_equal. symmetry. apply filter_same. intros w _. rewrite Hneed.
      destruct (decide (needs g u v)); naive_solver.
Qed.
(** ** The queue *)

Lemma push_some q i : Z.of_nat (length q) < 128 -> push q i = Some (q ++ [i]).
Proof. intros H. unfold push, TYKID_MAX_DRIVERS. by rewrite (proj2 (Z.leb_gt _ _)) by lia. Qed.

Lemma queue_init_spec n : forall i in_deg q, Z.of_nat (length q + n) <= 128 ->
  queue_init n i in_deg q = Some (q ++ filter (fun v => in_deg v = 0) (seqZ i (Z.of_nat n))).
Proof.
  induction n as [|n IH]; intros i in_deg q Hl; cbn [queue_init]; [by rewrite app_nil_r|].
  rewrite seqZ_cons by lia. replace (Z.pred (Z.of_nat (S n))) with (Z.of_nat n) by lia. rewrite filter_cons. fold (Z.succ i) in *.
  destruct (Z.eqb_spec (in_deg i) 0) as [Hz|Hz].
  - rewrite push_some by lia. cbn [mbind option_bind]. rewrite IH by (rewrite length_app; cbn; lia).
    rewrite decide_True by done. by rewrite <- app_assoc.
  - cbn [mbind option_bind]. rewrite IH by lia. by rewrite decide_False by done.
Qed.

(** The drivers that [u] was the last thing needed by. *)
Definition freed g (u : Z) (in_deg : Z -> Z) (l : list Z) : list Z := filter (fun w => adj_bit g w u = true /\ in_deg w = 1) l.

Lemma freed_upd g u in_deg v x i n : v < i -> freed g u (upd in_deg v x) (seqZ i n) = freed g u in_deg (seqZ i n).
Proof. intros Hv. apply filter_same. intros w Hw%elem_of_seqZ. by rewrite upd_ne by lia. Qed.

(** One for the drivers of the range that need [u]. *)
Definition drop1 g (u v : Z) (n : nat) (w : Z) : Z := if (v <=? w) && (w <? v + Z.of_nat n) && adj_bit g w u then 1 else 0.

Lemma drop1_S g u v n w : drop1 g u v (S n) w = (if (w =? v) && adj_bit g w u then 1 else 0) + drop1 g u (Z.succ v) n w.
Proof.
  unfold drop1. destruct (adj_bit g w u); rewrite ?andb_false_r; [|done]. rewrite !andb_true_r.
  destruct (Z.leb_spec v w), (Z.leb_spec (Z.succ v) w), (Z.ltb_spec w (v + Z.of_nat (S n))), (Z.ltb_spec w (Z.succ v + Z.of_nat n)),
    (Z.eqb_spec w v); cbn [andb]; lia.
Qed.

Lemma relax_spec g u n : forall v in_deg q, Z.of_nat (length (q ++ freed g u in_deg (seqZ v (Z.of_nat n)))) <= 128 ->
  (forall w, adj_bit g w u = true -> v <= w < v + Z.of_nat n -> 1 <= in_deg w <= 128) ->
  exists in_deg', relax n v g u in_deg q = Some (in_deg', q ++ freed g u in_deg (seqZ v (Z.of_nat n))) /\
    forall w, in_deg' w = in_deg w - drop1 g u v n w.
Proof.
  induction n as [|n IH]; intros v in_deg q; cbn [relax].
  { intros _ _. exists in_deg. rewrite app_nil_r. split; [done|]. intros w. unfold drop1.
    destruct (Z.leb_spec v w), (Z.ltb_spec w (v + Z.of_nat 0)); cbn [andb]; lia. }
  rewrite seqZ_cons by lia. replace (Z.pred (Z.of_nat (S n))) with (Z.of_nat n) by lia. unfold freed at 1 2. rewrite filter_cons.
  fold (freed g u in_deg (seqZ (Z.succ v) (Z.of_nat n))). change (v + 1) with (Z.succ v). intros Hl Hd.
  destruct (adj_bit g v u) eqn:E.
  - assert (Hv : 1 <= in_deg v <= 128) by (apply Hd; [done|lia]). rewrite upd_eq. unfold u8. rewrite Z.mod_small by lia.
    assert (Hstep : forall q', Z.of_nat (length (q' ++ freed g u in_deg (seqZ (Z.succ v) (Z.of_nat n)))) <= 128 ->
      exists d, relax n (Z.succ v) g u (upd in_deg v (in_deg v - 1)) q' = Some (d, q' ++ freed g u in_deg (seqZ (Z.succ v) (Z.of_nat n))) /\
      forall w, d w = in_deg w - drop1 g u v (S n) w).
    { intros q' Hq'. destruct (IH (Z.succ v) (upd in_deg v (in_deg v - 1)) q') as (d & E1 & E2).
      - by rewrite freed_upd by lia.
      - intros w Hw Hr. rewrite upd_ne by lia. apply Hd; [done|lia].
      - exists d. rewrite freed_upd in E1 by lia. split; [done|]. intros w. rewrite E2, drop1_S. unfold upd.
        destruct (Z.eqb_spec w v) as [->|]; [rewrite E|]; cbn [andb]; lia. }
    destruct (Z.eqb_spec (in_deg v - 1) 0) as [Hz|Hz].
    + rewrite decide_True in Hl |- * by (split; [done|lia]). rewrite length_app in Hl. cbn [length] in Hl. rewrite push_some by lia.
      cbn [mbind option_bind]. destruct (Hstep (q ++ [v])) as (d & -> & E2); [rewrite !length_app; cbn [length]; lia|].
      exists d. by rewrite <- app_assoc.
    + rewrite decide_False in Hl |- * by lia. cbn [mbind option_bind]. destruct (Hstep q Hl) as (d & -> & E2). by exists d.
  - rewrite decide_False in Hl |- * by (intros [? ?]; done). destruct (IH (Z.succ v) in_deg q Hl) as (d & E1 & E2).
    { intros w Hw Hr. apply Hd; [done|lia]. }
    exists d. split; [done|]. intros w. rewrite E2, drop1_S. destruct (Z.eqb_spec w v) as [->|]; [rewrite E|]; cbn [andb]; lia.
Qed.

(** ** Kahn's algorithm *)

(** The first [h] of [q] are done; every driver of [q] comes after what it
    needs. *)
Record kahn_inv g (h : nat) (in_deg : Z -> Z) (q : list Z) : Prop := {
  kn_head : (h <= length q)%nat;
  kn_nodup : NoDup q;
  kn_range : forall v, v ∈ q -> in_range g v;
  kn_degree : forall v, in_range g v -> in_deg v = Z.of_nat (length (pending g (take h q) v));
  kn_zero : forall v, in_range g v -> v ∈ q <-> in_deg v = 0;
  kn_order : forall i v w, q !! i = Some v -> needs g v w -> exists j, (j < i)%nat /\ q !! j = Some w }.

Lemma nodup_range_len g q : NoDup q -> (forall v, v ∈ q -> in_range g v) -> Z.of_nat (length q) <= Z.max 0 (node_count g).
Proof.
  intros Hd Hr. assert (Hs : (length q <= length (nodes g))%nat).
  { apply submseteq_length, NoDup_submseteq; [done|]. intros v Hv. apply elem_of_seqZ. specialize (Hr v Hv). lia. }
  rewrite length_seqZ in Hs. lia.
Qed.

(** The drivers a finished [u] leaves one thing less to wait for. *)
Lemma pending_snoc g P u v : in_range g u -> in_range g v -> u ∉ P ->
  Z.of_nat (length (pending g P v)) = Z.of_nat (length (pending g (P ++ [u]) v)) + (if adj_bit g v u then 1 else 0).
Proof.
  intros Hu Hv Hn. destruct (adj_bit g v u) eqn:E.
  - unfold pending. rewrite (filter_add (fun w => needs g v w /\ w ∉ P ++ [u]) (fun w => needs g v w /\ w ∉ P) _ u); [lia|apply NoDup_seqZ| | |].
    + apply elem_of_seqZ. lia.
    + rewrite not_elem_of_app, not_elem_of_cons. naive_solver.
    + intros x Hx%elem_of_seqZ. rewrite not_elem_of_app, not_elem_of_cons.
      destruct (decide (x = u)) as [->|]; [|pose proof (not_elem_of_nil x); tauto]. unfold needs. naive_solver lia.
  - rewrite Z.add_0_r. do 2 f_equal. apply filter_same. intros x _. rewrite not_elem_of_app, not_elem_of_cons.
    assert (Hx : needs g v x -> x <> u) by (intros (_ & _ & ?) ->; congruence). pose proof (not_elem_of_nil x). tauto.
Qed.

Lemma kahn_step g h in_deg q u : 0 <= node_count g <= 128 -> kahn_inv g h in_deg q -> q !! h = Some u ->
  exists in_deg' q', relax (Z.to_nat (node_count g)) 0 g u in_deg q = Some (in_deg', q') /\ kahn_inv g (S h) in_deg' q'.
Proof.
  intros Hn I Hu. destruct I as [I1 I2 I3 I4 I5 I6]. pose proof (lookup_lt_Some _ _ _ Hu) as Hh.
  assert (Hur : in_range g u) by (apply I3; by eapply list_elem_of_lookup_2).
  assert (HuP : u ∉ take h q).
  { intros (i & Hi)%list_elem_of_lookup_1. pose proof (lookup_lt_Some _ _ _ Hi) as Hl. rewrite length_take in Hl.
    rewrite lookup_take_lt in Hi by lia. pose proof (NoDup_lookup _ _ _ _ I2 Hi Hu). lia. }
  assert (Hdeg : forall v, in_range g v -> in_deg v = Z.of_nat (length (pending g (take (S h) q) v)) + (if adj_bit g v u then 1 else 0)).
  { intros v Hv. rewrite I4, (take_S_r _ _ u) by done. by apply pending_snoc. }
  set (new := freed g u in_deg (seqZ 0 (Z.of_nat (Z.to_nat (node_count g))))).
  assert (Hnew : forall v, v ∈ new <-> in_range g v /\ adj_bit g v u = true /\ in_deg v = 1).
  { intros v. unfold new, freed. rewrite list_elem_of_filter, elem_of_seqZ. rewrite Z2Nat.id by lia. intuition lia. }
  assert (Hq' : NoDup (q ++ new)).
  { apply NoDup_app. split_and!; [done| |apply NoDup_filter, NoDup_seqZ]. intros v Hv (Hr & _ & H1)%Hnew. apply I5 in Hv; [lia|done]. }
  assert (Hr' : forall v, v ∈ q ++ new -> in_range g v) by (intros v [?|(? & _)%Hnew]%elem_of_app; auto).
  pose proof (nodup_range_len g _ Hq' Hr') as Hlen.
  destruct (relax_spec g u (Z.to_nat (node_count g)) 0 in_deg q) as (d & E & Ed); [fold new; lia| |].
  { intros w Hw Hr. pose proof (pending_len g (take h q) w). rewrite <- I4 in * by lia. rewrite (Hdeg w) in * by lia. rewrite Hw in *. lia. }
  assert (Ed' : forall v, in_range g v -> d v = Z.of_nat (length (pending g (take (S h) q) v))).
  { intros v Hv. rewrite Ed, Hdeg by done. unfold drop1. rewrite Z2Nat.id by lia.
    replace ((0 <=? v) && (v <? 0 + node_count g)) with true by lia. cbn [andb]. lia. }
  exists d, (q ++ new). split; [done|].
  assert (Et : take (S h) (q ++ new) = take (S h) q) by (apply take_app_le; lia).
  constructor; rewrite ?Et; try done.
  - rewrite length_app. lia.
  - intros v Hv. rewrite elem_of_app, I5, Hnew, Ed' by done. pose proof (Hdeg v Hv) as Hd. destruct (adj_bit g v u); intuition (done || lia).
  - intros i v w Hi Hw. apply lookup_app_Some in Hi as [Hi|[Hl Hi]].
    + destruct (I6 i v w Hi Hw) as (j & Hj & Hjw). exists j. split; [done|]. by apply lookup_app_l_Some.
    + assert (Hv : v ∈ new) by (by eapply list_elem_of_lookup_2). apply Hnew in Hv as (Hv & Ha & H1).
      assert (Hwq : w ∈ take (S h) q).
      { destruct (decide (w ∈ take (S h) q)) as [|Hn']; [done|]. exfalso. assert (Hp : w ∈ pending g (take (S h) q) v) by (by apply elem_pending).
        specialize (Hdeg v Hv). rewrite H1, Ha in Hdeg. destruct (pending g (take (S h) q) v); [by apply elem_of_nil in Hp|cbn [length] in Hdeg; lia]. }
      apply list_elem_of_lookup_1 in Hwq as (j & Hj). pose proof (lookup_lt_Some _ _ _ Hj) as Hjl. rewrite length_take in Hjl.
      rewrite lookup_take_lt in Hj by lia. exists j. split; [lia|]. by apply lookup_app_l_Some.
Qed.

Lemma kahn_init g : graph_ok g -> exists q, queue_init (Z.to_nat (node_count g)) 0 (in_degree g) [] = Some q /\ kahn_inv g 0 (in_degree g) q.
Proof.
  intros [Hn Hd]. exists (filter (fun v => in_degree g v = 0) (nodes g)). split.
  - rewrite queue_init_spec by (cbn [length]; lia). by rewrite Z2Nat.id by lia.
  - assert (Hq : forall v, v ∈ filter (fun v => in_degree g v = 0) (nodes g) <-> in_range g v /\ in_degree g v = 0)
      by (intros v; rewrite list_elem_of_filter, elem_of_seqZ; intuition lia).
    constructor; [lia|apply NoDup_filter, NoDup_seqZ|by intros v [? _]%Hq|by intros v Hv; apply Hd|by intros v Hv; rewrite Hq; naive_solver|].
    intros i v w Hi Hw. assert (Hv : v ∈ filter (fun v => in_degree g v = 0) (nodes g)) by (by eapply list_elem_of_lookup_2).
    apply Hq in Hv as [Hv Hz]. rewrite Hd in Hz by done. assert (Hp : w ∈ pending g [] v) by (apply elem_pending; split; [done|apply not_elem_of_nil]).
    destruct (pending g [] v); [by apply elem_of_nil in Hp|cbn [length] in Hz; lia].
Qed.

Lemma kahn_run g : graph_ok g -> forall fuel h in_deg q, kahn_inv g h in_deg q -> (128 <= fuel + h)%nat ->
  exists t d, kahn fuel g h in_deg q = Some t /\ kahn_inv g (length t) d t.
Proof.
  intros G. induction fuel as [|fuel IH]; intros h in_deg q I Hf; cbn [kahn]; destruct (q !! h) as [u|] eqn:Eu.
  - exfalso. pose proof (lookup_lt_Some _ _ _ Eu). pose proof (nodup_range_len g q (kn_nodup _ _ _ _ I) (kn_range _ _ _ _ I)).
    pose proof (go_count _ G). lia.
  - apply lookup_ge_None in Eu. pose proof (kn_head _ _ _ _ I). exists q, in_deg. replace (length q) with h by lia. done.
  - destruct (kahn_step g h in_deg q u (go_count _ G) I Eu) as (d & q' & -> & I'). cbn [mbind option_bind]. apply IH; [done|lia].
  - apply lookup_ge_None in Eu. pose proof (kn_head _ _ _ _ I). exists q, in_deg. replace (length q) with h by lia. done.
Qed.

(** ** Cycles *)

(** If everything in a finite set needs something of the set, some driver
    needs itself, through others. *)
Lemma endless_cycle (R : Z -> Z -> Prop) (S : list Z) x : x ∈ S -> (forall v, v ∈ S -> exists w, w ∈ S /\ R v w) -> exists y, tc R y y.
Proof.
  intros Hx Hs. assert (Hw : forall k x l, x ∈ l -> NoDup l -> l ⊆ S -> (forall y, y ∈ l -> y = x \/ tc R y x) ->
    (length S <= k + length l)%nat -> exists y, tc R y y); [|].
  2: { apply (Hw (length S) x [x]); [by left|by apply NoDup_singleton|by intros y ->%list_elem_of_singleton|
        by intros y ->%list_elem_of_singleton; left|cbn; lia]. }
  clear x Hx. induction k as [|k IH]; intros x l Hx Hd Hl Hp Hk.
  all: destruct (Hs x (Hl x Hx)) as (w & Hw & HR).
  all: destruct (decide (w ∈ l)) as [Hwl|Hwl]; [exists x; destruct (Hp w Hwl) as [->|?]; [by apply tc_once|by eapply tc_l]|].
  all: assert (Hd' : NoDup (w :: l)) by (by apply NoDup_cons).
  all: assert (Hl' : w :: l ⊆ S) by (intros y [->|Hy]%elem_of_cons; auto).
  - exfalso. pose proof (submseteq_length _ _ (NoDup_submseteq _ _ Hd' Hl')). cbn [length] in *. lia.
  - apply (IH w (w :: l)); [by left|done|done| |cbn [length]; lia]. intros y [->|Hy]%elem_of_cons; [by left|]. right.
    destruct (Hp y Hy) as [->|?]; [by apply tc_once|by eapply tc_r].
Qed.

Lemma order_no_cycle g t : NoDup t -> (forall i v w, t !! i = Some v -> needs g v w -> exists j, (j < i)%nat /\ t !! j = Some w) ->
  forall v w, tc (needs g) v w -> forall i, t !! i = Some v -> exists j, (j < i)%nat /\ t !! j = Some w.
Proof.
  intros Hd Ho v w Hvw. induction Hvw as [v w Hw|v x w Hx _ IH]; intros i Hi; [by eapply Ho|].
  destruct (Ho i v x Hi Hx) as (j & Hj & Hjx). destruct (IH j Hjx) as (k & Hk & Hkw). exists k. split; [lia|done].
Qed.

(** ** The reversal *)

Lemma nth_insert (l : list Z) i x j : (i < length l)%nat -> nth j (<[i := x]> l) 0 = if (j =? i)%nat then x else nth j l 0.
Proof.
  intros Hi. rewrite !nth_lookup. destruct (Nat.eqb_spec j i) as [->|Hne]; [by rewrite list_lookup_insert_eq|].
  by rewrite list_lookup_insert_ne by done.
Qed.

Lemma swap_ends_spec k : forall i t, (2 * (i + k) <= length t)%nat -> length (swap_ends k i t) = length t /\
  forall j, (j < length t)%nat -> nth j (swap_ends k i t) 0 =
    if decide (i <= j < i + k \/ length t - (i + k) <= j < length t - i)%nat then nth (length t - 1 - j) t 0 else nth j t 0.
Proof.
  induction k as [|k IH]; intros i t Hk; cbn [swap_ends].
  { split; [done|]. intros j Hj. by rewrite decide_False by lia. }
  set (t1 := <[_ := _]> _). assert (L1 : length t1 = length t) by (unfold t1; by rewrite !length_insert).
  destruct (IH (S i) t1) as [E1 E2]; [lia|]. split; [lia|]. intros j Hj. rewrite E2 by lia. rewrite L1.
  assert (Hn : forall m, nth m t1 0 = if (m =? length t - 1 - i)%nat then nth i t 0 else if (m =? i)%nat then nth (length t - 1 - i) t 0 else nth m t 0).
  { intros m. unfold t1. rewrite nth_insert by (rewrite length_insert; lia). by rewrite nth_insert by lia. }
  rewrite !Hn. clear IH E1 E2 Hn. set (n := length t) in *.
  destruct (decide (j = i)) as [->|Hi]; [|destruct (decide (j = n - 1 - i)%nat) as [->|He]].
  - rewrite decide_False, decide_True, Nat.eqb_refl by lia. by rewrite (proj2 (Nat.eqb_neq i (n - 1 - i))) by lia.
  - rewrite decide_False, decide_True, Nat.eqb_refl by lia. f_equal. lia.
  - rewrite (proj2 (Nat.eqb_neq j _)), (proj2 (Nat.eqb_neq j i)) by done. rewrite !(proj2 (Nat.eqb_neq (n - 1 - j) _)) by lia.
    case_decide; case_decide; done || lia.
Qed.

Lemma swap_ends_rev t : swap_ends (length t / 2) 0 t = reverse t.
Proof.
  pose proof (Nat.div_mod_eq (length t) 2) as D. pose proof (Nat.mod_upper_bound (length t) 2 ltac:(lia)).
  destruct (swap_ends_spec (length t / 2) 0 t) as [L E]; [lia|].
  apply (nth_ext _ _ 0 0); [by rewrite length_reverse|]. intros j Hj. rewrite L in Hj. rewrite E by done.
  rewrite (nth_lookup (reverse t)), reverse_lookup, <- nth_lookup by done. replace (length t - S j)%nat with (length t - 1 - j)%nat by lia.
  case_decide; [done|]. f_equal. lia.
Qed.

(** ** Sorting *)

Lemma toposort_spec g : graph_ok g -> exists st g', ty_dep_graph_toposort g = Some (st, g') /\ node_count g' = node_count g /\
  (st = TYKID_OK /\ topo g' ≡ₚ nodes g /\ (forall u v, needs g u v -> exists i j, (i < j)%nat /\ topo g' !! i = Some u /\ topo g' !! j = Some v) /\
     (forall v, ~ tc (needs g) v v) \/
   st = TYKID_ERR_CYCLE /\ exists v, tc (needs g) v v).
Proof.
  intros G. unfold ty_dep_graph_toposort. destruct (kahn_init g G) as (q & -> & I). cbn [mbind option_bind].
  destruct (kahn_run g G (Z.to_nat TYKID_MAX_DRIVERS) 0 (in_degree g) q I) as (t & d & -> & [I1 I2 I3 I4 I5 I6]);
    [unfold TYKID_MAX_DRIVERS; lia|].
  cbn [mbind option_bind node_count]. pose proof (nodup_range_len g t I2 I3) as Hlen. pose proof (go_count _ G) as Hn.
  destruct (Z.eqb_spec (Z.of_nat (length t)) (node_count g)) as [El|El]; cbn [negb]; eexists _, _; (split; [reflexivity|]); (split; [done|]).
  - left. cbn [topo]. rewrite swap_ends_rev. assert (Hp : t ≡ₚ nodes g).
    { apply submseteq_length_Permutation; [|rewrite length_seqZ; lia]. apply NoDup_submseteq; [done|].
      intros v Hv. apply elem_of_seqZ. specialize (I3 v Hv). lia. }
    assert (Hall : forall v, in_range g v -> exists i, t !! i = Some v)
      by (intros v Hv; apply list_elem_of_lookup_1; rewrite Hp; apply elem_of_seqZ; lia).
    split_and!; [done|by rewrite reverse_Permutation| |].
    + intros u v Huv. destruct (Hall u (proj1 Huv)) as (i & Hi). destruct (I6 i u v Hi Huv) as (j & Hj & Hjv).
      pose proof (lookup_lt_Some _ _ _ Hi). pose proof (lookup_lt_Some _ _ _ Hjv).
      exists (length t - S i)%nat, (length t - S j)%nat. split; [lia|].
      split; apply reverse_lookup_Some; (split; [|lia]); [rewrite <- Hi|rewrite <- Hjv]; f_equal; lia.
    + intros v Hv. assert (Hvr : forall x y, tc (needs g) x y -> in_range g x) by (intros x y [? ? Hx|? ? ? Hx _]; apply Hx).
      destruct (Hall v (Hvr v v Hv)) as (i & Hi).
      destruct (order_no_cycle g t I2 I6 v v Hv i Hi) as (j & Hj & Hjv). pose proof (NoDup_lookup _ _ _ _ I2 Hi Hjv). lia.
  - right. split; [done|]. rewrite firstn_all in I4. set (S := filter (fun v => v ∉ t) (nodes g)).
    assert (HS : forall v, v ∈ S <-> in_range g v /\ v ∉ t) by (intros v; unfold S; rewrite list_elem_of_filter, elem_of_seqZ; intuition lia).
    assert (Hx : exists x, x ∈ S).
    { destruct S as [|x S'] eqn:ES; [|exists x; by left]. exfalso. apply El.
      assert (Hs : (length (nodes g) <= length t)%nat); [|rewrite length_seqZ in Hs; lia].
      apply submseteq_length, NoDup_submseteq; [apply NoDup_seqZ|]. intros v Hv%elem_of_seqZ. destruct (decide (v ∈ t)) as [|Hn']; [done|].
      destruct (not_elem_of_nil v). apply HS. split; [lia|done]. }
    destruct Hx as (x & Hx). apply (endless_cycle _ S x Hx). intros v (Hv & Hvt)%HS.
    destruct (pending g t v) as [|w l] eqn:Ep.
    { destruct Hvt. apply I5; [done|]. by rewrite I4, Ep by done. }
    assert (Hw : w ∈ pending g t v) by (rewrite Ep; by left). apply elem_pending in Hw as [Hw Hwt]. exists w. split; [|done].
    apply HS. split; [apply Hw|done].
Qed.

(** The graph after recording the pairs [E]. *)
Definition build (n : Z) (E : list (Z * Z)) : ty_dep_graph_t := fold_left (fun g e => snd (ty_dep_graph_add g (fst e) (snd e))) E (zero_graph n).

Lemma add_needs g u v x y : 0 <= u -> 0 <= v ->
  needs (snd (ty_dep_graph_add g u v)) x y <-> needs g x y \/ (x = u /\ y = v /\ in_range g u /\ in_range g v).
Proof.
  intros Hu Hv. destruct (decide (in_range g u /\ in_range g v)) as [[Hur Hvr]|Hout].
  2: { unfold ty_dep_graph_add. replace ((node_count g <=? u) || (node_count g <=? v)) with true by lia. tauto. }
  assert (En : node_count (snd (ty_dep_graph_add g u v)) = node_count g) by (unfold ty_dep_graph_add; by repeat case_match).
  unfold needs. rewrite En. destruct (decide (0 <= y)) as [Hy|]; [|naive_solver lia]. rewrite add_bit by done.
  rewrite orb_true_iff, bool_decide_eq_true. naive_solver lia.
Qed.

Lemma build_spec n E : 0 <= n <= 128 -> Forall (fun e => 0 <= fst e /\ 0 <= snd e) E ->
  graph_ok (build n E) /\ node_count (build n E) = n /\
  forall u v, needs (build n E) u v <-> (u, v) ∈ E /\ 0 <= u < n /\ 0 <= v < n.
Proof.
  intros Hn. unfold build. assert (G : forall g, graph_ok g -> node_count g = n -> Forall (fun e => 0 <= fst e /\ 0 <= snd e) E ->
    let g' := fold_left (fun g e => snd (ty_dep_graph_add g (fst e) (snd e))) E g in graph_ok g' /\ node_count g' = n /\
    forall u v, needs g' u v <-> needs g u v \/ (u, v) ∈ E /\ 0 <= u < n /\ 0 <= v < n).
  { induction E as [|[a b] E IH]; intros g G En HE; cbn [fold_left]; [pose proof @not_elem_of_nil; split_and!; [done..|set_solver]|].
    apply Forall_cons in HE as [[Ha Hb] HE]. cbn [fst snd] in *.
    destruct (IH (snd (ty_dep_graph_add g a b))) as (I1 & I2 & I3); [by apply add_ok|unfold ty_dep_graph_add; by repeat case_match|done|].
    split_and!; [done|done|]. intros u v. rewrite I3, add_needs, elem_of_cons, En by done.
    assert (Hp : (u, v) = (a, b) <-> u = a /\ v = b) by (split; [by intros [= -> ->]|by intros [-> ->]]). rewrite Hp.
    split; [intros [[?|(-> & -> & ? & ?)]|(? & ?)]|intros [?|([[-> ->]|?] & ? & ?)]]; tauto. }
  intros HE. destruct (G (zero_graph n)) as (G1 & G2 & G3); [by apply zero_graph_ok|done|done|].
  split_and!; [done|done|]. intros u v. rewrite G3. split; [|by right]. intros [(_ & _ & Hz)|]; [|done]. by unfold adj_bit in Hz.
Qed.
End Graph.

(** ** Results *)

(** C27. The dependency sort.  For every set of at most 128 drivers and
    recorded dependencies the sort ends without leaving its arrays.  It
    reports a cycle exactly if some driver needs itself, directly or
    through others; otherwise it lists every driver once, each one before
    the drivers it needs. *)
Theorem toposort_correct (n : Z) (E : list (Z * Z)) :
  0 <= n <= 128 -> Forall (fun e => 0 <= fst e /\ 0 <= snd e) E ->
  let R u v := (u, v) ∈ E /\ 0 <= u < n /\ 0 <= v < n in
  exists st g, ty_dep_graph_toposort (build n E) = Some (st, g) /\
    (st = TYKID_OK /\ topo g ≡ₚ seqZ 0 n /\
       (forall u v, R u v -> exists i j, (i < j)%nat /\ topo g !! i = Some u /\ topo g !! j = Some v) /\ (forall v, ~ tc R v v) \/
     st = TYKID_ERR_CYCLE /\ exists v, tc R v v).
Proof.
  intros Hn HE R. destruct (build_spec n E Hn HE) as (G & En & HR).
  assert (Htc : forall u v, tc (needs (build n E)) u v <-> tc R u v).
  { intros u v. split; (induction 1 as [? ? Hx|? ? ? Hx _ IH]; apply HR in Hx; [by apply tc_once|by eapply tc_l]). }
  destruct (toposort_spec _ G) as (st & g' & Es & _ & H). exists st, g'. split; [done|]. rewrite En in H.
  destruct H as [(-> & Hp & Ho & Hc)|(-> & v & Hv)].
  - left. split_and!; [done|done| |]. { intros u v Huv. apply Ho. by apply HR. } { intros v Hv. by apply (Hc v), Htc. }
  - right. split; [done|]. exists v. by apply Htc.
Qed.

Lemma toposort_correct_witness :
  (exists st g, ty_dep_graph_toposort (build 3 [(0, 1); (2, 0)]) = Some (st, g) /\ st = TYKID_OK /\ topo g = [2; 0; 1]) /\
  (exists st g, ty_dep_graph_toposort (build 3 [(0, 1); (1, 2); (2, 1)]) = Some (st, g) /\ st = TYKID_ERR_CYCLE).
Proof.
  split.
  - destruct (toposort_correct 3 [(0, 1); (2, 0)]) as (st & g & E & _); [lia|repeat constructor; cbn; lia|].
    exists st, g. split; [done|]. vm_compute in E. by injection E as <- <-.
  - destruct (toposort_correct 3 [(0, 1); (1, 2); (2, 1)]) as (st & g & E & _); [lia|repeat constructor; cbn; lia|].
    exists st, g. split; [done|]. vm_compute in E. by injection E as <- <-.
Defined.
