(* ===== verification/TyPolicy.v ===== *)
(** * TYKID: access policy of drivers

    Each driver has a record of capabilities and of address ranges it may
    touch, sealed with a keyed hash.  [tykid_policy_check] answers an access
    from the capabilities, a small cache of hashes of accesses that were
    allowed before, and a binary search in the sorted ranges.

    Sources: security/tykid/src/tykid_policy.c. *)

From stdpp Require Import base list sorting.
From Stdlib Require Import ZArith Lia.
From S2P Require Import Prelude TyCrypto Tykid.

#[local] Opaque ty_siphash24.

(** ** Data *)

Definition TY_CAP_NONE : Z := 0x00.
Definition TY_CAP_OBSERVE : Z := 0x01.
Definition TY_CAP_CONTROL : Z := 0x02.
Definition TY_CAP_INTERRUPT : Z := 0x04.
Definition TY_CAP_DMA_OWN : Z := 0x08.
Definition TY_CAP_POWER : Z := 0x10.
Definition TY_CAP_FIRMWARE : Z := 0x20.
Definition TY_CAP_ALL : Z := 0x7F.

Definition caps (l : list Z) : Z := fold_left Z.lor l 0.

Definition TY_CAP_CLOSURE : list Z :=
  [TY_CAP_NONE;
   TY_CAP_OBSERVE;
   caps [TY_CAP_OBSERVE; TY_CAP_CONTROL];
   caps [TY_CAP_OBSERVE; TY_CAP_CONTROL; TY_CAP_INTERRUPT];
   caps [TY_CAP_OBSERVE; TY_CAP_CONTROL; TY_CAP_DMA_OWN];
   caps [TY_CAP_OBSERVE; TY_CAP_CONTROL; TY_CAP_INTERRUPT; TY_CAP_DMA_OWN; TY_CAP_POWER];
   caps [TY_CAP_OBSERVE; TY_CAP_CONTROL; TY_CAP_INTERRUPT; TY_CAP_DMA_OWN; TY_CAP_POWER; TY_CAP_FIRMWARE];
   TY_CAP_ALL].

Definition TY_ALLOW_MMIO : Z := 1.
Definition TY_ALLOW_IRQ : Z := 2.
Definition TY_ALLOW_DMA : Z := 3.
Definition TY_POLICY_MAX_ENTRIES : Z := 64.
Definition TY_BLOOM_SLOTS : Z := 8.

Record ty_allow_entry_t := AE { a_kind : Z; a_base : Z; a_limit : Z }.

(** [entries] is the used part of the array. *)
Record ty_driver_policy_t := POL {
  p_driver_id : Z; granted_caps : Z; declared_caps : Z; entries : list ty_allow_entry_t;
  bloom : list Z; bloom_cursor : Z; violation_count : Z; check_count : Z; sealed : bool; seal_hmac : Z }.

Definition zero_policy : ty_driver_policy_t := POL 0 0 0 [] (replicate 8 0) 0 0 0 false 0.

Record ty_policy_table_t := TAB { records : Z -> ty_driver_policy_t; t_count : Z }.

(** ** The cache of allowed accesses *)

Definition ty_bloom_hash (key : list Z) (drv_id addr kind : Z) : Z :=
  ty_siphash24 key (ty_put_u32le drv_id ++ ty_put_u64le addr ++ [kind]).

Definition ty_bloom_check (b : list Z) (h : Z) : bool := existsb (Z.eqb h) b.

Definition ty_bloom_insert (p : ty_driver_policy_t) (h : Z) : ty_driver_policy_t :=
  POL (p_driver_id p) (granted_caps p) (declared_caps p) (entries p)
      (<[Z.to_nat (Z.land (bloom_cursor p) (TY_BLOOM_SLOTS - 1)) := h]> (bloom p)) (u8 (bloom_cursor p + 1))
      (violation_count p) (check_count p) (sealed p) (seal_hmac p).

(** ** The ranges *)

Definition greater (e key : ty_allow_entry_t) : bool :=
  (a_kind key <? a_kind e) || ((a_kind e =? a_kind key) && (a_base key <? a_base e)).

(** The inner loop of the insertion sort, with [j] one more than in the
    code. *)
Fixpoint sift (j : nat) (key : ty_allow_entry_t) (l : list ty_allow_entry_t) : list ty_allow_entry_t :=
  match j with
  | O => <[0%nat := key]> l
  | S j' =>
    match l !! j' with
    | Some e => if greater e key then sift j' key (<[j := e]> l) else <[j := key]> l
    | None => l
    end
  end.

Fixpoint sort_loop (n i : nat) (l : list ty_allow_entry_t) : list ty_allow_entry_t :=
  match n with
  | O => l
  | S n => match l !! i with Some key => sort_loop n (S i) (sift i key l) | None => l end
  end.

Definition ty_allowlist_sort (l : list ty_allow_entry_t) : list ty_allow_entry_t := sort_loop (length l - 1) 1 l.

(** [None] when the fuel runs out. *)
Fixpoint contains_loop (fuel : nat) (l : list ty_allow_entry_t) (kind addr lo hi : Z) : option bool :=
  if negb (lo <? hi) then Some false else
  match fuel with
  | O => None
  | S fuel =>
    let mid := lo + (hi - lo) / 2 in
    e ← l !! Z.to_nat mid;
    if (a_kind e <? kind) || ((a_kind e =? kind) && (a_limit e <? addr)) then contains_loop fuel l kind addr (mid + 1) hi
    else if (kind <? a_kind e) || ((a_kind e =? kind) && (addr <? a_base e)) then contains_loop fuel l kind addr lo mid
    else Some ((a_kind e =? kind) && (a_base e <=? addr) && (addr <=? a_limit e))
  end.

Definition ty_allowlist_contains (p : ty_driver_policy_t) (kind addr : Z) : option bool :=
  contains_loop (length (entries p)) (entries p) kind addr 0 (Z.of_nat (length (entries p))).

(** ** Setting up a driver *)

Definition ty_default_caps_for_class (cls : Z) : Z :=
  match Z.land cls 0xFFFF0000 with
  | 0x00010000 => caps [TY_CAP_OBSERVE; TY_CAP_CONTROL; TY_CAP_DMA_OWN; TY_CAP_FIRMWARE]
  | 0x00020000 => caps [TY_CAP_OBSERVE; TY_CAP_CONTROL; TY_CAP_INTERRUPT; TY_CAP_DMA_OWN]
  | 0x00030000 => caps [TY_CAP_OBSERVE; TY_CAP_CONTROL; TY_CAP_INTERRUPT; TY_CAP_DMA_OWN]
  | 0x00040000 => caps [TY_CAP_OBSERVE; TY_CAP_CONTROL; TY_CAP_INTERRUPT; TY_CAP_DMA_OWN; TY_CAP_POWER]
  | 0x00050000 => caps [TY_CAP_OBSERVE; TY_CAP_CONTROL; TY_CAP_INTERRUPT; TY_CAP_DMA_OWN]
  | 0x00060000 => caps [TY_CAP_OBSERVE; TY_CAP_INTERRUPT]
  | 0x00070000 => caps [TY_CAP_OBSERVE; TY_CAP_CONTROL]
  | 0x00080000 => caps [TY_CAP_OBSERVE; TY_CAP_POWER]
  | _ => TY_CAP_OBSERVE
  end.

(** The bytes of the packed array. *)
Definition entry_bytes (e : ty_allow_entry_t) : list Z := [a_kind e; 0; 0; 0] ++ ty_put_u64le (a_base e) ++ ty_put_u64le (a_limit e).
Definition entries_hash (key : list Z) (l : list ty_allow_entry_t) : Z := ty_siphash24 key (concat (map entry_bytes l)).

(** The loop from bit 7 down; [i] is one more than the bit's number. *)
Fixpoint highest_bit (i : nat) (declared : Z) : nat :=
  match i with
  | O => 0
  | S i' => if negb (Z.land declared (Z.shiftl 1 (Z.of_nat i')) =? 0) then i else highest_bit i' declared
  end.

Definition ty_policy_seal (key : list Z) (p : ty_driver_policy_t) : Z * ty_driver_policy_t :=
  if sealed p then (TYKID_ERR_ALREADY_LOADED, p) else
  let closure := nth (highest_bit 7 (declared_caps p)) TY_CAP_CLOSURE TY_CAP_NONE in
  let l := ty_allowlist_sort (entries p) in
  (TYKID_OK, POL (p_driver_id p) (Z.land (granted_caps p) closure) (declared_caps p) l (bloom p) (bloom_cursor p)
               (violation_count p) (check_count p) true (entries_hash key l)).

(** [p->entries[p->entry_count++] = e] while there is room *)
Definition add_entry (c : bool) (e : ty_allow_entry_t) (l : list ty_allow_entry_t) : list ty_allow_entry_t :=
  if c && (Z.of_nat (length l) <? TY_POLICY_MAX_ENTRIES) then l ++ [e] else l.

Definition tykid_policy_init_driver (key : list Z) (T : ty_policy_table_t) (driver_id flags : Z) (dev : tykid_hw_device_t)
  : Z * ty_policy_table_t :=
  if TYKID_MAX_DRIVERS <=? driver_id then (TYKID_ERR_GENERIC, T) else
  let declared := u16 (Z.shiftr flags 16) in
  let granted := ty_default_caps_for_class (ty_class dev) in
  let granted := if declared =? 0 then granted else Z.land granted declared in
  let has_mmio := negb (mmio_base dev =? 0) && negb (mmio_size dev =? 0) in
  let limit := u64 (mmio_base dev + mmio_size dev - 1) in
  let l := add_entry has_mmio (AE TY_ALLOW_MMIO (mmio_base dev) limit) [] in
  let l := add_entry (negb (dev_irq dev =? 0)) (AE TY_ALLOW_IRQ (dev_irq dev) (dev_irq dev)) l in
  let l := add_entry (has_mmio && negb (Z.land granted TY_CAP_DMA_OWN =? 0)) (AE TY_ALLOW_DMA (mmio_base dev) limit) l in
  let '(st, p) := ty_policy_seal key (POL driver_id granted declared l (replicate 8 0) 0 0 0 false 0) in
  (st, TAB (upd (records T) driver_id p) (if st =? TYKID_OK then u32 (t_count T + 1) else t_count T)).

(** ** Checking *)

Definition p_count (p : ty_driver_policy_t) (violations checks : Z) : ty_driver_policy_t :=
  POL (p_driver_id p) (granted_caps p) (declared_caps p) (entries p) (bloom p) (bloom_cursor p) violations checks (sealed p) (seal_hmac p).

(** [None] is an access past the table. *)
Definition tykid_policy_check (key : list Z) (T : ty_policy_table_t) (driver_id kind addr required_cap : Z) : option (Z * ty_policy_table_t) :=
  if t_count T <=? driver_id then Some (TYKID_ERR_PERM, T) else
  if TYKID_MAX_DRIVERS <=? driver_id then None else
  let p := records T driver_id in
  let p := p_count p (violation_count p) (u64 (check_count p + 1)) in
  let put p := TAB (upd (records T) driver_id p) (t_count T) in
  let deny := (TYKID_ERR_PERM, put (p_count p (u64 (violation_count p + 1)) (check_count p))) in
  if Z.land (granted_caps p) required_cap =? 0 then Some deny else
  let bh := ty_bloom_hash key driver_id addr kind in
  if ty_bloom_check (bloom p) bh then Some (TYKID_OK, put p) else
  ok ← ty_allowlist_contains p kind addr;
  Some (if ok : bool then (TYKID_OK, put (ty_bloom_insert p bh)) else deny).

Definition no_caps (p : ty_driver_policy_t) : ty_driver_policy_t :=
  POL (p_driver_id p) TY_CAP_NONE (declared_caps p) (entries p) (bloom p) (bloom_cursor p) (violation_count p) (check_count p) (sealed p) (seal_hmac p).

Fixpoint recheck_loop (n : nat) (i : Z) (key : list Z) (R : Z -> ty_driver_policy_t) (violations : Z) : (Z -> ty_driver_policy_t) * Z :=
  match n with
  | O => (R, violations)
  | S n =>
    let p := R i in
    if negb (sealed p) then recheck_loop n (i + 1) key R violations else
    if entries_hash key (entries p) =? seal_hmac p then recheck_loop n (i + 1) key R violations
    else recheck_loop n (i + 1) key (upd R i (no_caps p)) (u32 (violations + 1))
  end.

Definition tykid_policy_recheck (key : list Z) (T : ty_policy_table_t) : option (Z * ty_policy_table_t) :=
  if TYKID_MAX_DRIVERS <? t_count T then None else
  let '(R, v) := recheck_loop (Z.to_nat (t_count T)) 0 key (records T) 0 in
  Some (if v =? 0 then TYKID_OK else TYKID_ERR_PERM, TAB R (t_count T)).

Definition tykid_policy_violation_count (T : ty_policy_table_t) (driver_id : Z) : Z :=
  if t_count T <=? driver_id then 2 ^ 64 - 1 else violation_count (records T driver_id).

(** ** The sort *)

Definition entry_le (a b : ty_allow_entry_t) : Prop := greater a b = false.

Lemma entry_le_iff a b : entry_le a b <-> a_kind a < a_kind b \/ (a_kind a = a_kind b /\ a_base a <= a_base b).
Proof. unfold entry_le, greater. lia. Qed.

Lemma greater_le a b : greater a b = true -> entry_le b a.
Proof. rewrite entry_le_iff. unfold greater. lia. Qed.

#[local] Instance entry_le_trans : Transitive entry_le.
Proof. intros a b c. rewrite !entry_le_iff. lia. Qed.

Lemma sift_spec key : forall pre x suf, exists r, sift (length pre) key (pre ++ x :: suf) = r ++ suf /\ r ≡ₚ key :: pre /\
  (StronglySorted entry_le pre -> StronglySorted entry_le r).
Proof.
  induction pre as [|e pre IH] using rev_ind; intros x suf.
  { exists [key]. split_and!; [done|done|]. intros _. by repeat constructor. }
  rewrite length_app, Nat.add_1_r. cbn [sift]. rewrite <- app_assoc. cbn [app].
  rewrite list_lookup_middle by done. destruct (greater e key) eqn:G.
  - replace (<[S (length pre) := e]> (pre ++ e :: x :: suf)) with (pre ++ e :: e :: suf).
    + destruct (IH e (e :: suf)) as (r & -> & Hp & Hs). exists (r ++ [e]). rewrite <- app_assoc. split_and!; [done|rewrite Hp; by rewrite app_comm_cons|].
      intros (H1 & H2 & H3)%StronglySorted_app. apply StronglySorted_app. split_and!; [|by apply Hs|by repeat constructor].
      intros a b Ha ->%list_elem_of_singleton. rewrite Hp in Ha. apply elem_of_cons in Ha as [->|Ha]; [by apply greater_le|]. apply H1; [done|by left].
    + rewrite insert_app_r_alt by lia. by replace (S (length pre) - length pre)%nat with 1%nat by lia.
  - exists (pre ++ [e; key]). rewrite insert_app_r_alt by lia. replace (S (length pre) - length pre)%nat with 1%nat by lia. cbn [insert list_insert].
    split_and!.
    + by rewrite <- app_assoc.
    + change [e; key] with ([e] ++ [key]). rewrite app_assoc. symmetry. apply Permutation_cons_append.
    + intros (H1 & H2 & H3)%StronglySorted_app. apply StronglySorted_app. split_and!; [|done|by repeat constructor].
      intros a b Ha [->|Hb]%elem_of_cons; [apply H1; [done|by left]|]. apply list_elem_of_singleton in Hb as ->.
      transitivity e; [apply H1; [done|by left]|exact G].
Qed.

Lemma sort_loop_spec n : forall i l, (i + n <= length l)%nat -> (1 <= i)%nat -> StronglySorted entry_le (take i l) ->
  sort_loop n i l ≡ₚ l /\ StronglySorted entry_le (take (i + n) (sort_loop n i l)).
Proof.
  induction n as [|n IH]; intros i l Hi H1 Hs; cbn [sort_loop]; [by rewrite Nat.add_0_r|].
  destruct (lookup_lt_is_Some_2 l i ltac:(lia)) as [key Ek]. rewrite Ek.
  assert (El : l = take i l ++ key :: drop (S i) l) by (by symmetry; apply take_drop_middle).
  destruct (sift_spec key (take i l) key (drop (S i) l)) as (r & E & Hp & Hr). rewrite length_take_le in E by lia. rewrite <- El in E.
  assert (Lr : length r = S i) by (rewrite Hp; cbn [length]; rewrite length_take; lia).
  assert (Hpl : sift i key l ≡ₚ l).
  { rewrite E, Hp. rewrite El at 3. by rewrite <- Permutation_middle. }
  destruct (IH (S i) (sift i key l)) as [I1 I2]; [rewrite Hpl; lia|lia| |].
  { rewrite E, take_app_length' by done. by apply Hr. }
  split; [by rewrite I1|]. by replace (i + S n)%nat with (S i + n)%nat by lia.
Qed.

Lemma sort_spec l : ty_allowlist_sort l ≡ₚ l /\ StronglySorted entry_le (ty_allowlist_sort l).
Proof.
  unfold ty_allowlist_sort. destruct l as [|e l]; [split; [done|constructor]|].
  destruct (sort_loop_spec (length (e :: l) - 1) 1 (e :: l)) as [H1 H2]; [cbn; lia|lia|by repeat constructor|].
  split; [done|]. rewrite take_ge in H2; [done|]. rewrite H1. cbn. lia.
Qed.

(** ** The search *)

Definition covers (l : list ty_allow_entry_t) (kind addr : Z) : Prop :=
  exists e, e ∈ l /\ a_kind e = kind /\ a_base e <= addr <= a_limit e.

(** Sorted, and ranges of the same kind apart. *)
Record ranges_ok (l : list ty_allow_entry_t) : Prop := {
  ro_sorted : StronglySorted entry_le l;
  ro_apart : forall i j a b, l !! i = Some a -> l !! j = Some b -> (i < j)%nat -> a_kind a = a_kind b ->
    a_base a <= a_limit a < a_base b /\ a_base b <= a_limit b }.

Lemma sorted_lookup l : StronglySorted entry_le l -> forall i j a b, l !! i = Some a -> l !! j = Some b -> (i < j)%nat -> entry_le a b.
Proof.
  induction 1 as [|e l _ IH Hl]; intros i j a b Hi Hj Hij; [done|]. destruct j as [|j]; [lia|]. cbn in Hj.
  destruct i as [|i]; [|eapply IH; [done|done|lia]]. cbn in Hi. injection Hi as ->. rewrite Forall_forall in Hl. apply Hl. by eapply list_elem_of_lookup_2.
Qed.

(** The entry at [mid] and an entry that covers the access. *)
Lemma search_side l kind addr mid e m c : ranges_ok l -> l !! mid = Some e -> l !! m = Some c -> a_kind c = kind -> a_base c <= addr <= a_limit c ->
  (a_kind e < kind \/ (a_kind e = kind /\ a_limit e < addr) -> (mid < m)%nat) /\
  (kind < a_kind e \/ (a_kind e = kind /\ addr < a_base e) -> (m < mid)%nat).
Proof.
  intros [Hs Ha] He Hm Hk Hc. destruct (Nat.lt_trichotomy mid m) as [Hlt|[->|Hlt]].
  - split; [done|]. intros H. exfalso. pose proof (sorted_lookup l Hs _ _ _ _ He Hm Hlt) as H1%entry_le_iff.
    destruct (Z.eq_dec (a_kind e) (a_kind c)) as [E|]; [|lia]. pose proof (Ha _ _ _ _ He Hm Hlt E). lia.
  - replace c with e in * by congruence. lia.
  - split; [|done]. intros H. exfalso. pose proof (sorted_lookup l Hs _ _ _ _ Hm He Hlt) as H1%entry_le_iff.
    destruct (Z.eq_dec (a_kind c) (a_kind e)) as [E|]; [|lia]. pose proof (Ha _ _ _ _ Hm He Hlt E). lia.
Qed.

Lemma contains_loop_spec l kind addr : ranges_ok l -> forall fuel lo hi, 0 <= lo <= hi -> hi <= Z.of_nat (length l) -> hi - lo <= Z.of_nat fuel ->
  (forall m c, l !! m = Some c -> a_kind c = kind -> a_base c <= addr <= a_limit c -> lo <= Z.of_nat m < hi) ->
  exists b, contains_loop fuel l kind addr lo hi = Some b /\ (b = true <-> covers l kind addr).
Proof.
  intros Hr. induction fuel as [|fuel IH]; intros lo hi Hlo Hhi Hf Hin; cbn [contains_loop]; destruct (Z.ltb_spec lo hi) as [Hl|Hl]; cbn [negb].
  1: cbn in Hf; lia.
  1,3: exists false; split; [done|]; split; [done|]; intros (c & (m & Hm)%list_elem_of_lookup_1 & Hk & Hc); specialize (Hin m c Hm Hk Hc); lia.
  set (mid := lo + (hi - lo) / 2). assert (Hmid : lo <= mid < hi) by (unfold mid; clear -Hl; zlia).
  destruct (lookup_lt_is_Some_2 l (Z.to_nat mid) ltac:(lia)) as [e He]. rewrite He. cbn [mbind option_bind].
  assert (Hside := fun m c Hm => search_side l kind addr (Z.to_nat mid) e m c Hr He Hm).
  destruct (_ || _) eqn:C1; [|destruct (_ || _) eqn:C2 in |- *].
  - apply IH; [lia|lia|lia|]. intros m c Hm Hk Hc. specialize (Hin m c Hm Hk Hc). destruct (Hside m c Hm Hk Hc) as [H1 _].
    specialize (H1 ltac:(lia)). lia.
  - apply IH; [lia|lia|lia|]. intros m c Hm Hk Hc. specialize (Hin m c Hm Hk Hc). destruct (Hside m c Hm Hk Hc) as [_ H2].
    specialize (H2 ltac:(lia)). lia.
  - eexists. split; [reflexivity|]. split; [|lia]. intros _. exists e. split; [by eapply list_elem_of_lookup_2|]. lia.
Qed.

Lemma contains_spec p kind addr : ranges_ok (entries p) ->
  exists b, ty_allowlist_contains p kind addr = Some b /\ (b = true <-> covers (entries p) kind addr).
Proof.
  intros Hr. apply contains_loop_spec; [done|lia|lia|lia|]. intros m c Hm _ _. pose proof (lookup_lt_Some _ _ _ Hm). lia.
Qed.

(** ** What a driver may do *)

(** Before and after sealing. *)
Definition base_caps (flags : Z) (dev : tykid_hw_device_t) : Z :=
  let declared := u16 (Z.shiftr flags 16) in
  let granted := ty_default_caps_for_class (ty_class dev) in
  if declared =? 0 then granted else Z.land granted declared.

Definition caps_for (flags : Z) (dev : tykid_hw_device_t) : Z :=
  Z.land (base_caps flags dev) (nth (highest_bit 7 (u16 (Z.shiftr flags 16))) TY_CAP_CLOSURE TY_CAP_NONE).

Definition has_mmio (dev : tykid_hw_device_t) : Prop := mmio_base dev <> 0 /\ mmio_size dev <> 0.

Definition dev_allows (flags : Z) (dev : tykid_hw_device_t) (kind addr : Z) : Prop :=
  let in_mmio := has_mmio dev /\ mmio_base dev <= addr <= u64 (mmio_base dev + mmio_size dev - 1) in
  kind = TY_ALLOW_MMIO /\ in_mmio \/
  kind = TY_ALLOW_IRQ /\ dev_irq dev <> 0 /\ addr = dev_irq dev \/
  kind = TY_ALLOW_DMA /\ in_mmio /\ Z.land (base_caps flags dev) TY_CAP_DMA_OWN <> 0.

Definition dev_entries (flags : Z) (dev : tykid_hw_device_t) : list ty_allow_entry_t :=
  let mmio := negb (mmio_base dev =? 0) && negb (mmio_size dev =? 0) in
  let limit := u64 (mmio_base dev + mmio_size dev - 1) in
  (if mmio then [AE TY_ALLOW_MMIO (mmio_base dev) limit] else []) ++
  (if negb (dev_irq dev =? 0) then [AE TY_ALLOW_IRQ (dev_irq dev) (dev_irq dev)] else []) ++
  (if mmio && negb (Z.land (base_caps flags dev) TY_CAP_DMA_OWN =? 0) then [AE TY_ALLOW_DMA (mmio_base dev) limit] else []).

(** A driver's record right after it was set up, but for its counters and
    cache. *)
Definition new_policy (key : list Z) (id flags : Z) (dev : tykid_hw_device_t) : ty_driver_policy_t :=
  let l := ty_allowlist_sort (dev_entries flags dev) in
  POL id (caps_for flags dev) (u16 (Z.shiftr flags 16)) l (replicate 8 0) 0 0 0 true (entries_hash key l).

Lemma init_eq key T id flags dev : id < 128 ->
  tykid_policy_init_driver key T id flags dev = (TYKID_OK, TAB (upd (records T) id (new_policy key id flags dev)) (u32 (t_count T + 1))).
Proof.
  intros Hid. unfold tykid_policy_init_driver, TYKID_MAX_DRIVERS. rewrite (proj2 (Z.leb_gt _ _)) by lia.
  fold (base_caps flags dev). unfold new_policy, caps_for, dev_entries, ty_policy_seal. cbn [sealed].
  by destruct (negb (mmio_base dev =? 0) && negb (mmio_size dev =? 0)), (negb (dev_irq dev =? 0)), (negb (Z.land (base_caps flags dev) TY_CAP_DMA_OWN =? 0)).
Qed.

Lemma covers_app l1 l2 kind addr : covers (l1 ++ l2) kind addr <-> covers l1 kind addr \/ covers l2 kind addr.
Proof. unfold covers. setoid_rewrite elem_of_app. naive_solver. Qed.

Lemma covers_if (b : bool) e kind addr : covers (if b then [e] else []) kind addr <-> b = true /\ a_kind e = kind /\ a_base e <= addr <= a_limit e.
Proof.
  unfold covers. destruct b; [|split; [intros (x & Hx & _); by apply elem_of_nil in Hx|by intros [? _]]].
  split; [intros (x & ->%list_elem_of_singleton & H); done|intros [_ H]; exists e; by rewrite list_elem_of_singleton].
Qed.

Lemma covers_dev flags dev kind addr : covers (ty_allowlist_sort (dev_entries flags dev)) kind addr <-> dev_allows flags dev kind addr.
Proof.
  assert (Hs : covers (ty_allowlist_sort (dev_entries flags dev)) kind addr <-> covers (dev_entries flags dev) kind addr).
  { unfold covers. split; intros (e & He & H); exists e; (split; [|done]); by rewrite (proj1 (sort_spec _)) in *. }
  rewrite Hs. unfold dev_entries, dev_allows, has_mmio. cbv zeta. rewrite !covers_app, !covers_if. cbn [a_kind a_base a_limit].
  rewrite !andb_true_iff, !negb_true_iff, !Z.eqb_neq. intuition lia.
Qed.

Lemma dev_ranges_ok flags dev : ranges_ok (ty_allowlist_sort (dev_entries flags dev)).
Proof.
  destruct (sort_spec (dev_entries flags dev)) as [Hp Hs]. constructor; [done|]. intros i j a b Hi Hj Hij Hk. exfalso.
  assert (Hd : NoDup (a_kind <$> ty_allowlist_sort (dev_entries flags dev))).
  { rewrite Hp. unfold dev_entries. destruct (_ && _), (negb (dev_irq dev =? 0)), (negb (Z.land _ _ =? 0)); cbn [andb app fmap list_fmap a_kind];
      repeat (apply NoDup_cons; split; [|]); try apply NoDup_nil_2; by rewrite ?not_elem_of_cons; intuition (done || (by eapply not_elem_of_nil)). }
  assert (i = j); [|lia]. apply (NoDup_lookup _ _ _ (a_kind a) Hd); rewrite list_lookup_fmap; [by rewrite Hi|by rewrite Hj, Hk].
Qed.

(** ** Sequences of calls *)

Inductive policy_op :=
| PInit (id flags : Z) (dev : tykid_hw_device_t)
| PCheck (id kind addr cap : Z)
| PRecheck.

Definition p_step (key : list Z) (T : ty_policy_table_t) (op : policy_op) : option (Z * ty_policy_table_t) :=
  match op with
  | PInit id flags dev => Some (tykid_policy_init_driver key T id flags dev)
  | PCheck id kind addr cap => tykid_policy_check key T id kind addr cap
  | PRecheck => tykid_policy_recheck key T
  end.

Fixpoint p_run (key : list Z) (T : ty_policy_table_t) (ops : list policy_op) : option ty_policy_table_t :=
  match ops with
  | [] => Some T
  | op :: ops => '(_, T) ← p_step key T op; p_run key T ops
  end.

Definition zero_table : ty_policy_table_t := TAB (fun _ => zero_policy) 0.

(** The drivers set up so far, and with what. *)
Definition setup := Z -> option (Z * tykid_hw_device_t).
Definition setup_op (h : setup) (op : policy_op) : setup :=
  match op with PInit id flags dev => upd h id (Some (flags, dev)) | _ => h end.
Definition setups (ops : list policy_op) : setup := fold_left setup_op ops (fun _ => None).

Definition is_init (op : policy_op) : bool := match op with PInit _ _ _ => true | _ => false end.
Definition inits (ops : list policy_op) : Z := Z.of_nat (length (filter (fun op => is_init op = true) ops)).

Definition op_in_range (op : policy_op) : Prop :=
  match op with PInit id _ _ => 0 <= id < 128 | PCheck id _ _ _ => 0 <= id | PRecheck => True end.

(** A cached hash is the initial zero or that of an allowed access. *)
Definition cached (key : list Z) (id flags : Z) (dev : tykid_hw_device_t) (h : Z) : Prop :=
  h = 0 \/ exists kind addr, dev_allows flags dev kind addr /\ h = ty_bloom_hash key id addr kind.

Record pol_ok (key : list Z) (id flags : Z) (dev : tykid_hw_device_t) (p : ty_driver_policy_t) : Prop := {
  po_caps : granted_caps p = caps_for flags dev;
  po_entries : entries p = ty_allowlist_sort (dev_entries flags dev);
  po_seal : seal_hmac p = entries_hash key (entries p);
  po_bloom : Forall (cached key id flags dev) (bloom p) }.

Record table_ok (key : list Z) (T : ty_policy_table_t) (h : setup) (n : Z) : Prop := {
  to_count : t_count T = n;
  to_some : forall id flags dev, h id = Some (flags, dev) -> pol_ok key id flags dev (records T id);
  to_none : forall id, h id = None -> granted_caps (records T id) = 0 /\ sealed (records T id) = false }.

Lemma zero_table_ok key : table_ok key zero_table (fun _ => None) 0.
Proof. by constructor. Qed.

Lemma put_ok key T h n id p : table_ok key T h n ->
  (forall flags dev, h id = Some (flags, dev) -> pol_ok key id flags dev p) ->
  (h id = None -> granted_caps p = 0 /\ sealed p = false) -> table_ok key (TAB (upd (records T) id p) (t_count T)) h n.
Proof.
  intros [H1 H2 H3] Hs Hn. constructor; [done|..]; cbn [records].
  - intros i flags dev Hi. destruct (Z.eq_dec i id) as [->|Hne]; [rewrite upd_eq; by apply Hs|rewrite upd_ne by done; by apply H2].
  - intros i Hi. destruct (Z.eq_dec i id) as [->|Hne]; [rewrite upd_eq; by apply Hn|rewrite upd_ne by done; by apply H3].
Qed.

Lemma init_step_ok key T h n id flags dev : table_ok key T h n -> 0 <= id < 128 -> 0 <= n < 2 ^ 32 - 1 ->
  table_ok key (snd (tykid_policy_init_driver key T id flags dev)) (upd h id (Some (flags, dev))) (n + 1).
Proof.
  intros [H1 H2 H3] Hid Hn. rewrite init_eq by lia. cbn [snd]. constructor; cbn [t_count records].
  - rewrite H1. unfold u32. apply Z.mod_small. lia.
  - intros i f d. destruct (Z.eq_dec i id) as [->|Hne]; [rewrite !upd_eq|rewrite !upd_ne by done; apply H2].
    intros [= <- <-]. constructor; [done|done|done|]. apply Forall_replicate. by left.
  - intros i. destruct (Z.eq_dec i id) as [->|Hne]; [by rewrite !upd_eq|rewrite !upd_ne by done; apply H3].
Qed.

Lemma pol_ok_count key id flags dev p v c : pol_ok key id flags dev p -> pol_ok key id flags dev (p_count p v c).
Proof. by intros []. Qed.

Lemma bloom_check_elem b h : ty_bloom_check b h = true <-> h ∈ b.
Proof. unfold ty_bloom_check. rewrite existsb_exists. setoid_rewrite Z.eqb_eq. rewrite list_elem_of_In. naive_solver. Qed.

(** One check. *)
Lemma check_spec key T h n id kind addr cap : table_ok key T h n -> n <= 128 -> 0 <= id ->
  exists st T', tykid_policy_check key T id kind addr cap = Some (st, T') /\ table_ok key T' h n /\ (st = TYKID_OK \/ st = TYKID_ERR_PERM) /\
    (st = TYKID_OK -> id < n /\ exists flags dev, h id = Some (flags, dev) /\ Z.land (caps_for flags dev) cap <> 0 /\
       (dev_allows flags dev kind addr \/ cached key id flags dev (ty_bloom_hash key id addr kind))) /\
    (forall flags dev, id < n -> h id = Some (flags, dev) -> Z.land (caps_for flags dev) cap <> 0 -> dev_allows flags dev kind addr -> st = TYKID_OK).
Proof.
  intros TO Hn Hid. pose proof TO as [H1 H2 H3]. unfold tykid_policy_check. rewrite H1.
  destruct (Z.leb_spec n id) as [Hge|Hlt].
  { exists TYKID_ERR_PERM, T. split_and!; [done|done|by right|done|intros; lia]. }
  unfold TYKID_MAX_DRIVERS. rewrite (proj2 (Z.leb_gt 128 id)) by lia. set (p := records T id) in *.
  cbn [granted_caps p_count bloom violation_count check_count].
  assert (Hdeny : forall v c, table_ok key (TAB (upd (records T) id (p_count p v c)) n) h n).
  { intros v c. rewrite <- H1. apply put_ok; [by rewrite H1|..].
    - intros flags dev Hh. by apply pol_ok_count, H2.
    - apply H3. }
  destruct (h id) as [[flags dev]|] eqn:Eh.
  2: { destruct (H3 id Eh) as [Hg _]. fold p in Hg. rewrite Hg, Z.land_0_l. cbn [Z.eqb]. eexists _, _. split; [reflexivity|].
       split_and!; [apply Hdeny|by right|done|done]. }
  pose proof (H2 id flags dev Eh) as P. fold p in P. rewrite (po_caps _ _ _ _ _ P).
  destruct (Z.eqb_spec (Z.land (caps_for flags dev) cap) 0) as [Hc|Hc].
  { eexists _, _. split; [reflexivity|]. split_and!; [apply Hdeny|by right|done|]. by intros f d _ [= <- <-]. }
  destruct (ty_bloom_check (bloom p) _) eqn:Eb.
  { eexists _, _. split; [reflexivity|]. split_and!; [apply Hdeny|by left| |done]. intros _. split; [lia|]. exists flags, dev. split_and!; [done|done|].
    right. apply bloom_check_elem in Eb. pose proof (po_bloom _ _ _ _ _ P) as F. rewrite Forall_forall in F. by apply F. }
  destruct (contains_spec (p_count p (violation_count p) (u64 (check_count p + 1))) kind addr) as (b & -> & Hb).
  { cbn [entries p_count]. rewrite (po_entries _ _ _ _ _ P). apply dev_ranges_ok. }
  cbn [entries p_count] in Hb. rewrite (po_entries _ _ _ _ _ P), covers_dev in Hb. cbn [mbind option_bind].
  destruct b; eexists _, _; (split; [reflexivity|]).
  - split_and!; [|by left| |done].
    + rewrite <- H1. apply put_ok; [by rewrite H1| |by rewrite Eh]. rewrite Eh. intros f d [= <- <-]. destruct P as [P1 P2 P3 P4].
      constructor; [done|done|done|]. cbn [bloom ty_bloom_insert]. apply Forall_insert; [done|]. right. exists kind, addr. split; [by apply Hb|done].
    + intros _. split; [lia|]. exists flags, dev. split_and!; [done|done|]. left. by apply Hb.
  - split_and!; [apply Hdeny|by right|done|]. intros f d _ [= <- <-] _ Ha. apply Hb in Ha. done.
Qed.

Lemma recheck_loop_clean key R n : (forall i, 0 <= i -> sealed (R i) = true -> seal_hmac (R i) = entries_hash key (entries (R i))) ->
  forall i, 0 <= i -> recheck_loop n i key R 0 = (R, 0).
Proof.
  intros Hs. induction n as [|n IH]; intros i Hi; cbn [recheck_loop]; [done|]. destruct (sealed (R i)) eqn:E; cbn [negb]; [|apply IH; lia].
  rewrite (Hs i Hi E), Z.eqb_refl. apply IH. lia.
Qed.

Lemma recheck_ok key T h n : table_ok key T h n -> n <= 128 -> exists st T', tykid_policy_recheck key T = Some (st, T') /\ st = TYKID_OK /\ table_ok key T' h n.
Proof.
  intros TO Hn. pose proof TO as [H1 H2 H3]. unfold tykid_policy_recheck, TYKID_MAX_DRIVERS. rewrite H1, (proj2 (Z.ltb_ge _ _)) by lia.
  rewrite recheck_loop_clean; [|..|lia].
  - eexists _, _. split; [reflexivity|]. split; [done|]. by constructor.
  - intros i _ Hi. destruct (h i) as [[flags dev]|] eqn:Eh; [apply (H2 i flags dev Eh)|]. destruct (H3 i Eh) as [_ Hs]. congruence.
Qed.

Lemma p_run_ok key ops : forall T h n, table_ok key T h n -> 0 <= n -> n + inits ops <= 128 -> Forall op_in_range ops ->
  exists T', p_run key T ops = Some T' /\ table_ok key T' (fold_left setup_op ops h) (n + inits ops).
Proof.
  induction ops as [|op ops IH]; intros T h n TO Hn Hi Hr; [exists T; cbn; by rewrite Z.add_0_r|].
  apply Forall_cons in Hr as [Ho Hr]. unfold inits in *. rewrite filter_cons in *. cbn [p_run fold_left].
  destruct op as [id flags dev|id kind addr cap|]; cbn [is_init p_step setup_op] in *; [rewrite decide_True in * by done|rewrite decide_False in * by done..].
  - cbn [length] in *. pose proof (init_step_ok key T h n id flags dev TO Ho ltac:(lia)) as TO'.
    destruct (tykid_policy_init_driver key T id flags dev) as [st T']. cbn [mbind option_bind snd] in *.
    destruct (IH T' _ (n + 1) TO') as (T2 & E & O2); [lia|lia|done|]. exists T2. split; [done|].
    by replace (n + Z.of_nat (S (length (filter (fun op => is_init op = true) ops)))) with
      (n + 1 + Z.of_nat (length (filter (fun op => is_init op = true) ops))) by lia.
  - destruct (check_spec key T h n id kind addr cap TO) as (st & T' & -> & TO' & _); [lia|done|]. cbn [mbind option_bind]. by apply IH.
  - destruct (recheck_ok key T h n TO) as (st & T' & -> & _ & TO'); [lia|]. cbn [mbind option_bind]. by apply IH.
Qed.

(** ** Results *)


(** A network card with interrupt 11. *)
Definition ex_nic : tykid_hw_device_t := DEV 0x8086 0x100E 0x020000 0x00020002 11 0xFEB00000 0x20000.
Definition ex_ops : list policy_op := [PInit 0 0x000F0000 ex_nic; PCheck 0 TY_ALLOW_MMIO 0xFEB00010 TY_CAP_CONTROL; PRecheck].

Lemma ex_nic_dma : dev_allows 0x000F0000 ex_nic TY_ALLOW_DMA 0xFEB1FFFF.
Proof.
  unfold dev_allows, has_mmio. right. right. change (u64 _) with 0xFEB1FFFF. cbn [mmio_base mmio_size ex_nic].
  split_and!; [done|lia|lia|lia|lia|by vm_compute].
Qed.


Lemma recheck_loop_some key n : forall i R v j, i <= j < i + Z.of_nat n -> 0 <= v -> v + Z.of_nat n < 2 ^ 32 ->
  sealed (R j) = true -> entries_hash key (entries (R j)) <> seal_hmac (R j) ->
  granted_caps (fst (recheck_loop n i key R v) j) = TY_CAP_NONE /\ v < snd (recheck_loop n i key R v).
Proof.
  assert (Hmono : forall n i R v, 0 <= v -> v + Z.of_nat n < 2 ^ 32 -> v <= snd (recheck_loop n i key R v)).
  { clear n. induction n as [|n IH]; intros i R v H0 Hv; cbn [recheck_loop]; [done|]. destruct (negb _); [apply IH; lia|].
    destruct (_ =? _); [apply IH; lia|]. unfold u32. rewrite Z.mod_small by lia. specialize (IH (i + 1) (upd R i (no_caps (R i))) (v + 1)). lia. }
  assert (Hkeep : forall n i R v j, j < i -> fst (recheck_loop n i key R v) j = R j).
  { clear n. induction n as [|n IH]; intros i R v j Hj; cbn [recheck_loop]; [done|]. destruct (negb _); [apply IH; lia|].
    destruct (_ =? _); [apply IH; lia|]. rewrite IH by lia. by rewrite upd_ne by lia. }
  induction n as [|n IH]; intros i R v j Hj H0 Hv Hs Hh; [lia|]. cbn [recheck_loop]. destruct (Z.eq_dec i j) as [->|Hne].
  - rewrite Hs. cbn [negb]. rewrite (proj2 (Z.eqb_neq _ _) Hh). unfold u32. rewrite Z.mod_small by lia. rewrite Hkeep, upd_eq by lia. split; [done|].
    specialize (Hmono n (j + 1) (upd R j (no_caps (R j))) (v + 1)). lia.
  - destruct (negb _); [apply IH; [lia|done|lia|done|done]|]. destruct (_ =? _); [apply IH; [lia|done|lia|done|done]|].
    unfold u32. rewrite Z.mod_small by lia. destruct (IH (i + 1) (upd R i (no_caps (R i))) (v + 1) j) as [E1 E2]; [lia|lia|lia| | |split; [done|lia]];
      by rewrite upd_ne by lia.
Qed.

(** A record whose ranges were changed behind its seal: the recheck reports
    it and from then on the driver is refused everything. *)
Theorem policy_tamper_denied (key : list Z) (T : ty_policy_table_t) (id : Z) :
  0 <= id < t_count T -> t_count T <= 128 -> sealed (records T id) = true ->
  entries_hash key (entries (records T id)) <> seal_hmac (records T id) ->
  exists T1, tykid_policy_recheck key T = Some (TYKID_ERR_PERM, T1) /\
    forall kind addr cap, exists T2, tykid_policy_check key T1 id kind addr cap = Some (TYKID_ERR_PERM, T2).
Proof.
  intros Hid Hn Hs Hh. unfold tykid_policy_recheck, TYKID_MAX_DRIVERS. rewrite (proj2 (Z.ltb_ge _ _)) by lia.
  destruct (recheck_loop_some key (Z.to_nat (t_count T)) 0 (records T) 0 id) as [E1 E2]; [lia|lia|lia|done|done|].
  destruct (recheck_loop _ _ _ _ _) as [R v]. cbn [fst snd] in *. rewrite (proj2 (Z.eqb_neq v 0)) by lia.
  eexists. split; [reflexivity|]. intros kind addr cap. unfold tykid_policy_check, TYKID_MAX_DRIVERS. cbn [t_count records].
  rewrite !(proj2 (Z.leb_gt _ id)) by lia. cbn [granted_caps p_count]. rewrite E1, Z.land_0_l. cbn [Z.eqb]. eexists. reflexivity.
Qed.

(** ** Defects *)

(** A driver that declares no capabilities ends with none, although the
    set-up leaves it those of its device class. *)
Theorem policy_undeclared_nothing flags dev : 0 <= flags < 2 ^ 16 -> caps_for flags dev = 0.
Proof.
  intros Hf. unfold caps_for. replace (u16 (Z.shiftr flags 16)) with 0; [apply Z.land_0_r|].
  rewrite Z.shiftr_div_pow2, Z.div_small by lia. reflexivity.
Qed.

(** The table counts set-ups, not drivers: a driver set up alone with number
    5 is refused everything, and after setting up driver 0 for the 129th
    time a check of number 128 reads past the table. *)
Theorem policy_counts_setups :
  (forall kind addr cap, exists T T', p_run [] zero_table [PInit 5 0x007F0000 ex_nic] = Some T /\
     tykid_policy_check [] T 5 kind addr cap = Some (TYKID_ERR_PERM, T')) /\
  exists T, p_run [] zero_table (replicate 129 (PInit 0 0x007F0000 ex_nic)) = Some T /\
    tykid_policy_check [] T 128 TY_ALLOW_MMIO 0xFEB00000 TY_CAP_OBSERVE = None.
Proof.
  split.
  - intros kind addr cap. eexists _, _. split; reflexivity.
  - eexists. split; [vm_compute; reflexivity|]. vm_compute. reflexivity.
Qed.
