(* ===== verification/TyManifest.v ===== *)
(** * TYKID: driver manifests

    The text files that describe drivers, their parser, and the resolution
    of dependencies by name.  A text is the list of its bytes before the
    terminator.

    The theorems: the parser returns on every text; a manifest written in
    the documented form is read back exactly; a dependency that is followed
    by blanks is not found although names followed by blanks are.

    Source: security/tykid/src/tykid_registry.c. *)

From Stdlib Require Import String Ascii.
From stdpp Require Import base list sets.
From Stdlib Require Import ZArith Lia.
From S2P Require Import Prelude Tykid.

Definition bytes (s : string) : list Z := map (fun a => Z.of_nat (nat_of_ascii a)) (list_ascii_of_string s).

Definition NL : Z := 10.
Definition CR : Z := 13.
Definition TAB : Z := 9.
Definition BLANK : Z := 32.
Definition DOT : Z := 46.

(** The line buffers hold [TYKID_MAX_PATH + 64] bytes. *)
Definition LINE_MAX : nat := 319.

(** ** Words and numbers *)

Definition ty_hexdigit (c : Z) : Z :=
  if (48 <=? c) && (c <=? 57) then c - 48
  else if (97 <=? c) && (c <=? 102) then c - 97 + 10
  else if (65 <=? c) && (c <=? 70) then c - 65 + 10
  else -1.

Fixpoint parse_hex_from (v : Z) (s : list Z) : Z :=
  match s with
  | [] => v
  | c :: s => let d := ty_hexdigit c in
              if d <? 0 then v else parse_hex_from (Z.lor (u64 (Z.shiftl v 4)) d) s
  end.
Definition ty_parse_hex (s : list Z) : Z := parse_hex_from 0 s.

Fixpoint parse_dec_from (v : Z) (s : list Z) : Z :=
  match s with
  | [] => v
  | c :: s => if (48 <=? c) && (c <=? 57) then parse_dec_from (u32 (v * 10 + (c - 48))) s else v
  end.
Definition ty_parse_dec (s : list Z) : Z := parse_dec_from 0 s.

Fixpoint ty_skip_ws (s : list Z) : list Z :=
  match s with
  | c :: s' => if (c =? BLANK) || (c =? TAB) || (c =? CR) then ty_skip_ws s' else s
  | [] => []
  end.

Fixpoint ty_skip_token (s : list Z) : list Z :=
  match s with
  | c :: s' => if (c =? BLANK) || (c =? TAB) || (c =? CR) || (c =? NL) then ty_skip_ws s else ty_skip_token s'
  | [] => []
  end.

Fixpoint ty_key_eq (line key : list Z) : bool :=
  match key with
  | [] => (hd 0 line =? BLANK) || (hd 0 line =? TAB)
  | k :: key => if hd 0 line =? k then ty_key_eq (tl line) key else false
  end.

(** The string from its end: blanks and line ends are cut off. *)
Fixpoint strip_front (s : list Z) : list Z :=
  match s with
  | c :: s' => if (c =? NL) || (c =? CR) || (c =? BLANK) then strip_front s' else s
  | [] => []
  end.
Definition ty_strip_nl (s : list Z) : list Z := rev (strip_front (rev s)).

(** Bytes [i], [i+1], ... of [out]: the digits before a bad one are stored. *)
Fixpoint parse_hmac_from (n i : nat) (hex out : list Z) : bool * list Z :=
  match n with
  | O => (true, out)
  | S n =>
    let hi := ty_hexdigit (nth (i * 2) hex 0) in
    let lo := ty_hexdigit (nth (i * 2 + 1) hex 0) in
    if (hi <? 0) || (lo <? 0) then (false, out)
    else parse_hmac_from n (S i) hex (<[i := u8 (Z.lor (Z.shiftl hi 4) lo)]> out)
  end.
Definition ty_parse_hmac (hex out : list Z) : bool * list Z := parse_hmac_from (Z.to_nat TYKID_HMAC_DIGEST_BYTES) 0 hex out.

(** ** Lines *)

(** The copy loop: the line and the rest of the text. *)
Fixpoint copy_line (n : nat) (p : list Z) : list Z * list Z :=
  match n, p with
  | S n, c :: p' => if c =? NL then ([], p) else let '(l, r) := copy_line n p' in (c :: l, r)
  | _, _ => ([], p)
  end.

Definition next_line (p : list Z) : list Z * list Z :=
  let '(line, r) := copy_line LINE_MAX p in
  (line, match r with c :: r' => if c =? NL then r' else r | [] => [] end).

(** ** One manifest *)

(** The descriptor while it is filled in: everything a manifest does not set
    is zero.  [m_deps] holds the dependency names. *)
Record manifest := MF {
  m_name : list Z; m_path : list Z; m_classes : list Z; m_vendor : Z; m_device : Z; m_flags : Z;
  m_major : Z; m_minor : Z; m_priority : Z; m_hmac : list Z; m_deps : list (list Z) }.

Definition manifest_init : manifest := MF [] [] [] 0 0 0 0 0 128 (replicate 32 0) [].

(** From the first dot on. *)
Fixpoint after_dot (v : list Z) : list Z :=
  match v with c :: v' => if c =? DOT then v' else after_dot v' | [] => [] end.

Definition parse_line (m : manifest) (line : list Z) : manifest :=
  let 'MF nm pa cl ve de fl ma mi pr hm dp := m in
  let L := ty_skip_ws (ty_strip_nl line) in
  let v := ty_skip_token L in
  match L with
  | [] => m
  | c :: _ =>
    if c =? 35 then m
    else if ty_key_eq L (bytes "NAME") then MF (ty_strncpy v TYKID_MAX_NAME) pa cl ve de fl ma mi pr hm dp
    else if ty_key_eq L (bytes "PATH") then MF nm (ty_strncpy v TYKID_MAX_PATH) cl ve de fl ma mi pr hm dp
    else if ty_key_eq L (bytes "CLASS") then
      if (length cl <? 8)%nat then MF nm pa (cl ++ [u32 (ty_parse_hex v)]) ve de fl ma mi pr hm dp else m
    else if ty_key_eq L (bytes "VENDOR") then MF nm pa cl (u32 (ty_parse_hex v)) de fl ma mi pr hm dp
    else if ty_key_eq L (bytes "DEVICE") then MF nm pa cl ve (u32 (ty_parse_hex v)) fl ma mi pr hm dp
    else if ty_key_eq L (bytes "VERSION") then
      MF nm pa cl ve de fl (u16 (ty_parse_dec v)) (u16 (ty_parse_dec (after_dot v))) pr hm dp
    else if ty_key_eq L (bytes "PRIORITY") then MF nm pa cl ve de fl ma mi (u8 (ty_parse_dec v)) hm dp
    else if ty_key_eq L (bytes "FLAGS") then MF nm pa cl ve de (u32 (ty_parse_hex v)) ma mi pr hm dp
    else if ty_key_eq L (bytes "DEPENDS") then
      if Z.of_nat (length dp) <? TYKID_MAX_DEPS then MF nm pa cl ve de fl ma mi pr hm (dp ++ [ty_strncpy v TYKID_MAX_NAME]) else m
    else if ty_key_eq L (bytes "HMAC") then MF nm pa cl ve de fl ma mi pr (snd (ty_parse_hmac v hm)) dp
    else m
  end.

(** Every round takes at least one byte. *)
Fixpoint parse_lines (fuel : nat) (m : manifest) (p : list Z) : option manifest :=
  match p with
  | [] => Some m
  | _ =>
    match fuel with
    | O => None
    | S fuel => let '(line, p) := next_line p in parse_lines fuel (parse_line m line) p
    end
  end.

Definition manifest_drv (m : manifest) : tykid_driver_desc_t :=
  DRV (m_name m) (m_path m) (m_classes m) (m_vendor m) (m_device m) (m_flags m) (m_major m) (m_minor m)
      (replicate (length (m_deps m)) 0xFF) (m_priority m) (m_hmac m) TYKID_DRV_STATE_ABSENT TY_THREAT_NONE 0 0 [] [].

(** The descriptor is only used with [TYKID_OK]. *)
Definition ty_parse_manifest_buf (buf : list Z) : option (Z * tykid_driver_desc_t) :=
  m ← parse_lines (length buf) manifest_init buf;
  if bool_decide (m_name m = []) || bool_decide (m_path m = []) then Some (TYKID_ERR_PATH, manifest_drv m)
  else Some (TYKID_OK, manifest_drv m).

(** ** Dependencies *)

(** The scan's own pass over the text, which takes the lines as they are. *)
Fixpoint dep_lines (fuel : nat) (acc : list (list Z)) (p : list Z) : option (list (list Z)) :=
  match p with
  | [] => Some acc
  | _ =>
    if TYKID_MAX_DEPS <=? Z.of_nat (length acc) then Some acc else
    match fuel with
    | O => None
    | S fuel =>
      let '(line, p) := next_line p in
      let L := ty_skip_ws line in
      dep_lines fuel (if ty_key_eq L (bytes "DEPENDS") then acc ++ [ty_strncpy (ty_skip_token L) TYKID_MAX_NAME] else acc) p
    end
  end.
Definition scan_deps (buf : list Z) : option (list (list Z)) := dep_lines (length buf) [] buf.

Fixpoint find_driver (l : list tykid_driver_desc_t) (k : Z) (name : list Z) : Z :=
  match l with
  | [] => -1
  | d :: l => if ty_strncmp (dr_name d) name (Z.to_nat TYKID_MAX_NAME) =? 0 then k else find_driver l (k + 1) name
  end.

Definition with_deps (d : tykid_driver_desc_t) (deps : list Z) : tykid_driver_desc_t :=
  DRV (dr_name d) (dr_path d) (hw_classes d) (vendor_mask d) (device_mask d) (dr_flags d) (version_major d) (version_minor d)
      deps (dr_priority d) (dr_hmac d) (dr_state d) (threat_class d) (load_timestamp d) (base_vaddr d) (cert_der d) (sig_der d).

(** [names i] are the rows of the name table; unused rows are empty. *)
Definition resolve_one (reg : list tykid_driver_desc_t) (names : list (list Z)) (d : tykid_driver_desc_t) : tykid_driver_desc_t :=
  with_deps d (map (fun j => let k := find_driver reg 0 (nth j names []) in if k <? 0 then 0xFF else u8 k) (seq 0 (length (dr_deps d)))).

Definition ty_registry_resolve_deps (reg : list tykid_driver_desc_t) (table : list (list (list Z))) : list tykid_driver_desc_t :=
  imap (fun i d => resolve_one reg (nth i table []) d) reg.

(** ** The parser returns *)

Lemma copy_line_split n : forall p, let '(l, r) := copy_line n p in (p = l ++ r /\ (NL ∉ l) /\ (length l <= n)%nat /\
  (length l = n \/ hd NL r = NL)).
Proof.
  induction n as [|n IH]; intros p; [cbn; split_and!; [done|set_solver|lia|by left]|].
  destruct p as [|c p]; [cbn; split_and!; [done|set_solver|lia|by right]|]. cbn [copy_line].
  destruct (Z.eqb_spec c NL) as [->|Hc]; [cbn; split_and!; [done|set_solver|lia|by right]|].
  specialize (IH p). destruct (copy_line n p) as [l r]. destruct IH as (-> & Hn & Hl & H). cbn [length app].
  split_and!; [done|set_solver|lia|]. destruct H as [H|H]; [left; lia|by right].
Qed.

Lemma next_line_shorter c p : (length (snd (next_line (c :: p))) <= length p)%nat.
Proof.
  unfold next_line. pose proof (copy_line_split LINE_MAX (c :: p)) as H. destruct (copy_line LINE_MAX (c :: p)) as [l r].
  destruct H as (E & _ & _ & H). apply (f_equal length) in E. rewrite length_app in E. cbn [length snd] in *.
  destruct r as [|x r]; cbn [length hd] in *; [lia|]. destruct (Z.eqb_spec x NL); cbn [length] in *; [lia|].
  destruct H as [H|H]; [unfold LINE_MAX in H; lia|done].
Qed.

Lemma parse_lines_total : forall fuel m p, (length p <= fuel)%nat -> exists m', parse_lines fuel m p = Some m'.
Proof.
  induction fuel as [|fuel IH]; intros m [|c p] H; cbn [length] in H; [by exists m|lia|by exists m|]. cbn [parse_lines].
  pose proof (next_line_shorter c p) as L. destruct (next_line (c :: p)) as [line q]. cbn [snd] in L. apply IH. lia.
Qed.

Lemma dep_lines_total : forall fuel acc p, (length p <= fuel)%nat -> exists r, dep_lines fuel acc p = Some r.
Proof.
  induction fuel as [|fuel IH]; intros acc [|c p] H; cbn [length] in H; [by exists acc|lia|by exists acc|]. cbn [dep_lines].
  destruct (TYKID_MAX_DEPS <=? _); [by exists acc|].
  pose proof (next_line_shorter c p) as L. destruct (next_line (c :: p)) as [line q]. cbn [snd] in L. apply IH. lia.
Qed.

Lemma parse_lines_fuel : forall f f' m p, (length p <= f)%nat -> (length p <= f')%nat -> parse_lines f m p = parse_lines f' m p.
Proof.
  induction f as [|f IH]; intros f' m [|c p] H H'; cbn [length] in *; [by destruct f'|lia|by destruct f'|].
  destruct f' as [|f']; [lia|]. cbn [parse_lines].
  pose proof (next_line_shorter c p) as L. destruct (next_line (c :: p)) as [line q]. cbn [snd] in L. apply IH; lia.
Qed.

Lemma dep_lines_fuel : forall f f' acc p, (length p <= f)%nat -> (length p <= f')%nat -> dep_lines f acc p = dep_lines f' acc p.
Proof.
  induction f as [|f IH]; intros f' acc [|c p] H H'; cbn [length] in *; [by destruct f'|lia|by destruct f'|].
  destruct f' as [|f']; [lia|]. cbn [dep_lines]. destruct (TYKID_MAX_DEPS <=? _); [done|].
  pose proof (next_line_shorter c p) as L. destruct (next_line (c :: p)) as [line q]. cbn [snd] in L. apply IH; lia.
Qed.

(** ** Texts made of lines *)

Definition text (lines : list (list Z)) : list Z := concat (map (fun l => l ++ [NL]) lines).
Record good_line (l : list Z) : Prop := { gl_end : NL ∉ l; gl_fits : (length l <= LINE_MAX)%nat }.

Lemma copy_line_good n : forall l r, NL ∉ l -> (length l <= n)%nat -> copy_line n (l ++ NL :: r) = (l, NL :: r).
Proof.
  induction n as [|n IH]; intros [|c l] r Hn Hl; cbn [length] in Hl; [done|lia|done|]. cbn [app copy_line].
  rewrite (proj2 (Z.eqb_neq c NL)) by set_solver. by rewrite IH by (set_solver || lia).
Qed.

Lemma next_line_good l r : good_line l -> next_line (l ++ NL :: r) = (l, r).
Proof. intros [Hn Hl]. unfold next_line. by rewrite copy_line_good. Qed.

Lemma text_cons l ls : text (l :: ls) = l ++ NL :: text ls.
Proof. unfold text. cbn [map concat]. by rewrite <- app_assoc. Qed.

Lemma parse_text ls : forall m, Forall good_line ls -> parse_lines (length (text ls)) m (text ls) = Some (fold_left parse_line ls m).
Proof.
  induction ls as [|l ls IH]; intros m H; [done|]. apply Forall_cons in H as [Hl H]. rewrite text_cons.
  pose proof (next_line_good l (text ls) Hl) as E. destruct (l ++ NL :: text ls) as [|c p] eqn:Ep; [by destruct l|].
  cbn [length parse_lines]. rewrite E. cbn [fold_left]. rewrite <- (IH _ H). apply parse_lines_fuel; [|done].
  apply (f_equal length) in Ep. rewrite length_app in Ep. cbn [length] in Ep. lia.
Qed.

Definition dep_of (line : list Z) : option (list Z) :=
  let L := ty_skip_ws line in if ty_key_eq L (bytes "DEPENDS") then Some (ty_strncpy (ty_skip_token L) TYKID_MAX_NAME) else None.

Lemma dep_text ls : forall acc, Forall good_line ls -> (length acc + length (omap dep_of ls) <= 16)%nat ->
  dep_lines (length (text ls)) acc (text ls) = Some (acc ++ omap dep_of ls).
Proof.
  induction ls as [|l ls IH]; intros acc H Hd; [cbn; by rewrite app_nil_r|]. apply Forall_cons in H as [Hl H]. rewrite text_cons.
  pose proof (next_line_good l (text ls) Hl) as E. destruct (l ++ NL :: text ls) as [|c p] eqn:Ep; [by destruct l|].
  apply (f_equal length) in Ep. rewrite length_app in Ep. cbn [length] in Ep.
  cbn [length dep_lines]. unfold TYKID_MAX_DEPS. cbn [omap list_omap] in Hd |- *. unfold dep_of at 1 in Hd. unfold dep_of at 1.
  rewrite E. destruct (Z.leb_spec 16 (Z.of_nat (length acc))) as [Hf|Hf].
  - destruct (ty_key_eq (ty_skip_ws l) _); cbn [length] in Hd; [lia|].
    destruct (omap dep_of ls) eqn:Eo; [|cbn [length] in Hd; lia]. by rewrite app_nil_r.
  - rewrite (dep_lines_fuel _ (length (text ls))) by lia. destruct (ty_key_eq (ty_skip_ws l) _); cbn [length] in Hd.
    + rewrite IH by (done || (rewrite length_app; cbn [length]; lia)). by rewrite <- app_assoc.
    + by rewrite IH.
Qed.

(** ** Writing manifests *)

Definition digit (d : Z) : Z := if d <? 10 then 48 + d else 87 + d.
Fixpoint digits (n : nat) (base v : Z) : list Z :=
  match n with O => [] | S n => digits n base (v / base) ++ [digit (v mod base)] end.
Definition hexs (h : list Z) : list Z := concat (map (digits 2 16) h).

Definition entry (key : string) (v : list Z) : list Z := bytes key ++ BLANK :: v.

Definition manifest_lines (m : manifest) : list (list Z) :=
  [entry "NAME" (m_name m); entry "PATH" (m_path m)] ++ map (fun c => entry "CLASS" (digits 8 16 c)) (m_classes m) ++
  [entry "VENDOR" (digits 8 16 (m_vendor m)); entry "DEVICE" (digits 8 16 (m_device m));
   entry "VERSION" (digits 5 10 (m_major m) ++ DOT :: digits 5 10 (m_minor m));
   entry "PRIORITY" (digits 3 10 (m_priority m)); entry "FLAGS" (digits 8 16 (m_flags m))] ++
  map (entry "DEPENDS") (m_deps m) ++ [entry "HMAC" (hexs (m_hmac m))].

(** A word has only printing characters. *)
Definition word (v : list Z) : Prop := v <> [] /\ Forall (fun c => 32 < c < 256) v.

Record manifest_ok (m : manifest) : Prop := {
  mo_name : word (m_name m) /\ (length (m_name m) < 64)%nat;
  mo_path : word (m_path m) /\ (length (m_path m) < 256)%nat;
  mo_classes : Forall (fun c => 0 <= c < 2 ^ 32) (m_classes m) /\ (length (m_classes m) <= 8)%nat;
  mo_vendor : 0 <= m_vendor m < 2 ^ 32;
  mo_device : 0 <= m_device m < 2 ^ 32;
  mo_flags : 0 <= m_flags m < 2 ^ 32;
  mo_major : 0 <= m_major m < 2 ^ 16;
  mo_minor : 0 <= m_minor m < 2 ^ 16;
  mo_priority : 0 <= m_priority m < 2 ^ 8;
  mo_hmac : Forall (fun c => 0 <= c < 2 ^ 8) (m_hmac m) /\ length (m_hmac m) = 32%nat;
  mo_deps : Forall (fun v => word v /\ (length v < 64)%nat) (m_deps m) /\ (length (m_deps m) <= 16)%nat }.

(** *** Numbers *)

Lemma digit_cases d : 0 <= d < 16 -> digit d = 48 + d /\ d < 10 \/ digit d = 87 + d /\ 10 <= d.
Proof. unfold digit. destruct (Z.ltb_spec d 10); lia. Qed.

Lemma hexdigit_digit d : 0 <= d < 16 -> ty_hexdigit (digit d) = d.
Proof.
  intros H. unfold ty_hexdigit. destruct (digit_cases d H) as [[-> ?]|[-> ?]].
  - rewrite (proj2 (Z.leb_le 48 _)), (proj2 (Z.leb_le _ 57)) by lia. cbn [andb]. lia.
  - rewrite (proj2 (Z.leb_gt _ 57)), (proj2 (Z.leb_le 97 _)), (proj2 (Z.leb_le _ 102)) by lia. rewrite andb_false_r. cbn [andb]. lia.
Qed.

Lemma length_digits n base : forall v, length (digits n base v) = n.
Proof. induction n as [|n IH]; intros v; [done|]. cbn [digits]. rewrite length_app, IH. cbn. lia. Qed.

Lemma digits_word n base v : 2 <= base <= 16 -> (0 < n)%nat -> word (digits n base v).
Proof.
  intros Hb Hn. split; [intros E; apply (f_equal length) in E; rewrite length_digits in E; cbn in E; lia|]. clear Hn.
  revert v. induction n as [|n IH]; intros v; [constructor|]. cbn [digits]. apply Forall_app. split; [apply IH|]. constructor; [|constructor].
  pose proof (Z.mod_pos_bound v base). destruct (digit_cases (v mod base)); lia.
Qed.

Lemma parse_hex_digits n : (n <= 16)%nat -> forall v r, 0 <= v < 16 ^ Z.of_nat n ->
  parse_hex_from 0 (digits n 16 v ++ r) = parse_hex_from v r.
Proof.
  induction n as [|n IH]; intros Hn v r Hv; [cbn in *; f_equal; lia|]. cbn [digits]. rewrite <- app_assoc.
  rewrite Nat2Z.inj_succ, Z.pow_succ_r in Hv by lia. pose proof (Z.div_mod v 16). pose proof (Z.mod_pos_bound v 16).
  assert (0 <= v / 16 < 16 ^ Z.of_nat n) by (split; [apply Z.div_pos; lia|apply Z.div_lt_upper_bound; lia]). rewrite IH by lia.
  cbn [app parse_hex_from]. rewrite hexdigit_digit by lia. rewrite (proj2 (Z.ltb_ge _ 0)) by lia. f_equal.
  assert (16 ^ Z.of_nat n <= 2 ^ 60) by (change 16 with (2 ^ 4); rewrite <- Z.pow_mul_r by lia; apply Z.pow_le_mono_r; lia).
  unfold u64. rewrite Z.mod_small by (rewrite Z.shiftl_mul_pow2 by lia; lia). rewrite lor_shift by lia. lia.
Qed.

Lemma parse_dec_digits n : (n <= 9)%nat -> forall v r, 0 <= v < 10 ^ Z.of_nat n ->
  parse_dec_from 0 (digits n 10 v ++ r) = parse_dec_from v r.
Proof.
  induction n as [|n IH]; intros Hn v r Hv; [cbn in *; f_equal; lia|]. cbn [digits]. rewrite <- app_assoc.
  assert (10 ^ Z.of_nat (S n) <= 10 ^ 9) by (apply Z.pow_le_mono_r; lia).
  rewrite Nat2Z.inj_succ, Z.pow_succ_r in * by lia. pose proof (Z.div_mod v 10). pose proof (Z.mod_pos_bound v 10).
  assert (0 <= v / 10 < 10 ^ Z.of_nat n) by (split; [apply Z.div_pos; lia|apply Z.div_lt_upper_bound; lia]). rewrite IH by lia.
  cbn [app parse_dec_from]. destruct (digit_cases (v mod 10)) as [[-> ?]|[-> ?]]; [lia| |lia].
  rewrite (proj2 (Z.leb_le 48 _)), (proj2 (Z.leb_le _ 57)) by lia. cbn [andb]. f_equal. unfold u32. rewrite Z.mod_small; lia.
Qed.

Lemma parse_hex_u32 v : 0 <= v < 2 ^ 32 -> u32 (ty_parse_hex (digits 8 16 v)) = v.
Proof.
  intros H. unfold ty_parse_hex. rewrite <- (app_nil_r (digits 8 16 v)), parse_hex_digits by (lia || done). cbn. unfold u32. by rewrite Z.mod_small.
Qed.

Lemma nth_hexs h : forall i, (i < length h)%nat ->
  nth (i * 2) (hexs h) 0 = digit (nth i h 0 / 16 mod 16) /\ nth (i * 2 + 1) (hexs h) 0 = digit (nth i h 0 mod 16).
Proof.
  induction h as [|x h IH]; intros [|i] Hi; cbn [length] in Hi; [lia|lia|done|].
  replace (S i * 2)%nat with (S (S (i * 2))) by lia. cbn [hexs map concat digits app nth Nat.add]. apply IH. lia.
Qed.

Lemma parse_hmac_hexs h : Forall (fun c => 0 <= c < 2 ^ 8) h -> length h = 32%nat -> forall n i out, (n + i = 32)%nat -> length out = 32%nat ->
  parse_hmac_from n i (hexs h) out = (true, take i out ++ drop i h).
Proof.
  intros Hh Lh. induction n as [|n IH]; intros i out Hi Lo.
  - cbn in Hi. subst i. cbn. by rewrite take_ge, drop_ge, app_nil_r by lia.
  - destruct (lookup_lt_is_Some_2 h i) as [x Hx]; [lia|]. pose proof (Forall_lookup_1 _ _ _ _ Hh Hx) as Bx. cbn beta in Bx.
    cbn [parse_hmac_from]. destruct (nth_hexs h i) as [-> ->]; [lia|]. rewrite (nth_lookup_Some h i 0 x Hx).
    pose proof (Z.div_mod x 16). pose proof (Z.mod_pos_bound x 16). assert (0 <= x / 16 < 16) by (split; [apply Z.div_pos; lia|apply Z.div_lt_upper_bound; lia]).
    rewrite (Z.mod_small (x / 16)), !hexdigit_digit by lia. rewrite !(proj2 (Z.ltb_ge _ 0)) by lia. cbn [orb].
    rewrite lor_shift by lia. replace (u8 (x / 16 * 2 ^ 4 + x mod 16)) with x by (unfold u8; rewrite Z.mod_small; lia).
    rewrite IH by (rewrite ?length_insert; lia). f_equal. rewrite (take_S_r _ _ x) by (apply list_lookup_insert_eq; lia).
    rewrite take_insert_ge by lia. rewrite <- app_assoc. f_equal. cbn [app]. symmetry. by apply drop_S.
Qed.

(** *** Lines *)

Lemma strip_word p v : word v -> ty_strip_nl (p ++ v) = p ++ v.
Proof.
  intros [Hne Hv]. destruct v as [|c v _] using rev_ind; [done|]. apply Forall_app in Hv as [_ Hc]. inversion_clear Hc as [|? ? Bc _].
  unfold ty_strip_nl. rewrite app_assoc, rev_unit. cbn [strip_front]. unfold NL, CR, BLANK. rewrite !(proj2 (Z.eqb_neq c _)) by lia. cbn [orb].
  by rewrite <- rev_unit, rev_involutive.
Qed.

Lemma skip_ws_word v : word v -> ty_skip_ws v = v.
Proof.
  intros [Hne Hv]. destruct Hv as [|c v Hc Hv]; [done|]. cbn [ty_skip_ws]. unfold BLANK, TAB, CR. by rewrite !(proj2 (Z.eqb_neq c _)) by lia.
Qed.

Lemma after_dot_digits n v r : after_dot (digits n 10 v ++ DOT :: r) = r.
Proof.
  revert v r. induction n as [|n IH]; intros v r; [done|]. cbn [digits]. rewrite <- app_assoc. cbn [app].
  assert (H : forall l, Forall (fun c => 48 <= c) l -> after_dot (l ++ DOT :: r) = r).
  { clear. induction 1 as [|c l Hc Hl IH]; [done|]. cbn [app after_dot]. unfold DOT at 1. by rewrite (proj2 (Z.eqb_neq c 46)) by lia. }
  change (digits n 10 (v / 10) ++ digit (v mod 10) :: DOT :: r) with (digits n 10 (v / 10) ++ [digit (v mod 10)] ++ DOT :: r).
  rewrite app_assoc. apply (H (digits (S n) 10 v)). clear. revert v. induction n as [|n IH]; intros v; cbn [digits] in *.
  - constructor; [|constructor]. pose proof (Z.mod_pos_bound v 10). destruct (digit_cases (v mod 10)); lia.
  - apply Forall_app. split; [apply IH|]. constructor; [|constructor]. pose proof (Z.mod_pos_bound v 10). destruct (digit_cases (v mod 10)); lia.
Qed.

(** An entry's key is recognised and its value found. *)
Lemma key_eq_entry k' : forall k v, Forall (fun c => 32 < c < 256) k -> Forall (fun c => 32 < c < 256) k' ->
  ty_key_eq (k ++ BLANK :: v) k' = bool_decide (k = k').
Proof.
  induction k' as [|c' k' IH]; intros k v Hk Hk'; cbn [ty_key_eq].
  - destruct Hk as [|c k Hc Hk]; [done|]. cbn [app hd]. unfold BLANK, TAB. by rewrite !(proj2 (Z.eqb_neq c _)) by lia.
  - inversion_clear Hk' as [|? ? Hc' Hk'']. destruct Hk as [|c k Hc Hk]; cbn [app hd tl].
    + unfold BLANK. by rewrite (proj2 (Z.eqb_neq 32 c')) by lia.
    + destruct (Z.eqb_spec c c') as [->|Hne]; [|symmetry; apply bool_decide_eq_false; congruence].
      rewrite IH by done. apply bool_decide_ext. split; congruence.
Qed.

Lemma skip_token_entry k v : Forall (fun c => 32 < c < 256) k -> word v -> ty_skip_token (k ++ BLANK :: v) = v.
Proof.
  intros Hk Hv. induction Hk as [|c k Hc Hk IH]; cbn [app ty_skip_token]; [cbn; by apply skip_ws_word|].
  unfold BLANK, TAB, CR, NL. by rewrite !(proj2 (Z.eqb_neq c _)) by lia.
Qed.

Lemma strip_entry k v : word k -> word v -> ty_skip_ws (ty_strip_nl (k ++ BLANK :: v)) = k ++ BLANK :: v.
Proof.
  intros [Hne Hk] Hv. change (BLANK :: v) with ([BLANK] ++ v). rewrite app_assoc, (strip_word _ _ Hv), <- app_assoc.
  destruct Hk as [|c k Hc Hk]; [done|]. cbn [app ty_skip_ws]. unfold BLANK, TAB, CR. by rewrite !(proj2 (Z.eqb_neq c _)) by lia.
Qed.

Lemma skip_ws_entry k v : word k -> ty_skip_ws (k ++ BLANK :: v) = k ++ BLANK :: v.
Proof.
  intros [Hne Hk]. destruct Hk as [|c k Hc Hk]; [done|]. cbn [app ty_skip_ws]. unfold BLANK, TAB, CR. by rewrite !(proj2 (Z.eqb_neq c _)) by lia.
Qed.

Ltac key_word := split; [done|repeat constructor; vm_compute; split; reflexivity].
Ltac key_tests := repeat match goal with
  |- context [bool_decide (bytes ?a = bytes ?b)] =>
    let x := eval vm_compute in (bool_decide (bytes a = bytes b)) in change (bool_decide (bytes a = bytes b)) with x end; cbn match.
Ltac line k :=
  let Hv := fresh in let K := fresh in intros Hv; assert (K : word (bytes k)) by key_word;
  unfold parse_line, entry; rewrite (strip_entry _ _ K Hv), (skip_token_entry _ _ (proj2 K) Hv);
  rewrite !(key_eq_entry _ (bytes k)) by (apply K || (repeat constructor; vm_compute; split; reflexivity));
  key_tests; reflexivity.

Section lines.
Variables (nm pa cl : list Z) (ve de fl ma mi pr : Z) (hm : list Z) (dp : list (list Z)) (v : list Z).
Let m := MF nm pa cl ve de fl ma mi pr hm dp.

Lemma line_name : word v -> parse_line m (entry "NAME" v) = MF (ty_strncpy v 64) pa cl ve de fl ma mi pr hm dp.
Proof. line "NAME"%string. Qed.
Lemma line_path : word v -> parse_line m (entry "PATH" v) = MF nm (ty_strncpy v 256) cl ve de fl ma mi pr hm dp.
Proof. line "PATH"%string. Qed.
Lemma line_class : word v -> parse_line m (entry "CLASS" v) =
  if (length cl <? 8)%nat then MF nm pa (cl ++ [u32 (ty_parse_hex v)]) ve de fl ma mi pr hm dp else m.
Proof. line "CLASS"%string. Qed.
Lemma line_vendor : word v -> parse_line m (entry "VENDOR" v) = MF nm pa cl (u32 (ty_parse_hex v)) de fl ma mi pr hm dp.
Proof. line "VENDOR"%string. Qed.
Lemma line_device : word v -> parse_line m (entry "DEVICE" v) = MF nm pa cl ve (u32 (ty_parse_hex v)) fl ma mi pr hm dp.
Proof. line "DEVICE"%string. Qed.
Lemma line_version : word v -> parse_line m (entry "VERSION" v) =
  MF nm pa cl ve de fl (u16 (ty_parse_dec v)) (u16 (ty_parse_dec (after_dot v))) pr hm dp.
Proof. line "VERSION"%string. Qed.
Lemma line_priority : word v -> parse_line m (entry "PRIORITY" v) = MF nm pa cl ve de fl ma mi (u8 (ty_parse_dec v)) hm dp.
Proof. line "PRIORITY"%string. Qed.
Lemma line_flags : word v -> parse_line m (entry "FLAGS" v) = MF nm pa cl ve de (u32 (ty_parse_hex v)) ma mi pr hm dp.
Proof. line "FLAGS"%string. Qed.
Lemma line_depends : word v -> parse_line m (entry "DEPENDS" v) =
  if Z.of_nat (length dp) <? 16 then MF nm pa cl ve de fl ma mi pr hm (dp ++ [ty_strncpy v 64]) else m.
Proof. line "DEPENDS"%string. Qed.
Lemma line_hmac : word v -> parse_line m (entry "HMAC" v) = MF nm pa cl ve de fl ma mi pr (snd (ty_parse_hmac v hm)) dp.
Proof. line "HMAC"%string. Qed.
End lines.

Lemma lines_class nm pa ve de fl ma mi pr hm dp cs : forall cl, Forall (fun c => 0 <= c < 2 ^ 32) cs -> (length cl + length cs <= 8)%nat ->
  fold_left parse_line (map (fun c => entry "CLASS" (digits 8 16 c)) cs) (MF nm pa cl ve de fl ma mi pr hm dp)
  = MF nm pa (cl ++ cs) ve de fl ma mi pr hm dp.
Proof.
  induction cs as [|c cs IH]; intros cl H Hl; [cbn; by rewrite app_nil_r|]. inversion_clear H as [|? ? Hc Hcs]. cbn [map fold_left length] in *.
  rewrite line_class by (apply digits_word; lia). rewrite (proj2 (Nat.ltb_lt _ 8)) by lia. rewrite parse_hex_u32 by done.
  rewrite IH by (done || (rewrite length_app; cbn [length]; lia)). by rewrite <- app_assoc.
Qed.

Lemma lines_depends nm pa cl ve de fl ma mi pr hm ds : forall dp, Forall (fun v => word v /\ (length v < 64)%nat) ds -> (length dp + length ds <= 16)%nat ->
  fold_left parse_line (map (entry "DEPENDS") ds) (MF nm pa cl ve de fl ma mi pr hm dp) = MF nm pa cl ve de fl ma mi pr hm (dp ++ ds).
Proof.
  induction ds as [|d ds IH]; intros dp H Hl; [cbn; by rewrite app_nil_r|]. inversion_clear H as [|? ? [Hd Ld] Hds]. cbn [map fold_left length] in *.
  rewrite line_depends by done. rewrite (proj2 (Z.ltb_lt _ 16)), strncpy_fits by lia.
  rewrite IH by (done || (rewrite length_app; cbn [length]; lia)). by rewrite <- app_assoc.
Qed.

Lemma hexs_word h : h <> [] -> word (hexs h).
Proof.
  intros Hne. split; [destruct h; [done|discriminate]|]. clear Hne. induction h as [|x h IH]; [constructor|].
  unfold hexs. cbn [map concat]. apply Forall_app. split; [apply digits_word; lia|exact IH].
Qed.

Lemma length_hexs h : length (hexs h) = (2 * length h)%nat.
Proof. induction h as [|x h IH]; [done|]. unfold hexs in *. cbn [map concat]. rewrite length_app, length_digits, IH. cbn [length]. lia. Qed.

Lemma version_word a b : word (digits 5 10 a ++ DOT :: digits 5 10 b).
Proof.
  destruct (digits_word 5 10 a) as [Hne Ha]; [lia|lia|]. destruct (digits_word 5 10 b) as [_ Hb]; [lia|lia|].
  split; [by destruct (digits 5 10 a)|]. apply Forall_app. split; [done|]. constructor; [unfold DOT; lia|done].
Qed.

Lemma good_entry k v : word (bytes k) -> word v -> (length (bytes k) + length v < 319)%nat -> good_line (entry k v).
Proof.
  intros [_ Hk] [_ Hv] Hl. split; [|unfold entry; rewrite length_app; cbn [length]; unfold LINE_MAX; lia].
  assert (H : forall l, Forall (fun c => 32 < c < 256) l -> NL ∉ l).
  { intros l Fl Hin. rewrite Forall_forall in Fl. specialize (Fl _ Hin). unfold NL in Fl. lia. }
  unfold entry. rewrite elem_of_app, elem_of_cons. intros [Hx|[Hx|Hx]]; [by apply (H _ Hk)|done|by apply (H _ Hv)].
Qed.

Ltac word_tac := match goal with
  | |- word (digits _ _ _) => apply digits_word; lia
  | |- word (_ ++ _) => apply version_word
  | |- word _ => assumption
  end.

Lemma lines_good m : manifest_ok m -> Forall good_line (manifest_lines m).
Proof.
  intros [[Wn Ln] [Wp Lp] [Hc _] _ _ _ _ _ _ [_ Lh] [Hd _]]. unfold manifest_lines.
  repeat first [apply Forall_nil_2 | apply Forall_app_2 | apply Forall_cons_2]; try (apply good_entry; [key_word| |]).
  all: try match goal with
    | |- word (hexs _) => apply hexs_word; intros E; by rewrite E in Lh
    | |- word _ => word_tac
    | |- (_ < 319)%nat => rewrite ?length_app, ?length_hexs, ?Lh; cbn [length]; rewrite ?length_digits; cbn [bytes length map list_ascii_of_string]; lia
    end.
  - apply Forall_map. eapply Forall_impl; [exact Hc|]. intros c _. apply good_entry; [key_word|apply digits_word; lia|rewrite length_digits; cbn; lia].
  - apply Forall_map. eapply Forall_impl; [exact Hd|]. intros v [Hv Lv]. apply good_entry; [key_word|done|cbn; lia].
Qed.

Lemma fold_lines m : manifest_ok m -> fold_left parse_line (manifest_lines m) manifest_init = m.
Proof.
  destruct m as [nm pa cl ve de fl ma mi pr hm dp].
  intros [[Wn Ln] [Wp Lp] [Hc Lc] Hve Hde Hfl Hma Hmi Hpr [Hh Lh] [Hd Ld]]. cbn [m_name m_path m_classes m_vendor m_device m_flags m_major m_minor m_priority m_hmac m_deps] in *.
  unfold manifest_lines, manifest_init. rewrite !fold_left_app. cbn [fold_left m_name m_path m_classes m_vendor m_device m_flags m_major m_minor m_priority m_hmac m_deps].
  rewrite line_name, line_path, lines_class by (assumption || (cbn [length]; lia)). cbn [app].
  rewrite line_vendor, line_device, line_version, line_priority, line_flags by word_tac.
  rewrite lines_depends by (assumption || (cbn [length]; lia)). cbn [app]. rewrite line_hmac by (apply hexs_word; intros ->; done).
  unfold ty_parse_hmac. rewrite (parse_hmac_hexs hm Hh Lh) by (reflexivity || lia). cbn [snd take drop app].
  rewrite !parse_hex_u32, !strncpy_fits by (assumption || lia). rewrite after_dot_digits. unfold ty_parse_dec.
  rewrite parse_dec_digits by lia. cbn [parse_dec_from DOT]. unfold DOT. cbn [Z.leb Z.compare Pos.compare Pos.compare_cont andb].
  rewrite <- (app_nil_r (digits 5 10 mi)), <- (app_nil_r (digits 3 10 pr)), !parse_dec_digits by lia. cbn [parse_dec_from].
  unfold u16, u8. by rewrite !Z.mod_small by lia.
Qed.

Lemma dep_of_entry k v : word (bytes k) -> word v -> (length v < 64)%nat ->
  dep_of (entry k v) = if bool_decide (bytes k = bytes "DEPENDS") then Some v else None.
Proof.
  intros Hk Hv Lv. unfold dep_of, entry.
  rewrite (skip_ws_entry _ v Hk), (key_eq_entry _ _ v) by (apply Hk || (repeat constructor; vm_compute; split; reflexivity)).
  by rewrite (skip_token_entry _ _ (proj2 Hk) Hv), strncpy_fits by (unfold TYKID_MAX_NAME; lia).
Qed.

Lemma dep_of_other k v : word (bytes k) -> bool_decide (bytes k = bytes "DEPENDS") = false -> dep_of (entry k v) = None.
Proof.
  intros Hk Hne. unfold dep_of, entry.
  by rewrite (skip_ws_entry _ v Hk), (key_eq_entry _ _ v), Hne by (apply Hk || (repeat constructor; vm_compute; split; reflexivity)).
Qed.

Lemma omap_none {A B} (f : A -> option B) l : Forall (fun x => f x = None) l -> omap f l = [].
Proof. induction 1 as [|x l Hx Hl IH]; [done|]. cbn. by rewrite Hx. Qed.

Lemma deps_of_lines m : manifest_ok m -> omap dep_of (manifest_lines m) = m_deps m.
Proof.
  intros [_ _ _ _ _ _ _ _ _ _ [Hd _]]. unfold manifest_lines. rewrite !omap_app.
  rewrite (omap_none dep_of (map (fun c => entry "CLASS" _) _)) by (apply Forall_map, Forall_true; intros c; apply dep_of_other; (key_word || reflexivity)).
  cbn [omap list_omap app].
  rewrite (dep_of_other "NAME"), (dep_of_other "PATH"), (dep_of_other "VENDOR"), (dep_of_other "DEVICE"), (dep_of_other "VERSION"),
    (dep_of_other "PRIORITY"), (dep_of_other "FLAGS"), (dep_of_other "HMAC") by (key_word || reflexivity).
  cbn [app]. rewrite app_nil_r. induction Hd as [|v ds [Hv Lv] Hd IH]; [done|]. cbn [map omap list_omap].
  rewrite dep_of_entry by (key_word || assumption). key_tests. f_equal. exact IH.
Qed.

(** ** Results *)

(** C24. A manifest whose fields have their widths and whose names are words,
    written with one entry per line, is read back field by field, and the
    scan finds its dependencies. *)
Theorem manifest_roundtrip (m : manifest) : manifest_ok m ->
  ty_parse_manifest_buf (text (manifest_lines m)) = Some (TYKID_OK, manifest_drv m) /\
  scan_deps (text (manifest_lines m)) = Some (m_deps m).
Proof.
  intros H. pose proof (lines_good m H) as G. split.
  - unfold ty_parse_manifest_buf. rewrite (parse_text _ _ G), (fold_lines m H). cbn [mbind option_bind].
    destruct H as [[[Hn _] _] [[Hp _] _] _ _ _ _ _ _ _ _ _]. by rewrite !bool_decide_false.
  - unfold scan_deps. rewrite (dep_text _ [] G); rewrite (deps_of_lines m H); [done|]. destruct H as [_ _ _ _ _ _ _ _ _ _ [_ Hl]]. cbn [length]. lia.
Qed.

Definition ex_manifest : manifest :=
  MF (bytes "e1000") (bytes "net/e1000.ko") [0x00020002; 0x00020003] 0x8086 0x100E 0x000F0004 1 12 200 (map Z.of_nat (seq 7 32)) [bytes "pci"; bytes "net-core"].

Lemma manifest_roundtrip_witness : exists d, ty_parse_manifest_buf (text (manifest_lines ex_manifest)) = Some (TYKID_OK, d) /\
  dr_name d = bytes "e1000" /\ vendor_mask d = 0x8086 /\ dr_deps d = [0xFF; 0xFF].
Proof.
  exists (manifest_drv ex_manifest). split; [|done]. apply (manifest_roundtrip ex_manifest).
  constructor; unfold word; apply (bool_decide_unpack _); vm_compute; exact I.
Defined.

(** On every text the parser and the scan's pass return. *)
Theorem manifest_parse_returns (buf : list Z) :
  (exists st d, ty_parse_manifest_buf buf = Some (st, d) /\ (st = TYKID_OK <-> dr_name d <> [] /\ dr_path d <> [])) /\
  exists deps, scan_deps buf = Some deps.
Proof.
  split; [|by apply dep_lines_total]. unfold ty_parse_manifest_buf. destruct (parse_lines_total (length buf) manifest_init buf) as [m ->]; [done|].
  cbn [mbind option_bind]. do 2 case_bool_decide; cbn [orb]; eexists _, _; (split; [reflexivity|]); cbn [manifest_drv dr_name dr_path]; (split; [try done; by intros _|tauto || by intros []]).
Qed.

(** Names are stripped of what follows them on the line; dependencies are
    looked up with it.  With line ends of two characters no dependency is
    found. *)
Theorem depends_line_end :
  let reg := fun e => omap (fun t => snd <$> ty_parse_manifest_buf t)
    [bytes "NAME pci" ++ e ++ bytes "PATH pci.ko" ++ e; bytes "NAME nic" ++ e ++ bytes "PATH nic.ko" ++ e ++ bytes "DEPENDS pci" ++ e] in
  let deps := fun e => omap scan_deps
    [bytes "NAME pci" ++ e ++ bytes "PATH pci.ko" ++ e; bytes "NAME nic" ++ e ++ bytes "PATH nic.ko" ++ e ++ bytes "DEPENDS pci" ++ e] in
  map dr_name (reg [CR; NL]) = map dr_name (reg [NL]) /\
  map dr_deps (ty_registry_resolve_deps (reg [NL]) (deps [NL])) = [[]; [0]] /\
  map dr_deps (ty_registry_resolve_deps (reg [CR; NL]) (deps [CR; NL])) = [[]; [0xFF]].
Proof. vm_compute. split_and!; reflexivity. Qed.
