(* ===== verification/FlatCrc.v ===== *)
(** * Byte memories and FlatFS checksums (fs/flatfs/flatfs_crc.c)

    A byte-addressed memory is a total function from addresses to bytes;
    packed structs are read and written in it as little-endian fields, so
    that unions, casts and checksums over a struct are those of the C code.
    On top of it: the table-driven CRC-32 of flatfs_crc.c, its bit-by-bit
    reference, and the block trailer that carries it. *)

From stdpp Require Import base list.
From Stdlib Require Import ZArith Lia.
From S2P Require Import Prelude.

(** ** Byte memories *)

Definition bmem := Z -> Z.

(** The [n]-byte little-endian value at [a]. *)
Fixpoint rd (n : nat) (m : bmem) (a : Z) : Z :=
  match n with
  | O => 0
  | S n => m a + 256 * rd n m (a + 1)
  end.

(** Store the low [n] bytes of [v] at [a]. *)
Definition wr (n : nat) (m : bmem) (a v : Z) : bmem :=
  fun i => if (a <=? i) && (i <? a + Z.of_nat n) then v / 256 ^ (i - a) mod 256 else m i.

Definition memset (m : bmem) (a c n : Z) : bmem :=
  fun i => if (a <=? i) && (i <? a + n) then c else m i.

Definition memcpy (m : bmem) (d : Z) (src : bmem) (s n : Z) : bmem :=
  fun i => if (d <=? i) && (i <? d + n) then src (s + (i - d)) else m i.

(** Copy a list of bytes to [d]. *)
Definition memput (m : bmem) (d : Z) (l : list Z) : bmem :=
  fun i => if (d <=? i) && (i <? d + Z.of_nat (length l)) then nth (Z.to_nat (i - d)) l 0 else m i.

Definition bytes_of (m : bmem) (a : Z) (n : nat) : list Z :=
  map (fun i => m (a + Z.of_nat i)) (seq 0 n).

Definition bytes_ok (m : bmem) : Prop := forall i, 0 <= m i < 256.

(** ** CRC-32 *)

Definition FLATFS_CRC32_POLY : Z := 0xEDB88320.

(** One step of the inner loop of [flatfs_crc32_init_table]. *)
Definition crc_step (c : Z) : Z :=
  if Z.testbit c 0 then Z.lxor FLATFS_CRC32_POLY (Z.shiftr c 1) else Z.shiftr c 1.

(** The static table and its flag. *)
Record crc_state := CRC { crc_tab : Z -> Z; tab_ready : bool }.

Fixpoint crc_fill (n : nat) (tab : Z -> Z) : Z -> Z :=
  match n with
  | O => tab
  | S n => let tab := crc_fill n tab in upd tab (Z.of_nat n) (Nat.iter 8 crc_step (Z.of_nat n))
  end.

Definition flatfs_crc32_init_table (s : crc_state) : crc_state :=
  if tab_ready s then s else CRC (crc_fill 256 (crc_tab s)) true.

Fixpoint crc_loop (tab : Z -> Z) (crc : Z) (data : list Z) : Z :=
  match data with
  | [] => crc
  | b :: data => crc_loop tab (Z.lxor (tab (Z.land (Z.lxor crc b) 255)) (Z.shiftr crc 8)) data
  end.

Definition flatfs_crc32_update (s : crc_state) (crc : Z) (data : list Z) : Z :=
  Z.lxor (crc_loop (crc_tab s) (Z.lxor crc 0xFFFFFFFF) data) 0xFFFFFFFF.

Definition flatfs_crc32_internal (s : crc_state) (data : list Z) : Z * crc_state :=
  let s := if tab_ready s then s else flatfs_crc32_init_table s in
  (flatfs_crc32_update s 0 data, s).

(** The table as the program finds it at start-up: zeroed and not ready.
    The checksum does not depend on whether the table was filled before the
    call or during it, as shown below. *)
Definition crc_boot : crc_state := CRC (fun _ => 0) false.

(** The 256 entries, computed once. *)
Definition crc_entries : list Z :=
  Eval vm_compute in map (fun i => Nat.iter 8 crc_step (Z.of_nat i)) (seq 0 256).

Definition crc_ready : crc_state := CRC (fun i => nth (Z.to_nat i) crc_entries 0) true.

Definition crc32_bytes (data : list Z) : Z := fst (flatfs_crc32_internal crc_ready data).

(** [flatfs_crc32(p, len)] on the memory [m]. *)
Definition flatfs_crc32 (m : bmem) (a : Z) (len : nat) : Z := crc32_bytes (bytes_of m a len).

(** The last four bytes of a block hold the CRC of the rest. *)
Definition flatfs_block_crc_ok (m : bmem) (a sz : Z) : bool :=
  if sz <? 4 then false
  else flatfs_crc32 m a (Z.to_nat (sz - 4)) =? rd 4 m (a + sz - 4).

Definition flatfs_block_crc_set (m : bmem) (a sz : Z) : bmem :=
  if sz <? 4 then m
  else wr 4 m (a + sz - 4) (flatfs_crc32 m a (Z.to_nat (sz - 4))).

(** ** Reading back what was stored *)

Lemma wr_in n m a v i : a <= i < a + Z.of_nat n -> wr n m a v i = v / 256 ^ (i - a) mod 256.
Proof. intros. unfold wr. by rewrite (proj2 (Z.leb_le _ _)), (proj2 (Z.ltb_lt _ _)) by lia. Qed.

Lemma wr_out n m a v i : i < a \/ a + Z.of_nat n <= i -> wr n m a v i = m i.
Proof.
  intros. unfold wr. destruct (Z.leb_spec a i), (Z.ltb_spec i (a + Z.of_nat n)); try done. lia.
Qed.

Lemma memset_in m a c n i : a <= i < a + n -> memset m a c n i = c.
Proof. intros. unfold memset. by rewrite (proj2 (Z.leb_le _ _)), (proj2 (Z.ltb_lt _ _)) by lia. Qed.

Lemma memset_out m a c n i : i < a \/ a + n <= i -> memset m a c n i = m i.
Proof. intros. unfold memset. destruct (Z.leb_spec a i), (Z.ltb_spec i (a + n)); try done. lia. Qed.

Lemma memcpy_in m d src s n i : d <= i < d + n -> memcpy m d src s n i = src (s + (i - d)).
Proof. intros. unfold memcpy. by rewrite (proj2 (Z.leb_le _ _)), (proj2 (Z.ltb_lt _ _)) by lia. Qed.

Lemma memcpy_out m d src s n i : i < d \/ d + n <= i -> memcpy m d src s n i = m i.
Proof. intros. unfold memcpy. destruct (Z.leb_spec d i), (Z.ltb_spec i (d + n)); try done. lia. Qed.

Lemma memput_in m d l i : d <= i < d + Z.of_nat (length l) -> memput m d l i = nth (Z.to_nat (i - d)) l 0.
Proof. intros. unfold memput. by rewrite (proj2 (Z.leb_le _ _)), (proj2 (Z.ltb_lt _ _)) by lia. Qed.

Lemma memput_out m d l i : i < d \/ d + Z.of_nat (length l) <= i -> memput m d l i = m i.
Proof.
  intros. unfold memput. destruct (Z.leb_spec d i), (Z.ltb_spec i (d + Z.of_nat (length l))); try done. lia.
Qed.

Lemma rd_ext n m m' : forall a a',
  (forall i, 0 <= i < Z.of_nat n -> m (a + i) = m' (a' + i)) -> rd n m a = rd n m' a'.
Proof.
  induction n as [|n IH]; intros a a' H; [done|]. cbn [rd]. f_equal.
  - specialize (H 0 ltac:(lia)). by rewrite !Z.add_0_r in H.
  - f_equal. apply IH. intros i Hi. specialize (H (i + 1) ltac:(lia)).
    by rewrite <- !Z.add_assoc, !(Z.add_comm 1).
Qed.

Lemma rd_zero n m : forall a, (forall i, 0 <= i < Z.of_nat n -> m (a + i) = 0) -> rd n m a = 0.
Proof.
  induction n as [|n IH]; intros a H; [done|]. cbn [rd].
  rewrite IH; [specialize (H 0 ltac:(lia)); rewrite Z.add_0_r in H; lia|].
  intros i Hi. rewrite <- Z.add_assoc. apply H. lia.
Qed.

Lemma rd_range n m a : bytes_ok m -> 0 <= rd n m a < 256 ^ Z.of_nat n.
Proof.
  intros Hm. revert a. induction n as [|n IH]; intros a; cbn [rd]; [cbn; lia|].
  specialize (IH (a + 1)). specialize (Hm a).
  rewrite Nat2Z.inj_succ, Z.pow_succ_r by lia. lia.
Qed.

Lemma rd_wr_same n m : forall a v, rd n (wr n m a v) a = v mod 256 ^ Z.of_nat n.
Proof.
  induction n as [|n IH]; intros a v; cbn [rd]; [by rewrite Z.mod_1_r|].
  rewrite wr_in by lia. rewrite Z.sub_diag, Z.pow_0_r, Z.div_1_r.
  assert (rd n (wr (S n) m a v) (a + 1) = rd n (wr n m (a + 1) (v / 256)) (a + 1)) as ->.
  { apply rd_ext. intros i Hi. rewrite !wr_in by lia.
    rewrite Z.div_div by lia. f_equal. f_equal.
    replace (a + 1 + i - a) with (Z.succ i) by lia. replace (a + 1 + i - (a + 1)) with i by lia.
    by rewrite Z.pow_succ_r by lia. }
  rewrite IH, Nat2Z.inj_succ, Z.pow_succ_r by lia. rewrite Z.rem_mul_r by lia. lia.
Qed.

Lemma rd_wr_small n m a v : 0 <= v < 256 ^ Z.of_nat n -> rd n (wr n m a v) a = v.
Proof. intros. rewrite rd_wr_same. by apply Z.mod_small. Qed.

(** A read disjoint from the memory that changed. *)
Lemma rd_wr_other n k m a b v :
  b + Z.of_nat n <= a \/ a + Z.of_nat k <= b -> rd n (wr k m a v) b = rd n m b.
Proof. intros. apply rd_ext. intros i Hi. apply wr_out. lia. Qed.

Lemma rd_memset_other n m a c k b : b + Z.of_nat n <= a \/ a + k <= b -> rd n (memset m a c k) b = rd n m b.
Proof. intros. apply rd_ext. intros i Hi. apply memset_out. lia. Qed.

Lemma rd_memset_zero n m a k b : a <= b -> b + Z.of_nat n <= a + k -> rd n (memset m a 0 k) b = 0.
Proof. intros. apply rd_zero. intros i Hi. apply memset_in. lia. Qed.

Lemma rd_memcpy_other n m d src s k b :
  b + Z.of_nat n <= d \/ d + k <= b -> rd n (memcpy m d src s k) b = rd n m b.
Proof. intros. apply rd_ext. intros i Hi. apply memcpy_out. lia. Qed.

Lemma rd_memcpy_in n m d src s k b :
  d <= b -> b + Z.of_nat n <= d + k -> rd n (memcpy m d src s k) b = rd n src (s + (b - d)).
Proof. intros. apply rd_ext. intros i Hi. rewrite memcpy_in by lia. f_equal. lia. Qed.

Lemma bytes_ok_wr n m a v : bytes_ok m -> bytes_ok (wr n m a v).
Proof. intros H i. unfold wr. destruct (_ && _); [apply Z.mod_pos_bound; lia|apply H]. Qed.

Lemma bytes_ok_memset m a c n : 0 <= c < 256 -> bytes_ok m -> bytes_ok (memset m a c n).
Proof. intros Hc H i. unfold memset. destruct (_ && _); [done|apply H]. Qed.

Lemma bytes_ok_memcpy m d src s n : bytes_ok src -> bytes_ok m -> bytes_ok (memcpy m d src s n).
Proof. intros Hs H i. unfold memcpy. destruct (_ && _); [apply Hs|apply H]. Qed.

Lemma bytes_of_ext m m' a a' n :
  (forall i, 0 <= i < Z.of_nat n -> m (a + i) = m' (a' + i)) -> bytes_of m a n = bytes_of m' a' n.
Proof.
  intros H. unfold bytes_of. apply map_ext_in. intros i Hi%in_seq. apply H. lia.
Qed.

Lemma bytes_of_S m a n : bytes_of m a (S n) = m a :: bytes_of m (a + 1) n.
Proof.
  unfold bytes_of. cbn [seq map]. rewrite Z.add_0_r. f_equal. rewrite <- seq_shift, map_map.
  apply map_ext. intros i. f_equal. lia.
Qed.

Lemma bytes_of_app m i j : forall a, bytes_of m a (i + j) = bytes_of m a i ++ bytes_of m (a + Z.of_nat i) j.
Proof.
  induction i as [|i IH]; intros a; [by rewrite Z.add_0_r|].
  rewrite Nat.add_succ_l, !bytes_of_S, IH. cbn [app]. do 3 f_equal. lia.
Qed.

Lemma length_bytes_of m a n : length (bytes_of m a n) = n.
Proof. unfold bytes_of. by rewrite length_map, length_seq. Qed.

Lemma bytes_of_ok m a n : bytes_ok m -> Forall (fun b => 0 <= b < 256) (bytes_of m a n).
Proof. intros H. unfold bytes_of. apply Forall_forall. intros b (i & -> & _)%list_elem_of_fmap. apply H. Qed.

#[export] Hint Resolve bytes_ok_wr bytes_ok_memset bytes_ok_memcpy : kobalt.

(** ** The table-driven CRC is the bit-by-bit CRC *)

(** Reference: shift the register one bit at a time, eight times per byte. *)
Fixpoint crc_ref_loop (crc : Z) (data : list Z) : Z :=
  match data with
  | [] => crc
  | b :: data => crc_ref_loop (Nat.iter 8 crc_step (Z.lxor crc b)) data
  end.

Definition crc32_ref (data : list Z) : Z := Z.lxor (crc_ref_loop 0xFFFFFFFF data) 0xFFFFFFFF.

Lemma crc_step_xor a b : crc_step (Z.lxor a b) = Z.lxor (crc_step a) (crc_step b).
Proof.
  unfold crc_step. rewrite Z.lxor_spec, Z.shiftr_lxor.
  apply Z.bits_inj'. intros k _.
  destruct (Z.testbit a 0), (Z.testbit b 0); cbn [xorb]; rewrite !Z.lxor_spec;
    destruct (Z.testbit FLATFS_CRC32_POLY k), (Z.testbit (Z.shiftr a 1) k), (Z.testbit (Z.shiftr b 1) k); done.
Qed.

Lemma crc_steps_xor n a b : Nat.iter n crc_step (Z.lxor a b) = Z.lxor (Nat.iter n crc_step a) (Nat.iter n crc_step b).
Proof. induction n as [|n IH]; [done|]. rewrite !Nat.iter_succ. by rewrite IH, crc_step_xor. Qed.

(** Shifting zeros in below costs nothing. *)
Lemma crc_steps_shift n : forall a, Nat.iter n crc_step (Z.shiftl a (Z.of_nat n)) = a.
Proof.
  induction n as [|n IH]; intros a; [apply Z.shiftl_0_r|].
  rewrite Nat2Z.inj_succ, Nat.iter_succ_r.
  assert (crc_step (Z.shiftl a (Z.succ (Z.of_nat n))) = Z.shiftl a (Z.of_nat n)) as ->; [|apply IH].
  unfold crc_step. rewrite Z.shiftl_spec_low by lia.
  rewrite Z.shiftr_shiftl_l by lia. f_equal. lia.
Qed.

Lemma split_byte x : 0 <= x -> x = Z.lxor (Z.land x 255) (Z.shiftl (Z.shiftr x 8) 8).
Proof.
  intros Hx. apply Z.bits_inj'. intros k Hk. rewrite Z.lxor_spec, Z.land_spec.
  change 255 with (Z.ones 8). destruct (Z.lt_ge_cases k 8).
  - rewrite Z.ones_spec_low by lia. rewrite Z.shiftl_spec_low by lia. by rewrite andb_true_r, xorb_false_r.
  - rewrite Z.ones_spec_high by lia. rewrite Z.shiftl_spec, Z.shiftr_spec by lia.
    rewrite andb_false_r, xorb_false_l. f_equal. lia.
Qed.

Lemma crc_byte_step crc b :
  0 <= crc -> 0 <= b < 256 ->
  Nat.iter 8 crc_step (Z.lxor crc b)
  = Z.lxor (Nat.iter 8 crc_step (Z.land (Z.lxor crc b) 255)) (Z.shiftr crc 8).
Proof.
  intros Hc Hb. set (x := Z.lxor crc b).
  assert (Hx : 0 <= x) by (apply Z.lxor_nonneg; lia).
  rewrite (split_byte x) at 1 by done. rewrite crc_steps_xor. f_equal.
  change 8 with (Z.of_nat 8) at 2. rewrite crc_steps_shift.
  unfold x. rewrite Z.shiftr_lxor. rewrite (Z.shiftr_div_pow2 b) by lia. rewrite (Z.div_small b) by lia.
  apply Z.lxor_0_r.
Qed.

Lemma crc_tab_ready i : 0 <= i < 256 -> crc_tab crc_ready i = Nat.iter 8 crc_step i.
Proof.
  intros Hi. cbn [crc_tab crc_ready].
  replace i with (Z.of_nat (Z.to_nat i)) at 2 by lia.
  set (n := Z.to_nat i). assert (Hn : (n < 256)%nat) by lia. clearbody n. clear i Hi.
  change crc_entries with (map (fun i => Nat.iter 8 crc_step (Z.of_nat i)) (seq 0 256)).
  rewrite nth_indep with (d' := Nat.iter 8 crc_step (Z.of_nat 0)) by (rewrite length_map, length_seq; done).
  rewrite (map_nth (fun i => Nat.iter 8 crc_step (Z.of_nat i))). by rewrite seq_nth.
Qed.

Lemma crc_fill_spec n tab i : 0 <= i < Z.of_nat n -> crc_fill n tab i = Nat.iter 8 crc_step i.
Proof.
  induction n as [|n IH]; intros Hi; [lia|]. cbn [crc_fill].
  destruct (Z.eq_dec i (Z.of_nat n)) as [->|Hne]; [apply upd_eq|].
  rewrite upd_ne by done. apply IH. lia.
Qed.

Lemma crc_step_range c : 0 <= c < 2 ^ 32 -> 0 <= crc_step c < 2 ^ 32.
Proof.
  intros Hc. unfold crc_step.
  assert (Hs : 0 <= Z.shiftr c 1 < 2 ^ 31) by (rewrite Z.shiftr_div_pow2 by lia; zlia).
  destruct (Z.testbit c 0); [|lia].
  assert (Hn : 0 <= Z.lxor FLATFS_CRC32_POLY (Z.shiftr c 1)) by (apply Z.lxor_nonneg; split; intros; [lia|done]).
  split; [done|].
  destruct (Z.eq_dec (Z.lxor FLATFS_CRC32_POLY (Z.shiftr c 1)) 0) as [->|Hz]; [lia|].
  apply Z.log2_lt_cancel. apply Z.le_lt_trans with (Z.max (Z.log2 FLATFS_CRC32_POLY) (Z.log2 (Z.shiftr c 1))).
  - apply Z.log2_lxor; [done|lia].
  - change (Z.log2 (2 ^ 32)) with 32. change (Z.log2 FLATFS_CRC32_POLY) with 31.
    destruct (Z.eq_dec (Z.shiftr c 1) 0) as [->|]; [done|].
    assert (Z.log2 (Z.shiftr c 1) < 31) by (apply Z.log2_lt_pow2; lia). lia.
Qed.

Lemma crc_steps_range n c : 0 <= c < 2 ^ 32 -> 0 <= Nat.iter n crc_step c < 2 ^ 32.
Proof. intros Hc. induction n as [|n IH]; [done|]. rewrite Nat.iter_succ. by apply crc_step_range. Qed.

Lemma lxor_range32 a b : 0 <= a < 2 ^ 32 -> 0 <= b < 2 ^ 32 -> 0 <= Z.lxor a b < 2 ^ 32.
Proof.
  intros Ha Hb. assert (Hn : 0 <= Z.lxor a b) by (apply Z.lxor_nonneg; lia). split; [done|].
  destruct (Z.eq_dec (Z.lxor a b) 0) as [->|Hz]; [lia|]. apply Z.log2_lt_cancel.
  apply Z.le_lt_trans with (Z.max (Z.log2 a) (Z.log2 b)); [apply Z.log2_lxor; lia|].
  change (Z.log2 (2 ^ 32)) with 32.
  assert (Hl : forall z, 0 <= z < 2 ^ 32 -> Z.log2 z < 32).
  { intros z Hz'. destruct (Z.eq_dec z 0) as [->|]; [done|]. apply Z.log2_lt_pow2; lia. }
  pose proof (Hl a Ha). pose proof (Hl b Hb). lia.
Qed.

Abbreviation is_byte := (fun b => 0 <= b < 256).

Lemma crc_ref_step_range crc b : 0 <= crc < 2 ^ 32 -> 0 <= b < 256 -> 0 <= Nat.iter 8 crc_step (Z.lxor crc b) < 2 ^ 32.
Proof. intros. apply crc_steps_range, lxor_range32; lia. Qed.

Lemma crc_ref_loop_range data : forall crc,
  0 <= crc < 2 ^ 32 -> Forall is_byte data -> 0 <= crc_ref_loop crc data < 2 ^ 32.
Proof.
  induction data as [|b data IH]; intros crc Hc Hd; [done|]. inversion_clear Hd.
  cbn [crc_ref_loop]. apply IH; [|done]. by apply crc_ref_step_range.
Qed.

Lemma crc_loop_ref tab data : (forall i, 0 <= i < 256 -> tab i = Nat.iter 8 crc_step i) ->
  forall crc, 0 <= crc < 2 ^ 32 -> Forall is_byte data -> crc_loop tab crc data = crc_ref_loop crc data.
Proof.
  intros Ht. induction data as [|b data IH]; intros crc Hc Hd; [done|]. inversion_clear Hd.
  cbn [crc_loop crc_ref_loop]. rewrite Ht.
  - rewrite <- crc_byte_step by lia. apply IH; [|done]. by apply crc_ref_step_range.
  - change 255 with (Z.ones 8). rewrite Z.land_ones by lia. apply Z.mod_pos_bound. lia.
Qed.

Lemma crc_update_ref s data : (forall i, 0 <= i < 256 -> crc_tab s i = Nat.iter 8 crc_step i) ->
  Forall is_byte data -> flatfs_crc32_update s 0 data = crc32_ref data.
Proof.
  intros Ht Hd. unfold flatfs_crc32_update, crc32_ref. f_equal. change (Z.lxor 0 0xFFFFFFFF) with 0xFFFFFFFF.
  apply crc_loop_ref; [done| |done]. lia.
Qed.

Lemma crc32_bytes_ref data : Forall is_byte data -> crc32_bytes data = crc32_ref data.
Proof. apply crc_update_ref. apply crc_tab_ready. Qed.

Lemma crc32_bytes_range data : Forall is_byte data -> 0 <= crc32_bytes data < 2 ^ 32.
Proof.
  intros Hd. rewrite crc32_bytes_ref by done. apply lxor_range32; [|lia].
  apply crc_ref_loop_range; [lia|done].
Qed.

Lemma flatfs_crc32_range m a n : bytes_ok m -> 0 <= flatfs_crc32 m a n < 2 ^ 32.
Proof. intros Hm. by apply crc32_bytes_range, bytes_of_ok. Qed.

(** ** Error detection *)

Lemma crc_step_inj0 x : 0 <= x < 2 ^ 32 -> crc_step x = 0 -> x = 0.
Proof.
  intros Hx. unfold crc_step. rewrite Z.bit0_odd. rewrite Z.shiftr_div_pow2 by lia. change (2 ^ 1) with 2.
  destruct (Z.odd x) eqn:Ho; intros H.
  - apply Z.lxor_eq in H. unfold FLATFS_CRC32_POLY in H. zlia.
  - pose proof (Zmod_odd x) as Hm. rewrite Ho in Hm. zlia.
Qed.

Lemma crc_steps_inj n a b :
  0 <= a < 2 ^ 32 -> 0 <= b < 2 ^ 32 -> Nat.iter n crc_step a = Nat.iter n crc_step b -> a = b.
Proof.
  intros Ha Hb H. apply Z.lxor_eq.
  assert (Hz : Nat.iter n crc_step (Z.lxor a b) = 0) by (rewrite crc_steps_xor, H; apply Z.lxor_nilpotent).
  pose proof (lxor_range32 a b Ha Hb) as Hr. revert Hz. clear H.
  induction n as [|n IH]; [done|]. rewrite Nat.iter_succ. intros Hz. apply IH.
  apply crc_step_inj0; [|done]. by apply crc_steps_range.
Qed.

Lemma crc_ref_loop_inj data : forall a b,
  0 <= a < 2 ^ 32 -> 0 <= b < 2 ^ 32 -> Forall is_byte data ->
  crc_ref_loop a data = crc_ref_loop b data -> a = b.
Proof.
  induction data as [|x data IH]; intros a b Ha Hb Hd H; [done|]. inversion_clear Hd. cbn [crc_ref_loop] in H.
  apply IH in H; [|by apply crc_ref_step_range..|done].
  apply crc_steps_inj in H; [|apply lxor_range32; lia..].
  apply (f_equal (fun z => Z.lxor z x)) in H. by rewrite !Z.lxor_assoc, !Z.lxor_nilpotent, !Z.lxor_0_r in H.
Qed.

Lemma crc_ref_loop_app x y : forall crc, crc_ref_loop crc (x ++ y) = crc_ref_loop (crc_ref_loop crc x) y.
Proof. induction x as [|b x IH]; intros crc; [done|]. cbn [app crc_ref_loop]. apply IH. Qed.

Lemma lxor_cancel_r a b c : Z.lxor a c = Z.lxor b c -> a = b.
Proof.
  intros H. apply (f_equal (fun z => Z.lxor z c)) in H.
  by rewrite !Z.lxor_assoc, !Z.lxor_nilpotent, !Z.lxor_0_r in H.
Qed.

Lemma crc32_byte_differs (pre post : list Z) (b b' : Z) :
  Forall is_byte pre -> Forall is_byte post -> 0 <= b < 256 -> 0 <= b' < 256 -> b <> b' ->
  crc32_bytes (pre ++ b :: post) <> crc32_bytes (pre ++ b' :: post).
Proof.
  intros Hpre Hpost Hb Hb' Hne E.
  rewrite !crc32_bytes_ref in E by (apply Forall_app; split; [done|by constructor]).
  unfold crc32_ref in E. apply lxor_cancel_r in E. rewrite !crc_ref_loop_app in E.
  cbn [crc_ref_loop] in E.
  pose proof (crc_ref_loop_range pre 0xFFFFFFFF ltac:(lia) Hpre) as Hr.
  apply crc_ref_loop_inj in E; [|by apply crc_ref_step_range..|done].
  apply crc_steps_inj in E; [|apply lxor_range32; lia..].
  rewrite !(Z.lxor_comm (crc_ref_loop _ _)) in E. by apply lxor_cancel_r in E.
Qed.

Lemma crc32_ext m m' a a' n :
  (forall i, 0 <= i < Z.of_nat n -> m (a + i) = m' (a' + i)) -> flatfs_crc32 m a n = flatfs_crc32 m' a' n.
Proof. intros H. unfold flatfs_crc32. f_equal. by apply bytes_of_ext. Qed.

Lemma crc32_one_byte m m' a n k :
  bytes_ok m -> bytes_ok m' -> 0 <= k < Z.of_nat n -> m' (a + k) <> m (a + k) ->
  (forall i, 0 <= i < Z.of_nat n -> i <> k -> m' (a + i) = m (a + i)) ->
  flatfs_crc32 m' a n <> flatfs_crc32 m a n.
Proof.
  intros Hm Hm' Hk Hne Hsame. unfold flatfs_crc32.
  set (i := Z.to_nat k). set (j := (n - S i)%nat).
  assert (Hn : n = (i + S j)%nat) by (unfold i, j; lia). assert (Hi : Z.of_nat i = k) by (unfold i; lia).
  clearbody i j. subst n. rewrite !bytes_of_app, !bytes_of_S, Hi.
  assert (E1 : bytes_of m' a i = bytes_of m a i) by (apply bytes_of_ext; intros; apply Hsame; lia).
  assert (E2 : bytes_of m' (a + k + 1) j = bytes_of m (a + k + 1) j).
  { apply bytes_of_ext. intros x Hx. replace (a + k + 1 + x) with (a + (k + 1 + x)) by lia. apply Hsame; lia. }
  rewrite E1, E2. apply crc32_byte_differs; auto using bytes_of_ok.
Qed.

(** ** Properties *)

(** C35. The table-driven CRC-32, from the zeroed table of start-up and from
    the filled one, is the bit-serial reflected CRC with polynomial
    0xEDB88320, and leaves the table ready. *)
Theorem crc32_table_correct (data : list Z) :
  Forall is_byte data ->
  let '(c, s) := flatfs_crc32_internal crc_boot data in
  c = crc32_ref data /\ tab_ready s = true /\
  flatfs_crc32_internal s data = (c, s) /\ crc32_bytes data = c.
Proof.
  intros Hd. unfold flatfs_crc32_internal. cbn [tab_ready crc_boot flatfs_crc32_init_table].
  rewrite crc_update_ref; [|intros i Hi; cbn [crc_tab]; by apply crc_fill_spec|done].
  split_and!; [done|done|done|by apply crc32_bytes_ref].
Qed.

Lemma crc32_table_correct_witness :
  Forall is_byte [0x31; 0x32; 0x33] /\ fst (flatfs_crc32_internal crc_boot [0x31; 0x32; 0x33]) = crc32_ref [0x31; 0x32; 0x33].
Proof.
  assert (H : Forall is_byte [0x31; 0x32; 0x33]) by (repeat constructor; lia). split; [exact H|].
  pose proof (crc32_table_correct [0x31; 0x32; 0x33] H) as W.
  destruct (flatfs_crc32_internal crc_boot _) as [c s]. exact (proj1 W).
Defined.

(** Two messages that differ in a single byte have different CRCs, so
    a checksummed inode, group or superblock with one damaged byte is always
    rejected. *)
Theorem crc32_detects_byte (pre post : list Z) (b b' : Z) :
  Forall is_byte pre -> Forall is_byte post -> is_byte b -> is_byte b' -> b <> b' ->
  crc32_bytes (pre ++ b :: post) <> crc32_bytes (pre ++ b' :: post).
Proof. apply crc32_byte_differs. Qed.

Lemma crc32_detects_byte_witness : crc32_bytes ([1; 2] ++ 3 :: [4]) <> crc32_bytes ([1; 2] ++ 7 :: [4]).
Proof. apply crc32_detects_byte; [repeat constructor; lia|repeat constructor; lia|lia|lia|lia]. Defined.

(** A block whose trailer has just been set passes the trailer check,
    and only its last four bytes have changed. *)
Theorem block_crc_roundtrip (m : bmem) (a sz : Z) :
  bytes_ok m -> 4 <= sz ->
  flatfs_block_crc_ok (flatfs_block_crc_set m a sz) a sz = true /\
  (forall i, i < a + sz - 4 \/ a + sz <= i -> flatfs_block_crc_set m a sz i = m i).
Proof.
  intros Hm Hsz. unfold flatfs_block_crc_ok, flatfs_block_crc_set.
  rewrite (proj2 (Z.ltb_ge sz 4) Hsz). split; [|intros i Hi; apply wr_out; lia].
  rewrite rd_wr_small by (apply flatfs_crc32_range; done).
  apply Z.eqb_eq. unfold flatfs_crc32. f_equal. apply bytes_of_ext. intros i Hi. apply wr_out. lia.
Qed.

Lemma block_crc_roundtrip_witness :
  flatfs_block_crc_ok (flatfs_block_crc_set (fun i => i mod 256) 0 32) 0 32 = true.
Proof.
  apply (block_crc_roundtrip (fun i => i mod 256) 0 32); [|lia]. intros i. apply Z.mod_pos_bound. lia.
Defined.
