(* ===== verification/FlatFs.v ===== *)
(** * FlatFS: superblock, block groups, inodes and files

    The mounted volume is one byte memory ([g_fs.buf]); the superblock, the
    freelist groups, the inode table and the data blocks are packed structs
    at their block addresses in it, read and written field by field.  An
    inode on the stack ([flatfs_inode_t in]) is a byte memory of its own, so
    the union of inline data and block pointers is the C union.  The static
    variables of the allocator, the inode allocator, the monitor and the
    TYKID binding are fields of the state.

    Sources: flatfs.h, flatfs_internal.h, flatfs_super.c, flatfs_alloc.c,
    flatfs_freelist.c, flatfs_inode.c, flatfs_inline.c, flatfs_file.c,
    flatfs_integrity.c and the checksum half of flatfs_tykid.c. *)

From stdpp Require Import base list.
From Stdlib Require Import ZArith Lia.
From S2P Require Import Prelude TyCrypto FlatCrc.

(** ** Constants (flatfs.h) *)

Definition FLATFS_BLOCK_SIZE : Z := 4096.
Definition FLATFS_BLOCK_SHIFT : Z := 12.
Definition FLATFS_MAGIC : Z := 0x464C4154.
Definition FLATFS_VERSION : Z := 1.
Definition FLATFS_MAX_BLOCKS : Z := 2 ^ 41.
Definition FLATFS_INODE_SIZE : Z := 256.
Definition FLATFS_INODES_PER_BLK : Z := FLATFS_BLOCK_SIZE / FLATFS_INODE_SIZE.
Definition FLATFS_INLINE_MAX : Z := 96.
Definition FLATFS_JOURNAL_BLOCKS : Z := 1024.
Definition FLATFS_FREELIST_MAGIC : Z := 0x46465253.
Definition FLATFS_GROUP_BLOCKS : Z := 2048.
Definition FLATFS_INODE_MAGIC : Z := 0x464C494e.
Definition FLATFS_FL_INLINE : Z := Z.shiftl 1 0.
Definition FLATFS_FL_HASCRC : Z := Z.shiftl 1 9.
Definition FLATFS_STATE_CLEAN : Z := 1.
Definition FLATFS_STATE_DIRTY : Z := 2.
(** The eight feature bits set by [flatfs_super_init]. *)
Definition FLATFS_FEAT_ALL : Z := 255.

Definition FLATFS_ATTR_MODE : Z := 1.
Definition FLATFS_ATTR_UID : Z := 2.
Definition FLATFS_ATTR_GID : Z := 4.
Definition FLATFS_ATTR_ATIME : Z := 16.
Definition FLATFS_ATTR_MTIME : Z := 32.

Inductive flatfs_err :=
| FLATFS_OK | FLATFS_ERR_INVAL | FLATFS_ERR_NOINIT | FLATFS_ERR_NOTFOUND | FLATFS_ERR_EXIST
| FLATFS_ERR_NOSPACE | FLATFS_ERR_RDONLY | FLATFS_ERR_CRC | FLATFS_ERR_CORRUPT | FLATFS_ERR_OVERFLOW
| FLATFS_ERR_BOUNDS | FLATFS_ERR_BADSTATE | FLATFS_ERR_ISDIR | FLATFS_ERR_NOTDIR | FLATFS_ERR_NOTEMPTY
| FLATFS_ERR_LOOP | FLATFS_ERR_NAMETOOLONG | FLATFS_ERR_PERM | FLATFS_ERR_IO | FLATFS_ERR_JOURNAL
| FLATFS_ERR_BTREE | FLATFS_ERR_ALLOC | FLATFS_ERR_TYKID | FLATFS_ERR_TOOBIG | FLATFS_ERR_NOSYS
| FLATFS_ERR_MAGIC | FLATFS_ERR_HANDOFF.

#[export] Instance flatfs_err_eq_dec : EqDecision flatfs_err.
Proof. solve_decision. Defined.

(** ** Fields of the packed structs *)

Record field := F { f_off : Z; f_width : nat }.

Definition fget (m : bmem) (base : Z) (f : field) : Z := rd (f_width f) m (base + f_off f).
Definition fset (m : bmem) (base : Z) (f : field) (v : Z) : bmem := wr (f_width f) m (base + f_off f) v.

(** flatfs_super_t *)
Definition sb_magic := F 0 4.
Definition sb_version := F 4 4.
Definition sb_total_blocks := F 24 8.
Definition sb_free_blocks := F 32 8.
Definition sb_total_inodes := F 40 8.
Definition sb_free_inodes := F 48 8.
Definition sb_root_ino := F 56 8.
Definition sb_journal_start := F 64 8.
Definition sb_journal_blocks := F 72 8.
Definition sb_inode_table_start := F 80 8.
Definition sb_inode_table_blocks := F 88 8.
Definition sb_btree_root_blk := F 96 8.
Definition sb_freelist_start := F 104 8.
Definition sb_freelist_blocks := F 112 8.
Definition sb_data_start := F 120 8.
Definition sb_capacity_bytes := F 152 8.
Definition sb_block_size := F 160 4.
Definition sb_inode_size := F 164 4.
Definition sb_features := F 168 4.
Definition sb_state := F 172 4.
Definition sb_mount_count := F 180 4.
Definition sb_max_mounts := F 184 4.
Definition sb_label_off : Z := 196.
Definition sb_crc32 := F 4092 4.

(** flatfs_flgroup_t *)
Definition g_magic := F 0 4.
Definition g_group_idx := F 4 4.
Definition g_base_blk := F 8 8.
Definition g_free_count := F 16 4.
Definition g_bitmap_off : Z := 108.
Definition g_crc32 := F 4092 4.

(** flatfs_inode_t; [data] is the union *)
Definition i_ino := F 0 8.
Definition i_mode := F 8 2.
Definition i_uid := F 10 2.
Definition i_gid := F 12 2.
Definition i_nlink := F 14 2.
Definition i_size := F 16 8.
Definition i_blocks := F 24 8.
Definition i_atime_ns := F 32 8.
Definition i_mtime_ns := F 40 8.
Definition i_ctime_ns := F 48 8.
Definition i_crtime_ns := F 56 8.
Definition i_flags := F 64 4.
Definition i_data_off : Z := 72.
Definition i_blk_ptr (k : Z) := F (i_data_off + 8 * k) 8.
Definition i_crc32 := F 248 4.
Definition i_magic := F 252 4.

(** ** State *)

Record fs := FS {
  f_buf : bmem;
  f_ngroups : Z; f_alloc_ops : Z; f_free_ops : Z; f_group_hint : Z;
  f_ino_hint : Z;
  f_mon_read : Z; f_mon_write : Z; f_mon_alloc : Z;
  f_bound : bool; f_key : list Z; f_audit : list (Z * Z) }.

Definition with_buf (s : fs) (b : bmem) : fs :=
  FS b (f_ngroups s) (f_alloc_ops s) (f_free_ops s) (f_group_hint s) (f_ino_hint s)
     (f_mon_read s) (f_mon_write s) (f_mon_alloc s) (f_bound s) (f_key s) (f_audit s).
Definition with_alloc (s : fs) (ng ao fo h : Z) : fs :=
  FS (f_buf s) ng ao fo h (f_ino_hint s)
     (f_mon_read s) (f_mon_write s) (f_mon_alloc s) (f_bound s) (f_key s) (f_audit s).
Definition with_ino_hint (s : fs) (h : Z) : fs :=
  FS (f_buf s) (f_ngroups s) (f_alloc_ops s) (f_free_ops s) (f_group_hint s) h
     (f_mon_read s) (f_mon_write s) (f_mon_alloc s) (f_bound s) (f_key s) (f_audit s).
Definition with_audit (s : fs) (l : list (Z * Z)) : fs :=
  FS (f_buf s) (f_ngroups s) (f_alloc_ops s) (f_free_ops s) (f_group_hint s) (f_ino_hint s)
     (f_mon_read s) (f_mon_write s) (f_mon_alloc s) (f_bound s) (f_key s) l.

Definition flatfs_mon_read (s : fs) : fs :=
  FS (f_buf s) (f_ngroups s) (f_alloc_ops s) (f_free_ops s) (f_group_hint s) (f_ino_hint s)
     (u64 (f_mon_read s + 1)) (f_mon_write s) (f_mon_alloc s) (f_bound s) (f_key s) (f_audit s).
Definition flatfs_mon_write (s : fs) : fs :=
  FS (f_buf s) (f_ngroups s) (f_alloc_ops s) (f_free_ops s) (f_group_hint s) (f_ino_hint s)
     (f_mon_read s) (u64 (f_mon_write s + 1)) (f_mon_alloc s) (f_bound s) (f_key s) (f_audit s).
Definition flatfs_mon_alloc (s : fs) : fs :=
  FS (f_buf s) (f_ngroups s) (f_alloc_ops s) (f_free_ops s) (f_group_hint s) (f_ino_hint s)
     (f_mon_read s) (f_mon_write s) (u64 (f_mon_alloc s + 1)) (f_bound s) (f_key s) (f_audit s).

(** The superblock is at the start of the buffer. *)
Definition sbget (s : fs) (f : field) : Z := fget (f_buf s) 0 f.
Definition sbset (s : fs) (f : field) (v : Z) : fs := with_buf s (fset (f_buf s) 0 f v).

Definition blk_ptr (blk : Z) : Z := u64 (Z.shiftl blk FLATFS_BLOCK_SHIFT).

Definition blk_valid (s : fs) (blk : Z) : bool := (0 <? blk) && (blk <? sbget s sb_total_blocks).

Definition inode_ptr (s : fs) (ino : Z) : Z :=
  let blk := u64 (sbget s sb_inode_table_start + ino / FLATFS_INODES_PER_BLK) in
  blk_ptr blk + ino mod FLATFS_INODES_PER_BLK * FLATFS_INODE_SIZE.

(** ** The message-authentication trailer (flatfs_tykid.c) *)

Definition AEV_IOMMU_CANARY : Z := 0x52.
Definition AEV_SEAL_BROKEN : Z := 0x11.

(** Events are recorded with the block they name, and only when bound. *)
Definition flatfs_tykid_audit_crc_err (s : fs) (blk : Z) : fs :=
  if f_bound s then with_audit s (f_audit s ++ [(AEV_IOMMU_CANARY, blk)]) else s.

Definition flatfs_tykid_audit_super_corrupt (s : fs) : fs :=
  if f_bound s then with_audit s (f_audit s ++ [(AEV_SEAL_BROKEN, 0)]) else s.

Definition flatfs_tykid_mac_set (s : fs) (m : bmem) (a sz : Z) : bmem :=
  if negb (f_bound s) || (sz <? 12) then m
  else wr 8 m (a + sz - 12) (ty_siphash24 (f_key s) (bytes_of m a (Z.to_nat (sz - 12)))).

(** A zero trailer counts as "no MAC". *)
Definition flatfs_tykid_mac_ok (s : fs) (m : bmem) (a sz : Z) : bool * fs :=
  if negb (f_bound s) || (sz <? 12) then (true, s) else
  let stored := rd 8 m (a + sz - 12) in
  if forallb (Z.eqb 0) (bytes_of m (a + sz - 12) 8) then (true, s) else
  if stored =? ty_siphash24 (f_key s) (bytes_of m a (Z.to_nat (sz - 12))) then (true, s)
  else (false, flatfs_tykid_audit_crc_err s 0).

(** ** Superblock (flatfs_super.c) *)

Definition flatfs_super_update_crc (m : bmem) (a : Z) : bmem :=
  let m := fset m a sb_crc32 0 in
  fset m a sb_crc32 (flatfs_crc32 m a 4096).

Definition flatfs_super_validate (m : bmem) (a : Z) : flatfs_err :=
  if negb (fget m a sb_magic =? FLATFS_MAGIC) then FLATFS_ERR_MAGIC else
  if negb (fget m a sb_version =? FLATFS_VERSION) then FLATFS_ERR_CORRUPT else
  if negb (fget m a sb_block_size =? FLATFS_BLOCK_SIZE) then FLATFS_ERR_CORRUPT else
  if negb (fget m a sb_inode_size =? FLATFS_INODE_SIZE) then FLATFS_ERR_CORRUPT else
  if FLATFS_MAX_BLOCKS <? fget m a sb_total_blocks then FLATFS_ERR_BOUNDS else
  let saved := fget m a sb_crc32 in
  let got := flatfs_crc32 (fset m a sb_crc32 0) a 4096 in
  if got =? saved then FLATFS_OK else FLATFS_ERR_CRC.

(** Block 0, or the backup in block 1 copied over it.  The address checked
    for the MAC is that of the copy that validated. *)
Definition flatfs_super_read (s : fs) (cap : Z) : flatfs_err * fs :=
  if cap <? FLATFS_BLOCK_SIZE * 4 then (FLATFS_ERR_INVAL, s) else
  let check (s : fs) (a : Z) :=
    let '(ok, s) := flatfs_tykid_mac_ok s (f_buf s) a 4096 in
    if ok then (FLATFS_OK, s) else (FLATFS_ERR_CRC, flatfs_tykid_audit_crc_err s 0) in
  match flatfs_super_validate (f_buf s) 0 with
  | FLATFS_OK => check s 0
  | _ =>
    let s := flatfs_tykid_audit_super_corrupt s in
    match flatfs_super_validate (f_buf s) FLATFS_BLOCK_SIZE with
    | FLATFS_OK =>
      let b := memcpy (f_buf s) 0 (f_buf s) FLATFS_BLOCK_SIZE 4096 in
      let b := fset b 0 sb_crc32 0 in
      check (with_buf s (flatfs_super_update_crc b 0)) FLATFS_BLOCK_SIZE
    | e => (e, s)
    end
  end.

Definition flatfs_super_write (s : fs) : fs :=
  let b := flatfs_super_update_crc (f_buf s) 0 in
  let b := flatfs_tykid_mac_set s b 0 4096 in
  let b := flatfs_super_update_crc b 0 in
  with_buf s (memcpy b FLATFS_BLOCK_SIZE b 0 4096).

Definition flatfs_super_mark_dirty (s : fs) : fs :=
  let s := sbset s sb_state
             (Z.lor (Z.land (sbget s sb_state) (Z.lnot FLATFS_STATE_CLEAN)) FLATFS_STATE_DIRTY) in
  let s := sbset s sb_mount_count (u32 (sbget s sb_mount_count + 1)) in
  flatfs_super_write s.

Definition flatfs_super_mark_clean (s : fs) : fs :=
  let s := sbset s sb_state
             (Z.lor (Z.land (sbget s sb_state) (Z.lnot FLATFS_STATE_DIRTY)) FLATFS_STATE_CLEAN) in
  flatfs_super_write s.

(** [fstrlen] on a C string given as its bytes (the NUL may be missing when
    the list ends: the bytes past it are read as NUL). *)
Fixpoint fstrlen (s : list Z) (max : nat) : nat :=
  match max, s with
  | S max, c :: s => if c =? 0 then O else S (fstrlen s max)
  | _, _ => O
  end.

(** The layout part of [flatfs_super_init]. *)
Definition super_layout (b : bmem) (cap ninodes : Z) : bmem :=
  let total_blks := Z.shiftr cap FLATFS_BLOCK_SHIFT in
  let b := fset b 0 sb_total_blocks total_blks in
  let off := 2 in
  let b := fset b 0 sb_journal_start (off + 2) in
  let b := fset b 0 sb_journal_blocks FLATFS_JOURNAL_BLOCKS in
  let off := u64 (fget b 0 sb_journal_start + fget b 0 sb_journal_blocks) in
  let inode_blks := u64 (ninodes + FLATFS_INODES_PER_BLK - 1) / FLATFS_INODES_PER_BLK in
  let b := fset b 0 sb_inode_table_start off in
  let b := fset b 0 sb_inode_table_blocks inode_blks in
  let b := fset b 0 sb_total_inodes ninodes in
  let b := fset b 0 sb_free_inodes (u64 (ninodes - 1)) in
  let off := u64 (off + inode_blks) in
  let b := fset b 0 sb_btree_root_blk off in
  let off := u64 (off + 1) in
  let data_blks := u64 (total_blks - off - 1) in
  let ngroups := u64 (data_blks + FLATFS_GROUP_BLOCKS - 1) / FLATFS_GROUP_BLOCKS in
  let b := fset b 0 sb_freelist_start off in
  let b := fset b 0 sb_freelist_blocks ngroups in
  let off := u64 (off + ngroups) in
  let b := fset b 0 sb_data_start off in
  fset b 0 sb_free_blocks (u64 (total_blks - off)).

Definition flatfs_super_init (s : fs) (cap : Z) (label : option (list Z)) (ninodes : Z) : flatfs_err * fs :=
  if cap <? FLATFS_BLOCK_SIZE * 16 then (FLATFS_ERR_INVAL, s) else
  let b := memset (f_buf s) 0 0 (FLATFS_BLOCK_SIZE * 2) in
  let b := fset b 0 sb_magic FLATFS_MAGIC in
  let b := fset b 0 sb_version FLATFS_VERSION in
  let b := fset b 0 sb_block_size FLATFS_BLOCK_SIZE in
  let b := fset b 0 sb_inode_size FLATFS_INODE_SIZE in
  let b := fset b 0 sb_capacity_bytes cap in
  let b := super_layout b cap ninodes in
  let b := fset b 0 sb_root_ino 1 in
  let b := fset b 0 sb_features FLATFS_FEAT_ALL in
  let b := fset b 0 sb_state FLATFS_STATE_CLEAN in
  let b := fset b 0 sb_max_mounts 30 in
  let b := match label with
           | None => b
           | Some l => let n := fstrlen l 63 in
                       wr 1 (memput b sb_label_off (take n l)) (sb_label_off + Z.of_nat n) 0
           end in
  let b := flatfs_super_update_crc b 0 in
  (FLATFS_OK, with_buf s (memcpy b FLATFS_BLOCK_SIZE b 0 4096)).

Definition flatfs_mkfs (s : fs) (capacity : Z) (label : option (list Z)) : flatfs_err * fs :=
  if capacity <? FLATFS_BLOCK_SIZE * 32 then (FLATFS_ERR_INVAL, s) else
  let ninodes := Z.shiftr capacity FLATFS_BLOCK_SHIFT / 8 in
  let ninodes := if ninodes <? 64 then 64 else ninodes in
  let ninodes := if 65536 <? ninodes then 65536 else ninodes in
  flatfs_super_init s capacity label ninodes.

(** ** Block groups (flatfs_alloc.c) *)

Definition group_ptr (s : fs) (gi : Z) : Z := blk_ptr (u64 (sbget s sb_freelist_start + gi)).

Definition group_flush (s : fs) (gi : Z) : fs :=
  let g := group_ptr s gi in
  let b := fset (f_buf s) g g_crc32 0 in
  with_buf s (fset b g g_crc32 (flatfs_crc32 b g 4096)).

Definition bitmap_test (m : bmem) (bm bit : Z) : bool :=
  Z.testbit (m (bm + Z.shiftr bit 3)) (Z.land bit 7).

Definition bitmap_set (m : bmem) (bm bit : Z) : bmem :=
  let i := bm + Z.shiftr bit 3 in
  upd m i (Z.lor (m i) (u8 (Z.shiftl 1 (Z.land bit 7)))).

Definition bitmap_clr (m : bmem) (bm bit : Z) : bmem :=
  let i := bm + Z.shiftr bit 3 in
  upd m i (Z.land (m i) (u8 (Z.lnot (Z.shiftl 1 (Z.land bit 7))))).

(** One iteration of the loop of [flatfs_alloc_init]. *)
Definition group_init (s : fs) (gi : Z) : fs :=
  let g := group_ptr s gi in
  if fget (f_buf s) g g_magic =? FLATFS_FREELIST_MAGIC then s else
  let b := memset (f_buf s) g 0 4096 in
  let b := fset b g g_magic FLATFS_FREELIST_MAGIC in
  let b := fset b g g_group_idx gi in
  let b := fset b g g_base_blk (u64 (sbget (with_buf s b) sb_data_start + gi * FLATFS_GROUP_BLOCKS)) in
  let b := fset b g g_free_count FLATFS_GROUP_BLOCKS in
  let b := memset b (g + g_bitmap_off) 0 256 in
  group_flush (with_buf s b) gi.

Definition flatfs_alloc_init (s : fs) : flatfs_err * fs :=
  let ng := sbget s sb_freelist_blocks in
  let s := with_alloc s ng (f_alloc_ops s) (f_free_ops s) 0 in
  (FLATFS_OK, fold_left (fun s gi => group_init s (Z.of_nat gi)) (seq 0 (Z.to_nat ng)) s).

Fixpoint find_free_from (n : nat) (m : bmem) (bm i : Z) : option Z :=
  match n with
  | O => None
  | S n => if negb (bitmap_test m bm i) then Some i else find_free_from n m bm (i + 1)
  end.

(** [None] is the -1 of the source. *)
Definition group_find_free (s : fs) (g : Z) : option Z :=
  find_free_from 2048 (f_buf s) (g + g_bitmap_off) 0.

(** What [flatfs_alloc_block] does once it has a group and a bit.  [out]
    is the store through the caller's pointer, which the code performs
    before it clears the new block. *)
Definition alloc_take (out : Z -> fs -> fs) (s : fs) (idx local : Z) : Z * fs :=
  let g := group_ptr s idx in
  let b := bitmap_set (f_buf s) (g + g_bitmap_off) local in
  let b := fset b g g_free_count (u32 (fget b g g_free_count - 1)) in
  let s := with_buf s b in
  let s := sbset s sb_free_blocks (u64 (sbget s sb_free_blocks - 1)) in
  let s := group_flush s idx in
  let s := with_alloc s (f_ngroups s) (u64 (f_alloc_ops s + 1)) (f_free_ops s) idx in
  let blk := u64 (fget (f_buf s) g g_base_blk + local) in
  let s := out blk s in
  let s := with_buf s (memset (f_buf s) (blk_ptr blk) 0 FLATFS_BLOCK_SIZE) in
  (blk, flatfs_mon_alloc s).

Fixpoint alloc_scan (n : nat) (gi : Z) (out : Z -> fs -> fs) (s : fs) : (flatfs_err + Z) * fs :=
  match n with
  | O => (inl FLATFS_ERR_NOSPACE, s)
  | S n =>
    let idx := u32 (f_group_hint s + gi) mod u32 (f_ngroups s) in
    let g := group_ptr s idx in
    if fget (f_buf s) g g_free_count =? 0 then alloc_scan n (gi + 1) out s else
    match group_find_free s g with
    | None => alloc_scan n (gi + 1) out s
    | Some local => let '(blk, s) := alloc_take out s idx local in (inr blk, s)
    end
  end.

Definition flatfs_alloc_block (out : Z -> fs -> fs) (s : fs) : (flatfs_err + Z) * fs :=
  if sbget s sb_free_blocks =? 0 then (inl FLATFS_ERR_NOSPACE, s)
  else alloc_scan (Z.to_nat (f_ngroups s)) 0 out s.

(** The pointer of a local variable: the store is not part of the state. *)
Definition to_local (_ : Z) (s : fs) : fs := s.

Definition flatfs_free_block (s : fs) (blk : Z) : flatfs_err * fs :=
  if (blk <? sbget s sb_data_start) || (sbget s sb_total_blocks <=? blk) then (FLATFS_ERR_BOUNDS, s) else
  let local_off := blk - sbget s sb_data_start in
  let gi := u32 (local_off / FLATFS_GROUP_BLOCKS) in
  let bit := local_off mod FLATFS_GROUP_BLOCKS in
  if f_ngroups s <=? gi then (FLATFS_ERR_BOUNDS, s) else
  let g := group_ptr s gi in
  if negb (bitmap_test (f_buf s) (g + g_bitmap_off) bit) then (FLATFS_ERR_INVAL, s) else
  let b := bitmap_clr (f_buf s) (g + g_bitmap_off) bit in
  let b := fset b g g_free_count (u32 (fget b g g_free_count + 1)) in
  let s := with_buf s b in
  let s := sbset s sb_free_blocks (u64 (sbget s sb_free_blocks + 1)) in
  let s := group_flush s gi in
  let hint := if gi <? f_group_hint s then gi else f_group_hint s in
  (FLATFS_OK, with_alloc s (f_ngroups s) (f_alloc_ops s) (u64 (f_free_ops s + 1)) hint).

(** The roll-back loop ignores the results. *)
Fixpoint free_each (s : fs) (l : list Z) : fs :=
  match l with [] => s | b :: l => free_each (snd (flatfs_free_block s b)) l end.

Fixpoint alloc_blocks_loop (n : nat) (got : list Z) (s : fs) : (flatfs_err + list Z) * fs :=
  match n with
  | O => (inr got, s)
  | S n =>
    match flatfs_alloc_block to_local s with
    | (inl e, s) => (inl e, free_each s got)
    | (inr b, s) => alloc_blocks_loop n (got ++ [b]) s
    end
  end.

Definition flatfs_alloc_blocks (s : fs) (count : nat) : (flatfs_err + list Z) * fs :=
  alloc_blocks_loop count [] s.

Fixpoint flatfs_free_blocks (s : fs) (blk : Z) (count : nat) : flatfs_err * fs :=
  match count with
  | O => (FLATFS_OK, s)
  | S n => match flatfs_free_block s blk with
           | (FLATFS_OK, s) => flatfs_free_blocks s (u64 (blk + 1)) n
           | r => r
           end
  end.

Definition flatfs_alloc_stats (s : fs) : Z * Z * Z * Z :=
  (sbget s sb_total_blocks, sbget s sb_free_blocks, f_alloc_ops s, f_free_ops s).

(** ** Inodes (flatfs_inode.c) *)

(** The caller's buffer receives the bytes whatever the verdict. *)
Definition flatfs_inode_read (s : fs) (ino : Z) (out : bmem) : flatfs_err * bmem :=
  if (ino =? 0) || (sbget s sb_total_inodes <=? ino) then (FLATFS_ERR_BOUNDS, out) else
  let out := memcpy out 0 (f_buf s) (inode_ptr s ino) FLATFS_INODE_SIZE in
  if fget out 0 i_magic =? 0 then (FLATFS_ERR_NOTFOUND, out) else
  if negb (fget out 0 i_magic =? FLATFS_INODE_MAGIC) then (FLATFS_ERR_CORRUPT, out) else
  let sv := fget out 0 i_crc32 in
  let out := fset out 0 i_crc32 0 in
  let got := flatfs_crc32 out 0 256 in
  let out := fset out 0 i_crc32 sv in
  (if got =? sv then FLATFS_OK else FLATFS_ERR_CRC, out).

Definition flatfs_inode_write (s : fs) (inp : bmem) : flatfs_err * fs :=
  let ino := fget inp 0 i_ino in
  if (ino =? 0) || (sbget s sb_total_inodes <=? ino) then (FLATFS_ERR_BOUNDS, s) else
  let tmp := fset inp 0 i_crc32 0 in
  let tmp := fset tmp 0 i_crc32 (flatfs_crc32 tmp 0 256) in
  (FLATFS_OK, with_buf s (memcpy (f_buf s) (inode_ptr s ino) tmp 0 FLATFS_INODE_SIZE)).

Fixpoint inode_scan (n : nat) (i start total : Z) (s : fs) : (flatfs_err + Z) * fs :=
  match n with
  | O => (inl FLATFS_ERR_NOSPACE, s)
  | S n =>
    let ino := u64 (start + i) mod total in
    if ino =? 0 then inode_scan n (i + 1) start total s else
    if fget (f_buf s) (inode_ptr s ino) i_magic =? 0 then
      let s := with_ino_hint s (u64 (ino + 1)) in
      (inr ino, sbset s sb_free_inodes (u64 (sbget s sb_free_inodes - 1)))
    else inode_scan n (i + 1) start total s
  end.

Definition flatfs_inode_alloc (s : fs) : (flatfs_err + Z) * fs :=
  if sbget s sb_free_inodes =? 0 then (inl FLATFS_ERR_NOSPACE, s) else
  let total := sbget s sb_total_inodes in
  inode_scan (Z.to_nat total) 0 (f_ino_hint s) total s.

Definition flatfs_inode_free (s : fs) (ino : Z) : flatfs_err * fs :=
  if (ino =? 0) || (sbget s sb_total_inodes <=? ino) then (FLATFS_ERR_BOUNDS, s) else
  let slot := inode_ptr s ino in
  if fget (f_buf s) slot i_magic =? 0 then (FLATFS_ERR_NOTFOUND, s) else
  let s := with_buf s (memset (f_buf s) slot 0 FLATFS_INODE_SIZE) in
  let s := sbset s sb_free_inodes (u64 (sbget s sb_free_inodes + 1)) in
  (FLATFS_OK, if ino <? f_ino_hint s then with_ino_hint s ino else s).

Definition flatfs_inode_init (inp : bmem) (ino mode uid gid : Z) : bmem :=
  let inp := memset inp 0 0 FLATFS_INODE_SIZE in
  let inp := fset inp 0 i_ino ino in
  let inp := fset inp 0 i_mode mode in
  let inp := fset inp 0 i_uid uid in
  let inp := fset inp 0 i_gid gid in
  let inp := fset inp 0 i_nlink 1 in
  fset inp 0 i_magic FLATFS_INODE_MAGIC.

Record flatfs_stat_t := ST {
  st_ino : Z; st_mode : Z; st_uid : Z; st_gid : Z; st_nlink : Z; st_size : Z; st_blocks : Z;
  st_atime : Z; st_mtime : Z; st_ctime : Z; st_crtime : Z; st_flags : Z; st_blksize : Z }.

Definition flatfs_inode_getattr (s : fs) (ino : Z) (tmp : bmem) : flatfs_err + flatfs_stat_t :=
  match flatfs_inode_read s ino tmp with
  | (FLATFS_OK, inp) =>
    let g := fget inp 0 in
    inr (ST (g i_ino) (g i_mode) (g i_uid) (g i_gid) (g i_nlink) (g i_size) (g i_blocks)
            (g i_atime_ns) (g i_mtime_ns) (g i_ctime_ns) (g i_crtime_ns) (g i_flags) FLATFS_BLOCK_SIZE)
  | (e, _) => inl e
  end.

Definition set_if (mask bit : Z) (inp : bmem) (f : field) (v : Z) : bmem :=
  if Z.land mask bit =? 0 then inp else fset inp 0 f v.

Definition flatfs_inode_setattr (s : fs) (ino : Z) (attr : flatfs_stat_t) (mask : Z) (tmp : bmem) : flatfs_err * fs :=
  match flatfs_inode_read s ino tmp with
  | (FLATFS_OK, inp) =>
    let inp := set_if mask FLATFS_ATTR_MODE inp i_mode (st_mode attr) in
    let inp := set_if mask FLATFS_ATTR_UID inp i_uid (st_uid attr) in
    let inp := set_if mask FLATFS_ATTR_GID inp i_gid (st_gid attr) in
    let inp := set_if mask FLATFS_ATTR_ATIME inp i_atime_ns (st_atime attr) in
    let inp := set_if mask FLATFS_ATTR_MTIME inp i_mtime_ns (st_mtime attr) in
    flatfs_inode_write s inp
  | (e, _) => (e, s)
  end.

(** ** Freelist groups as a unit (flatfs_freelist.c) *)

Definition flatfs_freelist_load (s : fs) (gi : Z) (out : bmem) : flatfs_err * bmem :=
  let blk := u64 (sbget s sb_freelist_start + gi) in
  if negb (blk_valid s blk) then (FLATFS_ERR_BOUNDS, out) else
  let out := memcpy out 0 (f_buf s) (blk_ptr blk) 4096 in
  if negb (fget out 0 g_magic =? FLATFS_FREELIST_MAGIC) then (FLATFS_ERR_CORRUPT, out) else
  let sv := fget out 0 g_crc32 in
  let out := fset out 0 g_crc32 0 in
  let got := flatfs_crc32 out 0 4096 in
  let out := fset out 0 g_crc32 sv in
  (if got =? sv then FLATFS_OK else FLATFS_ERR_CRC, out).

Definition flatfs_freelist_flush (s : fs) (gi : Z) (inp : bmem) : flatfs_err * fs :=
  let blk := u64 (sbget s sb_freelist_start + gi) in
  if negb (blk_valid s blk) then (FLATFS_ERR_BOUNDS, s) else
  let tmp := fset inp 0 g_crc32 0 in
  let tmp := fset tmp 0 g_crc32 (flatfs_crc32 tmp 0 4096) in
  let tmp := flatfs_tykid_mac_set s tmp 0 4096 in
  let tmp := fset tmp 0 g_crc32 0 in
  let tmp := fset tmp 0 g_crc32 (flatfs_crc32 tmp 0 4096) in
  (FLATFS_OK, with_buf s (memcpy (f_buf s) (blk_ptr blk) tmp 0 4096)).

(** The three passes of [flatfs_freelist_rebuild]. *)
Definition rebuild_reset (s : fs) (gi : Z) : fs :=
  let g := group_ptr s gi in
  let b := memset (f_buf s) (g + g_bitmap_off) 0xFF 256 in
  with_buf s (fset b g g_free_count 0).

Definition rebuild_ptr (s : fs) (blk : Z) : fs :=
  if blk =? 0 then s else
  if (blk <? sbget s sb_data_start) || (sbget s sb_total_blocks <=? blk) then s else
  let lo := blk - sbget s sb_data_start in
  let gi := u32 (lo / FLATFS_GROUP_BLOCKS) in
  let bit := lo mod FLATFS_GROUP_BLOCKS in
  let g := group_ptr s gi in
  if bitmap_test (f_buf s) (g + g_bitmap_off) bit then
    let b := bitmap_clr (f_buf s) (g + g_bitmap_off) bit in
    let s := with_buf s (fset b g g_free_count (u32 (fget b g g_free_count + 1))) in
    sbset s sb_free_blocks (u64 (sbget s sb_free_blocks + 1))
  else s.

Definition rebuild_inode (tmp : bmem) (s : fs) (ino : Z) : fs :=
  match flatfs_inode_read s ino tmp with
  | (FLATFS_OK, inp) =>
    if negb (Z.land (fget inp 0 i_flags) FLATFS_FL_INLINE =? 0) then s
    else fold_left (fun s i => rebuild_ptr s (fget inp 0 (i_blk_ptr (Z.of_nat i)))) (seq 0 12) s
  | _ => s
  end.

Definition flatfs_freelist_rebuild (s : fs) (tmp : bmem) : flatfs_err * fs :=
  let ngroups := Z.to_nat (sbget s sb_freelist_blocks) in
  let s := fold_left (fun s gi => rebuild_reset s (Z.of_nat gi)) (seq 0 ngroups) s in
  let s := sbset s sb_free_blocks 0 in
  let s := fold_left (fun s i => rebuild_inode tmp s (Z.of_nat i))
             (seq 1 (Z.to_nat (sbget s sb_total_inodes) - 1)) s in
  (FLATFS_OK, fold_left (fun s gi => group_flush s (Z.of_nat gi)) (seq 0 ngroups) s).

(** ** Inline files (flatfs_inline.c) *)

Definition flatfs_inline_fits (sz : Z) : bool := sz <=? FLATFS_INLINE_MAX.

Definition is_inline (inp : bmem) : bool := negb (Z.land (fget inp 0 i_flags) FLATFS_FL_INLINE =? 0).
Definition has_crc (inp : bmem) : bool := negb (Z.land (fget inp 0 i_flags) FLATFS_FL_HASCRC =? 0).

(** [inline_data + off] as an address in the inode; pointer arithmetic
    wraps, so an offset near 2^64 points below the array. *)
Definition inline_addr (off : Z) : Z := i_data_off + s64 off.

(** The bytes copied to the caller's buffer. *)
Definition flatfs_inline_read (inp : bmem) (off len : Z) : flatfs_err + list Z :=
  if negb (is_inline inp) then inl FLATFS_ERR_INVAL else
  if fget inp 0 i_size <=? off then inr [] else
  let avail := fget inp 0 i_size - off in
  let n := if len <? avail then len else avail in
  inr (bytes_of inp (inline_addr off) (Z.to_nat n)).

(** The number of bytes written and the inode. *)
Definition flatfs_inline_write (inp : bmem) (off : Z) (data : list Z) : (flatfs_err + Z) * bmem :=
  let len := Z.of_nat (length data) in
  if FLATFS_INLINE_MAX <? u64 (off + len) then (inl FLATFS_ERR_TOOBIG, inp) else
  let inp := memput inp (inline_addr off) data in
  let inp := if fget inp 0 i_size <? u64 (off + len) then fset inp 0 i_size (u64 (off + len)) else inp in
  (inr len, fset inp 0 i_flags (Z.lor (fget inp 0 i_flags) FLATFS_FL_INLINE)).

Definition flatfs_inline_to_block (s : fs) (inp : bmem) : flatfs_err * bmem * fs :=
  if negb (is_inline inp) then (FLATFS_OK, inp, s) else
  match flatfs_alloc_block to_local s with
  | (inl e, s) => (e, inp, s)
  | (inr blk, s) =>
    let dst := blk_ptr blk in
    let b := memset (f_buf s) dst 0 FLATFS_BLOCK_SIZE in
    let b := memcpy b dst inp i_data_off (fget inp 0 i_size) in
    let b := flatfs_block_crc_set b dst FLATFS_BLOCK_SIZE in
    let s := with_buf s b in
    let inp := memset inp i_data_off 0 96 in
    let inp := fset inp 0 (i_blk_ptr 0) blk in
    let inp := fset inp 0 i_blocks (FLATFS_BLOCK_SIZE / 512) in
    let inp := fset inp 0 i_flags (Z.land (fget inp 0 i_flags) (Z.lnot FLATFS_FL_INLINE)) in
    let '(e, s) := flatfs_inode_write s inp in
    (e, inp, s)
  end.

(** ** Files (flatfs_file.c) *)

Definition PTRS_PER_BLK : Z := FLATFS_BLOCK_SIZE / 8.
Definition DIRECT_MAX : Z := 10.
Definition INDIRECT_IDX : Z := 10.
Definition DBLIND_IDX : Z := 11.

(** [in->blocks += FLATFS_BLOCK_SIZE / 512] *)
Definition add_blocks (inp : bmem) : bmem :=
  fset inp 0 i_blocks (u64 (fget inp 0 i_blocks + FLATFS_BLOCK_SIZE / 512)).

(** "If the pointer is null, allocate": a pointer slot of the inode. *)
Definition ensure_inode_ptr (s : fs) (inp : bmem) (k : Z) (alloc : bool) : (flatfs_err + Z) * bmem * fs :=
  let p := fget inp 0 (i_blk_ptr k) in
  if negb (p =? 0) then (inr p, inp, s) else
  if negb alloc then (inr 0, inp, s) else
  match flatfs_alloc_block to_local s with
  | (inl e, s) => (inl e, inp, s)
  | (inr blk, s) => (inr blk, add_blocks (fset inp 0 (i_blk_ptr k) blk), s)
  end.

(** The same for slot [idx] of the pointer block [ind]. *)
Definition ensure_block_ptr (s : fs) (inp : bmem) (ind idx : Z) (alloc : bool) : (flatfs_err + Z) * bmem * fs :=
  let a := blk_ptr ind + 8 * idx in
  let p := rd 8 (f_buf s) a in
  if negb (p =? 0) then (inr p, inp, s) else
  if negb alloc then (inr 0, inp, s) else
  match flatfs_alloc_block (fun blk s => with_buf s (wr 8 (f_buf s) a blk)) s with
  | (inl e, s) => (inl e, inp, s)
  | (inr blk, s) => (inr (rd 8 (f_buf s) a), add_blocks inp, s)
  end.

(** Zero as a result is a hole (only without [alloc]). *)
Definition map_block (s : fs) (inp : bmem) (lblk : Z) (alloc : bool) : (flatfs_err + Z) * bmem * fs :=
  if lblk <? DIRECT_MAX then ensure_inode_ptr s inp lblk alloc else
  let lblk := lblk - DIRECT_MAX in
  if lblk <? PTRS_PER_BLK then
    match ensure_inode_ptr s inp INDIRECT_IDX alloc with
    | (inr ind, inp, s) =>
      if negb alloc && (ind =? 0) then (inr 0, inp, s) else ensure_block_ptr s inp ind lblk alloc
    | r => r
    end
  else
  let lblk := lblk - PTRS_PER_BLK in
  if lblk <? PTRS_PER_BLK * PTRS_PER_BLK then
    match ensure_inode_ptr s inp DBLIND_IDX alloc with
    | (inr dbl, inp, s) =>
      if negb alloc && (dbl =? 0) then (inr 0, inp, s) else
      match ensure_block_ptr s inp dbl (lblk / PTRS_PER_BLK) alloc with
      | (inr ind, inp, s) =>
        if negb alloc && (ind =? 0) then (inr 0, inp, s)
        else ensure_block_ptr s inp ind (lblk mod PTRS_PER_BLK) alloc
      | r => r
      end
    | r => r
    end
  else (inl FLATFS_ERR_TOOBIG, inp, s).

(** The block as a memory based at 0; the state changes by audit only. *)
Definition flatfs_file_read_blk (s : fs) (inp : bmem) (lblk : Z) : (flatfs_err + bmem) * fs :=
  match map_block s inp lblk false with
  | (inl e, _, s) => (inl e, s)
  | (inr pblk, _, s) =>
    if pblk =? 0 then (inr (fun _ => 0), s) else
    let buf := fun i => f_buf s (blk_ptr pblk + i) in
    if has_crc inp then
      if negb (flatfs_block_crc_ok buf 0 FLATFS_BLOCK_SIZE) then
        (inl FLATFS_ERR_CRC, flatfs_tykid_audit_crc_err s pblk) else
      let '(ok, s) := flatfs_tykid_mac_ok s buf 0 FLATFS_BLOCK_SIZE in
      if ok then (inr buf, s) else (inl FLATFS_ERR_CRC, flatfs_tykid_audit_crc_err s pblk)
    else (inr buf, s)
  end.

Definition flatfs_file_write_blk (s : fs) (inp : bmem) (lblk : Z) (data : bmem) : flatfs_err * bmem * fs :=
  match map_block s inp lblk true with
  | (inl e, inp, s) => (e, inp, s)
  | (inr pblk, inp, s) =>
    let tmp := if has_crc inp
               then flatfs_block_crc_set (flatfs_tykid_mac_set s data 0 FLATFS_BLOCK_SIZE) 0 FLATFS_BLOCK_SIZE
               else data in
    (FLATFS_OK, inp, with_buf s (memcpy (f_buf s) (blk_ptr pblk) tmp 0 FLATFS_BLOCK_SIZE))
  end.

(** The block and the offset in it of byte [off + done], and the bytes the
    iteration moves. *)
Definition io_lblk (off done : Z) : Z := Z.shiftr (u64 (off + done)) FLATFS_BLOCK_SHIFT.
Definition io_boff (off done : Z) : Z := Z.land (u64 (off + done)) (FLATFS_BLOCK_SIZE - 1).
Definition io_chunk (off done len : Z) : Z :=
  let chunk := FLATFS_BLOCK_SIZE - io_boff off done in
  if len - done <? chunk then len - done else chunk.

(** The loop of [flatfs_file_pread]; [None] when the fuel runs out. *)
Fixpoint pread_loop (fuel : nat) (s : fs) (inp : bmem) (off len done : Z) (acc : list Z)
  : option ((flatfs_err + list Z) * fs) :=
  if len <=? done then Some (inr acc, s) else
  match fuel with
  | O => None
  | S fuel =>
    match flatfs_file_read_blk s inp (io_lblk off done) with
    | (inl e, s) => Some (inl e, s)
    | (inr blk, s) =>
      let n := io_chunk off done len in
      pread_loop fuel (flatfs_mon_read s) inp off len (done + n)
        (acc ++ bytes_of blk (io_boff off done) (Z.to_nat n))
    end
  end.

(** Enough iterations for [len] bytes: one per block touched. *)
Definition io_fuel (len : Z) : nat := Z.to_nat (len / FLATFS_BLOCK_SIZE + 2).

Definition flatfs_file_pread (s : fs) (inp : bmem) (off len : Z) : option ((flatfs_err + list Z) * fs) :=
  if is_inline inp then Some (flatfs_inline_read inp off len, s) else
  if fget inp 0 i_size <=? off then Some (inr [], s) else
  let avail := fget inp 0 i_size - off in
  let len := if avail <? len then avail else len in
  pread_loop (io_fuel len) s inp off len 0 [].

Fixpoint pwrite_loop (fuel : nat) (s : fs) (inp : bmem) (off : Z) (data : list Z) (done : Z)
  : option (flatfs_err * bmem * fs) :=
  let len := Z.of_nat (length data) in
  if len <=? done then Some (FLATFS_OK, inp, s) else
  match fuel with
  | O => None
  | S fuel =>
    let boff := io_boff off done in
    let n := io_chunk off done len in
    let '(r, s) := if negb (boff =? 0) || (n <? FLATFS_BLOCK_SIZE)
                   then flatfs_file_read_blk s inp (io_lblk off done)
                   else (inr (fun _ => 0), s) in
    match r with
    | inl e => Some (e, inp, s)
    | inr blk =>
      let blk := memput blk boff (take (Z.to_nat n) (drop (Z.to_nat done) data)) in
      match flatfs_file_write_blk s inp (io_lblk off done) blk with
      | (FLATFS_OK, inp, s) => pwrite_loop fuel (flatfs_mon_write s) inp off data (done + n)
      | r => Some r
      end
    end
  end.

(** The part of [flatfs_file_pwrite] after the inline cases: the loop, the
    new size and the inode write.  The bytes written are those asked for. *)
Definition pwrite_blocks (s : fs) (inp : bmem) (off : Z) (data : list Z)
  : option ((flatfs_err + Z) * bmem * fs) :=
  let len := Z.of_nat (length data) in
  r ← pwrite_loop (io_fuel len) s inp off data 0;
  match r with
  | (FLATFS_OK, inp, s) =>
    let inp := if fget inp 0 i_size <? u64 (off + len) then fset inp 0 i_size (u64 (off + len)) else inp in
    let '(e, s) := flatfs_inode_write s inp in
    Some (match e with FLATFS_OK => inr len | e => inl e end, inp, s)
  | (e, inp, s) => Some (inl e, inp, s)
  end.

Definition flatfs_file_pwrite (s : fs) (inp : bmem) (off : Z) (data : list Z)
  : option ((flatfs_err + Z) * bmem * fs) :=
  let len := Z.of_nat (length data) in
  if is_inline inp then
    if negb (flatfs_inline_fits (u64 (off + len))) then
      match flatfs_inline_to_block s inp with
      | (FLATFS_OK, inp, s) => pwrite_blocks s inp off data
      | (e, inp, s) => Some (inl e, inp, s)
      end
    else let '(r, inp) := flatfs_inline_write inp off data in Some (r, inp, s)
  else pwrite_blocks s inp off data.

Fixpoint truncate_loop (n : nat) (s : fs) (inp : bmem) (lb : Z) : fs :=
  match n with
  | O => s
  | S n =>
    let s := match map_block s inp lb false with
             | (inr pb, _, s) => if pb =? 0 then s else snd (flatfs_free_block s pb)
             | (inl _, _, s) => s
             end in
    truncate_loop n s inp (lb + 1)
  end.

Definition flatfs_file_truncate (s : fs) (inp : bmem) (new_sz : Z) : flatfs_err * bmem * fs :=
  let size := fget inp 0 i_size in
  if size <? new_sz then
    let inp := fset inp 0 i_size new_sz in
    let '(e, s) := flatfs_inode_write s inp in (e, inp, s)
  else if new_sz =? size then (FLATFS_OK, inp, s) else
  let old_blks := Z.shiftr (u64 (size + FLATFS_BLOCK_SIZE - 1)) FLATFS_BLOCK_SHIFT in
  let new_blks := Z.shiftr (u64 (new_sz + FLATFS_BLOCK_SIZE - 1)) FLATFS_BLOCK_SHIFT in
  let s := truncate_loop (Z.to_nat (old_blks - new_blks)) s inp new_blks in
  let inp := fset inp 0 i_size new_sz in
  let inp := if (new_sz =? 0) && is_inline inp then memset inp i_data_off 0 FLATFS_INLINE_MAX else inp in
  let '(e, s) := flatfs_inode_write s inp in (e, inp, s).

(** ** Integrity sweep (flatfs_integrity.c) *)

Definition flatfs_integrity_check_block (s : fs) (blk : Z) : flatfs_err * fs :=
  if negb (blk_valid s blk) then (FLATFS_ERR_BOUNDS, s) else
  let p := blk_ptr blk in
  if negb (flatfs_block_crc_ok (f_buf s) p FLATFS_BLOCK_SIZE) then
    (FLATFS_ERR_CRC, flatfs_tykid_audit_crc_err s blk) else
  let '(ok, s) := flatfs_tykid_mac_ok s (f_buf s) p FLATFS_BLOCK_SIZE in
  if ok then (FLATFS_OK, s) else (FLATFS_ERR_CRC, flatfs_tykid_audit_crc_err s blk).

Definition flatfs_integrity_check_inode (s : fs) (ino : Z) (tmp : bmem) : flatfs_err :=
  match flatfs_inode_read s ino tmp with
  | (FLATFS_OK, inp) =>
    if negb (fget inp 0 i_magic =? FLATFS_INODE_MAGIC) then FLATFS_ERR_CORRUPT else
    let saved := fget inp 0 i_crc32 in
    let got := flatfs_crc32 (fset inp 0 i_crc32 0) 0 256 in
    if got =? saved then FLATFS_OK else FLATFS_ERR_CRC
  | (e, _) => e
  end.

Record flatfs_integrity_result_t := IR { ir_checked : Z; ir_crc : Z; ir_inode : Z }.

(** [passed]; the btree and journal counters are never incremented. *)
Definition ir_passed (r : flatfs_integrity_result_t) : bool := (ir_crc r =? 0) && (ir_inode r =? 0).

Definition integrity_inode (s : fs) (r : flatfs_integrity_result_t) (ino : Z) : flatfs_integrity_result_t :=
  let a := inode_ptr s ino in
  if fget (f_buf s) a i_magic =? 0 then r else
  let sv := fget (f_buf s) a i_crc32 in
  let got := flatfs_crc32 (fset (f_buf s) a i_crc32 0) a 256 in
  if negb (got =? sv) || negb (fget (f_buf s) a i_magic =? FLATFS_INODE_MAGIC)
  then IR (ir_checked r + 1) (ir_crc r + 1) (ir_inode r + 1)
  else IR (ir_checked r + 1) (ir_crc r) (ir_inode r).

Definition integrity_data (sr : fs * flatfs_integrity_result_t) (blk : Z) : fs * flatfs_integrity_result_t :=
  let '(s, r) := sr in
  match flatfs_integrity_check_block s blk with
  | (FLATFS_OK, s) => (s, IR (ir_checked r + 1) (ir_crc r) (ir_inode r))
  | (_, s) => (s, IR (ir_checked r + 1) (ir_crc r + 1) (ir_inode r))
  end.

Definition flatfs_integrity_check (s : fs) : flatfs_integrity_result_t * fs :=
  let total := sbget s sb_total_blocks in
  let ds := sbget s sb_data_start in
  let r := fold_left (fun r i => integrity_inode s r (Z.of_nat i))
             (seq 1 (Z.to_nat (sbget s sb_total_inodes) - 1)) (IR 0 0 0) in
  let '(s, r) := fold_left (fun sr i => integrity_data sr (ds + Z.of_nat i))
                   (seq 0 (Z.to_nat (total - ds))) (s, r) in
  (r, s).
