(* ===== verification/FlatAlloc.v ===== *)
(** * The FlatFS block allocator refines a set of free blocks

    Shows that [flatfs_alloc_block] is first-fit over the whole volume (the
    group hint never hides a free block), that it never hands out a block
    beyond the end of the volume although the last group's bitmap covers
    such blocks, and that the group counters and the superblock's count
    stay exact. *)

From stdpp Require Import base list.
From Stdlib Require Import ZArith Lia.
From S2P Require Import Prelude TyCrypto FlatCrc FlatFs Bitmap.

(** ** Counting the clear slots of an interval *)

Fixpoint cnt (used : Z -> bool) (a : Z) (n : nat) : Z :=
  match n with
  | O => 0
  | S n => (if used a then 0 else 1) + cnt used (a + 1) n
  end.

Lemma cnt_ext u v n : forall a, (forall k, a <= k < a + Z.of_nat n -> u k = v k) -> cnt u a n = cnt v a n.
Proof.
  induction n as [|n IH]; intros a H; [done|]. cbn [cnt]. rewrite (H a) by lia. f_equal. apply IH.
  intros k Hk. apply H. lia.
Qed.

Lemma cnt_range u n : forall a, 0 <= cnt u a n <= Z.of_nat n.
Proof. induction n as [|n IH]; intros a; cbn [cnt]; [lia|]. specialize (IH (a + 1)). destruct (u a); lia. Qed.

Lemma cnt_upd u v x n : forall a, a <= x < a + Z.of_nat n ->
  (forall k, a <= k < a + Z.of_nat n -> k <> x -> v k = u k) ->
  cnt v a n = cnt u a n + (if u x then 0 else -1) + (if v x then 0 else 1).
Proof.
  induction n as [|n IH]; intros a Hx H; [lia|]. cbn [cnt].
  destruct (Z.eq_dec x a) as [->|Hne].
  - rewrite (cnt_ext v u n (a + 1)); [destruct (u a), (v a); lia|]. intros k Hk. apply H; lia.
  - rewrite (IH (a + 1)); [|lia|intros k Hk; apply H; lia]. rewrite (H a) by lia. lia.
Qed.

Lemma cnt_pos u n : forall a, 0 < cnt u a n -> exists k, a <= k < a + Z.of_nat n /\ u k = false.
Proof.
  induction n as [|n IH]; intros a; cbn [cnt]; [lia|]. destruct (u a) eqn:E.
  - intros H. destruct (IH (a + 1)) as (k & Hk & Hu); [lia|]. exists k. split; [lia|done].
  - intros _. exists a. split; [lia|done].
Qed.

Lemma cnt_zero u n : forall a, cnt u a n = 0 -> forall k, a <= k < a + Z.of_nat n -> u k = true.
Proof.
  induction n as [|n IH]; intros a H k Hk; [lia|]. cbn [cnt] in H. pose proof (cnt_range u n (a + 1)).
  destruct (Z.eq_dec k a) as [->|]; [destruct (u a); [done|lia]|].
  apply (IH (a + 1)); [destruct (u a); lia|lia].
Qed.

(** ** Bitmap bytes *)

Lemma bit_index bit : 0 <= bit -> Z.shiftr bit 3 = bit / 8 /\ Z.land bit 7 = bit mod 8.
Proof.
  intros. split; [by rewrite Z.shiftr_div_pow2 by lia|].
  change 7 with (2 ^ 3 - 1). by rewrite land_mask by lia.
Qed.

Lemma one_bit k : 0 <= k < 8 -> u8 (Z.shiftl 1 k) = Z.shiftl 1 k.
Proof.
  intros Hk. apply Z.mod_small. rewrite Z.shiftl_mul_pow2, Z.mul_1_l by lia.
  split; [apply Z.pow_nonneg; lia|apply Z.pow_lt_mono_r; lia].
Qed.

Lemma bitmap_test_set m bm bit j : 0 <= bit -> 0 <= j ->
  bitmap_test (bitmap_set m bm bit) bm j = (j =? bit) || bitmap_test m bm j.
Proof.
  intros Hb Hj. unfold bitmap_test, bitmap_set.
  destruct (bit_index bit Hb) as [-> ->], (bit_index j Hj) as [-> ->].
  rewrite one_bit by zlia.
  unfold upd. destruct (Z.eqb_spec (bm + j / 8) (bm + bit / 8)) as [E|E].
  - change (Z.lor ?w (Z.shiftl 1 ?b)) with (set_bit w b). rewrite testbit_set by zlia. rewrite E.
    rewrite orb_comm. f_equal. destruct (Z.eqb_spec (j mod 8) (bit mod 8)), (Z.eqb_spec j bit); try done; zlia.
  - destruct (Z.eqb_spec j bit) as [->|]; [lia|done].
Qed.

Lemma bitmap_test_clr m bm bit j : 0 <= bit -> 0 <= j ->
  bitmap_test (bitmap_clr m bm bit) bm j = negb (j =? bit) && bitmap_test m bm j.
Proof.
  intros Hb Hj. unfold bitmap_test, bitmap_clr.
  destruct (bit_index bit Hb) as [-> ->], (bit_index j Hj) as [-> ->].
  unfold upd. destruct (Z.eqb_spec (bm + j / 8) (bm + bit / 8)) as [E|E].
  - rewrite Z.land_spec. unfold u8. rewrite Z.mod_pow2_bits_low by zlia.
    rewrite Z.lnot_spec by zlia. rewrite E, andb_comm. f_equal. f_equal.
    rewrite Z.shiftl_spec by zlia.
    destruct (Z.eqb_spec j bit) as [->|Hne].
    + by rewrite Z.sub_diag.
    + assert (j mod 8 - bit mod 8 <> 0) by zlia.
      destruct (j mod 8 - bit mod 8) as [|p|p]; [lia|by destruct p|done].
  - destruct (Z.eqb_spec j bit) as [->|]; [lia|done].
Qed.

Lemma byte_log2 z : 0 <= z -> z < 256 <-> Z.log2 z < 8.
Proof.
  intros Hz. destruct (Z.eq_dec z 0) as [->|]; [done|]. change 256 with (2 ^ 8).
  rewrite (Z.log2_lt_pow2 z 8); [done|lia].
Qed.

Lemma byte_lor a b : 0 <= a < 256 -> 0 <= b < 256 -> 0 <= Z.lor a b < 256.
Proof.
  intros [Ha Ha'%byte_log2] [Hb Hb'%byte_log2]; [|done..].
  assert (0 <= Z.lor a b) by (apply Z.lor_nonneg; lia). split; [done|].
  apply byte_log2; [done|]. rewrite Z.log2_lor by lia. lia.
Qed.

Lemma byte_land a b : 0 <= a < 256 -> 0 <= b -> 0 <= Z.land a b < 256.
Proof.
  intros [Ha Ha'%byte_log2] Hb; [|done].
  assert (0 <= Z.land a b) by (apply Z.land_nonneg; lia). split; [done|].
  apply byte_log2; [done|]. pose proof (Z.log2_land a b Ha Hb). lia.
Qed.

Lemma bytes_ok_upd m i v : bytes_ok m -> 0 <= v < 256 -> bytes_ok (upd m i v).
Proof. intros Hm Hv k. unfold upd. destruct (k =? i); [done|apply Hm]. Qed.

Lemma bytes_ok_set m bm bit : bytes_ok m -> bytes_ok (bitmap_set m bm bit).
Proof. intros Hm. apply bytes_ok_upd; [done|]. apply byte_lor; [apply Hm|]. apply Z.mod_pos_bound. lia. Qed.

Lemma bytes_ok_clr m bm bit : bytes_ok m -> bytes_ok (bitmap_clr m bm bit).
Proof. intros Hm. apply bytes_ok_upd; [done|]. apply byte_land; [apply Hm|]. apply Z.mod_pos_bound. lia. Qed.

Lemma find_free_spec n m bm : forall i,
  match find_free_from n m bm i with
  | Some k => i <= k < i + Z.of_nat n /\ bitmap_test m bm k = false /\ (forall j, i <= j < k -> bitmap_test m bm j = true)
  | None => forall j, i <= j < i + Z.of_nat n -> bitmap_test m bm j = true
  end.
Proof.
  induction n as [|n IH]; intros i; cbn [find_free_from]; [lia|].
  destruct (bitmap_test m bm i) eqn:E; cbn [negb].
  - specialize (IH (i + 1)). destruct (find_free_from n m bm (i + 1)) as [k|].
    + destruct IH as (Hk & Hf & Hj). split_and!; [lia|lia|done|].
      intros j Hj'. destruct (Z.eq_dec j i) as [->|]; [done|]. apply Hj. lia.
    + intros j Hj. destruct (Z.eq_dec j i) as [->|]; [done|]. apply IH. lia.
  - split_and!; [lia|lia|done|lia].
Qed.

(** ** Geometry and slots *)

(** Where the freelist, the groups and the data area lie. *)
Record geom := GE { ge_fl : Z; ge_ng : Z; ge_ds : Z; ge_tb : Z }.

Record geom_ok (g : geom) : Prop := {
  go_fl : 2 <= ge_fl g;
  go_ng : 0 < ge_ng g < 2 ^ 31;
  go_ds : ge_fl g + ge_ng g <= ge_ds g;
  go_tb : ge_ds g <= ge_tb g <= 2 ^ 41;
  go_cover : ge_tb g - ge_ds g <= ge_ng g * 2048 }.

(** Address of group [gi]. *)
Definition gaddr (g : geom) (gi : Z) : Z := (ge_fl g + gi) * 4096.

(** Slot [k] is block [ge_ds + k]. *)
Definition used (g : geom) (m : bmem) (k : Z) : bool :=
  bitmap_test m (gaddr g (k / 2048) + g_bitmap_off) (k mod 2048).

Lemma blk_ptr_eq blk : 0 <= blk < 2 ^ 52 -> blk_ptr blk = blk * 4096.
Proof.
  intros H. unfold blk_ptr, FLATFS_BLOCK_SHIFT. rewrite Z.shiftl_mul_pow2 by lia. change (2 ^ 12) with 4096.
  apply u64_small. lia.
Qed.

Lemma slot_split k : k = k / 2048 * 2048 + k mod 2048 /\ 0 <= k mod 2048 < 2048.
Proof. zlia. Qed.

Section Alloc.
Context (g : geom) (Hg : geom_ok g).

Lemma gaddr_low gi : 0 <= gi < ge_ng g -> 8192 <= gaddr g gi /\ gaddr g gi + 4096 <= ge_ds g * 4096.
Proof using Hg. destruct Hg. unfold gaddr. lia. Qed.

(** ** What the allocator's bookkeeping writes *)

(** The group and superblock bytes after one bit of group [gi] changed. *)
Definition meta_upd (b1 : bmem) (gi c v : Z) : bmem :=
  let ga := gaddr g gi in
  let b := fset (fset b1 ga g_free_count c) 0 sb_free_blocks v in
  let b := fset b ga g_crc32 0 in
  fset b ga g_crc32 (flatfs_crc32 b ga 4096).

Lemma meta_upd_other b1 gi c v i :
  0 <= gi < ge_ng g -> (i < 32 \/ 40 <= i) -> (i < gaddr g gi + 16 \/ gaddr g gi + 20 <= i) ->
  (i < gaddr g gi + 4092 \/ gaddr g gi + 4096 <= i) ->
  meta_upd b1 gi c v i = b1 i.
Proof using Hg.
  intros Hgi H1 H2 H3. unfold meta_upd, fset, g_crc32, sb_free_blocks, g_free_count. cbn [f_width f_off].
  by rewrite !wr_out by (cbn [Z.of_nat Pos.of_succ_nat Pos.succ]; lia).
Qed.

Lemma meta_upd_free b1 gi c v : 0 <= gi < ge_ng g -> 0 <= v < 2 ^ 64 ->
  fget (meta_upd b1 gi c v) 0 sb_free_blocks = v.
Proof using Hg.
  intros Hgi Hv. pose proof (gaddr_low gi Hgi). unfold meta_upd, fget, fset, g_crc32, sb_free_blocks, g_free_count.
  cbn [f_width f_off]. rewrite !rd_wr_other by lia. by apply rd_wr_small.
Qed.

Lemma meta_upd_count b1 gi c v : 0 <= gi < ge_ng g -> 0 <= c < 2 ^ 32 ->
  fget (meta_upd b1 gi c v) (gaddr g gi) g_free_count = c.
Proof using Hg.
  intros Hgi Hc. pose proof (gaddr_low gi Hgi). unfold meta_upd, fget, fset, g_crc32, sb_free_blocks, g_free_count.
  cbn [f_width f_off]. rewrite !rd_wr_other by lia. by apply rd_wr_small.
Qed.

Lemma meta_upd_bytes b1 gi c v : bytes_ok b1 -> bytes_ok (meta_upd b1 gi c v).
Proof. intros. unfold meta_upd, fset. auto 10 with kobalt. Qed.

(** Setting or clearing one bit. *)
Definition bput (v : bool) (m : bmem) (bm bit : Z) : bmem :=
  if v then bitmap_set m bm bit else bitmap_clr m bm bit.

Lemma bput_other v m bm bit i : i <> bm + bit / 8 -> 0 <= bit -> bput v m bm bit i = m i.
Proof.
  intros Hi Hb. unfold bput, bitmap_set, bitmap_clr. destruct (bit_index bit Hb) as [-> _].
  destruct v; by apply upd_ne.
Qed.

Lemma bput_test v m bm bit j : 0 <= bit -> 0 <= j ->
  bitmap_test (bput v m bm bit) bm j = if j =? bit then v else bitmap_test m bm j.
Proof.
  intros Hb Hj. unfold bput. destruct v; [rewrite bitmap_test_set by done|rewrite bitmap_test_clr by done];
    by destruct (j =? bit).
Qed.

Lemma bput_bytes v m bm bit : bytes_ok m -> bytes_ok (bput v m bm bit).
Proof. destruct v; [apply bytes_ok_set|apply bytes_ok_clr]. Qed.

(** The metadata after slot [x] became [v]. *)
Definition slot_upd (m : bmem) (x : Z) (v : bool) : bmem :=
  let ga := gaddr g (x / 2048) in
  let d := if v then -1 else 1 in
  let b := bput v m (ga + g_bitmap_off) (x mod 2048) in
  meta_upd b (x / 2048) (u32 (fget b ga g_free_count + d)) (u64 (fget m 0 sb_free_blocks + d)).

Lemma slot_group x : 0 <= x < ge_ng g * 2048 -> 0 <= x / 2048 < ge_ng g.
Proof. intros. zlia. Qed.

Lemma slot_upd_other m x v i :
  0 <= x < ge_ng g * 2048 -> (i < 32 \/ 40 <= i) ->
  (i < gaddr g (x / 2048) + 16 \/ gaddr g (x / 2048) + 20 <= i) ->
  (i < gaddr g (x / 2048) + 108 \/ gaddr g (x / 2048) + 364 <= i) ->
  (i < gaddr g (x / 2048) + 4092 \/ gaddr g (x / 2048) + 4096 <= i) ->
  slot_upd m x v i = m i.
Proof using Hg.
  intros Hx H1 H2 H3 H4. unfold slot_upd. rewrite meta_upd_other by (done || by apply slot_group).
  unfold g_bitmap_off. pose proof (slot_split x) as [_ ?].
  apply bput_other; [|lia]. assert (0 <= x mod 2048 / 8 < 256) by zlia. lia.
Qed.

Lemma slot_upd_bytes m x v : bytes_ok m -> bytes_ok (slot_upd m x v).
Proof. intros. by apply meta_upd_bytes, bput_bytes. Qed.

Lemma slot_upd_used m x v k :
  0 <= x < ge_ng g * 2048 -> 0 <= k < ge_ng g * 2048 ->
  used g (slot_upd m x v) k = if k =? x then v else used g m k.
Proof using Hg.
  intros Hx Hk. pose proof (slot_split x) as [Ex Hxr]. pose proof (slot_split k) as [Ek Hkr].
  pose proof (slot_group x Hx) as Gx. pose proof (slot_group k Hk) as Gk.
  pose proof (gaddr_low _ Gx) as Lx. pose proof (gaddr_low _ Gk) as Lk.
  assert (Hb : 0 <= k mod 2048 / 8 < 256) by (clear - Hkr; zlia).
  unfold used, slot_upd. unfold bitmap_test at 1. destruct (bit_index (k mod 2048)) as [E1 E2]; [lia|]. rewrite E1, E2.
  unfold g_bitmap_off in *. destruct (Z.eq_dec (k / 2048) (x / 2048)) as [E|E].
  - rewrite E in *. rewrite meta_upd_other by (done || lia).
    set (bm := gaddr g (x / 2048) + 108) in *.
    pose proof (bput_test v m bm (x mod 2048) (k mod 2048)) as T. unfold bitmap_test in T at 1.
    rewrite E1, E2 in T. rewrite T by lia.
    destruct (Z.eqb_spec (k mod 2048) (x mod 2048)), (Z.eqb_spec k x); try done; lia.
  - assert (Hne : (ge_fl g + k / 2048) * 4096 + 4096 <= (ge_fl g + x / 2048) * 4096
                 \/ (ge_fl g + x / 2048) * 4096 + 4096 <= (ge_fl g + k / 2048) * 4096) by lia.
    fold (gaddr g (k / 2048)) (gaddr g (x / 2048)) in Hne.
    rewrite meta_upd_other by (done || lia).
    assert (Hb' : 0 <= x mod 2048 / 8 < 256) by (clear - Hxr; zlia).
    rewrite bput_other by lia.
    unfold bitmap_test. rewrite E1, E2. destruct (Z.eqb_spec k x) as [->|]; [done|done].
Qed.

(** ** The invariant *)

(** The part of the invariant that lives in the buffer. *)
Record meta_inv (m : bmem) : Prop := {
  mi_bytes : bytes_ok m;
  mi_fl : fget m 0 sb_freelist_start = ge_fl g;
  mi_ds : fget m 0 sb_data_start = ge_ds g;
  mi_tb : fget m 0 sb_total_blocks = ge_tb g;
  mi_base : forall gi, 0 <= gi < ge_ng g -> fget m (gaddr g gi) g_base_blk = ge_ds g + gi * 2048;
  mi_cnt : forall gi, 0 <= gi < ge_ng g -> fget m (gaddr g gi) g_free_count = cnt (used g m) (gi * 2048) 2048;
  mi_free : fget m 0 sb_free_blocks = cnt (used g m) 0 (Z.to_nat (ge_tb g - ge_ds g)) }.

Record inv (s : fs) : Prop := {
  ai_meta : meta_inv (f_buf s);
  ai_ng : f_ngroups s = ge_ng g;
  ai_hint : 0 <= f_group_hint s < ge_ng g;
  ai_low : forall k, 0 <= k < f_group_hint s * 2048 -> used g (f_buf s) k = true }.

Lemma fget_ext m m' base f :
  (forall i, 0 <= i < Z.of_nat (f_width f) -> m' (base + f_off f + i) = m (base + f_off f + i)) ->
  fget m' base f = fget m base f.
Proof. intros H. by apply rd_ext. Qed.

Lemma fget_out m m' base f : (forall i, base + f_off f <= i < base + f_off f + Z.of_nat (f_width f) -> m' i = m i) ->
  fget m' base f = fget m base f.
Proof. intros Hm. apply fget_ext. intros i Hi. apply Hm. lia. Qed.

(** The bitmaps are in the blocks of the freelist. *)
Lemma used_groups m m' k : 0 <= k < ge_ng g * 2048 ->
  (forall i, ge_fl g * 4096 <= i < ge_ds g * 4096 -> m' i = m i) -> used g m' k = used g m k.
Proof using Hg.
  intros Hk H. pose proof (slot_split k) as [_ Hr]. pose proof (slot_group k Hk) as Gk. pose proof (gaddr_low _ Gk).
  unfold used, bitmap_test. destruct (bit_index (k mod 2048)) as [-> ->]; [lia|].
  rewrite H; [done|]. unfold g_bitmap_off. assert (0 <= k mod 2048 / 8 < 256) by (clear - Hr; zlia). unfold gaddr in *. lia.
Qed.

Lemma used_ext m m' k : 0 <= k < ge_ng g * 2048 ->
  (forall i, 0 <= i < ge_ds g * 4096 -> m' i = m i) -> used g m' k = used g m k.
Proof using Hg. intros Hk H. apply used_groups; [done|]. intros i Hi. apply H. destruct Hg; lia. Qed.

(** The invariant does not look at the data area. *)
Lemma meta_inv_ext m m' :
  (forall i, 0 <= i < ge_ds g * 4096 -> m' i = m i) -> bytes_ok m' -> meta_inv m -> meta_inv m'.
Proof using Hg.
  intros H Hb [? Hfl Hds Htb Hbase Hcnt Hfree].
  assert (Hu : forall k, 0 <= k < ge_ng g * 2048 -> used g m' k = used g m k) by (intros; by apply used_ext).
  assert (Hlow : 4096 <= ge_ds g * 4096) by (destruct Hg; lia).
  constructor; [done|..].
  - rewrite <- Hfl. apply fget_ext. cbn. intros. apply H. lia.
  - rewrite <- Hds. apply fget_ext. cbn. intros. apply H. lia.
  - rewrite <- Htb. apply fget_ext. cbn. intros. apply H. lia.
  - intros gi Hgi. rewrite <- Hbase by done. pose proof (gaddr_low gi Hgi). apply fget_ext. cbn. intros. apply H. lia.
  - intros gi Hgi. pose proof (gaddr_low gi Hgi).
    rewrite (cnt_ext _ (used g m)); [|intros; apply Hu; lia].
    rewrite <- Hcnt by done. apply fget_ext. cbn. intros. apply H. lia.
  - rewrite (cnt_ext _ (used g m)); [|intros; apply Hu; destruct Hg; lia].
    rewrite <- Hfree. apply fget_ext. cbn. intros. apply H. lia.
Qed.

(** Flipping a slot moves the count of an interval that holds it by one. *)
Lemma slot_cnt m x v a n :
  0 <= a -> a + Z.of_nat n <= ge_ng g * 2048 -> a <= x < a + Z.of_nat n -> used g m x = negb v ->
  cnt (used g (slot_upd m x v)) a n = cnt (used g m) a n + (if v then -1 else 1) /\
  0 <= cnt (used g m) a n + (if v then -1 else 1) <= Z.of_nat n.
Proof using Hg.
  intros Ha Hn Hx Hu.
  assert (E : cnt (used g (slot_upd m x v)) a n = cnt (used g m) a n + (if v then -1 else 1)).
  { rewrite (cnt_upd (used g m) _ x); [|done|].
    - rewrite slot_upd_used, Z.eqb_refl, Hu by lia. destruct v; cbn [negb]; lia.
    - intros k Hk Hne. rewrite slot_upd_used by lia. by rewrite (proj2 (Z.eqb_neq _ _) Hne). }
  split; [done|]. rewrite <- E. apply cnt_range.
Qed.

Lemma slot_upd_count m x v gi :
  meta_inv m -> 0 <= x < ge_ng g * 2048 -> used g m x = negb v -> 0 <= gi < ge_ng g ->
  fget (slot_upd m x v) (gaddr g gi) g_free_count = cnt (used g (slot_upd m x v)) (gi * 2048) 2048.
Proof using Hg.
  intros M Hx Hu Hgi. pose proof (slot_split x) as [Ex Hxr]. pose proof (slot_group x Hx) as Gx.
  pose proof (gaddr_low _ Gx) as Lx. pose proof (gaddr_low gi Hgi) as Lgi.
  destruct (Z.eq_dec gi (x / 2048)) as [->|Hne].
  - destruct (slot_cnt m x v (x / 2048 * 2048) 2048) as [-> Hr]; [lia|lia|lia|done|].
    unfold slot_upd. rewrite meta_upd_count by (done || (apply Z.mod_pos_bound; lia)).
    rewrite (fget_ext m (bput _ _ _ _)), (mi_cnt _ M) by done || (cbn; intros i Hi; apply bput_other; [|lia];
      unfold g_bitmap_off; assert (0 <= x mod 2048 / 8) by (clear - Hxr; zlia); lia).
    apply Z.mod_small. lia.
  - rewrite (cnt_ext _ (used g m)).
    + rewrite <- (mi_cnt _ M) by done. apply fget_ext. cbn. intros i Hi.
      apply slot_upd_other; [done|lia|unfold gaddr in *; lia..].
    + intros k Hk. rewrite slot_upd_used by lia. rewrite (proj2 (Z.eqb_neq k x)); [done|lia].
Qed.

(** Flipping one slot of the volume keeps the counts exact. *)
Lemma meta_inv_slot m x v :
  meta_inv m -> 0 <= x < ge_tb g - ge_ds g -> used g m x = negb v -> meta_inv (slot_upd m x v).
Proof using Hg.
  intros M Hx Hu. assert (Hx' : 0 <= x < ge_ng g * 2048) by (destruct Hg; lia).
  pose proof (slot_group x Hx') as Gx. pose proof (gaddr_low _ Gx) as Lx.
  assert (Hsb : forall i, 0 <= i < 4096 -> i < 32 \/ 40 <= i -> slot_upd m x v i = m i)
    by (intros; apply slot_upd_other; (done || lia)).
  constructor.
  - apply slot_upd_bytes, (mi_bytes _ M).
  - rewrite <- (mi_fl _ M). apply fget_ext. cbn. intros. apply Hsb; lia.
  - rewrite <- (mi_ds _ M). apply fget_ext. cbn. intros. apply Hsb; lia.
  - rewrite <- (mi_tb _ M). apply fget_ext. cbn. intros. apply Hsb; lia.
  - intros gi Hgi. rewrite <- (mi_base _ M) by done. pose proof (gaddr_low gi Hgi). apply fget_ext. cbn. intros i Hi.
    apply slot_upd_other; [done|lia|unfold gaddr in *; lia..].
  - intros gi Hgi. by apply slot_upd_count.
  - destruct (slot_cnt m x v 0 (Z.to_nat (ge_tb g - ge_ds g))) as [-> Hr]; [lia|destruct Hg; lia|lia|done|].
    unfold slot_upd. rewrite (mi_free _ M). rewrite meta_upd_free by (done || (apply Z.mod_pos_bound; lia)).
    apply u64_small. destruct Hg; lia.
Qed.

(** ** The operations *)

(** A store through the caller's pointer that stays in the data area. *)
Definition out_ok (out : Z -> fs -> fs) : Prop :=
  forall blk s, exists b, out blk s = with_buf s b /\
    (forall i, i < ge_ds g * 4096 -> b i = f_buf s i) /\ (bytes_ok (f_buf s) -> bytes_ok b).

Lemma with_buf_id s : with_buf s (f_buf s) = s.
Proof. by destruct s. Qed.

Lemma out_ok_local : out_ok to_local.
Proof. intros blk s. exists (f_buf s). by rewrite with_buf_id. Qed.

Lemma out_ok_wr n a : ge_ds g * 4096 <= a -> out_ok (fun blk s => with_buf s (wr n (f_buf s) a blk)).
Proof.
  intros Ha blk s. eexists. split; [reflexivity|]. split; [intros i Hi; apply wr_out; lia|by apply bytes_ok_wr].
Qed.

(** The state after slot [x] was handed out. *)
Definition taken (out : Z -> fs -> fs) (s : fs) (x : Z) : fs :=
  let s1 := with_alloc (with_buf s (slot_upd (f_buf s) x true)) (f_ngroups s) (u64 (f_alloc_ops s + 1))
              (f_free_ops s) (x / 2048) in
  let s2 := out (ge_ds g + x) s1 in
  flatfs_mon_alloc (with_buf s2 (memset (f_buf s2) ((ge_ds g + x) * 4096) 0 4096)).

(** The state after slot [x] was given back. *)
Definition released (s : fs) (x : Z) : fs :=
  with_alloc (with_buf s (slot_upd (f_buf s) x false)) (f_ngroups s) (f_alloc_ops s) (u64 (f_free_ops s + 1))
    (if x / 2048 <? f_group_hint s then x / 2048 else f_group_hint s).

Lemma group_ptr_eq s gi : inv s -> 0 <= gi < ge_ng g -> group_ptr s gi = gaddr g gi.
Proof using Hg.
  intros I Hgi. unfold group_ptr, sbget. rewrite (mi_fl _ (ai_meta _ I)). unfold gaddr.
  rewrite u64_small by (destruct Hg; lia). apply blk_ptr_eq. destruct Hg; lia.
Qed.

(** The bookkeeping of both operations is [slot_upd]. *)
Lemma group_flush_slot s gi bit (v : bool) m' :
  inv s -> 0 <= gi < ge_ng g -> 0 <= bit < 2048 ->
  (forall i, 0 <= i < 4096 -> m' i = f_buf s i) ->
  let ga := gaddr g gi in
  let d := if v then -1 else 1 in
  let b := bput v m' (ga + g_bitmap_off) bit in
  let s1 := with_buf s (fset b ga g_free_count (u32 (fget b ga g_free_count + d))) in
  group_flush (sbset s1 sb_free_blocks (u64 (sbget s1 sb_free_blocks + d))) gi
  = with_buf s (slot_upd m' (gi * 2048 + bit) v).
Proof using Hg.
  intros I Hgi Hbit Hm ga d b s1. pose proof (gaddr_low gi Hgi) as L. fold ga in L.
  assert (Hx : (gi * 2048 + bit) / 2048 = gi) by zlia. assert (Hxm : (gi * 2048 + bit) mod 2048 = bit) by zlia.
  assert (Hlow : forall i, 0 <= i < 4096 -> f_buf s1 i = f_buf s i).
  { intros i Hi. unfold s1. cbn [f_buf with_buf]. unfold fset, g_free_count. cbn [f_off f_width].
    rewrite wr_out by lia. unfold b. rewrite bput_other; [by apply Hm| |lia].
    unfold g_bitmap_off. assert (0 <= bit / 8) by zlia. lia. }
  assert (Hfree : sbget s1 sb_free_blocks = fget m' 0 sb_free_blocks).
  { unfold sbget. apply fget_ext. cbn [f_off f_width sb_free_blocks]. intros i Hi. rewrite Hlow, Hm by lia. done. }
  unfold group_flush. assert (Hgp : forall v, group_ptr (sbset s1 sb_free_blocks v) gi = ga).
  { intros v0. unfold ga. rewrite <- (group_ptr_eq s gi I Hgi). unfold group_ptr. do 3 f_equal. unfold sbget, sbset.
    apply fget_ext. cbn [f_off f_width sb_freelist_start f_buf with_buf]. intros i Hi.
    unfold fset, sb_free_blocks. cbn [f_off f_width]. rewrite wr_out by lia. apply Hlow. lia. }
  rewrite Hgp, Hfree. unfold slot_upd, meta_upd. rewrite Hx, Hxm. reflexivity.
Qed.

Lemma alloc_take_eq out s idx local :
  inv s -> out_ok out -> 0 <= idx < ge_ng g -> 0 <= local < 2048 ->
  alloc_take out s idx local = (ge_ds g + (idx * 2048 + local), taken out s (idx * 2048 + local)).
Proof using Hg.
  intros I Ho Hi Hl. unfold alloc_take. rewrite (group_ptr_eq s idx I Hi). cbv zeta.
  pose proof (group_flush_slot s idx local true (f_buf s) I Hi Hl (fun _ _ => eq_refl)) as E.
  cbv zeta in E. cbn [bput] in E. unfold Z.sub. change (- (1)) with (-1). rewrite E.
  cbn [f_buf with_buf with_alloc f_ngroups f_alloc_ops f_free_ops].
  set (x := idx * 2048 + local). pose proof (gaddr_low idx Hi) as L.
  assert (Hx : 0 <= x < ge_ng g * 2048) by (unfold x; lia).
  assert (Hxd : x / 2048 = idx) by (unfold x; zlia).
  assert (Hbase : fget (slot_upd (f_buf s) x true) (gaddr g idx) g_base_blk = ge_ds g + idx * 2048).
  { rewrite <- (mi_base _ (ai_meta _ I)) by done. apply fget_ext. cbn. intros i Hi'.
    apply slot_upd_other; rewrite ?Hxd; (done || lia). }
  rewrite Hbase. assert (Hblk : u64 (ge_ds g + idx * 2048 + local) = ge_ds g + x).
  { rewrite u64_small; [unfold x; lia|]. destruct Hg; unfold x in *; lia. }
  rewrite Hblk. unfold taken. rewrite Hxd. rewrite blk_ptr_eq by (destruct Hg; lia). reflexivity.
Qed.

Lemma taken_inv out s x :
  inv s -> out_ok out -> 0 <= x < ge_tb g - ge_ds g -> used g (f_buf s) x = false ->
  (forall k, 0 <= k < x -> used g (f_buf s) k = true) -> inv (taken out s x).
Proof using Hg.
  intros I Ho Hx Hu Hlow. unfold taken.
  set (s1 := with_alloc _ _ _ _ _). destruct (Ho (ge_ds g + x) s1) as (b & -> & Hb & Hbb).
  assert (Hx' : 0 <= x < ge_ng g * 2048) by (destruct Hg; lia).
  assert (M1 : meta_inv (f_buf s1)) by (apply meta_inv_slot; [apply I|done|done]).
  assert (Hext : forall i, 0 <= i < ge_ds g * 4096 -> memset b ((ge_ds g + x) * 4096) 0 4096 i = f_buf s1 i).
  { intros i Hi. rewrite memset_out by lia. apply Hb. lia. }
  constructor; cbn [f_buf with_buf flatfs_mon_alloc f_ngroups f_group_hint s1 with_alloc].
  - apply meta_inv_ext with (f_buf s1); [done| |done]. apply bytes_ok_memset; [lia|]. apply Hbb, (mi_bytes _ M1).
  - apply I.
  - apply slot_group. done.
  - intros k Hk. rewrite (used_ext (f_buf s1)); [|pose proof (slot_group x Hx'); lia|done].
    unfold s1. cbn [f_buf with_buf with_alloc]. pose proof (slot_split x).
    rewrite slot_upd_used; [|done|pose proof (slot_group x Hx'); lia].
    destruct (Z.eqb_spec k x); [done|]. apply Hlow. lia.
Qed.

Lemma alloc_scan_eq out n : forall gi s x,
  inv s -> out_ok out -> 0 <= gi -> ge_ng g <= gi + Z.of_nat n ->
  0 <= x < ge_tb g - ge_ds g -> used g (f_buf s) x = false ->
  (forall k, 0 <= k < x -> used g (f_buf s) k = true) ->
  (f_group_hint s + gi) * 2048 <= x ->
  alloc_scan n gi out s = (inr (ge_ds g + x), taken out s x).
Proof using Hg.
  induction n as [|n IH]; intros gi s x I Ho Hgi Hn Hx Hu Hlow Hh.
  { pose proof (ai_hint _ I). destruct Hg; lia. }
  assert (Hx' : 0 <= x < ge_ng g * 2048) by (destruct Hg; lia).
  pose proof (slot_group x Hx') as Gx. pose proof (slot_split x) as [Ex Hxr].
  pose proof (ai_hint _ I) as Hhr. set (idx := f_group_hint s + gi).
  assert (Hidx : 0 <= idx < ge_ng g) by (unfold idx; lia).
  cbn [alloc_scan]. rewrite (ai_ng _ I). fold idx.
  assert (E : u32 idx mod u32 (ge_ng g) = idx).
  { unfold u32. rewrite !(Z.mod_small _ (2 ^ 32)) by (destruct Hg; lia). apply Z.mod_small. lia. }
  rewrite E, (group_ptr_eq s idx I Hidx), (mi_cnt _ (ai_meta _ I)) by done.
  pose proof (cnt_range (used g (f_buf s)) 2048 (idx * 2048)) as Hc.
  assert (Hbits : forall j, 0 <= j < 2048 ->
    bitmap_test (f_buf s) (gaddr g idx + g_bitmap_off) j = used g (f_buf s) (idx * 2048 + j)).
  { intros j Hj. unfold used. assert ((idx * 2048 + j) / 2048 = idx) as -> by (clear - Hj; zlia).
    by assert ((idx * 2048 + j) mod 2048 = j) as -> by (clear - Hj; zlia). }
  destruct (Z.eqb_spec (cnt (used g (f_buf s)) (idx * 2048) 2048) 0) as [Ez|Ez].
  - apply IH; try done; [lia|lia|]. fold idx in Hh.
    destruct (Z.lt_ge_cases x ((idx + 1) * 2048)) as [Hlt|]; [|unfold idx in *; lia].
    pose proof (cnt_zero _ _ _ Ez x ltac:(unfold idx in *; lia)) as Eu. by rewrite Hu in Eu.
  - unfold group_find_free. pose proof (find_free_spec 2048 (f_buf s) (gaddr g idx + g_bitmap_off) 0) as Hf.
    destruct (find_free_from 2048 _ _ 0) as [local|].
    + destruct Hf as (Hl & Hf & Hj). rewrite Hbits in Hf by lia.
      assert (x = idx * 2048 + local) as ->; [|by rewrite alloc_take_eq by (done || lia)].
      destruct (Z.lt_trichotomy x (idx * 2048 + local)) as [Hlt|[->|Hgt]]; [|done|].
      * specialize (Hj (x - idx * 2048) ltac:(unfold idx in *; lia)). rewrite Hbits in Hj by lia.
        replace (idx * 2048 + (x - idx * 2048)) with x in Hj by lia. by rewrite Hu in Hj.
      * rewrite Hlow in Hf; [done|lia].
    + destruct (cnt_pos (used g (f_buf s)) 2048 (idx * 2048)) as (k & Hk & Hku); [lia|].
      specialize (Hf (k - idx * 2048) ltac:(lia)). rewrite Hbits in Hf by lia.
      replace (idx * 2048 + (k - idx * 2048)) with k in Hf by lia. by rewrite Hku in Hf.
Qed.

(** The least clear slot of an interval that has one. *)
Lemma first_free u n : forall a, 0 < cnt u a n ->
  exists x, a <= x < a + Z.of_nat n /\ u x = false /\ forall k, a <= k < x -> u k = true.
Proof.
  induction n as [|n IH]; intros a; cbn [cnt]; [lia|]. destruct (u a) eqn:E.
  - intros H. destruct (IH (a + 1)) as (x & Hx & Hu & Hl); [lia|]. exists x. split_and!; [lia|lia|done|].
    intros k Hk. destruct (Z.eq_dec k a) as [->|]; [done|]. apply Hl. lia.
  - intros _. exists a. split_and!; [lia|lia|done|lia].
Qed.

(** [flatfs_alloc_block]: nothing when the volume is full, otherwise the
    lowest free block. *)
Lemma alloc_block_spec out s :
  inv s -> out_ok out ->
  (sbget s sb_free_blocks = 0 -> flatfs_alloc_block out s = (inl FLATFS_ERR_NOSPACE, s)) /\
  (sbget s sb_free_blocks <> 0 ->
   exists x, 0 <= x < ge_tb g - ge_ds g /\ used g (f_buf s) x = false /\
     (forall k, 0 <= k < x -> used g (f_buf s) k = true) /\
     flatfs_alloc_block out s = (inr (ge_ds g + x), taken out s x) /\ inv (taken out s x)).
Proof using Hg.
  intros I Ho. unfold flatfs_alloc_block. split; intros Hf.
  { by rewrite (proj2 (Z.eqb_eq _ _) Hf). }
  rewrite (proj2 (Z.eqb_neq _ _) Hf). unfold sbget in Hf. rewrite (mi_free _ (ai_meta _ I)) in Hf.
  pose proof (cnt_range (used g (f_buf s)) (Z.to_nat (ge_tb g - ge_ds g)) 0).
  destruct (first_free (used g (f_buf s)) (Z.to_nat (ge_tb g - ge_ds g)) 0) as (x & Hx & Hu & Hl); [lia|].
  exists x. split_and!; [lia|lia|done|done| |by apply taken_inv; (done || lia)].
  rewrite (ai_ng _ I). apply alloc_scan_eq; try done; [destruct Hg; lia|lia|].
  rewrite Z.add_0_r. destruct (Z.lt_ge_cases x (f_group_hint s * 2048)) as [Hlt|]; [|done].
  rewrite (ai_low _ I) in Hu; [done|lia].
Qed.

Lemma released_inv s x :
  inv s -> 0 <= x < ge_tb g - ge_ds g -> used g (f_buf s) x = true -> inv (released s x).
Proof using Hg.
  intros I Hx Hu. assert (Hx' : 0 <= x < ge_ng g * 2048) by (destruct Hg; lia).
  pose proof (slot_group x Hx') as Gx. pose proof (ai_hint _ I) as Hh. pose proof (slot_split x) as [Ex Hxr].
  unfold released. constructor; cbn [f_buf with_buf with_alloc f_ngroups f_group_hint].
  - by apply meta_inv_slot; [apply I|..].
  - apply I.
  - destruct (x / 2048 <? f_group_hint s); lia.
  - intros k Hk.
    assert (Hk' : k < x /\ k < f_group_hint s * 2048) by (revert Hk; destruct (Z.ltb_spec (x / 2048) (f_group_hint s)); lia).
    rewrite slot_upd_used by (done || lia). destruct (Z.eqb_spec k x); [lia|]. apply (ai_low _ I). lia.
Qed.

(** [flatfs_free_block] on every branch. *)
Lemma free_block_spec s blk :
  inv s -> 0 <= blk ->
  (blk < ge_ds g \/ ge_tb g <= blk -> flatfs_free_block s blk = (FLATFS_ERR_BOUNDS, s)) /\
  (ge_ds g <= blk < ge_tb g ->
   if used g (f_buf s) (blk - ge_ds g)
   then flatfs_free_block s blk = (FLATFS_OK, released s (blk - ge_ds g)) /\ inv (released s (blk - ge_ds g))
   else flatfs_free_block s blk = (FLATFS_ERR_INVAL, s)).
Proof using Hg.
  intros I H0. assert (Eds : sbget s sb_data_start = ge_ds g) by apply (mi_ds _ (ai_meta _ I)).
  assert (Etb : sbget s sb_total_blocks = ge_tb g) by apply (mi_tb _ (ai_meta _ I)).
  unfold flatfs_free_block. rewrite Eds, Etb.
  split; intros Hb.
  { destruct (Z.ltb_spec blk (ge_ds g)), (Z.leb_spec (ge_tb g) blk); cbn [orb]; (done || lia). }
  rewrite (proj2 (Z.ltb_ge _ _)), (proj2 (Z.leb_gt _ _)) by lia. cbn [orb].
  set (x := blk - ge_ds g). assert (Hx : 0 <= x < ge_tb g - ge_ds g) by (unfold x; lia).
  assert (Hx' : 0 <= x < ge_ng g * 2048) by (destruct Hg; lia).
  unfold FLATFS_GROUP_BLOCKS. pose proof (slot_group x Hx') as Gx. pose proof (slot_split x) as [Ex Hxr].
  assert (u32 (x / 2048) = x / 2048) as -> by (apply Z.mod_small; destruct Hg; lia).
  rewrite (ai_ng _ I), (proj2 (Z.leb_gt _ _)) by lia. rewrite (group_ptr_eq s _ I Gx).
  fold (used g (f_buf s) x). destruct (used g (f_buf s) x) eqn:Hu; [|done]. cbn [negb].
  split; [|by apply released_inv].
  pose proof (group_flush_slot s (x / 2048) (x mod 2048) false (f_buf s) I Gx Hxr (fun _ _ => eq_refl)) as E.
  cbv zeta in E. cbn [bput] in E. rewrite E, <- Ex.
  reflexivity.
Qed.

End Alloc.
