(* ===== verification/FlatSuper.v ===== *)
(** * Formatting a FlatFS volume

    What [flatfs_super_init] writes, region by region; that the result is
    accepted by [flatfs_super_read] and can be restored from its backup;
    and that [flatfs_alloc_init] on a formatted volume establishes the
    allocator invariant of FlatAlloc.v. *)

From stdpp Require Import base list.
From Stdlib Require Import ZArith Lia.
From S2P Require Import Prelude TyCrypto TyCryptoProof FlatCrc FlatFs FlatAlloc.

#[local] Opaque flatfs_crc32 ty_siphash24.

(** Read a field through a chain of field stores. *)
Ltac fields := unfold fget, fset; cbn [f_off f_width];
  repeat first [rewrite rd_wr_small by (cbn; lia) | rewrite rd_wr_other by (cbn; lia)].

(** ** Layout *)

Definition inode_blocks (n : Z) : Z := (n + 15) / 16.

(** First block after the inode table and the B-tree root. *)
Definition lay_fl (n : Z) : Z := 1029 + inode_blocks n.

Definition lay_ng (cap n : Z) : Z := (cap / 4096 - lay_fl n - 1 + 2047) / 2048.

Definition lay_geom (cap n : Z) : geom :=
  GE (lay_fl n) (lay_ng cap n) (lay_fl n + lay_ng cap n) (cap / 4096).

(** The volume holds the fixed areas and at least one data block. *)
Definition fits (cap n : Z) : Prop :=
  1 <= n <= 65536 /\ lay_fl n + 2 <= cap / 4096 <= 2 ^ 41.

Lemma lay_bounds cap n : fits cap n -> 1030 <= lay_fl n <= 5125 /\ 1 <= lay_ng cap n <= 2 ^ 30 /\
  lay_ng cap n <= cap / 4096 - lay_fl n - 1 <= lay_ng cap n * 2048.
Proof. unfold fits, lay_ng, lay_fl, inode_blocks. intros [Hn Hc]. set (t := cap / 4096) in *. clearbody t. zlia. Qed.

Lemma lay_geom_ok cap n : fits cap n -> geom_ok (lay_geom cap n).
Proof.
  intros Hf. pose proof (lay_bounds cap n Hf) as (H1 & H2 & H3). destruct Hf as [Hn Hc].
  constructor; cbn [ge_fl ge_ng ge_ds ge_tb lay_geom]; lia.
Qed.

(** The superblock fields that describe the volume. *)
Record sb_fields (m : bmem) (cap n : Z) : Prop := {
  sf_magic : fget m 0 sb_magic = FLATFS_MAGIC;
  sf_version : fget m 0 sb_version = FLATFS_VERSION;
  sf_bs : fget m 0 sb_block_size = FLATFS_BLOCK_SIZE;
  sf_is : fget m 0 sb_inode_size = FLATFS_INODE_SIZE;
  sf_tb : fget m 0 sb_total_blocks = cap / 4096;
  sf_js : fget m 0 sb_journal_start = 4;
  sf_jb : fget m 0 sb_journal_blocks = 1024;
  sf_its : fget m 0 sb_inode_table_start = 1028;
  sf_itb : fget m 0 sb_inode_table_blocks = inode_blocks n;
  sf_ti : fget m 0 sb_total_inodes = n;
  sf_fi : fget m 0 sb_free_inodes = n - 1;
  sf_bt : fget m 0 sb_btree_root_blk = 1028 + inode_blocks n;
  sf_fl : fget m 0 sb_freelist_start = lay_fl n;
  sf_fb : fget m 0 sb_freelist_blocks = lay_ng cap n;
  sf_ds : fget m 0 sb_data_start = lay_fl n + lay_ng cap n;
  sf_free : fget m 0 sb_free_blocks = cap / 4096 - (lay_fl n + lay_ng cap n) }.

(** The stores of [super_layout] with their values computed. *)
Definition layout_stores (b : bmem) (cap n : Z) : bmem :=
  let b := fset b 0 sb_total_blocks (cap / 4096) in
  let b := fset b 0 sb_journal_start 4 in
  let b := fset b 0 sb_journal_blocks 1024 in
  let b := fset b 0 sb_inode_table_start 1028 in
  let b := fset b 0 sb_inode_table_blocks (inode_blocks n) in
  let b := fset b 0 sb_total_inodes n in
  let b := fset b 0 sb_free_inodes (n - 1) in
  let b := fset b 0 sb_btree_root_blk (1028 + inode_blocks n) in
  let b := fset b 0 sb_freelist_start (lay_fl n) in
  let b := fset b 0 sb_freelist_blocks (lay_ng cap n) in
  let b := fset b 0 sb_data_start (lay_fl n + lay_ng cap n) in
  fset b 0 sb_free_blocks (cap / 4096 - (lay_fl n + lay_ng cap n)).

Lemma super_layout_eq b cap n : 0 <= cap -> fits cap n -> super_layout b cap n = layout_stores b cap n.
Proof.
  intros H0 Hf. pose proof (lay_bounds cap n Hf) as (H1 & H2 & H3). destruct Hf as [Hn Hc].
  unfold super_layout. cbv zeta.
  assert (Et : Z.shiftr cap FLATFS_BLOCK_SHIFT = cap / 4096) by (by rewrite Z.shiftr_div_pow2).
  rewrite Et. change (2 + 2) with 4. unfold FLATFS_JOURNAL_BLOCKS.
  match goal with |- context [u64 (fget ?x 0 sb_journal_start + fget ?x 0 sb_journal_blocks)] =>
    assert (Ej : u64 (fget x 0 sb_journal_start + fget x 0 sb_journal_blocks) = 1028) end.
  { unfold sb_total_blocks, sb_journal_start, sb_journal_blocks. fields. reflexivity. }
  rewrite Ej. change FLATFS_INODES_PER_BLK with 16. unfold FLATFS_GROUP_BLOCKS.
  assert (Ei : u64 (n + 16 - 1) / 16 = inode_blocks n).
  { rewrite u64_small by lia. unfold inode_blocks. f_equal. lia. }
  rewrite Ei. rewrite (u64_small (n - 1)) by lia.
  assert (Hi : lay_fl n = 1028 + inode_blocks n + 1) by (unfold lay_fl; lia).
  rewrite (u64_small (1028 + inode_blocks n)) by lia. rewrite <- Hi, (u64_small (lay_fl n)) by lia.
  assert (Eg : u64 (u64 (cap / 4096 - lay_fl n - 1) + 2048 - 1) / 2048 = lay_ng cap n).
  { rewrite !u64_small by (rewrite ?u64_small; lia). unfold lay_ng. f_equal. lia. }
  rewrite Eg. rewrite (u64_small (lay_fl n + lay_ng cap n)) by lia.
  rewrite (u64_small (cap / 4096 - _)) by lia. reflexivity.
Qed.

Lemma layout_stores_other b cap n i : i < 24 \/ 128 <= i -> layout_stores b cap n i = b i.
Proof.
  intros Hi. unfold layout_stores, fset. cbv zeta. cbn [f_off f_width sb_total_blocks sb_journal_start
    sb_journal_blocks sb_inode_table_start sb_inode_table_blocks sb_total_inodes sb_free_inodes sb_btree_root_blk
    sb_freelist_start sb_freelist_blocks sb_data_start sb_free_blocks].
  by rewrite !wr_out by (cbn; lia).
Qed.

(** Everything [flatfs_super_init] stores in block 0 before the checksum. *)
Definition super_body (b0 : bmem) (cap n : Z) (label : option (list Z)) : bmem :=
  let b := memset b0 0 0 (FLATFS_BLOCK_SIZE * 2) in
  let b := fset b 0 sb_magic FLATFS_MAGIC in
  let b := fset b 0 sb_version FLATFS_VERSION in
  let b := fset b 0 sb_block_size FLATFS_BLOCK_SIZE in
  let b := fset b 0 sb_inode_size FLATFS_INODE_SIZE in
  let b := fset b 0 sb_capacity_bytes cap in
  let b := layout_stores b cap n in
  let b := fset b 0 sb_root_ino 1 in
  let b := fset b 0 sb_features FLATFS_FEAT_ALL in
  let b := fset b 0 sb_state FLATFS_STATE_CLEAN in
  let b := fset b 0 sb_max_mounts 30 in
  match label with
  | None => b
  | Some l => let n := fstrlen l 63 in
              wr 1 (memput b sb_label_off (take n l)) (sb_label_off + Z.of_nat n) 0
  end.

Lemma fstrlen_le l max : (fstrlen l max <= max)%nat.
Proof. revert l. induction max as [|m IH]; intros [|c l]; cbn; [lia..|]. destruct (c =? 0); [lia|]. specialize (IH l). lia. Qed.

(** A field read below the label is not disturbed by it. *)
Lemma label_other b label i :
  i < 196 \/ 260 <= i ->
  match label with
  | None => b
  | Some l => let n := fstrlen l 63 in
              wr 1 (memput b sb_label_off (take n l)) (sb_label_off + Z.of_nat n) 0
  end i = b i.
Proof.
  intros Hi. destruct label as [l|]; [|done]. cbv zeta. pose proof (fstrlen_le l 63) as Hl. unfold sb_label_off.
  rewrite wr_out by (cbn; lia). rewrite memput_out; [done|]. rewrite length_take. lia.
Qed.

Lemma sb_fields_ext m m' cap n : (forall i, 0 <= i < 196 -> m' i = m i) -> sb_fields m cap n -> sb_fields m' cap n.
Proof.
  intros H [? ? ? ? ? ? ? ? ? ? ? ? ? ? ? ?].
  constructor; (etransitivity; [|eassumption]); apply fget_ext; cbn; intros i Hi; apply H; lia.
Qed.

Lemma super_body_fields b0 cap n label : fits cap n -> 0 <= cap -> sb_fields (super_body b0 cap n label) cap n.
Proof.
  intros Hf H0. pose proof (lay_bounds cap n Hf) as (H1 & H2 & H3). destruct Hf as [Hn Hc].
  assert (Hib : 0 <= inode_blocks n <= 4096) by (unfold inode_blocks; zlia).
  unfold super_body. cbv zeta.
  eapply sb_fields_ext; [intros i Hi; apply label_other; lia|].
  constructor; unfold layout_stores; cbv zeta; unfold sb_magic, sb_version, sb_block_size, sb_inode_size,
    sb_capacity_bytes, sb_root_ino, sb_features, sb_state, sb_max_mounts, sb_total_blocks, sb_journal_start,
    sb_journal_blocks, sb_inode_table_start, sb_inode_table_blocks, sb_total_inodes, sb_free_inodes,
    sb_btree_root_blk, sb_freelist_start, sb_freelist_blocks, sb_data_start, sb_free_blocks,
    FLATFS_MAGIC, FLATFS_VERSION, FLATFS_BLOCK_SIZE, FLATFS_INODE_SIZE; fields; reflexivity.
Qed.

Lemma super_body_bytes b0 cap n label :
  bytes_ok b0 -> (forall l, label = Some l -> Forall is_byte l) -> bytes_ok (super_body b0 cap n label).
Proof.
  intros Hb Hl. unfold super_body, layout_stores, fset. cbv zeta.
  match goal with |- bytes_ok (match label with None => ?x | Some _ => _ end) => set (b := x) end.
  assert (B : bytes_ok b) by (unfold b; repeat apply bytes_ok_wr; by apply bytes_ok_memset; [lia|]).
  destruct label as [l|]; [|done]. apply bytes_ok_wr. intros i. unfold memput. destruct (_ && _); [|apply B].
  destruct (nth_in_or_default (Z.to_nat (i - sb_label_off)) (take (fstrlen l 63) l) 0) as [Hin| ->]; [|lia].
  specialize (Hl l eq_refl). rewrite Forall_forall in Hl. apply Hl.
  apply list_elem_of_In in Hin. apply elem_of_take in Hin as (j & Hj & _). by eapply list_elem_of_lookup_2.
Qed.

Lemma super_init_eq s cap n label : 0 <= cap -> fits cap n ->
  flatfs_super_init s cap label n
  = (FLATFS_OK, let u := flatfs_super_update_crc (super_body (f_buf s) cap n label) 0 in
                with_buf s (memcpy u FLATFS_BLOCK_SIZE u 0 4096)).
Proof.
  intros H0 Hf. unfold flatfs_super_init.
  rewrite (proj2 (Z.ltb_ge _ _)).
  - cbv zeta. rewrite (super_layout_eq _ cap n H0 Hf). reflexivity.
  - pose proof (lay_bounds cap n Hf). destruct Hf. unfold FLATFS_BLOCK_SIZE. zlia.
Qed.

(** ** Checksums of the superblock *)

Lemma update_crc_other m a i : i < a + 4092 \/ a + 4096 <= i -> flatfs_super_update_crc m a i = m i.
Proof.
  intros Hi. unfold flatfs_super_update_crc, fset, sb_crc32. cbn [f_off f_width].
  by rewrite !wr_out by (cbn; lia).
Qed.

Lemma update_crc_bytes m a : bytes_ok m -> bytes_ok (flatfs_super_update_crc m a).
Proof. intros. unfold flatfs_super_update_crc, fset. auto with kobalt. Qed.

(** The header fields that [flatfs_super_validate] looks at. *)
Definition header_ok (m : bmem) (a : Z) : Prop :=
  fget m a sb_magic = FLATFS_MAGIC /\ fget m a sb_version = FLATFS_VERSION /\
  fget m a sb_block_size = FLATFS_BLOCK_SIZE /\ fget m a sb_inode_size = FLATFS_INODE_SIZE /\
  fget m a sb_total_blocks <= FLATFS_MAX_BLOCKS.

Lemma validate_iff m a :
  flatfs_super_validate m a = FLATFS_OK <->
  header_ok m a /\ flatfs_crc32 (fset m a sb_crc32 0) a 4096 = fget m a sb_crc32.
Proof.
  unfold flatfs_super_validate, header_ok. set (c := flatfs_crc32 _ _ _). clearbody c.
  destruct (Z.eqb_spec (fget m a sb_magic) FLATFS_MAGIC) as [E1|E1]; cbn [negb];
    [|split; [discriminate|intros [(? & _) _]; contradiction]].
  destruct (Z.eqb_spec (fget m a sb_version) FLATFS_VERSION) as [E2|E2]; cbn [negb];
    [|split; [discriminate|intros [(_ & ? & _) _]; contradiction]].
  destruct (Z.eqb_spec (fget m a sb_block_size) FLATFS_BLOCK_SIZE) as [E3|E3]; cbn [negb];
    [|split; [discriminate|intros [(_ & _ & ? & _) _]; contradiction]].
  destruct (Z.eqb_spec (fget m a sb_inode_size) FLATFS_INODE_SIZE) as [E4|E4]; cbn [negb];
    [|split; [discriminate|intros [(_ & _ & _ & ? & _) _]; contradiction]].
  destruct (Z.ltb_spec FLATFS_MAX_BLOCKS (fget m a sb_total_blocks)) as [E5|E5];
    [split; [discriminate|intros [(_ & _ & _ & _ & ?) _]; lia]|].
  destruct (Z.eqb_spec c (fget m a sb_crc32)) as [E6|E6];
    [split; intros _; [split; [repeat split; assumption|exact E6]|reflexivity]|split; [discriminate|intros [_ ?]; contradiction]].
Qed.

(** The verdict depends on the 4096 bytes only. *)
Lemma fget_shift m m' a a' f : 0 <= f_off f -> f_off f + Z.of_nat (f_width f) <= 4096 ->
  (forall i, 0 <= i < 4096 -> m' (a' + i) = m (a + i)) -> fget m' a' f = fget m a f.
Proof. intros H0 H1 H. unfold fget. apply rd_ext. intros i Hi. rewrite <- !Z.add_assoc. apply H. lia. Qed.

Lemma fset_crc_shift m m' a a' v i :
  (forall i, 0 <= i < 4096 -> m' (a' + i) = m (a + i)) -> 0 <= i < 4096 ->
  fset m' a' sb_crc32 v (a' + i) = fset m a sb_crc32 v (a + i).
Proof.
  intros H Hi. unfold fset, sb_crc32. cbn [f_off f_width].
  destruct (Z.lt_ge_cases i 4092); [rewrite !wr_out by (cbn; lia); by apply H|].
  rewrite !wr_in by (cbn; lia). do 3 f_equal. lia.
Qed.

Lemma validate_shift m m' a a' :
  (forall i, 0 <= i < 4096 -> m' (a' + i) = m (a + i)) ->
  flatfs_super_validate m a = FLATFS_OK -> flatfs_super_validate m' a' = FLATFS_OK.
Proof.
  intros H. rewrite !validate_iff. unfold header_ok.
  rewrite !(fget_shift m m' a a') by (done || (cbn; lia)). intros [Hh Hc]. split; [done|].
  rewrite <- Hc. apply crc32_ext. intros i Hi. by apply fset_crc_shift.
Qed.

Lemma header_ok_ext m m' a a' : (forall i, 0 <= i < 196 -> m' (a' + i) = m (a + i)) -> header_ok m a -> header_ok m' a'.
Proof.
  intros H. unfold header_ok.
  assert (E : forall f, 0 <= f_off f -> f_off f + Z.of_nat (f_width f) <= 196 -> fget m' a' f = fget m a f).
  { intros f H0 H1. unfold fget. apply rd_ext. intros i Hi. rewrite <- !Z.add_assoc. apply H. lia. }
  rewrite !E by (cbn; lia). done.
Qed.

(** Writing the checksum makes a good header valid. *)
Lemma validate_update_crc m a :
  bytes_ok m -> header_ok m a -> flatfs_super_validate (flatfs_super_update_crc m a) a = FLATFS_OK.
Proof.
  intros Hb Hh. apply validate_iff. split.
  { eapply header_ok_ext; [|done]. intros i Hi. apply update_crc_other. lia. }
  unfold flatfs_super_update_crc. set (z := fset m a sb_crc32 0).
  assert (Hz : bytes_ok z) by (apply bytes_ok_wr; done).
  assert (E : fget (fset z a sb_crc32 (flatfs_crc32 z a 4096)) a sb_crc32 = flatfs_crc32 z a 4096).
  { unfold fget, fset. apply rd_wr_small. cbn [f_width sb_crc32]. by apply flatfs_crc32_range. }
  rewrite E. apply crc32_ext. intros i Hi.
  unfold z, fset, sb_crc32. cbn [f_off f_width].
  destruct (Z.lt_ge_cases i 4092); [by rewrite !wr_out by (cbn; lia)|].
  by rewrite !wr_in by (cbn; lia).
Qed.

(** ** Any damaged byte is noticed *)

Lemma rd_one_byte n m m' : bytes_ok m -> bytes_ok m' -> forall a k,
  0 <= k < Z.of_nat n -> m' (a + k) <> m (a + k) -> rd n m' a <> rd n m a.
Proof.
  intros Hm Hm'. induction n as [|n IH]; intros a k Hk Hne; [lia|]. cbn [rd].
  pose proof (Hm a). pose proof (Hm' a).
  destruct (Z.eq_dec k 0) as [->|]; [rewrite Z.add_0_r in Hne; lia|].
  specialize (IH (a + 1) (k - 1) ltac:(lia)). replace (a + 1 + (k - 1)) with (a + k) in IH by lia.
  specialize (IH Hne). lia.
Qed.

(** A valid superblock with one byte changed is not valid. *)
Lemma validate_one_byte m k v :
  bytes_ok m -> flatfs_super_validate m 0 = FLATFS_OK -> 0 <= k < 4096 -> is_byte v -> v <> m k ->
  flatfs_super_validate (upd m k v) 0 <> FLATFS_OK.
Proof.
  intros Hm Hv Hk Hb Hne [_ Hc]%validate_iff. apply validate_iff in Hv as [_ Hc0].
  set (m' := upd m k v) in *. assert (Hm' : bytes_ok m') by (by apply bytes_ok_upd).
  assert (Ho : forall i, i <> k -> m' i = m i) by (intros; by apply upd_ne).
  destruct (Z.lt_ge_cases k 4092) as [Hlt|Hge].
  - apply (crc32_one_byte (fset m 0 sb_crc32 0) (fset m' 0 sb_crc32 0) 0 4096 k).
    + by apply bytes_ok_wr.
    + by apply bytes_ok_wr.
    + cbn. lia.
    + unfold fset, sb_crc32. cbn [f_off f_width]. rewrite !wr_out by (cbn; lia). unfold m'. by rewrite upd_eq.
    + intros i Hi Hik. unfold fset, sb_crc32. cbn [f_off f_width].
      destruct (Z.lt_ge_cases i 4092); [rewrite !wr_out by (cbn; lia); apply Ho; lia|].
      by rewrite !wr_in by (cbn in *; lia).
    + rewrite Hc, Hc0. apply fget_ext. cbn. intros i Hi. apply Ho. lia.
  - assert (E : flatfs_crc32 (fset m' 0 sb_crc32 0) 0 4096 = flatfs_crc32 (fset m 0 sb_crc32 0) 0 4096).
    { apply crc32_ext. intros i Hi. unfold fset, sb_crc32. cbn [f_off f_width].
      destruct (Z.lt_ge_cases i 4092); [rewrite !wr_out by (cbn; lia); apply Ho; lia|].
      by rewrite !wr_in by (cbn in *; lia). }
    rewrite E, Hc0 in Hc. symmetry in Hc. revert Hc. unfold fget.
    apply (rd_one_byte 4 m m' Hm Hm' _ (k - 4092)); [cbn; lia|]. cbn [f_off sb_crc32].
    replace (0 + 4092 + (k - 4092)) with k by lia. unfold m'. by rewrite upd_eq.
Qed.

(** ** Writing and reading back, with the authentication trailer *)

(** The block at [a] has a valid checksum and, when TYKID is bound, carries
    the MAC of its first 4084 bytes. *)
Definition sealed (s : fs) (m : bmem) (a : Z) : Prop :=
  flatfs_super_validate m a = FLATFS_OK /\
  (f_bound s = true -> rd 8 m (a + 4084) = ty_siphash24 (f_key s) (bytes_of m a 4084)).

Lemma sealed_shift s s' m m' a a' :
  f_bound s' = f_bound s -> f_key s' = f_key s ->
  (forall i, 0 <= i < 4096 -> m' (a' + i) = m (a + i)) -> sealed s m a -> sealed s' m' a'.
Proof.
  intros Eb Ek H [Hv Hm]. split; [by eapply validate_shift|]. rewrite Eb, Ek. intros Hb. specialize (Hm Hb).
  rewrite (rd_ext 8 m' m (a' + 4084) (a + 4084)), Hm.
  - rewrite (bytes_of_ext m' m a' a 4084); [reflexivity|]. intros i Hi. apply H. lia.
  - intros i Hi. rewrite <- !Z.add_assoc. apply H. lia.
Qed.

Lemma mac_ok_sealed s m a : sealed s m a -> flatfs_tykid_mac_ok s m a 4096 = (true, s).
Proof.
  intros [_ Hm]. unfold flatfs_tykid_mac_ok. destruct (f_bound s); [|done]. cbn [negb orb].
  change (4096 <? 12) with false.
  replace (a + 4096 - 12) with (a + 4084) by lia. change (Z.to_nat (4096 - 12)) with 4084%nat.
  destruct (forallb _ _); [done|]. rewrite Hm by done. by rewrite Z.eqb_refl.
Qed.

Lemma mac_set_other s m i : i < 4084 \/ 4092 <= i -> flatfs_tykid_mac_set s m 0 4096 i = m i.
Proof. intros Hi. unfold flatfs_tykid_mac_set. destruct (_ || _); [done|]. apply wr_out. cbn. lia. Qed.

Lemma mac_set_bytes s m : bytes_ok m -> bytes_ok (flatfs_tykid_mac_set s m 0 4096).
Proof. intros. unfold flatfs_tykid_mac_set. destruct (_ || _); [done|]. by apply bytes_ok_wr. Qed.

(** The block 0 that [flatfs_super_write] leaves behind. *)
Definition written (s : fs) : bmem :=
  flatfs_super_update_crc (flatfs_tykid_mac_set s (flatfs_super_update_crc (f_buf s) 0) 0 4096) 0.

Lemma written_sealed s :
  bytes_ok (f_buf s) -> byte_list (f_key s) -> header_ok (f_buf s) 0 -> sealed s (written s) 0.
Proof.
  intros Hb Hk Hh. unfold written. set (b1 := flatfs_super_update_crc (f_buf s) 0).
  assert (B1 : bytes_ok b1) by (by apply update_crc_bytes).
  split.
  - apply validate_update_crc; [by apply mac_set_bytes|].
    eapply header_ok_ext; [|exact Hh]. intros i Hi.
    rewrite mac_set_other by lia. apply update_crc_other. lia.
  - intros Hbd. rewrite (rd_ext 8 _ (flatfs_tykid_mac_set s b1 0 4096) (0 + 4084) (0 + 4084))
      by (intros i Hi; apply update_crc_other; lia).
    rewrite (bytes_of_ext _ b1 0 0 4084)
      by (intros i Hi; rewrite update_crc_other by lia; apply mac_set_other; lia).
    unfold flatfs_tykid_mac_set. rewrite Hbd. cbn [negb orb]. change (4096 <? 12) with false. cbv iota.
    change (0 + 4096 - 12) with (0 + 4084). change (Z.to_nat (4096 - 12)) with 4084%nat.
    apply rd_wr_small. apply siphash_range; [done|]. by apply bytes_of_ok.
Qed.

Lemma written_bytes s : bytes_ok (f_buf s) -> bytes_ok (written s).
Proof. intros. by apply update_crc_bytes, mac_set_bytes, update_crc_bytes. Qed.

(** Reading a sealed block 0 changes nothing. *)
Lemma super_read_sealed s cap : 16384 <= cap -> sealed s (f_buf s) 0 -> flatfs_super_read s cap = (FLATFS_OK, s).
Proof.
  intros Hc Hs. unfold flatfs_super_read. rewrite (proj2 (Z.ltb_ge _ _)) by (unfold FLATFS_BLOCK_SIZE; lia).
  rewrite (proj1 Hs), (mac_ok_sealed _ _ _ Hs). reflexivity.
Qed.

(** With block 0 invalid and a sealed backup, block 0 becomes a copy of the
    backup. *)
Lemma super_read_backup s cap :
  16384 <= cap -> bytes_ok (f_buf s) -> flatfs_super_validate (f_buf s) 0 <> FLATFS_OK ->
  sealed s (f_buf s) 4096 ->
  exists s', flatfs_super_read s cap = (FLATFS_OK, s') /\
    (forall i, 0 <= i < 4092 -> f_buf s' i = f_buf s (4096 + i)) /\
    (forall i, i < 0 \/ 4096 <= i -> f_buf s' i = f_buf s i) /\
    bytes_ok (f_buf s') /\ flatfs_super_validate (f_buf s') 0 = FLATFS_OK.
Proof.
  intros Hc Hb Hv Hs. unfold flatfs_super_read.
  rewrite (proj2 (Z.ltb_ge _ _)) by (unfold FLATFS_BLOCK_SIZE; lia).
  set (s1 := flatfs_tykid_audit_super_corrupt s).
  assert (E1 : f_buf s1 = f_buf s /\ f_bound s1 = f_bound s /\ f_key s1 = f_key s).
  { unfold s1, flatfs_tykid_audit_super_corrupt. destruct (f_bound s) eqn:E; cbn; rewrite ?E; done. }
  destruct E1 as (Eb & Ebd & Ek).
  set (b := flatfs_super_update_crc (fset (memcpy (f_buf s) 0 (f_buf s) 4096 4096) 0 sb_crc32 0) 0).
  assert (Hout : forall i, i < 0 \/ 4096 <= i -> b i = f_buf s i).
  { intros i Hi. unfold b. rewrite update_crc_other by lia. unfold fset, sb_crc32. cbn [f_off f_width].
    rewrite wr_out by (cbn; lia). apply memcpy_out. lia. }
  assert (Hcp : forall i, 0 <= i < 4092 -> b i = f_buf s (4096 + i)).
  { intros i Hi. unfold b. rewrite update_crc_other by lia. unfold fset, sb_crc32. cbn [f_off f_width].
    rewrite wr_out by (cbn; lia). rewrite memcpy_in by lia. f_equal. lia. }
  assert (Hsb : sealed (with_buf s1 b) b 4096).
  { apply (sealed_shift s (with_buf s1 b) (f_buf s) b 4096 4096 Ebd Ek); [|done]. intros i Hi. apply Hout. lia. }
  assert (Bb : bytes_ok b) by (by apply update_crc_bytes, bytes_ok_wr, bytes_ok_memcpy).
  exists (with_buf s1 b). refine (conj _ (conj Hcp (conj Hout (conj Bb _)))).
  - destruct (flatfs_super_validate (f_buf s) 0); [contradiction|..];
      rewrite Eb; change FLATFS_BLOCK_SIZE with 4096; rewrite (proj1 Hs); fold b;
      cbn [f_buf with_buf]; rewrite (mac_ok_sealed _ _ _ Hsb); reflexivity.
  - apply validate_update_crc.
    + by apply bytes_ok_wr, bytes_ok_memcpy.
    + apply header_ok_ext with (m := f_buf s) (a := 4096); [|apply validate_iff, Hs].
      intros i Hi. rewrite <- Hcp by lia. unfold b. rewrite update_crc_other by lia. reflexivity.
Qed.

(** Two valid superblocks with the same 4092 bytes of payload are equal. *)
Lemma valid_unique m m' a :
  bytes_ok m -> bytes_ok m' -> flatfs_super_validate m a = FLATFS_OK -> flatfs_super_validate m' 0 = FLATFS_OK ->
  (forall i, 0 <= i < 4092 -> m' i = m (a + i)) -> forall i, 0 <= i < 4096 -> m' i = m (a + i).
Proof.
  intros Hm Hm' [_ H1]%validate_iff [_ H2]%validate_iff Hp i Hi.
  destruct (Z.lt_ge_cases i 4092); [apply Hp; lia|].
  destruct (Z.eq_dec (m' i) (m (a + i))) as [|Hne]; [done|exfalso].
  assert (E : flatfs_crc32 (fset m' 0 sb_crc32 0) 0 4096 = flatfs_crc32 (fset m a sb_crc32 0) a 4096).
  { apply crc32_ext. intros j Hj. unfold fset, sb_crc32. cbn [f_off f_width].
    destruct (Z.lt_ge_cases j 4092); [rewrite !wr_out by (cbn; lia); apply Hp; lia|].
    rewrite !wr_in by (cbn in *; lia). by rewrite !Z.div_0_l by (apply Z.pow_nonzero; lia). }
  rewrite H1, H2 in E. revert E. unfold fget. cbn [f_off f_width sb_crc32].
  rewrite (rd_ext 4 m (fun j => m (a + j)) (a + 4092) 4092) by (intros; f_equal; lia).
  assert (Hs : bytes_ok (fun j => m (a + j))) by (intros j; apply Hm).
  apply (rd_one_byte 4 (fun j => m (a + j)) m' Hs Hm' (0 + 4092) (i - 4092)); [cbn; lia|].
  by replace (0 + 4092 + (i - 4092)) with i by lia.
Qed.

(** ** The allocator after formatting *)

(** No stale group header in the freelist area. *)
Definition no_stale_groups (m : bmem) (cap n : Z) : Prop :=
  forall gi, 0 <= gi < lay_ng cap n -> fget m ((lay_fl n + gi) * 4096) g_magic <> FLATFS_FREELIST_MAGIC.

Section Groups.
Context (cap n : Z) (Hf : fits cap n).
Abbreviation G := (lay_geom cap n).

Let Hg : geom_ok G := lay_geom_ok cap n Hf.

(** Group [gi] as [group_init] leaves it. *)
Record group_fresh (m : bmem) (gi : Z) : Prop := {
  gf_base : fget m (gaddr G gi) g_base_blk = ge_ds G + gi * 2048;
  gf_count : fget m (gaddr G gi) g_free_count = 2048;
  gf_bits : forall j, 0 <= j < 256 -> m (gaddr G gi + 108 + j) = 0 }.

(** The state while the groups up to [k] have been initialised. *)
Record init_upto (m0 : bmem) (k : Z) (s : fs) : Prop := {
  iu_bytes : bytes_ok (f_buf s);
  iu_groups : forall gi, 0 <= gi < k -> group_fresh (f_buf s) gi;
  iu_rest : forall i, i < lay_fl n * 4096 \/ (lay_fl n + k) * 4096 <= i -> f_buf s i = m0 i }.

Lemma group_fresh_ext m m' gi :
  (forall i, gaddr G gi <= i < gaddr G gi + 4096 -> m' i = m i) -> group_fresh m gi -> group_fresh m' gi.
Proof.
  intros H [H1 H2 H3]. constructor.
  - rewrite <- H1. apply fget_ext. cbn [f_off f_width g_base_blk]. intros i Hi. apply H. lia.
  - rewrite <- H2. apply fget_ext. cbn [f_off f_width g_free_count]. intros i Hi. apply H. lia.
  - intros j Hj. rewrite H by lia. by apply H3.
Qed.

(** The bytes of a fresh group, given the address and the first block. *)
Definition fresh_group (m : bmem) (ga k base : Z) : bmem :=
  let b := memset m ga 0 4096 in
  let b := fset b ga g_magic FLATFS_FREELIST_MAGIC in
  let b := fset b ga g_group_idx k in
  let b := fset b ga g_base_blk base in
  let b := fset b ga g_free_count FLATFS_GROUP_BLOCKS in
  let b := memset b (ga + g_bitmap_off) 0 256 in
  let b := fset b ga g_crc32 0 in
  fset b ga g_crc32 (flatfs_crc32 b ga 4096).

Lemma fresh_group_other m ga k base i : i < ga \/ ga + 4096 <= i -> fresh_group m ga k base i = m i.
Proof.
  intros Hi. unfold fresh_group, fset, g_crc32, g_bitmap_off, g_free_count, g_base_blk, g_group_idx, g_magic.
  cbv zeta. cbn [f_off f_width].
  rewrite !wr_out by (cbn; lia). rewrite memset_out by lia. rewrite !wr_out by (cbn; lia). apply memset_out. lia.
Qed.

Lemma fresh_group_ok m k :
  bytes_ok m -> 0 <= k < lay_ng cap n -> let m' := fresh_group m (gaddr G k) k (ge_ds G + k * 2048) in
  bytes_ok m' /\ group_fresh m' k.
Proof using Hf.
  intros Hb Hk. pose proof (lay_bounds cap n Hf) as (L1 & L2 & L3). set (ga := gaddr G k). split.
  { unfold fresh_group, fset. cbv zeta. do 2 apply bytes_ok_wr. apply bytes_ok_memset; [lia|].
    do 4 apply bytes_ok_wr. by apply bytes_ok_memset; [lia|]. }
  assert (Hds : 0 <= ge_ds G + k * 2048 < 2 ^ 64) by (cbn [ge_ds lay_geom]; lia).
  unfold fresh_group, fset, g_crc32, g_bitmap_off, g_free_count, g_base_blk, g_group_idx, g_magic.
  cbv zeta. cbn [f_off f_width]. constructor; fold ga.
  - unfold fget, g_base_blk. cbn [f_off f_width].
    rewrite !(rd_wr_other 8 4), rd_memset_other, (rd_wr_other 8 4), rd_wr_small by (cbn; lia). done.
  - unfold fget, g_free_count, FLATFS_GROUP_BLOCKS. cbn [f_off f_width].
    rewrite !(rd_wr_other 4 4 _ (ga + 4092)), rd_memset_other, rd_wr_small by (cbn; lia). done.
  - intros j Hj. rewrite !wr_out by (cbn; lia). apply memset_in. lia.
Qed.

(** One iteration of [flatfs_alloc_init] on a stale-free volume. *)
Lemma group_init_eq m0 k s :
  sb_fields m0 cap n -> 0 <= k < lay_ng cap n -> (forall i, 0 <= i < 4096 -> f_buf s i = m0 i) ->
  fget (f_buf s) (gaddr G k) g_magic <> FLATFS_FREELIST_MAGIC ->
  group_init s k = with_buf s (fresh_group (f_buf s) (gaddr G k) k (ge_ds G + k * 2048)).
Proof using Hf.
  intros SB Hk Hlow Hmg. pose proof (lay_bounds cap n Hf) as (L1 & L2 & L3).
  assert (Hsb : forall m, (forall i, 0 <= i < 4096 -> m i = m0 i) -> sb_fields m cap n).
  { intros m Hm. apply sb_fields_ext with m0; [|done]. intros i Hi. apply Hm. lia. }
  assert (Hgp : forall s', (forall i, 0 <= i < 4096 -> f_buf s' i = m0 i) -> group_ptr s' k = gaddr G k).
  { intros s' Hs'. unfold group_ptr, sbget. rewrite (sf_fl _ _ _ (Hsb _ Hs')).
    rewrite u64_small by lia. unfold gaddr. cbn [ge_fl lay_geom]. apply blk_ptr_eq. lia. }
  unfold group_init. rewrite (Hgp s Hlow). set (ga := gaddr G k) in *.
  assert (Ega : 4096 <= ga) by (unfold ga, gaddr; cbn [ge_fl lay_geom]; lia).
  rewrite (proj2 (Z.eqb_neq _ _) Hmg). unfold group_flush.
  assert (Hb1 : forall b, (forall i, 0 <= i < 4096 -> b i = m0 i) ->
    u64 (sbget (with_buf s b) sb_data_start + k * FLATFS_GROUP_BLOCKS) = ge_ds G + k * 2048).
  { intros b Hb1. unfold sbget. cbn [f_buf with_buf]. rewrite (sf_ds _ _ _ (Hsb _ Hb1)).
    unfold FLATFS_GROUP_BLOCKS. cbn [ge_ds lay_geom]. apply u64_small. lia. }
  rewrite Hb1.
  2:{ intros i Hi. unfold fset, g_group_idx, g_magic. cbn [f_off f_width]. rewrite !wr_out by (cbn; lia).
      rewrite memset_out by lia. by apply Hlow. }
  rewrite Hgp; [reflexivity|]. intros i Hi. cbn [f_buf with_buf].
  unfold fset, g_free_count, g_base_blk, g_group_idx, g_magic, g_bitmap_off. cbn [f_off f_width].
  rewrite memset_out, !wr_out, memset_out by (cbn; lia). by apply Hlow.
Qed.

Lemma group_init_step m0 k s :
  sb_fields m0 cap n -> 0 <= k < lay_ng cap n -> fget m0 (gaddr G k) g_magic <> FLATFS_FREELIST_MAGIC ->
  init_upto m0 k s -> init_upto m0 (k + 1) (group_init s k).
Proof using Hf.
  intros SB Hk Hmg [Hb Hgr Hrest]. pose proof (lay_bounds cap n Hf) as (L1 & L2 & L3).
  assert (Ega : gaddr G k = (lay_fl n + k) * 4096) by done.
  rewrite (group_init_eq m0); [|done|done|intros; apply Hrest; lia|].
  2:{ rewrite (fget_ext m0 (f_buf s)); [done|]. cbn [f_off f_width g_magic]. intros i Hi. apply Hrest. lia. }
  destruct (fresh_group_ok (f_buf s) k Hb Hk) as [Hb' Hfr].
  constructor; cbn [f_buf with_buf]; [done| |].
  - intros gi Hgi. destruct (Z.eq_dec gi k) as [->|]; [done|].
    apply group_fresh_ext with (f_buf s); [|apply Hgr; lia]. intros i Hi. apply fresh_group_other.
    unfold gaddr in *. lia.
  - intros i Hi. rewrite fresh_group_other by lia. apply Hrest. lia.
Qed.

Lemma alloc_init_loop m0 : sb_fields m0 cap n -> bytes_ok m0 -> no_stale_groups m0 cap n ->
  forall j s, f_buf s = m0 -> (j <= Z.to_nat (lay_ng cap n))%nat ->
  init_upto m0 (Z.of_nat j) (fold_left (fun s gi => group_init s (Z.of_nat gi)) (seq 0 j) s).
Proof using Hf.
  intros SB Hb Hst j. induction j as [|j IH]; intros s Hs Hj.
  { constructor; cbn [seq fold_left]; rewrite ?Hs; [done|lia|done]. }
  rewrite seq_S, fold_left_app. cbn [fold_left]. rewrite Nat.add_0_l.
  replace (Z.of_nat (S j)) with (Z.of_nat j + 1) by lia.
  apply group_init_step; [done|lia| |apply IH; [done|lia]]. apply Hst. lia.
Qed.

(** Everything but the buffer is as [group_init] found it. *)
Lemma group_init_frame s k : exists b, group_init s k = with_buf s b.
Proof.
  unfold group_init. destruct (_ =? _); [exists (f_buf s); by destruct s|]. unfold group_flush. eexists. reflexivity.
Qed.

Lemma alloc_init_frame l : forall s, exists b, fold_left (fun s gi => group_init s (Z.of_nat gi)) l s = with_buf s b.
Proof.
  induction l as [|k l IH]; intros s; cbn [fold_left]; [exists (f_buf s); by destruct s|].
  destruct (group_init_frame s (Z.of_nat k)) as [b ->]. destruct (IH (with_buf s b)) as [b' ->]. by exists b'.
Qed.

Lemma cnt_all_free u j : forall a, (forall k, a <= k < a + Z.of_nat j -> u k = false) -> cnt u a j = Z.of_nat j.
Proof.
  induction j as [|j IH]; intros a H; [done|]. cbn [cnt]. rewrite H by lia. rewrite IH; [lia|]. intros k Hk. apply H. lia.
Qed.

(** Fresh groups with an untouched superblock satisfy the invariant. *)
Lemma init_upto_inv m0 s :
  sb_fields m0 cap n -> init_upto m0 (lay_ng cap n) s -> f_ngroups s = lay_ng cap n -> f_group_hint s = 0 ->
  inv G s /\ forall k, 0 <= k < lay_ng cap n * 2048 -> used G (f_buf s) k = false.
Proof using Hf.
  intros SB [Hb Hgr Hrest] Hng Hh. pose proof (lay_bounds cap n Hf) as (L1 & L2 & L3).
  assert (SB' : sb_fields (f_buf s) cap n).
  { apply sb_fields_ext with m0; [|done]. intros i Hi. apply Hrest. lia. }
  assert (Hu : forall k, 0 <= k < lay_ng cap n * 2048 -> used G (f_buf s) k = false).
  { intros k Hk. pose proof (slot_split k) as [_ Hr]. unfold used, bitmap_test.
    destruct (bit_index (k mod 2048)) as [-> ->]; [lia|]. unfold g_bitmap_off.
    rewrite (gf_bits _ _ (Hgr (k / 2048) ltac:(clear - Hk; zlia))) by (clear - Hr; zlia). apply Z.bits_0. }
  split; [|done]. constructor; [|done|cbn [ge_ng lay_geom]; lia|lia].
  constructor; [done|apply SB'|apply SB'|apply SB'|intros gi Hgi; apply (gf_base _ _ (Hgr gi Hgi))|..].
  - intros gi Hgi. cbn [ge_ng lay_geom] in Hgi. rewrite (gf_count _ _ (Hgr gi Hgi)).
    rewrite cnt_all_free; [done|]. intros k Hk. apply Hu. lia.
  - rewrite (sf_free _ _ _ SB'). cbn [ge_tb ge_ds lay_geom].
    rewrite cnt_all_free; [lia|]. intros k Hk. apply Hu. lia.
Qed.

End Groups.

(** A formatted volume, opened: the allocator's invariant holds and every
    data block is free. *)
Lemma alloc_init_inv s cap n :
  fits cap n -> sb_fields (f_buf s) cap n -> bytes_ok (f_buf s) -> no_stale_groups (f_buf s) cap n ->
  exists s', flatfs_alloc_init s = (FLATFS_OK, s') /\ inv (lay_geom cap n) s' /\
    (forall k, 0 <= k < lay_ng cap n * 2048 -> used (lay_geom cap n) (f_buf s') k = false) /\
    (forall i, i < lay_fl n * 4096 \/ (lay_fl n + lay_ng cap n) * 4096 <= i -> f_buf s' i = f_buf s i).
Proof.
  intros Hf SB Hb Hst. pose proof (lay_bounds cap n Hf) as (L1 & L2 & L3).
  unfold flatfs_alloc_init, sbget. rewrite (sf_fb _ _ _ SB).
  set (s1 := with_alloc s (lay_ng cap n) (f_alloc_ops s) (f_free_ops s) 0).
  eexists. split; [reflexivity|].
  pose proof (alloc_init_loop cap n Hf (f_buf s) SB Hb Hst (Z.to_nat (lay_ng cap n)) s1 eq_refl ltac:(lia)) as U.
  replace (Z.of_nat (Z.to_nat (lay_ng cap n))) with (lay_ng cap n) in U by lia.
  destruct (alloc_init_frame (seq 0 (Z.to_nat (lay_ng cap n))) s1) as [b Eb].
  destruct (init_upto_inv cap n Hf (f_buf s) _ SB U) as [I Hu]; [by rewrite Eb|by rewrite Eb|].
  split; [done|]. split; [done|]. apply U.
Qed.
