(* ===== verification/FlatProps.v ===== *)
(** * FlatFS: properties of the superblock, the block allocator and inodes *)

From stdpp Require Import base list.
From Stdlib Require Import ZArith Lia.
From S2P Require Import Prelude TyCrypto TyCryptoProof FlatCrc FlatFs FlatAlloc FlatSuper.

#[local] Opaque flatfs_crc32 ty_siphash24.

(** ** Superblock *)

(** C20. A superblock written by [flatfs_super_write] survives any one
    damaged byte of block 0: [flatfs_super_read] succeeds, with or without
    the TYKID binding, and every byte of the volume is as it was written. *)
Theorem super_recovery (s : fs) (cap k v : Z) :
  bytes_ok (f_buf s) -> byte_list (f_key s) -> header_ok (f_buf s) 0 ->
  16384 <= cap -> 0 <= k < 4096 -> 0 <= v < 256 ->
  let s1 := flatfs_super_write s in
  exists s2, flatfs_super_read (with_buf s1 (upd (f_buf s1) k v)) cap = (FLATFS_OK, s2) /\
    forall i, f_buf s2 i = f_buf s1 i.
Proof.
  intros Hb Hk Hh Hc Hkr Hv. cbv zeta. set (s1 := flatfs_super_write s).
  assert (E1 : f_buf s1 = memcpy (written s) 4096 (written s) 0 4096) by reflexivity.
  assert (Ebd : f_bound s1 = f_bound s) by reflexivity. assert (Ek : f_key s1 = f_key s) by reflexivity.
  clearbody s1.
  assert (B1 : bytes_ok (f_buf s1)) by (rewrite E1; apply bytes_ok_memcpy; by apply written_bytes).
  assert (S0 : sealed s1 (f_buf s1) 0).
  { apply (sealed_shift s s1 (written s) (f_buf s1) 0 0 Ebd Ek); [|by apply written_sealed].
    intros i Hi. rewrite E1. apply memcpy_out. lia. }
  assert (S1 : sealed s1 (f_buf s1) 4096).
  { apply (sealed_shift s s1 (written s) (f_buf s1) 0 4096 Ebd Ek); [|by apply written_sealed].
    intros i Hi. rewrite E1, memcpy_in by lia. f_equal. lia. }
  assert (Ecopy : forall i, 0 <= i < 4096 -> f_buf s1 (4096 + i) = f_buf s1 i).
  { intros i Hi. rewrite E1, memcpy_in, memcpy_out by lia. f_equal. lia. }
  set (b := upd (f_buf s1) k v). assert (Eb : forall i, b i = upd (f_buf s1) k v i) by done.
  assert (Hbo : forall i, i <> k -> b i = f_buf s1 i) by (intros; rewrite Eb; by apply upd_ne).
  assert (Bb : bytes_ok b) by (by apply bytes_ok_upd).
  assert (Hvb : v <> f_buf s1 k -> flatfs_super_validate b 0 <> FLATFS_OK).
  { intros Hne. apply validate_one_byte; try assumption. apply S0. }
  clearbody b. set (s2 := with_buf s1 b).
  destruct (Z.eq_dec v (f_buf s1 k)) as [Ev|Ev].
  - assert (Hsame : forall i, b i = f_buf s1 i).
    { intros i. destruct (Z.eq_dec i k) as [->|]; [by rewrite Eb, upd_eq|by apply Hbo]. }
    exists s2. split; [|done]. apply super_read_sealed; [done|].
    apply (sealed_shift s1 s2 (f_buf s1) b 0 0 eq_refl eq_refl); [|exact S0]. intros i Hi. apply Hsame.
  - destruct (super_read_backup s2 cap) as (s3 & Hr & Hcp & Hout & B3 & Hval); [done|done|by apply Hvb| |].
    { apply (sealed_shift s1 s2 (f_buf s1) b 4096 4096 eq_refl eq_refl); [|exact S1]. intros i Hi. apply Hbo. lia. }
    exists s3. split; [done|]. intros i.
    destruct (Z.lt_ge_cases i 0); [rewrite Hout by lia; apply Hbo; lia|].
    destruct (Z.lt_ge_cases i 4096); [|rewrite Hout by lia; apply Hbo; lia].
    rewrite <- Ecopy by lia. rewrite <- (Hbo (4096 + i)) by lia.
    apply (valid_unique b (f_buf s3) 4096); try assumption; [|lia].
    apply (validate_shift (f_buf s1) b 4096 4096); [|apply S1]. intros j Hj. apply Hbo. lia.
Qed.

(** A small volume to evaluate on: 1100 blocks, 64 inodes, zeroed medium. *)
Definition zero_fs : fs := FS (fun _ => 0) 0 0 0 0 1 0 0 0 false [] [].
Definition vol_cap : Z := 1100 * 4096.
Definition vol : fs := snd (flatfs_super_init zero_fs vol_cap None 64).
Definition vol_open : fs := snd (flatfs_alloc_init vol).

Lemma vol_fits : fits vol_cap 64.
Proof. unfold fits, vol_cap, lay_fl, inode_blocks. change (1100 * 4096 / 4096) with 1100. change ((64 + 15) / 16) with 4. lia. Qed.

(** What formatting gives: fields, bytes, and untouched blocks past 1. *)
Lemma super_init_spec s cap n label :
  0 <= cap -> fits cap n -> bytes_ok (f_buf s) -> (forall l, label = Some l -> byte_list l) ->
  exists s', flatfs_super_init s cap label n = (FLATFS_OK, s') /\
    sb_fields (f_buf s') cap n /\ bytes_ok (f_buf s') /\ flatfs_super_validate (f_buf s') 0 = FLATFS_OK /\
    (forall i, 8192 <= i -> f_buf s' i = f_buf s i).
Proof.
  intros H0 Hf Hb Hl. rewrite (super_init_eq s cap n label H0 Hf). cbv zeta.
  pose proof (super_body_fields (f_buf s) cap n label Hf H0) as SF.
  pose proof (super_body_bytes (f_buf s) cap n label Hb Hl) as SB.
  assert (Hout : forall i, 8192 <= i -> super_body (f_buf s) cap n label i = f_buf s i).
  { intros i Hi. unfold super_body. cbv zeta. rewrite label_other by lia. unfold fset. rewrite !wr_out by (cbn; lia).
    rewrite layout_stores_other, !wr_out by (cbn; lia). apply memset_out. unfold FLATFS_BLOCK_SIZE. lia. }
  set (b := super_body (f_buf s) cap n label) in *. clearbody b.
  assert (Hlow : forall i, 0 <= i < 196 -> flatfs_super_update_crc b 0 i = b i)
    by (intros; apply update_crc_other; lia).
  eexists. split; [reflexivity|]. cbn [f_buf with_buf]. unfold FLATFS_BLOCK_SIZE.
  assert (SFu : sb_fields (flatfs_super_update_crc b 0) cap n) by (by apply sb_fields_ext with b).
  assert (Bu : bytes_ok (flatfs_super_update_crc b 0)) by (by apply update_crc_bytes).
  assert (Hv : flatfs_super_validate (flatfs_super_update_crc b 0) 0 = FLATFS_OK).
  { apply validate_update_crc; [exact SB|]. unfold header_ok, FLATFS_MAX_BLOCKS. destruct SF, Hf as [_ Hc].
    split_and!; try assumption. rewrite sf_tb. lia. }
  split_and!.
  - apply sb_fields_ext with (flatfs_super_update_crc b 0); [|exact SFu]. intros i Hi. apply memcpy_out. lia.
  - by apply bytes_ok_memcpy.
  - apply (validate_shift (flatfs_super_update_crc b 0) _ 0 0); [|exact Hv]. intros i Hi. apply memcpy_out. lia.
  - intros i Hi. rewrite memcpy_out by lia. rewrite update_crc_other by lia. by apply Hout.
Qed.

Lemma vol_ok : sb_fields (f_buf vol) vol_cap 64 /\ bytes_ok (f_buf vol) /\ no_stale_groups (f_buf vol) vol_cap 64.
Proof.
  destruct (super_init_spec zero_fs vol_cap 64 None) as (s' & E & SF & SB & _ & Hz);
    [unfold vol_cap; lia|apply vol_fits|intros i; cbn; lia|done|].
  unfold vol. rewrite E. cbn [snd]. split_and!; [done|done|]. intros gi Hgi.
  pose proof (lay_bounds vol_cap 64 vol_fits) as (L1 & _).
  unfold fget. rewrite (rd_zero _ _ _); [done|]. intros i Hi. rewrite Hz; [done|]. cbn [f_off g_magic]. lia.
Qed.

Lemma super_recovery_witness :
  exists s2, flatfs_super_read (with_buf (flatfs_super_write vol) (upd (f_buf (flatfs_super_write vol)) 24 77)) vol_cap
             = (FLATFS_OK, s2) /\ f_buf s2 24 = f_buf (flatfs_super_write vol) 24.
Proof.
  destruct vol_ok as (SF & SB & _).
  destruct (super_recovery vol vol_cap 24 77) as (s2 & E & H).
  - exact SB.
  - constructor.
  - unfold header_ok, FLATFS_MAX_BLOCKS. destruct SF. rewrite sf_tb. split_and!; try assumption. by vm_compute.
  - unfold vol_cap. lia.
  - lia.
  - lia.
  - exists s2. split; [exact E|apply H].
Defined.

(** ** The block allocator against a pool of free blocks *)

Inductive alloc_op := OpAlloc | OpFree (b : Z).
(** A block handed out, with whether all its bytes are zero, or an error. *)
Inductive alloc_res := RBlk (b : Z) (clear : bool) | RRet (e : flatfs_err).

Definition block_clear (s : fs) (b : Z) : bool := forallb (Z.eqb 0) (bytes_of (f_buf s) (blk_ptr b) 4096).

Definition run_op (s : fs) (op : alloc_op) : alloc_res * fs :=
  match op with
  | OpAlloc => match flatfs_alloc_block to_local s with
               | (inr b, s) => (RBlk b (block_clear s b), s)
               | (inl e, s) => (RRet e, s)
               end
  | OpFree b => let '(e, s) := flatfs_free_block s b in (RRet e, s)
  end.

Fixpoint run_ops (s : fs) (ops : list alloc_op) : list alloc_res :=
  match ops with [] => [] | op :: ops => let '(r, s) := run_op s op in r :: run_ops s ops end.

(** The specification: a set of free blocks between [ds] and [tb]. *)
Fixpoint pool_first (p : Z -> bool) (b : Z) (n : nat) : option Z :=
  match n with O => None | S n => if p b then Some b else pool_first p (b + 1) n end.

Definition pool_op (ds tb : Z) (p : Z -> bool) (op : alloc_op) : alloc_res * (Z -> bool) :=
  match op with
  | OpAlloc => match pool_first p ds (Z.to_nat (tb - ds)) with
               | Some b => (RBlk b true, upd p b false)
               | None => (RRet FLATFS_ERR_NOSPACE, p)
               end
  | OpFree b => if (b <? ds) || (tb <=? b) then (RRet FLATFS_ERR_BOUNDS, p)
                else if p b then (RRet FLATFS_ERR_INVAL, p) else (RRet FLATFS_OK, upd p b true)
  end.

Fixpoint pool_ops (ds tb : Z) (p : Z -> bool) (ops : list alloc_op) : list alloc_res :=
  match ops with [] => [] | op :: ops => let '(r, p) := pool_op ds tb p op in r :: pool_ops ds tb p ops end.

Lemma pool_first_none p n : forall b, (forall k, b <= k < b + Z.of_nat n -> p k = false) -> pool_first p b n = None.
Proof.
  induction n as [|n IH]; intros b H; [done|]. cbn [pool_first]. rewrite H by lia. apply IH. intros. apply H. lia.
Qed.

Lemma pool_first_some p x n : forall b, b <= x < b + Z.of_nat n -> p x = true ->
  (forall k, b <= k < x -> p k = false) -> pool_first p b n = Some x.
Proof.
  induction n as [|n IH]; intros b Hx Hp H; [lia|]. cbn [pool_first].
  destruct (Z.eq_dec b x) as [->|]; [by rewrite Hp|]. rewrite H by lia. apply IH; [lia|done|]. intros. apply H. lia.
Qed.

Section Pool.
Context (g : geom) (Hg : geom_ok g).

(** The pool holds exactly the blocks whose bit is clear. *)
Definition pool_rel (p : Z -> bool) (s : fs) : Prop :=
  inv g s /\ forall x, 0 <= x < ge_tb g - ge_ds g -> p (ge_ds g + x) = negb (used g (f_buf s) x).

Lemma pool_op_sim p s op :
  (forall b, op = OpFree b -> 0 <= b) -> pool_rel p s ->
  let '(r, s') := run_op s op in
  let '(r', p') := pool_op (ge_ds g) (ge_tb g) p op in r = r' /\ pool_rel p' s'.
Proof using Hg.
  intros Hop [I R]. destruct op as [|b]; cbn [run_op pool_op].
  - destruct (alloc_block_spec g Hg to_local s I (out_ok_local g)) as [Hz Hnz].
    destruct (Z.eq_dec (sbget s sb_free_blocks) 0) as [E|E].
    + rewrite (Hz E). unfold sbget in E. rewrite (mi_free _ _ (ai_meta _ _ I)) in E.
      rewrite pool_first_none; [done|]. intros k Hk. replace k with (ge_ds g + (k - ge_ds g)) by lia.
      rewrite R by lia. by rewrite (cnt_zero _ _ _ E (k - ge_ds g)) by lia.
    + destruct (Hnz E) as (x & Hx & Hu & Hl & -> & I').
      rewrite (pool_first_some p (ge_ds g + x)); [|lia|by rewrite R, Hu by lia|].
      2:{ intros k Hk. replace k with (ge_ds g + (k - ge_ds g)) by lia. rewrite R by lia. by rewrite Hl by lia. }
      split.
      * f_equal. unfold block_clear. rewrite blk_ptr_eq by (destruct Hg; lia).
        apply forallb_forall. intros z Hz'. apply list_elem_of_In, list_elem_of_fmap in Hz' as (i & -> & Hi).
        apply elem_of_seq in Hi. apply Z.eqb_eq. symmetry. unfold taken, to_local. cbn [f_buf flatfs_mon_alloc with_buf].
        apply memset_in. lia.
      * split; [done|]. intros y Hy. unfold upd.
        assert (Ey : used g (f_buf (taken g to_local s x)) y = if y =? x then true else used g (f_buf s) y).
        { unfold taken, to_local. cbn [f_buf flatfs_mon_alloc with_buf with_alloc].
          rewrite (used_ext g Hg (slot_upd g (f_buf s) x true)); [|destruct Hg; lia|intros i Hi; apply memset_out; lia].
          apply slot_upd_used; [done|destruct Hg; lia..]. }
        rewrite Ey. destruct (Z.eqb_spec y x) as [->|]; [by rewrite Z.eqb_refl|].
        rewrite (proj2 (Z.eqb_neq (ge_ds g + y) _)) by lia. by apply R.
  - specialize (Hop b eq_refl). destruct (free_block_spec g Hg s b I Hop) as [Hout Hin].
    destruct (Z.ltb_spec b (ge_ds g)); [rewrite Hout by lia; done|].
    destruct (Z.leb_spec (ge_tb g) b); [rewrite Hout by lia; done|]. cbn [orb].
    specialize (Hin ltac:(lia)). pose proof (R (b - ge_ds g) ltac:(lia)) as Rb.
    replace (ge_ds g + (b - ge_ds g)) with b in Rb by lia. rewrite Rb.
    destruct (used g (f_buf s) (b - ge_ds g)); [destruct Hin as [-> I']|by rewrite Hin]. cbn [negb].
    split; [done|]. split; [done|]. intros y Hy. unfold upd, released. cbn [f_buf with_buf with_alloc].
    rewrite slot_upd_used by (done || (destruct Hg; lia)).
    destruct (Z.eqb_spec y (b - ge_ds g)) as [->|].
    + by rewrite (proj2 (Z.eqb_eq (ge_ds g + _) b)) by lia.
    + rewrite (proj2 (Z.eqb_neq (ge_ds g + y) b)) by lia. by apply R.
Qed.

Lemma pool_ops_sim ops : forall p s,
  Forall (fun op => forall b, op = OpFree b -> 0 <= b) ops -> pool_rel p s ->
  run_ops s ops = pool_ops (ge_ds g) (ge_tb g) p ops.
Proof using Hg.
  induction ops as [|op ops IH]; intros p s Ho R; [done|]. inversion_clear Ho. cbn [run_ops pool_ops].
  pose proof (pool_op_sim p s op) as Hs. destruct (run_op s op) as [r s'], (pool_op _ _ p op) as [r' p'].
  destruct Hs as [-> R']; [done|done|]. f_equal. by apply IH.
Qed.
End Pool.


