(* ===== verification/FlatFile.v ===== *)
(** * FlatFS files: the pointer tree and its contents

    A file that is neither inline nor checksummed is a tree of pointers:
    twelve in the inode, entries of the single-indirect block, entries of
    the double-indirect block and entries of the blocks below it.  This file
    gives the tree a flat description (the value of every pointer slot),
    states when it is well formed, and shows what [map_block] does to it. *)

From stdpp Require Import base list.
From Stdlib Require Import ZArith Lia.
From S2P Require Import Prelude TyCrypto FlatCrc FlatFs FlatAlloc.

#[local] Opaque flatfs_crc32 ty_siphash24.

(** ** Pointer slots *)

Inductive slot :=
| SR (k : Z)      (** [blk_ptrs[k]] of the inode *)
| SI (j : Z)      (** entry [j] of the single-indirect block *)
| SD (i : Z)      (** entry [i] of the double-indirect block *)
| SDI (i j : Z).  (** entry [j] of the block that [SD i] names *)

#[export] Instance slot_eq_dec : EqDecision slot.
Proof. solve_decision. Defined.

Definition slot_ok (sl : slot) : Prop :=
  match sl with
  | SR k => 0 <= k < 12
  | SI j => 0 <= j < 512
  | SD i => 0 <= i < 512
  | SDI i j => 0 <= i < 512 /\ 0 <= j < 512
  end.

Definition sroot (inp : bmem) (k : Z) : Z := fget inp 0 (i_blk_ptr k).

(** Entry [j] of pointer block [p]; a null block has null entries. *)
Definition sent (m : bmem) (p j : Z) : Z := if p =? 0 then 0 else rd 8 m (p * 4096 + 8 * j).

(** The block that holds the slot (0 when there is none yet). *)
Definition sparent (m inp : bmem) (sl : slot) : Z :=
  match sl with
  | SR _ => 0
  | SI _ => sroot inp 10
  | SD _ => sroot inp 11
  | SDI i _ => sent m (sroot inp 11) i
  end.

Definition sindex (sl : slot) : Z := match sl with SR k => k | SI j => j | SD i => i | SDI _ j => j end.

Definition sval (m inp : bmem) (sl : slot) : Z :=
  match sl with
  | SR k => sroot inp k
  | sl => sent m (sparent m inp sl) (sindex sl)
  end.

(** The slot of logical block [l]. *)
Definition slot_of (l : Z) : slot :=
  if l <? 10 then SR l
  else if l <? 522 then SI (l - 10)
  else SDI ((l - 522) / 512) ((l - 522) mod 512).

Definition LMAX : Z := 10 + 512 + 512 * 512.

Lemma slot_of_ok l : 0 <= l < LMAX -> slot_ok (slot_of l).
Proof.
  unfold LMAX, slot_of. intros Hl. destruct (Z.ltb_spec l 10); [cbn; lia|].
  destruct (Z.ltb_spec l 522); [cbn; lia|]. cbn. zlia.
Qed.

Lemma slot_of_inj l l' : 0 <= l < LMAX -> 0 <= l' < LMAX -> slot_of l = slot_of l' -> l = l'.
Proof.
  unfold slot_of. intros Hl Hl'.
  destruct (Z.ltb_spec l 10), (Z.ltb_spec l' 10); try (destruct (Z.ltb_spec l 522)); try (destruct (Z.ltb_spec l' 522));
    intros E; try discriminate E; injection E; intros; zlia.
Qed.

(** Slots that name pointer blocks; the others name data blocks. *)
Definition is_ptr (sl : slot) : bool :=
  match sl with SR k => 10 <=? k | SD _ => true | _ => false end.

Lemma slot_of_leaf l : is_ptr (slot_of l) = false.
Proof.
  unfold slot_of. destruct (Z.ltb_spec l 10); [cbn; apply Z.leb_gt; lia|]. by destruct (l <? 522).
Qed.

(** ** Contents *)

(** Byte [i] of logical block [l]; holes read as zero. *)
Definition fdata (m inp : bmem) (l i : Z) : Z :=
  let p := sval m inp (slot_of l) in if p =? 0 then 0 else m (p * 4096 + i).

(** Byte [k] of the file. *)
Definition fbyte (m inp : bmem) (k : Z) : Z := fdata m inp (k / 4096) (k mod 4096).

Section File.
Context (g : geom) (Hg : geom_ok g).

(** Every pointer names an allocated data block, and no two slots the same
    one. *)
Record file_ok (m inp : bmem) : Prop := {
  fo_bytes : bytes_ok inp;
  fo_range : forall sl, slot_ok sl -> sval m inp sl <> 0 ->
    ge_ds g <= sval m inp sl < ge_tb g /\ used g m (sval m inp sl - ge_ds g) = true;
  fo_inj : forall sl sl', slot_ok sl -> slot_ok sl' -> sval m inp sl <> 0 ->
    sval m inp sl = sval m inp sl' -> sl = sl' }.

(** Two files that share no block. *)
Definition apart (m inp inp2 : bmem) : Prop :=
  forall sl sl2, slot_ok sl -> slot_ok sl2 -> sval m inp sl <> 0 -> sval m inp sl <> sval m inp2 sl2.

(** The pointers and the data of a file are the same in two memories. *)
Definition fsame (m m' inp : bmem) : Prop :=
  (forall sl, slot_ok sl -> sval m' inp sl = sval m inp sl) /\
  (forall l i, 0 <= l < LMAX -> 0 <= i < 4096 -> fdata m' inp l i = fdata m inp l i).

Lemma sent_parent_ok m inp sl : slot_ok sl -> file_ok m inp -> sparent m inp sl <> 0 ->
  exists psl, slot_ok psl /\ is_ptr psl = true /\ sval m inp psl = sparent m inp sl.
Proof.
  intros Hs F Hp. destruct sl as [k|j|i|i j]; cbn [sparent] in *; [done|..].
  - exists (SR 10). by cbn.
  - exists (SR 11). by cbn.
  - exists (SD i). cbn in Hs |- *. naive_solver.
Qed.

(** A pointer block of a well-formed file is an allocated data block. *)
Lemma parent_range m inp sl : slot_ok sl -> file_ok m inp -> sparent m inp sl <> 0 ->
  ge_ds g <= sparent m inp sl < ge_tb g /\ used g m (sparent m inp sl - ge_ds g) = true.
Proof.
  intros Hs F Hp. destruct (sent_parent_ok m inp sl Hs F Hp) as (psl & Hps & _ & E).
  rewrite <- E in *. by apply (fo_range _ _ F).
Qed.

Lemma sval_entry m inp sl : (forall k, sl <> SR k) ->
  sval m inp sl = sent m (sparent m inp sl) (sindex sl).
Proof. destruct sl; [intros H; by destruct (H k)|done..]. Qed.

Lemma sent_nonzero m p j : sent m p j <> 0 -> p <> 0 /\ sent m p j = rd 8 m (p * 4096 + 8 * j).
Proof. unfold sent. destruct (Z.eqb_spec p 0); [done|]. done. Qed.

(** Same memory on the pointer blocks: same pointers. *)
Lemma sval_blocks m m' inp :
  (forall psl i, slot_ok psl -> is_ptr psl = true -> sval m inp psl <> 0 -> 0 <= i < 4096 ->
     m' (sval m inp psl * 4096 + i) = m (sval m inp psl * 4096 + i)) ->
  forall sl, slot_ok sl -> sval m' inp sl = sval m inp sl.
Proof.
  intros H.
  assert (Hent : forall psl j, slot_ok psl -> is_ptr psl = true -> 0 <= j < 512 ->
    sent m' (sval m inp psl) j = sent m (sval m inp psl) j).
  { intros psl j Hps Hpt Hj. unfold sent. destruct (Z.eqb_spec (sval m inp psl) 0) as [|Hne]; [done|].
    apply rd_ext. intros i Hi. rewrite <- !Z.add_assoc. apply H; [done|done|done|]. cbn in Hi. lia. }
  assert (HD : forall i, 0 <= i < 512 -> sval m' inp (SD i) = sval m inp (SD i)).
  { intros i Hi. cbn [sval sparent sindex]. apply (Hent (SR 11)); cbn; (done || lia). }
  intros [k|j|i|i j] Hs; [done| |by apply HD|]; cbn in Hs.
  - apply (Hent (SR 10)); cbn; (done || lia).
  - cbn [sval sparent sindex]. destruct Hs as [Hi Hj]. specialize (HD i Hi). cbn [sval sparent sindex] in HD.
    rewrite HD. apply (Hent (SD i)); done.
Qed.

(** Same memory on all blocks a file uses: same file. *)
Lemma fsame_blocks m m' inp :
  (forall sl i, slot_ok sl -> sval m inp sl <> 0 -> 0 <= i < 4096 ->
     m' (sval m inp sl * 4096 + i) = m (sval m inp sl * 4096 + i)) ->
  fsame m m' inp.
Proof.
  intros H. assert (HS := sval_blocks m m' inp ltac:(intros; by apply H)).
  split; [done|]. intros l i Hl Hi. unfold fdata. pose proof (slot_of_ok l Hl) as Hs. rewrite HS by done.
  destruct (Z.eqb_spec (sval m inp (slot_of l)) 0); [done|]. by apply H.
Qed.

Lemma file_ok_same m m' inp :
  fsame m m' inp -> (forall x, 0 <= x < ge_tb g - ge_ds g -> used g m x = true -> used g m' x = true) ->
  file_ok m inp -> file_ok m' inp.
Proof.
  intros [HS _] Hu [Hb Hr Hi]. constructor; [done|..].
  - intros sl Hs. rewrite HS by done. intros Hne. destruct (Hr sl Hs Hne) as [H1 H2]. split; [done|]. apply Hu; [lia|done].
  - intros sl sl' Hs Hs'. rewrite !HS by done. by apply Hi.
Qed.

(** ** Filling one slot with a fresh block *)

(** The slot that names the block holding an entry. *)
Definition pslot (sl : slot) : option slot :=
  match sl with SR _ => None | SI _ => Some (SR 10) | SD _ => Some (SR 11) | SDI i _ => Some (SD i) end.

Lemma pslot_parent m inp sl ps : pslot sl = Some ps -> sparent m inp sl = sval m inp ps.
Proof. destruct sl; intros [= <-]; done. Qed.

Lemma pslot_ok sl ps : slot_ok sl -> pslot sl = Some ps -> slot_ok ps /\ 0 <= sindex sl < 512.
Proof. destruct sl; intros Hs [= <-]; cbn in *; lia. Qed.

Lemma pslot_ptr sl ps : pslot sl = Some ps -> is_ptr ps = true.
Proof. destruct sl; intros [= <-]; done. Qed.

Lemma pslot_inj sl sl' ps : pslot sl = Some ps -> pslot sl' = Some ps -> sindex sl = sindex sl' -> sl = sl'.
Proof. destruct sl, sl'; intros [= <-] [=] E; cbn in E; congruence. Qed.

(** [m'] and [inp'] are [m] and [inp] with the empty slot [sl] pointing to
    the block [b], which was free and is now zeroed and allocated. *)
Record filled (m inp m' inp' : bmem) (sl : slot) (b : Z) : Prop := {
  fl_ok : slot_ok sl;
  fl_empty : sval m inp sl = 0;
  fl_parent : forall ps, pslot sl = Some ps -> sval m inp ps <> 0;
  fl_b : ge_ds g <= b < ge_tb g;
  fl_fresh : used g m (b - ge_ds g) = false;
  fl_zero : forall i, 0 <= i < 4096 -> m' (b * 4096 + i) = 0;
  fl_mem : forall i, ge_ds g * 4096 <= i -> i < b * 4096 \/ (b + 1) * 4096 <= i ->
    (pslot sl <> None -> i < sparent m inp sl * 4096 + 8 * sindex sl \/ sparent m inp sl * 4096 + 8 * sindex sl + 8 <= i) ->
    m' i = m i;
  fl_entry : forall ps, pslot sl = Some ps -> rd 8 m' (sparent m inp sl * 4096 + 8 * sindex sl) = b;
  fl_root : forall k, sl = SR k -> sroot inp' k = b;
  fl_roots : forall k, 0 <= k < 12 -> sl <> SR k -> sroot inp' k = sroot inp k;
  fl_used : forall x, 0 <= x < ge_tb g - ge_ds g -> used g m' x = (x =? b - ge_ds g) || used g m x;
  fl_bytes : bytes_ok inp' }.

Section Filled.
Context (m inp m' inp' : bmem) (sl : slot) (b : Z).
Context (F : file_ok m inp) (L : filled m inp m' inp' sl b).

Abbreviation newval sl' := (if bool_decide (sl' = sl) then b else sval m inp sl').

(** No pointer of the file is the fresh block. *)
Lemma filled_fresh sl' : slot_ok sl' -> sval m inp sl' <> b.
Proof using F L Hg.
  intros Hs E. pose proof (fl_b _ _ _ _ _ _ L). assert (Hne : sval m inp sl' <> 0) by (destruct Hg; lia).
  destruct (fo_range _ _ F sl' Hs Hne) as [_ Hu]. rewrite E, (fl_fresh _ _ _ _ _ _ L) in Hu. done.
Qed.

(** An entry of an existing pointer block, other than [sl] itself. *)
Lemma filled_entry_frame sl' ps : slot_ok sl' -> pslot sl' = Some ps -> sval m inp ps <> 0 -> sl' <> sl ->
  rd 8 m' (sval m inp ps * 4096 + 8 * sindex sl') = rd 8 m (sval m inp ps * 4096 + 8 * sindex sl').
Proof using F L Hg.
  intros Hs Hps Hq Hne. destruct (pslot_ok _ _ Hs Hps) as [Hpok Hj].
  destruct (fo_range _ _ F ps Hpok Hq) as [Hqr _]. pose proof (filled_fresh ps Hpok) as Hqb.
  pose proof (fl_b _ _ _ _ _ _ L) as Hb.
  apply rd_ext. intros i Hi. cbn in Hi. apply (fl_mem _ _ _ _ _ _ L); [lia|lia|].
  intros Hsome. destruct (pslot sl) as [ps0|] eqn:E0; [|done].
  rewrite (pslot_parent m inp sl ps0 E0). destruct (pslot_ok _ _ (fl_ok _ _ _ _ _ _ L) E0) as [Hp0 Hj0].
  destruct (Z.eq_dec (sval m inp ps) (sval m inp ps0)) as [Eq|Eq]; [|lia].
  assert (ps = ps0) as -> by (by apply (fo_inj _ _ F)).
  assert (sindex sl' <> sindex sl) by (intros E; apply Hne; by eapply pslot_inj). lia.
Qed.

Lemma filled_step sl' ps : slot_ok sl' -> pslot sl' = Some ps ->
  sval m' inp' ps = newval ps -> sval m' inp' sl' = newval sl'.
Proof using F L Hg.
  intros Hs Hps IH. destruct (pslot_ok _ _ Hs Hps) as [Hpok Hj].
  assert (Hroot : forall k, sl' <> SR k) by (intros k ->; discriminate Hps).
  rewrite (sval_entry m' inp' sl' Hroot), (pslot_parent _ _ _ _ Hps), IH.
  rewrite (sval_entry m inp sl' Hroot), (pslot_parent m inp _ _ Hps).
  pose proof (fl_b _ _ _ _ _ _ L) as Hb. assert (Hb0 : b <> 0) by (destruct Hg; lia).
  case_bool_decide as E1.
  - subst ps. assert (sl' <> sl) as Hne.
    { intros ->. destruct sl; cbn in Hps; try discriminate Hps; injection Hps; discriminate. }
    rewrite bool_decide_eq_false_2 by done. rewrite (fl_empty _ _ _ _ _ _ L).
    unfold sent. rewrite (proj2 (Z.eqb_neq _ _) Hb0), Z.eqb_refl. apply rd_zero. intros i Hi. cbn in Hi.
    rewrite <- Z.add_assoc. apply (fl_zero _ _ _ _ _ _ L). lia.
  - unfold sent. destruct (Z.eqb_spec (sval m inp ps) 0) as [Ez|Ez].
    + case_bool_decide as E2; [|done]. subst sl'. by destruct (fl_parent _ _ _ _ _ _ L ps Hps).
    + case_bool_decide as E2.
      * subst sl'. rewrite <- (pslot_parent m inp _ _ Hps). by apply (fl_entry _ _ _ _ _ _ L ps).
      * by apply filled_entry_frame.
Qed.

(** Exactly one slot has changed. *)
Lemma filled_sval sl' : slot_ok sl' -> sval m' inp' sl' = newval sl'.
Proof using F L Hg.
  assert (HR : forall k, 0 <= k < 12 -> sval m' inp' (SR k) = newval (SR k)).
  { intros k Hk. cbn [sval]. case_bool_decide as E.
    - by apply (fl_root _ _ _ _ _ _ L).
    - apply (fl_roots _ _ _ _ _ _ L); [done|]. congruence. }
  destruct sl' as [k|j|i|i j]; intros Hs.
  - by apply HR.
  - apply filled_step with (SR 10); [done|done|]. apply HR. lia.
  - apply filled_step with (SR 11); [done|done|]. apply HR. lia.
  - apply filled_step with (SD i); [done|done|]. apply filled_step with (SR 11); [|done|apply HR; lia]. cbn in *. lia.
Qed.

Lemma filled_file_ok : file_ok m' inp'.
Proof using F L Hg.
  pose proof (fl_b _ _ _ _ _ _ L) as Hb. constructor; [apply L|..].
  - intros sl' Hs. rewrite filled_sval by done. case_bool_decide as E.
    + intros _. split; [done|]. rewrite (fl_used _ _ _ _ _ _ L) by lia. by rewrite Z.eqb_refl.
    + intros Hne. destruct (fo_range _ _ F sl' Hs Hne) as [Hr Hu]. split; [done|].
      rewrite (fl_used _ _ _ _ _ _ L) by lia. rewrite Hu. apply orb_true_r.
  - intros s1 s2 H1 H2. rewrite !filled_sval by done.
    case_bool_decide as E1; case_bool_decide as E2; intros Hne E.
    + by subst.
    + by destruct (filled_fresh s2 H2).
    + by destruct (filled_fresh s1 H1).
    + by apply (fo_inj _ _ F).
Qed.

(** No byte of the file changes: a new data block reads as the hole did,
    and pointer blocks hold no data. *)
Lemma filled_fdata l i : 0 <= l < LMAX -> 0 <= i < 4096 -> fdata m' inp' l i = fdata m inp l i.
Proof using F L Hg.
  intros Hl Hi. pose proof (slot_of_ok l Hl) as Hs. unfold fdata. rewrite filled_sval by done.
  pose proof (fl_b _ _ _ _ _ _ L) as Hb. assert (Hb0 : b <> 0) by (destruct Hg; lia).
  case_bool_decide as E.
  - rewrite E, (fl_empty _ _ _ _ _ _ L). rewrite (proj2 (Z.eqb_neq _ _) Hb0). cbn. by apply (fl_zero _ _ _ _ _ _ L).
  - destruct (Z.eqb_spec (sval m inp (slot_of l)) 0) as [|Hne]; [done|].
    destruct (fo_range _ _ F _ Hs Hne) as [Hr _]. pose proof (filled_fresh _ Hs) as Hf.
    apply (fl_mem _ _ _ _ _ _ L); [lia|lia|]. intros Hsome. destruct (pslot sl) as [ps|] eqn:Eps; [|done].
    rewrite (pslot_parent m inp _ _ Eps). destruct (pslot_ok _ _ (fl_ok _ _ _ _ _ _ L) Eps) as [Hpok Hj].
    destruct (Z.eq_dec (sval m inp (slot_of l)) (sval m inp ps)) as [Eq|]; [|lia].
    assert (slot_of l = ps) as Es by (by apply (fo_inj _ _ F)).
    pose proof (pslot_ptr _ _ Eps) as Hp.
    rewrite <- Es, slot_of_leaf in Hp. done.
Qed.

(** A file that shares no block with this one is untouched and stays
    apart. *)
Lemma filled_other inp2 : file_ok m inp2 -> apart m inp inp2 ->
  fsame m m' inp2 /\ file_ok m' inp2 /\ apart m' inp' inp2.
Proof using F L Hg.
  intros F2 Ha. pose proof (fl_b _ _ _ _ _ _ L) as Hb.
  assert (Hfresh2 : forall sl2, slot_ok sl2 -> sval m inp2 sl2 <> b).
  { intros sl2 Hs E. assert (Hne : sval m inp2 sl2 <> 0) by (destruct Hg; lia).
    destruct (fo_range _ _ F2 sl2 Hs Hne) as [_ Hu]. rewrite E, (fl_fresh _ _ _ _ _ _ L) in Hu. done. }
  assert (S : fsame m m' inp2).
  { apply fsame_blocks. intros sl2 i Hs Hne Hi. destruct (fo_range _ _ F2 sl2 Hs Hne) as [Hr _].
    specialize (Hfresh2 sl2 Hs). apply (fl_mem _ _ _ _ _ _ L); [lia|lia|]. intros Hsome.
    destruct (pslot sl) as [ps|] eqn:Eps; [|done]. rewrite (pslot_parent m inp _ _ Eps).
    destruct (pslot_ok _ _ (fl_ok _ _ _ _ _ _ L) Eps) as [Hpok Hj].
    pose proof (Ha ps sl2 Hpok Hs (fl_parent _ _ _ _ _ _ L ps Eps)). lia. }
  split; [done|]. split.
  - apply (file_ok_same m m' inp2 S); [|done]. intros x Hx Hu. rewrite (fl_used _ _ _ _ _ _ L) by done.
    rewrite Hu. apply orb_true_r.
  - intros s1 s2 H1 H2. rewrite filled_sval, (proj1 S) by done. case_bool_decide as E; intros Hne.
    + intros E'. by apply (Hfresh2 s2 H2).
    + by apply Ha.
Qed.

End Filled.

(** ** What [map_block] may do to the volume *)

(** The inode table lies between block 1 and the freelist. *)
Context (its ti : Z) (Hit : 2 <= its /\ 0 < ti /\ its * 16 + ti <= ge_fl g * 16).

Record vinv (s : fs) : Prop := {
  vi_inv : inv g s;
  vi_its : sbget s sb_inode_table_start = its;
  vi_ti : sbget s sb_total_inodes = ti }.

(** From [(s, inp)] to [(s', inp')] at most [n] fresh blocks were hung into
    the tree of [inp]: existing pointers, all file bytes, the other inode
    fields, the inode table and all other files are as before. *)
Record grown (n : Z) (s : fs) (inp : bmem) (s' : fs) (inp' : bmem) : Prop := {
  gr_inv : vinv s';
  gr_ok : file_ok (f_buf s') inp';
  gr_ptrs : forall sl, slot_ok sl -> sval (f_buf s) inp sl <> 0 -> sval (f_buf s') inp' sl = sval (f_buf s) inp sl;
  gr_data : forall l i, 0 <= l < LMAX -> 0 <= i < 4096 -> fdata (f_buf s') inp' l i = fdata (f_buf s) inp l i;
  gr_inode : forall i, i < 24 \/ 32 <= i < 72 \/ 168 <= i -> inp' i = inp i;
  gr_itab : forall i, its * 4096 <= i < ge_fl g * 4096 -> f_buf s' i = f_buf s i;
  gr_other : forall inp2, file_ok (f_buf s) inp2 -> apart (f_buf s) inp inp2 ->
    fsame (f_buf s) (f_buf s') inp2 /\ file_ok (f_buf s') inp2 /\ apart (f_buf s') inp' inp2;
  gr_free : sbget s sb_free_blocks - n <= sbget s' sb_free_blocks;
  gr_tykid : f_bound s' = f_bound s /\ f_key s' = f_key s }.

Lemma fsame_refl m inp : fsame m m inp.
Proof. done. Qed.

Lemma fsame_trans m1 m2 m3 inp : fsame m1 m2 inp -> fsame m2 m3 inp -> fsame m1 m3 inp.
Proof.
  intros [A1 A2] [B1 B2]. split; [intros; by rewrite B1, A1|intros; by rewrite B2, A2].
Qed.

Lemma grown_refl s inp : vinv s -> file_ok (f_buf s) inp -> grown 0 s inp s inp.
Proof. intros V F. constructor; try done. lia. Qed.

Lemma grown_trans n1 n2 s1 i1 s2 i2 s3 i3 :
  grown n1 s1 i1 s2 i2 -> grown n2 s2 i2 s3 i3 -> grown (n1 + n2) s1 i1 s3 i3.
Proof.
  intros [A1 A2 A3 A4 A5 A6 A7 A8 A9] [B1 B2 B3 B4 B5 B6 B7 B8 B9]. constructor; try done.
  - intros sl Hs Hne. rewrite B3, A3; [done|done|done|done|]. by rewrite A3.
  - intros. by rewrite B4, A4.
  - intros. by rewrite B5, A5.
  - intros. by rewrite B6, A6.
  - intros inp2 F Ap. destruct (A7 inp2 F Ap) as (S1 & F1 & Ap1). destruct (B7 inp2 F1 Ap1) as (S2 & F2 & Ap2).
    split_and!; [|done..]. by eapply fsame_trans.
  - lia.
  - destruct A9, B9. split; congruence.
Qed.

Lemma grown_weaken n n' s i s' i' : n <= n' -> grown n s i s' i' -> grown n' s i s' i'.
Proof. intros Hn [A1 A2 A3 A4 A5 A6 A7 A8 A9]. constructor; try done. lia. Qed.

(** The store of an allocation that fills a slot. *)
Definition slot_out (sl : slot) (p : Z) : Z -> fs -> fs :=
  match pslot sl with
  | None => to_local
  | Some _ => fun blk s => with_buf s (wr 8 (f_buf s) (p * 4096 + 8 * sindex sl) blk)
  end.

(** The inode after it. *)
Definition slot_inode (sl : slot) (inp : bmem) (b : Z) : bmem :=
  match sl with SR k => add_blocks (fset inp 0 (i_blk_ptr k) b) | _ => add_blocks inp end.

Lemma add_blocks_other inp i : i < 24 \/ 32 <= i -> add_blocks inp i = inp i.
Proof. intros Hi. unfold add_blocks, fset, i_blocks. cbn [f_off f_width]. apply wr_out. cbn. lia. Qed.

Lemma slot_inode_other sl inp b i : slot_ok sl -> i < 24 \/ 32 <= i < 72 \/ 168 <= i -> slot_inode sl inp b i = inp i.
Proof.
  intros Hs Hi. destruct sl; cbn [slot_inode]; rewrite add_blocks_other by lia; try done.
  unfold fset, i_blk_ptr, i_data_off. cbn [f_off f_width]. apply wr_out. cbn in Hs |- *. lia.
Qed.

Lemma slot_inode_bytes sl inp b : bytes_ok inp -> bytes_ok (slot_inode sl inp b).
Proof. intros. destruct sl; cbn [slot_inode]; unfold add_blocks, fset; auto with kobalt. Qed.

Lemma sroot_add_blocks inp k : 0 <= k -> sroot (add_blocks inp) k = sroot inp k.
Proof.
  intros Hk. unfold sroot. apply fget_ext. unfold i_blk_ptr, i_data_off. cbn [f_off f_width]. intros i Hi.
  apply add_blocks_other. lia.
Qed.

(** The bytes of the data area after an allocation. *)
Lemma taken_data out s x i :
  0 <= x < ge_tb g - ge_ds g -> ge_ds g * 4096 <= i ->
  (forall b s1, (forall i, ge_ds g * 4096 <= i -> f_buf s1 i = f_buf s i) ->
     f_buf (out b s1) i = f_buf s i) ->
  i < (ge_ds g + x) * 4096 \/ (ge_ds g + x + 1) * 4096 <= i ->
  f_buf (taken g out s x) i = f_buf s i.
Proof using Hg.
  intros Hx Hi Ho Hb. unfold taken. cbn [f_buf flatfs_mon_alloc with_buf]. rewrite memset_out by lia.
  apply Ho. intros j Hj. cbn [f_buf with_buf with_alloc].
  assert (Hx' : 0 <= x < ge_ng g * 2048) by (destruct Hg; lia).
  pose proof (gaddr_low g Hg _ (slot_group g x Hx')). apply slot_upd_other; [done|done|destruct Hg; lia|lia..].
Qed.

Lemma taken_used out s x y :
  out_ok g out -> 0 <= x < ge_tb g - ge_ds g -> 0 <= y < ge_tb g - ge_ds g ->
  used g (f_buf (taken g out s x)) y = (y =? x) || used g (f_buf s) y.
Proof using Hg.
  intros Ho Hx Hy. unfold taken. cbn [f_buf flatfs_mon_alloc with_buf].
  set (s1 := with_alloc _ _ _ _ _). destruct (Ho (ge_ds g + x) s1) as (b & -> & Hb & _). cbn [f_buf with_buf].
  rewrite (used_ext g Hg (f_buf s1)); [|destruct Hg; lia|intros i Hi; rewrite memset_out by lia; apply Hb; lia].
  unfold s1. cbn [f_buf with_buf with_alloc]. rewrite slot_upd_used by (done || (destruct Hg; lia)).
  by destruct (y =? x).
Qed.

(** Bytes below the freelist that no allocation touches. *)
Lemma taken_low out s x i :
  out_ok g out -> 0 <= x < ge_tb g - ge_ds g -> 0 <= i < ge_fl g * 4096 -> i < 32 \/ 40 <= i ->
  f_buf (taken g out s x) i = f_buf s i.
Proof using Hg Hit.
  intros Ho Hx Hi Hne. assert (Hd : ge_fl g * 4096 <= ge_ds g * 4096) by (destruct Hg; lia).
  unfold taken. cbn [f_buf flatfs_mon_alloc with_buf].
  set (s1 := with_alloc _ _ _ _ _). destruct (Ho (ge_ds g + x) s1) as (b & -> & Hb & _). cbn [f_buf with_buf].
  rewrite memset_out by lia. rewrite Hb by lia. unfold s1. cbn [f_buf with_buf with_alloc].
  assert (Hx' : 0 <= x < ge_ng g * 2048) by (destruct Hg; lia).
  pose proof (slot_group g x Hx'). apply slot_upd_other; [done|done|lia|unfold gaddr; lia..].
Qed.

Lemma taken_free out s x :
  inv g s -> inv g (taken g out s x) -> out_ok g out -> 0 <= x < ge_tb g - ge_ds g -> used g (f_buf s) x = false ->
  sbget (taken g out s x) sb_free_blocks = sbget s sb_free_blocks - 1.
Proof using Hg Hit.
  intros I I' Ho Hx Hu. unfold sbget. rewrite (mi_free _ _ (ai_meta _ _ I)), (mi_free _ _ (ai_meta _ _ I')).
  rewrite (cnt_upd (used g (f_buf s)) _ x); [|lia|].
  - rewrite Hu, taken_used by done. rewrite Z.eqb_refl. cbn [orb]. lia.
  - intros k Hk Hne. rewrite taken_used by (done || lia). by rewrite (proj2 (Z.eqb_neq _ _) Hne).
Qed.

Lemma taken_tykid out s x : out_ok g out ->
  f_bound (taken g out s x) = f_bound s /\ f_key (taken g out s x) = f_key s.
Proof.
  intros Ho. unfold taken. set (s1 := with_alloc _ _ _ _ _).
  by destruct (Ho (ge_ds g + x) s1) as (b & -> & _).
Qed.

Section Take.
Context (s : fs) (inp : bmem) (sl : slot) (x : Z).
Context (V : vinv s) (F : file_ok (f_buf s) inp) (Hs : slot_ok sl) (He : sval (f_buf s) inp sl = 0).
Context (Hp : forall ps, pslot sl = Some ps -> sval (f_buf s) inp ps <> 0).
Context (Hx : 0 <= x < ge_tb g - ge_ds g) (Hu : used g (f_buf s) x = false).
Context (Hlow : forall k, 0 <= k < x -> used g (f_buf s) k = true).

Abbreviation p := (sparent (f_buf s) inp sl).
Abbreviation out := (slot_out sl p).
Abbreviation b := (ge_ds g + x).

Lemma slot_parent_range : pslot sl <> None -> ge_ds g <= p < ge_tb g /\ p <> b /\ 0 <= sindex sl < 512.
Proof using Hg Hit F Hs Hp Hu Hx.
  destruct (pslot sl) as [ps|] eqn:E; [intros _|done].
  destruct (pslot_ok _ _ Hs E) as [Hps Hj].
  assert (Hp0 : p <> 0) by (rewrite (pslot_parent _ _ _ _ E); by apply Hp).
  destruct (parent_range (f_buf s) inp sl Hs F Hp0) as [Hr Hpu]. split_and!; try lia. intros E'.
  rewrite E' in Hpu. replace (b - ge_ds g) with x in Hpu by lia. congruence.
Qed.

Lemma slot_out_ok : out_ok g out.
Proof using Hg Hit F Hs Hp Hu Hx.
  pose proof slot_parent_range as Hr. unfold slot_out. destruct (pslot sl); [|apply out_ok_local].
  apply out_ok_wr. specialize (Hr ltac:(done)). lia.
Qed.

Lemma slot_taken_filled :
  filled (f_buf s) inp (f_buf (taken g out s x)) (slot_inode sl inp b) sl b.
Proof using Hg Hit F Hs He Hp Hx Hu.
  pose proof slot_parent_range as Hr. constructor; try done.
  - lia.
  - by replace (b - ge_ds g) with x by lia.
  - intros i Hi. unfold taken. cbn [f_buf flatfs_mon_alloc with_buf]. apply memset_in. lia.
  - intros i Hi Hb Hent. apply taken_data; [done|done| |lia]. intros b' s1 Hs1. unfold slot_out.
    destruct (pslot sl) as [ps|]; [|by apply Hs1]. cbn [f_buf with_buf].
    rewrite wr_out; [by apply Hs1|]. specialize (Hent ltac:(done)). cbn. lia.
  - intros ps E. specialize (Hr ltac:(by rewrite E)). unfold taken, slot_out. rewrite E.
    cbn [f_buf flatfs_mon_alloc with_buf]. rewrite rd_memset_other by (cbn; lia).
    apply rd_wr_small. destruct Hg; cbn; lia.
  - intros k ->. cbn [slot_inode]. cbn in Hs. rewrite sroot_add_blocks by lia. unfold sroot, fget, fset.
    apply rd_wr_small. destruct Hg; cbn; lia.
  - intros k Hk Hne. destruct sl as [k'|?|?|? ?]; cbn [slot_inode]; rewrite sroot_add_blocks by lia; try done.
    assert (k <> k') by congruence. unfold sroot, fget, fset, i_blk_ptr. cbn [f_off f_width].
    apply rd_wr_other. cbn. lia.
  - intros y Hy. rewrite taken_used by (done || apply slot_out_ok). f_equal. destruct (Z.eqb_spec y x), (Z.eqb_spec y (b - ge_ds g)); (done || lia).
  - apply slot_inode_bytes, (fo_bytes _ _ F).
Qed.

Lemma slot_taken_grown : grown 1 s inp (taken g out s x) (slot_inode sl inp b).
Proof using All.
  pose proof slot_out_ok as Ho. pose proof slot_taken_filled as L. destruct Hit as (H1 & H2 & H3).
  assert (I' : inv g (taken g out s x)) by (apply taken_inv; (done || apply V)).
  assert (Hfl : 4096 <= ge_fl g * 4096) by lia.
  constructor.
  - constructor; [done|..].
    + rewrite <- (vi_its _ V). apply fget_ext. cbn [f_off f_width sb_inode_table_start]. intros i Hi.
      apply taken_low; (done || lia).
    + rewrite <- (vi_ti _ V). apply fget_ext. cbn [f_off f_width sb_total_inodes]. intros i Hi.
      apply taken_low; (done || lia).
  - by apply (filled_file_ok _ _ _ _ _ _ F L).
  - intros sl' Hs' Hne. rewrite (filled_sval _ _ _ _ _ _ F L) by done. case_bool_decide; [congruence|done].
  - intros l i Hl Hi. by apply (filled_fdata _ _ _ _ _ _ F L).
  - intros i Hi. by apply slot_inode_other.
  - intros i Hi. apply taken_low; (done || lia).
  - intros inp2 F2 Ha. by apply (filled_other _ _ _ _ _ _ F L).
  - rewrite taken_free; (done || (apply V || lia)).
  - by apply taken_tykid.
Qed.
End Take.

(** ** [map_block] *)

(** The result of making sure that slot [sl] is filled. *)
Definition ensured (n : Z) (s : fs) (inp : bmem) (sl : slot) (r : (flatfs_err + Z) * bmem * fs) : Prop :=
  exists inp' s', grown n s inp s' inp' /\
    ((r = (inr (sval (f_buf s') inp' sl), inp', s') /\ sval (f_buf s') inp' sl <> 0) \/
     (r = (inl FLATFS_ERR_NOSPACE, inp', s') /\ sbget s sb_free_blocks < n)).

Lemma sval_filled s inp sl x :
  vinv s -> file_ok (f_buf s) inp -> slot_ok sl -> sval (f_buf s) inp sl = 0 ->
  (forall ps, pslot sl = Some ps -> sval (f_buf s) inp ps <> 0) ->
  0 <= x < ge_tb g - ge_ds g -> used g (f_buf s) x = false ->
  sval (f_buf (taken g (slot_out sl (sparent (f_buf s) inp sl)) s x)) (slot_inode sl inp (ge_ds g + x)) sl = ge_ds g + x.
Proof using All.
  intros V F Hs He Hp Hx Hu. pose proof (slot_taken_filled s inp sl x F Hs He Hp Hx Hu) as L.
  rewrite (filled_sval _ _ _ _ _ _ F L) by done. by rewrite bool_decide_eq_true_2.
Qed.

Lemma ensure_root s inp k :
  vinv s -> file_ok (f_buf s) inp -> 0 <= k < 12 -> ensured 1 s inp (SR k) (ensure_inode_ptr s inp k true).
Proof using All.
  intros V F Hk. unfold ensure_inode_ptr. fold (sroot inp k).
  destruct (Z.eqb_spec (sroot inp k) 0) as [E|E]; cbn [negb].
  2:{ exists inp, s. split; [apply grown_weaken with 0; [lia|by apply grown_refl]|]. by left. }
  destruct (alloc_block_spec g Hg to_local s (vi_inv _ V) (out_ok_local g)) as [Hz Hnz].
  destruct (Z.eq_dec (sbget s sb_free_blocks) 0) as [Ef|Ef].
  - rewrite (Hz Ef). exists inp, s. split; [apply grown_weaken with 0; [lia|by apply grown_refl]|]. right. split; [done|lia].
  - destruct (Hnz Ef) as (x & Hx & Hu & Hl & -> & _).
    assert (Hp : forall ps, pslot (SR k) = Some ps -> sval (f_buf s) inp ps <> 0) by done.
    exists (slot_inode (SR k) inp (ge_ds g + x)), (taken g to_local s x).
    split; [by apply (slot_taken_grown s inp (SR k) x)|]. left.
    pose proof (sval_filled s inp (SR k) x V F Hk E Hp Hx Hu) as Ev. unfold slot_out in Ev. cbn [pslot] in Ev.
    rewrite Ev. split; [done|]. destruct Hg; lia.
Qed.

Lemma ensure_entry s inp sl ps :
  vinv s -> file_ok (f_buf s) inp -> slot_ok sl -> pslot sl = Some ps -> sval (f_buf s) inp ps <> 0 ->
  ensured 1 s inp sl (ensure_block_ptr s inp (sval (f_buf s) inp ps) (sindex sl) true).
Proof using All.
  intros V F Hs Eps Hne. destruct (pslot_ok _ _ Hs Eps) as [Hpok Hj].
  destruct (fo_range _ _ F ps Hpok Hne) as [Hr _].
  assert (Hroot : forall k, sl <> SR k) by (intros k ->; discriminate Eps).
  assert (Hp : forall ps', pslot sl = Some ps' -> sval (f_buf s) inp ps' <> 0) by (intros ps'; rewrite Eps; by intros [= <-]).
  unfold ensure_block_ptr. rewrite blk_ptr_eq by (destruct Hg; lia).
  pose proof (sval_entry (f_buf s) inp sl Hroot) as Ev. rewrite (pslot_parent _ _ _ _ Eps) in Ev.
  unfold sent in Ev. rewrite (proj2 (Z.eqb_neq _ _) Hne) in Ev. rewrite <- Ev.
  destruct (Z.eqb_spec (sval (f_buf s) inp sl) 0) as [E|E]; cbn [negb].
  2:{ exists inp, s. split; [apply grown_weaken with 0; [lia|by apply grown_refl]|]. by left. }
  assert (Eo : slot_out sl (sparent (f_buf s) inp sl)
               = fun blk s0 => with_buf s0 (wr 8 (f_buf s0) (sval (f_buf s) inp ps * 4096 + 8 * sindex sl) blk)).
  { unfold slot_out. by rewrite Eps, (pslot_parent _ _ _ _ Eps). }
  rewrite <- Eo.
  destruct (Z.eq_dec (sbget s sb_free_blocks) 0) as [Ef|Ef].
  - unfold flatfs_alloc_block. rewrite (proj2 (Z.eqb_eq _ _) Ef). exists inp, s.
    split; [apply grown_weaken with 0; [lia|by apply grown_refl]|]. right. split; [done|lia].
  - assert (Ho : out_ok g (slot_out sl (sparent (f_buf s) inp sl))) by (rewrite Eo; apply out_ok_wr; lia).
    destruct (alloc_block_spec g Hg _ s (vi_inv _ V) Ho) as [_ Hnz].
    destruct (Hnz Ef) as (x & Hx & Hu & Hl & -> & _).
    exists (slot_inode sl inp (ge_ds g + x)), (taken g (slot_out sl (sparent (f_buf s) inp sl)) s x).
    split; [by apply (slot_taken_grown s inp sl x)|]. left.
    rewrite (sval_filled s inp sl x V F Hs E Hp Hx Hu).
    pose proof (slot_taken_filled s inp sl x F Hs E Hp Hx Hu) as L.
    pose proof (fl_entry _ _ _ _ _ _ L ps Eps) as Er. rewrite (pslot_parent _ _ _ _ Eps) in Er. 
    rewrite (pslot_parent (f_buf s) inp sl ps Eps) in *. rewrite Er.
    split; [|destruct Hg; lia]. destruct sl; [by destruct (Hroot k)|done..].
Qed.

(** Without allocation, [map_block] is a lookup. *)
Lemma map_block_lookup s inp l :
  file_ok (f_buf s) inp -> 0 <= l < LMAX ->
  map_block s inp l false = (inr (sval (f_buf s) inp (slot_of l)), inp, s).
Proof using Hg.
  intros F Hl.
  assert (HI : forall k, ensure_inode_ptr s inp k false = (inr (sroot inp k), inp, s)).
  { intros k. unfold ensure_inode_ptr. fold (sroot inp k). by destruct (Z.eqb_spec (sroot inp k) 0) as [->|]. }
  assert (HB : forall ps j, slot_ok ps -> sval (f_buf s) inp ps <> 0 ->
    ensure_block_ptr s inp (sval (f_buf s) inp ps) j false = (inr (sent (f_buf s) (sval (f_buf s) inp ps) j), inp, s)).
  { intros ps j Hps Hne. destruct (fo_range _ _ F ps Hps Hne) as [Hr _]. unfold ensure_block_ptr, sent.
    rewrite blk_ptr_eq by (destruct Hg; lia). rewrite (proj2 (Z.eqb_neq _ _) Hne).
    by destruct (Z.eqb_spec (rd 8 (f_buf s) (sval (f_buf s) inp ps * 4096 + 8 * j)) 0) as [->|]. }
  unfold map_block, slot_of, DIRECT_MAX, INDIRECT_IDX, DBLIND_IDX. change PTRS_PER_BLK with 512.
  destruct (Z.ltb_spec l 10); [apply HI|].
  destruct (Z.ltb_spec (l - 10) 512), (Z.ltb_spec l 522); try lia.
  - rewrite HI. cbn [negb andb]. destruct (Z.eqb_spec (sroot inp 10) 0) as [E|E].
    + cbn [sval sparent sindex]. unfold sent. by rewrite E.
    + apply (HB (SR 10)); [cbn; lia|done].
  - unfold LMAX in Hl. rewrite (proj2 (Z.ltb_lt _ _)) by lia. rewrite HI. cbn [negb andb].
    set (i := (l - 522) / 512). set (j := (l - 522) mod 512).
    replace (l - 10 - 512) with (l - 522) by lia. fold i j.
    assert (Hi : 0 <= i < 512) by (unfold i; zlia). clearbody i j.
    destruct (Z.eqb_spec (sroot inp 11) 0) as [E|E].
    + cbn [sval sparent sindex]. unfold sent. by rewrite E.
    + pose proof (HB (SR 11) i ltac:(cbn; lia) E) as EB. cbn [sval] in EB. rewrite EB.
      destruct (Z.eqb_spec (sent (f_buf s) (sroot inp 11) i) 0) as [E'|E'].
      * cbn [sval sparent sindex]. rewrite E'. done.
      * apply (HB (SD i)); done.
Qed.

Lemma ensured_trans n1 n2 s inp s1 inp1 sl r :
  grown n1 s inp s1 inp1 -> ensured n2 s1 inp1 sl r -> ensured (n1 + n2) s inp sl r.
Proof.
  intros G (inp' & s' & G' & H). exists inp', s'. split; [by eapply grown_trans|].
  destruct H as [H|[H Hf]]; [by left|]. right. split; [done|]. pose proof (gr_free _ _ _ _ _ G). lia.
Qed.

(** With allocation, it fills the slot of [l] using at most three fresh
    blocks, and fails only when fewer were free. *)
Lemma map_block_alloc s inp l :
  vinv s -> file_ok (f_buf s) inp -> 0 <= l < LMAX -> ensured 3 s inp (slot_of l) (map_block s inp l true).
Proof using All.
  intros V F Hl.
  assert (W : forall n sl r, n <= 3 -> ensured n s inp sl r -> ensured 3 s inp sl r).
  { intros n sl r Hn (inp' & s' & G & H). exists inp', s'. split; [by eapply grown_weaken|].
    destruct H as [H|[H Hf]]; [by left|right; split; [done|lia]]. }
  unfold map_block, slot_of, DIRECT_MAX, INDIRECT_IDX, DBLIND_IDX. change PTRS_PER_BLK with 512.
  destruct (Z.ltb_spec l 10); [apply (W 1); [lia|apply ensure_root; (done || lia)]|].
  destruct (Z.ltb_spec (l - 10) 512), (Z.ltb_spec l 522); try lia.
  - destruct (ensure_root s inp 10 V F ltac:(lia)) as (i1 & s1 & G1 & [[-> Hne]|[-> Hf]]).
    + cbn [negb andb]. apply (W (1 + 1)); [lia|]. apply (ensured_trans _ _ _ _ _ _ _ _ G1).
      apply (ensure_entry s1 i1 (SI (l - 10)) (SR 10)); [apply G1|apply G1|cbn; lia|done|done].
    + apply (W 1); [lia|]. exists i1, s1. split; [done|]. by right.
  - unfold LMAX in Hl. rewrite (proj2 (Z.ltb_lt _ _)) by lia. replace (l - 10 - 512) with (l - 522) by lia.
    set (i := (l - 522) / 512). set (j := (l - 522) mod 512).
    assert (Hi : 0 <= i < 512) by (unfold i; zlia). assert (Hj : 0 <= j < 512) by (unfold j; zlia). clearbody i j.
    destruct (ensure_root s inp 11 V F ltac:(lia)) as (i1 & s1 & G1 & [[-> Hne]|[-> Hf]]).
    2:{ apply (W 1); [lia|]. exists i1, s1. split; [done|]. by right. }
    cbn [negb andb].
    destruct (ensure_entry s1 i1 (SD i) (SR 11) (gr_inv _ _ _ _ _ G1) (gr_ok _ _ _ _ _ G1) Hi eq_refl Hne)
      as (i2 & s2 & G2 & [[E2 Hne2]|[E2 Hf2]]); cbn [sindex] in E2; rewrite E2.
    + pose proof (grown_trans _ _ _ _ _ _ _ _ G1 G2) as G12.
      apply (W (1 + 1 + 1)); [lia|]. apply (ensured_trans _ _ _ _ _ _ _ _ G12).
      apply (ensure_entry s2 i2 (SDI i j) (SD i)); [apply G2|apply G2|done|done|done].
    + apply (W (1 + 1)); [lia|]. apply (ensured_trans _ _ _ _ _ _ _ _ G1).
      exists i2, s2. split; [done|]. by right.
Qed.

End File.
