(* ===== verification/FlatIO.v ===== *)
(** * FlatFS files: reading and writing

    [flatfs_file_pread] and [flatfs_file_pwrite] on files that are neither
    inline nor checksummed, against the file as an array of bytes. *)

From stdpp Require Import base list.
From Stdlib Require Import ZArith Lia.
From S2P Require Import Prelude TyCrypto FlatCrc FlatFs FlatAlloc FlatFile.

#[local] Opaque flatfs_crc32 ty_siphash24.

Section IO.
Context (g : geom) (Hg : geom_ok g).
Context (its ti : Z) (Hit : 2 <= its /\ 0 < ti /\ its * 16 + ti <= ge_fl g * 16).

Abbreviation VI := (vinv g its ti).
Abbreviation FO := (file_ok g).

(** ** Stores that leave the metadata alone *)

Lemma vinv_ext s s' :
  VI s -> bytes_ok (f_buf s') ->
  (forall i, 0 <= i < ge_ds g * 4096 -> its * 4096 <= i < ge_fl g * 4096 \/ f_buf s' i = f_buf s i) ->
  f_ngroups s' = f_ngroups s -> f_group_hint s' = f_group_hint s -> VI s'.
Proof using Hg Hit.
  intros [I Hi1 Hi2] Hb Hm Hn Hh. destruct Hit as (J1 & J2 & J3).
  assert (Hlow : forall i, 0 <= i < 4096 -> f_buf s' i = f_buf s i).
  { intros i Hi. destruct (Hm i); [destruct Hg; lia|lia|done]. }
  assert (Hgr : forall i, ge_fl g * 4096 <= i < ge_ds g * 4096 -> f_buf s' i = f_buf s i).
  { intros i Hi. destruct (Hm i); [destruct Hg; lia|lia|done]. }
  assert (Hu : forall k, 0 <= k < ge_ng g * 2048 -> used g (f_buf s') k = used g (f_buf s) k) by (intros; by apply used_groups).
  destruct I as [[B M1 M2 M3 M4 M5 M6] N1 N2 N3].
  assert (Hsb : forall f, 0 <= f_off f -> f_off f + Z.of_nat (f_width f) <= 4096 -> fget (f_buf s') 0 f = fget (f_buf s) 0 f).
  { intros f F1 F2. apply fget_ext. intros i Hi. apply Hlow. lia. }
  assert (Hgf : forall gi f, 0 <= gi < ge_ng g -> 0 <= f_off f -> f_off f + Z.of_nat (f_width f) <= 4096 ->
    fget (f_buf s') (gaddr g gi) f = fget (f_buf s) (gaddr g gi) f).
  { intros gi f G F1 F2. pose proof (gaddr_low g Hg gi G). apply fget_ext. intros i Hi. apply Hgr. unfold gaddr in *. lia. }
  constructor; [constructor; [constructor|..]|..]; unfold sbget in *; rewrite ?Hsb by (cbn; lia); try done.
  - intros gi G. rewrite Hgf by (cbn; lia). by apply M4.
  - intros gi G. rewrite Hgf by (cbn; lia). rewrite M5 by done. apply cnt_ext. intros k Hk. symmetry. apply Hu. lia.
  - rewrite M6. apply cnt_ext. intros k Hk. symmetry. apply Hu. destruct Hg; lia.
  - congruence.
  - congruence.
  - intros k Hk. rewrite Hh in Hk. rewrite Hu by (destruct Hg; lia). by apply N3.
Qed.

(** Everything [grown] promises except that the file is unchanged: the
    file now holds the bytes [fb]. *)
Record evolved (n : Z) (s : fs) (inp : bmem) (s' : fs) (inp' : bmem) (fb : Z -> Z -> Z) : Prop := {
  ev_inv : VI s';
  ev_ok : FO (f_buf s') inp';
  ev_data : forall l i, 0 <= l < LMAX -> 0 <= i < 4096 -> fdata (f_buf s') inp' l i = fb l i;
  ev_inode : forall i, i < 24 \/ 32 <= i < 72 \/ 168 <= i -> inp' i = inp i;
  ev_itab : forall i, its * 4096 <= i < ge_fl g * 4096 -> f_buf s' i = f_buf s i;
  ev_other : forall inp2, FO (f_buf s) inp2 -> apart (f_buf s) inp inp2 ->
    fsame (f_buf s) (f_buf s') inp2 /\ FO (f_buf s') inp2 /\ apart (f_buf s') inp' inp2;
  ev_free : sbget s sb_free_blocks - n <= sbget s' sb_free_blocks }.

Lemma grown_evolved n s inp s' inp' :
  grown g its ti n s inp s' inp' -> evolved n s inp s' inp' (fdata (f_buf s) inp).
Proof. intros [A1 A2 A3 A4 A5 A6 A7 A8 A9]. by constructor. Qed.

Lemma evolved_trans n1 n2 s1 i1 s2 i2 s3 i3 f1 f2 :
  evolved n1 s1 i1 s2 i2 f1 -> evolved n2 s2 i2 s3 i3 f2 -> evolved (n1 + n2) s1 i1 s3 i3 f2.
Proof.
  intros [A1 A2 A4 A5 A6 A7 A8] [B1 B2 B4 B5 B6 B7 B8]. constructor; try done.
  - intros. by rewrite B5, A5.
  - intros. by rewrite B6, A6.
  - intros inp2 F Ap. destruct (A7 inp2 F Ap) as (S1 & F1 & Ap1). destruct (B7 inp2 F1 Ap1) as (S2 & F2 & Ap2).
    split_and!; [by eapply fsame_trans|done|done].
  - lia.
Qed.

Lemma evolved_weaken n n' s i s' i' f : n <= n' -> evolved n s i s' i' f -> evolved n' s i s' i' f.
Proof. intros Hn [A1 A2 A4 A5 A6 A7 A8]. constructor; try done. lia. Qed.

Lemma evolved_ext n s i s' i' f f' :
  (forall l j, 0 <= l < LMAX -> 0 <= j < 4096 -> f l j = f' l j) -> evolved n s i s' i' f -> evolved n s i s' i' f'.
Proof. intros Hf [A1 A2 A4 A5 A6 A7 A8]. constructor; try done. intros. rewrite A4 by done. by apply Hf. Qed.

(** ** One block *)

(** Overwriting the data block of [l] with [d]. *)
Lemma data_store s inp l d :
  VI s -> FO (f_buf s) inp -> 0 <= l < LMAX -> bytes_ok d -> sval (f_buf s) inp (slot_of l) <> 0 ->
  let p := sval (f_buf s) inp (slot_of l) in
  evolved 0 s inp (with_buf s (memcpy (f_buf s) (p * 4096) d 0 4096)) inp
    (fun l' i => if l' =? l then d i else fdata (f_buf s) inp l' i).
Proof using Hg Hit.
  intros V F Hl Hd Hne p. pose proof (slot_of_ok l Hl) as Hs. destruct (fo_range _ _ _ F _ Hs Hne) as [Hr _]. fold p in Hr.
  set (m' := memcpy (f_buf s) (p * 4096) d 0 4096).
  assert (Hout : forall i, i < p * 4096 \/ p * 4096 + 4096 <= i -> m' i = f_buf s i) by (intros; by apply memcpy_out).
  assert (Hsv : forall sl, slot_ok sl -> sval m' inp sl = sval (f_buf s) inp sl).
  { apply sval_blocks. intros psl i Hps Hpt Hq Hi. apply Hout.
    destruct (Z.eq_dec (sval (f_buf s) inp psl) p) as [E|]; [|lia].
    assert (psl = slot_of l) as -> by (by apply (fo_inj _ _ _ F)). by rewrite slot_of_leaf in Hpt. }
  assert (Hu : forall x, 0 <= x < ge_tb g - ge_ds g -> used g m' x = used g (f_buf s) x).
  { intros x Hx. apply (used_ext g Hg); [destruct Hg; lia|]. intros i Hi. apply Hout. lia. }
  destruct Hit as (J1 & J2 & J3).
  constructor; cbn [f_buf with_buf]; fold m'.
  - apply vinv_ext with s; cbn [f_buf with_buf f_ngroups f_group_hint]; try done.
    + apply bytes_ok_memcpy; [done|]. apply (mi_bytes _ _ (ai_meta _ _ (vi_inv _ _ _ _ V))).
    + intros i Hi. right. apply Hout. lia.
  - destruct F as [F1 F2 F3]. constructor; [done|..].
    + intros sl Hsl. rewrite Hsv by done. intros Hn. destruct (F2 sl Hsl Hn). split; [done|]. by rewrite Hu by lia.
    + intros sl sl' H1 H2. rewrite !Hsv by done. by apply F3.
  - intros l' i Hl' Hi. unfold fdata. pose proof (slot_of_ok l' Hl') as Hs'. rewrite Hsv by done.
    destruct (Z.eqb_spec l' l) as [->|Hll].
    + fold p. rewrite (proj2 (Z.eqb_neq p 0) Hne). unfold m'. rewrite memcpy_in by lia. f_equal. lia.
    + destruct (Z.eqb_spec (sval (f_buf s) inp (slot_of l')) 0) as [|Hn']; [done|]. apply Hout.
      destruct (Z.eq_dec (sval (f_buf s) inp (slot_of l')) p) as [E|]; [|lia].
      exfalso. apply Hll. apply slot_of_inj; [done|done|]. by apply (fo_inj _ _ _ F).
  - done.
  - intros i Hi. apply Hout. destruct Hg; lia.
  - intros inp2 F2 Ap.
    assert (S : fsame (f_buf s) m' inp2).
    { apply fsame_blocks. intros sl2 i Hs2 Hn2 Hi. apply Hout.
      pose proof (Ap (slot_of l) sl2 Hs Hs2 Hne). fold p in H. lia. }
    split; [done|]. split.
    + apply (file_ok_same g (f_buf s)); [done| |done]. intros x Hx Hux. by rewrite Hu.
    + intros sl sl2 H1 H2. rewrite Hsv, (proj1 S) by done. by apply Ap.
  - unfold sbget. cbn [f_buf with_buf]. fold m'. rewrite (fget_ext (f_buf s) m'); [lia|].
    cbn [f_off f_width sb_free_blocks]. intros i Hi. apply Hout. destruct Hg; lia.
Qed.

(** [flatfs_file_read_blk] on an unchecked file. *)
Lemma read_blk_spec s inp l :
  FO (f_buf s) inp -> bytes_ok (f_buf s) -> 0 <= l < LMAX -> has_crc inp = false ->
  exists blk, flatfs_file_read_blk s inp l = (inr blk, s) /\ bytes_ok blk /\
    forall i, 0 <= i < 4096 -> blk i = fdata (f_buf s) inp l i.
Proof using Hg.
  intros F Hb Hl Hc. unfold flatfs_file_read_blk. rewrite (map_block_lookup g Hg) by done.
  unfold fdata. destruct (Z.eqb_spec (sval (f_buf s) inp (slot_of l)) 0) as [E|E].
  { exists (fun _ => 0). split_and!; [done| |done]. intros i. lia. }
  rewrite Hc. eexists. split; [reflexivity|]. split; [intros i; apply Hb|]. intros i Hi.
  destruct (fo_range _ _ _ F _ (slot_of_ok l Hl) E) as [Hr _]. rewrite blk_ptr_eq by (destruct Hg; lia). done.
Qed.

Lemma has_crc_ext inp inp' : (forall i, 64 <= i < 68 -> inp' i = inp i) -> has_crc inp' = has_crc inp.
Proof.
  intros H. unfold has_crc. do 3 f_equal. apply fget_ext. cbn [f_off f_width i_flags]. intros i Hi. apply H. lia.
Qed.

(** [flatfs_file_write_blk] on an unchecked file. *)
Lemma write_blk_spec s inp l d :
  VI s -> FO (f_buf s) inp -> 0 <= l < LMAX -> has_crc inp = false -> bytes_ok d ->
  exists s' inp',
    (flatfs_file_write_blk s inp l d = (FLATFS_OK, inp', s') /\
     evolved 3 s inp s' inp' (fun l' i => if l' =? l then d i else fdata (f_buf s) inp l' i)) \/
    (flatfs_file_write_blk s inp l d = (FLATFS_ERR_NOSPACE, inp', s') /\ sbget s sb_free_blocks < 3 /\
     evolved 3 s inp s' inp' (fdata (f_buf s) inp)).
Proof using Hg Hit.
  intros V F Hl Hc Hd. unfold flatfs_file_write_blk.
  destruct (map_block_alloc g Hg its ti Hit s inp l V F Hl) as (inp' & s' & G & [[-> Hne]|[-> Hf]]).
  - assert (Hc' : has_crc inp' = false).
    { rewrite <- Hc. apply has_crc_ext. intros i Hi. apply (gr_inode _ _ _ _ _ _ _ _ G). lia. }
    rewrite Hc'. destruct (fo_range _ _ _ (gr_ok _ _ _ _ _ _ _ _ G) _ (slot_of_ok l Hl) Hne) as [Hr _].
    rewrite blk_ptr_eq by (destruct Hg; lia). unfold FLATFS_BLOCK_SIZE.
    eexists _, _. left. split; [reflexivity|].
    pose proof (data_store s' inp' l d (gr_inv _ _ _ _ _ _ _ _ G) (gr_ok _ _ _ _ _ _ _ _ G) Hl Hd Hne) as E.
    apply (evolved_trans 3 0 _ _ _ _ _ _ _ _ (grown_evolved _ _ _ _ _ G)) in E.
    eapply evolved_ext; [|exact E]. intros l' i Hl' Hi. cbv beta. destruct (l' =? l); [done|].
    by apply (gr_data _ _ _ _ _ _ _ _ G).
  - exists s', inp'. right. split_and!; [done|done|]. by apply grown_evolved.
Qed.

(** ** Positions *)

Lemma io_pos off done len : 0 <= off -> 0 <= done < len -> off + len <= LMAX * 4096 ->
  io_lblk off done = (off + done) / 4096 /\ io_boff off done = (off + done) mod 4096 /\
  io_chunk off done len = Z.min (4096 - (off + done) mod 4096) (len - done) /\
  0 <= io_lblk off done < LMAX.
Proof.
  intros H0 Hd Hm. unfold LMAX in *. unfold io_chunk, io_boff, io_lblk, FLATFS_BLOCK_SIZE, FLATFS_BLOCK_SHIFT.
  rewrite u64_small by lia. rewrite Z.shiftr_div_pow2 by lia. change (2 ^ 12) with 4096.
  change (4096 - 1) with (2 ^ 12 - 1). rewrite land_mask by lia. change (2 ^ 12) with 4096.
  split_and!; [done|done| |zlia|zlia].
  destruct (Z.ltb_spec (len - done) (4096 - (off + done) mod 4096)); lia.
Qed.

(** Iterations left after [done] of [len] bytes from [off]. *)
Definition blocks_left (off len done : Z) : Z :=
  if len <=? done then 0 else (off + len - 1) / 4096 - (off + done) / 4096 + 1.

Lemma blocks_left_step off len done : 0 <= off -> 0 <= done < len ->
  let n := Z.min (4096 - (off + done) mod 4096) (len - done) in
  1 <= n /\ done + n <= len /\ blocks_left off len (done + n) = blocks_left off len done - 1.
Proof.
  intros H0 Hd n. unfold blocks_left. rewrite (proj2 (Z.leb_gt len done)) by lia.
  assert (Hb : 0 <= (off + done) mod 4096 < 4096) by (apply Z.mod_pos_bound; lia).
  destruct (Z.leb_spec len (done + n)); unfold n in *; split_and!; zlia.
Qed.

Lemma blocks_left_fuel off len : 0 <= off -> 0 <= len -> 0 <= blocks_left off len 0 <= Z.of_nat (io_fuel len).
Proof.
  intros H0 H1. unfold blocks_left, io_fuel, FLATFS_BLOCK_SIZE. destruct (Z.leb_spec len 0); zlia.
Qed.

Lemma blocks_left_pos off len done : 0 <= off -> 0 <= done < len -> 1 <= blocks_left off len done.
Proof. intros H0 Hd. unfold blocks_left. rewrite (proj2 (Z.leb_gt _ _)) by lia. zlia. Qed.

(** ** The write loop *)

(** [f] with the bytes [a..b) of the request [data] at [off] put in. *)
Definition patch (off : Z) (data : list Z) (a b : Z) (f : Z -> Z -> Z) : Z -> Z -> Z :=
  fun l i => let k := l * 4096 + i in
             if (off + a <=? k) && (k <? off + b) then nth (Z.to_nat (k - off)) data 0 else f l i.

Lemma patch_empty off data a f l i : patch off data a a f l i = f l i.
Proof.
  unfold patch. destruct (Z.leb_spec (off + a) (l * 4096 + i)), (Z.ltb_spec (l * 4096 + i) (off + a)); (done || lia).
Qed.

Lemma patch_patch off data a b c f l i : a <= b <= c ->
  patch off data b c (patch off data a b f) l i = patch off data a c f l i.
Proof.
  intros H. unfold patch. cbv zeta.
  destruct (Z.leb_spec (off + a) (l * 4096 + i)), (Z.ltb_spec (l * 4096 + i) (off + b)),
    (Z.leb_spec (off + b) (l * 4096 + i)), (Z.ltb_spec (l * 4096 + i) (off + c)); cbn [andb]; (done || lia).
Qed.

Lemma evolved_mon n s inp s' inp' fb : evolved n s inp s' inp' fb -> evolved n s inp (flatfs_mon_write s') inp' fb.
Proof using Hg Hit.
  intros [A1 A2 A4 A5 A6 A7 A8]. constructor; try done. apply (vinv_ext s'); try done.
  - apply (mi_bytes _ _ (ai_meta _ _ (vi_inv _ _ _ _ A1))).
  - intros i Hi. by right.
Qed.

Lemma evolved_id s inp : VI s -> FO (f_buf s) inp -> evolved 0 s inp s inp (fdata (f_buf s) inp).
Proof. intros V F. apply grown_evolved, grown_refl; done. Qed.

Section Write.
Context (off : Z) (data : list Z).
Context (Hoff : 0 <= off) (Hmax : off + Z.of_nat (length data) <= LMAX * 4096).
Context (Hdata : Forall (fun b => 0 <= b < 256) data).
Abbreviation len := (Z.of_nat (length data)).

(** The buffer of one iteration: the old block with the piece put in. *)
Lemma piece_bytes blk boff n done :
  bytes_ok blk -> bytes_ok (memput blk boff (take n (drop done data))).
Proof using Hdata.
  intros Hb i. unfold memput. destruct (_ && _); [|apply Hb].
  destruct (nth_in_or_default (Z.to_nat (i - boff)) (take n (drop done data)) 0) as [Hin|E]; [|rewrite E; lia].
  assert (Hp : Forall (fun b => 0 <= b < 256) (take n (drop done data))) by (by apply Forall_take, Forall_drop).
  rewrite Forall_forall in Hp. by apply Hp, list_elem_of_In.
Qed.

Lemma piece_patch f blk done l i :
  0 <= done < len -> 0 <= l < LMAX -> 0 <= i < 4096 ->
  let n := Z.min (4096 - (off + done) mod 4096) (len - done) in
  ((off + done) mod 4096 = 0 /\ n = 4096 \/ forall j, 0 <= j < 4096 -> blk j = f ((off + done) / 4096) j) ->
  (if l =? (off + done) / 4096
   then memput blk ((off + done) mod 4096) (take (Z.to_nat n) (drop (Z.to_nat done) data)) i
   else f l i) = patch off data done (done + n) f l i.
Proof using Hoff.
  intros Hd Hl Hi n Hblk. pose proof (blocks_left_step off len done Hoff Hd) as (Hn1 & Hn2 & _). fold n in Hn1, Hn2.
  set (q := (off + done) / 4096) in *. set (r := (off + done) mod 4096) in *.
  assert (Hqr : off + done = 4096 * q + r) by (unfold q, r; apply Z.div_mod; lia).
  assert (Hr : 0 <= r < 4096) by (unfold r; apply Z.mod_pos_bound; lia).
  assert (Hnr : n <= 4096 - r) by (unfold n; lia). clearbody n q r.
  assert (Hlen : length (take (Z.to_nat n) (drop (Z.to_nat done) data)) = Z.to_nat n)
    by (rewrite length_take, length_drop; lia).
  unfold patch. cbv zeta. destruct (Z.eqb_spec l q) as [->|Hne].
  - destruct (Z.leb_spec (off + done) (q * 4096 + i)), (Z.ltb_spec (q * 4096 + i) (off + (done + n))); cbn [andb].
    + rewrite memput_in by (rewrite Hlen; lia). rewrite nth_firstn, (proj2 (Nat.ltb_lt _ _)), nth_skipn by lia. f_equal. lia.
    + rewrite memput_out by (rewrite Hlen; lia). destruct Hblk as [Hblk|Hblk]; [lia|]. by apply Hblk.
    + rewrite memput_out by (rewrite Hlen; lia). destruct Hblk as [Hblk|Hblk]; [lia|]. by apply Hblk.
    + lia.
  - destruct (Z.leb_spec (off + done) (l * 4096 + i)), (Z.ltb_spec (l * 4096 + i) (off + (done + n))); cbn [andb];
      (done || lia).
Qed.

(** What the loop leaves behind: all of the request, or a prefix of it
    when the volume ran full. *)
Definition loop_left (bl : Z) (s : fs) (inp : bmem) (done : Z) (r : option (flatfs_err * bmem * fs)) : Prop :=
  exists s' inp',
    (r = Some (FLATFS_OK, inp', s') /\ evolved (3 * bl) s inp s' inp' (patch off data done len (fdata (f_buf s) inp))) \/
    (r = Some (FLATFS_ERR_NOSPACE, inp', s') /\ sbget s sb_free_blocks < 3 * bl /\
     exists d, done <= d <= len /\ evolved (3 * bl) s inp s' inp' (patch off data done d (fdata (f_buf s) inp))).

(** One iteration of [pwrite_loop], up to the recursive call. *)
Lemma pwrite_step s inp done :
  VI s -> FO (f_buf s) inp -> has_crc inp = false -> 0 <= done < len ->
  let n := Z.min (4096 - (off + done) mod 4096) (len - done) in
  forall fuel, exists s' inp',
    (pwrite_loop (S fuel) s inp off data done = pwrite_loop fuel (flatfs_mon_write s') inp' off data (done + n) /\
     evolved 3 s inp s' inp' (patch off data done (done + n) (fdata (f_buf s) inp))) \/
    (pwrite_loop (S fuel) s inp off data done = Some (FLATFS_ERR_NOSPACE, inp', s') /\ sbget s sb_free_blocks < 3 /\
     evolved 3 s inp s' inp' (fdata (f_buf s) inp)).
Proof using Hg Hit Hoff Hmax Hdata.
  intros V F Hc Hd n fuel. destruct (io_pos off done len Hoff Hd Hmax) as (El & Eb & En & Hl).
  pose proof (mi_bytes _ _ (ai_meta _ _ (vi_inv _ _ _ _ V))) as Bs.
  cbn [pwrite_loop]. rewrite (proj2 (Z.leb_gt _ _)) by lia. rewrite El in *. rewrite Eb, En. fold n.
  destruct (read_blk_spec s inp _ F Bs Hl Hc) as (blk0 & E0 & B0 & R0).
  assert (Hread : exists blk, (if negb ((off + done) mod 4096 =? 0) || (n <? FLATFS_BLOCK_SIZE)
                   then flatfs_file_read_blk s inp ((off + done) / 4096) else (inr (fun _ => 0), s)) = (inr blk, s) /\
    bytes_ok blk /\ ((off + done) mod 4096 = 0 /\ n = 4096 \/
                     forall j, 0 <= j < 4096 -> blk j = fdata (f_buf s) inp ((off + done) / 4096) j)).
  { unfold FLATFS_BLOCK_SIZE. destruct (Z.eqb_spec ((off + done) mod 4096) 0) as [Ez|Ez]; cbn [negb orb].
    - destruct (Z.ltb_spec n 4096) as [Hn|Hn].
      + exists blk0. split_and!; [done|done|]. by right.
      + exists (fun _ => 0). split_and!; [done|intros i; lia|]. left. split; [done|]. unfold n in *. lia.
    - exists blk0. split_and!; [done|done|]. by right. }
  destruct Hread as (blk & -> & Bb & Hblk). clear blk0 E0 B0 R0.
  set (d := memput blk ((off + done) mod 4096) (take (Z.to_nat n) (drop (Z.to_nat done) data))).
  destruct (write_blk_spec s inp _ d V F Hl Hc ltac:(by apply piece_bytes)) as (s' & inp' & [[E Ev]|(E & Hf & Ev)]); rewrite E.
  - exists s', inp'. left. split; [done|]. eapply evolved_ext; [|exact Ev]. intros l i Hll Hi. cbv beta.
    by apply piece_patch.
  - exists s', inp'. by right.
Qed.

Lemma pwrite_loop_spec fuel : forall s inp done,
  VI s -> FO (f_buf s) inp -> has_crc inp = false -> 0 <= done <= len ->
  blocks_left off len done <= Z.of_nat fuel ->
  loop_left (blocks_left off len done) s inp done (pwrite_loop fuel s inp off data done).
Proof using Hg Hit Hoff Hmax Hdata.
  induction fuel as [|fuel IH]; intros s inp done V F Hc Hd Hfu.
  all: destruct (Z.eq_dec done len) as [->|Hne].
  1, 3: exists s, inp; left; cbn [pwrite_loop]; rewrite (proj2 (Z.leb_le _ _)) by lia; split; [done|];
    unfold blocks_left; rewrite (proj2 (Z.leb_le _ _)) by lia;
    (eapply evolved_ext; [intros; symmetry; apply patch_empty|by apply evolved_id]).
  { pose proof (blocks_left_pos off len done Hoff ltac:(lia)). lia. }
  destruct (blocks_left_step off len done Hoff ltac:(lia)) as (Hn1 & Hn2 & Hbl).
  destruct (pwrite_step s inp done V F Hc ltac:(lia) fuel) as (s1 & i1 & [[-> E]|(-> & Hf & E)]).
  - apply evolved_mon in E. set (n := Z.min _ _) in *. set (s1' := flatfs_mon_write s1) in *.
    assert (Hc1 : has_crc i1 = false).
    { rewrite <- Hc. apply has_crc_ext. intros i Hi. apply (ev_inode _ _ _ _ _ _ E). lia. }
    destruct (IH s1' i1 (done + n) (ev_inv _ _ _ _ _ _ E) (ev_ok _ _ _ _ _ _ E) Hc1 ltac:(lia) ltac:(lia))
      as (s2 & i2 & [[-> E2]|(-> & Hf2 & d & Hdr & E2)]); rewrite Hbl in *;
      pose proof (evolved_trans _ _ _ _ _ _ _ _ _ _ E E2) as E12;
      replace (3 + 3 * (blocks_left off len done - 1)) with (3 * blocks_left off len done) in E12 by lia.
    + exists s2, i2. left. split; [done|]. eapply evolved_ext; [|exact E12]. intros l i Hl Hi.
      rewrite <- (patch_patch off data done (done + n) len) by lia. unfold patch at 1 2. cbv zeta.
      destruct (_ && _); [done|]. by apply (ev_data _ _ _ _ _ _ E).
    + exists s2, i2. right. split_and!; [done|pose proof (ev_free _ _ _ _ _ _ E); lia|].
      exists d. split; [lia|]. eapply evolved_ext; [|exact E12]. intros l i Hl Hi.
      rewrite <- (patch_patch off data done (done + n) d) by lia. unfold patch at 1 2. cbv zeta.
      destruct (_ && _); [done|]. by apply (ev_data _ _ _ _ _ _ E).
  - pose proof (blocks_left_pos off len done Hoff ltac:(lia)) as Hp.
    exists s1, i1. right. split_and!; [done|lia|]. exists done. split; [lia|].
    apply evolved_weaken with 3; [lia|]. eapply evolved_ext; [intros; symmetry; apply patch_empty|done].
Qed.
End Write.

(** ** The read loop *)

Lemma map_seq_shift {A} (f : nat -> A) a n : map f (seq a n) = map (fun i => f (a + i)%nat) (seq 0 n).
Proof.
  revert f a. induction n as [|n IH]; intros f a; [done|]. cbn [seq map]. rewrite Nat.add_0_r. f_equal.
  rewrite (IH f (S a)), (IH (fun i => f (a + i)%nat) 1%nat). apply map_ext. intros i. f_equal. lia.
Qed.

Lemma pread_loop_spec inp off len : 0 <= off -> off + len <= LMAX * 4096 -> has_crc inp = false ->
  forall fuel s done acc,
  FO (f_buf s) inp -> bytes_ok (f_buf s) -> 0 <= done <= len -> blocks_left off len done <= Z.of_nat fuel ->
  exists s', f_buf s' = f_buf s /\
    pread_loop fuel s inp off len done acc
    = Some (inr (acc ++ map (fun i => fbyte (f_buf s) inp (off + done + Z.of_nat i)) (seq 0 (Z.to_nat (len - done)))), s').
Proof using Hg.
  intros Hoff Hmax Hc fuel. induction fuel as [|fuel IH]; intros s done acc F Bs Hd Hfu.
  all: destruct (Z.eq_dec done len) as [->|Hne].
  1, 3: exists s; split; [done|]; cbn [pread_loop]; rewrite (proj2 (Z.leb_le _ _)) by lia; rewrite Z.sub_diag; cbn;
    by rewrite app_nil_r.
  { pose proof (blocks_left_pos off len done Hoff ltac:(lia)). lia. }
  destruct (io_pos off done len Hoff ltac:(lia) Hmax) as (El & Eb & En & Hl).
  destruct (blocks_left_step off len done Hoff ltac:(lia)) as (Hn1 & Hn2 & Hbl).
  cbn [pread_loop]. rewrite (proj2 (Z.leb_gt _ _)) by lia. rewrite El in *. rewrite Eb, En.
  destruct (read_blk_spec s inp _ F Bs Hl Hc) as (blk & -> & Bb & Hblk).
  set (n := Z.min _ _) in *. assert (Hnb : n <= 4096 - (off + done) mod 4096) by (unfold n; lia). clearbody n.
  destruct (IH (flatfs_mon_read s) (done + n) (acc ++ bytes_of blk ((off + done) mod 4096) (Z.to_nat n)) F Bs
    ltac:(lia) ltac:(lia)) as (s' & Hs' & ->). exists s'. split; [done|]. do 3 f_equal.
  rewrite <- app_assoc. f_equal. cbn [f_buf flatfs_mon_read].
  replace (Z.to_nat (len - done)) with (Z.to_nat n + Z.to_nat (len - (done + n)))%nat by lia.
  rewrite seq_app, map_app. f_equal.
  - unfold bytes_of. apply map_ext_in. intros i Hi%in_seq. unfold fbyte.
    assert (Hr : 0 <= (off + done) mod 4096 < 4096) by (apply Z.mod_pos_bound; lia).
    assert ((off + done + Z.of_nat i) / 4096 = (off + done) / 4096 /\
            (off + done + Z.of_nat i) mod 4096 = (off + done) mod 4096 + Z.of_nat i) as [-> ->].
    { clear - Hi Hnb Hr Hn1. pose proof (Z.div_mod (off + done) 4096 ltac:(lia)) as E.
      split; symmetry; [apply Z.div_unique with ((off + done) mod 4096 + Z.of_nat i)
                       |apply Z.mod_unique with ((off + done) / 4096)]; lia. }
    apply Hblk. lia.
  - rewrite Nat.add_0_l, (map_seq_shift _ (Z.to_nat n)). apply map_ext. intros i. f_equal. lia.
Qed.

(** ** The inode table *)

Lemma inode_addr s ino : VI s -> 0 < ino < ti ->
  inode_ptr s ino = its * 4096 + ino * 256 /\ its * 4096 + ino * 256 + 256 <= ge_fl g * 4096.
Proof using Hg Hit.
  intros V Hi. destruct Hit as (J1 & J2 & J3). unfold inode_ptr. rewrite (vi_its _ _ _ _ V).
  change FLATFS_INODES_PER_BLK with 16. unfold FLATFS_INODE_SIZE.
  assert (Hq : ino = 16 * (ino / 16) + ino mod 16) by (apply Z.div_mod; lia).
  assert (Hm : 0 <= ino mod 16 < 16) by (apply Z.mod_pos_bound; lia).
  assert (ge_fl g < 2 ^ 42) by (destruct Hg; lia).
  rewrite u64_small by lia. rewrite blk_ptr_eq by lia. lia.
Qed.

(** The inode as it is stored: its checksum filled in. *)
Definition stamped (inp : bmem) : bmem :=
  let tmp := fset inp 0 i_crc32 0 in fset tmp 0 i_crc32 (flatfs_crc32 tmp 0 256).

Lemma stamped_other inp i : i < 248 \/ 252 <= i -> stamped inp i = inp i.
Proof.
  intros Hi. unfold stamped, fset, i_crc32. cbn [f_off f_width]. by rewrite !wr_out by (cbn; lia).
Qed.

Lemma stamped_bytes inp : bytes_ok inp -> bytes_ok (stamped inp).
Proof. intros. unfold stamped, fset. auto with kobalt. Qed.

(** The store of [flatfs_inode_write]. *)
Definition stored (s : fs) (inp : bmem) : fs :=
  with_buf s (memcpy (f_buf s) (its * 4096 + fget inp 0 i_ino * 256) (stamped inp) 0 256).

Lemma inode_write_spec s inp :
  VI s -> bytes_ok inp -> 0 < fget inp 0 i_ino < ti ->
  flatfs_inode_write s inp = (FLATFS_OK, stored s inp) /\ VI (stored s inp) /\
  (forall i, i < its * 4096 \/ ge_fl g * 4096 <= i -> f_buf (stored s inp) i = f_buf s i).
Proof using Hg Hit.
  intros V Hb Hi. destruct (inode_addr s _ V Hi) as [Ea Hfit]. destruct Hit as (J1 & J2 & J3).
  assert (Hout : forall i, i < its * 4096 \/ ge_fl g * 4096 <= i -> f_buf (stored s inp) i = f_buf s i).
  { intros i Hi'. unfold stored. cbn [f_buf with_buf]. apply memcpy_out. lia. }
  split; [|split; [|done]].
  - unfold flatfs_inode_write. rewrite (vi_ti _ _ _ _ V).
    rewrite (proj2 (Z.eqb_neq _ _)), (proj2 (Z.leb_gt _ _)) by lia. cbn [orb]. by rewrite Ea.
  - apply vinv_ext with s; [done| | |done|done].
    + unfold stored. cbn [f_buf with_buf]. apply bytes_ok_memcpy; [by apply stamped_bytes|].
      apply (mi_bytes _ _ (ai_meta _ _ (vi_inv _ _ _ _ V))).
    + intros i Hi'. destruct (Z.lt_ge_cases i (its * 4096)); [right; apply Hout; lia|].
      destruct (Z.lt_ge_cases i (ge_fl g * 4096)); [left; lia|right; apply Hout; lia].
Qed.

(** Bytes of the table that belong to other inodes. *)
Lemma stored_other s inp ino i : 0 < fget inp 0 i_ino -> ino <> fget inp 0 i_ino -> 0 <= i < 256 ->
  f_buf (stored s inp) (its * 4096 + ino * 256 + i) = f_buf s (its * 4096 + ino * 256 + i).
Proof. intros Hp Hne Hi. unfold stored. cbn [f_buf with_buf]. apply memcpy_out. lia. Qed.

(** The verdict of [flatfs_inode_read] in terms of the 256 bytes copied. *)
Definition inode_verdict (m : bmem) : flatfs_err :=
  if fget m 0 i_magic =? 0 then FLATFS_ERR_NOTFOUND else
  if negb (fget m 0 i_magic =? FLATFS_INODE_MAGIC) then FLATFS_ERR_CORRUPT else
  if flatfs_crc32 (fset m 0 i_crc32 0) 0 256 =? fget m 0 i_crc32 then FLATFS_OK else FLATFS_ERR_CRC.

Lemma wr_self n m a i : bytes_ok m -> wr n m a (rd n m a) i = m i.
Proof.
  intros Hb. unfold wr. destruct (Z.leb_spec a i), (Z.ltb_spec i (a + Z.of_nat n)); try done. cbn [andb].
  revert a H H0. induction n as [|n IH]; intros a H H0; [lia|]. cbn [rd].
  destruct (Z.eq_dec i a) as [->|].
  - rewrite Z.sub_diag, Z.pow_0_r, Z.div_1_r. rewrite Z.mul_comm, Z_mod_plus_full. by apply Z.mod_small, Hb.
  - rewrite <- (IH (a + 1)) by lia. replace (i - a) with (Z.succ (i - (a + 1))) by lia.
    rewrite Z.pow_succ_r, <- Z.div_div by (lia || (apply Z.pow_pos_nonneg; lia)). do 2 f_equal.
    rewrite Z.mul_comm, Z.div_add by lia. rewrite Z.div_small by apply Hb. done.
Qed.

Lemma inode_read_spec s ino out :
  VI s -> 0 < ino < ti ->
  exists r, flatfs_inode_read s ino out
            = (inode_verdict (memcpy out 0 (f_buf s) (its * 4096 + ino * 256) 256), r) /\
    (forall i, 0 <= i < 256 -> r i = f_buf s (its * 4096 + ino * 256 + i)) /\ (bytes_ok out -> bytes_ok r).
Proof using Hg Hit.
  intros V Hi. destruct (inode_addr s _ V Hi) as [Ea Hfit].
  pose proof (mi_bytes _ _ (ai_meta _ _ (vi_inv _ _ _ _ V))) as Bs.
  unfold flatfs_inode_read. rewrite (vi_ti _ _ _ _ V).
  rewrite (proj2 (Z.eqb_neq _ _)), (proj2 (Z.leb_gt _ _)) by lia. cbn [orb]. rewrite Ea. unfold FLATFS_INODE_SIZE.
  set (m := memcpy out 0 (f_buf s) (its * 4096 + ino * 256) 256). unfold inode_verdict.
  assert (Hm : forall i, 0 <= i < 256 -> m i = f_buf s (its * 4096 + ino * 256 + i)).
  { intros i Hi'. unfold m. rewrite memcpy_in by lia. f_equal. lia. }
  assert (Bm : bytes_ok out -> bytes_ok m) by (intros; by apply bytes_ok_memcpy).
  destruct (fget m 0 i_magic =? 0); [by exists m|]. destruct (negb _); [by exists m|].
  eexists. split; [reflexivity|]. split; [|intros Bo; apply bytes_ok_wr, bytes_ok_wr, Bm, Bo]. intros i Hi'. rewrite <- Hm by done.
  unfold fset, fget, i_crc32. cbn [f_off f_width].
  destruct (Z.lt_ge_cases i 248); [by rewrite !wr_out by (cbn; lia)|].
  destruct (Z.lt_ge_cases i 252); [|by rewrite !wr_out by (cbn; lia)].
  rewrite (wr_in 4) by (cbn; lia). 
  set (m2 := fun j => f_buf s (its * 4096 + ino * 256 + j)).
  rewrite (rd_ext 4 m m2 (0 + 248) (0 + 248)) by (intros j Hj; apply Hm; cbn in *; lia).
  rewrite Hm by lia. change (f_buf s (its * 4096 + ino * 256 + i)) with (m2 i).
  rewrite <- (wr_in 4 m2 (0 + 248) (rd 4 m2 (0 + 248)) i) by (cbn; lia). apply wr_self. intros j. apply Bs.
Qed.

Lemma verdict_ext m m' : (forall i, 0 <= i < 256 -> m' i = m i) -> inode_verdict m' = inode_verdict m.
Proof.
  intros H. unfold inode_verdict.
  rewrite (fget_ext m m' 0 i_magic) by (cbn; intros; apply H; lia).
  rewrite (fget_ext m m' 0 i_crc32) by (cbn; intros; apply H; lia).
  rewrite (crc32_ext (fset m' 0 i_crc32 0) (fset m 0 i_crc32 0) 0 0); [done|].
  intros i Hi. cbn in Hi. unfold fset, wr. cbn [f_off f_width i_crc32]. destruct (_ && _); [done|]. apply H. lia.
Qed.

(** A stored inode reads back valid. *)
Lemma stamped_verdict inp : bytes_ok inp -> fget inp 0 i_magic = FLATFS_INODE_MAGIC -> inode_verdict (stamped inp) = FLATFS_OK.
Proof.
  intros Hb Hm. unfold inode_verdict.
  rewrite (fget_ext inp (stamped inp) 0 i_magic) by (cbn; intros; apply stamped_other; lia).
  rewrite Hm. change (FLATFS_INODE_MAGIC =? 0) with false. rewrite Z.eqb_refl. cbn [negb].
  unfold stamped. set (z := fset inp 0 i_crc32 0).
  assert (Hz : bytes_ok z) by (apply bytes_ok_wr; done).
  assert (E : fget (fset z 0 i_crc32 (flatfs_crc32 z 0 256)) 0 i_crc32 = flatfs_crc32 z 0 256).
  { unfold fget, fset. apply rd_wr_small. cbn [f_width i_crc32]. by apply flatfs_crc32_range. }
  rewrite E. rewrite (crc32_ext (fset (fset z 0 i_crc32 _) 0 i_crc32 0) z 0 0); [by rewrite Z.eqb_refl|].
  intros i Hi. cbn in Hi. unfold z, fset, i_crc32. cbn [f_off f_width].
  destruct (Z.lt_ge_cases i 248); [by rewrite !wr_out by (cbn; lia)|].
  destruct (Z.lt_ge_cases i 252); [by rewrite !wr_in by (cbn; lia)|by rewrite !wr_out by (cbn; lia)].
Qed.

(** ** The whole write *)

(** A change of the inode that keeps the pointers keeps the file. *)
Lemma sval_inode m inp inp' : (forall k, 0 <= k < 12 -> sroot inp' k = sroot inp k) ->
  forall sl, slot_ok sl -> sval m inp' sl = sval m inp sl.
Proof.
  intros H [k|j|i|i j] Hs; cbn [sval sparent sindex]; rewrite ?(H 10), ?(H 11) by lia; try done. by apply H.
Qed.

Lemma file_inode m inp inp' : (forall k, 0 <= k < 12 -> sroot inp' k = sroot inp k) -> bytes_ok inp' ->
  FO m inp -> FO m inp'.
Proof.
  intros H Hb [F1 F2 F3]. pose proof (sval_inode m inp inp' H) as E. constructor; [done|..].
  - intros sl Hs. rewrite E by done. by apply F2.
  - intros sl sl' Hs Hs'. rewrite !E by done. by apply F3.
Qed.

(** The inode with the size of a write to [e]. *)
Definition resized (inp : bmem) (e : Z) : bmem := if fget inp 0 i_size <? e then fset inp 0 i_size e else inp.

Lemma resized_other inp e i : i < 16 \/ 24 <= i -> resized inp e i = inp i.
Proof.
  intros Hi. unfold resized. destruct (_ <? _); [|done]. unfold fset, i_size. cbn [f_off f_width]. apply wr_out. cbn. lia.
Qed.

Lemma resized_size inp e : 0 <= e < 2 ^ 64 -> fget (resized inp e) 0 i_size = Z.max (fget inp 0 i_size) e.
Proof.
  intros He. unfold resized. destruct (Z.ltb_spec (fget inp 0 i_size) e); [|lia].
  unfold fget at 1, fset. rewrite rd_wr_small by (cbn; lia). lia.
Qed.

Lemma resized_bytes inp e : bytes_ok inp -> bytes_ok (resized inp e).
Proof. intros. unfold resized. destruct (_ <? _); [|done]. by apply bytes_ok_wr. Qed.

Lemma sroot_ext inp inp' k : 0 <= k < 12 -> (forall i, 72 <= i < 168 -> inp' i = inp i) -> sroot inp' k = sroot inp k.
Proof.
  intros Hk H. unfold sroot. apply fget_ext. unfold i_blk_ptr, i_data_off. cbn [f_off f_width]. intros i Hi. apply H. cbn in Hi. lia.
Qed.

(** What a completed write of [data] at [off] leaves. *)
Record wrote (off : Z) (data : list Z) (s : fs) (inp : bmem) (s' : fs) (inp' : bmem) : Prop := {
  wt_inv : VI s';
  wt_ok : FO (f_buf s') inp';
  wt_data : forall k, 0 <= k < LMAX * 4096 -> fbyte (f_buf s') inp' k
    = if (off <=? k) && (k <? off + Z.of_nat (length data)) then nth (Z.to_nat (k - off)) data 0
      else fbyte (f_buf s) inp k;
  wt_size : fget inp' 0 i_size = Z.max (fget inp 0 i_size) (off + Z.of_nat (length data));
  wt_inode : forall i, i < 16 \/ 32 <= i < 72 \/ 168 <= i -> inp' i = inp i;
  wt_disk : forall i, 0 <= i < 256 -> f_buf s' (its * 4096 + fget inp 0 i_ino * 256 + i) = stamped inp' i;
  wt_table : forall ino i, 0 < ino < ti -> ino <> fget inp 0 i_ino -> 0 <= i < 256 ->
    f_buf s' (its * 4096 + ino * 256 + i) = f_buf s (its * 4096 + ino * 256 + i);
  wt_other : forall inp2, FO (f_buf s) inp2 -> apart (f_buf s) inp inp2 ->
    fsame (f_buf s) (f_buf s') inp2 /\ FO (f_buf s') inp2 /\ apart (f_buf s') inp' inp2 }.

Lemma fbyte_patch off data a b f k :
  patch off data a b f (k / 4096) (k mod 4096)
  = if (off + a <=? k) && (k <? off + b) then nth (Z.to_nat (k - off)) data 0 else f (k / 4096) (k mod 4096).
Proof. unfold patch. cbv zeta. by replace (k / 4096 * 4096 + k mod 4096) with k by (pose proof (Z.div_mod k 4096); lia). Qed.

(** Storing the resized inode after the loop. *)
Lemma finish_write off data s inp s1 i1 n :
  evolved n s inp s1 i1 (patch off data 0 (Z.of_nat (length data)) (fdata (f_buf s) inp)) ->
  0 <= off -> off + Z.of_nat (length data) <= LMAX * 4096 -> 0 < fget inp 0 i_ino < ti ->
  let i2 := resized i1 (off + Z.of_nat (length data)) in
  flatfs_inode_write s1 i2 = (FLATFS_OK, stored s1 i2) /\ wrote off data s inp (stored s1 i2) i2.
Proof using Hg Hit.
  intros [E1 E2 E3 E4 E5 E6 E7] Hoff Hmax Hino i2. set (e := off + Z.of_nat (length data)) in *.
  assert (He : 0 <= e < 2 ^ 64) by (unfold e, LMAX in *; lia).
  assert (B2 : bytes_ok i2) by (apply resized_bytes, E2).
  assert (Hk2 : forall i, i < 16 \/ 32 <= i < 72 \/ 168 <= i -> i2 i = inp i).
  { intros i Hi. unfold i2. rewrite resized_other by lia. apply E4. lia. }
  assert (Eino : fget i2 0 i_ino = fget inp 0 i_ino) by (apply fget_ext; cbn; intros; apply Hk2; lia).
  assert (Hroots : forall k, 0 <= k < 12 -> sroot i2 k = sroot i1 k).
  { intros k Hk. apply sroot_ext; [done|]. intros i Hi. apply resized_other. lia. }
  destruct (inode_write_spec s1 i2 E1 B2 ltac:(lia)) as (Ew & V' & Hout). split; [done|].
  set (s' := stored s1 i2) in *. pose proof (file_inode _ _ _ Hroots B2 E2) as F2.
  assert (Hdat : forall b i, ge_ds g <= b -> 0 <= i < 4096 -> f_buf s' (b * 4096 + i) = f_buf s1 (b * 4096 + i)).
  { intros b i Hb Hi. apply Hout. destruct Hg; lia. }
  assert (Hsame : forall inp2, FO (f_buf s1) inp2 -> fsame (f_buf s1) (f_buf s') inp2).
  { intros inp2 F. apply fsame_blocks. intros sl i Hs Hne Hi. apply Hdat; [|done].
    destruct (fo_range _ _ _ F sl Hs Hne). lia. }
  assert (Hu : forall x, 0 <= x < ge_tb g - ge_ds g -> used g (f_buf s1) x = true -> used g (f_buf s') x = true).
  { intros x Hx Hux. rewrite <- Hux. destruct Hit as (J1 & J2 & J3). assert (Hx' : 0 <= x < ge_ng g * 2048) by (destruct Hg; lia).
    pose proof (slot_split x) as [_ Hr]. pose proof (slot_group g x Hx'). unfold used, bitmap_test.
    destruct (bit_index (x mod 2048)) as [-> ->]; [lia|]. rewrite Hout; [done|]. right. unfold gaddr, g_bitmap_off.
    assert (0 <= x mod 2048 / 8) by (clear - Hr; zlia). lia. }
  constructor.
  - done.
  - by apply (file_ok_same g (f_buf s1)); [apply Hsame|..].
  - intros k Hk. unfold fbyte. assert (Hl : 0 <= k / 4096 < LMAX) by (clear - Hk; unfold LMAX in *; zlia).
    assert (Hi : 0 <= k mod 4096 < 4096) by (apply Z.mod_pos_bound; lia).
    rewrite (proj2 (Hsame i2 F2)) by done. unfold fdata. rewrite (sval_inode _ i1 i2 Hroots) by (by apply slot_of_ok).
    fold (fdata (f_buf s1) i1 (k / 4096) (k mod 4096)). rewrite E3 by done. rewrite fbyte_patch. by rewrite Z.add_0_r.
  - unfold i2. rewrite resized_size by done. f_equal. apply fget_ext. cbn. intros i Hi. apply E4. lia.
  - done.
  - intros i Hi. unfold s', stored. cbn [f_buf with_buf]. rewrite Eino. rewrite memcpy_in by lia. f_equal. lia.
  - intros ino i Hin Hne Hi. rewrite <- Eino in Hne. unfold s'. rewrite stored_other by (done || lia).
    apply E5. destruct Hit as (J1 & J2 & J3). lia.
  - intros inp2 F Ap. destruct (E6 inp2 F Ap) as (S1 & F1 & Ap1). pose proof (Hsame inp2 F1) as S2.
    split_and!; [by eapply fsame_trans|by apply (file_ok_same g (f_buf s1))|].
    intros sl sl2 Hs Hs2. rewrite (proj1 S2), (proj1 (Hsame i2 F2)) by done.
    rewrite (sval_inode _ i1 i2 Hroots) by done. by apply Ap1.
Qed.

(** [flatfs_file_pwrite] on a plain file with enough free blocks. *)
Lemma pwrite_spec s inp off data :
  VI s -> FO (f_buf s) inp -> is_inline inp = false -> has_crc inp = false -> 0 < fget inp 0 i_ino < ti ->
  Forall (fun b => 0 <= b < 256) data -> 0 <= off -> off + Z.of_nat (length data) <= LMAX * 4096 ->
  3 * blocks_left off (Z.of_nat (length data)) 0 <= sbget s sb_free_blocks ->
  exists s' inp', flatfs_file_pwrite s inp off data = Some (inr (Z.of_nat (length data)), inp', s') /\
    wrote off data s inp s' inp'.
Proof using Hg Hit.
  intros V F Hil Hc Hino Hdata Hoff Hmax Hfree. unfold flatfs_file_pwrite. rewrite Hil. unfold pwrite_blocks.
  pose proof (blocks_left_fuel off (Z.of_nat (length data)) Hoff ltac:(lia)) as Hbl.
  destruct (pwrite_loop_spec off data Hoff Hmax Hdata (io_fuel (Z.of_nat (length data))) s inp 0 V F Hc ltac:(lia) ltac:(lia))
    as (s1 & i1 & [[-> E]|(-> & Hf & _)]); [|lia]. cbn [mbind option_bind].
  assert (He : 0 <= off + Z.of_nat (length data) < 2 ^ 64) by (unfold LMAX in *; lia).
  rewrite !u64_small by done. fold (resized i1 (off + Z.of_nat (length data))).
  destruct (finish_write off data s inp s1 i1 _ E Hoff Hmax Hino) as [-> W]. by eexists _, _.
Qed.

(** [flatfs_file_pread] on a plain file. *)
Lemma pread_spec s inp off len :
  FO (f_buf s) inp -> bytes_ok (f_buf s) -> is_inline inp = false -> has_crc inp = false ->
  0 <= off -> 0 <= len -> fget inp 0 i_size <= LMAX * 4096 ->
  exists s', f_buf s' = f_buf s /\
    flatfs_file_pread s inp off len
    = Some (inr (map (fun i => fbyte (f_buf s) inp (off + Z.of_nat i))
                     (seq 0 (Z.to_nat (Z.min len (fget inp 0 i_size - off))))), s').
Proof using Hg.
  intros F Bs Hil Hc Hoff Hlen Hsz. unfold flatfs_file_pread. rewrite Hil.
  destruct (Z.leb_spec (fget inp 0 i_size) off).
  { exists s. split; [done|]. by replace (Z.to_nat (Z.min len (fget inp 0 i_size - off))) with 0%nat by lia. }
  replace (if fget inp 0 i_size - off <? len then fget inp 0 i_size - off else len) with (Z.min len (fget inp 0 i_size - off))
    by (destruct (Z.ltb_spec (fget inp 0 i_size - off) len); lia).
  set (n := Z.min len (fget inp 0 i_size - off)). assert (Hn : 0 <= n /\ off + n <= LMAX * 4096) by (unfold n; lia). clearbody n.
  pose proof (blocks_left_fuel off n Hoff ltac:(lia)).
  destruct (pread_loop_spec inp off n Hoff ltac:(lia) Hc (io_fuel n) s 0 [] F Bs ltac:(lia) ltac:(lia)) as (s' & Hs' & ->).
  exists s'. split; [done|]. rewrite Z.sub_0_r. do 3 f_equal. apply map_ext. intros i. f_equal. lia.
Qed.

End IO.
