(* ===== verification/FlatFileProps.v ===== *)
(** * FlatFS: properties of inodes and files

    The inode table as a store of checksummed records, and files as arrays
    of bytes that [flatfs_file_pwrite] patches and [flatfs_file_pread]
    reads. *)

From stdpp Require Import base list.
From Stdlib Require Import ZArith Lia.
From S2P Require Import Prelude TyCrypto TyCryptoProof FlatCrc FlatFs FlatAlloc FlatSuper FlatProps FlatFile FlatIO.

#[local] Opaque flatfs_crc32 ty_siphash24.

(** The inode table of [ti] inodes from block [its] ends before the
    freelist. *)
Definition table_ok (g : geom) (its ti : Z) : Prop := 2 <= its /\ 0 < ti /\ its * 16 + ti <= ge_fl g * 16.

(** A file that is neither inline nor checksummed and whose size the
    pointer tree can map. *)
Definition plain (inp : bmem) : Prop :=
  is_inline inp = false /\ has_crc inp = false /\ fget inp 0 i_size <= LMAX * 4096.

(** The bytes [o..o+n) of a file cut off at its size. *)
Definition window (byte : Z -> Z) (size o n : Z) : list Z :=
  map (fun i => byte (o + Z.of_nat i)) (seq 0 (Z.to_nat (Z.min n (size - o)))).

(** ** The inode table *)

Lemma zeroed_field m k v i : 248 <= k < 252 -> fset (upd m k v) 0 i_crc32 0 i = fset m 0 i_crc32 0 i.
Proof.
  intros Hk. unfold fset, i_crc32. cbn [f_off f_width].
  destruct (decide (248 <= i < 252)); [by rewrite !wr_in by (cbn; lia)|]. rewrite !wr_out by (cbn; lia). apply upd_ne. lia.
Qed.

Lemma verdict_damaged m k v :
  bytes_ok m -> 0 <= k < 256 -> 0 <= v < 256 -> v <> m k ->
  inode_verdict m = FLATFS_OK -> inode_verdict (upd m k v) <> FLATFS_OK.
Proof.
  intros Hm Hk Hv Hne. unfold inode_verdict.
  destruct (fget m 0 i_magic =? 0); [done|]. destruct (negb (_ =? FLATFS_INODE_MAGIC)); [done|].
  destruct (Z.eqb_spec (flatfs_crc32 (fset m 0 i_crc32 0) 0 256) (fget m 0 i_crc32)) as [E|]; [|done]. intros _.
  destruct (fget (upd m k v) 0 i_magic =? 0); [done|]. destruct (negb _); [done|].
  destruct (Z.eqb_spec (flatfs_crc32 (fset (upd m k v) 0 i_crc32 0) 0 256) (fget (upd m k v) 0 i_crc32)) as [E'|]; [|done].
  exfalso. assert (Hmv : bytes_ok (upd m k v)) by (by apply bytes_ok_upd).
  destruct (decide (248 <= k < 252)) as [Hc|Hc].
  - rewrite (crc32_ext _ (fset m 0 i_crc32 0) 0 0) in E' by (intros i _; by apply zeroed_field).
    rewrite E in E'. apply Hne. unfold fget, i_crc32 in E'. cbn [f_off f_width] in E'.
    rewrite <- (wr_self 4 m (0 + 248) k Hm), <- (upd_eq m k v), <- (wr_self 4 (upd m k v) (0 + 248) k Hmv), <- E'.
    by rewrite !wr_in by (cbn; lia).
  - assert (Hd : flatfs_crc32 (fset (upd m k v) 0 i_crc32 0) 0 256 <> flatfs_crc32 (fset m 0 i_crc32 0) 0 256).
    { apply crc32_one_byte with k.
      - by apply bytes_ok_wr.
      - by apply bytes_ok_wr.
      - lia.
      - unfold fset, i_crc32. cbn [f_off f_width]. rewrite !wr_out by (cbn; lia). rewrite Z.add_0_l, upd_eq. done.
      - intros i Hi Hik. unfold fset, wr. destruct (_ && _); [done|]. apply upd_ne. lia. }
    apply Hd. rewrite E, E'. apply fget_ext. cbn. intros i Hi. apply upd_ne. lia.
Qed.

(** C21. The inode table is a store of checksummed records.  An inode that
    is written reads back valid with every byte as written except the
    checksum field; every other inode of the table reads exactly as before,
    verdict included; and once any one byte of the stored record is damaged
    the read no longer succeeds. *)
Theorem inode_store_roundtrip (g : geom) (its ti : Z) (s : fs) (inp out : bmem) :
  geom_ok g -> table_ok g its ti -> vinv g its ti s -> bytes_ok inp -> bytes_ok out ->
  0 < fget inp 0 i_ino < ti -> fget inp 0 i_magic = FLATFS_INODE_MAGIC ->
  exists s', flatfs_inode_write s inp = (FLATFS_OK, s') /\ vinv g its ti s' /\
    (exists r, flatfs_inode_read s' (fget inp 0 i_ino) out = (FLATFS_OK, r) /\
       forall i, 0 <= i < 248 \/ 252 <= i < 256 -> r i = inp i) /\
    (forall ino, 0 < ino < ti -> ino <> fget inp 0 i_ino ->
       exists e r r', flatfs_inode_read s ino out = (e, r) /\ flatfs_inode_read s' ino out = (e, r') /\
         forall i, 0 <= i < 256 -> r' i = r i) /\
    (forall k v, 0 <= k < 256 -> 0 <= v < 256 -> let a := inode_ptr s' (fget inp 0 i_ino) + k in v <> f_buf s' a ->
       fst (flatfs_inode_read (with_buf s' (upd (f_buf s') a v)) (fget inp 0 i_ino) out) <> FLATFS_OK).
Proof.
  intros Hg Ht V Bi Bo Hino Hmag. destruct (inode_write_spec g Hg its ti Ht s inp V Bi Hino) as (Ew & V' & _).
  exists (stored its s inp). split; [done|]. split; [done|].
  assert (Hst : forall i, 0 <= i < 256 -> f_buf (stored its s inp) (its * 4096 + fget inp 0 i_ino * 256 + i) = stamped inp i).
  { intros i Hi. unfold stored. cbn [f_buf with_buf]. rewrite memcpy_in by lia. f_equal. lia. }
  assert (Hok : inode_verdict (stamped inp) = FLATFS_OK) by (by apply stamped_verdict).
  destruct (inode_addr g Hg its ti Ht _ _ V' Hino) as [Ea Hfit].
  assert (Hoth : forall ino i, ino <> fget inp 0 i_ino -> 0 <= i < 256 ->
    f_buf (stored its s inp) (its * 4096 + ino * 256 + i) = f_buf s (its * 4096 + ino * 256 + i)).
  { intros. apply stored_other; [lia|done|done]. }
  set (s' := stored its s inp) in *. clearbody s'. split; [|split].
  - destruct (inode_read_spec g Hg its ti Ht s' (fget inp 0 i_ino) out V' Hino) as (r & -> & Hr & _).
    exists r. split.
    + f_equal. rewrite <- Hok. apply verdict_ext. intros i Hi. rewrite memcpy_in by lia. rewrite <- Hst by done. f_equal. lia.
    + intros i Hi. rewrite Hr, Hst by lia. apply stamped_other. lia.
  - intros ino Hi Hne. destruct (inode_read_spec g Hg its ti Ht s ino out V Hi) as (r & Er & Hr & _).
    destruct (inode_read_spec g Hg its ti Ht s' ino out V' Hi) as (r' & Er' & Hr' & _).
    eexists _, r, r'. split; [exact Er|]. split.
    + rewrite Er'. f_equal. apply verdict_ext. intros i Hi'. rewrite !memcpy_in by lia.
      replace (its * 4096 + ino * 256 + (i - 0)) with (its * 4096 + ino * 256 + i) by lia. by apply Hoth.
    + intros i Hi'. rewrite Hr', Hr by done. by apply Hoth.
  - intros k v Hk Hv a Hne. unfold a in *. rewrite Ea in *.
    set (sd := with_buf s' (upd (f_buf s') (its * 4096 + fget inp 0 i_ino * 256 + k) v)).
    assert (Vd : vinv g its ti sd).
    { apply (vinv_ext g Hg its ti Ht s'); [done| | |done|done].
      - apply bytes_ok_upd; [|done]. apply (mi_bytes _ _ (ai_meta _ _ (vi_inv _ _ _ _ V'))).
      - intros i Hi. unfold sd. cbn [f_buf with_buf]. destruct (Z.eq_dec i (its * 4096 + fget inp 0 i_ino * 256 + k)); [left; lia|].
        right. by apply upd_ne. }
    destruct (inode_read_spec g Hg its ti Ht sd (fget inp 0 i_ino) out Vd Hino) as (r & -> & _). cbn [fst].
    rewrite (verdict_ext (upd (stamped inp) k v)).
    + apply verdict_damaged; [by apply stamped_bytes|done|done| |done]. by rewrite <- Hst by done.
    + intros i Hi. rewrite memcpy_in by lia. unfold sd. cbn [f_buf with_buf]. unfold upd.
      destruct (Z.eqb_spec i k) as [->|]; [by rewrite (proj2 (Z.eqb_eq _ _)) by lia|].
      rewrite (proj2 (Z.eqb_neq _ _)) by lia. rewrite <- Hst by done. f_equal. lia.
Qed.

(** ** A volume and an inode to evaluate on *)

Definition new_file : bmem := flatfs_inode_init (fun _ => 0) 1 0x81A4 0 0.

Definition vol_geom : geom := lay_geom vol_cap 64.

Lemma vol_geom_ok : geom_ok vol_geom /\ table_ok vol_geom 1028 64.
Proof.
  split; [apply lay_geom_ok, vol_fits|]. unfold table_ok, vol_geom, lay_geom, lay_fl, inode_blocks. cbn [ge_fl].
  change ((64 + 15) / 16) with 4. lia.
Qed.

Lemma vol_open_ok : vinv vol_geom 1028 64 vol_open /\ sbget vol_open sb_free_blocks = 66.
Proof.
  destruct vol_ok as (SF & SB & Hst). destruct (alloc_init_inv vol vol_cap 64 vol_fits SF SB Hst) as (s' & E & I & _ & Hout).
  unfold vol_open. rewrite E. cbn [snd]. pose proof (lay_bounds vol_cap 64 vol_fits) as (L1 & _).
  assert (Hf : forall f, 0 <= f_off f -> f_off f + Z.of_nat (f_width f) <= 4096 -> sbget s' f = sbget vol f).
  { intros f F1 F2. apply fget_ext. intros i Hi. apply Hout. lia. }
  split; [constructor; [done|..]|]; rewrite Hf by (cbn; lia); unfold sbget.
  - apply (sf_its _ _ _ SF).
  - apply (sf_ti _ _ _ SF).
  - rewrite (sf_free _ _ _ SF). by vm_compute.
Qed.

Lemma new_file_bytes : bytes_ok new_file.
Proof. unfold new_file, flatfs_inode_init, fset. repeat apply bytes_ok_wr. apply bytes_ok_memset; [lia|]. intros i. lia. Qed.

Lemma new_file_roots k : 0 <= k < 12 -> sroot new_file k = 0.
Proof.
  intros Hk. unfold sroot, fget. apply rd_zero. intros i Hi. unfold new_file, flatfs_inode_init, fset, i_blk_ptr, i_data_off in *.
  cbn [f_off f_width] in *. rewrite !wr_out by (cbn in *; lia). apply memset_in. unfold FLATFS_INODE_SIZE. cbn in Hi. lia.
Qed.

Lemma new_file_ok m : file_ok vol_geom m new_file.
Proof.
  assert (Hz : forall sl, slot_ok sl -> sval m new_file sl = 0).
  { intros [k|j|i|i j] Hs; cbn [sval sparent sindex]; rewrite ?new_file_roots by (cbn in Hs; lia); done. }
  constructor; [apply new_file_bytes|..]; intros sl *; [|intros Hs]; intros Hs1; rewrite Hz by done; done.
Qed.

Lemma new_file_fields : fget new_file 0 i_ino = 1 /\ fget new_file 0 i_magic = FLATFS_INODE_MAGIC /\ plain new_file.
Proof. unfold plain. vm_compute. repeat split; congruence. Qed.

Lemma inode_store_roundtrip_witness :
  exists s', flatfs_inode_write vol_open new_file = (FLATFS_OK, s') /\
    exists r, flatfs_inode_read s' (fget new_file 0 i_ino) (fun _ => 0) = (FLATFS_OK, r).
Proof.
  destruct vol_geom_ok as [Hg Ht], vol_open_ok as [V _], new_file_fields as (Ei & Em & _).
  destruct (inode_store_roundtrip vol_geom 1028 64 vol_open new_file (fun _ => 0) Hg Ht V new_file_bytes) as (s' & E & _ & (r & Er & _) & _).
  - intros i. lia.
  - rewrite Ei. lia.
  - exact Em.
  - exists s'. split; [exact E|]. exists r. exact Er.
Defined.

(** ** Files *)

(** Reading a plain file returns a window of its bytes. *)
Lemma pread_window g s inp o n :
  geom_ok g -> bytes_ok (f_buf s) -> file_ok g (f_buf s) inp -> plain inp -> 0 <= o -> 0 <= n ->
  exists s', flatfs_file_pread s inp o n = Some (inr (window (fbyte (f_buf s) inp) (fget inp 0 i_size) o n), s').
Proof.
  intros Hg Bs F (Hi & Hc & Hs) Ho Hn. destruct (pread_spec g Hg s inp o n F Bs Hi Hc Ho Hn Hs) as (s' & _ & E).
  exists s'. exact E.
Qed.

Lemma window_ext f f' size o n :
  0 <= o -> (forall k, 0 <= k < size -> f k = f' k) -> window f size o n = window f' size o n.
Proof. intros Ho H. apply map_ext_in. intros i Hi%in_seq. apply H. lia. Qed.

(** Two copies of an inode that agree on its 256 bytes, checksum aside, are
    the same file. *)
Section Copy.
Context (g : geom) (m inp inp' : bmem).
Context (Hb : bytes_ok inp') (He : forall i, 0 <= i < 248 \/ 252 <= i < 256 -> inp' i = inp i).

Lemma copy_field f : 0 <= f_off f -> f_off f + Z.of_nat (f_width f) <= 248 -> fget inp' 0 f = fget inp 0 f.
Proof using He. intros F1 F2. apply fget_ext. intros i Hi. apply He. lia. Qed.

Lemma copy_plain : plain inp -> plain inp'.
Proof using He. unfold plain, is_inline, has_crc. by rewrite !copy_field by (cbn; lia). Qed.

Lemma copy_roots k : 0 <= k < 12 -> sroot inp' k = sroot inp k.
Proof using He. intros Hk. apply sroot_ext; [done|]. intros i Hi. apply He. lia. Qed.

Lemma copy_ok : file_ok g m inp -> file_ok g m inp'.
Proof using Hb He. apply file_inode; [apply copy_roots|done]. Qed.

Lemma copy_byte k : 0 <= k < LMAX * 4096 -> fbyte m inp' k = fbyte m inp k.
Proof using He.
  intros Hk. unfold fbyte, fdata. rewrite (sval_inode m inp inp' copy_roots); [done|].
  apply slot_of_ok. clear - Hk. unfold LMAX in *. zlia.
Qed.
End Copy.

(** The inode that a write stored, read back, is the written file. *)
Lemma wrote_reopen g its ti off data s inp s' inp' out :
  geom_ok g -> table_ok g its ti -> wrote g its ti off data s inp s' inp' -> plain inp ->
  fget inp 0 i_magic = FLATFS_INODE_MAGIC -> 0 < fget inp 0 i_ino < ti ->
  off + Z.of_nat (length data) <= LMAX * 4096 -> bytes_ok out ->
  exists r, flatfs_inode_read s' (fget inp 0 i_ino) out = (FLATFS_OK, r) /\
    fget r 0 i_size = Z.max (fget inp 0 i_size) (off + Z.of_nat (length data)) /\
    file_ok g (f_buf s') r /\ plain r /\
    (forall k, 0 <= k < LMAX * 4096 -> fbyte (f_buf s') r k = fbyte (f_buf s') inp' k) /\
    (forall sl, slot_ok sl -> sval (f_buf s') r sl = sval (f_buf s') inp' sl).
Proof.
  intros Hg Ht [W1 W2 W3 W4 W5 W6 W7 W8] (Pi & Pc & Ps) Hmag Hino Hmax Bo.
  destruct (inode_read_spec g Hg its ti Ht s' (fget inp 0 i_ino) out W1 Hino) as (r & Er & Hr & Br). specialize (Br Bo).
  assert (Hcopy : forall i, 0 <= i < 248 \/ 252 <= i < 256 -> r i = inp' i).
  { intros i Hi. rewrite Hr, W6 by lia. apply stamped_other. lia. }
  assert (Hok : inode_verdict (memcpy out 0 (f_buf s') (its * 4096 + fget inp 0 i_ino * 256) 256) = FLATFS_OK).
  { rewrite (verdict_ext (stamped inp')).
    - apply stamped_verdict; [apply W2|]. rewrite <- Hmag. apply fget_ext. cbn. intros i Hi. apply W5. lia.
    - intros i Hi. rewrite memcpy_in by lia. rewrite <- W6 by done. f_equal. lia. }
  rewrite Hok in Er. assert (Pp' : plain inp').
  { unfold plain, is_inline, has_crc. rewrite W4. rewrite (fget_ext inp inp' 0 i_flags) by (cbn; intros; apply W5; lia).
    split_and!; [exact Pi|exact Pc|lia]. }
  exists r. split; [exact Er|]. split; [by rewrite (copy_field inp' r Hcopy) by (cbn; lia)|].
  split; [by apply (copy_ok g _ inp')|]. split; [by apply (copy_plain inp')|].
  split; [intros k; by apply copy_byte|]. intros sl. apply (sval_inode _ _ _ (copy_roots inp' r Hcopy)).
Qed.


