(* ===== verification/FlatFindings.v ===== *)
(** * FlatFS: files and volumes the code mishandles

    Runs of the model on the 1100-block volume [vol_open] that end in lost
    or shared data.  Each is a closed computation. *)

From stdpp Require Import base list.
From Stdlib Require Import ZArith.
From S2P Require Import Prelude TyCrypto FlatCrc FlatFs FlatProps FlatFileProps.

Definition second_file : bmem := flatfs_inode_init (fun _ => 0) 2 0x81A4 0 0.

(** Write three bytes to file 1, truncate it to nothing, write three bytes
    to file 2, write one byte to file 1, read file 2. *)
Definition truncate_run : option (flatfs_err * (flatfs_err + Z) * (flatfs_err + list Z)) :=
  '(_, i1, s) ← flatfs_file_pwrite vol_open new_file 0 [1; 2; 3];
  let '(e, i1, s) := flatfs_file_truncate s i1 0 in
  '(_, i2, s) ← flatfs_file_pwrite s second_file 0 [7; 8; 9];
  '(w, i1, s) ← flatfs_file_pwrite s i1 0 [5];
  '(r, _) ← flatfs_file_pread s i2 0 3;
  Some (e, w, r).


(** A file with per-block checksums loses the end of every block: the
    checksum and the MAC are stored over the file's own bytes. *)
Definition crc_file : bmem := fset new_file 0 i_flags FLATFS_FL_HASCRC.

Definition hascrc_run : option ((flatfs_err + Z) * (flatfs_err + list Z)) :=
  '(w, i, s) ← flatfs_file_pwrite vol_open crc_file 4090 [1; 2; 3; 4; 5; 6];
  '(r, _) ← flatfs_file_pread s i 4090 6;
  Some (w, r).

Theorem hascrc_clobbers_tail : exists r, hascrc_run = Some (inr 6, inr r) /\ r <> [1; 2; 3; 4; 5; 6].
Proof. eexists. split; [vm_compute; reflexivity|done]. Qed.

(** [flatfs_mkfs] accepts a 64-block volume, which the fixed areas do not
    fit: the data area starts past the end and the free count wraps. *)
Definition small_volume : flatfs_err * list Z :=
  let '(e, s) := flatfs_mkfs zero_fs (64 * 4096) None in
  (e, map (sbget s) [sb_total_blocks; sb_data_start; sb_free_blocks]).

Theorem mkfs_small_volume_wraps : small_volume = (FLATFS_OK, [64; 1033; 2 ^ 64 - 969]).
Proof. by vm_compute. Qed.

(** The volume check wants a checksum in the last bytes of every data block
    and so reports an untouched one. *)
Theorem fresh_block_fails_check : fst (flatfs_integrity_check_block vol_open 1034) = FLATFS_ERR_CRC.
Proof. by vm_compute. Qed.
