(* ===== verification/FlatHtree.v ===== *)
(** * FlatFS: hashed directories

    A directory is an inode that names a root block; the root block has one
    pointer per value of the top byte of the name's hash, and each pointer
    leads to a block of 32 entries.  All of it is in the byte memory of
    FlatFs, entry fields at their packed offsets.

    Sources: flatfs_hash.c, flatfs_dir.c (the operations that forward to
    it), flatfs.h, flatfs_hash.h, flatfs_internal.h, and the counters of
    flatfs_monitor.c that directories use. *)

From stdpp Require Import base list.
From Stdlib Require Import ZArith Lia.
From S2P Require Import Prelude FlatCrc FlatFs.

(** ** Constants and layout *)

Definition FLATFS_NAME_MAX : Z := 256.
Definition FLATFS_HTREE_MAGIC : Z := 0x46485452.
Definition FLATFS_HTREE_FANOUT : Z := 256.
Definition FLATFS_DIRENT_SIZE : Z := 128.
Definition FLATFS_DIRENTS_PER_BLK : Z := FLATFS_BLOCK_SIZE / FLATFS_DIRENT_SIZE.
Definition FLATFS_FL_HTREE : Z := Z.shiftl 1 2.
Definition FNV1A_32_BASIS : Z := 0x811c9dc5.
Definition FNV1A_32_PRIME : Z := 0x01000193.

(** flatfs_inode_t, the directory fields *)
Definition i_dir_htree_blk := F 176 8.
Definition i_htree_depth := F 184 4.

(** flatfs_htree_root_t *)
Definition rt_magic := F 0 4.
Definition rt_count := F 4 4.
Definition rt_depth := F 8 4.
Definition rt_child (b : Z) := F (16 + 8 * b) 8.
Definition rt_crc32 := F 4092 4.

(** flatfs_dirent_t; its [name] has room for 108 bytes *)
Definition de_ino := F 0 8.
Definition de_hash := F 8 4.
Definition de_name_len := F 12 1.
Definition de_file_type := F 13 1.
Definition de_rec_len := F 14 2.
Definition de_name_off : Z := 16.
Definition de_crc32 := F 124 4.

(** ** Monitor *)

(** The volume with the two directory counters of [g_mon]. *)
Record hfs := HF { h_fs : fs; h_hits : Z; h_misses : Z }.

Definition with_fs (h : hfs) (s : fs) : hfs := HF s (h_hits h) (h_misses h).
Definition h_buf (h : hfs) : bmem := f_buf (h_fs h).
Definition with_hbuf (h : hfs) (b : bmem) : hfs := with_fs h (with_buf (h_fs h) b).

Definition flatfs_mon_htree_lookup (h : hfs) (hit : bool) : hfs :=
  if hit then HF (h_fs h) (u64 (h_hits h + 1)) (h_misses h)
  else HF (h_fs h) (h_hits h) (u64 (h_misses h + 1)).

(** ** Names *)

(** A C string is the list of its bytes; the byte after the last is NUL. *)
Definition cstr (name : list Z) (i : Z) : Z := nth (Z.to_nat i) name 0.

(** Index [i] of both strings onwards. *)
Fixpoint fstrncmp (n : nat) (a b : Z -> Z) (i : Z) : Z :=
  match n with
  | O => 0
  | S n =>
    if negb (a i =? b i) then a i - b i else
    if a i =? 0 then 0 else fstrncmp n a b (i + 1)
  end.

Definition flatfs_hash_name (name : list Z) (len : nat) : Z :=
  fold_left (fun h c => u32 (Z.lxor h c * FNV1A_32_PRIME)) (take len name) FNV1A_32_BASIS.

(** [(uint8_t)(h >> 24)] *)
Definition bucket_of (h : Z) : Z := u8 (Z.shiftr h 24).

(** ** The root *)

(** The root's address, NULL when the inode has none. *)
Definition htroot (s : fs) (dir_ino : Z) : option Z :=
  let blk := fget (f_buf s) (inode_ptr s dir_ino) i_dir_htree_blk in
  if blk =? 0 then None else Some (blk_ptr blk).

(** [!rt || rt->magic != FLATFS_HTREE_MAGIC] *)
Definition htroot_ok (s : fs) (dir_ino : Z) : option Z :=
  rt ← htroot s dir_ino;
  if fget (f_buf s) rt rt_magic =? FLATFS_HTREE_MAGIC then Some rt else None.

(** Entry [i] of the leaf block [blk]. *)
Definition dirent (blk i : Z) : Z := blk_ptr blk + FLATFS_DIRENT_SIZE * i.

(** [rt->crc32 = 0; rt->crc32 = flatfs_crc32(rt, sizeof *rt)] *)
Definition root_seal (m : bmem) (rt : Z) : bmem :=
  let m := fset m rt rt_crc32 0 in fset m rt rt_crc32 (flatfs_crc32 m rt 4096).

(** The inode in the table as the argument of [flatfs_inode_write]. *)
Definition inode_here (s : fs) (ino : Z) : bmem := fun i => f_buf s (inode_ptr s ino + i).

Definition flatfs_htree_init (s : fs) (dir_ino root_blk : Z) : flatfs_err * fs :=
  let rt := blk_ptr root_blk in
  let b := memset (f_buf s) rt 0 4096 in
  let b := fset b rt rt_magic FLATFS_HTREE_MAGIC in
  let b := fset b rt rt_depth 1 in
  let s := with_buf s (root_seal b rt) in
  let a := inode_ptr s dir_ino in
  let b := fset (f_buf s) a i_dir_htree_blk root_blk in
  let b := fset b a i_htree_depth 1 in
  let b := fset b a i_flags (Z.lor (fget b a i_flags) FLATFS_FL_HTREE) in
  let s := with_buf s b in
  flatfs_inode_write s (inode_here s dir_ino).

(** Zero when no block is left. *)
Definition ensure_leaf (s : fs) (rt bucket : Z) : Z * fs :=
  let p := fget (f_buf s) rt (rt_child bucket) in
  if negb (p =? 0) then (p, s) else
  match flatfs_alloc_block to_local s with
  | (inl _, s) => (0, s)
  | (inr blk, s) =>
    let b := memset (f_buf s) (blk_ptr blk) 0 FLATFS_BLOCK_SIZE in
    let b := fset b rt (rt_child bucket) blk in
    (blk, with_buf s (root_seal b rt))
  end.

(** ** Entries *)

(** The entry at [a] has this hash and this name. *)
Definition entry_matches (m : bmem) (a h : Z) (nlen : nat) (name : list Z) : bool :=
  (fget m a de_hash =? h) && (fget m a de_name_len =? u8 (Z.of_nat nlen)) &&
  (fstrncmp nlen (fun i => m (a + de_name_off + i)) (cstr name) 0 =? 0).

(** The search loop of lookup and removal. *)
Fixpoint find_entry (n : nat) (m : bmem) (lb i h : Z) (nlen : nat) (name : list Z) : option Z :=
  match n with
  | O => None
  | S n =>
    let a := dirent lb i in
    if fget m a de_ino =? 0 then find_entry n m lb (i + 1) h nlen name else
    if entry_matches m a h nlen name then Some i
    else find_entry n m lb (i + 1) h nlen name
  end.

Definition flatfs_htree_lookup (s : hfs) (dir_ino : Z) (name : list Z) : (flatfs_err + Z) * hfs :=
  match htroot_ok (h_fs s) dir_ino with
  | None => (inl FLATFS_ERR_CORRUPT, s)
  | Some rt =>
    let nlen := fstrlen name (Z.to_nat FLATFS_NAME_MAX) in
    let h := flatfs_hash_name name nlen in
    let lb := fget (h_buf s) rt (rt_child (bucket_of h)) in
    if lb =? 0 then (inl FLATFS_ERR_NOTFOUND, s) else
    match find_entry (Z.to_nat FLATFS_DIRENTS_PER_BLK) (h_buf s) lb 0 h nlen name with
    | Some i => (inr (fget (h_buf s) (dirent lb i) de_ino), flatfs_mon_htree_lookup s true)
    | None => (inl FLATFS_ERR_NOTFOUND, flatfs_mon_htree_lookup s false)
    end
  end.

(** The loop of insertion: the first entry that is free or has the name. *)
Inductive probe := PFree (i : Z) | PExist | PFull.

Fixpoint probe_entry (n : nat) (m : bmem) (lb i h : Z) (nlen : nat) (name : list Z) : probe :=
  match n with
  | O => PFull
  | S n =>
    let a := dirent lb i in
    if negb (fget m a de_ino =? 0) then
      if entry_matches m a h nlen name then PExist else probe_entry n m lb (i + 1) h nlen name
    else PFree i
  end.

Definition write_entry (m : bmem) (a ino h : Z) (nlen : nat) (name : list Z) (ftype : Z) : bmem :=
  let m := memset m a 0 FLATFS_DIRENT_SIZE in
  let m := fset m a de_ino ino in
  let m := fset m a de_hash h in
  let m := fset m a de_name_len (u8 (Z.of_nat nlen)) in
  let m := fset m a de_file_type ftype in
  let m := fset m a de_rec_len FLATFS_DIRENT_SIZE in
  let m := memput m (a + de_name_off) (take nlen name) in
  let m := fset m a de_crc32 0 in
  fset m a de_crc32 (flatfs_crc32 m a 128).

(** [rt->count += d] and the new checksum. *)
Definition root_count (m : bmem) (rt d : Z) : bmem :=
  root_seal (fset m rt rt_count (u32 (fget m rt rt_count + d))) rt.

Definition flatfs_htree_insert (s : fs) (dir_ino : Z) (name : list Z) (ino ftype : Z) : flatfs_err * fs :=
  match htroot_ok s dir_ino with
  | None => (FLATFS_ERR_CORRUPT, s)
  | Some rt =>
    let nlen := fstrlen name (Z.to_nat FLATFS_NAME_MAX) in
    if FLATFS_NAME_MAX <=? Z.of_nat nlen then (FLATFS_ERR_NAMETOOLONG, s) else
    let h := flatfs_hash_name name nlen in
    let '(lb, s) := ensure_leaf s rt (bucket_of h) in
    if lb =? 0 then (FLATFS_ERR_NOSPACE, s) else
    match probe_entry (Z.to_nat FLATFS_DIRENTS_PER_BLK) (f_buf s) lb 0 h nlen name with
    | PExist => (FLATFS_ERR_EXIST, s)
    | PFull => (FLATFS_ERR_NOSPACE, s)
    | PFree i =>
      let b := write_entry (f_buf s) (dirent lb i) ino h nlen name ftype in
      let s := with_buf s (root_count b rt 1) in
      let a := inode_ptr s dir_ino in
      let s := with_buf s (fset (f_buf s) a i_size (u64 (fget (f_buf s) a i_size + 1))) in
      flatfs_inode_write s (inode_here s dir_ino)
    end
  end.

Definition flatfs_htree_remove (s : fs) (dir_ino : Z) (name : list Z) : flatfs_err * fs :=
  match htroot_ok s dir_ino with
  | None => (FLATFS_ERR_CORRUPT, s)
  | Some rt =>
    let nlen := fstrlen name (Z.to_nat FLATFS_NAME_MAX) in
    let h := flatfs_hash_name name nlen in
    let lb := fget (f_buf s) rt (rt_child (bucket_of h)) in
    if lb =? 0 then (FLATFS_ERR_NOTFOUND, s) else
    match find_entry (Z.to_nat FLATFS_DIRENTS_PER_BLK) (f_buf s) lb 0 h nlen name with
    | None => (FLATFS_ERR_NOTFOUND, s)
    | Some i =>
      let b := memset (f_buf s) (dirent lb i) 0 FLATFS_DIRENT_SIZE in
      let s := with_buf s (root_count b rt (-1)) in
      let a := inode_ptr s dir_ino in
      let sz := fget (f_buf s) a i_size in
      let s := if sz =? 0 then s else with_buf s (fset (f_buf s) a i_size (sz - 1)) in
      flatfs_inode_write s (inode_here s dir_ino)
    end
  end.

(** ** Listing *)

(** What the caller of readdir receives. *)
Record flatfs_dirent_info := DI { di_ino : Z; di_type : Z; di_name : list Z }.

Definition read_entry (m : bmem) (a : Z) : flatfs_dirent_info :=
  DI (fget m a de_ino) (fget m a de_file_type)
     (bytes_of m (a + de_name_off) (Z.to_nat (fget m a de_name_len))).

(** The inner loop: the entry found and the position after it. *)
Fixpoint iter_entries (n : nat) (m : bmem) (lb bk i : Z) : option (flatfs_dirent_info * Z) :=
  match n with
  | O => None
  | S n =>
    let a := dirent lb i in
    if fget m a de_ino =? 0 then iter_entries n m lb bk (i + 1)
    else Some (read_entry m a, bk * FLATFS_DIRENTS_PER_BLK + i + 1)
  end.

(** The outer loop; [global] is the position reached. *)
Fixpoint iter_buckets (n : nat) (m : bmem) (rt bk global : Z) : option (flatfs_dirent_info * Z) :=
  match n with
  | O => None
  | S n =>
    let per := FLATFS_DIRENTS_PER_BLK in
    let lb := fget m rt (rt_child bk) in
    if lb =? 0 then iter_buckets n m rt (bk + 1) ((bk + 1) * per) else
    let i := if bk =? global / per then global mod per else 0 in
    match iter_entries (Z.to_nat (per - i)) m lb bk i with
    | Some r => Some r
    | None => iter_buckets n m rt (bk + 1) (bk * per + per)
    end
  end.

(** The result and the new [*pos]. *)
Definition flatfs_htree_iterate (s : fs) (dir_ino pos : Z) : (flatfs_err + flatfs_dirent_info) * Z :=
  match htroot_ok s dir_ino with
  | None => (inl FLATFS_ERR_CORRUPT, pos)
  | Some rt =>
    let bk := pos / FLATFS_DIRENTS_PER_BLK in
    match iter_buckets (Z.to_nat (FLATFS_HTREE_FANOUT - bk)) (f_buf s) rt bk pos with
    | Some (e, pos) => (inr e, pos)
    | None => (inl FLATFS_ERR_NOTFOUND, FLATFS_HTREE_FANOUT * FLATFS_DIRENTS_PER_BLK)
    end
  end.

(** The magic is not looked at. *)
Definition flatfs_htree_isempty (s : fs) (dir_ino : Z) : bool :=
  match htroot s dir_ino with
  | None => true
  | Some rt => fget (f_buf s) rt rt_count =? 0
  end.

(** ** flatfs_dir.c *)

Definition flatfs_dir_lookup := flatfs_htree_lookup.
Definition flatfs_dir_insert := flatfs_htree_insert.
Definition flatfs_dir_remove := flatfs_htree_remove.
Definition flatfs_dir_isempty := flatfs_htree_isempty.
Definition flatfs_dir_readdir := flatfs_htree_iterate.
