(* ===== verification/FlatHtreeRel.v ===== *)
(** * FlatFS directories: entries, slots and tables

    What the bytes of an entry, of a leaf block and of a directory mean:
    an entry is free or holds a number, a type and a name; a leaf is 32
    slots; a directory is a table of slots by bucket, which stands for a map
    from names when no name occurs twice. *)

From stdpp Require Import base list gmap.
From Stdlib Require Import ZArith Lia.
From S2P Require Import Prelude FlatCrc FlatFs FlatAlloc FlatSuper FlatFile FlatIO FlatHtree.

Abbreviation dent := flatfs_dirent_info.
Abbreviation slots := (list (option dent)).

#[export] Instance dent_eq_dec : EqDecision dent.
Proof. solve_decision. Defined.

(** ** Names *)

(** A name that fits an entry. *)
Definition name_ok (n : list Z) : Prop := (length n <= 108)%nat /\ Forall (fun c => 0 < c < 256) n.

#[export] Instance name_ok_dec n : Decision (name_ok n).
Proof. apply _. Defined.

Lemma fstrlen_name n max : Forall (fun c => 0 < c < 256) n -> (length n <= max)%nat -> fstrlen n max = length n.
Proof.
  intros Hn. revert max. induction Hn as [|c n Hc _ IH]; intros [|max] Hl; cbn in *; try (done || lia).
  rewrite (proj2 (Z.eqb_neq c 0)) by lia. f_equal. apply IH. lia.
Qed.

Definition name_hash (n : list Z) : Z := flatfs_hash_name n (length n).
Definition name_bucket (n : list Z) : Z := bucket_of (name_hash n).

Lemma fold_hash_range l : forall h, 0 <= h < 2 ^ 32 ->
  0 <= fold_left (fun h c => u32 (Z.lxor h c * FNV1A_32_PRIME)) l h < 2 ^ 32.
Proof.
  induction l as [|c l IH]; intros h Hh; cbn [fold_left]; [done|]. apply IH. apply Z.mod_pos_bound. lia.
Qed.

Lemma name_hash_range n : 0 <= name_hash n < 2 ^ 32.
Proof. apply fold_hash_range. done. Qed.

Lemma name_bucket_range n : 0 <= name_bucket n < 256.
Proof. apply Z.mod_pos_bound. lia. Qed.

Lemma cstr_lookup n i : 0 <= i < Z.of_nat (length n) -> n !! Z.to_nat i = Some (cstr n i).
Proof.
  intros Hi. unfold cstr. rewrite nth_lookup. destruct (n !! Z.to_nat i) eqn:E; [done|].
  apply lookup_ge_None in E. lia.
Qed.

Lemma cstr_ok n i : Forall (fun c => 0 < c < 256) n -> 0 <= i < Z.of_nat (length n) -> 0 < cstr n i < 256.
Proof. intros Hn Hi. eapply Forall_lookup_1 in Hn; [|by apply cstr_lookup]. done. Qed.

Lemma fstrncmp_spec n (a b : Z -> Z) : forall i, (forall j, i <= j < i + Z.of_nat n -> b j <> 0) ->
  fstrncmp n a b i = 0 <-> forall j, i <= j < i + Z.of_nat n -> a j = b j.
Proof.
  induction n as [|n IH]; intros i Hb; cbn [fstrncmp]; [split; [lia|done]|].
  pose proof (Hb i ltac:(lia)) as Hi. destruct (Z.eqb_spec (a i) (b i)) as [E|E]; cbn [negb].
  - rewrite (proj2 (Z.eqb_neq _ _)) by congruence. rewrite IH by (intros; apply Hb; lia).
    split; intros Hall j Hj; [|apply Hall; lia]. destruct (Z.eq_dec j i) as [->|]; [done|]. apply Hall. lia.
  - split; [lia|]. intros Hall. by rewrite Hall in E by lia.
Qed.

Lemma cstr_eq n n' : length n = length n' -> (forall i, 0 <= i < Z.of_nat (length n) -> cstr n i = cstr n' i) -> n = n'.
Proof.
  intros Hl Hall. apply list_eq_same_length with (length n); [done|done|]. intros i x y Hi Hx Hy.
  specialize (Hall (Z.of_nat i) ltac:(lia)). unfold cstr in Hall. rewrite Nat2Z.id in Hall.
  by rewrite (nth_lookup_Some n _ _ _ Hx), (nth_lookup_Some n' _ _ _ Hy) in Hall.
Qed.

(** ** Entries *)

Definition ent_ok (e : dent) : Prop :=
  0 < di_ino e < 2 ^ 64 /\ 0 <= di_type e < 256 /\ name_ok (di_name e).

(** The 128 bytes at [a]. *)
Definition ent_at (m : bmem) (a : Z) (o : option dent) : Prop :=
  match o with
  | None => fget m a de_ino = 0
  | Some e =>
    ent_ok e /\ fget m a de_ino = di_ino e /\ fget m a de_hash = name_hash (di_name e) /\
    fget m a de_name_len = Z.of_nat (length (di_name e)) /\ fget m a de_file_type = di_type e /\
    forall i, 0 <= i < Z.of_nat (length (di_name e)) -> m (a + de_name_off + i) = cstr (di_name e) i
  end.

Lemma ent_ext m m' a o : (forall i, a <= i < a + 128 -> m' i = m i) -> ent_at m a o -> ent_at m' a o.
Proof.
  intros Hm. assert (Hf : forall f, 0 <= f_off f -> f_off f + Z.of_nat (f_width f) <= 128 -> fget m' a f = fget m a f).
  { intros f H1 H2. apply fget_ext. intros i Hi. apply Hm. lia. }
  unfold ent_at. destruct o as [e|]; rewrite ?Hf by (cbn; lia); [|done].
  intros (He & H1 & H2 & H3 & H4 & H5). split_and!; try done. intros i Hi. rewrite <- H5 by done. apply Hm.
  destruct He as (_ & _ & Hn & _). unfold de_name_off. lia.
Qed.

Lemma ent_ino m a o : ent_at m a o -> (fget m a de_ino =? 0) = match o with None => true | Some _ => false end.
Proof.
  destruct o as [e|]; cbn [ent_at].
  - intros ((Hi & _) & -> & _). by rewrite (proj2 (Z.eqb_neq _ _)) by lia.
  - by intros ->.
Qed.

Lemma ent_matches m a e n : ent_at m a (Some e) -> name_ok n ->
  entry_matches m a (name_hash n) (length n) n = bool_decide (di_name e = n).
Proof.
  intros ((_ & _ & Hl & _) & _ & Hh & Hlen & _ & Hb) [Hn1 Hn2]. unfold entry_matches. rewrite Hh, Hlen.
  assert (u8 (Z.of_nat (length n)) = Z.of_nat (length n)) as -> by (apply Z.mod_small; lia).
  destruct (bool_decide_reflect (di_name e = n)) as [<-|Hne].
  - rewrite !Z.eqb_refl. cbn [andb]. apply Z.eqb_eq. apply fstrncmp_spec; [|intros j Hj; apply Hb; lia].
    intros j Hj. pose proof (cstr_ok (di_name e) j Hn2 ltac:(lia)). lia.
  - apply not_true_is_false. intros E. apply andb_true_iff in E as [[_ E1%Z.eqb_eq]%andb_true_iff E2%Z.eqb_eq].
    rewrite fstrncmp_spec in E2; [|intros j Hj; pose proof (cstr_ok n j Hn2 ltac:(lia)); lia].
    apply Hne, cstr_eq; [lia|]. intros i Hi. rewrite <- Hb, E2 by lia. done.
Qed.

(** ** Leaves *)

(** The first slot that satisfies [p]. *)
Fixpoint first_idx {A} (p : A -> bool) (l : list A) : option nat :=
  match l with
  | [] => None
  | x :: l => if p x then Some O else S <$> first_idx p l
  end.

Lemma first_idx_some {A} (p : A -> bool) l i : first_idx p l = Some i ->
  (exists x, l !! i = Some x /\ p x = true) /\ forall j y, (j < i)%nat -> l !! j = Some y -> p y = false.
Proof.
  revert i. induction l as [|x l IH]; intros i; cbn [first_idx]; [done|]. destruct (p x) eqn:E.
  - intros [= <-]. split; [by exists x|lia].
  - destruct (first_idx p l) as [k|]; [|done]. intros [= <-]. destruct (IH k eq_refl) as [Hx Hlt].
    split; [done|]. intros [|j] y Hj; [by intros [= <-]|]. apply Hlt. lia.
Qed.

Lemma first_idx_none {A} (p : A -> bool) l : first_idx p l = None -> Forall (fun x => p x = false) l.
Proof.
  induction l as [|x l IH]; cbn [first_idx]; [done|]. destruct (p x) eqn:E; [done|].
  destruct (first_idx p l); [done|]. intros _. constructor; [done|by apply IH].
Qed.

Definition has_name (n : list Z) (o : option dent) : bool :=
  match o with Some e => bool_decide (di_name e = n) | None => false end.
Definition free_or_named (n : list Z) (o : option dent) : bool :=
  match o with Some e => bool_decide (di_name e = n) | None => true end.

(** The slots from address [a] on. *)
Definition slots_at (m : bmem) (a : Z) (l : slots) : Prop :=
  forall i o, l !! i = Some o -> ent_at m (a + 128 * Z.of_nat i) o.

Definition leaf_at (m : bmem) (blk : Z) (l : slots) : Prop := length l = 32%nat /\ slots_at m (blk * 4096) l.

Lemma slots_cons m a o l : slots_at m a (o :: l) -> ent_at m a o /\ slots_at m (a + 128) l.
Proof.
  intros Hs. split; [specialize (Hs 0%nat o eq_refl); by rewrite Z.mul_0_r, Z.add_0_r in Hs|].
  intros i x Hi. specialize (Hs (S i) x Hi). by replace (a + 128 + 128 * Z.of_nat i) with (a + 128 * Z.of_nat (S i)) by lia.
Qed.

Lemma dirent_eq blk i : 0 <= blk < 2 ^ 52 -> dirent blk i = blk * 4096 + 128 * i.
Proof. intros. unfold dirent. by rewrite blk_ptr_eq. Qed.

Lemma find_entry_slots m blk n : 0 <= blk < 2 ^ 52 -> name_ok n -> forall (l : slots) i, slots_at m (blk * 4096 + 128 * i) l ->
  find_entry (length l) m blk i (name_hash n) (length n) n = (fun k => i + Z.of_nat k) <$> first_idx (has_name n) l.
Proof.
  intros Hb Hn. induction l as [|o l IH]; intros i Hs; [done|]. apply slots_cons in Hs as [He Hs].
  cbn [length find_entry first_idx]. rewrite dirent_eq, (ent_ino _ _ _ He) by done.
  replace (blk * 4096 + 128 * i + 128) with (blk * 4096 + 128 * (i + 1)) in Hs by lia. specialize (IH _ Hs).
  assert (Hsh : find_entry (length l) m blk (i + 1) (name_hash n) (length n) n
                = (fun k => i + Z.of_nat k) <$> (S <$> first_idx (has_name n) l)).
  { rewrite IH. destruct (first_idx _ l); cbn; [f_equal; lia|done]. }
  destruct o as [e|]; cbn [has_name]; [|done]. rewrite (ent_matches _ _ _ _ He Hn).
  destruct (bool_decide _); [cbn; f_equal; lia|done].
Qed.

Definition probe_of (l : slots) (i : Z) (r : option nat) : probe :=
  match r with
  | None => PFull
  | Some k => match l !! k with Some None => PFree (i + Z.of_nat k) | _ => PExist end
  end.

Lemma probe_slots m blk n : 0 <= blk < 2 ^ 52 -> name_ok n -> forall (l : slots) i, slots_at m (blk * 4096 + 128 * i) l ->
  probe_entry (length l) m blk i (name_hash n) (length n) n = probe_of l i (first_idx (free_or_named n) l).
Proof.
  intros Hb Hn. induction l as [|o l IH]; intros i Hs; [done|]. apply slots_cons in Hs as [He Hs].
  cbn [length probe_entry first_idx]. rewrite dirent_eq, (ent_ino _ _ _ He) by done.
  replace (blk * 4096 + 128 * i + 128) with (blk * 4096 + 128 * (i + 1)) in Hs by lia. specialize (IH _ Hs).
  destruct o as [e|]; cbn [free_or_named negb].
  - rewrite (ent_matches _ _ _ _ He Hn). destruct (bool_decide _); [done|]. rewrite IH.
    destruct (first_idx _ l) as [k|]; [|done]. cbn. destruct (l !! k) as [[?|]|]; try done. f_equal. lia.
  - cbn. f_equal. lia.
Qed.

(** ** Tables *)

Abbreviation table := (Z -> slots).
Abbreviation names := (gmap (list Z) (Z * Z)).

(** All entries, bucket by bucket. *)
Definition bucket_ents (T : table) (b : nat) : list dent := omap id (T (Z.of_nat b)).
Definition ents (T : table) : list dent := seq 0 256 ≫= bucket_ents T.

Definition to_dent (p : list Z * (Z * Z)) : dent := DI p.2.1 p.2.2 p.1.

(** The table holds exactly the bindings of [M]. *)
Definition tab_map (T : table) (M : names) : Prop := ents T ≡ₚ to_dent <$> map_to_list M.

(** Every entry is in the bucket of its name. *)
Definition placed (T : table) : Prop :=
  forall b i e, 0 <= b < 256 -> T b !! i = Some (Some e) -> name_bucket (di_name e) = b.

Lemma elem_ents T e : e ∈ ents T <-> exists b i, 0 <= b < 256 /\ T b !! i = Some (Some e).
Proof.
  unfold ents. rewrite list_elem_of_bind. unfold bucket_ents. split.
  - intros (b & He & Hb%elem_of_seq). apply list_elem_of_omap in He as (o & Ho & Eo). cbn in Eo. subst o.
    apply list_elem_of_lookup in Ho as [i Hi]. exists (Z.of_nat b), i. split; [lia|done].
  - intros (b & i & Hb & Hi). exists (Z.to_nat b). rewrite Z2Nat.id by lia. split; [|apply elem_of_seq; lia].
    apply list_elem_of_omap. exists (Some e). split; [by eapply list_elem_of_lookup_2|done].
Qed.

Lemma elem_names (M : names) e : e ∈ to_dent <$> map_to_list M <-> M !! di_name e = Some (di_ino e, di_type e).
Proof.
  rewrite list_elem_of_fmap. split.
  - intros ([n [i t]] & -> & Hp). by apply elem_of_map_to_list in Hp.
  - intros Hm. exists (di_name e, (di_ino e, di_type e)). split; [by destruct e|]. by apply elem_of_map_to_list.
Qed.

Lemma tab_map_elem T M e : tab_map T M -> M !! di_name e = Some (di_ino e, di_type e) <-> exists b i, 0 <= b < 256 /\ T b !! i = Some (Some e).
Proof. intros Ht. by rewrite <- elem_names, <- Ht, elem_ents. Qed.

(** The search in the bucket of a name is the look-up in the map. *)
Lemma tab_lookup T M n : tab_map T M -> placed T ->
  match M !! n with
  | Some (i, t) => exists k, first_idx (has_name n) (T (name_bucket n)) = Some k /\ T (name_bucket n) !! k = Some (Some (DI i t n))
  | None => first_idx (has_name n) (T (name_bucket n)) = None
  end.
Proof.
  intros Ht Hp. destruct (first_idx _ _) as [k|] eqn:E.
  - apply first_idx_some in E as [([e|] & Hk & He) _]; [|done]. apply bool_decide_eq_true in He as <-.
    assert (Hm : M !! di_name e = Some (di_ino e, di_type e)).
    { apply (tab_map_elem T M e Ht). exists (name_bucket (di_name e)), k. split; [apply name_bucket_range|done]. }
    rewrite Hm. exists k. split; [done|]. by destruct e.
  - destruct (M !! n) as [[i t]|] eqn:Em; [|done]. apply first_idx_none in E.
    destruct (proj1 (tab_map_elem T M (DI i t n) Ht)) as (b & k & Hb & Hk); [done|].
    rewrite <- (Hp _ _ _ Hb Hk) in Hk. eapply Forall_lookup_1 in E; [|done]. cbn in E. by rewrite bool_decide_eq_true_2 in E.
Qed.

Lemma bind_ext_in {A B} (f f' : A -> list B) l : (forall x, x ∈ l -> f x = f' x) -> l ≫= f = l ≫= f'.
Proof.
  induction l as [|x l IH]; intros Hf; [done|]. rewrite !bind_cons, (Hf x), IH; [done| |set_solver].
  intros y Hy. apply Hf. set_solver.
Qed.

Lemma ents_upd T b : 0 <= b < 256 ->
  exists rest, ents T ≡ₚ omap id (T b) ++ rest /\ forall l, ents (upd T b l) ≡ₚ omap id l ++ rest.
Proof.
  intros Hb. set (k := Z.to_nat b).
  exists ((seq 0 k ≫= bucket_ents T) ++ (seq (S k) (255 - k) ≫= bucket_ents T)).
  assert (Hs : forall U, ents U = (seq 0 k ≫= bucket_ents U) ++ bucket_ents U k ++ (seq (S k) (255 - k) ≫= bucket_ents U)).
  { intros U. unfold ents. replace 256%nat with (k + S (255 - k))%nat by lia. rewrite seq_app, bind_app. done. }
  assert (Ho : forall l k', k' <> k -> bucket_ents (upd T b l) k' = bucket_ents T k').
  { intros l k' Hk. unfold bucket_ents. rewrite upd_ne; [done|lia]. }
  assert (Hk : Z.of_nat k = b) by lia.
  split; [|intros l]; rewrite Hs.
  - unfold bucket_ents at 2. rewrite Hk. solve_Permutation.
  - rewrite (bind_ext_in _ (bucket_ents T) (seq 0 k)) by (intros x Hx%elem_of_seq; apply Ho; lia).
    rewrite (bind_ext_in _ (bucket_ents T) (seq (S k) _)) by (intros x Hx%elem_of_seq; apply Ho; lia).
    unfold bucket_ents at 2. rewrite Hk, upd_eq. solve_Permutation.
Qed.

Lemma omap_fill (l : slots) i e : l !! i = Some None -> omap id (<[i := Some e]> l) ≡ₚ e :: omap id l.
Proof.
  intros Hi. pose proof (take_drop_middle _ _ _ Hi) as E. rewrite <- E at 2.
  rewrite insert_take_drop by (by eapply lookup_lt_Some). rewrite !omap_app. cbn. solve_Permutation.
Qed.

Lemma omap_clear (l : slots) i e : l !! i = Some (Some e) -> omap id l ≡ₚ e :: omap id (<[i := None]> l).
Proof.
  intros Hi. pose proof (take_drop_middle _ _ _ Hi) as E. rewrite <- E at 1.
  rewrite insert_take_drop by (by eapply lookup_lt_Some). rewrite !omap_app. cbn. solve_Permutation.
Qed.

(** Filling a free slot adds a binding, clearing a slot removes one. *)
Definition put_slot (T : table) (b : Z) (i : nat) (o : option dent) : table := upd T b (<[i := o]> (T b)).

Lemma tab_insert T M b i e : tab_map T M -> 0 <= b < 256 -> T b !! i = Some None -> M !! di_name e = None ->
  tab_map (put_slot T b i (Some e)) (<[di_name e := (di_ino e, di_type e)]> M).
Proof.
  intros Ht Hb Hi Hm. destruct (ents_upd T b Hb) as (rest & H1 & H2). unfold tab_map, put_slot in *.
  rewrite H2, omap_fill, map_to_list_insert by done. cbn [app]. rewrite <- H1, Ht. by destruct e.
Qed.

Lemma tab_delete T M b i e : tab_map T M -> 0 <= b < 256 -> T b !! i = Some (Some e) ->
  tab_map (put_slot T b i None) (delete (di_name e) M).
Proof.
  intros Ht Hb Hi. destruct (ents_upd T b Hb) as (rest & H1 & H2). unfold tab_map, put_slot in *.
  assert (Hm : M !! di_name e = Some (di_ino e, di_type e)) by (apply (tab_map_elem T M e Ht); by exists b, i).
  rewrite H2. apply (Permutation.Permutation_cons_inv (a := e)).
  change (e :: ?x ++ ?y) with ((e :: x) ++ y). rewrite <- omap_clear, <- H1, Ht by done.
  rewrite <- (map_to_list_delete M (di_name e) _ Hm). by destruct e.
Qed.

Lemma ents_size T M : tab_map T M -> length (ents T) = size M.
Proof. intros ->. by rewrite length_fmap, length_map_to_list. Qed.

Lemma ents_bound T : (forall b, 0 <= b < 256 -> length (T b) = 32%nat) -> Z.of_nat (length (ents T)) <= 8192.
Proof.
  intros Hl. unfold ents. assert (Hn : forall n, (n <= 256)%nat -> (length (seq 0 n ≫= bucket_ents T) <= 32 * n)%nat); [|specialize (Hn 256%nat); lia].
  induction n as [|n IH]; [done|]. intros Hn. rewrite seq_S, bind_app, length_app. specialize (IH ltac:(lia)).
  replace ([(0 + n)%nat] ≫= bucket_ents T) with (bucket_ents T n) by (symmetry; apply app_nil_r).
  specialize (Hl (Z.of_nat n) ltac:(lia)).
  assert (Ho : forall l : slots, (length (omap id l) <= length l)%nat).
  { induction l as [|[x|] l IHl]; [done|change (S (length (omap id l)) <= S (length l))%nat; lia|
      change (length (omap id l) <= S (length l))%nat; lia]. }
  specialize (Ho (T (Z.of_nat n))). fold (bucket_ents T n) in Ho. lia.
Qed.

Lemma placed_put T b i o : 0 <= b < 256 -> placed T -> (forall e, o = Some e -> name_bucket (di_name e) = b) ->
  placed (put_slot T b i o).
Proof.
  intros Hb Hp Ho b' j e Hb'. unfold put_slot. destruct (Z.eq_dec b' b) as [->|Hne]; [|rewrite upd_ne by done; by apply Hp].
  rewrite upd_eq. destruct (decide (j = i)) as [->|Hj].
  - destruct (decide (i < length (T b))%nat) as [Hi|Hi]; [rewrite list_lookup_insert_eq by done; intros [= ->]; by apply Ho|].
    rewrite list_insert_ge by lia. by apply Hp.
  - rewrite list_lookup_insert_ne by done. by apply Hp.
Qed.
