(* ===== verification/FlatHtreeOps.v ===== *)
(** * FlatFS directories: what the operations do to the volume

    The relation between a mounted volume and a family of directories, each
    a map from names, and how every operation of flatfs_hash.c moves along
    it.  Blocks of directories are allocated and belong to one directory
    only; what is in no directory is left alone. *)

From stdpp Require Import base list gmap.
From Stdlib Require Import ZArith Lia.
From S2P Require Import Prelude FlatCrc FlatFs FlatAlloc FlatSuper FlatFile FlatIO FlatHtree FlatHtreeRel.

(** ** Writing an entry and sealing the root *)

Lemma root_seal_out m rt i : i < rt + 4092 \/ rt + 4096 <= i -> root_seal m rt i = m i.
Proof. intros Hi. unfold root_seal, fset, rt_crc32. cbn [f_off f_width]. by rewrite !wr_out by (cbn; lia). Qed.

Lemma root_seal_bytes m rt : bytes_ok m -> bytes_ok (root_seal m rt).
Proof. intros. unfold root_seal, fset. auto with kobalt. Qed.

Lemma root_count_out m rt d i : i < rt + 4 \/ rt + 8 <= i < rt + 4092 \/ rt + 4096 <= i -> root_count m rt d i = m i.
Proof.
  intros Hi. unfold root_count. rewrite root_seal_out by lia. unfold fset, rt_count. cbn [f_off f_width].
  by rewrite wr_out by (cbn; lia).
Qed.

Lemma root_count_bytes m rt d : bytes_ok m -> bytes_ok (root_count m rt d).
Proof. intros. apply root_seal_bytes, bytes_ok_wr. done. Qed.

Lemma root_count_get m rt d : fget (root_count m rt d) rt rt_count = u32 (fget m rt rt_count + d).
Proof.
  unfold root_count. rewrite (fget_out (fset m rt rt_count (u32 (fget m rt rt_count + d)))).
  - unfold fget, fset. apply rd_wr_small. apply Z.mod_pos_bound. done.
  - cbn. intros i Hi. apply root_seal_out. lia.
Qed.

Lemma write_entry_out m a ino h nlen name ft i : (length (take nlen name) <= 108)%nat -> i < a \/ a + 128 <= i ->
  write_entry m a ino h nlen name ft i = m i.
Proof.
  intros Hl Hi. unfold write_entry, fset, FLATFS_DIRENT_SIZE, de_name_off. cbn [f_off f_width de_crc32 de_rec_len de_file_type de_name_len de_hash de_ino].
  rewrite !wr_out by (cbn; lia). rewrite memput_out by lia. rewrite !wr_out by (cbn; lia). apply memset_out. lia.
Qed.

Lemma write_entry_bytes m a ino h nlen name ft : bytes_ok m -> Forall (fun c => 0 < c < 256) name ->
  bytes_ok (write_entry m a ino h nlen name ft).
Proof.
  intros Hm Hn. unfold write_entry, fset. do 2 apply bytes_ok_wr. intros i.
  unfold memput. destruct (_ && _).
  - destruct (nth_in_or_default (Z.to_nat (i - (a + de_name_off))) (take nlen name) 0) as [Hin| ->]; [|lia].
    apply list_elem_of_In in Hin. assert (Hf : Forall (fun c => 0 < c < 256) (take nlen name)) by (by apply Forall_take).
    rewrite Forall_forall in Hf. apply Hf in Hin. lia.
  - repeat apply bytes_ok_wr. by apply bytes_ok_memset.
Qed.

Lemma write_entry_at m a e : bytes_ok m -> ent_ok e ->
  ent_at (write_entry m a (di_ino e) (name_hash (di_name e)) (length (di_name e)) (di_name e) (di_type e)) a (Some e).
Proof.
  intros Hm (Hi & Ht & Hl & Hn). pose proof (name_hash_range (di_name e)) as Hh. cbn [ent_at].
  unfold write_entry. rewrite firstn_all. set (n := di_name e) in *.
  assert (E8 : u8 (Z.of_nat (length n)) = Z.of_nat (length n)) by (apply Z.mod_small; lia). rewrite E8.
  set (m1 := fset (fset _ _ de_file_type _) _ de_rec_len _). set (m2 := memput m1 _ _).
  set (m3 := fset (fset m2 _ _ _) _ _ _).
  assert (H3 : forall i, a <= i < a + 124 -> m3 i = m2 i).
  { intros i Hi'. unfold m3, fset, de_crc32. cbn [f_off f_width]. by rewrite !wr_out by (cbn; lia). }
  assert (H2 : forall i, a <= i < a + 16 -> m2 i = m1 i).
  { intros i Hi'. unfold m2, de_name_off. rewrite memput_out by lia. done. }
  assert (Hg : forall f, 0 <= f_off f -> f_off f + Z.of_nat (f_width f) <= 16 -> fget m3 a f = fget m1 a f).
  { intros f F1 F2. apply fget_out. intros i Hi'. rewrite H3, H2 by lia. done. }
  split; [done|]. rewrite !Hg by (cbn; lia). unfold m1, fget, fset.
  cbn [f_off f_width de_rec_len de_file_type de_name_len de_hash de_ino].
  split_and!; try (rewrite ?rd_wr_other by (cbn; lia); apply rd_wr_small; cbn; lia).
  intros i Hi'. rewrite H3 by (unfold de_name_off; lia). unfold m2, de_name_off. rewrite memput_in by lia.
  unfold cstr. do 2 f_equal. lia.
Qed.

Section Dirs.
Context (g : geom) (Hg : geom_ok g).
Context (its ti : Z) (Hit : 2 <= its /\ 0 < ti /\ its * 16 + ti <= ge_fl g * 16).

Abbreviation VI := (vinv g its ti).

(** ** One directory in memory *)

Definition iaddr (d : Z) : Z := its * 4096 + d * 256.

(** The block of bucket [b] of the root [r], and all blocks of a directory:
    number -1 is the root. *)
Definition child (m : bmem) (r b : Z) : Z := fget m (r * 4096) (rt_child b).
Definition dref (m : bmem) (r k : Z) : Z := if k =? -1 then r else child m r k.

Record dir_at (m : bmem) (d r : Z) (T : table) : Prop := {
  da_ino : fget m (iaddr d) i_ino = d;
  da_imagic : fget m (iaddr d) i_magic = FLATFS_INODE_MAGIC;
  da_valid : inode_verdict (fun i => m (iaddr d + i)) = FLATFS_OK;
  da_root : fget m (iaddr d) i_dir_htree_blk = r;
  da_size : fget m (iaddr d) i_size = Z.of_nat (length (ents T));
  da_magic : fget m (r * 4096) rt_magic = FLATFS_HTREE_MAGIC;
  da_count : fget m (r * 4096) rt_count = Z.of_nat (length (ents T));
  da_len : forall b, 0 <= b < 256 -> length (T b) = 32%nat;
  da_empty : forall b, 0 <= b < 256 -> child m r b = 0 -> T b = replicate 32 None;
  da_slots : forall b, 0 <= b < 256 -> child m r b <> 0 -> slots_at m (child m r b * 4096) (T b);
  da_placed : placed T }.

(** The bytes of a directory did not change. *)
Definition dir_same (m m' : bmem) (d r : Z) : Prop :=
  (forall i, iaddr d <= i < iaddr d + 256 -> m' i = m i) /\
  (forall k i, -1 <= k < 256 -> dref m r k <> 0 -> dref m r k * 4096 <= i < dref m r k * 4096 + 4096 -> m' i = m i).

Lemma dir_same_ref m m' d r k : r <> 0 -> dir_same m m' d r -> -1 <= k < 256 -> dref m' r k = dref m r k.
Proof.
  intros Hr [_ Hs] Hk. unfold dref. destruct (Z.eqb_spec k (-1)); [done|]. apply fget_out. cbn. intros i Hi.
  apply (Hs (-1)); [lia|done|]. unfold dref. rewrite Z.eqb_refl. lia.
Qed.

Lemma slots_ext m m' a l : (forall i, a <= i < a + 128 * Z.of_nat (length l) -> m' i = m i) -> slots_at m a l -> slots_at m' a l.
Proof.
  intros Hm Hs i o Hi. apply ent_ext with m; [|by apply Hs]. intros j Hj. apply Hm.
  pose proof (lookup_lt_Some _ _ _ Hi). lia.
Qed.

Lemma dir_at_ext m m' d r T : r <> 0 -> dir_same m m' d r -> dir_at m d r T -> dir_at m' d r T.
Proof.
  intros Hr Hs D. assert (Hc : forall b, 0 <= b < 256 -> child m' r b = child m r b).
  { intros b Hb. pose proof (dir_same_ref m m' d r b Hr Hs) as E. unfold dref in E.
    rewrite (proj2 (Z.eqb_neq b (-1))) in E by lia. apply E. lia. }
  pose proof Hs as [Hi Hblk].
  assert (Hrt : forall i, r * 4096 <= i < r * 4096 + 4096 -> m' i = m i) by (intros i Hi'; by apply (Hblk (-1))).
  assert (Fi : forall f, 0 <= f_off f -> f_off f + Z.of_nat (f_width f) <= 256 -> fget m' (iaddr d) f = fget m (iaddr d) f).
  { intros f F1 F2. apply fget_out. intros i Hi'. apply Hi. lia. }
  assert (Fr : forall f, 0 <= f_off f -> f_off f + Z.of_nat (f_width f) <= 4096 -> fget m' (r * 4096) f = fget m (r * 4096) f).
  { intros f F1 F2. apply fget_out. intros i Hi'. apply Hrt. lia. }
  destruct D. constructor; rewrite ?Fi, ?Fr by (cbn; lia); try done.
  - rewrite (verdict_ext (fun i => m (iaddr d + i))); [done|]. intros i Hi'. apply Hi. lia.
  - intros b Hb. rewrite Hc by done. by apply da_empty0.
  - intros b Hb. rewrite Hc by done. intros Hne. apply slots_ext with m; [|by apply da_slots0].
    rewrite da_len0 by done. intros i Hi'. apply (Hblk b); unfold dref; rewrite ?(proj2 (Z.eqb_neq b (-1))) by lia; (done || lia).
Qed.

(** ** All directories of a volume *)

(** [R] gives the root block and [T] the table of each directory of [D]. *)
Record vdirs (s : fs) (D : gmap Z names) (R : Z -> Z) (T : Z -> table) : Prop := {
  vd_inv : VI s;
  vd_num : forall d M, D !! d = Some M -> 0 < d < ti;
  vd_dir : forall d M, D !! d = Some M -> dir_at (f_buf s) d (R d) (T d) /\ tab_map (T d) M;
  vd_root : forall d M, D !! d = Some M -> R d <> 0;
  vd_blk : forall d M k, D !! d = Some M -> -1 <= k < 256 -> dref (f_buf s) (R d) k <> 0 ->
    ge_ds g <= dref (f_buf s) (R d) k < ge_tb g /\ used g (f_buf s) (dref (f_buf s) (R d) k - ge_ds g) = true;
  vd_inj : forall d M k d' M' k', D !! d = Some M -> D !! d' = Some M' -> -1 <= k < 256 -> -1 <= k' < 256 ->
    dref (f_buf s) (R d) k <> 0 -> dref (f_buf s) (R d) k = dref (f_buf s) (R d') k' -> d = d' /\ k = k' }.

(** What an operation on directory [d] leaves alone: the other inodes, and
    the allocated blocks that are not of [d]. *)
Definition dframe (m m' : bmem) (d r : Z) : Prop :=
  (forall i, its * 4096 <= i < ge_fl g * 4096 -> i < iaddr d \/ iaddr d + 256 <= i -> m' i = m i) /\
  (forall i, ge_ds g * 4096 <= i < ge_tb g * 4096 -> used g m (i / 4096 - ge_ds g) = true ->
     (forall k, -1 <= k < 256 -> dref m r k <> 0 -> i / 4096 <> dref m r k) -> m' i = m i).

Lemma dframe_same s D R T d M d' M' m' :
  vdirs s D R T -> D !! d = Some M -> D !! d' = Some M' -> d' <> d ->
  dframe (f_buf s) m' d (R d) -> dir_same (f_buf s) m' d' (R d').
Proof using Hit.
  intros V Hd Hd' Hne [F1 F2]. destruct Hit as (J1 & J2 & J3).
  pose proof (vd_num _ _ _ _ V _ _ Hd) as Nd. pose proof (vd_num _ _ _ _ V _ _ Hd') as Nd'. split.
  - intros i Hi. unfold iaddr in *. apply F1; lia.
  - intros k i Hk Hn Hi. destruct (vd_blk _ _ _ _ V _ _ _ Hd' Hk Hn) as [Hr Hu].
    assert (E : i / 4096 = dref (f_buf s) (R d') k) by (symmetry; apply Z.div_unique with (i - dref (f_buf s) (R d') k * 4096); lia).
    apply F2; [lia|by rewrite E|]. intros k' Hk' Hn'. rewrite E. intros Eq.
    destruct (vd_inj _ _ _ _ V _ _ _ _ _ _ Hd' Hd Hk Hk' Hn Eq) as [? _]. done.
Qed.

(** A step that changes one directory and may hang a fresh block into it. *)
Lemma vdirs_step s D R T d M s' T' M' k0 :
  vdirs s D R T -> D !! d = Some M -> VI s' ->
  dir_at (f_buf s') d (R d) T' -> tab_map T' M' -> dframe (f_buf s) (f_buf s') d (R d) ->
  (forall y, 0 <= y < ge_tb g - ge_ds g -> used g (f_buf s) y = true -> used g (f_buf s') y = true) ->
  (forall k, -1 <= k < 256 -> k <> k0 -> dref (f_buf s') (R d) k = dref (f_buf s) (R d) k) ->
  (let x := dref (f_buf s') (R d) k0 in x = dref (f_buf s) (R d) k0 \/
     (ge_ds g <= x < ge_tb g /\ used g (f_buf s) (x - ge_ds g) = false /\ used g (f_buf s') (x - ge_ds g) = true)) ->
  vdirs s' (<[d := M']> D) R (upd T d T').
Proof using Hg Hit.
  intros V Hd V' Da Ht Fr Hu Hk Hx.
  assert (Hold : forall d0 M0, <[d := M']> D !! d0 = Some M0 -> d0 = d \/ (d0 <> d /\ D !! d0 = Some M0)).
  { intros d0 M0. rewrite lookup_insert_Some. intros [[<- _]|[? ?]]; [by left|right; split; congruence]. }
  assert (Hds : forall d0 M0, D !! d0 = Some M0 -> d0 <> d -> dir_same (f_buf s) (f_buf s') d0 (R d0)).
  { intros d0 M0 H0 Hne. exact (dframe_same s D R T d M d0 M0 _ V Hd H0 Hne Fr). }
  (* a reference afterwards is an old one or the fresh block *)
  assert (Href : forall d0 M0 k, <[d := M']> D !! d0 = Some M0 -> -1 <= k < 256 ->
    dref (f_buf s') (R d0) k = dref (f_buf s) (R d0) k \/
    (d0 = d /\ k = k0 /\ ge_ds g <= dref (f_buf s') (R d0) k < ge_tb g /\
     used g (f_buf s) (dref (f_buf s') (R d0) k - ge_ds g) = false /\ used g (f_buf s') (dref (f_buf s') (R d0) k - ge_ds g) = true)).
  { intros d0 M0 k [->|[Hne H0]]%Hold Hkr.
    - destruct (Z.eq_dec k k0) as [->|Hn]; [|left; by apply Hk]. destruct Hx as [Hx|Hx]; [by left|right; tauto].
    - left. eapply dir_same_ref; [by eapply vd_root|by eapply Hds|done]. }
  assert (HD : forall d0 M0, <[d := M']> D !! d0 = Some M0 -> exists M1, D !! d0 = Some M1).
  { intros d0 M0 [->|[_ H0]]%Hold; eauto. }
  constructor.
  - done.
  - intros d0 M0 [? H0]%HD. by eapply vd_num.
  - intros d0 M0 H0. destruct (Hold _ _ H0) as [->|[Hne H1]].
    + rewrite lookup_insert_eq in H0. injection H0 as <-. rewrite upd_eq. done.
    + rewrite upd_ne by done. destruct (vd_dir _ _ _ _ V _ _ H1). split; [|done].
      eapply dir_at_ext; [by eapply vd_root|by eapply Hds|done].
  - intros d0 M0 [? H0]%HD. by eapply vd_root.
  - intros d0 M0 k H0 Hkr Hn. destruct (Href _ _ _ H0 Hkr) as [E|(-> & -> & ? & _ & ?)]; [|done].
    destruct (HD _ _ H0) as [M1 H1]. rewrite E in *. destruct (vd_blk _ _ _ _ V _ _ _ H1 Hkr Hn). split; [done|]. apply Hu; [lia|done].
  - intros d1 M1 k1 d2 M2 k2 H1 H2 K1 K2 Hn E.
    destruct (HD _ _ H1) as [N1 G1], (HD _ _ H2) as [N2 G2].
    destruct (Href _ _ _ H1 K1) as [E1|(-> & -> & R1 & U1 & _)], (Href _ _ _ H2 K2) as [E2|(-> & -> & R2 & U2 & _)].
    + rewrite E1, E2 in *. by eapply (vd_inj _ _ _ _ V).
    + rewrite E1 in *. rewrite <- E in U2. destruct (vd_blk _ _ _ _ V _ _ _ G1 K1 Hn) as [_ U]. congruence.
    + rewrite E2 in *. rewrite E in U1, Hn. destruct (vd_blk _ _ _ _ V _ _ _ G2 K2 Hn) as [_ U]. congruence.
    + done.
Qed.

(** ** The pieces of the operations *)

Lemma vdirs_bytes s D R T : vdirs s D R T -> bytes_ok (f_buf s).
Proof. intros V. apply (mi_bytes _ _ (ai_meta _ _ (vi_inv _ _ _ _ (vd_inv _ _ _ _ V)))). Qed.

Lemma root_range s D R T d M : vdirs s D R T -> D !! d = Some M -> ge_ds g <= R d < ge_tb g.
Proof.
  intros V Hd. pose proof (vd_blk _ _ _ _ V d M (-1) Hd ltac:(lia)) as Hb. unfold dref in Hb. rewrite Z.eqb_refl in Hb.
  apply Hb. by eapply vd_root.
Qed.

Lemma child_range s D R T d M b : vdirs s D R T -> D !! d = Some M -> 0 <= b < 256 -> child (f_buf s) (R d) b <> 0 ->
  ge_ds g <= child (f_buf s) (R d) b < ge_tb g /\ child (f_buf s) (R d) b <> R d /\
  forall b', 0 <= b' < 256 -> child (f_buf s) (R d) b' = child (f_buf s) (R d) b -> b' = b.
Proof.
  intros V Hd Hb Hn. assert (E : forall b, 0 <= b < 256 -> dref (f_buf s) (R d) b = child (f_buf s) (R d) b).
  { intros b' Hb'. unfold dref. by rewrite (proj2 (Z.eqb_neq b' (-1))) by lia. }
  split_and!.
  - pose proof (vd_blk _ _ _ _ V d M b Hd ltac:(lia)) as Hr. rewrite E in Hr by done. apply Hr. done.
  - pose proof (vd_blk _ _ _ _ V d M b Hd ltac:(lia)) as Hr. rewrite E in Hr by done. apply Hr. done.
  - intros Eq. destruct (vd_inj _ _ _ _ V d M b d M (-1) Hd Hd) as [_ ?]; rewrite ?E by done; try (done || lia).
  - intros b' Hb' Eq. destruct (vd_inj _ _ _ _ V d M b' d M b Hd Hd) as [_ ?]; rewrite ?E by done; (done || lia || congruence).
Qed.

Lemma htroot_spec s D R T d M : vdirs s D R T -> D !! d = Some M ->
  htroot s d = Some (R d * 4096) /\ htroot_ok s d = Some (R d * 4096).
Proof using Hg Hit.
  intros V Hd. destruct (vd_dir _ _ _ _ V _ _ Hd) as [Da _]. pose proof (root_range _ _ _ _ _ _ V Hd) as Hr.
  assert (E : htroot s d = Some (R d * 4096)).
  { unfold htroot. destruct (inode_addr g Hg its ti Hit s d (vd_inv _ _ _ _ V) (vd_num _ _ _ _ V _ _ Hd)) as [-> _].
    fold (iaddr d). rewrite (da_root _ _ _ _ Da), (proj2 (Z.eqb_neq _ _)) by (by eapply vd_root).
    rewrite blk_ptr_eq by (destruct Hg; lia). done. }
  split; [done|]. unfold htroot_ok. rewrite E. cbn [mbind option_bind]. by rewrite (da_magic _ _ _ _ Da), Z.eqb_refl.
Qed.

(** Writing back an inode that was changed in place. *)
Lemma inode_rewrite s d m1 :
  VI s -> 0 < d < ti -> bytes_ok m1 -> (forall i, i < iaddr d \/ iaddr d + 256 <= i -> m1 i = f_buf s i) ->
  fget m1 (iaddr d) i_ino = d -> fget m1 (iaddr d) i_magic = FLATFS_INODE_MAGIC ->
  let s1 := with_buf s m1 in
  exists m', flatfs_inode_write s1 (inode_here s1 d) = (FLATFS_OK, with_buf s m') /\ VI (with_buf s m') /\
    (forall i, i < iaddr d + 248 \/ iaddr d + 252 <= i -> m' i = m1 i) /\
    inode_verdict (fun i => m' (iaddr d + i)) = FLATFS_OK.
Proof using Hg Hit.
  intros V Hd Hb Ho Hino Hmag s1. destruct Hit as (J1 & J2 & J3).
  assert (V1 : VI s1).
  { apply vinv_ext with s; try done. cbn [s1 f_buf with_buf]. intros i Hi. unfold iaddr in Ho.
    destruct (Z.lt_ge_cases i (its * 4096)); [right; apply Ho; lia|].
    destruct (Z.lt_ge_cases i (ge_fl g * 4096)); [by left|right; apply Ho; lia]. }
  destruct (inode_addr g Hg its ti Hit s1 d V1 Hd) as [Ea Hfit]. fold (iaddr d) in Ea, Hfit.
  assert (Eh : forall i, inode_here s1 d i = m1 (iaddr d + i)) by (intros i; unfold inode_here; by rewrite Ea).
  assert (Ei : fget (inode_here s1 d) 0 i_ino = d).
  { rewrite <- Hino at 2. unfold fget. apply rd_ext. intros i Hi. rewrite Eh. f_equal. cbn. lia. }
  assert (Em : fget (inode_here s1 d) 0 i_magic = FLATFS_INODE_MAGIC).
  { rewrite <- Hmag. unfold fget. apply rd_ext. intros i Hi. rewrite Eh. f_equal. cbn. lia. }
  assert (Bh : bytes_ok (inode_here s1 d)) by (intros i; rewrite Eh; apply Hb).
  destruct (inode_write_spec g Hg its ti Hit s1 (inode_here s1 d) V1 Bh) as (Ew & V' & _); [by rewrite Ei|].
  unfold stored in Ew, V'. rewrite Ei in Ew, V'. fold (iaddr d) in Ew, V'.
  set (m' := memcpy (f_buf s1) (iaddr d) (stamped (inode_here s1 d)) 0 256) in *.
  assert (Hin : forall i, 0 <= i < 256 -> m' (iaddr d + i) = stamped (inode_here s1 d) i).
  { intros i Hi. unfold m'. rewrite memcpy_in by lia. f_equal. lia. }
  exists m'. split_and!; [done|done| |].
  - intros i Hi. destruct (Z.lt_ge_cases i (iaddr d)); [unfold m'; by rewrite memcpy_out by lia|].
    destruct (Z.lt_ge_cases i (iaddr d + 256)); [|unfold m'; by rewrite memcpy_out by lia].
    replace i with (iaddr d + (i - iaddr d)) by lia. rewrite Hin, stamped_other, Eh by lia. done.
  - rewrite (verdict_ext (stamped (inode_here s1 d))) by done. by apply stamped_verdict.
Qed.

(** One slot, the two counters and the checksums changed. *)
Record put_done (m m' : bmem) (d r b : Z) (i : nat) (o : option dent) (n : Z) : Prop := {
  pd_inode : forall j, iaddr d <= j < iaddr d + 256 -> j < iaddr d + 16 \/ iaddr d + 24 <= j < iaddr d + 248 \/ iaddr d + 252 <= j -> m' j = m j;
  pd_size : fget m' (iaddr d) i_size = n;
  pd_valid : inode_verdict (fun j => m' (iaddr d + j)) = FLATFS_OK;
  pd_root : forall j, r * 4096 <= j < r * 4096 + 4 \/ r * 4096 + 8 <= j < r * 4096 + 4092 -> m' j = m j;
  pd_count : fget m' (r * 4096) rt_count = n;
  pd_slot : ent_at m' (child m r b * 4096 + 128 * Z.of_nat i) o;
  pd_leaf : forall b' j, 0 <= b' < 256 -> child m r b' <> 0 -> child m r b' * 4096 <= j < child m r b' * 4096 + 4096 ->
    b' <> b \/ j < child m r b * 4096 + 128 * Z.of_nat i \/ child m r b * 4096 + 128 * Z.of_nat i + 128 <= j -> m' j = m j }.

Lemma put_child m m' d r b i o n b' : put_done m m' d r b i o n -> 0 <= b' < 256 -> child m' r b' = child m r b'.
Proof. intros P Hb. apply fget_out. cbn. intros j Hj. apply (pd_root _ _ _ _ _ _ _ _ P). lia. Qed.

Lemma dir_put m m' d r T b i o :
  dir_at m d r T -> 0 <= b < 256 -> child m r b <> 0 -> (i < 32)%nat ->
  (forall e, o = Some e -> name_bucket (di_name e) = b) ->
  put_done m m' d r b i o (Z.of_nat (length (ents (put_slot T b i o)))) ->
  dir_at m' d r (put_slot T b i o).
Proof.
  intros Da Hb Hc Hi Ho P. pose proof P as [P1 P2 P3 P4 P5 P6 P7].
  assert (Fi : forall f, 0 <= f_off f -> f_off f + Z.of_nat (f_width f) <= 256 ->
    f_off f + Z.of_nat (f_width f) <= 16 \/ 24 <= f_off f /\ f_off f + Z.of_nat (f_width f) <= 248 \/ 252 <= f_off f ->
    fget m' (iaddr d) f = fget m (iaddr d) f).
  { intros f F1 F2 F3. apply fget_out. intros j Hj. apply P1; lia. }
  destruct Da. constructor; rewrite ?Fi by (cbn; lia); try done.
  - rewrite <- da_magic0. apply fget_out. cbn. intros j Hj. apply P4. lia.
  - intros b' Hb'. unfold put_slot, upd. destruct (b' =? b); rewrite ?length_insert; by apply da_len0.
  - intros b' Hb'. erewrite put_child by done. intros E. unfold put_slot. rewrite upd_ne by congruence. by apply da_empty0.
  - intros b' Hb'. erewrite put_child by done. intros E. unfold put_slot.
    destruct (Z.eq_dec b' b) as [->|Hne].
    + rewrite upd_eq. intros j x Hj. destruct (decide (j = i)) as [->|Hji].
      * rewrite list_lookup_insert_eq in Hj by (rewrite da_len0; lia). by injection Hj as <-.
      * rewrite list_lookup_insert_ne in Hj by done. pose proof (lookup_lt_Some _ _ _ Hj) as Hl. rewrite da_len0 in Hl by done.
        apply ent_ext with m; [|by apply da_slots0]. intros a Ha. apply (P7 b a); try done; lia.
    + rewrite upd_ne by done. apply slots_ext with m; [|by apply da_slots0]. rewrite da_len0 by done.
      intros a Ha. apply (P7 b' a); try done; lia.
  - by apply placed_put.
Qed.

(** The step from [s] to [s'] may have taken blocks and gave none back. *)
Definition grew (s s' : fs) : Prop :=
  forall y, 0 <= y < ge_tb g - ge_ds g -> used g (f_buf s) y = true -> used g (f_buf s') y = true.

(** A step on the directory [d] with root [r]. *)
Record dstep (s s' : fs) (d r : Z) : Prop := {
  dp_frame : dframe (f_buf s) (f_buf s') d r;
  dp_grew : grew s s';
  dp_refs : forall k, -1 <= k < 256 -> dref (f_buf s') r k = dref (f_buf s) r k \/
    (ge_ds g <= dref (f_buf s') r k < ge_tb g /\ used g (f_buf s) (dref (f_buf s') r k - ge_ds g) = false) }.

Lemma dstep_refl s d r : dstep s s d r.
Proof. constructor; [by split|by intros ? ?|by left]. Qed.

Lemma dstep_trans s s1 s2 d r : dstep s s1 d r -> dstep s1 s2 d r -> dstep s s2 d r.
Proof.
  intros [[A1 A2] Ag Ar] [[B1 B2] Bg Br].
  assert (Hf : forall y, 0 <= y < ge_tb g - ge_ds g -> used g (f_buf s1) y = false -> used g (f_buf s) y = false).
  { intros y Hy Hu. destruct (used g (f_buf s) y) eqn:E; [|done]. rewrite (Ag y Hy E) in Hu. done. }
  constructor; [split|..].
  - intros i H1 H2. rewrite B1, A1 by done. done.
  - intros i H1 Hu Hne. assert (Hq : ge_ds g <= i / 4096 < ge_tb g) by zlia. rewrite B2; [by apply A2|done| |].
    + apply Ag; [lia|done].
    + intros k Hk Hz E. destruct (Ar k Hk) as [E'|[_ Hn]]; [apply (Hne k Hk); congruence|]. rewrite <- E in Hn. congruence.
  - intros y Hy Hu. by apply Bg, Ag.
  - intros k Hk. destruct (Br k Hk) as [E|[Hr Hn]]; [rewrite E; by apply Ar|]. right. split; [done|]. apply Hf; [lia|done].
Qed.

(** The common end of insertion and removal: [m1] has the slot changed. *)
Lemma put_spec s D R T d M b i o M' m1 dlt :
  vdirs s D R T -> D !! d = Some M -> 0 <= b < 256 -> child (f_buf s) (R d) b <> 0 -> (i < 32)%nat ->
  bytes_ok m1 -> ent_at m1 (child (f_buf s) (R d) b * 4096 + 128 * Z.of_nat i) o ->
  (forall j, j < child (f_buf s) (R d) b * 4096 + 128 * Z.of_nat i \/
             child (f_buf s) (R d) b * 4096 + 128 * Z.of_nat i + 128 <= j -> m1 j = f_buf s j) ->
  (forall e, o = Some e -> name_bucket (di_name e) = b) ->
  tab_map (put_slot (T d) b i o) M' -> Z.of_nat (size M') = Z.of_nat (size M) + dlt ->
  let s1 := with_buf s (root_count m1 (R d * 4096) dlt) in
  fget (f_buf s1) (inode_ptr s1 d) i_size = Z.of_nat (size M) /\
  let s2 := with_buf s1 (fset (f_buf s1) (inode_ptr s1 d) i_size (Z.of_nat (size M'))) in
  exists s', flatfs_inode_write s2 (inode_here s2 d) = (FLATFS_OK, s') /\
    vdirs s' (<[d := M']> D) R (upd T d (put_slot (T d) b i o)) /\ dstep s s' d (R d).
Proof using Hg Hit.
  intros V Hd Hb Hc Hi B1 He Ho Hn Ht Hsz. set (c := child (f_buf s) (R d) b) in *. intros s1.
  pose proof (root_range _ _ _ _ _ _ V Hd) as Hr. destruct (child_range _ _ _ _ _ _ b V Hd Hb Hc) as (Hcr & Hcne & Hcinj).
  fold c in Hcr, Hcne, Hcinj. pose proof (vd_num _ _ _ _ V _ _ Hd) as Nd. destruct (vd_dir _ _ _ _ V _ _ Hd) as [Da Ht0].
  assert (Hia : its * 4096 <= iaddr d /\ iaddr d + 256 <= ge_fl g * 4096 /\ ge_fl g * 4096 <= ge_ds g * 4096).
  { unfold iaddr. destruct Hg, Hit as (J1 & J2 & J3). lia. }
  set (m2 := root_count m1 (R d * 4096) dlt) in *.
  assert (H2 : forall j, j < R d * 4096 + 4 \/ R d * 4096 + 8 <= j < R d * 4096 + 4092 \/ R d * 4096 + 4096 <= j -> m2 j = m1 j)
    by (intros; by apply root_count_out).
  assert (Hlow : forall j, j < ge_ds g * 4096 -> m2 j = f_buf s j) by (intros j Hj; rewrite H2, Ho by lia; done).
  assert (V1 : VI s1).
  { apply (vinv_ext g Hg its ti Hit s); [exact (vd_inv _ _ _ _ V)|by apply root_count_bytes| |done|done]. intros j Hj. right. apply Hlow. lia. }
  destruct (inode_addr g Hg its ti Hit s1 d V1 Nd) as [Ea _]. fold (iaddr d) in Ea. rewrite Ea. cbn [s1 f_buf with_buf].
  assert (Fi : forall f, 0 <= f_off f -> f_off f + Z.of_nat (f_width f) <= 256 -> fget m2 (iaddr d) f = fget (f_buf s) (iaddr d) f).
  { intros f F1 F2. apply fget_out. intros j Hj. apply Hlow. lia. }
  assert (Hcap : Z.of_nat (size M') <= 8192).
  { rewrite <- (ents_size _ _ Ht). apply ents_bound. intros b' Hb'. unfold put_slot, upd.
    destruct (b' =? b); rewrite ?length_insert; by apply (da_len _ _ _ _ Da). }
  split; [rewrite Fi by (cbn; lia); rewrite (da_size _ _ _ _ Da); f_equal; by apply ents_size|].
  set (m3 := fset m2 (iaddr d) i_size (Z.of_nat (size M'))) in *.
  assert (H3 : forall j, j < iaddr d + 16 \/ iaddr d + 24 <= j -> m3 j = m2 j).
  { intros j Hj. unfold m3, fset, i_size. cbn [f_off f_width]. by rewrite wr_out by (cbn; lia). }
  destruct (inode_rewrite s1 d m3 V1 Nd) as (m' & Ew & V' & H' & Hv).
  { by apply bytes_ok_wr, root_count_bytes. }
  { intros j Hj. apply H3. lia. }
  { rewrite (fget_out m2) by (cbn; intros; apply H3; lia). rewrite Fi by (cbn; lia). apply Da. }
  { rewrite (fget_out m2) by (cbn; intros; apply H3; lia). rewrite Fi by (cbn; lia). apply Da. }
  assert (Hdat : forall j, ge_ds g * 4096 <= j -> m' j = m2 j) by (intros j Hj; rewrite H', H3 by lia; done).
  assert (Hino : forall j, j < ge_ds g * 4096 -> j < iaddr d + 16 \/ iaddr d + 24 <= j < iaddr d + 248 \/ iaddr d + 252 <= j ->
                 m' j = f_buf s j) by (intros j Hj1 Hj2; rewrite H', H3, Hlow by lia; done).
  assert (P : put_done (f_buf s) m' d (R d) b i o (Z.of_nat (size M'))).
  { constructor; fold c.
    - intros j Hj Hj'. apply Hino; lia.
    - rewrite (fget_out m3) by (cbn; intros; apply H'; lia). unfold m3, fget, fset. apply rd_wr_small. cbn [f_width i_size]. lia.
    - done.
    - intros j Hj. rewrite Hdat, H2, Ho by lia. done.
    - rewrite (fget_out m2) by (cbn; intros; apply Hdat; lia). unfold m2. rewrite root_count_get.
      rewrite (fget_out (f_buf s)) by (cbn; intros; apply Ho; lia).
      rewrite (da_count _ _ _ _ Da), (ents_size _ _ Ht0), <- Hsz. apply Z.mod_small. lia.
    - apply ent_ext with m1; [|done]. intros j Hj. rewrite Hdat, H2 by lia. done.
    - intros b' j Hb' Hn' Hj Hor. destruct (child_range _ _ _ _ _ _ b' V Hd Hb' Hn') as (Hcr' & Hcne' & Hinj').
      rewrite Hdat, H2 by lia. apply Ho. destruct (Z.eq_dec b' b) as [->|Hbb]; [fold c in Hj; lia|].
      assert (child (f_buf s) (R d) b' <> c) by (intros E; apply Hbb, Hcinj; done). lia. }
  rewrite <- (ents_size _ _ Ht) in P.
  assert (Fr : dframe (f_buf s) m' d (R d)).
  { split; [intros j Hj Hj'; apply Hino; lia|]. intros j Hj _ Hk. rewrite Hdat by lia.
    assert (j / 4096 <> c) by (specialize (Hk b ltac:(lia)); unfold dref in Hk; rewrite (proj2 (Z.eqb_neq b (-1))) in Hk by lia; by apply Hk).
    assert (j / 4096 <> R d) by (specialize (Hk (-1) ltac:(lia)); unfold dref in Hk; rewrite Z.eqb_refl in Hk; apply Hk; by eapply vd_root).
    assert (Hj1 : 4096 * (j / 4096) <= j < 4096 * (j / 4096) + 4096) by zlia. rewrite H2, Ho by lia. done. }
  assert (Hgr : grew s (with_buf s1 m')).
  { intros y Hy Hu. cbn [f_buf with_buf]. rewrite <- Hu. apply (used_groups g Hg); [destruct Hg; lia|].
    intros j Hj. apply Hino; lia. }
  assert (Hk : forall k, -1 <= k < 256 -> dref m' (R d) k = dref (f_buf s) (R d) k).
  { intros k Hk. unfold dref. destruct (Z.eqb_spec k (-1)); [done|]. eapply put_child; [done|lia]. }
  exists (with_buf s1 m'). split; [done|]. split; [|by constructor; [..|intros k Hkr; left; apply Hk]].
  apply vdirs_step with (s := s) (M := M) (k0 := -1); try done.
  - by apply dir_put with (f_buf s).
  - intros k Hkr _. by apply Hk.
  - left. by apply Hk.
Qed.

(** ** Allocation *)

(** What [flatfs_alloc_block] into a local variable did. *)
Record took (s s1 : fs) (x : Z) : Prop := {
  tk_inv : VI s1;
  tk_range : ge_ds g <= x < ge_tb g;
  tk_free : used g (f_buf s) (x - ge_ds g) = false;
  tk_used : forall y, 0 <= y < ge_tb g - ge_ds g -> used g (f_buf s1) y = (y =? x - ge_ds g) || used g (f_buf s) y;
  tk_table : forall i, its * 4096 <= i < ge_fl g * 4096 -> f_buf s1 i = f_buf s i;
  tk_data : forall i, ge_ds g * 4096 <= i -> i < x * 4096 \/ x * 4096 + 4096 <= i -> f_buf s1 i = f_buf s i;
  tk_zero : forall i, x * 4096 <= i < x * 4096 + 4096 -> f_buf s1 i = 0 }.

Lemma alloc_local s : VI s ->
  (sbget s sb_free_blocks = 0 -> flatfs_alloc_block to_local s = (inl FLATFS_ERR_NOSPACE, s)) /\
  (sbget s sb_free_blocks <> 0 -> exists x s1, flatfs_alloc_block to_local s = (inr x, s1) /\ took s s1 x).
Proof using Hg Hit.
  intros V. destruct (alloc_block_spec g Hg to_local s (vi_inv _ _ _ _ V) (out_ok_local g)) as [H0 H1].
  split; [done|]. intros Hn. destruct (H1 Hn) as (x & Hx & Hu & _ & Ea & I').
  exists (ge_ds g + x), (taken g to_local s x). split; [done|]. destruct Hit as (J1 & J2 & J3).
  assert (Hlow : forall i, 0 <= i < ge_fl g * 4096 -> i < 32 \/ 40 <= i -> f_buf (taken g to_local s x) i = f_buf s i).
  { intros i Hi Hne. by apply (taken_low g Hg its ti Hit); [apply out_ok_local|..]. }
  constructor.
  - constructor; [done|..].
    + rewrite <- (vi_its _ _ _ _ V). apply fget_out. cbn. intros i Hi. apply Hlow; lia.
    + rewrite <- (vi_ti _ _ _ _ V). apply fget_out. cbn. intros i Hi. apply Hlow; lia.
  - lia.
  - by replace (ge_ds g + x - ge_ds g) with x by lia.
  - intros y Hy. replace (ge_ds g + x - ge_ds g) with x by lia. apply (taken_used g Hg); [apply out_ok_local|done..].
  - intros i Hi. apply Hlow; lia.
  - intros i Hi Hb. apply (taken_data g Hg); [done|done| |lia]. intros b s1 Hs1. by apply Hs1.
  - intros i Hi. unfold taken. cbn [f_buf flatfs_mon_alloc with_buf]. apply memset_in. lia.
Qed.

Lemma ensure_leaf_old s rt b : fget (f_buf s) rt (rt_child b) <> 0 -> ensure_leaf s rt b = (fget (f_buf s) rt (rt_child b), s).
Proof. intros Hn. unfold ensure_leaf. by rewrite (proj2 (Z.eqb_neq _ _) Hn). Qed.

Lemma zero_slots m a n : (forall i, a <= i < a + 128 * Z.of_nat n -> m i = 0) -> slots_at m a (replicate n None).
Proof.
  intros Hz i o Hi. apply lookup_replicate in Hi as [-> Hi]. cbn [ent_at]. unfold fget, de_ino. cbn [f_off f_width].
  apply rd_zero. intros j Hj. apply Hz. lia.
Qed.

(** The bytes after [ensure_leaf] hung block [x] into bucket [b]. *)
Record hung (m m' : bmem) (r b x : Z) : Prop := {
  hg_child : child m' r b = x;
  hg_root : forall i, r * 4096 <= i < r * 4096 + 4092 -> i < r * 4096 + 16 + 8 * b \/ r * 4096 + 24 + 8 * b <= i -> m' i = m i;
  hg_leaf : forall i, x * 4096 <= i < x * 4096 + 4096 -> m' i = 0;
  hg_other : forall i, ge_ds g * 4096 <= i -> i < r * 4096 \/ r * 4096 + 4096 <= i -> i < x * 4096 \/ x * 4096 + 4096 <= i -> m' i = m i;
  hg_table : forall i, its * 4096 <= i < ge_fl g * 4096 -> m' i = m i }.

Lemma hung_child m m' r b x b' : hung m m' r b x -> 0 <= b < 256 -> 0 <= b' < 256 -> b' <> b -> child m' r b' = child m r b'.
Proof. intros Hh Hb Hb' Hne. apply fget_out. cbn. intros i Hi. apply (hg_root _ _ _ _ _ Hh); lia. Qed.

Lemma ensure_leaf_new s r b : VI s -> ge_ds g <= r < ge_tb g -> used g (f_buf s) (r - ge_ds g) = true ->
  0 <= b < 256 -> child (f_buf s) r b = 0 ->
  (sbget s sb_free_blocks = 0 -> ensure_leaf s (r * 4096) b = (0, s)) /\
  (sbget s sb_free_blocks <> 0 -> exists x s1 s', ensure_leaf s (r * 4096) b = (x, s') /\ took s s1 x /\
     VI s' /\ (forall y, 0 <= y < ge_tb g - ge_ds g -> used g (f_buf s') y = used g (f_buf s1) y) /\
     hung (f_buf s) (f_buf s') r b x).
Proof using Hg Hit.
  intros V Hr Hu Hb Hc. unfold ensure_leaf. unfold child in Hc. rewrite Hc. cbn [Z.eqb negb].
  destruct (alloc_local s V) as [H0 H1]. split; intros Hf; [by rewrite H0|].
  destruct (H1 Hf) as (x & s1 & -> & K). pose proof K as [V1 Kr Kf Ku Kt Kd Kz].
  assert (Hxr : x <> r) by (intros ->; congruence).
  rewrite blk_ptr_eq by (destruct Hg; lia). unfold FLATFS_BLOCK_SIZE.
  set (m2 := memset (f_buf s1) (x * 4096) 0 4096). set (m3 := fset m2 (r * 4096) (rt_child b) x).
  assert (Hfl : ge_fl g * 4096 <= ge_ds g * 4096) by (destruct Hg; lia).
  assert (H2 : forall i, m2 i = f_buf s1 i).
  { intros i. unfold m2, memset. destruct (_ && _) eqn:E; [|done].
    apply andb_true_iff in E as [E1%Z.leb_le E2%Z.ltb_lt]. by rewrite Kz by lia. }
  assert (H3 : forall i, i < r * 4096 + 16 + 8 * b \/ r * 4096 + 24 + 8 * b <= i -> m3 i = m2 i).
  { intros i Hi. unfold m3, fset, rt_child. cbn [f_off f_width]. by rewrite wr_out by (cbn; lia). }
  assert (Hlow : forall i, i < ge_ds g * 4096 -> root_seal m3 (r * 4096) i = f_buf s1 i).
  { intros i Hi. rewrite root_seal_out, H3, H2 by lia. done. }
  exists x, s1, (with_buf s1 (root_seal m3 (r * 4096))). split_and!; [done|done| | |].
  - apply (vinv_ext g Hg its ti Hit s1); [done| | |done|done].
    + apply root_seal_bytes, bytes_ok_wr. apply bytes_ok_memset; [lia|].
      apply (mi_bytes _ _ (ai_meta _ _ (vi_inv _ _ _ _ V1))).
    + intros i Hi. right. apply Hlow. lia.
  - intros y Hy. apply (used_groups g Hg); [destruct Hg; lia|]. intros i Hi. apply Hlow. lia.
  - constructor; cbn [f_buf with_buf].
    + unfold child. rewrite (fget_out m3) by (cbn; intros; apply root_seal_out; lia).
      unfold m3, fget, fset. apply rd_wr_small. cbn [f_width rt_child]. destruct Hg. lia.
    + intros i Hi Hi'. rewrite root_seal_out, H3, H2 by lia. apply Kd; lia.
    + intros i Hi. rewrite root_seal_out, H3, H2 by lia. by apply Kz.
    + intros i Hi Hi1 Hi2. rewrite root_seal_out, H3, H2 by lia. by apply Kd.
    + intros i Hi. rewrite Hlow by lia. by apply Kt.
Qed.

(** A fresh leaf changes no table. *)
Lemma hung_dir m m' d r T b x : dir_at m d r T -> 0 <= b < 256 -> child m r b = 0 -> hung m m' r b x ->
  its * 4096 <= iaddr d -> iaddr d + 256 <= ge_fl g * 4096 ->
  (forall b', 0 <= b' < 256 -> child m r b' <> 0 -> ge_ds g <= child m r b' /\ child m r b' <> r /\ child m r b' <> x) ->
  x <> 0 -> dir_at m' d r T.
Proof using Hg.
  intros Da Hb Hc Hh I1 I2 Hbl Hx. pose proof Hh as [G1 G2 G3 G4 G5].
  assert (Fi : forall f, 0 <= f_off f -> f_off f + Z.of_nat (f_width f) <= 256 -> fget m' (iaddr d) f = fget m (iaddr d) f).
  { intros f F1 F2. apply fget_out. intros i Hi. apply G5. lia. }
  assert (Fr : forall f, 0 <= f_off f -> f_off f + Z.of_nat (f_width f) <= 16 -> fget m' (r * 4096) f = fget m (r * 4096) f).
  { intros f F1 F2. apply fget_out. intros i Hi. apply G2; lia. }
  destruct Da. constructor; rewrite ?Fi, ?Fr by (cbn; lia); try done.
  - rewrite (verdict_ext (fun i => m (iaddr d + i))); [done|]. intros i Hi. apply G5. lia.
  - intros b' Hb' E. destruct (Z.eq_dec b' b) as [->|Hne]; [congruence|]. erewrite hung_child in E by done. by apply da_empty0.
  - intros b' Hb' E. destruct (Z.eq_dec b' b) as [->|Hne].
    + rewrite G1, (da_empty0 b) by done. apply zero_slots. intros i Hi. apply G3. lia.
    + erewrite hung_child in * by done. destruct (Hbl b' Hb' E) as (B1 & B2 & B3).
      apply slots_ext with m; [|by apply da_slots0]. rewrite da_len0 by done. intros i Hi. apply G4; lia.
Qed.

Lemma vdirs_tables s D R T T' : (forall d, T' d = T d) -> vdirs s D R T -> vdirs s D R T'.
Proof. intros E V. constructor; try apply V. intros d M Hd. rewrite E. by apply V. Qed.

Lemma upd_self {A} (T : Z -> A) d d' : upd T d (T d) d' = T d'.
Proof. unfold upd. by destruct (Z.eqb_spec d' d) as [->|]. Qed.

Lemma inode_room d : 0 < d < ti -> its * 4096 <= iaddr d /\ iaddr d + 256 <= ge_fl g * 4096 /\ ge_fl g * 4096 <= ge_ds g * 4096.
Proof using Hg Hit. intros Hd. unfold iaddr. destruct Hg, Hit as (J1 & J2 & J3). lia. Qed.

Lemma dref_bucket m r b : 0 <= b -> dref m r b = child m r b.
Proof. intros. unfold dref. by rewrite (proj2 (Z.eqb_neq b (-1))) by lia. Qed.

Lemma hung_frame s s1 s' D R T d M b x :
  vdirs s D R T -> D !! d = Some M -> took s s1 x -> hung (f_buf s) (f_buf s') (R d) b x ->
  dframe (f_buf s) (f_buf s') d (R d).
Proof using Hg Hit.
  intros V Hd K Hh. pose proof (inode_room d (vd_num _ _ _ _ V _ _ Hd)) as Hi. destruct K, Hh. split.
  - intros i Hi1 _. apply hg_table0. lia.
  - intros i Hi1 Hu Hk. assert (Hj : 4096 * (i / 4096) <= i < 4096 * (i / 4096) + 4096) by zlia.
    assert (i / 4096 <> R d).
    { specialize (Hk (-1) ltac:(lia)). unfold dref in Hk. rewrite Z.eqb_refl in Hk. apply Hk. by eapply vd_root. }
    assert (i / 4096 <> x) by (intros E; rewrite E in Hu; congruence). apply hg_other0; lia.
Qed.

(** [ensure_leaf] gives the block of the bucket and changes no directory. *)
Lemma ensure_leaf_spec s D R T d M b : vdirs s D R T -> D !! d = Some M -> 0 <= b < 256 ->
  exists lb s', ensure_leaf s (R d * 4096) b = (lb, s') /\
  ((lb = 0 /\ s' = s /\ child (f_buf s) (R d) b = 0 /\ sbget s sb_free_blocks = 0) \/
   (lb <> 0 /\ child (f_buf s') (R d) b = lb /\ vdirs s' D R (upd T d (T d)) /\
    dstep s s' d (R d))).
Proof using Hg Hit.
  intros V Hd Hb. pose proof (root_range _ _ _ _ _ _ V Hd) as Hr. destruct (Z.eq_dec (child (f_buf s) (R d) b) 0) as [Hc|Hc].
  2: { exists (child (f_buf s) (R d) b), s. split; [by apply ensure_leaf_old|]. right.
       split_and!; [done|done|apply vdirs_tables with T; [apply upd_self|done]|apply dstep_refl]. }
  assert (Hru : used g (f_buf s) (R d - ge_ds g) = true).
  { pose proof (vd_blk _ _ _ _ V d M (-1) Hd ltac:(lia)) as Hk. unfold dref in Hk. rewrite Z.eqb_refl in Hk. apply Hk. by eapply vd_root. }
  destruct (ensure_leaf_new s (R d) b (vd_inv _ _ _ _ V) Hr Hru Hb Hc) as [H0 H1].
  destruct (Z.eq_dec (sbget s sb_free_blocks) 0) as [Hf|Hf]; [exists 0, s; split; [by apply H0|by left]|].
  destruct (H1 Hf) as (x & s1 & s' & E & K & V' & Hu & Hh). exists x, s'. split; [done|]. right.
  destruct (inode_room d (vd_num _ _ _ _ V _ _ Hd)) as (I1 & I2 & I3). destruct (vd_dir _ _ _ _ V _ _ Hd) as [Da Ht].
  assert (Hx : x <> 0) by (pose proof (tk_range _ _ _ K); destruct Hg; lia).
  assert (Hg' : grew s s').
  { intros y Hy U. rewrite Hu, (tk_used _ _ _ K), U by done. apply orb_true_r. }
  pose proof (hung_frame _ _ _ _ _ _ _ _ _ _ V Hd K Hh) as Fr.
  assert (Hk : forall k, -1 <= k < 256 -> k <> b -> dref (f_buf s') (R d) k = dref (f_buf s) (R d) k).
  { intros k Hk Hne. unfold dref. destruct (Z.eqb_spec k (-1)); [done|]. eapply hung_child; [done|done|lia|done]. }
  split_and!; [done|apply Hh| |constructor; [done|done|]].
  - replace D with (<[d := M]> D) by (by apply insert_id).
    apply vdirs_step with (s := s) (M := M) (k0 := b); try done.
    + apply (hung_dir (f_buf s) _ _ _ _ b x); try done. intros b' Hb' Hn.
      destruct (child_range _ _ _ _ _ _ b' V Hd Hb' Hn) as (C1 & C2 & _). split_and!; [lia|done|].
      intros Eq. pose proof (vd_blk _ _ _ _ V d M b' Hd ltac:(lia)) as Hk'. rewrite dref_bucket, Eq in Hk' by lia.
      destruct (Hk' Hx) as [_ U]. pose proof (tk_free _ _ _ K). congruence.
    + right. rewrite dref_bucket, (hg_child _ _ _ _ _ Hh) by lia. pose proof (tk_range _ _ _ K). split_and!; [lia|lia|apply K|].
      rewrite Hu, (tk_used _ _ _ K), Z.eqb_refl by lia. done.
  - intros k Hkr. destruct (Z.eq_dec k b) as [->|]; [right|left; by apply Hk].
    rewrite dref_bucket, (hg_child _ _ _ _ _ Hh) by lia. split; apply K.
Qed.
End Dirs.
