(* ===== verification/FlatHtreeSpec.v ===== *)
(** * FlatFS directories: every operation against the map

    Look-up, insertion, removal, the emptiness test and listing on a volume
    related to a family of maps from names. *)

From stdpp Require Import base list gmap.
From Stdlib Require Import ZArith Lia.
From S2P Require Import Prelude FlatCrc FlatFs FlatAlloc FlatSuper FlatFile FlatIO FlatHtree FlatHtreeRel FlatHtreeOps.

Lemma fstrlen_ok n : name_ok n -> fstrlen n (Z.to_nat FLATFS_NAME_MAX) = length n.
Proof. intros [Hl Hn]. apply fstrlen_name; [done|]. unfold FLATFS_NAME_MAX. lia. Qed.

(** Slots of one bucket hold at most the map's names of that bucket. *)
Definition in_bucket (b : Z) (p : list Z * (Z * Z)) : Prop := name_bucket p.1 = b.

#[export] Instance in_bucket_dec b p : Decision (in_bucket b p) := Z.eq_dec _ _.
#[export] Typeclasses Opaque in_bucket.

Definition of_dent (e : dent) : list Z * (Z * Z) := (di_name e, (di_ino e, di_type e)).

#[export] Instance of_dent_inj : Inj (=) (=) of_dent.
Proof. intros [] []. unfold of_dent. cbn. congruence. Qed.

#[export] Instance to_dent_inj : Inj (=) (=) to_dent.
Proof. intros [? []] [? []]. unfold to_dent. cbn. congruence. Qed.

Lemma bucket_size T M b : tab_map T M -> placed T -> 0 <= b < 256 ->
  (length (omap id (T b)) <= size (filter (in_bucket b) M))%nat.
Proof.
  intros Ht Hp Hb. destruct (ents_upd T b Hb) as (rest & H1 & _).
  assert (Nd : NoDup (omap id (T b) ++ rest)).
  { rewrite <- H1, Ht. apply NoDup_fmap; [apply _|apply NoDup_map_to_list]. }
  apply NoDup_app in Nd as [Nd _]. rewrite <- length_map_to_list, <- (length_fmap of_dent).
  apply submseteq_length, NoDup_submseteq; [by apply NoDup_fmap_2; [apply _|]|].
  intros p (e & -> & (o & Ho & Eo)%list_elem_of_omap)%list_elem_of_fmap. cbn in Eo. subst o.
  apply list_elem_of_lookup in Ho as [i Hi]. apply elem_of_map_to_list, map_lookup_filter_Some.
  split; [|by eapply Hp]. apply (tab_map_elem T M e Ht). by exists b, i.
Qed.

Lemma omap_full (l : slots) : Forall (fun o => is_Some o) l -> length (omap id l) = length l.
Proof. induction 1 as [|o l [e ->] _ IH]; [done|]. cbn. by rewrite IH. Qed.

Section Spec.
Context (g : geom) (Hg : geom_ok g).
Context (its ti : Z) (Hit : 2 <= its /\ 0 < ti /\ its * 16 + ti <= ge_fl g * 16).

Abbreviation VD := (vdirs g its ti).
Abbreviation DS := (dstep g its).

Lemma dir_size s D R T d M : VD s D R T -> D !! d = Some M -> Z.of_nat (size M) <= 8192.
Proof.
  intros V Hd. destruct (vd_dir _ _ _ _ _ _ _ V _ _ Hd) as [Da Ht]. rewrite <- (ents_size _ _ Ht). apply ents_bound, Da.
Qed.

(** The search of look-up and removal. *)
Lemma search_spec s D R T d M n : VD s D R T -> D !! d = Some M -> name_ok n ->
  let lb := child (f_buf s) (R d) (name_bucket n) in
  (lb = 0 -> M !! n = None) /\
  (lb <> 0 -> match M !! n with
   | Some (i, t) => exists k, (k < 32)%nat /\ T d (name_bucket n) !! k = Some (Some (DI i t n)) /\
       find_entry 32 (f_buf s) lb 0 (name_hash n) (length n) n = Some (Z.of_nat k) /\
       fget (f_buf s) (dirent lb (Z.of_nat k)) de_ino = i
   | None => find_entry 32 (f_buf s) lb 0 (name_hash n) (length n) n = None
   end).
Proof using Hg.
  intros V Hd Hn lb. destruct (vd_dir _ _ _ _ _ _ _ V _ _ Hd) as [Da Ht].
  pose proof (name_bucket_range n) as Hb. pose proof (tab_lookup _ _ n Ht (da_placed _ _ _ _ _ Da)) as L. split.
  - intros E. rewrite (da_empty _ _ _ _ _ Da) in L by done. destruct (M !! n) as [[i t]|]; [|done].
    destruct L as (k & _ & Hk). apply lookup_replicate in Hk as [? _]. done.
  - intros Hne. pose proof (da_slots _ _ _ _ _ Da _ Hb Hne) as Hs. fold lb in Hs.
    destruct (child_range g its ti _ _ _ _ _ _ _ V Hd Hb Hne) as (Hr & _). fold lb in Hr.
    assert (Hlb : 0 <= lb < 2 ^ 52) by (destruct Hg; lia).
    pose proof (find_entry_slots (f_buf s) lb n Hlb Hn (T d (name_bucket n)) 0) as E.
    rewrite (da_len _ _ _ _ _ Da _ Hb) in E. specialize (E ltac:(by rewrite Z.mul_0_r, Z.add_0_r)).
    destruct (M !! n) as [[i t]|]; [|by rewrite E, L]. destruct L as (k & Ek & Hk). exists k.
    pose proof (lookup_lt_Some _ _ _ Hk) as Hlt. rewrite (da_len _ _ _ _ _ Da _ Hb) in Hlt.
    split_and!; [done|done|by rewrite E, Ek|]. rewrite dirent_eq by done. by destruct (Hs _ _ Hk) as (_ & -> & _).
Qed.

(** Look-up is the map's, and changes the counters only. *)
Lemma lookup_spec h D R T d M n : VD (h_fs h) D R T -> D !! d = Some M -> name_ok n ->
  exists h', flatfs_dir_lookup h d n
             = (match M !! n with Some (i, _) => inr i | None => inl FLATFS_ERR_NOTFOUND end, h') /\ h_fs h' = h_fs h.
Proof using Hg Hit.
  intros V Hd Hn. unfold flatfs_dir_lookup, flatfs_htree_lookup. destruct (htroot_spec g Hg its ti Hit _ _ _ _ _ _ V Hd) as [_ ->].
  rewrite fstrlen_ok by done. fold (name_hash n). fold (name_bucket n). unfold h_buf. fold (child (f_buf (h_fs h)) (R d) (name_bucket n)).
  destruct (search_spec _ _ _ _ _ _ n V Hd Hn) as [H0 H1]. change (Z.to_nat FLATFS_DIRENTS_PER_BLK) with 32%nat.
  destruct (Z.eqb_spec (child (f_buf (h_fs h)) (R d) (name_bucket n)) 0) as [E|E].
  - rewrite H0 by done. by exists h.
  - specialize (H1 E). destruct (M !! n) as [[i t]|].
    + destruct H1 as (k & _ & _ & -> & ->). eexists. split; [reflexivity|done].
    + rewrite H1. eexists. split; [reflexivity|done].
Qed.

(** The first free slot of the bucket, for a name that is absent. *)
Lemma probe_spec s D R T d M n : VD s D R T -> D !! d = Some M -> name_ok n -> M !! n = None ->
  let b := name_bucket n in let lb := child (f_buf s) (R d) b in lb <> 0 ->
  (exists k, (k < 32)%nat /\ T d b !! k = Some None /\ probe_entry 32 (f_buf s) lb 0 (name_hash n) (length n) n = PFree (Z.of_nat k)) \/
  (probe_entry 32 (f_buf s) lb 0 (name_hash n) (length n) n = PFull /\ (32 <= size (filter (in_bucket b) M))%nat).
Proof using Hg.
  intros V Hd Hn Hm b lb Hne. destruct (vd_dir _ _ _ _ _ _ _ V _ _ Hd) as [Da Ht].
  pose proof (name_bucket_range n) as Hb. fold b in Hb. pose proof (tab_lookup _ _ n Ht (da_placed _ _ _ _ _ Da)) as L.
  rewrite Hm in L. apply first_idx_none in L. fold b in L. pose proof (da_len _ _ _ _ _ Da _ Hb) as Hlen.
  destruct (child_range g its ti _ _ _ _ _ _ _ V Hd Hb Hne) as (Hr & _). fold lb in Hr.
  pose proof (probe_slots (f_buf s) lb n ltac:(destruct Hg; lia) Hn (T d b) 0) as E. rewrite Hlen in E.
  specialize (E ltac:(rewrite Z.mul_0_r, Z.add_0_r; by apply (da_slots _ _ _ _ _ Da))).
  destruct (first_idx (free_or_named n) (T d b)) as [k|] eqn:Ek; cbn [probe_of] in E.
  - left. apply first_idx_some in Ek as [(o & Hk & Ho) _]. exists k. pose proof (lookup_lt_Some _ _ _ Hk).
    rewrite Hk in E. destruct o as [e|]; [|split_and!; [lia|done|done]].
    eapply Forall_lookup_1 in L; [|done]. cbn in L, Ho. congruence.
  - right. split; [done|]. apply first_idx_none in Ek. rewrite <- Hlen, <- (omap_full (T d b)).
    + apply bucket_size; [done|apply Da|done].
    + eapply Forall_impl; [done|]. intros [e|]; [by eexists|done].
Qed.

(** Insertion of an absent name. *)
Lemma insert_spec s D R T d M n ino ty : VD s D R T -> D !! d = Some M -> name_ok n ->
  0 < ino < 2 ^ 64 -> 0 <= ty < 256 -> M !! n = None ->
  exists e s' T', flatfs_dir_insert s d n ino ty = (e, s') /\ DS s s' d (R d) /\
  ((e = FLATFS_OK /\ VD s' (<[d := <[n := (ino, ty)]> M]> D) R T') \/
   (e = FLATFS_ERR_NOSPACE /\ VD s' D R T' /\
    ((32 <= size (filter (in_bucket (name_bucket n)) M))%nat \/ sbget s sb_free_blocks = 0))).
Proof using Hg Hit.
  intros V Hd Hn Hino Hty Hm. unfold flatfs_dir_insert, flatfs_htree_insert.
  destruct (htroot_spec g Hg its ti Hit _ _ _ _ _ _ V Hd) as [_ ->]. rewrite fstrlen_ok by done.
  rewrite (proj2 (Z.leb_gt _ _)) by (destruct Hn; unfold FLATFS_NAME_MAX; lia). cbv zeta. fold (name_hash n) (name_bucket n).
  pose proof (name_bucket_range n) as Hb. set (b := name_bucket n) in *.
  destruct (ensure_leaf_spec g Hg its ti Hit s D R T d M b V Hd Hb) as (lb & s1 & -> & [(-> & -> & Hc & Hf)|(Hlb & Hc & V1 & S1)]).
  { exists FLATFS_ERR_NOSPACE, s, T. split; [done|]. split; [apply dstep_refl|]. right. by auto. }
  rewrite (proj2 (Z.eqb_neq _ _) Hlb). change (Z.to_nat FLATFS_DIRENTS_PER_BLK) with 32%nat.
  assert (Hlr : 0 <= lb < 2 ^ 52).
  { rewrite <- Hc. destruct (child_range g its ti _ _ _ _ _ _ b V1 Hd Hb) as (Hr & _); [by rewrite Hc|]. destruct Hg; lia. }
  destruct (probe_spec _ _ _ _ _ _ n V1 Hd Hn Hm) as [(k & Hk & Hs & E)|[E Hfull]]; [fold b; by rewrite Hc| |]; fold b in E; rewrite Hc in E; rewrite E; clear E.
  2: { exists FLATFS_ERR_NOSPACE, s1, (upd T d (T d)). split_and!; [done|done|]. right. auto. }
  set (e := DI ino ty n). fold b in Hs.
  rewrite dirent_eq by done. destruct Hn as [Hn1 Hn2].
  destruct (put_spec g Hg its ti Hit s1 D R (upd T d (T d)) d M b k (Some e) (<[n := (ino, ty)]> M)
    (write_entry (f_buf s1) (lb * 4096 + 128 * Z.of_nat k) ino (name_hash n) (length n) n ty) 1) as [Hsz Hw]; rewrite ?Hc; try done.
  - apply write_entry_bytes; [by eapply vdirs_bytes|done].
  - apply (write_entry_at _ _ e); [by eapply vdirs_bytes|done].
  - intros j Hj. apply write_entry_out; [by rewrite firstn_all|lia].
  - by intros ? [= <-].
  - apply (tab_insert _ _ _ _ e); try done. by eapply vd_dir.
  - rewrite map_size_insert, Hm. lia.
  - cbv zeta in Hsz, Hw. rewrite Hsz. rewrite map_size_insert, Hm in Hw.
    rewrite u64_small by (pose proof (dir_size _ _ _ _ _ _ V Hd); lia).
    replace (Z.of_nat (size M) + 1) with (Z.of_nat (S (size M))) by lia.
    destruct Hw as (s' & Ew & V' & S'). exists FLATFS_OK, s', (upd (upd T d (T d)) d (put_slot (upd T d (T d) d) b k (Some e))).
    split; [done|]. split; [by apply dstep_trans with s1|by left].
Qed.

(** Removal. *)
Lemma htree_remove_spec s D R T d M n : VD s D R T -> D !! d = Some M -> name_ok n ->
  match M !! n with
  | None => flatfs_dir_remove s d n = (FLATFS_ERR_NOTFOUND, s)
  | Some _ => exists s' T', flatfs_dir_remove s d n = (FLATFS_OK, s') /\ VD s' (<[d := delete n M]> D) R T' /\
      DS s s' d (R d)
  end.
Proof using Hg Hit.
  intros V Hd Hn. unfold flatfs_dir_remove, flatfs_htree_remove.
  destruct (htroot_spec g Hg its ti Hit _ _ _ _ _ _ V Hd) as [_ ->]. rewrite fstrlen_ok by done. cbv zeta.
  fold (name_hash n) (name_bucket n). fold (child (f_buf s) (R d) (name_bucket n)). change (Z.to_nat FLATFS_DIRENTS_PER_BLK) with 32%nat.
  destruct (search_spec _ _ _ _ _ _ n V Hd Hn) as [H0 H1]. pose proof (name_bucket_range n) as Hb.
  set (b := name_bucket n) in *. set (lb := child (f_buf s) (R d) b) in *.
  destruct (Z.eqb_spec lb 0) as [E|E]; [by rewrite H0|]. specialize (H1 E).
  destruct (M !! n) as [[i t]|] eqn:Em; [|by rewrite H1]. destruct H1 as (k & Hk & Hs & -> & _).
  destruct (child_range g its ti _ _ _ _ _ _ b V Hd Hb E) as (Hr & _). fold lb in Hr.
  rewrite dirent_eq by (destruct Hg; lia). unfold FLATFS_DIRENT_SIZE.
  assert (Hpos : size M <> 0%nat) by (intros Hz; apply map_size_empty_inv in Hz; subst; by rewrite lookup_empty in Em).
  destruct (put_spec g Hg its ti Hit s D R T d M b k None (delete n M)
    (memset (f_buf s) (lb * 4096 + 128 * Z.of_nat k) 0 128) (-1)) as [Hsz Hw]; try done; fold lb.
  - apply bytes_ok_memset; [lia|by eapply vdirs_bytes].
  - cbn [ent_at]. unfold fget, de_ino. cbn [f_off f_width]. apply rd_memset_zero; cbn; lia.
  - intros j Hj. apply memset_out. lia.
  - apply (tab_delete _ _ _ _ (DI i t n)); try done. by eapply vd_dir.
  - rewrite map_size_delete, Em. lia.
  - cbv zeta in Hsz, Hw. rewrite Hsz. rewrite (proj2 (Z.eqb_neq _ _)) by lia.
    rewrite map_size_delete, Em in Hw. replace (Z.of_nat (size M) - 1) with (Z.of_nat (pred (size M))) by lia.
    destruct Hw as (s' & Ew & V' & S'). by exists s', (upd T d (put_slot (T d) b k None)).
Qed.

Lemma isempty_spec s D R T d M : VD s D R T -> D !! d = Some M -> flatfs_dir_isempty s d = bool_decide (M = ∅).
Proof using Hg Hit.
  intros V Hd. unfold flatfs_dir_isempty, flatfs_htree_isempty.
  destruct (htroot_spec g Hg its ti Hit _ _ _ _ _ _ V Hd) as [-> _]. destruct (vd_dir _ _ _ _ _ _ _ V _ _ Hd) as [Da Ht].
  rewrite (da_count _ _ _ _ _ Da), (ents_size _ _ Ht). case_bool_decide as E.
  - subst M. by rewrite map_size_empty.
  - apply Z.eqb_neq. intros Ez. apply E, map_size_empty_inv. lia.
Qed.

(** ** A new directory *)

Definition no_slots : table := fun _ => replicate 32 None.

Lemma no_slots_ents : ents no_slots = [].
Proof. by vm_compute. Qed.

(** The root block as [flatfs_htree_init] leaves it. *)
Definition fresh_root (m : bmem) (a : Z) : bmem :=
  root_seal (fset (fset (memset m a 0 4096) a rt_magic FLATFS_HTREE_MAGIC) a rt_depth 1) a.

Lemma fresh_root_out m a i : i < a \/ a + 4096 <= i -> fresh_root m a i = m i.
Proof.
  intros Hi. unfold fresh_root. rewrite root_seal_out by lia. unfold fset, rt_depth, rt_magic. cbn [f_off f_width].
  rewrite !wr_out by (cbn; lia). apply memset_out. lia.
Qed.

Lemma fresh_root_zero m a i : a + 12 <= i < a + 4092 \/ a + 4 <= i < a + 8 -> fresh_root m a i = 0.
Proof.
  intros Hi. unfold fresh_root. rewrite root_seal_out by lia. unfold fset, rt_depth, rt_magic. cbn [f_off f_width].
  rewrite !wr_out by (cbn; lia). apply memset_in. lia.
Qed.

Lemma fresh_root_magic m a : fget (fresh_root m a) a rt_magic = FLATFS_HTREE_MAGIC.
Proof.
  unfold fresh_root. rewrite (fget_out (fset (fset (memset m a 0 4096) a rt_magic FLATFS_HTREE_MAGIC) a rt_depth 1)).
  - unfold fget, fset, rt_magic, rt_depth. cbn [f_off f_width]. rewrite rd_wr_other by (cbn; lia). by apply rd_wr_small.
  - cbn. intros i Hi. apply root_seal_out. lia.
Qed.

Lemma fresh_root_bytes m a : bytes_ok m -> bytes_ok (fresh_root m a).
Proof. intros Hm. apply root_seal_bytes. do 2 apply bytes_ok_wr. by apply bytes_ok_memset. Qed.

(** The inode fields it sets. *)
Definition dir_inode (m : bmem) (a r : Z) : bmem :=
  let b := fset m a i_dir_htree_blk r in
  let b := fset b a i_htree_depth 1 in
  fset b a i_flags (Z.lor (fget b a i_flags) FLATFS_FL_HTREE).

Lemma dir_inode_out m a r i : i < a + 64 \/ a + 68 <= i < a + 176 \/ a + 188 <= i -> dir_inode m a r i = m i.
Proof.
  intros Hi. unfold dir_inode, fset, i_dir_htree_blk, i_htree_depth, i_flags. cbn [f_off f_width].
  by rewrite !wr_out by (cbn; lia).
Qed.

Lemma dir_inode_root m a r : 0 <= r < 2 ^ 64 -> fget (dir_inode m a r) a i_dir_htree_blk = r.
Proof.
  intros Hr. unfold dir_inode, fget, fset, i_dir_htree_blk, i_htree_depth, i_flags. cbn [f_off f_width].
  rewrite !rd_wr_other by (cbn; lia). by apply rd_wr_small.
Qed.

Lemma dir_inode_bytes m a r : bytes_ok m -> bytes_ok (dir_inode m a r).
Proof. intros. by repeat apply bytes_ok_wr. Qed.

(** What [flatfs_htree_init] does to the memory. *)
Lemma init_memory s d r : vinv g its ti s -> 0 < d < ti -> ge_ds g <= r < ge_tb g ->
  fget (f_buf s) (iaddr its d) i_ino = d -> fget (f_buf s) (iaddr its d) i_magic = FLATFS_INODE_MAGIC ->
  fget (f_buf s) (iaddr its d) i_size = 0 ->
  exists m', flatfs_htree_init s d r = (FLATFS_OK, with_buf s m') /\ vinv g its ti (with_buf s m') /\
    (forall i, i < iaddr its d \/ iaddr its d + 256 <= i -> i < r * 4096 \/ r * 4096 + 4096 <= i -> m' i = f_buf s i) /\
    dir_at its m' d r no_slots /\ (forall b, 0 <= b < 256 -> child m' r b = 0).
Proof using Hg Hit.
  intros V Nd Hr Hino Hmag Hsz. destruct (inode_room g Hg its ti Hit d Nd) as (I1 & I2 & I3).
  unfold flatfs_htree_init. rewrite blk_ptr_eq by (destruct Hg; lia). cbv zeta. fold (fresh_root (f_buf s) (r * 4096)).
  set (s1 := with_buf s (fresh_root (f_buf s) (r * 4096))). set (a := iaddr its d) in *.
  pose proof (mi_bytes _ _ (ai_meta _ _ (vi_inv _ _ _ _ V))) as Bs.
  assert (V1 : vinv g its ti s1).
  { apply (vinv_ext g Hg its ti Hit s); [done|by apply fresh_root_bytes| |done|done].
    intros i Hi. right. cbn [s1 f_buf with_buf]. apply fresh_root_out. lia. }
  destruct (inode_addr g Hg its ti Hit s1 d V1 Nd) as [Ea _]. rewrite Ea. change (its * 4096 + d * 256) with a.
  fold (dir_inode (f_buf s1) a r). set (m2 := dir_inode (f_buf s1) a r).
  assert (H2 : forall i, i < a + 64 \/ a + 68 <= i < a + 176 \/ a + 188 <= i -> m2 i = f_buf s1 i) by (intros; by apply dir_inode_out).
  assert (H1 : forall i, a <= i < a + 256 -> f_buf s1 i = f_buf s i) by (intros; apply fresh_root_out; lia).
  destruct (inode_rewrite g Hg its ti Hit s1 d m2 V1 Nd) as (m' & Ew & V' & H' & Hv).
  { by apply dir_inode_bytes, fresh_root_bytes. }
  { fold a. intros i Hi. apply H2. lia. }
  { fold a. rewrite <- Hino. apply fget_out. cbn. intros. rewrite H2, H1 by lia. done. }
  { fold a. rewrite <- Hmag. apply fget_out. cbn. intros. rewrite H2, H1 by lia. done. }
  fold a in H', Hv. exists m'.
  assert (Hrt : forall i, ge_ds g * 4096 <= i -> m' i = fresh_root (f_buf s) (r * 4096) i) by (intros; rewrite H', H2 by lia; done).
  assert (Hc : forall b, 0 <= b < 256 -> child m' r b = 0).
  { intros b Hb. unfold child, fget. apply rd_zero. cbn. intros i Hi. rewrite Hrt, fresh_root_zero by lia. done. }
  split_and!; [done|done| | |done].
  - intros i Hi1 Hi2. rewrite H', H2 by lia. by apply fresh_root_out.
  - constructor; rewrite ?no_slots_ents; fold a.
    + rewrite <- Hino. apply fget_out. cbn. intros. rewrite H', H2, H1 by lia. done.
    + rewrite <- Hmag. apply fget_out. cbn. intros. rewrite H', H2, H1 by lia. done.
    + done.
    + rewrite (fget_out m2) by (cbn; intros; apply H'; lia). apply dir_inode_root. destruct Hg. lia.
    + transitivity (fget (f_buf s) a i_size); [|exact Hsz]. apply fget_out. cbn. intros. rewrite H', H2, H1 by lia. done.
    + rewrite <- (fresh_root_magic (f_buf s) (r * 4096)). apply fget_out. cbn. intros. apply Hrt. lia.
    + unfold fget. apply rd_zero. cbn. intros i Hi. rewrite Hrt, fresh_root_zero by lia. done.
    + done.
    + done.
    + intros b Hb. by rewrite Hc.
    + intros b i e _ Hi. apply lookup_replicate in Hi as [? _]. done.
Qed.

(** It adds an empty directory. *)
Lemma init_spec s D R T d r : VD s D R T -> D !! d = None -> 0 < d < ti ->
  fget (f_buf s) (iaddr its d) i_ino = d -> fget (f_buf s) (iaddr its d) i_magic = FLATFS_INODE_MAGIC ->
  fget (f_buf s) (iaddr its d) i_size = 0 -> ge_ds g <= r < ge_tb g -> used g (f_buf s) (r - ge_ds g) = true ->
  (forall d' M k, D !! d' = Some M -> -1 <= k < 256 -> dref (f_buf s) (R d') k <> r) ->
  exists s', flatfs_htree_init s d r = (FLATFS_OK, s') /\ VD s' (<[d := ∅]> D) (upd R d r) (upd T d no_slots).
Proof using Hg Hit.
  intros V Hd Nd Hino Hmag Hsz Hr Hu Hfr. destruct (inode_room g Hg its ti Hit d Nd) as (I1 & I2 & I3).
  destruct (init_memory s d r (vd_inv _ _ _ _ _ _ _ V) Nd Hr Hino Hmag Hsz) as (m' & E & V' & Hm & Da & Hc).
  exists (with_buf s m'). split; [done|].
  assert (Hs : forall d' M, D !! d' = Some M -> d' <> d /\ dir_same its (f_buf s) m' d' (R d')).
  { intros d' M H'. assert (Hne : d' <> d) by congruence. split; [done|]. pose proof (vd_num _ _ _ _ _ _ _ V _ _ H') as N'.
    destruct (inode_room g Hg its ti Hit d' N') as (J1 & J2 & J3). split.
    - intros i Hi. apply Hm; [unfold iaddr in *; lia|lia].
    - intros k i Hk Hn Hi. destruct (vd_blk _ _ _ _ _ _ _ V _ _ _ H' Hk Hn) as [Hb _]. specialize (Hfr d' M k H' Hk). apply Hm; lia. }
  assert (Hru : forall y, 0 <= y < ge_tb g - ge_ds g -> used g m' y = used g (f_buf s) y).
  { intros y Hy. apply (used_groups g Hg); [destruct Hg; lia|]. intros i Hi. apply Hm; lia. }
  (* each reference is an old one or the new root *)
  assert (Href : forall d' M k, <[d := ∅]> D !! d' = Some M -> -1 <= k < 256 -> dref m' (upd R d r d') k <> 0 ->
    (d' = d /\ k = -1 /\ dref m' (upd R d r d') k = r) \/
    (exists M', D !! d' = Some M' /\ dref m' (upd R d r d') k = dref (f_buf s) (R d') k)).
  { intros d' M k H' Hk Hn. rewrite lookup_insert_Some in H'. destruct H' as [[<- _]|[Hne H']].
    - rewrite upd_eq in *. left. unfold dref in *. destruct (Z.eqb_spec k (-1)) as [->|]; [done|]. by rewrite Hc in Hn by lia.
    - right. exists M. split; [done|]. rewrite upd_ne by done. destruct (Hs _ _ H') as [_ Hs'].
      eapply dir_same_ref; [by eapply vd_root|done|done]. }
  constructor; [done|..].
  - intros d' M [[<- _]|[_ H']]%lookup_insert_Some; [done|by eapply vd_num].
  - intros d' M [[<- <-]|[Hne H']]%lookup_insert_Some; [rewrite !upd_eq; split; [done|]|].
    + unfold tab_map. by rewrite no_slots_ents, map_to_list_empty.
    + rewrite !upd_ne by done. destruct (vd_dir _ _ _ _ _ _ _ V _ _ H') as [Da' Ht']. destruct (Hs _ _ H') as [_ Hs'].
      split; [|done]. eapply dir_at_ext; [by eapply vd_root|done|done].
  - intros d' M [[<- <-]|[Hne H']]%lookup_insert_Some; [rewrite upd_eq; destruct Hg; lia|rewrite upd_ne by done; by eapply vd_root].
  - intros d' M k H' Hk Hn. cbn [f_buf with_buf] in *. destruct (Href _ _ _ H' Hk Hn) as [(-> & -> & E')|(M' & H1 & E')]; rewrite E' in *.
    + rewrite Hru by lia. done.
    + destruct (vd_blk _ _ _ _ _ _ _ V _ _ _ H1 Hk Hn). rewrite Hru by lia. done.
  - intros d1 M1 k1 d2 M2 k2 H1 H2 K1 K2 Hn Eq. cbn [f_buf with_buf] in *.
    assert (Hn2 : dref m' (upd R d r d2) k2 <> 0) by congruence.
    destruct (Href _ _ _ H1 K1 Hn) as [(-> & -> & E1)|(N1 & G1 & E1)], (Href _ _ _ H2 K2 Hn2) as [(-> & -> & E2)|(N2 & G2 & E2)].
    + done.
    + destruct (Hfr _ _ k2 G2 K2). congruence.
    + destruct (Hfr _ _ k1 G1 K1). congruence.
    + rewrite E1, E2 in *. by eapply (vd_inj _ _ _ _ _ _ _ V).
Qed.
End Spec.

(** * FlatFS directories: listing

    Readdir walks the slots in order of position; repeated calls give every
    entry once. *)

(** ** Walking slots *)

(** The first entry of [l], whose first slot has position [p], and the
    position after it. *)
Fixpoint scan (l : slots) (p : Z) : option (dent * Z) :=
  match l with
  | [] => None
  | Some e :: _ => Some (e, p + 1)
  | None :: l => scan l (p + 1)
  end.

Lemma scan_app l l' p : scan (l ++ l') p = match scan l p with Some r => Some r | None => scan l' (p + Z.of_nat (length l)) end.
Proof.
  revert p. induction l as [|[e|] l IH]; intros p; cbn [scan app length]; [f_equal; lia|done|]. rewrite IH.
  destruct (scan l (p + 1)); [done|]. f_equal. lia.
Qed.

Lemma scan_none l p : scan l p = None -> omap id l = [].
Proof. revert p. induction l as [|[e|] l IH]; intros p Hs; [done|done|]. by eapply IH. Qed.

Lemma scan_some l p e q : scan l p = Some (e, q) ->
  p < q <= p + Z.of_nat (length l) /\ omap id l = e :: omap id (drop (Z.to_nat (q - p)) l).
Proof.
  revert p. induction l as [|[x|] l IH]; intros p Hs; [done| |]; cbn [scan] in Hs.
  - injection Hs as -> <-. split; [cbn; lia|]. replace (Z.to_nat (p + 1 - p)) with 1%nat by lia. done.
  - apply IH in Hs as [Hr E]. split; [cbn [length]; lia|].
    replace (Z.to_nat (q - p)) with (S (Z.to_nat (q - (p + 1)))) by lia. done.
Qed.

(** All slots of a table, position by position. *)
Definition flat (T : table) : slots := seq 0 256 ≫= fun b => T (Z.of_nat b).

Lemma omap_bind {A B C} (f : B -> option C) (h : A -> list B) l : omap f (l ≫= h) = l ≫= (fun x => omap f (h x)).
Proof. induction l as [|x l IH]; [done|]. by rewrite !bind_cons, omap_app, IH. Qed.

Lemma flat_ents T : omap id (flat T) = ents T.
Proof. apply omap_bind. Qed.

Lemma seq_bind_length (T : table) k n : (forall b, (k <= b < k + n)%nat -> length (T (Z.of_nat b)) = 32%nat) ->
  length (seq k n ≫= fun b => T (Z.of_nat b)) = (32 * n)%nat.
Proof.
  revert k. induction n as [|n IH]; intros k Hl; [done|]. cbn [seq]. rewrite bind_cons, length_app, IH, Hl; [lia|lia|].
  intros b Hb. apply Hl. lia.
Qed.

(** Dropping positions drops whole buckets and then slots. *)
Lemma drop_flat (T : table) (b i : nat) : (forall b, 0 <= b < 256 -> length (T b) = 32%nat) -> (b < 256)%nat -> (i <= 32)%nat ->
  drop (32 * b + i) (flat T) = drop i (T (Z.of_nat b)) ++ (seq (S b) (255 - b) ≫= fun b => T (Z.of_nat b)).
Proof.
  intros Hl Hb Hi. unfold flat. replace 256%nat with (b + S (255 - b))%nat by lia. rewrite seq_app, bind_app. cbn [seq Nat.add].
  rewrite bind_cons. rewrite drop_app_ge by (rewrite seq_bind_length by (intros; apply Hl; lia); lia).
  rewrite seq_bind_length by (intros; apply Hl; lia). replace (32 * b + i - 32 * b)%nat with i by lia.
  apply drop_app_le. rewrite Hl by lia. done.
Qed.

(** ** The two loops *)

Lemma read_entry_at m a e : ent_at m a (Some e) -> read_entry m a = e.
Proof.
  intros (_ & H1 & _ & H3 & H4 & H5). unfold read_entry. rewrite H1, H3, H4, Nat2Z.id. destruct e as [i t n]. cbn [di_ino di_type di_name] in *.
  f_equal. apply cstr_eq; rewrite length_bytes_of; [done|]. intros j Hj. rewrite <- H5 by done.
  unfold cstr, bytes_of. rewrite nth_lookup, list_lookup_fmap, lookup_seq_lt by lia. cbn. f_equal. lia.
Qed.

Lemma iter_entries_scan m lb bk : 0 <= lb < 2 ^ 52 -> forall (l : slots) i, slots_at m (lb * 4096 + 128 * i) l ->
  iter_entries (length l) m lb bk i = scan l (bk * 32 + i).
Proof.
  intros Hb. induction l as [|o l IH]; intros i Hs; [done|]. apply slots_cons in Hs as [He Hs].
  cbn [length iter_entries scan]. rewrite dirent_eq, (ent_ino _ _ _ He) by done.
  replace (lb * 4096 + 128 * i + 128) with (lb * 4096 + 128 * (i + 1)) in Hs by lia.
  destruct o as [e|]; [by rewrite (read_entry_at _ _ e He)|]. rewrite (IH _ Hs). f_equal. lia.
Qed.

Section List.
Context (g : geom) (Hg : geom_ok g).
Context (its ti : Z) (Hit : 2 <= its /\ 0 < ti /\ its * 16 + ti <= ge_fl g * 16).

Abbreviation VD := (vdirs g its ti).

Lemma scan_empty n p : scan (replicate n None) p = None.
Proof. revert p. by induction n as [|n IH]; intros p; [|apply IH]. Qed.

Lemma slots_drop m a l i : slots_at m a l -> slots_at m (a + 128 * Z.of_nat i) (drop i l).
Proof.
  intros Hs j o Hj. rewrite lookup_drop in Hj. specialize (Hs _ _ Hj).
  by replace (a + 128 * Z.of_nat i + 128 * Z.of_nat j) with (a + 128 * Z.of_nat (i + j)) by lia.
Qed.

Lemma iter_buckets_scan s D R T d M : VD s D R T -> D !! d = Some M -> forall n (b i : nat),
  (b + n = 256)%nat -> (i < 32)%nat -> (n = 0%nat -> i = 0%nat) ->
  iter_buckets n (f_buf s) (R d * 4096) (Z.of_nat b) (Z.of_nat (32 * b + i)) = scan (drop (32 * b + i) (flat (T d))) (Z.of_nat (32 * b + i)).
Proof using Hg.
  intros V Hd. destruct (vd_dir _ _ _ _ _ _ _ V _ _ Hd) as [Da _]. pose proof (da_len _ _ _ _ _ Da) as Hlen.
  assert (Hfl : length (flat (T d)) = (32 * 256)%nat) by (unfold flat; rewrite seq_bind_length; [done|intros; apply Hlen; lia]).
  induction n as [|n IH]; intros b i Hb Hi Hz; cbn [iter_buckets].
  { rewrite (Hz eq_refl), drop_ge; [done|]. rewrite Hfl. lia. }
  rewrite drop_flat, scan_app by (done || lia). change FLATFS_DIRENTS_PER_BLK with 32. fold (child (f_buf s) (R d) (Z.of_nat b)).
  assert (Hnext : iter_buckets n (f_buf s) (R d * 4096) (Z.of_nat b + 1) ((Z.of_nat b + 1) * 32)
    = scan (seq (S b) (255 - b) ≫= fun b0 => T d (Z.of_nat b0)) (Z.of_nat (32 * b + 32))).
  { specialize (IH (S b) 0%nat ltac:(lia) ltac:(lia) ltac:(lia)). rewrite Nat.add_0_r in IH.
    replace (Z.of_nat b + 1) with (Z.of_nat (S b)) by lia. replace (Z.of_nat (S b) * 32) with (Z.of_nat (32 * S b)) by lia.
    rewrite IH. replace (32 * b + 32)%nat with (32 * S b)%nat by lia. f_equal.
    rewrite <- (Nat.add_0_r (32 * S b)). replace (32 * S b + 0)%nat with (32 * b + 32)%nat by lia.
    rewrite drop_flat by (done || lia). rewrite drop_ge by (rewrite Hlen; lia). done. }
  assert (Hd0 : Z.of_nat (32 * b + i) + Z.of_nat (length (drop i (T d (Z.of_nat b)))) = Z.of_nat (32 * b + 32)).
  { rewrite length_drop, Hlen by lia. lia. }
  rewrite Hd0. destruct (Z.eqb_spec (child (f_buf s) (R d) (Z.of_nat b)) 0) as [E|E].
  - rewrite Hnext, (da_empty _ _ _ _ _ Da (Z.of_nat b) ltac:(lia) E), drop_replicate, scan_empty. done.
  - assert (Z.of_nat (32 * b + i) / 32 = Z.of_nat b) as -> by zlia. assert (Z.of_nat (32 * b + i) mod 32 = Z.of_nat i) as -> by zlia.
    rewrite Z.eqb_refl. destruct (child_range g its ti _ _ _ _ _ _ (Z.of_nat b) V Hd ltac:(lia) E) as (Hr & _).
    pose proof (iter_entries_scan (f_buf s) (child (f_buf s) (R d) (Z.of_nat b)) (Z.of_nat b) ltac:(destruct Hg; lia)
      (drop i (T d (Z.of_nat b))) (Z.of_nat i) ltac:(apply slots_drop, (da_slots _ _ _ _ _ Da); (done || lia))) as Ei.
    rewrite length_drop, Hlen in Ei by lia. replace (Z.to_nat (32 - Z.of_nat i)) with (32 - i)%nat by lia. rewrite Ei.
    replace (Z.of_nat b * 32 + Z.of_nat i) with (Z.of_nat (32 * b + i)) by lia.
    replace (Z.of_nat b * 32 + 32) with ((Z.of_nat b + 1) * 32) by lia. by rewrite Hnext.
Qed.

(** One call: the next entry, or the end. *)
Lemma iterate_spec s D R T d M (p : nat) : VD s D R T -> D !! d = Some M -> (p <= 32 * 256)%nat ->
  flatfs_dir_readdir s d (Z.of_nat p) = match scan (drop p (flat (T d))) (Z.of_nat p) with
                                        | Some (e, q) => (inr e, q)
                                        | None => (inl FLATFS_ERR_NOTFOUND, 8192)
                                        end.
Proof using Hg Hit.
  intros V Hd Hp. unfold flatfs_dir_readdir, flatfs_htree_iterate. destruct (htroot_spec g Hg its ti Hit _ _ _ _ _ _ V Hd) as [_ ->].
  change FLATFS_DIRENTS_PER_BLK with 32. unfold FLATFS_HTREE_FANOUT.
  assert (Ep : p = (32 * (p / 32) + p mod 32)%nat) by (apply Nat.div_mod_eq). set (b := (p / 32)%nat) in *. set (i := (p mod 32)%nat) in *.
  assert (Hi : (i < 32)%nat) by (apply Nat.mod_upper_bound; lia). assert (Hb : (b <= 256)%nat) by lia.
  assert (Z.of_nat p / 32 = Z.of_nat b) as -> by (symmetry; apply Z.div_unique with (Z.of_nat i); lia).
  replace (Z.to_nat (256 - Z.of_nat b)) with (256 - b)%nat by lia. rewrite Ep.
  rewrite (iter_buckets_scan _ _ _ _ _ _ V Hd) by lia. by destruct (scan _ _) as [[e q]|].
Qed.

(** Readdir until it says there is no more, as its callers do. *)
Fixpoint readdir_all (fuel : nat) (s : fs) (d pos : Z) : option (list dent) :=
  match fuel with
  | O => None
  | S fuel =>
    match flatfs_dir_readdir s d pos with
    | (inr e, pos) => cons e <$> readdir_all fuel s d pos
    | (inl _, _) => Some []
    end
  end.

(** One call per entry and one for the end. *)
Lemma readdir_all_spec s D R T d M : VD s D R T -> D !! d = Some M -> forall fuel p, (p <= 32 * 256)%nat ->
  (length (omap id (drop p (flat (T d)))) < fuel)%nat ->
  readdir_all fuel s d (Z.of_nat p) = Some (omap id (drop p (flat (T d)))).
Proof using Hg Hit.
  intros V Hd. assert (Hfl : length (flat (T d)) = (32 * 256)%nat).
  { destruct (vd_dir _ _ _ _ _ _ _ V _ _ Hd) as [Da _]. unfold flat. rewrite seq_bind_length; [done|].
    intros. apply (da_len _ _ _ _ _ Da). lia. }
  induction fuel as [|fuel IH]; intros p Hp Hf; [lia|]. cbn [readdir_all]. rewrite (iterate_spec _ _ _ _ _ _ p V Hd Hp).
  destruct (scan _ _) as [[e q]|] eqn:Es; [|by rewrite (scan_none _ _ Es)].
  apply scan_some in Es as [Hq E]. rewrite length_drop, Hfl in Hq. rewrite drop_drop in E. rewrite E in Hf |- *.
  replace (p + Z.to_nat (q - Z.of_nat p))%nat with (Z.to_nat q) in * by lia.
  rewrite <- (Z2Nat.id q) at 1 by lia. rewrite IH; [done|lia|]. cbn [length] in Hf. lia.
Qed.

(** A listing from the start gives every binding once. *)
Lemma listing_spec s D R T d M fuel : VD s D R T -> D !! d = Some M -> (size M < fuel)%nat ->
  exists l, readdir_all fuel s d 0 = Some l /\ l ≡ₚ to_dent <$> map_to_list M.
Proof using Hg Hit.
  intros V Hd Hf. destruct (vd_dir _ _ _ _ _ _ _ V _ _ Hd) as [_ Ht]. exists (ents (T d)). split; [|done].
  pose proof (readdir_all_spec _ _ _ _ _ _ V Hd fuel 0%nat ltac:(lia)) as E. rewrite drop_0, flat_ents in E.
  apply E. by rewrite (ents_size _ _ Ht).
Qed.
End List.
