(* ===== verification/FlatHtreeProps.v ===== *)
(** * FlatFS directories: results

    Sequences of directory operations refine maps from names, and leave
    files alone. *)

From stdpp Require Import base list gmap.
From Stdlib Require Import ZArith Lia.
From S2P Require Import Prelude FlatCrc FlatFs FlatAlloc FlatSuper FlatProps FlatFile FlatIO FlatFileProps FlatHtree FlatHtreeRel FlatHtreeOps FlatHtreeSpec.

(** ** Sequences of operations *)

Inductive dir_op :=
| OLookup (d : Z) (n : list Z)
| OInsert (d : Z) (n : list Z) (ino ty : Z)
| ORemove (d : Z) (n : list Z)
| OIsempty (d : Z)
| OList (d : Z).

Inductive dir_res := RIno (r : flatfs_err + Z) | RRet (e : flatfs_err) | REmpty (b : bool) | RList (l : list dent).

(** A listing takes one call per entry, at most 8192 of them, and one more. *)
Definition list_fuel : nat := Z.to_nat 8194.

Definition dir_step (h : hfs) (op : dir_op) : option (dir_res * hfs) :=
  match op with
  | OLookup d n => let '(r, h) := flatfs_dir_lookup h d n in Some (RIno r, h)
  | OInsert d n ino ty => let '(e, s) := flatfs_dir_insert (h_fs h) d n ino ty in Some (RRet e, with_fs h s)
  | ORemove d n => let '(e, s) := flatfs_dir_remove (h_fs h) d n in Some (RRet e, with_fs h s)
  | OIsempty d => Some (REmpty (flatfs_dir_isempty (h_fs h) d), h)
  | OList d => (fun l => (RList l, h)) <$> readdir_all list_fuel (h_fs h) d 0
  end.

(** ** The specification: one map from names per directory *)

Abbreviation dirs := (gmap Z names).

(** [noblk] says that the volume has no free block. *)
Inductive dirs_op (noblk : bool) (D : dirs) : dir_op -> dir_res -> dirs -> Prop :=
| do_found d M n i t : D !! d = Some M -> M !! n = Some (i, t) -> dirs_op noblk D (OLookup d n) (RIno (inr i)) D
| do_missing d M n : D !! d = Some M -> M !! n = None -> dirs_op noblk D (OLookup d n) (RIno (inl FLATFS_ERR_NOTFOUND)) D
| do_insert d M n i t : D !! d = Some M -> M !! n = None ->
    dirs_op noblk D (OInsert d n i t) (RRet FLATFS_OK) (<[d := <[n := (i, t)]> M]> D)
| do_full d M n i t : D !! d = Some M -> (32 <= size (filter (in_bucket (name_bucket n)) M))%nat \/ noblk = true ->
    dirs_op noblk D (OInsert d n i t) (RRet FLATFS_ERR_NOSPACE) D
| do_remove d M n : D !! d = Some M -> is_Some (M !! n) ->
    dirs_op noblk D (ORemove d n) (RRet FLATFS_OK) (<[d := delete n M]> D)
| do_absent d M n : D !! d = Some M -> M !! n = None -> dirs_op noblk D (ORemove d n) (RRet FLATFS_ERR_NOTFOUND) D
| do_isempty d M : D !! d = Some M -> dirs_op noblk D (OIsempty d) (REmpty (bool_decide (M = ∅))) D
| do_list d M l : D !! d = Some M -> l ≡ₚ to_dent <$> map_to_list M -> dirs_op noblk D (OList d) (RList l) D.

(** What a caller has to respect: the directory exists, names fit an entry,
    and a name is inserted only when it is absent. *)
Definition op_pre (D : dirs) (op : dir_op) : Prop :=
  match op with
  | OLookup d n | ORemove d n => is_Some (D !! d) /\ name_ok n
  | OInsert d n i t => (exists M, D !! d = Some M /\ M !! n = None) /\ name_ok n /\ 0 < i < 2 ^ 64 /\ 0 <= t < 256
  | OIsempty d | OList d => is_Some (D !! d)
  end.

#[export] Instance op_pre_dec D op : Decision (op_pre D op).
Proof.
  destruct op as [d n|d n i t|d n|d|d]; cbn [op_pre]; try apply _.
  apply and_dec; [|apply _]. destruct (D !! d) as [M|] eqn:E; [destruct (decide (M !! n = None)) as [Hn|Hn]|].
  - left. by exists M.
  - right. intros (M' & ? & ?). congruence.
  - right. intros (M' & ? & ?). congruence.
Defined.

(** The code and the specification side by side. *)
Inductive dirs_run : hfs -> dirs -> list dir_op -> list dir_res -> hfs -> dirs -> Prop :=
| dr_nil h D : dirs_run h D [] [] h D
| dr_cons h D op ops r rs h1 D1 h' D' :
    dir_step h op = Some (r, h1) -> dirs_op (sbget (h_fs h) sb_free_blocks =? 0) D op r D1 ->
    dirs_run h1 D1 ops rs h' D' -> dirs_run h D (op :: ops) (r :: rs) h' D'.

(** ** Files next to directories *)

(** No block of the file is a directory's. *)
Definition dapart (s : fs) (D : dirs) (R : Z -> Z) (inp : bmem) : Prop :=
  forall d M k sl, D !! d = Some M -> -1 <= k < 256 -> slot_ok sl -> sval (f_buf s) inp sl <> 0 ->
    sval (f_buf s) inp sl <> dref (f_buf s) (R d) k.

Section Props.
Context (g : geom) (Hg : geom_ok g).
Context (its ti : Z) (Hit : 2 <= its /\ 0 < ti /\ its * 16 + ti <= ge_fl g * 16).

Abbreviation VD := (vdirs g its ti).
Abbreviation FO := (file_ok g).

(** What a step leaves of a file: its pointers, its bytes, its ownership. *)
Definition file_kept (s : fs) (D : dirs) (s' : fs) (D' : dirs) (R : Z -> Z) : Prop :=
  forall inp, FO (f_buf s) inp -> dapart s D R inp ->
    fsame (f_buf s) (f_buf s') inp /\ FO (f_buf s') inp /\ dapart s' D' R inp.

Lemma file_kept_refl s D R : file_kept s D s D R.
Proof. intros inp F A. split; [by split|done]. Qed.

Lemma file_kept_trans s D s1 D1 s2 D2 R : file_kept s D s1 D1 R -> file_kept s1 D1 s2 D2 R -> file_kept s D s2 D2 R.
Proof.
  intros K1 K2 inp F A. destruct (K1 inp F A) as ([S1 S1'] & F1 & A1). destruct (K2 inp F1 A1) as ([S2 S2'] & F2 & A2).
  split; [|done]. split; [intros sl Hs|intros l i Hl Hi]; [rewrite S2, S1 by done|rewrite S2', S1' by done]; done.
Qed.

Lemma step_keeps s D R T d M s' M' : VD s D R T -> D !! d = Some M -> dstep g its s s' d (R d) ->
  file_kept s D s' (<[d := M']> D) R.
Proof using Hg Hit.
  intros V Hd [Fr Gr Rf] inp F A.
  assert (Hblk : forall sl i, slot_ok sl -> sval (f_buf s) inp sl <> 0 -> 0 <= i < 4096 ->
    f_buf s' (sval (f_buf s) inp sl * 4096 + i) = f_buf s (sval (f_buf s) inp sl * 4096 + i)).
  { intros sl i Hs Hn Hi. destruct (fo_range _ _ _ F sl Hs Hn) as [Hr Hu]. set (p := sval (f_buf s) inp sl) in *.
    assert (E : (p * 4096 + i) / 4096 = p) by (symmetry; apply Z.div_unique with i; lia).
    apply Fr; [lia|by rewrite E|]. intros k Hk Hz. rewrite E. apply (A d M k sl); done. }
  pose proof (fsame_blocks _ _ _ Hblk) as Hs. split; [done|]. split; [by eapply file_ok_same|].
  intros d0 M0 k sl H0 Hk Hsl. rewrite (proj1 Hs) by done. intros Hn.
  assert (H1 : exists M1, D !! d0 = Some M1) by (rewrite lookup_insert_Some in H0; destruct H0 as [[<- _]|[_ ?]]; eauto).
  destruct H1 as [M1 H1]. destruct (Z.eq_dec d0 d) as [->|Hne].
  - destruct (Rf k Hk) as [->|[_ Hu]]; [by eapply A|]. intros E. destruct (fo_range _ _ _ F sl Hsl Hn) as [_ Hu'].
    rewrite E in Hu'. congruence.
  - rewrite (dir_same_ref its (f_buf s) (f_buf s') d0); [by eapply A|by eapply vd_root| |done].
    exact (dframe_same g its ti Hit s D R T d M d0 M1 (f_buf s') V Hd H1 Hne Fr).
Qed.

Lemma dir_step_sim h D R T op : VD (h_fs h) D R T -> op_pre D op ->
  exists r h' D' T', dir_step h op = Some (r, h') /\ dirs_op (sbget (h_fs h) sb_free_blocks =? 0) D op r D' /\
    VD (h_fs h') D' R T' /\ file_kept (h_fs h) D (h_fs h') D' R.
Proof using Hg Hit.
  intros V Hp. destruct op as [d n|d n i t|d n|d|d]; cbn [op_pre dir_step] in *.
  - destruct Hp as [[M Hd] Hn]. destruct (lookup_spec g Hg its ti Hit _ _ _ _ _ _ n V Hd Hn) as (h' & -> & Eh).
    exists (RIno (match M !! n with Some (i, _) => inr i | None => inl FLATFS_ERR_NOTFOUND end)), h', D, T. rewrite Eh.
    split_and!; [done| |done|apply file_kept_refl]. destruct (M !! n) as [[i t]|] eqn:E; by econstructor.
  - destruct Hp as ((M & Hd & Hm) & Hn & Hi & Ht).
    destruct (insert_spec g Hg its ti Hit _ _ _ _ _ _ n i t V Hd Hn Hi Ht Hm) as (e & s' & T' & -> & S & [[-> V']|(-> & V' & Hf)]).
    + eexists _, _, _, T'. split; [reflexivity|]. split_and!; [by constructor|done|by eapply step_keeps].
    + eexists _, _, D, T'. split; [reflexivity|]. split_and!; [econstructor; [done|]|done|].
      * destruct Hf as [?|Hf]; [by left|right; by apply Z.eqb_eq].
      * rewrite <- (insert_id D d M Hd) at 2. by eapply step_keeps.
  - destruct Hp as [[M Hd] Hn]. pose proof (htree_remove_spec g Hg its ti Hit _ _ _ _ _ _ n V Hd Hn) as E.
    destruct (M !! n) as [x|] eqn:Em.
    + destruct E as (s' & T' & -> & V' & S). eexists _, _, _, T'. split; [reflexivity|].
      split_and!; [by econstructor; [|rewrite Em]|done|by eapply step_keeps].
    + rewrite E. eexists _, _, D, T. split; [reflexivity|]. split_and!; [by econstructor|done|apply file_kept_refl].
  - destruct Hp as [M Hd]. rewrite (isempty_spec g Hg its ti Hit _ _ _ _ _ _ V Hd).
    eexists _, h, D, T. split; [reflexivity|]. split_and!; [by econstructor|done|apply file_kept_refl].
  - destruct Hp as [M Hd]. destruct (listing_spec g Hg its ti Hit _ _ _ _ _ _ list_fuel V Hd) as (l & -> & Hl).
    { pose proof (dir_size g its ti _ _ _ _ _ _ V Hd). unfold list_fuel. lia. }
    exists (RList l), h, D, T. split_and!; [done|by econstructor|done|apply file_kept_refl].
Qed.

Lemma dirs_run_sim R ops : forall h D T, VD (h_fs h) D R T ->
  exists k rs h' D' T', dirs_run h D (take k ops) rs h' D' /\ VD (h_fs h') D' R T' /\ file_kept (h_fs h) D (h_fs h') D' R /\
    (k = length ops \/ exists op, ops !! k = Some op /\ ~ op_pre D' op).
Proof using Hg Hit.
  induction ops as [|op ops IH]; intros h D T V.
  { exists 0%nat, [], h, D, T. split_and!; [constructor|done|apply file_kept_refl|by left]. }
  destruct (decide (op_pre D op)) as [Hp|Hp].
  - destruct (dir_step_sim h D R T op V Hp) as (r & h1 & D1 & T1 & E1 & O1 & V1 & K1).
    destruct (IH h1 D1 T1 V1) as (k & rs & h' & D' & T' & Hr & V' & K' & Hk).
    exists (S k), (r :: rs), h', D', T'. cbn [take]. split_and!; [by econstructor|done|by eapply file_kept_trans|].
    destruct Hk as [->|Hk]; [by left|by right].
  - exists 0%nat, [], h, D, T. split_and!; [constructor|done|apply file_kept_refl|right]. by exists op.
Qed.
End Props.

(** ** A volume with a directory *)

(** The inode of a directory, written to the table, with an empty root. *)
Definition new_dir : bmem := flatfs_inode_init (fun _ => 0) 1 0x41ED 0 0.
Definition dir_vol : fs :=
  let s := snd (flatfs_inode_write vol_open new_dir) in
  match flatfs_alloc_block to_local s with
  | (inr b, s) => snd (flatfs_htree_init s 1 b)
  | (inl _, s) => s
  end.

Lemma new_dir_fields : fget new_dir 0 i_ino = 1 /\ fget new_dir 0 i_magic = FLATFS_INODE_MAGIC /\ fget new_dir 0 i_size = 0.
Proof. by vm_compute. Qed.

Lemma new_dir_bytes : bytes_ok new_dir.
Proof. unfold new_dir, flatfs_inode_init, fset. repeat apply bytes_ok_wr. apply bytes_ok_memset; [lia|]. intros i. lia. Qed.

Lemma dir_vol_ok : exists R T, vdirs vol_geom 1028 64 dir_vol {[1 := ∅]} R T.
Proof.
  destruct vol_geom_ok as [Hg Hit]. destruct vol_open_ok as [V Hf]. destruct new_dir_fields as (Ei & Em & Es).
  destruct (inode_write_spec vol_geom Hg 1028 64 Hit vol_open new_dir V new_dir_bytes) as (Ew & V1 & Ho); [rewrite Ei; lia|].
  unfold dir_vol. rewrite Ew. cbn [snd]. set (s1 := stored 1028 vol_open new_dir) in *.
  assert (Hf1 : sbget s1 sb_free_blocks <> 0).
  { assert (sbget s1 sb_free_blocks = sbget vol_open sb_free_blocks) as ->; [|by rewrite Hf].
    apply fget_out. cbn. intros i Hi. apply Ho. lia. }
  destruct (proj2 (alloc_local vol_geom Hg 1028 64 Hit s1 V1) Hf1) as (x & s2 & -> & [K1 K2 K3 K4 K5 _ _]).
  assert (Hb : forall i, 0 <= i < 256 -> i < 248 \/ 252 <= i -> f_buf s2 (iaddr 1028 1 + i) = new_dir i).
  { intros i Hi Hc. rewrite K5 by (unfold iaddr; cbn [vol_geom]; destruct Hit as (? & ? & ?); lia).
    unfold s1, stored. cbn [f_buf with_buf]. rewrite Ei, memcpy_in by (unfold iaddr; lia).
    rewrite stamped_other by (unfold iaddr; lia). f_equal. unfold iaddr. lia. }
  assert (Hfld : forall f, 0 <= f_off f -> f_off f + Z.of_nat (f_width f) <= 248 \/ 252 <= f_off f /\ f_off f + Z.of_nat (f_width f) <= 256 ->
    fget (f_buf s2) (iaddr 1028 1) f = fget new_dir 0 f).
  { intros f F1 F2. unfold fget. apply rd_ext. intros i Hi. rewrite <- Z.add_assoc, Hb by lia. done. }
  assert (V0 : vdirs vol_geom 1028 64 s2 ∅ (fun _ => 0) (fun _ => no_slots)) by (constructor; done || (intros *; by rewrite lookup_empty)).
  destruct (init_spec vol_geom Hg 1028 64 Hit s2 ∅ _ _ 1 x V0 (lookup_empty _) ltac:(lia)) as (s' & -> & V').
  - rewrite Hfld by (cbn; lia). exact Ei.
  - rewrite Hfld by (cbn; lia). exact Em.
  - rewrite Hfld by (cbn; lia). exact Es.
  - exact K2.
  - rewrite K4, Z.eqb_refl by lia. reflexivity.
  - intros d' M k Hd'. by rewrite lookup_empty in Hd'.
  - eexists _, _. exact V'.
Qed.

(** ** The results *)


Definition aa : list Z := [97; 97].
Definition bq : list Z := [98; 113].

(** Directories do not disappear. *)
Lemma dirs_run_dir h D ops rs h' D' d : dirs_run h D ops rs h' D' -> is_Some (D !! d) -> is_Some (D' !! d).
Proof.
  induction 1 as [|h D op ops r rs h1 D1 h' D' _ Hop _ IH]; [done|]. intros Hd. apply IH.
  destruct Hop; try done; apply lookup_insert_is_Some'; by right.
Qed.

(** The calls of the witness are all within the contract, so none of them
    stops the run. *)
Lemma wit_dirs_all h h' D' rs k : let ops := [OInsert 1 aa 7 8; OLookup 1 aa; OList 1] in
  dirs_run h {[1 := ∅]} (take k ops) rs h' D' ->
  k = length ops \/ (exists op, ops !! k = Some op /\ ~ op_pre D' op) -> take k ops = ops.
Proof.
  intros ops Hr [->|(op & Hop & Hn)]; [done|]. destruct Hn.
  assert (Hd : is_Some (D' !! 1)) by (eapply dirs_run_dir; [exact Hr|by rewrite lookup_singleton_eq]).
  assert (Hna : name_ok aa) by (split; [cbn; lia|repeat constructor; lia]).
  destruct k as [|[|[|k]]]; cbn in Hop; try discriminate Hop; injection Hop as <-; [|done|done].
  cbn in Hr. inversion Hr; subst. split; [|split; [done|lia]]. exists ∅. by rewrite lookup_singleton_eq.
Qed.

Lemma wit_dirs_results h h' D' rs :
  (sbget (h_fs h) sb_free_blocks =? 0) = false ->
  dirs_run h {[1 := ∅]} [OInsert 1 aa 7 8; OLookup 1 aa; OList 1] rs h' D' ->
  exists l, rs = [RRet FLATFS_OK; RIno (inr 7); RList l] /\ length l = 1%nat.
Proof.
  intros Hroom Hr.
  inversion Hr as [|? ? ? ? r1 rs1 h1 D1 ? ? E1 S1 Hr1]; subst. inversion Hr1 as [|? ? ? ? r2 rs2 h2 D2 ? ? E2 S2 Hr2]; subst.
  inversion Hr2 as [|? ? ? ? r3 rs3 h3 D3 ? ? E3 S3 Hr3]; subst. inversion Hr3; subst. rewrite Hroom in S1.
  inversion S1 as [| |? M ? ? ? HM|? M ? ? ? HM Hfull| | | |]; subst; rewrite lookup_singleton_eq in HM; injection HM as <-;
    [|destruct Hfull as [Hfull|Hfull]; [rewrite map_filter_empty, map_size_empty in Hfull; lia|done]].
  inversion S2 as [? M ? ? ? HM Ha|? M ? HM Ha| | | | | |]; subst; rewrite lookup_insert_eq in HM; injection HM as <-;
    rewrite lookup_insert_eq in Ha; [injection Ha as <- <-|done].
  inversion S3 as [| | | | | | |? M l HM Hl]; subst. rewrite lookup_insert_eq in HM. injection HM as <-.
  exists l. split; [done|]. rewrite Hl, length_fmap, length_map_to_list, map_size_insert_None; reflexivity.
Qed.


(** Whatever is done to directories, a file that shares no block with
    them reads the same bytes before and after. *)
Theorem dir_ops_keep_files g its ti h D R T ops inp :
  geom_ok g -> table_ok g its ti -> vdirs g its ti (h_fs h) D R T ->
  file_ok g (f_buf (h_fs h)) inp -> dapart (h_fs h) D R inp -> plain inp ->
  exists k rs h' D', dirs_run h D (take k ops) rs h' D' /\
    (k = length ops \/ exists op, ops !! k = Some op /\ ~ op_pre D' op) /\
    forall off len, 0 <= off -> 0 <= len -> exists r,
      fst <$> flatfs_file_pread (h_fs h) inp off len = Some (inr r) /\
      fst <$> flatfs_file_pread (h_fs h') inp off len = Some (inr r).
Proof.
  intros Hg Hit V F A P. destruct (dirs_run_sim g Hg its ti Hit R ops h D T V) as (k & rs & h' & D' & T' & Hr & V' & K & Hk).
  destruct (K inp F A) as ([_ Hs] & F' & _). exists k, rs, h', D'. split_and!; [done|done|]. intros off len Ho Hl.
  destruct (pread_window g (h_fs h) inp off len Hg (vdirs_bytes _ _ _ _ _ _ _ V) F P Ho Hl) as (s1 & E1).
  destruct (pread_window g (h_fs h') inp off len Hg (vdirs_bytes _ _ _ _ _ _ _ V') F' P Ho Hl) as (s2 & E2).
  exists (window (fbyte (f_buf (h_fs h)) inp) (fget inp 0 i_size) off len). rewrite E1, E2. split; [done|]. cbn [fmap option_fmap option_map fst].
  do 2 f_equal. apply window_ext; [done|]. intros j Hj. destruct P as (_ & _ & Hsz). apply Hs; zlia.
Qed.

Lemma dir_ops_keep_files_witness : exists k rs h' D',
  dirs_run (HF dir_vol 0 0) {[1 := ∅]} (take k [OInsert 1 aa 7 8]) rs h' D' /\
  exists r, fst <$> flatfs_file_pread (h_fs h') new_file 0 5 = Some (inr r).
Proof.
  destruct dir_vol_ok as (R & T & V). destruct vol_geom_ok as [Hg Hit]. destruct new_file_fields as (_ & _ & P).
  destruct (dir_ops_keep_files vol_geom 1028 64 (HF dir_vol 0 0) {[1 := ∅]} R T [OInsert 1 aa 7 8] new_file Hg Hit V
    (new_file_ok _)) as (k & rs & h' & D' & Hr & _ & Hread); [|done|].
  - intros d M j sl _ _ Hs Hn. destruct Hn. destruct sl as [i|i|i|i i']; cbn [sval sparent sindex];
      rewrite ?new_file_roots by (cbn in Hs; lia); done.
  - exists k, rs, h', D'. split; [done|]. destruct (Hread 0 5) as (r & _ & E); [lia|lia|]. by exists r.
Defined.

(** ** Runs that go wrong *)

(** A removal leaves a free slot in front of another entry of the bucket; an
    insertion takes it without looking further. *)
Definition duplicate_run : list flatfs_err * list (flatfs_err + Z) :=
  let '(e1, s) := flatfs_dir_insert dir_vol 1 aa 7 8 in
  let '(e2, s) := flatfs_dir_insert s 1 bq 9 8 in
  let '(e3, s) := flatfs_dir_remove s 1 aa in
  let '(e4, s) := flatfs_dir_insert s 1 bq 11 8 in
  let '(e5, s') := flatfs_dir_remove s 1 bq in
  ([e1; e2; e3; e4; e5], [fst (flatfs_dir_lookup (HF s 0 0) 1 bq); fst (flatfs_dir_lookup (HF s' 0 0) 1 bq)]).

(** A name can be inserted twice: after a removal in the same bucket, a
    second insertion of a name that is there succeeds and hides the first
    entry, which a removal of the name brings back. *)
Theorem dir_duplicate_insert :
  duplicate_run = ([FLATFS_OK; FLATFS_OK; FLATFS_OK; FLATFS_OK; FLATFS_OK], [inr 11; inr 9]).
Proof. by vm_compute. Qed.

(** A name of 109 bytes is accepted although an entry has room for 108: the
    entry's checksum lands on the name's last byte, and the name is not
    found again. *)
Definition long_name : list Z := replicate 109 97.

Theorem dir_long_name_lost :
  let '(e, s) := flatfs_dir_insert dir_vol 1 long_name 7 8 in
  (e, fst (flatfs_dir_lookup (HF s 0 0) 1 long_name)) = (FLATFS_OK, inl FLATFS_ERR_NOTFOUND).
Proof. by vm_compute. Qed.

(** A new volume has no root directory: inode 1 names no hash table. *)
Theorem mkfs_no_root n : fst (flatfs_dir_lookup (HF vol_open 0 0) 1 n) = inl FLATFS_ERR_CORRUPT.
Proof.
  assert (E : htroot_ok vol_open 1 = None) by (by vm_compute).
  unfold flatfs_dir_lookup, flatfs_htree_lookup. cbn [h_fs]. by rewrite E.
Qed.

(** [flatfs_dir_create] initialises the hash table of an inode number it has
    only allocated: the slot is still zero, and the write-back of the inode
    is refused. *)
Theorem htree_init_fresh_inode : fst (flatfs_htree_init vol_open 2 1040) = FLATFS_ERR_BOUNDS.
Proof. by vm_compute. Qed.
