(* ===== verification/FlatJournal.v ===== *)
(** * FlatFS: the journal

    A transaction collects whole blocks in memory; its commit writes a
    descriptor, the data and a commit record to the log, then the blocks in
    place, then the journal superblock.  Recovery copies the data of the
    log's transactions to their blocks again.  The log is a ring of blocks
    of the volume of FlatFs, the rest of the state is [g_j].

    A commit is a list of stores, so that a crash is a prefix of it.

    Sources: flatfs_journal.c, flatfs_journal_tx.c, flatfs_journal_commit.c,
    flatfs_journal_recovery.c, flatfs_journal.h, flatfs_journal_tx.h. *)

From stdpp Require Import base list.
From Stdlib Require Import ZArith Lia.
From S2P Require Import Prelude FlatCrc FlatFs.

(** ** Constants and layout *)

Definition FLATFS_JOURNAL_MAGIC : Z := 0x464A524e.
Definition FLATFS_JOURNAL_MAXTX : Z := 256.
Definition FLATFS_JREC_DESCRIPTOR : Z := 1.
Definition FLATFS_JREC_COMMIT : Z := 2.
Definition FLATFS_JREC_REVOKE : Z := 3.
Definition FLATFS_JTAG_LAST : Z := 1.
Definition FLATFS_STATE_ERROR : Z := 4.
Definition FLATFS_STATE_REPLAY : Z := 8.
Definition AEV_WDT_SWEEP_OK : Z := 0x61.
Definition AEV_WDT_SWEEP_FAIL : Z := 0x62.

Definition sb_error_count := F 176 4.

(** flatfs_jsuper_t *)
Definition js_magic := F 0 4.
Definition js_version := F 4 4.
Definition js_sequence := F 8 8.
Definition js_head := F 16 8.
Definition js_tail := F 24 8.
Definition js_log_start := F 32 8.
Definition js_log_count := F 40 8.
Definition js_last_commit_seq := F 48 8.
Definition js_block_size := F 60 4.
Definition js_crc32 := F 4092 4.

(** flatfs_jrec_t and flatfs_jtag_t *)
Definition jr_magic := F 0 4.
Definition jr_type := F 4 4.
Definition jr_sequence := F 8 8.
Definition jr_count := F 16 4.
Definition jr_crc32 := F 20 4.
Definition jr_size : Z := 24.
Definition jt_target_blk := F 0 8.
Definition jt_flags := F 8 4.
Definition jt_crc32 := F 12 4.
Definition jt_size : Z := 16.

(** ** State *)

(** The volume and [g_j]: [j_tx] is the used part of [tx_targets] and
    [tx_buf], [j_rev] of [revoke].  The last field is the monitor's counter. *)
Record jstate := JST {
  j_fs : fs; tx_seq : Z; tx_id : Z; tx_active : bool; j_tx : list (Z * bmem); j_rev : list Z;
  stat_commits : Z; stat_replays : Z; stat_aborts : Z; mon_commits : Z }.

Definition j_buf (j : jstate) : bmem := f_buf (j_fs j).
Definition j_with (j : jstate) (s : fs) : jstate :=
  JST s (tx_seq j) (tx_id j) (tx_active j) (j_tx j) (j_rev j) (stat_commits j) (stat_replays j) (stat_aborts j) (mon_commits j).
Definition j_with_buf (j : jstate) (m : bmem) : jstate := j_with j (with_buf (j_fs j) m).
Definition j_with_tx (j : jstate) (seq id : Z) (act : bool) (l : list (Z * bmem)) : jstate :=
  JST (j_fs j) seq id act l (j_rev j) (stat_commits j) (stat_replays j) (stat_aborts j) (mon_commits j).

(** The gate context is whatever is bound to the volume. *)
Definition flatfs_tykid_audit_journal (s : fs) (committed : bool) : fs :=
  if f_bound s then with_audit s (f_audit s ++ [(if committed then AEV_WDT_SWEEP_OK else AEV_WDT_SWEEP_FAIL, 0)]) else s.

(** [sealed] is the answer of [tykid_verify_seal], which inspects the
    processor. *)
Definition flatfs_tykid_seal_check (s : fs) (sealed : bool) : flatfs_err * fs :=
  if negb (f_bound s) then (FLATFS_OK, s) else
  if sealed then (FLATFS_OK, s) else (FLATFS_ERR_PERM, with_audit s (f_audit s ++ [(AEV_SEAL_BROKEN, 0)])).

Definition jsuper (s : fs) : Z := blk_ptr (sbget s sb_journal_start).
Definition jsuper_backup (s : fs) : Z := blk_ptr (u64 (sbget s sb_journal_start + 1)).

(** [js->crc32 = 0; js->crc32 = flatfs_crc32(js, sizeof *js)] *)
Definition js_seal (m : bmem) (js : Z) : bmem :=
  let m := fset m js js_crc32 0 in fset m js js_crc32 (flatfs_crc32 m js 4096).

(** The log block at position [pos]. *)
Definition log_blk (base cnt pos : Z) : Z := u64 (base + pos mod cnt).

Definition flatfs_journal_init (j : jstate) : flatfs_err * jstate :=
  let s := j_fs j in
  let js := jsuper s in
  let m := f_buf s in
  let m := if fget m js js_magic =? FLATFS_JOURNAL_MAGIC then m else
    let m := memset m js 0 4096 in
    let m := fset m js js_magic FLATFS_JOURNAL_MAGIC in
    let m := fset m js js_version 1 in
    let m := fset m js js_sequence 1 in
    let m := fset m js js_log_start (u64 (fget m 0 sb_journal_start + 2)) in
    let m := fset m js js_log_count (u64 (fget m 0 sb_journal_blocks - 2)) in
    let m := fset m js js_head 0 in
    let m := fset m js js_tail 0 in
    let m := fset m js js_block_size FLATFS_BLOCK_SIZE in
    let m := js_seal m js in
    memcpy m (jsuper_backup s) m js 4096 in
  (FLATFS_OK, JST (with_buf s m) (fget m js js_sequence) 0 false [] [] 0 0 0 (mon_commits j)).

(** ** Transactions (flatfs_journal_tx.c) *)

Definition flatfs_journal_begin (j : jstate) : (flatfs_err + Z) * jstate :=
  if tx_active j then (inl FLATFS_ERR_BADSTATE, j) else
  (inr (tx_seq j), j_with_tx j (u64 (tx_seq j + 1)) (tx_seq j) true []).

(** [!g_j.tx_active || tx_id != g_j.tx_id] *)
Definition not_current (j : jstate) (id : Z) : bool := negb (tx_active j) || negb (id =? tx_id j).

Definition flatfs_journal_log (j : jstate) (id blk : Z) (data : bmem) : flatfs_err * jstate :=
  if not_current j id then (FLATFS_ERR_BADSTATE, j) else
  if FLATFS_JOURNAL_MAXTX <=? Z.of_nat (length (j_tx j)) then (FLATFS_ERR_OVERFLOW, j) else
  (FLATFS_OK, j_with_tx j (tx_seq j) (tx_id j) true (j_tx j ++ [(blk, data)])).

Definition flatfs_journal_abort (j : jstate) (id : Z) : flatfs_err * jstate :=
  if not_current j id then (FLATFS_ERR_BADSTATE, j) else
  let s := flatfs_tykid_audit_journal (j_fs j) false in
  (FLATFS_OK, JST s (tx_seq j) (tx_id j) false [] (j_rev j) (stat_commits j) (stat_replays j) (u64 (stat_aborts j + 1)) (mon_commits j)).

(** Tag [i] of [n]. *)
Definition put_tag (m : bmem) (desc i n : Z) (td : Z * bmem) : bmem :=
  let a := desc + jr_size + jt_size * i in
  let m := fset m a jt_target_blk (fst td) in
  let m := fset m a jt_flags (if i =? n - 1 then FLATFS_JTAG_LAST else 0) in
  fset m a jt_crc32 (flatfs_crc32 (snd td) 0 4096).

Fixpoint put_tags (m : bmem) (desc i n : Z) (l : list (Z * bmem)) : bmem :=
  match l with
  | [] => m
  | td :: l => put_tags (put_tag m desc i n td) desc (i + 1) n l
  end.

(** Records of the log: header, and the checksum of the block at the end. *)
Definition put_header (m : bmem) (a type id : Z) : bmem :=
  let m := memset m a 0 FLATFS_BLOCK_SIZE in
  let m := fset m a jr_magic FLATFS_JOURNAL_MAGIC in
  let m := fset m a jr_type type in
  fset m a jr_sequence id.

Definition rec_seal (m : bmem) (a : Z) : bmem :=
  let m := fset m a jr_crc32 0 in fset m a jr_crc32 (flatfs_crc32 m a 4096).

Definition write_desc (a id : Z) (l : list (Z * bmem)) (m : bmem) : bmem :=
  let n := Z.of_nat (length l) in
  let m := put_header m a FLATFS_JREC_DESCRIPTOR id in
  let m := fset m a jr_count n in
  rec_seal (put_tags m a 0 n l) a.

Definition write_commit (a id : Z) (m : bmem) : bmem := rec_seal (put_header m a FLATFS_JREC_COMMIT id) a.

Definition copy_block (dst : Z) (data : bmem) (m : bmem) : bmem := memcpy m (blk_ptr dst) data 0 FLATFS_BLOCK_SIZE.

(** The data blocks, from position [pos] on. *)
Fixpoint data_writes (base cnt pos : Z) (l : list (Z * bmem)) : list (bmem -> bmem) :=
  match l with
  | [] => []
  | td :: l => copy_block (log_blk base cnt pos) (snd td) :: data_writes base cnt (u64 (pos + 1)) l
  end.

Definition target_writes (l : list (Z * bmem)) : list (bmem -> bmem) := map (fun td => copy_block (fst td) (snd td)) l.

Definition advance_tail (js pos id seq : Z) (m : bmem) : bmem :=
  let m := fset m js js_tail pos in
  let m := fset m js js_last_commit_seq id in
  let m := fset m js js_sequence seq in
  js_seal m js.

(** The stores of a commit, in the order of the code. *)
Definition commit_writes (s : fs) (id seq : Z) (l : list (Z * bmem)) : list (bmem -> bmem) :=
  let js := jsuper s in
  let base := fget (f_buf s) js js_log_start in
  let cnt := fget (f_buf s) js js_log_count in
  let pos := fget (f_buf s) js js_tail in
  let cpos := u64 (pos + 1 + Z.of_nat (length l)) in
  write_desc (blk_ptr (log_blk base cnt pos)) id l ::
  data_writes base cnt (u64 (pos + 1)) l ++
  write_commit (blk_ptr (log_blk base cnt cpos)) id ::
  target_writes l ++
  [advance_tail js (u64 (cpos + 1)) id seq; fun m => memcpy m (jsuper_backup s) m js 4096].

Definition do_writes (ws : list (bmem -> bmem)) (m : bmem) : bmem := fold_left (fun m w => w m) ws m.

Definition flatfs_journal_commit (j : jstate) (id : Z) (sealed : bool) : flatfs_err * jstate :=
  if not_current j id then (FLATFS_ERR_BADSTATE, j) else
  match flatfs_tykid_seal_check (j_fs j) sealed with
  | (FLATFS_OK, s) =>
    let m := do_writes (commit_writes s (tx_id j) (tx_seq j) (j_tx j)) (f_buf s) in
    let s := flatfs_tykid_audit_journal (with_buf s m) true in
    (FLATFS_OK, JST s (tx_seq j) (tx_id j) false [] (j_rev j)
       (u64 (stat_commits j + 1)) (stat_replays j) (stat_aborts j) (u64 (mon_commits j + 1)))
  | (e, s) =>
    let j := snd (flatfs_journal_abort (j_with j s) id) in
    (e, j_with j (flatfs_tykid_audit_journal (j_fs j) false))
  end.

(** ** Helpers (flatfs_journal_commit.c) *)

Definition flatfs_journal_write_meta (j : jstate) (blk : Z) (data : bmem) (sealed : bool) : flatfs_err * jstate :=
  match flatfs_journal_begin j with
  | (inl e, j) => (e, j)
  | (inr id, j) =>
    match flatfs_journal_log j id blk data with
    | (FLATFS_OK, j) => flatfs_journal_commit j id sealed
    | (e, j) => (e, snd (flatfs_journal_abort j id))
    end
  end.

Definition flatfs_journal_write2 (j : jstate) (blk0 : Z) (d0 : bmem) (blk1 : Z) (d1 : bmem) (sealed : bool)
  : flatfs_err * jstate :=
  match flatfs_journal_begin j with
  | (inl e, j) => (e, j)
  | (inr id, j) =>
    match flatfs_journal_log j id blk0 d0 with
    | (FLATFS_OK, j) =>
      match flatfs_journal_log j id blk1 d1 with
      | (FLATFS_OK, j) => flatfs_journal_commit j id sealed
      | (e, j) => (e, snd (flatfs_journal_abort j id))
      end
    | (e, j) => (e, snd (flatfs_journal_abort j id))
    end
  end.

(** ** Replay and checkpoint (flatfs_journal.c) *)

Definition revoked (r : list Z) (blk : Z) : bool := existsb (Z.eqb blk) r.

(** The loop over the tags of the descriptor at [rec]. *)
Fixpoint replay_tags (n : nat) (m : bmem) (r : list Z) (base cnt rec i dpos : Z) : bmem * Z :=
  match n with
  | O => (m, dpos)
  | S n =>
    let tag := rec + jr_size + jt_size * i in
    let src := blk_ptr (log_blk base cnt dpos) in
    let m := if revoked r (fget m tag jt_target_blk) then m else
             if flatfs_crc32 m src 4096 =? fget m tag jt_crc32
             then memcpy m (blk_ptr (fget m tag jt_target_blk)) m src FLATFS_BLOCK_SIZE else m in
    replay_tags n m r base cnt rec (i + 1) (u64 (dpos + 1))
  end.

(** The blocks a revocation record adds, as far as the table has room. *)
Definition add_revoked (m : bmem) (r : list Z) (rec : Z) (n : nat) : list Z :=
  r ++ take (256 - length r) (map (fun i => rd 8 m (rec + jr_size + 8 * Z.of_nat i)) (seq 0 n)).

(** [None] when the fuel runs out; otherwise memory, revocations, position
    and the number of commit records. *)
Fixpoint replay_loop (fuel : nat) (m : bmem) (r : list Z) (base cnt pos limit done : Z) : option (bmem * list Z * Z * Z) :=
  if pos =? limit then Some (m, r, pos, done) else
  match fuel with
  | O => None
  | S fuel =>
    let rec := blk_ptr (log_blk base cnt pos) in
    if negb (fget m rec jr_magic =? FLATFS_JOURNAL_MAGIC) then Some (m, r, pos, done) else
    let type := fget m rec jr_type in
    if type =? FLATFS_JREC_DESCRIPTOR then
      let '(m, dpos) := replay_tags (Z.to_nat (fget m rec jr_count)) m r base cnt rec 0 (u64 (pos + 1)) in
      replay_loop fuel m r base cnt dpos limit done
    else if type =? FLATFS_JREC_COMMIT then replay_loop fuel m r base cnt (u64 (pos + 1)) limit (u64 (done + 1))
    else if type =? FLATFS_JREC_REVOKE then
      let r := add_revoked m r rec (Z.to_nat (fget m rec jr_count)) in
      replay_loop fuel m r base cnt (u64 (pos + 1)) limit done
    else Some (m, r, pos, done)
  end.

(** One iteration per log block at most between head and tail. *)
Definition flatfs_journal_replay (j : jstate) : option (flatfs_err * jstate) :=
  let js := jsuper (j_fs j) in
  let m := j_buf j in
  if negb (fget m js js_magic =? FLATFS_JOURNAL_MAGIC) then Some (FLATFS_ERR_JOURNAL, j) else
  let base := fget m js js_log_start in
  let cnt := fget m js js_log_count in
  let head := fget m js js_head in
  let tail := fget m js js_tail in
  '(m, r, pos, done) ← replay_loop (Z.to_nat (u64 (tail - head))) m (j_rev j) base cnt head tail 0;
  let m := js_seal (fset m js js_head pos) js in
  Some (FLATFS_OK, JST (with_buf (j_fs j) m) (tx_seq j) (tx_id j) (tx_active j) (j_tx j) r
                     (stat_commits j) (u64 (stat_replays j + done)) (stat_aborts j) (mon_commits j)).

Definition flatfs_journal_revoke (j : jstate) (blk : Z) : flatfs_err * jstate :=
  if 256 <=? Z.of_nat (length (j_rev j)) then (FLATFS_ERR_OVERFLOW, j) else
  (FLATFS_OK, JST (j_fs j) (tx_seq j) (tx_id j) (tx_active j) (j_tx j) (j_rev j ++ [blk])
                (stat_commits j) (stat_replays j) (stat_aborts j) (mon_commits j)).

Definition flatfs_journal_checkpoint (j : jstate) : flatfs_err * jstate :=
  let s := j_fs j in
  let js := jsuper s in
  let m := fset (f_buf s) js js_head (fget (f_buf s) js js_tail) in
  let m := js_seal m js in
  (FLATFS_OK, j_with_buf j (memcpy m (jsuper_backup s) m js 4096)).

Definition flatfs_journal_stats (j : jstate) : Z * Z * Z := (stat_commits j, stat_replays j, stat_aborts j).

(** ** Recovery (flatfs_journal_recovery.c) *)

Definition state_or (s : fs) (bits : Z) : fs := sbset s sb_state (Z.lor (sbget s sb_state) bits).

Definition flatfs_journal_recover (j : jstate) : option (flatfs_err * jstate) :=
  let s := j_fs j in
  if negb (Z.land (sbget s sb_state) FLATFS_STATE_REPLAY =? 0) then Some (FLATFS_ERR_BADSTATE, j) else
  let j := j_with j (flatfs_super_write (state_or s FLATFS_STATE_REPLAY)) in
  '(e, j) ← flatfs_journal_replay j;
  match e with
  | FLATFS_OK =>
    let j := snd (flatfs_journal_checkpoint j) in
    let s := j_fs j in
    let s := sbset s sb_state (Z.land (sbget s sb_state) (Z.lnot (Z.lor FLATFS_STATE_DIRTY FLATFS_STATE_REPLAY))) in
    Some (FLATFS_OK, j_with j (flatfs_super_write (state_or s FLATFS_STATE_CLEAN)))
  | e =>
    let s := state_or (j_fs j) FLATFS_STATE_ERROR in
    let s := sbset s sb_error_count (u32 (sbget s sb_error_count + 1)) in
    Some (e, j_with j (flatfs_super_write s))
  end.
