(* ===== verification/FlatJournalProof.v ===== *)
(** * FlatFS journal: the log and its replay

    What the blocks of the log mean, that a commit appends its transaction
    to them, and that replay applies the transactions in order. *)

From stdpp Require Import base list.
From Stdlib Require Import ZArith Lia.
From S2P Require Import Prelude FlatCrc FlatFs FlatAlloc FlatSuper FlatProps FlatJournal.

Abbreviation txn := (list (Z * bmem)).

(** ** Pointwise equal memories *)

Definition meq (m m' : bmem) : Prop := forall i, m i = m' i.

Lemma do_writes_app ws ws' m : do_writes (ws ++ ws') m = do_writes ws' (do_writes ws m).
Proof. apply fold_left_app. Qed.

(** The blocks of a transaction, written in place. *)
Definition apply_tx (l : txn) (m : bmem) : bmem := do_writes (target_writes l) m.
Definition apply_all (txs : list txn) (m : bmem) : bmem := fold_left (fun m l => apply_tx l m) txs m.

Lemma copy_block_at t d m i : 0 <= t < 2 ^ 52 ->
  copy_block t d m i = if bool_decide (t * 4096 <= i < t * 4096 + 4096) then d (i - t * 4096) else m i.
Proof.
  intros Ht. unfold copy_block. rewrite blk_ptr_eq by done. unfold FLATFS_BLOCK_SIZE. case_bool_decide.
  - rewrite memcpy_in by lia. f_equal.
  - apply memcpy_out. lia.
Qed.

Lemma copy_block_point t d m m' i : m i = m' i -> copy_block t d m i = copy_block t d m' i.
Proof. intros Hm. unfold copy_block, memcpy. by destruct (_ && _). Qed.

Lemma apply_tx_cons t d l m : apply_tx ((t, d) :: l) m = apply_tx l (copy_block t d m).
Proof. done. Qed.

Lemma apply_tx_point l i : forall m m', m i = m' i -> apply_tx l m i = apply_tx l m' i.
Proof. induction l as [|[t d] l IH]; intros m m' Hm; [done|]. rewrite !apply_tx_cons. by apply IH, copy_block_point. Qed.

Lemma apply_all_point txs i : forall m m', m i = m' i -> apply_all txs m i = apply_all txs m' i.
Proof. induction txs as [|l txs IH]; intros m m' Hm; [done|]. cbn [apply_all fold_left]. by apply IH, apply_tx_point. Qed.

(** At one address a sequence of transactions is the identity or a constant. *)
Definition fixes (g : bmem -> bmem) (i : Z) : Prop := (forall m, g m i = m i) \/ exists c, forall m, g m i = c.

Lemma fixes_comp g h i : fixes g i -> fixes h i -> (forall m m', m i = m' i -> h m i = h m' i) -> fixes (fun m => h (g m)) i.
Proof.
  intros [Hg|[c Hg]] Hh Hp.
  - destruct Hh as [Hh|[d Hh]]; [left|right; exists d]; intros m; by rewrite Hh, ?Hg.
  - right. destruct Hh as [Hh|[d Hh]]; [exists c|exists d]; intros m; by rewrite Hh, ?Hg.
Qed.

Lemma fixes_tx l i : fixes (apply_tx l) i.
Proof.
  unfold apply_tx. induction l as [|td l IH]; [by left|]. cbn [target_writes map do_writes fold_left].
  apply (fixes_comp (copy_block (fst td) (snd td)) (apply_tx l)); [|exact IH|intros m m'; apply apply_tx_point].
  unfold copy_block, FLATFS_BLOCK_SIZE. destruct (decide (blk_ptr (fst td) <= i < blk_ptr (fst td) + 4096)).
  - right. eexists. intros m. by apply memcpy_in.
  - left. intros m. apply memcpy_out. lia.
Qed.

(** Replaying a log over memory that has its blocks in place changes
    nothing, and stays so after another transaction. *)
Lemma synced_snoc txs l m i : apply_all txs m i = m i -> apply_all (txs ++ [l]) (apply_tx l m) i = apply_tx l m i.
Proof.
  intros Hm. unfold apply_all. rewrite fold_left_app. cbn [fold_left]. fold (apply_all txs (apply_tx l m)).
  destruct (fixes_tx l i) as [Hl|[c Hl]]; rewrite !Hl; [|done]. by rewrite (apply_all_point txs i _ m) by apply Hl.
Qed.

Lemma apply_all_app t1 t2 m : apply_all (t1 ++ t2) m = apply_all t2 (apply_all t1 m).
Proof. unfold apply_all. apply fold_left_app. Qed.

(** Stores that leave the addresses in [P] alone. *)
Definition keeps (P : Z -> Prop) (w : bmem -> bmem) : Prop := forall m i, P i -> w m i = m i.

Lemma do_writes_keeps P ws : Forall (keeps P) ws -> keeps P (do_writes ws).
Proof.
  intros Hw m i Hi. revert m. induction Hw as [|w ws Hw _ IH]; intros m; [done|]. cbn [do_writes fold_left].
  fold (do_writes ws (w m)). rewrite IH. by apply Hw.
Qed.

(** ** Records *)

Lemma put_header_out m a ty id i : i < a \/ a + 4096 <= i -> put_header m a ty id i = m i.
Proof.
  intros Hi. unfold put_header, fset, jr_magic, jr_type, jr_sequence, FLATFS_BLOCK_SIZE. cbn [f_off f_width].
  rewrite !wr_out by (cbn; lia). apply memset_out. lia.
Qed.

Lemma put_header_fields m a ty id : 0 <= ty < 2 ^ 32 ->
  fget (put_header m a ty id) a jr_magic = FLATFS_JOURNAL_MAGIC /\ fget (put_header m a ty id) a jr_type = ty.
Proof.
  intros Ht. unfold put_header, fget, fset, jr_magic, jr_type, jr_sequence. cbn [f_off f_width].
  split; rewrite ?rd_wr_other by (cbn; lia); apply rd_wr_small; cbn; unfold FLATFS_JOURNAL_MAGIC; lia.
Qed.

Lemma rec_seal_out m a i : i < a + 20 \/ a + 24 <= i -> rec_seal m a i = m i.
Proof. intros Hi. unfold rec_seal, fset, jr_crc32. cbn [f_off f_width]. by rewrite !wr_out by (cbn; lia). Qed.

Lemma put_tag_out m a i n td k : k < a + 24 + 16 * i \/ a + 40 + 16 * i <= k -> put_tag m a i n td k = m k.
Proof.
  intros Hk. unfold put_tag, fset, jt_target_blk, jt_flags, jt_crc32, jr_size, jt_size. cbn [f_off f_width].
  by rewrite !wr_out by (cbn; lia).
Qed.

Lemma put_tags_out a n l : forall m i k, k < a + 24 + 16 * i \/ a + 24 + 16 * (i + Z.of_nat (length l)) <= k ->
  put_tags m a i n l k = m k.
Proof.
  induction l as [|td l IH]; intros m i k Hk; [done|]. cbn [put_tags length] in *. rewrite IH by lia.
  apply put_tag_out. lia.
Qed.

(** What tag [i] of the descriptor at [a] says. *)
Definition tag_at (m : bmem) (a : Z) (i : nat) (td : Z * bmem) : Prop :=
  fget m (a + 24 + 16 * Z.of_nat i) jt_target_blk = fst td /\
  fget m (a + 24 + 16 * Z.of_nat i) jt_crc32 = flatfs_crc32 (snd td) 0 4096.

Lemma tag_ext m m' a i td : (forall k, a + 24 + 16 * Z.of_nat i <= k < a + 40 + 16 * Z.of_nat i -> m' k = m k) ->
  tag_at m a i td -> tag_at m' a i td.
Proof. intros Hm [H1 H2]. unfold tag_at. rewrite <- H1, <- H2. split; apply fget_out; cbn; intros; apply Hm; lia. Qed.

Lemma put_tag_at m a i n td : 0 <= fst td < 2 ^ 64 -> bytes_ok (snd td) -> tag_at (put_tag m a (Z.of_nat i) n td) a i td.
Proof.
  intros Ht Hd. unfold tag_at, put_tag, jr_size, jt_size, fget, fset, jt_target_blk, jt_flags, jt_crc32. cbn [f_off f_width].
  split; rewrite ?rd_wr_other by (cbn; lia); apply rd_wr_small; [done|]. by apply flatfs_crc32_range.
Qed.

Lemma put_tags_at a n l : Forall (fun td => 0 <= fst td < 2 ^ 64 /\ bytes_ok (snd td)) l -> forall m (i : nat) k td,
  l !! k = Some td -> tag_at (put_tags m a (Z.of_nat i) n l) a (i + k) td.
Proof.
  induction 1 as [|td l [Ht Hd] _ IH]; intros m i k td' Hk; [done|]. cbn [put_tags].
  replace (Z.of_nat i + 1) with (Z.of_nat (S i)) by lia. destruct k as [|k].
  - injection Hk as <-. rewrite Nat.add_0_r. apply tag_ext with (put_tag m a (Z.of_nat i) n td); [|by apply put_tag_at].
    intros j Hj. apply put_tags_out. lia.
  - replace (i + S k)%nat with (S i + k)%nat by lia. by apply IH.
Qed.

(** A descriptor of at most 254 tags stays in its block. *)
Lemma write_desc_out a id l m i : (length l <= 254)%nat -> i < a \/ a + 4096 <= i -> write_desc a id l m i = m i.
Proof.
  intros Hl Hi. unfold write_desc. rewrite rec_seal_out, put_tags_out by lia. unfold fset, jr_count. cbn [f_off f_width].
  rewrite wr_out by (cbn; lia). by apply put_header_out.
Qed.

Lemma write_desc_at a id l m : (length l <= 254)%nat -> Forall (fun td => 0 <= fst td < 2 ^ 64 /\ bytes_ok (snd td)) l ->
  let m' := write_desc a id l m in
  fget m' a jr_magic = FLATFS_JOURNAL_MAGIC /\ fget m' a jr_type = FLATFS_JREC_DESCRIPTOR /\
  fget m' a jr_count = Z.of_nat (length l) /\ forall k td, l !! k = Some td -> tag_at m' a k td.
Proof.
  intros Hl Hok m'. unfold m', write_desc. set (n := Z.of_nat (length l)). set (m1 := put_header _ _ _ _).
  set (m2 := fset m1 a jr_count n). set (m3 := put_tags m2 a 0 n l).
  assert (H3 : forall i, i < a + 20 \/ a + 24 <= i -> rec_seal m3 a i = m3 i) by (intros; by apply rec_seal_out).
  assert (H2 : forall i, i < a + 24 -> m3 i = m2 i) by (intros; apply put_tags_out; lia).
  assert (H1 : forall i, i < a + 16 -> m2 i = m1 i).
  { intros i Hi. unfold m2, fset, jr_count. cbn [f_off f_width]. by rewrite wr_out by (cbn; lia). }
  destruct (put_header_fields m a FLATFS_JREC_DESCRIPTOR id) as [E1 E2]; [by cbn|]. fold m1 in E1, E2.
  split_and!.
  - rewrite <- E1. apply fget_out. cbn. intros i Hi. rewrite H3, H2, H1 by lia. done.
  - rewrite <- E2. apply fget_out. cbn. intros i Hi. rewrite H3, H2, H1 by lia. done.
  - rewrite (fget_out m2) by (cbn; intros i Hi; rewrite H3, H2 by lia; done). unfold m2, fget, fset. apply rd_wr_small.
    cbn [f_width jr_count]. unfold n. lia.
  - intros k td Hk. apply tag_ext with m3; [intros i Hi; apply H3; lia|]. apply (put_tags_at a n l Hok m2 0%nat k td Hk).
Qed.

Lemma write_commit_out a id m i : i < a \/ a + 4096 <= i -> write_commit a id m i = m i.
Proof. intros Hi. unfold write_commit. rewrite rec_seal_out by lia. by apply put_header_out. Qed.

Lemma write_commit_at a id m :
  fget (write_commit a id m) a jr_magic = FLATFS_JOURNAL_MAGIC /\ fget (write_commit a id m) a jr_type = FLATFS_JREC_COMMIT.
Proof.
  destruct (put_header_fields m a FLATFS_JREC_COMMIT id) as [E1 E2]; [by cbn|].
  split; [rewrite <- E1|rewrite <- E2]; apply fget_out; cbn; intros i Hi; apply rec_seal_out; lia.
Qed.

(** ** The log *)

Section Journal.
Context (jb cnt : Z) (Hj : 2 <= jb /\ 0 < cnt /\ jb + 2 + cnt < 2 ^ 40).

(** Address of log position [p]. *)
Definition slot (p : Z) : Z := (jb + 2 + p mod cnt) * 4096.

(** Addresses outside the journal. *)
Definition outside (i : Z) : Prop := i < jb * 4096 \/ (jb + 2 + cnt) * 4096 <= i.

Lemma slot_range p : (jb + 2) * 4096 <= slot p /\ slot p + 4096 <= (jb + 2 + cnt) * 4096.
Proof using Hj. unfold slot. pose proof (Z.mod_pos_bound p cnt). lia. Qed.

Lemma log_slot_apart p q : p < q < p + cnt -> slot p + 4096 <= slot q \/ slot q + 4096 <= slot p.
Proof using Hj.
  intros Hq. unfold slot. assert (p mod cnt <> q mod cnt); [|lia]. intros E.
  pose proof (Z.div_mod p cnt) as Ep. pose proof (Z.div_mod q cnt) as Eq.
  assert (Hd : q - p = cnt * (q / cnt - p / cnt)) by lia. assert (q / cnt - p / cnt <= 0 \/ 1 <= q / cnt - p / cnt) as [?|?] by lia; nia.
Qed.

Lemma log_blk_slot p : blk_ptr (log_blk (jb + 2) cnt p) = slot p.
Proof using Hj.
  unfold log_blk, slot. pose proof (Z.mod_pos_bound p cnt). rewrite u64_small by lia. apply blk_ptr_eq. lia.
Qed.

(** A transaction whose blocks are outside the journal and the superblocks. *)
Definition target_ok (td : Z * bmem) : Prop :=
  2 <= fst td < 2 ^ 52 /\ (fst td < jb \/ jb + 2 + cnt <= fst td) /\ bytes_ok (snd td).
Definition txn_ok (l : txn) : Prop := (length l <= 254)%nat /\ Forall target_ok l.

Definition txn_len (l : txn) : Z := Z.of_nat (length l) + 2.

(** The records of [l] at position [p]. *)
Record txn_at (m : bmem) (p : Z) (l : txn) : Prop := {
  ta_magic : fget m (slot p) jr_magic = FLATFS_JOURNAL_MAGIC;
  ta_type : fget m (slot p) jr_type = FLATFS_JREC_DESCRIPTOR;
  ta_count : fget m (slot p) jr_count = Z.of_nat (length l);
  ta_tags : forall k td, l !! k = Some td -> tag_at m (slot p) k td;
  ta_data : forall k (td : Z * bmem) o, l !! k = Some td -> 0 <= o < 4096 -> m (slot (p + 1 + Z.of_nat k) + o) = snd td o;
  ta_cmagic : fget m (slot (p + 1 + Z.of_nat (length l))) jr_magic = FLATFS_JOURNAL_MAGIC;
  ta_commit : fget m (slot (p + 1 + Z.of_nat (length l))) jr_type = FLATFS_JREC_COMMIT }.

(** The log from [p] to [q] holds the transactions [txs]. *)
Fixpoint log_at (m : bmem) (p : Z) (txs : list txn) (q : Z) : Prop :=
  match txs with
  | [] => p = q
  | l :: txs => txn_ok l /\ txn_at m p l /\ log_at m (p + txn_len l) txs q
  end.

Lemma log_le m txs : forall p q, log_at m p txs q -> p <= q.
Proof.
  induction txs as [|l txs IH]; intros p q; cbn [log_at]; [lia|]. intros (_ & _ & Hl%IH). unfold txn_len in Hl. lia.
Qed.

Lemma txn_ext m m' p l : (length l <= 254)%nat ->
  (forall q i, p <= q < p + txn_len l -> slot q <= i < slot q + 4096 -> m' i = m i) -> txn_at m p l -> txn_at m' p l.
Proof.
  intros Hl Hm [T1 T2 T3 T4 T5 T6 T7]. unfold txn_len in Hm.
  assert (Hd : forall i, slot p <= i < slot p + 4096 -> m' i = m i) by (intros; apply (Hm p); lia).
  assert (Hc : forall i, slot (p + 1 + Z.of_nat (length l)) <= i < slot (p + 1 + Z.of_nat (length l)) + 4096 -> m' i = m i)
    by (intros; apply (Hm (p + 1 + Z.of_nat (length l))); lia).
  constructor.
  - rewrite <- T1. apply fget_out. cbn. intros. apply Hd. lia.
  - rewrite <- T2. apply fget_out. cbn. intros. apply Hd. lia.
  - rewrite <- T3. apply fget_out. cbn. intros. apply Hd. lia.
  - intros k td Hk. pose proof (lookup_lt_Some _ _ _ Hk). apply tag_ext with m; [|by apply T4]. intros. apply Hd. lia.
  - intros k td o Hk Ho. pose proof (lookup_lt_Some _ _ _ Hk). rewrite <- (T5 k td o) by done. apply (Hm (p + 1 + Z.of_nat k)); lia.
  - rewrite <- T6. apply fget_out. cbn. intros. apply Hc. lia.
  - rewrite <- T7. apply fget_out. cbn. intros. apply Hc. lia.
Qed.

Lemma log_ext m m' txs : forall p q,
  (forall k i, p <= k < q -> slot k <= i < slot k + 4096 -> m' i = m i) -> log_at m p txs q -> log_at m' p txs q.
Proof.
  induction txs as [|l txs IH]; intros p q Hm; cbn [log_at]; [done|]. intros (Hok & Ht & Hl).
  pose proof (log_le _ _ _ _ Hl). split_and!; [done| |].
  - apply txn_ext with m; [apply Hok| |done]. intros k i Hk. apply Hm. lia.
  - apply IH; [|done]. intros k i Hk. apply Hm. unfold txn_len in *. lia.
Qed.

Lemma log_snoc m txs l : forall p q, log_at m p txs q -> txn_ok l -> txn_at m q l -> log_at m p (txs ++ [l]) (q + txn_len l).
Proof.
  induction txs as [|l0 txs IH]; intros p q; cbn [log_at app].
  - intros -> Hok Ht. by split_and!.
  - intros (Hok0 & Ht0 & Hl) Hok Ht. split_and!; [done|done|]. by apply IH.
Qed.

(** ** What writing in place touches *)

Lemma apply_tx_out l : Forall target_ok l -> forall m i,
  (forall t d, (t, d) ∈ l -> i < t * 4096 \/ t * 4096 + 4096 <= i) -> apply_tx l m i = m i.
Proof.
  induction 1 as [|[t d] l (Ht & _ & _) _ IH]; intros m i Hi; [done|]. rewrite apply_tx_cons, IH by (intros; apply Hi with d0; by right).
  rewrite copy_block_at by (cbn in Ht; lia). rewrite bool_decide_eq_false_2; [done|]. specialize (Hi t d ltac:(by left)). lia.
Qed.

Lemma apply_tx_journal l m i : Forall target_ok l -> ~ outside i \/ i < 8192 -> apply_tx l m i = m i.
Proof using Hj.
  intros Hl Hi. apply apply_tx_out; [done|]. intros t d Htd. rewrite Forall_forall in Hl. destruct (Hl _ Htd) as (H1 & H2 & _).
  cbn in H1, H2. unfold outside in Hi. lia.
Qed.

Lemma apply_all_journal txs m i : Forall txn_ok txs -> ~ outside i \/ i < 8192 -> apply_all txs m i = m i.
Proof using Hj.
  intros Ht Hi. revert m. induction Ht as [|l txs [_ Hl] _ IH]; intros m; [done|]. cbn [apply_all fold_left].
  fold (apply_all txs (apply_tx l m)). rewrite IH. by apply apply_tx_journal.
Qed.

Lemma slot_inside p i : slot p <= i < slot p + 4096 -> ~ outside i.
Proof using Hj. intros Hi Ho. pose proof (slot_range p). unfold outside in Ho. lia. Qed.

Lemma log_inside m m' txs p q : (forall i, ~ outside i -> m' i = m i) -> log_at m p txs q -> log_at m' p txs q.
Proof using Hj. intros Hm. apply log_ext. intros k i _ Hi. by eapply Hm, slot_inside. Qed.

Lemma log_oks m txs : forall p q, log_at m p txs q -> Forall txn_ok txs.
Proof. induction txs as [|l txs IH]; intros p q; cbn [log_at]; [done|]. intros (Hok & _ & Hl). constructor; [done|by eapply IH]. Qed.

(** ** Replay *)

Lemma replay_copy m t d a : 0 <= t < 2 ^ 52 -> (forall o, 0 <= o < 4096 -> m (a + o) = d o) ->
  meq (memcpy m (blk_ptr t) m a FLATFS_BLOCK_SIZE) (copy_block t d m).
Proof.
  intros Ht Hd i. rewrite copy_block_at, blk_ptr_eq by done. unfold FLATFS_BLOCK_SIZE. case_bool_decide.
  - rewrite memcpy_in by lia. apply Hd. lia.
  - apply memcpy_out. lia.
Qed.

Lemma replay_tags_spec m p l : txn_ok l -> txn_at m p l -> 0 <= p -> p + 1 + Z.of_nat (length l) < 2 ^ 64 ->
  forall l2 l1 m1, l = l1 ++ l2 -> (forall i, ~ outside i -> m1 i = m i) ->
  exists m2, replay_tags (length l2) m1 [] (jb + 2) cnt (slot p) (Z.of_nat (length l1)) (p + 1 + Z.of_nat (length l1))
             = (m2, p + 1 + Z.of_nat (length l)) /\ meq m2 (apply_tx l2 m1).
Proof using Hj.
  intros [Hn Hok] Ht Hp Hmax. induction l2 as [|[t d] l2 IH]; intros l1 m1 El Hm1; cbn [length replay_tags].
  { exists m1. rewrite El, app_nil_r. done. }
  assert (Hk : l !! length l1 = Some (t, d)) by (rewrite El; apply list_lookup_middle; done).
  assert (Hlen : length l = (length l1 + S (length l2))%nat) by (rewrite El, length_app; done).
  assert (Hsl : forall q i, slot q <= i < slot q + 4096 -> m1 i = m i) by (intros q i Hi; by eapply Hm1, slot_inside).
  assert (Htd : target_ok (t, d)) by (rewrite Forall_forall in Hok; apply Hok; by eapply list_elem_of_lookup_2).
  destruct Htd as (Htr & Hto & Hdb). cbn [fst snd] in *.
  assert (Htag : tag_at m1 (slot p) (length l1) (t, d)).
  { apply tag_ext with m; [|by apply (ta_tags _ _ _ Ht)]. intros i Hi. apply (Hsl p). lia. }
  destruct Htag as [E1 E2]. cbn [fst snd] in E1, E2.
  unfold jr_size, jt_size. cbn [revoked existsb]. rewrite E1, E2, log_blk_slot.
  assert (Hdat : forall o, 0 <= o < 4096 -> m1 (slot (p + 1 + Z.of_nat (length l1)) + o) = d o).
  { intros o Ho. rewrite (Hsl (p + 1 + Z.of_nat (length l1))) by lia. by apply (ta_data _ _ _ Ht _ (t, d)). }
  rewrite (crc32_ext m1 d _ 0) by (intros i Hi; cbn in Hi; rewrite Hdat by lia; done). rewrite Z.eqb_refl.
  rewrite u64_small by lia. replace (p + 1 + Z.of_nat (length l1) + 1) with (p + 1 + Z.of_nat (length (l1 ++ [(t, d)]))) by (rewrite length_app; cbn; lia).
  replace (Z.of_nat (length l1) + 1) with (Z.of_nat (length (l1 ++ [(t, d)]))) by (rewrite length_app; cbn; lia).
  pose proof (replay_copy m1 t d (slot (p + 1 + Z.of_nat (length l1))) ltac:(lia) Hdat) as Hc.
  destruct (IH (l1 ++ [(t, d)]) (memcpy m1 (blk_ptr t) m1 (slot (p + 1 + Z.of_nat (length l1))) FLATFS_BLOCK_SIZE)) as (m2 & E & Hm2).
  { by rewrite <- app_assoc. }
  { intros i Hi. rewrite Hc, copy_block_at by lia. rewrite bool_decide_eq_false_2; [by apply Hm1|]. unfold outside in Hi. lia. }
  exists m2. split; [done|]. intros i. rewrite Hm2, apply_tx_cons. by apply apply_tx_point.
Qed.

Lemma replay_loop_spec q txs : forall m p done fuel, log_at m p txs q -> 0 <= p -> q < 2 ^ 64 -> (2 * length txs <= fuel)%nat ->
  exists m' done', replay_loop fuel m [] (jb + 2) cnt p q done = Some (m', [], q, done') /\ meq m' (apply_all txs m).
Proof using Hj.
  induction txs as [|l txs IH]; intros m p done fuel Hl Hp Hq Hf; cbn [log_at] in Hl.
  { subst p. exists m, done. split; [|done]. destruct fuel; cbn [replay_loop]; by rewrite Z.eqb_refl. }
  destruct Hl as (Hok & Ht & Hl). pose proof (log_le _ _ _ _ Hl) as Hle. unfold txn_len in *.
  destruct fuel as [|[|fuel]]; [cbn in Hf; lia|cbn in Hf; lia|]. cbn [replay_loop].
  rewrite (proj2 (Z.eqb_neq p q)) by lia. rewrite log_blk_slot, (ta_magic _ _ _ Ht), Z.eqb_refl. cbn [negb].
  rewrite (ta_type _ _ _ Ht), Z.eqb_refl, (ta_count _ _ _ Ht), Nat2Z.id, u64_small by lia.
  destruct (replay_tags_spec m p l Hok Ht Hp ltac:(lia) l [] m eq_refl ltac:(done)) as (m1 & E & Hm1). cbn [length Z.of_nat] in E.
  rewrite Z.add_0_r in E. change (Z.of_nat 0) with 0 in E. rewrite E.
  assert (Hj1 : forall i, ~ outside i -> m1 i = m i).
  { intros i Hi. rewrite Hm1. apply apply_tx_journal; [apply Hok|by left]. }
  set (c := p + 1 + Z.of_nat (length l)) in *. rewrite (proj2 (Z.eqb_neq c q)) by lia.
  assert (Hc : forall i, slot c <= i < slot c + 4096 -> m1 i = m i) by (intros i Hi; by eapply Hj1, slot_inside).
  rewrite log_blk_slot.
  rewrite (fget_out m m1 _ jr_magic) by (cbn; intros; apply Hc; lia). rewrite (fget_out m m1 _ jr_type) by (cbn; intros; apply Hc; lia).
  unfold c. rewrite (ta_cmagic _ _ _ Ht), (ta_commit _ _ _ Ht), Z.eqb_refl. cbn [negb]. fold c.
  change (FLATFS_JREC_COMMIT =? FLATFS_JREC_DESCRIPTOR) with false. rewrite Z.eqb_refl, u64_small by lia.
  destruct (IH m1 (c + 1) (u64 (done + 1)) fuel) as (m' & done' & E' & Hm').
  - apply log_inside with m; [done|]. unfold c. by replace (p + 1 + Z.of_nat (length l) + 1) with (p + (Z.of_nat (length l) + 2)) by lia.
  - lia.
  - done.
  - cbn in Hf. lia.
  - exists m', done'. split; [done|]. intros i. rewrite Hm'. cbn [apply_all fold_left]. by apply apply_all_point.
Qed.

(** ** The stores of a commit *)

(** Not in the blocks of positions [p] to [q - 1]. *)
Definition off_slots (p q : Z) (i : Z) : Prop := forall k, p <= k < q -> i < slot k \/ slot k + 4096 <= i.

Lemma copy_log_at p d m i : copy_block (log_blk (jb + 2) cnt p) d m i
  = if bool_decide (slot p <= i < slot p + 4096) then d (i - slot p) else m i.
Proof using Hj.
  pose proof (slot_range p). unfold copy_block. rewrite log_blk_slot. unfold FLATFS_BLOCK_SIZE. case_bool_decide.
  - rewrite memcpy_in by lia. f_equal.
  - apply memcpy_out. lia.
Qed.

Lemma data_writes_keep l : forall p, p + Z.of_nat (length l) < 2 ^ 64 -> 0 <= p ->
  Forall (keeps (off_slots p (p + Z.of_nat (length l)))) (data_writes (jb + 2) cnt p l).
Proof using Hj.
  induction l as [|td l IH]; intros p Hmax Hp; cbn [data_writes length] in *; [constructor|]. rewrite u64_small by lia. constructor.
  - intros m i Hi. rewrite copy_log_at, bool_decide_eq_false_2; [done|]. specialize (Hi p). lia.
  - eapply Forall_impl; [apply IH; lia|]. intros w Hw m i Hi. apply Hw. intros k Hk. apply Hi. lia.
Qed.

Lemma data_writes_at l : forall p m k (td : Z * bmem) o, p + Z.of_nat (length l) < 2 ^ 64 -> 0 <= p -> Z.of_nat (length l) <= cnt ->
  l !! k = Some td -> 0 <= o < 4096 -> do_writes (data_writes (jb + 2) cnt p l) m (slot (p + Z.of_nat k) + o) = snd td o.
Proof using Hj.
  induction l as [|td l IH]; intros p m k td' o Hmax Hp Hc Hk Ho; [done|]. cbn [data_writes length] in *. rewrite u64_small by lia.
  cbn [do_writes fold_left]. fold (do_writes (data_writes (jb + 2) cnt (p + 1) l) (copy_block (log_blk (jb + 2) cnt p) (snd td) m)).
  destruct k as [|k].
  - injection Hk as ->. rewrite Z.add_0_r. pose proof (data_writes_keep l (p + 1) ltac:(lia) ltac:(lia)) as K.
    rewrite (do_writes_keeps _ _ K).
    + rewrite copy_log_at, bool_decide_eq_true_2 by lia. f_equal. lia.
    + intros q Hq. pose proof (log_slot_apart p q). lia.
  - replace (p + Z.of_nat (S k)) with (p + 1 + Z.of_nat k) by lia. apply IH; (done || lia).
Qed.

(** Descriptor, data and commit record, starting at position [p]. *)
Definition log_writes (p id : Z) (l : txn) : list (bmem -> bmem) :=
  write_desc (slot p) id l :: data_writes (jb + 2) cnt (p + 1) l ++ [write_commit (slot (p + 1 + Z.of_nat (length l))) id].

Lemma log_writes_keep p id l : (length l <= 254)%nat -> 0 <= p -> p + txn_len l < 2 ^ 64 ->
  Forall (keeps (off_slots p (p + txn_len l))) (log_writes p id l).
Proof using Hj.
  intros Hl Hp Hmax. unfold log_writes, txn_len in *. constructor; [|apply Forall_app; split; [|constructor; [|constructor]]].
  - intros m i Hi. specialize (Hi p). apply write_desc_out; [done|lia].
  - eapply Forall_impl; [apply data_writes_keep; lia|]. intros w Hw m i Hi. apply Hw. intros k Hk. apply Hi. lia.
  - intros m i Hi. specialize (Hi (p + 1 + Z.of_nat (length l))). apply write_commit_out. lia.
Qed.

Lemma log_writes_at p id l m : txn_ok l -> 0 <= p -> p + txn_len l < 2 ^ 64 -> txn_len l <= cnt ->
  txn_at (do_writes (log_writes p id l) m) p l.
Proof using Hj.
  intros [Hl Hok] Hp Hmax Hc. unfold log_writes, txn_len in *. set (n := Z.of_nat (length l)) in *.
  assert (Hok' : Forall (fun td => 0 <= fst td < 2 ^ 64 /\ bytes_ok (snd td)) l).
  { eapply Forall_impl; [done|]. intros td (H1 & _ & H2). split; [lia|done]. }
  cbn [do_writes fold_left]. fold (do_writes (data_writes (jb + 2) cnt (p + 1) l ++ [write_commit (slot (p + 1 + n)) id]) (write_desc (slot p) id l m)).
  rewrite do_writes_app. set (m1 := write_desc (slot p) id l m). set (m2 := do_writes (data_writes _ _ _ _) m1).
  cbn [do_writes fold_left]. set (m3 := write_commit _ _ m2).
  destruct (write_desc_at (slot p) id l m Hl Hok') as (D1 & D2 & D3 & D4). fold m1 in D1, D2, D3, D4. fold n in D3.
  pose proof (data_writes_keep l (p + 1) ltac:(lia) ltac:(lia)) as K. fold n in K.
  pose proof (log_slot_apart p (p + 1 + n) ltac:(lia)) as A.
  assert (Hd : forall i, slot p <= i < slot p + 4096 -> m3 i = m1 i).
  { intros i Hi. unfold m3. rewrite write_commit_out by lia. unfold m2. apply (do_writes_keeps _ _ K).
    intros k Hk. pose proof (log_slot_apart p k ltac:(lia)). lia. }
  destruct (write_commit_at (slot (p + 1 + n)) id m2) as [C1 C2]. fold m3 in C1, C2. constructor; fold n.
  - rewrite <- D1. apply fget_out. cbn. intros. apply Hd. lia.
  - rewrite <- D2. apply fget_out. cbn. intros. apply Hd. lia.
  - rewrite <- D3. apply fget_out. cbn. intros. apply Hd. lia.
  - intros k td Hk. pose proof (lookup_lt_Some _ _ _ Hk). apply tag_ext with m1; [|by apply D4]. intros. apply Hd. lia.
  - intros k td o Hk Ho. pose proof (lookup_lt_Some _ _ _ Hk).
    pose proof (log_slot_apart (p + 1 + Z.of_nat k) (p + 1 + n) ltac:(lia)). unfold m3. rewrite write_commit_out by lia.
    unfold m2. by apply data_writes_at; (done || lia).
  - done.
  - done.
Qed.
End Journal.

(** * FlatFS journal: results

    Sequences of journal calls, crashes at any point of a commit, and what
    recovery makes of the volume. *)

(** ** The journal superblock *)

Lemma js_seal_out m a i : i < a + 4092 \/ a + 4096 <= i -> js_seal m a i = m i.
Proof. intros Hi. unfold js_seal, fset, js_crc32. cbn [f_off f_width]. by rewrite !wr_out by (cbn; lia). Qed.

Lemma advance_out a pos id seq m i :
  i < a + 8 \/ a + 16 <= i < a + 24 \/ a + 32 <= i < a + 48 \/ a + 56 <= i < a + 4092 \/ a + 4096 <= i ->
  advance_tail a pos id seq m i = m i.
Proof.
  intros Hi. unfold advance_tail. rewrite js_seal_out by lia. unfold fset, js_tail, js_last_commit_seq, js_sequence. cbn [f_off f_width].
  by rewrite !wr_out by (cbn; lia).
Qed.

Lemma advance_tail_get a pos id seq m : 0 <= pos < 2 ^ 64 -> fget (advance_tail a pos id seq m) a js_tail = pos.
Proof.
  intros Hp. unfold advance_tail. rewrite (fget_out (fset (fset (fset m a js_tail pos) a js_last_commit_seq id) a js_sequence seq))
    by (cbn; intros; apply js_seal_out; lia).
  unfold fget, fset, js_tail, js_last_commit_seq, js_sequence. cbn [f_off f_width]. rewrite !rd_wr_other by (cbn; lia). by apply rd_wr_small.
Qed.

Lemma super_write_out s i : i < 4084 \/ 8192 <= i -> f_buf (flatfs_super_write s) i = f_buf s i.
Proof.
  intros Hi. unfold flatfs_super_write, FLATFS_BLOCK_SIZE. cbn [f_buf with_buf]. rewrite memcpy_out by lia.
  rewrite update_crc_other by lia. rewrite mac_set_other by lia. apply update_crc_other. lia.
Qed.

Section Props.
Context (jb cnt : Z) (Hj : 2 <= jb /\ 0 < cnt /\ jb + 2 + cnt < 2 ^ 40).

Abbreviation js := (jb * 4096).
Abbreviation outside := (outside jb cnt).
Abbreviation log_at := (log_at jb cnt).
Abbreviation slot := (slot jb cnt).
Abbreviation txn_ok := (txn_ok jb cnt).

Definition log_len (txs : list txn) : Z := fold_right (fun l z => txn_len l + z) 0 txs.

(** The journal area holds a log of the transactions [txs]. *)
Record jinv (m : bmem) (txs : list txn) : Prop := {
  ji_sb : fget m 0 sb_journal_start = jb;
  ji_magic : fget m js js_magic = FLATFS_JOURNAL_MAGIC;
  ji_start : fget m js js_log_start = jb + 2;
  ji_count : fget m js js_log_count = cnt;
  ji_pos : 0 <= fget m js js_head /\ fget m js js_tail < 2 ^ 64;
  ji_log : log_at m (fget m js js_head) txs (fget m js js_tail);
  ji_room : fget m js js_tail - fget m js js_head <= cnt }.

Lemma log_at_len m txs : forall p q, log_at m p txs q -> q = p + log_len txs.
Proof.
  induction txs as [|l txs IH]; intros p q; cbn [FlatJournalProof.log_at log_len fold_right]; [lia|].
  intros (_ & _ & Hl%IH). fold (log_len txs). lia.
Qed.

Lemma jinv_len m txs : jinv m txs -> fget m js js_tail = fget m js js_head + log_len txs.
Proof. intros J. eapply log_at_len, J. Qed.

Lemma jinv_ext m m' txs : (forall i, ~ outside i -> m' i = m i) -> (forall i, 64 <= i < 72 -> m' i = m i) -> jinv m txs -> jinv m' txs.
Proof using Hj.
  intros Hm H0 J. assert (Hf : forall f, 0 <= f_off f -> f_off f + Z.of_nat (f_width f) <= 4096 -> fget m' js f = fget m js f).
  { intros f F1 F2. apply fget_out. intros i Hi. apply Hm. unfold FlatJournalProof.outside. lia. }
  destruct J. constructor; rewrite ?Hf by (cbn; lia); try done.
  - rewrite <- ji_sb0. apply fget_out. cbn. intros. apply H0. lia.
  - eapply log_inside; [done..].
Qed.

(** ** Commit *)

Lemma jsuper_addr s txs : jinv (f_buf s) txs -> jsuper s = js /\ jsuper_backup s = (jb + 1) * 4096.
Proof using Hj.
  intros J. unfold jsuper, jsuper_backup, sbget. rewrite (ji_sb _ _ J). rewrite (u64_small (jb + 1)) by lia.
  by rewrite !blk_ptr_eq by lia.
Qed.

(** The last two stores. *)
Definition tail_writes (pos id seq : Z) : list (bmem -> bmem) :=
  [advance_tail js pos id seq; fun m => memcpy m ((jb + 1) * 4096) m js 4096].

Lemma commit_writes_eq s txs id seq l : jinv (f_buf s) txs ->
  let t := fget (f_buf s) js js_tail in t + txn_len l < 2 ^ 64 ->
  commit_writes s id seq l = log_writes jb cnt t id l ++ target_writes l ++ tail_writes (t + txn_len l) id seq.
Proof using Hj.
  intros J t Ht. unfold commit_writes. destruct (jsuper_addr s txs J) as [-> ->]. rewrite (ji_start _ _ J), (ji_count _ _ J). fold t.
  assert (H0 : 0 <= t).
  { pose proof (ji_pos _ _ J) as [? _]. pose proof (log_le jb cnt _ _ _ _ (ji_log _ _ J)). fold t in H0. lia. }
  unfold txn_len in *. rewrite !u64_small by (rewrite ?u64_small; lia). rewrite !log_blk_slot by done.
  unfold log_writes, tail_writes. replace (t + 1 + Z.of_nat (length l) + 1) with (t + (Z.of_nat (length l) + 2)) by lia.
  cbn [app]. rewrite <- app_assoc. done.
Qed.

Section Commit.
Context (m : bmem) (txs : list txn) (l : txn) (id seq : Z).
Context (J : jinv m txs) (Hl : txn_ok l) (Hroom : log_len txs + txn_len l <= cnt).
Abbreviation t := (fget m js js_tail).
Context (Ht : t + txn_len l < 2 ^ 64).

Lemma tail_pos : 0 <= t /\ t = fget m js js_head + log_len txs.
Proof using J. pose proof (ji_pos _ _ J). pose proof (log_le jb cnt _ _ _ _ (ji_log _ _ J)). pose proof (jinv_len _ _ J). lia. Qed.

Lemma off_old k i : fget m js js_head <= k < t -> slot k <= i < slot k + 4096 -> off_slots jb cnt t (t + txn_len l) i.
Proof using Hj J Hroom.
  intros Hk Hi q Hq. pose proof tail_pos. pose proof (log_slot_apart jb cnt Hj k q ltac:(lia)). lia.
Qed.

Lemma off_meta i : outside i \/ js <= i < js + 8192 -> off_slots jb cnt t (t + txn_len l) i.
Proof using Hj. intros Hi k Hk. pose proof (slot_range jb cnt Hj k). unfold FlatJournalProof.outside in Hi. lia. Qed.

(** Any part of the stores to the log leaves the old log and the volume. *)
Lemma log_part k : let mk := do_writes (take k (log_writes jb cnt t id l)) m in
  jinv mk txs /\ forall i, outside i -> mk i = m i.
Proof using Hj J Hl Hroom Ht.
  intros mk. pose proof tail_pos as Hp. destruct Hl as [Hl1 Hl2].
  assert (K : keeps (off_slots jb cnt t (t + txn_len l)) (do_writes (take k (log_writes jb cnt t id l)))).
  { apply do_writes_keeps, Forall_take. apply log_writes_keep; (done || lia). }
  assert (Hjs : forall f, 0 <= f_off f -> f_off f + Z.of_nat (f_width f) <= 4096 -> fget mk js f = fget m js f).
  { intros f F1 F2. apply fget_out. intros i Hi. apply K, off_meta. right. lia. }
  split; [|intros i Hi; apply K, off_meta; by left].
  pose proof J as [J1 J2 J3 J4 J5 J6 J7]. constructor; rewrite ?Hjs by (cbn; lia); try done.
  - rewrite <- J1. apply fget_out. cbn. intros i Hi. apply K, off_meta. left. unfold FlatJournalProof.outside. lia.
  - eapply log_ext; [|done]. intros q i Hq Hi. by eapply K, off_old.
Qed.

(** The log and part of the blocks in place. *)
Lemma target_part k : let mk := apply_tx (take k l) (do_writes (log_writes jb cnt t id l) m) in
  jinv mk txs /\ txn_at jb cnt mk t l /\ forall i, outside i -> mk i = apply_tx (take k l) m i.
Proof using Hj J Hl Hroom Ht.
  intros mk. pose proof tail_pos as Hp. pose proof (log_part (length (log_writes jb cnt t id l))) as [J1 O1]. rewrite firstn_all in J1, O1.
  pose proof Hl as [Hl1 Hl2]. assert (Hk : Forall (target_ok jb cnt) (take k l)) by (by apply Forall_take).
  assert (Hin : forall i, ~ outside i \/ i < 8192 -> mk i = do_writes (log_writes jb cnt t id l) m i).
  { intros i Hi. by apply (apply_tx_journal jb cnt Hj). }
  assert (0 <= log_len txs) by (pose proof (log_le jb cnt _ _ _ _ (ji_log _ _ J)); lia).
  split_and!.
  - eapply jinv_ext; [| |done]; intros i Hi; apply Hin; [by left|right; lia].
  - apply txn_ext with (do_writes (log_writes jb cnt t id l) m); [done| |].
    + intros q i Hq Hi. apply Hin. left. by apply (slot_inside jb cnt Hj q).
    + apply log_writes_at; (done || lia).
  - intros i Hi. unfold mk. apply apply_tx_point. by apply O1.
Qed.

(** The whole commit, with or without the copy of the journal superblock. *)
Lemma tail_part k : (1 <= k)%nat -> let mk := do_writes (take k (tail_writes (t + txn_len l) id seq)) (apply_tx l (do_writes (log_writes jb cnt t id l) m)) in
  jinv mk (txs ++ [l]) /\ fget mk js js_tail = t + txn_len l /\ forall i, outside i -> mk i = apply_tx l m i.
Proof using Hj J Hl Hroom Ht.
  intros Hk mk. pose proof tail_pos as Hp. pose proof (target_part (length l)) as (J1 & T1 & O1). rewrite firstn_all in J1, T1, O1.
  set (m1 := apply_tx l _) in *. set (m2 := advance_tail js (t + txn_len l) id seq m1).
  assert (Hlen : 2 <= txn_len l) by (unfold txn_len; lia).
  assert (Hb : forall i, i < (jb + 1) * 4096 \/ (jb + 2) * 4096 <= i -> mk i = m2 i).
  { intros i Hi. unfold mk. destruct k as [|[|k]]; [lia|done|]. cbn [take tail_writes firstn]. rewrite firstn_nil. cbn [do_writes fold_left].
    apply memcpy_out. lia. }
  assert (H2 : forall i, i < js + 8 \/ js + 16 <= i < js + 24 \/ js + 32 <= i < js + 48 \/ js + 56 <= i < js + 4092 \/ js + 4096 <= i -> m2 i = m1 i)
    by (intros; by apply advance_out).
  assert (Hjs : forall f, 0 <= f_off f -> f_off f + Z.of_nat (f_width f) <= 8 \/ (16 <= f_off f /\ f_off f + Z.of_nat (f_width f) <= 24) \/
                          (32 <= f_off f /\ f_off f + Z.of_nat (f_width f) <= 48) -> fget mk js f = fget m1 js f).
  { intros f F1 F2. apply fget_out. intros i Hi. rewrite Hb, H2 by lia. done. }
  assert (E1 : fget m1 js js_tail = t /\ fget m1 js js_head = fget m js js_head).
  { assert (Hin : forall i, js <= i < js + 4096 -> m1 i = m i).
    { intros i Hi. unfold m1. rewrite (apply_tx_journal jb cnt Hj); [|apply Hl|left; unfold FlatJournalProof.outside; lia].
      pose proof (log_writes_keep jb cnt Hj t id l ltac:(apply Hl) ltac:(lia) Ht) as K. apply (do_writes_keeps _ _ K), off_meta. right. lia. }
    split; apply fget_out; cbn; intros; apply Hin; lia. }
  destruct E1 as [E1 E2].
  assert (Et : fget mk js js_tail = t + txn_len l).
  { rewrite (fget_out m2) by (cbn; intros; apply Hb; lia). apply advance_tail_get. lia. }
  assert (Hsl : forall q i, slot q <= i < slot q + 4096 -> mk i = m1 i).
  { intros q i Hi. pose proof (slot_range jb cnt Hj q). rewrite Hb, H2 by lia. done. }
  split; [|split; [done|intros i Hi; unfold FlatJournalProof.outside in Hi; rewrite Hb, H2 by lia; apply O1; unfold FlatJournalProof.outside; lia]].
  destruct J1 as [A1 A2 A3 A4 A5 A6 A7]. rewrite E1, E2 in *.
  constructor; rewrite ?Et, ?Hjs by (cbn; lia); rewrite ?E2; try done.
  - rewrite <- A1. apply fget_out. cbn. intros i Hi. rewrite Hb, H2 by lia. done.
  - lia.
  - apply log_snoc; [|done|].
    + eapply log_ext; [|exact A6]. intros q i _. apply Hsl.
    + apply txn_ext with m1; [apply Hl| |done]. intros q i _. apply Hsl.
  - lia.
Qed.
End Commit.

(** ** Checkpoint *)

Lemma checkpoint_spec j txs : jinv (j_buf j) txs ->
  exists m', flatfs_journal_checkpoint j = (FLATFS_OK, j_with_buf j m') /\ jinv m' [] /\ fget m' js js_tail = fget (j_buf j) js js_tail /\
    forall i, outside i -> m' i = j_buf j i.
Proof using Hj.
  intros J. unfold flatfs_journal_checkpoint. destruct (jsuper_addr (j_fs j) txs J) as [-> ->]. fold (j_buf j). set (m := j_buf j) in *.
  set (m1 := js_seal (fset m js js_head (fget m js js_tail)) js). eexists. split; [reflexivity|].
  assert (Hb : forall i, i < (jb + 1) * 4096 \/ (jb + 2) * 4096 <= i -> memcpy m1 ((jb + 1) * 4096) m1 js 4096 i = m1 i)
    by (intros; apply memcpy_out; lia).
  assert (H1 : forall i, i < js + 16 \/ js + 24 <= i < js + 4092 \/ js + 4096 <= i -> m1 i = m i).
  { intros i Hi. unfold m1. rewrite js_seal_out by lia. unfold fset, js_head. cbn [f_off f_width]. by rewrite wr_out by (cbn; lia). }
  set (m2 := memcpy m1 _ _ _ _) in *. pose proof J as [J1 J2 J3 J4 J5 J6 J7]. pose proof (log_le jb cnt _ _ _ _ J6).
  assert (Hjs : forall f, 0 <= f_off f -> f_off f + Z.of_nat (f_width f) <= 16 \/ (24 <= f_off f /\ f_off f + Z.of_nat (f_width f) <= 4092) ->
    fget m2 js f = fget m js f).
  { intros f F1 F2. apply fget_out. intros i Hi. rewrite Hb, H1 by lia. done. }
  assert (Eh : fget m2 js js_head = fget m js js_tail).
  { rewrite (fget_out (fset m js js_head (fget m js js_tail))).
    - unfold fget at 1. unfold fset. apply rd_wr_small. cbn [f_width js_head]. lia.
    - cbn. intros i Hi. rewrite Hb by lia. unfold m1. apply js_seal_out. lia. }
  split_and!.
  - constructor; rewrite ?Eh, ?Hjs by (cbn; lia); try (done || lia).
    rewrite <- J1. apply fget_out. cbn. intros i Hi. rewrite Hb, H1 by lia. done.
  - apply Hjs; cbn; lia.
  - intros i Hi. unfold FlatJournalProof.outside in Hi. rewrite Hb, H1 by lia. done.
Qed.

(** ** Recovery *)

Lemma log_count m txs : forall p q, log_at m p txs q -> 2 * Z.of_nat (length txs) <= q - p.
Proof.
  induction txs as [|l txs IH]; intros p q; cbn [FlatJournalProof.log_at length]; [lia|]. intros (_ & _ & Hl%IH). unfold txn_len in Hl. lia.
Qed.

Lemma replay_spec j txs : jinv (j_buf j) txs -> j_rev j = [] ->
  exists j', flatfs_journal_replay j = Some (FLATFS_OK, j') /\ jinv (j_buf j') [] /\ j_rev j' = [] /\
    forall i, outside i -> j_buf j' i = apply_all txs (j_buf j) i.
Proof using Hj.
  intros J Hr. unfold flatfs_journal_replay. destruct (jsuper_addr (j_fs j) txs J) as [-> _]. fold (j_buf j). set (m := j_buf j) in *.
  pose proof J as [J1 J2 J3 J4 [J5 J5'] J6 J7]. rewrite J2, Z.eqb_refl, J3, J4, Hr. cbn [negb].
  pose proof (log_le jb cnt _ _ _ _ J6) as Hle. pose proof (log_count _ _ _ _ J6) as Hc. pose proof (log_oks jb cnt _ _ _ _ J6) as Hok.
  rewrite u64_small by lia.
  destruct (replay_loop_spec jb cnt Hj (fget m js js_tail) txs m (fget m js js_head) 0
    (Z.to_nat (fget m js js_tail - fget m js js_head)) J6 J5 J5' ltac:(lia)) as (m1 & dn & -> & Hm1).
  cbn [mbind option_bind]. eexists. split; [reflexivity|]. cbn [j_buf j_fs f_buf with_buf j_rev].
  set (m2 := js_seal _ _).
  assert (Hin : forall i, ~ outside i \/ i < 8192 -> m1 i = m i) by (intros i Hi; rewrite Hm1; by apply (apply_all_journal jb cnt Hj)).
  assert (H2 : forall i, i < js + 16 \/ js + 24 <= i < js + 4092 \/ js + 4096 <= i -> m2 i = m1 i).
  { intros i Hi. unfold m2. rewrite js_seal_out by lia. unfold fset, js_head. cbn [f_off f_width]. by rewrite wr_out by (cbn; lia). }
  assert (Hjs : forall f, 0 <= f_off f -> f_off f + Z.of_nat (f_width f) <= 16 \/ (24 <= f_off f /\ f_off f + Z.of_nat (f_width f) <= 4092) ->
    fget m2 js f = fget m js f).
  { intros f F1 F2. apply fget_out. intros i Hi. rewrite H2 by lia. apply Hin. left. unfold FlatJournalProof.outside. lia. }
  assert (Eh : fget m2 js js_head = fget m js js_tail).
  { unfold m2. rewrite (fget_out (fset m1 js js_head (fget m js js_tail))) by (cbn; intros; apply js_seal_out; lia).
    unfold fget at 1. unfold fset. apply rd_wr_small. cbn [f_width js_head]. lia. }
  split_and!; [|done|].
  - constructor; rewrite ?Eh, ?Hjs by (cbn; lia); try (done || lia).
    rewrite <- J1. apply fget_out. cbn. intros i Hi. rewrite H2 by lia. apply Hin. right. lia.
  - intros i Hi. rewrite H2 by (unfold FlatJournalProof.outside in Hi; lia). apply Hm1.
Qed.

(** Changes of the superblock leave the journal. *)
Lemma jinv_super m m' txs : (forall i, 8192 <= i \/ 64 <= i < 72 -> m' i = m i) -> jinv m txs -> jinv m' txs.
Proof using Hj.
  intros Hm. apply jinv_ext; intros i Hi; apply Hm; [|lia]. unfold FlatJournalProof.outside in Hi. lia.
Qed.

Lemma sbset_out s f v i : i < f_off f \/ f_off f + Z.of_nat (f_width f) <= i -> f_buf (sbset s f v) i = f_buf s i.
Proof. intros Hi. unfold sbset, fset. cbn [f_buf with_buf]. apply wr_out. lia. Qed.

Lemma recover_spec j txs : jinv (j_buf j) txs -> j_rev j = [] -> Z.land (sbget (j_fs j) sb_state) FLATFS_STATE_REPLAY = 0 ->
  exists j', flatfs_journal_recover j = Some (FLATFS_OK, j') /\ jinv (j_buf j') [] /\
    forall i, outside i -> 8192 <= i -> j_buf j' i = apply_all txs (j_buf j) i.
Proof using Hj.
  intros J Hr Hs. unfold flatfs_journal_recover. rewrite Hs. cbn [Z.eqb negb]. set (s1 := flatfs_super_write _).
  assert (H1 : forall i, 8192 <= i \/ 64 <= i < 72 -> f_buf s1 i = j_buf j i).
  { intros i Hi. unfold s1, state_or. rewrite super_write_out by lia. apply sbset_out. cbn. lia. }
  destruct (replay_spec (j_with j s1) txs) as (j2 & -> & J2 & _ & O2); [by apply (jinv_super (j_buf j))|done|].
  cbn [mbind option_bind].
  destruct (checkpoint_spec j2 [] J2) as (m3 & -> & J3 & _ & O3). cbn [snd]. eexists. split; [reflexivity|].
  set (s4 := flatfs_super_write _).
  assert (H4 : forall i, 8192 <= i \/ 64 <= i < 72 -> f_buf s4 i = m3 i).
  { intros i Hi. unfold s4, state_or. rewrite super_write_out by lia. rewrite !sbset_out by (cbn; lia). done. }
  split; [by apply (jinv_super m3)|]. intros i Hi Hi2. transitivity (f_buf s4 i); [reflexivity|]. rewrite H4 by lia. rewrite O3, O2 by done.
  apply apply_all_point. apply H1. lia.
Qed.

(** ** A crash inside a commit *)

(** After a crash the statics are zero again and the volume is [m]. *)
Definition reboot (j : jstate) (m : bmem) : jstate := JST (with_buf (j_fs j) m) 0 0 false [] [] 0 0 0 0.

(** The memory after the first [k] stores of the commit of [l]. *)
Definition commit_crash (j : jstate) (id : Z) (l : txn) (k : nat) : bmem :=
  do_writes (take k (commit_writes (j_fs j) id (tx_seq j) l)) (j_buf j).

Lemma length_log_writes p id l : length (log_writes jb cnt p id l) = (length l + 2)%nat.
Proof.
  unfold log_writes. cbn [length]. rewrite length_app. assert (H : forall p, length (data_writes (jb + 2) cnt p l) = length l).
  { induction l as [|td l IH]; intros q; [done|]. cbn [data_writes length]. by rewrite IH. }
  rewrite H. cbn [length]. lia.
Qed.

Lemma take_target_writes l k : take k (target_writes l) = target_writes (take k l).
Proof. unfold target_writes. apply firstn_map. Qed.

Lemma crash_state j txs id l k : jinv (j_buf j) txs -> txn_ok l -> log_len txs + txn_len l <= cnt ->
  fget (j_buf j) js js_tail + txn_len l < 2 ^ 64 ->
  let mk := commit_crash j id l k in let n := length l in
  if bool_decide (k <= 2 * n + 2)%nat
  then jinv mk txs /\ forall i, outside i -> mk i = apply_tx (take (k - (n + 2)) l) (j_buf j) i
  else jinv mk (txs ++ [l]) /\ forall i, outside i -> mk i = apply_tx l (j_buf j) i.
Proof using Hj.
  intros J Hl Hroom Ht mk n. unfold mk, commit_crash. rewrite (commit_writes_eq (j_fs j) txs id (tx_seq j) l J Ht).
  fold (j_buf j). set (t := fget (j_buf j) js js_tail) in *. rewrite take_app, length_log_writes, take_app, do_writes_app, do_writes_app.
  rewrite take_target_writes. fold n. assert (Hn : length (target_writes l) = n) by (unfold target_writes; by rewrite length_map). rewrite Hn.
  case_bool_decide as Hk.
  - replace (k - (n + 2) - n)%nat with 0%nat by lia. cbn [take do_writes fold_left]. destruct (decide (k <= n + 2)%nat) as [Hs|Hs].
    + replace (k - (n + 2))%nat with 0%nat by lia. cbn [take target_writes map do_writes fold_left].
      exact (log_part (j_buf j) txs l id J Hl Hroom Ht k).
    + rewrite (take_ge (log_writes jb cnt t id l)) by (rewrite length_log_writes; lia).
      destruct (target_part (j_buf j) txs l id J Hl Hroom Ht (k - (n + 2))) as (A & _ & B). done.
  - rewrite (take_ge (log_writes jb cnt t id l)) by (rewrite length_log_writes; lia). rewrite (take_ge l) by lia.
    destruct (tail_part (j_buf j) txs l id (tx_seq j) J Hl Hroom Ht (k - (n + 2) - n) ltac:(lia)) as (A & _ & B). done.
Qed.

(** All stores. *)
Lemma commit_done j txs id l : jinv (j_buf j) txs -> txn_ok l -> log_len txs + txn_len l <= cnt ->
  fget (j_buf j) js js_tail + txn_len l < 2 ^ 64 ->
  let m' := do_writes (commit_writes (j_fs j) id (tx_seq j) l) (j_buf j) in
  jinv m' (txs ++ [l]) /\ fget m' js js_tail = fget (j_buf j) js js_tail + txn_len l /\ forall i, outside i -> m' i = apply_tx l (j_buf j) i.
Proof using Hj.
  intros J Hl Hroom Ht m'. unfold m'. rewrite (commit_writes_eq (j_fs j) txs id (tx_seq j) l J Ht), !do_writes_app.
  exact (tail_part (j_buf j) txs l id (tx_seq j) J Hl Hroom Ht 2 ltac:(lia)).
Qed.

Lemma commit_keeps_super j txs id l k i : jinv (j_buf j) txs -> txn_ok l -> log_len txs + txn_len l <= cnt ->
  fget (j_buf j) js js_tail + txn_len l < 2 ^ 64 -> i < 8192 -> commit_crash j id l k i = j_buf j i.
Proof using Hj.
  intros J Hl Hroom Ht Hi. assert (Ho : outside i) by (unfold FlatJournalProof.outside; lia). destruct Hl as [Hl1 Hl2].
  pose proof (crash_state j txs id l k J (conj Hl1 Hl2) Hroom Ht) as H. cbv zeta in H. case_bool_decide; destruct H as [_ H];
    rewrite H by done; apply (apply_tx_journal jb cnt Hj); try (by right); [by apply Forall_take|done].
Qed.
End Props.
