(* ===== verification/FlatJournalTheorems.v ===== *)
(** * FlatFS journal: theorems

    The journal calls refine a list of committed transactions; recovery
    after a crash applies exactly those of the log, whatever the crash left
    of the blocks themselves. *)

From stdpp Require Import base list.
From Stdlib Require Import ZArith Lia.
From S2P Require Import Prelude FlatCrc FlatFs FlatAlloc FlatSuper FlatProps FlatJournal FlatJournalProof.

(** ** Calls *)

Inductive jop :=
| JBegin
| JLog (id blk : Z) (data : bmem)
| JCommit (id : Z) (sealed : bool)
| JAbort (id : Z)
| JCheckpoint
| JMeta (blk : Z) (data : bmem) (sealed : bool)
| JWrite2 (blk0 : Z) (d0 : bmem) (blk1 : Z) (d1 : bmem) (sealed : bool).

Inductive jres := JId (r : flatfs_err + Z) | JRet (e : flatfs_err).

Definition j_step (j : jstate) (op : jop) : jres * jstate :=
  match op with
  | JBegin => let '(r, j) := flatfs_journal_begin j in (JId r, j)
  | JLog id blk data => let '(e, j) := flatfs_journal_log j id blk data in (JRet e, j)
  | JCommit id sealed => let '(e, j) := flatfs_journal_commit j id sealed in (JRet e, j)
  | JAbort id => let '(e, j) := flatfs_journal_abort j id in (JRet e, j)
  | JCheckpoint => let '(e, j) := flatfs_journal_checkpoint j in (JRet e, j)
  | JMeta blk data sealed => let '(e, j) := flatfs_journal_write_meta j blk data sealed in (JRet e, j)
  | JWrite2 b0 d0 b1 d1 sealed => let '(e, j) := flatfs_journal_write2 j b0 d0 b1 d1 sealed in (JRet e, j)
  end.

Fixpoint j_run (j : jstate) (ops : list jop) : list jres * jstate :=
  match ops with
  | [] => ([], j)
  | op :: ops => let '(r, j) := j_step j op in let '(rs, j) := j_run j ops in (r :: rs, j)
  end.

(** ** The specification *)

(** The next number, the open transaction, the transactions since the last
    checkpoint and all that were committed. *)
Record jspec := SP { sp_seq : Z; sp_open : option (Z * txn); sp_log : list txn; sp_done : list txn }.

(** A commit when it is the gate's turn to decide. *)
Definition sp_commit (bound sealed : bool) (seq : Z) (l : txn) (a : jspec) : jres * jspec :=
  if bound && negb sealed then (JRet FLATFS_ERR_PERM, SP seq None (sp_log a) (sp_done a))
  else (JRet FLATFS_OK, SP seq None (sp_log a ++ [l]) (sp_done a ++ [l])).

(** [bound] says that a gate context is bound, which then decides commits. *)
Definition sp_step (bound : bool) (a : jspec) (op : jop) : jres * jspec :=
  match op, sp_open a with
  | JBegin, None => (JId (inr (sp_seq a)), SP (u64 (sp_seq a + 1)) (Some (sp_seq a, [])) (sp_log a) (sp_done a))
  | JBegin, Some _ => (JId (inl FLATFS_ERR_BADSTATE), a)
  | JMeta blk data sealed, None => sp_commit bound sealed (u64 (sp_seq a + 1)) [(blk, data)] a
  | JWrite2 b0 d0 b1 d1 sealed, None => sp_commit bound sealed (u64 (sp_seq a + 1)) [(b0, d0); (b1, d1)] a
  | (JMeta _ _ _ | JWrite2 _ _ _ _ _), Some _ => (JRet FLATFS_ERR_BADSTATE, a)
  | JCheckpoint, _ => (JRet FLATFS_OK, SP (sp_seq a) (sp_open a) [] (sp_done a))
  | (JLog _ _ _ | JCommit _ _ | JAbort _), None => (JRet FLATFS_ERR_BADSTATE, a)
  | JLog id blk data, Some (id', l) =>
    if negb (id =? id') then (JRet FLATFS_ERR_BADSTATE, a) else
    if 256 <=? Z.of_nat (length l) then (JRet FLATFS_ERR_OVERFLOW, a)
    else (JRet FLATFS_OK, SP (sp_seq a) (Some (id', l ++ [(blk, data)])) (sp_log a) (sp_done a))
  | JAbort id, Some (id', l) =>
    if negb (id =? id') then (JRet FLATFS_ERR_BADSTATE, a)
    else (JRet FLATFS_OK, SP (sp_seq a) None (sp_log a) (sp_done a))
  | JCommit id sealed, Some (id', l) =>
    if negb (id =? id') then (JRet FLATFS_ERR_BADSTATE, a) else
    sp_commit bound sealed (sp_seq a) l a
  end.

Fixpoint sp_run (bound : bool) (a : jspec) (ops : list jop) : list jres * jspec :=
  match ops with
  | [] => ([], a)
  | op :: ops => let '(r, a) := sp_step bound a op in let '(rs, a) := sp_run bound a ops in (r :: rs, a)
  end.

(** What the callers have to respect: blocks outside the journal and the
    superblocks, at most 254 of them, and room in the log. *)
Definition op_ok (jb cnt : Z) (a : jspec) (op : jop) : Prop :=
  match op with
  | JLog _ blk data => target_ok jb cnt (blk, data)
  | JCommit _ _ => match sp_open a with
                   | Some (_, l) => (length l <= 254)%nat /\ log_len (sp_log a) + txn_len l <= cnt
                   | None => True
                   end
  | JMeta blk data _ => target_ok jb cnt (blk, data) /\ log_len (sp_log a) + 3 <= cnt
  | JWrite2 b0 d0 b1 d1 _ => target_ok jb cnt (b0, d0) /\ target_ok jb cnt (b1, d1) /\ log_len (sp_log a) + 4 <= cnt
  | _ => True
  end.

Fixpoint ops_ok (jb cnt : Z) (bound : bool) (a : jspec) (ops : list jop) : Prop :=
  match ops with
  | [] => True
  | op :: ops => op_ok jb cnt a op /\ ops_ok jb cnt bound (snd (sp_step bound a op)) ops
  end.

Section Theorems.
Context (jb cnt : Z) (Hj : 2 <= jb /\ 0 < cnt /\ jb + 2 + cnt < 2 ^ 40).

Abbreviation outside := (outside jb cnt).
Abbreviation jinv := (jinv jb cnt).
Abbreviation tail j := (fget (j_buf j) (jb * 4096) js_tail).

Record jrel (j : jstate) (a : jspec) : Prop := {
  jl_inv : jinv (j_buf j) (sp_log a);
  jl_sync : forall i, outside i -> apply_all (sp_log a) (j_buf j) i = j_buf j i;
  jl_seq : tx_seq j = sp_seq a;
  jl_open : match sp_open a with
            | Some (id, l) => tx_active j = true /\ tx_id j = id /\ j_tx j = l /\ Forall (target_ok jb cnt) l
            | None => tx_active j = false
            end }.

Lemma not_current_eq j a id : jrel j a ->
  not_current j id = match sp_open a with Some (id', _) => negb (id =? id') | None => true end.
Proof.
  intros R. pose proof (jl_open _ _ R) as Ho. unfold not_current. destruct (sp_open a) as [[id' l]|]; [|by rewrite Ho].
  destruct Ho as (-> & -> & _). done.
Qed.

(** One call: the specified result, and in place the blocks of what was
    committed. *)
Record jstep_ok (j j' : jstate) (a a' : jspec) : Prop := {
  so_rel : jrel j' a';
  so_bound : f_bound (j_fs j') = f_bound (j_fs j);
  so_tail : tail j' <= tail j + 256;
  so_done : exists new, sp_done a' = sp_done a ++ new /\ forall i, outside i -> j_buf j' i = apply_all new (j_buf j) i }.

(** A call that leaves the volume and the log. *)
Lemma same_ok j j' a a' : jrel j a -> j_buf j' = j_buf j -> f_bound (j_fs j') = f_bound (j_fs j) -> sp_log a' = sp_log a -> sp_done a' = sp_done a ->
  tx_seq j' = sp_seq a' ->
  match sp_open a' with
  | Some (id, l) => tx_active j' = true /\ tx_id j' = id /\ j_tx j' = l /\ Forall (target_ok jb cnt) l
  | None => tx_active j' = false
  end -> jstep_ok j j' a a'.
Proof.
  intros R Hm Hb Hl Hd Hs Ho. constructor; [|done|rewrite Hm; lia|].
  - constructor; [rewrite Hm, Hl; apply R|rewrite Hm, Hl; apply R|done|done].
  - exists []. rewrite app_nil_r. split; [done|]. intros i _. by rewrite Hm.
Qed.

Lemma refused_ok j a : jrel j a -> jstep_ok j j a a.
Proof. intros R. by apply same_ok; try apply R. Qed.

Lemma audit_journal_frame s c : f_buf (flatfs_tykid_audit_journal s c) = f_buf s /\ f_bound (flatfs_tykid_audit_journal s c) = f_bound s.
Proof. unfold flatfs_tykid_audit_journal. by destruct (f_bound s) eqn:E. Qed.

(** The commit of the open transaction. *)
Lemma commit_open_sim j a id l sealed : jrel j a -> sp_open a = Some (id, l) -> (length l <= 254)%nat ->
  log_len (sp_log a) + txn_len l <= cnt -> tail j + 256 < 2 ^ 64 ->
  let '(e, j') := flatfs_journal_commit j id sealed in let '(r', a') := sp_commit (f_bound (j_fs j)) sealed (sp_seq a) l a in
  JRet e = r' /\ jstep_ok j j' a a'.
Proof using Hj.
  intros R Eo Hn Hroom Ht. unfold flatfs_journal_commit, sp_commit. rewrite (not_current_eq j a id R). pose proof (jl_open _ _ R) as Ho.
  rewrite Eo in Ho |- *. rewrite Z.eqb_refl. cbn [negb]. destruct Ho as (Ha & Hid & Hl & Htg). unfold flatfs_tykid_seal_check.
  destruct (f_bound (j_fs j)) eqn:Eb; cbn [negb andb]; [destruct sealed; cbn [negb]|].
  2: { (* a broken seal *)
    unfold flatfs_journal_abort, not_current. cbn [tx_active tx_id j_with]. rewrite Ha, Hid, Z.eqb_refl. cbn [negb orb snd j_with j_fs].
    split; [done|]. apply same_ok; try done; cbn [j_fs j_with]; try apply R.
    - unfold j_buf. cbn [j_fs j_with]. rewrite !(proj1 (audit_journal_frame _ _)). done.
    - rewrite !(proj2 (audit_journal_frame _ _)). done. }
  all: split; [done|]; rewrite Hid, Hl.
  all: destruct (commit_done jb cnt Hj j (sp_log a) id l (jl_inv _ _ R) (conj Hn Htg) Hroom ltac:(unfold txn_len; lia)) as (C1 & C2 & C3).
  all: set (m' := do_writes _ _) in *; set (s1 := flatfs_tykid_audit_journal _ true).
  all: assert (Es : f_buf s1 = m') by (unfold s1; by rewrite (proj1 (audit_journal_frame _ _))).
  all: constructor; [constructor; unfold j_buf; cbn [j_fs sp_log]; rewrite ?Es; [done| |apply R|done]|..];
    cbn [j_fs]; unfold j_buf; cbn [j_fs]; rewrite ?Es.
  1,5: intros i Hi; rewrite (apply_all_point _ i _ _ (C3 i Hi)), C3 by done; by apply synced_snoc, R.
  1,4: unfold s1; rewrite (proj2 (audit_journal_frame _ _)); cbn [f_bound with_buf]; by rewrite Eb.
  1,3: rewrite C2; fold (j_buf j); unfold txn_len; lia.
  all: by exists [l].
Qed.

(** [write_meta] and [write2] commit the transaction they have filled. *)
Lemma write_meta_eq j blk data sealed : tx_active j = false ->
  flatfs_journal_write_meta j blk data sealed =
  flatfs_journal_commit (j_with_tx j (u64 (tx_seq j + 1)) (tx_seq j) true [(blk, data)]) (tx_seq j) sealed.
Proof.
  intros Ha. unfold flatfs_journal_write_meta, flatfs_journal_begin. rewrite Ha. unfold flatfs_journal_log, not_current.
  cbn [j_with_tx tx_active tx_id j_tx length]. by rewrite Z.eqb_refl.
Qed.

Lemma write2_eq j b0 d0 b1 d1 sealed : tx_active j = false ->
  flatfs_journal_write2 j b0 d0 b1 d1 sealed =
  flatfs_journal_commit (j_with_tx j (u64 (tx_seq j + 1)) (tx_seq j) true [(b0, d0); (b1, d1)]) (tx_seq j) sealed.
Proof.
  intros Ha. unfold flatfs_journal_write2, flatfs_journal_begin. rewrite Ha. unfold flatfs_journal_log, not_current.
  cbn [j_with_tx tx_active tx_id j_tx length]. rewrite Z.eqb_refl. change (FLATFS_JOURNAL_MAXTX <=? Z.of_nat 0) with false.
  cbn [negb orb j_with_tx tx_active tx_id j_tx]. by rewrite Z.eqb_refl.
Qed.

Lemma filled_sim j a l sealed : jrel j a -> sp_open a = None -> (length l <= 254)%nat -> Forall (target_ok jb cnt) l ->
  log_len (sp_log a) + txn_len l <= cnt -> tail j + 256 < 2 ^ 64 ->
  let '(e, j') := flatfs_journal_commit (j_with_tx j (u64 (tx_seq j + 1)) (tx_seq j) true l) (tx_seq j) sealed in
  let '(r', a') := sp_commit (f_bound (j_fs j)) sealed (u64 (sp_seq a + 1)) l a in JRet e = r' /\ jstep_ok j j' a a'.
Proof using Hj.
  intros R Eo Hn Htg Hroom Ht. rewrite (jl_seq _ _ R). set (j1 := j_with_tx _ _ _ _ _).
  assert (R1 : jrel j1 (SP (u64 (sp_seq a + 1)) (Some (sp_seq a, l)) (sp_log a) (sp_done a))) by (by constructor; [apply R|apply R|..]).
  pose proof (commit_open_sim j1 _ (sp_seq a) l sealed R1 eq_refl Hn Hroom Ht) as S. change (f_bound (j_fs j1)) with (f_bound (j_fs j)) in S.
  destruct (flatfs_journal_commit j1 _ _) as [e j']. unfold sp_commit in *. cbn [sp_seq sp_log sp_done] in S.
  by destruct (_ && _); destruct S as [E [S1 S2 S3 S4]].
Qed.

Lemma checkpoint_sim j a : jrel j a ->
  let '(e, j') := flatfs_journal_checkpoint j in e = FLATFS_OK /\ jstep_ok j j' a (SP (sp_seq a) (sp_open a) [] (sp_done a)).
Proof using Hj.
  intros R. destruct (checkpoint_spec jb cnt Hj j _ (jl_inv _ _ R)) as (m' & -> & J' & T' & O').
  split; [done|]. constructor; cbn [sp_done sp_log].
  - by constructor; [|intros; cbn|apply R|apply R].
  - done.
  - unfold j_buf at 1. cbn [j_fs j_with_buf j_with f_buf with_buf]. rewrite T'. lia.
  - exists []. rewrite app_nil_r. split; [done|]. intros i Hi. by apply O'.
Qed.

Lemma j_step_sim j a op : jrel j a -> op_ok jb cnt a op -> tail j + 256 < 2 ^ 64 ->
  let '(r, j') := j_step j op in let '(r', a') := sp_step (f_bound (j_fs j)) a op in r = r' /\ jstep_ok j j' a a'.
Proof using Hj.
  intros R Hok Ht. pose proof (jl_open _ _ R) as Ho. pose proof (jl_seq _ _ R) as Hs.
  destruct op as [|id blk data|id sealed|id| |blk data sealed|b0 d0 b1 d1 sealed];
    cbn [j_step sp_step op_ok] in *; destruct (sp_open a) as [[id' l]|] eqn:Eo.
  - unfold flatfs_journal_begin. destruct Ho as (-> & _). split; [done|by apply refused_ok].
  - unfold flatfs_journal_begin. rewrite Ho, Hs. split; [done|]. by apply same_ok.
  - unfold flatfs_journal_log. rewrite (not_current_eq j a id R), Eo. destruct (id =? id'); cbn [negb]; [|split; [done|by apply refused_ok]].
    destruct Ho as (Ha & Hid & Hl & Htg). rewrite Hl. unfold FLATFS_JOURNAL_MAXTX.
    destruct (256 <=? Z.of_nat (length l)); (split; [done|]); [by apply refused_ok|]. apply same_ok; try done.
    cbn [sp_open]. split_and!; [done..|]. apply Forall_app. by split; [|constructor].
  - unfold flatfs_journal_log. rewrite (not_current_eq j a id R), Eo. split; [done|by apply refused_ok].
  - destruct (Z.eqb_spec id id') as [->|Hne]; cbn [negb].
    + pose proof (commit_open_sim j a id' l sealed R Eo (proj1 Hok) (proj2 Hok) Ht) as S.
      by destruct (flatfs_journal_commit j id' sealed).
    + unfold flatfs_journal_commit. rewrite (not_current_eq j a id R), Eo. rewrite (proj2 (Z.eqb_neq id id') Hne).
      split; [done|by apply refused_ok].
  - unfold flatfs_journal_commit. rewrite (not_current_eq j a id R), Eo. split; [done|by apply refused_ok].
  - unfold flatfs_journal_abort. rewrite (not_current_eq j a id R), Eo. destruct (id =? id'); cbn [negb]; (split; [done|]); [|by apply refused_ok].
    apply same_ok; try done; [|apply (audit_journal_frame _ _)]. unfold j_buf. cbn [j_fs]. apply (audit_journal_frame _ _).
  - unfold flatfs_journal_abort. rewrite (not_current_eq j a id R), Eo. split; [done|by apply refused_ok].
  - pose proof (checkpoint_sim j a R) as S. destruct (flatfs_journal_checkpoint j) as [e j']. destruct S as [-> S]. by rewrite <- Eo.
  - pose proof (checkpoint_sim j a R) as S. destruct (flatfs_journal_checkpoint j) as [e j']. destruct S as [-> S]. by rewrite <- Eo.
  - unfold flatfs_journal_write_meta, flatfs_journal_begin. destruct Ho as (-> & _). split; [done|by apply refused_ok].
  - rewrite write_meta_eq by done. destruct Hok as [Ht1 Hroom].
    pose proof (filled_sim j a [(blk, data)] sealed R Eo ltac:(cbn; lia) ltac:(by constructor) Hroom Ht) as S. by destruct (flatfs_journal_commit _ _ _).
  - unfold flatfs_journal_write2, flatfs_journal_begin. destruct Ho as (-> & _). split; [done|by apply refused_ok].
  - rewrite write2_eq by done. destruct Hok as (Ht1 & Ht2 & Hroom).
    pose proof (filled_sim j a [(b0, d0); (b1, d1)] sealed R Eo ltac:(cbn; lia) ltac:(by apply Forall_cons; split; [|apply Forall_singleton]) Hroom Ht) as S.
    by destruct (flatfs_journal_commit _ _ _).
Qed.

Lemma j_run_sim ops : forall j a, jrel j a -> ops_ok jb cnt (f_bound (j_fs j)) a ops -> tail j + 256 * Z.of_nat (length ops) < 2 ^ 64 ->
  let '(rs, j') := j_run j ops in let '(rs', a') := sp_run (f_bound (j_fs j)) a ops in
  rs = rs' /\ jrel j' a' /\ exists new, sp_done a' = sp_done a ++ new /\ forall i, outside i -> j_buf j' i = apply_all new (j_buf j) i.
Proof using Hj.
  induction ops as [|op ops IH]; intros j a R Hok Ht; cbn [j_run sp_run].
  { split_and!; [done|done|]. exists []. by rewrite app_nil_r. }
  destruct Hok as [Hop Hok]. pose proof (j_step_sim j a op R Hop ltac:(cbn [length] in Ht; lia)) as S.
  destruct (j_step j op) as [r j1], (sp_step _ a op) as [r' a1]. destruct S as [-> [R1 B1 T1 (new1 & D1 & O1)]]. cbn [snd] in Hok.
  specialize (IH j1 a1 R1). rewrite B1 in IH. specialize (IH Hok ltac:(cbn [length] in Ht; lia)).
  destruct (j_run j1 ops) as [rs j2], (sp_run _ a1 ops) as [rs' a2]. destruct IH as (-> & R2 & new2 & D2 & O2).
  split_and!; [done|done|]. exists (new1 ++ new2). split; [by rewrite D2, D1, app_assoc|]. intros i Hi.
  rewrite O2, apply_all_app by done. by apply apply_all_point, O1.
Qed.

(** ** Recovery *)

(** Mounting: the log is replayed, then the journal is initialised. *)
Lemma init_kept j txs : jinv (j_buf j) txs -> (forall i, outside i -> apply_all txs (j_buf j) i = j_buf j i) ->
  exists j', flatfs_journal_init j = (FLATFS_OK, j') /\ j_buf j' = j_buf j /\ jrel j' (SP (tx_seq j') None txs []).
Proof using Hj.
  intros J Hs. unfold flatfs_journal_init. destruct (jsuper_addr jb cnt Hj (j_fs j) txs J) as [-> _]. fold (j_buf j).
  rewrite (ji_magic _ _ _ _ J), Z.eqb_refl. eexists. split; [reflexivity|]. split; [done|]. by constructor.
Qed.

Lemma recover_init j txs : jinv (j_buf j) txs -> j_rev j = [] -> Z.land (sbget (j_fs j) sb_state) FLATFS_STATE_REPLAY = 0 ->
  exists j1 j2, flatfs_journal_recover j = Some (FLATFS_OK, j1) /\ flatfs_journal_init j1 = (FLATFS_OK, j2) /\
    jrel j2 (SP (tx_seq j2) None [] []) /\ forall i, outside i -> 8192 <= i -> j_buf j2 i = apply_all txs (j_buf j) i.
Proof using Hj.
  intros J Hr Hs. destruct (recover_spec jb cnt Hj j txs J Hr Hs) as (j1 & E1 & J1 & O1).
  destruct (init_kept j1 [] J1 ltac:(done)) as (j2 & E2 & B2 & R2). exists j1, j2. rewrite B2. by split_and!.
Qed.

(** A crash after [k] stores of the commit of the open transaction. *)
Lemma crash_recover j a id l k : jrel j a -> sp_open a = Some (id, l) -> (length l <= 254)%nat ->
  log_len (sp_log a) + txn_len l <= cnt -> tail j + 256 < 2 ^ 64 -> Z.land (sbget (j_fs j) sb_state) FLATFS_STATE_REPLAY = 0 ->
  exists j1 j2, flatfs_journal_recover (reboot j (commit_crash j id l k)) = Some (FLATFS_OK, j1) /\ flatfs_journal_init j1 = (FLATFS_OK, j2) /\
    jrel j2 (SP (tx_seq j2) None [] []) /\ forall i, outside i -> 8192 <= i -> j_buf j2 i =
      if bool_decide (k <= length l + 2)%nat then j_buf j i
      else if bool_decide (k <= 2 * length l + 2)%nat then apply_all (sp_log a) (apply_tx (take (k - (length l + 2)) l) (j_buf j)) i
      else apply_tx l (j_buf j) i.
Proof using Hj.
  intros R Eo Hn Hroom Ht Hst. pose proof (jl_open _ _ R) as Ho. rewrite Eo in Ho. destruct Ho as (_ & _ & _ & Htg).
  assert (Hok : txn_ok jb cnt l) by done. assert (Ht' : tail j + txn_len l < 2 ^ 64) by (unfold txn_len; lia).
  pose proof (jl_inv _ _ R) as J. pose proof (crash_state jb cnt Hj j (sp_log a) id l k J Hok Hroom Ht') as C. cbv zeta in C.
  set (mk := commit_crash j id l k) in *.
  assert (Hst' : Z.land (sbget (j_fs (reboot j mk)) sb_state) FLATFS_STATE_REPLAY = 0).
  { rewrite <- Hst. f_equal. apply fget_out. cbn. intros i Hi. apply (commit_keeps_super jb cnt Hj j (sp_log a)); [done..|lia]. }
  assert (Hk : exists txs, jinv mk txs /\ forall i, outside i -> apply_all txs mk i = if bool_decide (k <= length l + 2)%nat then j_buf j i
      else if bool_decide (k <= 2 * length l + 2)%nat then apply_all (sp_log a) (apply_tx (take (k - (length l + 2)) l) (j_buf j)) i
      else apply_tx l (j_buf j) i).
  { destruct (decide (k <= length l + 2)%nat); [|destruct (decide (k <= 2 * length l + 2)%nat)].
    - rewrite bool_decide_true in C by lia. exists (sp_log a). split; [apply C|]. intros i Hi. rewrite bool_decide_true by done.
      rewrite (apply_all_point _ i _ _ (proj2 C i Hi)). replace (k - (length l + 2))%nat with 0%nat by lia. by apply R.
    - rewrite bool_decide_true in C by done. exists (sp_log a). split; [apply C|]. intros i Hi. rewrite bool_decide_false, bool_decide_true by done.
      apply apply_all_point, C, Hi.
    - rewrite bool_decide_false in C by done. exists (sp_log a ++ [l]). split; [apply C|]. intros i Hi. rewrite !bool_decide_false by done.
      rewrite (apply_all_point _ i _ _ (proj2 C i Hi)). by apply synced_snoc, R. }
  destruct Hk as (txs & Jk & Hk). destruct (recover_init (reboot j mk) txs Jk eq_refl Hst') as (j1 & j2 & E1 & E2 & R2 & O2).
  exists j1, j2. split_and!; [done..|]. intros i Hi Hi2. rewrite O2 by done. by apply Hk.
Qed.

(** A volume that has no journal yet. *)
Lemma init_fresh j : sbget (j_fs j) sb_journal_start = jb -> sbget (j_fs j) sb_journal_blocks = cnt + 2 ->
  fget (j_buf j) (jb * 4096) js_magic <> FLATFS_JOURNAL_MAGIC ->
  exists j', flatfs_journal_init j = (FLATFS_OK, j') /\ jrel j' (SP 1 None [] []) /\ tail j' = 0 /\ f_bound (j_fs j') = f_bound (j_fs j) /\
    forall i, outside i -> j_buf j' i = j_buf j i.
Proof using Hj.
  unfold sbget. fold (j_buf j). intros Hs Hb Hm. unfold flatfs_journal_init. fold (j_buf j). unfold jsuper, jsuper_backup, sbget. fold (j_buf j).
  rewrite Hs, (u64_small (jb + 1)), !blk_ptr_eq by lia. rewrite (proj2 (Z.eqb_neq _ _) Hm). set (a := jb * 4096) in *.
  set (m1 := fset (fset (fset (memset (j_buf j) a 0 4096) a js_magic FLATFS_JOURNAL_MAGIC) a js_version 1) a js_sequence 1).
  assert (O1 : forall i, i < a -> m1 i = j_buf j i).
  { intros i Hi. unfold m1, fset. rewrite !wr_out by (cbn; lia). apply memset_out. lia. }
  assert (Hs1 : fget m1 0 sb_journal_start = jb) by (rewrite <- Hs; apply fget_out; cbn; intros; apply O1; lia).
  rewrite Hs1, (u64_small (jb + 2)) by lia. set (m2 := fset m1 a js_log_start (jb + 2)).
  assert (Hb2 : fget m2 0 sb_journal_blocks = cnt + 2).
  { rewrite <- Hb. apply fget_out. cbn. intros i Hi. unfold m2, fset. rewrite wr_out by (cbn; lia). apply O1. lia. }
  rewrite Hb2, (u64_small (cnt + 2 - 2)) by lia. replace (cnt + 2 - 2) with cnt by lia.
  set (m3 := fset (fset (fset (fset m2 a js_log_count cnt) a js_head 0) a js_tail 0) a js_block_size FLATFS_BLOCK_SIZE).
  set (m4 := memcpy (js_seal m3 a) _ _ _ _).
  assert (O4 : forall i, i < a + 4092 \/ a + 8192 <= i -> m4 i = m3 i) by (intros; unfold m4; rewrite memcpy_out, js_seal_out by lia; done).
  assert (O3 : forall i, i < a \/ a + 4096 <= i -> m3 i = j_buf j i).
  { intros i Hi. unfold m3, m2, m1, fset. rewrite !wr_out by (cbn; lia). apply memset_out. lia. }
  assert (F4 : forall f, 0 <= f_off f -> f_off f + Z.of_nat (f_width f) <= 4092 -> fget m4 a f = fget m3 a f)
    by (intros; apply fget_out; intros; apply O4; lia).
  assert (E3 : fget m3 a js_magic = FLATFS_JOURNAL_MAGIC /\ fget m3 a js_sequence = 1 /\ fget m3 a js_log_start = jb + 2 /\
    fget m3 a js_log_count = cnt /\ fget m3 a js_head = 0 /\ fget m3 a js_tail = 0).
  { unfold m3, m2, m1, fset, fget. cbn [f_off f_width js_magic js_version js_sequence js_log_start js_log_count js_head js_tail js_block_size].
    split_and!; rewrite ?rd_wr_other by (cbn; lia); apply rd_wr_small; cbn; unfold FLATFS_JOURNAL_MAGIC; lia. }
  destruct E3 as (E1 & E2 & E5 & E6 & E7 & E8).
  eexists. split; [reflexivity|]. unfold j_buf at 1 3. cbn [j_fs f_buf with_buf f_bound]. split_and!; [|by rewrite F4 by (cbn; lia)|done|].
  - constructor; cbn [j_buf j_fs f_buf with_buf tx_seq sp_seq sp_log sp_open]; [|done| |done]; rewrite ?F4 by (cbn; lia); [|done].
    unfold j_buf. cbn [j_fs f_buf with_buf]. constructor; fold a; rewrite ?F4 by (cbn; lia); try (rewrite ?E7, ?E8; done || lia).
    rewrite <- Hs. apply fget_out. cbn. intros i Hi. rewrite O4, O3 by lia. done.
  - intros i Hi. unfold FlatJournalProof.outside in Hi. rewrite O4, O3 by lia. done.
Qed.
End Theorems.

(** ** A journal to evaluate on *)

Definition jvol : jstate := JST vol 0 0 false [] [] 0 0 0 0.
Definition jnew : jstate := snd (flatfs_journal_init jvol).

Lemma jvol_geom : 2 <= 4 /\ 0 < 1022 /\ 4 + 2 + 1022 < 2 ^ 40.
Proof. lia. Qed.

Lemma vol_zero i : 8192 <= i -> f_buf vol i = 0.
Proof.
  intros Hi. destruct (super_init_spec zero_fs vol_cap 64 None) as (s' & E & _ & _ & _ & Hz);
    [by vm_compute|apply vol_fits|by intros|done|]. unfold vol. rewrite E. cbn [snd]. by rewrite Hz.
Qed.

Lemma jvol_no_magic : fget (j_buf jvol) (4 * 4096) js_magic <> FLATFS_JOURNAL_MAGIC.
Proof. rewrite (fget_out (fun _ => 0)); [by vm_compute|]. cbn. intros i Hi. apply vol_zero. lia. Qed.

Lemma jnew_ok : jrel 4 1022 jnew (SP 1 None [] []) /\ fget (j_buf jnew) (4 * 4096) js_tail = 0 /\ f_bound (j_fs jnew) = false /\
  Z.land (sbget (j_fs jnew) sb_state) FLATFS_STATE_REPLAY = 0.
Proof.
  destruct vol_ok as (SF & _ & _). destruct (init_fresh 4 1022 jvol_geom jvol) as (j' & E & R & T & B & O).
  - apply (sf_js _ _ _ SF).
  - apply (sf_jb _ _ _ SF).
  - exact jvol_no_magic.
  - unfold jnew. rewrite E. cbn [snd]. split_and!; [done|done|by rewrite B|].
    transitivity (Z.land (sbget vol sb_state) FLATFS_STATE_REPLAY); [|by vm_compute].
    f_equal. apply fget_out. cbn. intros i Hi. apply O. unfold outside. lia.
Qed.

Lemma jnew_zero i : 1028 * 4096 <= i -> j_buf jnew i = 0.
Proof.
  intros Hi. destruct vol_ok as (SF & _ & _). destruct (init_fresh 4 1022 jvol_geom jvol) as (j' & E & _ & _ & _ & O).
  - apply (sf_js _ _ _ SF).
  - apply (sf_jb _ _ _ SF).
  - exact jvol_no_magic.
  - unfold jnew. rewrite E. cbn [snd]. rewrite O by (unfold outside; lia). apply vol_zero. lia.
Qed.

(** A block of [v]s. *)
Definition full (v : Z) : bmem := fun _ => v.

Lemma full_ok blk v : 1028 <= blk < 2 ^ 52 -> 0 <= v < 256 -> target_ok 4 1022 (blk, full v).
Proof. intros Hb Hv. unfold target_ok. cbn [fst snd]. split_and!; [lia|lia|lia|]. by intros i. Qed.

(** Two transactions and one that stays open. *)
Definition jcalls : list jop :=
  [JBegin; JLog 1 1050 (full 7); JLog 9 1051 (full 1); JLog 1 1051 (full 8); JCommit 1 true; JMeta 1050 (full 9) true;
   JBegin; JLog 3 1052 (full 5); JAbort 3; JBegin; JBegin; JLog 4 1050 (full 3); JLog 4 1051 (full 4)].

Lemma jcalls_ok : ops_ok 4 1022 false (SP 1 None [] []) jcalls.
Proof. cbv -[target_ok full Z.le]. split_and!; try (apply full_ok; lia); try done; lia. Qed.

Abbreviation jdone := [[(1050, full 7); (1051, full 8)]; [(1050, full 9)]].

Lemma jcalls_run : sp_run false (SP 1 None [] []) jcalls =
  ([JId (inr 1); JRet FLATFS_OK; JRet FLATFS_ERR_BADSTATE; JRet FLATFS_OK; JRet FLATFS_OK; JRet FLATFS_OK;
    JId (inr 3); JRet FLATFS_OK; JRet FLATFS_OK; JId (inr 4); JId (inl FLATFS_ERR_BADSTATE); JRet FLATFS_OK; JRet FLATFS_OK],
   SP 5 (Some (4, [(1050, full 3); (1051, full 4)])) jdone jdone).
Proof. vm_compute. reflexivity. Qed.

Lemma jdone_ok : Forall (txn_ok 4 1022) jdone.
Proof. repeat (apply Forall_cons; split; [split; [cbn; lia|repeat (apply Forall_cons; split; [apply full_ok; lia|]); constructor]|]). constructor. Qed.

(** What the two transactions leave in their blocks, whatever was there. *)
Lemma jdone_bytes m : apply_all jdone m (1050 * 4096) = 9 /\ apply_all jdone m (1051 * 4096) = 8 /\
  apply_all jdone m (1052 * 4096) = m (1052 * 4096).
Proof. split_and!; reflexivity. Qed.

(** One transaction of two blocks, open. *)
Definition jopen : list jop := [JBegin; JLog 1 1050 (full 7); JLog 1 1051 (full 8)].

Lemma jopen_ok : jrel 4 1022 (snd (j_run jnew jopen)) (SP 2 (Some (1, [(1050, full 7); (1051, full 8)])) [] []) /\
  j_buf (snd (j_run jnew jopen)) = j_buf jnew.
Proof.
  destruct jnew_ok as (R & T & B & _). split.
  - assert (Hok : ops_ok 4 1022 (f_bound (j_fs jnew)) (SP 1 None [] []) jopen).
    { unfold jopen. cbn [ops_ok op_ok]. split_and!; [done|apply full_ok; lia|apply full_ok; lia|done]. }
    pose proof (j_run_sim 4 1022 jvol_geom jopen jnew _ R Hok ltac:(rewrite T; cbn; lia)) as S. rewrite B in S.
    change (sp_run false (SP 1 None [] []) jopen) with
      ([JId (inr 1); JRet FLATFS_OK; JRet FLATFS_OK], SP 2 (Some (1, [(1050, full 7); (1051, full 8)])) [] []) in S.
    destruct (j_run jnew jopen) as [rs j']. by destruct S as (_ & S & _).
  - unfold jopen. cbn [j_run j_step]. unfold flatfs_journal_begin. rewrite (jl_open _ _ _ _ R), (jl_seq _ _ _ _ R). reflexivity.
Qed.

(** ** Results *)






