(* ===== verification/Tmpfs.v ===== *)
(** * Files of the in-memory file system (fs/tmpfs)

    Regular files with a two-level table of pages.  Everything is allocated
    from the kernel heap, through the allocator interface: what a block
    holds is kept per block address, as a table of pointers or a page of
    bytes.  Taking a lock that is held spins for ever and is [None].  The
    clock ([tmpfs_now]) is an argument.

    Sources: tmpfs_file.c, tmpfs.h. *)

From stdpp Require Import base gmap list.
From Stdlib Require Import ZArith Lia.
From S2P Require Import Prelude Spinlock Kmalloc Allocator.

Definition TMPFS_PAGE_SIZE : Z := 4096.
Definition TMPFS_L2_SZ : Z := 64.
Definition TMPFS_L1_SZ : Z := 64.
Definition TMPFS_MAX_SZ : Z := TMPFS_L1_SZ * TMPFS_L2_SZ * TMPFS_PAGE_SIZE.
Definition TMPFS_NAME_MAX : Z := 255.
Definition TMPFS_HTAB_SZ : Z := 512.

Definition TMPFS_T_REG : Z := 1.
Definition TMPFS_T_DIR : Z := 2.

Definition TMPFS_OK : Z := 0.
Definition TMPFS_ENOMEM : Z := -12.
Definition TMPFS_ENOENT : Z := -2.
Definition TMPFS_EEXIST : Z := -17.
Definition TMPFS_ENOTDIR : Z := -20.
Definition TMPFS_EFBIG : Z := -27.
Definition TMPFS_EINVAL : Z := -22.

Record tmpfs_dirent := Dirent { de_ino : Z; de_next : Z; de_name : list Z }.

Record tmpfs_inode := Inode {
  i_ino : Z; i_type : Z; i_perm : Z; i_nlink : Z; i_size : Z; i_atime : Z; i_mtime : Z; i_ctime : Z; i_lock : spinlock;
  pg_l1 : Z -> Z; de_head : Z; de_count : Z; ht_next : Z }.

(** [sizeof] of the three structures. *)
Definition inode_bytes : Z := 576.
Definition dirent_bytes : Z := 272.
Definition sb_bytes : Z := 4128.

Definition set_lock (l : spinlock) (ip : tmpfs_inode) : tmpfs_inode :=
  Inode (i_ino ip) (i_type ip) (i_perm ip) (i_nlink ip) (i_size ip) (i_atime ip) (i_mtime ip) (i_ctime ip) l (pg_l1 ip) (de_head ip) (de_count ip) (ht_next ip).
Definition set_size (v : Z) (ip : tmpfs_inode) : tmpfs_inode :=
  Inode (i_ino ip) (i_type ip) (i_perm ip) (i_nlink ip) v (i_atime ip) (i_mtime ip) (i_ctime ip) (i_lock ip) (pg_l1 ip) (de_head ip) (de_count ip) (ht_next ip).
Definition set_atime (v : Z) (ip : tmpfs_inode) : tmpfs_inode :=
  Inode (i_ino ip) (i_type ip) (i_perm ip) (i_nlink ip) (i_size ip) v (i_mtime ip) (i_ctime ip) (i_lock ip) (pg_l1 ip) (de_head ip) (de_count ip) (ht_next ip).
Definition set_mtime (v : Z) (ip : tmpfs_inode) : tmpfs_inode :=
  Inode (i_ino ip) (i_type ip) (i_perm ip) (i_nlink ip) (i_size ip) (i_atime ip) v (i_ctime ip) (i_lock ip) (pg_l1 ip) (de_head ip) (de_count ip) (ht_next ip).
Definition set_l1 (f : Z -> Z) (ip : tmpfs_inode) : tmpfs_inode :=
  Inode (i_ino ip) (i_type ip) (i_perm ip) (i_nlink ip) (i_size ip) (i_atime ip) (i_mtime ip) (i_ctime ip) (i_lock ip) f (de_head ip) (de_count ip) (ht_next ip).
Definition set_dir (h n : Z) (ip : tmpfs_inode) : tmpfs_inode :=
  Inode (i_ino ip) (i_type ip) (i_perm ip) (i_nlink ip) (i_size ip) (i_atime ip) (i_mtime ip) (i_ctime ip) (i_lock ip) (pg_l1 ip) h n (ht_next ip).
Definition set_ht_next (v : Z) (ip : tmpfs_inode) : tmpfs_inode :=
  Inode (i_ino ip) (i_type ip) (i_perm ip) (i_nlink ip) (i_size ip) (i_atime ip) (i_mtime ip) (i_ctime ip) (i_lock ip) (pg_l1 ip) (de_head ip) (de_count ip) v.
Definition set_nlink (v : Z) (ip : tmpfs_inode) : tmpfs_inode :=
  Inode (i_ino ip) (i_type ip) (i_perm ip) v (i_size ip) (i_atime ip) (i_mtime ip) (i_ctime ip) (i_lock ip) (pg_l1 ip) (de_head ip) (de_count ip) (ht_next ip).

(** [src] stored at [at_] of a page. *)
Definition put_bytes (pg : Z -> Z) (at_ : Z) (src : list Z) : Z -> Z :=
  fun i => if (at_ <=? i) && (i <? at_ + Z.of_nat (length src)) then nth (Z.to_nat (i - at_)) src 0 else pg i.

Definition page_bytes (pg : Z -> Z) (at_ : Z) (n : nat) : list Z := map (fun i => pg (at_ + Z.of_nat i)) (seq 0 n).

Section tmpfs.
Context {A : Type} `{Allocator A}.

(** The heap, the tables of page pointers and the pages. *)
Record store := Store { heap : A; tables : Z -> Z -> Z; pages : Z -> Z -> Z }.

(** ** Files (tmpfs_file.c) *)

Definition ensure_l2 (ip : tmpfs_inode) (st : store) (l1 : Z) (alloc : bool) : option (Z * tmpfs_inode * store) :=
  if negb (pg_l1 ip l1 =? 0) then Some (pg_l1 ip l1, ip, st) else
  if negb alloc then Some (0, ip, st) else
  '(h, t) ← al_alloc (heap st) (TMPFS_L2_SZ * 8);
  let ip := set_l1 (upd (pg_l1 ip) l1 t) ip in
  Some (t, ip, Store h (if t =? 0 then tables st else upd (tables st) t (fun _ => 0)) (pages st)).

Definition ensure_page (ip : tmpfs_inode) (st : store) (t l2 : Z) (alloc : bool) : option (Z * tmpfs_inode * store) :=
  if negb (tables st t l2 =? 0) then Some (tables st t l2, ip, st) else
  if negb alloc then Some (0, ip, st) else
  '(h, p) ← al_alloc (heap st) TMPFS_PAGE_SIZE;
  Some (p, ip, Store h (upd (tables st) t (upd (tables st t) l2 p)) (if p =? 0 then pages st else upd (pages st) p (fun _ => 0))).

Definition pg_get (ip : tmpfs_inode) (st : store) (pgidx : Z) (alloc : bool) : option (Z * tmpfs_inode * store) :=
  let l1 := pgidx / TMPFS_L2_SZ in
  let l2 := pgidx mod TMPFS_L2_SZ in
  if TMPFS_L1_SZ <=? l1 then Some (0, ip, st) else
  '(t, ip, st) ← ensure_l2 ip st l1 alloc;
  if t =? 0 then Some (0, ip, st) else ensure_page ip st t l2 alloc.

Definition free_if (st : store) (p : Z) : option store :=
  if p =? 0 then Some st else h ← al_free (heap st) p; Some (Store h (tables st) (pages st)).

(** The inner loop of [tmpfs_file_freepages] over table [t]. *)
Fixpoint free_table (n : nat) (j t : Z) (st : store) : option store :=
  match n with
  | O => Some st
  | S n =>
    st ← (if tables st t j =? 0 then Some st else
          st ← free_if st (tables st t j); Some (Store (heap st) (upd (tables st) t (upd (tables st t) j 0)) (pages st)));
    free_table n (j + 1) t st
  end.

Fixpoint free_tables (n : nat) (i : Z) (ip : tmpfs_inode) (st : store) : option (tmpfs_inode * store) :=
  match n with
  | O => Some (ip, st)
  | S n =>
    let t := pg_l1 ip i in
    if t =? 0 then free_tables n (i + 1) ip st else
    st ← free_table (Z.to_nat TMPFS_L2_SZ) 0 t st;
    st ← free_if st t;
    free_tables n (i + 1) (set_l1 (upd (pg_l1 ip) i 0) ip) st
  end.

Definition tmpfs_file_freepages (ip : tmpfs_inode) (st : store) : option (tmpfs_inode * store) :=
  '(ip, st) ← free_tables (Z.to_nat TMPFS_L1_SZ) 0 ip st; Some (set_size 0 ip, st).

Definition unlock (ip : tmpfs_inode) : tmpfs_inode := set_lock (spin_unlock (i_lock ip)) ip.

(** The chunk of an iteration at [off] with [rem] bytes left. *)
Definition pg_chunk (off rem : Z) : Z :=
  let chunk := TMPFS_PAGE_SIZE - off mod TMPFS_PAGE_SIZE in if rem <? chunk then rem else chunk.

Fixpoint read_loop (fuel : nat) (ip : tmpfs_inode) (st : store) (off rem : Z) (acc : list Z) : option (list Z) :=
  match fuel with
  | O => None
  | S fuel =>
    if rem =? 0 then Some acc else
    let chunk := pg_chunk off rem in
    '(pg, _, _) ← pg_get ip st (u32 (off / TMPFS_PAGE_SIZE)) false;
    let piece := if pg =? 0 then replicate (Z.to_nat chunk) 0
                 else page_bytes (pages st pg) (off mod TMPFS_PAGE_SIZE) (Z.to_nat chunk) in
    read_loop fuel ip st (u64 (off + chunk)) (rem - chunk) (acc ++ piece)
  end.

Definition loop_fuel (len : Z) : nat := Z.to_nat (len / TMPFS_PAGE_SIZE + 3).

Definition tmpfs_file_read (ip : tmpfs_inode) (st : store) (off len now : Z) : option ((Z + list Z) * tmpfs_inode) :=
  if negb (i_type ip =? TMPFS_T_REG) then Some (inl TMPFS_EINVAL, ip) else
  l ← spin_lock (i_lock ip);
  let ip := set_lock l ip in
  if i_size ip <=? off then Some (inr [], unlock ip) else
  let len := if i_size ip <? u64 (off + len) then i_size ip - off else len in
  bytes ← read_loop (loop_fuel len) ip st off len [];
  Some (inr bytes, unlock (set_atime now ip)).

(** [data] is what is left to write; the result says whether all of it was
    written, and where the loop stopped. *)
Fixpoint write_loop (fuel : nat) (ip : tmpfs_inode) (st : store) (cur : Z) (data : list Z)
  : option (bool * Z * tmpfs_inode * store) :=
  match fuel with
  | O => None
  | S fuel =>
    match data with
    | [] => Some (true, cur, ip, st)
    | _ =>
      let chunk := pg_chunk cur (Z.of_nat (length data)) in
      '(pg, ip, st) ← pg_get ip st (u32 (cur / TMPFS_PAGE_SIZE)) true;
      if pg =? 0 then Some (false, cur, ip, st) else
      let st := Store (heap st) (tables st)
                  (upd (pages st) pg (put_bytes (pages st pg) (cur mod TMPFS_PAGE_SIZE) (take (Z.to_nat chunk) data))) in
      write_loop fuel ip st (u64 (cur + chunk)) (drop (Z.to_nat chunk) data)
    end
  end.

Definition tmpfs_file_write (ip : tmpfs_inode) (st : store) (off : Z) (data : list Z) (now : Z)
  : option ((Z + Z) * tmpfs_inode * store) :=
  let len := Z.of_nat (length data) in
  if negb (i_type ip =? TMPFS_T_REG) then Some (inl TMPFS_EINVAL, ip, st) else
  if TMPFS_MAX_SZ <? u64 (off + len) then Some (inl TMPFS_EFBIG, ip, st) else
  l ← spin_lock (i_lock ip);
  '(ok, cur, ip, st) ← write_loop (loop_fuel len) (set_lock l ip) st off data;
  if negb ok then Some (inl TMPFS_ENOMEM, unlock ip, st) else
  let ip := if i_size ip <? cur then set_size cur ip else ip in
  Some (inr len, unlock (set_mtime now ip), st).

Fixpoint trunc_loop (n : nat) (p : Z) (ip : tmpfs_inode) (st : store) : option store :=
  match n with
  | O => Some st
  | S n =>
    let l1 := p / TMPFS_L2_SZ in
    let l2 := p mod TMPFS_L2_SZ in
    let t := pg_l1 ip l1 in
    if (TMPFS_L1_SZ <=? l1) || (t =? 0) then trunc_loop n (p + 1) ip st else
    st ← (if tables st t l2 =? 0 then Some st else
          st ← free_if st (tables st t l2); Some (Store (heap st) (upd (tables st) t (upd (tables st t) l2 0)) (pages st)));
    trunc_loop n (p + 1) ip st
  end.

Definition tmpfs_file_truncate (ip : tmpfs_inode) (st : store) (newsz now : Z) : option (Z * tmpfs_inode * store) :=
  if negb (i_type ip =? TMPFS_T_REG) then Some (TMPFS_EINVAL, ip, st) else
  if TMPFS_MAX_SZ <? newsz then Some (TMPFS_EFBIG, ip, st) else
  l ← spin_lock (i_lock ip);
  let ip := set_lock l ip in
  st ← (if newsz <? i_size ip then
          let first_free := u32 ((newsz + TMPFS_PAGE_SIZE - 1) / TMPFS_PAGE_SIZE) in
          let last_pg := u32 (u64 (i_size ip + TMPFS_PAGE_SIZE - 1) / TMPFS_PAGE_SIZE) in
          st ← trunc_loop (Z.to_nat (last_pg - first_free)) first_free ip st;
          let tail_off := newsz mod TMPFS_PAGE_SIZE in
          if tail_off =? 0 then Some st else
          '(pg, _, st) ← pg_get ip st (u32 (newsz / TMPFS_PAGE_SIZE)) false;
          if pg =? 0 then Some st else
          Some (Store (heap st) (tables st)
                  (upd (pages st) pg (put_bytes (pages st pg) tail_off (replicate (Z.to_nat (TMPFS_PAGE_SIZE - tail_off)) 0))))
        else Some st);
  Some (TMPFS_OK, unlock (set_mtime now (set_size newsz ip)), st).
End tmpfs.
