(* ===== verification/TmpfsFile.v ===== *)
(** * tmpfs files: pages and contents

    The page tables of a file, the bytes they stand for, and what the
    loops of reading, writing and truncating do to them. *)

From stdpp Require Import base gmap list.
From Stdlib Require Import ZArith Lia.
From S2P Require Import Prelude Spinlock Kmalloc Allocator Tmpfs.

Lemma u32_small z : 0 <= z < 2 ^ 32 -> u32 z = z.
Proof. intros. by apply Z.mod_small. Qed.

Section file.
Context {A : Type} `{AL : AllocatorLaws A}.
Implicit Types (ip : tmpfs_inode) (st : store (A := A)) (live : gset Z).

(** ** The bytes of a file *)

(** The page of index [p], 0 if there is none. *)
Definition pga ip st (p : Z) : Z := let t := pg_l1 ip (p / 64) in if t =? 0 then 0 else tables st t (p mod 64).

Definition fbyte ip st (k : Z) : Z := let a := pga ip st (k / 4096) in if a =? 0 then 0 else pages st a (k mod 4096).

Record file_ok ip st live : Prop := {
  fo_heap : al_inv (heap st) live;
  fo_tab : forall i, 0 <= i < 64 -> pg_l1 ip i <> 0 -> pg_l1 ip i ∈ live;
  fo_tab_inj : forall i j, 0 <= i < 64 -> 0 <= j < 64 -> pg_l1 ip i <> 0 -> pg_l1 ip i = pg_l1 ip j -> i = j;
  fo_pg : forall p, 0 <= p < 4096 -> pga ip st p <> 0 -> pga ip st p ∈ live;
  fo_pg_inj : forall p q, 0 <= p < 4096 -> 0 <= q < 4096 -> pga ip st p <> 0 -> pga ip st p = pga ip st q -> p = q;
  fo_apart : forall i p, 0 <= i < 64 -> 0 <= p < 4096 -> pg_l1 ip i <> 0 -> pg_l1 ip i <> pga ip st p }.

(** The blocks of a file. *)
Definition owns ip st (a : Z) : Prop :=
  a <> 0 /\ ((exists i, 0 <= i < 64 /\ pg_l1 ip i = a) \/ (exists p, 0 <= p < 4096 /\ pga ip st p = a)).

(** Blocks in use that are not the file's stay in use, keep their contents
    and do not become the file's, and there are no more of them afterwards. *)
Definition framed ip st live ip' st' live' : Prop :=
  (forall a, a ∈ live -> ~ owns ip st a ->
    a ∈ live' /\ tables st' a = tables st a /\ pages st' a = pages st a /\ ~ owns ip' st' a) /\
  (forall a, a ∈ live' -> ~ owns ip' st' a -> a ∈ live /\ ~ owns ip st a).

Lemma framed_refl ip st live : framed ip st live ip st live.
Proof. done. Qed.

Lemma framed_trans ip1 st1 l1 ip2 st2 l2 ip3 st3 l3 :
  framed ip1 st1 l1 ip2 st2 l2 -> framed ip2 st2 l2 ip3 st3 l3 -> framed ip1 st1 l1 ip3 st3 l3.
Proof.
  intros [F1 G1] [F2 G2]. split.
  - intros a Ha Ho. destruct (F1 a Ha Ho) as (C1 & C2 & C3 & C4). destruct (F2 a C1 C4) as (D1 & D2 & D3 & D4).
    split_and!; [done|congruence|congruence|done].
  - intros a Ha Ho. destruct (G2 a Ha Ho). by apply G1.
Qed.

(** From one state of a file to another with the bytes [fb]; nothing of the
    inode changes but its page table. *)
Record evolved ip st live ip' st' live' (fb : Z -> Z) : Prop := {
  ev_ok : file_ok ip' st' live';
  ev_frame : framed ip st live ip' st' live';
  ev_inode : ip' = set_l1 (pg_l1 ip') ip;
  ev_bytes : forall k, 0 <= k < TMPFS_MAX_SZ -> fbyte ip' st' k = fb k }.

Lemma fevolved_id ip st live : file_ok ip st live -> evolved ip st live ip st live (fbyte ip st).
Proof. intros F. constructor; [done|apply framed_refl|by destruct ip|done]. Qed.

Lemma fevolved_trans ip1 st1 l1 ip2 st2 l2 ip3 st3 l3 f2 f3 :
  evolved ip1 st1 l1 ip2 st2 l2 f2 -> evolved ip2 st2 l2 ip3 st3 l3 f3 -> evolved ip1 st1 l1 ip3 st3 l3 f3.
Proof.
  intros [A1 A2 A3 A4] [B1 B2 B3 B4]. constructor; [done|by eapply framed_trans|rewrite B3, A3 at 1; done|done].
Qed.

Lemma fevolved_ext ip st live ip' st' live' f g :
  (forall k, 0 <= k < TMPFS_MAX_SZ -> f k = g k) -> evolved ip st live ip' st' live' f -> evolved ip st live ip' st' live' g.
Proof. intros E [A1 A2 A3 A4]. constructor; try done. intros k Hk. rewrite A4 by done. by apply E. Qed.

(** States with the same pages have the same bytes. *)
Lemma fbyte_same ip st ip' st' :
  (forall p, 0 <= p < 4096 -> pga ip' st' p = pga ip st p) ->
  (forall p, 0 <= p < 4096 -> pga ip st p <> 0 -> pages st' (pga ip st p) = pages st (pga ip st p)) ->
  forall k, 0 <= k < TMPFS_MAX_SZ -> fbyte ip' st' k = fbyte ip st k.
Proof.
  intros E1 E2 k Hk. assert (0 <= k / 4096 < 4096) by (unfold TMPFS_MAX_SZ, TMPFS_L1_SZ, TMPFS_L2_SZ, TMPFS_PAGE_SIZE in Hk; zlia).
  unfold fbyte. rewrite E1 by done. cbv zeta. destruct (Z.eqb_spec (pga ip st (k / 4096)) 0) as [|Hne]; [done|]. by rewrite E2.
Qed.

Lemma pg_split p : 0 <= p < 4096 -> 0 <= p / 64 < 64 /\ 0 <= p mod 64 < 64.
Proof. intros. zlia. Qed.

(** ** Page lookup *)

Lemma pg_get_lookup ip st p : 0 <= p < 4096 -> pg_get ip st p false = Some (pga ip st p, ip, st).
Proof.
  intros Hp. destruct (pg_split p Hp). unfold pg_get, TMPFS_L1_SZ, TMPFS_L2_SZ. rewrite (proj2 (Z.leb_gt _ _)) by lia.
  unfold ensure_l2, pga. destruct (Z.eqb_spec (pg_l1 ip (p / 64)) 0) as [E|E]; cbn [negb mbind option_bind]; [done|].
  rewrite (proj2 (Z.eqb_neq _ _) E). unfold ensure_page.
  destruct (Z.eqb_spec (tables st (pg_l1 ip (p / 64)) (p mod 64)) 0) as [->|]; done.
Qed.

(** A fresh, empty table of page pointers. *)
Lemma new_table ip st live l1 h t :
  file_ok ip st live -> 0 <= l1 < 64 -> pg_l1 ip l1 = 0 -> t <> 0 -> t ∉ live -> al_inv h ({[t]} ∪ live) ->
  let ip' := set_l1 (upd (pg_l1 ip) l1 t) ip in
  let st' := Store h (upd (tables st) t (fun _ => 0)) (pages st) in
  evolved ip st live ip' st' ({[t]} ∪ live) (fbyte ip st).
Proof.
  intros [F1 F2 F3 F4 F5 F6] Hl E0 Ht Hnew Hh ip' st'.
  assert (Hpga : forall p, 0 <= p < 4096 -> pga ip' st' p = pga ip st p).
  { intros p Hp. destruct (pg_split p Hp) as [Hi _]. unfold pga, ip', st'. cbn [pg_l1 set_l1 tables]. unfold upd at 1 3.
    destruct (Z.eqb_spec (p / 64) l1) as [->|Hne].
    - rewrite E0, (proj2 (Z.eqb_neq t 0) Ht). by rewrite upd_eq.
    - destruct (Z.eqb_spec (pg_l1 ip (p / 64)) 0) as [|Hn]; [done|]. rewrite upd_ne; [done|]. intros E. apply Hnew. rewrite <- E. by apply F2. }
  assert (Hl1 : forall i, 0 <= i < 64 -> pg_l1 ip' i = pg_l1 ip i \/ (i = l1 /\ pg_l1 ip' i = t)).
  { intros i Hi. unfold ip', set_l1, upd. cbn. destruct (Z.eqb_spec i l1); auto. }
  constructor.
  - constructor; [done|..].
    + intros i Hi. destruct (Hl1 i Hi) as [->|[_ ->]]; [intros; apply elem_of_union_r; by apply F2|set_solver].
    + intros i j Hi Hj. destruct (Hl1 i Hi) as [Ei|[-> Ei]], (Hl1 j Hj) as [Ej|[-> Ej]]; rewrite ?Ei, ?Ej; intros Hn E.
      * by apply F3.
      * exfalso. apply Hnew. rewrite <- E. by apply F2.
      * exfalso. apply Hnew. rewrite E. apply F2; congruence.
      * done.
    + intros p Hp. rewrite Hpga by done. intros. apply elem_of_union_r. by apply F4.
    + intros p q Hp Hq. rewrite !Hpga by done. by apply F5.
    + intros i p Hi Hp. rewrite Hpga by done. destruct (Hl1 i Hi) as [->|[_ ->]]; [by apply F6|]. intros _ E.
      apply Hnew. rewrite E. apply F4; congruence.
  - split.
    + intros a Ha Ho. assert (a <> t) by (by intros ->). split_and!; [set_solver|unfold st'; cbn; by apply upd_ne|done|].
      intros [Hn [(i & Hi & E)|(p & Hp & E)]]; apply Ho; split; [done|left|done|right].
      * exists i. destruct (Hl1 i Hi) as [E'|[_ E']]; [by rewrite <- E'|congruence].
      * exists p. split; [done|]. by rewrite <- Hpga.
    + intros a Ha Ho. assert (a <> t) by (intros ->; apply Ho; split; [done|left]; exists l1; split; [done|apply upd_eq]).
      split; [set_solver|]. intros [Hn [(i & Hi & E)|(p & Hp & E)]]; apply Ho; split; [done|left|done|right].
      * exists i. split; [done|]. destruct (Hl1 i Hi) as [->|[-> _]]; [done|congruence].
      * exists p. split; [done|]. by rewrite Hpga.
  - by destruct ip.
  - by apply fbyte_same.
Qed.

(** Setting the entry of page [p0] in its table [t]. *)
Lemma pga_entry ip st live p0 t v h pgs q :
  file_ok ip st live -> 0 <= p0 < 4096 -> 0 <= q < 4096 -> pg_l1 ip (p0 / 64) = t -> t <> 0 ->
  pga ip (Store h (upd (tables st) t (upd (tables st t) (p0 mod 64) v)) pgs) q = if q =? p0 then v else pga ip st q.
Proof.
  intros [F1 F2 F3 F4 F5 F6] Hp Hq Et Ht. destruct (pg_split p0 Hp), (pg_split q Hq). unfold pga. cbn [tables].
  destruct (Z.eqb_spec q p0) as [->|Hne].
  - rewrite Et, (proj2 (Z.eqb_neq t 0) Ht), !upd_eq. done.
  - destruct (Z.eqb_spec (pg_l1 ip (q / 64)) 0) as [|Hn]; [done|].
    destruct (Z.eq_dec (pg_l1 ip (q / 64)) t) as [E|E]; [|by rewrite upd_ne].
    rewrite E, upd_eq. rewrite upd_ne; [done|]. intros Em.
    assert (q / 64 = p0 / 64) by (apply F3; [lia|lia|done|congruence]). apply Hne. zlia.
Qed.

(** A fresh, empty page. *)
Lemma new_page ip st live p0 t h pg :
  file_ok ip st live -> 0 <= p0 < 4096 -> pg_l1 ip (p0 / 64) = t -> t <> 0 -> pga ip st p0 = 0 ->
  pg <> 0 -> pg ∉ live -> al_inv h ({[pg]} ∪ live) ->
  let st' := Store h (upd (tables st) t (upd (tables st t) (p0 mod 64) pg)) (upd (pages st) pg (fun _ => 0)) in
  evolved ip st live ip st' ({[pg]} ∪ live) (fbyte ip st) /\ pga ip st' p0 = pg.
Proof.
  intros F Hp Et Ht E0 Hpg Hnew Hh st'. destruct (pg_split p0 Hp) as [Hi0 _].
  assert (Hpga : forall q, 0 <= q < 4096 -> pga ip st' q = if q =? p0 then pg else pga ip st q)
    by (intros q Hq; by apply (pga_entry ip st live p0)).
  destruct F as [F1 F2 F3 F4 F5 F6]. split; [|rewrite Hpga, Z.eqb_refl by done; done].
  constructor; [constructor|..].
  - done.
  - intros i Hi Hn. apply elem_of_union_r. by apply F2.
  - done.
  - intros p Hq. rewrite Hpga by done. destruct (p =? p0); [set_solver|]. intros. apply elem_of_union_r. by apply F4.
  - intros p q Hq Hq'. rewrite !Hpga by done. destruct (Z.eqb_spec p p0) as [->|], (Z.eqb_spec q p0) as [->|]; intros Hn E; [done|..].
    + exfalso. apply Hnew. rewrite E. apply F4; congruence.
    + exfalso. apply Hnew. rewrite <- E. by apply F4.
    + by apply F5.
  - intros i p Hi Hq. rewrite Hpga by done. destruct (p =? p0); [|by apply F6]. intros Hn E. apply Hnew. rewrite <- E. by apply F2.
  - split.
    + intros a Ha Ho. assert (a <> pg) by (by intros ->).
      assert (a <> t) by (intros ->; apply Ho; split; [done|left; by exists (p0 / 64)]).
      split_and!; [set_solver|unfold st'; cbn; by apply upd_ne|unfold st'; cbn; by apply upd_ne|].
      intros [Hn [Hi|(p & Hq & E)]]; apply Ho; split; [done|by left|done|right]. exists p. split; [done|].
      rewrite Hpga in E by done. by destruct (p =? p0).
    + intros a Ha Ho. assert (a <> pg) by (intros ->; apply Ho; split; [done|right]; exists p0; split; [done|]; by rewrite Hpga, Z.eqb_refl).
      split; [set_solver|]. intros [Hn [Hi|(p & Hq & E)]]; apply Ho; split; [done|by left|done|right]. exists p. split; [done|].
      rewrite Hpga by done. destruct (Z.eqb_spec p p0) as [->|]; congruence.
  - by destruct ip.
  - intros k Hk. unfold fbyte. assert (Hq : 0 <= k / 4096 < 4096) by (unfold TMPFS_MAX_SZ, TMPFS_L1_SZ, TMPFS_L2_SZ, TMPFS_PAGE_SIZE in Hk; zlia).
    rewrite Hpga by done. unfold st'. cbn [pages]. cbv zeta. destruct (Z.eqb_spec (k / 4096) p0) as [->|].
    + rewrite E0, (proj2 (Z.eqb_neq pg 0) Hpg). cbn [Z.eqb]. by rewrite upd_eq.
    + destruct (Z.eqb_spec (pga ip st (k / 4096)) 0) as [_|Hn]; [done|].
      rewrite upd_ne; [done|]. intros E. apply Hnew. rewrite <- E. by apply F4.
Qed.

(** A step of the heap that leaves the file's pages where they are. *)
Lemma evolved_same ip st live ip' st' :
  file_ok ip st live -> ip' = set_l1 (pg_l1 ip') ip -> al_inv (heap st') live ->
  (forall i, 0 <= i < 64 -> pg_l1 ip' i = pg_l1 ip i) -> (forall p, 0 <= p < 4096 -> pga ip' st' p = pga ip st p) ->
  pages st' = pages st -> (forall a, ~ owns ip st a -> tables st' a = tables st a) ->
  evolved ip st live ip' st' live (fbyte ip st).
Proof.
  intros [F1 F2 F3 F4 F5 F6] Hip Hh El Ep Epg Etb. constructor; [constructor|..]; try done.
  - intros i Hi. rewrite El by done. by apply F2.
  - intros i j Hi Hj. rewrite !El by done. by apply F3.
  - intros q Hq. rewrite Ep by done. by apply F4.
  - intros q q' Hq Hq'. rewrite !Ep by done. by apply F5.
  - intros i q Hi Hq. rewrite El, Ep by done. by apply F6.
  - assert (Hown : forall a, owns ip' st' a <-> owns ip st a).
    { intros a. unfold owns. split; (intros [Hn [(i & Hi & Ei)|(q & Hq & Eq)]]; split; [done|left|done|right]);
        [exists i|exists q|exists i|exists q]; (split; [done|]); rewrite ?El, ?Ep in *; done. }
    split; intros a Ha Ho; rewrite Hown in *; [|done]. split_and!; [done|by apply Etb|by rewrite Epg|done].
  - apply fbyte_same; [done|]. intros. by rewrite Epg.
Qed.

Lemma ensure_l2_alloc ip st live i : file_ok ip st live -> 0 <= i < 64 ->
  exists t ip' st' live', ensure_l2 ip st i true = Some (t, ip', st') /\
    evolved ip st live ip' st' live' (fbyte ip st) /\ pg_l1 ip' i = t.
Proof using AL.
  intros F Hi. unfold ensure_l2. destruct (Z.eqb_spec (pg_l1 ip i) 0) as [E|E]; cbn [negb].
  2:{ by exists (pg_l1 ip i), ip, st, live; split_and!; [|apply fevolved_id|]. }
  destruct (al_alloc_law (heap st) live (TMPFS_L2_SZ * 8) (fo_heap _ _ _ F) ltac:(by vm_compute))
    as (h & t & -> & [[-> Hh]|(Ht & _ & _ & Hnew & Hh)]); cbn [mbind option_bind].
  - exists 0, (set_l1 (upd (pg_l1 ip) i 0) ip), (Store h (tables st) (pages st)), live. split_and!; [done| |apply upd_eq].
    assert (El : forall j, upd (pg_l1 ip) i 0 j = pg_l1 ip j) by (intros j; unfold upd; destruct (Z.eqb_spec j i) as [->|]; congruence).
    apply evolved_same; try done; [intros j _; apply El|].
    intros q Hq. unfold pga. cbn [pg_l1 set_l1 tables]. by rewrite El.
  - rewrite (proj2 (Z.eqb_neq t 0) Ht). eexists t, _, _, _. split; [reflexivity|]. split; [by apply new_table|apply upd_eq].
Qed.

Lemma ensure_page_alloc ip st live p t : file_ok ip st live -> 0 <= p < 4096 -> pg_l1 ip (p / 64) = t -> t <> 0 ->
  exists pg st' live', ensure_page ip st t (p mod 64) true = Some (pg, ip, st') /\
    evolved ip st live ip st' live' (fbyte ip st) /\ (pg <> 0 -> pga ip st' p = pg).
Proof using AL.
  intros F Hp Et Ht. unfold ensure_page.
  assert (Epga : pga ip st p = tables st t (p mod 64)) by (unfold pga; by rewrite Et, (proj2 (Z.eqb_neq t 0) Ht)).
  destruct (Z.eqb_spec (tables st t (p mod 64)) 0) as [E|E]; cbn [negb].
  2:{ exists (tables st t (p mod 64)), st, live. by split_and!; [|apply fevolved_id|]. }
  destruct (al_alloc_law (heap st) live TMPFS_PAGE_SIZE (fo_heap _ _ _ F) ltac:(by vm_compute))
    as (h & pg & -> & [[-> Hh]|(Hpg & _ & _ & Hnew & Hh)]); cbn [mbind option_bind].
  - eexists 0, _, live. split; [reflexivity|]. split; [|done]. apply evolved_same; try done; [by destruct ip|..].
    + intros q Hq. rewrite (pga_entry ip st live p t) by done. destruct (Z.eqb_spec q p) as [->|]; congruence.
    + intros a Ho. cbn. apply upd_ne. intros ->. apply Ho. split; [done|]. left. exists (p / 64). split; [zlia|done].
  - rewrite (proj2 (Z.eqb_neq pg 0) Hpg).
    destruct (new_page ip st live p t h pg F Hp Et Ht ltac:(congruence) Hpg Hnew Hh) as [E2 Eg].
    eexists pg, _, _. split; [reflexivity|]. by split.
Qed.

(** [pg_get] with allocation: the page, or 0 when the heap is exhausted. *)
Lemma pg_get_alloc ip st live p : file_ok ip st live -> 0 <= p < 4096 ->
  exists pg ip' st' live', pg_get ip st p true = Some (pg, ip', st') /\ evolved ip st live ip' st' live' (fbyte ip st) /\
    (pg <> 0 -> pga ip' st' p = pg).
Proof using AL.
  intros F Hp. destruct (pg_split p Hp) as [Hi Hj]. unfold pg_get, TMPFS_L1_SZ. rewrite (proj2 (Z.leb_gt _ _)) by (unfold TMPFS_L2_SZ; lia).
  destruct (ensure_l2_alloc ip st live (p / 64) F Hi) as (t & ip1 & st1 & live1 & E & E1 & Et). unfold TMPFS_L2_SZ. rewrite E.
  cbn [mbind option_bind]. destruct (Z.eqb_spec t 0) as [->|Ht]; [by exists 0, ip1, st1, live1|].
  destruct (ensure_page_alloc ip1 st1 live1 p t (ev_ok _ _ _ _ _ _ _ E1) Hp Et Ht) as (pg & st2 & live2 & -> & E2 & Eg).
  exists pg, ip1, st2, live2. split; [done|]. split; [|done].
  eapply fevolved_ext; [|exact (fevolved_trans _ _ _ _ _ _ _ _ _ _ _ E1 E2)]. intros k Hk. by apply (ev_bytes _ _ _ _ _ _ _ E1).
Qed.

(** ** Stores into a page *)

Lemma page_of k : 0 <= k < TMPFS_MAX_SZ -> 0 <= k / 4096 < 4096 /\ 0 <= k mod 4096 < 4096.
Proof. unfold TMPFS_MAX_SZ, TMPFS_L1_SZ, TMPFS_L2_SZ, TMPFS_PAGE_SIZE. intros. zlia. Qed.

(** Replacing the contents of page [p] by [f]. *)
Lemma page_store ip st live p (f : Z -> Z) :
  file_ok ip st live -> 0 <= p < 4096 -> pga ip st p <> 0 ->
  evolved ip st live ip (Store (heap st) (tables st) (upd (pages st) (pga ip st p) f)) live
    (fun k => if k / 4096 =? p then f (k mod 4096) else fbyte ip st k).
Proof.
  intros F Hp Hne. constructor.
  - destruct F. by constructor.
  - split; [|done]. intros a Ha Ho. split_and!; [done|done| |done]. cbn. apply upd_ne. intros ->. apply Ho. split; [done|]. right. by exists p.
  - by destruct ip.
  - intros k Hk. destruct (page_of k Hk) as [Hq _]. unfold fbyte. cbn [pages].
    change (pga ip (Store (heap st) (tables st) (upd (pages st) (pga ip st p) f)) (k / 4096)) with (pga ip st (k / 4096)). cbv zeta.
    destruct (Z.eqb_spec (k / 4096) p) as [->|Hn]; [by rewrite (proj2 (Z.eqb_neq _ _) Hne), upd_eq|].
    destruct (Z.eqb_spec (pga ip st (k / 4096)) 0); [done|]. rewrite upd_ne; [done|]. intros E. apply Hn. by apply (fo_pg_inj _ _ _ F).
Qed.

(** ** The write loop *)

(** [f] with [d] put at [off]. *)
Definition patch (off : Z) (d : list Z) (f : Z -> Z) : Z -> Z :=
  fun k => if (off <=? k) && (k <? off + Z.of_nat (length d)) then nth (Z.to_nat (k - off)) d 0 else f k.

Lemma patch_nil off f k : patch off [] f k = f k.
Proof. unfold patch. cbn [length]. destruct (Z.leb_spec off k), (Z.ltb_spec k (off + Z.of_nat 0)); (done || lia). Qed.

Lemma patch_app off d1 d2 f k : patch (off + Z.of_nat (length d1)) d2 (patch off d1 f) k = patch off (d1 ++ d2) f k.
Proof.
  unfold patch. rewrite length_app.
  destruct (Z.leb_spec (off + Z.of_nat (length d1)) k), (Z.ltb_spec k (off + Z.of_nat (length d1) + Z.of_nat (length d2))),
    (Z.leb_spec off k), (Z.ltb_spec k (off + Z.of_nat (length d1))), (Z.ltb_spec k (off + Z.of_nat (length d1 + length d2)));
    cbn [andb]; try lia; try done.
  - rewrite app_nth2 by lia. f_equal. lia.
  - rewrite app_nth1 by lia. done.
Qed.

(** The bytes handled by an iteration at [off], and the iterations a
    request needs. *)
Definition step_len (off rem : Z) : Z := Z.min (4096 - off mod 4096) rem.
Definition steps (off rem : Z) : Z := if rem <=? 0 then 0 else (off + rem - 1) / 4096 - off / 4096 + 1.

Lemma pg_chunk_eq off rem : pg_chunk off rem = step_len off rem.
Proof.
  unfold pg_chunk, step_len, TMPFS_PAGE_SIZE. destruct (Z.ltb_spec rem (4096 - off mod 4096)); lia.
Qed.

Lemma steps_next off rem : 0 <= off -> 0 < rem ->
  0 < step_len off rem <= rem /\ off mod 4096 + step_len off rem <= 4096 /\
  steps (off + step_len off rem) (rem - step_len off rem) = steps off rem - 1.
Proof.
  intros Ho Hr. unfold step_len, steps. pose proof (Z.mod_pos_bound off 4096 ltac:(lia)).
  rewrite (proj2 (Z.leb_gt rem 0)) by lia. destruct (Z.leb_spec (rem - Z.min (4096 - off mod 4096) rem) 0); split_and!; zlia.
Qed.

Lemma steps_fuel off rem : 0 <= off -> 0 <= rem -> 0 <= steps off rem < Z.of_nat (loop_fuel rem).
Proof. intros Ho Hr. unfold steps, loop_fuel, TMPFS_PAGE_SIZE. destruct (Z.leb_spec rem 0); zlia. Qed.

(** One iteration's store. *)
Lemma step_patch f (pg : Z -> Z) off d k :
  0 <= off -> 0 <= k -> off mod 4096 + Z.of_nat (length d) <= 4096 ->
  (k / 4096 = off / 4096 -> pg (k mod 4096) = f k) ->
  (if k / 4096 =? off / 4096 then put_bytes pg (off mod 4096) d (k mod 4096) else f k) = patch off d f k.
Proof.
  intros Ho Hk Hd Hpg. unfold put_bytes, patch. pose proof (Z.mod_pos_bound off 4096 ltac:(lia)). pose proof (Z.mod_pos_bound k 4096 ltac:(lia)).
  pose proof (Z.div_mod off 4096 ltac:(lia)). pose proof (Z.div_mod k 4096 ltac:(lia)).
  destruct (Z.eqb_spec (k / 4096) (off / 4096)) as [E|E].
  - specialize (Hpg E). destruct (Z.leb_spec (off mod 4096) (k mod 4096)), (Z.leb_spec off k); try lia; cbn [andb]; try exact Hpg.
    destruct (Z.ltb_spec (k mod 4096) (off mod 4096 + Z.of_nat (length d))), (Z.ltb_spec k (off + Z.of_nat (length d))); try lia; try exact Hpg.
    f_equal. lia.
  - destruct (Z.leb_spec off k), (Z.ltb_spec k (off + Z.of_nat (length d))); cbn [andb]; (done || lia).
Qed.

Lemma write_loop_spec fuel : forall ip st live cur data,
  file_ok ip st live -> 0 <= cur -> cur + Z.of_nat (length data) <= TMPFS_MAX_SZ -> steps cur (Z.of_nat (length data)) < Z.of_nat fuel ->
  exists (ok : bool) n ip' st' live', write_loop fuel ip st cur data = Some (ok, cur + Z.of_nat n, ip', st') /\
    (n <= length data)%nat /\ (ok = true -> n = length data) /\
    evolved ip st live ip' st' live' (patch cur (take n data) (fbyte ip st)).
Proof using AL.
  induction fuel as [|fuel IH]; intros ip st live cur data F Hc Hm Hf.
  { unfold steps in Hf. destruct (Z.leb_spec (Z.of_nat (length data)) 0); zlia. }
  assert (Hmax : TMPFS_MAX_SZ = 16777216) by reflexivity. cbn [write_loop]. destruct data as [|c data'].
  { exists true, 0%nat, ip, st, live. rewrite Z.add_0_r. split_and!; [done|done|done|].
    eapply fevolved_ext; [|by apply fevolved_id]. intros k _. by rewrite patch_nil. }
  set (data := c :: data') in *. assert (Hlen : 0 < Z.of_nat (length data)) by (cbn; lia).
  destruct (steps_next cur (Z.of_nat (length data)) Hc Hlen) as (S1 & S2 & S3). rewrite pg_chunk_eq.
  set (n := step_len cur (Z.of_nat (length data))) in *. unfold TMPFS_PAGE_SIZE.
  assert (Hp : 0 <= cur / 4096 < 4096) by zlia. rewrite (u32_small (cur / 4096)) by lia.
  destruct (pg_get_alloc ip st live (cur / 4096) F Hp) as (pg & ip1 & st1 & live1 & -> & E1 & Eg). cbn [mbind option_bind].
  destruct (Z.eqb_spec pg 0) as [->|Hpg].
  { exists false, 0%nat, ip1, st1, live1. rewrite Z.add_0_r. split_and!; [done|lia|done|].
    eapply fevolved_ext; [|exact E1]. intros k _. by rewrite patch_nil. }
  specialize (Eg Hpg). pose proof (page_store ip1 st1 live1 (cur / 4096)
    (put_bytes (pages st1 pg) (cur mod 4096) (take (Z.to_nat n) data)) (ev_ok _ _ _ _ _ _ _ E1) Hp ltac:(congruence)) as E2. rewrite Eg in E2.
  pose proof (fevolved_trans _ _ _ _ _ _ _ _ _ _ _ E1 E2) as E12.
  assert (Hln : length (take (Z.to_nat n) data) = Z.to_nat n) by (rewrite length_take; lia).
  apply (fevolved_ext _ _ _ _ _ _ _ (patch cur (take (Z.to_nat n) data) (fbyte ip st))) in E12.
  2:{ intros k Hk. rewrite (ev_bytes _ _ _ _ _ _ _ E1) by done. apply step_patch; [done|lia|rewrite Hln; lia|]. intros E.
      rewrite <- (ev_bytes _ _ _ _ _ _ _ E1) by done. unfold fbyte. rewrite E, Eg. cbv zeta. by rewrite (proj2 (Z.eqb_neq pg 0) Hpg). }
  rewrite (u64_small (cur + n)) by lia.
  destruct (IH _ _ _ (cur + n) (drop (Z.to_nat n) data) (ev_ok _ _ _ _ _ _ _ E12)) as (ok & m & ip' & st' & live' & -> & Hle & Hok & E3);
    [lia|rewrite length_drop; lia|rewrite length_drop; replace (Z.of_nat (length data - Z.to_nat n)) with (Z.of_nat (length data) - n) by lia; lia|].
  rewrite length_drop in Hle, Hok. exists ok, (Z.to_nat n + m)%nat, ip', st', live'. split_and!; [do 4 f_equal; lia|lia|intros Ho; specialize (Hok Ho); lia|].
  eapply fevolved_ext; [|exact (fevolved_trans _ _ _ _ _ _ _ _ _ _ _ E12 E3)]. intros k Hk.
  replace (take (Z.to_nat n + m) data) with (take (Z.to_nat n) data ++ take m (drop (Z.to_nat n) data)) by (by rewrite take_take_drop).
  rewrite <- patch_app, Hln. replace (Z.of_nat (Z.to_nat n)) with n by lia.
  unfold patch at 1 2. destruct (_ && _); [done|]. by apply (ev_bytes _ _ _ _ _ _ _ E12).
Qed.

(** ** The read loop *)

Lemma seq_bytes (f : Z -> Z) a b c : map (fun i => f (a + Z.of_nat i)) (seq 0 (b + c))
  = map (fun i => f (a + Z.of_nat i)) (seq 0 b) ++ map (fun i => f (a + Z.of_nat b + Z.of_nat i)) (seq 0 c).
Proof.
  revert a. induction b as [|b IH]; intros a; cbn [Nat.add seq map app].
  - apply map_ext. intros i. f_equal. lia.
  - f_equal. rewrite <- !seq_shift, !map_map.
    transitivity (map (fun i => f (a + 1 + Z.of_nat i)) (seq 0 (b + c))); [apply map_ext; intros i; f_equal; lia|].
    rewrite IH. f_equal; apply map_ext; intros i; f_equal; lia.
Qed.

Lemma map_zeros n : forall a, map (fun _ => 0) (seq a n) = replicate n 0.
Proof. induction n as [|n IH]; intros a; cbn; [done|]. by rewrite IH. Qed.

Lemma read_loop_spec ip st fuel : forall off rem acc, 0 <= off -> 0 <= rem -> off + rem <= TMPFS_MAX_SZ -> steps off rem < Z.of_nat fuel ->
  read_loop fuel ip st off rem acc = Some (acc ++ map (fun i => fbyte ip st (off + Z.of_nat i)) (seq 0 (Z.to_nat rem))).
Proof.
  assert (Hmax : TMPFS_MAX_SZ = 16777216) by reflexivity.
  induction fuel as [|fuel IH]; intros off rem acc Ho Hr Hm Hf.
  { unfold steps in Hf. destruct (Z.leb_spec rem 0); zlia. }
  cbn [read_loop]. destruct (Z.eqb_spec rem 0) as [->|Hne]; [by rewrite app_nil_r|].
  destruct (steps_next off rem Ho ltac:(lia)) as (S1 & S2 & S3). rewrite pg_chunk_eq. set (n := step_len off rem) in *. unfold TMPFS_PAGE_SIZE.
  assert (Hp : 0 <= off / 4096 < 4096) by zlia. rewrite (u32_small (off / 4096)) by lia.
  rewrite pg_get_lookup by done. cbn [mbind option_bind]. rewrite (u64_small (off + n)) by lia. rewrite IH by lia. f_equal.
  rewrite <- app_assoc. f_equal. replace (Z.to_nat rem) with (Z.to_nat n + Z.to_nat (rem - n))%nat by lia.
  rewrite seq_bytes. replace (Z.of_nat (Z.to_nat n)) with n by lia. f_equal.
  assert (Hb : forall i, (i < Z.to_nat n)%nat -> (off + Z.of_nat i) / 4096 = off / 4096 /\ (off + Z.of_nat i) mod 4096 = off mod 4096 + Z.of_nat i).
  { clear - Ho S1 S2. intros i Hi. pose proof (Z.div_mod off 4096 ltac:(lia)). pose proof (Z.mod_pos_bound off 4096 ltac:(lia)).
    split; symmetry; [apply Z.div_unique with (off mod 4096 + Z.of_nat i)|apply Z.mod_unique with (off / 4096)]; lia. }
  unfold fbyte. destruct (Z.eqb_spec (pga ip st (off / 4096)) 0) as [E|E].
  - symmetry. transitivity (map (fun _ => 0) (seq 0 (Z.to_nat n))).
    + apply map_ext_in. intros i Hi%in_seq. destruct (Hb i ltac:(lia)) as [-> _]. by rewrite E.
    + apply map_zeros.
  - unfold page_bytes. apply map_ext_in. intros i Hi%in_seq. destruct (Hb i ltac:(lia)) as [-> ->]. by rewrite (proj2 (Z.eqb_neq _ _) E).
Qed.

(** ** Freeing pages *)

(** Unhooking and freeing page [p0]. *)
Lemma drop_page ip st live p0 t h :
  file_ok ip st live -> 0 <= p0 < 4096 -> pg_l1 ip (p0 / 64) = t -> t <> 0 -> pga ip st p0 <> 0 -> al_inv h (live ∖ {[pga ip st p0]}) ->
  let st' := Store h (upd (tables st) t (upd (tables st t) (p0 mod 64) 0)) (pages st) in
  file_ok ip st' (live ∖ {[pga ip st p0]}) /\ framed ip st live ip st' (live ∖ {[pga ip st p0]}) /\
  forall q, 0 <= q < 4096 -> pga ip st' q = if q =? p0 then 0 else pga ip st q.
Proof.
  intros F Hp Et Ht Hne Hh st'.
  assert (Hpga : forall q, 0 <= q < 4096 -> pga ip st' q = if q =? p0 then 0 else pga ip st q) by (intros q Hq; by apply (pga_entry ip st live p0)).
  destruct F as [F1 F2 F3 F4 F5 F6]. split; [constructor|split; [|done]].
  - done.
  - intros i Hi Hn. apply elem_of_difference. split; [by apply F2|]. rewrite elem_of_singleton. by apply F6.
  - done.
  - intros q Hq. rewrite Hpga by done. destruct (Z.eqb_spec q p0); [done|]. intros Hn. apply elem_of_difference. split; [by apply F4|].
    rewrite elem_of_singleton. intros E. by apply F5 in E.
  - intros q q' Hq Hq'. rewrite !Hpga by done. destruct (Z.eqb_spec q p0), (Z.eqb_spec q' p0); intros Hn E; try done. by apply F5.
  - intros i q Hi Hq. rewrite Hpga by done. destruct (q =? p0); [done|]. by apply F6.
  - split.
    + intros a Ha Ho. assert (a <> pga ip st p0) by (intros ->; apply Ho; split; [done|]; right; by exists p0).
      assert (a <> t) by (intros ->; apply Ho; split; [done|]; left; exists (p0 / 64); split; [zlia|done]).
      split_and!; [set_solver|unfold st'; cbn; by apply upd_ne|done|].
      intros [Hn [Hi|(q & Hq & E)]]; apply Ho; split; [done|by left|done|right]. exists q. split; [done|].
      rewrite Hpga in E by done. by destruct (q =? p0).
    + intros a [Ha Hne']%elem_of_difference Ho. rewrite elem_of_singleton in Hne'. split; [done|].
      intros [Hn [Hi|(q & Hq & E)]]; apply Ho; split; [done|by left|done|right]. exists q. split; [done|].
      rewrite Hpga by done. destruct (Z.eqb_spec q p0) as [->|]; congruence.
Qed.

Lemma trunc_loop_spec ip n : forall p st live, file_ok ip st live -> 0 <= p -> p + Z.of_nat n <= 4096 ->
  exists st' live', trunc_loop n p ip st = Some st' /\ file_ok ip st' live' /\ framed ip st live ip st' live' /\ pages st' = pages st /\
    forall q, 0 <= q < 4096 -> pga ip st' q = if (p <=? q) && (q <? p + Z.of_nat n) then 0 else pga ip st q.
Proof using AL.
  induction n as [|n IH]; intros p st live F Hp Hn.
  { exists st, live. split_and!; [done|done|apply framed_refl|done|]. intros q Hq. rewrite Z.add_0_r.
    destruct (Z.leb_spec p q), (Z.ltb_spec q p); (done || lia). }
  cbn [trunc_loop]. destruct (pg_split p ltac:(lia)) as [Hi Hj]. unfold TMPFS_L1_SZ, TMPFS_L2_SZ. rewrite (proj2 (Z.leb_gt 64 _)) by lia. cbn [orb].
  assert (Hstep : exists st1 live1, (if pg_l1 ip (p / 64) =? 0 then Some st else
      if tables st (pg_l1 ip (p / 64)) (p mod 64) =? 0 then Some st else
      st1 ← free_if st (tables st (pg_l1 ip (p / 64)) (p mod 64));
      Some (Store (heap st1) (upd (tables st1) (pg_l1 ip (p / 64)) (upd (tables st1 (pg_l1 ip (p / 64))) (p mod 64) 0)) (pages st1))) = Some st1 /\
    file_ok ip st1 live1 /\ framed ip st live ip st1 live1 /\ pages st1 = pages st /\
    forall q, 0 <= q < 4096 -> pga ip st1 q = if q =? p then 0 else pga ip st q).
  { destruct (Z.eqb_spec (pg_l1 ip (p / 64)) 0) as [E|E].
    { exists st, live. split_and!; [done|done|apply framed_refl|done|]. intros q Hq. destruct (Z.eqb_spec q p) as [->|]; [|done].
      unfold pga. by rewrite E. }
    assert (Epga : pga ip st p = tables st (pg_l1 ip (p / 64)) (p mod 64)) by (unfold pga; by rewrite (proj2 (Z.eqb_neq _ _) E)).
    rewrite <- Epga. destruct (Z.eqb_spec (pga ip st p) 0) as [E0|E0].
    { exists st, live. split_and!; [done|done|apply framed_refl|done|]. intros q Hq. destruct (Z.eqb_spec q p) as [->|]; done. }
    unfold free_if. rewrite (proj2 (Z.eqb_neq _ _) E0).
    destruct (al_free_law (heap st) live (pga ip st p) (fo_heap _ _ _ F) (fo_pg _ _ _ F p ltac:(lia) E0)) as (h & -> & Hh).
    cbn [mbind option_bind heap tables pages]. destruct (drop_page ip st live p _ h F ltac:(lia) eq_refl E E0 Hh) as (D1 & D2 & D3).
    by eexists _, _. }
  destruct Hstep as (st1 & live1 & Es & F1 & Fr1 & Ep1 & Hq1).
  destruct (IH (p + 1) st1 live1 F1 ltac:(lia) ltac:(lia)) as (st2 & live2 & E2 & F2 & Fr2 & Ep2 & Hq2).
  exists st2, live2. split; [|split; [done|split; [|split; [congruence|]]]].
  - destruct (pg_l1 ip (p / 64) =? 0); [injection Es as ->; done|]. rewrite Es. done.
  - by eapply framed_trans.
  - intros q Hq. rewrite Hq2, Hq1 by done. destruct (Z.leb_spec (p + 1) q), (Z.leb_spec p q), (Z.ltb_spec q (p + 1 + Z.of_nat n)),
      (Z.ltb_spec q (p + Z.of_nat (S n))), (Z.eqb_spec q p); cbn [andb]; (done || lia).
Qed.

(** The inner loop of [tmpfs_file_freepages] does on a table what truncation
    does on its pages. *)
Lemma free_table_trunc ip i n : 0 <= i < 64 -> pg_l1 ip i <> 0 -> forall j st, 0 <= j -> j + Z.of_nat n <= 64 ->
  free_table n j (pg_l1 ip i) st = trunc_loop n (i * 64 + j) ip st.
Proof.
  intros Hi Ht. induction n as [|n IH]; intros j st Hj Hn; [done|]. cbn [free_table trunc_loop].
  unfold TMPFS_L1_SZ, TMPFS_L2_SZ. replace ((i * 64 + j) / 64) with i by zlia. replace ((i * 64 + j) mod 64) with j by zlia.
  rewrite (proj2 (Z.leb_gt 64 i)), (proj2 (Z.eqb_neq _ _) Ht) by lia. cbn [orb].
  replace (i * 64 + j + 1) with (i * 64 + (j + 1)) by lia.
  destruct (if tables st (pg_l1 ip i) j =? 0 then _ else _) as [st1|]; [|done]. cbn [mbind option_bind]. apply IH; lia.
Qed.

(** Freeing a table whose pages are gone. *)
Lemma drop_table ip st live i h :
  file_ok ip st live -> 0 <= i < 64 -> pg_l1 ip i <> 0 -> (forall q, q / 64 = i -> pga ip st q = 0) -> al_inv h (live ∖ {[pg_l1 ip i]}) ->
  let ip' := set_l1 (upd (pg_l1 ip) i 0) ip in
  let st' := Store h (tables st) (pages st) in
  file_ok ip' st' (live ∖ {[pg_l1 ip i]}) /\ framed ip st live ip' st' (live ∖ {[pg_l1 ip i]}).
Proof.
  intros [F1 F2 F3 F4 F5 F6] Hi Ht H0 Hh ip' st'.
  assert (Hl : forall j, pg_l1 ip' j = if j =? i then 0 else pg_l1 ip j) by done.
  assert (Hp : forall q, pga ip' st' q = pga ip st q).
  { intros q. unfold pga at 1. rewrite Hl. destruct (Z.eqb_spec (q / 64) i) as [E|E]; [|done]. cbv zeta. symmetry. by apply H0. }
  split; [constructor|].
  - done.
  - intros j Hj. rewrite Hl. destruct (Z.eqb_spec j i); [done|]. intros Hn. apply elem_of_difference. split; [by apply F2|].
    rewrite elem_of_singleton. intros E. by apply F3 in E.
  - intros j k Hj Hk. rewrite !Hl. destruct (Z.eqb_spec j i), (Z.eqb_spec k i); intros Hn E; try done. by apply F3.
  - intros q Hq. rewrite Hp. intros Hn. apply elem_of_difference. split; [by apply F4|]. rewrite elem_of_singleton. intros E. by apply (F6 i q).
  - intros q q' Hq Hq'. rewrite !Hp. by apply F5.
  - intros j q Hj Hq. rewrite Hl, Hp. destruct (j =? i); [done|]. by apply F6.
  - split.
    + intros a Ha Ho. assert (a <> pg_l1 ip i) by (intros ->; apply Ho; split; [done|]; left; by exists i).
      split_and!; [set_solver|done|done|]. intros [Hn [(j & Hj & E)|(q & Hq & E)]]; apply Ho; split; [done|left|done|right].
      * exists j. rewrite Hl in E. split; [done|]. by destruct (j =? i).
      * exists q. by rewrite Hp in E.
    + intros a [Ha Hne]%elem_of_difference Ho. rewrite elem_of_singleton in Hne. split; [done|].
      intros [Hn [(j & Hj & E)|(q & Hq & E)]]; apply Ho; split; [done|left|done|right].
      * exists j. split; [done|]. rewrite Hl. destruct (Z.eqb_spec j i) as [->|]; congruence.
      * exists q. by rewrite Hp.
Qed.

Lemma free_tables_spec n : forall i ip st live, file_ok ip st live -> 0 <= i -> i + Z.of_nat n = 64 ->
  (forall j, 0 <= j < i -> pg_l1 ip j = 0) ->
  exists ip' st' live', free_tables n i ip st = Some (ip', st') /\ file_ok ip' st' live' /\ framed ip st live ip' st' live' /\
    ip' = set_l1 (pg_l1 ip') ip /\ forall j, 0 <= j < 64 -> pg_l1 ip' j = 0.
Proof using AL.
  induction n as [|n IH]; intros i ip st live F Hi Hn Hz; cbn [free_tables].
  { exists ip, st, live. split_and!; [done|done|apply framed_refl|by destruct ip|]. intros j Hj. apply Hz. lia. }
  destruct (Z.eqb_spec (pg_l1 ip i) 0) as [E|E].
  { apply IH; [done|lia|lia|]. intros j Hj. destruct (Z.eq_dec j i) as [->|]; [done|]. apply Hz. lia. }
  rewrite free_table_trunc by (done || (unfold TMPFS_L2_SZ; lia)).
  destruct (trunc_loop_spec ip (Z.to_nat TMPFS_L2_SZ) (i * 64 + 0) st live F) as (st1 & live1 & -> & F1 & Fr1 & Ep & Hp); [lia|unfold TMPFS_L2_SZ; lia|].
  cbn [mbind option_bind]. unfold free_if. rewrite (proj2 (Z.eqb_neq _ _) E).
  destruct (al_free_law (heap st1) live1 (pg_l1 ip i) (fo_heap _ _ _ F1) (fo_tab _ _ _ F1 i ltac:(lia) E)) as (h & -> & Hh). cbn [mbind option_bind].
  destruct (drop_table ip st1 live1 i h F1 ltac:(lia) E) as [F2 Fr2]; [|done|].
  { intros q Hq. rewrite Hp by zlia. unfold TMPFS_L2_SZ. rewrite (proj2 (Z.leb_le _ _)), (proj2 (Z.ltb_lt _ _)) by zlia. done. }
  destruct (IH (i + 1) _ _ _ F2 ltac:(lia) ltac:(lia)) as (ip' & st' & live' & -> & F3 & Fr3 & Eip & Hall).
  { intros j Hj. cbn. unfold upd. destruct (Z.eqb_spec j i); [done|]. apply Hz. lia. }
  exists ip', st', live'. split_and!; [done|done| |by rewrite Eip at 1|done]. eapply framed_trans; [exact Fr1|]. by eapply framed_trans.
Qed.

(** All pages and tables are freed, nothing else is. *)
Lemma freepages_spec ip st live : file_ok ip st live ->
  exists ip' st' live', tmpfs_file_freepages ip st = Some (ip', st') /\ file_ok ip' st' live' /\ framed ip st live ip' st' live' /\
    ip' = set_size 0 (set_l1 (pg_l1 ip') ip) /\ forall b, ~ owns ip' st' b.
Proof using AL.
  intros F. unfold tmpfs_file_freepages.
  destruct (free_tables_spec (Z.to_nat TMPFS_L1_SZ) 0 ip st live F) as (ip' & st' & live' & -> & F1 & Fr & Eip & Hall); [lia|done|lia|].
  cbn [mbind option_bind]. exists (set_size 0 ip'), st', live'. split_and!; [done| | |by rewrite Eip|].
  - destruct F1. by constructor.
  - exact Fr.
  - intros b [Hn [(i & Hi & E)|(p & Hp & E)]]; cbn in E; [by rewrite Hall in E|]. destruct (pg_split p Hp) as [Hi _].
    unfold pga in E. cbn in E. by rewrite Hall in E.
Qed.
End file.
