(* ===== verification/TmpfsProps.v ===== *)
(** * What tmpfs files guarantee

    A regular file refines an array of bytes with a size: every sequence of
    reads, writes and truncations returns what the array returns, takes and
    releases the inode's lock, and leaves all other blocks of the heap
    alone.  Where the heap runs out during a write, the array has received a
    prefix of the data. *)

From stdpp Require Import base gmap list.
From Stdlib Require Import ZArith Lia.
From S2P Require Import Prelude Spinlock Kmalloc Allocator SchedExample Tmpfs TmpfsFile.

(** ** The specification *)

Inductive file_op := FRead (off len : Z) | FWrite (off : Z) (data : list Z) | FTruncate (newsz : Z).
Inductive file_res := RBytes (l : list Z) | RLen (n : Z) | RErr (e : Z).

(** A size and the bytes, those behind the size included. *)
Record array := Array { a_size : Z; a_byte : Z -> Z }.

(** The first multiple of the page size from [n] on. *)
Definition page_up (n : Z) : Z := (n + 4095) / 4096 * 4096.

(** [fail] is [Some n] when memory ran out after [n] bytes of a write. *)
Definition array_op (a : array) (op : file_op) (fail : option nat) : file_res * array :=
  match op with
  | FRead off len => (RBytes (map (fun i => a_byte a (off + Z.of_nat i)) (seq 0 (Z.to_nat (Z.min len (a_size a - off))))), a)
  | FWrite off data =>
      if TMPFS_MAX_SZ <? off + Z.of_nat (length data) then (RErr TMPFS_EFBIG, a) else
      match fail with
      | Some n => (RErr TMPFS_ENOMEM, Array (a_size a) (patch off (take n data) (a_byte a)))
      | None => (RLen (Z.of_nat (length data)), Array (Z.max (a_size a) (off + Z.of_nat (length data))) (patch off data (a_byte a)))
      end
  | FTruncate newsz =>
      if TMPFS_MAX_SZ <? newsz then (RErr TMPFS_EFBIG, a)
      else (RLen 0, Array newsz (fun k => if (newsz <? a_size a) && (newsz <=? k) && (k <? page_up (a_size a)) then 0 else a_byte a k))
  end.

Fixpoint array_ops (a : array) (ops : list file_op) (fails : list (option nat)) : list file_res * array :=
  match ops, fails with
  | op :: ops, f :: fails => let '(r, a) := array_op a op f in let '(rs, a) := array_ops a ops fails in (r :: rs, a)
  | _, _ => ([], a)
  end.

Section props.
Context {A : Type} `{AL : AllocatorLaws A}.
Implicit Types (ip : tmpfs_inode) (st : store (A := A)) (live : gset Z).

(** ** The code *)

Definition run_op ip st (op : file_op) (now : Z) : option (file_res * tmpfs_inode * store (A := A)) :=
  match op with
  | FRead off len => '(r, ip) ← tmpfs_file_read ip st off len now; Some (match r with inl e => RErr e | inr l => RBytes l end, ip, st)
  | FWrite off data => '(r, ip, st) ← tmpfs_file_write ip st off data now; Some (match r with inl e => RErr e | inr n => RLen n end, ip, st)
  | FTruncate newsz => '(e, ip, st) ← tmpfs_file_truncate ip st newsz now; Some (if e =? TMPFS_OK then RLen 0 else RErr e, ip, st)
  end.

Fixpoint run_ops ip st (ops : list file_op) (now : Z) : option (list file_res * tmpfs_inode * store (A := A)) :=
  match ops with
  | [] => Some ([], ip, st)
  | op :: ops => '(r, ip, st) ← run_op ip st op now; '(rs, ip, st) ← run_ops ip st ops now; Some (r :: rs, ip, st)
  end.

(** ** The relation *)

Definition lock_free (l : spinlock) : Prop := now_serving l = next_ticket l /\ 0 <= now_serving l < 65536.

Lemma lock_cycle l : lock_free l -> exists l', spin_lock l = Some l' /\ lock_free (spin_unlock l').
Proof.
  destruct l as [s t]. intros [E Hr]. cbn in E, Hr. subst t. unfold spin_lock. cbn. rewrite Z.eqb_refl. eexists. split; [reflexivity|].
  split; [done|]. apply u16_range.
Qed.

Record frel (a : array) ip st live : Prop := {
  fr_ok : file_ok ip st live;
  fr_lock : lock_free (i_lock ip);
  fr_type : i_type ip = TMPFS_T_REG;
  fr_size : i_size ip = a_size a;
  fr_max : 0 <= a_size a <= TMPFS_MAX_SZ;
  fr_bytes : forall k, 0 <= k < TMPFS_MAX_SZ -> fbyte ip st k = a_byte a k }.

(** Requests whose end can be computed in 64 bits. *)
Definition op_ok (op : file_op) : Prop :=
  match op with
  | FRead off len => 0 <= off /\ 0 <= len /\ off + len < 2 ^ 64
  | FWrite off data => 0 <= off /\ off + Z.of_nat (length data) < 2 ^ 64
  | FTruncate newsz => 0 <= newsz
  end.

(** Fields other than the page table do not matter to the pages. *)
Lemma file_ok_inode ip ip' st live : pg_l1 ip' = pg_l1 ip -> file_ok ip st live -> file_ok ip' st live.
Proof. intros E [F1 F2 F3 F4 F5 F6]. unfold pga in *. constructor; unfold pga; rewrite ?E; done. Qed.

Lemma framed_inode ip1 ip2 st live ip1' ip2' st' live' : pg_l1 ip1' = pg_l1 ip1 -> pg_l1 ip2' = pg_l1 ip2 ->
  framed ip1 st live ip2 st' live' -> framed ip1' st live ip2' st' live'.
Proof. intros E1 E2 Fr. unfold framed, owns, pga in *. by rewrite E1, E2. Qed.

Lemma fbyte_inode ip ip' st k : pg_l1 ip' = pg_l1 ip -> fbyte ip' st k = fbyte ip st k.
Proof. intros E. unfold fbyte, pga. by rewrite E. Qed.

(** ** Operations *)

(** What no file operation changes, and the time of modification. *)
Record kept (ip ip' : tmpfs_inode) (mtime : Z) : Prop := {
  k_ino : i_ino ip' = i_ino ip; k_perm : i_perm ip' = i_perm ip; k_nlink : i_nlink ip' = i_nlink ip; k_ctime : i_ctime ip' = i_ctime ip;
  k_head : de_head ip' = de_head ip; k_count : de_count ip' = de_count ip; k_next : ht_next ip' = ht_next ip; k_mtime : i_mtime ip' = mtime }.

Definition mtime_after (op : file_op) (r : file_res) (now old : Z) : Z :=
  match op, r with FWrite _ _, RLen _ => now | FTruncate _, RLen _ => now | _, _ => old end.

Lemma read_sim a ip st live off len now : frel a ip st live -> op_ok (FRead off len) ->
  exists ip', run_op ip st (FRead off len) now = Some (fst (array_op a (FRead off len) None), ip', st) /\
    frel a ip' st live /\ pg_l1 ip' = pg_l1 ip /\ kept ip ip' (i_mtime ip).
Proof.
  intros [R1 R2 R3 R4 R5 R6] (Ho & Hl & Hw). cbn [run_op array_op fst]. unfold tmpfs_file_read. rewrite R3. cbn [Z.eqb Pos.eqb TMPFS_T_REG negb].
  destruct (lock_cycle _ R2) as (l & -> & Hlf). cbn [mbind option_bind set_lock i_size]. rewrite R4.
  destruct (Z.leb_spec (a_size a) off).
  - eexists. split; [do 4 f_equal; by replace (Z.to_nat (Z.min len (a_size a - off))) with 0%nat by lia|]. split; [|by repeat split].
    constructor; [by apply (file_ok_inode ip)|done|done|done|done|done].
  - rewrite u64_small by lia.
    replace (if a_size a <? off + len then a_size a - off else len) with (Z.min len (a_size a - off))
      by (destruct (Z.ltb_spec (a_size a) (off + len)); lia).
    set (n := Z.min len (a_size a - off)). assert (Hn : 0 <= n /\ off + n <= a_size a) by (unfold n; lia).
    rewrite read_loop_spec; [|lia|lia|lia|by apply steps_fuel; lia]. cbn [mbind option_bind app].
    eexists. split; [do 4 f_equal; apply map_ext_in; intros i Hi%in_seq|].
    + rewrite <- R6 by lia. by apply fbyte_inode.
    + split; [|by repeat split]. constructor; [by apply (file_ok_inode ip)|done|done|done|done|done].
Qed.

Lemma write_sim a ip st live off data now : frel a ip st live -> op_ok (FWrite off data) ->
  exists f ip' st' live', run_op ip st (FWrite off data) now = Some (fst (array_op a (FWrite off data) f), ip', st') /\
    frel (snd (array_op a (FWrite off data) f)) ip' st' live' /\ framed ip st live ip' st' live' /\
    kept ip ip' (mtime_after (FWrite off data) (fst (array_op a (FWrite off data) f)) now (i_mtime ip)).
Proof using AL.
  intros R Hop. pose proof R as [R1 R2 R3 R4 R5 R6]. destruct Hop as (Ho & Hw). cbn [run_op array_op]. unfold tmpfs_file_write.
  rewrite R3. cbn [Z.eqb Pos.eqb TMPFS_T_REG negb]. rewrite u64_small by lia.
  destruct (Z.ltb_spec TMPFS_MAX_SZ (off + Z.of_nat (length data))) as [Hb|Hb].
  { exists None, ip, st, live. split; [done|]. split; [done|]. split; [apply framed_refl|by repeat split]. }
  destruct (lock_cycle _ R2) as (l & -> & Hlf). cbn [mbind option_bind].
  destruct (write_loop_spec (loop_fuel (Z.of_nat (length data))) (set_lock l ip) st live off data) as (ok & n & ip1 & st1 & live1 & -> & Hn & Hok & [E1 E2 E3 E4]);
    [by apply (file_ok_inode ip)|done|done|apply steps_fuel; lia|]. cbn [mbind option_bind].
  assert (El : i_lock ip1 = l) by (by rewrite E3). assert (Et : i_type ip1 = TMPFS_T_REG) by (by rewrite E3).
  assert (Es : i_size ip1 = a_size a) by (by rewrite E3).
  assert (Hby : forall k, 0 <= k < TMPFS_MAX_SZ -> fbyte ip1 st1 k = patch off (take n data) (a_byte a) k).
  { intros k Hk. rewrite E4 by done. unfold patch. destruct (_ && _); [done|]. rewrite <- R6 by done. by apply fbyte_inode. }
  destruct ok; cbn [negb].
  - specialize (Hok eq_refl) as ->. rewrite firstn_all in Hby. set (e := off + Z.of_nat (length data)) in *.
    exists None. set (ip2 := if i_size ip1 <? e then set_size e ip1 else ip1).
    assert (Hip2 : i_lock ip2 = l /\ i_type ip2 = TMPFS_T_REG /\ i_size ip2 = Z.max (a_size a) e /\ pg_l1 ip2 = pg_l1 ip1).
    { unfold ip2. rewrite Es. destruct (Z.ltb_spec (a_size a) e); cbn; split_and!; (done || lia). }
    destruct Hip2 as (P1 & P2 & P3 & P4). eexists (unlock (set_mtime now ip2)), st1, live1. split; [done|]. split; [|split].
    + constructor; cbn [snd a_size a_byte].
      * by apply (file_ok_inode ip1).
      * cbn. rewrite P1. done.
      * done.
      * done.
      * lia.
      * intros k Hk. rewrite <- Hby by done. by apply fbyte_inode.
    + by eapply framed_inode; [| |exact E2].
    + unfold ip2. rewrite E3. destruct (i_size (set_l1 (pg_l1 ip1) (set_lock l ip)) <? e); by repeat split.
  - exists (Some n), (unlock ip1), st1, live1. split; [done|]. split; [|split].
    + constructor; cbn [snd a_size a_byte]; [by apply (file_ok_inode ip1)|cbn; by rewrite El|done|done|done|].
      intros k Hk. rewrite <- Hby by done. by apply fbyte_inode.
    + by eapply framed_inode; [| |exact E2].
    + rewrite E3. by repeat split.
Qed.

Lemma nth_replicate_zero n m : nth n (replicate m 0) 0 = 0.
Proof. revert n. induction m as [|m IH]; intros [|n]; cbn; auto. Qed.

(** The pages behind the new size go and the rest of the last page is
    cleared. *)
Lemma shrink_spec ip st live newsz size : file_ok ip st live -> 0 <= newsz < size -> size <= TMPFS_MAX_SZ ->
  let first := (newsz + 4096 - 1) / 4096 in
  let last := (size + 4096 - 1) / 4096 in
  exists st1 live1, trunc_loop (Z.to_nat (last - first)) first ip st = Some st1 /\ file_ok ip st1 live1 /\
    framed ip st live ip st1 live1 /\
    forall k, 0 <= k < TMPFS_MAX_SZ -> fbyte ip st1 k = if (first <=? k / 4096) && (k <? page_up size) then 0 else fbyte ip st k.
Proof using AL.
  intros F Hn Hs first last. assert (Hmax : TMPFS_MAX_SZ = 16777216) by reflexivity.
  assert (Hfl : 0 <= first <= last /\ last <= 4096) by (unfold first, last; zlia).
  destruct (trunc_loop_spec ip (Z.to_nat (last - first)) first st live F ltac:(lia) ltac:(lia)) as (st1 & live1 & E & F1 & Fr & Ep & Hp).
  exists st1, live1. split_and!; [done|done|done|]. intros k Hk. destruct (page_of k Hk) as [Hk1 _].
  unfold fbyte. cbv zeta. rewrite Hp, Ep by done. replace (first + Z.of_nat (Z.to_nat (last - first))) with last by lia.
  replace (k / 4096 <? last) with (k <? page_up size); [by destruct (_ && _)|].
  unfold page_up. replace (size + 4095) with (size + 4096 - 1) by lia. fold last. apply eq_true_iff_eq. rewrite !Z.ltb_lt. zlia.
Qed.

Lemma tail_spec ip st live newsz : file_ok ip st live -> 0 <= newsz < TMPFS_MAX_SZ ->
  let pg := pga ip st (newsz / 4096) in
  pg <> 0 -> newsz mod 4096 <> 0 ->
  evolved ip st live ip
    (Store (heap st) (tables st) (upd (pages st) pg (put_bytes (pages st pg) (newsz mod 4096) (replicate (Z.to_nat (4096 - newsz mod 4096)) 0)))) live
    (fun k => if (k / 4096 =? newsz / 4096) && (newsz <=? k) then 0 else fbyte ip st k).
Proof.
  intros F Hn pg Hpg Ht. destruct (page_of newsz Hn) as [H1 H2].
  eapply fevolved_ext; [|exact (page_store ip st live (newsz / 4096) _ F H1 Hpg)]. cbv beta. intros k Hk.
  destruct (Z.eqb_spec (k / 4096) (newsz / 4096)) as [E|E]; [|done]. cbn [andb]. unfold put_bytes.
  rewrite length_replicate, Z2Nat.id by lia. destruct (page_of k Hk) as [_ H3].
  replace (newsz mod 4096 + (4096 - newsz mod 4096)) with 4096 by lia. rewrite (proj2 (Z.ltb_lt (k mod 4096) 4096)), andb_true_r by lia.
  replace (newsz mod 4096 <=? k mod 4096) with (newsz <=? k) by (apply eq_true_iff_eq; rewrite !Z.leb_le; zlia).
  destruct (newsz <=? k); [by apply nth_replicate_zero|]. unfold fbyte. fold pg. rewrite E. fold pg. cbv zeta. by rewrite (proj2 (Z.eqb_neq pg 0) Hpg).
Qed.

Lemma clear_spec ip st live newsz size : file_ok ip st live -> 0 <= newsz < size -> size <= TMPFS_MAX_SZ ->
  exists st' live',
    (st1 ← trunc_loop (Z.to_nat ((size + 4096 - 1) / 4096 - (newsz + 4096 - 1) / 4096)) ((newsz + 4096 - 1) / 4096) ip st;
     if newsz mod 4096 =? 0 then Some st1 else
     '(pg, _, st2) ← pg_get ip st1 (newsz / 4096) false;
     if pg =? 0 then Some st2 else
     Some (Store (heap st2) (tables st2) (upd (pages st2) pg (put_bytes (pages st2 pg) (newsz mod 4096)
             (replicate (Z.to_nat (4096 - newsz mod 4096)) 0))))) = Some st' /\
    file_ok ip st' live' /\ framed ip st live ip st' live' /\
    forall k, 0 <= k < TMPFS_MAX_SZ -> fbyte ip st' k = if (newsz <=? k) && (k <? page_up size) then 0 else fbyte ip st k.
Proof using AL.
  intros F Hn Hs. assert (Hmax : TMPFS_MAX_SZ = 16777216) by reflexivity.
  destruct (shrink_spec ip st live newsz size F Hn Hs) as (st1 & live1 & -> & F1 & Fr & Hby). cbn [mbind option_bind].
  destruct (Z.eqb_spec (newsz mod 4096) 0) as [Ht|Ht].
  { exists st1, live1. split_and!; [done|done|done|]. intros k Hk. rewrite Hby by done.
    by replace ((newsz + 4096 - 1) / 4096 <=? k / 4096) with (newsz <=? k) by (apply eq_true_iff_eq; rewrite !Z.leb_le; zlia). }
  assert (Htail : forall k, k / 4096 = newsz / 4096 -> (k <? page_up size) = true) by (intros k E; apply Z.ltb_lt; unfold page_up; zlia).
  assert (Hfirst : forall k, ((newsz + 4096 - 1) / 4096 <=? k / 4096) = negb (k / 4096 =? newsz / 4096) && (newsz <=? k)).
  { intros k. destruct (Z.leb_spec ((newsz + 4096 - 1) / 4096) (k / 4096)), (Z.eqb_spec (k / 4096) (newsz / 4096)), (Z.leb_spec newsz k);
      cbn [negb andb]; (done || zlia). }
  rewrite pg_get_lookup by zlia. cbn [mbind option_bind]. destruct (Z.eqb_spec (pga ip st1 (newsz / 4096)) 0) as [E0|E0].
  - exists st1, live1. split_and!; [done|done|done|]. intros k Hk. rewrite Hby by done.
    destruct (Z.eqb_spec (k / 4096) (newsz / 4096)) as [E|E].
    + specialize (Hby k Hk). rewrite Hfirst, E, Z.eqb_refl in Hby. unfold fbyte at 1 in Hby. rewrite E, E0 in Hby. cbn in Hby.
      rewrite <- Hby. by destruct (_ && _), (_ && _).
    + by rewrite Hfirst, (proj2 (Z.eqb_neq _ _) E).
  - destruct (tail_spec ip st1 live1 newsz F1 ltac:(lia) E0 Ht) as [A1 A2 A3 A4].
    eexists _, live1. split_and!; [reflexivity|done|by eapply framed_trans|]. intros k Hk. rewrite A4, Hby by done.
    rewrite Hfirst. destruct (Z.eqb_spec (k / 4096) (newsz / 4096)) as [E|E]; cbn [negb andb]; [rewrite Htail by done; by destruct (newsz <=? k)|done].
Qed.

Lemma truncate_sim a ip st live newsz now : frel a ip st live -> op_ok (FTruncate newsz) ->
  exists ip' st' live', run_op ip st (FTruncate newsz) now = Some (fst (array_op a (FTruncate newsz) None), ip', st') /\
    frel (snd (array_op a (FTruncate newsz) None)) ip' st' live' /\ framed ip st live ip' st' live' /\
    kept ip ip' (mtime_after (FTruncate newsz) (fst (array_op a (FTruncate newsz) None)) now (i_mtime ip)).
Proof using AL.
  intros R Hn. pose proof R as [R1 R2 R3 R4 R5 R6]. cbn [op_ok] in Hn. assert (Hmax : TMPFS_MAX_SZ = 16777216) by reflexivity.
  cbn [run_op array_op]. unfold tmpfs_file_truncate. rewrite R3. cbn [Z.eqb Pos.eqb TMPFS_T_REG negb].
  destruct (Z.ltb_spec TMPFS_MAX_SZ newsz) as [Hb|Hb].
  { exists ip, st, live. split; [done|]. split; [done|]. split; [apply framed_refl|by repeat split]. }
  destruct (lock_cycle _ R2) as (l & -> & Hlf). cbn [mbind option_bind]. change (i_size (set_lock l ip)) with (i_size ip). rewrite R4.
  set (ip1 := set_lock l ip). assert (F1 : file_ok ip1 st live) by (by apply (file_ok_inode ip)).
  set (fb := fun k => if (newsz <? a_size a) && (newsz <=? k) && (k <? page_up (a_size a)) then 0 else a_byte a k).
  match goal with |- context [mbind _ ?e] => assert (Hgo : exists st' live', e = Some st' /\ file_ok ip1 st' live' /\
    framed ip1 st live ip1 st' live' /\ forall k, 0 <= k < TMPFS_MAX_SZ -> fbyte ip1 st' k = fb k) end.
  { unfold fb. destruct (Z.ltb_spec newsz (a_size a)) as [Hlt|Hge]; cbn [andb].
    2:{ exists st, live. split_and!; [done|done|apply framed_refl|]. intros k Hk. rewrite <- R6 by done. by apply fbyte_inode. }
    unfold TMPFS_PAGE_SIZE. rewrite u64_small, !u32_small by zlia; cbv zeta.
    destruct (clear_spec ip1 st live newsz (a_size a) F1 ltac:(lia) ltac:(lia)) as (st1 & live1 & E & F2 & Fr & Hby).
    exists st1, live1. split_and!; [exact E|done|done|]. intros k Hk. rewrite Hby, <- R6 by done. by rewrite (fbyte_inode ip). }
  destruct Hgo as (st' & live' & -> & F2 & Fr & Hby). cbn [mbind option_bind].
  exists (unlock (set_mtime now (set_size newsz ip1))), st', live'. split; [done|]. split; [|split; [|by repeat split]].
  - constructor; cbn [snd a_size a_byte]; [by apply (file_ok_inode ip1)|done|done|done|lia|].
    intros k Hk. rewrite (fbyte_inode ip1) by done. by apply Hby.
  - by eapply framed_inode; [| |exact Fr].
Qed.

Lemma op_sim a ip st live op now : frel a ip st live -> op_ok op ->
  exists f ip' st' live', run_op ip st op now = Some (fst (array_op a op f), ip', st') /\
    frel (snd (array_op a op f)) ip' st' live' /\ framed ip st live ip' st' live' /\
    kept ip ip' (mtime_after op (fst (array_op a op f)) now (i_mtime ip)).
Proof using AL.
  intros R Hop. destruct op as [off len|off data|newsz].
  - destruct (read_sim a ip st live off len now R Hop) as (ip' & E & R' & El & Hk). exists None, ip', st, live. split_and!; [done|done| |done].
    eapply framed_inode; [reflexivity|exact El|apply framed_refl].
  - by apply write_sim.
  - destruct (truncate_sim a ip st live newsz now R Hop) as (ip' & st' & live' & H'). by exists None, ip', st', live'.
Qed.

Lemma ops_sim ops now : forall a ip st live, frel a ip st live -> Forall op_ok ops ->
  exists fails ip' st' live', run_ops ip st ops now = Some (fst (array_ops a ops fails), ip', st') /\ length fails = length ops /\
    frel (snd (array_ops a ops fails)) ip' st' live' /\ framed ip st live ip' st' live'.
Proof using AL.
  induction ops as [|op ops IH]; intros a ip st live R Hops.
  { exists [], ip, st, live. split_and!; [done|done|done|apply framed_refl]. }
  apply Forall_cons in Hops as [Hop Hops]. destruct (op_sim a ip st live op now R Hop) as (f & ip1 & st1 & live1 & E1 & R1 & Fr1 & _).
  destruct (IH _ _ _ _ R1 Hops) as (fails & ip2 & st2 & live2 & E2 & Hl & R2 & Fr2). exists (f :: fails), ip2, st2, live2.
  cbn [run_ops array_ops]. rewrite E1. cbn [mbind option_bind]. rewrite E2. cbn [mbind option_bind].
  destruct (array_op a op f) as [r a1]. cbn [fst snd] in *. destruct (array_ops a1 ops fails) as [rs a2]. cbn [fst snd] in *.
  split_and!; [done|by cbn; rewrite Hl|done|by eapply framed_trans].
Qed.

(** A tmpfs file is an array of bytes: every sequence of reads, writes and
    truncations on a regular file whose lock is free returns, with the
    results of the array; the size, every byte up to the largest offset and
    the free lock agree again at the end, the file's tables and pages are
    distinct live blocks, and no other live block of the heap is written,
    freed or taken over. *)
Theorem tmpfs_file_refines a ip st live ops now : frel a ip st live -> Forall op_ok ops ->
  exists fails ip' st' live', run_ops ip st ops now = Some (fst (array_ops a ops fails), ip', st') /\ length fails = length ops /\
    frel (snd (array_ops a ops fails)) ip' st' live' /\ framed ip st live ip' st' live'.
Proof using AL. apply ops_sim. Qed.
End props.

Definition ex_inode : tmpfs_inode := Inode 7 TMPFS_T_REG 420 1 0 0 0 0 (Spinlock 65535 65535) (fun _ => 0) 0 0 0.
Definition ex_store : store (A := Z) := Store ex_base (fun _ _ => 0) (fun _ _ => 0).
Definition ex_ops : list file_op :=
  [FWrite 4094 [1; 2; 3; 4]; FRead 4093 10; FTruncate 4095; FWrite 4097 [9]; FRead 4094 10; FWrite 16777216 [1]].

(** A write across a page boundary, a truncation into the first of the two
    pages and a write past the new end, by computation. *)
Lemma ex_ops_run : fst <$> (fst <$> run_ops ex_inode ex_store ex_ops 5)
  = Some [RLen 4; RBytes [0; 1; 2; 3; 4]; RLen 0; RLen 1; RBytes [1; 0; 0; 9]; RErr TMPFS_EFBIG].
Proof. vm_compute. reflexivity. Qed.

Lemma ex_inode_rel : frel (Array 0 (fun _ => 0)) ex_inode ex_store ∅.
Proof.
  constructor; [constructor|..]; done.
Qed.

Lemma tmpfs_file_refines_witness :
  exists fails ip' st' live', run_ops ex_inode ex_store ex_ops 5 = Some (fst (array_ops (Array 0 (fun _ => 0)) ex_ops fails), ip', st') /\ length fails = length ex_ops /\
    frel (snd (array_ops (Array 0 (fun _ => 0)) ex_ops fails)) ip' st' live' /\ framed ex_inode ex_store ∅ ip' st' live'.
Proof.
  apply (tmpfs_file_refines (Array 0 (fun _ => 0)) ex_inode ex_store ∅ ex_ops 5); [exact ex_inode_rel|].
  unfold ex_ops. repeat constructor; cbn; lia.
Defined.
