(* ===== verification/TmpfsNs.v ===== *)
(** * Directories, inodes and the VFS driver of tmpfs

    Directories are linked lists of entries, inodes sit in a hash table by
    number, and the driver resolves paths over both.  Every structure that
    is allocated from the heap has a map from block addresses; freeing a
    block removes it there, so a dereference of a freed or foreign block is
    [None].  Names and paths are the bytes of C strings before their
    terminator.  The clock is an argument.

    Sources: fs/tmpfs/tmpfs.c, tmpfs_dir.c, tmpfs_inode.c, tmpfs.h,
    fs/vfs/tmpfs_vfs.c, fs/vfs/vfs.h. *)

From stdpp Require Import base gmap list.
From Stdlib Require Import ZArith Lia.
From S2P Require Import Prelude Spinlock Kmalloc Allocator Tmpfs.

Definition TMPFS_T_LNK : Z := 4.
Definition TMPFS_EISDIR : Z := -21.
Definition TMPFS_ENOTEMPTY : Z := -39.

Definition VFS_PATH_MAX : Z := 512.
Definition VFS_O_CREAT : Z := 0x040.
Definition VFS_DT_REG : Z := 1.
Definition VFS_DT_DIR : Z := 2.
Definition VFS_DT_LNK : Z := 3.

Record tmpfs_sb := SB { sb_lock : spinlock; ino_next : Z; nr_inodes : Z; nr_pages : Z; htab : Z -> Z; sb_root : Z }.

Record tf_hdl := Hdl { h_sb : Z; h_ip : Z }.

Record vfs_stat := Stat { s_ino : Z; s_mode : Z; s_nlink : Z; s_size : Z; s_mtime : Z; s_ctime : Z }.

Record vfs_dirent := VDirent { v_ino : Z; v_type : Z; v_name : list Z }.

Definition hdl_bytes : Z := 16.

(** ** Names *)

(** [strncmp] on the bytes of two strings. *)
Fixpoint str_ncmp (n : nat) (a b : list Z) : Z :=
  match n with
  | O => 0
  | S n => if negb (hd 0 a =? hd 0 b) then hd 0 a - hd 0 b
           else if hd 0 a =? 0 then 0 else str_ncmp n (tl a) (tl b)
  end.

Definition nm_eq (a b : list Z) : bool := str_ncmp (Z.to_nat (TMPFS_NAME_MAX + 1)) a b =? 0.

Section ns.
Context {A : Type} `{Allocator A}.

(** The pages of files, and the other structures by block address. *)
Record tmpfs := Tmpfs {
  t_mem : store (A := A);
  t_ents : gmap Z tmpfs_dirent;
  t_inos : gmap Z tmpfs_inode;
  t_sbs : gmap Z tmpfs_sb;
  t_hdls : gmap Z tf_hdl;
  g_sb : Z }.

Definition with_mem (t : tmpfs) m : tmpfs := Tmpfs m (t_ents t) (t_inos t) (t_sbs t) (t_hdls t) (g_sb t).
Definition with_ents (t : tmpfs) m : tmpfs := Tmpfs (t_mem t) m (t_inos t) (t_sbs t) (t_hdls t) (g_sb t).
Definition with_inos (t : tmpfs) m : tmpfs := Tmpfs (t_mem t) (t_ents t) m (t_sbs t) (t_hdls t) (g_sb t).
Definition with_sbs (t : tmpfs) m : tmpfs := Tmpfs (t_mem t) (t_ents t) (t_inos t) m (t_hdls t) (g_sb t).
Definition with_hdls (t : tmpfs) m : tmpfs := Tmpfs (t_mem t) (t_ents t) (t_inos t) (t_sbs t) m (g_sb t).
Definition with_g (t : tmpfs) p : tmpfs := Tmpfs (t_mem t) (t_ents t) (t_inos t) (t_sbs t) (t_hdls t) p.

Definition set_ino (t : tmpfs) (a : Z) (ip : tmpfs_inode) : tmpfs := with_inos t (<[a := ip]> (t_inos t)).
Definition set_sb (t : tmpfs) (p : Z) (sb : tmpfs_sb) : tmpfs := with_sbs t (<[p := sb]> (t_sbs t)).

Definition kalloc (t : tmpfs) (sz : Z) : option (tmpfs * Z) :=
  '(h, p) ← al_alloc (heap (t_mem t)) sz; Some (with_mem t (Store h (tables (t_mem t)) (pages (t_mem t))), p).

Definition kfree (t : tmpfs) (p : Z) : option tmpfs := m ← free_if (t_mem t) p; Some (with_mem t m).

(** Locks of an inode and of the superblock. *)
Definition lock_ino (t : tmpfs) (a : Z) : option tmpfs :=
  ip ← t_inos t !! a; l ← spin_lock (i_lock ip); Some (set_ino t a (set_lock l ip)).
Definition unlock_ino (t : tmpfs) (a : Z) : option tmpfs := ip ← t_inos t !! a; Some (set_ino t a (unlock ip)).

Definition sb_set_lock (l : spinlock) (sb : tmpfs_sb) : tmpfs_sb :=
  SB l (ino_next sb) (nr_inodes sb) (nr_pages sb) (htab sb) (sb_root sb).
Definition lock_sb (t : tmpfs) (p : Z) : option tmpfs :=
  sb ← t_sbs t !! p; l ← spin_lock (sb_lock sb); Some (set_sb t p (sb_set_lock l sb)).
Definition unlock_sb (t : tmpfs) (p : Z) : option tmpfs :=
  sb ← t_sbs t !! p; Some (set_sb t p (sb_set_lock (spin_unlock (sb_lock sb)) sb)).

(** ** The inode table (tmpfs_inode.c) *)

Definition ht_bucket (ino : Z) : Z := Z.land (u32 (Z.shiftr (u64 (ino * 0x9E3779B97F4A7C15)) 55)) (TMPFS_HTAB_SZ - 1).

Definition tmpfs_inode_alloc (t : tmpfs) (sbp type perm now : Z) : option (Z * tmpfs) :=
  '(t, a) ← kalloc t inode_bytes;
  if a =? 0 then Some (0, t) else
  t ← lock_sb t sbp;
  sb ← t_sbs t !! sbp;
  let ino := ino_next sb in
  let h := ht_bucket ino in
  let ip := Inode ino type perm 1 0 now now now (Spinlock 0 0) (fun _ => 0) 0 0 (htab sb h) in
  let t := set_ino t a ip in
  let t := set_sb t sbp (SB (sb_lock sb) (u64 (ino + 1)) (u32 (nr_inodes sb + 1)) (nr_pages sb) (upd (htab sb) h a) (sb_root sb)) in
  t ← unlock_sb t sbp;
  Some (a, t).

(** The walk [pp = &( *pp)->ht_next] up to inode [a]: the block before it,
    0 for the bucket's head.  [None] inside when the chain does not hold it. *)
Fixpoint chain_before (fuel : nat) (inos : gmap Z tmpfs_inode) (prev cur a : Z) : option (option Z) :=
  match fuel with
  | O => None
  | S fuel => if cur =? 0 then Some None else if cur =? a then Some (Some prev) else
              ip ← inos !! cur; chain_before fuel inos cur (ht_next ip) a
  end.

Fixpoint free_ents (fuel : nat) (t : tmpfs) (de : Z) : option tmpfs :=
  match fuel with
  | O => None
  | S fuel => if de =? 0 then Some t else
              d ← t_ents t !! de; t ← kfree t de; free_ents fuel (with_ents t (delete de (t_ents t))) (de_next d)
  end.

(** Pages, entries and the inode itself: the end of [tmpfs_inode_free] and
    the body of [tmpfs_sb_destroy]'s loop. *)
Definition release (t : tmpfs) (a : Z) : option tmpfs :=
  ip ← t_inos t !! a;
  '(ip, m) ← tmpfs_file_freepages ip (t_mem t);
  let t := set_ino (with_mem t m) a ip in
  t ← free_ents (S (size (t_ents t))) t (de_head ip);
  t ← kfree t a;
  Some (with_inos t (delete a (t_inos t))).

Definition tmpfs_inode_free (t : tmpfs) (sbp a : Z) : option tmpfs :=
  ip ← t_inos t !! a;
  let h := ht_bucket (i_ino ip) in
  t ← lock_sb t sbp;
  sb ← t_sbs t !! sbp;
  pp ← chain_before (S (size (t_inos t))) (t_inos t) 0 (htab sb h) a;
  t ← (match pp with
       | None => Some t
       | Some prev =>
         let t := set_sb t sbp (SB (sb_lock sb) (ino_next sb) (u32 (nr_inodes sb - 1)) (nr_pages sb)
                                   (if prev =? 0 then upd (htab sb) h (ht_next ip) else htab sb) (sb_root sb)) in
         if prev =? 0 then Some t else q ← t_inos t !! prev; Some (set_ino t prev (set_ht_next (ht_next ip) q))
       end);
  t ← unlock_sb t sbp;
  release t a.

Fixpoint chain_find (fuel : nat) (inos : gmap Z tmpfs_inode) (cur ino : Z) : option Z :=
  match fuel with
  | O => None
  | S fuel => if cur =? 0 then Some 0 else
              ip ← inos !! cur; if i_ino ip =? ino then Some cur else chain_find fuel inos (ht_next ip) ino
  end.

Definition tmpfs_inode_get (t : tmpfs) (sbp ino : Z) : option (Z * tmpfs) :=
  t ← lock_sb t sbp;
  sb ← t_sbs t !! sbp;
  a ← chain_find (S (size (t_inos t))) (t_inos t) (htab sb (ht_bucket ino)) ino;
  t ← unlock_sb t sbp;
  Some (a, t).

(** ** Directories (tmpfs_dir.c) *)

(** The number in the first entry named [name], 0 when there is none. *)
Fixpoint find_name (fuel : nat) (ents : gmap Z tmpfs_dirent) (de : Z) (name : list Z) : option Z :=
  match fuel with
  | O => None
  | S fuel => if de =? 0 then Some 0 else
              d ← ents !! de; if nm_eq (de_name d) name then Some (de_ino d) else find_name fuel ents (de_next d) name
  end.

Definition tmpfs_dir_lookup (t : tmpfs) (sbp dir : Z) (name : list Z) : option (Z * tmpfs) :=
  ip ← t_inos t !! dir;
  if negb (i_type ip =? TMPFS_T_DIR) then Some (0, t) else
  t ← lock_ino t dir;
  found ← find_name (S (size (t_ents t))) (t_ents t) (de_head ip) name;
  t ← unlock_ino t dir;
  if found =? 0 then Some (0, t) else tmpfs_inode_get t sbp found.

Fixpoint has_name (fuel : nat) (ents : gmap Z tmpfs_dirent) (de : Z) (name : list Z) : option bool :=
  match fuel with
  | O => None
  | S fuel => if de =? 0 then Some false else
              d ← ents !! de; if nm_eq (de_name d) name then Some true else has_name fuel ents (de_next d) name
  end.

(** The new entry's link is not set before it is inserted. *)
Definition tmpfs_dir_link (t : tmpfs) (dir : Z) (name : list Z) (ino now : Z) : option (Z * tmpfs) :=
  ip ← t_inos t !! dir;
  if negb (i_type ip =? TMPFS_T_DIR) then Some (TMPFS_ENOTDIR, t) else
  let nlen := Z.min (Z.of_nat (length name)) (TMPFS_NAME_MAX + 1) in
  if (nlen =? 0) || (TMPFS_NAME_MAX <? nlen) then Some (TMPFS_EINVAL, t) else
  '(t, de) ← kalloc t dirent_bytes;
  if de =? 0 then Some (TMPFS_ENOMEM, t) else
  t ← lock_ino t dir;
  dup ← has_name (S (size (t_ents t))) (t_ents t) (de_head ip) name;
  if (dup : bool) then t ← unlock_ino t dir; t ← kfree t de; Some (TMPFS_EEXIST, t) else
  ip ← t_inos t !! dir;
  let t := with_ents t (<[de := Dirent ino (de_head ip) name]> (t_ents t)) in
  let t := set_ino t dir (set_mtime now (set_dir de (u32 (de_count ip + 1)) ip)) in
  t ← unlock_ino t dir;
  Some (TMPFS_OK, t).

(** The walk of [pp] to the first entry named [name]: the entry before it,
    0 for the directory's head, and the entry. *)
Fixpoint name_before (fuel : nat) (ents : gmap Z tmpfs_dirent) (prev de : Z) (name : list Z) : option (option (Z * Z)) :=
  match fuel with
  | O => None
  | S fuel => if de =? 0 then Some None else
              d ← ents !! de; if nm_eq (de_name d) name then Some (Some (prev, de)) else name_before fuel ents de (de_next d) name
  end.

Definition tmpfs_dir_unlink (t : tmpfs) (dir : Z) (name : list Z) (now : Z) : option (Z * tmpfs) :=
  ip ← t_inos t !! dir;
  if negb (i_type ip =? TMPFS_T_DIR) then Some (TMPFS_ENOTDIR, t) else
  t ← lock_ino t dir;
  r ← name_before (S (size (t_ents t))) (t_ents t) 0 (de_head ip) name;
  match r with
  | None => t ← unlock_ino t dir; Some (TMPFS_ENOENT, t)
  | Some (prev, del) =>
    d ← t_ents t !! del;
    ents ← (if prev =? 0 then Some (t_ents t)
            else p ← t_ents t !! prev; Some (<[prev := Dirent (de_ino p) (de_next d) (de_name p)]> (t_ents t)));
    ip ← t_inos t !! dir;
    let head := if prev =? 0 then de_next d else de_head ip in
    let t := set_ino (with_ents t ents) dir (set_mtime now (set_dir head (u32 (de_count ip - 1)) ip)) in
    t ← unlock_ino t dir;
    t ← kfree t del;
    Some (TMPFS_OK, with_ents t (delete del (t_ents t)))
  end.

Fixpoint nth_entry (fuel : nat) (ents : gmap Z tmpfs_dirent) (de i idx : Z) : option (option tmpfs_dirent) :=
  match fuel with
  | O => None
  | S fuel => if de =? 0 then Some None else
              d ← ents !! de; if i =? idx then Some (Some d) else nth_entry fuel ents (de_next d) (i + 1) idx
  end.

(** The error code, or the number and the name. *)
Definition tmpfs_dir_iterate (t : tmpfs) (dir idx : Z) : option ((Z + Z * list Z) * tmpfs) :=
  ip ← t_inos t !! dir;
  if negb (i_type ip =? TMPFS_T_DIR) then Some (inl TMPFS_ENOTDIR, t) else
  t ← lock_ino t dir;
  r ← nth_entry (S (size (t_ents t))) (t_ents t) (de_head ip) 0 idx;
  t ← unlock_ino t dir;
  Some (match r with None => inl TMPFS_ENOENT | Some d => inr (de_ino d, de_name d) end, t).

(** ** The superblock (tmpfs.c) *)

Definition tmpfs_sb_alloc (t : tmpfs) (now : Z) : option (Z * tmpfs) :=
  '(t, p) ← kalloc t sb_bytes;
  if p =? 0 then Some (0, t) else
  let t := set_sb t p (SB (Spinlock 0 0) 1 0 0 (fun _ => 0) 0) in
  '(root, t) ← tmpfs_inode_alloc t p TMPFS_T_DIR 493 (* 0755 *) now;
  if root =? 0 then t ← kfree t p; Some (0, with_sbs t (delete p (t_sbs t))) else
  ip ← t_inos t !! root;
  sb ← t_sbs t !! p;
  let t := set_ino t root (set_nlink 2 ip) in
  Some (p, set_sb t p (SB (sb_lock sb) (ino_next sb) (nr_inodes sb) (nr_pages sb) (htab sb) root)).

Fixpoint destroy_chain (fuel : nat) (t : tmpfs) (a : Z) : option tmpfs :=
  match fuel with
  | O => None
  | S fuel => if a =? 0 then Some t else ip ← t_inos t !! a; t ← release t a; destroy_chain fuel t (ht_next ip)
  end.

Fixpoint destroy_table (n : nat) (t : tmpfs) (sbp i : Z) : option tmpfs :=
  match n with
  | O => Some t
  | S n => sb ← t_sbs t !! sbp; t ← destroy_chain (S (size (t_inos t))) t (htab sb i); destroy_table n t sbp (i + 1)
  end.

Definition tmpfs_sb_destroy (t : tmpfs) (sbp : Z) : option tmpfs :=
  t ← destroy_table (Z.to_nat TMPFS_HTAB_SZ) t sbp 0;
  t ← kfree t sbp;
  Some (with_sbs t (delete sbp (t_sbs t))).

(** ** Paths (tmpfs_vfs.c) *)

Definition SLASH : Z := 47.

(** The component at the front of [rel], and [end] of it. *)
Fixpoint comp_of (rel : list Z) : list Z * list Z :=
  match rel with
  | [] => ([], [])
  | c :: r => if c =? SLASH then ([], rel) else let '(comp, e) := comp_of r in (c :: comp, e)
  end.

Fixpoint resolve_loop (fuel : nat) (t : tmpfs) (sbp cur : Z) (rel : list Z) : option (Z * tmpfs) :=
  match fuel with
  | O => None
  | S fuel =>
    match rel with
    | [] => Some (cur, t)
    | _ =>
      let '(comp, e) := comp_of rel in
      if (length comp =? 0)%nat then resolve_loop fuel t sbp cur (tl e) else
      if TMPFS_NAME_MAX <? Z.of_nat (length comp) then Some (0, t) else
      '(cur, t) ← tmpfs_dir_lookup t sbp cur comp;
      if cur =? 0 then Some (0, t) else resolve_loop fuel t sbp cur (match e with [] => e | _ :: r => r end)
    end
  end.

Definition path_resolve (t : tmpfs) (sbp : Z) (rel : list Z) : option (Z * tmpfs) :=
  sb ← t_sbs t !! sbp;
  let rel := match rel with c :: r => if c =? SLASH then r else rel | [] => rel end in
  match rel with
  | [] => Some (sb_root sb, t)
  | _ => resolve_loop (S (length rel)) t sbp (sb_root sb) rel
  end.

(** The offset of the last slash, -1 for NULL. *)
Fixpoint tf_strrchr (s : list Z) (c i last : Z) : Z :=
  match s with [] => last | x :: s => tf_strrchr s c (i + 1) (if x =? c then i else last) end.

(** The directory, 0 for NULL, and the leaf. *)
Definition path_parent (t : tmpfs) (sbp : Z) (rel : list Z) : option (Z * list Z * tmpfs) :=
  sb ← t_sbs t !! sbp;
  let slash := tf_strrchr rel SLASH 0 (-1) in
  if slash =? -1 then Some (sb_root sb, rel, t) else
  if slash =? 0 then Some (sb_root sb, drop 1 rel, t) else
  if VFS_PATH_MAX <=? slash then Some (0, [], t) else
  '(dir, t) ← path_resolve t sbp (take (Z.to_nat slash) rel);
  Some (dir, drop (Z.to_nat (slash + 1)) rel, t).

(** ** The VFS driver (tmpfs_vfs.c) *)

Definition fill_stat (ip : tmpfs_inode) : vfs_stat :=
  Stat (i_ino ip) (Z.lor (u32 (Z.shiftl (i_type ip) 12)) (i_perm ip)) (i_nlink ip) (i_size ip) (i_mtime ip) (i_ctime ip).

Definition itype_vfs (ty : Z) : Z :=
  if ty =? TMPFS_T_DIR then VFS_DT_DIR else if ty =? TMPFS_T_LNK then VFS_DT_LNK else VFS_DT_REG.

(** The inode to open, created when [flags] ask for it; an error code
    otherwise. *)
Definition open_inode (t : tmpfs) (rel : list Z) (flags mode now : Z) : option ((Z + Z) * tmpfs) :=
  let sb := g_sb t in
  '(ip, t) ← path_resolve t sb rel;
  if negb (ip =? 0) then Some (inr ip, t) else
  if Z.land flags VFS_O_CREAT =? 0 then Some (inl TMPFS_ENOENT, t) else
  '(dir, leaf, t) ← path_parent t sb rel;
  if (dir =? 0) || (length leaf =? 0)%nat then Some (inl TMPFS_ENOENT, t) else
  '(ip, t) ← tmpfs_inode_alloc t sb TMPFS_T_REG (Z.land mode 0xFFF) now;
  if ip =? 0 then Some (inl TMPFS_ENOMEM, t) else
  inode ← t_inos t !! ip;
  '(rc, t) ← tmpfs_dir_link t dir leaf (i_ino inode) now;
  if negb (rc =? 0) then t ← tmpfs_inode_free t sb ip; Some (inl rc, t) else Some (inr ip, t).

(** The code and the handle. *)
Definition tf_open (t : tmpfs) (rel : list Z) (flags mode now : Z) : option ((Z + Z) * tmpfs) :=
  '(r, t) ← open_inode t rel flags mode now;
  match r with
  | inl rc => Some (inl rc, t)
  | inr ip =>
    '(t, h) ← kalloc t hdl_bytes;
    if h =? 0 then Some (inl TMPFS_ENOMEM, t) else
    Some (inr h, with_hdls t (<[h := Hdl (g_sb t) ip]> (t_hdls t)))
  end.

Definition tf_close (t : tmpfs) (priv : Z) : option tmpfs :=
  t ← kfree t priv; Some (with_hdls t (delete priv (t_hdls t))).

Definition tf_read (t : tmpfs) (priv off len now : Z) : option ((Z + list Z) * tmpfs) :=
  h ← t_hdls t !! priv; ip ← t_inos t !! h_ip h;
  '(r, ip) ← tmpfs_file_read ip (t_mem t) off len now;
  Some (r, set_ino t (h_ip h) ip).

Definition tf_write (t : tmpfs) (priv off : Z) (data : list Z) (now : Z) : option ((Z + Z) * tmpfs) :=
  h ← t_hdls t !! priv; ip ← t_inos t !! h_ip h;
  '(r, ip, m) ← tmpfs_file_write ip (t_mem t) off data now;
  Some (r, set_ino (with_mem t m) (h_ip h) ip).

Definition tf_truncate (t : tmpfs) (priv sz now : Z) : option (Z * tmpfs) :=
  h ← t_hdls t !! priv; ip ← t_inos t !! h_ip h;
  '(r, ip, m) ← tmpfs_file_truncate ip (t_mem t) sz now;
  Some (r, set_ino (with_mem t m) (h_ip h) ip).

Definition tf_stat (t : tmpfs) (rel : list Z) : option ((Z + vfs_stat) * tmpfs) :=
  '(a, t) ← path_resolve t (g_sb t) rel;
  if a =? 0 then Some (inl TMPFS_ENOENT, t) else ip ← t_inos t !! a; Some (inr (fill_stat ip), t).

Definition tf_lstat (t : tmpfs) (rel : list Z) : option ((Z + vfs_stat) * tmpfs) := tf_stat t rel.

Definition tf_fstat (t : tmpfs) (priv : Z) : option (vfs_stat * tmpfs) :=
  h ← t_hdls t !! priv; ip ← t_inos t !! h_ip h; Some (fill_stat ip, t).

Definition tf_unlink (t : tmpfs) (rel : list Z) (now : Z) : option (Z * tmpfs) :=
  let sb := g_sb t in
  '(dir, leaf, t) ← path_parent t sb rel;
  if dir =? 0 then Some (TMPFS_ENOENT, t) else
  '(tgt, t) ← tmpfs_dir_lookup t sb dir leaf;
  if tgt =? 0 then Some (TMPFS_ENOENT, t) else
  ip ← t_inos t !! tgt;
  if i_type ip =? TMPFS_T_DIR then Some (TMPFS_EISDIR, t) else
  '(rc, t) ← tmpfs_dir_unlink t dir leaf now;
  if negb (rc =? 0) then Some (rc, t) else
  ip ← t_inos t !! tgt;
  let nl := u32 (i_nlink ip - 1) in
  let t := set_ino t tgt (set_nlink nl ip) in
  if nl =? 0 then t ← tmpfs_inode_free t sb tgt; Some (TMPFS_OK, t) else Some (TMPFS_OK, t).

Definition tf_mkdir (t : tmpfs) (rel : list Z) (mode now : Z) : option (Z * tmpfs) :=
  let sb := g_sb t in
  '(dir, leaf, t) ← path_parent t sb rel;
  if (dir =? 0) || (length leaf =? 0)%nat then Some (TMPFS_ENOENT, t) else
  '(ip, t) ← tmpfs_inode_alloc t sb TMPFS_T_DIR (Z.land mode 0xFFF) now;
  if ip =? 0 then Some (TMPFS_ENOMEM, t) else
  inode ← t_inos t !! ip;
  let t := set_ino t ip (set_nlink 2 inode) in
  '(rc, t) ← tmpfs_dir_link t dir leaf (i_ino inode) now;
  if negb (rc =? 0) then t ← tmpfs_inode_free t sb ip; Some (rc, t) else
  d ← t_inos t !! dir;
  Some (TMPFS_OK, set_ino t dir (set_nlink (u32 (i_nlink d + 1)) d)).

Definition tf_rmdir (t : tmpfs) (rel : list Z) (now : Z) : option (Z * tmpfs) :=
  let sb := g_sb t in
  '(dir, leaf, t) ← path_parent t sb rel;
  if dir =? 0 then Some (TMPFS_ENOENT, t) else
  '(tgt, t) ← tmpfs_dir_lookup t sb dir leaf;
  if tgt =? 0 then Some (TMPFS_ENOENT, t) else
  ip ← t_inos t !! tgt;
  if negb (i_type ip =? TMPFS_T_DIR) then Some (TMPFS_ENOTDIR, t) else
  if negb (de_count ip =? 0) then Some (TMPFS_ENOTEMPTY, t) else
  '(rc, t) ← tmpfs_dir_unlink t dir leaf now;
  if negb (rc =? 0) then Some (rc, t) else
  d ← t_inos t !! dir;
  let t := if 0 <? i_nlink d then set_ino t dir (set_nlink (i_nlink d - 1) d) else t in
  ip ← t_inos t !! tgt;
  t ← tmpfs_inode_free (set_ino t tgt (set_nlink 0 ip)) sb tgt;
  Some (TMPFS_OK, t).

Definition tf_readdir (t : tmpfs) (rel : list Z) (idx : Z) : option ((Z + vfs_dirent) * tmpfs) :=
  let sb := g_sb t in
  '(dir, t) ← path_resolve t sb rel;
  if dir =? 0 then Some (inl TMPFS_ENOENT, t) else
  ip ← t_inos t !! dir;
  if negb (i_type ip =? TMPFS_T_DIR) then Some (inl TMPFS_ENOTDIR, t) else
  '(r, t) ← tmpfs_dir_iterate t dir idx;
  match r with
  | inl rc => Some (inl rc, t)
  | inr (ino, name) =>
    '(child, t) ← tmpfs_inode_get t sb ino;
    ty ← (if child =? 0 then Some VFS_DT_REG else c ← t_inos t !! child; Some (itype_vfs (i_type c)));
    Some (inr (VDirent ino ty name), t)
  end.

Definition tf_mount (t : tmpfs) (now : Z) : option (Z * tmpfs) :=
  if negb (g_sb t =? 0) then Some (TMPFS_OK, t) else
  '(p, t) ← tmpfs_sb_alloc t now;
  let t := with_g t p in
  Some (if p =? 0 then TMPFS_ENOMEM else TMPFS_OK, t).

Definition tf_umount (t : tmpfs) : option (Z * tmpfs) :=
  if g_sb t =? 0 then Some (TMPFS_OK, t) else
  t ← tmpfs_sb_destroy t (g_sb t); Some (TMPFS_OK, with_g t 0).
End ns.

Arguments tmpfs A : clear implicits.
