(* ===== verification/TmpfsWalk.v ===== *)
(** * Names, entry lists and inode chains of tmpfs

    What the pointer walks of tmpfs_dir.c and tmpfs_inode.c compute on
    well-formed lists: comparison of names, search, position and
    predecessor in a directory and in a hash chain. *)

From stdpp Require Import base gmap list.
From Stdlib Require Import ZArith Lia.
From S2P Require Import Prelude Spinlock Kmalloc CString Tmpfs TmpfsNs.

(** ** Names *)

(** The bytes of a C string. *)
Definition cbytes (l : list Z) : Prop := Forall (fun c => 0 < c < 256) l.

(** A name a directory can hold. *)
Definition name_ok (l : list Z) : Prop := cbytes l /\ (0 < length l <= 255)%nat.

(** The comparison of bytes is [strncmp] on the strings in memory. *)
Lemma strncmp_strings m n : forall a b s1 s2, cstr m s1 a -> cstr m s2 b -> strncmp n m s1 s2 = str_ncmp n a b.
Proof.
  induction n as [|n IH]; intros a b s1 s2 Ha Hb; [done|]. cbn [strncmp str_ncmp].
  assert (E1 : m s1 = hd 0 a) by (destruct a; apply Ha). assert (E2 : m s2 = hd 0 b) by (destruct b; apply Hb).
  rewrite E1, E2. destruct (Z.eqb_spec (hd 0 a) (hd 0 b)) as [E|]; cbn [negb]; [|done].
  destruct (Z.eqb_spec (hd 0 a) 0) as [|Hn]; [done|]. destruct a as [|x a], b as [|y b]; cbn in Hn, E; try lia. apply IH; [apply Ha|apply Hb].
Qed.

Lemma str_ncmp_eq n : forall a b, cbytes a -> cbytes b -> (length a < n)%nat -> str_ncmp n a b = 0 <-> a = b.
Proof.
  induction n as [|n IH]; intros a b Ha Hb Hn; [lia|]. cbn [str_ncmp].
  destruct a as [|x a], b as [|y b]; cbn [hd tl length] in *.
  - done.
  - apply Forall_cons in Hb as [Hy _]. rewrite (proj2 (Z.eqb_neq 0 y)) by lia. cbn [negb]. split; [lia|done].
  - apply Forall_cons in Ha as [Hx _]. rewrite (proj2 (Z.eqb_neq x 0)) by lia. cbn [negb]. split; [lia|done].
  - apply Forall_cons in Ha as [Hx Ha]. apply Forall_cons in Hb as [Hy Hb].
    destruct (Z.eqb_spec x y) as [->|Hne]; cbn [negb]; [|split; [lia|congruence]].
    rewrite (proj2 (Z.eqb_neq y 0)) by lia. rewrite IH by (done || lia). split; congruence.
Qed.

Lemma nm_eq_spec a b : name_ok a -> cbytes b -> nm_eq a b = bool_decide (a = b).
Proof.
  intros [Ha Hl] Hb. unfold nm_eq. apply eq_true_iff_eq. rewrite Z.eqb_eq, bool_decide_eq_true.
  apply str_ncmp_eq; [done|done|]. unfold TMPFS_NAME_MAX. lia.
Qed.

(** ** Directories as association lists *)

Definition entry : Type := list Z * Z.

Fixpoint assoc (name : list Z) (l : list entry) : option Z :=
  match l with [] => None | (nm, ino) :: l => if bool_decide (nm = name) then Some ino else assoc name l end.

Fixpoint dremove (name : list Z) (l : list entry) : list entry :=
  match l with [] => [] | (nm, ino) :: l => if bool_decide (nm = name) then l else (nm, ino) :: dremove name l end.

Lemma assoc_elem name l ino : assoc name l = Some ino -> (name, ino) ∈ l.
Proof.
  induction l as [|[nm i] l IH]; cbn; [done|]. case_bool_decide as E; [intros [= ->]; subst; by left|]. intros H. right. by apply IH.
Qed.

Lemma assoc_none name l : assoc name l = None <-> name ∉ l.*1.
Proof.
  induction l as [|[nm i] l IH]; cbn; [split; [intros _; apply not_elem_of_nil|done]|]. rewrite not_elem_of_cons.
  case_bool_decide as E; [split; [done|intros [H _]; congruence]|]. rewrite IH. split; [intros; split; [congruence|done]|by intros [_ ?]].
Qed.

Lemma assoc_nodup name ino l : NoDup l.*1 -> (name, ino) ∈ l -> assoc name l = Some ino.
Proof.
  induction l as [|[nm i] l IH]; intros Hnd Hin; [by apply elem_of_nil in Hin|]. cbn in Hnd. apply NoDup_cons in Hnd as [Hn Hnd].
  cbn. apply elem_of_cons in Hin as [[= -> ->]|Hin]; [by rewrite bool_decide_true by done|].
  rewrite bool_decide_false; [by apply IH|]. intros ->. apply Hn. apply list_elem_of_fmap. by exists (name, ino).
Qed.

Lemma dremove_elem name l e : NoDup l.*1 -> e ∈ dremove name l <-> e ∈ l /\ e.1 <> name.
Proof.
  induction l as [|[nm i] l IH]; intros Hnd; cbn [dremove]; [by split; [intros ?%elem_of_nil|intros [?%elem_of_nil _]]|]. cbn in Hnd. apply NoDup_cons in Hnd as [Hn Hnd].
  case_bool_decide as E.
  - subst nm. rewrite elem_of_cons. split; [intros He; split; [by right|]|intros [[->|He] Hne]; [by cbn in Hne|done]].
    intros <-. apply Hn. apply list_elem_of_fmap. by exists e.
  - rewrite !elem_of_cons, IH by done. split; [intros [->|[H1 H2]]; [split; [by left|done]|split; [by right|done]]|].
    intros [[->|H1] H2]; [by left|by right].
Qed.

Lemma dremove_nodup name l : NoDup l.*1 -> NoDup (dremove name l).*1.
Proof.
  induction l as [|[nm i] l IH]; intros Hnd; cbn [dremove]; [done|]. pose proof Hnd as Hnd0. cbn in Hnd. apply NoDup_cons in Hnd as [Hn Hnd].
  case_bool_decide; [done|]. cbn. apply NoDup_cons. split; [|by apply IH]. intros Hin. apply Hn. apply list_elem_of_fmap in Hin as ([x y] & -> & Hin).
  apply dremove_elem in Hin as [Hin _]; [|done]. apply list_elem_of_fmap. by exists (x, y).
Qed.

(** ** Linked blocks *)

(** The block before the end of [l], [prev] when there is none. *)
Definition before (prev : Z) (l : list Z) : Z := default prev (last l).

Lemma before_cons prev a l : before prev (a :: l) = before a l.
Proof. unfold before. rewrite last_cons. by destruct (last l). Qed.

Section linked.
Implicit Types (nxt : Z -> option Z) (l : list Z).

(** The blocks [l] from [p] on, with [nxt] the links. *)
Fixpoint linked nxt (p : Z) l : Prop :=
  match l with [] => p = 0 | a :: l => p = a /\ a <> 0 /\ exists nx, nxt a = Some nx /\ linked nxt nx l end.

Lemma linked_det nxt l1 : forall p l2, linked nxt p l1 -> linked nxt p l2 -> l1 = l2.
Proof.
  induction l1 as [|a l1 IH]; intros p [|b l2]; cbn; [done|naive_solver|naive_solver|].
  intros (-> & Ha & nx & E & H1) (-> & _ & nx' & E' & H2). simplify_eq. f_equal. by eapply IH.
Qed.

Lemma linked_app nxt l1 : forall p l2, linked nxt p (l1 ++ l2) -> exists q, linked nxt q l2.
Proof. induction l1 as [|a l1 IH]; intros p l2 H; [by exists p|]. destruct H as (_ & _ & nx & _ & H). by eapply IH. Qed.

Lemma linked_nodup nxt l : forall p, linked nxt p l -> NoDup l.
Proof.
  induction l as [|a l IH]; intros p H; [constructor|]. pose proof H as H0. destruct H as (-> & Ha & nx & E & H). apply NoDup_cons.
  split; [|by eapply IH]. intros Hin. apply list_elem_of_split in Hin as (l1 & l2 & ->). destruct (linked_app nxt l1 nx _ H) as [q Hq].
  assert (q = a) as -> by apply Hq. pose proof (linked_det _ _ _ _ H0 Hq) as El. apply (f_equal length) in El. cbn in El.
  rewrite length_app in El. cbn in El. lia.
Qed.

Lemma linked_elem nxt l : forall p a, linked nxt p l -> a ∈ l -> a <> 0 /\ is_Some (nxt a).
Proof.
  induction l as [|b l IH]; intros p a H Hin; [by apply elem_of_nil in Hin|]. destruct H as (-> & Hb & nx & E & H).
  apply elem_of_cons in Hin as [->|Hin]; [split; [done|by exists nx]|by eapply IH].
Qed.

Lemma linked_ext nxt nxt' l : forall p, (forall a, a ∈ l -> nxt' a = nxt a) -> linked nxt p l -> linked nxt' p l.
Proof.
  induction l as [|a l IH]; intros p He H; [done|]. destruct H as (-> & Ha & nx & E & H). split_and!; [done|done|].
  exists nx. split; [rewrite He; [done|by left]|]. apply IH; [|done]. intros b Hb. apply He. by right.
Qed.

(** The fuel of the walks is enough. *)
Lemma linked_fuel {T} (m : gmap Z T) (f : T -> Z) l p : linked (fun a => f <$> m !! a) p l -> (length l < S (size m))%nat.
Proof.
  intros H. rewrite <- size_dom. pose proof (linked_nodup _ _ _ H) as Hnd.
  rewrite <- (size_list_to_set (C := gset Z) l Hnd). apply le_n_S, subseteq_size. intros a Ha%elem_of_list_to_set.
  destruct (linked_elem _ _ _ _ H Ha) as (_ & nx & E). apply fmap_Some in E as (d & E & _). by eapply elem_of_dom_2.
Qed.

(** Taking a block out: its predecessor, or the head, gets its link. *)
Lemma linked_unlink nxt nxt' a nx l2 l1 : forall p prev, linked nxt p (l1 ++ a :: l2) -> nxt a = Some nx ->
  (forall b, b ∈ l1 ++ l2 -> nxt' b = if b =? before prev l1 then Some nx else nxt b) -> (prev = 0 \/ prev ∉ l1 ++ a :: l2) ->
  linked nxt' (match l1 with [] => nx | _ => p end) (l1 ++ l2).
Proof.
  induction l1 as [|b l1 IH]; intros p prev H Ea Hn Hp.
  - cbn [app] in *. destruct H as (-> & Ha & nx' & E & H). simplify_eq. eapply linked_ext; [|exact H]. intros b Hb.
    rewrite Hn by done. rewrite (proj2 (Z.eqb_neq b _)); [done|]. unfold before. cbn. intros ->.
    destruct Hp as [->|Hp]; [by apply (linked_elem _ _ _ _ H) in Hb as [? _]|apply Hp; by right].
  - pose proof (linked_nodup _ _ _ H) as Hnd. cbn [app] in *. destruct H as (-> & Hb & nx' & E & H). split_and!; [done|done|].
    rewrite before_cons in Hn. apply NoDup_cons in Hnd as [Hnin Hnd].
    assert (Hb' : nxt' b = if b =? before b l1 then Some nx else nxt b) by (apply Hn; by left).
    specialize (IH nx' b H Ea (fun c Hc => Hn c (list_elem_of_further _ _ _ Hc)) (or_intror Hnin)).
    destruct l1 as [|c l1]; [exists nx; split; [by rewrite Hb'; unfold before; cbn; rewrite Z.eqb_refl|done]|].
    exists nx'. split; [|exact IH]. rewrite Hb', (proj2 (Z.eqb_neq _ _)); [done|]. rewrite before_cons. intros Eb. apply Hnin.
    apply elem_of_app. left. rewrite Eb. unfold before. destruct (last l1) as [x|] eqn:El; cbn; [|by left].
    right. apply last_Some_elem_of in El. done.
Qed.
End linked.

(** ** Walks over a directory *)

Section dlist.
Implicit Types (ents : gmap Z tmpfs_dirent) (l : list (Z * entry)).

Definition dnext ents (a : Z) : option Z := de_next <$> ents !! a.

(** The blocks of a directory from [p] on, with what they hold. *)
Definition dlist ents (p : Z) l : Prop :=
  linked (dnext ents) p l.*1 /\ forall a e, (a, e) ∈ l -> exists nx, ents !! a = Some (Dirent e.2 nx e.1).

Lemma dlist_nil ents p : dlist ents p [] <-> p = 0.
Proof. split; [by intros [? _]|]. intros ->. split; [done|]. by intros a e ?%elem_of_nil. Qed.

Lemma dlist_cons ents p a nm ino l :
  dlist ents p ((a, (nm, ino)) :: l) <-> p = a /\ a <> 0 /\ exists nx, ents !! a = Some (Dirent ino nx nm) /\ dlist ents nx l.
Proof.
  split.
  - intros [(-> & Ha & nx & E & H) Hc]. split_and!; [done|done|]. exists nx.
    destruct (Hc a (nm, ino)) as [nx' E']; [by left|]. change (de_next <$> ents !! a = Some nx) in E. rewrite E' in E. injection E as ->. split; [done|].
    split; [done|]. intros b e Hb. apply Hc. by right.
  - intros (-> & Ha & nx & E & H & Hc). split.
    + split_and!; [done|done|]. exists nx. split; [|done]. change (de_next <$> ents !! a = Some nx). by rewrite E.
    + intros b e [[= -> ->]|Hb]%elem_of_cons; [by exists nx|by apply Hc].
Qed.

Lemma dlist_ext ents ents' l p : (forall a, a ∈ l.*1 -> ents' !! a = ents !! a) -> dlist ents p l -> dlist ents' p l.
Proof.
  intros He [H Hc]. split.
  - eapply linked_ext; [|exact H]. intros a Ha. unfold dnext. by rewrite He.
  - intros a e Hin. rewrite He; [by apply Hc|]. apply list_elem_of_fmap. by exists (a, e).
Qed.

Lemma dlist_fuel ents l p : dlist ents p l -> (length l < S (size ents))%nat.
Proof. intros [H _]. rewrite <- (length_fmap fst l). by eapply linked_fuel. Qed.

Definition names_ok l : Prop := Forall (fun e => name_ok e.1) l.*2.

Lemma find_name_spec ents name l : cbytes name -> forall fuel p, dlist ents p l -> names_ok l -> (length l < fuel)%nat ->
  find_name fuel ents p name = Some (default 0 (assoc name l.*2)).
Proof.
  intros Hn. induction l as [|[a [nm i]] l IH]; intros [|fuel] p H Hok Hf; cbn [length] in Hf; try lia; cbn [find_name].
  - apply dlist_nil in H as ->. done.
  - apply dlist_cons in H as (-> & Ha & nx & E & H). rewrite (proj2 (Z.eqb_neq a 0) Ha), E. cbn [mbind option_bind de_name de_ino de_next fmap list_fmap assoc snd].
    apply Forall_cons in Hok as [Hnm Hok]. cbn [fst snd] in Hnm. rewrite nm_eq_spec by done. case_bool_decide; [done|]. apply IH; [done|done|lia].
Qed.

Lemma has_name_spec ents name l : cbytes name -> forall fuel p, dlist ents p l -> names_ok l -> (length l < fuel)%nat ->
  has_name fuel ents p name = Some (bool_decide (is_Some (assoc name l.*2))).
Proof.
  intros Hn. induction l as [|[a [nm i]] l IH]; intros [|fuel] p H Hok Hf; cbn [length] in Hf; try lia; cbn [has_name].
  - apply dlist_nil in H as ->. done.
  - apply dlist_cons in H as (-> & Ha & nx & E & H). rewrite (proj2 (Z.eqb_neq a 0) Ha), E. cbn [mbind option_bind de_name de_ino de_next fmap list_fmap assoc snd].
    apply Forall_cons in Hok as [Hnm Hok]. cbn [fst snd] in Hnm. rewrite nm_eq_spec by done. destruct (decide (nm = name)) as [Enm|Enm];
      [by rewrite (bool_decide_true _ Enm)|]. rewrite (bool_decide_false _ Enm). apply IH; [done|done|lia].
Qed.

Lemma name_before_spec ents name l : cbytes name -> forall fuel prev p, dlist ents p l -> names_ok l -> (length l < fuel)%nat ->
  (assoc name l.*2 = None -> name_before fuel ents prev p name = Some None) /\
  (forall i, assoc name l.*2 = Some i -> exists l1 a l2, l = l1 ++ (a, (name, i)) :: l2 /\ assoc name l1.*2 = None /\
     name_before fuel ents prev p name = Some (Some (before prev l1.*1, a))).
Proof.
  intros Hn. induction l as [|[a [nm i]] l IH]; intros [|fuel] prev p H Hok Hf; cbn [length] in Hf; try lia; cbn [name_before].
  - apply dlist_nil in H as ->. split; [done|by intros i].
  - apply dlist_cons in H as (-> & Ha & nx & E & H). rewrite (proj2 (Z.eqb_neq a 0) Ha), E. cbn [mbind option_bind de_name de_ino de_next fmap list_fmap assoc snd].
    apply Forall_cons in Hok as [Hnm Hok]. cbn [fst snd] in Hnm. rewrite nm_eq_spec by done. case_bool_decide as Enm.
    + subst nm. split; [done|]. intros j [= ->]. by exists [], a, l.
    + destruct (IH fuel a nx H Hok ltac:(lia)) as [IH1 IH2]. split; [done|]. intros j Hj.
      destruct (IH2 j Hj) as (l1 & b & l2 & -> & Ha1 & Hb). exists ((a, (nm, i)) :: l1), b, l2. split_and!; [done| |].
      * cbn. by rewrite bool_decide_false.
      * cbn [fmap list_fmap fst]. rewrite before_cons. done.
Qed.

Lemma nth_entry_spec ents idx l : forall fuel p i, dlist ents p l -> (length l < fuel)%nat -> i <= idx ->
  exists r, nth_entry fuel ents p i idx = Some r /\
    match l !! Z.to_nat (idx - i) with Some (_, (nm, ino)) => exists nx, r = Some (Dirent ino nx nm) | None => r = None end.
Proof.
  induction l as [|[a [nm j]] l IH]; intros [|fuel] p i H Hf Hi; cbn [length] in Hf; try lia; cbn [nth_entry].
  - apply dlist_nil in H as ->. by exists None.
  - apply dlist_cons in H as (-> & Ha & nx & E & H). rewrite (proj2 (Z.eqb_neq a 0) Ha), E. cbn [mbind option_bind de_next].
    destruct (Z.eqb_spec i idx) as [->|Hne].
    + exists (Some (Dirent j nx nm)). split; [done|]. rewrite Z.sub_diag. cbn. by exists nx.
    + destruct (IH fuel nx (i + 1) H ltac:(lia) ltac:(lia)) as (r & Er & Hr). exists r. split; [done|].
      by replace (Z.to_nat (idx - i)) with (S (Z.to_nat (idx - (i + 1)))) by lia.
Qed.

(** ** Changes to a directory *)

Lemma dlist_push ents p l a nm ino : dlist ents p l -> a <> 0 -> a ∉ l.*1 ->
  dlist (<[a := Dirent ino p nm]> ents) a ((a, (nm, ino)) :: l).
Proof.
  intros H Ha Hn. apply dlist_cons. split_and!; [done|done|]. exists p. rewrite lookup_insert_eq. split; [done|].
  eapply dlist_ext; [|exact H]. intros b Hb. rewrite lookup_insert_ne; [done|]. by intros ->.
Qed.

Lemma dlist_split ents p l1 a nm ino l2 : dlist ents p (l1 ++ (a, (nm, ino)) :: l2) ->
  exists nx, ents !! a = Some (Dirent ino nx nm) /\ (a ∉ l1.*1) /\ (a ∉ l2.*1) /\ (forall b, b = before 0 l1.*1 -> b <> 0 -> b ∈ l1.*1) /\
    (before 0 l1.*1 = 0 <-> l1 = []).
Proof.
  intros [H Hc]. destruct (Hc a (nm, ino)) as [nx E]; [apply elem_of_app; right; by left|]. exists nx. split; [done|].
  pose proof (linked_nodup _ _ _ H) as Hnd. rewrite fmap_app in Hnd. cbn in Hnd. apply NoDup_app in Hnd as (H1 & H2 & H3).
  apply NoDup_cons in H3 as [H3 _]. split_and!.
  - intros Hin. apply (H2 a Hin). by left.
  - done.
  - intros b -> Hb. unfold before in *. destruct (last l1.*1) eqn:El; [by apply last_Some_elem_of in El|done].
  - split; [|by intros ->]. intros E0. destruct l1 as [|x l1] using rev_ind; [done|]. exfalso.
    unfold before in E0. rewrite fmap_app, last_app in E0. cbn in E0.
    destruct (linked_elem _ _ _ x.1 H) as [Hx _]; [|done]. rewrite !fmap_app. apply elem_of_app. left. apply elem_of_app. right. by left.
Qed.

Lemma dlist_remove ents p l1 a nm ino l2 nx : dlist ents p (l1 ++ (a, (nm, ino)) :: l2) -> ents !! a = Some (Dirent ino nx nm) ->
  let prev := before 0 l1.*1 in
  (prev = 0 -> dlist (delete a ents) nx (l1 ++ l2)) /\
  (forall d, prev <> 0 -> ents !! prev = Some d -> dlist (delete a (<[prev := Dirent (de_ino d) nx (de_name d)]> ents)) p (l1 ++ l2)).
Proof.
  intros H Ea prev. destruct (dlist_split _ _ _ _ _ _ _ H) as (nx' & Ea' & Hn1 & Hn2 & Hprev & H0). fold prev in Hprev, H0.
  rewrite Ea in Ea'. injection Ea' as <-. destruct H as [H Hc].
  assert (Hna : forall b e, (b, e) ∈ l1 ++ l2 -> b <> a /\ (b, e) ∈ l1 ++ (a, (nm, ino)) :: l2).
  { intros b e Hb. split; [intros ->; apply elem_of_app in Hb as [Hb|Hb]; [apply Hn1|apply Hn2]; apply list_elem_of_fmap; by exists (a, e)|].
    apply elem_of_app in Hb as [Hb|Hb]; apply elem_of_app; [by left|right; by right]. }
  rewrite fmap_app in H. cbn [fmap list_fmap fst] in H. split.
  - intros E0. apply H0 in E0 as ->. split.
    + apply (linked_unlink (dnext ents) (dnext (delete a ents)) a nx (l2.*1) [] p 0) in H; [exact H|unfold dnext; by rewrite Ea| |by left].
      intros b Hb. cbn in Hb. unfold dnext. rewrite lookup_delete_ne by (intros <-; done). unfold before. cbn.
      rewrite (proj2 (Z.eqb_neq b 0)); [done|]. destruct (linked_elem _ _ _ b H) as [? _]; [by right|done].
    + intros b e Hb. destruct (Hna b e Hb) as [Hne Hin]. rewrite lookup_delete_ne by done. by apply Hc.
  - intros d Hp Ed. assert (Hpa : prev <> a) by (intros E; apply Hn1; rewrite <- E; by apply Hprev). split.
    + apply (linked_unlink (dnext ents) (dnext (delete a (<[prev := Dirent (de_ino d) nx (de_name d)]> ents))) a nx (l2.*1) (l1.*1) p 0) in H;
        [|unfold dnext; by rewrite Ea| |by left].
      * rewrite fmap_app. destruct l1; [exfalso; apply Hp; by apply H0|exact H].
      * intros b Hb. fold prev. rewrite <- fmap_app in Hb. apply list_elem_of_fmap in Hb as ([b' e] & -> & Hb). destruct (Hna b' e Hb) as [Hne _].
        unfold dnext. cbn. rewrite lookup_delete_ne by done. destruct (Z.eqb_spec b' prev) as [->|]; [by rewrite lookup_insert_eq|by rewrite lookup_insert_ne].
    + intros b e Hb. destruct (Hna b e Hb) as [Hne Hin]. rewrite lookup_delete_ne by done. destruct (Hc b e Hin) as [nb Eb].
      destruct (Z.eq_dec b prev) as [->|]; [|rewrite lookup_insert_ne by done; by exists nb]. rewrite lookup_insert_eq. simplify_eq. by exists nx.
Qed.

Lemma dremove_split name i a l1 l2 : assoc name l1.*2 = None -> dremove name (l1 ++ (a, (name, i)) :: l2).*2 = (l1 ++ l2).*2.
Proof.
  induction l1 as [|[b [nm j]] l1 IH]; cbn; intros H; [by rewrite bool_decide_true|]. revert H. case_bool_decide; [done|]. intros Hn. by rewrite IH.
Qed.
End dlist.

(** ** Hash chains *)

Section ichain.
Implicit Types (inos : gmap Z tmpfs_inode) (l : list Z).

Definition inext inos (a : Z) : option Z := ht_next <$> inos !! a.
Definition ichain inos (p : Z) l : Prop := linked (inext inos) p l.

Lemma ichain_lookup inos p a l : ichain inos p (a :: l) -> p = a /\ a <> 0 /\ exists ip, inos !! a = Some ip /\ ichain inos (ht_next ip) l.
Proof.
  intros (-> & Ha & nx & E & H). split_and!; [done|done|]. unfold inext in E. destruct (inos !! a) as [ip|]; [|done].
  injection E as <-. by exists ip.
Qed.

(** The inode with number [ino], if the chain holds one. *)
Lemma chain_find_spec inos ino l : forall fuel p, ichain inos p l -> (length l < fuel)%nat ->
  exists a, chain_find fuel inos p ino = Some a /\
    ((a = 0 /\ forall b ip, b ∈ l -> inos !! b = Some ip -> i_ino ip <> ino) \/
     (a <> 0 /\ a ∈ l /\ exists ip, inos !! a = Some ip /\ i_ino ip = ino)).
Proof.
  induction l as [|b l IH]; intros [|fuel] p H Hf; cbn [length] in Hf; try lia; cbn [chain_find].
  - cbn in H. subst p. exists 0. split; [done|left]. split; [done|]. by intros b ip ?%elem_of_nil.
  - apply ichain_lookup in H as (-> & Hb & ip & E & H). rewrite (proj2 (Z.eqb_neq b 0) Hb), E. cbn [mbind option_bind].
    destruct (Z.eqb_spec (i_ino ip) ino) as [Ei|Ei].
    + exists b. split; [done|right]. split_and!; [done|by left|by exists ip].
    + destruct (IH fuel (ht_next ip) H ltac:(lia)) as (a & Ea & Ha). exists a. split; [done|]. destruct Ha as [[-> Ha]|(Ha & Hin & Hex)].
      * left. split; [done|]. intros c ic [->|Hc]%elem_of_cons Hic; [congruence|by eapply Ha].
      * right. split_and!; [done|by right|done].
Qed.

Lemma chain_before_spec inos a l2 l1 : forall fuel prev p, ichain inos p (l1 ++ a :: l2) -> (length (l1 ++ a :: l2) < fuel)%nat ->
  chain_before fuel inos prev p a = Some (Some (before prev l1)).
Proof.
  induction l1 as [|b l1 IH]; intros [|fuel] prev p H Hf; cbn [length app] in *; try lia; cbn [chain_before].
  - apply ichain_lookup in H as (-> & Ha & _). by rewrite (proj2 (Z.eqb_neq a 0) Ha), Z.eqb_refl.
  - assert (Hne : b <> a). { pose proof (linked_nodup _ _ _ H) as Hnd. apply NoDup_cons in Hnd as [Hn _]. intros ->. apply Hn. apply elem_of_app. right. by left. }
    apply ichain_lookup in H as (-> & Hb & ip & E & H).
    rewrite (proj2 (Z.eqb_neq b 0) Hb), (proj2 (Z.eqb_neq b a) Hne), E. cbn [mbind option_bind]. rewrite before_cons. apply IH; [done|lia].
Qed.
End ichain.
