(* ===== verification/TmpfsRel.v ===== *)
(** * The memory of a tmpfs instance

    An abstract file system is a map from inode numbers to nodes.  This file
    says when the blocks on the heap represent one: every block in use
    belongs to exactly one structure or to somebody else, every node has its
    inode, its entries and its pages, and shows how blocks change hands. *)

From stdpp Require Import base gmap list.
From Stdlib Require Import ZArith Lia.
From S2P Require Import Prelude Spinlock Kmalloc Allocator Tmpfs TmpfsFile TmpfsProps TmpfsNs TmpfsWalk.

(** ** Abstract file systems *)

Record anode := ANode {
  an_type : Z; an_perm : Z; an_nlink : Z; an_size : Z; an_mtime : Z; an_ctime : Z;
  an_ents : list entry; an_data : Z -> Z }.

(** Nodes by number, the next number, and the node of each open handle. *)
Record ns := NS { ns_nodes : gmap Z anode; ns_next : Z; ns_hdls : gmap Z Z }.

(** What a block is used for; the number is that of the inode it serves. *)
Inductive label := LSb | LIno (n : Z) | LEnt (n : Z) | LHdl | LFile (n : Z).

#[global] Instance label_eq_dec : EqDecision label.
Proof. solve_decision. Defined.

Section rel.
Context {A : Type} `{AL : AllocatorLaws A}.
Implicit Types (t : tmpfs A) (live F : gset Z) (L : gmap Z Z) (E : Z -> list (Z * entry)) (N : gmap Z anode)
  (ip : tmpfs_inode) (nd : anode) (es : list (Z * entry)).

(** [L] gives the inode of a number, [E] its entries. *)
Definition held t L E (b : Z) (l : label) : Prop :=
  match l with
  | LSb => is_Some (t_sbs t !! b)
  | LIno n => L !! n = Some b
  | LEnt n => b ∈ (E n).*1
  | LHdl => is_Some (t_hdls t !! b)
  | LFile n => exists a ip, L !! n = Some a /\ t_inos t !! a = Some ip /\ owns ip (t_mem t) b
  end.

Record node_ok t live (n : Z) nd ip es : Prop := {
  no_ino : i_ino ip = n;
  no_type : i_type ip = an_type nd;
  no_perm : i_perm ip = an_perm nd;
  no_nlink : i_nlink ip = an_nlink nd;
  no_size : i_size ip = an_size nd;
  no_mtime : i_mtime ip = an_mtime nd;
  no_ctime : i_ctime ip = an_ctime nd;
  no_lock : lock_free (i_lock ip);
  no_kind : an_type nd = TMPFS_T_DIR \/ an_type nd = TMPFS_T_REG /\ es = [];
  no_list : dlist (t_ents t) (de_head ip) es;
  no_ents : an_ents nd = es.*2;
  no_count : de_count ip = u32 (Z.of_nat (length es));
  no_names : names_ok es;
  no_nodup : NoDup (an_ents nd).*1;
  no_file : file_ok ip (t_mem t) live;
  no_max : 0 <= an_size nd <= TMPFS_MAX_SZ;
  no_bytes : forall k, 0 <= k < TMPFS_MAX_SZ -> fbyte ip (t_mem t) k = an_data nd k }.

(** [F] are blocks in use that are not the file system's. *)
Record parts t live F L E N : Prop := {
  pt_heap : al_inv (heap (t_mem t)) live;
  pt_live : forall b, b ∈ live <-> b ∈ F \/ exists l, held t L E b l;
  pt_uniq : forall b l l', held t L E b l -> held t L E b l' -> l = l';
  pt_frame : forall b l, held t L E b l -> b ∉ F;
  pt_nz : forall b l, held t L E b l -> b <> 0;
  pt_dom : forall n, is_Some (L !! n) <-> is_Some (N !! n);
  pt_none : forall n, N !! n = None -> E n = [];
  pt_node : forall n nd, N !! n = Some nd -> exists a ip, L !! n = Some a /\ t_inos t !! a = Some ip /\ node_ok t live n nd ip (E n);
  pt_ino : forall a ip, t_inos t !! a = Some ip -> L !! (i_ino ip) = Some a }.

(** ** Frames *)

Lemma file_frame ip (st st' : store) live live' : file_ok ip st live -> al_inv (heap st') live' ->
  (forall b, owns ip st b -> b ∈ live' /\ tables st' b = tables st b /\ pages st' b = pages st b) ->
  file_ok ip st' live' /\ (forall k, 0 <= k < TMPFS_MAX_SZ -> fbyte ip st' k = fbyte ip st k) /\ (forall b, owns ip st' b <-> owns ip st b).
Proof.
  intros [F1 F2 F3 F4 F5 F6] Hh Hb.
  assert (Hp : forall p, 0 <= p < 4096 -> pga ip st' p = pga ip st p).
  { intros p Hp. destruct (pg_split p Hp) as [Hi _]. unfold pga. cbv zeta. destruct (Z.eqb_spec (pg_l1 ip (p / 64)) 0) as [|Hn]; [done|].
    destruct (Hb (pg_l1 ip (p / 64))) as (_ & -> & _); [|done]. split; [done|left]. by exists (p / 64). }
  assert (Ho : forall b, owns ip st' b <-> owns ip st b).
  { intros b. unfold owns. split; (intros [Hn [Hi|(p & Hq & E)]]; split; [done|by left|done|right]); exists p; (split; [done|]); rewrite Hp in *; done. }
  split_and!; [constructor|..|done]; try done.
  - intros i Hi Hn. apply Hb. split; [done|left]. by exists i.
  - intros p Hq. rewrite Hp by done. intros Hn. apply Hb. split; [done|right]. by exists p.
  - intros p q Hq Hq'. rewrite !Hp by done. by apply F5.
  - intros i p Hi Hq. rewrite Hp by done. by apply F6.
  - apply fbyte_same; [done|]. intros p Hq Hn. apply Hb. split; [done|right]. by exists p.
Qed.

Lemma node_frame t t' live live' n nd ip es : node_ok t live n nd ip es -> al_inv (heap (t_mem t')) live' ->
  (forall b, owns ip (t_mem t) b -> b ∈ live' /\ tables (t_mem t') b = tables (t_mem t) b /\ pages (t_mem t') b = pages (t_mem t) b) ->
  (forall b, b ∈ es.*1 -> t_ents t' !! b = t_ents t !! b) ->
  node_ok t' live' n nd ip es /\ forall b, owns ip (t_mem t') b <-> owns ip (t_mem t) b.
Proof.
  intros Hok Hh Hb He. destruct Hok. destruct (file_frame ip (t_mem t) (t_mem t') live live' no_file0 Hh Hb) as (H1 & H2 & H3).
  split; [|done]. constructor; try done; [by eapply dlist_ext|]. intros k Hk. rewrite H2 by done. by apply no_bytes0.
Qed.

Lemma node_same t t' live n nd ip es : t_mem t' = t_mem t -> t_ents t' = t_ents t -> node_ok t live n nd ip es -> node_ok t' live n nd ip es.
Proof. intros Em Ee Hok. destruct Hok. constructor; rewrite ?Em, ?Ee; done. Qed.

Lemma parts_lookup t live F L E N n a : parts t live F L E N -> L !! n = Some a ->
  exists nd ip, N !! n = Some nd /\ t_inos t !! a = Some ip /\ node_ok t live n nd ip (E n).
Proof.
  intros P Hl. destruct (proj1 (pt_dom _ _ _ _ _ _ P n)) as [nd Hn]; [by exists a|]. destruct (pt_node _ _ _ _ _ _ P n nd Hn) as (a' & ip & Hl' & Hi & Ho).
  simplify_eq. by exists nd, ip.
Qed.

Lemma parts_inj t live F L E N n m a : parts t live F L E N -> L !! n = Some a -> L !! m = Some a -> n = m.
Proof. intros P H1 H2. assert (LIno n = LIno m) as [= ->]; [|done]. by eapply (pt_uniq _ _ _ _ _ _ P a). Qed.

(** ** Changing one node *)

(** Blocks of node [n] in a state with inode [ip] and entries [es]. *)
Definition mine t ip es (b : Z) : Prop := owns ip (t_mem t) b \/ b ∈ es.*1.

Definition other (n : Z) (l : label) : Prop := l <> LEnt n /\ l <> LFile n.

Lemma parts_update t t' live live' F F' L E N n a ip ip' nd' es' :
  parts t live F L E N -> L !! n = Some a -> t_inos t !! a = Some ip ->
  t_inos t' = <[a := ip']> (t_inos t) -> t_sbs t' = t_sbs t -> t_hdls t' = t_hdls t ->
  (forall b, ~ mine t ip (E n) b -> b ∉ es'.*1 -> t_ents t' !! b = t_ents t !! b) ->
  node_ok t' live' n nd' ip' es' ->
  (forall b l, held t L E b l -> other n l -> b ∈ live' /\ tables (t_mem t') b = tables (t_mem t) b /\ pages (t_mem t') b = pages (t_mem t) b /\
     ~ mine t' ip' es' b /\ (b ∉ F')) ->
  (forall b, mine t' ip' es' b -> b ∈ live' /\ (b ∉ F') /\ b <> 0) -> (forall b, owns ip' (t_mem t') b -> b ∉ es'.*1) ->
  (forall b, b ∈ live' -> b ∈ F' \/ mine t' ip' es' b \/ exists l, held t L E b l /\ other n l) -> F' ⊆ live' ->
  parts t' live' F' L (upd E n es') (<[n := nd']> N).
Proof.
  intros P Hl Hi Einos Esbs Ehdls Hents Hnode Hkeep Hmine Hsep Hlive HF.
  destruct (parts_lookup _ _ _ _ _ _ _ _ P Hl) as (nd & ip0 & HN & Hi0 & Ho). simplify_eq.
  assert (Hoth : forall m nd2, m <> n -> N !! m = Some nd2 -> exists a2 ip2, L !! m = Some a2 /\ t_inos t' !! a2 = Some ip2 /\ t_inos t !! a2 = Some ip2 /\
            node_ok t' live' m nd2 ip2 (E m) /\ forall b, owns ip2 (t_mem t') b <-> owns ip2 (t_mem t) b).
  { intros m nd2 Hm Hnd2. destruct (pt_node _ _ _ _ _ _ P m nd2 Hnd2) as (a2 & ip2 & Hl2 & Hi2 & Ho2). exists a2, ip2.
    assert (Ha2 : a2 <> a) by (intros ->; apply Hm; by eapply parts_inj).
    split; [done|]. split; [by rewrite Einos, lookup_insert_ne|]. split; [done|].
    apply (node_frame t t' live live' m nd2 ip2 (E m) Ho2); [apply (fo_heap _ _ _ (no_file _ _ _ _ _ _ Hnode))|..].
    - intros b Hb. destruct (Hkeep b (LFile m)) as (? & ? & ? & _); [by exists a2, ip2|split; congruence|done].
    - intros b Hb. assert (Hh : held t L E b (LEnt m)) by done. destruct (Hkeep b (LEnt m) Hh) as (_ & _ & _ & Hnm & _); [split; congruence|].
      apply Hents; [|intros Hin; apply Hnm; by right]. intros [Hw|Hw].
      + assert (LEnt m = LFile n) by (eapply (pt_uniq _ _ _ _ _ _ P b); [done|by exists a, ip]). done.
      + assert (LEnt m = LEnt n) by (by eapply (pt_uniq _ _ _ _ _ _ P b)). congruence. }
  assert (Hheld : forall b l, held t' L (upd E n es') b l <-> (held t L E b l /\ other n l) \/ (l = LEnt n /\ b ∈ es'.*1) \/ (l = LFile n /\ owns ip' (t_mem t') b)).
  { intros b l. unfold other. destruct l as [|m|m| |m]; cbn [held]; rewrite ?Esbs, ?Ehdls.
    - naive_solver.
    - naive_solver.
    - unfold upd. destruct (Z.eqb_spec m n) as [->|Hm]; naive_solver.
    - naive_solver.
    - destruct (Z.eq_dec m n) as [->|Hm].
      + split; [|intros [[_ [_ ?]]|[[? _]|[_ Hw]]]; [done|done|]].
        * intros (a2 & ip2 & Hl2 & Hi2 & Hw). right. right. simplify_eq. rewrite Einos, lookup_insert_eq in Hi2. by simplify_eq.
        * exists a, ip'. by rewrite Einos, lookup_insert_eq.
      + split; [|intros [[(a2 & ip2 & Hl2 & Hi2 & Hw) _]|[[? _]|[? _]]]; [|done|congruence]].
        * intros (a2 & ip2 & Hl2 & Hi2 & Hw). left. split; [|split; congruence].
          destruct (parts_lookup _ _ _ _ _ _ _ _ P Hl2) as (nd2 & ip3 & Hn2 & Hi3 & _).
          destruct (Hoth m nd2 Hm Hn2) as (a3 & ip4 & Hl3 & Hi4 & Hi5 & _ & Hw3). simplify_eq. do 2 eexists. split_and!; [done|done|by apply Hw3].
        * destruct (parts_lookup _ _ _ _ _ _ _ _ P Hl2) as (nd2 & ip3 & Hn2 & Hi3 & _).
          destruct (Hoth m nd2 Hm Hn2) as (a3 & ip4 & Hl3 & Hi4 & Hi5 & _ & Hw3). simplify_eq. do 2 eexists. split_and!; [done|done|by apply Hw3]. }
  assert (Hsplit : forall b l, held t' L (upd E n es') b l -> (held t L E b l /\ other n l) \/ (mine t' ip' es' b /\ (l = LEnt n \/ l = LFile n))).
  { intros b l [H1|[[-> H1]|[-> H1]]]%Hheld; [by left|right; split; [by right|by left]|right; split; [by left|by right]]. }
  constructor.
  - apply (fo_heap _ _ _ (no_file _ _ _ _ _ _ Hnode)).
  - intros b. split.
    + intros [HbF|[[Hw|Hw]|(l & Hh & Hot)]]%Hlive; [by left|..]; right; [exists (LFile n)|exists (LEnt n)|exists l]; apply Hheld; auto.
    + intros [HbF|(l & Hh)]; [by apply HF|]. destruct (Hsplit b l Hh) as [[Hh1 Hot]|[Hm _]]; [by eapply Hkeep|by apply Hmine].
  - intros b l l' H1 H2. destruct (Hsplit b l H1) as [[Hh1 Ho1]|[Hm1 _]], (Hsplit b l' H2) as [[Hh2 Ho2]|[Hm2 _]].
    + by eapply (pt_uniq _ _ _ _ _ _ P).
    + by apply (Hkeep b l) in Hm2.
    + by apply (Hkeep b l') in Hm1.
    + apply Hheld in H1 as [[Hh1 Ho1]|[[-> H1]|[-> H1]]]; [by apply (Hkeep b l) in Hm1|..];
        (apply Hheld in H2 as [[Hh2 Ho2]|[[-> H2]|[-> H2]]]; [by apply (Hkeep b l') in Hm1|..]); [done|by apply Hsep in H2|by apply Hsep in H1|done].
  - intros b l H1. destruct (Hsplit b l H1) as [[Hh1 Ho1]|[Hm1 _]]; [by eapply Hkeep|by apply Hmine].
  - intros b l H1. destruct (Hsplit b l H1) as [[Hh1 Ho1]|[Hm1 _]]; [by eapply (pt_nz _ _ _ _ _ _ P)|by apply Hmine].
  - intros m. rewrite (pt_dom _ _ _ _ _ _ P). destruct (Z.eq_dec m n) as [->|]; [|by rewrite lookup_insert_ne]. rewrite lookup_insert_eq, HN. split; eauto.
  - intros m Hm. assert (m <> n) by (intros ->; by rewrite lookup_insert_eq in Hm). rewrite lookup_insert_ne in Hm by done.
    rewrite upd_ne by done. by apply (pt_none _ _ _ _ _ _ P).
  - intros m nd2 Hm. destruct (Z.eq_dec m n) as [->|Hne].
    + rewrite lookup_insert_eq in Hm. simplify_eq. exists a, ip'. rewrite Einos, lookup_insert_eq, upd_eq. done.
    + rewrite lookup_insert_ne in Hm by done. destruct (Hoth m nd2 Hne Hm) as (a2 & ip2 & ? & ? & _ & ? & _). exists a2, ip2. by rewrite upd_ne.
  - intros a2 ip2. rewrite Einos. destruct (Z.eq_dec a2 a) as [->|Hne]; [rewrite lookup_insert_eq; intros [= <-]; by rewrite (no_ino _ _ _ _ _ _ Hnode)|].
    rewrite lookup_insert_ne by done. apply (pt_ino _ _ _ _ _ _ P).
Qed.

(** ** Blocks that change hands *)

(** Same inodes and entries; superblocks, handles and foreign blocks may
    change. *)
Lemma parts_blocks t t' live live' F F' L E N :
  parts t live F L E N ->
  t_inos t' = t_inos t -> t_ents t' = t_ents t -> tables (t_mem t') = tables (t_mem t) -> pages (t_mem t') = pages (t_mem t) ->
  al_inv (heap (t_mem t')) live' ->
  (forall b, is_Some (t_sbs t' !! b) -> is_Some (t_sbs t !! b) \/ b ∈ F) ->
  (forall b, is_Some (t_hdls t' !! b) -> is_Some (t_hdls t !! b) \/ b ∈ F) ->
  (forall b, is_Some (t_sbs t' !! b) -> is_Some (t_hdls t' !! b) -> False) ->
  (forall b, b ∈ live' <-> b ∈ F' \/ exists l, held t' L E b l) -> (forall b l, held t' L E b l -> (b ∉ F') /\ b <> 0) ->
  parts t' live' F' L E N.
Proof.
  intros P Ei Ee Et Ep Hh Hs Hd Hsd Hlive HF.
  assert (Hnode : forall n nd ip, node_ok t live n nd ip (E n) -> L !! n <> None -> (exists a, L !! n = Some a /\ t_inos t !! a = Some ip) ->
    node_ok t' live' n nd ip (E n) /\ forall b, owns ip (t_mem t') b <-> owns ip (t_mem t) b).
  { intros n nd ip Hok _ (a & Hl & Hi). apply (node_frame t t' live live' n nd ip (E n) Hok); [done| |intros; by rewrite Ee].
    intros b Hb. split; [|by rewrite Et, Ep]. apply Hlive. right. exists (LFile n). exists a, ip. rewrite Ei. split_and!; [done|done|].
    unfold owns, pga in *. by rewrite Et. }
  assert (Hold : forall b l, held t' L E b l -> held t L E b l \/ b ∈ F /\ ((l = LSb /\ is_Some (t_sbs t' !! b)) \/ (l = LHdl /\ is_Some (t_hdls t' !! b)))).
  { intros b [|n|n| |n] Hb; cbn [held] in *.
    - destruct (Hs b Hb); auto.
    - auto.
    - auto.
    - destruct (Hd b Hb); auto.
    - left. destruct Hb as (a & ip & Hl & Hi & Hw). exists a, ip. rewrite Ei in Hi. split_and!; [done|done|]. unfold owns, pga in *. by rewrite Et in Hw. }
  constructor; try done.
  - intros b l l' H1 H2. destruct (Hold b l H1) as [O1|[O1 N1]], (Hold b l' H2) as [O2|[O2 N2]].
    + by eapply (pt_uniq _ _ _ _ _ _ P).
    + by apply (pt_frame _ _ _ _ _ _ P) in O1.
    + by apply (pt_frame _ _ _ _ _ _ P) in O2.
    + destruct N1 as [[-> N1]|[-> N1]], N2 as [[-> N2]|[-> N2]]; [done|exfalso; by eapply Hsd|exfalso; by eapply Hsd|done].
  - intros b l Hb. by eapply HF.
  - intros b l Hb. by eapply HF.
  - apply (pt_dom _ _ _ _ _ _ P).
  - apply (pt_none _ _ _ _ _ _ P).
  - intros n nd Hn. destruct (pt_node _ _ _ _ _ _ P n nd Hn) as (a & ip & Hl & Hi & Hok). exists a, ip. rewrite Ei. split_and!; [done|done|].
    apply Hnode; [done|congruence|by exists a].
  - rewrite Ei. apply (pt_ino _ _ _ _ _ _ P).
Qed.

Lemma parts_alloc t live F L E N sz : parts t live F L E N -> 0 < sz < 2 ^ 62 ->
  exists h p, let t' := with_mem t (Store h (tables (t_mem t)) (pages (t_mem t))) in kalloc t sz = Some (t', p) /\
    (p = 0 /\ parts t' live F L E N \/
     p <> 0 /\ (p ∉ live) /\ parts t' ({[p]} ∪ live) ({[p]} ∪ F) L E N).
Proof using AL.
  intros P Hsz. unfold kalloc. destruct (al_alloc_law (heap (t_mem t)) live sz (pt_heap _ _ _ _ _ _ P) Hsz) as (h & p & -> & Hp). cbn [mbind option_bind].
  exists h, p. split; [done|]. destruct Hp as [[-> Hh]|(Hp & _ & _ & Hnew & Hh)]; [left|right].
  - split; [done|]. eapply (parts_blocks t); try done; [intros b; by left|intros b; by left|..].
    + intros b H1 H2. by pose proof (pt_uniq _ _ _ _ _ _ P b LSb LHdl H1 H2).
    + apply (pt_live _ _ _ _ _ _ P).
    + intros b l Hb. split; [by eapply (pt_frame _ _ _ _ _ _ P)|by eapply (pt_nz _ _ _ _ _ _ P)].
  - split_and!; [done|done|]. eapply (parts_blocks t); try done; [intros b; by left|intros b; by left|..].
    + intros b H1 H2. by pose proof (pt_uniq _ _ _ _ _ _ P b LSb LHdl H1 H2).
    + intros b. rewrite !elem_of_union, (pt_live _ _ _ _ _ _ P).
      split; [intros [?|[?|?]]|intros [[?|?]|?]]; auto.
    + intros b l Hb. split; [|by eapply (pt_nz _ _ _ _ _ _ P)]. rewrite not_elem_of_union, not_elem_of_singleton. split; [|by eapply (pt_frame _ _ _ _ _ _ P)].
      intros ->. apply Hnew. apply (pt_live _ _ _ _ _ _ P). right. by exists l.
Qed.

Lemma parts_free t live F L E N p : parts t live F L E N -> p ∈ F -> p <> 0 ->
  exists h, let t' := with_mem t (Store h (tables (t_mem t)) (pages (t_mem t))) in kfree t p = Some t' /\ parts t' (live ∖ {[p]}) (F ∖ {[p]}) L E N.
Proof using AL.
  intros P Hp Hp0. unfold kfree, free_if. rewrite (proj2 (Z.eqb_neq p 0) Hp0).
  destruct (al_free_law (heap (t_mem t)) live p (pt_heap _ _ _ _ _ _ P)) as (h & -> & Hh); [apply (pt_live _ _ _ _ _ _ P); by left|].
  cbn [mbind option_bind]. exists h. split; [done|]. eapply (parts_blocks t); try done; [intros b; by left|intros b; by left|..].
  - intros b H1 H2. by pose proof (pt_uniq _ _ _ _ _ _ P b LSb LHdl H1 H2).
  - intros b. rewrite !elem_of_difference, elem_of_singleton, (pt_live _ _ _ _ _ _ P). split.
    + intros [[H1|H1] H2]; [left; done|by right].
    + intros [[H1 H2]|(l & Hb)]; [split; [by left|done]|]. split; [right; by exists l|]. intros ->. by apply (pt_frame _ _ _ _ _ _ P) in Hb.
  - intros b l Hb. split; [|by eapply (pt_nz _ _ _ _ _ _ P)]. intros [H1 _]%elem_of_difference. by apply (pt_frame _ _ _ _ _ _ P) in Hb.
Qed.

(** ** Taking and giving up blocks *)

Lemma parts_E t live F L E E' N : (forall n, E' n = E n) -> parts t live F L E N -> parts t live F L E' N.
Proof.
  intros HE P. assert (Hh : forall b l, held t L E' b l <-> held t L E b l) by (intros b [|n|n| |n]; cbn; rewrite ?HE; done).
  destruct P. constructor; try done.
  - intros b. rewrite pt_live0. split; (intros [?|[l Hl]]; [by left|right; exists l; by apply Hh]).
  - intros b l l' H1%Hh H2%Hh. by eapply pt_uniq0.
  - intros b l H1%Hh. by eapply pt_frame0.
  - intros b l H1%Hh. by eapply pt_nz0.
  - intros n Hn. rewrite HE. by apply pt_none0.
  - intros n nd Hn. rewrite HE. by apply pt_node0.
Qed.

(** Fields of an inode that are not its tables. *)
Lemma parts_touch t live F L E N n a ip ip' nd' : parts t live F L E N -> L !! n = Some a -> t_inos t !! a = Some ip ->
  pg_l1 ip' = pg_l1 ip -> node_ok t live n nd' ip' (E n) -> parts (set_ino t a ip') live F L E (<[n := nd']> N).
Proof.
  intros P Hl Hi Epg Hok. assert (Hw : forall b, owns ip' (t_mem t) b <-> owns ip (t_mem t) b) by (intros b; unfold owns, pga; by rewrite Epg).
  apply (parts_E _ _ _ _ (upd E n (E n))); [intros m; unfold upd; by destruct (Z.eqb_spec m n) as [->|]|].
  assert (Hmine : forall b, mine t ip' (E n) b -> exists l, held t L E b l /\ ~ other n l).
  { intros b [Hb|Hb]; [exists (LFile n)|exists (LEnt n)]; (split; [|by intros [? ?]]); [|done]. exists a, ip. by rewrite <- Hw. }
  eapply (parts_update t (set_ino t a ip') live live F F L E N n a ip ip' nd' (E n)); try done.
  - by apply (node_same t).
  - intros b l Hb Hot. split_and!; [apply (pt_live _ _ _ _ _ _ P); right; by exists l|done|done| |by eapply (pt_frame _ _ _ _ _ _ P)].
    intros (l' & Hb' & Hn)%Hmine. by rewrite (pt_uniq _ _ _ _ _ _ P b l' l Hb' Hb) in Hn.
  - intros b (l' & Hb' & Hn)%Hmine. split_and!; [apply (pt_live _ _ _ _ _ _ P); right; by exists l'|by eapply (pt_frame _ _ _ _ _ _ P)|by eapply (pt_nz _ _ _ _ _ _ P)].
  - intros b Hb Hin. assert (LFile n = LEnt n); [|done]. eapply (pt_uniq _ _ _ _ _ _ P b); [|done]. exists a, ip. by rewrite <- Hw.
  - intros b Hb. apply (pt_live _ _ _ _ _ _ P) in Hb as [?|(l & Hh)]; [by left|right].
    destruct l as [|m|m| |m]; try (right; eexists; split; [exact Hh|done]).
    + destruct (Z.eq_dec m n) as [->|]; [left; by right|]. right. exists (LEnt m). split; [done|]. split; congruence.
    + destruct (Z.eq_dec m n) as [->|]; [|right; exists (LFile m); split; [done|]; split; congruence].
      left. left. destruct Hh as (a' & ip2 & ? & ? & ?). simplify_eq. by apply Hw.
  - intros b Hb. apply (pt_live _ _ _ _ _ _ P). by left.
Qed.

(** A superblock or a handle made of a foreign block, and back. *)
Lemma parts_add_sb t live F L E N p sb : parts t live F L E N -> p ∈ F -> p <> 0 -> parts (set_sb t p sb) live (F ∖ {[p]}) L E N.
Proof.
  intros P Hp Hp0. assert (Hh : forall b l, held (set_sb t p sb) L E b l <-> held t L E b l \/ b = p /\ l = LSb).
  { intros b [|n|n| |n]; cbn [held set_sb with_sbs t_sbs]; try naive_solver. rewrite lookup_insert_is_Some'. naive_solver. }
  eapply (parts_blocks t); try done; [apply (pt_heap _ _ _ _ _ _ P)|..].
  - intros b. cbn. rewrite lookup_insert_is_Some'. intros [<-|?]; auto.
  - intros b. by left.
  - intros b. cbn. rewrite lookup_insert_is_Some'. intros [<-|H1] H2.
    + by apply (pt_frame _ _ _ _ _ _ P p LHdl) in H2.
    + by pose proof (pt_uniq _ _ _ _ _ _ P b LSb LHdl H1 H2).
  - intros b. rewrite elem_of_difference, elem_of_singleton, (pt_live _ _ _ _ _ _ P). split.
    + intros [Hb|(l & Hb)]; [|right; exists l; apply Hh; by left]. destruct (Z.eq_dec b p) as [->|]; [right; exists LSb; apply Hh; by right|by left].
    + intros [[Hb _]|(l & [Hb|[-> _]]%Hh)]; [by left|right; by exists l|by left].
  - intros b l [Hb|[-> ->]]%Hh; [|split; [set_solver|done]].
    pose proof (pt_frame _ _ _ _ _ _ P _ _ Hb). pose proof (pt_nz _ _ _ _ _ _ P _ _ Hb). set_solver.
Qed.

Lemma parts_add_hdl t live F L E N p h : parts t live F L E N -> p ∈ F -> p <> 0 ->
  parts (with_hdls t (<[p := h]> (t_hdls t))) live (F ∖ {[p]}) L E N.
Proof.
  intros P Hp Hp0. assert (Hh : forall b l, held (with_hdls t (<[p := h]> (t_hdls t))) L E b l <-> held t L E b l \/ b = p /\ l = LHdl).
  { intros b [|n|n| |n]; cbn [held with_hdls t_hdls]; try naive_solver. rewrite lookup_insert_is_Some'. naive_solver. }
  eapply (parts_blocks t); try done; [apply (pt_heap _ _ _ _ _ _ P)|..].
  - intros b. by left.
  - intros b. cbn. rewrite lookup_insert_is_Some'. intros [<-|?]; auto.
  - intros b H1. cbn. rewrite lookup_insert_is_Some'. intros [<-|H2].
    + by apply (pt_frame _ _ _ _ _ _ P p LSb) in H1.
    + by pose proof (pt_uniq _ _ _ _ _ _ P b LSb LHdl H1 H2).
  - intros b. rewrite elem_of_difference, elem_of_singleton, (pt_live _ _ _ _ _ _ P). split.
    + intros [Hb|(l & Hb)]; [|right; exists l; apply Hh; by left]. destruct (Z.eq_dec b p) as [->|]; [right; exists LHdl; apply Hh; by right|by left].
    + intros [[Hb _]|(l & [Hb|[-> _]]%Hh)]; [by left|right; by exists l|by left].
  - intros b l [Hb|[-> ->]]%Hh; [|split; [set_solver|done]].
    pose proof (pt_frame _ _ _ _ _ _ P _ _ Hb). pose proof (pt_nz _ _ _ _ _ _ P _ _ Hb). set_solver.
Qed.

(** Superblocks or handles that stay the same blocks. *)
Lemma parts_same t t' live F L E N : parts t live F L E N -> t_mem t' = t_mem t -> t_inos t' = t_inos t -> t_ents t' = t_ents t ->
  (forall b, is_Some (t_sbs t' !! b) <-> is_Some (t_sbs t !! b)) -> (forall b, is_Some (t_hdls t' !! b) <-> is_Some (t_hdls t !! b)) ->
  parts t' live F L E N.
Proof.
  intros P Em Ei Ee Hs Hd.
  assert (Hh : forall b l, held t' L E b l <-> held t L E b l) by (intros b [|n|n| |n]; cbn [held]; rewrite ?Em, ?Ei; done).
  eapply (parts_blocks t); rewrite ?Em; try done; [apply (pt_heap _ _ _ _ _ _ P)|..].
  - intros b ?%Hs. by left.
  - intros b ?%Hd. by left.
  - intros b H1%Hs H2%Hd. by pose proof (pt_uniq _ _ _ _ _ _ P b LSb LHdl H1 H2).
  - intros b. rewrite (pt_live _ _ _ _ _ _ P). split; (intros [?|[l Hl]]; [by left|right; exists l; by apply Hh]).
  - intros b l Hb%Hh. split; [by eapply (pt_frame _ _ _ _ _ _ P)|by eapply (pt_nz _ _ _ _ _ _ P)].
Qed.

Lemma parts_drop_sb t live F L E N p : parts t live F L E N -> is_Some (t_sbs t !! p) ->
  parts (with_sbs t (delete p (t_sbs t))) live ({[p]} ∪ F) L E N.
Proof.
  intros P Hp. assert (Hh : forall b l, held (with_sbs t (delete p (t_sbs t))) L E b l <-> held t L E b l /\ b <> p).
  { intros b l. destruct (decide (l = LSb)) as [->|Hl].
    - cbn [held with_sbs t_sbs]. rewrite lookup_delete_is_Some. naive_solver.
    - transitivity (held t L E b l); [by destruct l|]. split; [|by intros [? _]]. intros Hb. split; [done|].
      intros ->. apply Hl. by eapply (pt_uniq _ _ _ _ _ _ P p). }
  eapply (parts_blocks t); try done; [apply (pt_heap _ _ _ _ _ _ P)|..].
  - intros b. cbn. rewrite lookup_delete_is_Some. intros [_ ?]. by left.
  - intros b. by left.
  - intros b. cbn. rewrite lookup_delete_is_Some. intros [_ H1] H2. by pose proof (pt_uniq _ _ _ _ _ _ P b LSb LHdl H1 H2).
  - intros b. rewrite elem_of_union, elem_of_singleton, (pt_live _ _ _ _ _ _ P). split.
    + intros [Hb|(l & Hb)]; [auto|]. destruct (Z.eq_dec b p) as [->|]; [auto|]. right. exists l. by apply Hh.
    + intros [[->|Hb]|(l & [Hb _]%Hh)]; [right; by exists LSb|by left|right; by exists l].
  - intros b l [Hb Hne]%Hh. pose proof (pt_frame _ _ _ _ _ _ P _ _ Hb). pose proof (pt_nz _ _ _ _ _ _ P _ _ Hb). set_solver.
Qed.

Lemma parts_drop_hdl t live F L E N p : parts t live F L E N -> is_Some (t_hdls t !! p) ->
  parts (with_hdls t (delete p (t_hdls t))) live ({[p]} ∪ F) L E N.
Proof.
  intros P Hp. assert (Hh : forall b l, held (with_hdls t (delete p (t_hdls t))) L E b l <-> held t L E b l /\ b <> p).
  { intros b l. destruct (decide (l = LHdl)) as [->|Hl].
    - cbn [held with_hdls t_hdls]. rewrite lookup_delete_is_Some. naive_solver.
    - transitivity (held t L E b l); [by destruct l|]. split; [|by intros [? _]]. intros Hb. split; [done|].
      intros ->. apply Hl. by eapply (pt_uniq _ _ _ _ _ _ P p). }
  eapply (parts_blocks t); try done; [apply (pt_heap _ _ _ _ _ _ P)|..].
  - intros b. by left.
  - intros b. cbn. rewrite lookup_delete_is_Some. intros [_ ?]. by left.
  - intros b H1. cbn. rewrite lookup_delete_is_Some. intros [_ H2]. by pose proof (pt_uniq _ _ _ _ _ _ P b LSb LHdl H1 H2).
  - intros b. rewrite elem_of_union, elem_of_singleton, (pt_live _ _ _ _ _ _ P). split.
    + intros [Hb|(l & Hb)]; [auto|]. destruct (Z.eq_dec b p) as [->|]; [auto|]. right. exists l. by apply Hh.
    + intros [[->|Hb]|(l & [Hb _]%Hh)]; [right; by exists LHdl|by left|right; by exists l].
  - intros b l [Hb Hne]%Hh. pose proof (pt_frame _ _ _ _ _ _ P _ _ Hb). pose proof (pt_nz _ _ _ _ _ _ P _ _ Hb). set_solver.
Qed.

(** ** New inodes and inodes that go *)

Lemma parts_new t live F L E N n a nd ip : parts t live F L E N -> a ∈ F -> a <> 0 -> N !! n = None ->
  (forall b, ~ owns ip (t_mem t) b) -> node_ok t live n nd ip [] ->
  parts (set_ino t a ip) live (F ∖ {[a]}) (<[n := a]> L) E (<[n := nd]> N).
Proof.
  intros P Ha Ha0 Hn Hw Hok. pose proof (pt_none _ _ _ _ _ _ P n Hn) as HE.
  assert (HLn : L !! n = None). { apply eq_None_not_Some. intros H1%(pt_dom _ _ _ _ _ _ P). by apply eq_None_not_Some in Hn. }
  assert (Hfree : forall l, ~ held t L E a l) by (intros l Hl; by apply (pt_frame _ _ _ _ _ _ P) in Hl).
  assert (Ha1 : forall m a' , L !! m = Some a' -> a' <> a) by (intros m a' H1 ->; by apply (Hfree (LIno m))).
  assert (Hh : forall b l, held (set_ino t a ip) (<[n := a]> L) E b l <-> held t L E b l \/ b = a /\ l = LIno n).
  { intros b [|m|m| |m]; cbn [held set_ino with_inos t_sbs t_hdls t_inos t_mem]; try (by split; [left|intros [?|[_ ?]]]).
    - rewrite lookup_insert_Some. destruct (Z.eq_dec n m) as [<-|]; naive_solver.
    - split.
      + intros (a2 & ip2 & [[<- <-]|[Hne Hl]]%lookup_insert_Some & Hi & Ho).
        * rewrite lookup_insert_eq in Hi. simplify_eq. by apply Hw in Ho.
        * rewrite lookup_insert_ne in Hi by (intros <-; by apply (Ha1 m a) in Hl). left. by exists a2, ip2.
      + intros [(a2 & ip2 & Hl & Hi & Ho)|[_ ?]]; [|done]. exists a2, ip2. rewrite !lookup_insert_ne; [done| |congruence].
        intros <-. by apply (Ha1 m a) in Hl. }
  constructor.
  - apply (pt_heap _ _ _ _ _ _ P).
  - intros b. rewrite elem_of_difference, elem_of_singleton, (pt_live _ _ _ _ _ _ P). split.
    + intros [Hb|(l & Hb)]; [|right; exists l; apply Hh; by left]. destruct (Z.eq_dec b a) as [->|]; [right; exists (LIno n); apply Hh; by right|by left].
    + intros [[Hb _]|(l & [Hb|[-> _]]%Hh)]; [by left|right; by exists l|by left].
  - intros b l l' [H1|[-> ->]]%Hh [H2|[E2 ->]]%Hh; [by eapply (pt_uniq _ _ _ _ _ _ P)|subst b; by apply Hfree in H1|by apply Hfree in H2|done].
  - intros b l [Hb|[-> ->]]%Hh; [|set_solver]. pose proof (pt_frame _ _ _ _ _ _ P _ _ Hb). set_solver.
  - intros b l [Hb|[-> ->]]%Hh; [by eapply (pt_nz _ _ _ _ _ _ P)|done].
  - intros m. rewrite !lookup_insert_is_Some', (pt_dom _ _ _ _ _ _ P). done.
  - intros m [Hm _]%lookup_insert_None. by apply (pt_none _ _ _ _ _ _ P).
  - intros m nd2 [[<- <-]|[Hne Hm]]%lookup_insert_Some.
    + exists a, ip. cbn. rewrite !lookup_insert_eq, HE. split_and!; [done|done|]. by apply (node_same t).
    + destruct (pt_node _ _ _ _ _ _ P m nd2 Hm) as (a2 & ip2 & Hl & Hi & Ho). exists a2, ip2. cbn.
      rewrite !lookup_insert_ne by (done || (intros <-; by apply (Ha1 m a) in Hl)). split_and!; [done|done|]. by apply (node_same t).
  - intros a2 ip2 Hi. cbn in Hi. apply lookup_insert_Some in Hi as [[<- <-]|[Hne Hi]]; [by rewrite (no_ino _ _ _ _ _ _ Hok), lookup_insert_eq|].
    pose proof (pt_ino _ _ _ _ _ _ P a2 ip2 Hi) as Hl. rewrite lookup_insert_ne; [done|]. intros E0. rewrite <- E0 in Hl. congruence.
Qed.

Lemma parts_drop t live F L E N n a ip : parts t live F L E N -> L !! n = Some a -> t_inos t !! a = Some ip -> E n = [] ->
  (forall b, ~ owns ip (t_mem t) b) -> parts (with_inos t (delete a (t_inos t))) live ({[a]} ∪ F) (delete n L) E (delete n N).
Proof.
  intros P Hl Hi HE Hw. assert (Hinj : forall m a', L !! m = Some a' -> m <> n -> a' <> a) by (intros m a' H1 H2 ->; apply H2; by eapply parts_inj).
  assert (Hh : forall b l, held (with_inos t (delete a (t_inos t))) (delete n L) E b l <-> held t L E b l /\ b <> a).
  { intros b l. assert (Hno : l <> LIno n -> held t L E b l -> b <> a) by (intros H1 H2 ->; apply H1; by eapply (pt_uniq _ _ _ _ _ _ P a)).
    destruct l as [|m|m| |m]; cbn [held with_inos t_sbs t_hdls t_inos t_mem]; try (by split; [intros; split; [|apply Hno]|intros [? _]]).
    - destruct (Z.eq_dec m n) as [->|Hm]; [rewrite lookup_delete_eq|rewrite lookup_delete_ne by done]; [split; [done|intros [? ?]; congruence]|].
      split; [intros H1; split; [done|]; by eapply Hinj|by intros [? _]].
    - split.
      + intros (a2 & ip2 & Hl2 & Hi2 & Ho). apply lookup_delete_Some in Hl2 as [Hne Hl2]. apply lookup_delete_Some in Hi2 as [Hne2 Hi2].
        assert (held t L E b (LFile m)) by (by exists a2, ip2). split; [done|]. by apply Hno.
      + intros [(a2 & ip2 & Hl2 & Hi2 & Ho) Hne]. destruct (Z.eq_dec m n) as [->|Hm]; [simplify_eq; by apply Hw in Ho|].
        exists a2, ip2. rewrite !lookup_delete_ne; [done| |done]. intros <-. by apply (Hinj m a) in Hl2. }
  constructor.
  - apply (pt_heap _ _ _ _ _ _ P).
  - intros b. rewrite elem_of_union, elem_of_singleton, (pt_live _ _ _ _ _ _ P). split.
    + intros [Hb|(l & Hb)]; [auto|]. destruct (Z.eq_dec b a) as [->|]; [auto|]. right. exists l. by apply Hh.
    + intros [[->|Hb]|(l & [Hb _]%Hh)]; [right; by exists (LIno n)|by left|right; by exists l].
  - intros b l l' [H1 _]%Hh [H2 _]%Hh. by eapply (pt_uniq _ _ _ _ _ _ P).
  - intros b l [Hb Hne]%Hh. pose proof (pt_frame _ _ _ _ _ _ P _ _ Hb). set_solver.
  - intros b l [Hb _]%Hh. by eapply (pt_nz _ _ _ _ _ _ P).
  - intros m. rewrite !lookup_delete_is_Some, (pt_dom _ _ _ _ _ _ P). done.
  - intros m [->|Hm]%lookup_delete_None; [done|]. by apply (pt_none _ _ _ _ _ _ P).
  - intros m nd2 [Hne Hm]%lookup_delete_Some. destruct (pt_node _ _ _ _ _ _ P m nd2 Hm) as (a2 & ip2 & Hl2 & Hi2 & Ho). exists a2, ip2. cbn.
    rewrite !lookup_delete_ne by (done || (intros <-; by apply (Hinj m a) in Hl2)). split_and!; [done|done|]. by apply (node_same t).
  - intros a2 ip2 Hi2. cbn in Hi2. apply lookup_delete_Some in Hi2 as [Hne Hi2]. pose proof (pt_ino _ _ _ _ _ _ P a2 ip2 Hi2) as Hl2. rewrite lookup_delete_ne; [done|]. intros E0. rewrite <- E0 in Hl2. congruence.
Qed.

(** ** File operations and changes to a directory *)

Lemma owns_dec ip (st : store (A := A)) b : owns ip st b \/ ~ owns ip st b.
Proof.
  unfold owns. destruct (Z.eq_dec b 0) as [->|Hb]; [right; by intros [? _]|].
  destruct (decide (Exists (fun i => pg_l1 ip i = b) (seqZ 0 64))) as [H1|H1].
  { left. split; [done|left]. apply Exists_exists in H1 as (i & Hi%elem_of_seqZ & E). exists i. split; [lia|done]. }
  destruct (decide (Exists (fun p => pga ip st p = b) (seqZ 0 4096))) as [H2|H2].
  { left. split; [done|right]. apply Exists_exists in H2 as (i & Hi%elem_of_seqZ & E). exists i. split; [lia|done]. }
  right. intros [_ [(i & Hi & E)|(p & Hp & E)]]; [apply H1|apply H2]; apply Exists_exists; [exists i|exists p]; (split; [apply elem_of_seqZ; lia|done]).
Qed.

Lemma file_owns_live ip (st : store (A := A)) live b : file_ok ip st live -> owns ip st b -> b ∈ live /\ b <> 0.
Proof. intros Fo [Hb [(i & Hi & E)|(p & Hp & E)]]; subst b; (split; [|done]); [by apply (fo_tab _ _ _ Fo)|by apply (fo_pg _ _ _ Fo)]. Qed.

Lemma parts_file t live live' F L E N n a ip ip' st' nd' : parts t live F L E N -> L !! n = Some a -> t_inos t !! a = Some ip ->
  framed ip (t_mem t) live ip' st' live' -> let t' := set_ino (with_mem t st') a ip' in node_ok t' live' n nd' ip' (E n) ->
  parts t' live' F L E (<[n := nd']> N).
Proof.
  intros P Hl Hi [Fr1 Fr2] t' Hok.
  assert (Hown : forall b l, held t L E b l -> l <> LFile n -> ~ owns ip (t_mem t) b).
  { intros b l Hb Hne Ho. apply Hne. eapply (pt_uniq _ _ _ _ _ _ P b); [done|]. by exists a, ip. }
  assert (Hlv : forall b l, held t L E b l -> b ∈ live) by (intros b l Hb; apply (pt_live _ _ _ _ _ _ P); right; by exists l).
  assert (HF : forall b, b ∈ F -> b ∈ live /\ ~ owns ip (t_mem t) b).
  { intros b Hb. split; [apply (pt_live _ _ _ _ _ _ P); by left|]. intros Ho. by eapply (pt_frame _ _ _ _ _ _ P b (LFile n)); [exists a, ip|]. }
  apply (parts_E _ _ _ _ (upd E n (E n))); [intros m; unfold upd; by destruct (Z.eqb_spec m n) as [->|]|].
  eapply (parts_update t t' live live' F F L E N n a ip ip' nd' (E n)); try done.
  - intros b l Hb [Hn1 Hn2]. destruct (Fr1 b (Hlv b l Hb) (Hown b l Hb Hn2)) as (C1 & C2 & C3 & C4). split_and!; [done|done|done| |by eapply (pt_frame _ _ _ _ _ _ P)].
    intros [Hw|Hw]; [done|]. apply Hn1. by eapply (pt_uniq _ _ _ _ _ _ P b).
  - intros b [Hw|Hw].
    + destruct (file_owns_live _ _ _ _ (no_file _ _ _ _ _ _ Hok) Hw). split_and!; [done| |done]. intros Hb. destruct (HF b Hb) as [G1 G2].
      by destruct (Fr1 b G1 G2) as (_ & _ & _ & ?).
    + assert (Hb : held t L E b (LEnt n)) by done. destruct (Fr1 b (Hlv _ _ Hb) (Hown _ _ Hb ltac:(done))) as (? & _).
      split_and!; [done|by eapply (pt_frame _ _ _ _ _ _ P)|by eapply (pt_nz _ _ _ _ _ _ P)].
  - intros b Hw Hin. assert (Hb : held t L E b (LEnt n)) by done. by destruct (Fr1 b (Hlv _ _ Hb) (Hown _ _ Hb ltac:(done))) as (_ & _ & _ & ?).
  - intros b Hb. destruct (owns_dec ip' st' b) as [Hw|Hw]; [right; left; by left|]. destruct (Fr2 b Hb Hw) as [H1 H2].
    apply (pt_live _ _ _ _ _ _ P) in H1 as [?|(l & Hh)]; [by left|right]. destruct (decide (l = LEnt n)) as [->|]; [left; by right|].
    right. exists l. split; [done|]. split; [done|]. intros ->. destruct Hh as (a' & ip2 & ? & ? & ?). by simplify_eq.
  - intros b Hb. destruct (HF b Hb) as [H1 H2]. by destruct (Fr1 b H1 H2) as (? & _).
Qed.

Lemma parts_relist t ents' live F F' L E N n a ip ip' nd' es' : parts t live F L E N -> L !! n = Some a -> t_inos t !! a = Some ip ->
  pg_l1 ip' = pg_l1 ip -> let t' := set_ino (with_ents t ents') a ip' in node_ok t' live n nd' ip' es' ->
  (forall b, b ∉ (E n).*1 -> b ∉ es'.*1 -> ents' !! b = t_ents t !! b) ->
  (forall b, b ∈ es'.*1 -> b ∈ (E n).*1 \/ b ∈ F /\ b <> 0) ->
  (forall b, b ∈ F' <-> (b ∈ F \/ b ∈ (E n).*1) /\ b ∉ es'.*1) ->
  parts t' live F' L (upd E n es') (<[n := nd']> N).
Proof.
  intros P Hl Hi Epg t' Hok He Hes HF'.
  assert (Hw : forall b, owns ip' (t_mem t') b <-> owns ip (t_mem t) b) by (intros b; unfold owns, pga; by rewrite Epg).
  assert (Hlv : forall b l, held t L E b l -> b ∈ live) by (intros b l Hb; apply (pt_live _ _ _ _ _ _ P); right; by exists l).
  assert (Hent : forall b l, held t L E b l -> b ∈ (E n).*1 -> l = LEnt n) by (intros b l H1 H2; by eapply (pt_uniq _ _ _ _ _ _ P b)).
  assert (Hfile : forall b, owns ip (t_mem t) b -> held t L E b (LFile n)) by (intros b Hb; by exists a, ip).
  assert (HnF : forall b l, held t L E b l -> b ∉ F) by apply (pt_frame _ _ _ _ _ _ P).
  eapply (parts_update t t' live live F F' L E N n a ip ip' nd' es'); try done.
  - intros b Hm Hb. apply He; [|done]. intros H1. apply Hm. by right.
  - intros b l Hb [Hn1 Hn2]. assert (Hnes : b ∉ es'.*1).
    { intros H1. destruct (Hes b H1) as [H2|[H2 _]]; [by apply Hn1, (Hent b)|by apply (HnF b l)]. }
    split_and!; [by eapply Hlv|done|done| |].
    + intros [H1|H1]; [|done]. apply Hw in H1. apply Hn2. by eapply (pt_uniq _ _ _ _ _ _ P b); [|apply Hfile].
    + intros [[H1|H1] _]%HF'; [by apply (HnF b l)|by apply Hn1, (Hent b)].
  - intros b [H1%Hw%Hfile|H1].
    + split_and!; [by eapply Hlv| |by eapply (pt_nz _ _ _ _ _ _ P)]. intros [[H2|H2] _]%HF'; [by apply (HnF b) in H1|by apply (Hent b) in H1].
    + split_and!; [|by intros [_ ?]%HF'|].
      * destruct (Hes b H1) as [H2|[H2 _]]; [by apply (Hlv b (LEnt n))|]. apply (pt_live _ _ _ _ _ _ P). by left.
      * destruct (Hes b H1) as [H2|[_ ?]]; [by apply (pt_nz _ _ _ _ _ _ P b (LEnt n))|done].
  - intros b H1%Hw%Hfile H2. destruct (Hes b H2) as [H3|[H3 _]]; [by apply (Hent b) in H1|by apply (HnF b) in H1].
  - intros b Hb. destruct (decide (b ∈ es'.*1)) as [H1|H1]; [right; left; by right|].
    apply (pt_live _ _ _ _ _ _ P) in Hb as [Hb|(l & Hh)]; [left; apply HF'; auto|].
    destruct (decide (l = LEnt n)) as [->|]; [left; apply HF'; auto|]. right. destruct (decide (l = LFile n)) as [->|]; [|right; by exists l].
    left. left. apply Hw. destruct Hh as (a' & ip2 & ? & ? & ?). by simplify_eq.
  - intros b [[Hb|Hb] _]%HF'; [apply (pt_live _ _ _ _ _ _ P); by left|by apply (Hlv b (LEnt n))].
Qed.

(** Entry records in blocks that are in no directory do not matter. *)
Lemma parts_ents t ents' live F L E N : parts t live F L E N -> (forall b n, b ∈ (E n).*1 -> ents' !! b = t_ents t !! b) ->
  parts (with_ents t ents') live F L E N.
Proof.
  intros P He. pose proof P as [Q1 Q2 Q3 Q4 Q5 Q6 Q7 Q8 Q9]. constructor; try done.
  intros n nd Hn. destruct (Q8 n nd Hn) as (a & ip & Hl & Hi & Hok). exists a, ip. split_and!; [done|done|].
  apply (node_frame t (with_ents t ents') live live n nd ip (E n) Hok); [done| |].
  - intros b Hb. split; [|done]. apply Q2. right. exists (LFile n). by exists a, ip.
  - intros b Hb. by apply (He b n).
Qed.

(** A node with its inode and its entries, given up at once. *)
Lemma parts_disown t live F L E N n a ip : parts t live F L E N -> L !! n = Some a -> t_inos t !! a = Some ip -> (forall b, ~ owns ip (t_mem t) b) ->
  parts (with_inos t (delete a (t_inos t))) live ({[a]} ∪ (F ∪ list_to_set (E n).*1)) (delete n L) (upd E n []) (delete n N).
Proof.
  intros P Hl Hi Hw. destruct (parts_lookup _ _ _ _ _ _ _ _ P Hl) as (nd & ip0 & Hn & Hi0 & Hok). simplify_eq.
  set (ip' := set_dir 0 0 ip). set (nd' := ANode (an_type nd) (an_perm nd) (an_nlink nd) (an_size nd) (an_mtime nd) (an_ctime nd) [] (an_data nd)).
  assert (P1 : parts (set_ino (with_ents t (t_ents t)) a ip') live (F ∪ list_to_set (E n).*1) L (upd E n []) (<[n := nd']> N)).
  { apply (parts_relist t (t_ents t) live F _ L E N n a ip ip' nd' []); try done.
    - pose proof (no_file _ _ _ _ _ _ Hok) as [? ? ? ? ? ?]. destruct Hok. constructor; try done.
      + destruct (no_kind0) as [?|[? _]]; [by left|by right].
      + by apply dlist_nil.
      + constructor.
      + constructor.
    - intros b Hb. by apply elem_of_nil in Hb.
    - intros b. rewrite elem_of_union, elem_of_list_to_set. split; [|by intros [? _]]. intros Hb. split; [done|]. apply not_elem_of_nil. }
  apply (parts_drop _ _ _ _ _ _ n a ip') in P1; [|done|cbn; apply lookup_insert_eq|apply upd_eq|exact Hw].
  cbn [set_ino with_inos with_ents t_inos] in P1. rewrite delete_insert_eq in P1. rewrite delete_insert_eq in P1. exact P1.
Qed.
End rel.
