(* ===== verification/TmpfsTree.v ===== *)
(** * The tmpfs name space, abstractly

    Nodes by inode number, directories as association lists: what the VFS
    operations do to them, how paths resolve, and the shape of the tree.
    The only choice left open is whether an allocation succeeds. *)

From stdpp Require Import base gmap list.
From Stdlib Require Import ZArith Lia.
From S2P Require Import Prelude Spinlock Kmalloc Allocator Tmpfs TmpfsFile TmpfsProps TmpfsNs TmpfsWalk TmpfsRel.

Implicit Types (s : ns) (N : gmap Z anode) (nd : anode).

(** ** Paths *)

(** The texts between slashes. *)
Fixpoint split_path (p : list Z) : list (list Z) :=
  match p with
  | [] => [[]]
  | c :: p => if c =? SLASH then [] :: split_path p
              else match split_path p with x :: xs => (c :: x) :: xs | [] => [[c]] end
  end.

Definition components (p : list Z) : list (list Z) := filter (fun x => x <> []) (split_path p).

Definition ns_lookup s (d : Z) (name : list Z) : option Z :=
  nd ← ns_nodes s !! d; if an_type nd =? TMPFS_T_DIR then assoc name (an_ents nd) else None.

Fixpoint ns_walk s (d : Z) (names : list (list Z)) : option Z :=
  match names with [] => Some d | x :: names => c ← ns_lookup s d x; ns_walk s c names end.

Definition ns_resolve s (p : list Z) : option Z := ns_walk s 1 (components p).

(** What is before the last slash, and what is after it. *)
Definition leaf_of (p : list Z) : list Z := default [] (last (split_path p)).
Definition dir_of (p : list Z) : list (list Z) := filter (fun x => x <> []) (removelast (split_path p)).

(** The part before the last slash is limited to 511 bytes. *)
Definition ns_parent s (p : list Z) : option Z :=
  if VFS_PATH_MAX <=? Z.of_nat (length p) - Z.of_nat (length (leaf_of p)) - 1 then None else ns_walk s 1 (dir_of p).

(** ** Operations *)

Definition ns_set s (n : Z) nd : ns := NS (<[n := nd]> (ns_nodes s)) (ns_next s) (ns_hdls s).
Definition ns_bump s : ns := NS (ns_nodes s) (ns_next s + 1) (ns_hdls s).

Definition with_list (now : Z) (l : list entry) nd : anode :=
  ANode (an_type nd) (an_perm nd) (an_nlink nd) (an_size nd) now (an_ctime nd) l (an_data nd).
Definition with_nlink (k : Z) nd : anode :=
  ANode (an_type nd) (an_perm nd) k (an_size nd) (an_mtime nd) (an_ctime nd) (an_ents nd) (an_data nd).
Definition new_node (ty perm nlink now : Z) : anode := ANode ty perm nlink 0 now now [] (fun _ => 0).

(** A node in directory [d]: the code and the state.  The number is used up
    even when the entry cannot be made. *)
Definition create_spec (now ty perm nlink : Z) s (d : Z) (leaf : list Z) (r : Z + Z) s' : Prop :=
  let n := ns_next s in
  r = inl TMPFS_ENOMEM /\ s' = s \/
  exists nd, ns_nodes s !! d = Some nd /\
    (if negb (an_type nd =? TMPFS_T_DIR) then r = inl TMPFS_ENOTDIR /\ s' = ns_bump s
     else if (255 <? length leaf)%nat then r = inl TMPFS_EINVAL /\ s' = ns_bump s
     else r = inl TMPFS_ENOMEM /\ s' = ns_bump s \/
       match assoc leaf (an_ents nd) with
       | Some _ => r = inl TMPFS_EEXIST /\ s' = ns_bump s
       | None => r = inr n /\ s' = ns_set (ns_set (ns_bump s) n (new_node ty perm nlink now)) d (with_list now ((leaf, n) :: an_ents nd) nd)
       end).

Definition open_spec (now : Z) s (p : list Z) (flags mode : Z) (r : Z + Z) s' : Prop :=
  match ns_resolve s p with
  | Some n => r = inr n /\ s' = s
  | None =>
    if Z.land flags VFS_O_CREAT =? 0 then r = inl TMPFS_ENOENT /\ s' = s else
    match ns_parent s p with
    | Some d => if (length (leaf_of p) =? 0)%nat then r = inl TMPFS_ENOENT /\ s' = s
                else create_spec now TMPFS_T_REG (Z.land mode 0xFFF) 1 s d (leaf_of p) r s'
    | None => r = inl TMPFS_ENOENT /\ s' = s
    end
  end.

Definition mkdir_spec (now : Z) s (p : list Z) (mode : Z) (r : Z) s' : Prop :=
  match ns_parent s p with
  | Some d =>
    if (length (leaf_of p) =? 0)%nat then r = TMPFS_ENOENT /\ s' = s else
    exists r1 s1, create_spec now TMPFS_T_DIR (Z.land mode 0xFFF) 2 s d (leaf_of p) r1 s1 /\
      match r1 with
      | inl e => r = e /\ s' = s1
      | inr _ => r = TMPFS_OK /\ exists nd, ns_nodes s1 !! d = Some nd /\ s' = ns_set s1 d (with_nlink (u32 (an_nlink nd + 1)) nd)
      end
  | None => r = TMPFS_ENOENT /\ s' = s
  end.

(** The directory and the node a path to remove stands for. *)
Definition target s (p : list Z) : option (Z * anode * Z * anode) :=
  d ← ns_parent s p; nd ← ns_nodes s !! d; c ← ns_lookup s d (leaf_of p); cd ← ns_nodes s !! c; Some (d, nd, c, cd).

Definition unlink_spec (now : Z) s (p : list Z) (r : Z) s' : Prop :=
  match target s p with
  | Some (d, nd, c, cd) =>
    if an_type cd =? TMPFS_T_DIR then r = TMPFS_EISDIR /\ s' = s else
    r = TMPFS_OK /\ s' = NS (delete c (<[d := with_list now (dremove (leaf_of p) (an_ents nd)) nd]> (ns_nodes s))) (ns_next s) (ns_hdls s)
  | None => r = TMPFS_ENOENT /\ s' = s
  end.

Definition rmdir_spec (now : Z) s (p : list Z) (r : Z) s' : Prop :=
  match target s p with
  | Some (d, nd, c, cd) =>
    if negb (an_type cd =? TMPFS_T_DIR) then r = TMPFS_ENOTDIR /\ s' = s else
    if negb (length (an_ents cd) =? 0)%nat then r = TMPFS_ENOTEMPTY /\ s' = s else
    r = TMPFS_OK /\
    s' = NS (delete c (<[d := with_nlink (if 0 <? an_nlink nd then an_nlink nd - 1 else an_nlink nd) (with_list now (dremove (leaf_of p) (an_ents nd)) nd)]> (ns_nodes s)))
            (ns_next s) (ns_hdls s)
  | None => r = TMPFS_ENOENT /\ s' = s
  end.

(** Reading, writing and truncating a node; [fail] as for a file. *)
Definition node_op (now : Z) nd (op : file_op) (fail : option nat) : file_res * anode :=
  if negb (an_type nd =? TMPFS_T_REG) then (RErr TMPFS_EINVAL, nd) else
  let '(r, a) := array_op (Array (an_size nd) (an_data nd)) op fail in
  (r, ANode (an_type nd) (an_perm nd) (an_nlink nd) (a_size a) (mtime_after op r now (an_mtime nd)) (an_ctime nd) (an_ents nd) (a_byte a)).

(** The node behind a handle. *)
Definition ns_handle s (h : Z) : option (Z * anode) := n ← ns_hdls s !! h; nd ← ns_nodes s !! n; Some (n, nd).

Definition node_stat (n : Z) nd : vfs_stat :=
  Stat n (Z.lor (u32 (Z.shiftl (an_type nd) 12)) (an_perm nd)) (an_nlink nd) (an_size nd) (an_mtime nd) (an_ctime nd).

Definition stat_spec s (p : list Z) : Z + vfs_stat :=
  match (n ← ns_resolve s p; nd ← ns_nodes s !! n; Some (node_stat n nd)) with Some st => inr st | None => inl TMPFS_ENOENT end.

Definition readdir_spec s (p : list Z) (idx : Z) : Z + vfs_dirent :=
  match (n ← ns_resolve s p; ns_nodes s !! n) with
  | None => inl TMPFS_ENOENT
  | Some nd =>
    if negb (an_type nd =? TMPFS_T_DIR) then inl TMPFS_ENOTDIR else
    match an_ents nd !! Z.to_nat idx with
    | None => inl TMPFS_ENOENT
    | Some (name, c) => inr (VDirent c (match ns_nodes s !! c with Some cd => itype_vfs (an_type cd) | None => VFS_DT_REG end) name)
    end
  end.

(** ** The tree *)

(** Every node but the root and the [O] is in exactly one directory. *)
Record tree N (next : Z) (O : gset Z) : Prop := {
  tr_root : exists nd, N !! 1 = Some nd /\ an_type nd = TMPFS_T_DIR;
  tr_range : forall n, is_Some (N !! n) -> 1 <= n < next;
  tr_child : forall d nd x c, N !! d = Some nd -> (x, c) ∈ an_ents nd -> is_Some (N !! c) /\ c <> 1 /\ (c ∉ O);
  tr_unique : forall d nd x d' nd' x' c, N !! d = Some nd -> (x, c) ∈ an_ents nd -> N !! d' = Some nd' -> (x', c) ∈ an_ents nd' -> d = d' /\ x = x';
  tr_parent : forall n, is_Some (N !! n) -> n <> 1 -> n ∉ O -> exists d nd x, N !! d = Some nd /\ (x, n) ∈ an_ents nd;
  tr_orphan : forall n, n ∈ O -> is_Some (N !! n) /\ n <> 1;
  tr_nlink : forall n nd, N !! n = Some nd -> an_type nd = TMPFS_T_REG -> n ∉ O -> an_nlink nd = 1;
  tr_names : forall n nd, N !! n = Some nd -> NoDup (an_ents nd).*1 }.

(** Changes that keep type, links and entries. *)
Lemma tree_set N next O n nd nd' : tree N next O -> N !! n = Some nd -> an_type nd' = an_type nd -> an_ents nd' = an_ents nd ->
  (an_type nd = TMPFS_T_REG -> n ∉ O -> an_nlink nd' = 1) -> tree (<[n := nd']> N) next O.
Proof.
  intros [T1 T2 T3 T4 T5 T6 T7 T8] Hn Et Ee Hk.
  assert (Hlk : forall m md, <[n := nd']> N !! m = Some md -> exists md0, N !! m = Some md0 /\ an_type md0 = an_type md /\ an_ents md0 = an_ents md).
  { intros m md [[<- <-]|[Hne Hm]]%lookup_insert_Some; [by exists nd|by exists md]. }
  assert (Hlk' : forall m md, N !! m = Some md -> exists md0, <[n := nd']> N !! m = Some md0 /\ an_type md0 = an_type md /\ an_ents md0 = an_ents md).
  { intros m md Hm. destruct (Z.eq_dec m n) as [->|Hne]; [|exists md; by rewrite lookup_insert_ne]. simplify_eq. exists nd'. by rewrite lookup_insert_eq. }
  assert (Hsome : forall m, is_Some (<[n := nd']> N !! m) <-> is_Some (N !! m)).
  { intros m. rewrite lookup_insert_is_Some'. split; [intros [<-|?]; [by exists nd|done]|by right]. }
  constructor.
  - destruct T1 as (rd & Hr & Hty). destruct (Hlk' 1 rd Hr) as (rd' & ? & ? & _). exists rd'. split; [done|congruence].
  - intros m. rewrite Hsome. apply T2.
  - intros d dd x c Hd Hx. destruct (Hlk d dd Hd) as (d0 & Hd0 & _ & E0). rewrite Hsome. rewrite <- E0 in Hx. by eapply T3.
  - intros d dd x d' dd' x' c Hd Hx Hd' Hx'. destruct (Hlk d dd Hd) as (d0 & Hd0 & _ & E0). destruct (Hlk d' dd' Hd') as (d1 & Hd1 & _ & E1).
    rewrite <- E0 in Hx. rewrite <- E1 in Hx'. by eapply T4.
  - intros m Hm%Hsome Hm1 HO. destruct (T5 m Hm Hm1 HO) as (d & dd & x & Hd & Hx). destruct (Hlk' d dd Hd) as (d0 & ? & _ & E0). exists d, d0, x. by rewrite E0.
  - intros m Hm. rewrite Hsome. by apply T6.
  - intros m md [[<- <-]|[Hne Hm]]%lookup_insert_Some Hty HO; [apply Hk; [congruence|done]|by eapply T7].
  - intros m md Hm. destruct (Hlk m md Hm) as (m0 & Hm0 & _ & <-). by eapply T8.
Qed.

Lemma tree_new N next O nd : tree N next O -> an_ents nd = [] -> tree (<[next := nd]> N) (next + 1) ({[next]} ∪ O).
Proof.
  intros [T1 T2 T3 T4 T5 T6 T7 T8] Ee.
  assert (Hn : N !! next = None) by (apply eq_None_not_Some; intros ?%T2; lia).
  assert (Hold : forall m md, <[next := nd]> N !! m = Some md -> m = next /\ md = nd \/ m <> next /\ N !! m = Some md).
  { intros m md [[<- <-]|[? ?]]%lookup_insert_Some; auto. }
  assert (Hent : forall m md x, <[next := nd]> N !! m = Some md -> x ∈ an_ents md -> N !! m = Some md).
  { intros m md x [[-> ->]|[_ ?]]%Hold Hx; [rewrite Ee in Hx; by apply elem_of_nil in Hx|done]. }
  assert (HnO : next ∉ O) by (intros [? _]%T6; simplify_eq; by apply eq_None_not_Some in Hn).
  destruct T1 as (rd & Hr & Hty). assert (1 <> next) by (intros <-; simplify_eq).
  constructor.
  - exists rd. by rewrite lookup_insert_ne.
  - intros m. rewrite lookup_insert_is_Some'. intros [<-|Hm%T2]; [|lia]. assert (1 <= 1 < next) by (apply T2; by exists rd). lia.
  - intros d dd x c Hd Hx. pose proof (Hent d dd _ Hd Hx) as Hd0. destruct (T3 d dd x c Hd0 Hx) as (H1 & H2 & H3).
    split_and!; [apply lookup_insert_is_Some'; by right|done|]. apply not_elem_of_union. split; [|done]. apply not_elem_of_singleton. intros ->.
    by apply eq_None_not_Some in Hn.
  - intros d dd x d' dd' x' c Hd Hx Hd' Hx'. eapply T4; [by eapply Hent|done|by eapply Hent|done].
  - intros m. rewrite lookup_insert_is_Some', not_elem_of_union, not_elem_of_singleton. intros [<-|Hm] H1 [H2 H3]; [done|].
    destruct (T5 m Hm H1 H3) as (d & dd & x & Hd & Hx). exists d, dd, x. split; [|done]. rewrite lookup_insert_ne; [done|]. intros <-. congruence.
  - intros m [->%elem_of_singleton|Hm]%elem_of_union; [split; [apply lookup_insert_is_Some'; by left|done]|].
    destruct (T6 m Hm). split; [apply lookup_insert_is_Some'; by right|done].
  - intros m md [[-> ->]|[_ Hm]]%Hold Hty'; rewrite not_elem_of_union, not_elem_of_singleton; intros [H1 H2]; [done|by eapply T7].
  - intros m md [[-> ->]|[_ Hm]]%Hold; [rewrite Ee; constructor|by eapply T8].
Qed.

Lemma tree_link N next O d nd nd' c cd x : tree N next O -> N !! d = Some nd -> c ∈ O -> N !! c = Some cd -> (an_type cd = TMPFS_T_REG -> an_nlink cd = 1) ->
  an_type nd = TMPFS_T_DIR -> an_type nd' = an_type nd -> assoc x (an_ents nd) = None -> an_ents nd' = (x, c) :: an_ents nd ->
  tree (<[d := nd']> N) next (O ∖ {[c]}).
Proof.
  intros [T1 T2 T3 T4 T5 T6 T7 T8] Hd HcO Hc Hk Hty Et Hx Ee.
  assert (Hsome : forall m, is_Some (<[d := nd']> N !! m) <-> is_Some (N !! m)).
  { intros m. rewrite lookup_insert_is_Some'. split; [intros [<-|?]; [by exists nd|done]|by right]. }
  assert (Hnot : forall m md y, N !! m = Some md -> (y, c) ∉ an_ents md) by (intros m md y Hm Hy; by destruct (T3 m md y c Hm Hy) as (_ & _ & ?)).
  assert (Hent : forall m md y e, <[d := nd']> N !! m = Some md -> (y, e) ∈ an_ents md ->
    (m = d /\ y = x /\ e = c) \/ (e <> c /\ exists md0, N !! m = Some md0 /\ (y, e) ∈ an_ents md0)).
  { intros m md y e [[<- <-]|[Hne Hm]]%lookup_insert_Some Hy.
    - rewrite Ee in Hy. apply elem_of_cons in Hy as [[= -> ->]|Hy]; [by left|]. right. split; [intros ->; exact (Hnot _ _ _ Hd Hy)|by exists nd].
    - right. split; [intros ->; exact (Hnot _ _ _ Hm Hy)|by exists md]. }
  destruct (T6 c HcO) as [_ Hc1]. constructor.
  - destruct T1 as (rd & Hr & Hrt). destruct (Z.eq_dec d 1) as [->|]; [|exists rd; by rewrite lookup_insert_ne]. exists nd'. rewrite lookup_insert_eq. split; [done|congruence].
  - intros m. rewrite Hsome. apply T2.
  - intros m md y e Hm Hy. rewrite Hsome, not_elem_of_difference, elem_of_singleton. destruct (Hent m md y e Hm Hy) as [(-> & -> & ->)|(Hne & md0 & Hm0 & Hy0)].
    + split_and!; [by exists cd|done|by right].
    + destruct (T3 m md0 y e Hm0 Hy0) as (? & ? & ?). split_and!; [done|done|by left].
  - intros m md y m' md' y' e Hm Hy Hm' Hy'.
    destruct (Hent m md y e Hm Hy) as [(E1 & E2 & E3)|(Hne & md0 & Hm0 & Hy0)], (Hent m' md' y' e Hm' Hy') as [(E1' & E2' & E3')|(Hne' & md1 & Hm1 & Hy1)];
      [split; congruence|done|done|]. by eapply T4.
  - intros m Hm%Hsome Hm1. rewrite not_elem_of_difference, elem_of_singleton. intros HmO. destruct (Z.eq_dec m c) as [->|Hmc].
    + exists d, nd', x. rewrite lookup_insert_eq, Ee. split; [done|by left].
    + destruct HmO as [HmO|]; [|done]. destruct (T5 m Hm Hm1 HmO) as (q & qd & y & Hq & Hy). destruct (Z.eq_dec q d) as [->|].
      * simplify_eq. exists d, nd', y. rewrite lookup_insert_eq, Ee. split; [done|by right].
      * exists q, qd, y. by rewrite lookup_insert_ne.
  - intros m [Hm _]%elem_of_difference. rewrite Hsome. by apply T6.
  - intros m md Hm Hmt. rewrite not_elem_of_difference, elem_of_singleton. intros HmO. apply lookup_insert_Some in Hm as [[<- <-]|[Hne Hm]].
    + rewrite Et, Hty in Hmt. done.
    + destruct HmO as [HmO| ->]; [by eapply T7|]. simplify_eq. by apply Hk.
  - intros m md [[<- <-]|[Hne Hm]]%lookup_insert_Some; [|by eapply T8]. rewrite Ee. cbn. apply NoDup_cons. split; [by apply assoc_none|by eapply T8].
Qed.

Lemma tree_unlink N next O d nd nd' c x : tree N next O -> N !! d = Some nd -> assoc x (an_ents nd) = Some c ->
  an_type nd = TMPFS_T_DIR -> an_type nd' = an_type nd -> an_ents nd' = dremove x (an_ents nd) -> tree (<[d := nd']> N) next ({[c]} ∪ O).
Proof.
  intros [T1 T2 T3 T4 T5 T6 T7 T8] Hd Hx Hty Et Ee.
  pose proof (assoc_elem _ _ _ Hx) as Hin. destruct (T3 d nd x c Hd Hin) as (Hc & Hc1 & HcO).
  assert (Hsome : forall m, is_Some (<[d := nd']> N !! m) <-> is_Some (N !! m)).
  { intros m. rewrite lookup_insert_is_Some'. split; [intros [<-|?]; [by exists nd|done]|by right]. }
  assert (Hent : forall m md y e, <[d := nd']> N !! m = Some md -> (y, e) ∈ an_ents md -> e <> c /\ exists md0, N !! m = Some md0 /\ (y, e) ∈ an_ents md0).
  { intros m md y e [[<- <-]|[Hne Hm]]%lookup_insert_Some Hy.
    - rewrite Ee in Hy. apply dremove_elem in Hy as [Hy Hyx]; [|by eapply T8]. split; [|by exists nd]. intros ->. apply Hyx. by destruct (T4 d nd x d nd y c).
    - split; [|by exists md]. intros ->. apply Hne. by destruct (T4 d nd x m md y c). }
  constructor.
  - destruct T1 as (rd & Hr & Hrt). destruct (Z.eq_dec d 1) as [->|]; [|exists rd; by rewrite lookup_insert_ne]. exists nd'. rewrite lookup_insert_eq. split; [done|congruence].
  - intros m. rewrite Hsome. apply T2.
  - intros m md y e Hm Hy. destruct (Hent m md y e Hm Hy) as (Hne & md0 & Hm0 & Hy0). destruct (T3 m md0 y e Hm0 Hy0) as (? & ? & ?).
    rewrite Hsome, not_elem_of_union, not_elem_of_singleton. done.
  - intros m md y m' md' y' e Hm Hy Hm' Hy'. destruct (Hent m md y e Hm Hy) as (_ & md0 & Hm0 & Hy0), (Hent m' md' y' e Hm' Hy') as (_ & md1 & Hm1 & Hy1). by eapply T4.
  - intros m Hm%Hsome Hm1. rewrite not_elem_of_union, not_elem_of_singleton. intros [Hmc HmO]. destruct (T5 m Hm Hm1 HmO) as (q & qd & y & Hq & Hy).
    destruct (Z.eq_dec q d) as [->|]; [|exists q, qd, y; by rewrite lookup_insert_ne]. simplify_eq. exists d, nd', y. rewrite lookup_insert_eq, Ee. split; [done|].
    apply dremove_elem; [by eapply T8|]. split; [done|]. cbn. intros ->. apply Hmc. pose proof (assoc_nodup x m _ (T8 _ _ Hd) Hy). congruence.
  - intros m [->%elem_of_singleton|Hm]%elem_of_union; rewrite Hsome; [done|by apply T6].
  - intros m md Hm Hmt. rewrite not_elem_of_union, not_elem_of_singleton. intros [_ HmO]. apply lookup_insert_Some in Hm as [[<- <-]|[Hne Hm]].
    + rewrite Et, Hty in Hmt. done.
    + by eapply T7.
  - intros m md [[<- <-]|[Hne Hm]]%lookup_insert_Some; [|by eapply T8]. rewrite Ee. apply dremove_nodup. by eapply T8.
Qed.

Lemma tree_free N next O n nd : tree N next O -> n ∈ O -> N !! n = Some nd -> an_ents nd = [] -> tree (delete n N) next (O ∖ {[n]}).
Proof.
  intros [T1 T2 T3 T4 T5 T6 T7 T8] HnO Hn Ee. destruct (T6 n HnO) as [_ Hn1].
  assert (Hlk : forall m md, delete n N !! m = Some md -> m <> n /\ N !! m = Some md) by (intros m md [? ?]%lookup_delete_Some; auto).
  assert (Hout : forall m, m ∉ O ∖ {[n]} -> m <> n -> m ∉ O) by (intros m; set_solver).
  constructor.
  - destruct T1 as (rd & Hr & Hrt). exists rd. by rewrite lookup_delete_ne.
  - intros m [md [_ Hm]%Hlk]. apply T2. by exists md.
  - intros m md y e [Hmn Hm]%Hlk Hy. destruct (T3 m md y e Hm Hy) as (? & ? & ?). split_and!; [|done|set_solver].
    apply lookup_delete_is_Some. split; [|done]. intros <-. set_solver.
  - intros m md y m' md' y' e [_ Hm]%Hlk Hy [_ Hm']%Hlk Hy'. by eapply T4.
  - intros m [md [Hmn Hm]%Hlk] Hm1 HmO. destruct (T5 m (mk_is_Some _ _ Hm) Hm1 (Hout m HmO Hmn)) as (q & qd & y & Hq & Hy). exists q, qd, y.
    rewrite lookup_delete_ne; [done|]. intros <-. simplify_eq. rewrite Ee in Hy. by apply elem_of_nil in Hy.
  - intros m [Hm Hmn%not_elem_of_singleton]%elem_of_difference. destruct (T6 m Hm). split; [|done]. apply lookup_delete_is_Some. done.
  - intros m md [Hmn Hm]%Hlk Hmt HmO. eapply T7; [done|done|by apply Hout].
  - intros m md [_ Hm]%Hlk. by eapply T8.
Qed.

(** A directory has fewer entries than numbers were given out. *)
Lemma tree_count N next O n nd : tree N next O -> N !! n = Some nd -> Z.of_nat (length (an_ents nd)) < next.
Proof.
  intros T Hn. assert (Hr := tr_range _ _ _ T). assert (Hnd : NoDup (an_ents nd).*2).
  { apply NoDup_fmap_2_strong; [|eapply NoDup_fmap_1, (tr_names _ _ _ T _ _ Hn)]. intros [x c] [x' c'] Hx Hx' E. cbn in E. subst c'.
    by destruct (tr_unique _ _ _ T n nd x n nd x' c Hn Hx Hn Hx') as [_ ->]. }
  assert (Hsub : (an_ents nd).*2 ⊆+ seqZ 1 (next - 1)).
  { apply NoDup_submseteq; [done|]. intros c ([x c'] & -> & Hx)%list_elem_of_fmap. apply elem_of_seqZ.
    destruct (tr_child _ _ _ T n nd x c' Hn Hx) as (Hc & _). specialize (Hr _ Hc). cbn [snd]. lia. }
  apply submseteq_length in Hsub. rewrite length_fmap, length_seqZ in Hsub. specialize (Hr n (mk_is_Some _ _ Hn)). unfold entry in *. lia.
Qed.

(** ** Paths as the code scans them *)

Lemma comp_of_spec rel comp e : comp_of rel = (comp, e) -> rel = comp ++ e /\ (SLASH ∉ comp) /\ (e = [] \/ exists r, e = SLASH :: r).
Proof.
  revert comp e. induction rel as [|c rel IH]; intros comp e; cbn.
  - intros [= <- <-]. split_and!; [done|apply not_elem_of_nil|by left].
  - destruct (Z.eqb_spec c SLASH) as [->|Hc].
    + intros [= <- <-]. split_and!; [done|apply not_elem_of_nil|right; by exists rel].
    + destruct (comp_of rel) as [x y]. destruct (IH x y eq_refl) as (-> & H1 & H2). intros [= <- <-]. split_and!; [done| |done].
      by apply not_elem_of_cons.
Qed.

Lemma split_plain p : SLASH ∉ p -> split_path p = [p].
Proof.
  induction p as [|c p IH]; [done|]. intros [Hc Hp]%not_elem_of_cons. cbn. rewrite (proj2 (Z.eqb_neq c SLASH)) by congruence. by rewrite IH.
Qed.

Lemma split_ne p : split_path p <> [].
Proof. destruct p as [|c p]; cbn; [done|]. destruct (c =? SLASH); [done|]. by destruct (split_path p). Qed.

Lemma split_front x r : SLASH ∉ x -> split_path (x ++ SLASH :: r) = x :: split_path r.
Proof.
  induction x as [|c x IH]; [done|]. intros [Hc Hx]%not_elem_of_cons. cbn. rewrite (proj2 (Z.eqb_neq c SLASH)) by congruence. by rewrite IH.
Qed.

Lemma split_back p x : SLASH ∉ x -> split_path (p ++ SLASH :: x) = split_path p ++ [x].
Proof.
  intros Hx. induction p as [|c p IH]; cbn; [by rewrite split_plain|]. rewrite IH. destruct (c =? SLASH); [done|].
  pose proof (split_ne p). by destruct (split_path p).
Qed.

(** The component at the front and the rest. *)
Lemma components_comp rel comp e : comp_of rel = (comp, e) ->
  components rel = (if (length comp =? 0)%nat then [] else [comp]) ++ components (tl e) /\ (rel <> [] -> (length (tl e) < length rel)%nat).
Proof.
  intros (-> & Hs & He)%comp_of_spec. assert (Hf : filter (fun x : list Z => x <> []) [comp] = if (length comp =? 0)%nat then [] else [comp]) by (by destruct comp).
  unfold components. destruct He as [->|[r ->]].
  - rewrite app_nil_r, split_plain by done. cbn [tl]. split; [by rewrite Hf, app_nil_r|]. destruct comp; cbn; [done|lia].
  - rewrite split_front by done. cbn [tl]. split; [|rewrite length_app; cbn; lia].
    change (comp :: split_path r) with ([comp] ++ split_path r). by rewrite filter_app, Hf.
Qed.

Lemma components_slash r : components (SLASH :: r) = components r.
Proof. done. Qed.

Lemma last_slash p : (SLASH ∉ p) \/ exists p1 p2, p = p1 ++ SLASH :: p2 /\ SLASH ∉ p2.
Proof.
  induction p as [|c p IH]; [left; apply not_elem_of_nil|]. destruct IH as [IH|(p1 & p2 & -> & H2)]; [|right; by exists (c :: p1), p2].
  destruct (Z.eq_dec c SLASH) as [->|]; [right; by exists [], p|left; by apply not_elem_of_cons].
Qed.

Lemma strrchr_none (p : list Z) c i last : c ∉ p -> tf_strrchr p c i last = last.
Proof. revert i. induction p as [|x p IH]; intros i; [done|]. intros [Hx Hp]%not_elem_of_cons. cbn. rewrite (proj2 (Z.eqb_neq x c)) by congruence. by apply IH. Qed.

Lemma strrchr_some p1 p2 c i last : c ∉ p2 -> tf_strrchr (p1 ++ c :: p2) c i last = i + Z.of_nat (length p1).
Proof.
  intros H2. revert i last. induction p1 as [|x p1 IH]; intros i last; cbn [app tf_strrchr length].
  - rewrite Z.eqb_refl, strrchr_none by done. lia.
  - rewrite IH. lia.
Qed.

Lemma leaf_plain p : SLASH ∉ p -> leaf_of p = p /\ dir_of p = [].
Proof. intros Hp. unfold leaf_of, dir_of. by rewrite split_plain. Qed.

Lemma leaf_back p1 p2 : SLASH ∉ p2 -> leaf_of (p1 ++ SLASH :: p2) = p2 /\ dir_of (p1 ++ SLASH :: p2) = components p1.
Proof. intros Hp. unfold leaf_of, dir_of, components. rewrite split_back by done. by rewrite last_snoc, removelast_last. Qed.

(** ** Lookup *)

Lemma ns_lookup_node N next O h s d x c : s = NS N next h -> tree N next O -> ns_lookup s d x = Some c -> is_Some (N !! c).
Proof.
  intros -> T. unfold ns_lookup. cbn. destruct (N !! d) as [nd|] eqn:Hd; [|done]. cbn. destruct (_ =? _); [|done].
  intros Hx%assoc_elem. by destruct (tr_child _ _ _ T d nd x c Hd Hx).
Qed.
