(* ===== verification/TmpfsOps.v ===== *)
(** * tmpfs operations against the abstract name space

    The relation between a mounted instance and an abstract name space, and
    what the inode table, the directory functions and the path functions do
    to it. *)

From stdpp Require Import base gmap list.
From Stdlib Require Import ZArith Lia.
From S2P Require Import Prelude Spinlock Kmalloc Allocator Tmpfs TmpfsFile TmpfsProps TmpfsNs TmpfsWalk TmpfsRel TmpfsTree.

Section ops.
Context {A : Type} `{AL : AllocatorLaws A}.
Implicit Types (t : tmpfs A) (live F O : gset Z) (L : gmap Z Z) (E : Z -> list (Z * entry)) (N : gmap Z anode)
  (ip : tmpfs_inode) (nd : anode) (es : list (Z * entry)) (s : ns) (sb : tmpfs_sb).

(** ** The relation *)

Record sb_ok sb (inos : gmap Z tmpfs_inode) (next : Z) : Prop := {
  so_lock : lock_free (sb_lock sb);
  so_next : ino_next sb = next;
  so_count : nr_inodes sb = u32 (Z.of_nat (size inos));
  so_chain : forall h, exists l, ichain inos (htab sb h) l /\
    forall a, a ∈ l <-> exists ip, inos !! a = Some ip /\ ht_bucket (i_ino ip) = h }.

(** [G] is the superblock's address, [O] the nodes not in a directory. *)
Record rel (G : Z) t s O live F L E : Prop := {
  r_g : g_sb t = G;
  r_parts : parts t live F L E (ns_nodes s);
  r_sb : exists sb, t_sbs t = {[G := sb]} /\ sb_ok sb (t_inos t) (ns_next s) /\ L !! 1 = Some (sb_root sb);
  r_tree : tree (ns_nodes s) (ns_next s) O;
  r_hdls : forall h, is_Some (t_hdls t !! h) <-> is_Some (ns_hdls s !! h);
  r_hdl : forall h n hd, ns_hdls s !! h = Some n -> t_hdls t !! h = Some hd ->
    1 <= n < ns_next s /\ forall a, L !! n = Some a -> h_ip hd = a }.

(** ** Small steps *)

(** Sequencing, as an equation: conversion would try to evaluate the loops. *)
Lemma bind_some {X Y : Type} (f : X -> option Y) x : (Some x ≫= f) = f x.
Proof. done. Qed.

Lemma set_ino_twice t a x y : set_ino (set_ino t a x) a y = set_ino t a y.
Proof. unfold set_ino, with_inos. cbn. by rewrite insert_insert_eq. Qed.

Lemma set_sb_twice t p x y : set_sb (set_sb t p x) p y = set_sb t p y.
Proof. unfold set_sb, with_sbs. cbn. by rewrite insert_insert_eq. Qed.

Lemma lock_ino_free t a ip : t_inos t !! a = Some ip -> lock_free (i_lock ip) ->
  exists l, lock_ino t a = Some (set_ino t a (set_lock l ip)) /\ lock_free (spin_unlock l).
Proof. intros Hi Hf. destruct (lock_cycle _ Hf) as (l & El & Hl). exists l. unfold lock_ino. rewrite Hi. cbn [mbind option_bind]. by rewrite El. Qed.

Lemma unlock_set t a ip : unlock_ino (set_ino t a ip) a = Some (set_ino t a (unlock ip)).
Proof. unfold unlock_ino. cbn. rewrite lookup_insert_eq. cbn [mbind option_bind]. by rewrite set_ino_twice. Qed.

Lemma lock_sb_free t p sb : t_sbs t !! p = Some sb -> lock_free (sb_lock sb) ->
  exists l, lock_sb t p = Some (set_sb t p (sb_set_lock l sb)) /\ lock_free (spin_unlock l).
Proof. intros Hi Hf. destruct (lock_cycle _ Hf) as (l & El & Hl). exists l. unfold lock_sb. rewrite Hi. cbn [mbind option_bind]. by rewrite El. Qed.

Lemma sbs_set t p sb : t_sbs (set_sb t p sb) !! p = Some sb.
Proof. apply lookup_insert_eq. Qed.

Lemma inos_set t a ip : t_inos (set_ino t a ip) !! a = Some ip.
Proof. apply lookup_insert_eq. Qed.

Lemma unlock_sb_set t p sb : unlock_sb (set_sb t p sb) p = Some (set_sb t p (sb_set_lock (spin_unlock (sb_lock sb)) sb)).
Proof. unfold unlock_sb. cbn. rewrite lookup_insert_eq. cbn [mbind option_bind]. by rewrite set_sb_twice. Qed.

Lemma singleton_sb_inj (p : Z) sb sb' : {[p := sb]} = ({[p := sb']} : gmap Z tmpfs_sb) -> sb = sb'.
Proof. intros E0. apply (f_equal (lookup p)) in E0. rewrite !lookup_singleton_eq in E0. congruence. Qed.

(** The chains only see numbers and links. *)
Lemma sb_ok_touch sb inos next a ip ip' : sb_ok sb inos next -> inos !! a = Some ip -> i_ino ip' = i_ino ip -> ht_next ip' = ht_next ip ->
  sb_ok sb (<[a := ip']> inos) next.
Proof.
  intros [S1 S2 S3 S4] Hi En Eh. constructor; [done|done| |].
  - rewrite S3. by rewrite map_size_insert_Some by (by exists ip).
  - intros h. destruct (S4 h) as (l & Hc & Hl). exists l. split.
    + eapply linked_ext; [|exact Hc]. intros b _. unfold inext. destruct (Z.eq_dec b a) as [->|]; [|by rewrite lookup_insert_ne].
      rewrite lookup_insert_eq, Hi. cbn. by rewrite Eh.
    + intros b. rewrite Hl. destruct (Z.eq_dec b a) as [->|]; [|by rewrite lookup_insert_ne]. rewrite lookup_insert_eq, Hi.
      split; intros (x & [= <-] & Hx); eexists; (split; [done|]); congruence.
Qed.

Lemma sb_ok_lock sb inos next l : sb_ok sb inos next -> lock_free l -> sb_ok (sb_set_lock l sb) inos next.
Proof. intros [S1 S2 S3 S4] Hl. by constructor. Qed.

(** Inode fields other than number, tables and links. *)
Lemma rel_touch G t s O live F L E n a nd ip nd' ip' : rel G t s O live F L E -> L !! n = Some a -> t_inos t !! a = Some ip ->
  ns_nodes s !! n = Some nd -> an_type nd' = an_type nd -> an_ents nd' = an_ents nd -> (an_type nd = TMPFS_T_REG -> n ∉ O -> an_nlink nd' = 1) ->
  pg_l1 ip' = pg_l1 ip -> ht_next ip' = ht_next ip -> node_ok t live n nd' ip' (E n) ->
  rel G (set_ino t a ip') (ns_set s n nd') O live F L E.
Proof.
  intros [R1 R2 R3 R4 R5 R6] Hl Hi Hn Et Ee Hk Epg Eh Hok. destruct (parts_lookup _ _ _ _ _ _ _ _ R2 Hl) as (nd0 & ip0 & Hn0 & Hi0 & Hok0). simplify_eq.
  constructor; [done| | | |done|done].
  - by eapply parts_touch.
  - destruct R3 as (sb & Esb & Hsb & Hroot). exists sb. split_and!; [done| |done]. eapply sb_ok_touch; [done|done| |done].
    rewrite (no_ino _ _ _ _ _ _ Hok). by rewrite (no_ino _ _ _ _ _ _ Hok0).
  - by eapply tree_set.
Qed.

(** Only the lock, the access time or nothing. *)
Lemma ns_set_same s n nd : ns_nodes s !! n = Some nd -> ns_set s n nd = s.
Proof. intros Hn. destruct s as [N x h]. unfold ns_set. cbn in *. by rewrite insert_id. Qed.

Lemma rel_node G t s O live F L E n nd : rel G t s O live F L E -> ns_nodes s !! n = Some nd ->
  exists a ip, L !! n = Some a /\ t_inos t !! a = Some ip /\ node_ok t live n nd ip (E n) /\ a <> 0.
Proof.
  intros R Hn. destruct (pt_node _ _ _ _ _ _ (r_parts _ _ _ _ _ _ _ _ R) n nd Hn) as (a & ip & Hl & Hi & Hok). exists a, ip. split_and!; [done|done|done|].
  by apply (pt_nz _ _ _ _ _ _ (r_parts _ _ _ _ _ _ _ _ R) a (LIno n)).
Qed.

Lemma node_relock t live n nd ip es l : node_ok t live n nd ip es -> lock_free l -> node_ok t live n nd (set_lock l ip) es.
Proof.
  intros Hok Hl. pose proof (no_file _ _ _ _ _ _ Hok) as Hf. destruct Hok. constructor; try done. by apply (file_ok_inode ip).
Qed.

Lemma rel_relock G t s O live F L E n a ip l : rel G t s O live F L E -> L !! n = Some a -> t_inos t !! a = Some ip -> lock_free l ->
  rel G (set_ino t a (set_lock l ip)) s O live F L E.
Proof.
  intros R Hl Hi Hf. destruct (parts_lookup _ _ _ _ _ _ _ _ (r_parts _ _ _ _ _ _ _ _ R) Hl) as (nd & ip0 & Hn & Hi0 & Hok). simplify_eq.
  rewrite <- (ns_set_same s n nd Hn). eapply rel_touch; try done; [|by apply node_relock].
  intros Hty HO. by eapply (tr_nlink _ _ _ (r_tree _ _ _ _ _ _ _ _ R)).
Qed.

Lemma rel_sb G t s O live F L E sb sb' : rel G t s O live F L E -> t_sbs t = {[G := sb]} -> sb_ok sb' (t_inos t) (ns_next s) -> sb_root sb' = sb_root sb ->
  rel G (set_sb t G sb') s O live F L E.
Proof.
  intros [R1 R2 R3 R4 R5 R6] Esb Hsb Er. constructor; try done.
  - eapply parts_same; try done. intros b. cbn. rewrite Esb, insert_singleton_eq. rewrite !lookup_singleton_is_Some. done.
  - destruct R3 as (sb0 & E0 & _ & Hroot). exists sb'. cbn. rewrite Esb, insert_singleton_eq. rewrite Esb in E0. apply singleton_sb_inj in E0 as ->.
    split_and!; [done|done|]. by rewrite Er.
Qed.

(** ** Lookup *)

(** The address a lookup returns for what the specification finds. *)
Definition found L (o : option Z) (a : Z) : Prop := match o with Some n => L !! n = Some a | None => a = 0 end.

Lemma inode_get_spec G t s O live F L E n : rel G t s O live F L E ->
  exists t', tmpfs_inode_get t G n = Some (default 0 (L !! n), t') /\ rel G t' s O live F L E /\ t_inos t' = t_inos t.
Proof.
  intros R. destruct (r_sb _ _ _ _ _ _ _ _ R) as (sb & Esb & Hsb & Hroot). pose proof (r_parts _ _ _ _ _ _ _ _ R) as P. unfold tmpfs_inode_get.
  assert (Hlk : t_sbs t !! G = Some sb) by (rewrite Esb; apply lookup_singleton_eq).
  destruct (lock_sb_free t G sb Hlk (so_lock _ _ _ Hsb)) as (l & -> & Hl). cbn [mbind option_bind]. cbn [set_sb with_sbs t_sbs t_inos]. rewrite lookup_insert_eq.
  cbn [mbind option_bind sb_set_lock htab]. destruct (so_chain _ _ _ Hsb (ht_bucket n)) as (c & Hc & Hin).
  destruct (chain_find_spec (t_inos t) n c (S (size (t_inos t))) _ Hc (linked_fuel _ _ _ _ Hc)) as (a & -> & Ha). cbn [mbind option_bind].
  change (Tmpfs _ _ _ _ _ _) with (set_sb t G (sb_set_lock l sb)). rewrite unlock_sb_set. cbn [mbind option_bind].
  eexists. split; [|split; [eapply rel_sb; [exact R|exact Esb|by apply sb_ok_lock|done]|done]].
  do 2 f_equal. destruct Ha as [[-> Hno]|(Ha0 & Hac & ip & Hi & Hn)].
  - destruct (L !! n) as [b|] eqn:Hl'; [|done]. exfalso. destruct (parts_lookup _ _ _ _ _ _ _ _ P Hl') as (nd & ip & _ & Hi & Hok).
    apply (Hno b ip); [|done|by apply (no_ino _ _ _ _ _ _ Hok)]. apply Hin. exists ip. split; [done|]. by rewrite (no_ino _ _ _ _ _ _ Hok).
  - pose proof (pt_ino _ _ _ _ _ _ P a ip Hi) as Hl'. rewrite Hn in Hl'. by rewrite Hl'.
Qed.

Lemma dir_lookup_spec G t s O live F L E d a x : rel G t s O live F L E -> L !! d = Some a -> cbytes x ->
  exists c t', tmpfs_dir_lookup t G a x = Some (c, t') /\ rel G t' s O live F L E /\ found L (ns_lookup s d x) c.
Proof.
  intros R Hl Hx. destruct (parts_lookup _ _ _ _ _ _ _ _ (r_parts _ _ _ _ _ _ _ _ R) Hl) as (nd & ip & Hn & Hi & Hok).
  unfold tmpfs_dir_lookup, ns_lookup. rewrite Hi, Hn. cbn [mbind option_bind]. rewrite (no_type _ _ _ _ _ _ Hok).
  destruct (an_type nd =? TMPFS_T_DIR); cbn [negb]; [|by exists 0, t].
  destruct (lock_ino_free t a ip Hi (no_lock _ _ _ _ _ _ Hok)) as (l & -> & Hf). cbn [mbind option_bind]. cbn [set_ino with_inos t_ents].
  pose proof (no_list _ _ _ _ _ _ Hok) as Hd. rewrite (find_name_spec _ _ _ Hx _ _ Hd (no_names _ _ _ _ _ _ Hok) (dlist_fuel _ _ _ Hd)). cbn [mbind option_bind].
  rewrite unlock_set. cbn [mbind option_bind]. assert (R' : rel G (set_ino t a (unlock (set_lock l ip))) s O live F L E) by exact (rel_relock G t s O live F L E d a ip (spin_unlock l) R Hl Hi Hf).
  rewrite <- (no_ents _ _ _ _ _ _ Hok). destruct (assoc x (an_ents nd)) as [c|] eqn:Hc; cbn [from_option id]; [|by eexists _, _].
  destruct (tr_child _ _ _ (r_tree _ _ _ _ _ _ _ _ R) d nd x c Hn (assoc_elem _ _ _ Hc)) as (Hcn & _).
  pose proof (tr_range _ _ _ (r_tree _ _ _ _ _ _ _ _ R) c Hcn). rewrite (proj2 (Z.eqb_neq c 0)) by lia.
  destruct (inode_get_spec G _ s O live F L E c R') as (t' & -> & R2 & _). eexists _, t'. split_and!; [done|done|].
  apply (pt_dom _ _ _ _ _ _ (r_parts _ _ _ _ _ _ _ _ R)) in Hcn as [b Hb]. cbn. by rewrite Hb.
Qed.

(** ** Paths *)

Lemma cbytes_app a b : cbytes (a ++ b) <-> cbytes a /\ cbytes b.
Proof. apply Forall_app. Qed.

Lemma resolve_loop_spec G s O live F L E fuel : forall t d a rel_, rel G t s O live F L E -> L !! d = Some a -> cbytes rel_ -> (length rel_ < fuel)%nat ->
  exists c t', resolve_loop fuel t G a rel_ = Some (c, t') /\ rel G t' s O live F L E /\ found L (ns_walk s d (components rel_)) c.
Proof.
  induction fuel as [|fuel IH]; intros t d a p R Hl Hp Hf; [lia|]. cbn [resolve_loop]. destruct p as [|b p0]; [by exists a, t|]. set (p := b :: p0) in *.
  destruct (comp_of p) as [x e] eqn:Ec. destruct (components_comp p x e Ec) as [-> Hlt]. specialize (Hlt ltac:(done)).
  destruct (comp_of_spec p x e Ec) as (Ep & Hs & He). rewrite Ep in Hp. apply cbytes_app in Hp as [Hx Hpe].
  assert (Htl : cbytes (tl e)) by (destruct e; [done|]; by apply Forall_cons in Hpe as [_ ?]).
  destruct (length x =? 0)%nat eqn:E0; cbn [app]; [apply IH; [done|done|done|lia]|]. cbn [ns_walk].
  destruct (Z.ltb_spec TMPFS_NAME_MAX (Z.of_nat (length x))) as [Hlong|Hshort].
  - exists 0, t. split_and!; [done|done|]. destruct (ns_lookup s d x) as [c|] eqn:Hc; [|done]. exfalso. unfold ns_lookup in Hc.
    destruct (parts_lookup _ _ _ _ _ _ _ _ (r_parts _ _ _ _ _ _ _ _ R) Hl) as (nd & ip & Hn & Hi & Hok). rewrite Hn in Hc. cbn in Hc.
    destruct (_ =? _); [|done]. apply assoc_elem in Hc. rewrite (no_ents _ _ _ _ _ _ Hok) in Hc. pose proof (no_names _ _ _ _ _ _ Hok) as Hnm.
    unfold names_ok in Hnm. rewrite Forall_forall in Hnm. destruct (Hnm _ Hc) as [_ Hlen]. cbn in Hlen. unfold TMPFS_NAME_MAX in Hlong. lia.
  - destruct (dir_lookup_spec G t s O live F L E d a x R Hl Hx) as (c & t1 & -> & R1 & Hc). cbn [mbind option_bind].
    destruct (ns_lookup s d x) as [m|]; cbn [found] in Hc; cbn [mbind option_bind].
    + pose proof (pt_nz _ _ _ _ _ _ (r_parts _ _ _ _ _ _ _ _ R1) c (LIno m) Hc). rewrite (proj2 (Z.eqb_neq c 0)) by done.
      replace (match e with [] => e | _ :: r => r end) with (tl e) by (by destruct e). apply IH; [done|done|done|lia].
    + subst c. by exists 0, t1.
Qed.

Lemma path_resolve_spec G t s O live F L E p : rel G t s O live F L E -> cbytes p ->
  exists a t', path_resolve t G p = Some (a, t') /\ rel G t' s O live F L E /\ found L (ns_resolve s p) a.
Proof.
  intros R Hp. destruct (r_sb _ _ _ _ _ _ _ _ R) as (sb & Esb & Hsb & Hroot). unfold path_resolve.
  assert (t_sbs t !! G = Some sb) as -> by (rewrite Esb; apply lookup_singleton_eq). cbn [mbind option_bind].
  set (q := match p with [] => p | c :: r => if c =? SLASH then r else p end).
  assert (Hq : cbytes q /\ components q = components p).
  { unfold q. destruct p as [|c r]; [done|]. destruct (Z.eqb_spec c SLASH) as [->|]; [|done]. split; [by apply Forall_cons in Hp as [_ ?]|done]. }
  destruct Hq as [Hq Ec]. unfold ns_resolve. rewrite <- Ec. destruct q as [|c r] eqn:Eq; [by exists (sb_root sb), t|]. rewrite <- Eq in *.
  apply resolve_loop_spec; [done|done|done|lia].
Qed.

Lemma path_parent_spec G t s O live F L E p : rel G t s O live F L E -> cbytes p ->
  exists a leaf t', path_parent t G p = Some (a, leaf, t') /\ rel G t' s O live F L E /\ found L (ns_parent s p) a /\
    (ns_parent s p <> None -> leaf = leaf_of p).
Proof.
  intros R Hp. destruct (r_sb _ _ _ _ _ _ _ _ R) as (sb & Esb & Hsb & Hroot). unfold path_parent, ns_parent.
  assert (t_sbs t !! G = Some sb) as -> by (rewrite Esb; apply lookup_singleton_eq). cbn [mbind option_bind].
  destruct (last_slash p) as [Hs|(p1 & p2 & -> & Hs)].
  - rewrite strrchr_none, Z.eqb_refl by done. destruct (leaf_plain p Hs) as [El Ed]. rewrite El, Ed.
    rewrite (proj2 (Z.leb_gt _ _)) by (unfold VFS_PATH_MAX; lia). exists (sb_root sb), p, t. done.
  - rewrite strrchr_some by done. destruct (leaf_back p1 p2 Hs) as [El Ed]. rewrite El, Ed. rewrite length_app. cbn [length].
    replace (Z.of_nat (length p1 + S (length p2)) - Z.of_nat (length p2) - 1) with (Z.of_nat (length p1)) by lia.
    rewrite Z.add_0_l. rewrite (proj2 (Z.eqb_neq _ _)) by lia. destruct (Z.eqb_spec (Z.of_nat (length p1)) 0) as [E0|E0].
    + destruct p1; [|cbn in E0; lia]. cbn. exists (sb_root sb), p2, t. done.
    + destruct (Z.leb_spec VFS_PATH_MAX (Z.of_nat (length p1))) as [Hlong|Hshort]; [by exists 0, [], t|].
      rewrite Nat2Z.id, take_app_length. apply cbytes_app in Hp as [Hp1 _]. destruct (path_resolve_spec G t s O live F L E p1 R Hp1) as (a & t' & -> & R' & Ha).
      cbn [mbind option_bind]. eexists a, _, t'. split_and!; [done|done|done|]. intros _.
      replace (Z.to_nat (Z.of_nat (length p1) + 1)) with (length (p1 ++ [SLASH])) by (rewrite length_app; cbn; lia).
      change (SLASH :: p2) with ([SLASH] ++ p2). by rewrite app_assoc, drop_app_length.
Qed.

(** ** Inodes that go *)

(** The rest of the state. *)
Definition same_rest t t' : Prop := t_sbs t' = t_sbs t /\ t_hdls t' = t_hdls t /\ g_sb t' = g_sb t.

Lemma free_ents_spec a l : forall fuel t de live F L E N, dlist (t_ents t) de l -> (length l < fuel)%nat ->
  parts (with_inos t (delete a (t_inos t))) live F L E N -> (forall b, b ∈ l.*1 -> b ∈ F) ->
  exists t', free_ents fuel t de = Some t' /\ t_inos t' = t_inos t /\ same_rest t t' /\
    parts (with_inos t' (delete a (t_inos t'))) (live ∖ list_to_set l.*1) (F ∖ list_to_set l.*1) L E N.
Proof using AL.
  induction l as [|[b [nm i]] l IH]; intros [|fuel] t de live F L E N Hd Hf P HF; cbn [length] in Hf; try lia; cbn [free_ents].
  { apply dlist_nil in Hd as ->. exists t. split_and!; [done|done|done|]. cbn. by rewrite !difference_empty_L. }
  pose proof (linked_nodup _ _ _ (proj1 Hd)) as Hnd. cbn in Hnd. apply NoDup_cons in Hnd as [Hnb _].
  apply dlist_cons in Hd as (-> & Hb & nx & Eb & Hd). rewrite (proj2 (Z.eqb_neq b 0) Hb), Eb. cbn [mbind option_bind de_next].
  destruct (parts_free _ _ _ _ _ _ b P) as (h & Ek & P1); [apply HF; by left|done|]. unfold kfree in Ek |- *. cbn [with_inos t_mem] in Ek.
  destruct (free_if (t_mem t) b) as [m|]; [|done]. cbn [mbind option_bind] in Ek |- *. injection Ek as ->.
  set (t1 := with_mem t _) in *. cbn [t1 with_mem t_ents].
  destruct (IH fuel (with_ents t1 (delete b (t_ents t))) nx (live ∖ {[b]}) (F ∖ {[b]}) L E N) as (t' & -> & Ei & Es & P2).
  - eapply dlist_ext; [|exact Hd]. intros c Hc. cbn. rewrite lookup_delete_ne; [done|]. by intros ->.
  - lia.
  - apply (parts_ents _ (delete b (t_ents t)) _ _ _ _ _ P1). intros x n Hx. cbn. rewrite lookup_delete_ne; [done|]. intros <-.
    assert (b ∈ live ∖ {[b]}) by (apply (pt_live _ _ _ _ _ _ P1); right; by exists (LEnt n)). set_solver.
  - intros c Hc. apply elem_of_difference. split; [apply HF; by right|]. apply not_elem_of_singleton. by intros ->.
  - exists t'. split_and!; [done|by rewrite Ei|done|]. cbn.
    replace (live ∖ ({[b]} ∪ list_to_set l.*1)) with (live ∖ {[b]} ∖ list_to_set l.*1) by set_solver.
    replace (F ∖ ({[b]} ∪ list_to_set l.*1)) with (F ∖ {[b]} ∖ list_to_set l.*1) by set_solver. done.
Qed.

Lemma no_pages ip (st : store (A := A)) : (forall b, ~ owns ip st b) -> forall k, 0 <= k < TMPFS_MAX_SZ -> fbyte ip st k = 0.
Proof.
  intros Hw k Hk. destruct (page_of k Hk) as [Hp _]. unfold fbyte. cbv zeta. destruct (Z.eqb_spec (pga ip st (k / 4096)) 0) as [|Hn]; [done|].
  exfalso. apply (Hw (pga ip st (k / 4096))). split; [done|right]. by exists (k / 4096).
Qed.

Lemma release_pages t live F L E N n a ip : parts t live F L E N -> L !! n = Some a -> t_inos t !! a = Some ip ->
  exists ip' m live' nd', tmpfs_file_freepages ip (t_mem t) = Some (ip', m) /\ parts (set_ino (with_mem t m) a ip') live' F L E (<[n := nd']> N) /\
    forall b, ~ owns ip' m b.
Proof using AL.
  intros P Hl Hi. destruct (parts_lookup _ _ _ _ _ _ _ _ P Hl) as (nd & ip0 & Hn & Hi0 & Hok). simplify_eq.
  destruct (freepages_spec ip (t_mem t) live (no_file _ _ _ _ _ _ Hok)) as (ip' & m & live1 & -> & Hf & Hfr & Eip & Hw).
  exists ip', m, live1, (ANode (an_type nd) (an_perm nd) (an_nlink nd) 0 (an_mtime nd) (an_ctime nd) (an_ents nd) (fun _ => 0)). split_and!; [done| |done].
  eapply parts_file; [exact P|exact Hl|exact Hi|exact Hfr|]. destruct Hok. rewrite Eip in Hf |- *.
  constructor; try done. rewrite Eip in Hw. by apply no_pages.
Qed.

(** An inode without pages, its entries and its block. *)
Lemma release_rest t live F L E N n a ip : parts t live F L E N -> L !! n = Some a -> t_inos t !! a = Some ip -> (forall b, ~ owns ip (t_mem t) b) ->
  exists t1 t2 live', free_ents (S (size (t_ents t))) t (de_head ip) = Some t1 /\ kfree t1 a = Some t2 /\ t_inos t2 = t_inos t /\ same_rest t t2 /\
    parts (with_inos t2 (delete a (t_inos t2))) live' F (delete n L) (upd E n []) (delete n N).
Proof using AL.
  intros P Hl Hi Hw. destruct (parts_lookup _ _ _ _ _ _ _ _ P Hl) as (nd & ip0 & Hn & Hi0 & Hok). simplify_eq.
  pose proof (parts_disown t live F L E _ n a ip P Hl Hi Hw) as P2. pose proof (no_list _ _ _ _ _ _ Hok) as Hd.
  destruct (free_ents_spec a (E n) (S (size (t_ents t))) t (de_head ip) live _ _ _ _ Hd (dlist_fuel _ _ _ Hd) P2) as (t2 & E2 & Ei2 & Es2 & P3).
  { intros b Hb. apply elem_of_union_r, elem_of_union_r. by apply elem_of_list_to_set. }
  assert (HaF : a ∉ F) by (by apply (pt_frame _ _ _ _ _ _ P a (LIno n))). assert (Ha0 : a <> 0) by (by apply (pt_nz _ _ _ _ _ _ P a (LIno n))).
  assert (HaE : a ∉ (E n).*1) by (intros Hin; by pose proof (pt_uniq _ _ _ _ _ _ P a (LIno n) (LEnt n) Hl Hin)).
  assert (HFE : forall b, b ∈ F -> b ∉ (E n).*1) by (intros b Hb Hin; by apply (pt_frame _ _ _ _ _ _ P b (LEnt n))).
  destruct (parts_free _ _ _ _ _ _ a P3) as (h & Ek & P4); [clear -HaE; set_solver|done|].
  assert (EF : ({[a]} ∪ (F ∪ list_to_set (E n).*1)) ∖ list_to_set (E n).*1 ∖ {[a]} = F) by (clear -HaF HaE HFE; set_solver).
  rewrite EF in P4. unfold kfree in Ek. cbn [with_inos t_mem] in Ek. destruct (free_if (t_mem t2) a) as [m2|] eqn:Ef; [|done]. cbn [mbind option_bind] in Ek.
  injection Ek as ->. exists t2, (with_mem t2 (Store h (tables (t_mem t2)) (pages (t_mem t2)))), (live ∖ list_to_set (E n).*1 ∖ {[a]}).
  split_and!; [done|unfold kfree; by rewrite Ef|done|exact Es2|exact P4].
Qed.

Lemma release_eq t a ip ip' m t1 t2 : t_inos t !! a = Some ip -> tmpfs_file_freepages ip (t_mem t) = Some (ip', m) ->
  free_ents (S (size (t_ents t))) (set_ino (with_mem t m) a ip') (de_head ip') = Some t1 -> kfree t1 a = Some t2 ->
  release t a = Some (with_inos t2 (delete a (t_inos t2))).
Proof.
  intros E1 E2 E3 E4. unfold release. rewrite E1, bind_some, E2, bind_some. cbv beta iota zeta.
  change (t_ents (set_ino (with_mem t m) a ip')) with (t_ents t). rewrite E3, bind_some, E4, bind_some. reflexivity.
Qed.

Lemma release_spec t live F L E N n a : parts t live F L E N -> L !! n = Some a ->
  exists t' live', release t a = Some t' /\ t_inos t' = delete a (t_inos t) /\ same_rest t t' /\
    parts t' live' F (delete n L) (upd E n []) (delete n N).
Proof using AL.
  intros P Hl. destruct (parts_lookup _ _ _ _ _ _ _ _ P Hl) as (nd & ip & Hn & Hi & Hok).
  destruct (release_pages t live F L E N n a ip P Hl Hi) as (ip' & m & live1 & nd' & E1 & P1 & Hw).
  assert (Hi1 : t_inos (set_ino (with_mem t m) a ip') !! a = Some ip') by (cbn [set_ino with_inos t_inos]; by rewrite lookup_insert_eq).
  destruct (release_rest _ _ _ _ _ _ n a ip' P1 Hl Hi1 Hw) as (t1 & t2 & live2 & E2 & E3 & Ei & Es & P2).
  exists (with_inos t2 (delete a (t_inos t2))), live2. rewrite delete_insert_eq in P2.
  split; [exact (release_eq t a ip ip' m t1 t2 Hi E1 E2 E3)|]. split; [|split; [exact Es|exact P2]].
  cbn [with_inos t_inos]. rewrite Ei. cbn [set_ino with_inos with_mem t_inos]. by rewrite delete_insert_eq.
Qed.

(** ** The hash table *)

Lemma u32_add x y : u32 (u32 x + y) = u32 (x + y).
Proof. unfold u32. by rewrite Zplus_mod_idemp_l. Qed.

Lemma u32_sub x y : u32 (u32 x - y) = u32 (x - y).
Proof. unfold u32. by rewrite Zminus_mod_idemp_l. Qed.

Lemma sb_ok_add sb inos next a ip l : sb_ok sb inos next -> inos !! a = None -> a <> 0 -> i_ino ip = next -> ht_next ip = htab sb (ht_bucket next) ->
  0 <= next < 2 ^ 64 - 1 -> lock_free l ->
  sb_ok (SB l (u64 (next + 1)) (u32 (nr_inodes sb + 1)) (nr_pages sb) (upd (htab sb) (ht_bucket next) a) (sb_root sb)) (<[a := ip]> inos) (next + 1).
Proof.
  intros [S1 S2 S3 S4] Hn Ha En Eh Hr Hl. constructor; cbn; [done|by apply u64_small; lia| |].
  - rewrite S3, map_size_insert_None, u32_add by done. f_equal. lia.
  - assert (Hext : forall p c, ichain inos p c -> ichain (<[a := ip]> inos) p c /\ a ∉ c).
    { intros p c Hc. assert (Hac : a ∉ c) by (intros Hin; apply (linked_elem _ _ _ _ Hc) in Hin as [_ [x Hx]]; unfold inext in Hx; by rewrite Hn in Hx).
      split; [|done]. eapply linked_ext; [|exact Hc]. intros b Hb. unfold inext. rewrite lookup_insert_ne; [done|]. by intros ->. }
    intros h. destruct (S4 h) as (c & Hc & Hin). destruct (Hext _ _ Hc) as [Hc' Hac]. unfold upd. destruct (Z.eqb_spec h (ht_bucket next)) as [->|Hne].
    + exists (a :: c). split.
      * split_and!; [done|done|]. exists (htab sb (ht_bucket next)). split; [|done]. unfold inext. rewrite lookup_insert_eq. cbn. by rewrite Eh.
      * intros b. rewrite elem_of_cons, Hin. destruct (Z.eq_dec b a) as [->|].
        -- rewrite lookup_insert_eq. split; [|by left]. intros _. exists ip. by rewrite En.
        -- rewrite lookup_insert_ne by done. naive_solver.
    + exists c. split; [done|]. intros b. rewrite Hin. destruct (Z.eq_dec b a) as [->|]; [|by rewrite lookup_insert_ne].
      rewrite lookup_insert_eq, Hn. split; intros (x & Hx & Hb); [done|]. exfalso. congruence.
Qed.

Lemma sb_ok_remove sb inos next a ip : sb_ok sb inos next -> inos !! a = Some ip ->
  exists prev inos', chain_before (S (size inos)) inos 0 (htab sb (ht_bucket (i_ino ip))) a = Some (Some prev) /\
    (if prev =? 0 then inos' = inos else exists q, inos !! prev = Some q /\ inos' = <[prev := set_ht_next (ht_next ip) q]> inos) /\ prev <> a /\
    forall l, lock_free l -> sb_ok (SB l (ino_next sb) (u32 (nr_inodes sb - 1)) (nr_pages sb)
      (if prev =? 0 then upd (htab sb) (ht_bucket (i_ino ip)) (ht_next ip) else htab sb) (sb_root sb)) (delete a inos') next.
Proof.
  intros [S1 S2 S3 S4] Hi. set (h := ht_bucket (i_ino ip)). destruct (S4 h) as (c & Hc & Hin).
  assert (Hac : a ∈ c) by (apply Hin; by exists ip). apply list_elem_of_split in Hac as (l1 & l2 & ->).
  pose proof (linked_nodup _ _ _ Hc) as Hnd. apply NoDup_app in Hnd as (_ & Hn1 & Hnd2). apply NoDup_cons in Hnd2 as [Hn2 _].
  assert (Hna : a ∉ l1) by (intros Hx; apply (Hn1 a Hx); by left).
  set (prev := before 0 l1). assert (Hprev : prev <> 0 -> prev ∈ l1).
  { unfold prev, before. destruct (last l1) eqn:El; [|done]. intros _. by apply last_Some_elem_of in El. }
  assert (Hp0 : prev = 0 <-> l1 = []).
  { split; [|by intros ->]. intros E0. destruct l1 as [|x l1 _] using rev_ind; [done|]. exfalso. unfold prev, before in E0. rewrite last_snoc in E0. cbn in E0.
    destruct (linked_elem _ _ _ x Hc) as [Hx _]; [|done]. rewrite !elem_of_app. left. right. by left. }
  assert (Hpa : prev <> a). { intros E0. destruct (Z.eq_dec prev 0) as [E1|E1]; [|apply Hna; rewrite <- E0; by apply Hprev].
    destruct (linked_elem _ _ _ a Hc) as [Hx _]; [apply elem_of_app; right; by left|]. congruence. }
  assert (Hq : prev <> 0 -> exists q, inos !! prev = Some q).
  { intros Hp. destruct (linked_elem _ _ _ prev Hc) as [_ [x Hx]]; [apply elem_of_app; left; by apply Hprev|]. unfold inext in Hx. apply fmap_Some in Hx as (q & Hq & _). by exists q. }
  set (inos' := match inos !! prev with Some q => if prev =? 0 then inos else <[prev := set_ht_next (ht_next ip) q]> inos | None => inos end).
  assert (Hinos : if prev =? 0 then inos' = inos else exists q, inos !! prev = Some q /\ inos' = <[prev := set_ht_next (ht_next ip) q]> inos).
  { unfold inos'. destruct (Z.eqb_spec prev 0) as [E0|E0]; [by destruct (inos !! prev)|]. destruct (Hq E0) as [q Eq]. rewrite Eq. by exists q. }
  assert (Hi' : forall b x, inos' !! b = Some x <-> exists x0, inos !! b = Some x0 /\ x = if b =? prev then if prev =? 0 then x0 else set_ht_next (ht_next ip) x0 else x0).
  { intros b x. destruct (Z.eqb_spec prev 0) as [E0|E0]; [rewrite Hinos; destruct (b =? prev); naive_solver|]. destruct Hinos as (q & Eq & ->).
    destruct (Z.eqb_spec b prev) as [->|]; [rewrite lookup_insert_eq, Eq|rewrite lookup_insert_ne by done]; naive_solver. }
  exists prev, inos'. split; [apply chain_before_spec with (l2 := l2); [done|by eapply linked_fuel]|]. split_and!; [done|done|].
  intros l Hl. constructor; cbn; [done|done| |].
  - rewrite S3, u32_sub. f_equal. assert (Hsz : size inos' = size inos).
    { unfold inos'. destruct (inos !! prev) eqn:Eq; [|done]. destruct (prev =? 0); [done|]. by rewrite map_size_insert_Some. }
    assert (is_Some (inos' !! a)) as [x Hx]. { eexists. apply Hi'. by exists ip. }
    pose proof (map_size_delete_Some _ _ (mk_is_Some _ _ Hx)) as Hd. assert (size inos' <> 0)%nat by (intros H0; apply map_size_empty_iff in H0; by rewrite H0 in Hx). lia.
  - intros k. destruct (Z.eq_dec k h) as [->|Hkh].
    + exists (l1 ++ l2). split.
      * assert (Hlk : ichain (delete a inos') (match l1 with [] => ht_next ip | _ => htab sb h end) (l1 ++ l2)).
        { apply (linked_unlink (inext inos) (inext (delete a inos')) a (ht_next ip) l2 l1 (htab sb h) 0); [done|unfold inext; by rewrite Hi| |by left].
          intros b Hb. fold prev. assert (b <> a) by (intros ->; apply elem_of_app in Hb as [?|?]; done). unfold inext. rewrite lookup_delete_ne by done.
          destruct (linked_elem _ _ _ b Hc) as [Hb0 [x Hx]]; [apply elem_of_app in Hb as [?|?]; apply elem_of_app; [by left|right; by right]|].
          unfold inext in Hx. apply fmap_Some in Hx as (q & Eq & _). rewrite Eq. destruct (Z.eqb_spec b prev) as [->|Hbp].
          - rewrite (proj2 (Hi' prev (set_ht_next (ht_next ip) q))); [done|]. exists q. split; [done|]. by rewrite Z.eqb_refl, (proj2 (Z.eqb_neq prev 0) Hb0).
          - rewrite (proj2 (Hi' b q)); [done|]. exists q. split; [done|]. by rewrite (proj2 (Z.eqb_neq b prev) Hbp). }
        destruct (Z.eqb_spec prev 0) as [E0|E0]; [apply Hp0 in E0; rewrite E0 in Hlk |- *; by rewrite upd_eq|].
        destruct l1; [exfalso; by apply E0, Hp0|exact Hlk].
      * intros b. rewrite elem_of_app. transitivity (b ∈ l1 ++ a :: l2 /\ b <> a).
        { rewrite elem_of_app, elem_of_cons. split; [intros [?|?]; (split; [auto|]); intros ->; done|intros [[?|[?|?]] ?]; auto; done]. }
        rewrite Hin. split.
        -- intros [(x & Hx & Hbx) Hba]. eexists. rewrite lookup_delete_ne by done. split; [apply Hi'; by exists x|]. by destruct (b =? prev), (prev =? 0).
        -- intros (x & [Hba Hx]%lookup_delete_Some & Hbx). apply Hi' in Hx as (x0 & Hx0 & ->). split; [|congruence]. exists x0. split; [done|]. by destruct (b =? prev), (prev =? 0).
    + destruct (S4 k) as (c & Hc2 & Hin2). exists c. assert (Hbc : forall b, b ∈ c -> b <> a /\ b <> prev \/ b <> a /\ prev = 0).
      { intros b Hb. pose proof Hb as (x & Hx & Hbx)%Hin2. assert (b <> a) by (intros ->; simplify_eq; done).
        destruct (Z.eq_dec prev 0) as [|E0]; [by right|left]. split; [done|]. intros ->.
        assert (prev ∈ l1 ++ a :: l2) as (y & Hy & Hby)%Hin by (apply elem_of_app; left; by apply Hprev). simplify_eq. }
      assert (Hsame : forall b, b ∈ c -> delete a inos' !! b = inos !! b).
      { intros b Hb. destruct (Hbc b Hb) as [[H1 H2]|[H1 H2]]; rewrite lookup_delete_ne by done; unfold inos'; rewrite ?H2.
        - destruct (inos !! prev); [|done]. destruct (prev =? 0); [done|]. by rewrite lookup_insert_ne.
        - by destruct (inos !! 0). }
      split.
      * assert ((if prev =? 0 then upd (htab sb) h (ht_next ip) else htab sb) k = htab sb k) as -> by (destruct (prev =? 0); [by apply upd_ne|done]).
        eapply linked_ext; [|exact Hc2]. intros b Hb. unfold inext. by rewrite Hsame.
      * intros b. rewrite Hin2. split.
        -- intros (x & Hx & Hbx). assert (Hb : b ∈ c) by (apply Hin2; by exists x). exists x. by rewrite Hsame.
        -- intros (x & [Hba Hx]%lookup_delete_Some & Hbx). apply Hi' in Hx as (x0 & Hx0 & ->). exists x0. split; [done|]. by destruct (b =? prev), (prev =? 0).
Qed.
End ops.
