(* ===== verification/TmpfsDir.v ===== *)
(** * Making and removing tmpfs nodes

    What [tmpfs_inode_alloc], [tmpfs_inode_free], [tmpfs_dir_link] and
    [tmpfs_dir_unlink] do to the abstract name space. *)

From stdpp Require Import base gmap list.
From Stdlib Require Import ZArith Lia.
From S2P Require Import Prelude Spinlock Kmalloc Allocator Tmpfs TmpfsFile TmpfsProps TmpfsNs TmpfsWalk TmpfsRel TmpfsTree TmpfsOps.

Section dir.
Context {A : Type} `{AL : AllocatorLaws A}.
Implicit Types (t : tmpfs A) (live F O : gset Z) (L : gmap Z Z) (E : Z -> list (Z * entry)) (N : gmap Z anode)
  (ip : tmpfs_inode) (nd : anode) (es : list (Z * entry)) (s : ns) (sb : tmpfs_sb).

(** ** New inodes *)

Definition fresh_inode (n ty perm now nx : Z) : tmpfs_inode := Inode n ty perm 1 0 now now now (Spinlock 0 0) (fun _ => 0) 0 0 nx.

Lemma fresh_owns n ty perm now nx (st : store (A := A)) b : ~ owns (fresh_inode n ty perm now nx) st b.
Proof. intros [Hb [(i & _ & E0)|(p & _ & E0)]]; unfold pga in E0; cbn in E0; congruence. Qed.

Lemma fresh_node t live n ty perm now nx : al_inv (heap (t_mem t)) live -> ty = TMPFS_T_DIR \/ ty = TMPFS_T_REG ->
  node_ok t live n (new_node ty perm 1 now) (fresh_inode n ty perm now nx) [].
Proof.
  intros Hh Hty. constructor; try done.
  - destruct Hty as [->| ->]; [by left|by right].
  - by apply dlist_nil.
  - constructor.
  - constructor.
Qed.

Lemma inode_alloc_parts t p sb live F L E N next ty perm now : parts t live F L E N -> t_sbs t !! p = Some sb -> sb_ok sb (t_inos t) next ->
  N !! next = None -> 0 <= next < 2 ^ 64 - 1 -> ty = TMPFS_T_DIR \/ ty = TMPFS_T_REG ->
  exists a t', tmpfs_inode_alloc t p ty perm now = Some (a, t') /\ t_hdls t' = t_hdls t /\ g_sb t' = g_sb t /\
    ((a = 0 /\ parts t' live F L E N /\ t_sbs t' = t_sbs t /\ t_inos t' = t_inos t) \/
     (a <> 0 /\ t_inos t' = <[a := fresh_inode next ty perm now (htab sb (ht_bucket next))]> (t_inos t) /\
      parts t' ({[a]} ∪ live) F (<[next := a]> L) E (<[next := new_node ty perm 1 now]> N) /\
      exists sb', t_sbs t' = <[p := sb']> (t_sbs t) /\ sb_ok sb' (t_inos t') (next + 1) /\ sb_root sb' = sb_root sb)).
Proof using AL.
  intros P Hsb Hok Hn Hr Hty. unfold tmpfs_inode_alloc.
  destruct (parts_alloc t live F L E N inode_bytes P ltac:(done)) as (h & a & -> & Hcase). cbn [mbind option_bind]. set (t1 := with_mem t _) in *.
  destruct Hcase as [[-> P1]|(Ha & Hnew & P1)]; [exists 0, t1; split_and!; [done|done|done|]; left; done|].
  rewrite (proj2 (Z.eqb_neq a 0) Ha). destruct (lock_sb_free t1 p sb Hsb (so_lock _ _ _ Hok)) as (l & -> & Hf). rewrite bind_some.
  rewrite sbs_set, bind_some. cbn [sb_set_lock ino_next nr_inodes nr_pages htab sb_root sb_lock].
  rewrite (so_next _ _ _ Hok). fold (fresh_inode next ty perm now (htab sb (ht_bucket next))). set (ip := fresh_inode _ _ _ _ _).
  match goal with |- context [unlock_sb (set_sb ?X p ?sb0) p] => set (X1 := X); set (sb1 := sb0) end. rewrite unlock_sb_set, bind_some.
  exists a, (set_sb X1 p (sb_set_lock (spin_unlock (sb_lock sb1)) sb1)). split; [done|]. split; [done|]. split; [done|right].
  assert (Hai : t_inos t !! a = None).
  { destruct (t_inos t !! a) as [x|] eqn:Hx; [|done]. exfalso. apply Hnew. apply (pt_live _ _ _ _ _ _ P). right. exists (LIno (i_ino x)).
    by apply (pt_ino _ _ _ _ _ _ P). }
  split_and!; [done|done| |].
  - assert (P2 : parts (set_ino t1 a ip) ({[a]} ∪ live) (({[a]} ∪ F) ∖ {[a]}) (<[next := a]> L) E (<[next := new_node ty perm 1 now]> N)).
    { apply parts_new; [done|set_solver|done|done|intros b; apply fresh_owns|]. apply fresh_node; [apply (pt_heap _ _ _ _ _ _ P1)|done]. }
    assert (HaF : a ∉ F) by (intros HaF; apply Hnew, (pt_live _ _ _ _ _ _ P); by left).
    replace (({[a]} ∪ F) ∖ {[a]}) with F in P2 by (clear -HaF; set_solver).
    eapply parts_same; [exact P2|done|done|done| |done]. intros b. cbn. rewrite insert_insert_eq, lookup_insert_is_Some'.
    split; [intros [<-|?]; [by rewrite Hsb|done]|by right].
  - eexists. split; [cbn [set_sb with_sbs t_sbs X1 with_inos set_ino]; by rewrite insert_insert_eq|]. split; [|done].
    unfold sb1. cbn [sb_set_lock sb_lock ino_next nr_inodes nr_pages htab sb_root]. exact (sb_ok_add sb (t_inos t) next a ip (spin_unlock l) Hok Hai Ha eq_refl eq_refl Hr Hf).
Qed.

Lemma inode_alloc_spec G t s O live F L E ty perm now : rel G t s O live F L E -> ns_next s < 2 ^ 64 - 1 -> ty = TMPFS_T_DIR \/ ty = TMPFS_T_REG ->
  let n := ns_next s in
  exists a t', tmpfs_inode_alloc t G ty perm now = Some (a, t') /\
    (a = 0 /\ rel G t' s O live F L E \/
     a <> 0 /\ (exists ip, t_inos t' !! a = Some ip /\ i_ino ip = n) /\
     rel G t' (ns_set (ns_bump s) n (new_node ty perm 1 now)) ({[n]} ∪ O) ({[a]} ∪ live) F (<[n := a]> L) E).
Proof using AL.
  intros R Hn Hty n. pose proof R as [R1 R2 (sb & Esb & Hsb & Hroot) R4 R5 R6]. pose proof (tr_range _ _ _ R4) as Hrange.
  assert (Hnn : ns_nodes s !! n = None) by (apply eq_None_not_Some; intros Hx%Hrange; unfold n in Hx; lia).
  assert (H1n : 1 <= 1 < n) by (apply Hrange; destruct (tr_root _ _ _ R4) as (rd & ? & _); by exists rd).
  assert (HLn : L !! n = None) by (apply eq_None_not_Some; intros Hx%(pt_dom _ _ _ _ _ _ R2); by apply eq_None_not_Some in Hnn).
  assert (Hlk : t_sbs t !! G = Some sb) by (rewrite Esb; apply lookup_singleton_eq).
  destruct (inode_alloc_parts t G sb live F L E _ n ty perm now R2 Hlk Hsb Hnn ltac:(unfold n in *; lia) Hty) as (a & t' & -> & Eh & Eg & Hcase).
  exists a, t'. split; [done|]. destruct Hcase as [(-> & P' & Es & Ei)|(Ha & Ei & P' & sb' & Es & Hsb' & Er)]; [left|right].
  - split; [done|]. constructor; [congruence|done| |done|by rewrite Eh|by rewrite Eh]. exists sb. by rewrite Es, Ei.
  - split; [done|]. split; [rewrite Ei, lookup_insert_eq; eexists; done|]. constructor.
    + congruence.
    + done.
    + exists sb'. rewrite Es, Esb, insert_singleton_eq. split_and!; [done|done|]. rewrite Er, lookup_insert_ne by lia. done.
    + apply tree_new; done.
    + by rewrite Eh.
    + intros h m hd H1 H2. rewrite Eh in H2. destruct (R6 h m hd H1 H2) as [H3 H4]. cbn. split; [lia|]. intros b Hb. apply H4.
      rewrite lookup_insert_ne in Hb; [done|]. unfold n in *. lia.
Qed.

(** ** Inodes out of the table *)

Lemma node_relink t live n nd ip es v : node_ok t live n nd ip es -> node_ok t live n nd (set_ht_next v ip) es.
Proof. intros Hok. pose proof (no_file _ _ _ _ _ _ Hok) as Hf. destruct Hok. constructor; try done. by apply (file_ok_inode ip). Qed.

(** Relinking a chain does not touch the blocks. *)
Lemma parts_relink t live F L E N prev q v : parts t live F L E N -> t_inos t !! prev = Some q -> parts (set_ino t prev (set_ht_next v q)) live F L E N.
Proof.
  intros P Hq. pose proof (pt_ino _ _ _ _ _ _ P prev q Hq) as Hl. destruct (parts_lookup _ _ _ _ _ _ _ _ P Hl) as (md & q0 & Hm & Hq0 & Hok). simplify_eq.
  rewrite <- (insert_id N (i_ino q) md Hm). eapply parts_touch; [exact P|exact Hl|exact Hq|done|by apply node_relink].
Qed.

(** Up to the call of [release]. *)
Lemma inode_unhash t p sb live F L E N next n a : parts t live F L E N -> t_sbs t = {[p := sb]} -> sb_ok sb (t_inos t) next -> L !! n = Some a ->
  exists t' sb', tmpfs_inode_free t p a = release t' a /\ parts t' live F L E N /\ t_sbs t' = {[p := sb']} /\ sb_ok sb' (delete a (t_inos t')) next /\
    sb_root sb' = sb_root sb /\ t_hdls t' = t_hdls t /\ g_sb t' = g_sb t.
Proof.
  intros P Esb Hsb Hl. destruct (parts_lookup _ _ _ _ _ _ _ _ P Hl) as (nd & ip & Hn & Hi & Hok). unfold tmpfs_inode_free. rewrite Hi, bind_some.
  assert (Hlk : t_sbs t !! p = Some sb) by (rewrite Esb; apply lookup_singleton_eq).
  destruct (lock_sb_free t p sb Hlk (so_lock _ _ _ Hsb)) as (l & -> & Hf). rewrite bind_some, sbs_set, bind_some. cbn [sb_set_lock htab ino_next nr_inodes nr_pages sb_root sb_lock].
  destruct (sb_ok_remove sb (t_inos t) next a ip Hsb Hi) as (prev & inos' & Ec & Hinos & Hpa & Hok').
  change (t_inos (set_sb t p (sb_set_lock l sb))) with (t_inos t). rewrite Ec, bind_some.
  set (sb1 := SB l (ino_next sb) _ _ _ _). set (t1 := set_sb (set_sb t p (sb_set_lock l sb)) p sb1).
  assert (E1 : t1 = set_sb t p sb1) by apply set_sb_twice. clearbody t1. subst t1.
  assert (Hsbs : forall (X : tmpfs A) sb2, t_sbs X = t_sbs t -> t_sbs (set_sb X p sb2) = {[p := sb2]}) by (intros X sb2 EX; cbn; by rewrite EX, Esb, insert_singleton_eq).
  assert (Hps : forall (X : tmpfs A) sb2, parts X live F L E N -> t_sbs X = t_sbs t -> parts (set_sb X p sb2) live F L E N).
  { intros X sb2 PX EX. eapply parts_same; [exact PX|done|done|done| |done]. intros b. rewrite Hsbs, EX, Esb by done. by rewrite !lookup_singleton_is_Some. }
  destruct (Z.eqb_spec prev 0) as [E0|E0].
  - subst inos'. rewrite bind_some, unlock_sb_set, bind_some. eexists _, _. split; [reflexivity|].
    split_and!; [by apply Hps|by apply Hsbs|by apply Hok'|done|done|done].
  - destruct Hinos as (q & Hq & ->). change (t_inos (set_sb t p sb1) !! prev) with (t_inos t !! prev). rewrite Hq, !bind_some.
    change (set_ino (set_sb t p sb1) prev (set_ht_next (ht_next ip) q)) with (set_sb (set_ino t prev (set_ht_next (ht_next ip) q)) p sb1).
    rewrite unlock_sb_set, bind_some. eexists _, _. split; [reflexivity|].
    split_and!; [apply Hps; [by apply parts_relink|done]|by apply Hsbs|by apply Hok'|done|done|done].
Qed.

Lemma inode_free_spec G t s O live F L E n a nd : rel G t s O live F L E -> n ∈ O -> ns_nodes s !! n = Some nd -> an_ents nd = [] -> L !! n = Some a ->
  exists t' live', tmpfs_inode_free t G a = Some t' /\
    rel G t' (NS (delete n (ns_nodes s)) (ns_next s) (ns_hdls s)) (O ∖ {[n]}) live' F (delete n L) (upd E n []).
Proof using AL.
  intros [R1 R2 (sb & Esb & Hsb & Hroot) R4 R5 R6] HnO Hn He Hl.
  destruct (inode_unhash t G sb live F L E _ _ n a R2 Esb Hsb Hl) as (t1 & sb' & -> & P1 & Es1 & Hsb' & Er & Eh & Eg).
  destruct (release_spec t1 live F L E _ n a P1 Hl) as (t' & live' & -> & Ei & (Es & Eh' & Eg') & P'). exists t', live'. split; [done|].
  destruct (tr_orphan _ _ _ R4 n HnO) as [_ Hn1]. constructor.
  - congruence.
  - done.
  - exists sb'. rewrite Es, Ei. split_and!; [done|done|]. rewrite lookup_delete_ne by done. by rewrite Er.
  - by eapply tree_free.
  - intros h. rewrite Eh', Eh. apply R5.
  - intros h m hd H1 H2. rewrite Eh', Eh in H2. destruct (R6 h m hd H1 H2) as [H3 H4]. split; [done|]. intros b [_ Hb]%lookup_delete_Some. by apply H4.
Qed.

(** ** Blocks that come and go *)

Lemma rel_parts G t t' s O live live' F F' L E : rel G t s O live F L E -> parts t' live' F' L E (ns_nodes s) -> t_inos t' = t_inos t -> same_rest t t' ->
  rel G t' s O live' F' L E.
Proof.
  intros [R1 R2 R3 R4 R5 R6] P Ei (Es & Eh & Eg). constructor; [congruence|done| |done|by rewrite Eh|by rewrite Eh].
  destruct R3 as (sb & ?). exists sb. by rewrite Es, Ei.
Qed.

Lemma rel_alloc G t s O live F L E sz : rel G t s O live F L E -> 0 < sz < 2 ^ 62 ->
  exists t' p, kalloc t sz = Some (t', p) /\ t_inos t' = t_inos t /\ t_ents t' = t_ents t /\ t_hdls t' = t_hdls t /\
    (p = 0 /\ rel G t' s O live F L E \/ p <> 0 /\ (p ∉ live) /\ rel G t' s O ({[p]} ∪ live) ({[p]} ∪ F) L E).
Proof using AL.
  intros R Hsz. destruct (parts_alloc t live F L E _ sz (r_parts _ _ _ _ _ _ _ _ R) Hsz) as (h & p & -> & Hcase). eexists _, p. split_and!; [done..|].
  destruct Hcase as [[-> P]|(Hp & Hnew & P)]; [left|right]; (split_and!; [done..|]); by eapply rel_parts.
Qed.

Lemma rel_free G t s O live F L E p : rel G t s O live F L E -> p ∈ F -> p <> 0 ->
  exists t', kfree t p = Some t' /\ t_inos t' = t_inos t /\ t_ents t' = t_ents t /\ t_hdls t' = t_hdls t /\ rel G t' s O (live ∖ {[p]}) (F ∖ {[p]}) L E.
Proof using AL.
  intros R Hp Hp0. destruct (parts_free t live F L E _ p (r_parts _ _ _ _ _ _ _ _ R) Hp Hp0) as (h & -> & P). eexists. split_and!; [done..|]. by eapply rel_parts.
Qed.

Lemma rel_F G t s O live F L E p : rel G t s O live F L E -> p ∉ live -> ({[p]} ∪ F) ∖ {[p]} = F.
Proof.
  intros R Hp. assert (p ∉ F); [|clear -H0; set_solver]. intros Hx. apply Hp. apply (pt_live _ _ _ _ _ _ (r_parts _ _ _ _ _ _ _ _ R)). by left.
Qed.

(** ** Directory entries *)

Lemma rel_relist G t s O O' live F F' L E n a ip ip' nd' es' ents' : rel G t s O live F L E -> L !! n = Some a -> t_inos t !! a = Some ip ->
  pg_l1 ip' = pg_l1 ip -> ht_next ip' = ht_next ip -> let t' := set_ino (with_ents t ents') a ip' in node_ok t' live n nd' ip' es' ->
  (forall b, b ∉ (E n).*1 -> b ∉ es'.*1 -> ents' !! b = t_ents t !! b) ->
  (forall b, b ∈ es'.*1 -> b ∈ (E n).*1 \/ b ∈ F /\ b <> 0) ->
  (forall b, b ∈ F' <-> (b ∈ F \/ b ∈ (E n).*1) /\ b ∉ es'.*1) ->
  tree (<[n := nd']> (ns_nodes s)) (ns_next s) O' -> rel G t' (ns_set s n nd') O' live F' L (upd E n es').
Proof.
  intros [R1 R2 R3 R4 R5 R6] Hl Hi Epg Eh t' Hok He Hes HF T. destruct (parts_lookup _ _ _ _ _ _ _ _ R2 Hl) as (nd0 & ip0 & Hn0 & Hi0 & Hok0). simplify_eq.
  constructor; [done|by eapply parts_relist| |done|done|done]. destruct R3 as (sb & Esb & Hsb & Hroot). exists sb. split_and!; [done| |done].
  eapply sb_ok_touch; [done|done| |done]. rewrite (no_ino _ _ _ _ _ _ Hok). by rewrite (no_ino _ _ _ _ _ _ Hok0).
Qed.

Lemma node_push t t' live n nd ip es now name c de l : node_ok t live n nd ip es -> an_type nd = TMPFS_T_DIR -> lock_free l -> name_ok name ->
  assoc name (an_ents nd) = None -> de <> 0 -> de ∉ es.*1 -> t_mem t' = t_mem t -> t_ents t' = <[de := Dirent c (de_head ip) name]> (t_ents t) ->
  node_ok t' live n (with_list now ((name, c) :: an_ents nd) nd) (set_lock l (set_mtime now (set_dir de (u32 (de_count ip + 1)) ip))) ((de, (name, c)) :: es).
Proof.
  intros Hok Hty Hlk Hnm Has Hde Hnew Em Ee. pose proof (no_file _ _ _ _ _ _ Hok) as Hf.
  pose proof (no_ents _ _ _ _ _ _ Hok) as H1. pose proof (no_count _ _ _ _ _ _ Hok) as H2. pose proof (no_nodup _ _ _ _ _ _ Hok) as H3.
  destruct Hok. constructor; rewrite ?Em, ?Ee; try done.
  - by left.
  - by apply dlist_push.
  - cbn. by rewrite H1.
  - cbn. rewrite H2, u32_add. f_equal. lia.
  - by apply Forall_cons.
  - cbn. apply NoDup_cons. split; [by apply assoc_none|done].
  - by apply (file_ok_inode ip).
Qed.

(** The codes of [tmpfs_dir_link]. *)
Definition link_code nd (name : list Z) (r : Z) : Prop :=
  if negb (an_type nd =? TMPFS_T_DIR) then r = TMPFS_ENOTDIR
  else if (length name =? 0)%nat || (255 <? length name)%nat then r = TMPFS_EINVAL
  else r = TMPFS_ENOMEM \/ r = match assoc name (an_ents nd) with Some _ => TMPFS_EEXIST | None => TMPFS_OK end.

Lemma name_length (name : list Z) : let nlen := Z.min (Z.of_nat (length name)) (TMPFS_NAME_MAX + 1) in
  (nlen =? 0) || (TMPFS_NAME_MAX <? nlen) = (length name =? 0)%nat || (255 <? length name)%nat.
Proof. cbv zeta. unfold TMPFS_NAME_MAX. apply eq_true_iff_eq. rewrite !orb_true_iff, !Z.eqb_eq, !Z.ltb_lt, !Nat.eqb_eq, !Nat.ltb_lt. lia. Qed.

(** The tail of [tmpfs_dir_link], with the entry's block at hand. *)
Lemma link_insert G t s O live F L E d a nd ip c cd name now de l : rel G t s O ({[de]} ∪ live) ({[de]} ∪ F) L E -> L !! d = Some a -> ns_nodes s !! d = Some nd ->
  t_inos t !! a = Some ip -> node_ok t ({[de]} ∪ live) d nd ip (E d) -> an_type nd = TMPFS_T_DIR -> assoc name (an_ents nd) = None -> name_ok name ->
  c ∈ O -> ns_nodes s !! c = Some cd -> (an_type cd = TMPFS_T_REG -> an_nlink cd = 1) -> lock_free l -> de <> 0 -> de ∉ F ->
  rel G (set_ino (with_ents t (<[de := Dirent c (de_head ip) name]> (t_ents t))) a (set_lock l (set_mtime now (set_dir de (u32 (de_count ip + 1)) ip))))
    (ns_set s d (with_list now ((name, c) :: an_ents nd) nd)) (O ∖ {[c]}) ({[de]} ∪ live) F L (upd E d ((de, (name, c)) :: E d)).
Proof using AL.
  intros R Hl Hn Hi Hok Hty Has Hnm HcO Hc Hk Hlk Hde HF.
  assert (Hnew : de ∉ (E d).*1) by (intros Hx; apply (pt_frame _ _ _ _ _ _ (r_parts _ _ _ _ _ _ _ _ R) de (LEnt d) Hx); set_solver).
  assert (HEF : forall b, b ∈ (E d).*1 -> b ∉ F) by (intros b Hx HbF; apply (pt_frame _ _ _ _ _ _ (r_parts _ _ _ _ _ _ _ _ R) b (LEnt d) Hx); set_solver).
  eapply rel_relist; [exact R|exact Hl|exact Hi|done|done| | | | |].
  - by apply (node_push t _ _ d nd ip (E d) now name c de l).
  - intros b _ [Hb _]%not_elem_of_cons. cbn [fst] in Hb. by rewrite lookup_insert_ne by congruence.
  - intros b [->|Hb]%elem_of_cons; [right; cbn; split; [set_solver|done]|by left].
  - intros b. rewrite fmap_cons, not_elem_of_cons, elem_of_union, elem_of_singleton. cbn [fst]. split.
    + intros Hb. split_and!; [auto|by intros ->|]. intros Hx. by apply (HEF b).
    + intros [[[->|Hb]|Hb] [H1 H2]]; done.
  - eapply tree_link; try done. apply R.
Qed.

Lemma dir_link_spec G t s O live F L E d a nd c cd name now : rel G t s O live F L E -> L !! d = Some a -> ns_nodes s !! d = Some nd -> cbytes name ->
  c ∈ O -> ns_nodes s !! c = Some cd -> (an_type cd = TMPFS_T_REG -> an_nlink cd = 1) ->
  exists r t' live' E', tmpfs_dir_link t a name c now = Some (r, t') /\ link_code nd name r /\
    (r <> 0 -> rel G t' s O live' F L E') /\
    (r = 0 -> rel G t' (ns_set s d (with_list now ((name, c) :: an_ents nd) nd)) (O ∖ {[c]}) live' F L E').
Proof using AL.
  intros R Hl Hn Hcb HcO Hc Hk. destruct (rel_node _ _ _ _ _ _ _ _ d nd R Hn) as (a0 & ip & Hl0 & Hi & Hok & Ha). assert (a0 = a) as -> by congruence.
  unfold tmpfs_dir_link, link_code. rewrite Hi, bind_some, name_length, (no_type _ _ _ _ _ _ Hok).
  destruct (Z.eqb_spec (an_type nd) TMPFS_T_DIR) as [Hty|]; cbn [negb]; [|by eexists _, t, live, E].
  destruct ((length name =? 0)%nat || (255 <? length name)%nat) eqn:Hlen; [by eexists _, t, live, E|].
  destruct (rel_alloc G t s O live F L E dirent_bytes R ltac:(done)) as (t1 & de & -> & Ei & Ee & _ & Hcase). rewrite bind_some. cbv beta iota.
  destruct Hcase as [[-> R1]|(Hde & Hnew & R1)]; [eexists _, t1, live, E; split_and!; [done|by left|done|done]|]. rewrite (proj2 (Z.eqb_neq de 0) Hde).
  rewrite <- Ei in Hi. destruct (parts_lookup _ _ _ _ _ _ _ _ (r_parts _ _ _ _ _ _ _ _ R1) Hl) as (nd1 & ip1 & Hn1 & Hi1 & Hok1). assert (nd1 = nd) as -> by congruence. assert (ip1 = ip) as -> by congruence.
  destruct (lock_ino_free t1 a ip Hi (no_lock _ _ _ _ _ _ Hok1)) as (l & -> & Hf). rewrite bind_some. change (t_ents (set_ino t1 a (set_lock l ip))) with (t_ents t1).
  pose proof (no_list _ _ _ _ _ _ Hok1) as Hd. rewrite (has_name_spec _ _ _ Hcb _ _ Hd (no_names _ _ _ _ _ _ Hok1) (dlist_fuel _ _ _ Hd)), bind_some.
  rewrite <- (no_ents _ _ _ _ _ _ Hok1). destruct (assoc name (an_ents nd)) as [i|] eqn:Has.
  - rewrite bool_decide_true by done. rewrite unlock_set, bind_some. pose proof (rel_relock _ _ _ _ _ _ _ _ _ _ _ _ R1 Hl Hi Hf) as R2.
    destruct (rel_free _ _ _ _ _ _ _ _ de R2 ltac:(set_solver) Hde) as (t3 & E3 & _ & _ & _ & R3).
    change (unlock (set_lock l ip)) with (set_lock (spin_unlock l) ip). rewrite E3, bind_some. rewrite (rel_F _ _ _ _ _ _ _ _ _ R Hnew) in R3.
    eexists _, t3, _, E. split_and!; [done|by right|done|done].
  - rewrite bool_decide_false by (by intros []). rewrite inos_set, bind_some. match goal with |- context [unlock_ino ?X a] => set (t2 := X) end.
    assert (E2 : unlock_ino t2 a = Some (set_ino (with_ents t1 (<[de := Dirent c (de_head ip) name]> (t_ents t1))) a
                (set_lock (spin_unlock l) (set_mtime now (set_dir de (u32 (de_count ip + 1)) ip))))).
    { unfold t2. rewrite unlock_set. f_equal. exact (set_ino_twice (with_ents t1 _) a (set_lock l ip) _). }
    rewrite E2, bind_some. eexists _, _, _, _. split_and!; [done|by right|done|]. intros _. eapply link_insert; try done.
    + split; [done|]. apply orb_false_iff in Hlen as [H1%Nat.eqb_neq H2%Nat.ltb_ge]. lia.
    + intros Hx. apply Hnew, (pt_live _ _ _ _ _ _ (r_parts _ _ _ _ _ _ _ _ R)). by left.
Qed.

Lemma node_pop t t' live n nd ip l1 l2 now name c de l h : node_ok t live n nd ip (l1 ++ (de, (name, c)) :: l2) -> an_type nd = TMPFS_T_DIR -> lock_free l ->
  assoc name l1.*2 = None -> t_mem t' = t_mem t -> dlist (t_ents t') h (l1 ++ l2) ->
  node_ok t' live n (with_list now (dremove name (an_ents nd)) nd) (set_lock l (set_mtime now (set_dir h (u32 (de_count ip - 1)) ip))) (l1 ++ l2).
Proof.
  intros Hok Hty Hlk Has Em Hd. pose proof (no_file _ _ _ _ _ _ Hok) as Hf.
  pose proof (no_ents _ _ _ _ _ _ Hok) as H1. pose proof (no_count _ _ _ _ _ _ Hok) as H2. pose proof (no_names _ _ _ _ _ _ Hok) as H3. pose proof (no_nodup _ _ _ _ _ _ Hok) as H4.
  destruct Hok. constructor; rewrite ?Em; try done.
  - by left.
  - cbn. by rewrite H1, dremove_split.
  - cbn. rewrite H2, u32_sub. f_equal. rewrite !length_app. cbn [length]. lia.
  - unfold names_ok in *. rewrite !fmap_app, !Forall_app, fmap_cons, Forall_cons in *. naive_solver.
  - cbn. by apply dremove_nodup.
  - by apply (file_ok_inode ip).
Qed.

(** The entry list after [*pp = del->next]. *)
Lemma dlist_bypass ents p l1 de name c l2 : dlist ents p (l1 ++ (de, (name, c)) :: l2) ->
  let prev := before 0 l1.*1 in
  exists nx ents', ents !! de = Some (Dirent c nx name) /\
    (if prev =? 0 then Some ents else q ← ents !! prev; Some (<[prev := Dirent (de_ino q) nx (de_name q)]> ents)) = Some ents' /\
    dlist ents' (if prev =? 0 then nx else p) (l1 ++ l2) /\ (forall b, b ∉ (l1 ++ (de, (name, c)) :: l2).*1 -> ents' !! b = ents !! b).
Proof.
  intros Hd prev. destruct (dlist_split _ _ _ _ _ _ _ Hd) as (nx & Hde & Hn1 & Hn2 & Hprev & H0). destruct (dlist_remove _ _ _ _ _ _ _ nx Hd Hde) as [HA HB].
  assert (Hext : forall X h, dlist (delete de X) h (l1 ++ l2) -> dlist X h (l1 ++ l2)).
  { intros X h. apply dlist_ext. intros b. rewrite fmap_app, elem_of_app. intros Hb. rewrite lookup_delete_ne; [done|]. intros <-. tauto. }
  exists nx. fold prev in HA, HB, Hprev, H0. destruct (Z.eqb_spec prev 0) as [E0|E0].
  - exists ents. split_and!; [done|done|by apply Hext, HA|done].
  - assert (Hin : prev ∈ l1.*1) by (by apply Hprev). destruct Hd as [_ Hd2]. apply list_elem_of_fmap in Hin as ([b e] & Eb & Hin). cbn in Eb. subst b.
    destruct (Hd2 prev e) as (nx' & Hq); [apply elem_of_app; by left|]. rewrite Hq, bind_some. eexists. split_and!; [done|done|by eapply Hext, HB|].
    intros x Hx. apply lookup_insert_ne. intros <-. apply Hx, list_elem_of_fmap. exists (prev, e). split; [done|]. apply elem_of_app. by left.
Qed.

(** The rest of [tmpfs_dir_unlink] up to the unlock. *)
Lemma unlink_remove G t s O live F L E d a nd ip c name now de l l1 l2 ents' h : rel G t s O live F L E -> L !! d = Some a -> ns_nodes s !! d = Some nd ->
  t_inos t !! a = Some ip -> node_ok t live d nd ip (E d) -> an_type nd = TMPFS_T_DIR -> E d = l1 ++ (de, (name, c)) :: l2 -> assoc name l1.*2 = None -> lock_free l ->
  dlist ents' h (l1 ++ l2) -> (forall b, b ∉ (l1 ++ (de, (name, c)) :: l2).*1 -> ents' !! b = t_ents t !! b) ->
  rel G (set_ino (with_ents t ents') a (set_lock l (set_mtime now (set_dir h (u32 (de_count ip - 1)) ip))))
    (ns_set s d (with_list now (dremove name (an_ents nd)) nd)) ({[c]} ∪ O) live ({[de]} ∪ F) L (upd E d (l1 ++ l2)).
Proof using AL.
  intros R Hl Hn Hi Hok Hty HE Has Hlk Hd He. pose proof (no_list _ _ _ _ _ _ Hok) as Hd0. rewrite HE in Hd0.
  destruct (dlist_split _ _ _ _ _ _ _ Hd0) as (_ & _ & Hn1 & Hn2 & _).
  assert (HEF : forall b, b ∈ (E d).*1 -> b ∉ F) by (intros b Hx; by apply (pt_frame _ _ _ _ _ _ (r_parts _ _ _ _ _ _ _ _ R) b (LEnt d) Hx)).
  assert (HEd : forall b, b ∈ (E d).*1 <-> b = de \/ b ∈ (l1 ++ l2).*1) by (intros b; rewrite HE, !fmap_app, fmap_cons, !elem_of_app, elem_of_cons; cbn [fst]; tauto).
  assert (Hde : de ∉ (l1 ++ l2).*1) by (rewrite fmap_app, elem_of_app; tauto).
  assert (Hc : assoc name (an_ents nd) = Some c).
  { apply assoc_nodup; [apply (no_nodup _ _ _ _ _ _ Hok)|]. rewrite (no_ents _ _ _ _ _ _ Hok), HE, fmap_app. apply elem_of_app. right. by left. }
  eapply rel_relist; [exact R|exact Hl|exact Hi|done|done| | | | |].
  - eapply (node_pop t); try done. by rewrite <- HE.
  - intros b Hb _. apply He. by rewrite <- HE.
  - intros b Hb. left. apply HEd. by right.
  - intros b. rewrite elem_of_union, elem_of_singleton, HEd. split.
    + intros [->|Hb]; [split; [by right; left|done]|]. split; [by left|]. intros Hx. apply (HEF b); [|done]. apply HEd. by right.
    + tauto.
  - eapply tree_unlink; try done. apply R.
Qed.

(** The code and what is left of the directory. *)
Lemma dir_unlink_spec G t s O live F L E d a nd name now : rel G t s O live F L E -> L !! d = Some a -> ns_nodes s !! d = Some nd -> cbytes name ->
  exists r t' live' E', tmpfs_dir_unlink t a name now = Some (r, t') /\
    match (if an_type nd =? TMPFS_T_DIR then assoc name (an_ents nd) else None) with
    | Some c => r = TMPFS_OK /\ rel G t' (ns_set s d (with_list now (dremove name (an_ents nd)) nd)) ({[c]} ∪ O) live' F L E'
    | None => r = (if an_type nd =? TMPFS_T_DIR then TMPFS_ENOENT else TMPFS_ENOTDIR) /\ rel G t' s O live' F L E'
    end.
Proof using AL.
  intros R Hl Hn Hcb. destruct (rel_node _ _ _ _ _ _ _ _ d nd R Hn) as (a0 & ip & Hl0 & Hi & Hok & Ha). assert (a0 = a) as -> by congruence. clear Hl0.
  unfold tmpfs_dir_unlink. rewrite Hi, bind_some, (no_type _ _ _ _ _ _ Hok).
  destruct (Z.eqb_spec (an_type nd) TMPFS_T_DIR) as [Hty|]; cbn [negb]; [|by eexists _, t, live, E].
  destruct (lock_ino_free t a ip Hi (no_lock _ _ _ _ _ _ Hok)) as (l & -> & Hf). rewrite bind_some. change (t_ents (set_ino t a (set_lock l ip))) with (t_ents t).
  pose proof (no_list _ _ _ _ _ _ Hok) as Hd. destruct (name_before_spec _ _ _ Hcb _ 0 _ Hd (no_names _ _ _ _ _ _ Hok) (dlist_fuel _ _ _ Hd)) as [HA HB].
  destruct (assoc name (an_ents nd)) as [c|] eqn:Has; rewrite (no_ents _ _ _ _ _ _ Hok) in Has.
  - destruct (HB c Has) as (l1 & de & l2 & HE & Hl1 & ->). rewrite bind_some. cbv beta iota.
    pose proof Hd as Hd0. rewrite HE in Hd0. destruct (dlist_bypass _ _ _ _ _ _ _ Hd0) as (nx & ents' & Hde & Hb & Hd' & He).
    rewrite Hde, bind_some. cbn [de_next]. unfold entry in *. rewrite Hb, bind_some, inos_set, bind_some. match goal with |- context [unlock_ino ?X a] => set (t2 := X) end.
    assert (E2 : unlock_ino t2 a = Some (set_ino (with_ents t ents') a (set_lock (spin_unlock l)
        (set_mtime now (set_dir (if before 0 l1.*1 =? 0 then nx else de_head ip) (u32 (de_count ip - 1)) ip))))).
    { unfold t2. rewrite unlock_set. f_equal. exact (set_ino_twice (with_ents t ents') a (set_lock l ip) _). }
    rewrite E2, bind_some. pose proof (unlink_remove _ _ _ _ _ _ _ _ _ _ _ _ _ _ now _ _ _ _ _ _ R Hl Hn Hi Hok Hty HE Hl1 Hf Hd' He) as R2.
    assert (Hde0 : de <> 0) by (eapply (pt_nz _ _ _ _ _ _ (r_parts _ _ _ _ _ _ _ _ R) de (LEnt d)); cbn; rewrite HE, fmap_app, elem_of_app; right; left).
    destruct (rel_free _ _ _ _ _ _ _ _ de R2 ltac:(set_solver) Hde0) as (t3 & -> & Ei & Ee & Eh & R3). rewrite bind_some.
    assert (HdF : de ∉ F) by (apply (pt_frame _ _ _ _ _ _ (r_parts _ _ _ _ _ _ _ _ R) de (LEnt d)); cbn; rewrite HE, fmap_app, elem_of_app; right; left).
    replace (({[de]} ∪ F) ∖ {[de]}) with F in R3 by (clear -HdF; set_solver).
    eexists _, _, _, _. split; [done|]. split; [done|]. eapply rel_parts; [exact R3| |done|done]. apply parts_ents; [apply (r_parts _ _ _ _ _ _ _ _ R3)|].
    intros b m Hbm. rewrite lookup_delete_ne; [done|]. intros <-. assert (Hlv : de ∈ live ∖ {[de]}); [|set_solver].
    apply (pt_live _ _ _ _ _ _ (r_parts _ _ _ _ _ _ _ _ R3)). right. by exists (LEnt m).
  - rewrite HA by done. rewrite bind_some. cbv beta iota. rewrite unlock_set, bind_some. eexists _, _, live, E. split; [done|]. split; [done|].
    exact (rel_relock _ _ _ _ _ _ _ _ _ _ _ _ R Hl Hi Hf).
Qed.

Lemma dir_iterate_spec G t s O live F L E d a nd idx : rel G t s O live F L E -> L !! d = Some a -> ns_nodes s !! d = Some nd -> 0 <= idx ->
  exists t', tmpfs_dir_iterate t a idx = Some (if an_type nd =? TMPFS_T_DIR then
      match an_ents nd !! Z.to_nat idx with Some (x, c) => inr (c, x) | None => inl TMPFS_ENOENT end else inl TMPFS_ENOTDIR, t') /\
    rel G t' s O live F L E.
Proof using AL.
  intros R Hl Hn Hidx. destruct (rel_node _ _ _ _ _ _ _ _ d nd R Hn) as (a0 & ip & Hl0 & Hi & Hok & Ha). assert (a0 = a) as -> by congruence. clear Hl0.
  unfold tmpfs_dir_iterate. rewrite Hi, bind_some, (no_type _ _ _ _ _ _ Hok). destruct (an_type nd =? TMPFS_T_DIR); cbn [negb]; [|by exists t].
  destruct (lock_ino_free t a ip Hi (no_lock _ _ _ _ _ _ Hok)) as (l & -> & Hf). rewrite bind_some. change (t_ents (set_ino t a (set_lock l ip))) with (t_ents t).
  pose proof (no_list _ _ _ _ _ _ Hok) as Hd. destruct (nth_entry_spec _ idx _ _ _ 0 Hd (dlist_fuel _ _ _ Hd) Hidx) as (r & -> & Hr).
  rewrite bind_some, unlock_set, bind_some. eexists. split; [|exact (rel_relock _ _ _ _ _ _ _ _ _ _ _ _ R Hl Hi Hf)].
  rewrite (no_ents _ _ _ _ _ _ Hok), list_lookup_fmap. rewrite Z.sub_0_r in Hr.
  destruct (E d !! Z.to_nat idx) as [[b [x c]]|]; cbn; [destruct Hr as [nx ->]|subst r]; done.
Qed.
End dir.
