(* ===== verification/TmpfsVfs.v ===== *)
(** * The tmpfs driver against the abstract name space

    Each operation of the driver returns, and does what the specification of
    the operation says: creating, removing and listing nodes, and reading and
    writing through handles. *)

From stdpp Require Import base gmap list.
From Stdlib Require Import ZArith Lia.
From S2P Require Import Prelude Spinlock Kmalloc Allocator Tmpfs TmpfsFile TmpfsProps TmpfsNs TmpfsWalk TmpfsRel TmpfsTree TmpfsOps TmpfsDir.

Section vfs.
Context {A : Type} `{AL : AllocatorLaws A}.
Implicit Types (t : tmpfs A) (live F O : gset Z) (L : gmap Z Z) (E : Z -> list (Z * entry)) (N : gmap Z anode)
  (ip : tmpfs_inode) (nd : anode) (es : list (Z * entry)) (s : ns) (sb : tmpfs_sb).

(** A mounted instance with superblock [G] beside the blocks [F]. *)
Definition mounted (G : Z) F t s : Prop := exists live L E, rel G t s ∅ live F L E.

(** ** Creation *)

Lemma ns_drop_new s nd : ns_nodes s !! ns_next s = None ->
  NS (delete (ns_next s) (ns_nodes (ns_set (ns_bump s) (ns_next s) nd))) (ns_next s + 1) (ns_hdls s) = ns_bump s.
Proof. intros Hn. unfold ns_bump, ns_set. cbn. f_equal. by apply delete_insert_id. Qed.

(** A new node goes into its directory, or is freed again. *)
Lemma link_or_free G t s live F L E a d ad nd cd leaf now : ns_nodes s !! ns_next s = None ->
  let n := ns_next s in let s1 := ns_set (ns_bump s) n cd in
  rel G t s1 {[n]} live F L E -> L !! n = Some a -> ns_nodes s !! d = Some nd -> L !! d = Some ad -> cbytes leaf -> an_ents cd = [] ->
  (an_type cd = TMPFS_T_REG -> an_nlink cd = 1) ->
  exists rc t1, tmpfs_dir_link t ad leaf n now = Some (rc, t1) /\ link_code nd leaf rc /\
    (rc <> 0 -> exists t2, tmpfs_inode_free t1 G a = Some t2 /\ mounted G F t2 (ns_bump s)) /\
    (rc = 0 -> exists live' E', rel G t1 (ns_set s1 d (with_list now ((leaf, n) :: an_ents nd) nd)) ∅ live' F L E').
Proof using AL.
  intros Hnn n s1 R Hl Hd Hld Hcb He Hk. assert (Hdn : d <> n) by (intros Ed; rewrite Ed in Hd; unfold n in Hd; congruence).
  assert (Hc1 : ns_nodes s1 !! n = Some cd) by apply lookup_insert_eq.
  assert (Hd1 : ns_nodes s1 !! d = Some nd) by (cbn; by rewrite lookup_insert_ne).
  destruct (dir_link_spec G t s1 {[n]} live F L E d ad nd n cd leaf now R Hld Hd1 Hcb ltac:(set_solver) Hc1 Hk) as (rc & t1 & live1 & E1 & -> & Hcode & HA & HB).
  exists rc, t1. split_and!; [done|done| |].
  - intros Hrc. destruct (inode_free_spec G t1 s1 {[n]} live1 F L E1 n a cd (HA Hrc) ltac:(set_solver) Hc1 He Hl) as (t2 & live2 & -> & R2). exists t2. split; [done|].
    exists live2, (delete n L), (upd E1 n []). replace ({[n]} ∖ {[n]}) with (∅ : gset Z) in R2 by set_solver.
    unfold s1, n in R2. cbn [ns_next ns_hdls ns_set ns_bump] in R2. by rewrite ns_drop_new in R2.
  - intros Hrc. exists live1, E1. replace (∅ : gset Z) with (({[n]} : gset Z) ∖ {[n]}) by set_solver. by apply HB.
Qed.

Lemma create_code now ty perm nlink s d nd leaf rc : ns_nodes s !! d = Some nd -> (length leaf =? 0)%nat = false -> link_code nd leaf rc ->
  (rc <> 0 -> create_spec now ty perm nlink s d leaf (inl rc) (ns_bump s)) /\
  (rc = 0 -> create_spec now ty perm nlink s d leaf (inr (ns_next s))
     (ns_set (ns_set (ns_bump s) (ns_next s) (new_node ty perm nlink now)) d (with_list now ((leaf, ns_next s) :: an_ents nd) nd))).
Proof.
  intros Hd Hl Hcode. unfold link_code in Hcode. rewrite Hl in Hcode. cbn [orb] in Hcode.
  split; intros Hrc; right; exists nd; (split; [done|]); destruct (negb _); [subst; done| |subst; done|];
    destruct (255 <? length leaf)%nat; [subst; done| |subst; done|].
  - destruct Hcode as [-> | Hcode]; [by left|right]. destruct (assoc leaf (an_ents nd)); subst; done.
  - right. destruct Hcode as [Hcode|Hcode]; [subst; done|]. destruct (assoc leaf (an_ents nd)); subst; done.
Qed.

Lemma found_node G t s O live F L E o a : rel G t s O live F L E -> found L o a ->
  match o with Some n => a <> 0 /\ L !! n = Some a /\ exists nd, ns_nodes s !! n = Some nd | None => a = 0 end.
Proof.
  intros R Hf. destruct o as [n|]; [|done]. cbn in Hf. split; [|split; [done|]].
  - by apply (pt_nz _ _ _ _ _ _ (r_parts _ _ _ _ _ _ _ _ R) a (LIno n)).
  - destruct (parts_lookup _ _ _ _ _ _ _ _ (r_parts _ _ _ _ _ _ _ _ R) Hf) as (nd & _ & Hn & _). by exists nd.
Qed.

Lemma next_free G t s O live F L E : rel G t s O live F L E -> ns_nodes s !! ns_next s = None.
Proof. intros R. apply eq_None_not_Some. intros Hx%(tr_range _ _ _ (r_tree _ _ _ _ _ _ _ _ R)). lia. Qed.

Lemma leaf_cbytes p : cbytes p -> cbytes (leaf_of p).
Proof.
  intros Hp. destruct (last_slash p) as [Hs|(p1 & p2 & -> & Hs)].
  - destruct (leaf_plain p Hs) as [-> _]. done.
  - destruct (leaf_back p1 p2 Hs) as [-> _]. apply cbytes_app in Hp as [_ Hp]. by apply Forall_cons in Hp as [_ ?].
Qed.

(** ** Opening and closing *)

(** The node an address stands for. *)
Definition opened L (r r0 : Z + Z) : Prop :=
  match r with inl e => r0 = inl e | inr n => exists a, r0 = inr a /\ L !! n = Some a end.

Lemma open_inode_spec G t s live F L E p flags mode now : rel G t s ∅ live F L E -> cbytes p -> ns_next s < 2 ^ 64 - 1 ->
  exists r0 t' r s' live' L' E', open_inode t p flags mode now = Some (r0, t') /\ open_spec now s p flags mode r s' /\
    rel G t' s' ∅ live' F L' E' /\ opened L' r r0.
Proof using AL.
  intros R Hp Hn. unfold open_inode, open_spec. rewrite (r_g _ _ _ _ _ _ _ _ R).
  destruct (path_resolve_spec G t s ∅ live F L E p R Hp) as (a & t1 & -> & R1 & Hf). rewrite bind_some. cbv beta iota.
  pose proof (found_node _ _ _ _ _ _ _ _ _ _ R1 Hf) as Hf1. destruct (ns_resolve s p) as [n|].
  { destruct Hf1 as (Ha & Hl & _). rewrite (proj2 (Z.eqb_neq a 0) Ha). eexists _, _, (inr n), s, live, L, E. split_and!; [done|done|done|done|]. by exists a. }
  subst a. cbn [Z.eqb negb]. destruct (Z.land flags VFS_O_CREAT =? 0); [eexists _, _, (inl _), s, live, L, E; by split_and!|].
  destruct (path_parent_spec G t1 s ∅ live F L E p R1 Hp) as (ad & leaf & t2 & -> & R2 & Hf2 & Hleaf). rewrite bind_some. cbv beta iota.
  pose proof (found_node _ _ _ _ _ _ _ _ _ _ R2 Hf2) as Hf3. destruct (ns_parent s p) as [d|]; [|subst ad; cbn [Z.eqb orb]; eexists _, _, (inl _), s, live, L, E; by split_and!].
  destruct Hf3 as (Ha & Hld & nd & Hd). rewrite (proj2 (Z.eqb_neq ad 0) Ha), Hleaf by done. cbn [orb].
  destruct (length (leaf_of p) =? 0)%nat eqn:Hlen; [eexists _, _, (inl _), s, live, L, E; by split_and!|].
  destruct (inode_alloc_spec G t2 s ∅ live F L E TMPFS_T_REG (Z.land mode 0xFFF) now R2 Hn ltac:(by right)) as (b & t3 & -> & Hcase). rewrite bind_some. cbv beta iota.
  destruct Hcase as [[-> R3]|(Hb & (ip & Hip & Eino) & R3)]; [eexists _, _, (inl _), s, live, L, E; split_and!; [done|by left|done|done]|].
  rewrite (proj2 (Z.eqb_neq b 0) Hb), Hip, bind_some, Eino. rewrite (union_empty_r_L {[ns_next s]}) in R3.
  pose proof (next_free _ _ _ _ _ _ _ _ R) as Hnn. assert (Hdn : ns_next s <> d) by (intros Hx; rewrite Hx in Hnn; congruence).
  destruct (link_or_free G t3 s _ F _ E b d ad nd _ (leaf_of p) now Hnn R3 ltac:(apply lookup_insert_eq) Hd ltac:(by rewrite lookup_insert_ne) (leaf_cbytes p Hp) eq_refl ltac:(done))
    as (rc & t4 & -> & Hcode & HA & HB). rewrite bind_some. cbv beta iota.
  destruct (create_code now TMPFS_T_REG (Z.land mode 0xFFF) 1 s d nd _ rc Hd Hlen Hcode) as [HC HD]. destruct (Z.eqb_spec rc 0) as [->|Hrc]; cbn [negb].
  - destruct (HB eq_refl) as (live' & E' & R4). eexists _, _, (inr _), _, _, _, _. split_and!; [done|by apply HD|exact R4|]. exists b. split; [done|apply lookup_insert_eq].
  - destruct (HA Hrc) as (t5 & -> & live' & L' & E' & R4). rewrite bind_some. eexists _, _, (inl rc), _, _, _, _. split_and!; [done|by apply HC|exact R4|done].
Qed.

Lemma rel_F_live G t s O live F L E p : rel G t s O live F L E -> p ∉ live -> p ∉ F.
Proof. intros R Hp Hx. apply Hp, (pt_live _ _ _ _ _ _ (r_parts _ _ _ _ _ _ _ _ R)). by left. Qed.

Definition with_handles s h : ns := NS (ns_nodes s) (ns_next s) h.

(** The node may be there although no handle could be made for it. *)
Definition tf_open_spec (now : Z) s (p : list Z) (flags mode : Z) (r : Z + Z) s' : Prop :=
  exists r1 s1, open_spec now s p flags mode r1 s1 /\
    match r1 with
    | inl e => r = inl e /\ s' = s1
    | inr n => r = inl TMPFS_ENOMEM /\ s' = s1 \/
               exists h, r = inr h /\ h <> 0 /\ ns_hdls s !! h = None /\ s' = with_handles s1 (<[h := n]> (ns_hdls s1))
    end.

Lemma create_keeps_handles now ty perm nlink s d leaf r s' : create_spec now ty perm nlink s d leaf r s' -> ns_hdls s' = ns_hdls s.
Proof.
  intros [[_ ->]|(nd & _ & Hs)]; [done|]. destruct (negb _); [by destruct Hs as [_ ->]|]. destruct (255 <? _)%nat; [by destruct Hs as [_ ->]|].
  destruct Hs as [[_ ->]|Hs]; [done|]. by destruct (assoc _ _); destruct Hs as [_ ->].
Qed.

Lemma open_keeps_handles now s p flags mode r s' : open_spec now s p flags mode r s' -> ns_hdls s' = ns_hdls s.
Proof.
  unfold open_spec. destruct (ns_resolve s p); [by intros [_ ->]|]. destruct (_ =? 0); [by intros [_ ->]|]. destruct (ns_parent s p); [|by intros [_ ->]].
  destruct (_ =? 0)%nat; [by intros [_ ->]|]. apply create_keeps_handles.
Qed.

Lemma handle_fresh G t s O live F L E h : rel G t s O live F L E -> h ∉ live -> ns_hdls s !! h = None.
Proof.
  intros R Hh. apply eq_None_not_Some. intros Hx%(r_hdls _ _ _ _ _ _ _ _ R). apply Hh, (pt_live _ _ _ _ _ _ (r_parts _ _ _ _ _ _ _ _ R)).
  right. by exists LHdl.
Qed.

Lemma rel_open G t s O live F L E h n a : rel G t s O ({[h]} ∪ live) ({[h]} ∪ F) L E -> h ∉ live -> h ∉ F -> h <> 0 -> L !! n = Some a ->
  rel G (with_hdls t (<[h := Hdl G a]> (t_hdls t))) (with_handles s (<[h := n]> (ns_hdls s))) O ({[h]} ∪ live) F L E.
Proof.
  intros [R1 R2 R3 R4 R5 R6] Hh HF H0 Hl. constructor; try done.
  - replace F with (({[h]} ∪ F) ∖ {[h]}) by (clear -HF; set_solver). apply parts_add_hdl; [done|set_solver|done].
  - intros x. cbn. rewrite !lookup_insert_is_Some', R5. done.
  - intros x m hd. cbn. intros [[<- <-]|[Hne Hx]]%lookup_insert_Some.
    + rewrite lookup_insert_eq. intros [= <-]. split; [|cbn; intros; congruence]. apply (tr_range _ _ _ R4), (pt_dom _ _ _ _ _ _ R2). by exists a.
    + rewrite lookup_insert_ne by done. by apply R6.
Qed.

Lemma tf_open_ok G F t s p flags mode now : mounted G F t s -> cbytes p -> ns_next s < 2 ^ 64 - 1 ->
  exists r t' s', tf_open t p flags mode now = Some (r, t') /\ tf_open_spec now s p flags mode r s' /\ mounted G F t' s'.
Proof using AL.
  intros (live & L & E & R) Hp Hn. unfold tf_open.
  destruct (open_inode_spec G t s live F L E p flags mode now R Hp Hn) as (r0 & t1 & r1 & s1 & live1 & L1 & E1 & -> & Hs & R1 & Ho). rewrite bind_some. cbv beta iota.
  destruct r1 as [e|n]; cbn in Ho; [subst r0; eexists _, t1, s1; split_and!; [done|by exists (inl e), s1|by exists live1, L1, E1]|].
  destruct Ho as (a & -> & Hl). destruct (rel_alloc G t1 s1 ∅ live1 F L1 E1 hdl_bytes R1 ltac:(done)) as (t2 & h & -> & Ei & _ & Eh & Hcase). rewrite bind_some. cbv beta iota.
  destruct Hcase as [[-> R2]|(Hh & Hnew & R2)].
  - eexists _, t2, s1. split_and!; [done|exists (inr n), s1; split; [done|by left]|by exists live1, L1, E1].
  - rewrite (proj2 (Z.eqb_neq h 0) Hh), (r_g _ _ _ _ _ _ _ _ R2). eexists _, _, _. split; [done|]. split.
    + exists (inr n), s1. split; [done|right]. exists h. split_and!; [done|done| |done]. rewrite <- (open_keeps_handles _ _ _ _ _ _ _ Hs). exact (handle_fresh _ _ _ _ _ _ _ _ _ R1 Hnew).
    + eexists _, L1, E1. apply rel_open; [exact R2|done|exact (rel_F_live _ _ _ _ _ _ _ _ _ R1 Hnew)|done|done].
Qed.

Lemma tf_close_ok G F t s h : mounted G F t s -> is_Some (ns_hdls s !! h) ->
  exists t', tf_close t h = Some t' /\ mounted G F t' (with_handles s (delete h (ns_hdls s))).
Proof using AL.
  intros (live & L & E & R) Hh. pose proof R as [R1 R2 R3 R4 R5 R6]. apply R5 in Hh. unfold tf_close.
  assert (Hheld : held t L E h LHdl) by done. pose proof (pt_frame _ _ _ _ _ _ R2 h LHdl Hheld) as HF.
  destruct (parts_free _ _ _ _ _ _ h (parts_drop_hdl t live F L E _ h R2 Hh) ltac:(set_solver) (pt_nz _ _ _ _ _ _ R2 h LHdl Hheld)) as (hp & Ef & P).
  assert (Ek : kfree t h = Some (with_mem t (Store hp (tables (t_mem t)) (pages (t_mem t))))).
  { unfold kfree in *. cbn in Ef. destruct (free_if (t_mem t) h) as [m|]; [|done]. cbn in *. by injection Ef as ->. }
  rewrite Ek, bind_some. eexists. split; [done|]. exists (live ∖ {[h]}), L, E. replace (({[h]} ∪ F) ∖ {[h]}) with F in P by (clear -HF; set_solver).
  constructor; try done.
  - intros x. cbn. rewrite !lookup_delete_is_Some, R5. done.
  - intros x m hd. cbn. intros [Hne Hx]%lookup_delete_Some [_ Hy]%lookup_delete_Some. by apply (R6 x).
Qed.

(** ** Directories *)

Lemma rel_nlink G t s O live F L E n a ip nd k : rel G t s O live F L E -> L !! n = Some a -> t_inos t !! a = Some ip -> ns_nodes s !! n = Some nd ->
  (an_type nd = TMPFS_T_REG -> n ∉ O -> k = 1) -> rel G (set_ino t a (set_nlink k ip)) (ns_set s n (with_nlink k nd)) O live F L E.
Proof.
  intros R Hl Hi Hn Hk. destruct (rel_node _ _ _ _ _ _ _ _ n nd R Hn) as (a' & ip' & Hl' & Hi' & Hok & _). assert (a' = a) as -> by congruence.
  assert (ip' = ip) as -> by congruence. eapply rel_touch; try done. pose proof (no_file _ _ _ _ _ _ Hok) as Hfo. destruct Hok. constructor; try done. by apply (file_ok_inode ip).
Qed.

Lemma tf_mkdir_ok G F t s p mode now : mounted G F t s -> cbytes p -> ns_next s < 2 ^ 64 - 1 ->
  exists r t' s', tf_mkdir t p mode now = Some (r, t') /\ mkdir_spec now s p mode r s' /\ mounted G F t' s'.
Proof using AL.
  intros (live & L & E & R) Hp Hn. unfold tf_mkdir, mkdir_spec. rewrite (r_g _ _ _ _ _ _ _ _ R).
  destruct (path_parent_spec G t s ∅ live F L E p R Hp) as (ad & leaf & t2 & -> & R2 & Hf2 & Hleaf). rewrite bind_some. cbv beta iota.
  pose proof (found_node _ _ _ _ _ _ _ _ _ _ R2 Hf2) as Hf3. destruct (ns_parent s p) as [d|]; [|subst ad; cbn [Z.eqb orb]; eexists _, t2, s; split_and!; [done..|by exists live, L, E]].
  destruct Hf3 as (Ha & Hld & nd & Hd). rewrite (proj2 (Z.eqb_neq ad 0) Ha), Hleaf by done. cbn [orb].
  destruct (length (leaf_of p) =? 0)%nat eqn:Hlen; [eexists _, t2, s; split_and!; [done..|by exists live, L, E]|].
  destruct (inode_alloc_spec G t2 s ∅ live F L E TMPFS_T_DIR (Z.land mode 0xFFF) now R2 Hn ltac:(by left)) as (b & t3 & -> & Hcase). rewrite bind_some. cbv beta iota.
  destruct Hcase as [[-> R3]|(Hb & (ip & Hip & Eino) & R3)].
  { eexists _, t3, s. split_and!; [done| |by exists live, L, E]. exists (inl TMPFS_ENOMEM), s. split; [by left|done]. }
  rewrite (proj2 (Z.eqb_neq b 0) Hb), Hip, bind_some. cbv zeta. rewrite Eino. rewrite (union_empty_r_L {[ns_next s]}) in R3.
  pose proof (next_free _ _ _ _ _ _ _ _ R) as Hnn. assert (Hdn : ns_next s <> d) by (intros Hx; rewrite Hx in Hnn; congruence).
  assert (R4 : rel G (set_ino t3 b (set_nlink 2 ip)) (ns_set (ns_bump s) (ns_next s) (new_node TMPFS_T_DIR (Z.land mode 0xFFF) 2 now)) {[ns_next s]}
            ({[b]} ∪ live) F (<[ns_next s := b]> L) E).
  { pose proof (rel_nlink _ _ _ _ _ _ _ _ (ns_next s) b ip _ 2 R3 ltac:(apply lookup_insert_eq) Hip ltac:(apply lookup_insert_eq) ltac:(done)) as R4.
    unfold ns_set in R4. cbn in R4. by rewrite insert_insert_eq in R4. }
  destruct (link_or_free G _ s _ F _ E b d ad nd _ (leaf_of p) now Hnn R4 ltac:(apply lookup_insert_eq) Hd ltac:(by rewrite lookup_insert_ne) (leaf_cbytes p Hp) eq_refl ltac:(done))
    as (rc & t4 & -> & Hcode & HA & HB). rewrite bind_some. cbv beta iota.
  destruct (create_code now TMPFS_T_DIR (Z.land mode 0xFFF) 2 s d nd _ rc Hd Hlen Hcode) as [HC HD]. destruct (Z.eqb_spec rc 0) as [->|Hrc]; cbn [negb].
  - destruct (HB eq_refl) as (live' & E' & R5). destruct (rel_node _ _ _ _ _ _ _ _ d _ R5 ltac:(apply lookup_insert_eq)) as (ad' & dp & Hld' & Hdp & Hok & _).
    rewrite lookup_insert_ne in Hld' by done. simplify_eq. rewrite Hdp, bind_some. eexists _, _, _. split; [done|].
    split; [exists (inr (ns_next s)); eexists; split; [by apply HD|]; split; [done|]; eexists; split; [apply lookup_insert_eq|done]|].
    rewrite (no_nlink _ _ _ _ _ _ Hok). exists live', (<[ns_next s := b]> L), E'.
    apply (rel_nlink _ _ _ _ _ _ _ _ _ _ _ _ _ R5); [by rewrite lookup_insert_ne|done|apply lookup_insert_eq|].
    cbn. intros Hty. unfold link_code in Hcode. by rewrite Hty in Hcode.
  - destruct (HA Hrc) as (t5 & -> & live' & L' & E' & R5). rewrite bind_some. eexists _, _, _. split; [done|]. split; [|by exists live', L', E'].
    exists (inl rc). eexists. split; [by apply HC|done].
Qed.
Lemma target_spec G t s live F L E p : rel G t s ∅ live F L E -> cbytes p ->
  exists ad leaf t1, path_parent t G p = Some (ad, leaf, t1) /\
    match target s p with
    | None => ad = 0 /\ rel G t1 s ∅ live F L E \/ ad <> 0 /\ exists t2, tmpfs_dir_lookup t1 G ad leaf = Some (0, t2) /\ rel G t2 s ∅ live F L E
    | Some (d, nd, c, cd) =>
      ad <> 0 /\ leaf = leaf_of p /\ L !! d = Some ad /\ ns_nodes s !! d = Some nd /\ an_type nd = TMPFS_T_DIR /\ assoc leaf (an_ents nd) = Some c /\
      ns_nodes s !! c = Some cd /\ exists ac ip t2, tmpfs_dir_lookup t1 G ad leaf = Some (ac, t2) /\ ac <> 0 /\ L !! c = Some ac /\
        t_inos t2 !! ac = Some ip /\ node_ok t2 live c cd ip (E c) /\ rel G t2 s ∅ live F L E
    end.
Proof using AL.
  intros R Hp. destruct (path_parent_spec G t s ∅ live F L E p R Hp) as (ad & leaf & t1 & -> & R1 & Hf & Hleaf). exists ad, leaf, t1. split; [done|].
  pose proof (found_node _ _ _ _ _ _ _ _ _ _ R1 Hf) as Hf1. unfold target. destruct (ns_parent s p) as [d|]; cbn [mbind option_bind]; [|by left].
  destruct Hf1 as (Ha & Hl & nd & Hd). rewrite Hd. cbn [mbind option_bind]. rewrite Hleaf by done. clear Hleaf.
  destruct (dir_lookup_spec G t1 s ∅ live F L E d ad (leaf_of p) R1 Hl (leaf_cbytes p Hp)) as (ac & t2 & E2 & R2 & Hf2). pose proof (found_node _ _ _ _ _ _ _ _ _ _ R2 Hf2) as Hf3.
  destruct (ns_lookup s d (leaf_of p)) as [c|] eqn:Hlk; cbn [mbind option_bind]; [|subst ac; right; split; [done|by exists t2]].
  destruct Hf3 as (Hac & Hlc & cd & Hc). rewrite Hc. cbn [mbind option_bind]. unfold ns_lookup in Hlk. rewrite Hd in Hlk. cbn [mbind option_bind] in Hlk.
  destruct (Z.eqb_spec (an_type nd) TMPFS_T_DIR) as [Hty|]; [|done].
  destruct (rel_node _ _ _ _ _ _ _ _ c cd R2 Hc) as (ac' & ip & Hlc' & Hip & Hok & _). assert (ac' = ac) as -> by congruence. split_and!; [done..|]. by exists ac, ip, t2.
Qed.

(** Freeing what was just taken out of its directory. *)
Lemma free_target G t s c cd live F L E ac ip : rel G t s {[c]} live F L E -> ns_nodes s !! c = Some cd -> an_ents cd = [] -> L !! c = Some ac -> t_inos t !! ac = Some ip ->
  exists t', tmpfs_inode_free (set_ino t ac (set_nlink 0 ip)) G ac = Some t' /\ mounted G F t' (NS (delete c (ns_nodes s)) (ns_next s) (ns_hdls s)).
Proof using AL.
  intros R Hc He Hl Hi. pose proof (rel_nlink _ _ _ _ _ _ _ _ c ac ip cd 0 R Hl Hi Hc ltac:(intros _ Hx; set_solver)) as R1.
  destruct (inode_free_spec _ _ _ _ _ _ _ _ c ac _ R1 ltac:(set_solver) ltac:(apply lookup_insert_eq) He Hl) as (t' & live' & -> & R2). exists t'. split; [done|].
  replace ({[c]} ∖ {[c]}) with (∅ : gset Z) in R2 by set_solver. cbn in R2. rewrite delete_insert_eq in R2. by exists live', (delete c L), (upd E c []).
Qed.

Lemma tf_unlink_ok G F t s p now : mounted G F t s -> cbytes p ->
  exists r t' s', tf_unlink t p now = Some (r, t') /\ unlink_spec now s p r s' /\ mounted G F t' s'.
Proof using AL.
  intros (live & L & E & R) Hp. unfold tf_unlink, unlink_spec. rewrite (r_g _ _ _ _ _ _ _ _ R).
  destruct (target_spec G t s live F L E p R Hp) as (ad & leaf & t1 & -> & Ht). rewrite bind_some. cbv beta iota. destruct (target s p) as [[[[d nd] c] cd]|].
  2:{ destruct Ht as [[-> R1]|(Ha & t2 & E2 & R2)]; [cbn [Z.eqb]; eexists _, t1, s; split_and!; [done..|by exists live, L, E]|].
      rewrite (proj2 (Z.eqb_neq ad 0) Ha), E2, bind_some. eexists _, t2, s. split_and!; [done..|by exists live, L, E]. }
  destruct Ht as (Ha & Eleaf & Hl & Hd & Hty & Has & Hc & ac & ip & t2 & E2 & Hac & Hlc & Hip & Hok & R2).
  rewrite (proj2 (Z.eqb_neq ad 0) Ha), E2, bind_some. cbv beta iota. rewrite (proj2 (Z.eqb_neq ac 0) Hac), Hip, bind_some, (no_type _ _ _ _ _ _ Hok).
  destruct (Z.eqb_spec (an_type cd) TMPFS_T_DIR) as [Hcd|Hcd]; [eexists _, t2, s; split_and!; [done..|by exists live, L, E]|].
  destruct (no_kind _ _ _ _ _ _ Hok) as [|[Hreg Hes]]; [done|]. assert (He : an_ents cd = []) by (by rewrite (no_ents _ _ _ _ _ _ Hok), Hes).
  destruct (dir_unlink_spec G t2 s ∅ live F L E d ad nd leaf now R2 Hl Hd ltac:(subst; by apply leaf_cbytes)) as (rc & t3 & live3 & E3 & -> & Hr).
  rewrite Hty, Z.eqb_refl, Has in Hr. destruct Hr as [-> R3]. rewrite bind_some. cbn [TMPFS_OK Z.eqb negb]. rewrite (union_empty_r_L {[c]}) in R3.
  assert (Hdc : d <> c) by (intros ->; congruence). assert (Hc3 : ns_nodes (ns_set s d (with_list now (dremove leaf (an_ents nd)) nd)) !! c = Some cd) by (cbn; by rewrite lookup_insert_ne).
  destruct (rel_node _ _ _ _ _ _ _ _ c cd R3 Hc3) as (ac' & ip3 & Hlc3 & Hip3 & Hok3 & _). assert (ac' = ac) as -> by congruence.
  rewrite Hip3, bind_some, (no_nlink _ _ _ _ _ _ Hok3), (tr_nlink _ _ _ (r_tree _ _ _ _ _ _ _ _ R) c cd Hc Hreg ltac:(set_solver)). change (u32 (1 - 1)) with 0. cbn [Z.eqb].
  destruct (free_target _ _ _ _ _ _ _ _ _ _ _ R3 Hc3 He Hlc Hip3) as (t' & -> & HM). rewrite bind_some. eexists _, t', _. split; [done|]. split; [split; [done|]|exact HM]. by subst leaf.
Qed.

(** The count in the inode tells whether a directory is empty. *)
Lemma count_empty G t s O live F L E n nd ip : rel G t s O live F L E -> ns_next s < 2 ^ 32 -> ns_nodes s !! n = Some nd -> node_ok t live n nd ip (E n) ->
  (de_count ip =? 0) = (length (an_ents nd) =? 0)%nat.
Proof.
  intros R Hn Hnd Hok. pose proof (tree_count _ _ _ _ _ (r_tree _ _ _ _ _ _ _ _ R) Hnd) as Hc. rewrite (no_count _ _ _ _ _ _ Hok).
  assert (Hlen : length (E n) = length (an_ents nd)) by (rewrite (no_ents _ _ _ _ _ _ Hok); unfold entry; by rewrite length_fmap).
  rewrite Hlen. unfold u32. rewrite Z.mod_small by lia. apply eq_true_iff_eq. rewrite Z.eqb_eq, Nat.eqb_eq. lia.
Qed.

Lemma tf_rmdir_ok G F t s p now : mounted G F t s -> cbytes p -> ns_next s < 2 ^ 32 ->
  exists r t' s', tf_rmdir t p now = Some (r, t') /\ rmdir_spec now s p r s' /\ mounted G F t' s'.
Proof using AL.
  intros (live & L & E & R) Hp Hn. unfold tf_rmdir, rmdir_spec. rewrite (r_g _ _ _ _ _ _ _ _ R).
  destruct (target_spec G t s live F L E p R Hp) as (ad & leaf & t1 & -> & Ht). rewrite bind_some. cbv beta iota. destruct (target s p) as [[[[d nd] c] cd]|].
  2:{ destruct Ht as [[-> R1]|(Ha & t2 & E2 & R2)]; [cbn [Z.eqb]; eexists _, t1, s; split_and!; [done..|by exists live, L, E]|].
      rewrite (proj2 (Z.eqb_neq ad 0) Ha), E2, bind_some. eexists _, t2, s. split_and!; [done..|by exists live, L, E]. }
  destruct Ht as (Ha & Eleaf & Hl & Hd & Hty & Has & Hc & ac & ip & t2 & E2 & Hac & Hlc & Hip & Hok & R2).
  rewrite (proj2 (Z.eqb_neq ad 0) Ha), E2, bind_some. cbv beta iota. rewrite (proj2 (Z.eqb_neq ac 0) Hac), Hip, bind_some, (no_type _ _ _ _ _ _ Hok).
  destruct (negb (an_type cd =? TMPFS_T_DIR)); [eexists _, t2, s; split_and!; [done..|by exists live, L, E]|].
  rewrite (count_empty _ _ _ _ _ _ _ _ c cd ip R2 Hn Hc Hok).
  destruct (length (an_ents cd) =? 0)%nat eqn:Hlen; cbn [negb]; [|eexists _, t2, s; split_and!; [done..|by exists live, L, E]].
  apply Nat.eqb_eq, nil_length_inv in Hlen as He.
  destruct (dir_unlink_spec G t2 s ∅ live F L E d ad nd leaf now R2 Hl Hd ltac:(subst; by apply leaf_cbytes)) as (rc & t3 & live3 & E3 & -> & Hr).
  rewrite Hty, Z.eqb_refl, Has in Hr. destruct Hr as [-> R3]. rewrite bind_some. cbn [TMPFS_OK Z.eqb negb]. rewrite (union_empty_r_L {[c]}) in R3.
  assert (Hdc : d <> c) by (intros ->; assert (cd = nd) as -> by congruence; by rewrite He in Has).
  set (nd1 := with_list now (dremove leaf (an_ents nd)) nd) in *. assert (Hd3 : ns_nodes (ns_set s d nd1) !! d = Some nd1) by apply lookup_insert_eq.
  destruct (rel_node _ _ _ _ _ _ _ _ d nd1 R3 Hd3) as (ad' & dp & Hld & Hdp & Hokd & _). assert (ad' = ad) as -> by congruence. rewrite Hdp, bind_some, (no_nlink _ _ _ _ _ _ Hokd).
  set (k := if 0 <? an_nlink nd then an_nlink nd - 1 else an_nlink nd).
  assert (R4 : rel G (if 0 <? an_nlink nd1 then set_ino t3 ad (set_nlink (an_nlink nd1 - 1) dp) else t3) (ns_set s d (with_nlink k nd1)) {[c]} live3 F L E3).
  { replace (ns_set s d (with_nlink k nd1)) with (ns_set (ns_set s d nd1) d (with_nlink k nd1)) by (unfold ns_set; cbn; by rewrite insert_insert_eq).
    unfold k. change (an_nlink nd1) with (an_nlink nd). destruct (0 <? an_nlink nd).
    - apply (rel_nlink _ _ _ _ _ _ _ _ _ _ _ _ _ R3); [done|done|done|]. cbn. by rewrite Hty.
    - rewrite ns_set_same; [done|]. rewrite Hd3. by destruct nd. }
  match type of R4 with rel _ ?X _ _ _ _ _ _ => set (t4 := X) in * end. clearbody t4. assert (Hc4 : ns_nodes (ns_set s d (with_nlink k nd1)) !! c = Some cd) by (cbn; by rewrite lookup_insert_ne).
  destruct (rel_node _ _ _ _ _ _ _ _ c cd R4 Hc4) as (ac' & ip4 & Hlc4 & Hip4 & _ & _). assert (ac' = ac) as -> by congruence. rewrite Hip4, bind_some.
  destruct (free_target _ _ _ _ _ _ _ _ _ _ _ R4 Hc4 He Hlc Hip4) as (t' & -> & HM). rewrite bind_some. eexists _, t', _. split; [done|]. split; [split; [done|]|exact HM]. by subst leaf.
Qed.

(** ** Reading the name space *)

Lemma fill_stat_spec t live n nd ip es : node_ok t live n nd ip es -> fill_stat ip = node_stat n nd.
Proof. intros Hok. unfold fill_stat, node_stat. destruct Hok. congruence. Qed.

Lemma tf_stat_ok G F t s p : mounted G F t s -> cbytes p -> exists t', tf_stat t p = Some (stat_spec s p, t') /\ mounted G F t' s.
Proof using AL.
  intros (live & L & E & R) Hp. unfold tf_stat, stat_spec. rewrite (r_g _ _ _ _ _ _ _ _ R).
  destruct (path_resolve_spec G t s ∅ live F L E p R Hp) as (a & t1 & -> & R1 & Hf). rewrite bind_some. cbv beta iota. pose proof (found_node _ _ _ _ _ _ _ _ _ _ R1 Hf) as Hf1.
  destruct (ns_resolve s p) as [n|]; cbn [mbind option_bind]; [|subst a; exists t1; split; [done|by exists live, L, E]].
  destruct Hf1 as (Ha & Hl & nd & Hn). rewrite (proj2 (Z.eqb_neq a 0) Ha), Hn. destruct (rel_node _ _ _ _ _ _ _ _ n nd R1 Hn) as (a' & ip & Hl' & Hi & Hok & _).
  assert (a' = a) as -> by congruence. rewrite Hi, !bind_some, (fill_stat_spec _ _ _ _ _ _ Hok). exists t1. split; [done|by exists live, L, E].
Qed.

Lemma tf_readdir_ok G F t s p idx : mounted G F t s -> cbytes p -> 0 <= idx -> exists t', tf_readdir t p idx = Some (readdir_spec s p idx, t') /\ mounted G F t' s.
Proof using AL.
  intros (live & L & E & R) Hp Hidx. unfold tf_readdir, readdir_spec. rewrite (r_g _ _ _ _ _ _ _ _ R).
  destruct (path_resolve_spec G t s ∅ live F L E p R Hp) as (a & t1 & -> & R1 & Hf). rewrite bind_some. cbv beta iota. pose proof (found_node _ _ _ _ _ _ _ _ _ _ R1 Hf) as Hf1.
  destruct (ns_resolve s p) as [n|]; cbn [mbind option_bind]; [|subst a; exists t1; split; [done|by exists live, L, E]].
  destruct Hf1 as (Ha & Hl & nd & Hn). rewrite (proj2 (Z.eqb_neq a 0) Ha), Hn. destruct (rel_node _ _ _ _ _ _ _ _ n nd R1 Hn) as (a' & ip & Hl' & Hi & Hok & _).
  assert (a' = a) as -> by congruence. rewrite Hi, bind_some, (no_type _ _ _ _ _ _ Hok). destruct (an_type nd =? TMPFS_T_DIR) eqn:Hty; cbn [negb]; [|exists t1; split; [done|by exists live, L, E]].
  destruct (dir_iterate_spec G t1 s ∅ live F L E n a nd idx R1 Hl Hn Hidx) as (t2 & -> & R2). rewrite Hty, bind_some. cbv beta iota.
  destruct (an_ents nd !! Z.to_nat idx) as [[x c]|] eqn:Hx; [|exists t2; split; [done|by exists live, L, E]].
  destruct (tr_child _ _ _ (r_tree _ _ _ _ _ _ _ _ R) n nd x c Hn (list_elem_of_lookup_2 _ _ _ Hx)) as ([cd Hc] & _).
  destruct (inode_get_spec G t2 s ∅ live F L E c R2) as (t3 & -> & R3 & Ei). rewrite bind_some. cbv beta iota.
  destruct (rel_node _ _ _ _ _ _ _ _ c cd R3 Hc) as (b & ip3 & Hlc & Hi3 & Hok3 & Hb). rewrite Hlc. cbn [from_option id]. rewrite (proj2 (Z.eqb_neq b 0) Hb), Hi3, !bind_some, (no_type _ _ _ _ _ _ Hok3), Hc.
  exists t3. split; [done|by exists live, L, E].
Qed.
(** ** Through a handle *)

Definition tf_file t (h : Z) (op : file_op) (now : Z) : option (file_res * tmpfs A) :=
  match op with
  | FRead off len => '(r, t) ← tf_read t h off len now; Some (match r with inl e => RErr e | inr l => RBytes l end, t)
  | FWrite off data => '(r, t) ← tf_write t h off data now; Some (match r with inl e => RErr e | inr n => RLen n end, t)
  | FTruncate sz => '(e, t) ← tf_truncate t h sz now; Some (if e =? TMPFS_OK then RLen 0 else RErr e, t)
  end.

Lemma tf_file_run t h op now hd ip : t_hdls t !! h = Some hd -> t_inos t !! h_ip hd = Some ip ->
  tf_file t h op now = '(r, ip, m) ← run_op ip (t_mem t) op now; Some (r, set_ino (with_mem t m) (h_ip hd) ip).
Proof.
  intros Hh Hi. destruct op as [off len|off data|sz]; cbn [tf_file run_op]; unfold tf_read, tf_write, tf_truncate; rewrite Hh, bind_some, Hi, bind_some.
  - destruct (tmpfs_file_read ip (t_mem t) off len now) as [[r ip']|]; [|done]. rewrite !bind_some. by destruct t.
  - by destruct (tmpfs_file_write ip (t_mem t) off data now) as [[[r ip'] m]|].
  - by destruct (tmpfs_file_truncate ip (t_mem t) sz now) as [[[r ip'] m]|].
Qed.

Lemma run_op_dir ip (m : store (A := A)) op now : i_type ip = TMPFS_T_DIR -> run_op ip m op now = Some (RErr TMPFS_EINVAL, ip, m).
Proof. intros Hty. destruct op; cbn [run_op]; unfold tmpfs_file_read, tmpfs_file_write, tmpfs_file_truncate; rewrite Hty; done. Qed.

Lemma node_frel t live n nd ip es : node_ok t live n nd ip es -> an_type nd = TMPFS_T_REG -> frel (Array (an_size nd) (an_data nd)) ip (t_mem t) live.
Proof. intros Hok Hty. pose proof (no_type _ _ _ _ _ _ Hok) as Ht. destruct Hok. constructor; try done. congruence. Qed.

(** A file operation changes one node. *)
Lemma rel_file G t s O live live' F L E n nd a ip ip' m' op f now : rel G t s O live F L E -> ns_nodes s !! n = Some nd -> L !! n = Some a -> t_inos t !! a = Some ip ->
  an_type nd = TMPFS_T_REG -> let nd' := snd (node_op now nd op f) in let ra := array_op (Array (an_size nd) (an_data nd)) op f in
  frel (snd ra) ip' m' live' -> framed ip (t_mem t) live ip' m' live' -> kept ip ip' (mtime_after op (fst ra) now (i_mtime ip)) ->
  rel G (set_ino (with_mem t m') a ip') (ns_set s n nd') O live' F L E.
Proof using AL.
  intros R Hn Hl Hi Hty nd' ra [Q1 Q2 Q3 Q4 Q5 Q6] Hfr [K1 K2 K3 K4 K5 K6 K7 K8].
  destruct (rel_node _ _ _ _ _ _ _ _ n nd R Hn) as (a0 & ip0 & Hl0 & Hi0 & Hok & _). assert (a0 = a) as -> by congruence. assert (ip0 = ip) as -> by congruence.
  assert (End : nd' = ANode (an_type nd) (an_perm nd) (an_nlink nd) (a_size (snd ra)) (mtime_after op (fst ra) now (an_mtime nd)) (an_ctime nd) (an_ents nd) (a_byte (snd ra))).
  { unfold nd', node_op, ra. rewrite Hty. cbn [TMPFS_T_REG Z.eqb negb]. by destruct (array_op _ op f). }
  assert (Hok' : node_ok (set_ino (with_mem t m') a ip') live' n nd' ip' (E n)).
  { rewrite End. pose proof (no_count _ _ _ _ _ _ Hok) as Hc. pose proof (no_list _ _ _ _ _ _ Hok) as Hli. destruct Hok.
    constructor; try done; cbn; try congruence. }
  clearbody nd'. subst nd'. pose proof R as [R1 R2 R3 R4 R5 R6]. constructor; [done|by eapply parts_file| | |done|done].
  - destruct R3 as (sb & Esb & Hsb & Hroot). exists sb. split_and!; [done| |done]. by eapply sb_ok_touch.
  - eapply tree_set; [done|done|done|done|]. cbn. intros Hreg HO. by eapply (tr_nlink _ _ _ R4).
Qed.

Lemma tf_file_ok G F t s h n nd op now : mounted G F t s -> ns_handle s h = Some (n, nd) -> op_ok op ->
  exists f t', tf_file t h op now = Some (fst (node_op now nd op f), t') /\ mounted G F t' (ns_set s n (snd (node_op now nd op f))).
Proof using AL.
  intros (live & L & E & R) Hh Hop. unfold ns_handle in Hh. apply bind_Some in Hh as (n' & Hh & Hx). apply bind_Some in Hx as (nd' & Hn & [= -> ->]).
  destruct (proj2 (r_hdls _ _ _ _ _ _ _ _ R h)) as [hd Hhd]; [by exists n|]. destruct (rel_node _ _ _ _ _ _ _ _ n nd R Hn) as (a & ip & Hl & Hi & Hok & _).
  destruct (r_hdl _ _ _ _ _ _ _ _ R h n hd Hh Hhd) as [_ Hhip]. specialize (Hhip a Hl). subst a. rewrite (tf_file_run t h op now hd ip Hhd Hi).
  destruct (no_kind _ _ _ _ _ _ Hok) as [Hty|[Hty _]].
  - rewrite run_op_dir, bind_some by (by rewrite (no_type _ _ _ _ _ _ Hok)). unfold node_op. rewrite Hty. cbn [TMPFS_T_DIR TMPFS_T_REG Z.eqb Pos.eqb negb fst snd].
    exists None. eexists. split; [done|]. exists live, L, E. eapply (rel_touch G (with_mem t (t_mem t))); [by destruct t|done|done|done|done|done| |done|done|by destruct t].
    intros Hreg. by rewrite Hty in Hreg.
  - destruct (op_sim _ ip (t_mem t) live op now (node_frel _ _ _ _ _ _ Hok Hty) Hop) as (f & ip' & m' & live' & -> & Hfr & Hframe & Hk). rewrite bind_some. exists f. eexists. split.
    + cbv beta iota. f_equal. f_equal. unfold node_op. rewrite Hty. cbn [TMPFS_T_REG Z.eqb Pos.eqb negb]. by destruct (array_op _ op f).
    + exists live', L, E. by eapply rel_file.
Qed.

Lemma tf_fstat_ok G F t s h n nd : mounted G F t s -> ns_handle s h = Some (n, nd) -> tf_fstat t h = Some (node_stat n nd, t).
Proof.
  intros (live & L & E & R) Hh. unfold ns_handle in Hh. apply bind_Some in Hh as (n' & Hh & Hx). apply bind_Some in Hx as (nd' & Hn & [= -> ->]).
  destruct (proj2 (r_hdls _ _ _ _ _ _ _ _ R h)) as [hd Hhd]; [by exists n|]. destruct (rel_node _ _ _ _ _ _ _ _ n nd R Hn) as (a & ip & Hl & Hi & Hok & _).
  destruct (r_hdl _ _ _ _ _ _ _ _ R h n hd Hh Hhd) as [_ Hhip]. specialize (Hhip a Hl). subst a. unfold tf_fstat. rewrite Hhd, bind_some, Hi, bind_some.
  by rewrite (fill_stat_spec _ _ _ _ _ _ Hok).
Qed.
End vfs.

(** * Mounting and unmounting tmpfs

    A mount leaves an empty root directory beside the blocks that were in
    use before; an unmount gives back every block but those of handles that
    are still open. *)

Definition root_ns (now : Z) : ns := NS {[1 := new_node TMPFS_T_DIR 493 2 now]} 2 ∅.

Section mount.
Context {A : Type} `{AL : AllocatorLaws A}.
Implicit Types (t : tmpfs A) (live F O : gset Z) (L : gmap Z Z) (E : Z -> list (Z * entry)) (N : gmap Z anode)
  (ip : tmpfs_inode) (nd : anode) (es : list (Z * entry)) (s : ns) (sb : tmpfs_sb).

(** Nothing of the file system is in memory but the handles [hdls]. *)
Record unmounted F t (hdls : gset Z) : Prop := {
  um_heap : al_inv (heap (t_mem t)) (F ∪ hdls);
  um_apart : F ## hdls;
  um_inos : t_inos t = ∅;
  um_sbs : t_sbs t = ∅;
  um_hdls : forall h, is_Some (t_hdls t !! h) <-> h ∈ hdls;
  um_g : g_sb t = 0 }.

(** ** Unmounting *)

(** The chains of the buckets from [i] on hold all inodes. *)
Definition chains inos sb (i : Z) : Prop :=
  (forall h, i <= h < TMPFS_HTAB_SZ -> exists l, ichain inos (htab sb h) l /\ forall a, a ∈ l <-> exists ip, inos !! a = Some ip /\ ht_bucket (i_ino ip) = h) /\
  forall a ip, inos !! a = Some ip -> i <= ht_bucket (i_ino ip) < TMPFS_HTAB_SZ.

Lemma bucket_range n : 0 <= ht_bucket n < TMPFS_HTAB_SZ.
Proof.
  unfold ht_bucket, TMPFS_HTAB_SZ. change (512 - 1) with (Z.ones 9). rewrite Z.land_ones by lia. apply Z.mod_pos_bound. lia.
Qed.

Lemma destroy_chain_spec F l : forall fuel t a live L E N, parts t live F L E N -> ichain (t_inos t) a l -> (length l < fuel)%nat ->
  exists t' live' L' E' N', destroy_chain fuel t a = Some t' /\ parts t' live' F L' E' N' /\ same_rest t t' /\
    forall b, t_inos t' !! b = if bool_decide (b ∈ l) then None else t_inos t !! b.
Proof using AL.
  induction l as [|x l IH]; intros [|fuel] t a live L E N P Hc Hf; cbn in Hf; try lia.
  - cbn in Hc. subst a. exists t, live, L, E, N. split_and!; done.
  - destruct (ichain_lookup _ _ _ _ Hc) as (-> & Hx & ip & Hi & Hc'). cbn [destroy_chain]. rewrite (proj2 (Z.eqb_neq x 0) Hx), Hi, bind_some.
    destruct (release_spec t live F L E N (i_ino ip) x P (pt_ino _ _ _ _ _ _ P x ip Hi)) as (t1 & live1 & -> & Ei & (S1 & S2 & S3) & P1). rewrite bind_some.
    apply linked_nodup, NoDup_cons in Hc as [Hxl _].
    destruct (IH fuel t1 (ht_next ip) live1 _ _ _ P1) as (t' & live' & L' & E' & N' & -> & P' & (S1' & S2' & S3') & Hino); [|lia|].
    { eapply linked_ext; [|exact Hc']. intros b Hb. unfold inext. rewrite Ei, lookup_delete_ne; [done|]. intros <-. done. }
    exists t', live', L', E', N'. split_and!; [done|done|split_and!; congruence|]. intros b. rewrite Hino, Ei. destruct (decide (b = x)) as [->|Hb].
    + rewrite lookup_delete_eq, (bool_decide_true (x ∈ x :: l)) by left. by case_bool_decide.
    + rewrite lookup_delete_ne by done. destruct (decide (b ∈ l)); [rewrite !bool_decide_true by (done || by right)|rewrite !bool_decide_false]; try done.
      by intros [?|?]%elem_of_cons.
Qed.

Lemma chains_next inos inos' sb i l : chains inos sb i -> ichain inos (htab sb i) l -> (forall a, a ∈ l <-> exists ip, inos !! a = Some ip /\ ht_bucket (i_ino ip) = i) ->
  (forall b, inos' !! b = if bool_decide (b ∈ l) then None else inos !! b) -> chains inos' sb (i + 1).
Proof.
  intros [C1 C2] Hc Hin Hi. assert (Hsub : forall a ip, inos' !! a = Some ip <-> inos !! a = Some ip /\ ht_bucket (i_ino ip) <> i).
  { intros a ip. rewrite Hi. case_bool_decide as Ha.
    - split; [done|]. intros [H1 H2]. apply Hin in Ha as (ip' & ? & ?). simplify_eq.
    - split; [|by intros []]. intros H1. split; [done|]. intros H2. apply Ha, Hin. by exists ip. }
  split.
  - intros h Hh. destruct (C1 h ltac:(lia)) as (l' & Hl' & Hin'). exists l'. split.
    + eapply linked_ext; [|exact Hl']. intros a Ha. apply Hin' in Ha as (ip & H1 & H2). unfold inext.
      rewrite H1. rewrite (proj2 (Hsub a ip)) by (split; [done|lia]). done.
    + intros a. rewrite Hin'. split; intros (ip & H1 & H2); exists ip; (split; [|done]); apply Hsub; [split; [done|lia]|done].
  - intros a ip [H1 H2]%Hsub. specialize (C2 a ip H1). lia.
Qed.

Lemma destroy_table_spec F p sb n : forall t i live L E N, parts t live F L E N -> t_sbs t = {[p := sb]} -> chains (t_inos t) sb i -> i + Z.of_nat n = TMPFS_HTAB_SZ ->
  exists t' live' L' E' N', destroy_table n t p i = Some t' /\ parts t' live' F L' E' N' /\ same_rest t t' /\ t_inos t' = ∅.
Proof using AL.
  induction n as [|n IH]; intros t i live L E N P Es Hc Hn.
  - exists t, live, L, E, N. split_and!; [done|done|done|]. apply map_empty. intros a. destruct (t_inos t !! a) as [ip|] eqn:Hi; [|done].
    apply (proj2 Hc) in Hi. lia.
  - cbn [destroy_table]. rewrite Es, lookup_singleton_eq, bind_some. destruct (proj1 Hc i ltac:(lia)) as (l & Hl & Hin).
    destruct (destroy_chain_spec F l _ t _ live L E N P Hl (linked_fuel _ _ _ _ Hl)) as (t1 & live1 & L1 & E1 & N1 & -> & P1 & (S1 & S2 & S3) & Hi). rewrite bind_some.
    destruct (IH t1 (i + 1) live1 L1 E1 N1 P1) as (t' & live' & L' & E' & N' & -> & P' & (S1' & S2' & S3') & Hi'); [congruence|by eapply chains_next|lia|].
    exists t', live', L', E', N'. split_and!; [done|done|split_and!; congruence|done].
Qed.

(** Freeing the superblock, whatever else is there. *)
Lemma free_sb t live F L E N p : parts t live F L E N -> is_Some (t_sbs t !! p) ->
  exists t1, kfree t p = Some t1 /\ t_inos t1 = t_inos t /\ same_rest t t1 /\ parts (with_sbs t1 (delete p (t_sbs t1))) (live ∖ {[p]}) F L E N.
Proof using AL.
  intros P Hp. assert (Hheld : held t L E p LSb) by done. pose proof (pt_frame _ _ _ _ _ _ P p LSb Hheld) as HF.
  destruct (parts_free _ _ _ _ _ _ p (parts_drop_sb t live F L E N p P Hp) ltac:(set_solver) (pt_nz _ _ _ _ _ _ P p LSb Hheld)) as (h & Ef & P1).
  assert (Ek : kfree t p = Some (with_mem t (Store h (tables (t_mem t)) (pages (t_mem t))))).
  { unfold kfree in *. cbn in Ef. destruct (free_if (t_mem t) p) as [m|]; [|done]. cbn in *. by injection Ef as ->. }
  eexists. split; [exact Ek|]. split_and!; [done|done|]. by replace (({[p]} ∪ F) ∖ {[p]}) with F in P1 by (clear -HF; set_solver).
Qed.

(** What is left when there are no inodes. *)
Lemma parts_bare t live F L E N : parts t live F L E N -> t_inos t = ∅ -> t_sbs t = ∅ -> live = F ∪ dom (t_hdls t) /\ F ## dom (t_hdls t).
Proof.
  intros P Ei Es. assert (HL : forall n, L !! n = None).
  { intros n. destruct (L !! n) as [a|] eqn:Hn; [|done]. destruct (parts_lookup _ _ _ _ _ _ _ _ P Hn) as (nd & ip & _ & Hi & _). by rewrite Ei in Hi. }
  assert (HN : forall n, E n = []).
  { intros n. apply (pt_none _ _ _ _ _ _ P). apply eq_None_not_Some. intros [a Ha]%(pt_dom _ _ _ _ _ _ P). by rewrite HL in Ha. }
  assert (Hh : forall b, (exists l, held t L E b l) <-> b ∈ dom (t_hdls t)).
  { intros b. rewrite elem_of_dom. split; [|by exists LHdl]. intros ([|n|n| |n] & Hb); cbn in Hb.
    - rewrite Es in Hb. by destruct Hb.
    - by rewrite HL in Hb.
    - rewrite HN in Hb. by apply elem_of_nil in Hb.
    - done.
    - destruct Hb as (a & ip & Ha & _). by rewrite HL in Ha. }
  split.
  - apply set_eq. intros b. by rewrite (pt_live _ _ _ _ _ _ P), Hh, elem_of_union.
  - intros b HbF [l Hl]%Hh. by apply (pt_frame _ _ _ _ _ _ P b l).
Qed.

(** With [g_sb] cleared. *)
Lemma parts_unmounted t live F L E N : parts t live F L E N -> t_inos t = ∅ -> t_sbs t = ∅ -> unmounted F (with_g t 0) (dom (t_hdls t)).
Proof.
  intros P Ei Es. destruct (parts_bare _ _ _ _ _ _ P Ei Es) as [Hl Ha]. constructor; [|done|done|done| |done].
  - rewrite <- Hl. apply (pt_heap _ _ _ _ _ _ P).
  - intros h. by rewrite elem_of_dom.
Qed.

Lemma tf_umount_ok G F t s : mounted G F t s -> exists t', tf_umount t = Some (TMPFS_OK, t') /\ unmounted F t' (dom (ns_hdls s)).
Proof using AL.
  intros (live & L & E & R). pose proof R as [R1 R2 (sb & Esb & Hsb & _) _ R5 _]. unfold tf_umount, tmpfs_sb_destroy. rewrite R1.
  assert (HG : G <> 0) by (apply (pt_nz _ _ _ _ _ _ R2 G LSb); cbn; rewrite Esb, lookup_singleton_eq; done). rewrite (proj2 (Z.eqb_neq G 0) HG).
  destruct (destroy_table_spec F G sb (Z.to_nat TMPFS_HTAB_SZ) t 0 live L E _ R2 Esb) as (t1 & live1 & L1 & E1 & N1 & -> & P1 & (S1 & S2 & S3) & Hi); [|done|].
  { split; [intros h _; apply (so_chain _ _ _ Hsb)|intros; apply bucket_range]. }
  rewrite bind_some. destruct (free_sb t1 live1 F L1 E1 N1 G P1) as (t2 & -> & Hi2 & (S4 & S5 & S6) & P2); [rewrite S1, Esb, lookup_singleton_eq; done|].
  rewrite !bind_some. eexists. split; [done|]. replace (dom (ns_hdls s)) with (dom (t_hdls t2)).
  - apply (parts_unmounted (with_sbs t2 (delete G (t_sbs t2))) _ F L1 E1 N1 P2); cbn; [congruence|]. rewrite S4, S1, Esb. apply delete_singleton_eq.
  - apply set_eq. intros h. rewrite !elem_of_dom, S5, S2. apply R5.
Qed.

(** ** Mounting *)

Lemma parts_empty t F : unmounted F t ∅ -> parts t F F ∅ (fun _ => []) ∅.
Proof.
  intros [U1 U2 U3 U4 U5 U6]. rewrite union_empty_r_L in U1.
  assert (Hh : forall b l, ~ held t ∅ (fun _ => []) b l).
  { intros b [|n|n| |n]; cbn.
    - rewrite U4. by intros [].
    - done.
    - by intros ?%elem_of_nil.
    - intros Hb%U5. set_solver.
    - by intros (a & ip & ? & _). }
  constructor; try done; try (intros b l Hb; by apply Hh in Hb).
  - intros b. split; [by left|]. intros [?|[l Hl]]; [done|by apply Hh in Hl].
  - intros b l l' Hl. by apply Hh in Hl.
  - intros n. rewrite !lookup_empty. split; by intros [].
  - intros a ip. by rewrite U3.
Qed.

Lemma root_tree now : tree (ns_nodes (root_ns now)) 2 ∅.
Proof.
  assert (Hs : forall n nd, ns_nodes (root_ns now) !! n = Some nd -> n = 1 /\ nd = new_node TMPFS_T_DIR 493 2 now) by (intros n nd; cbn [root_ns ns_nodes]; rewrite lookup_singleton_Some; naive_solver).
  constructor.
  - eexists. split; [apply lookup_singleton_eq|done].
  - intros n [nd [-> _]%Hs]. lia.
  - intros d nd x c [_ ->]%Hs Hx. by apply elem_of_nil in Hx.
  - intros d nd x d' nd' x' c [_ ->]%Hs Hx. by apply elem_of_nil in Hx.
  - intros n [nd [-> _]%Hs]. done.
  - intros n. set_solver.
  - intros n nd [_ ->]%Hs. done.
  - intros n nd [_ ->]%Hs. constructor.
Qed.

Lemma sb_ok_root sb inos next r : sb_ok sb inos next -> sb_ok (SB (sb_lock sb) (ino_next sb) (nr_inodes sb) (nr_pages sb) (htab sb) r) inos next.
Proof. intros [S1 S2 S3 S4]. by constructor. Qed.

(** The empty table. *)
Lemma sb_ok_empty : sb_ok (SB (Spinlock 0 0) 1 0 0 (fun _ => 0) 0) ∅ 1.
Proof.
  constructor; [split; cbn; lia|done|done|]. intros h. exists []. split; [done|]. intros a. split; [by intros ?%elem_of_nil|by intros (ip & ? & _)].
Qed.

(** The root's link count and address. *)
Lemma mount_root t p sb live F L E now r ip : parts t live F L E {[1 := new_node TMPFS_T_DIR 493 1 now]} -> t_sbs t = {[p := sb]} -> sb_ok sb (t_inos t) 2 ->
  L !! 1 = Some r -> t_inos t !! r = Some ip -> t_hdls t = ∅ ->
  mounted p F (with_g (set_sb (set_ino t r (set_nlink 2 ip)) p (SB (sb_lock sb) (ino_next sb) (nr_inodes sb) (nr_pages sb) (htab sb) r)) p) (root_ns now).
Proof using AL.
  intros P Es Hsb Hl Hi Eh. destruct (parts_lookup _ _ _ _ _ _ _ _ P Hl) as (nd & ip0 & Hn & Hi0 & Hok). rewrite lookup_singleton_eq in Hn. simplify_eq.
  assert (P1 : parts (set_ino t r (set_nlink 2 ip)) live F L E (ns_nodes (root_ns now))).
  { cbn. rewrite <- (insert_singleton_eq 1 (new_node TMPFS_T_DIR 493 2 now) (new_node TMPFS_T_DIR 493 1 now)). eapply parts_touch; [exact P|done|done|done|].
    pose proof (no_file _ _ _ _ _ _ Hok) as Hf. destruct Hok. constructor; try done. by apply (file_ok_inode ip). }
  exists live, L, E. constructor.
  - done.
  - eapply parts_same; [exact P1|done|done|done| |done]. intros b. cbn. rewrite Es, insert_singleton_eq, !lookup_singleton_is_Some. done.
  - eexists. split; [cbn; by rewrite Es, insert_singleton_eq|]. split; [|done]. apply sb_ok_root. by eapply sb_ok_touch.
  - apply root_tree.
  - intros h. cbn. by rewrite Eh, !lookup_empty.
  - intros h n hd. done.
Qed.

Lemma tf_mount_ok F t now : unmounted F t ∅ ->
  exists r t', tf_mount t now = Some (r, t') /\ (r = TMPFS_ENOMEM /\ unmounted F t' ∅ \/ r = TMPFS_OK /\ exists G, mounted G F t' (root_ns now)).
Proof using AL.
  intros U. pose proof (parts_empty t F U) as P. destruct U as [U1 U2 U3 U4 U5 U6]. unfold tf_mount, tmpfs_sb_alloc. rewrite U6. cbn [Z.eqb negb].
  assert (Eh : t_hdls t = ∅) by (apply map_empty; intros h; apply eq_None_not_Some; intros ?%U5; set_solver).
  destruct (parts_alloc t F F ∅ (fun _ => []) ∅ sb_bytes P ltac:(done)) as (hp & p & -> & Hcase). set (t1 := with_mem t _) in *. rewrite bind_some. cbv beta iota.
  destruct Hcase as [[-> P1]|(Hp & Hnew & P1)].
  { cbn [Z.eqb]. rewrite bind_some. cbn [Z.eqb]. eexists _, _. split; [done|left]. split; [done|]. replace (∅ : gset Z) with (dom (t_hdls t1)) by (cbn; by rewrite Eh, dom_empty_L). by eapply parts_unmounted. }
  rewrite (proj2 (Z.eqb_neq p 0) Hp). set (sb0 := SB _ _ _ _ _ _). assert (P2 : parts (set_sb t1 p sb0) ({[p]} ∪ F) F ∅ (fun _ => []) ∅).
  { replace F with (({[p]} ∪ F) ∖ {[p]}) at 2 by (clear -Hnew; set_solver). apply parts_add_sb; [done|set_solver|done]. }
  assert (Es : t_sbs (set_sb t1 p sb0) = {[p := sb0]}) by (cbn; by rewrite U4).
  destruct (inode_alloc_parts (set_sb t1 p sb0) p sb0 _ F ∅ _ ∅ 1 TMPFS_T_DIR 493 now P2 (sbs_set _ _ _)) as (a & t2 & -> & Eh2 & Eg2 & Hcase);
    [cbn; rewrite U3; apply sb_ok_empty|done|lia|by left|]. rewrite bind_some. cbv beta iota. destruct Hcase as [(-> & P3 & Es3 & Ei3)|(Ha & Ei & P3 & sb' & Es3 & Hsb' & Er)].
  - cbn [Z.eqb]. destruct (free_sb t2 _ F _ _ _ p P3) as (t3 & -> & Hi3 & (S1 & S2 & S3) & P4); [by rewrite Es3, sbs_set|]. rewrite !bind_some. cbn [Z.eqb]. eexists _, _. split; [done|left].
    split; [done|]. replace (∅ : gset Z) with (dom (t_hdls t3)) by (rewrite S2, Eh2; cbn; by rewrite Eh, dom_empty_L).
    apply (parts_unmounted (with_sbs t3 (delete p (t_sbs t3))) _ F _ _ _ P4); cbn; [rewrite Hi3, Ei3; done|]. rewrite S1, Es3, Es. apply delete_singleton_eq.
  - rewrite (proj2 (Z.eqb_neq a 0) Ha). assert (Es4 : t_sbs t2 = {[p := sb']}) by (rewrite Es3, Es; apply insert_singleton_eq).
    assert (Hi : t_inos t2 !! a = Some (fresh_inode 1 TMPFS_T_DIR 493 now (htab sb0 (ht_bucket 1)))) by (rewrite Ei; apply lookup_insert_eq).
    rewrite Hi, bind_some, Es4, lookup_singleton_eq, !bind_some, (proj2 (Z.eqb_neq p 0) Hp). eexists _, _. split; [done|right]. split; [done|]. exists p.
    eapply mount_root; [exact P3|done|done|apply lookup_insert_eq|done|by rewrite Eh2].
Qed.
End mount.
