(* ===== verification/TmpfsLinks.v ===== *)
(** * Link counts of tmpfs directories

    A directory's link count is two more than the number of directories in
    it, whatever is done to the name space. *)

From stdpp Require Import base gmap list.
From Stdlib Require Import ZArith Lia.
From S2P Require Import Prelude Spinlock Kmalloc Allocator Tmpfs TmpfsFile TmpfsProps TmpfsNs TmpfsWalk TmpfsRel TmpfsTree TmpfsOps TmpfsDir TmpfsVfs TmpfsNsProps.

Implicit Types (s : ns) (N : gmap Z anode) (nd : anode).

Definition is_dir N (c : Z) : bool := match N !! c with Some cd => an_type cd =? TMPFS_T_DIR | None => false end.

(** How many of the entries satisfy [f]. *)
Fixpoint count (f : Z -> bool) (l : list entry) : Z :=
  match l with [] => 0 | (_, c) :: l => (if f c then 1 else 0) + count f l end.

Definition links_ok s : Prop :=
  forall n nd, ns_nodes s !! n = Some nd -> an_type nd = TMPFS_T_DIR -> an_nlink nd = 2 + count (is_dir (ns_nodes s)) (an_ents nd).

Lemma count_ext f g l : (forall x c, (x, c) ∈ l -> f c = g c) -> count f l = count g l.
Proof.
  induction l as [|[x c] l IH]; [done|]. intros Hl. cbn. rewrite (Hl x c) by left. rewrite IH; [done|]. intros y e He. apply (Hl y). by right.
Qed.

Lemma count_bound f l : 0 <= count f l <= Z.of_nat (length l).
Proof. induction l as [|[x c] l IH]; cbn [count length]; [lia|]. destruct (f c); lia. Qed.

Lemma count_remove f x c l : assoc x l = Some c -> count f l = (if f c then 1 else 0) + count f (dremove x l).
Proof.
  induction l as [|[y e] l IH]; [done|]. cbn. destruct (decide (y = x)) as [->|Hy]; [rewrite !bool_decide_true by done; by intros [= ->]|].
  rewrite !bool_decide_false by done. intros Hx. rewrite (IH Hx). cbn. lia.
Qed.

(** One directory changes its entries, one other node comes or goes. *)
Lemma links_change s s' d nd nd' c :
  links_ok s -> ns_nodes s !! d = Some nd -> ns_nodes s' !! d = Some nd' -> an_type nd = TMPFS_T_DIR -> d <> c ->
  (forall m, m <> d -> m <> c -> ns_nodes s' !! m = ns_nodes s !! m) -> an_type nd' = an_type nd ->
  (forall m md x, m <> d -> m <> c -> ns_nodes s !! m = Some md -> (x, c) ∉ an_ents md) ->
  (forall cd, ns_nodes s' !! c = Some cd -> an_type cd = TMPFS_T_DIR -> an_nlink cd = 2 + count (is_dir (ns_nodes s')) (an_ents cd)) ->
  an_nlink nd' - count (is_dir (ns_nodes s')) (an_ents nd') = an_nlink nd - count (is_dir (ns_nodes s)) (an_ents nd) ->
  links_ok s'.
Proof.
  intros Hok Hd Hd' Hty Hdc Hoth Hty' Hnot Hc Hn m md Hm Hmt. destruct (Z.eq_dec m d) as [->|Hmd].
  { simplify_eq. pose proof (Hok d nd Hd Hty). lia. }
  destruct (Z.eq_dec m c) as [->|Hmc]; [by apply Hc|]. rewrite Hoth in Hm by done. rewrite (Hok m md Hm Hmt). f_equal. apply count_ext. intros x e He.
  unfold is_dir. destruct (Z.eq_dec e d) as [->|]; [by rewrite Hd, Hd', Hty'|]. destruct (Z.eq_dec e c) as [->|]; [by destruct (Hnot m md x Hmd Hmc Hm)|]. by rewrite Hoth.
Qed.

(** Same types, entries and counts. *)
Lemma links_same s s' n nd nd' : links_ok s -> ns_nodes s !! n = Some nd -> ns_nodes s' = <[n := nd']> (ns_nodes s) -> an_type nd' = an_type nd ->
  an_ents nd' = an_ents nd -> an_nlink nd' = an_nlink nd -> links_ok s'.
Proof.
  intros Hok Hn Es Et Ee En m md. rewrite Es. assert (Hdir : forall l, count (is_dir (<[n := nd']> (ns_nodes s))) l = count (is_dir (ns_nodes s)) l).
  { intros l. apply count_ext. intros x c _. unfold is_dir. destruct (Z.eq_dec c n) as [->|]; [by rewrite lookup_insert_eq, Hn, Et|by rewrite lookup_insert_ne]. }
  rewrite Hdir. intros [[<- <-]|[Hne Hm]]%lookup_insert_Some; [rewrite Et, Ee, En; intros Ht; exact (Hok n nd Hn Ht)|intros Ht; exact (Hok m md Hm Ht)].
Qed.

Lemma links_nodes s s' : ns_nodes s' = ns_nodes s -> links_ok s -> links_ok s'.
Proof. unfold links_ok. by intros ->. Qed.

(** ** Creation *)

(** [k] links are added to the directory later. *)
Lemma links_create s d nd nd' leaf n cd : let N := <[d := nd']> (<[n := cd]> (ns_nodes s)) in
  links_ok s -> tree (ns_nodes s) n ∅ -> ns_nodes s !! d = Some nd -> an_type nd = TMPFS_T_DIR -> an_type nd' = an_type nd -> an_ents nd' = (leaf, n) :: an_ents nd ->
  an_ents cd = [] -> (an_type cd = TMPFS_T_DIR -> an_nlink cd = 2) -> an_nlink nd' = an_nlink nd + (if an_type cd =? TMPFS_T_DIR then 1 else 0) ->
  forall nx h, links_ok (NS N nx h).
Proof.
  intros N Hok T Hd Hty Et Ee Hec Hk Hnl nx h. assert (Hn : ns_nodes s !! n = None) by (apply eq_None_not_Some; intros ?%(tr_range _ _ _ T); lia).
  assert (Hdn : d <> n) by congruence. assert (Hnot : forall m md x, ns_nodes s !! m = Some md -> (x, n) ∉ an_ents md).
  { intros m md x Hm Hx. destruct (tr_child _ _ _ T m md x n Hm Hx) as ([? ?] & _). congruence. }
  assert (HNn : N !! n = Some cd) by (unfold N; by rewrite lookup_insert_ne, lookup_insert_eq).
  eapply (links_change s _ d nd nd' n); cbn [ns_nodes]; try done.
  - apply lookup_insert_eq.
  - intros m H1 H2. unfold N. by rewrite !lookup_insert_ne.
  - intros m md x _ _ Hm. by apply (Hnot m).
  - intros cd' Hcd. simplify_eq. intros Hct. rewrite Hec, Hk by done. done.
  - rewrite Ee. cbn [count]. rewrite (count_ext (is_dir N) (is_dir (ns_nodes s)) (an_ents nd)).
    + unfold is_dir at 1. rewrite HNn. lia.
    + intros x c Hc. unfold is_dir, N. destruct (Z.eq_dec c d) as [->|]; [by rewrite lookup_insert_eq, Hd, Et|].
      rewrite !lookup_insert_ne; [done| |done]. intros <-. by apply (Hnot d nd x Hd).
Qed.

Lemma links_remove s d nd nd' c cd leaf : let N := delete c (<[d := nd']> (ns_nodes s)) in
  links_ok s -> tree (ns_nodes s) (ns_next s) ∅ -> ns_nodes s !! d = Some nd -> an_type nd = TMPFS_T_DIR -> ns_nodes s !! c = Some cd -> d <> c -> assoc leaf (an_ents nd) = Some c ->
  an_type nd' = an_type nd -> an_ents nd' = dremove leaf (an_ents nd) -> an_nlink nd' = an_nlink nd - (if an_type cd =? TMPFS_T_DIR then 1 else 0) ->
  forall nx h, links_ok (NS N nx h).
Proof.
  intros N Hok T Hd Hty Hc Hdc Has Et Ee Hnl nx h. pose proof (assoc_elem _ _ _ Has) as Hin. assert (HNd : N !! d = Some nd') by (unfold N; by rewrite lookup_delete_ne, lookup_insert_eq).
  eapply (links_change s _ d nd nd' c); cbn [ns_nodes]; try done.
  - intros m H1 H2. unfold N. by rewrite lookup_delete_ne, lookup_insert_ne.
  - intros m md x H1 _ Hm Hx. apply H1. by destruct (tr_unique _ _ _ T m md x d nd leaf c Hm Hx Hd Hin).
  - intros cd'. unfold N. by rewrite lookup_delete_eq.
  - rewrite Ee, (count_remove _ leaf c (an_ents nd)) by done. unfold is_dir at 2. rewrite Hc, Hnl. rewrite (count_ext (is_dir N) (is_dir (ns_nodes s)) (dremove leaf (an_ents nd))); [lia|].
    intros x e He. apply dremove_elem in He as [He Hx]; [|by apply (tr_names _ _ _ T _ _ Hd)]. unfold is_dir. destruct (Z.eq_dec e d) as [->|]; [by rewrite HNd, Hd, Et|].
    unfold N. rewrite lookup_delete_ne, lookup_insert_ne; [done|done|]. intros <-. cbn in Hx. apply Hx. by destruct (tr_unique _ _ _ T d nd leaf d nd x c Hd Hin Hd He).
Qed.

(** ** Every operation *)

Lemma target_facts s p d nd c cd : target s p = Some (d, nd, c, cd) ->
  ns_nodes s !! d = Some nd /\ an_type nd = TMPFS_T_DIR /\ assoc (leaf_of p) (an_ents nd) = Some c /\ ns_nodes s !! c = Some cd.
Proof.
  unfold target, ns_lookup. intros (d' & _ & Hx)%bind_Some. apply bind_Some in Hx as (nd' & Hd & Hx). rewrite Hd in Hx. cbn [mbind option_bind] in Hx.
  apply bind_Some in Hx as (c' & Hc' & Hx). apply bind_Some in Hx as (cd' & Hcd & [= -> -> -> ->]).
  destruct (Z.eqb_spec (an_type nd) TMPFS_T_DIR); [|done]. done.
Qed.

Lemma create_links now ty perm nlink s d leaf r s' : create_spec now ty perm nlink s d leaf r s' ->
  match r with
  | inl _ => ns_nodes s' = ns_nodes s
  | inr n => n = ns_next s /\ exists nd, ns_nodes s !! d = Some nd /\ an_type nd = TMPFS_T_DIR /\
      s' = ns_set (ns_set (ns_bump s) n (new_node ty perm nlink now)) d (with_list now ((leaf, n) :: an_ents nd) nd)
  end.
Proof.
  intros [[-> ->]|(nd & Hd & Hs)]; [done|]. destruct (Z.eqb_spec (an_type nd) TMPFS_T_DIR) as [Hty|]; cbn [negb] in Hs; [|by destruct Hs as [-> ->]].
  destruct (255 <? _)%nat; [by destruct Hs as [-> ->]|]. destruct Hs as [[-> ->]|Hs]; [done|]. destruct (assoc _ _); destruct Hs as [-> ->]; [done|]. split; [done|]. by exists nd.
Qed.

Lemma open_links now s p flags mode r s' : tree (ns_nodes s) (ns_next s) ∅ -> open_spec now s p flags mode r s' -> links_ok s -> links_ok s'.
Proof.
  intros T Hs Hok. unfold open_spec in Hs. destruct (ns_resolve s p); [by destruct Hs as [_ ->]|]. destruct (_ =? 0); [by destruct Hs as [_ ->]|].
  destruct (ns_parent s p) as [d|]; [|by destruct Hs as [_ ->]]. destruct (_ =? 0)%nat; [by destruct Hs as [_ ->]|]. apply create_links in Hs. destruct r as [e|n]; [by eapply links_nodes|].
  destruct Hs as (-> & nd & Hd & Hty & ->). eapply links_create; try done. cbn. lia.
Qed.

Lemma mkdir_links now s p mode r s' : tree (ns_nodes s) (ns_next s) ∅ -> ns_next s < 2 ^ 32 - 2 -> mkdir_spec now s p mode r s' -> links_ok s -> links_ok s'.
Proof.
  intros T Hn Hs Hok. unfold mkdir_spec in Hs. destruct (ns_parent s p) as [d|]; [|by destruct Hs as [_ ->]]. destruct (_ =? 0)%nat; [by destruct Hs as [_ ->]|].
  destruct Hs as (r1 & s1 & Hc & Hr). apply create_links in Hc. destruct r1 as [e|n]; [destruct Hr as [_ ->]; by eapply links_nodes|].
  destruct Hc as (-> & nd & Hd & Hty & ->), Hr as (_ & nd1 & Hd1 & ->). cbn in Hd1. rewrite lookup_insert_eq in Hd1. simplify_eq. unfold ns_set. cbn [ns_nodes ns_next ns_hdls].
  rewrite insert_insert_eq. eapply links_create; try done. cbn. pose proof (Hok d nd Hd Hty) as Hl. pose proof (tree_count _ _ _ _ _ T Hd). pose proof (count_bound (is_dir (ns_nodes s)) (an_ents nd)).
  unfold u32. rewrite Z.mod_small; lia.
Qed.

Lemma links_step now s op r s' : tree (ns_nodes s) (ns_next s) ∅ -> ns_next s < 2 ^ 32 - 2 -> ns_op now s op r s' -> links_ok s -> links_ok s'.
Proof.
  intros T Hn. destruct op as [p flags mode|h|h op|p|p|h|p|p mode|p|p idx]; cbn [ns_op].
  - intros (r0 & _ & r1 & s1 & Hs & Hr) Hok. pose proof (open_links _ _ _ _ _ _ _ T Hs Hok) as H1. destruct r1; [by destruct Hr as [_ ->]|].
    destruct Hr as [[_ ->]|(h & _ & _ & _ & ->)]; [done|by eapply links_nodes].
  - intros [_ ->]. by apply links_nodes.
  - intros (n & nd & f & Hh & _ & ->) Hok. unfold ns_handle in Hh. apply bind_Some in Hh as (n' & _ & Hx). apply bind_Some in Hx as (nd' & Hnd & [= -> ->]).
    eapply links_same; try done; unfold node_op; destruct (negb _); try done; by destruct (array_op _ op f).
  - by intros [_ ->].
  - by intros [_ ->].
  - by intros (n & nd & _ & _ & ->).
  - intros (e & _ & Hs) Hok. unfold unlink_spec in Hs. destruct (target s p) as [[[[d nd] c] cd]|] eqn:Ht; [|by destruct Hs as [_ ->]].
    destruct (target_facts _ _ _ _ _ _ Ht) as (Hd & Hty & Has & Hc). destruct (Z.eqb_spec (an_type cd) TMPFS_T_DIR) as [|Hcd]; destruct Hs as [_ ->]; [done|].
    eapply (links_remove s d nd _ c cd (leaf_of p)); try done; [congruence|]. rewrite (proj2 (Z.eqb_neq _ _) Hcd). cbn. lia.
  - intros (c & _ & Hs). by eapply mkdir_links.
  - intros (e & _ & Hs) Hok. unfold rmdir_spec in Hs. destruct (target s p) as [[[[d nd] c] cd]|] eqn:Ht; [|by destruct Hs as [_ ->]].
    destruct (target_facts _ _ _ _ _ _ Ht) as (Hd & Hty & Has & Hc). destruct (Z.eqb_spec (an_type cd) TMPFS_T_DIR) as [Hcd|]; cbn [negb] in Hs; [|by destruct Hs as [_ ->]].
    destruct (length (an_ents cd) =? 0)%nat eqn:Hlen; cbn [negb] in Hs; destruct Hs as [_ ->]; [|done]. apply Nat.eqb_eq, nil_length_inv in Hlen.
    assert (Hdc : d <> c) by (intros ->; assert (cd = nd) as -> by congruence; by rewrite Hlen in Has).
    eapply (links_remove s d nd _ c cd (leaf_of p)); try done. rewrite Hcd. cbn. pose proof (Hok d nd Hd Hty) as Hnl. rewrite (count_remove _ _ _ _ Has) in Hnl.
    pose proof (count_bound (is_dir (ns_nodes s)) (dremove (leaf_of p) (an_ents nd))). destruct (is_dir (ns_nodes s) c), (Z.ltb_spec 0 (an_nlink nd)); lia.
  - by intros [_ ->].
Qed.

Lemma root_links now : links_ok (root_ns now).
Proof. intros n nd. cbn [root_ns ns_nodes]. rewrite lookup_singleton_Some. by intros [_ <-]. Qed.
