(* ===== verification/TmpfsTheorems.v ===== *)
(** * The theorems about tmpfs

    The name space refinement, the memory an unmount gives back and the link
    counts, each with an instance that runs. *)

From stdpp Require Import base gmap list.
From Stdlib Require Import ZArith Lia.
From S2P Require Import Prelude Spinlock Kmalloc Allocator SchedExample Tmpfs TmpfsFile TmpfsProps TmpfsNs TmpfsWalk TmpfsRel TmpfsTree TmpfsOps TmpfsDir TmpfsVfs TmpfsNsProps TmpfsLinks.

Section theorems.
Context {A : Type} `{AL : AllocatorLaws A}.
Implicit Types (t : tmpfs A) (F : gset Z) (s : ns).

(** C12. Whatever sequence of opens, closes, reads, writes, truncations,
    stats, unlinks, mkdirs, rmdirs and readdirs is run on a mounted tmpfs,
    every operation returns, and results and effects are those of the
    abstract name space, up to the first call that is made with a handle that
    is closed or whose file was unlinked, with a path that is no C string, or
    with an offset and a length that add up to 2^64 or more.  Inode numbers
    have 32 bits, so the calls are fewer than 2^32. *)
Theorem tmpfs_refines_namespace G F t s ops : mounted G F t s -> ns_next s + Z.of_nat (length ops) < 2 ^ 32 ->
  exists k rs t' s', tf_ops t (take k ops) = Some (rs, t') /\ ns_run s (take k ops) rs s' /\ mounted G F t' s' /\
    (k = length ops \/ exists op now, ops !! k = Some (op, now) /\ ~ op_pre s' op).
Proof using AL.
  intros M Hn. destruct (tf_ops_sim G F (fun _ => True) (2 ^ 32) ops ltac:(lia) ltac:(done) t s M I Hn) as (k & rs & t' & s' & H1 & H2 & H3 & _ & H4).
  by exists k, rs, t', s'.
Qed.

(** A mount, any operations and an unmount leave a state without inodes and
    superblocks in which the handles still open are sound. *)
Lemma mount_run_umount F t now ops : unmounted F t ∅ -> 2 + Z.of_nat (length ops) < 2 ^ 32 ->
  exists r t1, tf_mount t now = Some (r, t1) /\
    (r = TMPFS_ENOMEM /\ unmounted F t1 ∅ \/
     r = TMPFS_OK /\ exists k rs t2 s2 t3, tf_ops t1 (take k ops) = Some (rs, t2) /\ ns_run (root_ns now) (take k ops) rs s2 /\
       (k = length ops \/ exists op now', ops !! k = Some (op, now') /\ ~ op_pre s2 op) /\
       tf_umount t2 = Some (TMPFS_OK, t3) /\ unmounted F t3 (dom (ns_hdls s2))).
Proof using AL.
  intros U Hn. destruct (tf_mount_ok F t now U) as (r & t1 & -> & Hr). exists r, t1. split; [done|]. destruct Hr as [Hr|(-> & G & M)]; [by left|right]. split; [done|].
  destruct (tf_ops_sim G F (fun _ => True) (2 ^ 32) ops ltac:(lia) ltac:(done) t1 (root_ns now) M I Hn) as (k & rs & t2 & s2 & H1 & H2 & M2 & _ & H4).
  destruct (tf_umount_ok G F t2 s2 M2) as (t3 & H5 & U3). by exists k, rs, t2, s2, t3.
Qed.

(** The link count of a directory is always two more than the number of
    directories in it. *)
Theorem tmpfs_link_counts G F t s ops : mounted G F t s -> links_ok s -> ns_next s + Z.of_nat (length ops) < 2 ^ 32 - 2 ->
  exists k rs t' s', tf_ops t (take k ops) = Some (rs, t') /\ mounted G F t' s' /\ links_ok s' /\
    (k = length ops \/ exists op now, ops !! k = Some (op, now) /\ ~ op_pre s' op).
Proof using AL.
  intros M Hl Hn. destruct (tf_ops_sim G F links_ok (2 ^ 32 - 2) ops ltac:(lia) links_step t s M Hl Hn) as (k & rs & t' & s' & H1 & _ & H3 & H4 & H5).
  by exists k, rs, t', s'.
Qed.
End theorems.

(** ** Leaks *)

Section leaks.
Context {A : Type} `{AL : AllocatorLaws A}.

#[local] Existing Instance ledger_allocator.
#[local] Existing Instance ledger_allocator_laws.

(** The blocks that kmalloc has returned and kfree has not been given since. *)
Definition outstanding (t : tmpfs (A * gset Z)) : gset Z := snd (heap (t_mem t)).

(** C23. A mount, any operations and an unmount give back every block: over any
    allocator, the blocks that were allocated and not freed afterwards are
    exactly those from before the mount and those of the handles that are still
    open; a mount that fails for want of memory leaves exactly those from
    before.  The operations run up to the first that is outside the contract of
    tmpfs.  Given back means passed to kfree: of the kernel heap, kfree ignores
    blocks of more than 4096 bytes, such as the superblock of 4128. *)
Theorem tmpfs_returns_memory F (t : tmpfs (A * gset Z)) now ops : unmounted F t ∅ -> 2 + Z.of_nat (length ops) < 2 ^ 32 ->
  outstanding t = F /\
  exists r t1, tf_mount t now = Some (r, t1) /\
    (r = TMPFS_ENOMEM /\ outstanding t1 = F \/
     r = TMPFS_OK /\ exists k rs t2 s2 t3, tf_ops t1 (take k ops) = Some (rs, t2) /\ ns_run (root_ns now) (take k ops) rs s2 /\
       (k = length ops \/ exists op now', ops !! k = Some (op, now') /\ ~ op_pre s2 op) /\
       tf_umount t2 = Some (TMPFS_OK, t3) /\ outstanding t3 = F ∪ dom (ns_hdls s2)).
Proof using AL.
  intros U Hn. destruct (um_heap _ _ _ U) as [_ Ho]. split; [by rewrite union_empty_r_L in Ho|].
  destruct (mount_run_umount F t now ops U Hn) as (r & t1 & -> & Hr). exists r, t1. split; [done|].
  destruct Hr as [[-> U1]|(-> & k & rs & t2 & s2 & t3 & H1 & H2 & H3 & H4 & U3)].
  - left. split; [done|]. destruct (um_heap _ _ _ U1) as [_ Ho1]. by rewrite union_empty_r_L in Ho1.
  - right. split; [done|]. exists k, rs, t2, s2, t3. split_and!; try done. apply (um_heap _ _ _ U3).
Qed.
End leaks.

(** ** Instances *)

Definition ex_blank : tmpfs Z := Tmpfs ex_store ∅ ∅ ∅ ∅ 0.

Definition ex_fs : tmpfs Z := match tf_mount ex_blank 1 with Some (_, t) => t | None => ex_blank end.

Definition str_a : list Z := [97].
Definition str_d : list Z := [47; 100].          (* /d *)
Definition str_da : list Z := [47; 100; 47; 97]. (* /d/a *)

(** The handle the bump allocator gives for /d/a. *)
Definition ex_handle : Z :=
  match tf_ops ex_fs [(OMkdir str_d 493, 2); (OOpen str_da VFS_O_CREAT 420, 3)] with Some ([_; SHandle h], _) => h | _ => 0 end.

Definition ex_script : list (fs_op * Z) :=
  [(OMkdir str_d 493, 2); (OOpen str_da VFS_O_CREAT 420, 3); (OFile ex_handle (FWrite 1 [5; 6]), 4); (OFile ex_handle (FRead 0 9), 5);
   (OStat str_d, 6); (ORmdir str_d, 7); (OReaddir str_d 0, 8); (OClose ex_handle, 9); (OUnlink str_da, 10); (ORmdir str_d, 11); (OStat str_d, 12)].

Lemma ex_script_run : fst <$> tf_ops ex_fs ex_script = Some
  [SCode 0; SHandle ex_handle; SFile (RLen 2); SFile (RBytes [0; 5; 6]); SStat (Stat 2 8685 2 0 3 2); SCode TMPFS_ENOTEMPTY;
   SEntry (VDirent 3 VFS_DT_REG str_a); SCode 0; SCode 0; SCode 0; SCode TMPFS_ENOENT].
Proof. vm_compute. reflexivity. Qed.

Lemma ex_blank_unmounted : unmounted ∅ ex_blank ∅.
Proof. constructor; try done. intros h. cbn. rewrite lookup_empty. split; [by intros []|set_solver]. Qed.

Lemma ex_mounted : exists G, mounted G ∅ ex_fs (root_ns 1).
Proof.
  destruct (tf_mount_ok ∅ ex_blank 1 ex_blank_unmounted) as (r & t & E & Hr). assert (Er : fst <$> tf_mount ex_blank 1 = Some TMPFS_OK) by (vm_compute; reflexivity).
  unfold ex_fs. rewrite E in *. cbn in Er. injection Er as ->. by destruct Hr as [[? _]|[_ ?]].
Qed.

Lemma tmpfs_refines_namespace_witness :
  exists k rs t' s', tf_ops ex_fs (take k ex_script) = Some (rs, t') /\ ns_run (root_ns 1) (take k ex_script) rs s' /\
    (k = length ex_script \/ exists op now, ex_script !! k = Some (op, now) /\ ~ op_pre s' op).
Proof.
  destruct ex_mounted as [G M]. destruct (tmpfs_refines_namespace G ∅ ex_fs (root_ns 1) ex_script M ltac:(done)) as (k & rs & t' & s' & H1 & H2 & _ & H4).
  exists k, rs, t', s'. auto.
Defined.

(** A run over the bump allocator with a ledger: a file is left open. *)
Definition ex_ledger : tmpfs (Z * gset Z) := Tmpfs (Store (ex_base, ∅) (fun _ _ => 0) (fun _ _ => 0)) ∅ ∅ ∅ ∅ 0.

Lemma ex_ledger_unmounted : unmounted (H := ledger_allocator) ∅ ex_ledger ∅.
Proof. constructor; try done. intros h. cbn. rewrite lookup_empty. split; [by intros []|set_solver]. Qed.

Definition ex_paths : list (fs_op * Z) :=
  [(OMkdir str_d 493, 2); (OOpen str_da VFS_O_CREAT 420, 3); (OStat str_da, 4); (ORmdir str_d, 5); (OUnlink str_a, 6)].

Lemma ex_paths_pre s k op now : ex_paths !! k = Some (op, now) -> op_pre s op.
Proof.
  intros H. assert (Hall : Forall (fun c => op_pre s (fst c)) ex_paths) by repeat constructor.
  exact (proj1 (Forall_lookup _ _) Hall _ _ H).
Qed.

Lemma ex_ledger_mounts : fst <$> tf_mount (H := ledger_allocator) ex_ledger 1 = Some TMPFS_OK.
Proof. vm_compute. reflexivity. Qed.

Lemma tmpfs_returns_memory_witness : exists t1 rs t2 s2 t3,
  tf_mount (H := ledger_allocator) ex_ledger 1 = Some (TMPFS_OK, t1) /\ tf_ops (H := ledger_allocator) t1 ex_paths = Some (rs, t2) /\
  ns_run (root_ns 1) ex_paths rs s2 /\ tf_umount (H := ledger_allocator) t2 = Some (TMPFS_OK, t3) /\
  outstanding t3 = ∅ ∪ dom (ns_hdls s2).
Proof.
  destruct (tmpfs_returns_memory ∅ ex_ledger 1 ex_paths ex_ledger_unmounted) as (_ & r & t1 & E & Hr); [done|].
  pose proof ex_ledger_mounts as Em. rewrite E in Em. injection Em as ->.
  destruct Hr as [[[=] _]|(_ & k & rs & t2 & s2 & t3 & H1 & H2 & H3 & H4 & H5)].
  assert (Ek : take k ex_paths = ex_paths).
  { destruct H3 as [->|(op & now & Hop & Hn)]; [done|]. by apply ex_paths_pre with (s := s2) in Hop. }
  rewrite Ek in H1, H2. exists t1, rs, t2, s2, t3.
  split; [exact E|]. split; [exact H1|]. split; [exact H2|]. split; [exact H4|exact H5].
Defined.

Lemma tmpfs_link_counts_witness : exists G k rs t' s', tf_ops ex_fs (take k ex_script) = Some (rs, t') /\ mounted G ∅ t' s' /\ links_ok s' /\
  (k = length ex_script \/ exists op now, ex_script !! k = Some (op, now) /\ ~ op_pre s' op).
Proof.
  destruct ex_mounted as [G M]. exists G. apply (tmpfs_link_counts G ∅ ex_fs (root_ns 1) ex_script M (root_links 1)). done.
Defined.

(** ** Unlinking an open file *)

Definition ex_unlinked : option (list fs_res * tmpfs Z) := tf_ops ex_fs [(OOpen str_a VFS_O_CREAT 420, 2); (OUnlink str_a, 3)].
Definition ex_dead : tmpfs Z := from_option snd ex_fs ex_unlinked.
Definition ex_dead_handle : Z := match ex_unlinked with Some (SHandle h :: _, _) => h | _ => 0 end.

Lemma ex_unlinked_results : fst <$> ex_unlinked = Some [SHandle ex_dead_handle; SCode TMPFS_OK].
Proof. vm_compute. reflexivity. Qed.

Lemma ex_dead_hdl : h_ip <$> t_hdls ex_dead !! ex_dead_handle = Some 1053280.
Proof. vm_compute. reflexivity. Qed.

Lemma ex_dead_ino : t_inos ex_dead !! 1053280 = None.
Proof. vm_compute. reflexivity. Qed.

(** A file that is open is freed by its unlink: the handle stays, and
    a read, a write or a stat through it dereferences the freed inode. *)
Theorem unlink_frees_open_file : exists h t, ex_unlinked = Some ([SHandle h; SCode TMPFS_OK], t) /\ is_Some (t_hdls t !! h) /\
  (forall off len now, tf_read t h off len now = None) /\ (forall off data now, tf_write t h off data now = None) /\ tf_fstat t h = None.
Proof.
  exists ex_dead_handle, ex_dead. pose proof ex_dead_hdl as Hh. pose proof ex_dead_ino as Hi. pose proof ex_unlinked_results as Hr. unfold ex_dead in *.
  generalize dependent ex_dead_handle. intros h. destruct ex_unlinked as [[rs t]|]; [|done]. cbn. intros Hh [= ->]. split; [done|].
  apply fmap_Some in Hh as (hd & Hh & Ei). rewrite Ei in Hi. unfold tf_read, tf_write, tf_fstat. cbn [from_option snd] in *. rewrite Hh. cbn [mbind option_bind]. by rewrite Hi.
Qed.
