(* ===== verification/Vfs.v ===== *)
(** * The virtual file system

    Drivers are tables of operations, mounted at path prefixes; open files
    are entries of a table of 256 descriptors with a position each.  The
    state of the drivers is the world [W] their operations run in; [None] is
    undefined behaviour or a spin lock that never gets free.  A driver's
    operation returns what the C function returns beside what it writes
    through its pointer arguments.

    Sources: fs/vfs/vfs.c, fs/vfs/vfs.h. *)

From stdpp Require Import base list.
From Stdlib Require Import ZArith Lia.
From S2P Require Import Prelude TmpfsNs.

Definition VFS_MAX_DRIVERS : Z := 16.
Definition VFS_MAX_FDS : Z := 256.
Definition VFS_O_WRONLY : Z := 0x001.
Definition VFS_O_APPEND : Z := 0x400.
Definition SEEK_SET : Z := 0.
Definition SEEK_CUR : Z := 1.
Definition SEEK_END : Z := 2.
Definition E_NOENT : Z := -2.
Definition E_BADF : Z := -9.
Definition E_NOMEM : Z := -12.
Definition E_XDEV : Z := -18.
Definition E_INVAL : Z := -22.
Definition E_NOSPC : Z := -28.
Definition E_NOSYS : Z := -38.

(** Strings are the bytes before the terminator. *)
Fixpoint vstrcmp_n (a b : list Z) (n : nat) : Z :=
  match n with
  | O => 0
  | S n => if negb (hd 0 a =? hd 0 b) then hd 0 a - hd 0 b
           else if hd 0 a =? 0 then 0 else vstrcmp_n (tl a) (tl b) n
  end.

Definition vstrncpy (s : list Z) (n : nat) : list Z := take (n - 1) s.

Section vfs.
Context {W : Type}.

(** [None] is a NULL function pointer. *)
Record vfs_file_ops := FileOps {
  op_open : option (list Z -> Z -> Z -> W -> option (Z * Z * W));
  op_close : option (Z -> W -> option W);
  op_read : option (Z -> Z -> Z -> W -> option (Z * list Z * W));
  op_write : option (Z -> Z -> list Z -> W -> option (Z * Z * W));
  op_truncate : option (Z -> Z -> W -> option (Z * W));
  op_stat : option (list Z -> W -> option (Z * option vfs_stat * W));
  op_lstat : option (list Z -> W -> option (Z * option vfs_stat * W));
  op_fstat : option (Z -> W -> option (Z * option vfs_stat * W));
  op_unlink : option (list Z -> W -> option (Z * W));
  op_mkdir : option (list Z -> Z -> W -> option (Z * W));
  op_rmdir : option (list Z -> W -> option (Z * W));
  op_readdir : option (list Z -> Z -> W -> option (Z * option vfs_dirent * W));
  op_rename : option (list Z -> list Z -> W -> option (Z * W));
  op_symlink : option (list Z -> list Z -> W -> option (Z * W));
  op_readlink : option (list Z -> Z -> W -> option (Z * list Z * W));
  op_path_truncate : option (list Z -> Z -> W -> option (Z * W)) }.

Definition no_ops : vfs_file_ops := FileOps None None None None None None None None None None None None None None None None.

Record drv := Drv { valid : bool; d_name : list Z; mnt : list Z; mnt_len : nat; umount_fn : option (W -> option (Z * W)); ops : vfs_file_ops }.

Record vfs_file := VFile { used : bool; f_drv : Z; f_priv : Z; f_pos : Z; f_flags : Z }.

Record vfs := Vfs { g_drv : Z -> drv; g_ndrv : Z; g_fd : Z -> vfs_file; g_fd_lk : bool; world : W }.

Implicit Types (v : vfs) (path : list Z).

Definition set_fd v (fd : Z) (f : vfs_file) : vfs := Vfs (g_drv v) (g_ndrv v) (upd (g_fd v) fd f) (g_fd_lk v) (world v).
Definition set_drv v (id : Z) (d : drv) : vfs := Vfs (upd (g_drv v) id d) (g_ndrv v) (g_fd v) (g_fd_lk v) (world v).
Definition set_world v (w : W) : vfs := Vfs (g_drv v) (g_ndrv v) (g_fd v) (g_fd_lk v) w.
Definition set_ndrv v (n : Z) : vfs := Vfs (g_drv v) n (g_fd v) (g_fd_lk v) (world v).
Definition FD_LOCK v : option vfs := if g_fd_lk v then None else Some (Vfs (g_drv v) (g_ndrv v) (g_fd v) true (world v)).
Definition FD_UNLOCK v : vfs := Vfs (g_drv v) (g_ndrv v) (g_fd v) false (world v).

(** ** Routing *)

(** Whether driver [d]'s mount point is a prefix of the path. *)
Definition drv_matches (d : drv) path : bool :=
  let ml := mnt_len d in
  valid d && (vstrcmp_n path (mnt d) ml =? 0) &&
  negb (negb (nth ml path 0 =? 0) && negb (nth ml path 0 =? SLASH) && (1 <? ml)%nat).

Fixpoint route_loop (n : nat) v (i : Z) path (best : Z) (best_len : nat) : Z * nat :=
  match n with
  | O => (best, best_len)
  | S n =>
    let d := g_drv v i in
    if drv_matches d path && (best_len <=? mnt_len d)%nat then route_loop n v (i + 1) path i (mnt_len d)
    else route_loop n v (i + 1) path best best_len
  end.

(** The driver, -1 for none, and the rest of the path. *)
Definition route v path : Z * list Z :=
  let '(best, best_len) := route_loop (Z.to_nat (g_ndrv v)) v 0 path (-1) 0 in
  if best <? 0 then (-1, []) else
  let r := drop best_len path in
  (best, match r with c :: r' => if c =? SLASH then r' else r | [] => r end).

(** ** Descriptors *)

Fixpoint free_fd (n : nat) (fds : Z -> vfs_file) (i : Z) : option Z :=
  match n with O => None | S n => if used (fds i) then free_fd n fds (i + 1) else Some i end.

Definition alloc_fd v : option (Z * vfs) :=
  v ← FD_LOCK v;
  match free_fd (Z.to_nat VFS_MAX_FDS) (g_fd v) 0 with
  | Some i => let f := g_fd v i in Some (i, FD_UNLOCK (set_fd v i (VFile true (f_drv f) 0 (f_pos f) (f_flags f))))
  | None => Some (E_NOMEM, FD_UNLOCK v)
  end.

Definition bad_fd v (fd : Z) : bool := (fd <? 0) || (VFS_MAX_FDS <=? fd) || negb (used (g_fd v fd)).

(** ** Drivers *)

Definition vfs_register_driver v (name mntp : list Z) (mount_fn umount : option (W -> option (Z * W))) : option (Z * vfs) :=
  if VFS_MAX_DRIVERS <=? g_ndrv v then Some (E_NOSPC, v) else
  let id := g_ndrv v in
  let m := vstrncpy mntp 512 in
  let d := Drv false (vstrncpy name 32) m (length m) umount no_ops in
  let v := set_drv (set_ndrv v (id + 1)) id d in
  let ok v := Some (id, set_drv v id (Drv true (d_name d) (mnt d) (mnt_len d) (umount_fn d) (ops d))) in
  match mount_fn with
  | Some f => '(rc, w) ← f (world v);
              let v := set_world v w in
              if rc <? 0 then Some (rc, set_ndrv v (g_ndrv v - 1)) else ok v
  | None => ok v
  end.

Definition vfs_set_driver_ops v (id : Z) (o : vfs_file_ops) : vfs :=
  let d := g_drv v id in
  if (id <? 0) || (g_ndrv v <=? id) || negb (valid d) then v
  else set_drv v id (Drv (valid d) (d_name d) (mnt d) (mnt_len d) (umount_fn d) o).

Definition vfs_invalidate_driver v (id : Z) : vfs :=
  let d := g_drv v id in
  if (id <? 0) || (g_ndrv v <=? id) then v
  else set_drv v id (Drv false (d_name d) (mnt d) (mnt_len d) (umount_fn d) no_ops).

(** ** Files *)

Definition vfs_open v path (flags mode : Z) : option (Z * vfs) :=
  let '(d, rel) := route v path in
  if d <? 0 then Some (E_NOENT, v) else
  match op_open (ops (g_drv v d)) with
  | None => Some (E_NOENT, v)
  | Some f =>
    '(fd, v) ← alloc_fd v;
    if fd <? 0 then Some (fd, v) else
    '(rc, priv, w) ← f rel flags mode (world v);
    let v := set_world v w in
    if rc <? 0 then let e := g_fd v fd in Some (rc, set_fd v fd (VFile false (f_drv e) (f_priv e) (f_pos e) (f_flags e)))
    else Some (fd, set_fd v fd (VFile true d priv 0 flags))
  end.

Definition vfs_close v (fd : Z) : option vfs :=
  if (fd <? 0) || (VFS_MAX_FDS <=? fd) then Some v else
  v ← FD_LOCK v;
  let f := g_fd v fd in
  if negb (used f) then Some (FD_UNLOCK v) else
  let v := FD_UNLOCK (set_fd v fd (VFile false (f_drv f) 0 (f_pos f) (f_flags f))) in
  match op_close (ops (g_drv v (f_drv f))) with
  | Some g => w ← g (f_priv f) (world v); Some (set_world v w)
  | None => Some v
  end.

Definition with_pos (f : vfs_file) (p : Z) : vfs_file := VFile (used f) (f_drv f) (f_priv f) p (f_flags f).

(** The return value and the bytes read. *)
Definition vfs_read v (fd len : Z) : option (Z * list Z * vfs) :=
  if bad_fd v fd then Some (E_BADF, [], v) else
  let f := g_fd v fd in
  match op_read (ops (g_drv v (f_drv f))) with
  | None => Some (E_BADF, [], v)
  | Some g =>
    '(rc, data, w) ← g (f_priv f) (u64 (f_pos f)) len (world v);
    let v := set_world v w in
    if rc <? 0 then Some (rc, data, v) else
    let got := Z.of_nat (length data) in
    Some (s32 got, data, set_fd v fd (with_pos f (s64 (f_pos f + s64 got))))
  end.

(** Where a write goes: the end of the file when it is open for appending. *)
Definition write_off v (f : vfs_file) : option (Z * vfs) :=
  if Z.land (f_flags f) VFS_O_APPEND =? 0 then Some (f_pos f, v) else
  match op_fstat (ops (g_drv v (f_drv f))) with
  | None => Some (f_pos f, v)
  | Some g => '(rc, st, w) ← g (f_priv f) (world v);
              if rc =? 0 then st ← st; Some (s64 (s_size st), set_world v w) else Some (f_pos f, set_world v w)
  end.

Definition vfs_write v (fd : Z) (data : list Z) : option (Z * vfs) :=
  if bad_fd v fd then Some (E_BADF, v) else
  let f := g_fd v fd in
  match op_write (ops (g_drv v (f_drv f))) with
  | None => Some (E_BADF, v)
  | Some g =>
    '(off, v) ← write_off v f;
    '(rc, put, w) ← g (f_priv f) (u64 off) data (world v);
    let v := set_world v w in
    if rc <? 0 then Some (rc, v) else Some (s32 put, set_fd v fd (with_pos f (s64 (off + s64 put))))
  end.

Definition vfs_seek v (fd off whence : Z) : option (Z * vfs) :=
  if bad_fd v fd then Some (E_BADF, v) else
  let f := g_fd v fd in
  let go v newpos := if newpos <? 0 then Some (E_INVAL, v) else Some (0, set_fd v fd (with_pos f newpos)) in
  if whence =? SEEK_SET then go v off
  else if whence =? SEEK_CUR then go v (s64 (f_pos f + off))
  else if whence =? SEEK_END then
    match op_fstat (ops (g_drv v (f_drv f))) with
    | None => Some (E_INVAL, v)
    | Some g =>
      '(rc, st, w) ← g (f_priv f) (world v);
      let v := set_world v w in
      if rc <? 0 then Some (rc, v) else st ← st; go v (s64 (s64 (s_size st) + off))
    end
  else Some (E_INVAL, v).

Definition vfs_tell v (fd : Z) : Z := if bad_fd v fd then E_BADF else f_pos (g_fd v fd).

Definition vfs_truncate v (fd sz : Z) : option (Z * vfs) :=
  if bad_fd v fd then Some (E_BADF, v) else
  let f := g_fd v fd in
  match op_truncate (ops (g_drv v (f_drv f))) with
  | None => Some (E_NOSYS, v)
  | Some g => '(rc, w) ← g (f_priv f) sz (world v); Some (rc, set_world v w)
  end.

Definition vfs_fstat v (fd : Z) : option (Z * option vfs_stat * vfs) :=
  if bad_fd v fd then Some (E_BADF, None, v) else
  let f := g_fd v fd in
  match op_fstat (ops (g_drv v (f_drv f))) with
  | None => Some (E_NOSYS, None, v)
  | Some g => '(rc, st, w) ← g (f_priv f) (world v); Some (rc, st, set_world v w)
  end.

(** ** Paths *)

Definition vfs_stat_path v path : option (Z * option vfs_stat * vfs) :=
  let '(d, rel) := route v path in
  if d <? 0 then Some (E_NOENT, None, v) else
  match op_stat (ops (g_drv v d)) with
  | None => Some (E_NOENT, None, v)
  | Some g => '(rc, st, w) ← g rel (world v); Some (rc, st, set_world v w)
  end.

Definition vfs_lstat v path : option (Z * option vfs_stat * vfs) :=
  let '(d, rel) := route v path in
  if d <? 0 then Some (E_NOENT, None, v) else
  match op_lstat (ops (g_drv v d)), op_stat (ops (g_drv v d)) with
  | Some g, _ | None, Some g => '(rc, st, w) ← g rel (world v); Some (rc, st, set_world v w)
  | None, None => Some (E_NOSYS, None, v)
  end.

(** A path operation of the driver a path routes to. *)
Definition on_path v path (none : Z) (get : vfs_file_ops -> option (list Z -> W -> option (Z * W))) : option (Z * vfs) :=
  let '(d, rel) := route v path in
  if d <? 0 then Some (none, v) else
  match get (ops (g_drv v d)) with None => Some (none, v) | Some g => '(rc, w) ← g rel (world v); Some (rc, set_world v w) end.

Definition vfs_unlink v path : option (Z * vfs) := on_path v path E_NOENT op_unlink.

Definition vfs_mkdir v path (mode : Z) : option (Z * vfs) := on_path v path E_NOSYS (fun o => g ← op_mkdir o; Some (fun rel => g rel mode)).

Definition vfs_rmdir v path : option (Z * vfs) := on_path v path E_NOSYS op_rmdir.

Definition vfs_readdir v path (idx : Z) : option (Z * option vfs_dirent * vfs) :=
  let '(d, rel) := route v path in
  if d <? 0 then Some (E_NOSYS, None, v) else
  match op_readdir (ops (g_drv v d)) with
  | None => Some (E_NOSYS, None, v)
  | Some g => '(rc, de, w) ← g rel idx (world v); Some (rc, de, set_world v w)
  end.

Definition vfs_rename v (oldpath newpath : list Z) : option (Z * vfs) :=
  let '(od, old_rel) := route v oldpath in
  let '(nd, new_rel) := route v newpath in
  if od <? 0 then Some (E_NOENT, v) else
  if nd <? 0 then Some (E_NOENT, v) else
  if negb (od =? nd) then Some (E_XDEV, v) else
  match op_rename (ops (g_drv v od)) with
  | None => Some (E_NOSYS, v)
  | Some g => '(rc, w) ← g old_rel new_rel (world v); Some (rc, set_world v w)
  end.

Definition vfs_symlink v (target linkpath : list Z) : option (Z * vfs) :=
  on_path v linkpath E_NOSYS (fun o => g ← op_symlink o; Some (g target)).

Definition vfs_readlink v path (bufsz : Z) : option (Z * list Z * vfs) :=
  let '(d, rel) := route v path in
  if d <? 0 then Some (E_NOSYS, [], v) else
  match op_readlink (ops (g_drv v d)) with
  | None => Some (E_NOSYS, [], v)
  | Some g => '(rc, l, w) ← g rel bufsz (world v); Some (rc, l, set_world v w)
  end.

Definition vfs_path_truncate v path (sz : Z) : option (Z * vfs) :=
  let '(d, rel) := route v path in
  if d <? 0 then Some (E_NOENT, v) else
  let o := ops (g_drv v d) in
  match op_path_truncate o with
  | Some g => '(rc, w) ← g rel sz (world v); Some (rc, set_world v w)
  | None =>
    match op_open o, op_truncate o with
    | Some open, Some trunc =>
      '(rc, priv, w) ← open rel VFS_O_WRONLY 0 (world v);
      if rc <? 0 then Some (rc, set_world v w) else
      '(rc, w) ← trunc priv sz w;
      w ← (match op_close o with Some close => close priv w | None => Some w end);
      Some (rc, set_world v w)
    | _, _ => Some (E_NOSYS, v)
    end
  end.
End vfs.

Arguments vfs_file_ops W : clear implicits.
Arguments drv W : clear implicits.
Arguments vfs W : clear implicits.
