(* ===== verification/VfsRoute.v ===== *)
(** * Routing paths to drivers

    [route] picks the driver whose mount point is the longest prefix of the
    path, the last registered one among equals. *)

From stdpp Require Import base list.
From Stdlib Require Import ZArith Lia.
From S2P Require Import Prelude TmpfsNs TmpfsWalk Vfs.

Section route.
Context {W : Type}.
Implicit Types (v : vfs W) (d : drv W) (path : list Z).

(** What a mount point covers: itself and what is below it; "/" and the
    empty string cover everything that starts with them. *)
Definition covers (m path : list Z) : Prop :=
  exists rest, path = m ++ rest /\ (rest = [] \/ (exists r, rest = SLASH :: r) \/ (length m <= 1)%nat).

Record drv_ok d : Prop := { do_bytes : cbytes (mnt d); do_len : mnt_len d = length (mnt d) }.

(** What registration establishes for every driver. *)
Definition table_ok v : Prop := forall i, 0 <= i < g_ndrv v -> drv_ok (g_drv v i).

Lemma vstrcmp_prefix m : forall path, cbytes m -> cbytes path -> vstrcmp_n path m (length m) = 0 <-> exists rest, path = m ++ rest.
Proof.
  induction m as [|c m IH]; intros path Hm Hp; [split; [by exists path|done]|]. apply Forall_cons in Hm as [Hc Hm]. cbn [length vstrcmp_n hd tl].
  destruct path as [|x path]; cbn [hd tl].
  - rewrite (proj2 (Z.eqb_neq 0 c)) by lia. cbn [negb]. split; [lia|by intros []].
  - apply Forall_cons in Hp as [Hx Hp]. destruct (Z.eqb_spec x c) as [->|Hne]; cbn [negb].
    + rewrite (proj2 (Z.eqb_neq c 0)) by lia. rewrite (IH path Hm Hp). split; intros [r Hr]; exists r; [by rewrite Hr|by injection Hr].
    + split; [lia|]. intros [r [= -> _]]. done.
Qed.

Lemma drv_matches_spec d path : drv_ok d -> cbytes path -> drv_matches d path = true <-> valid d = true /\ covers (mnt d) path.
Proof.
  intros [Hb Hl] Hp. unfold drv_matches, covers. rewrite Hl, !andb_true_iff, negb_true_iff, Z.eqb_eq, (vstrcmp_prefix _ _ Hb Hp).
  assert (Hn : forall rest, path = mnt d ++ rest -> nth (length (mnt d)) path 0 = hd 0 rest).
  { intros rest ->. rewrite app_nth2 by lia. rewrite Nat.sub_diag. by destruct rest. }
  split.
  - intros [[Hv [rest Hr]] Hc]. split; [done|]. exists rest. split; [done|]. rewrite (Hn _ Hr) in Hc. rewrite !andb_false_iff, !negb_false_iff, Nat.ltb_ge, !Z.eqb_eq in Hc.
    destruct rest as [|x rest]; [by left|right]. cbn in Hc. destruct Hc as [[Hx|Hx]|Hx]; [|left; exists rest; by rewrite Hx|by right].
    rewrite Hr in Hp. apply Forall_app in Hp as [_ Hp]. apply Forall_cons in Hp as [? _]. lia.
  - intros [Hv (rest & Hr & Hc)]. split; [split; [done|by exists rest]|]. rewrite (Hn _ Hr), !andb_false_iff, !negb_false_iff, Nat.ltb_ge, !Z.eqb_eq.
    destruct Hc as [->|[[r ->]|Hc]]; [by left; left|by left; right|by right].
Qed.

(** The best candidate among the first [i] drivers. *)
Definition best_of v path (i best : Z) (len : nat) : Prop :=
  (best = -1 /\ len = 0%nat /\ forall j, 0 <= j < i -> drv_matches (g_drv v j) path = false) \/
  (0 <= best < i /\ len = mnt_len (g_drv v best) /\ drv_matches (g_drv v best) path = true /\
   forall j, 0 <= j < i -> drv_matches (g_drv v j) path = true -> (mnt_len (g_drv v j) < len)%nat \/ mnt_len (g_drv v j) = len /\ j <= best).

Lemma route_loop_spec v path n : forall i best len, 0 <= i -> best_of v path i best len ->
  let '(b, l) := route_loop n v i path best len in best_of v path (i + Z.of_nat n) b l.
Proof.
  induction n as [|n IH]; intros i best len Hi Hb; [by rewrite Z.add_0_r|]. cbn [route_loop]. replace (i + Z.of_nat (S n)) with (i + 1 + Z.of_nat n) by lia.
  destruct (drv_matches (g_drv v i) path && (len <=? mnt_len (g_drv v i))%nat) eqn:Hm; apply IH; try lia.
  - apply andb_true_iff in Hm as [Hm Hl%Nat.leb_le]. right. split_and!; [lia..|done|done|]. intros j Hj Hjm. destruct (Z.eq_dec j i) as [->|Hne]; [right; lia|].
    destruct Hb as [(_ & _ & Hno)|(_ & _ & _ & Hbest)]; [by rewrite Hno in Hjm by lia|]. specialize (Hbest j ltac:(lia) Hjm). lia.
  - apply andb_false_iff in Hm. destruct Hb as [(-> & -> & Hno)|(Hr & -> & Hbm & Hbest)].
    + left. split_and!; [done|done|]. intros j Hj. destruct (Z.eq_dec j i) as [->|Hne]; [|apply Hno; lia]. destruct Hm as [Hm|Hm]; [done|by apply Nat.leb_gt in Hm; lia].
    + right. split_and!; [lia..|done|done|]. intros j Hj Hjm. destruct (Z.eq_dec j i) as [->|Hne]; [|apply Hbest; [lia|done]].
      destruct Hm as [Hm|Hm]; [congruence|]. apply Nat.leb_gt in Hm. by left.
Qed.

Lemma route_spec v path : table_ok v -> cbytes path -> 0 <= g_ndrv v ->
  let '(d, rel) := route v path in
  (d = -1 /\ forall i, 0 <= i < g_ndrv v -> valid (g_drv v i) = true -> ~ covers (mnt (g_drv v i)) path) \/
  (0 <= d < g_ndrv v /\ valid (g_drv v d) = true /\ covers (mnt (g_drv v d)) path /\
   (path = mnt (g_drv v d) ++ rel /\ (forall r, rel <> SLASH :: r) \/ path = mnt (g_drv v d) ++ SLASH :: rel) /\
   forall i, 0 <= i < g_ndrv v -> valid (g_drv v i) = true -> covers (mnt (g_drv v i)) path ->
     (length (mnt (g_drv v i)) < length (mnt (g_drv v d)))%nat \/ length (mnt (g_drv v i)) = length (mnt (g_drv v d)) /\ i <= d).
Proof.
  intros Ht Hp Hn. unfold route. pose proof (route_loop_spec v path (Z.to_nat (g_ndrv v)) 0 (-1) 0) as Hl.
  destruct (route_loop _ v 0 path (-1) 0) as [b l]. rewrite Z.add_0_l, Z2Nat.id in Hl by done.
  destruct Hl as [(-> & -> & Hno)|(Hr & -> & Hm & Hbest)]; [lia|left; split_and!; [done|done|lia]| |].
  - cbn. left. split; [done|]. intros i Hi Hv Hc. pose proof (proj2 (drv_matches_spec _ _ (Ht i Hi) Hp) (conj Hv Hc)) as Hm. by rewrite Hno in Hm.
  - rewrite (proj2 (Z.ltb_ge b 0)) by lia. right. pose proof (Ht b Hr) as [Hbb Hbl]. apply (drv_matches_spec _ _ (Ht b Hr) Hp) in Hm as [Hv Hc].
    split_and!; [lia..|done|done| |].
    + destruct Hc as (rest & -> & _). rewrite Hbl, drop_app_length. destruct rest as [|c rest]; [left; by split|]. destruct (Z.eqb_spec c SLASH) as [->|Hne]; [by right|left].
      split; [done|]. intros r [= -> _]. done.
    + intros i Hi Hvi Hci. rewrite <- Hbl, <- (do_len _ (Ht i Hi)). apply Hbest; [done|]. by apply (drv_matches_spec _ _ (Ht i Hi) Hp).
Qed.

(** ** Registration *)

Lemma register_table v name m mf uf id v' : table_ok v -> 0 <= g_ndrv v -> cbytes m -> vfs_register_driver v name m mf uf = Some (id, v') -> table_ok v' /\ g_ndrv v <= g_ndrv v'.
Proof.
  intros Ht Hn Hm. unfold vfs_register_driver. destruct (VFS_MAX_DRIVERS <=? g_ndrv v); [intros [= <- <-]; split; [done|lia]|].
  assert (Hnew : forall b u o, drv_ok (Drv b (vstrncpy name 32) (vstrncpy m 512) (length (vstrncpy m 512)) u o : drv W)).
  { intros b u o. split; [|done]. cbn. unfold vstrncpy. by apply Forall_take. }
  cbv zeta. cbn [set_drv set_ndrv set_world g_drv g_ndrv world d_name mnt mnt_len umount_fn ops].
  assert (Hok : forall w X, table_ok (Vfs (upd (upd (g_drv v) (g_ndrv v) X) (g_ndrv v) (Drv true (vstrncpy name 32) (vstrncpy m 512) (length (vstrncpy m 512)) uf no_ops)) (g_ndrv v + 1) (g_fd v) (g_fd_lk v) w)).
  { intros w X i Hi. cbn in *. unfold upd. destruct (i =? g_ndrv v) eqn:E; [apply Hnew|]. apply Ht. apply Z.eqb_neq in E. lia. }
  destruct mf as [f|]; [|intros [= <- <-]; split; [apply Hok|cbn; lia]].
  destruct (f (world v)) as [[rc w]|]; [|done]. cbn [mbind option_bind]. destruct (rc <? 0); intros [= <- <-]; split; try apply Hok; cbn; try lia.
  intros i Hi. cbn in *. unfold upd. destruct (i =? g_ndrv v) eqn:E; [apply Hnew|]. apply Ht. lia.
Qed.
End route.
