(* ===== verification/VfsTmpfs.v ===== *)
(** * tmpfs behind the virtual file system

    The operation table of tmpfs, its registration at /tmp, and what the
    calls of the virtual file system mean for the name space when they go to
    tmpfs: descriptors instead of handles, and positions.

    Sources: fs/vfs/tmpfs_vfs.c, fs/vfs/vfs.c. *)

From stdpp Require Import base gmap list.
From Stdlib Require Import ZArith Lia.
From S2P Require Import Prelude Spinlock Kmalloc Allocator Tmpfs TmpfsFile TmpfsProps TmpfsNs TmpfsWalk TmpfsRel TmpfsTree TmpfsOps TmpfsDir TmpfsVfs TmpfsNsProps Vfs VfsRoute.

(** ** The driver *)

Section driver.
Context {A : Type} `{AL : Allocator A}.

(** The file system and the clock it reads. *)
Record tworld := TW { tw_fs : tmpfs A; tw_now : Z }.

(** A code, or no error and a value. *)
Definition ret {T} (dflt : T) (r : Z + T) : Z * T := match r with inl e => (e, dflt) | inr x => (TMPFS_OK, x) end.

Definition ret_some {T} (r : Z + T) : Z * option T := match r with inl e => (e, None) | inr x => (TMPFS_OK, Some x) end.

Definition lift {T} (w : tworld) (r : option (T * tmpfs A)) : option (T * tworld) := '(x, t) ← r; Some (x, TW t (tw_now w)).

Definition tmpfs_file_ops : vfs_file_ops tworld := FileOps
  (Some (fun rel flags mode w => '(r, w) ← lift w (tf_open (tw_fs w) rel flags mode (tw_now w)); Some (ret 0 r, w)))
  (Some (fun priv w => t ← tf_close (tw_fs w) priv; Some (TW t (tw_now w))))
  (Some (fun priv off len w => '(r, w) ← lift w (tf_read (tw_fs w) priv off len (tw_now w)); Some (ret [] r, w)))
  (Some (fun priv off data w => '(r, w) ← lift w (tf_write (tw_fs w) priv off data (tw_now w)); Some (ret 0 r, w)))
  (Some (fun priv sz w => lift w (tf_truncate (tw_fs w) priv sz (tw_now w))))
  (Some (fun rel w => '(r, w) ← lift w (tf_stat (tw_fs w) rel); Some (ret_some r, w)))
  (Some (fun rel w => '(r, w) ← lift w (tf_lstat (tw_fs w) rel); Some (ret_some r, w)))
  (Some (fun priv w => '(st, w) ← lift w (tf_fstat (tw_fs w) priv); Some (TMPFS_OK, Some st, w)))
  (Some (fun rel w => lift w (tf_unlink (tw_fs w) rel (tw_now w))))
  (Some (fun rel mode w => lift w (tf_mkdir (tw_fs w) rel mode (tw_now w))))
  (Some (fun rel w => lift w (tf_rmdir (tw_fs w) rel (tw_now w))))
  (Some (fun rel idx w => '(r, w) ← lift w (tf_readdir (tw_fs w) rel idx); Some (ret_some r, w)))
  None None None None.

Definition tmpfs_name : list Z := [116; 109; 112; 102; 115].
Definition tmpfs_mnt : list Z := [47; 116; 109; 112].

Definition tmpfs_vfs_register (v : vfs tworld) : option (vfs tworld) :=
  '(id, v) ← vfs_register_driver v tmpfs_name tmpfs_mnt (Some (fun w => lift w (tf_mount (tw_fs w) (tw_now w)))) (Some (fun w => lift w (tf_umount (tw_fs w))));
  Some (vfs_set_driver_ops v id tmpfs_file_ops).
End driver.

Arguments tworld A : clear implicits.

(** ** What the calls mean *)

(** The name space with descriptors for handles, and position and flags of
    each. *)
Record px := PX { px_ns : ns; px_pos : gmap Z (Z * Z) }.

Inductive v_op :=
  | VOpen (p : list Z) (flags mode : Z) | VClose (fd : Z) | VRead (fd len : Z) | VWrite (fd : Z) (data : list Z) | VSeek (fd off whence : Z) | VTell (fd : Z)
  | VTruncate (fd sz : Z) | VFstat (fd : Z) | VStat (p : list Z) | VLstat (p : list Z) | VUnlink (p : list Z) | VMkdir (p : list Z) (mode : Z) | VRmdir (p : list Z)
  | VReaddir (p : list Z) (idx : Z) | VRename (p q : list Z) | VSymlink (target p : list Z) | VReadlink (p : list Z) (n : Z) | VPathTruncate (p : list Z) (sz : Z).

(** The return value, with what was written through pointers. *)
Inductive v_res := VCode (rc : Z) | VData (rc : Z) (l : list Z) | VStatus (rc : Z) (st : option vfs_stat) | VEntry (rc : Z) (de : option vfs_dirent).

Definition res_code (r : file_res) : Z := match r with RErr e => e | RLen n => n | RBytes l => Z.of_nat (length l) end.

(** The lowest descriptor that is not in use. *)
Definition lowest_free (fds : gset Z) (fd : Z) : Prop := 0 <= fd < VFS_MAX_FDS /\ (fd ∉ fds) /\ forall i, 0 <= i < fd -> i ∈ fds.

Definition px_open (X : gset Z) (now : Z) (p : px) (q : list Z) (flags mode : Z) (r : v_res) (p' : px) : Prop :=
  let fds := dom (px_pos p) ∪ X in
  (r = VCode E_NOMEM /\ p' = p /\ forall i, 0 <= i < VFS_MAX_FDS -> i ∈ fds) \/
  exists fd r1 s1, lowest_free fds fd /\ open_spec now (px_ns p) q flags mode r1 s1 /\
    match r1 with
    | inl e => r = VCode e /\ p' = PX s1 (px_pos p)
    | inr n => r = VCode E_NOMEM /\ p' = PX s1 (px_pos p) \/
               r = VCode fd /\ p' = PX (with_handles s1 (<[fd := n]> (ns_hdls s1))) (<[fd := (0, flags)]> (px_pos p))
    end.

(** A read, write or truncation through a descriptor. *)
Definition px_file (now : Z) (p : px) (fd : Z) (op : file_op) (r : file_res) (s' : ns) : Prop :=
  exists n nd f, ns_handle (px_ns p) fd = Some (n, nd) /\ r = fst (node_op now nd op f) /\ s' = ns_set (px_ns p) n (snd (node_op now nd op f)).

Definition node_size (s : ns) (fd : Z) : Z := match ns_handle s fd with Some (_, nd) => an_size nd | None => 0 end.

Definition px_write (now : Z) (p : px) (fd : Z) (data : list Z) (r : v_res) (p' : px) : Prop :=
  match px_pos p !! fd with
  | None => r = VCode E_BADF /\ p' = p
  | Some (pos, fl) =>
    let off := if Z.land fl VFS_O_APPEND =? 0 then pos else node_size (px_ns p) fd in
    exists r0 s', px_file now p fd (FWrite off data) r0 s' /\
      match r0 with
      | RErr e => r = VCode e /\ p' = PX s' (px_pos p)
      | _ => r = VCode (Z.of_nat (length data)) /\ p' = PX s' (<[fd := (off + Z.of_nat (length data), fl)]> (px_pos p))
      end
  end.

(** Where a seek goes, [None] for an unknown origin. *)
Definition seek_target (p : px) (fd pos off whence : Z) : option Z :=
  if whence =? SEEK_SET then Some off else if whence =? SEEK_CUR then Some (pos + off)
  else if whence =? SEEK_END then Some (node_size (px_ns p) fd + off) else None.

Definition px_path_op (now : Z) (p : px) (op : fs_op) (r : v_res) (p' : px) : Prop :=
  exists c s', ns_op now (px_ns p) op (SCode c) s' /\ r = VCode c /\ p' = PX s' (px_pos p).

Section spec.
(** The paths that go to tmpfs, with their rest, and the descriptors of
    other drivers. *)
Context (rt : list Z -> option (list Z)) (X : gset Z).

Definition px_op (now : Z) (p : px) (op : v_op) (r : v_res) (p' : px) : Prop :=
  match op with
  | VOpen pa flags mode => exists q, rt pa = Some q /\ px_open X now p q flags mode r p'
  | VClose fd => r = VCode 0 /\ p' = PX (with_handles (px_ns p) (delete fd (ns_hdls (px_ns p)))) (delete fd (px_pos p))
  | VRead fd len =>
    match px_pos p !! fd with
    | None => r = VData E_BADF [] /\ p' = p
    | Some (pos, fl) => exists r0 s', px_file now p fd (FRead pos len) r0 s' /\
        match r0 with
        | RBytes l => r = VData (Z.of_nat (length l)) l /\ p' = PX s' (<[fd := (pos + Z.of_nat (length l), fl)]> (px_pos p))
        | _ => r = VData (res_code r0) [] /\ p' = PX s' (px_pos p)
        end
    end
  | VWrite fd data => px_write now p fd data r p'
  | VSeek fd off whence =>
    match px_pos p !! fd with
    | None => r = VCode E_BADF /\ p' = p
    | Some (pos, fl) =>
      match seek_target p fd pos off whence with
      | Some k => if k <? 0 then r = VCode E_INVAL /\ p' = p else r = VCode 0 /\ p' = PX (px_ns p) (<[fd := (k, fl)]> (px_pos p))
      | None => r = VCode E_INVAL /\ p' = p
      end
    end
  | VTell fd => r = VCode (match px_pos p !! fd with Some (pos, _) => pos | None => E_BADF end) /\ p' = p
  | VTruncate fd sz =>
    match px_pos p !! fd with
    | None => r = VCode E_BADF /\ p' = p
    | Some _ => exists r0 s', px_file now p fd (FTruncate sz) r0 s' /\ r = VCode (res_code r0) /\ p' = PX s' (px_pos p)
    end
  | VFstat fd =>
    match px_pos p !! fd with
    | None => r = VStatus E_BADF None /\ p' = p
    | Some _ => exists n nd, ns_handle (px_ns p) fd = Some (n, nd) /\ r = VStatus 0 (Some (node_stat n nd)) /\ p' = p
    end
  | VStat pa | VLstat pa => exists q, rt pa = Some q /\ r = (let '(rc, st) := ret_some (stat_spec (px_ns p) q) in VStatus rc st) /\ p' = p
  | VUnlink pa => exists q, rt pa = Some q /\ px_path_op now p (OUnlink q) r p'
  | VMkdir pa mode => exists q, rt pa = Some q /\ px_path_op now p (OMkdir q mode) r p'
  | VRmdir pa => exists q, rt pa = Some q /\ px_path_op now p (ORmdir q) r p'
  | VReaddir pa idx => exists q, rt pa = Some q /\ r = (let '(rc, de) := ret_some (readdir_spec (px_ns p) q idx) in VEntry rc de) /\ p' = p
  | VRename _ _ | VSymlink _ _ => r = VCode E_NOSYS /\ p' = p
  | VReadlink _ _ => r = VData E_NOSYS [] /\ p' = p
  | VPathTruncate pa sz => exists q, rt pa = Some q /\
      match ns_resolve (px_ns p) q with
      | None => r = VCode TMPFS_ENOENT /\ p' = p
      | Some n => r = VCode TMPFS_ENOMEM /\ p' = p \/ exists nd f, ns_nodes (px_ns p) !! n = Some nd /\
          r = VCode (res_code (fst (node_op now nd (FTruncate sz) f))) /\ p' = PX (ns_set (px_ns p) n (snd (node_op now nd (FTruncate sz) f))) (px_pos p)
      end
  end.

(** What the caller respects: paths go to tmpfs and are C strings,
    descriptors are not another driver's, nothing is unlinked while it is
    used, and positions do not overflow. *)
Definition fd_pre (p : px) (fd : Z) : Prop := (fd ∉ X) /\ (is_Some (px_pos p !! fd) -> is_Some (ns_handle (px_ns p) fd)).
Definition path_pre (pa : list Z) : Prop := match rt pa with Some q => cbytes q | None => False end.

Definition v_pre (p : px) (op : v_op) : Prop :=
  match op with
  | VOpen pa _ _ | VStat pa | VLstat pa | VUnlink pa | VMkdir pa _ | VRmdir pa | VSymlink _ pa | VReadlink pa _ => path_pre pa
  | VRename pa pb => path_pre pa /\ path_pre pb
  | VReaddir pa idx => path_pre pa /\ 0 <= idx
  | VPathTruncate pa sz => path_pre pa /\ 0 <= sz
  | VClose fd | VTell fd => fd ∉ X
  | VRead fd len => fd_pre p fd /\ 0 <= len < 2 ^ 63
  | VWrite fd data => fd_pre p fd /\ Z.of_nat (length data) < 2 ^ 63
  | VSeek fd off whence => fd_pre p fd /\
      match px_pos p !! fd with
      | Some (pos, _) => match seek_target p fd pos off whence with Some k => - 2 ^ 63 <= k < 2 ^ 63 | None => True end
      | None => True
      end
  | VTruncate fd sz => fd_pre p fd /\ 0 <= sz
  | VFstat fd => fd_pre p fd
  end.

#[global] Instance path_pre_dec pa : Decision (path_pre pa).
Proof. unfold path_pre, cbytes. destruct (rt pa); apply _. Defined.

#[global] Instance fd_pre_dec p fd : Decision (fd_pre p fd).
Proof. unfold fd_pre. apply _. Defined.

#[global] Instance v_pre_dec p op : Decision (v_pre p op).
Proof. destruct op; cbn; try apply _. destruct (px_pos p !! fd) as [[pos fl]|]; [destruct (seek_target p fd pos off whence)|]; apply _. Defined.
End spec.
