(* ===== verification/VfsProps.v ===== *)
(** * Descriptors over tmpfs

    The virtual file system with tmpfs behind it does what the calls mean:
    each call returns, and descriptors, positions and the name space change
    as specified. *)

From stdpp Require Import base gmap list.
From Stdlib Require Import ZArith Lia.
From S2P Require Import Prelude Spinlock Kmalloc Allocator Tmpfs TmpfsFile TmpfsProps TmpfsNs TmpfsWalk TmpfsRel TmpfsTree TmpfsOps TmpfsDir TmpfsVfs TmpfsNsProps Vfs VfsRoute VfsTmpfs.

(** ** Handles do not matter to paths *)

Lemma walk_handles s H l : forall d, ns_walk (with_handles s H) d l = ns_walk s d l.
Proof.
  induction l as [|x l IH]; intros d; [done|]. cbn [ns_walk]. change (ns_lookup (with_handles s H) d x) with (ns_lookup s d x).
  destruct (ns_lookup s d x); [apply IH|done].
Qed.

Lemma resolve_handles s H p : ns_resolve (with_handles s H) p = ns_resolve s p.
Proof. apply walk_handles. Qed.

Lemma parent_handles s H p : ns_parent (with_handles s H) p = ns_parent s p.
Proof. unfold ns_parent. by rewrite walk_handles. Qed.

Lemma target_handles s H p : target (with_handles s H) p = target s p.
Proof. unfold target. by rewrite parent_handles. Qed.

Lemma stat_handles s H p : stat_spec (with_handles s H) p = stat_spec s p.
Proof. unfold stat_spec. by rewrite resolve_handles. Qed.

Lemma readdir_handles s H p idx : readdir_spec (with_handles s H) p idx = readdir_spec s p idx.
Proof. unfold readdir_spec. by rewrite resolve_handles. Qed.

Lemma create_handles now ty perm nlink s d leaf r s' H : create_spec now ty perm nlink s d leaf r s' ->
  create_spec now ty perm nlink (with_handles s H) d leaf r (with_handles s' H).
Proof.
  intros [[-> ->]|(nd & Hd & Hs)]; [by left|]. right. exists nd. split; [done|]. destruct (negb _); [by destruct Hs as [-> ->]|]. destruct (255 <? _)%nat; [by destruct Hs as [-> ->]|].
  destruct Hs as [[-> ->]|Hs]; [by left|right]. by destruct (assoc _ _); destruct Hs as [-> ->].
Qed.

Lemma open_handles now s p flags mode r s' H : open_spec now s p flags mode r s' -> open_spec now (with_handles s H) p flags mode r (with_handles s' H).
Proof.
  unfold open_spec. rewrite resolve_handles, parent_handles.
  destruct (ns_resolve s p); [by intros [-> ->]|]. destruct (_ =? 0); [by intros [-> ->]|]. destruct (ns_parent s p); [|by intros [-> ->]].
  destruct (_ =? 0)%nat; [by intros [-> ->]|]. apply create_handles.
Qed.

(** The operations that take only a path and return a code. *)
Definition path_op (op : fs_op) : Prop := match op with OUnlink _ | OMkdir _ _ | ORmdir _ => True | _ => False end.

Lemma path_op_handles now s op r s' H : path_op op -> ns_op now s op r s' -> ns_op now (with_handles s H) op r (with_handles s' H) /\ ns_hdls s' = ns_hdls s.
Proof.
  destruct op as [| | | | | |p|p mode|p|]; try done; intros _ (c & -> & Hs).
  - assert (Hs' : unlink_spec now (with_handles s H) p c (with_handles s' H) /\ ns_hdls s' = ns_hdls s); [|destruct Hs'; split; [by exists c|done]].
    unfold unlink_spec in *. rewrite target_handles. destruct (target s p) as [[[[d nd] x] cd]|]; [destruct (_ =? _)|]; by destruct Hs as [-> ->].
  - assert (Hs' : mkdir_spec now (with_handles s H) p mode c (with_handles s' H) /\ ns_hdls s' = ns_hdls s); [|destruct Hs'; split; [by exists c|done]].
    unfold mkdir_spec in *. rewrite parent_handles. destruct (ns_parent s p) as [d|]; [|by destruct Hs as [-> ->]].
    destruct (_ =? 0)%nat; [by destruct Hs as [-> ->]|]. destruct Hs as (r1 & s1 & Hc & Hr). pose proof (create_keeps_handles _ _ _ _ _ _ _ _ _ Hc) as Hh.
    destruct r1 as [e|n]; [destruct Hr as [-> ->]; split; [|done]; exists (inl e), (with_handles s1 H); split; [by apply create_handles|done]|].
    destruct Hr as (-> & nd & Hn & ->). split; [|done]. exists (inr n), (with_handles s1 H). split; [by apply create_handles|]. split; [done|]. by exists nd.
  - assert (Hs' : rmdir_spec now (with_handles s H) p c (with_handles s' H) /\ ns_hdls s' = ns_hdls s); [|destruct Hs'; split; [by exists c|done]].
    unfold rmdir_spec in *. rewrite target_handles. destruct (target s p) as [[[[d nd] x] cd]|]; [destruct (negb _); [|destruct (negb _)]|]; by destruct Hs as [-> ->].
Qed.

(** Codes of errors are negative. *)
Lemma open_codes now s p flags mode e s' : open_spec now s p flags mode (inl e) s' -> e < 0.
Proof.
  unfold open_spec. destruct (ns_resolve s p); [by intros [? _]|]. destruct (_ =? 0); [by intros [[= ->] _]|]. destruct (ns_parent s p); [|by intros [[= ->] _]].
  destruct (_ =? 0)%nat; [by intros [[= ->] _]|]. intros [[[= ->] _]|(nd & _ & Hs)]; [done|]. destruct (negb _); [by destruct Hs as [[= ->] _]|].
  destruct (255 <? _)%nat; [by destruct Hs as [[= ->] _]|]. destruct Hs as [[[= ->] _]|Hs]; [done|]. by destruct (assoc _ _); destruct Hs as [[= ->] _].
Qed.

Lemma read_res now nd off len f : 0 <= off -> 0 <= an_size nd <= TMPFS_MAX_SZ ->
  match fst (node_op now nd (FRead off len) f) with
  | RErr e => e < 0
  | RBytes l => Z.of_nat (length l) = Z.max 0 (Z.min len (an_size nd - off))
  | RLen _ => False
  end.
Proof.
  intros Ho Hs. unfold node_op. destruct (negb _); [done|]. cbn. rewrite length_map, length_seq. lia.
Qed.

Lemma write_res now nd off data f : 0 <= off ->
  match fst (node_op now nd (FWrite off data) f) with
  | RErr e => e < 0
  | RLen n => n = Z.of_nat (length data) /\ off + n <= TMPFS_MAX_SZ
  | RBytes _ => False
  end.
Proof.
  intros Ho. unfold node_op. destruct (negb _); [done|]. cbn. destruct (Z.ltb_spec TMPFS_MAX_SZ (off + Z.of_nat (length data))); [done|]. destruct f; [done|]. cbn. lia.
Qed.

Lemma truncate_res now nd sz f : match fst (node_op now nd (FTruncate sz) f) with RErr e => e < 0 | RLen n => n = 0 | RBytes _ => False end.
Proof. unfold node_op. destruct (negb _); [done|]. cbn. by destruct (TMPFS_MAX_SZ <? sz). Qed.

(** ** The relation *)

Lemma route_loop_ext {W} (v v' : vfs W) path n : g_drv v' = g_drv v -> forall i b l, route_loop n v' i path b l = route_loop n v i path b l.
Proof. intros E. induction n as [|n IH]; intros i b l; [done|]. cbn [route_loop]. rewrite E. by destruct (_ && _). Qed.

Lemma route_ext {W} (v v' : vfs W) path : g_drv v' = g_drv v -> g_ndrv v' = g_ndrv v -> route v' path = route v path.
Proof. intros E1 E2. unfold route. by rewrite E2, (route_loop_ext v v' path _ E1). Qed.

Section props.
Context {A : Type} `{AL : AllocatorLaws A}.
(** tmpfs is driver [D], gets the paths [rt] and leaves the descriptors [X]
    to others. *)
Context (D G : Z) (F X : gset Z) (rt : list Z -> option (list Z)).
Implicit Types (v : vfs (tworld A)) (p : px) (s : ns) (t : tmpfs A) (w : tworld A).

Definition priv_of v (fd : Z) : Z := f_priv (g_fd v fd).

Record vrel v p s : Prop := {
  vr_lock : g_fd_lk v = false;
  vr_ops : ops (g_drv v D) = tmpfs_file_ops;
  vr_D : 0 <= D;
  vr_route : forall pa q, rt pa = Some q -> route v pa = (D, q);
  vr_fd : forall fd pos fl, px_pos p !! fd = Some (pos, fl) -> 0 <= fd < VFS_MAX_FDS /\ g_fd v fd = VFile true D (priv_of v fd) pos fl /\ 0 <= pos < 2 ^ 63;
  vr_used : forall fd, 0 <= fd < VFS_MAX_FDS -> used (g_fd v fd) = true <-> fd ∈ dom (px_pos p) ∪ X;
  vr_X : dom (px_pos p) ## X;
  vr_dom : dom (ns_hdls (px_ns p)) = dom (px_pos p);
  vr_fs : mounted G F (tw_fs (world v)) s;
  vr_ns : px_ns p = with_handles s (ns_hdls (px_ns p));
  vr_hdl : forall fd n, ns_hdls (px_ns p) !! fd = Some n -> ns_hdls s !! priv_of v fd = Some n;
  vr_inj : forall fd fd', fd ∈ dom (px_pos p) -> fd' ∈ dom (px_pos p) -> priv_of v fd = priv_of v fd' -> fd = fd' }.

Lemma vrel_world v p s w' s' : vrel v p s -> mounted G F (tw_fs w') s' -> ns_hdls s' = ns_hdls s ->
  vrel (set_world v w') (PX (with_handles s' (ns_hdls (px_ns p))) (px_pos p)) s'.
Proof using Type.
  intros [R1 R2 R3 R4 R5 R6 R7 R8 R9 R10 R11 R12] M E. constructor; try done.
  - intros pa q Hq. rewrite <- (R4 pa q Hq). by apply route_ext.
  - cbn. intros fd n Hn. rewrite E. by apply R11.
Qed.

Lemma vrel_pos v p s fd pos0 pos fl : vrel v p s -> px_pos p !! fd = Some (pos0, fl) -> 0 <= pos < 2 ^ 63 ->
  vrel (set_fd v fd (with_pos (g_fd v fd) pos)) (PX (px_ns p) (<[fd := (pos, fl)]> (px_pos p))) s.
Proof using Type.
  intros [R1 R2 R3 R4 R5 R6 R7 R8 R9 R10 R11 R12] Hp Hr. destruct (R5 fd pos0 fl Hp) as (Hb & Ef & _).
  assert (Hpriv : forall x, priv_of (set_fd v fd (with_pos (g_fd v fd) pos)) x = priv_of v x).
  { intros x. unfold priv_of, set_fd, upd. cbn. by destruct (Z.eqb_spec x fd) as [->|]. }
  assert (Hdom : dom (<[fd := (pos, fl)]> (px_pos p)) = dom (px_pos p)) by (apply dom_insert_lookup_L; by exists (pos0, fl)).
  constructor; cbn [px_ns px_pos]; rewrite ?Hdom; try done.
  - intros pa q Hq. rewrite <- (R4 pa q Hq). by apply route_ext.
  - intros x p0 fl0. rewrite Hpriv. cbn [set_fd g_fd]. unfold upd. destruct (Z.eqb_spec x fd) as [->|Hne].
    + rewrite lookup_insert_eq. intros [= <- <-]. split_and!; [lia..| |lia|lia]. rewrite Ef. done.
    + rewrite lookup_insert_ne by done. apply R5.
  - intros x Hx. cbn [set_fd g_fd]. unfold upd. destruct (Z.eqb_spec x fd) as [->|]; [|by apply R6]. cbn. by apply R6.
  - intros x n. rewrite Hpriv. apply R11.
  - intros x y. rewrite !Hpriv. apply R12.
Qed.

Lemma vrel_handle v p s fd n nd : vrel v p s -> ns_handle (px_ns p) fd = Some (n, nd) -> ns_handle s (priv_of v fd) = Some (n, nd) /\ ns_nodes s !! n = Some nd.
Proof using Type.
  intros R Hh. unfold ns_handle in *. apply bind_Some in Hh as (n' & H1 & H2). apply bind_Some in H2 as (nd' & H2 & [= -> ->]).
  rewrite (vr_hdl _ _ _ R fd n H1). cbn [mbind option_bind]. rewrite (vr_ns _ _ _ R) in H2. cbn in H2. by rewrite H2.
Qed.

Lemma vrel_open_fd v p s fd pos fl : vrel v p s -> px_pos p !! fd = Some (pos, fl) -> bad_fd v fd = false.
Proof using Type.
  intros R Hp. destruct (vr_fd _ _ _ R fd pos fl Hp) as (Hb & Ef & _). unfold bad_fd. rewrite Ef. cbn. unfold VFS_MAX_FDS in *.
  rewrite (proj2 (Z.ltb_ge fd 0)), (proj2 (Z.leb_gt 256 fd)) by lia. done.
Qed.

Lemma vrel_bad_fd v p s fd : vrel v p s -> px_pos p !! fd = None -> fd ∉ X -> bad_fd v fd = true.
Proof using Type.
  intros R Hp HX. unfold bad_fd. destruct (Z.ltb_spec fd 0); [done|]. destruct (Z.leb_spec VFS_MAX_FDS fd); [done|]. cbn. apply negb_true_iff, not_true_iff_false. intros Hu.
  apply (vr_used _ _ _ R) in Hu; [|lia]. apply elem_of_union in Hu as [Hu|]; [|done]. apply elem_of_dom in Hu as [? ?]. congruence.
Qed.

Lemma mounted_size t s n nd : mounted G F t s -> ns_nodes s !! n = Some nd -> 0 <= an_size nd <= TMPFS_MAX_SZ.
Proof using Type. intros (live & L & E & R) Hn. destruct (rel_node _ _ _ _ _ _ _ _ n nd R Hn) as (a & ip & _ & _ & Hok & _). apply (no_max _ _ _ _ _ _ Hok). Qed.

Lemma s64_small x : - 2 ^ 63 <= x < 2 ^ 63 -> s64 x = x.
Proof using Type. intros Hx. unfold s64. zlia. Qed.

(** ** Through descriptors *)

Lemma tf_read_file t h off len now x t' : tf_file t h (FRead off len) now = Some (x, t') ->
  exists r, tf_read t h off len now = Some (r, t') /\ x = match r with inl e => RErr e | inr l => RBytes l end.
Proof using Type. cbn. intros ([r t1] & -> & [= <- <-])%bind_Some. by exists r. Qed.

Lemma tf_write_file t h off data now x t' : tf_file t h (FWrite off data) now = Some (x, t') ->
  exists r, tf_write t h off data now = Some (r, t') /\ x = match r with inl e => RErr e | inr n => RLen n end.
Proof using Type. cbn. intros ([r t1] & -> & [= <- <-])%bind_Some. by exists r. Qed.

Lemma tf_truncate_file t h sz now x t' : tf_file t h (FTruncate sz) now = Some (x, t') ->
  exists e, tf_truncate t h sz now = Some (e, t') /\ x = if e =? TMPFS_OK then RLen 0 else RErr e.
Proof using Type. cbn. intros ([r t1] & -> & [= <- <-])%bind_Some. by exists r. Qed.

(** An operation of the file behind a descriptor. *)
Lemma file_call v p s fd op n nd : vrel v p s -> ns_handle (px_ns p) fd = Some (n, nd) -> op_ok op ->
  let now := tw_now (world v) in
  exists f t', let r := fst (node_op now nd op f) in let s1 := ns_set (px_ns p) n (snd (node_op now nd op f)) in
    tf_file (tw_fs (world v)) (priv_of v fd) op now = Some (r, t') /\ px_file now p fd op r s1 /\ exists s', vrel (set_world v (TW t' now)) (PX s1 (px_pos p)) s'.
Proof using AL.
  intros R Hh Hop now. destruct (vrel_handle _ _ _ _ _ _ R Hh) as [Hs Hn]. destruct (tf_file_ok G F _ s _ n nd op now (vr_fs _ _ _ R) Hs Hop) as (f & t' & E & M).
  exists f, t'. cbv zeta. split; [done|]. split; [by exists n, nd, f|]. eexists. pose proof (vrel_world v p s (TW t' now) _ R M eq_refl) as R'.
  replace (ns_set (px_ns p) n (snd (node_op now nd op f))) with (with_handles (ns_set s n (snd (node_op now nd op f))) (ns_hdls (px_ns p))); [exact R'|].
  by rewrite (vr_ns _ _ _ R) at 2.
Qed.

Lemma s32_small x : - 2 ^ 31 <= x < 2 ^ 31 -> s32 x = x.
Proof using Type. intros Hx. unfold s32. zlia. Qed.

(** The descriptor of an open file, and its node. *)
Lemma fd_facts v p s fd pos fl : vrel v p s -> fd_pre X p fd -> px_pos p !! fd = Some (pos, fl) ->
  bad_fd v fd = false /\ f_drv (g_fd v fd) = D /\ f_pos (g_fd v fd) = pos /\ f_flags (g_fd v fd) = fl /\ f_priv (g_fd v fd) = priv_of v fd /\ 0 <= pos < 2 ^ 63 /\
  exists n nd, ns_handle (px_ns p) fd = Some (n, nd) /\ 0 <= an_size nd <= TMPFS_MAX_SZ.
Proof using Type.
  intros R [_ Hpre] Hp. destruct (vr_fd _ _ _ R fd pos fl Hp) as (_ & Ef & Hr). destruct Hpre as [[n nd] Hh]; [by exists (pos, fl)|].
  destruct (vrel_handle _ _ _ _ _ _ R Hh) as [_ Hn]. split; [by eapply vrel_open_fd|]. rewrite Ef. cbn. split_and!; try done; try lia.
  exists n, nd. split; [done|]. by eapply mounted_size; [apply R|].
Qed.

Lemma vfs_read_ok v p s fd len : vrel v p s -> fd_pre X p fd -> 0 <= len < 2 ^ 63 -> let now := tw_now (world v) in
  exists rc l v' p' s', vfs_read v fd len = Some (rc, l, v') /\ px_op rt X now p (VRead fd len) (VData rc l) p' /\ vrel v' p' s'.
Proof using AL.
  intros R Hpre Hlen now. unfold vfs_read. cbn [px_op]. destruct (px_pos p !! fd) as [[pos fl]|] eqn:Hp.
  2:{ rewrite (vrel_bad_fd _ _ _ _ R Hp (proj1 Hpre)). eexists _, _, v, p, s. split_and!; done. }
  destruct (fd_facts _ _ _ _ _ _ R Hpre Hp) as (Hb & Ed & Epos & Efl & Epr & Hpos & n & nd & Hh & Hsz). rewrite Hb, Ed, (vr_ops _ _ _ R), Epos, Epr.
  cbn [tmpfs_file_ops op_read]. rewrite u64_small by lia. destruct (file_call v p s fd (FRead pos len) n nd R Hh) as (f & t' & E & Hpx & s' & R'); [cbn; lia|].
  pose proof (read_res now nd pos len f ltac:(lia) Hsz) as Hres. destruct (tf_read_file _ _ _ _ _ _ _ E) as (r & Er & Ex). fold now in Er, Ex, Hpx, R'. unfold now in Er. rewrite Er.
  cbn [lift mbind option_bind]. destruct r as [e|l]; cbn [ret mbind option_bind]; rewrite Ex in Hres, Hpx.
  - rewrite (proj2 (Z.ltb_lt e 0) Hres). eexists _, _, _, _, s'. split; [done|]. split; [|exact R']. eexists _, _. split; [exact Hpx|]. done.
  - cbn [Z.ltb TMPFS_OK Z.compare]. assert (Hl : Z.of_nat (length l) <= TMPFS_MAX_SZ) by lia. unfold TMPFS_MAX_SZ, TMPFS_L1_SZ, TMPFS_L2_SZ, TMPFS_PAGE_SIZE in *.
    rewrite (s64_small (Z.of_nat (length l))), s32_small, s64_small by lia. eexists _, _, _, _, s'. split; [done|].
    split; [eexists _, _; split; [exact Hpx|done]|]. pose proof (vrel_pos _ _ _ fd pos (pos + Z.of_nat (length l)) fl R' Hp ltac:(lia)) as R2.
    exact R2.
Qed.

Lemma set_world_same v : set_world v (TW (tw_fs (world v)) (tw_now (world v))) = v.
Proof using Type. by destruct v as [? ? ? ? []]. Qed.

(** What a driver's [fstat] says of an open file. *)
Lemma fstat_call v p s fd n nd : vrel v p s -> ns_handle (px_ns p) fd = Some (n, nd) ->
  ('(st, w) ← lift (world v) (tf_fstat (tw_fs (world v)) (priv_of v fd)); Some (TMPFS_OK, Some st, w)) = Some (TMPFS_OK, Some (node_stat n nd), TW (tw_fs (world v)) (tw_now (world v))).
Proof using Type.
  intros R Hh. destruct (vrel_handle _ _ _ _ _ _ R Hh) as [Hs _]. by rewrite (tf_fstat_ok G F _ s _ n nd (vr_fs _ _ _ R) Hs).
Qed.

Lemma write_off_ok v p s fd pos fl : vrel v p s -> fd_pre X p fd -> px_pos p !! fd = Some (pos, fl) ->
  let off := if Z.land fl VFS_O_APPEND =? 0 then pos else node_size (px_ns p) fd in
  write_off v (g_fd v fd) = Some (off, v) /\ 0 <= off < 2 ^ 63.
Proof using Type.
  intros R Hpre Hp off. destruct (fd_facts _ _ _ _ _ _ R Hpre Hp) as (_ & Ed & Epos & Efl & Epr & Hpos & n & nd & Hh & Hsz).
  unfold off, node_size, write_off. rewrite Efl, Epos, Ed, (vr_ops _ _ _ R), Epr, Hh. destruct (_ =? 0); [done|]. cbn [tmpfs_file_ops op_fstat].
  rewrite (fstat_call _ _ _ _ _ _ R Hh). cbn [mbind option_bind Z.eqb TMPFS_OK node_stat s_size]. unfold TMPFS_MAX_SZ, TMPFS_L1_SZ, TMPFS_L2_SZ, TMPFS_PAGE_SIZE in *.
  rewrite s64_small by lia. rewrite set_world_same. split; [done|lia].
Qed.

Lemma vfs_write_ok v p s fd data : vrel v p s -> fd_pre X p fd -> Z.of_nat (length data) < 2 ^ 63 -> let now := tw_now (world v) in
  exists rc v' p' s', vfs_write v fd data = Some (rc, v') /\ px_op rt X now p (VWrite fd data) (VCode rc) p' /\ vrel v' p' s'.
Proof using AL.
  intros R Hpre Hlen now. unfold vfs_write. cbn [px_op]. unfold px_write. destruct (px_pos p !! fd) as [[pos fl]|] eqn:Hp.
  2:{ rewrite (vrel_bad_fd _ _ _ _ R Hp (proj1 Hpre)). eexists _, v, p, s. split_and!; done. }
  destruct (fd_facts _ _ _ _ _ _ R Hpre Hp) as (Hb & Ed & Epos & Efl & Epr & Hpos & n & nd & Hh & Hsz). destruct (write_off_ok _ _ _ _ _ _ R Hpre Hp) as [Eo Ho].
  rewrite Hb, Ed, (vr_ops _ _ _ R), Epr. cbn [tmpfs_file_ops op_write]. rewrite Eo. cbn [mbind option_bind]. match type of Ho with 0 <= ?Y < _ => set (off := Y) in * end. clearbody off.
  rewrite u64_small by lia. destruct (file_call v p s fd (FWrite off data) n nd R Hh) as (f & t' & E & Hpx & s' & R'); [cbn; lia|].
  pose proof (write_res now nd off data f ltac:(lia)) as Hres. destruct (tf_write_file _ _ _ _ _ _ _ E) as (r & Er & Ex). fold now in Er, Ex, Hpx, R'. unfold now in Er. rewrite Er.
  cbn [lift mbind option_bind]. destruct r as [e|k]; cbn [ret mbind option_bind]; rewrite Ex in Hres, Hpx.
  - rewrite (proj2 (Z.ltb_lt e 0) Hres). eexists _, _, _, s'. split; [done|]. split; [|exact R']. eexists _, _. split; [exact Hpx|]. done.
  - destruct Hres as [-> Hmax]. cbn [Z.ltb TMPFS_OK Z.compare]. unfold TMPFS_MAX_SZ, TMPFS_L1_SZ, TMPFS_L2_SZ, TMPFS_PAGE_SIZE in *.
    rewrite (s64_small (Z.of_nat (length data))), s32_small, s64_small by lia. eexists _, _, _, s'. split; [done|].
    split; [eexists _, _; split; [exact Hpx|done]|]. exact (vrel_pos _ _ _ fd pos (off + Z.of_nat (length data)) fl R' Hp ltac:(lia)).
Qed.

Lemma vfs_seek_ok v p s fd off whence : vrel v p s -> v_pre rt X p (VSeek fd off whence) -> let now := tw_now (world v) in
  exists rc v' p' s', vfs_seek v fd off whence = Some (rc, v') /\ px_op rt X now p (VSeek fd off whence) (VCode rc) p' /\ vrel v' p' s'.
Proof using Type.
  intros R [Hpre Hk] now. unfold vfs_seek. cbn [px_op]. destruct (px_pos p !! fd) as [[pos fl]|] eqn:Hp.
  2:{ rewrite (vrel_bad_fd _ _ _ _ R Hp (proj1 Hpre)). eexists _, v, p, s. split_and!; done. }
  destruct (fd_facts _ _ _ _ _ _ R Hpre Hp) as (Hb & Ed & Epos & Efl & Epr & Hpos & n & nd & Hh & Hsz). rewrite Hb, Ed, (vr_ops _ _ _ R), Epr, Epos.
  unfold seek_target, node_size in *. rewrite Hh in *. cbn [tmpfs_file_ops op_fstat].
  assert (Hgo : forall k, - 2 ^ 63 <= k < 2 ^ 63 -> exists rc v' p' s',
    (if k <? 0 then Some (E_INVAL, v) else Some (0, set_fd v fd (with_pos (g_fd v fd) k))) = Some (rc, v') /\
    (if k <? 0 then VCode rc = VCode E_INVAL /\ p' = p else VCode rc = VCode 0 /\ p' = PX (px_ns p) (<[fd := (k, fl)]> (px_pos p))) /\ vrel v' p' s').
  { intros k Hr. destruct (Z.ltb_spec k 0); [by eexists _, v, p, s|]. eexists _, _, _, s. split; [done|]. split; [done|]. apply (vrel_pos _ _ _ _ pos); [done|done|lia]. }
  destruct (whence =? SEEK_SET); [by apply Hgo|]. destruct (whence =? SEEK_CUR); [rewrite s64_small by done; by apply Hgo|].
  destruct (whence =? SEEK_END); [|by eexists _, v, p, s]. rewrite (fstat_call _ _ _ _ _ _ R Hh). cbn [mbind option_bind Z.ltb Z.compare TMPFS_OK node_stat s_size].
  rewrite set_world_same. unfold TMPFS_MAX_SZ, TMPFS_L1_SZ, TMPFS_L2_SZ, TMPFS_PAGE_SIZE in *. rewrite (s64_small (an_size nd)), s64_small by lia. by apply Hgo.
Qed.

Lemma vfs_tell_ok v p s fd : vrel v p s -> fd ∉ X -> vfs_tell v fd = match px_pos p !! fd with Some (pos, _) => pos | None => E_BADF end.
Proof using Type.
  intros R HX. unfold vfs_tell. destruct (px_pos p !! fd) as [[pos fl]|] eqn:Hp; [|by rewrite (vrel_bad_fd _ _ _ _ R Hp HX)].
  rewrite (vrel_open_fd _ _ _ _ _ _ R Hp). destruct (vr_fd _ _ _ R fd pos fl Hp) as (_ & -> & _). done.
Qed.

Lemma vfs_truncate_ok v p s fd sz : vrel v p s -> fd_pre X p fd -> 0 <= sz -> let now := tw_now (world v) in
  exists rc v' p' s', vfs_truncate v fd sz = Some (rc, v') /\ px_op rt X now p (VTruncate fd sz) (VCode rc) p' /\ vrel v' p' s'.
Proof using AL.
  intros R Hpre Hsz0 now. unfold vfs_truncate. cbn [px_op]. destruct (px_pos p !! fd) as [[pos fl]|] eqn:Hp.
  2:{ rewrite (vrel_bad_fd _ _ _ _ R Hp (proj1 Hpre)). eexists _, v, p, s. split_and!; done. }
  destruct (fd_facts _ _ _ _ _ _ R Hpre Hp) as (Hb & Ed & Epos & Efl & Epr & Hpos & n & nd & Hh & Hsz). rewrite Hb, Ed, (vr_ops _ _ _ R), Epr. cbn [tmpfs_file_ops op_truncate].
  destruct (file_call v p s fd (FTruncate sz) n nd R Hh) as (f & t' & E & Hpx & s' & R'); [done|]. pose proof (truncate_res now nd sz f) as Hres.
  destruct (tf_truncate_file _ _ _ _ _ _ E) as (e & Er & Ex). fold now in Er, Ex, Hpx, R'. unfold now in Er. rewrite Er. cbn [lift mbind option_bind]. rewrite Ex in Hpx.
  eexists _, _, _, s'. split; [done|]. split; [|exact R']. eexists _, _. split; [exact Hpx|]. split; [|done]. destruct (Z.eqb_spec e TMPFS_OK) as [Ee|]; [by rewrite Ee|done].
Qed.

Lemma vfs_fstat_ok v p s fd : vrel v p s -> fd_pre X p fd -> let now := tw_now (world v) in
  exists rc st v', vfs_fstat v fd = Some (rc, st, v') /\ px_op rt X now p (VFstat fd) (VStatus rc st) p /\ vrel v' p s.
Proof using Type.
  intros R Hpre now. unfold vfs_fstat. cbn [px_op]. destruct (px_pos p !! fd) as [[pos fl]|] eqn:Hp.
  2:{ rewrite (vrel_bad_fd _ _ _ _ R Hp (proj1 Hpre)). eexists _, _, v. split_and!; done. }
  destruct (fd_facts _ _ _ _ _ _ R Hpre Hp) as (Hb & Ed & Epos & Efl & Epr & Hpos & n & nd & Hh & Hsz). rewrite Hb, Ed, (vr_ops _ _ _ R), Epr. cbn [tmpfs_file_ops op_fstat].
  rewrite (fstat_call _ _ _ _ _ _ R Hh). cbn [mbind option_bind]. rewrite set_world_same. eexists _, _, v. split; [done|]. split; [|done]. by exists n, nd.
Qed.

(** ** Opening and closing *)

Lemma free_fd_spec n fds : forall i,
  match free_fd n fds i with
  | Some j => i <= j < i + Z.of_nat n /\ used (fds j) = false /\ forall k, i <= k < j -> used (fds k) = true
  | None => forall k, i <= k < i + Z.of_nat n -> used (fds k) = true
  end.
Proof using Type.
  induction n as [|n IH]; intros i; [cbn; lia|]. cbn [free_fd]. destruct (used (fds i)) eqn:Hu; [|split_and!; [lia|lia|done|lia]].
  specialize (IH (i + 1)). destruct (free_fd n fds (i + 1)) as [j|].
  - destruct IH as (H1 & H2 & H3). split_and!; [lia|lia|done|]. intros k Hk. destruct (Z.eq_dec k i) as [->|]; [done|]. apply H3. lia.
  - intros k Hk. destruct (Z.eq_dec k i) as [->|]; [done|]. apply IH. lia.
Qed.

(** A descriptor that is not open may change but for its use. *)
Lemma vrel_other v p s v' : vrel v p s -> g_drv v' = g_drv v -> g_ndrv v' = g_ndrv v -> g_fd_lk v' = false -> world v' = world v ->
  (forall fd, fd ∈ dom (px_pos p) -> g_fd v' fd = g_fd v fd) -> (forall fd, 0 <= fd < VFS_MAX_FDS -> used (g_fd v' fd) = used (g_fd v fd)) -> vrel v' p s.
Proof using Type.
  intros [R1 R2 R3 R4 R5 R6 R7 R8 R9 R10 R11 R12] E1 E2 E3 E4 Hs Hu.
  assert (Hpr : forall fd, fd ∈ dom (px_pos p) -> priv_of v' fd = priv_of v fd) by (intros fd Hfd; unfold priv_of; by rewrite Hs).
  constructor; rewrite ?E1, ?E4; try done.
  - intros pa q Hq. rewrite <- (R4 pa q Hq). by apply route_ext.
  - intros fd pos fl Hp. assert (Hd : fd ∈ dom (px_pos p)) by (apply elem_of_dom; by exists (pos, fl)). rewrite (Hs fd Hd), (Hpr fd Hd). by apply R5.
  - intros fd Hfd. rewrite Hu by done. by apply R6.
  - intros fd n Hn. rewrite Hpr; [by apply R11|]. rewrite <- R8. apply elem_of_dom. by exists n.
  - intros fd fd' H1 H2. rewrite !Hpr by done. by apply R12.
Qed.

(** A new descriptor. *)
Lemma vrel_new v p s1 s fd h n flags w' : vrel v p s -> fd ∉ dom (px_pos p) ∪ X -> 0 <= fd < VFS_MAX_FDS -> ns_hdls s1 = ns_hdls s -> ns_hdls s !! h = None ->
  mounted G F (tw_fs w') (with_handles s1 (<[h := n]> (ns_hdls s))) ->
  forall v', g_drv v' = g_drv v -> g_ndrv v' = g_ndrv v -> g_fd_lk v' = false -> world v' = w' -> g_fd v' fd = VFile true D h 0 flags ->
  (forall x, x <> fd -> g_fd v' x = g_fd v x) ->
  vrel v' (PX (with_handles s1 (<[fd := n]> (ns_hdls (px_ns p)))) (<[fd := (0, flags)]> (px_pos p))) (with_handles s1 (<[h := n]> (ns_hdls s))).
Proof using AL.
  intros [R1 R2 R3 R4 R5 R6 R7 R8 R9 R10 R11 R12] [Hfd HX]%not_elem_of_union Hr E1 Hh M v' V1 V2 V3 V4 V5 V6.
  assert (Hpr : forall x, x <> fd -> priv_of v' x = priv_of v x) by (intros x Hx; unfold priv_of; by rewrite V6). assert (Hpf : priv_of v' fd = h) by (unfold priv_of; by rewrite V5).
  assert (Hne : forall x, x ∈ dom (px_pos p) -> x <> fd) by (intros x Hx ->; done).
  assert (Hph : forall x, x ∈ dom (px_pos p) -> priv_of v x <> h).
  { intros x Hx Ex. rewrite <- R8 in Hx. apply elem_of_dom in Hx as [m Hm]. apply R11 in Hm. rewrite Ex in Hm. congruence. }
  constructor; cbn [px_ns px_pos]; rewrite ?V1, ?dom_insert_L; try done.
  - intros pa q Hq. rewrite <- (R4 pa q Hq). by apply route_ext.
  - intros x pos fl [[<- [= <- <-]]|[Hx Hp]]%lookup_insert_Some; [rewrite Hpf; split_and!; try done; lia|]. rewrite V6, Hpr by done. by apply R5.
  - intros x Hx. destruct (Z.eq_dec x fd) as [->|Hxf]; [rewrite V5; set_solver|]. rewrite V6 by done. rewrite R6 by done. set_solver.
  - set_solver.
  - cbn. rewrite dom_insert_L. set_solver.
  - by rewrite V4.
  - intros x m. cbn. intros [[<- <-]|[Hx Hm]]%lookup_insert_Some; [rewrite Hpf; apply lookup_insert_eq|]. rewrite Hpr by done.
    rewrite lookup_insert_ne; [by apply R11|]. intros Ex. apply (Hph x); [|done]. rewrite <- R8. apply elem_of_dom. by exists m.
  - intros x y [->%elem_of_singleton|Hx]%elem_of_union [->%elem_of_singleton|Hy]%elem_of_union; [done| | |].
    + rewrite Hpf, Hpr by (by apply Hne). intros Ex. by destruct (Hph y Hy).
    + rewrite Hpf, Hpr by (by apply Hne). intros Ex. by destruct (Hph x Hx).
    + rewrite !Hpr by (by apply Hne). by apply R12.
Qed.

Lemma alloc_fd_ok v p s : vrel v p s ->
  exists fd v', alloc_fd v = Some (fd, v') /\
    (fd = E_NOMEM /\ vrel v' p s /\ (forall i, 0 <= i < VFS_MAX_FDS -> i ∈ dom (px_pos p) ∪ X) \/
     lowest_free (dom (px_pos p) ∪ X) fd /\ g_drv v' = g_drv v /\ g_ndrv v' = g_ndrv v /\ g_fd_lk v' = false /\ world v' = world v /\
     (forall x, x <> fd -> g_fd v' x = g_fd v x)).
Proof using Type.
  intros R. unfold alloc_fd, FD_LOCK. rewrite (vr_lock _ _ _ R). cbn [mbind option_bind g_fd]. pose proof (free_fd_spec (Z.to_nat VFS_MAX_FDS) (g_fd v) 0) as Hf.
  rewrite Z2Nat.id in Hf by done. destruct (free_fd _ (g_fd v) 0) as [j|].
  - destruct Hf as (Hj & Hu & Hk). eexists j, _. split; [done|right]. split_and!; try done.
    + split_and!; [lia..| |].
      * intros Hin%(vr_used _ _ _ R); [congruence|done].
      * intros i Hi. apply (vr_used _ _ _ R); [lia|]. by apply Hk.
    + intros x Hx. cbn. unfold upd. by rewrite (proj2 (Z.eqb_neq x j) Hx).
  - eexists _, _. split; [done|left]. split; [done|]. split; [by eapply vrel_other|]. intros i Hi. apply (vr_used _ _ _ R); [done|]. by apply Hf.
Qed.

(** The table entry goes back when the driver cannot open the file. *)
Lemma open_undo v v1 p s fd w' s' : vrel v p s -> lowest_free (dom (px_pos p) ∪ X) fd -> g_drv v1 = g_drv v -> g_ndrv v1 = g_ndrv v -> g_fd_lk v1 = false ->
  (forall x, x <> fd -> g_fd v1 x = g_fd v x) -> mounted G F (tw_fs w') s' -> ns_hdls s' = ns_hdls s ->
  forall e, used e = false -> vrel (set_fd (set_world v1 w') fd e) (PX (with_handles s' (ns_hdls (px_ns p))) (px_pos p)) s'.
Proof using AL.
  intros R (Hr & Hfree & _) V1 V2 V3 V6 M Eh e He. eapply (vrel_other (set_world v w')); [by eapply vrel_world|done|done|done|done| |].
  - intros x Hx. cbn. unfold upd. destruct (Z.eqb_spec x fd) as [->|]; [set_solver|by apply V6].
  - intros x Hx. cbn. unfold upd. destruct (Z.eqb_spec x fd) as [->|]; [|by rewrite V6]. rewrite He. symmetry. apply not_true_iff_false.
    by intros Hu%(vr_used _ _ _ R).
Qed.

Lemma vfs_open_ok v p s pa flags mode : vrel v p s -> path_pre rt pa -> ns_next s < 2 ^ 32 -> let now := tw_now (world v) in
  exists rc v' p' s', vfs_open v pa flags mode = Some (rc, v') /\ px_op rt X now p (VOpen pa flags mode) (VCode rc) p' /\ vrel v' p' s'.
Proof using AL.
  intros R Hpa Hn now. unfold vfs_open. cbn [px_op]. unfold path_pre in Hpa. destruct (rt pa) as [q|] eqn:Hq; [|done]. rewrite (vr_route _ _ _ R pa q Hq).
  rewrite (proj2 (Z.ltb_ge D 0)) by apply R. rewrite (vr_ops _ _ _ R). cbn [tmpfs_file_ops op_open].
  destruct (alloc_fd_ok v p s R) as (fd & v1 & -> & Hcase). cbn [mbind option_bind]. destruct Hcase as [(-> & R1 & Hfull)|(Hfd & V1 & V2 & V3 & V4 & V6)].
  { cbn. eexists _, v1, p, s. split; [done|]. split; [|done]. exists q. split; [done|]. by left. }
  pose proof Hfd as (Hr & Hfree & _). rewrite (proj2 (Z.ltb_ge fd 0)) by lia. rewrite V4.
  destruct (tf_open_ok G F _ s q flags mode now (vr_fs _ _ _ R) Hpa ltac:(lia)) as (r & t' & s' & E & (r1 & s1 & Hos & Hr1) & M). unfold now in E. rewrite E. cbn [lift mbind option_bind].
  pose proof (open_keeps_handles _ _ _ _ _ _ _ Hos) as Hk. pose proof (open_handles _ _ _ _ _ _ _ (ns_hdls (px_ns p)) Hos) as Hpx. rewrite <- (vr_ns _ _ _ R) in Hpx.
  assert (Hfail : forall e, r = inl e -> e < 0 -> s' = s1 ->
    match r1 with inl e' => VCode e = VCode e' | inr _ => VCode e = VCode E_NOMEM end ->
    exists rc v' p' s2, (if (let '(c, _) := ret 0 r in c) <? 0 then let e0 := g_fd (set_world v1 (TW t' now)) fd in
        Some (e, set_fd (set_world v1 (TW t' now)) fd (VFile false (f_drv e0) (f_priv e0) (f_pos e0) (f_flags e0))) else None) = Some (rc, v') /\
      (exists q0, Some q = Some q0 /\ px_open X now p q0 flags mode (VCode rc) p') /\ vrel v' p' s2).
  { intros e -> He -> Hm. cbn [ret]. rewrite (proj2 (Z.ltb_lt e 0) He). eexists _, _, _, s1. split; [done|].
    split; [|by apply (open_undo v v1 p s fd (TW t' now) s1 R Hfd V1 V2 V3 V6 M Hk)]. exists q. split; [done|]. right. exists fd, r1, (with_handles s1 (ns_hdls (px_ns p))).
    split_and!; [done|done|]. destruct r1; [by split|by left]. }
  destruct r1 as [e|n].
  - destruct Hr1 as [-> ->]. pose proof (open_codes _ _ _ _ _ _ _ Hos) as He. cbn [ret mbind option_bind]. rewrite (proj2 (Z.ltb_lt e 0) He).
    specialize (Hfail e eq_refl He eq_refl eq_refl). cbn [ret] in Hfail. by rewrite (proj2 (Z.ltb_lt e 0) He) in Hfail.
  - destruct Hr1 as [[-> ->]|(h & -> & Hh0 & Hh & ->)]; [exact (Hfail TMPFS_ENOMEM eq_refl ltac:(done) eq_refl eq_refl)|].
    cbn [ret mbind option_bind Z.ltb Z.compare TMPFS_OK]. rewrite Hk in M. eexists _, _, _, _. split; [done|]. split.
    + exists q. split; [done|]. right. exists fd, (inr n), (with_handles s1 (ns_hdls (px_ns p))). split_and!; [done|exact Hpx|]. by right.
    + eapply (vrel_new v p s1 s fd h n flags (TW t' now) R Hfree Hr Hk Hh M); try done.
      * cbn. unfold upd. by rewrite Z.eqb_refl.
      * intros x Hx. cbn. unfold upd. rewrite (proj2 (Z.eqb_neq x fd) Hx). by apply V6.
Qed.

(** A descriptor goes. *)
Lemma vrel_close v p s fd w' v' : vrel v p s -> fd ∈ dom (px_pos p) -> mounted G F (tw_fs w') (with_handles s (delete (priv_of v fd) (ns_hdls s))) ->
  g_drv v' = g_drv v -> g_ndrv v' = g_ndrv v -> g_fd_lk v' = false -> world v' = w' -> used (g_fd v' fd) = false -> (forall x, x <> fd -> g_fd v' x = g_fd v x) ->
  vrel v' (PX (with_handles (px_ns p) (delete fd (ns_hdls (px_ns p)))) (delete fd (px_pos p))) (with_handles s (delete (priv_of v fd) (ns_hdls s))).
Proof using AL.
  intros [R1 R2 R3 R4 R5 R6 R7 R8 R9 R10 R11 R12] Hfd M V1 V2 V3 V4 V5 V6.
  assert (Hpr : forall x, x <> fd -> priv_of v' x = priv_of v x) by (intros x Hx; unfold priv_of; by rewrite V6).
  constructor; cbn [px_ns px_pos]; rewrite ?V1, ?dom_delete_L; try done.
  - intros pa q Hq. rewrite <- (R4 pa q Hq). by apply route_ext.
  - intros x pos fl [Hx Hp]%lookup_delete_Some. rewrite V6, Hpr by done. by apply R5.
  - intros x Hx. destruct (Z.eq_dec x fd) as [->|Hxf]; [rewrite V5; set_solver|]. rewrite V6 by done. rewrite R6 by done. set_solver.
  - set_solver.
  - cbn. rewrite dom_delete_L. set_solver.
  - by rewrite V4.
  - by rewrite R10.
  - intros x m. cbn. intros [Hx Hm]%lookup_delete_Some. rewrite Hpr by done. rewrite lookup_delete_ne; [by apply R11|]. intros Ex. apply Hx.
    apply R12; [done| |done]. rewrite <- R8. apply elem_of_dom. by exists m.
  - intros x y [Hx Hxf%not_elem_of_singleton]%elem_of_difference [Hy Hyf%not_elem_of_singleton]%elem_of_difference. rewrite !Hpr by done. by apply R12.
Qed.

Lemma vfs_close_ok v p s fd : vrel v p s -> fd ∉ X ->
  exists v' p' s', vfs_close v fd = Some v' /\ px_op rt X (tw_now (world v)) p (VClose fd) (VCode 0) p' /\ vrel v' p' s'.
Proof using AL.
  intros R HX. cbn [px_op]. assert (Hout : px_pos p !! fd = None -> PX (with_handles (px_ns p) (delete fd (ns_hdls (px_ns p)))) (delete fd (px_pos p)) = p).
  { intros Hp. assert (Hh : ns_hdls (px_ns p) !! fd = None) by (apply not_elem_of_dom; rewrite (vr_dom _ _ _ R); by apply not_elem_of_dom).
    rewrite !delete_id by done. by destruct p as [[] ?]. }
  unfold vfs_close. destruct ((fd <? 0) || (VFS_MAX_FDS <=? fd)) eqn:Hr.
  { exists v, p, s. split_and!; [done|done| |done]. rewrite Hout; [done|]. destruct (px_pos p !! fd) as [[pos fl]|] eqn:Hp; [|done].
    destruct (vr_fd _ _ _ R fd pos fl Hp) as (Hb & _). apply orb_true_iff in Hr as [Hr%Z.ltb_lt|Hr%Z.leb_le]; lia. }
  apply orb_false_iff in Hr as [H1%Z.ltb_ge H2%Z.leb_gt]. unfold FD_LOCK. rewrite (vr_lock _ _ _ R). cbn [mbind option_bind g_fd]. destruct (used (g_fd v fd)) eqn:Hu; cbn [negb].
  - apply (vr_used _ _ _ R) in Hu; [|lia]. apply elem_of_union in Hu as [Hd|]; [|done]. pose proof Hd as Hd0. apply elem_of_dom in Hd0 as [[pos fl] Hp].
    destruct (vr_fd _ _ _ R fd pos fl Hp) as (_ & Ef & _). rewrite Ef. cbn [f_drv f_priv f_pos f_flags FD_UNLOCK set_fd g_drv world]. rewrite (vr_ops _ _ _ R). cbn [tmpfs_file_ops op_close].
    pose proof Hd as Hd0. rewrite <- (vr_dom _ _ _ R) in Hd0. apply elem_of_dom in Hd0 as [n Hn].
    destruct (tf_close_ok G F _ s (priv_of v fd) (vr_fs _ _ _ R)) as (t' & -> & M); [rewrite (vr_hdl _ _ _ R fd n Hn); done|]. cbn [mbind option_bind].
    eexists _, _, _. split; [done|]. split; [done|]. eapply (vrel_close v p s fd (TW t' (tw_now (world v)))); try done; [cbn; unfold upd; by rewrite Z.eqb_refl|].
    intros x Hx. cbn. unfold upd. by rewrite (proj2 (Z.eqb_neq x fd) Hx).
  - eexists _, p, s. split; [done|]. split; [split; [done|]|by eapply vrel_other]. rewrite Hout; [done|]. apply not_elem_of_dom. intros Hd.
    assert (used (g_fd v fd) = true); [apply (vr_used _ _ _ R); [lia|set_solver]|congruence].
Qed.

(** ** Paths *)

Lemma route_D v p s pa : vrel v p s -> path_pre rt pa -> exists q, rt pa = Some q /\ cbytes q /\ route v pa = (D, q) /\ (D <? 0) = false.
Proof using Type.
  intros R Hpa. unfold path_pre in Hpa. destruct (rt pa) as [q|] eqn:Hq; [|done]. exists q. split_and!; [done|done|by apply R|]. apply Z.ltb_ge, R.
Qed.

Lemma path_call v p s op c t' s' : vrel v p s -> path_op op -> ns_op (tw_now (world v)) s op (SCode c) s' -> mounted G F t' s' ->
  exists p' s2, px_path_op (tw_now (world v)) p op (VCode c) p' /\ vrel (set_world v (TW t' (tw_now (world v)))) p' s2.
Proof using Type.
  intros R Hop Hs M. destruct (path_op_handles _ _ _ _ _ (ns_hdls (px_ns p)) Hop Hs) as [Hpx Hh]. rewrite <- (vr_ns _ _ _ R) in Hpx.
  eexists _, s'. split; [|by apply (vrel_world v p s)]. by exists c, (with_handles s' (ns_hdls (px_ns p))).
Qed.

Lemma vfs_unlink_ok v p s pa : vrel v p s -> path_pre rt pa ->
  exists rc v' p' s', vfs_unlink v pa = Some (rc, v') /\ px_op rt X (tw_now (world v)) p (VUnlink pa) (VCode rc) p' /\ vrel v' p' s'.
Proof using AL.
  intros R Hpa. destruct (route_D _ _ _ _ R Hpa) as (q & Hq & Hb & Hr & HD). unfold vfs_unlink, on_path. rewrite Hr, HD, (vr_ops _ _ _ R). cbn [tmpfs_file_ops op_unlink].
  destruct (tf_unlink_ok G F _ s q (tw_now (world v)) (vr_fs _ _ _ R) Hb) as (c & t' & s' & -> & Hs & M). cbn [lift mbind option_bind].
  destruct (path_call v p s (OUnlink q) c t' s' R I ltac:(by exists c) M) as (p' & s2 & Hpx & R'). eexists _, _, p', s2. split; [done|]. split; [|done]. by exists q.
Qed.

Lemma vfs_mkdir_ok v p s pa mode : vrel v p s -> path_pre rt pa -> ns_next s < 2 ^ 32 ->
  exists rc v' p' s', vfs_mkdir v pa mode = Some (rc, v') /\ px_op rt X (tw_now (world v)) p (VMkdir pa mode) (VCode rc) p' /\ vrel v' p' s'.
Proof using AL.
  intros R Hpa Hn. destruct (route_D _ _ _ _ R Hpa) as (q & Hq & Hb & Hr & HD). unfold vfs_mkdir, on_path. rewrite Hr, HD, (vr_ops _ _ _ R). cbn [tmpfs_file_ops op_mkdir mbind option_bind].
  destruct (tf_mkdir_ok G F _ s q mode (tw_now (world v)) (vr_fs _ _ _ R) Hb ltac:(lia)) as (c & t' & s' & -> & Hs & M). cbn [lift mbind option_bind].
  destruct (path_call v p s (OMkdir q mode) c t' s' R I ltac:(by exists c) M) as (p' & s2 & Hpx & R'). eexists _, _, p', s2. split; [done|]. split; [|done]. by exists q.
Qed.

Lemma vfs_rmdir_ok v p s pa : vrel v p s -> path_pre rt pa -> ns_next s < 2 ^ 32 ->
  exists rc v' p' s', vfs_rmdir v pa = Some (rc, v') /\ px_op rt X (tw_now (world v)) p (VRmdir pa) (VCode rc) p' /\ vrel v' p' s'.
Proof using AL.
  intros R Hpa Hn. destruct (route_D _ _ _ _ R Hpa) as (q & Hq & Hb & Hr & HD). unfold vfs_rmdir, on_path. rewrite Hr, HD, (vr_ops _ _ _ R). cbn [tmpfs_file_ops op_rmdir].
  destruct (tf_rmdir_ok G F _ s q (tw_now (world v)) (vr_fs _ _ _ R) Hb Hn) as (c & t' & s' & -> & Hs & M). cbn [lift mbind option_bind].
  destruct (path_call v p s (ORmdir q) c t' s' R I ltac:(by exists c) M) as (p' & s2 & Hpx & R'). eexists _, _, p', s2. split; [done|]. split; [|done]. by exists q.
Qed.

(** Calls that leave the name space alone. *)
Lemma vrel_look v p s t' : vrel v p s -> mounted G F t' s -> vrel (set_world v (TW t' (tw_now (world v)))) p s.
Proof using Type.
  intros R M. pose proof (vrel_world v p s (TW t' (tw_now (world v))) s R M eq_refl) as R'. rewrite <- (vr_ns _ _ _ R) in R'. by destruct p.
Qed.

Lemma vfs_stat_ok v p s pa : vrel v p s -> path_pre rt pa ->
  exists rc st v', vfs_stat_path v pa = Some (rc, st, v') /\ vfs_lstat v pa = Some (rc, st, v') /\ px_op rt X (tw_now (world v)) p (VStat pa) (VStatus rc st) p /\ vrel v' p s.
Proof using AL.
  intros R Hpa. destruct (route_D _ _ _ _ R Hpa) as (q & Hq & Hb & Hr & HD). unfold vfs_stat_path, vfs_lstat. rewrite Hr, HD, (vr_ops _ _ _ R).
  cbn [tmpfs_file_ops op_stat op_lstat]. unfold tf_lstat. destruct (tf_stat_ok G F _ s q (vr_fs _ _ _ R) Hb) as (t' & -> & M). cbn [lift mbind option_bind].
  destruct (ret_some (stat_spec s q)) as [rc st] eqn:E. eexists _, _, _. split; [done|]. split; [done|]. split; [|by apply vrel_look]. exists q. split; [done|].
  rewrite (vr_ns _ _ _ R), stat_handles, E. done.
Qed.

Lemma vfs_readdir_ok v p s pa idx : vrel v p s -> path_pre rt pa -> 0 <= idx ->
  exists rc de v', vfs_readdir v pa idx = Some (rc, de, v') /\ px_op rt X (tw_now (world v)) p (VReaddir pa idx) (VEntry rc de) p /\ vrel v' p s.
Proof using AL.
  intros R Hpa Hi. destruct (route_D _ _ _ _ R Hpa) as (q & Hq & Hb & Hr & HD). unfold vfs_readdir. rewrite Hr, HD, (vr_ops _ _ _ R).
  cbn [tmpfs_file_ops op_readdir]. destruct (tf_readdir_ok G F _ s q idx (vr_fs _ _ _ R) Hb Hi) as (t' & -> & M). cbn [lift mbind option_bind].
  destruct (ret_some (readdir_spec s q idx)) as [rc de] eqn:E. eexists _, _, _. split; [done|]. split; [|by apply vrel_look]. exists q. split; [done|].
  rewrite (vr_ns _ _ _ R), readdir_handles, E. done.
Qed.

(** What tmpfs does not offer. *)
Lemma vfs_nosys v p s pa pb n : vrel v p s -> path_pre rt pa -> path_pre rt pb ->
  vfs_rename v pa pb = Some (E_NOSYS, v) /\ vfs_symlink v pa pb = Some (E_NOSYS, v) /\ vfs_readlink v pa n = Some (E_NOSYS, [], v).
Proof using Type.
  intros R Ha Hb. destruct (route_D _ _ _ _ R Ha) as (q & _ & _ & Ea & HD). destruct (route_D _ _ _ _ R Hb) as (q' & _ & _ & Eb & _).
  unfold vfs_rename, vfs_symlink, vfs_readlink, on_path. rewrite Ea, Eb, !HD, Z.eqb_refl, !(vr_ops _ _ _ R). done.
Qed.

Lemma resolve_node t s q n : mounted G F t s -> cbytes q -> ns_resolve s q = Some n -> is_Some (ns_nodes s !! n).
Proof using Type.
  intros (live & L & E & R) Hq Hr. destruct (path_resolve_spec G t s ∅ live F L E q R Hq) as (a & t' & _ & R' & Hf). rewrite Hr in Hf.
  destruct (found_node _ _ _ _ _ _ _ _ _ _ R' Hf) as (_ & _ & nd & Hn). by exists nd.
Qed.

Lemma vfs_path_truncate_ok v p s pa sz : vrel v p s -> path_pre rt pa -> 0 <= sz -> ns_next s < 2 ^ 32 ->
  exists rc v' p' s', vfs_path_truncate v pa sz = Some (rc, v') /\ px_op rt X (tw_now (world v)) p (VPathTruncate pa sz) (VCode rc) p' /\ vrel v' p' s'.
Proof using AL.
  intros R Hpa Hsz Hn. set (now := tw_now (world v)). destruct (route_D _ _ _ _ R Hpa) as (q & Hq & Hb & Hr & HD). unfold vfs_path_truncate. rewrite Hr, HD, (vr_ops _ _ _ R).
  cbn [tmpfs_file_ops op_path_truncate op_open op_truncate op_close].
  destruct (tf_open_ok G F _ s q VFS_O_WRONLY 0 now (vr_fs _ _ _ R) Hb ltac:(lia)) as (r & t1 & s1 & E1 & (r1 & s0 & Hos & Hr1) & M1). unfold now in E1. rewrite E1. cbn [lift mbind option_bind].
  cbn [px_op]. rewrite Hq. assert (Eres : ns_resolve (px_ns p) q = ns_resolve s q) by (rewrite (vr_ns _ _ _ R); apply resolve_handles).
  unfold open_spec in Hos. cbn [VFS_O_WRONLY VFS_O_CREAT Z.land Z.eqb] in Hos. destruct (ns_resolve s q) as [n|] eqn:Hres.
  2:{ destruct Hos as [-> ->]. destruct Hr1 as [-> ->]. cbn [ret mbind option_bind Z.ltb Z.compare TMPFS_ENOENT]. eexists _, _, p, s. split; [done|]. split; [|by apply vrel_look].
      exists q. split; [done|]. by rewrite Eres. }
  destruct Hos as [-> ->]. destruct Hr1 as [[-> ->]|(h & -> & Hh0 & Hh & ->)].
  { cbn [ret mbind option_bind Z.ltb Z.compare TMPFS_ENOMEM]. eexists _, _, p, s. split; [done|]. split; [|by apply vrel_look]. exists q. split; [done|]. rewrite Eres. by left. }
  cbn [ret mbind option_bind Z.ltb Z.compare TMPFS_OK tw_fs tw_now]. destruct (resolve_node _ _ _ _ (vr_fs _ _ _ R) Hb Hres) as [nd Hnd].
  assert (Hhn : ns_handle (with_handles s (<[h := n]> (ns_hdls s))) h = Some (n, nd)) by (unfold ns_handle; cbn; rewrite lookup_insert_eq; cbn; by rewrite Hnd).
  destruct (tf_file_ok G F t1 _ h n nd (FTruncate sz) now M1 Hhn Hsz) as (f & t2 & E2 & M2). destruct (tf_truncate_file _ _ _ _ _ _ E2) as (e & Ee & Ex). unfold now in Ee. rewrite Ee.
  cbn [lift mbind option_bind tw_fs tw_now]. set (nd' := snd (node_op now nd (FTruncate sz) f)) in *.
  destruct (tf_close_ok G F t2 _ h M2) as (t3 & -> & M3); [cbn; rewrite lookup_insert_eq; done|]. cbn [mbind option_bind].
  assert (Es : with_handles (ns_set (with_handles s (<[h := n]> (ns_hdls s))) n nd') (delete h (ns_hdls (ns_set (with_handles s (<[h := n]> (ns_hdls s))) n nd'))) = ns_set s n nd').
  { unfold with_handles, ns_set. cbn. by rewrite delete_insert_id by done. }
  rewrite Es in M3. eexists _, _, _, (ns_set s n nd'). split; [done|]. split; [|apply (vrel_world v p s (TW t3 now) (ns_set s n nd') R M3 eq_refl)].
  exists q. split; [done|]. rewrite Eres. right. exists nd, f. rewrite (vr_ns _ _ _ R). split_and!; [done| |done]. rewrite Ex. by destruct (Z.eqb_spec e TMPFS_OK) as [Ee0|]; [rewrite Ee0|].
Qed.
End props.
