(* ===== verification/VfsTheorems.v ===== *)
(** * The theorems about the virtual file system

    Sequences of calls against their meaning, the state after boot, and what
    a write followed by a read gives. *)

From stdpp Require Import base gmap list.
From Stdlib Require Import ZArith Lia.
From S2P Require Import Prelude Spinlock Kmalloc Allocator SchedExample Tmpfs TmpfsFile TmpfsProps TmpfsNs TmpfsWalk TmpfsRel TmpfsTree TmpfsOps TmpfsDir TmpfsVfs TmpfsNsProps TmpfsLinks TmpfsTheorems Vfs VfsRoute VfsTmpfs VfsProps.

(** ** Sequences *)

Inductive px_run (rt : list Z -> option (list Z)) (X : gset Z) : px -> list (v_op * Z) -> list v_res -> px -> Prop :=
  | px_nil p : px_run rt X p [] [] p
  | px_cons p op now ops r rs p1 p' : px_op rt X now p op r p1 -> px_run rt X p1 ops rs p' -> px_run rt X p ((op, now) :: ops) (r :: rs) p'.

Lemma open_next now s q flags mode r s' : open_spec now s q flags mode r s' -> ns_next s' <= ns_next s + 1.
Proof.
  unfold open_spec. destruct (ns_resolve s q); [intros [_ ->]; lia|]. destruct (_ =? 0); [intros [_ ->]; lia|]. destruct (ns_parent s q); [|intros [_ ->]; lia].
  destruct (_ =? 0)%nat; [intros [_ ->]; lia|]. apply create_next.
Qed.

Lemma file_next now p fd op r s' : px_file now p fd op r s' -> ns_next s' = ns_next (px_ns p).
Proof. by intros (n & nd & f & _ & _ & ->). Qed.

Lemma path_next now p op r p' : px_path_op now p op r p' -> ns_next (px_ns p') <= ns_next (px_ns p) + 1.
Proof. intros (c & s' & Hs & _ & ->). cbn. by eapply ns_op_next. Qed.

Lemma px_op_next rt X now p op r p' : px_op rt X now p op r p' -> ns_next (px_ns p') <= ns_next (px_ns p) + 1.
Proof.
  destruct op as [pa flags mode|fd|fd len|fd data|fd off whence|fd|fd sz|fd|pa|pa|pa|pa mode|pa|pa idx|pa pb|pa pb|pa n|pa sz]; cbn [px_op].
  - intros (q & _ & [(_ & -> & _)|(fd & r1 & s1 & _ & Hs%open_next & Hr)]); [lia|]. destruct r1; [destruct Hr as [_ ->]; done|]. by destruct Hr as [[_ ->]|[_ ->]].
  - intros [_ ->]. cbn. lia.
  - destruct (px_pos p !! fd) as [[pos fl]|]; [|intros [_ ->]; lia]. intros (r0 & s' & Hf%file_next & Hr). destruct r0; destruct Hr as [_ ->]; cbn; lia.
  - unfold px_write. destruct (px_pos p !! fd) as [[pos fl]|]; [|intros [_ ->]; lia]. intros (r0 & s' & Hf%file_next & Hr). destruct r0; destruct Hr as [_ ->]; cbn; lia.
  - destruct (px_pos p !! fd) as [[pos fl]|]; [|intros [_ ->]; lia]. destruct (seek_target p fd pos off whence) as [k|]; [destruct (k <? 0)|]; intros [_ ->]; cbn; lia.
  - intros [_ ->]. lia.
  - destruct (px_pos p !! fd) as [[pos fl]|]; [|intros [_ ->]; lia]. intros (r0 & s' & Hf%file_next & _ & ->). cbn. lia.
  - destruct (px_pos p !! fd) as [[pos fl]|]; [|intros [_ ->]; lia]. intros (n & nd & _ & _ & ->). lia.
  - intros (q & _ & _ & ->). lia.
  - intros (q & _ & _ & ->). lia.
  - intros (q & _ & Hp). by eapply path_next.
  - intros (q & _ & Hp). by eapply path_next.
  - intros (q & _ & Hp). by eapply path_next.
  - intros (q & _ & _ & ->). lia.
  - intros [_ ->]. lia.
  - intros [_ ->]. lia.
  - intros [_ ->]. lia.
  - intros (q & _ & Hr). destruct (ns_resolve (px_ns p) q); [|destruct Hr as [_ ->]; lia]. destruct Hr as [[_ ->]|(nd & f & _ & _ & ->)]; cbn; lia.
Qed.

Section theorems.
Context {A : Type} `{AL : AllocatorLaws A}.
Implicit Types (v : vfs (tworld A)) (p : px) (s : ns) (rt : list Z -> option (list Z)) (F X : gset Z).

Definition v_call v (op : v_op) : option (v_res * vfs (tworld A)) :=
  match op with
  | VOpen pa flags mode => '(rc, v) ← vfs_open v pa flags mode; Some (VCode rc, v)
  | VClose fd => v ← vfs_close v fd; Some (VCode 0, v)
  | VRead fd len => '(rc, l, v) ← vfs_read v fd len; Some (VData rc l, v)
  | VWrite fd data => '(rc, v) ← vfs_write v fd data; Some (VCode rc, v)
  | VSeek fd off whence => '(rc, v) ← vfs_seek v fd off whence; Some (VCode rc, v)
  | VTell fd => Some (VCode (vfs_tell v fd), v)
  | VTruncate fd sz => '(rc, v) ← vfs_truncate v fd sz; Some (VCode rc, v)
  | VFstat fd => '(rc, st, v) ← vfs_fstat v fd; Some (VStatus rc st, v)
  | VStat pa => '(rc, st, v) ← vfs_stat_path v pa; Some (VStatus rc st, v)
  | VLstat pa => '(rc, st, v) ← vfs_lstat v pa; Some (VStatus rc st, v)
  | VUnlink pa => '(rc, v) ← vfs_unlink v pa; Some (VCode rc, v)
  | VMkdir pa mode => '(rc, v) ← vfs_mkdir v pa mode; Some (VCode rc, v)
  | VRmdir pa => '(rc, v) ← vfs_rmdir v pa; Some (VCode rc, v)
  | VReaddir pa idx => '(rc, de, v) ← vfs_readdir v pa idx; Some (VEntry rc de, v)
  | VRename pa pb => '(rc, v) ← vfs_rename v pa pb; Some (VCode rc, v)
  | VSymlink pa pb => '(rc, v) ← vfs_symlink v pa pb; Some (VCode rc, v)
  | VReadlink pa n => '(rc, l, v) ← vfs_readlink v pa n; Some (VData rc l, v)
  | VPathTruncate pa sz => '(rc, v) ← vfs_path_truncate v pa sz; Some (VCode rc, v)
  end.

(** The clock is set before each call. *)
Definition at_time v (now : Z) : vfs (tworld A) := set_world v (TW (tw_fs (world v)) now).

Fixpoint v_run v (ops : list (v_op * Z)) : option (list v_res * vfs (tworld A)) :=
  match ops with
  | [] => Some ([], v)
  | (op, now) :: ops => '(r, v) ← v_call (at_time v now) op; '(rs, v) ← v_run v ops; Some (r :: rs, v)
  end.

Lemma v_call_sim D G F X rt v p s op : vrel D G F X rt v p s -> v_pre rt X p op -> ns_next s < 2 ^ 32 ->
  exists r v' p' s', v_call v op = Some (r, v') /\ px_op rt X (tw_now (world v)) p op r p' /\ vrel D G F X rt v' p' s'.
Proof using AL.
  intros R Hp Hn. destruct op as [pa flags mode|fd|fd len|fd data|fd off whence|fd|fd sz|fd|pa|pa|pa|pa mode|pa|pa idx|pa pb|pa pb|pa n|pa sz]; cbn [v_call].
  - destruct (vfs_open_ok D G F X rt v p s pa flags mode R Hp Hn) as (rc & v' & p' & s' & -> & Hs & R'). by eexists _, v', p', s'.
  - destruct (vfs_close_ok D G F X rt v p s fd R Hp) as (v' & p' & s' & -> & Hs & R'). by eexists _, v', p', s'.
  - destruct Hp as [Hf Hl]. destruct (vfs_read_ok D G F X rt v p s fd len R Hf Hl) as (rc & l & v' & p' & s' & -> & Hs & R'). by eexists _, v', p', s'.
  - destruct Hp as [Hf Hl]. destruct (vfs_write_ok D G F X rt v p s fd data R Hf Hl) as (rc & v' & p' & s' & -> & Hs & R'). by eexists _, v', p', s'.
  - destruct (vfs_seek_ok D G F X rt v p s fd off whence R Hp) as (rc & v' & p' & s' & -> & Hs & R'). by eexists _, v', p', s'.
  - eexists _, v, p, s. split; [done|]. split; [|done]. cbn. by rewrite (vfs_tell_ok D G F X rt v p s fd R Hp).
  - destruct Hp as [Hf Hl]. destruct (vfs_truncate_ok D G F X rt v p s fd sz R Hf Hl) as (rc & v' & p' & s' & -> & Hs & R'). by eexists _, v', p', s'.
  - destruct (vfs_fstat_ok D G F X rt v p s fd R Hp) as (rc & st & v' & -> & Hs & R'). by eexists _, v', p, s.
  - destruct (vfs_stat_ok D G F X rt v p s pa R Hp) as (rc & st & v' & -> & _ & Hs & R'). by eexists _, v', p, s.
  - destruct (vfs_stat_ok D G F X rt v p s pa R Hp) as (rc & st & v' & _ & -> & Hs & R'). by eexists _, v', p, s.
  - destruct (vfs_unlink_ok D G F X rt v p s pa R Hp) as (rc & v' & p' & s' & -> & Hs & R'). by eexists _, v', p', s'.
  - destruct (vfs_mkdir_ok D G F X rt v p s pa mode R Hp Hn) as (rc & v' & p' & s' & -> & Hs & R'). by eexists _, v', p', s'.
  - destruct (vfs_rmdir_ok D G F X rt v p s pa R Hp Hn) as (rc & v' & p' & s' & -> & Hs & R'). by eexists _, v', p', s'.
  - destruct Hp as [Hf Hl]. destruct (vfs_readdir_ok D G F X rt v p s pa idx R Hf Hl) as (rc & de & v' & -> & Hs & R'). by eexists _, v', p, s.
  - destruct Hp as [Ha Hb]. destruct (vfs_nosys D G F X rt v p s pa pb 0 R Ha Hb) as (-> & _). by eexists _, v, p, s.
  - destruct (route_D D G F X rt v p s pb R Hp) as (q & _ & _ & Er & HD). unfold vfs_symlink, on_path. rewrite Er, HD, (vr_ops _ _ _ _ _ _ _ _ R). by eexists _, v, p, s.
  - destruct (vfs_nosys D G F X rt v p s pa pa n R Hp Hp) as (_ & _ & ->). by eexists _, v, p, s.
  - destruct Hp as [Hf Hl]. destruct (vfs_path_truncate_ok D G F X rt v p s pa sz R Hf Hl Hn) as (rc & v' & p' & s' & -> & Hs & R'). by eexists _, v', p', s'.
Qed.

Lemma vrel_time D G F X rt v p s now : vrel D G F X rt v p s -> vrel D G F X rt (at_time v now) p s.
Proof using Type.
  intros R. pose proof (vrel_world D G F X rt v p s (TW (tw_fs (world v)) now) s R (vr_fs _ _ _ _ _ _ _ _ R) eq_refl) as R'. rewrite <- (vr_ns _ _ _ _ _ _ _ _ R) in R'. by destruct p.
Qed.

Lemma v_run_sim D G F X rt ops : forall v p s, vrel D G F X rt v p s -> ns_next s + Z.of_nat (length ops) < 2 ^ 32 ->
  exists k rs v' p' s', v_run v (take k ops) = Some (rs, v') /\ px_run rt X p (take k ops) rs p' /\ vrel D G F X rt v' p' s' /\
    (k = length ops \/ exists op now, ops !! k = Some (op, now) /\ ~ v_pre rt X p' op).
Proof using AL.
  assert (Hnx : forall v p s, vrel D G F X rt v p s -> ns_next (px_ns p) = ns_next s) by (intros v p s R; by rewrite (vr_ns _ _ _ _ _ _ _ _ R)).
  induction ops as [|[op now] ops IH]; intros v p s R Hn; [exists 0%nat, [], v, p, s; split_and!; [done|constructor|done|by left]|].
  destruct (decide (v_pre rt X p op)) as [Hp|Hp]; [|exists 0%nat, [], v, p, s; split_and!; [done|constructor|done|right; by exists op, now]].
  cbn [length] in Hn. destruct (v_call_sim D G F X rt (at_time v now) p s op (vrel_time _ _ _ _ _ _ _ _ now R) Hp ltac:(lia)) as (r & v1 & p1 & s1 & E1 & Hs & R1).
  pose proof (px_op_next _ _ _ _ _ _ _ Hs) as Hx. rewrite (Hnx _ _ _ R), (Hnx _ _ _ R1) in Hx.
  destruct (IH v1 p1 s1 R1 ltac:(lia)) as (k & rs & v' & p' & s' & E2 & Hr & R' & Hk). exists (S k), (r :: rs), v', p', s'. cbn [take v_run].
  rewrite E1, bind_some. cbv beta iota. rewrite E2. split_and!; [done|by econstructor|done|]. destruct Hk as [->|Hk]; [by left|by right].
Qed.

(** ** Boot *)

(** The paths that go to driver [D]. *)
Definition routed v (D : Z) (pa : list Z) : option (list Z) := let '(d, q) := route v pa in if d =? D then Some q else None.

Lemma routed_spec v D pa q : routed v D pa = Some q -> route v pa = (D, q).
Proof using Type. unfold routed. destruct (route v pa) as [d q']. by destruct (Z.eqb_spec d D) as [->|]; [intros [= ->]|]. Qed.

(** No descriptor is tmpfs's yet. *)
Lemma vrel_boot v G F X s : g_fd_lk v = false -> 0 <= g_ndrv v -> (forall fd, 0 <= fd < VFS_MAX_FDS -> used (g_fd v fd) = true <-> fd ∈ X) ->
  forall D, 0 <= D -> ops (g_drv v D) = tmpfs_file_ops -> mounted G F (tw_fs (world v)) s -> ns_hdls s = ∅ -> vrel D G F X (routed v D) v (PX s ∅) s.
Proof using Type.
  intros V1 V2 V3 D HD Ho M Eh. constructor; cbn [px_ns px_pos]; try done.
  - intros pa q. apply routed_spec.
  - intros fd Hfd. rewrite V3 by done. by rewrite dom_empty_L, union_empty_l_L.
  - rewrite Eh, dom_empty_L. done.
  - by destruct s.
  - intros fd n. by rewrite Eh.
Qed.

Lemma register_ok v F X : g_fd_lk v = false -> 0 <= g_ndrv v < VFS_MAX_DRIVERS -> unmounted F (tw_fs (world v)) ∅ ->
  (forall fd, 0 <= fd < VFS_MAX_FDS -> used (g_fd v fd) = true <-> fd ∈ X) ->
  let D := g_ndrv v in
  exists v', tmpfs_vfs_register v = Some v' /\
    (g_ndrv v' = D /\ unmounted F (tw_fs (world v')) ∅ \/
     g_ndrv v' = D + 1 /\ exists G, vrel D G F X (routed v' D) v' (PX (root_ns (tw_now (world v))) ∅) (root_ns (tw_now (world v)))).
Proof using AL.
  intros V1 V2 U V3 D. unfold tmpfs_vfs_register, vfs_register_driver. rewrite (proj2 (Z.leb_gt VFS_MAX_DRIVERS (g_ndrv v))) by lia. cbv zeta.
  cbn [set_drv set_ndrv world d_name mnt mnt_len umount_fn ops]. destruct (tf_mount_ok F _ (tw_now (world v)) U) as (r & t' & -> & Hr). cbn [lift mbind option_bind].
  destruct Hr as [[-> U']|(-> & G & M)]; cbn [Z.ltb Z.compare TMPFS_ENOMEM TMPFS_OK].
  - cbn [mbind option_bind]. eexists. split; [reflexivity|left]. split; [cbn; unfold D; lia|done].
  - cbn [mbind option_bind]. unfold vfs_set_driver_ops. cbn [set_drv set_world g_ndrv g_drv].
    assert (Hu : forall (f : Z -> drv (tworld A)) d, upd f (g_ndrv v) d (g_ndrv v) = d) by (intros f d; unfold upd; by rewrite Z.eqb_refl). rewrite !Hu. cbn [valid negb].
    change (g_ndrv (set_ndrv v (g_ndrv v + 1))) with (g_ndrv v + 1).
    rewrite (proj2 (Z.ltb_ge (g_ndrv v) 0)), (proj2 (Z.leb_gt (g_ndrv v + 1) (g_ndrv v))) by lia. cbn [orb]. eexists. split; [reflexivity|right]. split; [done|]. exists G.
    apply vrel_boot; try done; [cbn; lia|unfold D; lia|]. cbn. by rewrite Hu.
Qed.

(** ** A write, read back *)

Lemma patch_back off (data : list Z) g : map (fun i => patch off data g (off + Z.of_nat i)) (seq 0 (length data)) = data.
Proof using Type.
  apply list_eq. intros i. rewrite list_lookup_fmap. destruct (decide (i < length data)%nat) as [Hi|Hi].
  - destruct (lookup_lt_is_Some_2 data i Hi) as [x Hx]. rewrite lookup_seq_lt by done. cbn. rewrite Hx. f_equal. unfold patch. rewrite (proj2 (Z.leb_le off (off + Z.of_nat i))) by lia.
    rewrite (proj2 (Z.ltb_lt (off + Z.of_nat i) (off + Z.of_nat (length data)))) by lia. cbn. replace (Z.to_nat (off + Z.of_nat i - off)) with i by lia.
    by rewrite nth_lookup, Hx.
  - rewrite lookup_seq_ge by lia. cbn. symmetry. apply lookup_ge_None. lia.
Qed.

Lemma write_node now nd off data f k : fst (node_op now nd (FWrite off data) f) = RLen k ->
  let nd' := snd (node_op now nd (FWrite off data) f) in
  an_type nd' = TMPFS_T_REG /\ off + Z.of_nat (length data) <= an_size nd' /\ forall i, an_data nd' i = patch off data (an_data nd) i.
Proof using Type.
  unfold node_op. destruct (Z.eqb_spec (an_type nd) TMPFS_T_REG) as [Hty|]; cbn [negb]; [|done]. cbn. destruct (_ <? _); [done|]. destruct f; [done|]. cbn. intros _. split_and!; [done|lia|done].
Qed.

Lemma read_node now nd off data f (g : Z -> Z) : an_type nd = TMPFS_T_REG -> off + Z.of_nat (length data) <= an_size nd -> (forall i, an_data nd i = patch off data g i) ->
  fst (node_op now nd (FRead off (Z.of_nat (length data))) f) = RBytes data.
Proof using Type.
  intros Hty Hsz Hd. unfold node_op. rewrite Hty. cbn. f_equal. rewrite Z.min_l, Nat2Z.id by lia. rewrite <- (patch_back off data g) at 2. apply map_ext. intros i. apply Hd.
Qed.

Lemma fd_pre_set X p fd n nd nd' q : fd_pre X p fd -> ns_handle (px_ns p) fd = Some (n, nd) -> fd_pre X (PX (ns_set (px_ns p) n nd') q) fd.
Proof using Type.
  intros [HX _] Hh. split; [done|]. intros _. unfold ns_handle in *. cbn. apply bind_Some in Hh as (n' & -> & Hx). apply bind_Some in Hx as (nd0 & _ & [= -> ->]).
  cbn. rewrite lookup_insert_eq. done.
Qed.

Lemma handle_set p n nd nd' q fd : ns_handle (px_ns p) fd = Some (n, nd) -> ns_handle (px_ns (PX (ns_set (px_ns p) n nd') q)) fd = Some (n, nd').
Proof using Type.
  intros Hh. unfold ns_handle in *. cbn. apply bind_Some in Hh as (n' & -> & Hx). apply bind_Some in Hx as (nd0 & _ & [= -> ->]). cbn. by rewrite lookup_insert_eq.
Qed.

(** What was written through a descriptor is read back after seeking to
    where the write began. *)
Theorem vfs_write_read D G F X rt v p s fd pos fl data rc v1 : vrel D G F X rt v p s -> fd_pre X p fd -> px_pos p !! fd = Some (pos, fl) ->
  Z.land fl VFS_O_APPEND = 0 -> Z.of_nat (length data) < 2 ^ 63 -> vfs_write v fd data = Some (rc, v1) -> 0 <= rc ->
  rc = Z.of_nat (length data) /\ exists v2 v3, vfs_seek v1 fd pos SEEK_SET = Some (0, v2) /\ vfs_read v2 fd rc = Some (rc, data, v3).
Proof using AL.
  intros R Hpre Hp Hap Hlen Hw Hrc. destruct (vr_fd _ _ _ _ _ _ _ _ R fd pos fl Hp) as (_ & _ & Hpos).
  destruct (vfs_write_ok D G F X rt v p s fd data R Hpre Hlen) as (rc' & v' & p1 & s1 & E & Hs & R1). rewrite Hw in E. injection E as <- <-.
  cbn [px_op] in Hs. unfold px_write in Hs. rewrite Hp, Hap in Hs. cbn [Z.eqb] in Hs. destruct Hs as (r0 & s' & (n & nd & f & Hh & -> & ->) & Hr).
  pose proof (write_res (tw_now (world v)) nd pos data f ltac:(lia)) as Hres. destruct (fst (node_op _ nd (FWrite pos data) f)) as [l|k|e] eqn:Ef; [done| |destruct Hr as [[= ->] _]; lia].
  destruct (write_node _ _ _ _ _ _ Ef) as (Hty & Hsz & Hd). set (nd' := snd (node_op _ nd (FWrite pos data) f)) in *. destruct Hr as [[= ->] ->]. destruct Hres as [-> _]. split; [done|].
  set (p1 := PX (ns_set (px_ns p) n nd') (<[fd := (pos + Z.of_nat (length data), fl)]> (px_pos p))) in *.
  assert (Hp1 : px_pos p1 !! fd = Some (pos + Z.of_nat (length data), fl)) by apply lookup_insert_eq.
  destruct (vfs_seek_ok D G F X rt v1 p1 s1 fd pos SEEK_SET R1) as (c & v2 & p2 & s2 & E2 & Hs2 & R2); [split; [by eapply fd_pre_set|rewrite Hp1; cbn; lia]|].
  cbn [px_op] in Hs2. rewrite Hp1 in Hs2. cbn [seek_target SEEK_SET Z.eqb] in Hs2. rewrite (proj2 (Z.ltb_ge pos 0)) in Hs2 by lia. destruct Hs2 as [[= ->] ->].
  assert (Hh2 : ns_handle (px_ns p1) fd = Some (n, nd')) by (by eapply (handle_set p n nd nd')). set (p2 := PX (px_ns p1) (<[fd := (pos, fl)]> (px_pos p1))) in *.
  destruct (vfs_read_ok D G F X rt v2 p2 s2 fd (Z.of_nat (length data)) R2) as (c2 & l & v3 & p3 & s3 & E3 & Hs3 & _); [by eapply fd_pre_set|lia|].
  cbn [px_op] in Hs3. assert (Hp2 : px_pos p2 !! fd = Some (pos, fl)) by apply lookup_insert_eq. rewrite Hp2 in Hs3. destruct Hs3 as (r0 & s' & (n2 & nd2 & f2 & Hh3 & -> & ->) & Hr).
  assert (n2 = n /\ nd2 = nd') as [-> ->] by (change (px_ns p2) with (px_ns p1) in Hh3; split; congruence).
  rewrite (read_node _ nd' pos data f2 (an_data nd) Hty Hsz Hd) in Hr. destruct Hr as [[= -> ->] _]. by exists v2, v3.
Qed.

End theorems.

(** A path goes to the driver whose mount point is the longest that
    covers it, the last registered among equals; what the driver gets is the
    rest of the path without the slash between; without such a driver there
    is none. *)
Theorem route_longest {W : Type} (v : vfs W) path : table_ok v -> cbytes path -> 0 <= g_ndrv v ->
  let '(d, rel) := route v path in
  (d = -1 /\ forall i, 0 <= i < g_ndrv v -> valid (g_drv v i) = true -> ~ covers (mnt (g_drv v i)) path) \/
  (0 <= d < g_ndrv v /\ valid (g_drv v d) = true /\ covers (mnt (g_drv v d)) path /\
   (path = mnt (g_drv v d) ++ rel /\ (forall r, rel <> SLASH :: r) \/ path = mnt (g_drv v d) ++ SLASH :: rel) /\
   forall i, 0 <= i < g_ndrv v -> valid (g_drv v i) = true -> covers (mnt (g_drv v i)) path ->
     (length (mnt (g_drv v i)) < length (mnt (g_drv v d)))%nat \/ length (mnt (g_drv v i)) = length (mnt (g_drv v d)) /\ i <= d).
Proof. apply route_spec. Qed.

(** ** Instances *)

(** A root driver without operations at "/", as before tmpfs is registered. *)
Definition ex_root : drv (tworld Z) := Drv true [] [47] 1 None no_ops.

Definition ex_vfs : vfs (tworld Z) := Vfs (upd (fun _ => Drv false [] [] 0 None no_ops) 0 ex_root) 1 (fun _ => VFile false 0 0 0 0) false (TW ex_blank 1).

Definition ex_vfs1 : vfs (tworld Z) := default ex_vfs (tmpfs_vfs_register ex_vfs).

Definition tmp (l : list Z) : list Z := tmpfs_mnt ++ SLASH :: l.

Definition ex_calls : list (v_op * Z) :=
  [(VMkdir (tmp [100]) 493, 2); (VOpen (tmp [100; 47; 97]) VFS_O_CREAT 420, 3); (VWrite 0 [1; 2; 3], 4); (VSeek 0 1 SEEK_SET, 5); (VRead 0 9, 6); (VTell 0, 7);
   (VOpen (tmp [100; 47; 97]) VFS_O_APPEND 0, 8); (VWrite 1 [7], 9); (VSeek 1 (-2) SEEK_END, 10); (VRead 1 9, 11); (VClose 0, 12);
   (VOpen (tmp [100; 47; 98]) VFS_O_CREAT 420, 13); (VRename (tmp [100]) (tmp [101]), 14); (VReaddir (tmp [100]) 1, 15); (VPathTruncate (tmp [100; 47; 97]) 2, 16); (VFstat 1, 17);
   (VClose 1, 18); (VRead 1 1, 19); (VRmdir (tmp [100]), 20); (VUnlink (tmp [100; 47; 97]), 21); (VStat (tmp [100; 47; 97]), 22)].

Lemma ex_calls_run : fst <$> v_run ex_vfs1 ex_calls = Some
  [VCode 0; VCode 0; VCode 3; VCode 0; VData 2 [2; 3]; VCode 3; VCode 1; VCode 1; VCode 0; VData 2 [3; 7]; VCode 0; VCode 0; VCode E_NOSYS;
   VEntry 0 (Some (VDirent 3 VFS_DT_REG [97])); VCode 0; VStatus 0 (Some (Stat 3 4516 1 2 16 3)); VCode 0; VData E_BADF []; VCode TMPFS_ENOTEMPTY; VCode 0; VStatus TMPFS_ENOENT None].
Proof. vm_compute. reflexivity. Qed.

Lemma ex_fds fd : 0 <= fd < VFS_MAX_FDS -> used (g_fd ex_vfs fd) = true <-> fd ∈ (∅ : gset Z).
Proof. intros _. cbn. split; [done|set_solver]. Qed.

(** Calls that are within the contract in every state. *)
Definition ex_path_calls : list (v_op * Z) :=
  [(VMkdir (tmp [100]) 493, 2); (VOpen (tmp [100; 47; 97]) VFS_O_CREAT 420, 3); (VTell 0, 4); (VReaddir (tmp [100]) 0, 5);
   (VPathTruncate (tmp [100; 47; 97]) 2, 6); (VClose 0, 7); (VRmdir (tmp [100]), 8); (VUnlink (tmp [100; 47; 97]), 9); (VStat (tmp [100; 47; 97]), 10)].

Lemma ex_path_pre p : Forall (fun c => v_pre (routed ex_vfs1 1) ∅ p (fst c)) ex_path_calls.
Proof.
  assert (H1 : path_pre (routed ex_vfs1 1) (tmp [100])).
  { assert (E : routed ex_vfs1 1 (tmp [100]) = Some [100]) by (vm_compute; reflexivity). unfold path_pre. rewrite E. repeat constructor. }
  assert (H2 : path_pre (routed ex_vfs1 1) (tmp [100; 47; 97])).
  { assert (E : routed ex_vfs1 1 (tmp [100; 47; 97]) = Some [100; 47; 97]) by (vm_compute; reflexivity). unfold path_pre. rewrite E. repeat constructor. }
  assert (H3 : 0 ∉ (∅ : gset Z)) by apply not_elem_of_empty.
  assert (H4 : 0 <= 0) by lia. assert (H5 : 0 <= 2) by lia.
  unfold ex_path_calls. apply Forall_cons_2; [exact H1|]. apply Forall_cons_2; [exact H2|]. apply Forall_cons_2; [exact H3|].
  apply Forall_cons_2; [exact (conj H1 H4)|]. apply Forall_cons_2; [exact (conj H2 H5)|]. apply Forall_cons_2; [exact H3|].
  apply Forall_cons_2; [exact H1|]. apply Forall_cons_2; [exact H2|]. apply Forall_cons_2; [exact H2|]. apply Forall_nil_2.
Qed.

Lemma ex_path_run : fst <$> v_run ex_vfs1 ex_path_calls = Some
  [VCode 0; VCode 0; VCode 0; VEntry 0 (Some (VDirent 3 VFS_DT_REG [97])); VCode 0; VCode 0; VCode TMPFS_ENOTEMPTY; VCode 0; VStatus TMPFS_ENOENT None].
Proof. vm_compute. reflexivity. Qed.

Lemma ex_ndrv : g_ndrv ex_vfs1 = 2.
Proof. vm_compute. reflexivity. Qed.


Lemma ex_table : table_ok ex_vfs.
Proof. intros i Hi. cbn in Hi. assert (i = 0) as -> by lia. split; [|done]. cbn. repeat constructor. Qed.

Lemma route_longest_witness : route ex_vfs (tmp [97]) = (0, [116; 109; 112; 47; 97]) /\
  let '(d, rel) := route ex_vfs (tmp [97]) in
  (d = -1 /\ forall i, 0 <= i < g_ndrv ex_vfs -> valid (g_drv ex_vfs i) = true -> ~ covers (mnt (g_drv ex_vfs i)) (tmp [97])) \/
  (0 <= d < g_ndrv ex_vfs /\ valid (g_drv ex_vfs d) = true /\ covers (mnt (g_drv ex_vfs d)) (tmp [97]) /\
   (tmp [97] = mnt (g_drv ex_vfs d) ++ rel /\ (forall r, rel <> SLASH :: r) \/ tmp [97] = mnt (g_drv ex_vfs d) ++ SLASH :: rel) /\
   forall i, 0 <= i < g_ndrv ex_vfs -> valid (g_drv ex_vfs i) = true -> covers (mnt (g_drv ex_vfs i)) (tmp [97]) ->
     (length (mnt (g_drv ex_vfs i)) < length (mnt (g_drv ex_vfs d)))%nat \/ length (mnt (g_drv ex_vfs i)) = length (mnt (g_drv ex_vfs d)) /\ i <= d).
Proof. split; [vm_compute; reflexivity|]. apply (route_longest ex_vfs (tmp [97])); [exact ex_table|repeat constructor|done]. Defined.

(** The state with /tmp/a open as descriptor 0. *)
Definition ex_open1 : option (Z * vfs (tworld Z)) := vfs_open ex_vfs1 (tmp [97]) VFS_O_CREAT 420.
Definition ex_vfs2 : vfs (tworld Z) := from_option snd ex_vfs1 ex_open1.

Lemma ex_vfs1_rel : exists G, vrel 1 G ∅ ∅ (routed ex_vfs1 1) ex_vfs1 (PX (root_ns 1) ∅) (root_ns 1).
Proof.
  destruct (register_ok ex_vfs ∅ ∅ eq_refl ltac:(done) ex_blank_unmounted ex_fds) as (v1 & E & Hr). assert (En : g_ndrv <$> tmpfs_vfs_register ex_vfs = Some 2) by (vm_compute; reflexivity).
  unfold ex_vfs1. rewrite E in *. cbn in En. injection En as En. destruct Hr as [[Hr _]|[_ Hr]]; [rewrite Hr in En; done|]. exact Hr.
Qed.

Lemma open_node {A : Type} `{AL : AllocatorLaws A} G F (t : tmpfs A) now s q flags mode n s' : mounted G F t s -> cbytes q -> open_spec now s q flags mode (inr n) s' -> is_Some (ns_nodes s' !! n).
Proof.
  intros M Hq. unfold open_spec. destruct (ns_resolve s q) as [m|] eqn:Hr; [intros [[= ->] ->]; by eapply resolve_node|]. destruct (_ =? 0); [by intros []|].
  destruct (ns_parent s q) as [d|]; [|by intros []]. destruct (_ =? 0)%nat; [by intros []|]. intros (-> & nd & _ & _ & ->)%create_links. cbn. rewrite lookup_insert_is_Some'. right.
  rewrite lookup_insert_eq. done.
Qed.

Lemma ex_vfs2_rel : exists G p s, vrel 1 G ∅ ∅ (routed ex_vfs1 1) ex_vfs2 p s /\ fd_pre ∅ p 0 /\ px_pos p !! 0 = Some (0, VFS_O_CREAT).
Proof.
  destruct ex_vfs1_rel as [G R]. assert (Hr : routed ex_vfs1 1 (tmp [97]) = Some [97]) by (vm_compute; reflexivity). assert (Hb : cbytes [97]) by (repeat constructor).
  destruct (vfs_open_ok 1 G ∅ ∅ _ ex_vfs1 _ _ (tmp [97]) VFS_O_CREAT 420 R) as (rc & v & p & s & E & Hs & R2); [unfold path_pre; by rewrite Hr|done|].
  assert (Erc : fst <$> ex_open1 = Some 0) by (vm_compute; reflexivity). unfold ex_vfs2, ex_open1 in *. rewrite E in *. cbn in Erc. injection Erc as ->. cbn [from_option snd].
  exists G, p, s. split; [done|]. cbn [px_op] in Hs. destruct Hs as (q & Hq & Hs). rewrite Hr in Hq. injection Hq as <-. destruct Hs as [([=] & _)|(fd & r1 & s1 & (Hf1 & Hf2 & Hf3) & Hos & Hc)].
  destruct r1 as [e|n]; [exfalso; destruct Hc as [He _]; injection He as He; apply open_codes in Hos; clear -He Hos; lia|]. destruct Hc as [[[=] _]|[[= <-] ->]]. cbn [px_pos]. rewrite lookup_insert_eq. split; [|done].
  split; [set_solver|]. intros _. unfold ns_handle. cbn. rewrite lookup_insert_eq. cbn. destruct (open_node G ∅ _ _ _ _ _ _ _ _ (vr_fs _ _ _ _ _ _ _ _ R) Hb Hos) as [nd ->]. done.
Qed.

Lemma ex_write : fst <$> vfs_write ex_vfs2 0 [1; 2; 3] = Some 3.
Proof. vm_compute. reflexivity. Qed.

Lemma vfs_write_read_witness : exists rc v1, vfs_write ex_vfs2 0 [1; 2; 3] = Some (rc, v1) /\ rc = 3 /\
  exists v2 v3, vfs_seek v1 0 0 SEEK_SET = Some (0, v2) /\ vfs_read v2 0 rc = Some (rc, [1; 2; 3], v3).
Proof.
  destruct ex_vfs2_rel as (G & p & s & R & Hpre & Hp). pose proof ex_write as Hw. apply fmap_Some in Hw as ([rc v1] & E & Hrc). cbn [fst] in Hrc. subst rc. exists 3, v1. split; [exact E|].
  apply (vfs_write_read 1 G ∅ ∅ (routed ex_vfs1 1) ex_vfs2 p s 0 0 VFS_O_CREAT [1; 2; 3] 3 v1 R Hpre Hp); [reflexivity|reflexivity|exact E|clear; lia].
Defined.
