(* ===== verification/TyGate.v ===== *)
(** * TYKID: the driver gate

    Reading of driver files through the virtual file system, the registry
    scan, the choice of drivers by hardware, loading with its integrity
    check, the calls that unload, blacklist, recheck and revoke, and the
    approval of the drivers that are linked into the kernel.

    The state is the context [tykid_gate_ctx] and the environment [env]: the
    file that [kobalt_vfs_read_binary] keeps open, the virtual file system,
    and the rest of the kernel ([X]: module loader, clock, heap).  The
    configured callbacks and the clock are arguments.  Drivers are named by
    their index in the registry.  [None] is undefined behaviour or a loop
    over the file system that does not end within the fuel.

    Sources: security/tykid/src/tykid_gate.c, tykid_core.c,
    tykid_registry.c, tykid_selector.c, tykid_kobalt_glue.c. *)

From Stdlib Require Import String.
From stdpp Require Import base list.
From Stdlib Require Import ZArith Lia.
From S2P Require Import Prelude TyCrypto Tykid TyDeps TyManifest TmpfsNs Vfs.

Definition VFS_O_RDONLY : Z := 0.

Definition TYKID_ERR_ALLOC : Z := -7.

(** ** Seal *)

Definition KOBALT_KERNEL_IDENT : Z := 0xA3F7C219DE40B851.
Definition TYKID_KOBALT_EXPECTED : Z := Z.lxor KOBALT_KERNEL_IDENT 0x4B4F424C54494459.
Definition TY_CTX_MAGIC_A : Z := Z.lxor 0xDEAD4B42 (u32 TYKID_KOBALT_EXPECTED).
Definition TY_CTX_MAGIC_B : Z := Z.lxor 0xBEEF0000 (u32 (Z.shiftr TYKID_KOBALT_EXPECTED 32)).

(** ** State *)

Record totals := TOT { t_loaded : Z; t_skipped : Z; t_failed : Z; t_blocked : Z; t_revoked : Z; t_rechecks : Z }.

Record tykid_gate_ctx := CTX {
  magic_a : Z; magic_b : Z; seal_check : Z; session_key : list Z; hmac_key : list Z;
  probed : bool; probe_hash : Z; reg : list tykid_driver_desc_t; deps : ty_dep_graph_t;
  essential_mask : Z; tot : totals }.

Implicit Types (c : tykid_gate_ctx) (d : tykid_driver_desc_t).

Definition with_reg c r : tykid_gate_ctx :=
  CTX (magic_a c) (magic_b c) (seal_check c) (session_key c) (hmac_key c) (probed c) (probe_hash c) r (deps c) (essential_mask c) (tot c).
Definition with_graph c r g : tykid_gate_ctx :=
  CTX (magic_a c) (magic_b c) (seal_check c) (session_key c) (hmac_key c) (probed c) (probe_hash c) r g (essential_mask c) (tot c).
Definition with_tot c t : tykid_gate_ctx :=
  CTX (magic_a c) (magic_b c) (seal_check c) (session_key c) (hmac_key c) (probed c) (probe_hash c) (reg c) (deps c) (essential_mask c) t.
Definition with_probe c p h : tykid_gate_ctx :=
  CTX (magic_a c) (magic_b c) (seal_check c) (session_key c) (hmac_key c) p h (reg c) (deps c) (essential_mask c) (tot c).
Definition with_mask c m : tykid_gate_ctx :=
  CTX (magic_a c) (magic_b c) (seal_check c) (session_key c) (hmac_key c) (probed c) (probe_hash c) (reg c) (deps c) m (tot c).
Definition with_drv c (i : nat) d : tykid_gate_ctx := with_reg c (<[i := d]> (reg c)).

Definition add_loaded c : tykid_gate_ctx := let t := tot c in
  with_tot c (TOT (u32 (t_loaded t + 1)) (t_skipped t) (t_failed t) (t_blocked t) (t_revoked t) (t_rechecks t)).
Definition add_skipped c n : tykid_gate_ctx := let t := tot c in
  with_tot c (TOT (t_loaded t) (u32 (t_skipped t + n)) (t_failed t) (t_blocked t) (t_revoked t) (t_rechecks t)).
Definition add_failed c : tykid_gate_ctx := let t := tot c in
  with_tot c (TOT (t_loaded t) (t_skipped t) (u32 (t_failed t + 1)) (t_blocked t) (t_revoked t) (t_rechecks t)).
Definition add_blocked c : tykid_gate_ctx := let t := tot c in
  with_tot c (TOT (t_loaded t) (t_skipped t) (t_failed t) (u32 (t_blocked t + 1)) (t_revoked t) (t_rechecks t)).
Definition add_revoked c : tykid_gate_ctx := let t := tot c in
  with_tot c (TOT (t_loaded t) (t_skipped t) (t_failed t) (t_blocked t) (u32 (t_revoked t + 1)) (t_rechecks t)).
Definition add_recheck c : tykid_gate_ctx := let t := tot c in
  with_tot c (TOT (t_loaded t) (t_skipped t) (t_failed t) (t_blocked t) (t_revoked t) (u32 (t_rechecks t + 1))).

(** The fields of a descriptor that change after the scan. *)
Definition dyn d (flags : Z) (s : tykid_drv_state_t) (threat ts base : Z) : tykid_driver_desc_t :=
  DRV (dr_name d) (dr_path d) (hw_classes d) (vendor_mask d) (device_mask d) flags (version_major d) (version_minor d)
      (dr_deps d) (dr_priority d) (dr_hmac d) s threat ts base (cert_der d) (sig_der d).
Definition set_state d (s : tykid_drv_state_t) : tykid_driver_desc_t := dyn d (dr_flags d) s (threat_class d) (load_timestamp d) (base_vaddr d).
Definition add_flag d (bit : Z) : tykid_driver_desc_t := dyn d (Z.lor (dr_flags d) bit) (dr_state d) (threat_class d) (load_timestamp d) (base_vaddr d).
Definition set_base d (b : Z) : tykid_driver_desc_t := dyn d (dr_flags d) (dr_state d) (threat_class d) (load_timestamp d) b.
Definition set_blocked d (threat : Z) : tykid_driver_desc_t :=
  dyn d (Z.lor (dr_flags d) TYKID_DRV_FLAG_BLACKLISTED) TYKID_DRV_STATE_BLOCKED threat (load_timestamp d) (base_vaddr d).
Definition set_active d (base ts : Z) : tykid_driver_desc_t := dyn d (dr_flags d) TYKID_DRV_STATE_ACTIVE (threat_class d) ts base.

#[global] Instance drv_state_eq_dec : EqDecision tykid_drv_state_t.
Proof. solve_decision. Defined.

Definition state_is d (s : tykid_drv_state_t) : bool := bool_decide (dr_state d = s).

(** ** Calls that only read or write the context *)

Definition ty_ctx_poison c : tykid_gate_ctx :=
  CTX 0 0 0 (replicate 32 0) (replicate 32 0) (probed c) (probe_hash c) (reg c) (deps c) (essential_mask c) (tot c).

Definition ty_find_driver_by_name c (name : list Z) : Z := find_driver (reg c) 0 name.

Definition tykid_verify_seal c : Z :=
  let ok_a := ty_memeq (ty_put_u32le (magic_a c)) (ty_put_u32le TY_CTX_MAGIC_A) 4 in
  let ok_b := ty_memeq (ty_put_u32le (magic_b c)) (ty_put_u32le TY_CTX_MAGIC_B) 4 in
  let ok_s := ty_memeq (ty_put_u64le (seal_check c)) (ty_put_u64le TYKID_KOBALT_EXPECTED) 8 in
  if negb (ok_a && ok_b && ok_s) then TYKID_ERR_SEAL_BROKEN else TYKID_OK.

Definition tykid_driver_state c (name : list Z) : tykid_drv_state_t :=
  let i := ty_find_driver_by_name c name in
  if i <? 0 then TYKID_DRV_STATE_ABSENT else default TYKID_DRV_STATE_ABSENT (dr_state <$> reg c !! Z.to_nat i).

Definition tykid_active_driver_count c : Z := Z.of_nat (length (filter (fun d => dr_state d = TYKID_DRV_STATE_ACTIVE) (reg c))).

Definition tykid_blacklist_driver c (name : list Z) : option (Z * tykid_gate_ctx) :=
  let i := ty_find_driver_by_name c name in
  if i <? 0 then Some (TYKID_ERR_NO_DRIVER, c) else
  d ← reg c !! Z.to_nat i;
  Some (TYKID_OK, with_drv c (Z.to_nat i) (add_flag d TYKID_DRV_FLAG_BLACKLISTED)).

(** ** Which drivers the hardware needs (tykid_selector.c) *)

Definition TY_ESSENTIAL_PCI_BUS : Z := 0x001.
Definition TY_ESSENTIAL_ACPI : Z := 0x002.
Definition TY_ESSENTIAL_INTERRUPT : Z := 0x004.
Definition TY_ESSENTIAL_TIMER : Z := 0x008.
Definition TY_ESSENTIAL_STORAGE_NVME : Z := 0x010.
Definition TY_ESSENTIAL_STORAGE_SATA : Z := 0x020.
Definition TY_ESSENTIAL_USB_HOST : Z := 0x040.
Definition TY_ESSENTIAL_NIC : Z := 0x080.
Definition TY_ESSENTIAL_FRAMEBUF : Z := 0x100.
Definition TY_ESSENTIAL_KBD : Z := 0x200.
Definition TY_ESSENTIAL_SMBUS : Z := 0x400.
Definition TY_ESSENTIAL_IOMMU : Z := 0x800.

(** Class code, mask, flag. *)
Definition ty_class_map : list (Z * Z * Z) :=
  [(0x010802, 0xFFFFFF, TY_ESSENTIAL_STORAGE_NVME); (0x010601, 0xFFFFFF, TY_ESSENTIAL_STORAGE_SATA);
   (0x010100, 0xFFFF00, TY_ESSENTIAL_STORAGE_SATA); (0x010000, 0xFFFF00, TY_ESSENTIAL_STORAGE_SATA);
   (0x018000, 0xFFFF00, TY_ESSENTIAL_STORAGE_SATA); (0x020000, 0xFF0000, TY_ESSENTIAL_NIC);
   (0x030000, 0xFFFF00, TY_ESSENTIAL_FRAMEBUF); (0x060400, 0xFFFF00, TY_ESSENTIAL_PCI_BUS);
   (0x060000, 0xFFFF00, TY_ESSENTIAL_PCI_BUS); (0x0C0330, 0xFFFFFF, TY_ESSENTIAL_USB_HOST);
   (0x0C0320, 0xFFFFFF, TY_ESSENTIAL_USB_HOST); (0x0C0310, 0xFFFFFF, TY_ESSENTIAL_USB_HOST);
   (0x0C0500, 0xFFFF00, TY_ESSENTIAL_SMBUS); (0x080600, 0xFFFF00, TY_ESSENTIAL_IOMMU);
   (0x080000, 0xFFFF00, TY_ESSENTIAL_INTERRUPT); (0x080100, 0xFFFF00, TY_ESSENTIAL_INTERRUPT);
   (0x080300, 0xFFFF00, TY_ESSENTIAL_TIMER); (0x080400, 0xFFFF00, TY_ESSENTIAL_TIMER)].

(** Vendor, device, flag. *)
Definition ty_vid_did_map : list (Z * Z * Z) :=
  [(0x8086, 0x0F18, TY_ESSENTIAL_KBD); (0x8086, 0x9D2B, TY_ESSENTIAL_KBD);
   (0x1022, 0x1481, TY_ESSENTIAL_IOMMU); (0x1022, 0x1577, TY_ESSENTIAL_IOMMU);
   (0x10EC, 0x5765, TY_ESSENTIAL_STORAGE_NVME); (0x106B, 0x2003, TY_ESSENTIAL_STORAGE_NVME);
   (0x1AF4, 0x1042, TY_ESSENTIAL_STORAGE_SATA); (0x1AF4, 0x1001, TY_ESSENTIAL_STORAGE_SATA);
   (0x1AF4, 0x1045, TY_ESSENTIAL_STORAGE_SATA); (0x1AF4, 0x105A, TY_ESSENTIAL_STORAGE_SATA);
   (0x1AF4, 0x1041, TY_ESSENTIAL_NIC); (0x1AF4, 0x1000, TY_ESSENTIAL_NIC);
   (0x8086, 0x100E, TY_ESSENTIAL_NIC); (0x8086, 0x1015, TY_ESSENTIAL_NIC);
   (0x8086, 0x1016, TY_ESSENTIAL_NIC); (0x8086, 0x1017, TY_ESSENTIAL_NIC);
   (0x8086, 0x101E, TY_ESSENTIAL_NIC); (0x8086, 0x100F, TY_ESSENTIAL_NIC);
   (0x8086, 0x1011, TY_ESSENTIAL_NIC); (0x8086, 0x1026, TY_ESSENTIAL_NIC);
   (0x8086, 0x1027, TY_ESSENTIAL_NIC); (0x8086, 0x1028, TY_ESSENTIAL_NIC);
   (0x8086, 0x1010, TY_ESSENTIAL_NIC); (0x8086, 0x1012, TY_ESSENTIAL_NIC);
   (0x8086, 0x107D, TY_ESSENTIAL_NIC); (0x8086, 0x107E, TY_ESSENTIAL_NIC);
   (0x8086, 0x108B, TY_ESSENTIAL_NIC); (0x8086, 0x108C, TY_ESSENTIAL_NIC);
   (0x8086, 0x109A, TY_ESSENTIAL_NIC); (0x8086, 0x150C, TY_ESSENTIAL_NIC);
   (0x8086, 0x10EA, TY_ESSENTIAL_NIC); (0x8086, 0x10EB, TY_ESSENTIAL_NIC);
   (0x8086, 0x10EF, TY_ESSENTIAL_NIC); (0x8086, 0x10F0, TY_ESSENTIAL_NIC);
   (0x8086, 0x1502, TY_ESSENTIAL_NIC); (0x8086, 0x1503, TY_ESSENTIAL_NIC)].

Definition TYKID_HW_CLASS_ANY : Z := 0.
Definition NEVER : Z := 0xFFFFFFFF.

(** Driver class, flag: bridges, NVMe, SATA, USB storage, network, xHCI,
    display, keyboard, SMBus, IOMMU, audio, thermal, Bluetooth. *)
Definition ty_drv_class_map : list (Z * Z) :=
  [(TYKID_HW_CLASS_ANY, 0); (0xFF000001, TY_ESSENTIAL_PCI_BUS); (0x00040001, TY_ESSENTIAL_STORAGE_NVME);
   (0x00040002, TY_ESSENTIAL_STORAGE_SATA); (0x00040003, TY_ESSENTIAL_USB_HOST); (0x00020003, TY_ESSENTIAL_NIC);
   (0x00050001, TY_ESSENTIAL_USB_HOST); (0x00010001, TY_ESSENTIAL_FRAMEBUF); (0x00060001, TY_ESSENTIAL_KBD);
   (0x00070001, TY_ESSENTIAL_SMBUS); (0x000B0001, TY_ESSENTIAL_IOMMU); (0x00030001, NEVER); (0x00080001, NEVER); (0x000C0001, NEVER)].

Record tykid_hw_enumset_t := HW { devices : list tykid_hw_device_t; iommu_active : bool }.

Definition ty_pci_class_of (dev : tykid_hw_device_t) : Z := Z.land (class_code dev) 0x00FFFFFF.

Definition class_flags (code mask : Z) : Z :=
  fold_left (fun mask '(cc, cm, flag) => if Z.land code cm =? Z.land cc cm then Z.lor mask flag else mask) ty_class_map mask.
Definition id_flags (dev : tykid_hw_device_t) (mask : Z) : Z :=
  fold_left (fun mask '(v, dv, flag) => if (u16 (vendor_id dev) =? v) && (u16 (device_id dev) =? dv) then Z.lor mask flag else mask) ty_vid_did_map mask.

Definition ty_selector_compute_mask (hw : tykid_hw_enumset_t) : Z :=
  let mask := Z.lor (Z.lor (Z.lor TY_ESSENTIAL_ACPI TY_ESSENTIAL_INTERRUPT) TY_ESSENTIAL_TIMER) TY_ESSENTIAL_KBD in
  match devices hw with
  | [] => mask
  | l =>
    let mask := fold_left (fun mask dev => id_flags dev (class_flags (ty_pci_class_of dev) mask)) l mask in
    let mask := if iommu_active hw then Z.lor mask TY_ESSENTIAL_IOMMU else mask in
    if negb (Z.land mask TY_ESSENTIAL_IOMMU =? 0) then mask else
    let mask := if negb (Z.land mask TY_ESSENTIAL_NIC =? 0) then Z.land mask (Z.lnot TY_ESSENTIAL_NIC) else mask in
    if negb (Z.land mask TY_ESSENTIAL_USB_HOST =? 0) then Z.land mask (Z.lnot TY_ESSENTIAL_USB_HOST) else mask
  end.

Fixpoint needed_loop (tab : list (Z * Z)) d (mask : Z) : bool :=
  match tab with
  | [] => true
  | (cls, flag) :: tab =>
    if existsb (Z.eqb cls) (take 8 (hw_classes d)) || ((cls =? TYKID_HW_CLASS_ANY) && (length (hw_classes d) =? 0)%nat) then
      if flag =? 0 then true else if flag =? NEVER then false else negb (Z.land mask flag =? 0)
    else needed_loop tab d mask
  end.
Definition ty_selector_driver_needed d (mask : Z) : bool := needed_loop ty_drv_class_map d mask.

Definition tykid_compute_essential_mask c (hw : tykid_hw_enumset_t) : Z * tykid_gate_ctx :=
  let mask := ty_selector_compute_mask hw in (mask, with_mask c mask).

Definition skip_one (mask : Z) d : tykid_driver_desc_t :=
  if state_is d TYKID_DRV_STATE_ACTIVE then d else
  if negb (state_is d TYKID_DRV_STATE_REGISTERED) then d else
  if ty_selector_driver_needed d mask then d else set_state d TYKID_DRV_STATE_SKIPPED.

Definition skips (mask : Z) (l : list tykid_driver_desc_t) : Z :=
  Z.of_nat (length (filter (fun d => state_is d TYKID_DRV_STATE_REGISTERED && negb (ty_selector_driver_needed d mask) = true) l)).

(** [load_ne] is [cfg.load_non_essential]. *)
Definition ty_selector_apply (load_ne : bool) c : tykid_gate_ctx :=
  if load_ne then c else
  add_skipped (with_reg c (map (skip_one (essential_mask c)) (reg c))) (skips (essential_mask c) (reg c)).

(** ** Drivers linked into the kernel (tykid_kobalt_glue.c) *)

Definition TYKID_DRV_FLAG_CRITICAL : Z := 0x1.

Definition TYKID_HW_AUDIO_HDA : Z := 0x00030001.
Definition TYKID_HW_AUDIO_USB : Z := 0x00030002.
Definition TYKID_HW_BT : Z := 0x000C0001.
Definition TYKID_HW_CLASS_STORAGE_USB : Z := 0x00040003.
Definition TYKID_HW_GPU_UHD : Z := 0x00010001.
Definition TYKID_HW_INPUT_KBD : Z := 0x00060001.
Definition TYKID_HW_INPUT_MOUSE : Z := 0x00060002.
Definition TYKID_HW_NIC_GENERIC : Z := 0x00020003.
Definition TYKID_HW_NIC_INTEL : Z := 0x00020002.
Definition TYKID_HW_STORAGE_NVME : Z := 0x00040001.
Definition TYKID_HW_STORAGE_SATA : Z := 0x00040002.
Definition TYKID_HW_USB_EHCI : Z := 0x00050002.
Definition TYKID_HW_USB_XHCI : Z := 0x00050001.

Record ty_builtin_t := BI { bi_name : string; bi_class : Z; bi_flags : Z; is_critical : bool }.

Definition flag_set (l : list Z) : Z := fold_left Z.lor l 0.

Definition TY_BUILTINS : list ty_builtin_t :=
  [BI "uart"%string TYKID_HW_UNKNOWN (flag_set [TYKID_DRV_FLAG_CRITICAL; TYKID_DRV_FLAG_SINGLETON; TYKID_DRV_FLAG_VERIFIED]) true;
   BI "vga"%string TYKID_HW_GPU_UHD (flag_set [TYKID_DRV_FLAG_CRITICAL; TYKID_DRV_FLAG_SINGLETON; TYKID_DRV_FLAG_VERIFIED; TYKID_DRV_FLAG_FALLBACK]) true;
   BI "pci"%string TYKID_HW_UNKNOWN (flag_set [TYKID_DRV_FLAG_CRITICAL; TYKID_DRV_FLAG_SINGLETON; TYKID_DRV_FLAG_VERIFIED]) true;
   BI "ps2kbd"%string TYKID_HW_INPUT_KBD (flag_set [TYKID_DRV_FLAG_CRITICAL; TYKID_DRV_FLAG_SINGLETON; TYKID_DRV_FLAG_VERIFIED; TYKID_DRV_FLAG_FALLBACK]) true;
   BI "blkdev"%string TYKID_HW_UNKNOWN (flag_set [TYKID_DRV_FLAG_CRITICAL; TYKID_DRV_FLAG_SINGLETON; TYKID_DRV_FLAG_VERIFIED]) true;
   BI "virtio-net"%string TYKID_HW_NIC_GENERIC (flag_set [TYKID_DRV_FLAG_SINGLETON; TYKID_DRV_FLAG_VERIFIED; TYKID_DRV_FLAG_FALLBACK]) false;
   BI "e1000"%string TYKID_HW_NIC_INTEL (flag_set [TYKID_DRV_FLAG_SINGLETON; TYKID_DRV_FLAG_VERIFIED; TYKID_DRV_FLAG_FALLBACK]) false;
   BI "igc"%string TYKID_HW_NIC_INTEL (flag_set [TYKID_DRV_FLAG_SINGLETON; TYKID_DRV_FLAG_VERIFIED; TYKID_DRV_FLAG_FALLBACK]) false;
   BI "ixgbe"%string TYKID_HW_NIC_INTEL (flag_set [TYKID_DRV_FLAG_SINGLETON; TYKID_DRV_FLAG_VERIFIED; TYKID_DRV_FLAG_FALLBACK]) false;
   BI "usb_cdc"%string TYKID_HW_NIC_GENERIC (flag_set [TYKID_DRV_FLAG_SINGLETON; TYKID_DRV_FLAG_VERIFIED]) false;
   BI "usb_rndis"%string TYKID_HW_NIC_GENERIC (flag_set [TYKID_DRV_FLAG_SINGLETON; TYKID_DRV_FLAG_VERIFIED]) false;
   BI "ahci"%string TYKID_HW_STORAGE_SATA (flag_set [TYKID_DRV_FLAG_SINGLETON; TYKID_DRV_FLAG_VERIFIED; TYKID_DRV_FLAG_FALLBACK]) false;
   BI "nvme"%string TYKID_HW_STORAGE_NVME (flag_set [TYKID_DRV_FLAG_SINGLETON; TYKID_DRV_FLAG_VERIFIED; TYKID_DRV_FLAG_FALLBACK]) false;
   BI "virtio-blk"%string TYKID_HW_STORAGE_SATA (flag_set [TYKID_DRV_FLAG_SINGLETON; TYKID_DRV_FLAG_VERIFIED; TYKID_DRV_FLAG_FALLBACK]) false;
   BI "usb_msc"%string TYKID_HW_CLASS_STORAGE_USB (flag_set [TYKID_DRV_FLAG_SINGLETON; TYKID_DRV_FLAG_VERIFIED]) false;
   BI "usb_scsi"%string TYKID_HW_CLASS_STORAGE_USB (flag_set [TYKID_DRV_FLAG_SINGLETON; TYKID_DRV_FLAG_VERIFIED]) false;
   BI "xhci"%string TYKID_HW_USB_XHCI (flag_set [TYKID_DRV_FLAG_SINGLETON; TYKID_DRV_FLAG_VERIFIED; TYKID_DRV_FLAG_CRITICAL]) false;
   BI "ehci"%string TYKID_HW_USB_EHCI (flag_set [TYKID_DRV_FLAG_SINGLETON; TYKID_DRV_FLAG_VERIFIED]) false;
   BI "usb_core"%string TYKID_HW_USB_XHCI (flag_set [TYKID_DRV_FLAG_SINGLETON; TYKID_DRV_FLAG_VERIFIED; TYKID_DRV_FLAG_CRITICAL]) false;
   BI "usb_ep"%string TYKID_HW_USB_XHCI (flag_set [TYKID_DRV_FLAG_SINGLETON; TYKID_DRV_FLAG_VERIFIED]) false;
   BI "usb_hub"%string TYKID_HW_USB_XHCI (flag_set [TYKID_DRV_FLAG_SINGLETON; TYKID_DRV_FLAG_VERIFIED]) false;
   BI "hid"%string TYKID_HW_INPUT_KBD (flag_set [TYKID_DRV_FLAG_SINGLETON; TYKID_DRV_FLAG_VERIFIED]) false;
   BI "hid_kbd"%string TYKID_HW_INPUT_KBD (flag_set [TYKID_DRV_FLAG_SINGLETON; TYKID_DRV_FLAG_VERIFIED; TYKID_DRV_FLAG_FALLBACK]) false;
   BI "hid_mouse"%string TYKID_HW_INPUT_MOUSE (flag_set [TYKID_DRV_FLAG_SINGLETON; TYKID_DRV_FLAG_VERIFIED]) false;
   BI "hid_tablet"%string TYKID_HW_INPUT_MOUSE (flag_set [TYKID_DRV_FLAG_SINGLETON; TYKID_DRV_FLAG_VERIFIED]) false;
   BI "usb_cdc_acm"%string TYKID_HW_UNKNOWN (flag_set [TYKID_DRV_FLAG_SINGLETON; TYKID_DRV_FLAG_VERIFIED]) false;
   BI "usb_ftdi"%string TYKID_HW_UNKNOWN (flag_set [TYKID_DRV_FLAG_SINGLETON; TYKID_DRV_FLAG_VERIFIED]) false;
   BI "usb_cp210x"%string TYKID_HW_UNKNOWN (flag_set [TYKID_DRV_FLAG_SINGLETON; TYKID_DRV_FLAG_VERIFIED]) false;
   BI "intel_hda"%string TYKID_HW_AUDIO_HDA (flag_set [TYKID_DRV_FLAG_SINGLETON; TYKID_DRV_FLAG_VERIFIED; TYKID_DRV_FLAG_FALLBACK]) false;
   BI "usb_audio"%string TYKID_HW_AUDIO_USB (flag_set [TYKID_DRV_FLAG_SINGLETON; TYKID_DRV_FLAG_VERIFIED]) false;
   BI "usb_midi"%string TYKID_HW_AUDIO_USB (flag_set [TYKID_DRV_FLAG_SINGLETON; TYKID_DRV_FLAG_VERIFIED]) false;
   BI "btusb"%string TYKID_HW_BT (flag_set [TYKID_DRV_FLAG_SINGLETON; TYKID_DRV_FLAG_VERIFIED]) false;
   BI "bt_hci"%string TYKID_HW_BT (flag_set [TYKID_DRV_FLAG_SINGLETON; TYKID_DRV_FLAG_VERIFIED]) false].

(** The descriptor of a linked driver: a zeroed entry with its name, class
    and flags.  It has no file. *)
Definition builtin_desc (b : ty_builtin_t) : tykid_driver_desc_t :=
  DRV (ty_strncpy (bytes (bi_name b)) TYKID_MAX_NAME) [] [bi_class b] 0 0 (bi_flags b) 1 0 [] 255
      (replicate (Z.to_nat TYKID_HMAC_DIGEST_BYTES) 0)
      (if is_critical b then TYKID_DRV_STATE_ACTIVE else TYKID_DRV_STATE_REGISTERED) TY_THREAT_NONE 0 0 [] [].

Fixpoint register_loop (l : list ty_builtin_t) c : tykid_gate_ctx :=
  match l with
  | [] => c
  | b :: l =>
    if TYKID_MAX_DRIVERS <=? Z.of_nat (length (reg c)) then c else
    if 0 <=? ty_find_driver_by_name c (bytes (bi_name b)) then register_loop l c else
    register_loop l (with_reg c (reg c ++ [builtin_desc b]))
  end.
Definition tykid_kobalt_register_builtins c : tykid_gate_ctx := register_loop TY_BUILTINS c.

(** One driver of the first loop of [tykid_kobalt_gate_builtins]. *)
Definition gate_one (mask : Z) d : tykid_driver_desc_t :=
  if negb (state_is d TYKID_DRV_STATE_REGISTERED) then d else
  if ty_selector_driver_needed d mask then set_state d TYKID_DRV_STATE_ACTIVE else set_state d TYKID_DRV_STATE_SKIPPED.

(** One name of its second and third loops. *)
Definition approve_skipped c (name : string) : tykid_gate_ctx :=
  let i := ty_find_driver_by_name c (bytes name) in
  if i <? 0 then c else
  match reg c !! Z.to_nat i with
  | Some d => if state_is d TYKID_DRV_STATE_SKIPPED then with_drv c (Z.to_nat i) (set_state d TYKID_DRV_STATE_ACTIVE) else c
  | None => c
  end.

Definition AUDIO_HDA_DRVS : list string := ["intel_hda"%string].
Definition AUDIO_USB_DRVS : list string := ["usb_audio"%string; "usb_midi"%string].

(** [pci]: class code and subclass of each device on the bus. *)
Definition tykid_kobalt_gate_builtins c (hw : tykid_hw_enumset_t) (pci : list (Z * Z)) : tykid_gate_ctx :=
  let c := snd (tykid_compute_essential_mask c hw) in
  let c := with_reg c (map (gate_one (essential_mask c)) (reg c)) in
  let has_hda_pci := existsb (fun '(cc, sub) => (cc =? 0x04) && (sub =? 0x03)) pci in
  let has_usb_audio := existsb (fun '(cc, sub) => (cc =? 0x0C) && (sub =? 0x03)) pci in
  let c := if has_hda_pci then fold_left approve_skipped AUDIO_HDA_DRVS c else c in
  if has_usb_audio then fold_left approve_skipped AUDIO_USB_DRVS c else c.

Definition tykid_kobalt_builtin_approved c (name : list Z) : Z :=
  let idx := ty_find_driver_by_name c name in
  if idx <? 0 then 0 else
  match reg c !! Z.to_nat idx with Some d => if state_is d TYKID_DRV_STATE_ACTIVE then 1 else 0 | None => 0 end.

(** ** Matching drivers with devices (tykid_gate.c) *)

Definition ty_driver_matches_hw d (dev : tykid_hw_device_t) : bool :=
  if negb (vendor_mask d =? 0) && negb (vendor_mask d =? vendor_id dev) then false else
  if negb (device_mask d =? 0) && negb (device_mask d =? device_id dev) then false else
  existsb (Z.eqb (ty_class dev)) (hw_classes d) || (length (hw_classes d) =? 0)%nat.

Definition ty_score_driver d (dev : tykid_hw_device_t) : Z :=
  let score := dr_priority d * 1000 in
  let score := if negb (vendor_mask d =? 0) && (vendor_mask d =? vendor_id dev) then
                 score + (if negb (device_mask d =? 0) && (device_mask d =? device_id dev) then 4000 else 2000) else score in
  let major := Z.land (Z.shiftr (ty_class dev) 16) 0xFFFF in
  let minor := Z.land (ty_class dev) 0xFFFF in
  let score := if negb (major =? 0) && negb (minor =? 0) then score + 1000 else if negb (major =? 0) then score + 500 else score in
  if has_flag d TYKID_DRV_FLAG_FALLBACK then (if 3000 <? score then score - 3000 else 0) else score.

Record choice := SEL { selected : nat -> bool; best_score : nat -> Z; class_of : nat -> Z }.
Definition no_choice : choice := SEL (fun _ => false) (fun _ => 0) (fun _ => 0).
Definition choose (s : choice) (ri : nat) (score cls : Z) : choice :=
  SEL (nupd (selected s) ri true) (nupd (best_score s) ri score) (nupd (class_of s) ri cls).

Definition loadable d : bool :=
  negb (state_is d TYKID_DRV_STATE_BLOCKED) && negb (state_is d TYKID_DRV_STATE_SKIPPED) && negb (has_flag d TYKID_DRV_FLAG_BLACKLISTED).

(** The inner loop: best score, best driver ([None] for -1), choice. *)
Fixpoint match_loop (l : list tykid_driver_desc_t) (ri : nat) (dev : tykid_hw_device_t) (best : Z) (bdrv : option nat) (s : choice)
    : Z * option nat * choice :=
  match l with
  | [] => (best, bdrv, s)
  | d :: l =>
    if negb (loadable d && ty_driver_matches_hw d dev) then match_loop l (S ri) dev best bdrv s else
    let score := ty_score_driver d dev in
    let '(best, bdrv) := if best <? score then (score, Some ri) else (best, bdrv) in
    let s := if has_flag d TYKID_DRV_FLAG_FALLBACK && (negb (selected s ri) || (best_score s ri <? score)) then choose s ri score (ty_class dev) else s in
    match_loop l (S ri) dev best bdrv s
  end.

Definition match_device (r : list tykid_driver_desc_t) (s : choice) (dev : tykid_hw_device_t) : choice :=
  if ty_class dev =? TYKID_HW_UNKNOWN then s else
  let '(best, bdrv, s) := match_loop r 0 dev 0 None s in
  match bdrv with Some ri => choose s ri best (ty_class dev) | None => s end.

(** [cls] of the exclusive driver [i] against every other driver. *)
Definition suppress (n i : nat) (cof : nat -> Z) (sel : nat -> bool) (cls : Z) : nat -> bool :=
  fold_left (fun sel j => if (j =? i)%nat || negb (sel j) then sel else if cof j =? cls then nupd sel j false else sel) (seq 0 n) sel.

Fixpoint exclusive_loop (l : list tykid_driver_desc_t) (i n : nat) (cof : nat -> Z) (sel : nat -> bool) : nat -> bool :=
  match l with
  | [] => sel
  | d :: l =>
    let sel := if negb (sel i) then sel else if negb (has_flag d TYKID_DRV_FLAG_EXCLUSIVE) then sel else
               fold_left (suppress n i cof) (hw_classes d) sel in
    exclusive_loop l (S i) n cof sel
  end.
Definition ty_apply_exclusive_constraint (r : list tykid_driver_desc_t) (s : choice) : nat -> bool :=
  exclusive_loop r 0 (length r) (class_of s) (selected s).

(** *** Dependencies of the chosen drivers *)

Definition valid_dep (r : list tykid_driver_desc_t) (dep : Z) : bool := negb (dep =? 0xFF) && (dep <? Z.of_nat (length r)).

Definition pull (r : list tykid_driver_desc_t) (a : (nat -> bool) * bool) (dep : Z) : (nat -> bool) * bool :=
  let '(sel, changed) := a in
  if negb (valid_dep r dep) then a else
  match r !! Z.to_nat dep with
  | Some d => if state_is d TYKID_DRV_STATE_BLOCKED then a
              else if negb (sel (Z.to_nat dep)) then (nupd sel (Z.to_nat dep) true, true) else a
  | None => a
  end.

Fixpoint pull_pass (l : list tykid_driver_desc_t) (ri : nat) (r : list tykid_driver_desc_t) (a : (nat -> bool) * bool) : (nat -> bool) * bool :=
  match l with
  | [] => a
  | d :: l => pull_pass l (S ri) r (if negb (fst a ri) then a else fold_left (pull r) (dr_deps d) a)
  end.

(** [while (changed)]: every round but the last chooses one more driver. *)
Fixpoint pull_loop (fuel : nat) (r : list tykid_driver_desc_t) (sel : nat -> bool) : option (nat -> bool) :=
  match fuel with
  | O => None
  | S fuel => let '(sel, changed) := pull_pass r 0 r (sel, false) in if changed then pull_loop fuel r sel else Some sel
  end.
Definition pull_deps (r : list tykid_driver_desc_t) (sel : nat -> bool) : option (nat -> bool) := pull_loop (S (length r)) r sel.

(** ** Files, loading, calls *)

Section gate.
Context {W X : Type}.

(** [base_out] is passed in and out.  [path_iter_fn] is
    [ty_kobalt_path_iter] or NULL. *)
Record tykid_config_t := CFG {
  drivers_dir : option (list Z);
  alloc_fn : Z -> X -> Z * X;
  free_fn : Z -> Z -> X -> X;
  ko_load_fn : option (list Z -> Z -> X -> Z * Z * X);
  ko_unload_fn : option (Z -> X -> Z * X);
  iommu_block_fn : option (Z -> X -> X);
  path_iter_fn : bool;
  max_load_attempts : Z;
  probe_timeout_ms : Z;
  load_non_essential : bool }.

Record env := ENV { bin_fd : Z; bin_path : list Z; e_vfs : vfs W; e_ext : X }.

Implicit Types (cf : tykid_config_t) (e : env) (path : list Z).

Definition with_vfs e v : env := ENV (bin_fd e) (bin_path e) v (e_ext e).
Definition with_ext e x : env := ENV (bin_fd e) (bin_path e) (e_vfs e) x.
Definition with_bin e (fd : Z) path : env := ENV fd path (e_vfs e) (e_ext e).

Variable kobalt_tsc_read : X -> Z * X.

Definition read_tsc e : Z * env := let '(t, x) := kobalt_tsc_read (e_ext e) in (t, with_ext e x).
Definition unload (f : Z -> X -> Z * X) (base : Z) e : Z * env := let '(st, x) := f base (e_ext e) in (st, with_ext e x).

(** *** Reading (tykid_kobalt_glue.c) *)

(** [while (done < cap) { n = vfs_read(fd, ..., cap - done); ... }] *)
Fixpoint read_fill (fuel : nat) (v : vfs W) (fd cap : Z) (got : list Z) : option (list Z * vfs W) :=
  if negb (Z.of_nat (length got) <? cap) then Some (got, v) else
  match fuel with
  | O => None
  | S fuel =>
    '(n, data, v) ← vfs_read v fd (cap - Z.of_nat (length got));
    if n <=? 0 then Some (got, v) else read_fill fuel v fd cap (got ++ data)
  end.

(** The status and the bytes read. *)
Definition kobalt_vfs_read_text e path (buf_sz : Z) : option (Z * list Z * env) :=
  '(rc, st, v) ← vfs_stat_path (e_vfs e) path;
  if rc <? 0 then Some (TYKID_ERR_PATH, [], with_vfs e v) else
  st ← st;
  let sz := u64 (s_size st) in
  '(fd, v) ← vfs_open v path VFS_O_RDONLY 0;
  if fd <? 0 then Some (TYKID_ERR_PATH, [], with_vfs e v) else
  let cap := if sz <? buf_sz then sz else buf_sz in
  '(got, v) ← read_fill (Z.to_nat cap) v fd cap [];
  v ← vfs_close v fd;
  Some (TYKID_OK, got, with_vfs e v).

Definition kobalt_vfs_read_binary e path (buf_sz : Z) : option (Z * list Z * env) :=
  '(st, e) ← (if (bin_fd e =? 0) || negb (ty_strncmp (bin_path e) path 256 =? 0) then
    v ← (if 0 <? bin_fd e then vfs_close (e_vfs e) (bin_fd e) else Some (e_vfs e));
    '(fd, v) ← vfs_open v path VFS_O_RDONLY 0;
    let e := with_bin (with_vfs e v) fd (ty_strncpy path 256) in
    if fd <? 0 then Some (TYKID_ERR_PATH, with_bin e 0 (bin_path e)) else Some (TYKID_OK, e)
  else Some (TYKID_OK, e));
  if negb (st =? TYKID_OK) then Some (st, [], e) else
  '(got, v) ← read_fill (Z.to_nat buf_sz) (e_vfs e) (bin_fd e) buf_sz [];
  if (length got =? 0)%nat then
    v ← vfs_close v (bin_fd e);
    Some (TYKID_ERR_GENERIC, [], with_bin (with_vfs e v) 0 [])
  else Some (TYKID_OK, got, with_vfs e v).

(** *** Integrity (tykid_gate.c) *)

Fixpoint hash_loop (fuel : nat) e path (S : ty_blake2s_ctx_t) : option (Z * ty_blake2s_ctx_t * env) :=
  match fuel with
  | O => None
  | Datatypes.S fuel =>
    '(st, got, e) ← kobalt_vfs_read_binary e path 4096;
    let done := (st =? TYKID_ERR_GENERIC) && (length got =? 0)%nat in
    if negb done && negb (st =? TYKID_OK) then Some (TYKID_ERR_PATH, S, e) else
    S ← (if (0 <? length got)%nat then ty_blake2s_update S got else Some S);
    if done || (Z.of_nat (length got) <? 4096) then Some (TYKID_OK, S, e) else hash_loop fuel e path S
  end.

Definition ty_integrity_check_file (fuel : nat) c e path (expected : list Z) : option (Z * env) :=
  S ← ty_blake2s_init (hmac_key c) 32;
  '(st, S, e) ← hash_loop fuel e path S;
  if negb (st =? TYKID_OK) then Some (st, e) else
  final_mac ← ty_hmac_blake2s (hmac_key c) (ty_blake2s_final S);
  Some (if ty_memeq final_mac expected (Z.to_nat TYKID_HMAC_DIGEST_BYTES) then TYKID_OK else TYKID_ERR_DRIVER_CORRUPT, e).

(** The buffer of [TYKID_MAX_PATH] bytes: directory, slash, name.  An empty
    directory reads before the string, a long one writes past the buffer. *)
Definition full_path cf (name : list Z) : option (list Z) :=
  let dir := default (bytes "../drivers") (drivers_dir cf) in
  if (length dir =? 0)%nat || (TYKID_MAX_PATH <=? Z.of_nat (length dir)) then None else
  let p := if (Z.of_nat (length dir) <? TYKID_MAX_PATH - 1) && negb (List.last dir 0 =? 47) then dir ++ [47] else dir in
  Some (p ++ ty_strncpy name (TYKID_MAX_PATH - Z.of_nat (length p))).

Definition tykid_verify_driver_integrity cf (fuel : nat) c e d : option (Z * env) :=
  path ← full_path cf (dr_path d); ty_integrity_check_file fuel c e path (dr_hmac d).

(** *** Loading *)

(** The [do] loop: status, base, and [None] on a timeout. *)
Fixpoint attempt_loop (n : nat) (f : list Z -> Z -> X -> Z * Z * X) path (attempts max base deadline : Z) e : option (Z * Z) * env :=
  match n with
  | O => (None, e)
  | S n =>
    let '(st, base, x) := f path base (e_ext e) in
    let '(now, e) := read_tsc (with_ext e x) in
    let attempts := u8 (attempts + 1) in
    if deadline <=? now then (None, e) else
    if negb (st =? TYKID_OK) && (attempts <? max) then attempt_loop n f path attempts max base deadline e
    else (Some (st, base), e)
  end.

(** A singleton whose name is already loaded. *)
Definition singleton_taken (r : list tykid_driver_desc_t) (i : nat) d : bool :=
  existsb (fun j => negb (j =? i)%nat &&
    match r !! j with
    | Some o => (ty_strncmp (dr_name o) (dr_name d) (Z.to_nat TYKID_MAX_NAME) =? 0) && state_is o TYKID_DRV_STATE_ACTIVE
    | None => false end) (seq 0 (length r)).

Definition fail_one c (i : nat) d : tykid_gate_ctx := add_failed (with_drv c i (set_state d TYKID_DRV_STATE_FAILED)).

(** After the integrity check; [d] is verified. *)
Definition load_module cf c e (i : nat) d path : Z * tykid_gate_ctx * env :=
  if has_flag d TYKID_DRV_FLAG_LAZY then (TYKID_OK, add_loaded (with_drv c i (set_state d TYKID_DRV_STATE_PENDING)), e) else
  match ko_load_fn cf with
  | None => (TYKID_ERR_GENERIC, fail_one c i d, e)
  | Some f =>
    let timeout_ms := if negb (probe_timeout_ms cf =? 0) then probe_timeout_ms cf else 500 in
    let '(now, e) := read_tsc e in
    let deadline := u64 (now + timeout_ms * 1000000) in
    match attempt_loop 256 f path 0 (max_load_attempts cf) 0 deadline e with
    | (None, e) => (TYKID_ERR_TIMEOUT, fail_one c i d, e)
    | (Some (st, base), e) =>
      if negb (st =? TYKID_OK) || (base =? 0) then (st, fail_one c i d, e) else
      let '(now, e) := read_tsc e in
      (TYKID_OK, add_loaded (with_drv c i (set_active d base now)), e)
    end
  end.

Definition ty_gate_load_one cf (fuel : nat) c e (i : nat) : option (Z * tykid_gate_ctx * env) :=
  d ← reg c !! i;
  if state_is d TYKID_DRV_STATE_ACTIVE then Some (TYKID_ERR_ALREADY_LOADED, c, e) else
  if state_is d TYKID_DRV_STATE_BLOCKED then Some (TYKID_ERR_THREAT_BLOCKED, c, e) else
  if state_is d TYKID_DRV_STATE_SKIPPED then Some (TYKID_ERR_NOT_ESSENTIAL, c, e) else
  if has_flag d TYKID_DRV_FLAG_BLACKLISTED then Some (TYKID_ERR_BLACKLIST, c, e) else
  if has_flag d TYKID_DRV_FLAG_SINGLETON && singleton_taken (reg c) i d then Some (TYKID_ERR_ALREADY_LOADED, c, e) else
  let d := set_state d TYKID_DRV_STATE_LOADING in
  path ← full_path cf (dr_path d);
  '(st, e) ← ty_integrity_check_file fuel c e path (dr_hmac d);
  if negb (st =? TYKID_OK) then
    Some (TYKID_ERR_DRIVER_CORRUPT, add_failed (add_blocked (with_drv c i (set_blocked d TY_THREAT_TAMPERED))), e)
  else Some (load_module cf c e i (add_flag d TYKID_DRV_FLAG_VERIFIED) path).

Definition tykid_load_driver cf (fuel : nat) c e (name : list Z) : option (Z * tykid_gate_ctx * env) :=
  let st := tykid_verify_seal c in
  if negb (st =? TYKID_OK) then Some (st, c, e) else
  let i := ty_find_driver_by_name c name in
  if i <? 0 then Some (TYKID_ERR_NO_DRIVER, c, e) else ty_gate_load_one cf fuel c e (Z.to_nat i).

Definition tykid_unload_driver cf c e (name : list Z) : option (Z * tykid_gate_ctx * env) :=
  let st := tykid_verify_seal c in
  if negb (st =? TYKID_OK) then Some (st, c, e) else
  let i := ty_find_driver_by_name c name in
  if i <? 0 then Some (TYKID_ERR_NO_DRIVER, c, e) else
  d ← reg c !! Z.to_nat i;
  if negb (state_is d TYKID_DRV_STATE_ACTIVE) then Some (TYKID_ERR_GENERIC, c, e) else
  match ko_unload_fn cf with
  | None => Some (TYKID_ERR_GENERIC, c, e)
  | Some f =>
    let '(st, e) := unload f (base_vaddr d) e in
    if negb (st =? TYKID_OK) then Some (st, c, e) else
    let c := with_drv c (Z.to_nat i) (set_base (set_state d TYKID_DRV_STATE_UNLOADED) 0) in
    let t := tot c in
    Some (st, with_tot c (TOT (if 0 <? t_loaded t then t_loaded t - 1 else 0) (t_skipped t) (t_failed t) (t_blocked t) (t_revoked t) (t_rechecks t)), e)
  end.

(** [if (cfg.ko_unload_fn && drv->base_vaddr) ...]: the new base. *)
Definition drop_module cf d e : tykid_driver_desc_t * env :=
  match ko_unload_fn cf with
  | Some f => if base_vaddr d =? 0 then (d, e) else let '(_, e) := unload f (base_vaddr d) e in (set_base d 0, e)
  | None => (d, e)
  end.

Fixpoint recheck_drivers (n i : nat) cf (fuel : nat) c e (fails : Z) : option (Z * tykid_gate_ctx * env) :=
  match n with
  | O => Some (fails, c, e)
  | S n =>
    d ← reg c !! i;
    if negb (state_is d TYKID_DRV_STATE_ACTIVE) then recheck_drivers n (S i) cf fuel c e fails else
    '(ds, e) ← tykid_verify_driver_integrity cf fuel c e d;
    if ds =? TYKID_OK then recheck_drivers n (S i) cf fuel c e fails else
    let '(d, e) := drop_module cf (set_blocked d TY_THREAT_TAMPERED) e in
    recheck_drivers n (S i) cf fuel (add_blocked (with_drv c i d)) e (u32 (fails + 1))
  end.

Definition tykid_recheck_all cf (fuel : nat) c e : option (Z * tykid_gate_ctx * env) :=
  let st := tykid_verify_seal c in
  if negb (st =? TYKID_OK) then Some (st, c, e) else
  '(fails, c, e) ← recheck_drivers (length (reg c)) 0 cf fuel c e 0;
  Some (if fails =? 0 then TYKID_OK else TYKID_ERR_DRIVER_CORRUPT, add_recheck c, e).

Definition tykid_revoke_driver cf c e (name : list Z) : option (Z * tykid_gate_ctx * env) :=
  let st := tykid_verify_seal c in
  if negb (st =? TYKID_OK) then Some (st, c, e) else
  let i := ty_find_driver_by_name c name in
  if i <? 0 then Some (TYKID_ERR_NO_DRIVER, c, e) else
  d ← reg c !! Z.to_nat i;
  let e := match iommu_block_fn cf with Some f => with_ext e (f (base_vaddr d) (e_ext e)) | None => e end in
  let '(d, e) := drop_module cf d e in
  Some (TYKID_OK, add_revoked (with_drv c (Z.to_nat i) (set_blocked d TY_THREAT_REVOKED)), e).

(** *** The registry scan (tykid_registry.c) *)

Definition SUFFIX : list Z := bytes ".tykid-manifest".

(** The bytes before the first zero. *)
Fixpoint c_string (l : list Z) : list Z :=
  match l with x :: l => if x =? 0 then [] else x :: c_string l | [] => [] end.

(** Registry entries and rows of the dependency table; [false] stops. *)
Definition ty_scan_callback cf e (entries : list tykid_driver_desc_t) (table : list (list (list Z))) (entry_name : list Z)
    : option (bool * list tykid_driver_desc_t * list (list (list Z)) * env) :=
  if (length entry_name <? 16)%nat then Some (true, entries, table, e) else
  if negb (ty_strncmp (drop (length entry_name - length SUFFIX) entry_name) SUFFIX (length SUFFIX) =? 0) then Some (true, entries, table, e) else
  if TYKID_MAX_DRIVERS <=? Z.of_nat (length entries) then Some (false, entries, table, e) else
  path ← full_path cf entry_name;
  '(st, buf, e) ← kobalt_vfs_read_text e path 4095;
  if negb (st =? TYKID_OK) then Some (true, entries, table, e) else
  let buf := c_string buf in
  '(st, tmp) ← ty_parse_manifest_buf buf;
  if negb (st =? TYKID_OK) then Some (true, entries, table, e) else
  names ← scan_deps buf;
  Some (true, entries ++ [tmp], table ++ [names], e).

Fixpoint ty_kobalt_path_iter (fuel : nat) cf e (i : Z) (entries : list tykid_driver_desc_t) (table : list (list (list Z)))
    : option (list tykid_driver_desc_t * list (list (list Z)) * env) :=
  match fuel with
  | O => None
  | S fuel =>
    '(rc, de, v) ← vfs_readdir (e_vfs e) (default (bytes "../drivers") (drivers_dir cf)) i;
    let e := with_vfs e v in
    if rc <? 0 then Some (entries, table, e) else
    de ← de;
    '(go, entries, table, e) ← ty_scan_callback cf e entries table (v_name de);
    if (go : bool) then ty_kobalt_path_iter fuel cf e (u64 (i + 1)) entries table else Some (entries, table, e)
  end.

Definition add_edges (n : Z) (i : nat) (a : Z * ty_dep_graph_t) (ds : list Z) : Z * ty_dep_graph_t :=
  fold_left (fun '(st, g) dep =>
    if negb (st =? TYKID_OK) then (st, g) else
    if (dep =? 0xFF) || (n <=? dep) then (st, g) else ty_dep_graph_add g (Z.of_nat i) dep) ds a.

Definition build_graph (r : list tykid_driver_desc_t) : Z * ty_dep_graph_t :=
  let n := Z.of_nat (length r) in
  fold_left (fun a '(i, d) => add_edges n i a (dr_deps d)) (imap (fun i d => (i, d)) r) (TYKID_OK, zero_graph (u8 n)).

Definition DEP_TABLE_BYTES : Z := TYKID_MAX_DEPS * TYKID_MAX_NAME * TYKID_MAX_DRIVERS.

Definition ty_registry_scan cf (fuel : nat) c e : option (Z * tykid_gate_ctx * env) :=
  let c := with_graph c [] (zero_graph 0) in
  if negb (path_iter_fn cf) then Some (TYKID_ERR_GENERIC, c, e) else
  let '(dep_names, x) := alloc_fn cf DEP_TABLE_BYTES (e_ext e) in
  let e := with_ext e x in
  if dep_names =? 0 then Some (TYKID_ERR_ALLOC, c, e) else
  '(entries, table, e) ← ty_kobalt_path_iter fuel cf e 0 [] [];
  let e := with_ext e (free_fn cf dep_names DEP_TABLE_BYTES (e_ext e)) in
  if (length entries =? 0)%nat then Some (TYKID_OK, c, e) else
  let r := ty_registry_resolve_deps entries table in
  let '(st, g) := build_graph r in
  if negb (st =? TYKID_OK) then Some (st, with_graph c r g, e) else
  '(st, g) ← ty_dep_graph_toposort g;
  Some (if st =? TYKID_ERR_CYCLE then TYKID_ERR_CYCLE else TYKID_OK, with_graph c r g, e).

(** What [tykid_enumerate_hardware] stores when it succeeds. *)
Definition hw_probed c (topology_hash : Z) : tykid_gate_ctx := with_probe c true topology_hash.

(** *** Arbitration *)

Record tykid_load_result_t := RES { loaded : list nat; skipped_count : Z; failed_count : Z }.
Definition res_skip (r : tykid_load_result_t) : tykid_load_result_t := RES (loaded r) (u32 (skipped_count r + 1)) (failed_count r).
Definition res_fail (r : tykid_load_result_t) : tykid_load_result_t := RES (loaded r) (skipped_count r) (u32 (failed_count r + 1)).

(** Whether every dependency is loaded or deferred. *)
Definition deps_ready (r : list tykid_driver_desc_t) d : bool :=
  forallb (fun dep => negb (valid_dep r dep) ||
    match r !! Z.to_nat dep with
    | Some o => state_is o TYKID_DRV_STATE_ACTIVE || state_is o TYKID_DRV_STATE_PENDING
    | None => false end) (dr_deps d).

Fixpoint load_loop (topo : list Z) cf (fuel : nat) (sel : nat -> bool) c e (res : tykid_load_result_t)
    : option (tykid_load_result_t * tykid_gate_ctx * env) :=
  match topo with
  | [] => Some (res, c, e)
  | ri :: topo =>
    let i := Z.to_nat ri in
    match reg c !! i with
    | None => load_loop topo cf fuel sel c e res
    | Some d =>
      if negb (sel i) then load_loop topo cf fuel sel c e res else
      if state_is d TYKID_DRV_STATE_BLOCKED || state_is d TYKID_DRV_STATE_SKIPPED then load_loop topo cf fuel sel c e (res_skip res) else
      if negb (deps_ready (reg c) d) then load_loop topo cf fuel sel (fail_one c i d) e (res_fail res) else
      '(st, c, e) ← ty_gate_load_one cf fuel c e i;
      let res := if st =? TYKID_OK then RES (loaded res ++ [i]) (skipped_count res) (failed_count res)
                 else if (st =? TYKID_ERR_ALREADY_LOADED) || (st =? TYKID_ERR_NOT_ESSENTIAL) then res_skip res
                 else if st =? TYKID_ERR_THREAT_BLOCKED then res_skip res else res_fail res in
      load_loop topo cf fuel sel c e res
    end
  end.

Definition select_drivers (r : list tykid_driver_desc_t) (hw : tykid_hw_enumset_t) : option (nat -> bool) :=
  let s := fold_left (match_device r) (devices hw) no_choice in
  pull_deps r (ty_apply_exclusive_constraint r s).

Definition load_order c : list Z :=
  match topo (deps c) with [] => map Z.of_nat (seq 0 (length (reg c))) | l => l end.

(** After the scan; the result is zeroed before loading. *)
Definition arbitrate_loads cf (fuel : nat) c e (hw : tykid_hw_enumset_t) : option (Z * tykid_load_result_t * tykid_gate_ctx * env) :=
  let c := ty_selector_apply (load_non_essential cf) c in
  sel ← select_drivers (reg c) hw;
  '(res, c, e) ← load_loop (load_order c) cf fuel sel c e (RES [] 0 0);
  Some (if failed_count res =? 0 then TYKID_OK else TYKID_ERR_GENERIC, res, c, e).

(** [topology] is [ty_hw_topology_hash] of the devices; [res] is what the
    caller's result held. *)
Definition tykid_arbitrate cf (fuel : nat) c e (hw : tykid_hw_enumset_t) (topology : Z) (res : tykid_load_result_t)
    : option (Z * tykid_load_result_t * tykid_gate_ctx * env) :=
  let st := tykid_verify_seal c in
  if negb (st =? TYKID_OK) then Some (st, res, c, e) else
  if probed c && negb (topology =? probe_hash c) then
    '(st, c, e) ← ty_registry_scan cf fuel c e;
    if negb (st =? TYKID_OK) then Some (st, res, c, e) else arbitrate_loads cf fuel (with_probe c (probed c) topology) e hw
  else arbitrate_loads cf fuel c e hw.

(** The unloading of [tykid_shutdown], last driver first. *)
Fixpoint shutdown_loop (n : nat) cf c e : option (tykid_gate_ctx * env) :=
  match n with
  | O => Some (c, e)
  | S n =>
    d ← reg c !! n;
    match ko_unload_fn cf with
    | Some f =>
      if state_is d TYKID_DRV_STATE_ACTIVE && negb (base_vaddr d =? 0) then
        let '(_, e) := unload f (base_vaddr d) e in
        shutdown_loop n cf (with_drv c n (set_base (set_state d TYKID_DRV_STATE_UNLOADED) 0)) e
      else shutdown_loop n cf c e
    | None => shutdown_loop n cf c e
    end
  end.

(** The context is wiped before it is freed at [ctx]. *)
Definition tykid_shutdown cf c e (ctx ctx_bytes : Z) : option env :=
  r ← shutdown_loop (length (reg c)) cf c e;
  Some (with_ext (snd r) (free_fn cf ctx ctx_bytes (e_ext (snd r)))).
End gate.

Arguments tykid_config_t X : clear implicits.
Arguments env W X : clear implicits.
