(* ===== verification/TyGateProps.v ===== *)
(** * TYKID: properties of the driver gate

    The integrity check against the bytes it reads, the life cycle of
    drivers under any sequence of calls, the choice of drivers, and runs that
    go wrong.

    Sources: security/tykid/src/tykid_gate.c, tykid_kobalt_glue.c,
    tykid_registry.c, tykid_selector.c. *)

From Stdlib Require Import String.
From stdpp Require Import base list relations.
From Stdlib Require Import ZArith Lia.
From S2P Require Import Prelude TyCrypto TyCryptoProof Tykid TyDeps TyManifest TmpfsNs Vfs TyGate.

#[local] Opaque ty_hmac_blake2s ty_blake2s_update.

(** ** The digest of a file *)

(** Keyed BLAKE2s, whose first block is the padded key, under HMAC. *)
Definition keyed_digest (key data : list Z) : list Z := ref_digest (ref_init 32 32) 32 ((key ++ replicate 32 0) ++ data).

Definition file_mac (key data : list Z) : list Z :=
  let k0 := hmac_key_block key in
  blake2s_ref (map (fun b => Z.lxor b 0x5C) k0 ++ blake2s_ref (map (fun b => Z.lxor b 0x36) k0 ++ keyed_digest key data)).

Definition verdict (key data expected : list Z) : Z :=
  if ty_memeq (file_mac key data) expected 32 then TYKID_OK else TYKID_ERR_DRIVER_CORRUPT.

Lemma keyed_init key : length key = 32%nat ->
  exists k S, ty_blake2s_init key 32 = Some S /\ b2s_repr (ref_init 32 32) 32 k (key ++ replicate 32 0) S /\ b2s_normal k S.
Proof.
  intros Hk. unfold ty_blake2s_init. rewrite Hk. change (Z.of_nat 32) with 32. cbv zeta. rewrite init_rfc. cbn [Z.ltb Z.compare].
  assert (E : splice (replicate 64 0) 0 key = key ++ replicate 32 0) by (unfold splice; rewrite Hk; reflexivity). rewrite E.
  apply (blake2s_update_spec (ref_init 32 32) 32 0 []); [|by left]. apply fresh_repr.
Qed.

Section gate_props.
Context {W X : Type}.
Implicit Types (cf : tykid_config_t X) (e : env W X) (c : tykid_gate_ctx) (d : tykid_driver_desc_t) (path : list Z).

(** The chunks the check reads. *)
Fixpoint read_chunks (fuel : nat) e path : option (Z * list (list Z) * env W X) :=
  match fuel with
  | O => None
  | S fuel =>
    '(st, got, e) ← kobalt_vfs_read_binary e path 4096;
    let done := (st =? TYKID_ERR_GENERIC) && (length got =? 0)%nat in
    if negb done && negb (st =? TYKID_OK) then Some (TYKID_ERR_PATH, [], e) else
    let xs := if (0 <? length got)%nat then [got] else [] in
    if done || (Z.of_nat (length got) <? 4096) then Some (TYKID_OK, xs, e) else
    '(st, ys, e) ← read_chunks fuel e path; Some (st, xs ++ ys, e)
  end.

Lemma hash_loop_spec h0 o fuel : forall e path k m S, b2s_repr h0 o k m S -> b2s_normal k S ->
  match read_chunks fuel e path with
  | None => hash_loop fuel e path S = None
  | Some (st, xs, e') => exists k' S', hash_loop fuel e path S = Some (st, S', e') /\ b2s_repr h0 o k' (m ++ concat xs) S' /\ b2s_normal k' S'
  end.
Proof.
  induction fuel as [|fuel IH]; intros e path k m S R N; [done|]. cbn [read_chunks hash_loop].
  destruct (kobalt_vfs_read_binary e path 4096) as [[[st got] e1]|]; [|done]. cbn [mbind option_bind].
  set (done := (st =? TYKID_ERR_GENERIC) && (length got =? 0)%nat). destruct (negb done && negb (st =? TYKID_OK)).
  { exists k, S. cbn [concat]. by rewrite app_nil_r. }
  assert (HS : exists k1 S1, (if (0 <? length got)%nat then ty_blake2s_update S got else Some S) = Some S1 /\
    b2s_repr h0 o k1 (m ++ concat (if (0 <? length got)%nat then [got] else [])) S1 /\ b2s_normal k1 S1).
  { destruct (0 <? length got)%nat; cbn [concat]; [rewrite app_nil_r; by eapply blake2s_update_spec|]. exists k, S. by rewrite app_nil_r. }
  destruct HS as (k1 & S1 & -> & R1 & N1). cbn [mbind option_bind].
  destruct (done || (Z.of_nat (length got) <? 4096)); [by exists k1, S1|]. specialize (IH e1 path _ _ _ R1 N1).
  destruct (read_chunks fuel e1 path) as [[[st2 ys] e2]|]; [|done]. cbn [mbind option_bind]. by rewrite concat_app, app_assoc.
Qed.

(** The integrity check as a function of the bytes it reads. *)
Lemma integrity_spec fuel c e path expected : length (hmac_key c) = 32%nat ->
  ty_integrity_check_file fuel c e path expected
  = '(st, xs, e') ← read_chunks fuel e path;
    Some (if negb (st =? TYKID_OK) then st else verdict (hmac_key c) (concat xs) expected, e').
Proof.
  intros Hk. unfold ty_integrity_check_file. destruct (keyed_init _ Hk) as (k & S & -> & R & N). cbn [mbind option_bind].
  pose proof (hash_loop_spec _ _ fuel e path k _ S R N) as H. destruct (read_chunks fuel e path) as [[[st xs] e']|]; [|by rewrite H].
  destruct H as (k' & S' & -> & R' & N'). cbn [mbind option_bind]. destruct (negb (st =? TYKID_OK)); [done|].
  unfold verdict. rewrite (blake2s_final_spec _ _ _ _ _ R' N'), hmac_spec. reflexivity.
Qed.

Lemma read_chunks_status fuel : forall e path st xs e', read_chunks fuel e path = Some (st, xs, e') -> st = TYKID_OK \/ st = TYKID_ERR_PATH.
Proof.
  induction fuel as [|fuel IH]; intros e path st xs e' H; [done|]. cbn [read_chunks] in H.
  destruct (kobalt_vfs_read_binary e path 4096) as [[[st1 got] e1]|]; [|done]. cbn [mbind option_bind] in H.
  destruct (negb _ && negb _); [by right; injection H as <- _ _|]. destruct (_ || _) in H; [by left; injection H as <- _ _|].
  destruct (read_chunks fuel e1 path) as [[[st2 ys] e2]|] eqn:E; [|done]. cbn [mbind option_bind] in H. injection H as <- _ _. by eapply IH.
Qed.

(** ** Reading a file

    [P] is an invariant of the driver's world under which the file behind
    descriptor [fd] has the contents [data]. *)

Record serves (P : W -> Prop) (v : vfs W) (fd : Z) (data : list Z) : Prop := {
  sv_fd : 0 <= fd < 256;
  sv_used : used (g_fd v fd) = true;
  sv_lock : g_fd_lk v = false;
  sv_world : P (world v);
  sv_read : exists g, op_read (ops (g_drv v (f_drv (g_fd v fd)))) = Some g /\
    forall off len w, P w -> 0 <= off -> 0 < len -> exists rc w', 0 <= rc /\
      g (f_priv (g_fd v fd)) off len w = Some (rc, take (Z.to_nat len) (drop (Z.to_nat off) data), w') /\ P w';
  sv_close : forall g, op_close (ops (g_drv v (f_drv (g_fd v fd)))) = Some g ->
    forall w, P w -> exists w', g (f_priv (g_fd v fd)) w = Some w' /\ P w' }.

Definition at_pos (v : vfs W) (fd : Z) (p : nat) : Prop := f_pos (g_fd v fd) = Z.of_nat p.

Lemma read_serves P v fd data p len : serves P v fd data -> at_pos v fd p -> (p <= length data)%nat -> Z.of_nat (length data) < 2 ^ 31 -> 0 < len <= 4096 ->
  let got := take (Z.to_nat len) (drop p data) in
  exists v', vfs_read v fd len = Some (Z.of_nat (length got), got, v') /\ serves P v' fd data /\ at_pos v' fd (p + length got).
Proof.
  intros [Hfd Hu Hl Hw (g & Eg & Hg) Hc] Hp Hle Hlen Hcap got. unfold at_pos in Hp.
  destruct (Hg (Z.of_nat p) len (world v) Hw) as (rc & w' & Hrc & E & Hw'); [lia|lia|]. rewrite Nat2Z.id in E. fold got in E.
  assert (Lg : (length got <= length data)%nat) by (unfold got; rewrite length_take, length_drop; lia).
  assert (Lp : (p + length got <= length data)%nat) by (unfold got; rewrite length_take, length_drop; lia).
  exists (set_fd (set_world v w') fd (with_pos (g_fd v fd) (Z.of_nat (p + length got)))).
  split; [|split].
  - unfold vfs_read, bad_fd, VFS_MAX_FDS. rewrite (proj2 (Z.ltb_ge fd 0)), (proj2 (Z.leb_gt 256 fd)), Hu by lia. cbn [orb negb].
    rewrite Eg, Hp. unfold u64. rewrite Z.mod_small, E by lia. cbn [mbind option_bind]. rewrite (proj2 (Z.ltb_ge rc 0)) by lia.
    assert (E32 : s32 (Z.of_nat (length got)) = Z.of_nat (length got)) by (unfold s32; rewrite Z.mod_small; lia).
    assert (E64 : forall z, 0 <= z < 2 ^ 62 -> s64 z = z) by (intros z Hz; unfold s64; rewrite Z.mod_small; lia).
    rewrite E32, (E64 (Z.of_nat (length got))), E64 by lia. by rewrite Nat2Z.inj_add.
  - constructor; cbn [g_fd g_drv g_fd_lk world set_fd set_world]; rewrite ?upd_eq; cbn [used f_drv f_priv with_pos]; try done. by exists g.
  - unfold at_pos. cbn [g_fd set_fd set_world]. by rewrite upd_eq.
Qed.

Lemma read_fill_serves P fd data cap : Z.of_nat (length data) < 2 ^ 31 -> cap <= 4096 -> forall fuel v p got,
  serves P v fd data -> at_pos v fd p -> (p <= length data)%nat -> Z.of_nat (length got) <= cap -> cap <= Z.of_nat (length got + fuel) ->
  let new := take (Z.to_nat cap - length got) (drop p data) in
  exists v', read_fill fuel v fd cap got = Some (got ++ new, v') /\ serves P v' fd data /\ at_pos v' fd (p + length new).
Proof.
  intros Hlen Hcap. induction fuel as [|fuel IH]; intros v p got Hs Hp Hle Hg Hf new; cbn [read_fill].
  - rewrite (proj2 (Z.ltb_ge _ _)) by lia. cbn [negb]. exists v. unfold new. replace (Z.to_nat cap - length got)%nat with 0%nat by lia.
    cbn [take length]. by rewrite app_nil_r, Nat.add_0_r.
  - destruct (Z.ltb_spec (Z.of_nat (length got)) cap) as [Hlt|Hge]; cbn [negb].
    + destruct (read_serves P v fd data p (cap - Z.of_nat (length got)) Hs Hp Hle Hlen) as (v1 & -> & S1 & P1); [lia|]. cbn [mbind option_bind].
      replace (Z.to_nat (cap - Z.of_nat (length got))) with (Z.to_nat cap - length got)%nat in * by lia. fold new in P1 |- *.
      assert (Ln : (length new <= Z.to_nat cap - length got)%nat) by (unfold new; rewrite length_take; lia).
      assert (Lp : (p + length new <= length data)%nat) by (unfold new; rewrite length_take, length_drop; lia).
      destruct (Z.leb_spec (Z.of_nat (length new)) 0) as [H0|H0].
      * exists v1. destruct new; [|cbn in H0; lia]. by rewrite app_nil_r.
      * destruct (IH v1 (p + length new)%nat (got ++ new) S1 P1 Lp) as (v2 & -> & S2 & P2); [rewrite length_app; lia..|].
        exists v2. rewrite length_app in P2 |- *. assert (E0 : take (Z.to_nat cap - (length got + length new)) (drop (p + length new) data) = []).
        { destruct (decide (length new = Z.to_nat cap - length got)%nat); [by replace (Z.to_nat cap - (length got + length new))%nat with 0%nat by lia|].
          rewrite drop_ge, take_nil; [done|]. unfold new in *. rewrite length_take, length_drop in *. lia. }
        rewrite E0 in P2 |- *. rewrite app_nil_r. cbn [length] in P2. rewrite Nat.add_0_r in P2. done.
    + exists v. unfold new. replace (Z.to_nat cap - length got)%nat with 0%nat by lia. cbn [take length]. by rewrite app_nil_r, Nat.add_0_r.
Qed.

(** Closing keeps the world's invariant. *)
Lemma close_serves P v fd data : serves P v fd data -> exists v', vfs_close v fd = Some v' /\ P (world v').
Proof.
  intros [Hfd Hu Hl Hw _ Hc]. unfold vfs_close, VFS_MAX_FDS. rewrite (proj2 (Z.ltb_ge fd 0)), (proj2 (Z.leb_gt 256 fd)) by lia. cbn [orb].
  unfold FD_LOCK. rewrite Hl. cbn [mbind option_bind g_fd g_drv set_fd FD_UNLOCK world]. rewrite Hu. cbn [negb].
  destruct (op_close (ops (g_drv v (f_drv (g_fd v fd))))) as [g|] eqn:Eg; [|by eexists]. destruct (Hc g eq_refl _ Hw) as (w' & -> & Hw').
  cbn [mbind option_bind]. by eexists.
Qed.

(** The file is open in [s_bin], at position [p]. *)
Record open_at (P : W -> Prop) e (fd : Z) path (data : list Z) (p : nat) : Prop := {
  oa_fd : bin_fd e = fd /\ 0 < fd;
  oa_path : bin_path e = path;
  oa_serves : serves P (e_vfs e) fd data;
  oa_pos : at_pos (e_vfs e) fd p;
  oa_le : (p <= length data)%nat }.

Definition good_path path : Prop := cstring path /\ (length path < 256)%nat.

Lemma strncmp_refl path : good_path path -> (ty_strncmp path path 256 =? 0) = true.
Proof. intros [Hc Hl]. apply Z.eqb_eq. by apply strncmp_eq. Qed.

Lemma binary_serves P e fd path data p : good_path path -> Z.of_nat (length data) < 2 ^ 31 -> open_at P e fd path data p ->
  let got := take 4096 (drop p data) in
  exists e', kobalt_vfs_read_binary e path 4096 = Some (if (length got =? 0)%nat then TYKID_ERR_GENERIC else TYKID_OK, got, e') /\
    P (world (e_vfs e')) /\ (got <> [] -> open_at P e' fd path data (p + length got)).
Proof.
  intros Hgp Hlen [[Ef Hf] Ep Hs Hp Hle] got. unfold kobalt_vfs_read_binary. rewrite Ef, Ep, (strncmp_refl _ Hgp), (proj2 (Z.eqb_neq fd 0)) by lia.
  cbn [orb negb mbind option_bind]. change (TYKID_OK =? TYKID_OK) with true. cbn [negb]. rewrite Ef.
  destruct (read_fill_serves P fd data 4096 Hlen ltac:(lia) (Z.to_nat 4096) (e_vfs e) p [] Hs Hp Hle) as (v1 & E & S1 & P1); [cbn; lia|cbn [length Nat.add]; lia|].
  rewrite E. cbn [mbind option_bind app length]. rewrite Nat.sub_0_r in P1 |- *. change (Z.to_nat 4096) with 4096%nat in *. fold got in P1 |- *.
  destruct (length got =? 0)%nat eqn:E0.
  - destruct (close_serves P v1 fd data S1) as (v2 & -> & Hw2). cbn [mbind option_bind]. apply Nat.eqb_eq, length_zero_iff_nil in E0. rewrite E0. eexists. by split.
  - eexists. split; [reflexivity|]. split; [apply S1|]. intros _. constructor; cbn [bin_fd bin_path e_vfs with_vfs]; try done.
    unfold got. rewrite length_take, length_drop. lia.
Qed.

Lemma chunks_serves P fd path data : good_path path -> Z.of_nat (length data) < 2 ^ 31 -> forall fuel e p, open_at P e fd path data p ->
  ((length data - p) / 4096 < fuel)%nat ->
  exists xs e', read_chunks fuel e path = Some (TYKID_OK, xs, e') /\ concat xs = drop p data /\ P (world (e_vfs e')) /\
    (((length data - p) mod 4096 <> 0)%nat -> open_at P e' fd path data (length data)).
Proof.
  intros Hgp Hlen. induction fuel as [|fuel IH]; intros e p Ho Hf; [lia|]. cbn [read_chunks].
  destruct (binary_serves P e fd path data p Hgp Hlen Ho) as (e1 & -> & Hw1 & Ho1). cbn [mbind option_bind]. pose proof (oa_le _ _ _ _ _ _ Ho) as Hle.
  set (got := take 4096 (drop p data)) in *. assert (Lg : length got = Nat.min 4096 (length data - p)) by (unfold got; rewrite length_take, length_drop; lia).
  destruct (Nat.eqb_spec (length got) 0) as [E0|E0].
  - change (TYKID_ERR_GENERIC =? TYKID_ERR_GENERIC) with true. cbn [negb andb orb]. rewrite E0. cbn [Nat.ltb Nat.leb]. exists [], e1.
    split_and!; [done|cbn; symmetry; apply drop_ge; lia|done|]. intros Hm. replace (length data - p)%nat with 0%nat in Hm by lia. by destruct Hm.
  - change (TYKID_OK =? TYKID_ERR_GENERIC) with false. change (TYKID_OK =? TYKID_OK) with true. cbn [negb andb orb].
    rewrite (proj2 (Nat.ltb_lt 0 _)) by lia. assert (Hne : got <> []) by (intros E; apply E0; by rewrite E). specialize (Ho1 Hne).
    destruct (Z.ltb_spec (Z.of_nat (length got)) 4096) as [Hs|Hs].
    + exists [got], e1. assert (Eg : got = drop p data) by (unfold got; apply take_ge; rewrite length_drop; lia).
      split_and!; [done|cbn [concat]; by rewrite app_nil_r|done|]. intros _. assert (El : length data = (p + length got)%nat) by lia. rewrite El. exact Ho1.
    + assert (Hq : (length data - p = 1 * 4096 + (length data - (p + length got)))%nat) by lia.
      destruct (IH e1 (p + length got)%nat Ho1) as (xs & e2 & -> & Ex & Hw2 & Ho2).
      { rewrite Hq, Nat.add_comm, Nat.div_add in Hf by lia. lia. }
      cbn [mbind option_bind]. exists (got :: xs), e2. split_and!; [done| |done|].
      * cbn [concat]. rewrite Ex. replace (length got) with 4096%nat by lia. unfold got. by rewrite <- drop_drop, take_drop.
      * intros Hm. apply Ho2. rewrite Hq, Nat.add_comm, Nat.Div0.mod_add in Hm. done.
Qed.

(** The descriptor and file system a check of a file not open before gets. *)
Definition reopen e path : option (Z * vfs W) :=
  v ← (if 0 <? bin_fd e then vfs_close (e_vfs e) (bin_fd e) else Some (e_vfs e)); vfs_open v path VFS_O_RDONLY 0.

Lemma chunks_reopen e path fuel fd v : good_path path -> bin_fd e = 0 \/ ty_strncmp (bin_path e) path 256 <> 0 ->
  reopen e path = Some (fd, v) -> 0 < fd -> read_chunks fuel e path = read_chunks fuel (ENV fd path v (e_ext e)) path.
Proof.
  intros Hgp Hb Hr Hfd. destruct fuel as [|fuel]; [done|]. cbn [read_chunks]. f_equal. unfold kobalt_vfs_read_binary at 1.
  assert (Hc : (bin_fd e =? 0) || negb (ty_strncmp (bin_path e) path 256 =? 0) = true) by (destruct Hb as [->|Hb]; [done|]; rewrite (proj2 (Z.eqb_neq _ 0) Hb); apply orb_true_r).
  rewrite Hc. unfold reopen in Hr. destruct (if 0 <? bin_fd e then vfs_close (e_vfs e) (bin_fd e) else Some (e_vfs e)) as [v0|]; [|done].
  cbn [mbind option_bind] in Hr |- *. rewrite Hr. cbn [mbind option_bind]. rewrite (proj2 (Z.ltb_ge fd 0)) by lia.
  rewrite strncpy_fits by (destruct Hgp; lia). cbn [mbind option_bind].
  unfold kobalt_vfs_read_binary. cbn [bin_fd bin_path e_vfs e_ext with_bin with_vfs]. rewrite (strncmp_refl _ Hgp), (proj2 (Z.eqb_neq fd 0)) by lia.
  cbn [orb negb mbind option_bind bin_fd bin_path e_vfs e_ext with_bin with_vfs].
  change (TYKID_OK =? TYKID_OK) with true. cbn [negb]. reflexivity.
Qed.

(** C15. The integrity check of a file that is opened for it, with a descriptor
    other than 0, returns; it accepts exactly when the stored tag is the MAC
    of the file's contents.  When the size is no multiple of 4096 the file
    stays open at its end, and a second check looks at no byte of it. *)
Theorem integrity_exact (P : W -> Prop) (c : tykid_gate_ctx) (e : env W X) (path data expected : list Z) (fd : Z) (v : vfs W) (fuel : nat) :
  length (hmac_key c) = 32%nat -> good_path path -> Z.of_nat (length data) < 2 ^ 31 ->
  bin_fd e = 0 \/ ty_strncmp (bin_path e) path 256 <> 0 -> reopen e path = Some (fd, v) -> 0 < fd ->
  serves P v fd data -> at_pos v fd 0 -> (length data / 4096 < fuel)%nat ->
  exists e1, ty_integrity_check_file fuel c e path expected = Some (verdict (hmac_key c) data expected, e1) /\
    ((length data mod 4096 <> 0)%nat -> exists e2, ty_integrity_check_file fuel c e1 path expected = Some (verdict (hmac_key c) [] expected, e2)).
Proof.
  intros Hk Hgp Hlen Hb Hr Hfd Hs Hp Hf. rewrite (integrity_spec fuel c e) by done. rewrite (chunks_reopen e path fuel fd v) by done.
  assert (Ho : open_at P (ENV fd path v (e_ext e)) fd path data 0) by (constructor; cbn; try done; lia).
  destruct (chunks_serves P fd path data Hgp Hlen fuel _ 0 Ho) as (xs & e1 & -> & Ex & _ & Ho1); [by rewrite Nat.sub_0_r|].
  cbn [mbind option_bind]. change (TYKID_OK =? TYKID_OK) with true. cbn [negb]. rewrite Ex. cbn [drop]. exists e1. split; [reflexivity|].
  rewrite Nat.sub_0_r in Ho1. intros Hm. specialize (Ho1 Hm). rewrite integrity_spec by done.
  destruct (chunks_serves P fd path data Hgp Hlen fuel e1 (length data) Ho1) as (ys & e2 & -> & Ey & _).
  { rewrite Nat.sub_diag. cbn. lia. }
  cbn [mbind option_bind]. change (TYKID_OK =? TYKID_OK) with true. cbn [negb]. rewrite Ey, drop_ge by done. by exists e2.
Qed.

(** ** The life cycle of a driver *)

Variable tsc : X -> Z * X.

Definition startable d : Prop :=
  dr_state d <> TYKID_DRV_STATE_ACTIVE /\ dr_state d <> TYKID_DRV_STATE_BLOCKED /\ dr_state d <> TYKID_DRV_STATE_SKIPPED /\
  has_flag d TYKID_DRV_FLAG_BLACKLISTED = false.

(** A read of the driver's file gave bytes whose MAC is the one of its
    manifest. *)
Definition verified_file cf (key : list Z) d : Prop :=
  exists fuel e path xs e', full_path cf (dr_path d) = Some path /\ read_chunks fuel e path = Some (TYKID_OK, xs, e') /\
    ty_memeq (file_mac key (concat xs)) (dr_hmac d) 32 = true.

(** [boot] allows the two steps of the approval of linked drivers. *)
Section lives.
Variable boot : bool.

Inductive life cf (key : list Z) : tykid_driver_desc_t -> tykid_driver_desc_t -> Prop :=
  | life_active d base ts : startable d -> verified_file cf key d -> has_flag d TYKID_DRV_FLAG_LAZY = false -> base <> 0 ->
      life cf key d (set_active (add_flag d TYKID_DRV_FLAG_VERIFIED) base ts)
  | life_deferred d : startable d -> verified_file cf key d -> has_flag d TYKID_DRV_FLAG_LAZY = true ->
      life cf key d (set_state (add_flag d TYKID_DRV_FLAG_VERIFIED) TYKID_DRV_STATE_PENDING)
  | life_load_fails d : startable d -> verified_file cf key d ->
      life cf key d (set_state (add_flag d TYKID_DRV_FLAG_VERIFIED) TYKID_DRV_STATE_FAILED)
  | life_rejected d : startable d -> life cf key d (set_blocked d TY_THREAT_TAMPERED)
  | life_dep_missing d : dr_state d <> TYKID_DRV_STATE_BLOCKED -> dr_state d <> TYKID_DRV_STATE_SKIPPED ->
      life cf key d (set_state d TYKID_DRV_STATE_FAILED)
  | life_skipped d mask : dr_state d = TYKID_DRV_STATE_PENDING -> ty_selector_driver_needed d mask = false ->
      life cf key d (set_state d TYKID_DRV_STATE_SKIPPED)
  | life_unloaded d : dr_state d = TYKID_DRV_STATE_ACTIVE -> life cf key d (set_base (set_state d TYKID_DRV_STATE_UNLOADED) 0)
  | life_blacklisted d : life cf key d (add_flag d TYKID_DRV_FLAG_BLACKLISTED)
  | life_tampered d base : dr_state d = TYKID_DRV_STATE_ACTIVE -> base = 0 \/ base = base_vaddr d ->
      life cf key d (set_base (set_blocked d TY_THREAT_TAMPERED) base)
  | life_revoked d base : base = 0 \/ base = base_vaddr d -> life cf key d (set_base (set_blocked d TY_THREAT_REVOKED) base)
  | life_approved d mask : boot = true -> dr_state d = TYKID_DRV_STATE_REGISTERED -> ty_selector_driver_needed d mask = true ->
      life cf key d (set_state d TYKID_DRV_STATE_ACTIVE)
  | life_audio d name : boot = true -> dr_state d = TYKID_DRV_STATE_SKIPPED -> In name (AUDIO_HDA_DRVS ++ AUDIO_USB_DRVS) ->
      ty_strncmp (dr_name d) (bytes name) (Z.to_nat TYKID_MAX_NAME) = 0 -> life cf key d (set_state d TYKID_DRV_STATE_ACTIVE).

(** Registries driver by driver; the key stays. *)
Definition moves cf c c' : Prop := hmac_key c' = hmac_key c /\ Forall2 (rtc (life cf (hmac_key c))) (reg c) (reg c').

Lemma moves_refl cf c c' : hmac_key c' = hmac_key c -> reg c' = reg c -> moves cf c c'.
Proof. intros Hk Hr. split; [done|]. rewrite Hr. by apply Forall_Forall2_diag, Forall_true. Qed.

Lemma moves_trans cf c1 c2 c3 : moves cf c1 c2 -> moves cf c2 c3 -> moves cf c1 c3.
Proof.
  intros [K1 M1] [K2 M2]. split; [congruence|]. rewrite K1 in M2. revert M2. generalize (reg c3). induction M1 as [|d d1 l l1 H1 M1 IH]; intros l3 M2.
  - by inversion M2.
  - inversion M2 as [|? d3 ? l3' H3 M3]; subst. constructor; [by etrans|by apply IH].
Qed.

Lemma moves_one cf c c' i d d' : reg c !! i = Some d -> rtc (life cf (hmac_key c)) d d' -> hmac_key c' = hmac_key c -> reg c' = <[i := d']> (reg c) -> moves cf c c'.
Proof.
  intros Hi Hl Hk Hr. split; [done|]. rewrite Hr. apply Forall2_lookup. intros j. destruct (decide (i = j)) as [<-|Hne].
  - rewrite Hi, list_lookup_insert_eq by (by eapply lookup_lt_Some). by constructor.
  - rewrite list_lookup_insert_ne by done. destruct (reg c !! j); by constructor.
Qed.

Lemma state_is_spec d st : state_is d st = true <-> dr_state d = st.
Proof. unfold state_is. apply bool_decide_eq_true. Qed.
Lemma state_is_not d st : state_is d st = false <-> dr_state d <> st.
Proof. unfold state_is. apply bool_decide_eq_false. Qed.

(** The 256 rounds of [attempt_loop] are enough for every 8-bit limit. *)
Lemma attempt_fuel f path (max deadline : Z) : max <= 255 -> forall n k attempts base e, 0 <= attempts <= 254 -> (0 < n)%nat -> max - attempts <= Z.of_nat n ->
  attempt_loop tsc n f path attempts max base deadline (e : env W X) = attempt_loop tsc (n + k) f path attempts max base deadline e.
Proof.
  intros Hm. induction n as [|n IH]; intros k attempts base e Ha Hn Hf; [lia|]. cbn [Nat.add attempt_loop].
  destruct (f path base (e_ext e)) as [[st b] x]. destruct (read_tsc tsc (with_ext e x)) as [now e1]. destruct (deadline <=? now); [done|].
  unfold u8. rewrite Z.mod_small by lia. destruct (negb (st =? TYKID_OK) && (attempts + 1 <? max)) eqn:E; [|done].
  apply andb_true_iff in E as [_ E]. apply Z.ltb_lt in E. apply IH; lia.
Qed.

(** One load. *)
Lemma load_module_moves cf c e i d path r : reg c !! i = Some d -> startable d -> verified_file cf (hmac_key c) d ->
  load_module tsc cf c e i (add_flag (set_state d TYKID_DRV_STATE_LOADING) TYKID_DRV_FLAG_VERIFIED) path = r -> moves cf c (snd (fst r)).
Proof.
  intros Hi Hs Hv <-. unfold load_module.
  set (d1 := add_flag (set_state d TYKID_DRV_STATE_LOADING) TYKID_DRV_FLAG_VERIFIED).
  assert (Hl : has_flag d1 TYKID_DRV_FLAG_LAZY = has_flag d TYKID_DRV_FLAG_LAZY).
  { unfold has_flag, d1. cbn [dr_flags add_flag set_state dyn]. rewrite Z.land_lor_distr_l. change (Z.land TYKID_DRV_FLAG_VERIFIED TYKID_DRV_FLAG_LAZY) with 0. by rewrite Z.lor_0_r. }
  assert (Hf : moves cf c (fail_one c i d1)).
  { eapply (moves_one cf c _ i d); [done|apply rtc_once, (life_load_fails cf _ d Hs Hv)|done|reflexivity]. }
  rewrite Hl. destruct (has_flag d TYKID_DRV_FLAG_LAZY) eqn:El.
  { eapply (moves_one cf c _ i d); [done|apply rtc_once, (life_deferred cf _ d Hs Hv El)|done|reflexivity]. }
  destruct (ko_load_fn cf) as [f|]; [|exact Hf]. destruct (read_tsc tsc e) as [now e1].
  destruct (attempt_loop tsc 256 f path 0 _ 0 _ e1) as [[[st base]|] e2]; [|exact Hf].
  destruct (negb (st =? TYKID_OK) || (base =? 0)) eqn:Eb; [exact Hf|]. apply orb_false_iff in Eb as [_ Eb]. apply Z.eqb_neq in Eb.
  destruct (read_tsc tsc e2) as [now2 e3].
  eapply (moves_one cf c _ i d); [done|apply rtc_once, (life_active cf _ d base now2 Hs Hv El Eb)|done|reflexivity].
Qed.

Lemma integrity_cases fuel c e path expected st xs e' b : length (hmac_key c) = 32%nat -> read_chunks fuel e path = Some (st, xs, e') ->
  ty_memeq (file_mac (hmac_key c) (concat xs)) expected 32 = b ->
  ty_integrity_check_file fuel c e path expected = Some (if negb (st =? TYKID_OK) then st else if b then TYKID_OK else TYKID_ERR_DRIVER_CORRUPT, e').
Proof. intros Hk Er <-. rewrite integrity_spec, Er by done. unfold verdict. reflexivity. Qed.

Lemma integrity_verifies cf fuel c e d path e' : length (hmac_key c) = 32%nat -> full_path cf (dr_path d) = Some path ->
  ty_integrity_check_file fuel c e path (dr_hmac d) = Some (TYKID_OK, e') -> verified_file cf (hmac_key c) d.
Proof.
  intros Hk Ep H. destruct (read_chunks fuel e path) as [[[st xs] e1]|] eqn:Er; [|by rewrite integrity_spec, Er in H].
  remember (ty_memeq (file_mac (hmac_key c) (concat xs)) (dr_hmac d) 32) as b eqn:Em. symmetry in Em. rewrite (integrity_cases _ _ _ _ _ _ _ _ b Hk Er Em) in H.
  destruct (read_chunks_status _ _ _ _ _ _ Er) as [-> | ->]; [|done]. destruct b; [|done].
  exists fuel, e, path, xs, e1. split; [exact Ep|]. split; [exact Er|exact Em].
Qed.

Lemma load_one_moves cf fuel c e i st c' e' : length (hmac_key c) = 32%nat -> ty_gate_load_one tsc cf fuel c e i = Some (st, c', e') -> moves cf c c'.
Proof.
  intros Hk H. unfold ty_gate_load_one in H. destruct (reg c !! i) as [d|] eqn:Hi; [|done]. cbn [mbind option_bind] in H.
  destruct (state_is d TYKID_DRV_STATE_ACTIVE) eqn:E1; [injection H as _ <- _; by apply moves_refl|].
  destruct (state_is d TYKID_DRV_STATE_BLOCKED) eqn:E2; [injection H as _ <- _; by apply moves_refl|].
  destruct (state_is d TYKID_DRV_STATE_SKIPPED) eqn:E3; [injection H as _ <- _; by apply moves_refl|].
  destruct (has_flag d TYKID_DRV_FLAG_BLACKLISTED) eqn:E4; [injection H as _ <- _; by apply moves_refl|].
  destruct (has_flag d TYKID_DRV_FLAG_SINGLETON && _); [injection H as _ <- _; by apply moves_refl|].
  apply state_is_not in E1, E2, E3. assert (Hs : startable d) by done. cbn [dr_path dr_hmac set_state dyn] in H.
  destruct (full_path cf (dr_path d)) as [path|] eqn:Ep; [|done]. cbn [mbind option_bind] in H.
  destruct (ty_integrity_check_file fuel c e path (dr_hmac d)) as [[st1 e1]|] eqn:Ei; [|done]. cbn [mbind option_bind] in H.
  destruct (Z.eqb_spec st1 TYKID_OK) as [->|Hne]; cbn [negb] in H.
  - apply integrity_verifies with (cf := cf) in Ei; [|done..]. apply (f_equal (from_option (fun r => snd (fst r)) c)) in H. cbn [from_option fst snd] in H.
    rewrite <- H. by eapply load_module_moves.
  - injection H as _ <- _. eapply (moves_one cf c _ i d); [done|apply rtc_once, (life_rejected cf _ d Hs)|done|reflexivity].
Qed.

Lemma drop_module_base cf d e : exists b e', (b = 0 \/ b = base_vaddr d) /\ drop_module cf d e = (set_base d b, e').
Proof.
  unfold drop_module. destruct (ko_unload_fn cf) as [f|]; [destruct (base_vaddr d =? 0)|]; try (exists (base_vaddr d), e; split; [by right|by destruct d]).
  destruct (unload f (base_vaddr d) e) as [st e1]. exists 0, e1. split; [by left|done].
Qed.

Lemma recheck_moves cf fuel n : forall i c e k k' c' e', recheck_drivers n i cf fuel c e k = Some (k', c', e') -> moves cf c c'.
Proof.
  induction n as [|n IH]; intros i c e k k' c' e' H; cbn [recheck_drivers] in H; [injection H as _ <- _; by apply moves_refl|].
  destruct (reg c !! i) as [d|] eqn:Hi; [|done]. cbn [mbind option_bind] in H.
  destruct (state_is d TYKID_DRV_STATE_ACTIVE) eqn:Ea; cbn [negb] in H; [|by eapply IH]. apply state_is_spec in Ea.
  destruct (tykid_verify_driver_integrity cf fuel c e d) as [[ds e1]|]; [|done]. cbn [mbind option_bind] in H.
  destruct (ds =? TYKID_OK); [by eapply IH|]. destruct (drop_module_base cf (set_blocked d TY_THREAT_TAMPERED) e1) as (b & e2 & Hb & Eb). rewrite Eb in H.
  apply IH in H. eapply moves_trans; [|exact H]. eapply (moves_one cf c _ i d); [done|apply rtc_once, (life_tampered cf _ d b Ea Hb)|done|reflexivity].
Qed.

Lemma load_loop_moves cf fuel sel l : forall c e res res' c' e', length (hmac_key c) = 32%nat ->
  load_loop tsc l cf fuel sel c e res = Some (res', c', e') -> moves cf c c'.
Proof.
  induction l as [|ri l IH]; intros c e res res' c' e' Hk H; cbn [load_loop] in H; [injection H as _ <- _; by apply moves_refl|].
  destruct (reg c !! Z.to_nat ri) as [d|] eqn:Hi; [|by eapply IH]. destruct (negb (sel (Z.to_nat ri))); [by eapply IH|].
  destruct (state_is d TYKID_DRV_STATE_BLOCKED || state_is d TYKID_DRV_STATE_SKIPPED) eqn:Es; [by eapply IH|].
  apply orb_false_iff in Es as [Eb Es]. apply state_is_not in Eb, Es. destruct (negb (deps_ready (reg c) d)).
  - apply IH in H; [|done]. eapply moves_trans; [|exact H].
    eapply (moves_one cf c _ (Z.to_nat ri) d); [done|apply rtc_once, (life_dep_missing cf _ d Eb Es)|done|reflexivity].
  - destruct (ty_gate_load_one tsc cf fuel c e (Z.to_nat ri)) as [[[st c1] e1]|] eqn:El; [|done]. cbn [mbind option_bind] in H.
    apply load_one_moves in El; [|done]. apply IH in H; [by eapply moves_trans|]. destruct El as [-> _]. done.
Qed.

Lemma selector_moves cf b c : moves cf c (ty_selector_apply b c).
Proof.
  unfold ty_selector_apply. destruct b; [by apply moves_refl|]. split; [done|]. cbn [reg add_skipped with_tot with_reg].
  apply Forall2_fmap_r, Forall_Forall2_diag, Forall_true. intros d.
  change (rtc (life cf (hmac_key c)) d (skip_one (essential_mask c) d)). unfold skip_one.
  destruct (state_is d TYKID_DRV_STATE_ACTIVE); [reflexivity|]. destruct (state_is d TYKID_DRV_STATE_REGISTERED) eqn:E; cbn [negb]; [|reflexivity].
  destruct (ty_selector_driver_needed d _) eqn:En; [reflexivity|]. apply state_is_spec in E. by eapply rtc_once, life_skipped.
Qed.

(** *** Calls that keep the registry *)

Ltac sealed H := destruct (negb (tykid_verify_seal _ =? TYKID_OK)) in H; [injection H as _ <- _; by apply moves_refl|].
Ltac found H := destruct (ty_find_driver_by_name _ _ <? 0) in H; [injection H as _ <- _; by apply moves_refl|].

Lemma arbitrate_loads_moves cf fuel c e hw st res' c' e' : length (hmac_key c) = 32%nat ->
  arbitrate_loads tsc cf fuel c e hw = Some (st, res', c', e') -> moves cf c c'.
Proof.
  intros Hk H. unfold arbitrate_loads in H. destruct (select_drivers _ hw) as [sel|]; [|done]. cbn [mbind option_bind] in H.
  destruct (load_loop tsc _ cf fuel sel _ e _) as [[[r c1] e1]|] eqn:El; [|done]. cbn [mbind option_bind] in H. injection H as _ _ <- _.
  pose proof (selector_moves cf (load_non_essential cf) c) as Hs. apply load_loop_moves in El; [by eapply moves_trans|]. destruct Hs as [-> _]. done.
Qed.

Lemma load_driver_moves cf fuel c e name st c' e' : length (hmac_key c) = 32%nat ->
  tykid_load_driver tsc cf fuel c e name = Some (st, c', e') -> moves cf c c'.
Proof. intros Hk H. unfold tykid_load_driver in H. sealed H. found H. by eapply load_one_moves. Qed.

Lemma unload_moves cf c e name st c' e' : tykid_unload_driver cf c e name = Some (st, c', e') -> moves cf c c'.
Proof.
  intros H. unfold tykid_unload_driver in H. sealed H. found H. destruct (reg c !! _) as [d|] eqn:Hi; [|done]. cbn [mbind option_bind] in H.
  destruct (state_is d TYKID_DRV_STATE_ACTIVE) eqn:Ea; cbn [negb] in H; [|injection H as _ <- _; by apply moves_refl]. apply state_is_spec in Ea.
  destruct (ko_unload_fn cf) as [f|]; [|injection H as _ <- _; by apply moves_refl]. destruct (unload f (base_vaddr d) e) as [st1 e1].
  destruct (negb (st1 =? TYKID_OK)); injection H as _ <- _; [by apply moves_refl|].
  eapply (moves_one cf c _ _ d); [done|apply rtc_once, (life_unloaded cf _ d Ea)|done|reflexivity].
Qed.

Lemma blacklist_moves cf c name st c' : tykid_blacklist_driver c name = Some (st, c') -> moves cf c c'.
Proof.
  intros H. unfold tykid_blacklist_driver in H. destruct (ty_find_driver_by_name c name <? 0); [injection H as _ <-; by apply moves_refl|].
  destruct (reg c !! _) as [d|] eqn:Hi; [|done]. cbn [mbind option_bind] in H. injection H as _ <-.
  eapply (moves_one cf c _ _ d); [done|apply rtc_once, (life_blacklisted cf _ d)|done|reflexivity].
Qed.

Lemma recheck_all_moves cf fuel c e st c' e' : tykid_recheck_all cf fuel c e = Some (st, c', e') -> moves cf c c'.
Proof.
  intros H. unfold tykid_recheck_all in H. sealed H. destruct (recheck_drivers _ 0 cf fuel c e 0) as [[[k c1] e1]|] eqn:Er; [|done].
  cbn [mbind option_bind] in H. injection H as _ <- _. apply recheck_moves in Er. eapply moves_trans; [exact Er|by apply moves_refl].
Qed.

Lemma revoke_moves cf c e name st c' e' : tykid_revoke_driver cf c e name = Some (st, c', e') -> moves cf c c'.
Proof.
  intros H. unfold tykid_revoke_driver in H. sealed H. found H. destruct (reg c !! _) as [d|] eqn:Hi; [|done]. cbn [mbind option_bind] in H.
  match type of H with context [drop_module cf d ?e0] => destruct (drop_module_base cf d e0) as (b & e2 & Hb & Eb) end. rewrite Eb in H. injection H as _ <- _.
  eapply (moves_one cf c _ _ d); [done|apply rtc_once, (life_revoked cf _ d b Hb)|done|reflexivity].
Qed.
End lives.

(** *** The approval of linked drivers *)

Lemma find_driver_found l name : forall k, 0 <= k -> 0 <= find_driver l k name ->
  exists d, l !! Z.to_nat (find_driver l k name - k) = Some d /\ k <= find_driver l k name /\ ty_strncmp (dr_name d) name (Z.to_nat TYKID_MAX_NAME) = 0.
Proof.
  induction l as [|d l IH]; intros k Hk H; cbn [find_driver] in H |- *; [lia|].
  destruct (Z.eqb_spec (ty_strncmp (dr_name d) name (Z.to_nat TYKID_MAX_NAME)) 0) as [E|_]; [exists d; rewrite Z.sub_diag; split_and!; [done|lia|done]|].
  destruct (IH (k + 1) ltac:(lia) H) as (d' & Hd & Hle & E). exists d'. split_and!; [|lia|done].
  replace (Z.to_nat (find_driver l (k + 1) name - k)) with (S (Z.to_nat (find_driver l (k + 1) name - (k + 1)))) by lia. done.
Qed.

Lemma approve_moves cf c name : In name (AUDIO_HDA_DRVS ++ AUDIO_USB_DRVS) -> moves true cf c (approve_skipped c name).
Proof.
  intros Hn. unfold approve_skipped. destruct (Z.ltb_spec (ty_find_driver_by_name c (bytes name)) 0) as [_|H]; [by apply moves_refl|].
  destruct (find_driver_found (reg c) (bytes name) 0 ltac:(lia) H) as (d & Hd & _ & E). rewrite Z.sub_0_r in Hd.
  change (find_driver (reg c) 0 (bytes name)) with (ty_find_driver_by_name c (bytes name)) in Hd. rewrite Hd.
  destruct (state_is d TYKID_DRV_STATE_SKIPPED) eqn:Es; [|by apply moves_refl]. apply state_is_spec in Es.
  eapply moves_one; [done|by apply rtc_once, (life_audio true cf _ d name)|done|reflexivity].
Qed.

Lemma approves_move cf l : incl l (AUDIO_HDA_DRVS ++ AUDIO_USB_DRVS) -> forall c, moves true cf c (fold_left approve_skipped l c).
Proof.
  induction l as [|n l IH]; intros Hl c; [by apply moves_refl|]. cbn [fold_left].
  eapply moves_trans; [apply approve_moves, Hl; by left|]. apply IH. intros x Hx. apply Hl. by right.
Qed.

Lemma gate_builtins_moves cf c hw pci : moves true cf c (tykid_kobalt_gate_builtins c hw pci).
Proof.
  unfold tykid_kobalt_gate_builtins. cbv zeta. set (m := essential_mask _). set (c1 := with_reg _ _).
  assert (M1 : moves true cf c c1).
  { split; [done|]. subst c1. cbn [reg with_reg]. apply Forall2_fmap_r, Forall_Forall2_diag, Forall_true. intros d.
    change (rtc (life true cf (hmac_key c)) d (gate_one m d)). unfold gate_one.
    destruct (state_is d TYKID_DRV_STATE_REGISTERED) eqn:E; cbn [negb]; [|reflexivity]. apply state_is_spec in E.
    destruct (ty_selector_driver_needed d m) eqn:En; [by eapply rtc_once, life_approved|by eapply rtc_once, life_skipped]. }
  set (c2 := if existsb _ pci then fold_left approve_skipped AUDIO_HDA_DRVS c1 else c1).
  assert (M2 : moves true cf c1 c2).
  { subst c2. destruct (existsb _ pci); [|by apply moves_refl]. apply approves_move. apply incl_appl, incl_refl. }
  eapply moves_trans; [exact M1|]. eapply moves_trans; [exact M2|]. clearbody c2. clear M1 M2.
  destruct (existsb _ pci); [|by apply moves_refl]. apply approves_move. apply incl_appr, incl_refl.
Qed.

(** *** The registry scan *)

(** A descriptor that comes from a manifest. *)
Definition fresh d : Prop := dr_state d = TYKID_DRV_STATE_ABSENT /\ base_vaddr d = 0.

Lemma parse_fresh buf st d : ty_parse_manifest_buf buf = Some (st, d) -> fresh d.
Proof.
  unfold ty_parse_manifest_buf. destruct (parse_lines _ _ _) as [m|]; [|done]. cbn [mbind option_bind].
  destruct (_ || _); intros [= _ <-]; done.
Qed.

Lemma path_iter_fresh cf fuel : forall e i entries table entries' table' (e' : env W X), Forall fresh entries ->
  ty_kobalt_path_iter fuel cf e i entries table = Some (entries', table', e') -> Forall fresh entries'.
Proof.
  induction fuel as [|fuel IH]; intros e i entries table entries' table' e' Hf H; [done|]. cbn [ty_kobalt_path_iter] in H.
  destruct (vfs_readdir _ _ i) as [[[rc de] v]|]; [|done]. cbn [mbind option_bind] in H. destruct (rc <? 0); [by injection H as <- _ _|].
  destruct de as [de|]; [|done]. cbn [mbind option_bind] in H.
  destruct (ty_scan_callback cf _ entries table (v_name de)) as [[[[go en] ta] e1]|] eqn:E; [|done]. cbn [mbind option_bind] in H.
  assert (Hen : Forall fresh en).
  { unfold ty_scan_callback in E. destruct (length (v_name de) <? 16)%nat; [by injection E as _ <- _ _|].
    destruct (negb _); [by injection E as _ <- _ _|]. destruct (TYKID_MAX_DRIVERS <=? _); [by injection E as _ <- _ _|].
    destruct (full_path cf (v_name de)); [|done]. cbn [mbind option_bind] in E.
    destruct (kobalt_vfs_read_text _ _ _) as [[[st buf] e2]|]; [|done]. cbn [mbind option_bind] in E.
    destruct (negb _); [by injection E as _ <- _ _|]. destruct (ty_parse_manifest_buf (c_string buf)) as [[st1 tmp]|] eqn:Ep; [|done].
    cbn [mbind option_bind] in E. destruct (negb _); [by injection E as _ <- _ _|]. destruct (scan_deps _); [|done]. cbn [mbind option_bind] in E.
    injection E as _ <- _ _. apply Forall_app. split; [done|]. constructor; [by eapply parse_fresh|done]. }
  destruct go; [by eapply IH|]. by injection H as <- _ _.
Qed.

Lemma scan_fresh cf fuel c (e : env W X) st c' e' : ty_registry_scan cf fuel c e = Some (st, c', e') ->
  hmac_key c' = hmac_key c /\ Forall fresh (reg c').
Proof.
  unfold ty_registry_scan. intros H. destruct (negb (path_iter_fn cf)); [by injection H as _ <- _|].
  destruct (alloc_fn cf DEP_TABLE_BYTES (e_ext e)) as [a x]. destruct (a =? 0); [by injection H as _ <- _|].
  destruct (ty_kobalt_path_iter fuel cf _ 0 [] []) as [[[en ta] e1]|] eqn:E; [|done]. cbn [mbind option_bind] in H.
  apply path_iter_fresh in E; [|done]. destruct (length en =? 0)%nat; [by injection H as _ <- _|].
  assert (Hr : Forall fresh (ty_registry_resolve_deps en ta)).
  { apply Forall_lookup. intros i d Hd. unfold ty_registry_resolve_deps in Hd. rewrite list_lookup_imap in Hd.
    destruct (en !! i) as [d0|] eqn:E0; [|done]. injection Hd as <-. exact (proj1 (Forall_lookup _ _) E i d0 E0). }
  destruct (build_graph _) as [st1 g]. destruct (negb (st1 =? TYKID_OK)); [by injection H as _ <- _|].
  destruct (ty_dep_graph_toposort g) as [[st2 g2]|]; [|done]. cbn [mbind option_bind] in H. by injection H as _ <- _.
Qed.

(** *** All calls *)

(** What a call may do to the registry as a whole: an ordinary call moves
    drivers through their life cycle, the boot code registers and approves
    linked drivers, a scan reads the registry again. *)
Inductive kind := ordinary | builtins | rescan.

(** A call of the gate, in whatever environment. *)
Inductive call cf : kind -> tykid_gate_ctx -> tykid_gate_ctx -> Prop :=
  | call_load fuel c e name st c' e' : tykid_load_driver tsc cf fuel c e name = Some (st, c', e') -> call cf ordinary c c'
  | call_unload c e name st c' e' : tykid_unload_driver cf c e name = Some (st, c', e') -> call cf ordinary c c'
  | call_blacklist c name st c' : tykid_blacklist_driver c name = Some (st, c') -> call cf ordinary c c'
  | call_recheck fuel c e st c' e' : tykid_recheck_all cf fuel c e = Some (st, c', e') -> call cf ordinary c c'
  | call_revoke c e name st c' e' : tykid_revoke_driver cf c e name = Some (st, c', e') -> call cf ordinary c c'
  | call_mask c hw : call cf ordinary c (snd (tykid_compute_essential_mask c hw))
  | call_probe c h : call cf ordinary c (hw_probed c h)
  | call_arbitrate fuel c e hw topology res st res' c' e' : tykid_arbitrate tsc cf fuel c e hw topology res = Some (st, res', c', e') ->
      call cf (if probed c && negb (topology =? probe_hash c) then rescan else ordinary) c c'
  | call_scan fuel c e st c' e' : ty_registry_scan cf fuel c e = Some (st, c', e') -> call cf rescan c c'
  | call_register c : call cf builtins c (tykid_kobalt_register_builtins c)
  | call_gate c hw pci : call cf builtins c (tykid_kobalt_gate_builtins c hw pci).

Definition calls cf (K : kind -> Prop) : tykid_gate_ctx -> tykid_gate_ctx -> Prop := rtc (fun c c' => exists k, K k /\ call cf k c c').

(** The registry as an abstract machine. *)
Inductive reg_step cf (key : list Z) (k : kind) : list tykid_driver_desc_t -> list tykid_driver_desc_t -> Prop :=
  | reg_life r i d d' : r !! i = Some d -> life (match k with builtins => true | _ => false end) cf key d d' ->
      reg_step cf key k r (<[i := d']> r)
  | reg_add r b : k = builtins -> In b TY_BUILTINS -> reg_step cf key k r (r ++ [builtin_desc b])
  | reg_scan r r' : k = rescan -> Forall fresh r' -> reg_step cf key k r r'.

Definition reg_steps cf (key : list Z) (K : kind -> Prop) : list tykid_driver_desc_t -> list tykid_driver_desc_t -> Prop :=
  rtc (fun r r' => exists k, K k /\ reg_step cf key k r r').

Lemma steps_one cf key k (i : nat) d d' : rtc (life (match k with builtins => true | _ => false end) cf key) d d' ->
  forall r, r !! i = Some d -> rtc (reg_step cf key k) r (<[i := d']> r).
Proof.
  induction 1 as [d|d d1 d' H _ IH]; intros r Hr; [by rewrite list_insert_id|].
  eapply rtc_l; [exact (reg_life cf key k r i d d1 Hr H)|].
  rewrite <- (list_insert_insert_eq r i d' d1). apply IH, list_lookup_insert_eq. by eapply lookup_lt_Some.
Qed.

Lemma moves_steps cf c c' k : moves (match k with builtins => true | _ => false end) cf c c' -> rtc (reg_step cf (hmac_key c) k) (reg c) (reg c').
Proof.
  intros [_ M]. change (rtc (reg_step cf (hmac_key c) k) ([] ++ reg c) ([] ++ reg c')). generalize (@nil tykid_driver_desc_t).
  induction M as [|d d' r r' H _ IH]; intros p; [done|].
  etrans; [apply (steps_one cf _ k (length p) d d' H); by apply list_lookup_middle|].
  rewrite insert_app_r_alt by lia. rewrite Nat.sub_diag. cbn [insert list_insert].
  change (d' :: r) with ([d'] ++ r). change (d' :: r') with ([d'] ++ r'). rewrite !app_assoc. apply IH.
Qed.

Lemma register_steps cf key l : incl l TY_BUILTINS -> forall c,
  hmac_key (register_loop l c) = hmac_key c /\ rtc (reg_step cf key builtins) (reg c) (reg (register_loop l c)).
Proof.
  induction l as [|b l IH]; intros Hl c; [by split|]. cbn [register_loop].
  assert (Hl' : incl l TY_BUILTINS) by (intros x Hx; apply Hl; by right).
  destruct (TYKID_MAX_DRIVERS <=? _); [by split|]. destruct (0 <=? ty_find_driver_by_name c _); [by apply IH|].
  destruct (IH Hl' (with_reg c (reg c ++ [builtin_desc b]))) as [K S]. split; [by rewrite K|].
  eapply rtc_l; [|exact S]. apply reg_add; [done|]. apply Hl. by left.
Qed.

Lemma arbitrate_steps cf fuel c e hw topology res st res' c' e' k : length (hmac_key c) = 32%nat ->
  k = (if probed c && negb (topology =? probe_hash c) then rescan else ordinary) ->
  tykid_arbitrate tsc cf fuel c e hw topology res = Some (st, res', c', e') ->
  hmac_key c' = hmac_key c /\ rtc (reg_step cf (hmac_key c) k) (reg c) (reg c').
Proof.
  intros Hk -> H. unfold tykid_arbitrate in H. destruct (negb (tykid_verify_seal c =? TYKID_OK)); [injection H as _ _ <- _; by split|].
  destruct (probed c && negb (topology =? probe_hash c)).
  2: { apply (arbitrate_loads_moves false) in H; [|done]. split; [apply H|]. by apply (moves_steps cf c c' ordinary). }
  destruct (ty_registry_scan cf fuel c e) as [[[st1 c1] e1]|] eqn:Es; [|done]. cbn [mbind option_bind] in H.
  apply scan_fresh in Es as [K1 F1]. assert (S1 : rtc (reg_step cf (hmac_key c) rescan) (reg c) (reg c1)) by (by apply rtc_once, reg_scan).
  destruct (negb (st1 =? TYKID_OK)); [injection H as _ _ <- _; by split|].
  apply (arbitrate_loads_moves false) in H; [|by rewrite <- K1 in Hk]. split; [rewrite (proj1 H); exact K1|].
  etrans; [exact S1|]. apply (moves_steps cf _ _ rescan) in H. cbn [hmac_key with_probe reg] in H. by rewrite K1 in H.
Qed.

Lemma call_steps cf k c c' : length (hmac_key c) = 32%nat -> call cf k c c' ->
  hmac_key c' = hmac_key c /\ rtc (reg_step cf (hmac_key c) k) (reg c) (reg c').
Proof.
  intros Hk H.
  assert (HM : forall c1, moves false cf c c1 -> hmac_key c1 = hmac_key c /\ rtc (reg_step cf (hmac_key c) ordinary) (reg c) (reg c1)).
  { intros c1 M. split; [apply M|]. by apply (moves_steps cf c c1 ordinary). }
  destruct H as [fuel c e name st c' e' H|c e name st c' e' H|c name st c' H|fuel c e st c' e' H|c e name st c' e' H|c hw|c h|
    fuel c e hw topology res st res' c' e' H|fuel c e st c' e' H|c|c hw pci].
  - by eapply HM, load_driver_moves.
  - by eapply HM, unload_moves.
  - by eapply HM, blacklist_moves.
  - by eapply HM, recheck_all_moves.
  - by eapply HM, revoke_moves.
  - by split.
  - by split.
  - by eapply arbitrate_steps.
  - apply scan_fresh in H as [K F]. split; [done|]. by apply rtc_once, reg_scan.
  - apply register_steps, incl_refl.
  - pose proof (gate_builtins_moves cf c hw pci) as M. split; [apply M|]. by apply (moves_steps cf _ _ builtins).
Qed.

Lemma calls_steps cf K c c' : length (hmac_key c) = 32%nat -> calls cf K c c' ->
  hmac_key c' = hmac_key c /\ reg_steps cf (hmac_key c) K (reg c) (reg c').
Proof.
  intros Hk H. induction H as [c|c c1 c' (k & HK & H) _ IH]; [by split; [|constructor]|].
  apply call_steps in H as [K1 S1]; [|done]. rewrite K1 in IH. destruct (IH Hk) as [K2 S2]. split; [done|].
  unfold reg_steps in *. etrans; [|exact S2]. eapply rtc_subrel; [|exact S1]. intros r r' Hr. by exists k.
Qed.

(** C14. Any sequence of calls of the gate, in whatever environments, is a
    run of an abstract machine on the registry: ordinary calls (loading,
    unloading, blacklisting, rechecks, revocation, arbitration on a topology
    that did not change) take single drivers through steps of the life cycle
    [life]; the boot code may besides add linked drivers and approve
    registered ones; a scan, also the one of an arbitration that finds a new
    topology, puts drivers fresh from their manifests in place of all
    others.  Runs restricted to some kinds of call use only steps of those
    kinds. *)
Theorem gate_refines_lifecycle (cf : tykid_config_t X) (K : kind -> Prop) (c c' : tykid_gate_ctx) :
  length (hmac_key c) = 32%nat -> calls cf K c c' ->
  hmac_key c' = hmac_key c /\ reg_steps cf (hmac_key c) K (reg c) (reg c').
Proof. apply calls_steps. Qed.

(** *** What the life cycle excludes *)

Lemma has_flag_add d x b : has_flag (add_flag d x) b = has_flag d b || negb (Z.land x b =? 0).
Proof.
  unfold has_flag. cbn [dr_flags add_flag dyn]. rewrite Z.land_lor_distr_l.
  destruct (Z.eqb_spec (Z.land (dr_flags d) b) 0) as [E|E]; cbn [negb orb]; [by rewrite E|].
  apply negb_true_iff, Z.eqb_neq. intros H. by apply Z.lor_eq_0_iff in H as [? _].
Qed.

Lemma life_boot boot cf key d d' : life false cf key d d' -> life boot cf key d d'.
Proof.
  destruct 1; [by constructor|by apply life_deferred|by apply life_load_fails|by apply life_rejected|by apply life_dep_missing|
    by eapply life_skipped|by apply life_unloaded|by apply life_blacklisted|by apply life_tampered|by apply life_revoked|done|done].
Qed.

Lemma life_static boot cf key d d' : life boot cf key d d' -> dr_path d' = dr_path d /\ dr_hmac d' = dr_hmac d.
Proof. by destruct 1. Qed.

Lemma life_blocked boot cf key d d' : life boot cf key d d' -> dr_state d = TYKID_DRV_STATE_BLOCKED -> dr_state d' = TYKID_DRV_STATE_BLOCKED.
Proof.
  intros H Hb. destruct H as [d ? ? Hs|d Hs|d Hs|d Hs|d H1|d m H1|d H1|d|d b H1|d b|d m _ H1|d n _ H1]; try done;
    try (destruct Hs as (_ & Hs & _); by destruct Hs); try (by destruct H1); rewrite Hb in H1; discriminate H1.
Qed.

Lemma life_blacklist boot cf key d d' : life boot cf key d d' -> has_flag d TYKID_DRV_FLAG_BLACKLISTED = true -> has_flag d' TYKID_DRV_FLAG_BLACKLISTED = true.
Proof.
  intros H Hb. destruct H as [d ? ? Hs|d Hs|d Hs|d Hs|d H1|d m H1|d H1|d|d b H1|d b|d m _ H1|d n _ H1];
    try (destruct Hs as (_ & _ & _ & Hs); congruence); try done; try (rewrite has_flag_add, Hb; done);
    change (has_flag (add_flag d TYKID_DRV_FLAG_BLACKLISTED) TYKID_DRV_FLAG_BLACKLISTED = true); by rewrite has_flag_add, Hb.
Qed.

Lemma life_activates cf key d d' : life false cf key d d' -> dr_state d' = TYKID_DRV_STATE_ACTIVE ->
  dr_state d = TYKID_DRV_STATE_ACTIVE \/ startable d /\ verified_file cf key d.
Proof. intros H Ha. destruct H; try done; [by right|by left]. Qed.

Lemma lives_blocked boot cf key d d' : rtc (life boot cf key) d d' -> dr_state d = TYKID_DRV_STATE_BLOCKED -> dr_state d' = TYKID_DRV_STATE_BLOCKED.
Proof. induction 1 as [|d d1 d' H _ IH]; [done|]. intros Hb. by eapply IH, life_blocked. Qed.

Lemma lives_blacklist boot cf key d d' : rtc (life boot cf key) d d' ->
  has_flag d TYKID_DRV_FLAG_BLACKLISTED = true -> has_flag d' TYKID_DRV_FLAG_BLACKLISTED = true.
Proof. induction 1 as [|d d1 d' H _ IH]; [done|]. intros Hb. by eapply IH, life_blacklist. Qed.

Lemma lives_active cf key d d' : rtc (life false cf key) d d' -> dr_state d' = TYKID_DRV_STATE_ACTIVE ->
  dr_state d = TYKID_DRV_STATE_ACTIVE \/
  dr_state d <> TYKID_DRV_STATE_BLOCKED /\ has_flag d TYKID_DRV_FLAG_BLACKLISTED = false /\ verified_file cf key d.
Proof.
  induction 1 as [d|d d1 d' H _ IH]; [by left|]. intros A. destruct (life_static _ _ _ _ _ H) as [Ep1 Eh1].
  destruct (IH A) as [A1|(A1 & A2 & A3)].
  - destruct (life_activates _ _ _ _ H A1) as [A0|[(_ & S1 & _ & S2) V]]; [by left|by right].
  - right. split_and!.
    + intros Hb. by apply A1, (life_blocked _ _ _ _ _ H).
    + destruct (has_flag d TYKID_DRV_FLAG_BLACKLISTED) eqn:E; [|done]. by rewrite (life_blacklist _ _ _ _ _ H E) in A2.
    + unfold verified_file in *. by rewrite Ep1, Eh1 in A3.
Qed.

(** A module in memory is one whose file was read with the MAC of its
    manifest. *)
Definition mapped_verified cf (key : list Z) d : Prop := base_vaddr d <> 0 -> verified_file cf key d.

Lemma life_mapped boot cf key d d' : life boot cf key d d' -> mapped_verified cf key d -> mapped_verified cf key d'.
Proof.
  intros H M. destruct H as [| | | | | | | |d b _ Hb|d b Hb| |]; intros Hn; try exact (M Hn); try done.
  - destruct Hb as [->| ->]; [done|exact (M Hn)].
  - destruct Hb as [->| ->]; [done|exact (M Hn)].
Qed.

Lemma step_mapped cf key k r r' : reg_step cf key k r r' -> Forall (mapped_verified cf key) r -> Forall (mapped_verified cf key) r'.
Proof.
  intros [r0 i d d' Hi L|r0 b _ _|r0 r1 _ F] M.
  - apply Forall_insert; [done|]. eapply life_mapped; [exact L|]. exact (proj1 (Forall_lookup _ _) M i d Hi).
  - apply Forall_app. split; [done|]. constructor; [|done]. by intros H.
  - eapply Forall_impl; [exact F|]. intros d [_ H] H'. by rewrite H in H'.
Qed.

(** Where no scan intervenes every driver keeps its place. *)
Lemma steps_lookup cf key K (boot : bool) r r' : (forall k, K k -> k <> rescan /\ (k = builtins -> boot = true)) -> reg_steps cf key K r r' ->
  forall i d, r !! i = Some d -> exists d', r' !! i = Some d' /\ rtc (life boot cf key) d d'.
Proof.
  intros HK H. induction H as [r|r r1 r' (k & Hk & S) _ IH]; intros i d Hd; [by exists d|].
  assert (H1 : exists d1, r1 !! i = Some d1 /\ rtc (life boot cf key) d d1).
  { destruct (HK k Hk) as [Hr Hb]. destruct S as [r j d0 d1 Hj L|r b _ _|r r1 -> _]; [|exists d; split; [by apply lookup_app_l_Some|done]|done].
    destruct (decide (j = i)) as [->|Hn]; [|exists d; by rewrite list_lookup_insert_ne].
    rewrite Hd in Hj. injection Hj as <-. exists d1. rewrite list_lookup_insert_eq by (by eapply lookup_lt_Some). split; [done|].
    apply rtc_once. destruct k; [by apply life_boot|by rewrite (Hb eq_refl)|by apply life_boot]. }
  destruct H1 as (d1 & H1 & L1). destruct (IH i d1 H1) as (d' & H2 & L2). exists d'. split; [done|by etrans].
Qed.

End gate_props.

(** ** The choice of drivers *)

(** The dependency is chosen, unless it is none or blocked. *)
Definition satisfied (r : list tykid_driver_desc_t) (sel : nat -> bool) (dep : Z) : Prop :=
  valid_dep r dep = true -> forall o, r !! Z.to_nat dep = Some o -> dr_state o <> TYKID_DRV_STATE_BLOCKED -> sel (Z.to_nat dep) = true.

Definition closed (r : list tykid_driver_desc_t) (sel : nat -> bool) : Prop :=
  forall i d dep, r !! i = Some d -> sel i = true -> dep ∈ dr_deps d -> satisfied r sel dep.

Definition incl (s1 s2 : nat -> bool) : Prop := forall i, s1 i = true -> s2 i = true.

Lemma incl_same sel : incl sel sel.
Proof. by intros i. Qed.

Definition unchosen (r : list tykid_driver_desc_t) (sel : nat -> bool) : nat := length (filter (fun j => sel j = false) (seq 0 (length r))).

Lemma unchosen_add r sel j : (j < length r)%nat -> sel j = false -> (unchosen r (nupd sel j true) < unchosen r sel)%nat.
Proof.
  intros Hj Hs. unfold unchosen. assert (Hin : j ∈ seq 0 (length r)) by (apply elem_of_seq; lia).
  apply elem_of_Permutation in Hin as [l Hl]. rewrite Hl. rewrite !filter_cons. rewrite nupd_eq, Hs. cbn [length].
  destruct (decide (true = false)); [done|]. destruct (decide (false = false)); [|done]. cbn [length].
  enough (length (filter (fun j0 => nupd sel j true j0 = false) l) <= length (filter (fun j0 => sel j0 = false) l))%nat by lia. clear.
  induction l as [|x l IH]; [done|]. rewrite !filter_cons. assert (H : nupd sel j true x = false -> sel x = false) by (unfold nupd; by destruct (Nat.eqb x j)).
  destruct (decide (nupd sel j true x = false)), (decide (sel x = false)); cbn [length]; (lia || tauto).
Qed.

(** What a pass keeps, from the choice [sel0] it starts with. *)
Record pull_inv (r : list tykid_driver_desc_t) (sel0 : nat -> bool) (a : (nat -> bool) * bool) : Prop := {
  pi_sub : incl sel0 (fst a);
  pi_same : snd a = false -> fst a = sel0;
  pi_less : snd a = true -> (unchosen r (fst a) < unchosen r sel0)%nat;
  pi_least : forall s2, closed r s2 -> incl sel0 s2 -> incl (fst a) s2 }.

Lemma pull_step r sel0 a i d dep : pull_inv r sel0 a -> r !! i = Some d -> fst a i = true -> dep ∈ dr_deps d ->
  pull_inv r sel0 (pull r a dep) /\ incl (fst a) (fst (pull r a dep)) /\ (snd (pull r a dep) = false -> snd a = false /\ satisfied r sel0 dep).
Proof.
  intros H Hi Ha Hd. destruct a as [sel ch]. cbn [fst snd] in *. unfold pull.
  destruct (valid_dep r dep) eqn:Ev; cbn [negb]; [|split_and!; [done|apply incl_same|cbn [fst snd]; intros ->; split; [done|]; intros ?; congruence]].
  destruct (r !! Z.to_nat dep) as [o|] eqn:Eo; [|split_and!; [done|apply incl_same|cbn [fst snd]; intros ->; split; [done|]; intros ? o; congruence]].
  destruct (state_is o TYKID_DRV_STATE_BLOCKED) eqn:Eb.
  { apply state_is_spec in Eb. split_and!; [done|apply incl_same|cbn [fst snd]; intros ->; split; [done|]]. intros _ o' Eo' Hb. congruence. }
  apply state_is_not in Eb. destruct (sel (Z.to_nat dep)) eqn:Es; cbn [negb].
  { split_and!; [done|apply incl_same|]. cbn [fst snd]. intros ->. split; [done|]. intros _ o' _ _. by rewrite <- (pi_same _ _ _ H eq_refl). }
  destruct H as [Hsub Hsame Hless Hleast]. cbn [fst snd] in *.
  assert (Hj : (Z.to_nat dep < length r)%nat) by (by eapply lookup_lt_Some). assert (Hi2 : incl sel (nupd sel (Z.to_nat dep) true)).
  { intros k Hk. unfold nupd. by destruct (Nat.eqb k (Z.to_nat dep)). }
  split_and!; [constructor; cbn [fst snd]|done|done].
  - intros k Hk. by apply Hi2, Hsub.
  - done.
  - intros _. pose proof (unchosen_add r sel _ Hj Es). destruct ch; [specialize (Hless eq_refl); lia|]. by rewrite <- (Hsame eq_refl).
  - intros s2 Hc Hs k Hk. unfold nupd in Hk. destruct (k =? Z.to_nat dep)%nat eqn:Ek; [|by apply (Hleast s2 Hc Hs)].
    apply Nat.eqb_eq in Ek. rewrite Ek.
    apply (Hc i d dep Hi) with o; try done. by apply (Hleast s2 Hc Hs).
Qed.

Lemma pull_fold r sel0 i d : r !! i = Some d -> forall ds a, pull_inv r sel0 a -> fst a i = true -> (forall dep, dep ∈ ds -> dep ∈ dr_deps d) ->
  let a' := fold_left (pull r) ds a in
  pull_inv r sel0 a' /\ incl (fst a) (fst a') /\ (snd a' = false -> snd a = false /\ forall dep, dep ∈ ds -> satisfied r sel0 dep).
Proof.
  intros Hi. induction ds as [|dep ds IH]; intros a H Ha Hd; cbn [fold_left]; [split_and!; [done|apply incl_same|]; intros ->; split; [done|]; intros dep Hin; by apply not_elem_of_nil in Hin|].
  destruct (pull_step r sel0 a i d dep H Hi Ha) as (H1 & I1 & S1); [apply Hd; left|].
  destruct (IH (pull r a dep) H1) as (H2 & I2 & S2); [by apply I1|intros x Hx; apply Hd; by right|].
  split_and!; [done|intros k Hk; by apply I2, I1|]. intros E. destruct (S2 E) as [E1 Hs]. destruct (S1 E1) as [E0 Hs1]. split; [done|].
  intros x Hx. apply elem_of_cons in Hx as [->|Hx]; [done|by apply Hs].
Qed.

Lemma pull_pass_spec r sel0 : forall l n a, (forall k d, l !! k = Some d -> r !! (n + k)%nat = Some d) -> pull_inv r sel0 a ->
  let a' := pull_pass l n r a in
  pull_inv r sel0 a' /\ (snd a' = false -> snd a = false /\ forall k d dep, l !! k = Some d -> sel0 (n + k)%nat = true -> dep ∈ dr_deps d -> satisfied r sel0 dep).
Proof.
  induction l as [|d l IH]; intros n a Hl H; cbn [pull_pass]; [split; [done|]; by intros ->|].
  assert (Hn : r !! n = Some d) by (rewrite <- (Nat.add_0_r n); by apply Hl).
  set (a1 := if negb (fst a n) then a else fold_left (pull r) (dr_deps d) a).
  assert (H1 : pull_inv r sel0 a1 /\ (snd a1 = false -> snd a = false /\ (fst a n = true -> forall dep, dep ∈ dr_deps d -> satisfied r sel0 dep))).
  { unfold a1. destruct (fst a n) eqn:E; cbn [negb]; [|split; [done|]; by intros ->].
    destruct (pull_fold r sel0 n d Hn (dr_deps d) a H E) as (Ha & _ & Hb); [done|]. split; [done|]. intros E1. destruct (Hb E1). by split. }
  destruct H1 as [H1 Hb]. destruct (IH (S n) a1) as [H2 Hc]; [intros k d' Hk; replace (S n + k)%nat with (n + S k)%nat by lia; by apply Hl|done|].
  split; [done|]. intros E. destruct (Hc E) as [E1 Hk]. destruct (Hb E1) as [E0 Hd]. split; [done|]. intros [|k] d' dep Hx Hs Hin.
  - injection Hx as <-. rewrite Nat.add_0_r in Hs. apply Hd; [|done]. by rewrite (pi_same _ _ _ H E0).
  - apply (Hk k d'); [done| |done]. by replace (S n + k)%nat with (n + S k)%nat by lia.
Qed.

Lemma pull_loop_spec r : forall fuel sel, (unchosen r sel < fuel)%nat -> exists sel', pull_loop fuel r sel = Some sel' /\
  incl sel sel' /\ closed r sel' /\ forall s2, closed r s2 -> incl sel s2 -> incl sel' s2.
Proof.
  induction fuel as [|fuel IH]; intros sel Hf; [lia|]. cbn [pull_loop].
  destruct (pull_pass_spec r sel r 0 (sel, false)) as [H Hc]; [done|by constructor; try apply incl_same|].
  destruct (pull_pass r 0 r (sel, false)) as [sel1 ch]. destruct H as [Hsub Hsame Hless Hleast]. cbn [fst snd] in *. destruct ch.
  - destruct (IH sel1) as (sel' & -> & I1 & C1 & L1); [specialize (Hless eq_refl); lia|]. exists sel'.
    split_and!; [done|intros k Hk; by apply I1, Hsub|done|]. intros s2 C2 I2. apply L1; [done|]. by apply Hleast.
  - exists sel1. specialize (Hsame eq_refl). subst sel1. destruct (Hc eq_refl) as [_ Hk]. split_and!; [done|apply incl_same| |done].
    intros i d dep Hi Hs Hin. by apply (Hk i d).
Qed.

(** C25. The loop that pulls in dependencies ends, with the least set that
    contains the chosen drivers and every dependency that is not blocked. *)
Theorem dependency_closure (r : list tykid_driver_desc_t) (sel : nat -> bool) :
  exists sel', pull_deps r sel = Some sel' /\ incl sel sel' /\ closed r sel' /\
    forall s2, closed r s2 -> incl sel s2 -> incl sel' s2.
Proof.
  apply pull_loop_spec. unfold unchosen. pose proof (length_filter (fun j => sel j = false) (seq 0 (length r))) as H. rewrite length_seq in H. lia.
Qed.

(** Without an IOMMU neither network nor USB controllers are essential, and
    drivers of the generic network class and of xHCI are not needed. *)
Theorem selector_contains_dma (hw : tykid_hw_enumset_t) :
  let mask := ty_selector_compute_mask hw in
  Z.land mask TY_ESSENTIAL_IOMMU = 0 ->
  Z.land mask TY_ESSENTIAL_NIC = 0 /\ Z.land mask TY_ESSENTIAL_USB_HOST = 0 /\
  forall d, hw_classes d = [0x00020003] \/ hw_classes d = [0x00050001] -> ty_selector_driver_needed d mask = false.
Proof.
  intros mask Hi. assert (H : Z.land mask TY_ESSENTIAL_NIC = 0 /\ Z.land mask TY_ESSENTIAL_USB_HOST = 0).
  { unfold mask, ty_selector_compute_mask in *. destruct (devices hw) as [|dev l]; [done|].
    set (m := if iommu_active hw then _ else _) in *. clearbody m. destruct (Z.eqb_spec (Z.land m TY_ESSENTIAL_IOMMU) 0) as [E|E]; cbn [negb] in *; [|done].
    assert (C : forall x y f, Z.land f y = 0 -> Z.land x y = 0 -> Z.land (Z.land x (Z.lnot f)) y = 0).
    { intros x y f _ H. by rewrite <- Z.land_assoc, (Z.land_comm (Z.lnot f)), Z.land_assoc, H, Z.land_0_l. }
    assert (S : forall x f, Z.land (Z.land x (Z.lnot f)) f = 0).
    { intros x f. rewrite <- Z.land_assoc, (Z.land_comm (Z.lnot f)), Z.land_lnot_diag. apply Z.land_0_r. }
    destruct (Z.eqb_spec (Z.land m TY_ESSENTIAL_NIC) 0) as [En|En]; cbn [negb] in *.
    - destruct (Z.eqb_spec (Z.land m TY_ESSENTIAL_USB_HOST) 0) as [Eu|Eu]; cbn [negb]; [done|]. split; [by apply C|apply S].
    - destruct (Z.eqb_spec (Z.land (Z.land m (Z.lnot TY_ESSENTIAL_NIC)) TY_ESSENTIAL_USB_HOST) 0) as [Eu|Eu]; cbn [negb]; [by rewrite S|].
      split; [apply C; [done|apply S]|apply S]. }
  destruct H as [Hn Hu]. split; [done|]. split; [done|]. intros d Hd. unfold ty_selector_driver_needed, ty_drv_class_map.
  destruct Hd as [Hd|Hd]; cbn [needed_loop]; rewrite Hd; cbn -[Z.land]; [change 128 with TY_ESSENTIAL_NIC|change 64 with TY_ESSENTIAL_USB_HOST]; unfold TY_ESSENTIAL_NIC, TY_ESSENTIAL_USB_HOST in *.
  - by rewrite Hn.
  - by rewrite Hu.
Qed.

(** Drivers of Intel network cards are outside the table, hence needed under
    every mask. *)
Theorem selector_misses_intel_nics (d : tykid_driver_desc_t) (mask : Z) : hw_classes d = [0x00020002] -> ty_selector_driver_needed d mask = true.
Proof. intros H. unfold ty_selector_driver_needed, ty_drv_class_map. cbn [needed_loop]. by rewrite H. Qed.

(** ** A machine with two drivers

    A read-only disk at [/drv], a loader that records what it loads, and a
    clock that stands still. *)

Definition disk := list (list Z * list Z).

Fixpoint disk_find (f : disk) (i : Z) (name : list Z) : Z :=
  match f with [] => E_NOENT | (n, _) :: f => if bool_decide (n = name) then i else disk_find f (i + 1) name end.
Definition disk_data (f : disk) (i : Z) : list Z := default [] (snd <$> f !! Z.to_nat i).

Definition disk_ops (f : disk) : vfs_file_ops unit :=
  FileOps (Some (fun rel _ _ w => let i := disk_find f 0 rel in Some (if i <? 0 then i else 0, i, w))) None
    (Some (fun i off len w => Some (0, take (Z.to_nat len) (drop (Z.to_nat off) (disk_data f i)), w))) None None
    (Some (fun rel w => let i := disk_find f 0 rel in
       Some (if i <? 0 then i else 0, Some (Stat i 0 1 (Z.of_nat (length (disk_data f i))) 0 0), w)))
    None None None None None
    (Some (fun _ i w => Some (match f !! Z.to_nat i with Some (n, _) => (0, Some (VDirent i 1 n), w) | None => (E_NOENT, None, w) end)))
    None None None None.

(** [fd0] says whether descriptor 0 is taken. *)
Definition disk_vfs (f : disk) (fd0 : bool) : vfs unit :=
  Vfs (fun i => if i =? 0 then Drv true (bytes "disk") (bytes "/drv") 4 None (disk_ops f) else Drv false [] [] 0 None no_ops) 1
      (fun i => VFile (fd0 && (i =? 0)) 1 0 0 0) false tt.

Definition ex_env (f : disk) (fd0 : bool) : env unit (list (list Z)) := ENV 0 [] (disk_vfs f fd0) [].
Definition ex_cfg : tykid_config_t (list (list Z)) :=
  CFG (Some (bytes "/drv")) (fun _ x => (4096, x)) (fun _ _ x => x) (Some (fun p _ x => (TYKID_OK, 0x200000, x ++ [p]))) (Some (fun _ x => (TYKID_OK, x)))
      None true 3 500 true.
Definition ex_tsc (x : list (list Z)) : Z * list (list Z) := (0, x).

Definition ex_key : list Z := replicate 32 7.
Definition ex_ctx (r : list tykid_driver_desc_t) : tykid_gate_ctx :=
  CTX TY_CTX_MAGIC_A TY_CTX_MAGIC_B TYKID_KOBALT_EXPECTED ex_key ex_key false 0 r (zero_graph 0) 0 (TOT 0 0 0 0 0 0).

Definition ex_pci_ko : list Z := bytes "code of the bus driver".
Definition ex_nic_ko : list Z := bytes "code of the network driver".
Definition ex_pci_mac : list Z := Eval vm_compute in file_mac ex_key ex_pci_ko.
Definition ex_nic_mac : list Z := Eval vm_compute in file_mac ex_key ex_nic_ko.
Definition ex_text (name : string) (mac : list Z) (rest : list (list Z)) : list Z :=
  text (entry "NAME" (bytes name) :: entry "PATH" (bytes name ++ bytes ".ko") :: entry "HMAC" (hexs mac) :: rest).

Definition ex_disk (nic_lines : list (list Z)) : disk :=
  [(bytes "pci.ko", ex_pci_ko); (bytes "nic.ko", ex_nic_ko); (bytes "pci.tykid-manifest", ex_text "pci" ex_pci_mac [entry "CLASS" (digits 8 16 0x00090001)]);
   (bytes "nic.tykid-manifest", ex_text "nic" ex_nic_mac (entry "CLASS" (digits 8 16 0x00020002) :: nic_lines))].

Definition ex_hw : tykid_hw_enumset_t := HW [DEV 0x8086 0x100E 0x020000 0x00020002 11 0xFEB00000 0x20000] true.

(** What a run leaves: the statuses, the drivers' states and the modules
    loaded. *)
Definition outcome (r : option (list Z * tykid_gate_ctx * env unit (list (list Z)))) : option (list Z * list tykid_drv_state_t * list (list Z)) :=
  '(sts, c, e) ← r; Some (sts, map dr_state (reg c), e_ext e).

(** Calls one after the other. *)
Definition ex_call := tykid_gate_ctx -> env unit (list (list Z)) -> option (Z * tykid_gate_ctx * env unit (list (list Z))).
Fixpoint ex_run (ops : list ex_call) (c : tykid_gate_ctx) (e : env unit (list (list Z))) : option (list Z * tykid_gate_ctx * env unit (list (list Z))) :=
  match ops with
  | [] => Some ([], c, e)
  | op :: ops => '(st, c, e) ← op c e; '(sts, c, e) ← ex_run ops c e; Some (st :: sts, c, e)
  end.
Definition x_scan : ex_call := fun c e => ty_registry_scan ex_cfg 10 c e.
Definition x_load (n : string) : ex_call := fun c e => tykid_load_driver ex_tsc ex_cfg 3 c e (bytes n).
Definition x_revoke (n : string) : ex_call := fun c e => tykid_revoke_driver ex_cfg c e (bytes n).
Definition x_recheck : ex_call := fun c e => tykid_recheck_all ex_cfg 3 c e.
Definition x_probe (h : Z) : ex_call := fun c e => Some (TYKID_OK, hw_probed c h, e).
Definition x_arbitrate (topology : Z) : ex_call := fun c e =>
  '(st, _, c, e) ← tykid_arbitrate ex_tsc ex_cfg 10 c e ex_hw topology (RES [] 0 0); Some (st, c, e).


(** A revoked driver is forgotten when the topology changes: the registry is
    read again, and arbitration loads the driver. *)
Theorem rescan_forgets_revocation :
  outcome (ex_run [x_scan; x_load "nic"; x_revoke "nic"; x_load "nic"; x_load "pci"; x_probe 1; x_arbitrate 2] (ex_ctx []) (ex_env (ex_disk []) true))
  = Some ([TYKID_OK; TYKID_OK; TYKID_OK; TYKID_ERR_THREAT_BLOCKED; TYKID_OK; TYKID_OK; TYKID_OK],
          [TYKID_DRV_STATE_ABSENT; TYKID_DRV_STATE_ACTIVE], [bytes "/drv/nic.ko"; bytes "/drv/pci.ko"; bytes "/drv/nic.ko"]).
Proof. vm_compute. reflexivity. Qed.

(** A recheck right after a load takes the intact driver for tampered. *)
Theorem recheck_blocks_intact :
  outcome (ex_run [x_scan; x_load "nic"; x_recheck] (ex_ctx []) (ex_env (ex_disk []) true))
  = Some ([TYKID_OK; TYKID_OK; TYKID_ERR_DRIVER_CORRUPT], [TYKID_DRV_STATE_ABSENT; TYKID_DRV_STATE_BLOCKED], [bytes "/drv/nic.ko"]).
Proof. vm_compute. reflexivity. Qed.

(** A deferred driver is never loaded: every load reports success and
    leaves it pending, and the count of loaded drivers grows. *)
Theorem lazy_never_loads :
  let r := ex_run [x_scan; x_load "nic"; x_load "pci"; x_load "nic"] (ex_ctx []) (ex_env (ex_disk [entry "FLAGS" (digits 8 16 TYKID_DRV_FLAG_LAZY)]) true) in
  outcome r = Some ([TYKID_OK; TYKID_OK; TYKID_OK; TYKID_OK], [TYKID_DRV_STATE_ACTIVE; TYKID_DRV_STATE_PENDING], [bytes "/drv/pci.ko"]) /\
  (t_loaded ∘ tot ∘ snd ∘ fst <$> r) = Some 3.
Proof. split; vm_compute; reflexivity. Qed.

(** Descriptor 0 counts as not open: the first chunk of a file that gets it
    is read twice. *)
Theorem first_descriptor_reads_twice :
  let data := replicate 4096 1 ++ [2] in
  ((fun r => concat (snd (fst r))) <$> read_chunks 3 (ex_env [(bytes "a", data)] false) (bytes "/drv/a")) = Some (replicate 4096 1 ++ data) /\
  ((fun r => concat (snd (fst r))) <$> read_chunks 3 (ex_env [(bytes "a", data)] true) (bytes "/drv/a")) = Some data.
Proof. split; vm_compute; reflexivity. Qed.

(** A loader that reports success without a base address: the call reports
    success and the driver has failed. *)
Theorem load_ok_yet_failed {W X} (tsc : X -> Z * X) (cf : tykid_config_t X) (c : tykid_gate_ctx) (e : env W X) (i : nat) d path :
  (forall x, tsc x = (0, x)) -> ko_load_fn cf = Some (fun _ _ x => (TYKID_OK, 0, x)) -> probe_timeout_ms cf = 500 -> has_flag d TYKID_DRV_FLAG_LAZY = false ->
  load_module tsc cf c e i d path = (TYKID_OK, fail_one c i d, e).
Proof.
  intros Ht Hl Hp Hz. unfold load_module. rewrite Hz, Hl, Hp. unfold read_tsc. rewrite Ht.
  cbn [attempt_loop]. unfold read_tsc. rewrite Ht. by destruct e.
Qed.

(** ** Witnesses *)

Definition ex_nic_drv : tykid_driver_desc_t :=
  DRV (bytes "nic") (bytes "nic.ko") [0x00020002] 0 0 0 0 0 [] 128 ex_nic_mac TYKID_DRV_STATE_ABSENT TY_THREAT_NONE 0 0 [] [].

Definition ex_small : disk := [(bytes "nic.ko", ex_nic_ko)].

Lemma ex_serves v fd f data : data = disk_data f (f_priv (g_fd v fd)) -> 0 <= fd < 256 -> used (g_fd v fd) = true -> g_fd_lk v = false -> ops (g_drv v (f_drv (g_fd v fd))) = disk_ops f ->
  serves (fun _ => True) v fd data.
Proof.
  intros -> Hf Hu Hl Ho. constructor; rewrite ?Ho; try done. eexists. split; [reflexivity|]. intros off len w _ _ _. exists 0, w. done.
Qed.

Lemma integrity_exact_witness : exists e1 e2, let f := ex_small in
  ty_integrity_check_file 1 (ex_ctx []) (ex_env f true) (bytes "/drv/nic.ko") ex_nic_mac = Some (TYKID_OK, e1) /\
  ty_integrity_check_file 1 (ex_ctx []) e1 (bytes "/drv/nic.ko") ex_nic_mac = Some (TYKID_ERR_DRIVER_CORRUPT, e2).
Proof.
  destruct (reopen (ex_env ex_small true) (bytes "/drv/nic.ko")) as [[fd v]|] eqn:E.
  2: { apply (f_equal (fun o => match o with Some _ => true | None => false end)) in E. vm_compute in E. discriminate E. }
  assert (Ef : fd = 1) by (apply (f_equal (from_option fst 0)) in E; vm_compute in E; done).
  assert (Ev : v = snd (default (0, disk_vfs [] true) (reopen (ex_env ex_small true) (bytes "/drv/nic.ko")))) by (by rewrite E).
  destruct (integrity_exact (fun _ => True) (ex_ctx []) (ex_env ex_small true) (bytes "/drv/nic.ko") ex_nic_ko ex_nic_mac fd v 1) as (e1 & H1 & H2).
  - reflexivity.
  - split; [|vm_compute; lia]. apply (bool_decide_unpack _). vm_compute. exact I.
  - reflexivity.
  - by left.
  - exact E.
  - lia.
  - rewrite Ev. subst fd. apply (ex_serves _ 1 ex_small); [vm_compute; reflexivity|lia|vm_compute; reflexivity..].
  - rewrite Ev. subst fd. vm_compute. reflexivity.
  - vm_compute. lia.
  - destruct H2 as [e2 H2]; [vm_compute; lia|]. exists e1, e2.
    assert (V1 : verdict (hmac_key (ex_ctx [])) ex_nic_ko ex_nic_mac = TYKID_OK) by (vm_compute; reflexivity).
    assert (V2 : verdict (hmac_key (ex_ctx [])) [] ex_nic_mac = TYKID_ERR_DRIVER_CORRUPT) by (vm_compute; reflexivity).
    rewrite V1 in H1. rewrite V2 in H2. split; [exact H1|exact H2].
Defined.

Lemma ex_load : exists c' e', tykid_load_driver ex_tsc ex_cfg 1 (ex_ctx [ex_nic_drv]) (ex_env ex_small true) (bytes "nic") = Some (TYKID_OK, c', e') /\
  map (fun d => (dr_state d, base_vaddr d =? 0)) (reg c') = [(TYKID_DRV_STATE_ACTIVE, false)] /\
  length (reg (tykid_kobalt_register_builtins c')) = 34%nat.
Proof.
  destruct (tykid_load_driver _ _ _ _ _ _) as [[[st c'] e']|] eqn:E.
  2: { apply (f_equal (fun o => match o with Some _ => true | None => false end)) in E. vm_compute in E. discriminate E. }
  exists c', e'. assert (H : (fun '(st, c, _) => (st, map (fun d => (dr_state d, base_vaddr d =? 0)) (reg c),
    length (reg (tykid_kobalt_register_builtins c)))) <$> Some (st, c', e') = Some (TYKID_OK, [(TYKID_DRV_STATE_ACTIVE, false)], 34%nat)) by (rewrite <- E; vm_compute; reflexivity).
  cbn [fmap option_fmap option_map] in H. injection H as -> -> ->. split_and!; reflexivity.
Qed.

(** A load and then the registration of the linked drivers. *)
Lemma gate_refines_lifecycle_witness : exists c', calls (W:=unit) ex_tsc ex_cfg (fun k => k <> rescan) (ex_ctx [ex_nic_drv]) c' /\
  length (reg c') = 34%nat /\ reg_steps (W:=unit) ex_cfg ex_key (fun k => k <> rescan) [ex_nic_drv] (reg c').
Proof.
  destruct ex_load as (c' & e' & H & _ & Hl). exists (tykid_kobalt_register_builtins c').
  assert (R : calls (W:=unit) ex_tsc ex_cfg (fun k => k <> rescan) (ex_ctx [ex_nic_drv]) (tykid_kobalt_register_builtins c')).
  { eapply rtc_l; [exists ordinary; split; [done|eapply call_load, H]|]. apply rtc_once. exists builtins. split; [done|apply call_register]. }
  split; [exact R|]. split.
  - exact Hl.
  - apply (gate_refines_lifecycle ex_tsc ex_cfg (fun k => k <> rescan) (ex_ctx [ex_nic_drv])); [reflexivity|exact R].
Defined.

Definition ex_blocked : tykid_driver_desc_t := set_blocked ex_nic_drv TY_THREAT_TAMPERED.

